(* ===== verification/_CoqProject ===== *)
-Q . S2P
Prelude.v
Json.v
Serve.v
State.v
Auth.v
Server.v
Protocol.v
Safety.v
NetAddr.v
Nft.v
NftPolicy.v
NftValidate.v
NftKernel.v
Ifupdown.v
Tftp.v
Netconfig.v
NetExec.v
NetLaws.v
NetSafety.v
Host.v
Ledger.v
LedgerInv.v
Config.v
KeyText.v
ConfigInv.v
AddrText.v
Allocate.v
AllocInv.v
LeaseImport.v
Sightings.v
Delegate.v
Advert.v
Report.v
BookInv.v
BookSafety.v
BookGrant.v
DelegateInv.v
ReportInv.v
BookExample.v
Dnsmasq.v
LeaseText.v
Disclosure.v
LeaseFile.v
Manager.v
ManagerInv.v
Handover.v
HandoverInv.v
HandoverLive.v
HandoverExample.v
Suggest.v
Dns.v
DnsInv.v
Convert.v
ConvertInv.v
Takeover.v
Dhcp4.v
Dhcp4Inv.v
Dhcp6.v
Dhcp6Inv.v
Dhcp6Grant.v
WireExample.v
Probes.v
Mdns.v
Reflect.v
ReflectInv.v
Advertise.v
AdvertiseInv.v
MdnsNat.v
NatInv.v
MdnsService.v
MdnsInv.v
MdnsExample.v
MdnsFeature.v
Resolver.v
ResolverInv.v
MdnsQuery.v
ResolverExample.v
Registry.v
RegistryInv.v
RegistryExample.v
