(* ===== verification/Prelude.v ===== *)
(** * ghostd: a verification development

    ghostd is a root daemon that changes a host's firewall, network configuration, DHCP and DNS
    authority and mDNS relay on behalf of remote callers of an overlay network.  A change is a
    lease: it is applied with a rollback timer armed, and stays only if a second call over a fresh
    connection confirms it in time.  The address book grants DHCP leases and answers DNS from one
    ledger, can take over from a dnsmasq and hand back to it, and can be mirrored by a warm standby.
    This library translates the program's Go sources (src/) into Rocq functions and proves what
    they promise.

    ** Conventions

    Pure Go functions are Rocq functions of the same name.  [(T, error)] is [result E T].  Code
    that changes state passes the state explicitly: [prog] (Server.v) threads the daemon's world
    through the RPC handlers, [act] the host's network (NetExec.v) or the host of a takeover
    (Handover.v), [nprog] (Registry.v) a node of the registry, and a bbolt transaction is a function
    on [ledger] (Ledger.v) that leaves the ledger alone when it fails.  Every point at which a call
    to the outside can fail or the process can be killed is an oracle of the environment; the
    theorems quantify over all of them.  Goroutines are steps of a relation, so that a theorem about
    its runs covers every interleaving.  Strings are byte strings, integers are [Z] with their width
    written out where it matters (int64 end times, 16-bit ports, 32- and 128-bit addresses).

    Code outside src/ is a parameter, and what is relied on of it is a class or a named hypothesis
    with an instance in an example module: the nft, ip, ifup and sysctl tools ([NftLaws],
    [RoutingTool], the worlds of NetExec.v), SHA-256 (it prints lowercase hexadecimal digits of a
    fixed length), the reverse names, the text of a record and the case folding of the DNS library
    ([CaseFold]), symbolic links (an evaluated path is clean and absolute), the overlay's local API,
    the order of Go's maps, and the replies of a leader that does not lie to its standby.  Packets
    are the values the DHCP and DNS libraries parse, with the ranges of their fields as hypotheses.

    ** Files

    The lease protocol and its domains:
    - Prelude, Json: results, Go strings, tactics and hints; encoding/json with its UTF-8 rules.
    - State (internal/state): atomic file replacement under every crash, the domain records, the
      timers of the service manager.
    - Auth (internal/auth, internal/overlay): who may deploy and report.
    - Server (internal/rpc/server.go, cmd/ghostd/main.go): Apply, Confirm, the revert process and
      boot recovery over abstract executors ([Executor]); Protocol: the daemon as a transition
      system with crashes and its invariant [sys_inv]; Safety: the theorems about every run.
      Executors meet the RPC layer through the class [ExecLaws].
    - NetAddr: net/netip, net.IP, net.ParseMAC and host:port texts, byte by byte; AddrText: printed
      addresses read back as themselves.
    - Nft, NftPolicy, NftValidate (internal/nft): decoding, validation and rendering of the
      firewall, the packet semantics of what is rendered; NftKernel: snapshot, commit and restore
      through the nft tool.
    - Ifupdown, Netconfig, NetExec (internal/netconfig): the boot files' include tree, requests,
      and the operations on a host; NetLaws: frames and the undo record; NetSafety: theorems.
    - Host: firewall and network executors on one host, and the lease theorem for them.
    - MdnsFeature (internal/rpc/mdns.go, cmd/ghostd/mdns_feature.go): the lease of the mDNS
      configuration, its document, its recovery and the watcher.
    - Disclosure (internal/observation, cmd/ghostd/report.go): what an adoption's evidence and a
      host's report say, and to whom.

    The address book (internal/addressbook):
    - Ledger, LedgerInv (store.go, index.go): the lease ledger as a record of buckets, its secondary
      indexes and log, and the invariant [wf] that relates them.
    - Config, KeyText, ConfigInv (config.go): the DHCP configuration, which texts can be parts of
      ledger keys, and what an accepted configuration guarantees.
    - Allocate, AllocInv (allocate.go), LeaseImport: granting, releasing, expiring and importing
      leases; Sightings (observations.go): sightings and repairs; Delegate (pd.go): prefixes and
      their routes; Report (identity.go, replicate.go): host reports and replicated events; Suggest
      (suggest.go): the peer inventory and the repairs it suggests.
    - BookInv, BookSafety, BookGrant, DelegateInv, ReportInv: every operation keeps [wf]; the book
      as a transition system; what a grant is; delegation; reports and the standby's ledger.
    - Dnsmasq, LeaseText, LeaseFile (dnsmasq.go): lease files, read and written.
    - Manager, ManagerInv (server.go): the listeners of a configuration and the sockets they hold;
      Serve, Advert, Tftp (internal/coredhcpserver/serve.go, ra.go, tftp.go): the goroutines of
      DHCP listeners, router advertisements, and the files TFTP gives out.
    - Handover, HandoverInv, HandoverLive (handover.go, legacy.go, cmd/ghostd): the takeover from
      dnsmasq and back as a transition system with crashes; Convert, ConvertInv (convert.go,
      dnsmasq_options.go, legacy.go): reading, checking and converting a dnsmasq configuration;
      Takeover: the two together; Probes (probes.go, serving_linux.go): the checks it ends with.
    - Dns, DnsInv (dns.go); Dhcp4, Dhcp4Inv, Dhcp6, Dhcp6Inv, Dhcp6Grant (coredhcpserver/handle.go,
      core_plugin.go, server.go, dhcp6.go): answers and packets, over the ledger's operations.
    - Registry, RegistryInv (internal/replica, internal/rpc/dhcp.go, dnsmasq.go): the calls of a
      registry, the standby and its promotion.

    Multicast DNS and the resolver:
    - Mdns, Reflect, ReflectInv, Advertise, AdvertiseInv, MdnsNat, NatInv, MdnsService, MdnsInv
      (internal/mdns): names, the directed relay, advertisement, translation, and the service.
    - Resolver, ResolverInv, MdnsQuery (internal/resolver, internal/mdns/query.go, lan.go): the
      policy of each container, the plugins and the Corefile, and the lookups on the LAN.

    BookExample, HandoverExample, WireExample, MdnsExample, ResolverExample and RegistryExample, and
    the example modules of other files, hold concrete systems on which the theorems are applied, and
    the situations in which the code does not do what it means to.

    ** Theorems

    Leases: an unconfirmed change is always undone (by the timer, by a later apply or at boot),
    nothing else is lost or confirmed, and both calls complete when nothing fails (Safety.v, Host.v,
    and MdnsFeature.v for the mDNS domain, where the running service follows the file).  The text
    rendered for a full policy is the printed form of a table that accepts exactly what the policy
    declares, leaves a zone to log in from and does not depend on map order, and a redirect-only one
    filters nothing (NftPolicy.v, NftValidate.v); rollback restores, and changes stay inside the allowed
    files, addresses and routes (NftKernel.v, NetSafety.v).

    Address book: in every reachable ledger the indexes and the log say what the bindings say, and
    nobody but its owner ends or changes a live lease (LedgerInv.v, BookSafety.v); what is granted is
    allowed and free, and a free address is found (BookGrant.v); the prefixes delegated in
    a scope do not overlap and routes converge (DelegateInv.v); DNS answers are exact (DnsInv.v); packets are served by one
    scope, replies say what the ledger holds and offers are honoured (Dhcp4Inv.v, Dhcp6Inv.v,
    Dhcp6Grant.v); a configuration is served entirely or, but for a TFTP server
    whose root changes, what was served before still is, and either way the open sockets are those
    of the listeners (ManagerInv.v, HandoverInv.v); the listeners end when they are closed (Serve.v), router advertisements stay within their bounds (Advert.v),
    and TFTP stays below its root (Tftp.v).

    Takeover: dnsmasq and ghostd never serve together, a recovery completes, leases survive the way
    there and back, and a configuration is taken over only if every line of it is accounted for
    (HandoverInv.v, HandoverLive.v, LeaseFile.v, ConvertInv.v, Takeover.v); a lease that resolves
    passes the probe (Probes.v).  Standby: it is silent until promoted, and one that starts with an
    empty ledger mirrors its leader (RegistryInv.v).  Multicast: the relay carries what its rules compose into and nothing more,
    ports are exact, answers are the advertised records (ReflectInv.v, MdnsInv.v, AdvertiseInv.v).
    Resolver: a container resolves what its policy and its own browsing allow (ResolverInv.v).
    Identity: reports, suggestions and evidence say no more than they may (ReportInv.v, Suggest.v,
    Disclosure.v).

    ** Bounds

    Recursion that is not structural takes fuel, and the amount is enough: [visit] (Ifupdown.v) by
    [visit_fuel]; [walk] (Reflect.v) the potential of its best classes, by [walk_spec]; [scan_pool]
    and [pool_fits] the 65536 addresses Validate limits a pool to; [v6_loop] and [print_groups] the
    eight groups of an address; the pattern matchers, [duration_parts] and [split_str] the length of
    their text, which every round shortens; [count_pages] one page per event and one more;
    [await_serving] the sixty rounds its deadline leaves; [fetch_events] any number, with
    [fetch_completes] for how many suffice.  The includes of a dnsmasq configuration are followed as
    deep as the code follows them.

    ** Not modelled

    The bytes of packets and the sockets that carry them, locks other than by the atomicity of the
    steps they protect, flag parsing and process start-up, generated protobuf code, the datagrams to
    the service manager, read-only status replies, CoreDNS itself with its cache and forwarder, and
    the further plugins of the DHCP chain.  The lease of the DHCP configuration is the refusal
    during a takeover and the change of the manager; its record is that of the other domains. *)

From stdpp Require Export prelude gmap strings list sorting pretty.
From Stdlib Require Export ZArith Lia.
From Stdlib Require Import Ascii.

(** * Results

    A Go function that returns [(T, error)] becomes a function into
    [result E T]; [E] is [string] (the message) except in the RPC layer, where it is a
    gRPC status. *)

Inductive result (E A : Type) : Type :=
| Ok (a : A)
| Err (e : E).
Arguments Ok {E A} a.
Arguments Err {E A} e.

#[global] Instance result_ret E : MRet (result E) := fun A a => Ok a.
#[global] Instance result_bind E : MBind (result E) :=
  fun A B f r => match r with Ok a => f a | Err e => Err e end.
#[global] Instance result_fmap E : FMap (result E) :=
  fun A B f r => match r with Ok a => Ok (f a) | Err e => Err e end.

#[global] Instance result_eq_dec {E A} `{EqDecision E, EqDecision A} :
  EqDecision (result E A).
Proof. solve_decision. Defined.

Definition is_ok {E A} (r : result E A) : bool :=
  match r with Ok _ => true | Err _ => false end.

(** [check b e] is the guard [if !b { return e }]. *)
Definition check {E} (b : bool) (e : E) : result E unit :=
  if b then Ok tt else Err e.

(** [fail_if b e] is the guard [if b { return e }]. *)
Definition fail_if {E} (b : bool) (e : E) : result E unit :=
  if b then Err e else Ok tt.

(** [for_each f l] is [for _, x := range l { if err := f(x); err != nil { return err } }]. *)
Fixpoint for_each {E A} (f : A -> result E unit) (l : list A) : result E unit :=
  match l with
  | [] => Ok tt
  | x :: l' => match f x with Ok _ => for_each f l' | Err e => Err e end
  end.

(** The same loop with an accumulator threaded through the iterations. *)
Fixpoint fold_m {E A S} (f : S -> A -> result E S) (s : S) (l : list A) : result E S :=
  match l with
  | [] => Ok s
  | x :: l' => match f s x with Ok s' => fold_m f s' l' | Err e => Err e end
  end.

(** * Go strings (byte strings) *)

Declare Scope go_scope.
Delimit Scope go_scope with go.
Infix "=?s" := String.eqb (at level 70) : go_scope.
Infix "+++" := String.append (at level 60, right associativity) : go_scope.
Open Scope go_scope.
#[global] Arguments String.append !s1 s2 : simpl nomatch.

Definition empty_str : string := EmptyString.
Definition is_empty (s : string) : bool :=
  match s with EmptyString => true | _ => false end.

Definition dquote : string := String "034"%char EmptyString.
Definition newline : string := String "010"%char EmptyString.

Fixpoint concat_str (l : list string) : string :=
  match l with [] => EmptyString | s :: l' => s +++ concat_str l' end.

(** strings.Join *)
Fixpoint join (sep : string) (l : list string) : string :=
  match l with
  | [] => EmptyString
  | [s] => s
  | s :: l' => s +++ sep +++ join sep l'
  end.

(** strings.HasPrefix, strings.TrimPrefix *)
Fixpoint strip_prefix (p s : string) : option string :=
  match p, s with
  | EmptyString, _ => Some s
  | String a p', String b s' => if Ascii.eqb a b then strip_prefix p' s' else None
  | String _ _, EmptyString => None
  end.
Definition has_prefix (s p : string) : bool :=
  match strip_prefix p s with Some _ => true | None => false end.
Definition trim_prefix (s p : string) : string :=
  match strip_prefix p s with Some r => r | None => s end.

Fixpoint string_chars (s : string) : list ascii :=
  match s with EmptyString => [] | String c s' => c :: string_chars s' end.
Fixpoint string_of_chars (l : list ascii) : string :=
  match l with [] => EmptyString | c :: l' => String c (string_of_chars l') end.
Definition str_forallb (p : ascii -> bool) (s : string) : bool :=
  forallb p (string_chars s).
Definition contains_char (c : ascii) (s : string) : bool :=
  existsb (Ascii.eqb c) (string_chars s).

(** strings.Split with a one-byte separator: always at least one field. *)
Fixpoint split_char (sep : ascii) (s : string) : list string :=
  match s with
  | EmptyString => [EmptyString]
  | String c s' =>
      if Ascii.eqb c sep then EmptyString :: split_char sep s'
      else match split_char sep s' with
           | f :: fs => String c f :: fs
           | [] => [String c EmptyString]
           end
  end.

(** [before_char sep s] is [strings.SplitN(s, sep, 2)[0]]. *)
Fixpoint before_char (sep : ascii) (s : string) : string :=
  match s with
  | EmptyString => EmptyString
  | String c s' => if Ascii.eqb c sep then EmptyString else String c (before_char sep s')
  end.

Definition byte_of (c : ascii) : Z := Z.of_nat (nat_of_ascii c).
Definition in_range (lo hi : Z) (c : ascii) : bool := (lo <=? byte_of c)%Z && (byte_of c <=? hi)%Z.
Definition is_digit (c : ascii) : bool := in_range 48 57 c.
Definition is_upper (c : ascii) : bool := in_range 65 90 c.
Definition is_lower (c : ascii) : bool := in_range 97 122 c.
Definition is_alpha (c : ascii) : bool := is_upper c || is_lower c.
Definition is_alnum (c : ascii) : bool := is_alpha c || is_digit c.

(** strings.ToLower on ASCII; strings.EqualFold through it. *)
Definition lower_char (c : ascii) : ascii :=
  if is_upper c then ascii_of_nat (nat_of_ascii c + 32) else c.
Definition to_lower (s : string) : string :=
  string_of_chars (map lower_char (string_chars s)).
Definition equal_fold (a b : string) : bool := to_lower a =?s to_lower b.

Definition go_space (c : ascii) : bool :=
  in_range 9 13 c || (byte_of c =? 32)%Z.

(** strings.TrimSpace *)
Fixpoint drop_space (l : list ascii) : list ascii :=
  match l with c :: l' => if go_space c then drop_space l' else l | [] => [] end.
Definition trim_space (s : string) : string :=
  string_of_chars (rev (drop_space (rev (drop_space (string_chars s))))).

(** strings.Fields *)
Fixpoint fields_go (cur : list ascii) (l : list ascii) : list string :=
  let flush := match cur with [] => [] | _ => [string_of_chars (rev cur)] end in
  match l with
  | [] => flush
  | c :: l' => if go_space c then flush ++ fields_go [] l' else fields_go (c :: cur) l'
  end.
Definition fields (s : string) : list string := fields_go [] (string_chars s).

(** [%q]: double quotes, with the escapes of strconv.Quote; bytes above 127 are taken to be
    printable text. *)
Definition hex_digit (n : nat) : ascii :=
  ascii_of_nat (if (n <? 10)%nat then 48 + n else 87 + n).
Definition plain_char (c : ascii) : bool :=
  (32 <=? byte_of c)%Z
  && negb ((byte_of c =? 34)%Z || (byte_of c =? 92)%Z || (byte_of c =? 127)%Z).
Definition quote_char (c : ascii) : string :=
  if plain_char c then String c EmptyString
  else match nat_of_ascii c with
       | 7 => "\a" | 8 => "\b" | 9 => "\t" | 10 => "\n" | 11 => "\v" | 12 => "\f" | 13 => "\r"
       | 34 => "\" +++ dquote
       | 92 => "\\"
       | n => "\x" +++ String (hex_digit (n / 16)) (String (hex_digit (n mod 16)) EmptyString)
       end%nat.
Definition quote (s : string) : string :=
  dquote +++ concat_str (map quote_char (string_chars s)) +++ dquote.

(** sort.Strings *)
Definition sort_strings (l : list string) : list string := merge_sort String.le l.

(** The keys of a Go map, sorted: the only order in which the program lets a
    map's iteration order reach its output. *)
Definition sorted_keys {A} (m : gmap string A) : list string :=
  sort_strings (map fst (map_to_list m)).

(** [lookup_default m k d] is Go's [m[k]], which yields the zero value when absent. *)
Definition lookup_default {A} (m : gmap string A) (k : string) (d : A) : A :=
  default d (m !! k).

(** [lookup_set m k] is [m[k]] of a [map[string]bool] used as a set. *)
Definition mem_str (k : string) (l : list string) : bool := existsb (String.eqb k) l.

(** * Tactics and hints *)

Create HintDb ghost.
Create Rewrite HintDb ghost_rw.

(** Split a successful computation in [result] into its steps. *)
Ltac inv_ok :=
  repeat match goal with
  | H : Ok _ = Ok _ |- _ => injection H; clear H; intros; subst
  | H : Err _ = Ok _ |- _ => discriminate H
  | H : Ok _ = Err _ |- _ => discriminate H
  | H : context [@mbind (result _) _] |- _ => unfold mbind, result_bind in H
  | H : check ?b ?e = Ok _ |- _ => unfold check in H
  | H : fail_if ?b ?e = Ok _ |- _ => unfold fail_if in H
  | H : (match ?x with _ => _ end) = Ok _ |- _ => destruct x eqn:?; try discriminate H
  end.


Ltac bool_hyps :=
  repeat match goal with
  | H : (_ && _)%bool = true |- _ => apply andb_prop in H; destruct H
  | H : (_ || _)%bool = false |- _ => apply orb_false_elim in H; destruct H
  | H : negb _ = true |- _ => apply negb_true_iff in H
  | H : negb _ = false |- _ => apply negb_false_iff in H
  | H : (_ =?s _) = true |- _ => apply String.eqb_eq in H
  | H : (_ =?s _) = false |- _ => apply String.eqb_neq in H
  | H : (_ <=? _)%Z = true |- _ => apply Z.leb_le in H
  | H : (_ <=? _)%Z = false |- _ => apply Z.leb_gt in H
  | H : (_ <? _)%Z = true |- _ => apply Z.ltb_lt in H
  | H : (_ <? _)%Z = false |- _ => apply Z.ltb_ge in H
  | H : (_ =? _)%Z = true |- _ => apply Z.eqb_eq in H
  | H : (_ =? _)%Z = false |- _ => apply Z.eqb_neq in H
  end.

(** * Shared lemmas *)

Lemma fail_if_ok {E} b (e : E) : fail_if b e = Ok tt <-> b = false.
Proof. by destruct b. Qed.

Lemma check_ok {E} b (e : E) : check b e = Ok tt <-> b = true.
Proof. by destruct b. Qed.

Lemma Ok_inj {E A} (a b : A) : Ok (E := E) a = Ok b -> a = b.
Proof. congruence. Qed.

Lemma result_bind_ok {E A B} (r : result E A) (f : A -> result E B) b :
  (r ≫= f) = Ok b <-> exists a, r = Ok a /\ f a = Ok b.
Proof. destruct r; simpl; split; [eauto|by intros (? & [= ->] & ?)|done|by intros (? & ? & _)]. Qed.

Lemma seq_ok {E B} (r : result E unit) (f : result E B) b :
  (r ;; f) = Ok b <-> r = Ok tt /\ f = Ok b.
Proof. rewrite result_bind_ok. split; [intros ([] & ? & ?); done|intros [? ?]; by exists tt]. Qed.
(** Takes the first step of a computation that has succeeded. *)
Ltac next_ok H := let x := fresh "x" in let Hx := fresh "Hx" in
  apply result_bind_ok in H as (x & Hx & H); cbn beta in H.

Lemma for_each_ok {E A} (f : A -> result E unit) l :
  for_each f l = Ok tt <-> Forall (fun x => f x = Ok tt) l.
Proof.
  induction l as [|x l IH]; simpl.
  - split; [constructor | done].
  - rewrite Forall_cons, <- IH. destruct (f x) as [[]|e]; [tauto|].
    split; [done | by intros [? _]].
Qed.

Lemma for_each_app {E A} (f : A -> result E unit) l1 l2 :
  for_each f (l1 ++ l2) = Ok tt <-> for_each f l1 = Ok tt /\ for_each f l2 = Ok tt.
Proof. rewrite !for_each_ok. apply Forall_app. Qed.

Lemma for_each_permutation {E A} (f : A -> result E unit) l1 l2 :
  l1 ≡ₚ l2 -> for_each f l1 = Ok tt -> for_each f l2 = Ok tt.
Proof. rewrite !for_each_ok. by intros <-. Qed.

(** A loop that keeps [I], only grows its state along [R], and leaves [P x] behind for every
    element it has passed. *)
Lemma fold_m_spec {E A S} (f : S -> A -> result E S) (I : S -> Prop) (R : relation S)
    `{!PreOrder R} (P : A -> S -> Prop) l s s' :
  (forall x s s', R s s' -> P x s -> P x s') ->
  (forall x s s', x ∈ l -> I s -> f s x = Ok s' -> I s' /\ R s s' /\ P x s') ->
  I s -> fold_m f s l = Ok s' -> I s' /\ R s s' /\ Forall (fun x => P x s') l.
Proof.
  intros HP. revert s. induction l as [|x l IH]; intros s Hf Hi; simpl.
  - intros [= <-]. split; [done|]. split; [done|constructor].
  - destruct (f s x) as [s1|e] eqn:E1; [|done]. intros Hr.
    destruct (Hf x s s1 (list_elem_of_here _ _) Hi E1) as (Hi1 & HR1 & HP1).
    destruct (IH s1) as (Hi' & HR' & HF); [|done|done|].
    + intros y t t' Hy. apply Hf. by right.
    + split; [done|]. split; [by etrans|]. constructor; [by eapply HP | done].
Qed.

(** Invariants of loops over a pure accumulator, and over a fallible one. *)
Lemma fold_left_inv {A S} (f : S -> A -> S) (I : S -> Prop) l s :
  (forall x s, x ∈ l -> I s -> I (f s x)) -> I s -> I (fold_left f l s).
Proof.
  revert s. induction l as [|x l IH]; intros s Hf Hi; cbn; [done|]. apply IH.
  - intros y t Hy. apply Hf. by right.
  - apply Hf; [left|done].
Qed.

Lemma fold_m_inv {E A S} (f : S -> A -> result E S) (I : S -> Prop) l s s' :
  (forall x s s', x ∈ l -> I s -> f s x = Ok s' -> I s') -> I s -> fold_m f s l = Ok s' -> I s'.
Proof.
  revert s. induction l as [|x l IH]; intros s Hf Hi; cbn [fold_m]; [by intros [= <-]|].
  destruct (f s x) as [s1|] eqn:E1; [|done]. apply IH; [intros y t t' Hy; apply Hf; by right|].
  eapply Hf; [left|done|done].
Qed.

Lemma fold_m_each {E A S} (f : S -> A -> result E S) l s s' x : fold_m f s l = Ok s' -> x ∈ l -> exists s1 s2, f s1 x = Ok s2.
Proof.
  revert s. induction l as [|y l IH]; intros s; cbn [fold_m]; [by intros _ ?%elem_of_nil|].
  destruct (f s y) as [s1|] eqn:E1; [|done]. intros H [->|Hx]%elem_of_cons; eauto.
Qed.

Lemma fold_m_app {E A S} (f : S -> A -> result E S) s l1 l2 :
  fold_m f s (l1 ++ l2) = (t ← fold_m f s l1; fold_m f t l2).
Proof. revert s. induction l1 as [|x l1 IH]; intros s; cbn [fold_m app]; [done|]. destruct (f s x); [apply IH|done]. Qed.

Lemma sort_strings_permutation l : sort_strings l ≡ₚ l.
Proof. apply merge_sort_Permutation. Qed.

Lemma sort_strings_sorted l : StronglySorted String.le (sort_strings l).
Proof. apply StronglySorted_merge_sort; apply _. Qed.

(** Sorting erases the order the keys came in. *)
Lemma sort_strings_canonical l1 l2 : l1 ≡ₚ l2 -> sort_strings l1 = sort_strings l2.
Proof.
  intros Hp. apply (StronglySorted_unique String.le); [apply sort_strings_sorted ..|].
  by rewrite !sort_strings_permutation.
Qed.

Lemma elem_of_flat_map {A B} (f : A -> list B) l x : x ∈ flat_map f l <-> exists a, a ∈ l /\ x ∈ f a.
Proof. rewrite list_elem_of_In, in_flat_map. setoid_rewrite <-list_elem_of_In. done. Qed.

Lemma elem_of_kept {A} (f : A -> bool) l x : x ∈ List.filter f l <-> x ∈ l /\ f x = true.
Proof. by rewrite !list_elem_of_In, filter_In. Qed.

Lemma elem_of_sort_strings x l : x ∈ sort_strings l <-> x ∈ l.
Proof. by rewrite sort_strings_permutation. Qed.

Lemma elem_of_sorted_keys {A} (m : gmap string A) k :
  k ∈ sorted_keys m <-> is_Some (m !! k).
Proof.
  unfold sorted_keys. rewrite elem_of_sort_strings.
  rewrite <- elem_of_dom, <- elem_of_elements.
  setoid_rewrite list_elem_of_fmap. rewrite elem_of_elements, elem_of_dom.
  split.
  - intros ([k' v] & -> & Hin). apply elem_of_map_to_list in Hin. by exists v.
  - intros [v Hv]. exists (k, v). split; [done|]. by apply elem_of_map_to_list.
Qed.

Lemma NoDup_sorted_keys {A} (m : gmap string A) : NoDup (sorted_keys m).
Proof.
  unfold sorted_keys. rewrite sort_strings_permutation. apply NoDup_fst_map_to_list.
Qed.

Lemma append_assoc (a b c : string) : (a +++ b) +++ c = a +++ (b +++ c).
Proof. induction a as [|x a IH]; simpl; [done | by rewrite IH]. Qed.

Lemma append_empty_r (a : string) : a +++ EmptyString = a.
Proof. induction a as [|x a IH]; simpl; [done | by rewrite IH]. Qed.

Lemma concat_str_app l1 l2 : concat_str (l1 ++ l2) = concat_str l1 +++ concat_str l2.
Proof.
  induction l1 as [|s l1 IH]; simpl; [done|]. by rewrite IH, append_assoc.
Qed.

Lemma append_length (a b : string) :
  String.length (a +++ b) = (String.length a + String.length b)%nat.
Proof. induction a as [|x a IH]; simpl; [done | by rewrite IH]. Qed.

Lemma append_inj_r (a b c : string) : a +++ c = b +++ c -> a = b.
Proof.
  revert b. induction a as [|x a IH]; intros [|y b] H; simpl in *; [done| | |].
  - apply (f_equal String.length) in H. simpl in H. rewrite append_length in H. lia.
  - apply (f_equal String.length) in H. simpl in H. rewrite append_length in H. lia.
  - injection H as -> H. f_equal. by apply IH.
Qed.

Lemma append_inj_l (a b c : string) : a +++ b = a +++ c -> b = c.
Proof. induction a as [|x a IH]; simpl; [done|]. intros [= H]. auto. Qed.

Lemma is_empty_spec s : is_empty s = true <-> s = EmptyString.
Proof. by destruct s. Qed.

Lemma mem_str_spec k l : mem_str k l = true <-> k ∈ l.
Proof.
  unfold mem_str. rewrite existsb_exists. split.
  - intros (x & Hin & Heq). apply String.eqb_eq in Heq as ->. by apply list_elem_of_In.
  - intros Hin. exists k. split; [by apply list_elem_of_In | apply String.eqb_refl].
Qed.

Lemma strip_prefix_append p s : strip_prefix p (p +++ s) = Some s.
Proof.
  induction p as [|c p IH]; simpl; [done|]. by rewrite Ascii.eqb_refl.
Qed.

Lemma strip_prefix_Some p s r : strip_prefix p s = Some r <-> s = p +++ r.
Proof.
  split; [|intros ->; apply strip_prefix_append].
  revert s. induction p as [|c p IH]; intros s; simpl; [congruence|].
  destruct s as [|d s]; [done|]. destruct (Ascii.eqb c d) eqn:E; [|done].
  apply Ascii.eqb_eq in E as ->. intros H. by rewrite (IH _ H).
Qed.

Lemma contains_cons c x s : contains_char c (String x s) = Ascii.eqb c x || contains_char c s.
Proof. done. Qed.

Lemma has_prefix_spec s p : has_prefix s p = true <-> exists r, s = p +++ r.
Proof.
  unfold has_prefix. destruct (strip_prefix p s) as [r|] eqn:E.
  - apply strip_prefix_Some in E. split; [eauto|done].
  - split; [done|]. intros [r ->]. by rewrite strip_prefix_append in E.
Qed.

Lemma split_char_cut c a r : contains_char c a = false -> split_char c (a +++ String c r) = a :: split_char c r.
Proof.
  induction a as [|x a IH]; intros Ha; simpl; [by rewrite Ascii.eqb_refl|].
  rewrite contains_cons in Ha. apply orb_false_elim in Ha as [Hx Ha]. rewrite Ascii.eqb_sym, Hx. simpl.
  by rewrite IH.
Qed.

Lemma split_char_none c a : contains_char c a = false -> split_char c a = [a].
Proof.
  induction a as [|x a IH]; intros Ha; simpl; [done|].
  rewrite contains_cons in Ha. apply orb_false_elim in Ha as [Hx Ha]. rewrite Ascii.eqb_sym, Hx. by rewrite IH.
Qed.

Lemma split_char_app c x r : split_char c (x +++ String c r) = split_char c x ++ split_char c r.
Proof.
  induction x as [|d x IH]; cbn [String.append split_char].
  - by rewrite Ascii.eqb_refl.
  - rewrite IH. destruct (Ascii.eqb d c); [done|]. destruct (split_char c x) eqn:E; [|done].
    exfalso. destruct x as [|e x]; cbn in E; [done|]. destruct (Ascii.eqb e c); [done|]. by destruct (split_char c x).
Qed.

Lemma split_char_cons c s : exists x xs, split_char c s = x :: xs.
Proof. destruct s as [|d s]; cbn; [eauto|]. destruct (Ascii.eqb d c); [eauto|]. destruct (split_char c s); eauto. Qed.

Lemma join_split_char c s : join (String c EmptyString) (split_char c s) = s.
Proof.
  induction s as [|d s IH]; [done|]. cbn [split_char]. destruct (split_char_cons c s) as (x & xs & E). rewrite E in *.
  destruct (Ascii.eqb d c) eqn:Ed.
  - apply Ascii.eqb_eq in Ed as ->. change (join (String c EmptyString) (EmptyString :: x :: xs)) with (EmptyString +++ String c EmptyString +++ join (String c EmptyString) (x :: xs)).
    by rewrite IH.
  - destruct xs; cbn [join String.append] in *; by rewrite IH.
Qed.

Lemma split_join c ls : ls <> [] -> Forall (fun l => contains_char c l = false) ls -> split_char c (join (String c EmptyString) ls) = ls.
Proof.
  intros Hne H. induction H as [|l ls Hl Hls IH]; [done|]. destruct ls as [|l' ls].
  - cbn [join]. rewrite <-(append_empty_r l) at 1. clear -Hl. induction l as [|x l IH]; [done|].
    rewrite contains_cons in Hl. apply orb_false_iff in Hl as [Hx Hl]. cbn. rewrite Ascii.eqb_sym, Hx.
    rewrite append_empty_r in IH. by rewrite append_empty_r, IH.
  - change (join (String c EmptyString) (l :: l' :: ls)) with (l +++ String c (join (String c EmptyString) (l' :: ls))).
    rewrite split_char_cut by done. by rewrite IH.
Qed.

Lemma split_pieces sep x : Forall (fun y => contains_char sep y = false) (split_char sep x).
Proof.
  induction x as [|c x IH]; cbn [split_char]; [by constructor|]. destruct (Ascii.eqb c sep) eqn:E; [by constructor|].
  destruct (split_char sep x) as [|y ys]; [|apply Forall_cons in IH as [Hy Hys]; constructor; [|done]];
    [constructor; [|done]|]; unfold contains_char in *; cbn; by rewrite Ascii.eqb_sym, E.
Qed.

Lemma chars_length s : length (string_chars s) = String.length s.
Proof. induction s; cbn; congruence. Qed.

Lemma to_lower_app a b : to_lower (a +++ b) = to_lower a +++ to_lower b.
Proof. unfold to_lower. induction a as [|c a IH]; cbn; [done|]. by rewrite IH. Qed.

Lemma quote_plain s :
  str_forallb plain_char s = true -> quote s = dquote +++ s +++ dquote.
Proof.
  intros Hs. unfold quote.
  assert (Hq : concat_str (map quote_char (string_chars s)) = s); [|by rewrite Hq].
  revert Hs. unfold str_forallb. induction s as [|c s IH]; simpl; [done|].
  intros [Hc Hs]%andb_prop. unfold quote_char at 1. rewrite Hc. simpl. by rewrite IH.
Qed.

#[export] Hint Resolve sort_strings_permutation NoDup_sorted_keys : ghost.
#[export] Hint Rewrite append_assoc append_empty_r concat_str_app : ghost_rw.
