(* ===== verification/Json.v ===== *)
(** JSON documents and the byte strings that carry them.

    Go's encoding/json is used by every component, always in one of four ways:
    json.Unmarshal of a whole byte string, json.Decoder for one value followed by a
    check for trailing data, json.Marshal, and json.Valid.  None of them looks at the
    spelling of a document, so a byte string is represented by the document it parses to
    ([raw]), and documents by their syntax tree ([json]).  A [[]byte] field is base64
    inside a document ([JBytes]) and a [time.Time] is RFC 3339 text ([JTime], in
    nanoseconds).  Text inside a document is UTF-8: json.Marshal replaces the bytes of a Go
    string that are not ([coerce_utf8]), which matters where the string is the content of a
    file; identifiers and host names are UTF-8 already. *)

From S2P Require Import Prelude.
From Stdlib Require Import Ascii.

Inductive json : Type :=
| JNull
| JBool (b : bool)
| JNum (z : Z)
| JFrac (lit : string)                    (* a number that is not an integer *)
| JStr (s : string)
| JBytes (b : raw)                        (* base64 text of a byte string *)
| JTime (t : Z)                           (* RFC 3339 text of an instant *)
| JArr (l : list json)
| JObj (kvs : list (string * json))
with raw : Type :=
| RawEmpty                                (* len(b) == 0 *)
| RawBad (s : string)                     (* bytes that are not one JSON value first *)
| RawDoc (j : json)                       (* exactly one JSON value *)
| RawMore (j : json).                     (* one JSON value, then more non-space data *)

Definition raw_is_empty (r : raw) : bool :=
  match r with RawEmpty => true | _ => false end.

(** json.Unmarshal into [any] / json.Valid: the whole text is one value. *)
Definition unmarshal (r : raw) : option json :=
  match r with RawDoc j => Some j | _ => None end.
Definition json_valid (r : raw) : bool :=
  match r with RawDoc _ => true | _ => false end.

(** json.Decoder: the first value, and whether a second Decode returns io.EOF. *)
Definition decode_first (r : raw) : option json :=
  match r with RawDoc j | RawMore j => Some j | _ => None end.
Definition at_eof (r : raw) : bool :=
  match r with RawDoc _ => true | _ => false end.

Definition marshal (j : json) : raw := RawDoc j.

(** * Decoding into Go values

    A decoder returns [None] where Unmarshal returns an error; [cur] is the value already
    in the destination, kept when the document says null. *)

Definition dec_string (cur : string) (j : json) : option string :=
  match j with JStr s => Some s | JNull => Some cur | _ => None end.
Definition dec_bool (cur : bool) (j : json) : option bool :=
  match j with JBool b => Some b | JNull => Some cur | _ => None end.
Definition dec_int (cur : Z) (j : json) : option Z :=
  match j with
  | JNum z => if (-2^63 <=? z)%Z && (z <? 2^63)%Z then Some z else None
  | JNull => Some cur
  | _ => None
  end.
Definition dec_bytes (j : json) : option raw :=
  match j with
  | JBytes b => Some b
  | JStr EmptyString => Some RawEmpty
  | JNull => Some RawEmpty
  | _ => None
  end.
Definition dec_time (cur : Z) (j : json) : option Z :=
  match j with JTime t => Some t | JNull => Some cur | _ => None end.

Fixpoint traverse {A B} (f : A -> option B) (l : list A) : option (list B) :=
  match l with
  | [] => Some []
  | x :: l' => match f x, traverse f l' with Some y, Some ys => Some (y :: ys) | _, _ => None end
  end.

Definition dec_list {A} (f : json -> option A) (j : json) : option (list A) :=
  match j with JArr l => traverse f l | JNull => Some [] | _ => None end.

(** A Go map[string]T: keys are kept as they are, a repeated key is overwritten. *)
Definition dec_map {A} (f : json -> option A) (cur : gmap string A) (j : json) :
    option (gmap string A) :=
  match j with
  | JObj kvs =>
      fold_left (fun acc kv => match acc, f (snd kv) with
                               | Some m, Some v => Some (<[fst kv := v]> m)
                               | _, _ => None
                               end) kvs (Some cur)
  | JNull => Some ∅
  | _ => None
  end.

(** A pointer to a struct: null is nil. *)
Definition dec_ptr {A} (f : json -> option A) (j : json) : option (option A) :=
  match j with JNull => Some None | _ => match f j with Some a => Some (Some a) | None => None end end.

(** A struct: [set k v s] is [None] when no field is named [k] (names are compared without
    regard to case), [Some None] when the value does not fit the field, and
    [Some (Some s')] when the field is set.  [strict] is DisallowUnknownFields. *)
Definition dec_struct {S} (strict : bool) (set : string -> json -> S -> option (option S))
    (cur : S) (j : json) : option S :=
  match j with
  | JObj kvs =>
      fold_left (fun acc kv =>
        match acc with
        | None => None
        | Some s => match set (fst kv) (snd kv) s with
                    | None => if strict then None else Some s
                    | Some r => r
                    end
        end) kvs (Some cur)
  | JNull => Some cur
  | _ => None
  end.

(** The value of a key in an object kept as a Go map (the last occurrence wins). *)
Definition obj_get (k : string) (kvs : list (string * json)) : option json :=
  fold_left (fun acc kv => if fst kv =?s k then Some (snd kv) else acc) kvs None.

(** * UTF-8

    The encodings utf8.DecodeRune accepts, by length; any other byte becomes U+FFFD. *)

Definition one_byte (c : ascii) : bool := in_range 0 127 c.
Definition continuation (c : ascii) : bool := in_range 128 191 c.
Definition two_bytes (c d : ascii) : bool := in_range 194 223 c && continuation d.
Definition three_bytes (c d e : ascii) : bool :=
  in_range 224 239 c && continuation e
  && (if (byte_of c =? 224)%Z then in_range 160 191 d
      else if (byte_of c =? 237)%Z then in_range 128 159 d else continuation d).
Definition four_bytes (c d e f : ascii) : bool :=
  in_range 240 244 c && continuation e && continuation f
  && (if (byte_of c =? 240)%Z then in_range 144 191 d
      else if (byte_of c =? 244)%Z then in_range 128 143 d else continuation d).

Definition replacement : list ascii := ["239"; "191"; "189"]%char.

(** Text with every byte that is not part of an encoding replaced by [rep]. *)
Fixpoint coerce_with (rep : list ascii) (l : list ascii) : list ascii :=
  match l with
  | [] => []
  | c :: l1 =>
    if one_byte c then c :: coerce_with rep l1
    else match l1 with
    | [] => rep
    | d :: l2 =>
      if two_bytes c d then c :: d :: coerce_with rep l2
      else match l2 with
      | [] => rep ++ coerce_with rep l1
      | e :: l3 =>
        if three_bytes c d e then c :: d :: e :: coerce_with rep l3
        else match l3 with
        | [] => rep ++ coerce_with rep l1
        | f :: l4 => if four_bytes c d e f then c :: d :: e :: f :: coerce_with rep l4
                     else rep ++ coerce_with rep l1
        end
      end
    end
  end.

Abbreviation coerce_bytes := (coerce_with replacement).

Definition coerce_utf8 (s : string) : string := string_of_chars (coerce_bytes (string_chars s)).

(** strings.ToValidUTF8 with an empty replacement. *)
Definition ToValidUTF8 (s : string) : string := string_of_chars (coerce_with [] (string_chars s)).

(** Valid text. *)
Inductive utf8 : list ascii -> Prop :=
| utf8_nil : utf8 []
| utf8_one c l : one_byte c = true -> utf8 l -> utf8 (c :: l)
| utf8_two c d l : two_bytes c d = true -> utf8 l -> utf8 (c :: d :: l)
| utf8_three c d e l : three_bytes c d e = true -> utf8 l -> utf8 (c :: d :: e :: l)
| utf8_four c d e f l : four_bytes c d e f = true -> utf8 l -> utf8 (c :: d :: e :: f :: l).

Lemma utf8_replacement l : utf8 l -> utf8 (replacement ++ l).
Proof. intros H. by apply utf8_three. Qed.

Lemma coerce_bytes_utf8 l : utf8 (coerce_bytes l).
Proof.
  induction l as [l IH] using (induction_ltof1 _ (@length ascii)). unfold ltof in IH.
  assert (Hr : utf8 replacement) by (apply (utf8_replacement []); constructor).
  destruct l as [|c l1]; [constructor|]. unfold coerce_with; fold coerce_with.
  destruct (one_byte c) eqn:E1; [apply utf8_one; [done|apply IH; simpl; lia]|].
  assert (Hb : utf8 (replacement ++ coerce_bytes l1)) by (apply utf8_replacement, IH; simpl; lia).
  destruct l1 as [|d l2]; cbv match; [done|].
  destruct (two_bytes c d) eqn:E2; [apply utf8_two; [done|apply IH; simpl; lia]|].
  destruct l2 as [|e l3]; cbv match; [done|].
  destruct (three_bytes c d e) eqn:E3; [apply utf8_three; [done|apply IH; simpl; lia]|].
  destruct l3 as [|f l4]; cbv match; [done|].
  destruct (four_bytes c d e f) eqn:E4; [apply utf8_four; [done|apply IH; simpl; lia]|done].
Qed.

(** The first byte tells the length. *)
Definition lead (c : ascii) : nat :=
  if one_byte c then 1 else if in_range 194 223 c then 2 else if in_range 224 239 c then 3 else 4.

Lemma lead_one c : one_byte c = true -> lead c = 1.
Proof. unfold lead. by intros ->. Qed.
Lemma lead_two c d : two_bytes c d = true -> lead c = 2.
Proof.
  unfold two_bytes, lead, one_byte. intros [H _]%andb_prop. rewrite H.
  unfold in_range in *. bool_hyps. by rewrite (proj2 (Z.leb_gt (byte_of c) 127)), andb_false_r by lia.
Qed.
Lemma lead_three c d e : three_bytes c d e = true -> lead c = 3.
Proof.
  unfold three_bytes, lead, one_byte. intros [[H _]%andb_prop _]%andb_prop. rewrite H.
  unfold in_range in *. bool_hyps.
  by rewrite (proj2 (Z.leb_gt (byte_of c) 127)), (proj2 (Z.leb_gt (byte_of c) 223)), !andb_false_r by lia.
Qed.
Lemma lead_four c d e f : four_bytes c d e f = true -> lead c = 4.
Proof.
  unfold four_bytes, lead, one_byte. intros [[[H _]%andb_prop _]%andb_prop _]%andb_prop.
  unfold in_range in *. bool_hyps.
  by rewrite (proj2 (Z.leb_gt (byte_of c) 127)), (proj2 (Z.leb_gt (byte_of c) 223)),
    (proj2 (Z.leb_gt (byte_of c) 239)), !andb_false_r by lia.
Qed.

Ltac not_lead :=
  match goal with |- context [if ?b then _ else _] =>
    let E := fresh in destruct b eqn:E;
    [first [apply lead_one in E | apply lead_two in E | apply lead_three in E]; congruence|] end.

Lemma coerce_bytes_id l : utf8 l -> coerce_bytes l = l.
Proof.
  induction 1 as [|c l Hc _ IH|c d l Hc _ IH|c d e l Hc _ IH|c d e f l Hc _ IH]; cbn [coerce_with]; [done|..].
  - by rewrite Hc, IH.
  - pose proof (lead_two _ _ Hc). not_lead. by rewrite Hc, IH.
  - pose proof (lead_three _ _ _ Hc). do 2 not_lead. by rewrite Hc, IH.
  - pose proof (lead_four _ _ _ _ Hc). do 3 not_lead. by rewrite Hc, IH.
Qed.

Lemma string_chars_of l : string_chars (string_of_chars l) = l.
Proof. induction l as [|c l IH]; simpl; [done|]. by rewrite IH. Qed.
Lemma string_of_chars_of s : string_of_chars (string_chars s) = s.
Proof. induction s as [|c s IH]; simpl; [done|]. by rewrite IH. Qed.

Lemma coerce_utf8_idem s : coerce_utf8 (coerce_utf8 s) = coerce_utf8 s.
Proof. unfold coerce_utf8. by rewrite string_chars_of, coerce_bytes_id by apply coerce_bytes_utf8. Qed.

Lemma coerce_utf8_id s : utf8 (string_chars s) -> coerce_utf8 s = s.
Proof. intros H. unfold coerce_utf8. rewrite coerce_bytes_id by done. apply string_of_chars_of. Qed.
