(* ===== verification/Serve.v ===== *)
(** internal/coredhcpserver: opening the listeners of a DHCP server (serve.go: listen4, listen6,
    Start, Wait, Close) and their loops (handle.go: the two Serve), as the interleaving of the
    goroutines they run in.

    A listener's socket is open or closed; its goroutine reads, has an error to send to the shared
    channel, or has ended.  Closing a socket and starting a handler are single steps. *)

From S2P Require Import Prelude.
From stdpp Require Import relations.
Local Open Scope nat_scope.

(** * Listeners *)

(** What the network answers while one address is opened. *)
Record listen_answers := mkAnswers { a_conn : result string unit; a_iface : result string Z; a_control : result string unit; a_join : result string unit }.
Record UDPAddr := mkUDPAddr { uZone : string; uMulticast : bool }.

(** The goroutine of a listener: in its loop, about to send what Serve returned, or gone. *)
Inductive goroutine := Reading | Sending (e : option string) | Ended.
Record listener := mkListener { lIndex : Z; lOpen : bool; lSlots : nat; lServe : goroutine }.

Definition listen (supplied : bool) (r : listen_answers) (a : UDPAddr) : result string listener :=
  (if supplied then Ok tt else a_conn r);;
  index ← (if is_empty (uZone a) then a_control r;; Ok 0%Z
           else match a_iface r with
                | Ok i => Ok i
                | Err e => Err ("DHCPv4: Listen could not find interface " +++ uZone a +++ ": " +++ e)
                end);
  (if uMulticast a then a_join r else Ok tt);;
  Ok (mkListener index true 0 Reading).

Definition shut (l : listener) : listener := mkListener (lIndex l) false (lSlots l) (lServe l).

(** * Servers *)

(** The goroutine in Wait, if there is one: before its first error, with the errors it has, or done. *)
Inductive waiter := Nobody | First | More (errs : list (option string)) | Waited (errs : list (option string)).
Record Servers := mkServers { listeners : list listener; errors : list (option string); waiting : waiter }.

Definition capacity : nat := 64.

Definition Close (s : Servers) : Servers := mkServers (map shut (listeners s)) (errors s) (waiting s).

(** Addresses with the answers their opening gets; the listeners so far, and the error that ended it. *)
Fixpoint open_all (supplied : bool) (ads : list (listen_answers * UDPAddr)) (ls : list listener) : list listener * option string :=
  match ads with
  | [] => (ls, None)
  | (r, a) :: ads' => match listen supplied r a with
                      | Ok l => open_all supplied ads' (ls ++ [l])
                      | Err e => (ls, Some e)
                      end
  end.

(** The state of the goroutines, and what the caller is told. *)
Definition Start (load : result string unit) (conn6 conn4 : bool) (server6 server4 : option (list (listen_answers * UDPAddr))) :
    Servers * result string unit :=
  match load with
  | Err e => (mkServers [] [] Nobody, Err e)
  | Ok _ =>
    match open_all conn6 (default [] server6) [] with
    | (ls, Some e) => (Close (mkServers ls [] Nobody), Err e)
    | (ls, None) =>
      match open_all conn4 (default [] server4) ls with
      | (ls', Some e) => (Close (mkServers ls' [] Nobody), Err e)
      | (ls', None) => (mkServers ls' [] First, Ok tt)
      end
    end
  end.

(** Wait after an error has come out of the channel. *)
Definition received (errs : list (option string)) (n : nat) : waiter := if length errs <? n then More errs else Waited errs.

(** * Steps *)

(** One step of the goroutine of a listener: a packet comes in and is handled or, when [capacity]
    handlers run, dropped; reading fails; the socket was closed; the result is sent when the channel
    has room; or a handler is done. *)
Inductive lstep : listener -> listener -> Prop :=
| ls_packet i n : n < capacity -> lstep (mkListener i true n Reading) (mkListener i true (S n) Reading)
| ls_dropped i n : capacity <= n -> lstep (mkListener i true n Reading) (mkListener i true n Reading)
| ls_failed i n e : lstep (mkListener i true n Reading) (mkListener i true n (Sending (Some e)))
| ls_closed i n : lstep (mkListener i false n Reading) (mkListener i false n (Sending None))
| ls_handled i o n g : lstep (mkListener i o (S n) g) (mkListener i o n g).

Inductive step : Servers -> Servers -> Prop :=
| s_listener s k l l' : listeners s !! k = Some l -> lstep l l' -> step s (mkServers (<[k := l']> (listeners s)) (errors s) (waiting s))
| s_send s k i o n e : listeners s !! k = Some (mkListener i o n (Sending e)) -> length (errors s) < capacity ->
    step s (mkServers (<[k := mkListener i o n Ended]> (listeners s)) (errors s ++ [e]) (waiting s))
| s_first ls e es : step (mkServers ls (e :: es) First) (mkServers (map shut ls) es (received [e] (length ls)))
| s_more ls e es errs : step (mkServers ls (e :: es) (More errs)) (mkServers ls es (received (errs ++ [e]) (length ls)))
| s_close s : Forall (fun l => lOpen l = true) (listeners s) -> listeners s <> [] -> step s (Close s).

(** * Closing ends everything *)

Definition closed (s : Servers) : Prop := Forall (fun l => lOpen l = false) (listeners s).
Definition taken (w : waiter) : nat := match w with Nobody | First => 0 | More errs | Waited errs => length errs end.
Definition pending (l : listener) : nat := match lServe l with Ended => 0 | _ => 1 end.

Record ok (s : Servers) : Prop := {
  k_count : taken (waiting s) + length (errors s) + sum_list_with pending (listeners s) = length (listeners s);
  k_slots : Forall (fun l => lSlots l <= capacity) (listeners s);
  k_room : length (errors s) <= capacity;
  k_closed : match waiting s with First => True | _ => closed s end;
  k_taken : match waiting s with More errs => length errs < length (listeners s) | Waited errs => length errs = length (listeners s) | _ => True end;
}.

(** The work that is left once the sockets are closed. *)
Definition weight (l : listener) : nat := match lServe l with Reading => 3 | Sending _ => 2 | Ended => 0 end + lSlots l.
Definition work (s : Servers) : nat := sum_list_with weight (listeners s) + length (errors s).

(** Everything has ended: no goroutine is left, and who waited has a result for every listener. *)
Definition ended (s : Servers) : Prop :=
  Forall (fun l => lServe l = Ended /\ lSlots l = 0) (listeners s)
  /\ match waiting s with Nobody => True | Waited errs => length errs = length (listeners s) | _ => False end.

Lemma sum_insert {A} (f : A -> nat) l k x y : l !! k = Some x -> sum_list_with f (<[k := y]> l) + f x = sum_list_with f l + f y.
Proof.
  revert k. induction l as [|a l IH]; intros [|k] H; try done; cbn in H |- *.
  - injection H as ->. lia.
  - rewrite <-!Nat.add_assoc. f_equal. exact (IH _ H).
Qed.
Lemma sum_map {A} (f g : A -> nat) (h : A -> A) l : (forall a, f (h a) = g a) -> sum_list_with f (map h l) = sum_list_with g l.
Proof. intros H. induction l as [|a l IH]; cbn; [done|]. by rewrite H, IH. Qed.
Lemma sum_zero {A} (f : A -> nat) l : sum_list_with f l = 0 -> Forall (fun a => f a = 0) l.
Proof. induction l as [|a l IH]; cbn; [done|]. intros H. constructor; [lia|apply IH; lia]. Qed.
Lemma sum_positive {A} (f : A -> nat) l : 0 < sum_list_with f l -> exists k a, l !! k = Some a /\ 0 < f a.
Proof.
  induction l as [|a l IH]; cbn; [lia|]. intros H. destruct (f a) as [|n] eqn:E.
  - destruct IH as (k & b & Hk & Hb); [lia|]. by exists (S k), b.
  - exists 0, a. split; [done|lia].
Qed.

Lemma lstep_pending l l' : lstep l l' -> pending l' = pending l.
Proof. by destruct 1. Qed.
Lemma lstep_slots l l' : lstep l l' -> lSlots l <= capacity -> lSlots l' <= capacity.
Proof. destruct 1; cbn; lia. Qed.
Lemma lstep_open l l' : lstep l l' -> lOpen l' = lOpen l.
Proof. by destruct 1. Qed.
Lemma lstep_weight l l' : lstep l l' -> lOpen l = false -> weight l' < weight l.
Proof. destruct 1; cbn; try done; intros _; unfold weight; cbn; try destruct g; lia. Qed.
Lemma shut_closed ls : Forall (fun l => lOpen l = false) (map shut ls).
Proof. apply Forall_map, Forall_true. by intros []. Qed.

Lemma received_ok n errs : length errs <= n ->
  taken (received errs n) = length errs
  /\ match received errs n with More errs => length errs < n | Waited errs => length errs = n | _ => True end
  /\ received errs n <> First.
Proof. intros H. unfold received. destruct (Nat.ltb_spec (length errs) n); split; [done|split; [cbn; lia|done]..|done|split; [cbn; lia|done]]. Qed.

Lemma insert_closed ls k l l' : ls !! k = Some l -> lOpen l' = lOpen l ->
  Forall (fun l => lOpen l = false) ls -> Forall (fun l => lOpen l = false) (<[k := l']> ls).
Proof. intros Hk Ho H. apply Forall_insert; [done|]. rewrite Ho. exact (Forall_lookup_1 _ _ _ _ H Hk). Qed.

Lemma serve_step_ok s s' : ok s -> step s s' -> ok s'.
Proof.
  intros [Hc Hs Hr Hcl Ht]. destruct 1 as [s k l l' Hk Hl|s k i o n e Hk Hlen|ls e es|ls e es errs|s Ho Hne]; cbn in *.
  - pose proof (sum_insert pending _ _ _ l' Hk) as Hp. rewrite (lstep_pending _ _ Hl) in Hp.
    split; cbn; rewrite ?length_insert; try done; [lia| |].
    + apply Forall_insert; [done|]. eapply lstep_slots; [exact Hl|]. exact (Forall_lookup_1 _ _ _ _ Hs Hk).
    + apply lstep_open in Hl. unfold closed in *. destruct (waiting s); try done; by apply (insert_closed _ _ _ _ Hk).
  - pose proof (sum_insert pending _ _ _ (mkListener i o n Ended) Hk) as Hp. cbn in Hp.
    split; cbn; rewrite ?length_insert, ?length_app; cbn; try done; [lia| |lia|].
    + apply Forall_insert; [done|]. exact (Forall_lookup_1 _ _ _ _ Hs Hk).
    + unfold closed in *. destruct (waiting s); try done; by apply (insert_closed _ _ _ _ Hk).
  - destruct (received_ok (length ls) [e]) as (E1 & E2 & E3); [cbn; lia|].
    split; cbn; rewrite ?length_map; [rewrite E1, (sum_map pending pending shut) by (by intros []); cbn; lia|by apply Forall_map|lia| |by destruct (received _ _)].
    destruct (received _ _); try done; apply shut_closed.
  - destruct (received_ok (length ls) (errs ++ [e])) as (E1 & E2 & E3); [rewrite length_app; cbn; lia|].
    split; cbn; [rewrite E1, length_app; cbn; lia|done|lia| |by destruct (received _ _)]. by destruct (received _ _).
  - split; cbn; rewrite ?length_map; [by rewrite (sum_map pending pending shut) by (by intros [])|by apply Forall_map|done| |done].
    destruct (waiting s); try done; apply shut_closed.
Qed.

Lemma open_all_reading supplied ads : forall ls ls' o, Forall (fun l => lSlots l = 0 /\ lServe l = Reading) ls ->
  open_all supplied ads ls = (ls', o) -> Forall (fun l => lSlots l = 0 /\ lServe l = Reading) ls'.
Proof.
  induction ads as [|[r a] ads IH]; intros ls ls' o Hls H; cbn in H; [by injection H as <- _|].
  destruct (listen supplied r a) as [l|e] eqn:E; [|by injection H as <- _]. eapply IH; [|exact H]. apply Forall_app. split; [done|].
  unfold listen in E. apply seq_ok in E as [_ E]. next_ok E. apply seq_ok in E as [_ [= <-]]. by repeat constructor.
Qed.

Lemma reading_pending ls : Forall (fun l => lSlots l = 0 /\ lServe l = Reading) ls -> sum_list_with pending ls = length ls.
Proof. induction 1 as [|l ls [_ Hl] _ IH]; cbn; [done|]. unfold pending at 1. by rewrite Hl, IH. Qed.

Lemma reading_ok ls w : Forall (fun l => lSlots l = 0 /\ lServe l = Reading) ls -> (w = First \/ w = Nobody /\ closed (mkServers ls [] w)) ->
  ok (mkServers ls [] w).
Proof.
  intros H Hw. split; cbn.
  - rewrite reading_pending by done. by destruct Hw as [-> |[-> _]].
  - eapply Forall_impl; [exact H|]. intros l [-> _]. unfold capacity. lia.
  - unfold capacity. lia.
  - by destruct Hw as [-> |[-> ?]].
  - by destruct Hw as [-> |[-> _]].
Qed.

Lemma start_ok load c6 c4 s6 s4 : ok (fst (Start load c6 c4 s6 s4)).
Proof.
  unfold Start. destruct load; [|apply reading_ok; [done|right; split; [done|constructor]]].
  destruct (open_all c6 _ []) as [ls o] eqn:E6. eapply open_all_reading in E6; [|done].
  assert (Hc : forall ls, Forall (fun l => lSlots l = 0 /\ lServe l = Reading) ls -> ok (Close (mkServers ls [] Nobody))).
  { intros ls0 H. apply reading_ok; [by apply Forall_map|]. right. split; [done|]. apply shut_closed. }
  destruct o; [by apply Hc|]. destruct (open_all c4 _ ls) as [ls' o] eqn:E4. eapply open_all_reading in E4; [|done].
  destruct o; [by apply Hc|]. apply reading_ok; [done|by left].
Qed.

Lemma steps_ok s s' : ok s -> rtc step s s' -> ok s'.
Proof. intros H. induction 1 as [|s s1 s2 H1 _ IH]; [done|]. apply IH. by eapply serve_step_ok. Qed.

Lemma step_closed s s' : closed s -> step s s' -> closed s'.
Proof.
  unfold closed. intros Hc. destruct 1 as [s k l l' Hk Hl|s k i o n e Hk Hlen|ls e es|ls e es errs|s Ho Hne]; cbn in *; try done.
  - apply (insert_closed _ _ _ _ Hk); [by apply lstep_open|done].
  - by apply (insert_closed _ _ _ _ Hk).
  - apply shut_closed.
  - apply shut_closed.
Qed.

Lemma step_work s s' : closed s -> step s s' -> work s' < work s.
Proof.
  unfold closed, work. intros Hc. destruct 1 as [s k l l' Hk Hl|s k i o n e Hk Hlen|ls e es|ls e es errs|s Ho Hne]; cbn in *.
  - pose proof (sum_insert weight _ _ _ l' Hk). pose proof (lstep_weight _ _ Hl (Forall_lookup_1 _ _ _ _ Hc Hk)). lia.
  - pose proof (sum_insert weight _ _ _ (mkListener i o n Ended) Hk) as H. unfold weight at 2 4 in H. cbn in H. rewrite length_app. cbn. lia.
  - rewrite (sum_map weight weight shut) by (by intros []). lia.
  - lia.
  - destruct (listeners s) as [|l ls]; [done|]. apply Forall_inv in Ho, Hc. congruence.
Qed.

Lemma steps_closed k s s' : closed s -> nsteps step k s s' -> closed s' /\ work s' + k <= work s.
Proof.
  intros Hc H. revert Hc. induction H as [s|k s s1 s' H1 _ IH]; intros Hc; [split; [done|lia]|].
  destruct IH as [Hc' Hw]; [by eapply step_closed|]. pose proof (step_work _ _ Hc H1). split; [done|lia].
Qed.

(** The results go somewhere: to somebody who waits for at least one, or all into the channel. *)
Definition drained (s : Servers) : Prop :=
  match waiting s with Nobody => length (listeners s) <= capacity | _ => listeners s <> [] end.

Lemma drained_step s s' : drained s -> step s s' -> drained s'.
Proof.
  unfold drained. intros Hd. destruct 1 as [s k l l' Hk Hl|s k i o n e Hk Hlen|ls e es|ls e es errs|s Ho Hne]; cbn in *.
  1, 2: rewrite length_insert; destruct (waiting s); [done|by intros ?%(f_equal length); rewrite length_insert in *; destruct (listeners s)..].
  - unfold received. destruct ls; [done|]. by destruct (_ <? _).
  - unfold received. destruct ls; [done|]. by destruct (_ <? _).
  - rewrite length_map. destruct (listeners s); [done|]. by destruct (waiting s).
Qed.
Lemma drained_steps k s s' : nsteps step k s s' -> drained s -> drained s'.
Proof. induction 1; eauto using drained_step. Qed.

(** Nothing is stuck: a closed server that has not ended has a step to take, if its channel can hold a
    result of every listener or somebody receives them. *)
Lemma closed_progress s : ok s -> closed s -> drained s -> ended s \/ exists s', step s s'.
Proof.
  intros [Hn Hs Hr Hw Ht] Hc Hroom. destruct (decide (sum_list_with weight (listeners s) = 0)) as [E|E].
  - apply sum_zero in E.
    assert (He : Forall (fun l => lServe l = Ended /\ lSlots l = 0) (listeners s)).
    { eapply Forall_impl; [exact E|]. intros l. unfold weight. destruct (lServe l); lia || (intros; split; [done|lia]). }
    assert (Hp : sum_list_with pending (listeners s) = 0).
    { clear -He. induction He as [|l ls [Hl _] _ IH]; cbn; [done|]. unfold pending at 1. by rewrite Hl. }
    destruct s as [ls es w]; cbn in *. destruct w as [| |errs|errs].
    + by left.
    + destruct es as [|e es]; [destruct ls; cbn in *; [done|lia]|]. right. eexists. apply s_first.
    + destruct es as [|e es]; [cbn in *; lia|]. right. eexists. apply s_more.
    + by left.
  - right. destruct (sum_positive weight (listeners s)) as (k & [i o n g] & Hk & Hw'); [lia|]. pose proof (Forall_lookup_1 _ _ _ _ Hc Hk) as Ho. cbn in Ho. subst o.
    destruct n as [|n]; [|eexists; eapply s_listener; [exact Hk|constructor]]. destruct g as [|e|]; cbn in Hw'; [|  |lia].
    + eexists. eapply s_listener; [exact Hk|constructor].
    + destruct (decide (length (errors s) < capacity)) as [Hl|Hl]; [eexists; by eapply s_send|].
      destruct s as [ls es w]; cbn in *. destruct es as [|e' es]; [cbn in Hl; unfold capacity in Hl; lia|].
      assert (Hp : 0 < sum_list_with pending ls).
      { pose proof (sum_insert pending _ _ _ (mkListener i false 0 Ended) Hk) as H. cbn in H. lia. }
      destruct w as [| |errs|errs]; cbn in *; [lia|eexists; apply s_first|eexists; apply s_more|lia].
Qed.


(** A server without listeners whose caller waits never returns: nothing is ever sent. *)
Lemma idle_wait_blocks c6 c4 t : waiting (fst (Start (Ok tt) c6 c4 None None)) = First /\ ~ step (fst (Start (Ok tt) c6 c4 None None)) t.
Proof. split; [done|]. intros H. cbn in H. inversion H; subst; by try match goal with Hk : [] !! _ = Some _ |- _ => rewrite lookup_nil in Hk end. Qed.

(** Never more than [capacity] packets of a listener are handled at a time, and sending a result never
    has to wait for room while there are no more listeners than that. *)
Lemma packets_bounded load c6 c4 s6 s4 s : rtc step (fst (Start load c6 c4 s6 s4)) s ->
  Forall (fun l => lSlots l <= capacity) (listeners s)
  /\ (length (listeners s) <= capacity -> forall k i o n e, listeners s !! k = Some (mkListener i o n (Sending e)) -> length (errors s) < capacity).
Proof.
  intros H. destruct (steps_ok _ _ (start_ok load c6 c4 s6 s4) H) as [Hn Hs _ _ _]. split; [done|]. intros Hl k i o n e Hk.
  pose proof (sum_insert pending _ _ _ (mkListener i o n Ended) Hk) as Hp. cbn in Hp. lia.
Qed.

(** * An example *)

Module ServeExample.

(** One listener on eth0, started. *)
Definition eth0 : listen_answers * UDPAddr := (mkAnswers (Ok tt) (Ok 2%Z) (Ok tt) (Ok tt), mkUDPAddr "eth0" false).
Definition started : Servers * result string unit := Start (Ok tt) false true None (Some [eth0]).

Definition one (o : bool) (n : nat) (g : goroutine) (es : list (option string)) (w : waiter) : Servers := mkServers [mkListener 2 o n g] es w.

(** A packet comes in, the manager closes the server, the packet is handled and the listener ends. *)
Lemma opened : rtc step (fst started) (one false 1 Reading [] First).
Proof.
  eapply rtc_l; [eapply (s_listener _ 0); [reflexivity|apply ls_packet; unfold capacity; lia]|].
  apply rtc_once. apply (s_close (one true 1 Reading [] First)); [by constructor|done].
Qed.
Lemma run : nsteps step 4 (one false 1 Reading [] First) (one false 0 Ended [] (Waited [None])).
Proof.
  eapply nsteps_l; [eapply (s_listener _ 0); [reflexivity|apply ls_handled]|].
  eapply nsteps_l; [eapply (s_listener _ 0); [reflexivity|apply ls_closed]|].
  eapply nsteps_l; [eapply (s_send _ 0); [reflexivity|unfold capacity; cbn; lia]|].
  eapply nsteps_l; [apply s_first|]. apply nsteps_O.
Qed.


End ServeExample.
