(* ===== verification/State.v ===== *)
(** internal/state: the durable store and the dead-man's-switch leases.

    - [Save]/[Load] (lastgood.go) over a file system in which every system call of a save
      can fail and the machine can stop between any two of them;
    - [DomainState]/[Pending] and their JSON form, [Domain], [SaveDomain],
      [SaveExternallyManagedConfig] (transaction.go);
    - [Arm]/[Cancel] (lease.go) over a service manager that may fail with or without
      effect. *)

From S2P Require Import Prelude Json.
Local Open Scope Z_scope.

(** * lastgood.go: atomic files *)

(** File names inside the store directory, to contents. *)
Abbreviation files := (gmap string raw).

(** The system calls of one [Save], in order. *)
Inductive save_point := AtWrite | AtSync | AtRename | AtDirSync.

(** What the machine does to one [Save]: nothing, an error from a call, or a stop (power
    loss, kill) at a call.  [left_] is what a failed write leaves in the temporary file,
    [torn] what an unsynced temporary file is left holding, and [lost] says whether a rename
    that was not yet synced to the directory is undone. *)
Inductive fault :=
| NoFault
| FailAt (p : save_point) (left_ : option raw)
| StopAt (p : save_point) (torn : raw) (lost : bool).

(** The outcome of an operation: a value, an error, or the death of the process. *)
Inductive outcome (E A : Type) : Type :=
| Done (a : A)
| Failed (e : E)
| Stopped.
Arguments Done {E A} a.
Arguments Failed {E A} e.
Arguments Stopped {E A}.

Definition of_result {E A} (r : result E A) : outcome E A :=
  match r with Ok a => Done a | Err e => Failed e end.

Definition tmp_name (name : string) : string := name +++ ".tmp".

Definition Save (f : fault) (name : string) (data : raw) (fs : files) :
    files * outcome string unit :=
  let tmp := tmp_name name in
  match f with
  | FailAt AtWrite left_ =>
    (match left_ with Some t => <[tmp := t]> fs | None => fs end, Failed ("state: write " +++ tmp))
  | StopAt AtWrite torn _ => (<[tmp := torn]> fs, Stopped)
  | _ =>
    let fs1 := <[tmp := data]> fs in                       (* os.WriteFile *)
    match f with
    | FailAt AtSync _ => (fs1, Failed "sync")
    | StopAt AtSync torn _ => (<[tmp := torn]> fs1, Stopped)
    | FailAt AtRename _ => (fs1, Failed ("state: commit " +++ name))
    | StopAt AtRename _ _ => (fs1, Stopped)
    | _ =>
      let fs2 := delete tmp (<[name := data]> fs1) in      (* os.Rename *)
      match f with
      | FailAt AtDirSync _ => (fs2, Failed "sync directory")
      | StopAt AtDirSync _ lost => (if lost then fs1 else fs2, Stopped)
      | _ => (fs2, Done tt)
      end
    end
  end.

Definition Load (err : bool) (name : string) (fs : files) : result string raw :=
  if err then Err ("state: read " +++ name)
  else Ok (default RawEmpty (fs !! name)).

(** * transaction.go: the transaction record of a domain *)

Record Pending := mkPending {
  Applied : bool;
  ID : string;
  Deadline : Z;
  Snapshot : raw;
  Target : raw;
  Peer : string;
}.

Record DomainState := mkDomainState {
  Confirmed : raw;
  PendingLease : option Pending;
}.

Definition zero_pending : Pending := mkPending false EmptyString 0 RawEmpty RawEmpty EmptyString.
Definition zero_domain : DomainState := mkDomainState RawEmpty None.

(** json.Marshal of the two structs, following their tags. *)
Definition marshal_pending (p : Pending) : json :=
  JObj [ ("applied", JBool (Applied p)); ("id", JStr (ID p)); ("deadline", JTime (Deadline p));
         ("snapshot", JBytes (Snapshot p)); ("target", JBytes (Target p)); ("peer", JStr (Peer p)) ].

Definition marshal_domain (d : DomainState) : raw :=
  marshal (JObj
    ((if raw_is_empty (Confirmed d) then [] else [("confirmed", JBytes (Confirmed d))]) ++
     (match PendingLease d with None => [] | Some p => [("pending", marshal_pending p)] end))).

Definition set_pending_field (k : string) (v : json) (p : Pending) : option (option Pending) :=
  if equal_fold k "applied" then
    Some (b ← dec_bool (Applied p) v; Some (mkPending b (ID p) (Deadline p) (Snapshot p) (Target p) (Peer p)))
  else if equal_fold k "id" then
    Some (s ← dec_string (ID p) v; Some (mkPending (Applied p) s (Deadline p) (Snapshot p) (Target p) (Peer p)))
  else if equal_fold k "deadline" then
    Some (t ← dec_time (Deadline p) v; Some (mkPending (Applied p) (ID p) t (Snapshot p) (Target p) (Peer p)))
  else if equal_fold k "snapshot" then
    Some (b ← dec_bytes v; Some (mkPending (Applied p) (ID p) (Deadline p) b (Target p) (Peer p)))
  else if equal_fold k "target" then
    Some (b ← dec_bytes v; Some (mkPending (Applied p) (ID p) (Deadline p) (Snapshot p) b (Peer p)))
  else if equal_fold k "peer" then
    Some (s ← dec_string (Peer p) v; Some (mkPending (Applied p) (ID p) (Deadline p) (Snapshot p) (Target p) s))
  else None.

Definition set_domain_field (k : string) (v : json) (d : DomainState) : option (option DomainState) :=
  if equal_fold k "confirmed" then
    Some (b ← dec_bytes v; Some (mkDomainState b (PendingLease d)))
  else if equal_fold k "pending" then
    Some (p ← dec_ptr (dec_struct false set_pending_field (default zero_pending (PendingLease d))) v;
          Some (mkDomainState (Confirmed d) p))
  else None.

Definition unmarshal_domain (r : raw) : option DomainState :=
  j ← unmarshal r; dec_struct false set_domain_field zero_domain j.

(** The set of known domains; features add theirs with [RegisterDomain]. *)
Definition core_domains : gset string := {["firewall"; "netconfig"]}.
Definition RegisterDomain (name : string) (domains : gset string) : gset string :=
  {[name]} ∪ domains.

Definition domainFile (domains : gset string) (domain : string) : result string string :=
  if decide (domain ∈ domains) then Ok (domain +++ "-transaction.json")
  else Err ("unknown domain " +++ quote domain).

(** [Domain]: [err1] and [err2] are read errors of the record and of the legacy blob. *)
Definition Domain (domains : gset string) (err1 err2 : bool) (domain legacyName : string)
    (fs : files) : result string DomainState :=
  name ← domainFile domains domain;
  data ← Load err1 name fs;
  if raw_is_empty data then
    confirmed ← Load err2 legacyName fs;
    Ok (mkDomainState confirmed None)
  else match unmarshal_domain data with
       | Some d => Ok d
       | None => Err "invalid transaction record"
       end.

Definition SaveDomain (domains : gset string) (f : fault) (domain : string) (d : DomainState)
    (fs : files) : files * outcome string unit :=
  match domainFile domains domain with
  | Err e => (fs, Failed e)
  | Ok name => Save f name (marshal_domain d) fs
  end.

(** [SaveExternallyManagedConfig]: the record first, then the live configuration file. *)
Definition SaveExternallyManagedConfig (domains : gset string) (err1 err2 : bool) (f1 f2 : fault)
    (domain legacyName : string) (data : raw) (fs : files) : files * outcome string unit :=
  match Domain domains err1 err2 domain legacyName fs with
  | Err e => (fs, Failed e)
  | Ok d =>
    match PendingLease d with
    | Some _ => (fs, Failed ("finish pending " +++ domain +++ " configuration lease first"))
    | None =>
      match SaveDomain domains f1 domain (mkDomainState data None) fs with
      | (fs1, Done _) => Save f2 legacyName data fs1
      | (fs1, r) => (fs1, r)
      end
    end
  end.

(** * lease.go: the dead-man's switch *)

(** What the service manager does with one command: it succeeds, it fails before or after
    taking effect, or the daemon dies before or after it takes effect. *)
Inductive command_fate := CmdOk | CmdFailBefore | CmdFailAfter | CmdStopBefore | CmdStopAfter.

Definition command_effect (c : command_fate) : bool :=
  match c with CmdOk | CmdFailAfter | CmdStopAfter => true | _ => false end.
Definition command_outcome (c : command_fate) : outcome string unit :=
  match c with
  | CmdOk => Done tt
  | CmdFailBefore | CmdFailAfter => Failed "exit status"
  | CmdStopBefore | CmdStopAfter => Stopped
  end.

(** The transient timers the service manager holds (unit name to the instant it elapses and
    the command it starts), and the daemon's own table of armed leases (lease to unit). *)
Abbreviation timers := (gmap string (Z * list string)).
Abbreviation lease_table := (gmap string string).

Definition unitName (leaseID : string) : string := "ghostd-revert-" +++ leaseID.

Definition second : Z := 1000000000.

(** The argument vector [Arm] gives systemd-run. *)
Definition arm_command (binaryPath leaseID domain storeDir : string) : list string :=
  [ binaryPath; "--revert-lease=" +++ leaseID; "--revert-domain=" +++ domain;
    "--store-dir=" +++ storeDir ].

Definition arm_args (binaryPath leaseID domain storeDir : string) (timeout : Z) : list string :=
  [ "--unit=" +++ unitName leaseID;
    "--description=ghostd dead-man's-switch revert";
    "--on-active=" +++ pretty (Z.quot timeout second) +++ "s";
    "--timer-property=AccuracySec=100ms";
    "--property=Restart=on-failure";
    "--property=RestartSec=5s";
    "--" ] ++ arm_command binaryPath leaseID domain storeDir.

(** systemd-run at instant [at]: the words after [--] are the command of the unit named by
    [--unit=], started [delay] seconds (the value of [--on-active=]) later. *)
Fixpoint flag_value (name : string) (args : list string) : string :=
  match args with
  | [] => EmptyString
  | a :: args' => match strip_prefix (name +++ "=") a with
                  | Some v => v
                  | None => flag_value name args'
                  end
  end.
Fixpoint after_dashes (args : list string) : list string :=
  match args with
  | [] => []
  | a :: args' => if a =?s "--" then args' else after_dashes args'
  end.
Definition systemd_run (at_ delay : Z) (args : list string) (t : timers) : timers :=
  <[flag_value "--unit" args := (at_ + delay * second, after_dashes args)]> t.

Definition Arm (c : command_fate) (at_ : Z) (binaryPath leaseID domain : string) (timeout : Z)
    (storeDir : string) (t : timers) (units : lease_table) :
    timers * lease_table * outcome string unit :=
  if timeout <=? 0 then
    (t, units, Failed "state: dead-man's-switch timeout must be positive")
  else if is_empty domain then
    (t, units, Failed "state: dead-man's-switch domain must not be empty")
  else
    let args := arm_args binaryPath leaseID domain storeDir timeout in
    let t' := if command_effect c then systemd_run at_ (Z.quot timeout second) args t else t in
    match command_outcome c with
    | Done _ => (t', <[leaseID := unitName leaseID]> units, Done tt)
    | Failed e => (t', units, Failed ("state: arm dead-man's-switch for lease " +++ leaseID))
    | Stopped => (t', units, Stopped)
    end.

Definition Cancel (c : command_fate) (leaseID : string) (t : timers) (units : lease_table) :
    timers * lease_table * outcome string unit :=
  match units !! leaseID with
  | None => (t, units, Failed ("state: lease " +++ leaseID +++ " is not armed"))
  | Some unit =>
    let t' := if command_effect c then delete unit t else t in
    match command_outcome c with
    | Done _ => (t', delete leaseID units, Done tt)
    | Failed e => (t', units, Failed ("state: cancel dead-man's-switch for lease " +++ leaseID))
    | Stopped => (t', units, Stopped)
    end
  end.

(** What the reverting process reads from the command line of its unit. *)
Definition revert_request (command : list string) : string * string * string :=
  (flag_value "--revert-lease" command, flag_value "--revert-domain" command,
   flag_value "--store-dir" command).

(** * Lemmas *)

Lemma unmarshal_marshal_domain d : unmarshal_domain (marshal_domain d) = Some d.
Proof.
  destruct d as [c [[a i t s g p]|]]; unfold marshal_domain, unmarshal_domain; simpl.
  - by destruct c.
  - by destruct c.
Qed.

Lemma marshal_domain_nonempty d : raw_is_empty (marshal_domain d) = false.
Proof. done. Qed.

Lemma tmp_name_ne name : tmp_name name <> name.
Proof.
  unfold tmp_name. intros H. apply (f_equal String.length) in H.
  rewrite append_length in H. simpl in H. lia.
Qed.

(** One save, whatever happens to it: the file holds the old bytes or the new ones. *)
Lemma Save_lookup f name data fs fs' o :
  Save f name data fs = (fs', o) ->
  (fs' !! name = Some data /\ (o = Done tt \/ (exists e, o = Failed e) \/ o = Stopped)
   \/ fs' !! name = fs !! name /\ o <> Done tt)
  /\ forall other, other <> name -> other <> tmp_name name -> fs' !! other = fs !! other.
Proof.
  pose proof (tmp_name_ne name) as Hne. unfold Save.
  destruct f as [|[] [left_|]|[] torn []]; intros [= <- <-]; split;
    try (intros other H1 H2; rewrite ?lookup_delete_ne, ?lookup_insert_ne by congruence; done);
    rewrite ?lookup_delete_ne, ?lookup_insert_eq, ?lookup_insert_ne by congruence;
    rewrite ?lookup_insert_eq; naive_solver.
Qed.

Lemma Save_done f name data fs fs' :
  Save f name data fs = (fs', Done tt) -> fs' !! name = Some data.
Proof.
  intros H. destruct (Save_lookup _ _ _ _ _ _ H) as [[[? _]|[_ Hn]] _]; [done|]. by destruct Hn.
Qed.

Lemma Save_nofault name data fs : exists fs', Save NoFault name data fs = (fs', Done tt).
Proof. by eexists. Qed.

Lemma domainFile_ok domains d name :
  domainFile domains d = Ok name <-> d ∈ domains /\ name = d +++ "-transaction.json".
Proof. unfold domainFile. case_decide; naive_solver. Qed.

Lemma unitName_inj a b : unitName a = unitName b -> a = b.
Proof. apply append_inj_l. Qed.

Lemma arm_args_unit binary id d dir timeout :
  flag_value "--unit" (arm_args binary id d dir timeout) = unitName id.
Proof. reflexivity. Qed.

Lemma arm_args_command binary id d dir timeout :
  after_dashes (arm_args binary id d dir timeout) = arm_command binary id d dir.
Proof.
  unfold arm_args. simpl. generalize (pretty (Z.quot timeout second) +++ "s"); intros x.
  reflexivity.
Qed.

Lemma arm_command_request binary id d dir :
  has_prefix binary "/" = true ->
  revert_request (arm_command binary id d dir) = (id, d, dir).
Proof.
  intros Hb. unfold has_prefix in Hb.
  destruct (strip_prefix "/" binary) as [r|] eqn:E; [|done].
  apply strip_prefix_Some in E as ->. reflexivity.
Qed.

(** What a call to [Arm] does to the timers: at most it adds the lease's own unit, due no
    earlier than the lease's timeout from now. *)
Lemma Arm_spec c at_ binary id d secs dir t u t' u' o :
  Arm c at_ binary id d (secs * second) dir t u = (t', u', o) ->
  (t' = t \/ t' = <[unitName id := (at_ + secs * second, arm_command binary id d dir)]> t)
  /\ (u' = u \/ u' = <[id := unitName id]> u)
  /\ (o = Done tt -> t' = <[unitName id := (at_ + secs * second, arm_command binary id d dir)]> t).
Proof.
  unfold Arm. destruct (_ <=? 0); [intros [= <- <- <-]; naive_solver|].
  destruct (is_empty d); [intros [= <- <- <-]; naive_solver|].
  unfold systemd_run. rewrite arm_args_unit, arm_args_command.
  rewrite Z.quot_mul by (unfold second; lia).
  destruct c; simpl; intros [= <- <- <-]; naive_solver.
Qed.

Lemma Cancel_spec c id t u t' u' o :
  (forall i n, u !! i = Some n -> n = unitName i) ->
  Cancel c id t u = (t', u', o) ->
  (t' = t \/ t' = delete (unitName id) t) /\ (u' = u \/ u' = delete id u).
Proof.
  intros Hu. unfold Cancel. destruct (u !! id) as [n|] eqn:E; [|intros [= <- <- <-]; naive_solver].
  rewrite (Hu _ _ E). destruct c; simpl; intros [= <- <- <-]; naive_solver.
Qed.

(** * Theorems *)

(** A save is atomic.  Whatever call of a save fails and wherever the machine stops, the
    named file holds either its old contents or exactly the new bytes, every other file but
    the temporary one is untouched, and a save that reports success has stored the bytes. *)
Theorem save_atomic f name data fs :
  let '(fs', o) := Save f name data fs in
  (fs' !! name = Some data \/ fs' !! name = fs !! name)
  /\ (o = Done tt -> fs' !! name = Some data)
  /\ forall other, other <> name -> other <> tmp_name name -> fs' !! other = fs !! other.
Proof.
  destruct (Save f name data fs) as [fs' o] eqn:E.
  destruct (Save_lookup _ _ _ _ _ _ E) as [Hn Ho]. split_and!; [naive_solver| |done].
  intros ->. by eapply Save_done.
Qed.

(** The transaction record round-trips.  For every domain and every record, also
    one with an open lease, loading after a save that reported success yields the record
    that was saved, byte for byte in its three payloads. *)
Theorem domain_roundtrip domains f domain legacy d fs fs' :
  SaveDomain domains f domain d fs = (fs', Done tt) ->
  Domain domains false false domain legacy fs' = Ok d.
Proof.
  unfold SaveDomain, Domain. destruct (domainFile domains domain) as [name|e]; [|done].
  intros E%Save_done. simpl. rewrite E. simpl default.
  by rewrite marshal_domain_nonempty, unmarshal_marshal_domain.
Qed.

Definition open_lease : DomainState :=
  mkDomainState (RawDoc JNull) (Some (mkPending true "lease" 7 (RawDoc (JNum 1)) RawEmpty "peer")).

Lemma domain_roundtrip_witness :
  Domain core_domains false false "firewall" "legacy"
    (fst (SaveDomain core_domains NoFault "firewall" open_lease ∅)) = Ok open_lease.
Proof.
  apply (domain_roundtrip core_domains NoFault "firewall" "legacy" open_lease ∅).
  vm_compute. reflexivity.
Defined.

(** The timer knows its lease.  Arming a lease with a positive timeout of whole seconds
    leaves a unit of the lease's own name that elapses exactly that long after the call and
    whose command line, read by the reverting process's flags, names the lease, the domain
    and the store; leases with different ids get different units. *)
Theorem arm_delivers at_ binary id domain secs dir t units :
  has_prefix binary "/" = true -> 0 < secs -> is_empty domain = false ->
  exists t' command,
    Arm CmdOk at_ binary id domain (secs * second) dir t units
      = (t', <[id := unitName id]> units, Done tt)
    /\ t' !! unitName id = Some (at_ + secs * second, command)
    /\ revert_request command = (id, domain, dir)
    /\ forall id', id' <> id -> t' !! unitName id' = t !! unitName id'.
Proof.
  intros Hb Hs Hd. destruct (Arm CmdOk _ _ _ _ _ _ _ _) as [[t' u'] o] eqn:E.
  destruct (Arm_spec _ _ _ _ _ _ _ _ _ _ _ _ E) as (_ & _ & HD). unfold Arm in E.
  assert ((secs * second <=? 0) = false) as Hpos by (apply Z.leb_gt; unfold second; lia).
  rewrite Hpos, Hd in E. simpl in E. injection E as Ht <- <-. specialize (HD eq_refl).
  exists t', (arm_command binary id domain dir). split_and!.
  - done.
  - rewrite HD. apply lookup_insert_eq.
  - by apply arm_command_request.
  - intros id' Hne. rewrite HD. apply lookup_insert_ne. intros Heq%unitName_inj. congruence.
Qed.

Lemma arm_delivers_witness :
  exists t' command,
    Arm CmdOk 5 "/usr/bin/ghostd" "a" "firewall" (60 * second) "/var/lib/ghostd" ∅ ∅
      = (t', <["a" := unitName "a"]> ∅, Done tt)
    /\ t' !! unitName "a" = Some (5 + 60 * second, command)
    /\ revert_request command = ("a", "firewall", "/var/lib/ghostd")
    /\ forall id', id' <> "a" -> t' !! unitName id' = (∅ : timers) !! unitName id'.
Proof. apply (arm_delivers 5 "/usr/bin/ghostd" "a" "firewall" 60 "/var/lib/ghostd" ∅ ∅); done. Defined.

(** An externally managed configuration.  [SaveExternallyManagedConfig] refuses, and
    changes nothing, while the domain has an open lease; when it reports success the record
    and the live file both hold the new bytes; and wherever it fails or the machine stops,
    the live file changes only after the record holds the new bytes, so a boot that replays
    the record never goes back behind the live file. *)
Theorem external_config_ordered domains f1 f2 domain legacy data fs fs' o d :
  legacy <> domain +++ "-transaction.json" ->
  legacy <> tmp_name (domain +++ "-transaction.json") ->
  domain +++ "-transaction.json" <> tmp_name legacy ->
  Domain domains false false domain legacy fs = Ok d ->
  SaveExternallyManagedConfig domains false false f1 f2 domain legacy data fs = (fs', o) ->
  (is_Some (PendingLease d) -> fs' = fs /\ o <> Done tt)
  /\ (o = Done tt -> fs' !! legacy = Some data
        /\ Domain domains false false domain legacy fs' = Ok (mkDomainState data None))
  /\ (fs' !! legacy <> fs !! legacy ->
        Domain domains false false domain legacy fs' = Ok (mkDomainState data None)).
Proof.
  intros H1 H2 H3 HD. unfold SaveExternallyManagedConfig. rewrite HD.
  destruct (PendingLease d) as [p|]; [intros [= <- <-]; by split_and!|].
  destruct (SaveDomain _ _ _ _ _) as [fs1 o1] eqn:E1. unfold SaveDomain in E1.
  assert (Hleg : fs1 !! legacy = fs !! legacy).
  { destruct (domainFile _ _) eqn:En; [|by injection E1 as <- _].
    apply domainFile_ok in En as [_ ->]. by apply (Save_lookup _ _ _ _ _ _ E1). }
  destruct o1 as [[]|e|]; [|intros [= <- <-]; by split_and!; [intros []|..]..]. intros E2.
  assert (Hrec : Domain domains false false domain legacy fs' = Ok (mkDomainState data None)).
  { unfold Domain. destruct (domainFile _ _) as [name|e] eqn:En; [|done].
    pose proof En as Hn. apply domainFile_ok in Hn as [_ ->]. apply Save_done in E1.
    apply Save_lookup in E2 as [_ Ho]. rewrite <- (Ho (domain +++ "-transaction.json")) in E1 by congruence.
    simpl. rewrite E1. simpl default. by rewrite marshal_domain_nonempty, unmarshal_marshal_domain. }
  split_and!; [by intros []| |done]. intros ->. split; [by eapply Save_done | done].
Qed.

Lemma external_config_ordered_witness :
  let fs' := fst (SaveExternallyManagedConfig core_domains false false NoFault NoFault
                    "netconfig" "live.json" (RawDoc JNull) ∅) in
  fs' !! "live.json" = Some (RawDoc JNull)
  /\ Domain core_domains false false "netconfig" "live.json" fs' = Ok (mkDomainState (RawDoc JNull) None).
Proof.
  apply (external_config_ordered core_domains NoFault NoFault "netconfig"
    "live.json" (RawDoc JNull) ∅ _ (Done tt) (mkDomainState RawEmpty None)); try done; vm_compute; reflexivity.
Defined.
