(* ===== verification/Auth.v ===== *)
(** internal/auth and internal/overlay/localapi: who a caller is, and what it may do.

    [Identify] turns the overlay provider's answer about a remote address into an
    [Identity]; [AuthorizeDeployer] and [AuthorizeReporter] are the two gates of the RPC
    layer.  The provider's local daemon is outside the repository: its answer is the
    argument [whois] (a [whois_response], the fields localapi.go reads). *)

From S2P Require Import Prelude Json.

(** * internal/overlay: what a provider proves about a node *)

Record Caller := mkCaller {
  Login : string;
  NodeID : string;
  DNSName : string;
  Tags : list string;
  Addresses : list string;
  Capabilities : gmap string (list raw);
}.

(** The parts of tailscaled's WhoIs answer that localapi.go uses.  An address carries its
    text and whether it is a single-IP prefix. *)
Record whois_response := mkWhois {
  w_node : option (string * string * list string * list (string * bool));
  w_login : option string;
  w_caps : gmap string (list raw);
}.

(** localapi.Client.Whois; [TrustCapabilities] is false for Headscale. *)
Definition Whois (TrustCapabilities : bool) (answer : result string (option whois_response)) :
    result string Caller :=
  match answer with
  | Err e => Err e
  | Ok None => Err "whois answered no node"
  | Ok (Some resp) =>
    match w_node resp with
    | None => Err "whois answered no node"
    | Some (stable_id, name, tags, addresses) =>
      Ok (mkCaller (default EmptyString (w_login resp)) stable_id name tags
           (map fst (List.filter snd addresses))
           (if TrustCapabilities && negb (bool_decide (w_caps resp = ∅)) then w_caps resp else ∅))
    end
  end.

(** * internal/auth *)

Definition DeployCapability : string := "ghostd.local/cap/deploy".
Definition ReportCapability : string := "ghostd.local/cap/report".

Record Identity := mkIdentity {
  IdLogin : string;
  IdTags : list string;
  CanDeploy : bool;
  CanReport : bool;
  IdNodeID : string;
  IdDNSName : string;
  IdAddresses : list string;
}.

Definition HasTag (id : Identity) (tag : string) : bool := mem_str tag (IdTags id).

Record Authenticator := mkAuthenticator {
  deployerTag : string;
  deployerUsers : gset string;
}.

Definition NewAuthenticator (tag : string) : Authenticator := mkAuthenticator tag ∅.

Definition WithDeployerUsers (logins : list string) (a : Authenticator) : Authenticator :=
  mkAuthenticator (deployerTag a)
    (fold_left (fun us l => if is_empty l then us else {[l]} ∪ us) logins (deployerUsers a)).

(** json.Unmarshal into [struct{ <name> bool }], true when it succeeds with the flag set. *)
Definition grants (name : string) (value : raw) : bool :=
  match unmarshal value with
  | None => false
  | Some j =>
    default false (dec_struct false
      (fun k v cur => if equal_fold k name then Some (dec_bool cur v) else None) false j)
  end.

(** [Identify]: [caller] is the provider's answer, [None] when it answered with no node. *)
Definition Identify (caller : result string (option Caller)) : result string Identity :=
  match caller with
  | Err e => Err ("auth: caller is not a recognized overlay node: " +++ e)
  | Ok None => Err "auth: caller is not a recognized overlay node: no node answered"
  | Ok (Some c) =>
    Ok (mkIdentity (Login c) (Tags c)
          (existsb (grants "deploy") (default [] (Capabilities c !! DeployCapability)))
          (existsb (grants "report") (default [] (Capabilities c !! ReportCapability)))
          (NodeID c) (DNSName c) (Addresses c))
  end.

Definition AuthorizeReporter (a : Authenticator) (caller : result string (option Caller)) :
    result string Identity :=
  id ← Identify caller;
  if is_empty (IdNodeID id)
     || (negb (CanReport id) && negb (CanDeploy id) && negb (HasTag id (deployerTag a)))
  then Err "auth: host report requires a stable node ID and report capability"
  else Ok id.

Definition AuthorizeDeployer (a : Authenticator) (caller : result string (option Caller)) :
    result string Identity :=
  id ← Identify caller;
  if negb (CanDeploy id) && negb (HasTag id (deployerTag a))
     && negb (bool_decide (IdLogin id ∈ deployerUsers a))
  then Err ("auth: " +++ IdLogin id +++ " lacks ghostd deploy capability, tag "
            +++ deployerTag a +++ " and a deployer login; mutating calls refused")
  else Ok id.

(** * Theorems *)

Lemma elem_of_WithDeployerUsers logins a u :
  u ∈ deployerUsers (WithDeployerUsers logins a)
  <-> u ∈ deployerUsers a \/ (u ∈ logins /\ u <> EmptyString).
Proof.
  unfold WithDeployerUsers; simpl. generalize (deployerUsers a) as us.
  induction logins as [|l logins IH]; intros us; simpl; [set_solver|].
  rewrite IH. destruct (is_empty l) eqn:E.
  - apply is_empty_spec in E as ->. set_solver.
  - assert (l <> EmptyString) by (by intros ->). set_solver.
Qed.

(** Ways a caller proves it may deploy. *)
Definition deploy_capability (c : Caller) : Prop :=
  exists v, v ∈ default [] (Capabilities c !! DeployCapability) /\ grants "deploy" v = true.

Lemma existsb_elem_of {A} (f : A -> bool) l :
  existsb f l = true <-> exists x, x ∈ l /\ f x = true.
Proof. rewrite existsb_exists. by setoid_rewrite list_elem_of_In. Qed.

Lemma deploy_gate a c :
  is_ok (AuthorizeDeployer a (Ok (Some c))) = true
  <-> deploy_capability c \/ deployerTag a ∈ Tags c \/ Login c ∈ deployerUsers a.
Proof.
  unfold AuthorizeDeployer, HasTag, deploy_capability; simpl.
  rewrite <- mem_str_spec, <- existsb_elem_of.
  case_bool_decide; destruct (existsb _ _), (mem_str _ _); simpl; naive_solver.
Qed.

(** Who may deploy.  With an authenticator built from a tag and a list of deployer
    logins, a caller passes the gate of the mutating calls exactly when it holds a deploy
    capability whose document sets the flag, carries the tag, or logs in as one of the
    listed users; an empty login never counts, an unknown node never passes. *)
Theorem deployer_gate tag logins caller :
  is_ok (AuthorizeDeployer (WithDeployerUsers logins (NewAuthenticator tag)) caller) = true
  <-> exists c, caller = Ok (Some c)
      /\ (deploy_capability c \/ tag ∈ Tags c \/ (Login c ∈ logins /\ Login c <> EmptyString)).
Proof.
  destruct caller as [[c|]|e]; [|by split; [|intros (c & ? & _)]..].
  rewrite deploy_gate, elem_of_WithDeployerUsers. simpl. split.
  - intros Hc. exists c. split; [done|]. set_solver.
  - intros (c' & [= <-] & Hc). set_solver.
Qed.

Definition report_capability (c : Caller) : Prop :=
  exists v, v ∈ default [] (Capabilities c !! ReportCapability) /\ grants "report" v = true.

Lemma report_gate a c :
  is_ok (AuthorizeReporter a (Ok (Some c))) = true
  <-> NodeID c <> EmptyString /\ (deploy_capability c \/ deployerTag a ∈ Tags c \/ report_capability c).
Proof.
  unfold AuthorizeReporter, deploy_capability, report_capability, HasTag; simpl.
  rewrite <- !existsb_elem_of, <- mem_str_spec. pose proof (is_empty_spec (NodeID c)) as He.
  destruct (is_empty _), (existsb (grants "report") _), (existsb (grants "deploy") _), (mem_str _ _);
    naive_solver.
Qed.

(** Who may report.  A host report is accepted exactly from a node with a stable id that
    holds a report or deploy capability or carries the deployer tag; a deployer login alone
    is not enough. *)
Theorem reporter_gate a caller :
  is_ok (AuthorizeReporter a caller) = true
  <-> exists c, caller = Ok (Some c) /\ NodeID c <> EmptyString
      /\ (deploy_capability c \/ deployerTag a ∈ Tags c \/ report_capability c).
Proof.
  destruct caller as [[c|]|e]; [|by split; [|intros (c & ? & _)]..].
  rewrite report_gate. naive_solver.
Qed.

(** A control plane without grants cannot authorise by capability.  Behind a provider
    that does not trust capabilities (Headscale), a caller passes the deployer gate only by
    tag or by login, whatever capabilities the local daemon reports for it. *)
Theorem headscale_ignores_capabilities a answer c :
  Whois false answer = Ok c -> deployerTag a ∉ Tags c -> Login c ∉ deployerUsers a ->
  is_ok (AuthorizeDeployer a (Ok (Some c))) = false.
Proof.
  intros Hw Ht Hl. destruct (is_ok _) eqn:E; [|done]. apply deploy_gate in E as [[v [Hv _]]|[?|?]];
    [|done..].
  unfold Whois in Hw. destruct answer as [[resp|]|]; try done.
  destruct (w_node resp) as [[[[i n] tags] addrs]|]; [|done]. injection Hw as <-. simpl in Hv.
  rewrite lookup_empty in Hv. by apply elem_of_nil in Hv.
Qed.

Lemma headscale_ignores_capabilities_witness :
  is_ok (AuthorizeDeployer (NewAuthenticator "tag:deployer") (Ok (Some
    (mkCaller "u" "n1" "n1.example" ["tag:other"] [] ∅)))) = false.
Proof.
  apply (headscale_ignores_capabilities (NewAuthenticator "tag:deployer")
    (Ok (Some (mkWhois (Some ("n1", "n1.example", ["tag:other"], [])) (Some "u")
      {[DeployCapability := [RawDoc (JObj [("deploy", JBool true)])]]})))).
  - vm_compute. reflexivity.
  - vm_compute. set_solver.
  - vm_compute. set_solver.
Defined.
