(* ===== verification/Server.v ===== *)
(** internal/rpc/server.go and the recovery half of cmd/ghostd/main.go: the lease protocol.

    A host holds the store's files, the service manager's timers, the daemon's table of
    armed leases and, per domain, the state its executor changes.  Handlers run in a state
    monad over it; every call to the outside (clock, file system, service manager, request
    context, executor) reads what happens from an environment, so a theorem for all
    environments covers every combination of errors and of a stop at any call. *)

From S2P Require Import Prelude Json State Auth.
Local Open Scope Z_scope.

(** * gRPC statuses *)

Inductive code :=
| Unauthenticated | PermissionDenied | InvalidArgument | FailedPrecondition
| Internal | DeadlineExceeded | Unimplemented.

Record status := mkStatus { st_code : code; st_message : string }.

(** * What a domain's package offers the RPC layer

    [ex_check] is everything before the first effect (parse, validate, render, dry run),
    [ex_snapshot] reads what a rollback needs, [ex_mutate] enacts the plan, [ex_rollback]
    undoes it from a snapshot, [ex_restore] replays confirmed bytes at boot, and
    [ex_confirmed] is what Confirm persists.  The first argument of each is a tick: reads
    may answer differently at different times. *)
Record Executor (H : Type) := mkExecutor {
  plan : Type;
  ex_check : nat -> raw -> H -> outcome status plan;
  ex_snapshot : nat -> plan -> H -> outcome status raw;
  ex_mutate : nat -> plan -> H -> H * outcome string unit;
  ex_rollback : nat -> raw -> H -> H * outcome string unit;
  ex_restore : nat -> raw -> H -> H * outcome string unit;
  ex_confirmed : nat -> raw -> H -> outcome status raw;
}.
Arguments plan {H} e.
Arguments ex_check {H} e n r h.
Arguments ex_snapshot {H} e n p h.
Arguments ex_mutate {H} e n p h.
Arguments ex_rollback {H} e n s h.
Arguments ex_restore {H} e n c h.
Arguments ex_confirmed {H} e n t h.

(** * The host and the monad *)

Record Sys (H : Type) := mkSys {
  fs : files;
  tms : timers;
  units : lease_table;
  hosts : string -> H;
  tick : nat;
}.
Arguments mkSys {H} fs tms units hosts tick.
Arguments fs {H} s.
Arguments tms {H} s.
Arguments units {H} s.
Arguments hosts {H} s d.
Arguments tick {H} s.

(** What the outside world answers at each tick. *)
Record Env := mkEnv {
  e_now : nat -> Z;                    (* time.Now(), nanoseconds *)
  e_save : nat -> fault;               (* Store.Save *)
  e_read : nat -> bool;                (* an error from reading the record *)
  e_read_legacy : nat -> bool;         (* an error from reading the legacy blob *)
  e_lock : nat -> bool;                (* an error from the store lock *)
  e_command : nat -> command_fate;     (* systemd-run, systemctl *)
  e_ctx : nat -> bool;                 (* ctx.Err() != nil *)
  e_uuid : nat -> string;              (* uuid.NewString() *)
}.

Definition prog (H E A : Type) : Type := Sys H -> Sys H * outcome E A.

#[global] Instance prog_ret H E : MRet (prog H E) := fun A a s => (s, Done a).
#[global] Instance prog_bind H E : MBind (prog H E) := fun A B f m s =>
  match m s with
  | (s', Done a) => f a s'
  | (s', Failed e) => (s', Failed e)
  | (s', Stopped) => (s', Stopped)
  end.

Definition throw {H E A} (e : E) : prog H E A := fun s => (s, Failed e).
Definition fail {H A} (c : code) (m : string) : prog H status A := throw (mkStatus c m).

(** Rewrite an error (a wrapped error in Go). *)
Definition map_err {H E E' A} (f : E -> E') (m : prog H E A) : prog H E' A := fun s =>
  match m s with
  | (s', Done a) => (s', Done a)
  | (s', Failed e) => (s', Failed (f e))
  | (s', Stopped) => (s', Stopped)
  end.

(** [if err := m; err != nil { h }]. *)
Definition on_err {H E E' A} (m : prog H E A) (h : E -> prog H E' A) : prog H E' A := fun s =>
  match m s with
  | (s', Done a) => (s', Done a)
  | (s', Failed e) => h e s'
  | (s', Stopped) => (s', Stopped)
  end.

(** A panic. *)
Definition stop {H E A} : prog H E A := fun s => (s, Stopped).

(** [_ = m] and [if err := m; err != nil { log }]: an error is dropped, a stop is not. *)
Definition ignore_err {H E E'} (m : prog H E unit) : prog H E' unit := fun s =>
  match m s with
  | (s', Stopped) => (s', Stopped)
  | (s', _) => (s', Done tt)
  end.

Definition advance {H} (s : Sys H) : Sys H :=
  mkSys (fs s) (tms s) (units s) (hosts s) (S (tick s)).
Definition set_fs {H} (x : files) (s : Sys H) : Sys H := mkSys x (tms s) (units s) (hosts s) (tick s).
Definition set_timers {H} (t : timers) (u : lease_table) (s : Sys H) : Sys H :=
  mkSys (fs s) t u (hosts s) (tick s).
Definition set_host {H} (d : string) (h : H) (s : Sys H) : Sys H :=
  mkSys (fs s) (tms s) (units s) (fun d' => if d' =?s d then h else hosts s d') (tick s).

(** * Requests *)

Record ApplyRequest := mkApplyRequest {
  domain : string;
  desired_state_json : raw;
  dead_man_switch_seconds : Z;         (* an int32 *)
}.

(** The daemon's fixed parts. *)
Record Server := mkServer {
  ObserveOnly : bool;
  authenticator : Authenticator;
  binaryPath : string;
  storeDir : string;
  known_domains : gset string;         (* the registry in internal/state *)
}.

Definition domainFirewall : string := "firewall".
Definition domainNetconfig : string := "netconfig".
Definition NftRuleset : string := "nft-ruleset.json".
Definition NetconfigState : string := "netconfig-state.json".

(** The domains of the optional features, with the file each keeps its configuration in. *)
Definition domainDHCP : string := "dhcp-v1".
Definition domainMDNS : string := "mdns-v2".
Definition extraDomains : list (string * string) := [(domainDHCP, "dhcp-config.json"); (domainMDNS, "mdns-config-v2.json")].

Definition legacyName (d : string) : string :=
  match find (fun e => fst e =?s d) extraDomains with
  | Some e => snd e
  | None => if d =?s domainFirewall then NftRuleset else NetconfigState
  end.

Section Handlers.
Context {H : Type} (env : Env) (srv : Server).
(** The executors of the two core domains. *)
Context (fw nc : Executor H).

Definition executor (d : string) : Executor H := if d =?s domainFirewall then fw else nc.

(** ** Calls to the outside *)

Definition now : prog H status Z := fun s => (advance s, Done (e_now env (tick s))).

Definition ctx_err : prog H status bool := fun s => (advance s, Done (e_ctx env (tick s))).

Definition new_lease_id : prog H status string := fun s => (advance s, Done (e_uuid env (tick s))).

Definition lock : prog H string unit := fun s =>
  (advance s, if e_lock env (tick s) then Failed "lock" else Done tt).

Definition store_domain (d : string) : prog H string DomainState := fun s =>
  (advance s, of_result (Domain (known_domains srv) (e_read env (tick s))
                           (e_read_legacy env (tick s)) d (legacyName d) (fs s))).

Definition save_domain (d : string) (ds : DomainState) : prog H string unit := fun s =>
  match SaveDomain (known_domains srv) (e_save env (tick s)) d ds (fs s) with
  | (fs', o) => (set_fs fs' (advance s), o)
  end.

Definition arm (id d : string) (timeout : Z) : prog H string unit := fun s =>
  match Arm (e_command env (tick s)) (e_now env (tick s)) (binaryPath srv) id d timeout (storeDir srv)
            (tms s) (units s) with
  | (t, u, o) => (set_timers t u (advance s), o)
  end.

Definition cancel (id : string) : prog H string unit := fun s =>
  match Cancel (e_command env (tick s)) id (tms s) (units s) with
  | (t, u, o) => (set_timers t u (advance s), o)
  end.

(** A read of a domain's host state, and a change of it. *)
Definition host_read {A} (d : string) (f : nat -> H -> outcome status A) : prog H status A :=
  fun s => (advance s, f (tick s) (hosts s d)).
Definition host_change (d : string) (f : nat -> H -> H * outcome string unit) : prog H string unit :=
  fun s => match f (tick s) (hosts s d) with
           | (h, o) => (set_host d h (advance s), o)
           end.

Definition internal (e : string) : status := mkStatus Internal e.

(** ** Apply *)

(** recoverExpired, over the way the domain undoes a change. *)
Definition recover_expired (rollback : raw -> prog H string unit) (d : string) : prog H status unit :=
  ds ← map_err internal (store_domain d);
  match PendingLease ds with
  | None => mret tt
  | Some p =>
    t ← now;
    if t <? Deadline p then
      fail FailedPrecondition ("domain " +++ d +++ " has unconfirmed lease " +++ ID p)
    else if raw_is_empty (Snapshot p) then
      fail Internal ("expired " +++ d +++ " lease " +++ ID p +++ " has no rollback snapshot; pending record retained")
    else
      map_err (fun _ => mkStatus Internal ("expired " +++ d +++ " lease " +++ ID p
                 +++ " rollback failed; pending snapshot retained"))
        (rollback (Snapshot p));;
      map_err (fun _ => mkStatus Internal "rollback completed but pending record could not be cleared")
        (save_domain d (mkDomainState (Confirmed ds) None))
  end.

Definition recoverExpired (d : string) : prog H status unit :=
  recover_expired (fun snapshot => host_change d (fun n => ex_rollback (executor d) n snapshot)) d.

Definition begin (addr : string) (req : ApplyRequest) (snapshot : raw) : prog H status string :=
  let d := domain req in
  ds ← map_err internal (store_domain d);
  match PendingLease ds with
  | Some _ => fail FailedPrecondition "domain already has an unconfirmed apply; wait for rollback"
  | None =>
    id ← new_lease_id;
    let timeout := dead_man_switch_seconds req * second in
    t ← now;
    let p := mkPending false id (t + timeout) snapshot (desired_state_json req) addr in
    map_err internal (save_domain d (mkDomainState (Confirmed ds) (Some p)));;
    on_err (arm id d timeout) (fun e =>
      ignore_err (save_domain d (mkDomainState (Confirmed ds) None));;
      throw (internal e));;
    mret id
  end.

Definition finishApply (d id : string) : prog H status string :=
  late ← ctx_err;
  if (late : bool) then fail DeadlineExceeded "apply did not complete in time; rollback stays armed"
  else
    ds ← map_err internal (store_domain d);
    match PendingLease ds with
    | None => stop                               (* a nil dereference *)
    | Some p =>
      map_err internal (save_domain d (mkDomainState (Confirmed ds)
        (Some (mkPending true (ID p) (Deadline p) (Snapshot p) (Target p) (Peer p)))));;
      mret id
    end.

(** applyFirewall and applyNetconfig: the same sequence over their executors. *)
Definition applyDomain (addr : string) (req : ApplyRequest) : prog H status string :=
  let d := domain req in
  pl ← host_read d (fun n => ex_check (executor d) n (desired_state_json req));
  recoverExpired d;;
  snapshot ← host_read d (fun n => ex_snapshot (executor d) n pl);
  id ← begin addr req snapshot;
  map_err (fun e => mkStatus Internal ("rpc: " +++ e +++ " (dead-man's-switch for lease "
                                       +++ id +++ " stays armed)"))
    (host_change d (fun n => ex_mutate (executor d) n pl));;
  finishApply d id.

Definition peerAddr (peer : option string) : prog H status string :=
  match peer with
  | Some a => mret a
  | None => fail Unauthenticated "rpc: no peer address on this connection"
  end.

Definition authorize (caller : result string (option Caller)) : prog H status unit :=
  match AuthorizeDeployer (authenticator srv) caller with
  | Ok _ => mret tt
  | Err e => fail PermissionDenied e
  end.

(** Apply up to the choice of the domain. *)
Definition apply_through (dispatch : string -> prog H status string) (peer : option string)
    (caller : result string (option Caller)) (req : ApplyRequest) : prog H status string :=
  if ObserveOnly srv then fail FailedPrecondition "ghostd is observation-only" else
  addr ← peerAddr peer;
  authorize caller;;
  if dead_man_switch_seconds req <=? 0 then
    fail InvalidArgument "rpc: dead_man_switch_seconds is required and must be positive"
  else
    map_err internal lock;;
    dispatch addr.

(** Apply in the default build, which has no optional feature; MdnsFeature.v has the domain of one. *)
Definition Apply (peer : option string) (caller : result string (option Caller))
    (req : ApplyRequest) : prog H status string :=
  apply_through (fun addr =>
    let d := domain req in
    if (d =?s "firewall-output-v1") || (d =?s "firewall-redirect-v1") then
      applyDomain addr (mkApplyRequest domainFirewall (desired_state_json req) (dead_man_switch_seconds req))
    else if d =?s domainFirewall then applyDomain addr req
    else if d =?s domainNetconfig then applyDomain addr req
    else fail InvalidArgument ("rpc: domain must be one of [firewall netconfig], got " +++ quote d)) peer caller req.

(** ** Confirm *)

(** One iteration of Confirm's loop: [None] is [continue]. *)
Definition confirm_domain (addr lease d : string) : prog H status (option unit) :=
  ds ← map_err internal (store_domain d);
  match PendingLease ds with
  | None => mret None
  | Some p =>
    if negb (ID p =?s lease) then mret None else
    t ← now;
    if negb (t <? Deadline p) then fail FailedPrecondition "lease expired; rollback must complete"
    else if Peer p =?s addr then fail FailedPrecondition "confirm requires a fresh connection"
    else if negb (Applied p) then fail FailedPrecondition "apply did not complete; rollback must complete"
    else
      confirmed ← host_read d (fun n => ex_confirmed (executor d) n (Target p));
      t' ← now;
      late ← ctx_err;
      if negb (t' <? Deadline p) || (late : bool) then
        fail FailedPrecondition "confirmation exceeded lease deadline; rollback stays armed"
      else
        map_err internal (save_domain d (mkDomainState confirmed None));;
        ignore_err (cancel lease);;
        mret (Some tt)
  end.

Fixpoint confirm_loop (addr lease : string) (ds : list string) : prog H status unit :=
  match ds with
  | [] => fail FailedPrecondition "unknown or completed lease"
  | d :: ds' =>
    r ← confirm_domain addr lease d;
    match r with Some _ => mret tt | None => confirm_loop addr lease ds' end
  end.

Definition Confirm (peer : option string) (caller : result string (option Caller))
    (lease_id : string) : prog H status unit :=
  if ObserveOnly srv then fail FailedPrecondition "ghostd is observation-only" else
  addr ← peerAddr peer;
  authorize caller;;
  if is_empty lease_id then fail InvalidArgument "rpc: lease_id is required"
  else
    map_err internal lock;;
    confirm_loop addr lease_id [domainFirewall; domainNetconfig].

(** ** cmd/ghostd/main.go: recovery by the timer's process and at boot *)

(** recoverDomain, over the way the domain undoes a change and replays a confirmed one. *)
Definition recover_domain (rollback restore : raw -> prog H string unit) (d leaseID : string) : prog H string unit :=
  ds ← store_domain d;
  let unrelated : prog H string unit := if negb (is_empty leaseID) then mret tt else restore (Confirmed ds) in
  match PendingLease ds with
  | Some p =>
    if is_empty leaseID || (ID p =?s leaseID) then
      rollback (Snapshot p);;
      save_domain d (mkDomainState (Confirmed ds) None)
    else unrelated
  | None => unrelated
  end.

Definition recoverDomain (d leaseID : string) : prog H string unit :=
  if negb ((d =?s domainFirewall) || (d =?s domainNetconfig)) then
    throw ("unknown domain " +++ quote d +++ " (is its feature built into this binary?)")
  else recover_domain (fun snapshot => host_change d (fun n => ex_rollback (executor d) n snapshot))
         (fun confirmed => host_change d (fun n => ex_restore (executor d) n confirmed)) d leaseID.

Definition runRevert (leaseID d : string) : prog H string unit :=
  lock;; recoverDomain d leaseID.

Definition prepareDomain (d : string) (observeOnly : bool) : prog H string unit :=
  if negb observeOnly then recoverDomain d EmptyString
  else
    ds ← store_domain d;
    if bool_decide (is_Some (PendingLease ds)) || negb (raw_is_empty (Confirmed ds)) then
      throw ("observation mode requires a fresh " +++ d +++ " domain; managed state exists")
    else mret tt.

(** The boot restore of runDaemonWith, over allDomains(). *)
Fixpoint boot_domains (ds : list string) (observeOnly : bool) : prog H string unit :=
  match ds with
  | [] => mret tt
  | d :: ds' =>
    map_err (fun e => "boot restore " +++ d +++ ": " +++ e) (prepareDomain d observeOnly);;
    boot_domains ds' observeOnly
  end.

Definition boot : prog H string unit :=
  lock;; boot_domains [domainFirewall; domainNetconfig] (ObserveOnly srv).

End Handlers.
