(* ===== verification/Protocol.v ===== *)
(** The lease protocol of the RPC layer, over all its executions.

    [ExecLaws] is what the RPC layer needs from a domain's package; [step] is one thing
    that can happen to a host (a request, a timer elapsing, the death of the daemon, a
    reboot, a boot); [sys_inv] is the invariant behind the safety theorems.  The handlers
    are those of Server.v, run against an environment that decides every error and stop. *)

From S2P Require Import Prelude Json State Auth Server.
Local Open Scope Z_scope.

(** * The contract between the RPC layer and a domain's package

    [view] is the part of the host the domain promises to roll back.  [covers s v h]: a
    rollback with snapshot [s] from [h] leads back to [v]; it must survive the mutation the
    snapshot was taken for ([guards]), failed rollbacks and reboots.  [enacted t h]: the
    target [t] is in force.  [replays c v]: booting with confirmed bytes [c] leads back to
    [v] from a host that was at [v] before it went down ([lost]). *)
Class ExecLaws {H : Type} (ex : Executor H) (V : Type) := {
  view : H -> V;
  planned : raw -> plan ex -> Prop;
  guards : raw -> plan ex -> Prop;
  covers : raw -> V -> H -> Prop;
  enacted : raw -> H -> Prop;
  replays : raw -> V -> Prop;
  lost : V -> H -> Prop;
  rebooted : H -> H -> Prop;
  law_check n t h pl : ex_check ex n t h = Done pl -> planned t pl;
  law_snapshot n pl h s : ex_snapshot ex n pl h = Done s ->
    guards s pl /\ covers s (view h) h /\ raw_is_empty s = false;
  law_mutate n pl s v h h' o : guards s pl -> covers s v h ->
    ex_mutate ex n pl h = (h', o) -> covers s v h';
  law_enacted n t pl h h' : planned t pl ->
    ex_mutate ex n pl h = (h', Done tt) -> enacted t h';
  law_rollback n s v h h' o : covers s v h -> ex_rollback ex n s h = (h', o) ->
    covers s v h' /\ (o = Done tt \/ view h = v -> view h' = v);
  law_confirmed n t h c : enacted t h -> ex_confirmed ex n t h = Done c -> replays c (view h);
  law_replays_empty v : replays RawEmpty v;
  law_lost v h : view h = v -> lost v h;
  law_lost_reboot v h h' : lost v h -> rebooted h h' -> lost v h';
  law_covers_reboot s v h h' : covers s v h -> rebooted h h' -> covers s v h';
  law_restore n c v h h' o : replays c v -> lost v h -> ex_restore ex n c h = (h', o) ->
    lost v h' /\ (o = Done tt -> raw_is_empty c = false -> view h' = v);
}.

Section Protocol.
Context {H V : Type} (env : Env) (srv : Server) (fw nc : Executor H).
Context `{!ExecLaws fw V, !ExecLaws nc V}.

#[local] Instance executor_laws d : ExecLaws (executor fw nc d) V.
Proof. unfold executor. destruct (d =?s domainFirewall); assumption. Defined.

(** What is assumed of the outside: the clock does not go back, identifiers are fresh,
    and the daemon knows its own path and the two core domains. *)
Class Sane : Prop := {
  clock_mono i j : (i <= j)%nat -> e_now env i <= e_now env j;
  uuid_fresh i j : e_uuid env i = e_uuid env j -> i = j;
  uuid_nonempty i : is_empty (e_uuid env i) = false;
  binary_absolute : has_prefix (binaryPath srv) "/" = true;
  core_known d : d = domainFirewall \/ d = domainNetconfig -> d ∈ known_domains srv;
}.
Context `{!Sane}.

Definition core (d : string) : Prop := d = domainFirewall \/ d = domainNetconfig.

(** ** The transaction record of a domain as it stands on disk *)

Definition record (x : files) (d : string) : option DomainState :=
  match Domain (known_domains srv) false false d (legacyName d) x with
  | Ok ds => Some ds
  | Err _ => None
  end.

Definition pending (s : Sys H) (d : string) : option Pending :=
  ds ← record (fs s) d; PendingLease ds.

(** ** Executions *)

Inductive mode := Up | Down.

Record St := mkSt { md : mode; sys : Sys H; good : string -> V }.

Definition mode_after {E A} (o : outcome E A) : mode :=
  match o with Stopped => Down | _ => Up end.

(** The daemon's death: what it held in memory is gone. *)
Definition lose_memory (s : Sys H) : Sys H := mkSys (fs s) (tms s) ∅ (hosts s) (tick s).

Definition after {E A} (o : outcome E A) (s : Sys H) : Sys H :=
  match o with Stopped => lose_memory s | _ => s end.

(** The domain's last good state after a Confirm: the confirmed domain's state becomes
    good when its record no longer holds the lease. *)
Definition good_after_confirm (lease : string) (s s' : Sys H) (v : string -> V) : string -> V :=
  fun d => match pending s d, pending s' d with
           | Some p, None => if ID p =?s lease then view (ex := executor fw nc d) (hosts s' d) else v d
           | _, _ => v d
           end.

(** A boot with nothing confirmed and nothing pending takes the host as it finds it. *)
Definition good_after_boot (s s' : Sys H) (v : string -> V) : string -> V :=
  fun d => match record (fs s) d with
           | Some (mkDomainState RawEmpty None) => view (ex := executor fw nc d) (hosts s' d)
           | _ => v d
           end.

Definition drop_timer (u : string) (o : outcome string unit) (s : Sys H) : Sys H :=
  match o with
  | Done _ => mkSys (fs s) (delete u (tms s)) (units s) (hosts s) (tick s)
  | _ => s
  end.

Inductive step : St -> St -> Prop :=
| step_apply s s' v peer caller req o :
    Apply env srv fw nc peer caller req s = (s', o) ->
    step (mkSt Up s v) (mkSt (mode_after o) (after o s') v)
| step_confirm s s' v peer caller lease o :
    Confirm env srv fw nc peer caller lease s = (s', o) ->
    step (mkSt Up s v) (mkSt (mode_after o) (after o s') (good_after_confirm lease s s' v))
| step_timer m s s' v u due command lease d dir o :
    tms s !! u = Some (due, command) ->
    due <= e_now env (tick s) ->
    revert_request command = (lease, d, dir) ->
    runRevert env srv fw nc lease d s = (s', o) ->
    step (mkSt m s v) (mkSt m (drop_timer u o s') v)
| step_kill m s v :
    step (mkSt m s v) (mkSt Down (lose_memory s) v)
| step_reboot m s v hosts' :
    (forall d, rebooted (ex := executor fw nc d) (hosts s d) (hosts' d)) ->
    step (mkSt m s v) (mkSt Down (mkSys (fs s) ∅ ∅ hosts' (tick s)) v)
| step_boot s s' v :
    boot env srv fw nc s = (s', Done tt) ->
    step (mkSt Down s v) (mkSt Up s' (good_after_boot s s' v))
| step_boot_failed s s' v o :
    boot env srv fw nc s = (s', o) -> o <> Done tt ->
    step (mkSt Down s v) (mkSt Down (lose_memory s') v).

(** A freshly installed host: no record, no timer, the daemon not yet started. *)
Definition initial (st : St) : Prop :=
  md st = Down /\ fs (sys st) = ∅ /\ tms (sys st) = ∅ /\ units (sys st) = ∅
  /\ forall d, core d -> lost (ex := executor fw nc d) (good st d) (hosts (sys st) d).

Definition reachable (st : St) : Prop := exists st0, initial st0 /\ rtc step st0 st.

(** ** The invariant *)

Definition armed (s : Sys H) (d : string) (p : Pending) : Prop :=
  exists due command, tms s !! unitName (ID p) = Some (due, command)
    /\ revert_request command = (ID p, d, storeDir srv) /\ Deadline p <= due.

Definition pend_inv (m : mode) (v : string -> V) (s : Sys H) (d : string) (p : Pending) : Prop :=
  covers (ex := executor fw nc d) (Snapshot p) (v d) (hosts s d)
  /\ raw_is_empty (Snapshot p) = false
  /\ (exists i, (i < tick s)%nat /\ ID p = e_uuid env i)
  /\ (forall x, tms s !! unitName (ID p) = Some x -> armed s d p)
  /\ (m = Up -> (Applied p = true -> enacted (ex := executor fw nc d) (Target p) (hosts s d)
                                     \/ Deadline p <= e_now env (tick s))
               /\ (view (ex := executor fw nc d) (hosts s d) = v d \/ armed s d p)).

(** What the record [ds] of domain [d] must mean for the host. *)
Definition rec_inv (m : mode) (v : string -> V) (s : Sys H) (d : string) (ds : DomainState) : Prop :=
  replays (ex := executor fw nc d) (Confirmed ds) (v d)
  /\ match PendingLease ds with
     | None => match m with
               | Up => view (ex := executor fw nc d) (hosts s d) = v d
               | Down => lost (ex := executor fw nc d) (v d) (hosts s d)
               end
     | Some p => pend_inv m v s d p
     end.

Definition dom_inv (m : mode) (v : string -> V) (s : Sys H) (d : string) : Prop :=
  exists ds, record (fs s) d = Some ds /\ rec_inv m v s d ds.

Definition timers_inv (s : Sys H) : Prop :=
  (forall id n, units s !! id = Some n -> n = unitName id)
  /\ (forall u due command, tms s !! u = Some (due, command) ->
        exists i d, (i < tick s)%nat /\ u = unitName (e_uuid env i)
          /\ revert_request command = (e_uuid env i, d, storeDir srv)).

Definition sys_inv (m : mode) (v : string -> V) (s : Sys H) : Prop :=
  timers_inv s /\ forall d, core d -> dom_inv m v s d.

(** ** Records and saves *)

Lemma record_pending_ne d d' :
  core d -> core d' -> d <> d' ->
  (d +++ "-transaction.json") <> (d' +++ "-transaction.json")
  /\ (d' +++ "-transaction.json") <> tmp_name (d +++ "-transaction.json").
Proof. intros [->| ->] [->| ->] Hne; by split. Qed.

Lemma legacy_ne d d' :
  core d -> core d' ->
  legacyName d' <> (d +++ "-transaction.json")
  /\ legacyName d' <> tmp_name (d +++ "-transaction.json").
Proof. intros [->| ->] [->| ->]; by split. Qed.

Lemma record_ext x y d :
  core d -> x !! (d +++ "-transaction.json") = y !! (d +++ "-transaction.json") ->
  x !! legacyName d = y !! legacyName d -> record x d = record y d.
Proof.
  intros Hd H1 H2. unfold record, Domain, domainFile.
  rewrite decide_True by (by apply core_known). simpl. by rewrite H1, H2.
Qed.

Lemma record_saved x d ds :
  core d -> x !! (d +++ "-transaction.json") = Some (marshal_domain ds) ->
  record x d = Some ds.
Proof.
  intros Hd Hx. unfold record, Domain, domainFile.
  rewrite decide_True by (by apply core_known). simpl. rewrite Hx. simpl default.
  rewrite marshal_domain_nonempty, unmarshal_marshal_domain. done.
Qed.

(** A save of a record leaves the old record or the new one, and the others alone. *)
Lemma SaveDomain_record f d ds x x' o :
  core d -> SaveDomain (known_domains srv) f d ds x = (x', o) ->
  (record x' d = Some ds \/ record x' d = record x d /\ o <> Done tt)
  /\ forall d', core d' -> d' <> d -> record x' d' = record x d'.
Proof.
  intros Hd. unfold SaveDomain, domainFile. rewrite decide_True by (by apply core_known).
  intros HS. apply Save_lookup in HS as [Hn Ho].
  pose proof (legacy_ne d d Hd Hd) as [Hl1 Hl2]. split.
  - destruct Hn as [[Hn _]|[Hn Hne]].
    + left. by apply record_saved.
    + right. split; [|done]. apply record_ext; [done..|]. by apply Ho.
  - intros d' Hd' Hne. pose proof (record_pending_ne d d' Hd Hd' (not_eq_sym Hne)) as [? ?].
    pose proof (legacy_ne d d' Hd Hd') as [? ?]. apply record_ext; [done| |]; by apply Ho.
Qed.

(** ** How the invariant moves with the parts of the host *)

Lemma clock_advance s : e_now env (tick s) <= e_now env (tick (advance (H := H) s)).
Proof. apply clock_mono. simpl. lia. Qed.

Lemma rec_inv_advance m v s d ds : rec_inv m v s d ds -> rec_inv m v (advance s) d ds.
Proof.
  intros [Hr Hp]. split; [done|]. destruct (PendingLease ds) as [p|]; [|done].
  destruct Hp as (Hc & Hn & (i & Hi & Hid) & Ht & Hu).
  split_and!; [done..| | |].
  - exists i. split; [simpl; lia | done].
  - apply Ht.
  - intros Hm. destruct (Hu Hm) as [Ha Hv]. split; [|done].
    intros Happ. destruct (Ha Happ); [by left|]. right. pose proof (clock_advance s). lia.
Qed.

Lemma inv_advance m v s : sys_inv m v s -> sys_inv m v (advance s).
Proof.
  intros [[Hu Ht] Hd]. split.
  - split; [done|]. intros u due c Hc. destruct (Ht u due c Hc) as (i & d & Hi & ?).
    exists i, d. split; [simpl; lia | done].
  - intros d Hcore. destruct (Hd d Hcore) as (ds & Hr & Hi).
    exists ds. split; [done|]. by apply rec_inv_advance.
Qed.

(** A save whose new record is as good as the old one keeps the invariant, whatever
    becomes of the save. *)
Lemma inv_save m v s f d ds x o :
  sys_inv m v s -> core d -> rec_inv m v s d ds ->
  SaveDomain (known_domains srv) f d ds (fs s) = (x, o) -> sys_inv m v (set_fs x s).
Proof.
  intros [Ht Hd] Hcore Hrec HS. destruct (SaveDomain_record _ _ _ _ _ _ Hcore HS) as [Hn Ho].
  split; [done|]. intros d' Hd'. destruct (Hd d' Hd') as (ds' & Hr' & Hi').
  destruct (decide (d' = d)) as [->|Hne].
  - destruct Hn as [Hn|[Hn _]]; [by exists ds | exists ds'].
    simpl. by rewrite Hn.
  - exists ds'. simpl. by rewrite Ho.
Qed.

Lemma set_host_eq s d h : hosts (set_host (H := H) d h s) d = h.
Proof. simpl. by rewrite String.eqb_refl. Qed.

Lemma set_host_ne s d d' h : d' <> d -> hosts (set_host (H := H) d h s) d' = hosts s d'.
Proof. intros Hne. simpl. by rewrite (proj2 (String.eqb_neq _ _) Hne). Qed.

Lemma rec_inv_host_ne m v s d d' h ds :
  d' <> d -> rec_inv m v s d' ds -> rec_inv m v (set_host d h s) d' ds.
Proof.
  intros Hne. unfold rec_inv, pend_inv, armed. rewrite set_host_ne by done. done.
Qed.

(** A change of one domain's host state concerns only that domain's record. *)
Lemma inv_host m v s d h :
  sys_inv m v s -> core d ->
  (forall ds, record (fs s) d = Some ds -> rec_inv m v s d ds -> rec_inv m v (set_host d h s) d ds) ->
  sys_inv m v (set_host d h s).
Proof.
  intros [Ht Hd] Hcore Hrec. split; [done|]. intros d' Hd'.
  destruct (Hd d' Hd') as (ds & Hr & Hi). exists ds. split; [done|].
  destruct (decide (d' = d)) as [->|Hne]; [by apply Hrec | by apply rec_inv_host_ne].
Qed.

(** ** The calls *)

Lemma store_domain_run d s s' o :
  core d -> store_domain env srv d s = (s', o) ->
  s' = advance (H := H) s /\ (forall ds, o = Done ds -> record (fs s) d = Some ds) /\ o <> Stopped.
Proof.
  intros Hd. unfold store_domain. intros [= <- <-]. split; [done|].
  unfold record, Domain, domainFile. rewrite decide_True by (by apply core_known). simpl.
  unfold Load. destruct (e_read env (tick s)); simpl; [by split|].
  destruct (raw_is_empty _); simpl.
  - destruct (e_read_legacy env (tick s)); simpl; [by split|]. split; [|done].
    by intros ds [= <-].
  - destruct (unmarshal_domain _); simpl; split; try done. by intros ds [= <-].
Qed.

Lemma save_domain_run d ds s s' o :
  save_domain env srv d ds s = (s', o) ->
  exists x, s' = set_fs x (advance (H := H) s)
    /\ SaveDomain (known_domains srv) (e_save env (tick s)) d ds (fs s) = (x, o).
Proof.
  unfold save_domain. destruct (SaveDomain _ _ _ _ _) as [x o'] eqn:E.
  intros [= <- <-]. by exists x.
Qed.

Lemma save_domain_inv m v s d ds s' o :
  sys_inv m v s -> core d -> rec_inv m v s d ds ->
  save_domain env srv d ds s = (s', o) ->
  sys_inv m v s' /\ hosts s' = hosts s /\ tms s' = tms s
  /\ (o = Done tt -> record (fs s') d = Some ds).
Proof.
  intros Hinv Hd Hrec HS. apply save_domain_run in HS as (x & -> & HS).
  split_and!; [|done..|].
  - apply inv_advance in Hinv. apply rec_inv_advance in Hrec.
    by eapply (inv_save m v (advance s)).
  - intros ->. destruct (SaveDomain_record _ _ _ _ _ _ Hd HS) as [[?|[_ Hne]] _]; [done|].
    by destruct Hne.
Qed.

(** A rollback of the pending lease, run only when nobody can confirm it any more. *)
Lemma rollback_inv m v s d n ds p h o :
  sys_inv m v s -> core d -> record (fs s) d = Some ds -> PendingLease ds = Some p ->
  (m = Up -> Deadline p <= e_now env (tick s)) ->
  ex_rollback (executor fw nc d) n (Snapshot p) (hosts s d) = (h, o) ->
  sys_inv m v (set_host d h s)
  /\ (o = Done tt -> view (ex := executor fw nc d) h = v d)
  /\ covers (ex := executor fw nc d) (Snapshot p) (v d) h.
Proof.
  intros Hinv Hd Hr Hp Hdl HR.
  destruct (proj2 Hinv d Hd) as (ds' & Hr' & _ & Hi). rewrite Hr in Hr'. injection Hr' as <-.
  rewrite Hp in Hi. destruct Hi as (Hc & _).
  pose proof (law_rollback n _ _ _ _ _ Hc HR) as [Hc' Hv'].
  split; [|split; [auto|done]]. apply inv_host; [done..|].
  intros ds' Hr' [Hrep Hpi]. rewrite Hr in Hr'. injection Hr' as <-. rewrite Hp in Hpi.
  split; [done|]. rewrite Hp. destruct Hpi as (_ & Hn & Hid & Ht & Hu).
  unfold pend_inv. rewrite set_host_eq. split_and!; [done..|].
  intros Hm. destruct (Hu Hm) as [_ Hva]. split.
  - intros _. right. by apply Hdl.
  - destruct Hva as [Hva|]; [left; auto | by right].
Qed.

(** ** Triples

    [hoare m v P c Q]: from a state with the invariant and [P], the program keeps the
    invariant wherever it ends, and establishes [Q] when it succeeds. *)

Definition hoare {E A} (m : mode) (v : string -> V) (P : Sys H -> Prop) (c : prog H E A)
    (Q : A -> Sys H -> Prop) : Prop :=
  forall s s' o, sys_inv m v s -> P s -> c s = (s', o) ->
  sys_inv m v s' /\ forall a, o = Done a -> Q a s'.

Definition stable (P : Sys H -> Prop) : Prop := forall s, P s -> P (advance s).

Lemma hoare_bind {E A B} m v P (c : prog H E A) Q (f : A -> prog H E B) R :
  hoare m v P c Q -> (forall a, hoare m v (Q a) (f a) R) -> hoare m v P (c ≫= f) R.
Proof.
  intros Hc Hf s s' o Hi HP. unfold mbind, prog_bind.
  destruct (c s) as [s1 o1] eqn:E1. destruct (Hc s s1 o1 Hi HP E1) as [Hi1 HQ].
  destruct o1 as [a|e|].
  - intros HF. apply (Hf a s1 s' o Hi1 (HQ a eq_refl) HF).
  - intros [= <- <-]. by split.
  - intros [= <- <-]. by split.
Qed.

Lemma hoare_ret {E A} m v (a : A) (Q : A -> Sys H -> Prop) :
  hoare (E := E) m v (Q a) (mret a) Q.
Proof. intros s s' o Hi HP [= <- <-]. split; [done|]. by intros ? [= <-]. Qed.

Lemma hoare_skip {E A} m v P (a : A) : hoare (E := E) m v P (mret a) (fun _ _ => True).
Proof. intros s s' o Hi HP [= <- <-]. by split. Qed.

Lemma hoare_throw {E A} m v P (e : E) (Q : A -> Sys H -> Prop) : hoare m v P (throw e) Q.
Proof. intros s s' o Hi HP [= <- <-]. by split. Qed.

Lemma hoare_stop {E A} m v P (Q : A -> Sys H -> Prop) : hoare (E := E) m v P stop Q.
Proof. intros s s' o Hi HP [= <- <-]. by split. Qed.

Lemma hoare_map_err {E E' A} m v P (g : E -> E') (c : prog H E A) Q :
  hoare m v P c Q -> hoare m v P (map_err g c) Q.
Proof.
  intros Hc s s' o Hi HP. unfold map_err. destruct (c s) as [s1 o1] eqn:E1.
  destruct (Hc s s1 o1 Hi HP E1) as [Hi1 HQ].
  destruct o1; intros [= <- <-]; split; try done. intros ? [= <-]. by apply HQ.
Qed.

Lemma hoare_ignore_err {E E'} m v P (c : prog H E unit) :
  hoare m v P c (fun _ _ => True) -> hoare (E := E') m v P (ignore_err c) (fun _ _ => True).
Proof.
  intros Hc s s' o Hi HP. unfold ignore_err. destruct (c s) as [s1 o1] eqn:E1.
  destruct (Hc s s1 o1 Hi HP E1) as [Hi1 _].
  destruct o1; intros [= <- <-]; by split.
Qed.

Lemma hoare_post {E A} m v P (c : prog H E A) (Q Q' : A -> Sys H -> Prop) :
  hoare m v P c Q -> (forall a s, Q a s -> Q' a s) -> hoare m v P c Q'.
Proof.
  intros Hc HQ s s' o Hi H1 H2. destruct (Hc s s' o Hi H1 H2) as [? HQ1].
  split; [done|]. intros a Ha. apply HQ. by apply HQ1.
Qed.

Lemma hoare_pre {E A} m v (P P' : Sys H -> Prop) (c : prog H E A) Q :
  hoare m v P c Q -> (forall s, sys_inv m v s -> P' s -> P s) -> hoare m v P' c Q.
Proof. intros Hc HP s s' o Hi H1 H2. apply (Hc s s' o Hi (HP s Hi H1) H2). Qed.

Lemma hoare_pure {E A} m v (F : Prop) P (c : prog H E A) Q :
  (F -> hoare m v P c Q) -> hoare m v (fun s => F /\ P s) c Q.
Proof. intros Hc s s' o Hi [HF HP]. by apply (Hc HF). Qed.

Lemma hoare_store m v d P :
  core d -> stable P ->
  hoare m v P (store_domain env srv d) (fun ds s => P s /\ record (fs s) d = Some ds).
Proof.
  intros Hd HP s s' o Hi Hs HS. apply store_domain_run in HS as (-> & Hr & _); [|done].
  split; [by apply inv_advance|]. intros ds ->. split; [by apply HP | by apply Hr].
Qed.

Lemma hoare_now m v P :
  stable P -> hoare m v P (now env) (fun t s => P s /\ t <= e_now env (tick s)).
Proof.
  intros HP s s' o Hi Hs [= <- <-]. split; [by apply inv_advance|].
  intros t [= <-]. split; [by apply HP | apply clock_advance].
Qed.

Lemma hoare_ctx_err m v P : stable P -> hoare m v P (ctx_err env) (fun _ s => P s).
Proof.
  intros HP s s' o Hi Hs [= <- <-]. split; [by apply inv_advance|]. intros; by apply HP.
Qed.

Lemma hoare_lock m v P : stable P -> hoare m v P (lock env) (fun _ s => P s).
Proof.
  intros HP s s' o Hi Hs [= <- <-]. split; [by apply inv_advance|]. intros; by apply HP.
Qed.

Lemma hoare_read {A} m v d (f : nat -> H -> outcome status A) P :
  stable P ->
  hoare m v P (host_read d f) (fun a s => P s /\ exists n, f n (hosts s d) = Done a).
Proof.
  intros HP s s' o Hi Hs [= <- <-]. split; [by apply inv_advance|].
  intros a Ha. split; [by apply HP | by exists (tick s)].
Qed.

Lemma hoare_save m v d ds :
  core d ->
  hoare m v (fun s => rec_inv m v s d ds) (save_domain env srv d ds)
    (fun _ s => record (fs s) d = Some ds).
Proof.
  intros Hd s s' o Hi HP HS. destruct (save_domain_inv _ _ _ _ _ _ _ Hi Hd HP HS) as (? & _ & _ & HR).
  split; [done|]. intros [] Ho. by apply HR.
Qed.

Lemma hoare_rollback m v d ds p :
  core d -> PendingLease ds = Some p ->
  hoare m v (fun s => record (fs s) d = Some ds /\ (m = Up -> Deadline p <= e_now env (tick s)))
    (host_change d (fun n => ex_rollback (executor fw nc d) n (Snapshot p)))
    (fun _ s => record (fs s) d = Some ds /\ view (ex := executor fw nc d) (hosts s d) = v d).
Proof.
  intros Hd Hp s s' o Hi [Hr Hdl]. unfold host_change.
  destruct (ex_rollback _ _ _ _) as [h o'] eqn:E. intros [= <- <-].
  apply inv_advance in Hi.
  destruct (rollback_inv m v (advance s) d (tick s) ds p h o' Hi Hd Hr Hp) as (Hi' & Hv & _);
    [|done|].
  - intros Hm. pose proof (clock_advance s). specialize (Hdl Hm). lia.
  - split; [done|]. intros [] Ha. split; [done|]. rewrite set_host_eq. auto.
Qed.

(** The record of a core domain is always readable, and stands for the host. *)
Lemma inv_record m v s d ds :
  sys_inv m v s -> core d -> record (fs s) d = Some ds -> rec_inv m v s d ds.
Proof.
  intros [_ Hd] Hc Hr. destruct (Hd d Hc) as (ds' & Hr' & Hi). congruence.
Qed.

Lemma pending_record s d ds : record (fs s) d = Some ds -> pending s d = PendingLease ds.
Proof. unfold pending. by intros ->. Qed.

(** Clearing the record of a host that is at its last good state. *)
Lemma rec_inv_clear m v s d ds :
  sys_inv m v s -> core d -> record (fs s) d = Some ds ->
  view (ex := executor fw nc d) (hosts s d) = v d ->
  rec_inv m v s d (mkDomainState (Confirmed ds) None).
Proof.
  intros Hi Hc Hr Hv. destruct (inv_record _ _ _ _ _ Hi Hc Hr) as [Hrep _].
  split; [done|]. simpl. destruct m; [done | by apply law_lost].
Qed.

Lemma hoare_clear m v d ds :
  core d ->
  hoare m v (fun s => record (fs s) d = Some ds /\ view (ex := executor fw nc d) (hosts s d) = v d)
    (save_domain env srv d (mkDomainState (Confirmed ds) None))
    (fun _ s => record (fs s) d = Some (mkDomainState (Confirmed ds) None)
                /\ view (ex := executor fw nc d) (hosts s d) = v d).
Proof.
  intros Hd s s' o Hi [Hr Hv] HS.
  pose proof (rec_inv_clear _ _ _ _ _ Hi Hd Hr Hv) as Hrec.
  destruct (save_domain_inv _ _ _ _ _ _ _ Hi Hd Hrec HS) as (? & Hh & _ & HR).
  split; [done|]. intros [] Ho. split; [by apply HR | by rewrite Hh].
Qed.

Lemma hoare_recoverExpired v d :
  core d ->
  hoare Up v (fun _ => True) (recoverExpired env srv fw nc d) (fun _ s => pending s d = None).
Proof.
  intros Hd. unfold recoverExpired, recover_expired.
  eapply hoare_bind; [apply hoare_map_err, hoare_store; [done | by intros ?]|]. intros ds.
  destruct (PendingLease ds) as [p|] eqn:Hp.
  - eapply hoare_bind; [apply hoare_now; by intros ?|]. intros t.
    destruct (t <? Deadline p) eqn:Et; [apply hoare_throw|].
    destruct (raw_is_empty (Snapshot p)); [apply hoare_throw|]. apply Z.ltb_ge in Et.
    eapply hoare_bind; [eapply hoare_map_err, hoare_pre; [by apply (hoare_rollback Up v d ds p)|]|].
    + intros s _ [[_ Hr] Ht]. split; [done|]. lia.
    + intros []. eapply hoare_map_err, hoare_post; [by apply hoare_clear|].
      intros ? s [Hr _]. by rewrite (pending_record _ _ _ Hr).
  - eapply hoare_pre; [apply hoare_ret|]. intros s _ [_ Hr]. by rewrite (pending_record _ _ _ Hr).
Qed.

(** ** begin *)

(** [id] was never used for a timer or a lease. *)
Definition fresh (id : string) (s : Sys H) : Prop :=
  (exists i, (i < tick s)%nat /\ id = e_uuid env i)
  /\ tms s !! unitName id = None
  /\ forall d p, core d -> pending s d = Some p -> ID p <> id.

Lemma hoare_new_id m v P :
  stable P -> hoare m v P (new_lease_id env) (fun id s => P s /\ fresh id s).
Proof.
  intros HP s s' o Hi Hs [= <- <-]. split; [by apply inv_advance|].
  intros id [= <-]. split; [by apply HP|]. destruct Hi as [[_ Ht] Hd]. split_and!.
  - exists (tick s). split; [simpl; lia | done].
  - simpl. destruct (tms s !! unitName _) as [[due c]|] eqn:E; [|done].
    destruct (Ht _ _ _ E) as (i & d & Hi & Hu & _).
    apply unitName_inj, uuid_fresh in Hu. lia.
  - intros d p Hc Hp Hid. destruct (Hd d Hc) as (ds & Hr & _ & Hpi).
    rewrite (pending_record _ _ _ Hr : pending (advance s) d = _) in Hp. rewrite Hp in Hpi.
    destruct Hpi as (_ & _ & (i & Hi & Hid') & _). rewrite Hid in Hid'.
    apply uuid_fresh in Hid'. lia.
Qed.

Lemma armed_frame s s' d p : tms s' = tms s -> armed s d p -> armed s' d p.
Proof. unfold armed. by intros ->. Qed.

Definition units_ok (u : lease_table) : Prop := forall id n, u !! id = Some n -> n = unitName id.

Lemma inv_units m v s u : sys_inv m v s -> units_ok u -> sys_inv m v (set_timers (tms s) u s).
Proof. intros [[_ Ht] Hd] Hu. by split. Qed.

(** A timer for a pending lease, due after its deadline. *)
Lemma inv_insert_timer m v s u d p due command :
  sys_inv m v s -> units_ok u -> core d -> pending s d = Some p -> Deadline p <= due ->
  revert_request command = (ID p, d, storeDir srv) ->
  (forall d' p', core d' -> d' <> d -> pending s d' = Some p' -> ID p' <> ID p) ->
  sys_inv m v (set_timers (<[unitName (ID p) := (due, command)]> (tms s)) u s)
  /\ armed (set_timers (<[unitName (ID p) := (due, command)]> (tms s)) u s) d p.
Proof.
  intros [[_ Ht] Hd] Hu Hc Hp Hdl Hreq Hoth. set (s1 := set_timers _ u s).
  assert (Harm : armed s1 d p).
  { exists due, command. simpl. by rewrite lookup_insert_eq. }
  split; [|done]. split; [split; [done|]|].
  - intros n due' c'. simpl. rewrite lookup_insert. case_decide as E; [|apply Ht].
    intros [= <- <-]. destruct (Hd d Hc) as (ds & Hr & _ & Hpi).
    rewrite (pending_record _ _ _ Hr) in Hp. rewrite Hp in Hpi.
    destruct Hpi as (_ & _ & (i & Hi & Hid) & _). exists i, d. by rewrite <- Hid.
  - intros d' Hd'. destruct (Hd d' Hd') as (ds & Hr & Hrep & Hpi). exists ds.
    split; [done|]. split; [done|]. pose proof (pending_record _ _ _ Hr) as Hpd.
    destruct (PendingLease ds) as [p'|]; [|done]. destruct (decide (d' = d)) as [->|Hne].
    + assert (p' = p) as -> by congruence. destruct Hpi as (? & ? & ? & _ & Hup).
      split_and!; [done..|]. intros Hm. destruct (Hup Hm). auto.
    + assert (Hl : tms s1 !! unitName (ID p') = tms s !! unitName (ID p')).
      { simpl. rewrite lookup_insert_ne; [done|]. intros Heq%unitName_inj.
        by apply (Hoth d' p' Hd' Hne Hpd). }
      unfold pend_inv, armed in *. by rewrite Hl.
Qed.

(** A timer may go when no lease on record needs it. *)
Lemma inv_delete_timer m v s u n :
  sys_inv m v s -> units_ok u ->
  (forall d p, core d -> pending s d = Some p -> is_Some (tms s !! n) -> unitName (ID p) <> n) ->
  sys_inv m v (set_timers (delete n (tms s)) u s).
Proof.
  intros [[_ Ht] Hd] Hu Hn. split; [split; [done|]|].
  - intros n' due c. simpl. rewrite lookup_delete_Some. intros [_ HL]. by apply (Ht n' due c).
  - intros d Hc. destruct (Hd d Hc) as (ds & Hr & Hrep & Hpi). exists ds.
    split; [done|]. split; [done|]. pose proof (pending_record _ _ _ Hr) as Hpd.
    destruct (PendingLease ds) as [p|]; [|done]. destruct (tms s !! n) as [x|] eqn:Ex.
    + assert (Hl : delete n (tms s) !! unitName (ID p) = tms s !! unitName (ID p)).
      { apply lookup_delete_ne. apply not_eq_sym, (Hn d p); eauto. }
      unfold pend_inv, armed in *. simpl. by rewrite Hl.
    + unfold pend_inv, armed in *. simpl. by rewrite delete_id.
Qed.

(** systemd-run for a lease that is already on record. *)
Lemma arm_inv v s s' o d p secs :
  sys_inv Up v s -> core d -> pending s d = Some p ->
  Deadline p <= e_now env (tick s) + secs * second ->
  (forall d' p', core d' -> d' <> d -> pending s d' = Some p' -> ID p' <> ID p) ->
  arm env srv (ID p) d (secs * second) s = (s', o) ->
  sys_inv Up v s' /\ fs s' = fs s /\ hosts s' = hosts s /\ (o = Done tt -> armed s' d p).
Proof.
  intros Hi Hc Hp Hdl Hoth. unfold arm.
  destruct (Arm _ _ _ _ _ _ _ _ _) as [[t u] o'] eqn:EA. intros [= <- <-].
  apply Arm_spec in EA as (HT & HU & HD). pose proof (inv_advance _ _ _ Hi) as Hi1.
  assert (Hu : units_ok u).
  { destruct Hi as [[Hu _] _]. destruct HU as [->| ->]; [done|]. intros id n.
    rewrite lookup_insert. case_decide as E; [intros [= <-]; by rewrite E | apply Hu]. }
  edestruct (inv_insert_timer Up v (advance s) u d p) as [HI HA]; [done..|exact Hdl| |done|].
  { apply arm_command_request, binary_absolute. }
  destruct HT as [->| ->]; split_and!; try done.
  - by apply (inv_units Up v (advance s)).
  - intros Ho. by rewrite (HD Ho).
Qed.

(** The lease [id] for target [t] with snapshot [sn] is on record and its timer runs. *)
Definition leased (d : string) (t sn : raw) (id : string) (s : Sys H) : Prop :=
  exists p, pending s d = Some p /\ Snapshot p = sn /\ Target p = t /\ ID p = id
    /\ Applied p = false /\ armed s d p.

(** The host is at its last good state, and [sn] leads back to it. *)
Definition ready (v : string -> V) (d : string) (sn : raw) (s : Sys H) : Prop :=
  pending s d = None /\ covers (ex := executor fw nc d) sn (v d) (hosts s d)
  /\ raw_is_empty sn = false.

Lemma ready_view v d sn s :
  sys_inv Up v s -> core d -> ready v d sn s -> view (ex := executor fw nc d) (hosts s d) = v d.
Proof.
  intros [_ Hd] Hc (Hn & _). destruct (Hd d Hc) as (ds & Hr & _ & Hpi).
  rewrite (pending_record _ _ _ Hr) in Hn. by rewrite Hn in Hpi.
Qed.

(** Recording a new lease on a host that is at its last good state. *)
Lemma hoare_save_new v d ds sn p secs :
  core d -> Snapshot p = sn -> Applied p = false ->
  hoare Up v
    (fun s => record (fs s) d = Some ds /\ ready v d sn s /\ fresh (ID p) s
              /\ Deadline p <= e_now env (tick s) + secs * second)
    (save_domain env srv d (mkDomainState (Confirmed ds) (Some p)))
    (fun _ s => record (fs s) d = Some (mkDomainState (Confirmed ds) (Some p))
              /\ view (ex := executor fw nc d) (hosts s d) = v d
              /\ Deadline p <= e_now env (tick s) + secs * second
              /\ (forall d' p', core d' -> d' <> d -> pending s d' = Some p' -> ID p' <> ID p)).
Proof.
  intros Hc Hsn Ha s s' o Hi (Hr & Hrd & (Hid & Htm & Hoth) & Hdl) HS.
  pose proof (ready_view _ _ _ _ Hi Hc Hrd) as Hv. destruct Hrd as (_ & Hcov & Hne).
  destruct (inv_record _ _ _ _ _ Hi Hc Hr) as [Hrep _].
  assert (Hrec : rec_inv Up v s d (mkDomainState (Confirmed ds) (Some p))).
  { split; [done|]. simpl. split_and!; rewrite ?Hsn; [done..| |].
    - intros x. by rewrite Htm.
    - intros _. split; [by rewrite Ha | by left]. }
  destruct (save_domain_inv _ _ _ _ _ _ _ Hi Hc Hrec HS) as (Hi' & Hh & Ht & HR).
  split; [done|]. intros [] ->. apply save_domain_run in HS as (x & -> & HS).
  split_and!; [by apply HR | by rewrite Hh | |].
  - pose proof (clock_advance s). simpl in *. lia.
  - intros d' p' Hd' Hne' Hp'. apply (Hoth d' p' Hd').
    destruct (SaveDomain_record _ _ _ _ _ _ Hc HS) as [_ Ho].
    unfold pending in *. simpl in Hp'. by rewrite (Ho d' Hd' Hne') in Hp'.
Qed.

(** Arming the lease just recorded, with begin's clean-up when it fails. *)
Lemma hoare_arm_or_clear v d ds p secs :
  core d -> Applied p = false ->
  hoare Up v
    (fun s => record (fs s) d = Some (mkDomainState (Confirmed ds) (Some p))
              /\ view (ex := executor fw nc d) (hosts s d) = v d
              /\ Deadline p <= e_now env (tick s) + secs * second
              /\ (forall d' p', core d' -> d' <> d -> pending s d' = Some p' -> ID p' <> ID p))
    (on_err (arm env srv (ID p) d (secs * second)) (fun e =>
       ignore_err (save_domain env srv d (mkDomainState (Confirmed ds) None));;
       throw (internal e)))
    (fun _ s => leased d (Target p) (Snapshot p) (ID p) s).
Proof.
  intros Hc Hap s s' o Hi (Hr & Hv & Hdl & Hoth). unfold on_err.
  destruct (arm env srv (ID p) d (secs * second) s) as [s1 o1] eqn:EA.
  pose proof (pending_record _ _ _ Hr) as Hp.
  destruct (arm_inv v s s1 o1 d p secs Hi Hc Hp Hdl Hoth EA) as (Hi1 & Hf & Hh & Har).
  destruct o1 as [[]|e|].
  - intros [= <- <-]. split; [done|]. intros a _. exists p.
    unfold pending. rewrite Hf. split_and!; auto.
  - revert s' o. cut (hoare Up v (fun s2 => record (fs s2) d = Some (mkDomainState (Confirmed ds) (Some p))
       /\ view (ex := executor fw nc d) (hosts s2 d) = v d)
      (ignore_err (save_domain env srv d (mkDomainState (Confirmed ds) None));;
       throw (A := unit) (internal e)) (fun _ s => leased d (Target p) (Snapshot p) (ID p) s)).
    { intros Hh' s' o HF. apply (Hh' s1 s' o Hi1); [|done]. by rewrite Hf, Hh. }
    eapply hoare_bind; [apply hoare_ignore_err|intros; apply hoare_throw].
    eapply hoare_post; [apply (hoare_clear Up v d (mkDomainState (Confirmed ds) (Some p)) Hc)|done].
  - intros [= <- <-]. by split.
Qed.

Lemma hoare_begin v addr req sn :
  core (domain req) ->
  hoare Up v (ready v (domain req) sn) (begin env srv addr req sn)
    (fun id s => leased (domain req) (desired_state_json req) sn id s).
Proof.
  intros Hc. unfold begin. set (d := domain req).
  eapply hoare_bind; [apply hoare_map_err, hoare_store; [done | by intros ?]|]. intros ds.
  destruct (PendingLease ds) as [p|] eqn:Hp; [apply hoare_throw|].
  eapply hoare_bind; [apply hoare_new_id; by intros ?|]. intros id.
  eapply hoare_bind; [apply hoare_now|].
  { intros s [? [[i [Hi ?]] ?]]. split; [done|]. split; [|done]. exists i. split; [simpl; lia|done]. }
  intros t. set (secs := dead_man_switch_seconds req).
  set (p := mkPending false id (t + secs * second) sn (desired_state_json req) addr).
  eapply hoare_bind.
  { eapply hoare_map_err, hoare_pre; [by apply (hoare_save_new v d ds sn p secs)|].
    intros s _ [[[Hrd Hr] Hf] Ht]. split_and!; [done..|]. simpl. lia. }
  intros []. eapply hoare_bind; [by apply hoare_arm_or_clear|]. intros [].
  eapply hoare_pre; [apply hoare_ret|]. done.
Qed.

(** ** The mutation and its completion *)

Lemma leased_pending d t sn id s ds :
  leased d t sn id s -> record (fs s) d = Some ds ->
  exists p, PendingLease ds = Some p /\ Snapshot p = sn /\ Target p = t /\ ID p = id
    /\ Applied p = false /\ armed s d p.
Proof. intros (p & Hp & ?) Hr. rewrite (pending_record _ _ _ Hr) in Hp. by exists p. Qed.

Lemma hoare_mutate v d t sn id pl :
  core d -> planned (ex := executor fw nc d) t pl -> guards (ex := executor fw nc d) sn pl ->
  hoare Up v (leased d t sn id)
    (host_change d (fun n => ex_mutate (executor fw nc d) n pl))
    (fun _ s => leased d t sn id s /\ enacted (ex := executor fw nc d) t (hosts s d)).
Proof.
  intros Hc Hpl Hg s s' o Hi Hl. unfold host_change.
  destruct (ex_mutate _ _ _ _) as [h o'] eqn:E. intros [= <- <-]. split.
  - apply inv_host; [by apply inv_advance|done|]. intros ds Hr [Hrep Hpi].
    destruct (leased_pending _ _ _ _ _ _ Hl Hr) as (p & Hp & Hs & _ & _ & Ha & Har).
    split; [done|]. rewrite Hp in Hpi |- *. destruct Hpi as (Hcov & Hne & Hid & Ht & _).
    unfold pend_inv. rewrite set_host_eq. rewrite Hs in *. split_and!; [|done..|].
    + by eapply law_mutate.
    + intros _. split; [by rewrite Ha | by right].
  - intros [] ->. split; [done|]. rewrite set_host_eq. by eapply law_enacted.
Qed.

(** The lease [id] may be confirmed: its target is in force and its timer runs. *)
Definition applied (d : string) (t : raw) (id : string) (s : Sys H) : Prop :=
  exists p, pending s d = Some p /\ ID p = id /\ Applied p = true /\ Target p = t
    /\ armed s d p /\ enacted (ex := executor fw nc d) t (hosts s d).

Lemma hoare_finishApply v d t sn id :
  core d ->
  hoare Up v (fun s => leased d t sn id s /\ enacted (ex := executor fw nc d) t (hosts s d))
    (finishApply env srv d id)
    (fun r s => r = id /\ applied d t id s).
Proof.
  intros Hc. unfold finishApply.
  eapply hoare_bind; [apply hoare_ctx_err; by intros ?|]. intros [|]; [apply hoare_throw|].
  eapply hoare_bind; [apply hoare_map_err, hoare_store; [done | by intros ?]|]. intros ds.
  destruct (PendingLease ds) as [p|] eqn:Hp; [|apply hoare_stop].
  eapply hoare_bind with (Q := fun _ s => applied d t id s).
  - apply hoare_map_err. intros s s' o Hi [[Hl He] Hr] HS.
    destruct (leased_pending _ _ _ _ _ _ Hl Hr) as (p' & Hp' & Hs & Ht & Hid & _ & Har).
    assert (p' = p) as -> by congruence.
    destruct (inv_record _ _ _ _ _ Hi Hc Hr) as [Hrep Hpi]. rewrite Hp in Hpi.
    destruct Hpi as (Hcov & Hne & Hidx & Htm & _).
    edestruct (save_domain_inv Up v) as (Hi' & Hh & Htm' & HR); [done..| |exact HS|].
    + split; [done|]. simpl. split_and!; simpl; [done..|]. rewrite Ht. auto.
    + split; [done|]. intros [] Ho. specialize (HR Ho). unfold applied.
      rewrite (pending_record _ _ _ HR), Hh. eexists. split; [done|]. split_and!; auto.
      unfold armed in *. by rewrite Htm'.
  - intros []. eapply hoare_pre; [apply hoare_ret|]. intros s _ ?. by split.
Qed.

Lemma hoare_applyDomain v addr req :
  core (domain req) ->
  hoare Up v (fun _ => True) (applyDomain env srv fw nc addr req)
    (fun id s => applied (domain req) (desired_state_json req) id s).
Proof.
  intros Hc. unfold applyDomain. set (d := domain req).
  eapply hoare_bind; [apply hoare_read; by intros ?|]. intros pl.
  eapply hoare_bind with (Q := fun _ s => planned (ex := executor fw nc d) (desired_state_json req) pl
                                          /\ pending s d = None).
  { intros s s' o Hi [_ [n Hn]] HR. apply law_check in Hn.
    destruct (hoare_recoverExpired v d Hc s s' o Hi I HR) as [? Hq]. split; [done|].
    intros a Ha. split; [done | by apply (Hq a)]. }
  intros _. eapply hoare_bind; [apply hoare_read; by intros ?|]. intros sn.
  intros s s' o Hi [[Hpl Hnone] [n Hsn]]. apply law_snapshot in Hsn as (Hg & Hcov & Hne).
  destruct (proj2 Hi d Hc) as (ds & Hr & _ & Hpi). pose proof Hnone as Hpn.
  rewrite (pending_record _ _ _ Hr) in Hpn. rewrite Hpn in Hpi. rewrite Hpi in Hcov.
  revert s s' o Hi Hnone Hcov Hr Hpi. cut (hoare Up v (ready v d sn)
    (id ← begin env srv addr req sn;
     map_err (fun e => mkStatus Internal ("rpc: " +++ e +++ " (dead-man's-switch for lease "
                                          +++ id +++ " stays armed)"))
       (host_change d (fun n => ex_mutate (executor fw nc d) n pl));;
     finishApply env srv d id)
    (fun id s => applied d (desired_state_json req) id s)).
  { intros Hh s s' o Hi Hnone Hcov _ _. by apply (Hh s s' o Hi). }
  eapply hoare_bind; [by apply hoare_begin|]. intros id.
  eapply hoare_bind; [by apply hoare_map_err, hoare_mutate|]. intros [].
  eapply hoare_post; [by apply hoare_finishApply|]. by intros r s [-> ?].
Qed.

(** The domain an Apply request is for. *)
Definition target_domain (req : ApplyRequest) : string :=
  if (domain req =?s "firewall-output-v1") || (domain req =?s "firewall-redirect-v1")
  then domainFirewall else domain req.

Lemma hoare_Apply v peer caller req :
  hoare Up v (fun _ => True) (Apply env srv fw nc peer caller req)
    (fun id s => ObserveOnly srv = false /\ is_Some peer
       /\ is_ok (AuthorizeDeployer (authenticator srv) caller) = true
       /\ 0 < dead_man_switch_seconds req /\ core (target_domain req)
       /\ applied (target_domain req) (desired_state_json req) id s).
Proof.
  unfold Apply, apply_through, target_domain. destruct (ObserveOnly srv); [apply hoare_throw|].
  destruct peer as [addr|]; [|apply hoare_throw].
  eapply hoare_bind with (Q := fun _ _ => True); [apply hoare_skip|]. intros a1.
  eapply hoare_bind with (Q := fun _ _ => is_ok (AuthorizeDeployer (authenticator srv) caller) = true).
  { unfold authorize. destruct (AuthorizeDeployer _ _); [|apply hoare_throw].
    eapply hoare_pre; [apply hoare_ret|done]. }
  intros _. destruct (_ <=? 0) eqn:Esec; [apply hoare_throw|]. apply Z.leb_gt in Esec.
  eapply hoare_bind; [apply hoare_map_err, hoare_lock; by intros ?|]. intros [].
  apply (hoare_pre _ _ (fun _ => is_ok (AuthorizeDeployer (authenticator srv) caller) = true /\ True));
    [|by split].
  apply hoare_pure. intros Hok.
  assert (Happ : forall r, core (domain r) -> desired_state_json r = desired_state_json req ->
    hoare Up v (fun _ => True) (applyDomain env srv fw nc a1 r)
      (fun id s => false = false /\ is_Some (Some addr)
         /\ is_ok (AuthorizeDeployer (authenticator srv) caller) = true
         /\ 0 < dead_man_switch_seconds req /\ core (domain r)
         /\ applied (domain r) (desired_state_json req) id s)).
  { intros r Hr <-. eapply hoare_post; [by apply hoare_applyDomain|].
    intros id s Hap. split_and!; done. }
  destruct (_ || _); [refine (Happ _ _ _); [by left|done]|].
  destruct (domain req =?s domainFirewall) eqn:E1; [apply Happ; [left; by apply String.eqb_eq|done]|].
  destruct (domain req =?s domainNetconfig) eqn:E2; [apply Happ; [right; by apply String.eqb_eq|done]|].
  apply hoare_throw.
Qed.

(** ** Confirm *)

(** Nothing but the tick moved. *)
Definition quiet (s s' : Sys H) : Prop :=
  fs s' = fs s /\ tms s' = tms s /\ units s' = units s /\ hosts s' = hosts s
  /\ (tick s <= tick s')%nat.

Lemma quiet_refl s : quiet s s.
Proof. repeat split; lia. Qed.

Lemma quiet_trans s1 s2 s3 : quiet s1 s2 -> quiet s2 s3 -> quiet s1 s3.
Proof. unfold quiet. intros (?&?&?&?&?) (?&?&?&?&?). split_and!; [congruence..|lia]. Qed.

Lemma quiet_advance s : quiet s (advance s).
Proof. repeat split; simpl; lia. Qed.

Lemma inv_quiet m v s s' : quiet s s' -> sys_inv m v s -> sys_inv m v s'.
Proof.
  intros (Hf & Ht & Hu & Hh & Hk). destruct s as [f t u h k], s' as [f' t' u' h' k'].
  simpl in *. subst. remember (k' - k)%nat as j eqn:Ej. revert k' Hk Ej.
  induction j as [|j IH]; intros k' Hk Ej Hi.
  - by replace k' with k by lia.
  - destruct k' as [|k']; [lia|]. apply (inv_advance m v (mkSys f t u h k')).
    apply IH; [lia..|done].
Qed.

Definition quiet_prog {E A} (c : prog H E A) : Prop := forall s s' o, c s = (s', o) -> quiet s s'.

Lemma quiet_now : quiet_prog (now env).
Proof. intros s s' o [= <- <-]. apply quiet_advance. Qed.
Lemma quiet_ctx_err : quiet_prog (ctx_err env).
Proof. intros s s' o [= <- <-]. apply quiet_advance. Qed.
Lemma quiet_lock : quiet_prog (lock env).
Proof. intros s s' o [= <- <-]. apply quiet_advance. Qed.
Lemma quiet_store d : quiet_prog (store_domain env srv d).
Proof. intros s s' o [= <- <-]. apply quiet_advance. Qed.
Lemma quiet_read {A} d (f : nat -> H -> outcome status A) : quiet_prog (host_read d f).
Proof. intros s s' o [= <- <-]. apply quiet_advance. Qed.
Lemma quiet_map_err {E E' A} (g : E -> E') (c : prog H E A) :
  quiet_prog c -> quiet_prog (map_err g c).
Proof.
  intros Hc s s' o. unfold map_err. destruct (c s) as [s1 o1] eqn:E1.
  apply Hc in E1. destruct o1; by intros [= <- <-].
Qed.

Lemma bind_run {E A B} (c : prog H E A) (f : A -> prog H E B) s s' o :
  (c ≫= f) s = (s', o) ->
  (exists s1 a, c s = (s1, Done a) /\ f a s1 = (s', o))
  \/ (exists o1, c s = (s', o1) /\ forall a, o1 <> Done a) /\ forall b, o <> Done b.
Proof.
  unfold mbind, prog_bind. destruct (c s) as [s1 [a|e|]]; [eauto| |];
    intros [= <- <-]; right; split; eauto; by eexists.
Qed.

Lemma map_err_done {E E' A} (g : E -> E') (c : prog H E A) s s' a :
  map_err g c s = (s', Done a) -> c s = (s', Done a).
Proof. unfold map_err. destruct (c s) as [s1 []]; by intros [= <- <-]. Qed.

(** What Confirm has checked of the pending lease [p] when it reaches its commit. *)
Record confirmable (t0 : Z) (s : Sys H) (addr lease d : string) (p : Pending) (c : raw) : Prop := {
  cf_pending : pending s d = Some p;
  cf_id : ID p = lease;
  cf_unexpired : t0 < Deadline p;
  cf_fresh : Peer p <> addr;
  cf_applied : Applied p = true;
  cf_bytes : exists n, ex_confirmed (executor fw nc d) n (Target p) (hosts s d) = Done c;
}.

Definition confirm_commit (lease d : string) (c : raw) : prog H status (option unit) :=
  map_err internal (save_domain env srv d (mkDomainState c None));;
  ignore_err (cancel env lease);;
  mret (Some tt).

Lemma confirm_domain_cases addr lease d s s' o :
  core d -> confirm_domain env srv fw nc addr lease d s = (s', o) ->
  (quiet s s' /\ o <> Done (Some tt))
  \/ exists p c s1, quiet s s1 /\ confirmable (e_now env (tick s)) s addr lease d p c
       /\ confirm_commit lease d c s1 = (s', o).
Proof.
  intros Hd. unfold confirm_domain. intros Hrun.
  apply bind_run in Hrun as [(s1 & ds & H1 & Hrun)|[[o1 [H1 _]] Ho]];
    [|left; split; [by eapply quiet_map_err; [apply quiet_store|]|done]].
  apply map_err_done in H1. destruct (store_domain_run _ _ _ _ Hd H1) as (_ & Hr & _).
  specialize (Hr ds eq_refl). apply quiet_store in H1 as Q1.
  destruct (PendingLease ds) as [p|] eqn:Hp; [|left; injection Hrun as <- <-; by split].
  destruct (negb (ID p =?s lease)) eqn:Eid; [left; injection Hrun as <- <-; by split|].
  apply bind_run in Hrun as [(s2 & t & H2 & Hrun)|[[o2 [H2 Hn]] Ho]];
    [|injection H2 as _ <-; by destruct (Hn _ eq_refl)].
  assert (Q2 : quiet s s2) by (eapply quiet_trans; [done | by eapply quiet_now]).
  assert (Ht : e_now env (tick s) <= t).
  { injection H2 as _ <-. apply clock_mono. by destruct Q1 as (_&_&_&_&?). }
  destruct (negb (t <? Deadline p)) eqn:Et; [left; injection Hrun as <- <-; by split|].
  destruct (Peer p =?s addr) eqn:Ep; [left; injection Hrun as <- <-; by split|].
  destruct (negb (Applied p)) eqn:Ea; [left; injection Hrun as <- <-; by split|].
  apply bind_run in Hrun as [(s3 & c & H3 & Hrun)|[[o3 [H3 _]] Ho]];
    [|left; split; [by eapply quiet_trans; [|eapply quiet_read]|done]].
  assert (Q3 : quiet s s3) by (eapply quiet_trans; [done | by eapply quiet_read]).
  apply bind_run in Hrun as [(s4 & t' & H4 & Hrun)|[[o4 [H4 Hn]] Ho]];
    [|injection H4 as _ <-; by destruct (Hn _ eq_refl)].
  assert (Q4 : quiet s s4) by (eapply quiet_trans; [done | by eapply quiet_now]).
  apply bind_run in Hrun as [(s5 & late & H5 & Hrun)|[[o5 [H5 Hn]] Ho]];
    [|injection H5 as _ <-; by destruct (Hn _ eq_refl)].
  assert (Q5 : quiet s s5) by (eapply quiet_trans; [done | by eapply quiet_ctx_err]).
  destruct (_ || _); [left; injection Hrun as <- <-; by split|].
  right. exists p, c, s5. split; [done|]. split; [|done]. bool_hyps. split; try done.
  - by rewrite (pending_record _ _ _ Hr).
  - lia.
  - injection H3 as _ H3. destruct Q2 as (_&_&_&<-&_). eauto.
Qed.

Lemma rec_inv_ext m v v' s d ds : v' d = v d -> rec_inv m v s d ds -> rec_inv m v' s d ds.
Proof. unfold rec_inv, pend_inv. by intros ->. Qed.

Lemma sys_inv_ext m v v' s : (forall d, core d -> v' d = v d) -> sys_inv m v s -> sys_inv m v' s.
Proof.
  intros Hv [Ht Hd]. split; [done|]. intros d Hc. destruct (Hd d Hc) as (ds & Hr & Hi).
  exists ds. split; [done|]. apply (rec_inv_ext m v); auto.
Qed.

Lemma inv_same_records m v s x :
  (forall d, core d -> record x d = record (fs s) d) -> sys_inv m v s -> sys_inv m v (set_fs x s).
Proof.
  intros Hx [Ht Hd]. split; [done|]. intros d Hc. destruct (Hd d Hc) as (ds & Hr & Hi).
  exists ds. simpl. by rewrite Hx.
Qed.

Definition upd (v : string -> V) (d : string) (x : V) : string -> V :=
  fun d' => if d' =?s d then x else v d'.

Lemma upd_eq v d x : upd v d x d = x.
Proof. unfold upd. by rewrite String.eqb_refl. Qed.

Lemma upd_ne v d d' x : d' <> d -> upd v d x d' = v d'.
Proof. intros Hne. unfold upd. by rewrite (proj2 (String.eqb_neq _ _) Hne). Qed.

(** The timers of two leases on record are told apart by their domain. *)
Lemma lease_timer_unique m v s d d' p p' :
  sys_inv m v s -> core d -> core d' -> d' <> d ->
  pending s d = Some p -> pending s d' = Some p' ->
  is_Some (tms s !! unitName (ID p)) -> ID p' <> ID p.
Proof.
  intros [_ Hd] Hc Hc' Hne Hp Hp' [x Hx] Heq.
  destruct (Hd d Hc) as (ds & Hr & _ & Hi), (Hd d' Hc') as (ds' & Hr' & _ & Hi').
  rewrite (pending_record _ _ _ Hr) in Hp. rewrite (pending_record _ _ _ Hr') in Hp'.
  rewrite Hp in Hi. rewrite Hp' in Hi'. destruct Hi as (_&_&_&Ha&_), Hi' as (_&_&_&Ha'&_).
  destruct (Ha x Hx) as (due & cm & H1 & H2 & _). rewrite <- Heq in Hx.
  destruct (Ha' x Hx) as (due' & cm' & H1' & H2' & _). rewrite Heq in H1'. congruence.
Qed.

(** The save of a Confirm: either nothing has happened, or the domain's present state is
    its good state and the lease is gone. *)
Lemma confirm_save_inv v t0 s addr lease d p c s1 o :
  sys_inv Up v s -> core d -> confirmable t0 s addr lease d p c ->
  enacted (ex := executor fw nc d) (Target p) (hosts s d) ->
  save_domain env srv d (mkDomainState c None) s = (s1, o) ->
  hosts s1 = hosts s /\ tms s1 = tms s
  /\ (forall d', core d' -> d' <> d -> pending s1 d' = pending s d')
  /\ (pending s1 d = None /\ sys_inv Up (upd v d (view (ex := executor fw nc d) (hosts s d))) s1
      \/ pending s1 d = pending s d /\ sys_inv Up v s1 /\ o <> Done tt).
Proof.
  intros Hi Hc [Hp Hid Hun _ Hap [n Hb]] Hen HS. apply save_domain_run in HS as (x & -> & HS).
  destruct (SaveDomain_record _ _ _ _ _ _ Hc HS) as [Hn Ho].
  split_and!; [done..| |].
  - intros d' Hd' Hne. unfold pending; simpl. by rewrite Ho.
  - unfold pending; simpl. destruct Hn as [Hn|[Hn Hne]]; rewrite Hn; [left | right].
    + split; [done|]. split; [apply (proj1 (inv_advance _ _ _ Hi))|].
      intros d' Hd'. unfold dom_inv; simpl. destruct (decide (d' = d)) as [->|Hne'].
      * rewrite Hn. eexists. split; [done|]. split; rewrite upd_eq; simpl; [|done].
        by eapply law_confirmed.
      * rewrite (Ho d' Hd' Hne'). destruct (proj2 (inv_advance _ _ _ Hi) d' Hd') as (ds' & Hr' & Hi').
        exists ds'. split; [done|]. by eapply rec_inv_ext; [apply upd_ne|].
    + split; [done|]. split; [|done]. apply inv_same_records; [|by apply inv_advance].
      intros d' Hd'. destruct (decide (d' = d)) as [->|Hne']; [done | by apply Ho].
Qed.

Lemma cancel_run lease s s' o :
  cancel env lease s = (s', o) ->
  exists t u, s' = set_timers t u (advance (H := H) s)
    /\ Cancel (e_command env (tick s)) lease (tms s) (units s) = (t, u, o).
Proof.
  unfold cancel. destruct (Cancel _ _ _ _) as [[t u] o'] eqn:E. intros [= <- <-]. eauto.
Qed.

(** Stopping the timer of a lease no record holds. *)
Lemma cancel_inv m v lease s s' o :
  sys_inv m v s ->
  (forall d p, core d -> pending s d = Some p -> is_Some (tms s !! unitName lease) -> ID p <> lease) ->
  cancel env lease s = (s', o) ->
  sys_inv m v s' /\ fs s' = fs s /\ hosts s' = hosts s.
Proof.
  intros Hi Hn HC. apply cancel_run in HC as (t & u & -> & HC).
  pose proof (proj1 (proj1 Hi)) as Hu. apply (Cancel_spec _ _ _ _ _ _ _ Hu) in HC as [HT HU].
  assert (units_ok u).
  { destruct HU as [->| ->]; [done|]. intros id n. rewrite lookup_delete_Some. intros [_ ?]. by apply Hu. }
  split_and!; [|done..]. pose proof (inv_advance _ _ _ Hi) as Hi1. destruct HT as [->| ->].
  - by apply (inv_units m v (advance s)).
  - apply (inv_delete_timer m v (advance s)); [done..|].
    intros d p Hc Hp Hs Heq%unitName_inj. by apply (Hn d p).
Qed.

Lemma confirm_commit_inv v t0 s addr lease d p c s' o :
  sys_inv Up v s -> core d -> confirmable t0 s addr lease d p c ->
  enacted (ex := executor fw nc d) (Target p) (hosts s d) ->
  confirm_commit lease d c s = (s', o) ->
  hosts s' = hosts s
  /\ (forall d', core d' -> d' <> d -> pending s' d' = pending s d')
  /\ (pending s' d = None /\ sys_inv Up (upd v d (view (ex := executor fw nc d) (hosts s d))) s'
      \/ pending s' d = pending s d /\ sys_inv Up v s' /\ o <> Done (Some tt)).
Proof.
  intros Hi Hc Hcf Hen Hrun. unfold confirm_commit, mbind, prog_bind, map_err in Hrun.
  destruct (save_domain _ _ _ _ _) as [s1 o1] eqn:ES.
  destruct (confirm_save_inv v t0 s addr lease d p c s1 o1 Hi Hc Hcf Hen ES) as (Hh & Ht & Hoth & Hcase).
  destruct o1 as [[]|e|].
  2,3: injection Hrun as <- <-; split_and!; [done..|]; destruct Hcase as [?|(?&?&?)]; auto.
  destruct Hcase as [[Hnone Hi1]|(_&_&Hd)]; [|by destruct Hd].
  unfold ignore_err in Hrun. destruct (cancel env lease s1) as [s2 o2] eqn:EC.
  destruct (cancel_inv Up _ lease s1 s2 o2 Hi1) as (Hi2 & Hf & Hh2); [|done|].
  { intros d' p' Hd' Hp' Hs Heq. rewrite Ht in Hs. destruct (decide (d' = d)) as [->|Hne]; [congruence|].
    rewrite (Hoth d' Hd' Hne) in Hp'. rewrite <- (cf_id _ _ _ _ _ _ _ Hcf) in Hs, Heq.
    by apply (lease_timer_unique Up v s d d' p p' Hi Hc Hd' Hne (cf_pending _ _ _ _ _ _ _ Hcf) Hp' Hs). }
  assert (s' = s2) as ->; [by destruct o2; injection Hrun|].
  rewrite Hh2. split; [done|]. unfold pending in *. rewrite Hf. split; [done|]. left. by split.
Qed.

Lemma confirm_commit_some lease d c s s' o :
  confirm_commit lease d c s = (s', o) -> o <> Done None.
Proof.
  unfold confirm_commit, mbind, prog_bind, map_err, ignore_err.
  destruct (save_domain _ _ _ _ s) as [s1 [a1|e1|]]; [|by intros [= <- <-]..].
  destruct (cancel _ _ s1) as [s2 [a2|e2|]]; by intros [= <- <-].
Qed.

Lemma quiet_pending s s' d : quiet s s' -> pending s' d = pending s d.
Proof. intros (Hf & _). unfold pending. by rewrite Hf. Qed.

Lemma confirmable_quiet t0 s s' addr lease d p c :
  quiet s s' -> confirmable t0 s addr lease d p c -> confirmable t0 s' addr lease d p c.
Proof.
  intros Hq []. split; try done; [by rewrite (quiet_pending s)|].
  destruct Hq as (_&_&_&->&_). done.
Qed.

Lemma confirmable_enacted v s addr lease d p c :
  sys_inv Up v s -> core d -> confirmable (e_now env (tick s)) s addr lease d p c ->
  enacted (ex := executor fw nc d) (Target p) (hosts s d).
Proof.
  intros [_ Hd] Hc [Hp _ Hun _ Hap _]. destruct (Hd d Hc) as (ds & Hr & _ & Hi).
  rewrite (pending_record _ _ _ Hr) in Hp. rewrite Hp in Hi.
  destruct Hi as (_ & _ & _ & _ & Hup). destruct (Hup eq_refl) as [He _].
  destruct (He Hap); [done | lia].
Qed.

(** One domain of Confirm: it changed nothing that matters, or it confirmed. *)
Lemma confirm_domain_inv v s addr lease d s' o :
  sys_inv Up v s -> core d -> confirm_domain env srv fw nc addr lease d s = (s', o) ->
  (sys_inv Up v s' /\ o <> Done (Some tt) /\ (o = Done None -> quiet s s')
   /\ (forall d', core d' -> pending s' d' = pending s d'))
  \/ exists p c, confirmable (e_now env (tick s)) s addr lease d p c
       /\ hosts s' = hosts s /\ pending s' d = None
       /\ (forall d', core d' -> d' <> d -> pending s' d' = pending s d')
       /\ sys_inv Up (upd v d (view (ex := executor fw nc d) (hosts s d))) s'
       /\ o <> Done None.
Proof.
  intros Hi Hc Hrun. apply (confirm_domain_cases _ _ _ _ _ _ Hc) in Hrun
    as [[Hq Ho]|(p & c & s1 & Hq & Hcf & Hrun)].
  - left. split; [by eapply inv_quiet|]. split; [done|]. split; [done|].
    intros; by apply quiet_pending.
  - pose proof (confirmable_enacted _ _ _ _ _ _ _ Hi Hc Hcf) as Hen.
    pose proof (confirm_commit_some _ _ _ _ _ _ Hrun) as Hno.
    apply (confirm_commit_inv v (e_now env (tick s)) s1 addr lease d p c) in Hrun
      as (Hh & Hoth & Hcase);
      [|by eapply inv_quiet|done|by eapply confirmable_quiet|by destruct Hq as (_&_&_&->&_)].
    assert (Hhs : hosts s1 = hosts s) by apply Hq.
    assert (Hps : forall d', pending s1 d' = pending s d') by (intros; by apply quiet_pending).
    destruct Hcase as [[Hn Hi']|(Hs & Hi' & Ho)].
    + right. exists p, c. rewrite <- Hhs. split_and!; try done.
      intros d' Hd' Hne. rewrite <- Hps. auto.
    + left. split_and!; [done..| |]; [by intros ->|]. intros d' Hd'. rewrite <- Hps.
      destruct (decide (d' = d)) as [->|Hne]; auto.
Qed.

Lemma confirmable_before s s' addr lease d p c :
  quiet s s' -> confirmable (e_now env (tick s')) s' addr lease d p c ->
  confirmable (e_now env (tick s)) s addr lease d p c.
Proof.
  intros Hq [Hp Hid Hun Hf Ha Hb]. split; try done.
  - by rewrite <- (quiet_pending s s').
  - assert (e_now env (tick s) <= e_now env (tick s')) by (apply clock_mono, Hq). lia.
  - destruct Hq as (_&_&_&<-&_). done.
Qed.

Lemma good_unchanged lease s s' v d :
  pending s' d = pending s d -> good_after_confirm lease s s' v d = v d.
Proof. intros Hp. unfold good_after_confirm. rewrite Hp. by destruct (pending s d). Qed.

Lemma good_confirmed lease s s' v d p c addr t0 :
  confirmable t0 s addr lease d p c -> hosts s' = hosts s -> pending s' d = None ->
  (forall d', core d' -> d' <> d -> pending s' d' = pending s d') ->
  forall d', core d' -> good_after_confirm lease s s' v d'
                        = upd v d (view (ex := executor fw nc d) (hosts s d)) d'.
Proof.
  intros [Hp Hid _ _ _ _] Hh Hn Ho d' Hd'. destruct (decide (d' = d)) as [->|Hne].
  - rewrite upd_eq. unfold good_after_confirm. rewrite Hp, Hn, Hid, String.eqb_refl. by rewrite Hh.
  - rewrite upd_ne by done. by apply good_unchanged, Ho.
Qed.

Lemma confirm_loop_inv v addr lease l s s' o :
  Forall core l -> sys_inv Up v s -> confirm_loop env srv fw nc addr lease l s = (s', o) ->
  sys_inv Up (good_after_confirm lease s s' v) s'
  /\ (o = Done tt -> exists d p c, d ∈ l /\ confirmable (e_now env (tick s)) s addr lease d p c
        /\ pending s' d = None).
Proof.
  intros Hl. revert s. induction Hl as [|d l Hc Hl IH]; intros s Hi; simpl.
  - intros [= <- <-]. split; [|done]. apply (sys_inv_ext Up v); [|done].
    intros; by apply good_unchanged.
  - unfold mbind at 1, prog_bind at 1.
    destruct (confirm_domain env srv fw nc addr lease d s) as [s1 o1] eqn:E1.
    destruct (confirm_domain_inv v s addr lease d s1 o1 Hi Hc E1)
      as [(Hi1 & Hns & Hqt & Hps)|(p & c & Hcf & Hh & Hn & Hoth & Hi1 & Hns)].
    + destruct o1 as [[[]|]|e|]; [done| |..].
      * intros Hrun. destruct (IH s1 Hi1 Hrun) as [Hi' Hd]. specialize (Hqt eq_refl). split.
        -- eapply sys_inv_ext; [|exact Hi']. intros d' Hd'. unfold good_after_confirm.
           by rewrite (quiet_pending s s1 d' Hqt).
        -- intros Ho. destruct (Hd Ho) as (d' & p & c & Hin & Hcf & Hn).
           exists d', p, c. split; [by right|]. split; [|done].
           by apply (confirmable_before s s1).
      * intros [= <- <-]. split; [|done]. apply (sys_inv_ext Up v); [|done].
        intros; by apply good_unchanged, Hps.
      * intros [= <- <-]. split; [|done]. apply (sys_inv_ext Up v); [|done].
        intros; by apply good_unchanged, Hps.
    + assert (Hg : sys_inv Up (good_after_confirm lease s s1 v) s1).
      { eapply sys_inv_ext; [|exact Hi1]. by eapply good_confirmed. }
      destruct o1 as [[[]|]|e|]; [|done|..]; intros [= <- <-]; split; try done.
      intros _. exists d, p, c. split; [left|done].
Qed.

Lemma core_list : Forall core [domainFirewall; domainNetconfig].
Proof. constructor; [by left|]. constructor; [by right|]. constructor. Qed.

Lemma Confirm_inv v peer caller lease s s' o :
  sys_inv Up v s -> Confirm env srv fw nc peer caller lease s = (s', o) ->
  sys_inv Up (good_after_confirm lease s s' v) s'
  /\ (o = Done tt -> exists addr d p c, peer = Some addr
        /\ is_ok (AuthorizeDeployer (authenticator srv) caller) = true
        /\ core d /\ confirmable (e_now env (tick s)) s addr lease d p c /\ pending s' d = None).
Proof.
  intros Hi. assert (Hsame : forall s1, quiet s s1 -> sys_inv Up (good_after_confirm lease s s1 v) s1).
  { intros s1 Hq. apply (sys_inv_ext Up v); [|by eapply inv_quiet].
    intros; by apply good_unchanged, quiet_pending. }
  unfold Confirm. destruct (ObserveOnly srv); [intros [= <- <-]; by split; [apply Hsame, quiet_refl|]|].
  unfold peerAddr. destruct peer as [addr|]; [|intros [= <- <-]; by split; [apply Hsame, quiet_refl|]].
  unfold authorize. destruct (AuthorizeDeployer _ _) as [id|e] eqn:EA;
    [|intros [= <- <-]; by split; [apply Hsame, quiet_refl|]].
  unfold mbind at 1 2, prog_bind at 1 2, mret at 1 2, prog_ret at 1 2.
  destruct (is_empty lease); [intros [= <- <-]; by split; [apply Hsame, quiet_refl|]|].
  intros Hrun. apply bind_run in Hrun as [(s1 & [] & H1 & Hrun)|[[o1 [H1 _]] Ho]].
  - apply map_err_done, quiet_lock in H1 as Hq.
    destruct (confirm_loop_inv v addr lease [domainFirewall; domainNetconfig] s1 s' o) as [Hi' Hd];
      [apply core_list | by eapply inv_quiet | done |]. split.
    + eapply sys_inv_ext; [|exact Hi']. intros d Hd'. unfold good_after_confirm.
      by rewrite (quiet_pending s s1 d Hq).
    + intros Ho. destruct (Hd Ho) as (d & p & c & Hin & Hcf & Hn). exists addr, d, p, c.
      split_and!; [done..| |by apply (confirmable_before s s1)|done].
      apply list_elem_of_In in Hin as [<-|[<-|[]]]; [by left | by right].
  - split; [|by intros ->; destruct (Ho tt)].
    apply Hsame. eapply quiet_map_err; [apply quiet_lock | done].
Qed.

(** ** Recovery *)

(** The timer's process: it may roll back a lease nobody can confirm any more. *)
Lemma hoare_revert m v d lease :
  is_empty lease = false ->
  hoare m v (fun s => forall p, core d -> pending s d = Some p -> ID p = lease -> m = Up ->
                      Deadline p <= e_now env (tick s))
    (runRevert env srv fw nc lease d)
    (fun _ s => core d -> forall p, pending s d = Some p -> ID p <> lease).
Proof.
  intros Hl. unfold runRevert.
  assert (Hst : stable (fun s => forall p, core d -> pending s d = Some p -> ID p = lease -> m = Up ->
                                 Deadline p <= e_now env (tick s))).
  { intros s HP p Hc Hp Hid Hm. pose proof (clock_advance s).
    specialize (HP p Hc Hp Hid Hm). lia. }
  eapply hoare_bind; [by apply hoare_lock|]. intros []. unfold recoverDomain, recover_domain.
  destruct (negb _) eqn:Ecore; [apply hoare_throw|].
  assert (Hc : core d).
  { apply negb_false_iff, orb_prop in Ecore as [E|E]; apply String.eqb_eq in E; [by left|by right]. }
  eapply hoare_bind; [by apply hoare_store|]. intros ds. rewrite Hl. simpl.
  assert (Hskip : forall p', PendingLease ds = p' -> (forall p, p' = Some p -> ID p <> lease) ->
    hoare m v (fun s => (forall p, core d -> pending s d = Some p -> ID p = lease -> m = Up ->
                         Deadline p <= e_now env (tick s)) /\ record (fs s) d = Some ds)
      (mret (M := prog H string) tt) (fun _ s => core d -> forall p, pending s d = Some p -> ID p <> lease)).
  { intros p' Hp' Hne. eapply hoare_pre; [apply hoare_ret|]. intros s _ [_ Hr] _ p.
    rewrite (pending_record _ _ _ Hr), Hp'. by apply Hne. }
  destruct (PendingLease ds) as [p|] eqn:Hp; [|by apply (Hskip None)].
  destruct (ID p =?s lease) eqn:Eid.
  - apply String.eqb_eq in Eid. eapply hoare_bind.
    + eapply hoare_pre; [by apply (hoare_rollback m v d ds p)|]. intros s _ [HP Hr].
      split; [done|]. apply HP; [done| |done]. by rewrite (pending_record _ _ _ Hr).
    + intros []. eapply hoare_post; [by apply hoare_clear|].
      intros ? s [Hr _] _ q. by rewrite (pending_record _ _ _ Hr).
  - apply (Hskip (Some p)); [done|]. intros q [= <-]. by apply String.eqb_neq.
Qed.

Lemma hoare_restore v d ds :
  core d -> PendingLease ds = None ->
  hoare Down v (fun s => record (fs s) d = Some ds)
    (host_change d (fun n => ex_restore (executor fw nc d) n (Confirmed ds)))
    (fun _ s => record (fs s) d = Some ds
       /\ (raw_is_empty (Confirmed ds) = false -> view (ex := executor fw nc d) (hosts s d) = v d)).
Proof.
  intros Hc Hp s s' o Hi Hr. unfold host_change.
  destruct (ex_restore _ _ _ _) as [h o'] eqn:E. intros [= <- <-]. apply inv_advance in Hi.
  destruct (inv_record _ _ _ _ _ Hi Hc Hr) as [Hrep Hl]. rewrite Hp in Hl.
  destruct (law_restore _ _ _ _ _ _ Hrep Hl E) as [Hl' Hv]. split.
  - apply inv_host; [done..|]. intros ds' Hr' _. simpl in Hr'.
    assert (ds' = ds) as -> by congruence. split; [done|]. rewrite Hp, set_host_eq. done.
  - intros [] Ho. split; [done|]. rewrite set_host_eq. auto.
Qed.

(** What a boot promises for a domain whose record was [r]. *)
Definition booted (v : string -> V) (d : string) (r : option DomainState) (s : Sys H) : Prop :=
  pending s d = None
  /\ match r with
     | Some (mkDomainState RawEmpty None) => record (fs s) d = r
     | _ => view (ex := executor fw nc d) (hosts s d) = v d
     end.

Lemma hoare_prepare v d obs r :
  core d ->
  hoare Down v (fun s => record (fs s) d = r) (prepareDomain env srv fw nc d obs)
    (fun _ s => booted v d r s).
Proof.
  intros Hc. unfold prepareDomain, recoverDomain, recover_domain.
  assert (Hst : forall {B} (k : DomainState -> prog H string B) Q,
    (forall ds, r = Some ds -> hoare Down v (fun s => record (fs s) d = Some ds) (k ds) Q) ->
    hoare Down v (fun s => record (fs s) d = r) (ds ← store_domain env srv d; k ds) Q).
  { intros B k Q Hk. eapply hoare_bind; [apply hoare_store; [done | by intros ?]|]. intros ds.
    eapply hoare_pre; [apply (hoare_pure _ _ (r = Some ds)), (Hk ds)|]. intros s _ [<- ?]. by split. }
  destruct obs; cbn [negb]; [|destruct (negb _); [apply hoare_throw|]];
    apply Hst; intros ds ->; unfold booted.
  - destruct ds as [c [p|]]; simpl; [apply hoare_throw|]. destruct c; simpl; try apply hoare_throw.
    eapply hoare_pre; [apply hoare_ret|]. intros s _ Hr. cbn beta. by rewrite (pending_record _ _ _ Hr).
  - cbn [is_empty orb negb]. destruct (PendingLease ds) as [p|] eqn:Hp.
    + eapply hoare_bind.
      { eapply hoare_pre; [by apply (hoare_rollback Down v d ds p)|]. by split. }
      intros []. eapply hoare_post; [by apply hoare_clear|]. intros ? s [Hr Hv].
      rewrite (pending_record _ _ _ Hr). split; [done|]. destruct ds as [[] []]; done.
    + eapply hoare_post; [by apply hoare_restore|]. intros ? s [Hr Hv].
      rewrite (pending_record _ _ _ Hr). split; [done|].
      destruct ds as [[] []]; try done; by apply Hv.
Qed.

(** [frames d c]: the program touches no record and no host state but those of [d], and no
    timer. *)
Definition same_but (d : string) (s s' : Sys H) : Prop :=
  tms s' = tms s /\ units s' = units s
  /\ forall d', core d' -> d' <> d -> record (fs s') d' = record (fs s) d' /\ hosts s' d' = hosts s d'.

Definition frames {E A} (d : string) (c : prog H E A) : Prop :=
  forall s s' o, c s = (s', o) -> same_but d s s'.

Lemma frames_quiet {E A} d (c : prog H E A) : quiet_prog c -> frames d c.
Proof.
  intros Hc s s' o E1. apply Hc in E1 as (Hf & Ht & Hu & Hh & _).
  split_and!; [done..|]. intros. by rewrite Hf, Hh.
Qed.

Lemma frames_ret {E A} d (a : A) : frames (E := E) d (mret a).
Proof. by intros s s' o [= <- <-]. Qed.

Lemma frames_throw {E A} d (e : E) : frames (A := A) d (throw e).
Proof. by intros s s' o [= <- <-]. Qed.

Lemma frames_bind {E A B} d (c : prog H E A) (f : A -> prog H E B) :
  frames d c -> (forall a, frames d (f a)) -> frames d (c ≫= f).
Proof.
  intros Hc Hf s s' o Hrun.
  apply bind_run in Hrun as [(s1 & a & H1 & H2)|[(o1 & H1 & _) _]]; [|by eapply Hc].
  apply Hc in H1 as (Ht1 & Hu1 & H1). apply (Hf a) in H2 as (Ht2 & Hu2 & H2).
  split_and!; [congruence..|]. intros d' Hd' Hne.
  destruct (H1 d' Hd' Hne), (H2 d' Hd' Hne). split; congruence.
Qed.

Lemma frames_map_err {E E' A} d (g : E -> E') (c : prog H E A) :
  frames d c -> frames d (map_err g c).
Proof.
  intros Hc s s' o. unfold map_err. destruct (c s) as [s1 o1] eqn:E1. apply Hc in E1.
  destruct o1; by intros [= <- <-].
Qed.

Lemma frames_save d ds : core d -> frames d (save_domain env srv d ds).
Proof.
  intros Hc s s' o HS. apply save_domain_run in HS as (x & -> & HS).
  destruct (SaveDomain_record _ _ _ _ _ _ Hc HS) as [_ Ho]. split_and!; [done..|].
  intros d' Hd' Hne. split; [by apply Ho|done].
Qed.

Lemma frames_change d f : frames d (host_change d f).
Proof.
  intros s s' o. unfold host_change. destruct (f _ _) as [h o1]. intros [= <- <-].
  split_and!; [done..|]. intros d' _ Hne. split; [done|]. by apply (set_host_ne (advance s)).
Qed.

Lemma frames_recoverDomain d lease : core d -> frames d (recoverDomain env srv fw nc d lease).
Proof.
  intros Hc. unfold recoverDomain, recover_domain. destruct (negb _); [apply frames_throw|].
  apply frames_bind; [apply frames_quiet, quiet_store|]. intros ds.
  assert (frames (E := string) d (if negb (is_empty lease) then mret tt else
    host_change d (fun n => ex_restore (executor fw nc d) n (Confirmed ds)))).
  { destruct (negb _); [apply frames_ret | apply frames_change]. }
  destruct (PendingLease ds) as [p|]; [|done]. destruct (_ || _); [|done].
  apply frames_bind; [apply frames_change|]. intros _. by apply frames_save.
Qed.

Lemma frames_prepareDomain d obs : core d -> frames d (prepareDomain env srv fw nc d obs).
Proof.
  intros Hc. unfold prepareDomain. destruct (negb obs); [by apply frames_recoverDomain|].
  apply frames_bind; [apply frames_quiet, quiet_store|]. intros ds.
  destruct (_ || _); [apply frames_throw | apply frames_ret].
Qed.

Lemma hoare_frame {E A} m v d (c : prog H E A) P Q (R : Sys H -> Prop) :
  frames d c -> hoare m v P c Q -> (forall s s', same_but d s s' -> R s -> R s') ->
  hoare m v (fun s => P s /\ R s) c (fun a s => Q a s /\ R s).
Proof.
  intros Hf Hc HR s s' o Hi [HP Hs] Hrun. destruct (Hc s s' o Hi HP Hrun) as [? HQ].
  split; [done|]. intros a Ha. split; [by apply HQ|]. apply (HR s); [by eapply Hf|done].
Qed.

(** A successful boot settles every domain. *)
Lemma hoare_boot v (r : string -> option DomainState) :
  hoare Down v (fun s => forall d, core d -> record (fs s) d = r d) (boot env srv fw nc)
    (fun _ s => forall d, core d -> booted v d (r d) s).
Proof.
  unfold boot. eapply hoare_bind; [apply hoare_lock; by intros ?|]. intros []. simpl.
  eapply hoare_bind.
  { apply hoare_map_err. eapply hoare_pre.
    - eapply (hoare_frame _ _ domainFirewall _ _ _ (fun s => record (fs s) domainNetconfig = r domainNetconfig));
        [apply frames_prepareDomain; by left | apply hoare_prepare; by left|].
      intros s s' (_ & _ & Hs) <-. apply Hs; [by right|done].
    - intros s _ Hr. simpl. split; apply Hr; [by left | by right]. }
  intros []. eapply hoare_bind.
  { apply hoare_map_err. eapply hoare_pre.
    - eapply (hoare_frame _ _ domainNetconfig _ _ _
                (booted v domainFirewall (r domainFirewall)));
        [apply frames_prepareDomain; by right | apply hoare_prepare; by right|].
      intros s s' (_ & _ & Hs). unfold booted, pending.
      by destruct (Hs domainFirewall) as [-> ->]; [by left| |].
    - intros s _ [Hb Hr]. split; [exact Hr | exact Hb]. }
  intros []. eapply hoare_pre; [apply hoare_ret|]. intros s _ [H1 H2] d [->| ->]; done.
Qed.

(** ** Every step keeps the invariant *)

Lemma inv_reboot m v s t hosts' :
  sys_inv m v s -> t = tms s \/ t = ∅ ->
  (forall d, core d -> rebooted (ex := executor fw nc d) (hosts s d) (hosts' d) \/ hosts' d = hosts s d) ->
  sys_inv Down v (mkSys (fs s) t ∅ hosts' (tick s)).
Proof.
  intros [[_ Ht] Hd] Htm Hh. split; [split|].
  - intros id n. simpl. by rewrite lookup_empty.
  - intros u due c. simpl. destruct Htm as [->| ->]; [apply Ht | by rewrite lookup_empty].
  - intros d Hc. destruct (Hd d Hc) as (ds & Hr & Hrep & Hi). exists ds. split; [done|].
    split; [done|]. simpl. destruct (PendingLease ds) as [p|].
    + destruct Hi as (Hcov & Hne & Hid & Hta & _). split_and!; simpl; try done.
      * destruct (Hh d Hc) as [Hb| ->]; [by eapply law_covers_reboot | done].
      * intros x. destruct Htm as [->| ->]; [apply Hta | by rewrite lookup_empty].
    + assert (lost (ex := executor fw nc d) (v d) (hosts s d)).
      { destruct m; [by apply law_lost | done]. }
      destruct (Hh d Hc) as [Hb| ->]; [by eapply law_lost_reboot | done].
Qed.

Lemma inv_death m v s : sys_inv m v s -> sys_inv Down v (lose_memory s).
Proof. intros Hi. apply (inv_reboot m v s (tms s) (hosts s)); auto. Qed.

Lemma inv_after {E A} v s (o : outcome E A) : sys_inv Up v s -> sys_inv (mode_after o) v (after o s).
Proof. destruct o; simpl; [done..|]. apply inv_death. Qed.

Lemma inv_booted v s s' :
  sys_inv Down v s' -> (forall d, core d -> booted v d (record (fs s) d) s') ->
  sys_inv Up (good_after_boot s s' v) s'.
Proof.
  intros [Ht Hd] Hb. split; [done|]. intros d Hc.
  destruct (Hd d Hc) as (ds & Hr & Hrep & _), (Hb d Hc) as [Hn Hv]. exists ds. split; [done|].
  rewrite (pending_record _ _ _ Hr) in Hn. unfold rec_inv, good_after_boot. rewrite Hn.
  destruct (record (fs s) d) as [[[] []]|]; rewrite ?Hv; try done.
  rewrite Hv in Hr. injection Hr as <-. split; [apply law_replays_empty | done].
Qed.

Lemma frames_runRevert d lease : core d -> frames d (runRevert env srv fw nc lease d).
Proof.
  intros Hc. apply frames_bind; [apply frames_quiet, quiet_lock|]. intros _. by apply frames_recoverDomain.
Qed.

Lemma tms_runRevert d lease s s' o : runRevert env srv fw nc lease d s = (s', o) -> tms s' = tms s /\ units s' = units s.
Proof.
  intros HR. destruct (decide (core d)) as [Hc|Hc].
  - apply (frames_runRevert _ _ Hc) in HR as (? & ? & _). done.
  - unfold runRevert, recoverDomain, recover_domain in HR. revert HR. destruct (negb _) eqn:E.
    + intros HR. apply bind_run in HR as [(s1 & a & [= <- _] & [= <- _])|[(o1 & [= <- _] & _) _]]; done.
    + exfalso. apply Hc. apply negb_false_iff, orb_prop in E as [E|E];
        apply String.eqb_eq in E; [by left|by right].
Qed.

(** An elapsed timer names the lease it belongs to, and that lease is past its deadline. *)
Lemma elapsed m v s u due command lease d dir :
  sys_inv m v s -> tms s !! u = Some (due, command) -> revert_request command = (lease, d, dir) ->
  is_empty lease = false /\ u = unitName lease
  /\ forall d' p, core d' -> pending s d' = Some p -> ID p = lease -> d' = d /\ Deadline p <= due.
Proof.
  intros [[_ Ht] Hd] Hu Hq. destruct (Ht _ _ _ Hu) as (i & d1 & _ & -> & Hq').
  rewrite Hq in Hq'. injection Hq' as -> _ _. split_and!; [apply uuid_nonempty|done|].
  intros d' p Hc Hp Hid. destruct (Hd d' Hc) as (ds & Hr & _ & Hi).
  rewrite (pending_record _ _ _ Hr) in Hp. rewrite Hp in Hi. destruct Hi as (_ & _ & _ & Ha & _).
  rewrite <- Hid in Hu. destruct (Ha _ Hu) as (due' & c' & Hu' & Hq' & Hle).
  rewrite Hu in Hu'. injection Hu' as <- <-. rewrite Hq in Hq'. by injection Hq' as _ -> _.
Qed.

Lemma timer_inv m v s s' u due command lease d dir o :
  sys_inv m v s -> tms s !! u = Some (due, command) -> due <= e_now env (tick s) ->
  revert_request command = (lease, d, dir) -> runRevert env srv fw nc lease d s = (s', o) ->
  sys_inv m v (drop_timer u o s').
Proof.
  intros Hi Hu Hdue Hq HR. destruct (elapsed _ _ _ _ _ _ _ _ _ Hi Hu Hq) as (Hne & Hul & Hdl).
  destruct (tms_runRevert _ _ _ _ _ HR) as [Ht Hun].
  destruct (hoare_revert m v d lease Hne s s' o Hi) as [Hi' Hpost]; [|done|].
  { intros p Hc Hp Hid _. destruct (Hdl d p Hc Hp Hid). lia. }
  destruct o as [[]|e|]; [|done..]. simpl.
  apply (inv_delete_timer m v s' (units s') u Hi' (proj1 (proj1 Hi'))).
  intros d' p Hc Hp _ Heq. rewrite Hul in Heq. apply unitName_inj in Heq.
  rewrite <- Ht in Hu. destruct (elapsed _ _ _ _ _ _ _ _ _ Hi' Hu Hq) as (_ & _ & Hdl').
  destruct (Hdl' d' p Hc Hp Heq) as [-> _]. by apply (Hpost tt eq_refl Hc p).
Qed.

Lemma step_inv st st' :
  step st st' -> sys_inv (md st) (good st) (sys st) -> sys_inv (md st') (good st') (sys st').
Proof.
  intros Hst Hi. destruct Hst; simpl in *.
  - apply inv_after. by eapply hoare_Apply.
  - apply inv_after. by eapply Confirm_inv.
  - by eapply timer_inv.
  - by eapply inv_death.
  - eapply inv_reboot; [done | by right | auto].
  - destruct (hoare_boot v (record (fs s)) s s' (Done tt)) as [Hi' Hb]; [done..|].
    apply (inv_booted v s s' Hi'), (Hb tt), eq_refl.
  - eapply inv_death, (hoare_boot v (record (fs s)) s s' o); done.
Qed.

Lemma initial_inv st : initial st -> sys_inv (md st) (good st) (sys st).
Proof.
  intros (Hm & Hf & Ht & Hu & Hl). rewrite Hm. split; [split|].
  - intros id n. by rewrite Hu, lookup_empty.
  - intros u due c. by rewrite Ht, lookup_empty.
  - intros d Hc. exists (mkDomainState RawEmpty None). split.
    + rewrite Hf. unfold record, Domain, domainFile. rewrite decide_True by (by apply core_known).
      simpl. by rewrite !lookup_empty.
    + split; [apply law_replays_empty | by apply Hl].
Qed.

Lemma reachable_inv st : reachable st -> sys_inv (md st) (good st) (sys st).
Proof.
  intros (st0 & Hini & Hr). apply initial_inv in Hini. revert Hini.
  induction Hr; [done|]. eauto using step_inv.
Qed.

End Protocol.
