(* ===== verification/Safety.v ===== *)
(** The lease protocol's theorems, over every execution of Protocol.v's [step].

    The theorems are for any two executors with the laws of [ExecLaws] and any environment
    that is [Sane]; the last module is an instance on which each one is exercised. *)

From S2P Require Import Prelude Json State Auth Server Protocol.
Local Open Scope Z_scope.

Section Safety.
Context {H V : Type} (env : Env) (srv : Server) (fw nc : Executor H).
Context `{!ExecLaws fw V, !ExecLaws nc V} {SANE : Sane env srv}.

#[local] Existing Instance executor_laws.

Abbreviation pending := (pending srv).
Abbreviation armed := (armed srv).
Abbreviation reachable := (reachable env srv fw nc).
Abbreviation view_of d h := (view (ex := executor fw nc d) h).

(** ** Refusals *)

(** The checks Apply and Confirm make before they take the store lock. *)
Definition refused (peer : option string) (caller : result string (option Caller)) : bool :=
  ObserveOnly srv || negb (bool_decide (is_Some peer))
  || negb (is_ok (AuthorizeDeployer (authenticator srv) caller)).

Lemma refused_Apply peer caller req s :
  refused peer caller = true -> exists e, Apply env srv fw nc peer caller req s = (s, Failed e).
Proof.
  unfold refused, Apply, apply_through, peerAddr, authorize. destruct (ObserveOnly srv); [by eexists|].
  destruct peer; [|by eexists]. destruct (AuthorizeDeployer _ _); [|by eexists]. done.
Qed.

Lemma refused_Confirm peer caller lease s :
  refused peer caller = true -> exists e, Confirm env srv fw nc peer caller lease s = (s, Failed e).
Proof.
  unfold refused, Confirm, peerAddr, authorize. destruct (ObserveOnly srv); [by eexists|].
  destruct peer; [|by eexists]. destruct (AuthorizeDeployer _ _); [|by eexists]. done.
Qed.

(** ** A fault-free outside *)

Record fault_free (n k : nat) : Prop := {
  ff_save i : (n <= i < n + k)%nat -> e_save env i = NoFault;
  ff_read i : (n <= i < n + k)%nat -> e_read env i = false;
  ff_legacy i : (n <= i < n + k)%nat -> e_read_legacy env i = false;
  ff_lock i : (n <= i < n + k)%nat -> e_lock env i = false;
  ff_command i : (n <= i < n + k)%nat -> e_command env i = CmdOk;
  ff_ctx i : (n <= i < n + k)%nat -> e_ctx env i = false;
}.

Lemma lock_ok n k s :
  fault_free n k -> (n <= tick s < n + k)%nat -> lock (H := H) env s = (advance s, Done tt).
Proof. intros Hf Hk. unfold lock. by rewrite (ff_lock _ _ Hf). Qed.

Lemma store_ok n k d ds s :
  fault_free n k -> (n <= tick s < n + k)%nat -> core d -> record srv (fs s) d = Some ds ->
  store_domain (H := H) env srv d s = (advance s, Done ds).
Proof.
  intros Hf Hk Hc Hr. unfold store_domain. rewrite (ff_read _ _ Hf), (ff_legacy _ _ Hf) by done.
  unfold record in Hr. by destruct (Domain _ _ _ _ _ _); simplify_eq.
Qed.

Lemma save_ok n k d ds s :
  fault_free n k -> (n <= tick s < n + k)%nat -> core d ->
  exists x, save_domain (H := H) env srv d ds s = (set_fs x (advance s), Done tt)
    /\ record srv x d = Some ds.
Proof.
  intros Hf Hk Hc. unfold save_domain, SaveDomain, domainFile.
  rewrite decide_True by (by apply (core_known env srv)). rewrite (ff_save _ _ Hf) by done.
  destruct (Save_nofault (d +++ "-transaction.json") (marshal_domain ds) (fs s)) as [x Hx].
  rewrite Hx. exists x. split; [done|]. apply (record_saved env srv); [done|]. by eapply Save_done.
Qed.

(** ** Recovery by the timer's process *)

(** Without a fault of the outside the reverting process ends, in two ways: the rollback
    went through and the record is clear, or the rollback failed and the record is kept. *)
Lemma runRevert_run n d lease ds p s :
  fault_free n 4 -> tick s = n -> core d -> record srv (fs s) d = Some ds ->
  PendingLease ds = Some p -> ID p = lease -> is_empty lease = false ->
  exists h o, ex_rollback (executor fw nc d) (S (S n)) (Snapshot p) (hosts s d) = (h, o)
    /\ exists s', runRevert env srv fw nc lease d s
                  = (s', match o with Done _ => Done tt | Failed e => Failed e | Stopped => Stopped end)
    /\ hosts s' d = h
    /\ record srv (fs s') d = Some (match o with Done _ => mkDomainState (Confirmed ds) None | _ => ds end).
Proof.
  intros Hf Hn Hc Hr Hp Hid Hne.
  destruct (ex_rollback (executor fw nc d) (S (S n)) (Snapshot p) (hosts s d)) as [h o] eqn:E.
  exists h, o. split; [done|]. unfold runRevert, mbind, prog_bind.
  rewrite (lock_ok n 4) by (done || lia). unfold recoverDomain, recover_domain.
  assert (negb ((d =?s domainFirewall) || (d =?s domainNetconfig)) = false) as ->.
  { destruct Hc as [-> | ->]; reflexivity. }
  unfold mbind, prog_bind.
  rewrite (store_ok n 4 d ds (advance s)) by (simpl; done || lia). rewrite Hp, Hid, String.eqb_refl, orb_true_r.
  unfold mbind, prog_bind, host_change. simpl tick. simpl hosts. rewrite Hn, E.
  destruct o as [[]|e|].
  - destruct (save_ok n 4 d (mkDomainState (Confirmed ds) None) (set_host d h (advance (advance (advance s)))))
      as (x & -> & Hx); [done | simpl; lia | done |].
    eexists. split; [done|]. split; [apply set_host_eq | exact Hx].
  - eexists. split; [done|]. split; [apply set_host_eq | done].
  - eexists. split; [done|]. split; [apply set_host_eq | done].
Qed.

(** ** Apply and Confirm go through when nothing fails *)

Lemma bind_done {E A B} (c : prog H E A) (f : A -> prog H E B) s s1 a :
  c s = (s1, Done a) -> (c ≫= f) s = f a s1.
Proof. unfold mbind, prog_bind. by intros ->. Qed.

Lemma map_err_ok {E E' A} (g : E -> E') (c : prog H E A) s s1 a :
  c s = (s1, Done a) -> map_err g c s = (s1, Done a).
Proof. unfold map_err. by intros ->. Qed.

Lemma on_err_ok {E E' A} (c : prog H E A) (h : E -> prog H E' A) s s1 a :
  c s = (s1, Done a) -> on_err c h s = (s1, Done a).
Proof. unfold on_err. by intros ->. Qed.

Lemma arm_ok n k id d secs s :
  fault_free n k -> (n <= tick s < n + k)%nat -> core d -> 0 < secs ->
  exists t u, arm (H := H) env srv id d (secs * second) s = (set_timers t u (advance s), Done tt).
Proof.
  intros Hf Hk Hc Hs. unfold arm, Arm. rewrite (ff_command _ _ Hf) by done.
  assert ((secs * second <=? 0) = false) as -> by (apply Z.leb_gt; unfold second; lia).
  assert (is_empty d = false) as -> by (by destruct Hc as [-> | ->]). simpl. eauto.
Qed.

Lemma begin_ok n k addr req sn ds (s : Sys H) :
  fault_free n k -> (n <= tick s)%nat -> (tick s + 5 <= n + k)%nat -> core (domain req) ->
  record srv (fs s) (domain req) = Some ds -> PendingLease ds = None ->
  0 < dead_man_switch_seconds req ->
  exists s' ds' p, begin env srv addr req sn s = (s', Done (e_uuid env (S (tick s))))
    /\ tick s' = (5 + tick s)%nat /\ hosts s' = hosts s
    /\ record srv (fs s') (domain req) = Some ds' /\ PendingLease ds' = Some p.
Proof.
  intros Hf Hn Hk Hc Hr Hp Hs. unfold begin.
  erewrite bind_done; [|apply map_err_ok, (store_ok n k _ ds); done || lia]. rewrite Hp.
  erewrite bind_done; [|done]. erewrite bind_done; [|done]. simpl tick.
  set (p := mkPending _ _ _ _ _ _).
  destruct (save_ok n k (domain req) (mkDomainState (Confirmed ds) (Some p))
              (advance (advance (advance s)))) as (x & Hx & Hrx); [done | simpl; lia | done |].
  erewrite bind_done; [|apply map_err_ok, Hx].
  edestruct (arm_ok n k (ID p) (domain req) (dead_man_switch_seconds req)
     (set_fs x (advance (advance (advance (advance s)))))) as (t & u & Ha); [done | simpl; lia | done | done |].
  erewrite bind_done; [|apply on_err_ok, Ha].
  eexists _, _, p. split; [done|]. split; [done|]. split; [done|]. split; [exact Hrx | done].
Qed.

Lemma finishApply_ok n k d id ds p (s : Sys H) :
  fault_free n k -> (n <= tick s)%nat -> (tick s + 3 <= n + k)%nat -> core d ->
  record srv (fs s) d = Some ds -> PendingLease ds = Some p ->
  exists s', finishApply env srv d id s = (s', Done id).
Proof.
  intros Hf Hn Hk Hc Hr Hp. unfold finishApply, ctx_err.
  erewrite bind_done; [|done]. rewrite (ff_ctx _ _ Hf) by lia.
  erewrite bind_done; [|apply map_err_ok, (store_ok n k _ ds); simpl; done || lia]. rewrite Hp.
  edestruct (save_ok n k d) as (x & Hx & _); [done| |done|].
  2: { erewrite bind_done; [|apply map_err_ok, Hx]. by eexists. }
  simpl. lia.
Qed.

Lemma applyDomain_ok n addr req ds pl sn h (s : Sys H) :
  let d := domain req in let ex := executor fw nc d in
  fault_free (tick s) 14 -> tick s = n -> core d ->
  record srv (fs s) d = Some ds -> PendingLease ds = None -> 0 < dead_man_switch_seconds req ->
  ex_check ex n (desired_state_json req) (hosts s d) = Done pl ->
  ex_snapshot ex (2 + n) pl (hosts s d) = Done sn ->
  ex_mutate ex (8 + n) pl (hosts s d) = (h, Done tt) ->
  exists s' id, applyDomain env srv fw nc addr req s = (s', Done id).
Proof.
  intros d ex Hf Hn Hc Hr Hp Hs Hck Hsn Hmu. unfold applyDomain, host_read. fold d ex.
  erewrite bind_done; [|rewrite Hn, Hck; done].
  erewrite bind_done; [|unfold recoverExpired, recover_expired;
    erewrite bind_done; [|apply map_err_ok, (store_ok (tick s) 14 _ ds); simpl; done || lia];
    rewrite Hp; done].
  erewrite bind_done; [|simpl tick; simpl hosts; rewrite Hn; simpl in Hsn; rewrite Hsn; done].
  edestruct (begin_ok (tick s) 14 addr req sn ds (advance (advance (advance s))))
    as (s1 & ds1 & p & Hb & Ht & Hh & Hr1 & Hp1); try done; try (simpl; lia).
  erewrite bind_done; [|exact Hb].
  assert (Hm : host_change d (fun n => ex_mutate ex n pl) s1 = (set_host d h (advance s1), Done tt)).
  { unfold host_change. rewrite Hh, Ht. simpl. rewrite Hn. simpl in Hmu. by rewrite Hmu. }
  erewrite bind_done; [|apply map_err_ok, Hm].
  destruct (finishApply_ok (tick s) 14 d (e_uuid env (S (tick (advance (advance (advance s))))))
              ds1 p (set_host d h (advance s1))) as (s2 & H2); try done; try (simpl; rewrite Ht; simpl; lia).
  eauto.
Qed.

Lemma Apply_ok addr caller req ds pl sn h (s : Sys H) :
  let d := domain req in let ex := executor fw nc d in let n := tick s in
  refused (Some addr) caller = false ->
  fault_free (tick s) 15 -> core d ->
  record srv (fs s) d = Some ds -> PendingLease ds = None -> 0 < dead_man_switch_seconds req ->
  ex_check ex (1 + n) (desired_state_json req) (hosts s d) = Done pl ->
  ex_snapshot ex (3 + n) pl (hosts s d) = Done sn ->
  ex_mutate ex (9 + n) pl (hosts s d) = (h, Done tt) ->
  exists s' id, Apply env srv fw nc (Some addr) caller req s = (s', Done id).
Proof.
  intros d ex n Hok Hf Hc Hr Hp Hs Hck Hsn Hmu.
  assert (Hf' : fault_free (tick (advance s)) 14).
  { destruct Hf as [F1 F2 F3 F4 F5 F6].
    split; simpl; intros i Hi; [apply F1|apply F2|apply F3|apply F4|apply F5|apply F6]; lia. }
  unfold Apply, apply_through. unfold refused in Hok. destruct (ObserveOnly srv); [done|].
  erewrite bind_done; [|done]. unfold authorize.
  destruct (AuthorizeDeployer _ _) as [who|e]; [|done]. erewrite bind_done; [|done].
  assert ((dead_man_switch_seconds req <=? 0) = false) as -> by (apply Z.leb_gt; lia).
  erewrite bind_done; [|apply map_err_ok, (lock_ok (tick s) 15); done || lia].
  assert (exists s' id, applyDomain env srv fw nc addr req (advance s) = (s', Done id)) as Hrun.
  { eapply (applyDomain_ok (S n)); done. }
  subst d ex. destruct Hc as [-> | ->]; exact Hrun.
Qed.

Lemma ignore_err_ok {E E'} (c : prog H E unit) s s1 o :
  c s = (s1, o) -> o <> Stopped -> ignore_err (E' := E') c s = (s1, Done tt).
Proof. unfold ignore_err. intros ->. by destruct o. Qed.

Lemma cancel_ok n k lease s :
  fault_free n k -> (n <= tick s < n + k)%nat ->
  exists s1 o, cancel (H := H) env lease s = (s1, o) /\ o <> Stopped.
Proof.
  intros Hf Hk. unfold cancel, Cancel. rewrite (ff_command _ _ Hf) by done.
  destruct (units s !! lease); simpl; eexists _, _; (split; [done|]); done.
Qed.

Lemma confirm_domain_ok n k addr lease d ds p c s :
  fault_free n k -> (n <= tick s)%nat -> (tick s + 7 <= n + k)%nat -> core d ->
  record srv (fs s) d = Some ds -> PendingLease ds = Some p ->
  ID p = lease -> Peer p <> addr -> Applied p = true -> e_now env (tick s + 7) < Deadline p ->
  ex_confirmed (executor fw nc d) (2 + tick s) (Target p) (hosts s d) = Done c ->
  exists s', confirm_domain env srv fw nc addr lease d s = (s', Done (Some tt)).
Proof.
  intros Hf Hn Hk Hc Hr Hp Hid Hpe Hap Hdl Hcf. unfold confirm_domain.
  assert (Hlt : forall i, (i <= tick s + 7)%nat -> (e_now env i <? Deadline p) = true).
  { intros i Hi. apply Z.ltb_lt. pose proof (clock_mono env srv i (tick s + 7) Hi). lia. }
  erewrite bind_done; [|apply map_err_ok, (store_ok n k _ ds); done || lia].
  rewrite Hp, Hid, String.eqb_refl. cbn [negb].
  erewrite bind_done; [|done]. rewrite Hlt by (simpl; lia).
  rewrite (proj2 (String.eqb_neq _ _) Hpe), Hap. cbn [negb].
  unfold host_read. erewrite bind_done; [|simpl tick; simpl hosts; simpl in Hcf; rewrite Hcf; done].
  erewrite bind_done; [|done]. erewrite bind_done; [|done].
  rewrite Hlt, (ff_ctx _ _ Hf) by (simpl; lia). cbn [negb orb].
  edestruct (save_ok n k d (mkDomainState c None)) as (x & Hx & _);
    [done | | done | erewrite bind_done; [|apply map_err_ok, Hx]]; [simpl; lia|].
  edestruct (cancel_ok n k lease) as (s1 & o & Hcan & Hns);
    [done | | erewrite bind_done; [|by eapply ignore_err_ok, Hns]]; [simpl; lia|]. by eexists.
Qed.

Lemma confirm_domain_skip n k addr lease d ds s :
  fault_free n k -> (n <= tick s < n + k)%nat -> core d -> record srv (fs s) d = Some ds ->
  (forall p, PendingLease ds = Some p -> ID p <> lease) ->
  confirm_domain env srv fw nc addr lease d s = (advance s, Done None).
Proof.
  intros Hf Hn Hc Hr Hp. unfold confirm_domain.
  erewrite bind_done; [|apply map_err_ok, (store_ok n k _ ds); done].
  destruct (PendingLease ds) as [p|]; [|done].
  by rewrite (proj2 (String.eqb_neq _ _) (Hp p eq_refl)).
Qed.

Lemma fault_free_sub n k n' k' :
  fault_free n k -> (n <= n')%nat -> (n' + k' <= n + k)%nat -> fault_free n' k'.
Proof.
  intros [F1 F2 F3 F4 F5 F6] Hn Hk.
  split; intros i Hi; [apply F1|apply F2|apply F3|apply F4|apply F5|apply F6]; lia.
Qed.

Lemma Confirm_ok addr caller lease d p s :
  refused (Some addr) caller = false -> is_empty lease = false -> core d ->
  fault_free (tick s) 9 ->
  (forall d', core d' -> exists ds, record srv (fs s) d' = Some ds) ->
  (forall d' p', core d' -> d' <> d -> pending s d' = Some p' -> ID p' <> lease) ->
  pending s d = Some p -> ID p = lease -> Peer p <> addr -> Applied p = true ->
  e_now env (tick s + 9) < Deadline p ->
  (forall n, exists c, ex_confirmed (executor fw nc d) n (Target p) (hosts s d) = Done c) ->
  exists s', Confirm env srv fw nc (Some addr) caller lease s = (s', Done tt).
Proof.
  intros Hok Hne Hc Hf Hrec Hoth Hp Hid Hpe Hap Hdl Hcf.
  unfold Confirm. unfold refused in Hok. destruct (ObserveOnly srv); [done|].
  erewrite bind_done; [|done]. unfold authorize.
  destruct (AuthorizeDeployer _ _) as [who|e]; [|done]. erewrite bind_done; [|done]. rewrite Hne.
  erewrite bind_done; [|apply map_err_ok, (lock_ok (tick s) 9); done || lia].
  assert (Hgo : forall s1 l, (s1 = advance s \/ s1 = advance (advance s)) ->
    exists s', confirm_loop env srv fw nc addr lease (d :: l) s1 = (s', Done tt)).
  { intros s1 l Hs1. destruct (Hrec d Hc) as [ds Hr], (Hcf (2 + tick s1)%nat) as [c Hcc].
    rewrite (pending_record _ _ _ _ Hr) in Hp. simpl.
    destruct (confirm_domain_ok (tick s) 9 addr lease d ds p c s1) as [s' Hs'];
      try done; try (by destruct Hs1 as [-> | ->]); try (destruct Hs1 as [-> | ->]; simpl; lia).
    - pose proof (clock_mono env srv (tick s1 + 7) (tick s + 9)).
      destruct Hs1 as [-> | ->]; simpl in *; lia.
    - erewrite bind_done by exact Hs'. by eexists. }
  destruct Hc as [-> | ->]; [by apply Hgo; left|].
  destruct (Hrec domainFirewall) as [ds Hr]; [by left|]. cbn [confirm_loop].
  erewrite bind_done; [|apply (confirm_domain_skip (tick s) 9 _ _ _ ds); [done|simpl; lia|by left|done|]].
  - exact (Hgo (advance (advance s)) [] (or_intror eq_refl)).
  - intros p' Hp'. apply (Hoth domainFirewall); [by left|done|]. by rewrite (pending_record _ _ _ _ Hr).
Qed.

(** ** Apply on a domain whose lease is still open *)

Lemma recoverExpired_open d p s s' o :
  core d -> pending s d = Some p -> e_now env (tick s + 1) < Deadline p ->
  recoverExpired env srv fw nc d s = (s', o) -> quiet s s' /\ forall a, o <> Done a.
Proof.
  intros Hc Hp Ht. unfold recoverExpired, recover_expired. intros Hrun.
  apply bind_run in Hrun as [(s1 & ds & H1 & Hrun)|[(o1 & H1 & _) Ho]];
    [|split; [by eapply quiet_map_err; [apply quiet_store|]|done]].
  apply map_err_done in H1. destruct (store_domain_run _ _ _ _ _ _ Hc H1) as (-> & Hr & _).
  rewrite (pending_record _ _ _ _ (Hr ds eq_refl)) in Hp. rewrite Hp in Hrun.
  rewrite (bind_done (now env) _ (advance s) (advance (advance s)) (e_now env (S (tick s))) eq_refl) in Hrun.
  rewrite Nat.add_1_r in Ht. apply Z.ltb_lt in Ht. rewrite Ht in Hrun. simpl in Hrun.
  injection Hrun as <- <-. split; [|done]. eapply quiet_trans; apply quiet_advance.
Qed.

Lemma applyDomain_open addr req p s s' o :
  core (domain req) -> pending s (domain req) = Some p -> e_now env (tick s + 2) < Deadline p ->
  applyDomain env srv fw nc addr req s = (s', o) -> quiet s s' /\ forall a, o <> Done a.
Proof.
  intros Hc Hp Ht. unfold applyDomain. intros Hrun.
  apply bind_run in Hrun as [(s1 & pl & H1 & Hrun)|[(o1 & H1 & _) Ho]];
    [|split; [by eapply quiet_read|done]].
  injection H1 as <- _.
  assert (Ht' : e_now env (tick (advance s) + 1) < Deadline p).
  { simpl. by replace (S (tick s + 1)) with (tick s + 2)%nat by lia. }
  apply bind_run in Hrun as [(s2 & [] & H2 & _)|[(o1 & H2 & _) Ho]];
    apply (recoverExpired_open (domain req) p) in H2 as [Hq Hn]; try done.
  - by destruct (Hn tt).
  - split; [|done]. eapply quiet_trans; [apply quiet_advance|done].
Qed.

Lemma Apply_open peer caller req p s s' o :
  core (target_domain req) -> pending s (target_domain req) = Some p ->
  e_now env (tick s + 3) < Deadline p ->
  Apply env srv fw nc peer caller req s = (s', o) -> quiet s s' /\ forall a, o <> Done a.
Proof.
  intros Hc Hp Ht. unfold Apply, apply_through. destruct (ObserveOnly srv); [by intros [= <- <-]; split|].
  destruct peer as [addr|]; [|by intros [= <- <-]; split].
  unfold authorize. destruct (AuthorizeDeployer _ _); [|by intros [= <- <-]; split].
  unfold mbind at 1 2, prog_bind at 1 2, peerAddr, mret at 1 2, prog_ret at 1 2.
  destruct (_ <=? 0); [by intros [= <- <-]; split|]. intros Hrun.
  apply bind_run in Hrun as [(s1 & [] & H1 & Hrun)|[(o1 & H1 & _) Ho]];
    [|split; [by eapply quiet_map_err; [apply quiet_lock|]|done]].
  apply map_err_done in H1 as H1'. injection H1' as <- _.
  assert (Hgo : forall r, domain r = target_domain req ->
    applyDomain env srv fw nc addr r (advance s) = (s', o) -> quiet s s' /\ forall a, o <> Done a).
  { intros r Hr Hap.
    destruct (applyDomain_open addr r p (advance s) s' o) as [Hq Hn]; rewrite ?Hr; try done.
    - simpl. by replace (S (tick s + 2)) with (tick s + 3)%nat by lia.
    - split; [|done]. eapply quiet_trans; [apply quiet_advance|done]. }
  unfold target_domain in *. destruct (_ || _); [by eapply Hgo, Hrun|].
  destruct (_ =?s _); [by eapply Hgo|]. destruct (_ =?s _); [by eapply Hgo|].
  injection Hrun as <- <-. split; [apply quiet_advance|done].
Qed.

(** ** A timer that comes late *)

Lemma runRevert_late d lease s s' o :
  is_empty lease = false -> (forall p, core d -> pending s d = Some p -> ID p <> lease) ->
  runRevert env srv fw nc lease d s = (s', o) -> quiet s s'.
Proof.
  intros Hne Hp Hrun. unfold runRevert in Hrun.
  apply bind_run in Hrun as [(s1 & [] & H1 & Hrun)|[(o1 & H1 & _) _]]; [|by eapply quiet_lock].
  injection H1 as <- _. eapply quiet_trans; [apply quiet_advance|].
  unfold recoverDomain, recover_domain in Hrun. destruct (negb _) eqn:Ecore; [by injection Hrun as <- _|].
  assert (Hc : core d).
  { apply negb_false_iff, orb_prop in Ecore as [E|E]; apply String.eqb_eq in E; [by left|by right]. }
  apply bind_run in Hrun as [(s2 & ds & H2 & Hrun)|[(o1 & H2 & _) _]]; [|by eapply quiet_store].
  destruct (store_domain_run _ _ _ _ _ _ Hc H2) as (-> & Hr & _). specialize (Hr ds eq_refl).
  rewrite Hne in Hrun. cbn [negb orb] in Hrun. simpl in Hr.
  destruct (PendingLease ds) as [p|] eqn:Ep; [|injection Hrun as <- _; apply quiet_advance].
  rewrite (proj2 (String.eqb_neq _ _)) in Hrun; [injection Hrun as <- _; apply quiet_advance|].
  apply Hp; [done|]. by rewrite (pending_record _ _ _ _ Hr).
Qed.

Lemma hoare_revert_pending m v d ds p :
  core d -> PendingLease ds = Some p -> is_empty (ID p) = false ->
  hoare env srv fw nc m v
    (fun s => record srv (fs s) d = Some ds /\ (m = Up -> Deadline p <= e_now env (tick s)))
    (runRevert env srv fw nc (ID p) d)
    (fun _ s => view_of d (hosts s d) = v d /\ pending s d = None).
Proof.
  intros Hc Hp Hne. unfold runRevert, recoverDomain, recover_domain.
  assert (Hst : forall s, (m = Up -> Deadline p <= e_now env (tick s)) ->
                m = Up -> Deadline p <= e_now env (tick (advance (H := H) s))).
  { intros s Ht Hm. specialize (Ht Hm). pose proof (clock_advance (H := H) env srv s). lia. }
  eapply hoare_bind; [apply hoare_lock; [by auto|]|].
  { intros s [Hr Ht]. split; [done | by apply Hst]. }
  intros []. destruct (negb _); [apply hoare_throw|].
  eapply hoare_bind; [apply hoare_store; [done..|]|].
  { intros s [Hr Ht]. split; [done | by apply Hst]. }
  intros ds'. eapply (hoare_pre _ _ _ _ _ _ (fun s => ds' = ds /\ (record srv (fs s) d = Some ds
    /\ (m = Up -> Deadline p <= e_now env (tick s))))); [|intros s _ [[Hr ?] Hr']; split; [congruence|done]].
  apply hoare_pure. intros ->. rewrite Hp, String.eqb_refl, orb_true_r.
  eapply hoare_bind; [by apply hoare_rollback|]. intros [].
  eapply hoare_post; [by apply hoare_clear|]. intros [] s [Hr Hv].
  by rewrite (pending_record _ _ _ _ Hr).
Qed.

(** ** The theorems *)

(** C1: Lease safety.  In every state a running daemon can reach, whatever failed or died on
    the way, a core domain without an open lease is exactly at its last good state; a domain
    with an open lease has a snapshot that leads back to the last good state, and either was
    not changed at all or its revert timer is running, due no earlier than the lease's
    deadline, with a command that names this lease, this domain and this store. *)
Theorem lease_safety st d :
  reachable st -> md st = Up -> core d ->
  match pending (sys st) d with
  | None => view_of d (hosts (sys st) d) = good st d
  | Some p =>
    covers (ex := executor fw nc d) (Snapshot p) (good st d) (hosts (sys st) d)
    /\ (view_of d (hosts (sys st) d) = good st d \/ armed (sys st) d p)
  end.
Proof.
  intros Hr Hm Hc. apply reachable_inv in Hr as [_ Hd]; [|done]. rewrite Hm in Hd.
  destruct (Hd d Hc) as (ds & Hrec & _ & Hi). rewrite (pending_record _ _ _ _ Hrec).
  destruct (PendingLease ds) as [p|]; [|done]. destruct Hi as (Hcov & _ & _ & _ & Hup).
  split; [done|]. by apply Hup.
Qed.

(** Recoverability.  In every reachable state, also of a host that is down, the record of
    a core domain can be read, its confirmed bytes stand for the last good state, and an
    open lease in it carries a non-empty snapshot that leads back to that state. *)
Theorem record_recoverable st d :
  reachable st -> core d ->
  exists ds, record srv (fs (sys st)) d = Some ds
    /\ replays (ex := executor fw nc d) (Confirmed ds) (good st d)
    /\ forall p, PendingLease ds = Some p ->
         raw_is_empty (Snapshot p) = false
         /\ covers (ex := executor fw nc d) (Snapshot p) (good st d) (hosts (sys st) d).
Proof.
  intros Hr Hc. apply reachable_inv in Hr as [_ Hd]; [|done].
  destruct (Hd d Hc) as (ds & Hrec & Hrep & Hi). exists ds. split_and!; [done..|].
  intros p Hp. rewrite Hp in Hi. by destruct Hi as (? & ? & _).
Qed.

(** The dead-man's switch fires.  In every reachable state, when the timer of an open
    lease elapses, nothing outside fails and the domain's rollback succeeds, the reverting
    process ends with success, the host is back at its last good state and the lease is
    gone from the record. *)
Theorem revert_restores st d p due command h :
  reachable st -> core d -> pending (sys st) d = Some p ->
  tms (sys st) !! unitName (ID p) = Some (due, command) -> due <= e_now env (tick (sys st)) ->
  fault_free (tick (sys st)) 4 ->
  ex_rollback (executor fw nc d) (S (S (tick (sys st)))) (Snapshot p) (hosts (sys st) d) = (h, Done tt) ->
  exists s', (let '(lease, dom, _) := revert_request command in
              runRevert env srv fw nc lease dom (sys st)) = (s', Done tt)
    /\ view_of d (hosts s' d) = good st d /\ pending s' d = None.
Proof.
  intros Hr Hc Hp Ht Hdue Hf Hrb. pose proof (reachable_inv _ _ _ _ _ Hr) as Hi.
  destruct (proj2 Hi d Hc) as (ds & Hrec & _ & Hpi). pose proof Hp as Hp'.
  rewrite (pending_record _ _ _ _ Hrec) in Hp'. rewrite Hp' in Hpi.
  destruct Hpi as (_ & _ & _ & Harm & _).
  destruct (Harm _ Ht) as (due' & c' & Ht' & Hq & Hle). rewrite Ht in Ht'. injection Ht' as <- <-.
  rewrite Hq. destruct (elapsed _ _ _ _ _ _ _ _ _ _ _ _ _ Hi Ht Hq) as (Hne & _).
  destruct (runRevert_run (tick (sys st)) d (ID p) ds p (sys st)) as (h' & o & E & s' & Hrun & _);
    [done..|]. rewrite Hrb in E. injection E as <- <-. exists s'. split; [done|].
  apply (hoare_revert_pending (md st) (good st) d ds p Hc Hp' Hne (sys st) s' (Done tt)) with (a := tt);
    try done. split; [done|]. lia.
Qed.

(** C7: Boot restores.  A boot of a host that went down in any reachable state, if it
    succeeds, leaves no open lease, and leaves every core domain at its last good state,
    unless the domain has no confirmed state and no open lease. *)
Theorem boot_restores st s' d :
  reachable st -> md st = Down -> boot env srv fw nc (sys st) = (s', Done tt) -> core d ->
  pending s' d = None
  /\ (record srv (fs (sys st)) d <> Some (mkDomainState RawEmpty None) ->
      view_of d (hosts s' d) = good st d).
Proof.
  intros Hr Hm Hb Hc. apply reachable_inv in Hr; [|done]. rewrite Hm in Hr.
  destruct (hoare_boot env srv fw nc (good st) (record srv (fs (sys st))) _ _ _ Hr (fun d _ => eq_refl) Hb)
    as [_ HQ].
  destruct (HQ tt eq_refl d Hc) as [Hn Hv]. split; [done|]. intros Hne.
  destruct (record srv (fs (sys st)) d) as [[[] []]|]; done.
Qed.

(** Programs that leave the hosts alone, whatever happens to them. *)
Definition hands_off {E A} (c : prog H E A) : Prop := forall s, hosts (c s).1 = hosts s.

Lemma hands_off_bind {E A B} (c : prog H E A) (f : A -> prog H E B) : hands_off c -> (forall a, hands_off (f a)) -> hands_off (c ≫= f).
Proof.
  intros Hc Hf s. unfold mbind, prog_bind. specialize (Hc s). destruct (c s) as [s1 [a|e|]]; cbn [fst] in *; [|done..]. by rewrite Hf.
Qed.

Lemma hands_off_map_err {E E' A} (g : E -> E') (c : prog H E A) : hands_off c -> hands_off (map_err g c).
Proof. intros Hc s. unfold map_err. specialize (Hc s). by destruct (c s) as [s1 []]. Qed.

Lemma hands_off_ignore {E E'} (c : prog H E unit) : hands_off c -> hands_off (ignore_err (E' := E') c).
Proof. intros Hc s. unfold ignore_err. specialize (Hc s). by destruct (c s) as [s1 []]. Qed.

Lemma hands_off_save d ds : hands_off (save_domain env srv d ds).
Proof. intros s. unfold save_domain. by destruct (SaveDomain _ _ _ _ _). Qed.

Lemma hands_off_cancel id : hands_off (cancel env (H := H) id).
Proof. intros s. unfold cancel. by destruct (Cancel _ _ _ _) as [[? ?] ?]. Qed.

Lemma hands_off_confirm addr lease d : hands_off (confirm_domain env srv fw nc addr lease d).
Proof.
  unfold confirm_domain. apply hands_off_bind; [by apply hands_off_map_err|]. intros ds. destruct (PendingLease ds) as [p|]; [|done].
  destruct (negb _); [done|]. apply hands_off_bind; [done|]. intros t.
  destruct (negb _); [done|]. destruct (_ =?s _); [done|]. destruct (negb _); [done|].
  apply hands_off_bind; [done|]. intros c. apply hands_off_bind; [done|]. intros t'. apply hands_off_bind; [done|]. intros late.
  destruct (_ || _); [done|]. apply hands_off_bind; [apply hands_off_map_err, hands_off_save|]. intros _.
  apply hands_off_bind; [apply hands_off_ignore, hands_off_cancel|done].
Qed.

Lemma hands_off_Confirm peer caller lease : hands_off (Confirm env srv fw nc peer caller lease).
Proof.
  unfold Confirm. destruct (ObserveOnly srv); [done|]. apply hands_off_bind; [by destruct peer|]. intros addr.
  apply hands_off_bind; [intros s; unfold authorize; by destruct (AuthorizeDeployer _ _)|]. intros _. destruct (is_empty lease); [done|].
  apply hands_off_bind; [by apply hands_off_map_err|]. intros _. generalize [domainFirewall; domainNetconfig]. intros ds.
  induction ds as [|d ds IH]; [done|]. cbn [confirm_loop]. apply hands_off_bind; [apply hands_off_confirm|]. intros r. by destruct r.
Qed.

(** C8: What a successful Confirm means.  In every reachable state, a Confirm that answers
    with success came from an authorised deployer on a connection other than the one that
    applied, for a lease that was open, completely applied and not past its deadline; the
    target it confirms is in force on the host, the host is not touched, and the lease is
    gone from the record. *)
Theorem confirm_sound st peer caller lease s' :
  reachable st -> md st = Up ->
  Confirm env srv fw nc peer caller lease (sys st) = (s', Done tt) ->
  is_ok (AuthorizeDeployer (authenticator srv) caller) = true
  /\ exists addr d p, peer = Some addr /\ core d /\ pending (sys st) d = Some p /\ ID p = lease
       /\ Peer p <> addr /\ Applied p = true /\ e_now env (tick (sys st)) < Deadline p
       /\ enacted (ex := executor fw nc d) (Target p) (hosts (sys st) d)
       /\ pending s' d = None /\ hosts s' = hosts (sys st).
Proof.
  intros Hr Hm HC. apply reachable_inv in Hr; [|done]. rewrite Hm in Hr.
  pose proof (hands_off_Confirm peer caller lease (sys st)) as Hh. rewrite HC in Hh.
  destruct (Confirm_inv _ _ _ _ _ _ _ _ _ _ _ Hr HC) as [_ HD].
  destruct (HD eq_refl) as (addr & d & p & c & Hp & Hok & Hc & Hcf & Hn). split; [done|].
  pose proof (confirmable_enacted _ _ _ _ _ _ _ _ _ _ _ Hr Hc Hcf). destruct Hcf.
  exists addr, d, p. by split_and!.
Qed.

(** C9: What a successful Apply means.  In every reachable state, an Apply that answers with
    lease [id] came from an authorised deployer with a positive timeout, and leaves the
    requested target in force, a lease [id] on record marked as applied, and its revert
    timer running. *)
Theorem apply_sound st peer caller req s' id :
  reachable st -> md st = Up ->
  Apply env srv fw nc peer caller req (sys st) = (s', Done id) ->
  is_ok (AuthorizeDeployer (authenticator srv) caller) = true
  /\ 0 < dead_man_switch_seconds req
  /\ exists p, let d := target_domain req in
       core d /\ pending s' d = Some p /\ ID p = id /\ Applied p = true
       /\ Target p = desired_state_json req /\ armed s' d p
       /\ enacted (ex := executor fw nc d) (desired_state_json req) (hosts s' d).
Proof.
  intros Hr Hm HA. apply reachable_inv in Hr; [|done]. rewrite Hm in Hr.
  destruct (hoare_Apply _ _ _ _ _ _ _ _ _ _ _ Hr I HA) as [_ HQ].
  destruct (HQ id eq_refl) as (_ & _ & Hok & Hs & Hc & p & ? & ? & ? & ? & ? & ?).
  split; [done|]. split; [done|]. exists p. by split_and!.
Qed.

(** An open lease is never overwritten.  While the lease of a domain is open and its
    deadline lies ahead of the clock reading Apply makes, every Apply for that domain (also
    by its versioned names) fails and changes neither the host nor the store nor the
    timers. *)
Theorem apply_respects_open_lease peer caller req p s s' o :
  core (target_domain req) -> pending s (target_domain req) = Some p ->
  e_now env (tick s + 3) < Deadline p ->
  Apply env srv fw nc peer caller req s = (s', o) ->
  fs s' = fs s /\ tms s' = tms s /\ hosts s' = hosts s /\ forall id, o <> Done id.
Proof.
  intros Hc Hp Ht HA. destruct (Apply_open _ _ _ _ _ _ _ Hc Hp Ht HA) as [(? & ? & _ & ? & _) ?].
  by split_and!.
Qed.

(** Refused calls change nothing.  An observe-only daemon, a connection without a peer
    address and a caller that is not a deployer get an error from Apply and from Confirm,
    and the host is as it was, down to the last file and timer. *)
Theorem refused_unchanged peer caller req lease s :
  ObserveOnly srv = true \/ peer = None
  \/ is_ok (AuthorizeDeployer (authenticator srv) caller) = false ->
  (exists e, Apply env srv fw nc peer caller req s = (s, Failed e))
  /\ (exists e, Confirm env srv fw nc peer caller lease s = (s, Failed e)).
Proof.
  intros Hor. assert (refused peer caller = true) as Href.
  { unfold refused. destruct Hor as [-> |[-> | ->]]; [done|..].
    - by rewrite orb_true_r.
    - apply orb_true_r. }
  split; [by apply refused_Apply | by apply refused_Confirm].
Qed.

(** A late timer is harmless.  A reverting process for a lease that is no longer the open
    one (confirmed, rolled back, or replaced) touches nothing, whatever the outside does. *)
Theorem late_timer_harmless d lease s s' o :
  is_empty lease = false -> (forall p, pending s d = Some p -> ID p <> lease) ->
  runRevert env srv fw nc lease d s = (s', o) ->
  fs s' = fs s /\ tms s' = tms s /\ hosts s' = hosts s.
Proof.
  intros Hne Hp HR. destruct (runRevert_late d lease s s' o Hne (fun p _ => Hp p) HR) as (? & ? & _ & ? & _).
  done.
Qed.

(** Apply and Confirm complete.  When nothing outside fails and the executor's steps
    succeed, an authorised Apply on a domain without an open lease answers with a lease. *)
Theorem apply_completes addr caller req ds pl sn h s :
  let d := domain req in let ex := executor fw nc d in let n := tick s in
  ObserveOnly srv = false -> is_ok (AuthorizeDeployer (authenticator srv) caller) = true ->
  core d -> 0 < dead_man_switch_seconds req -> fault_free n 15 ->
  record srv (fs s) d = Some ds -> PendingLease ds = None ->
  ex_check ex (1 + n) (desired_state_json req) (hosts s d) = Done pl ->
  ex_snapshot ex (3 + n) pl (hosts s d) = Done sn ->
  ex_mutate ex (9 + n) pl (hosts s d) = (h, Done tt) ->
  exists s' id, Apply env srv fw nc (Some addr) caller req s = (s', Done id).
Proof.
  intros d ex n Hob Hau Hc Hs Hf Hr Hp Hck Hsn Hmu. eapply Apply_ok; try done.
  unfold refused. by rewrite Hob, Hau, bool_decide_eq_true_2.
Qed.

(** In every reachable state, an authorised Confirm of an applied, unexpired lease over a
    fresh connection succeeds when nothing outside fails and the executor can name the
    confirmed bytes. *)
Theorem confirm_completes st addr caller d p :
  reachable st -> md st = Up ->
  ObserveOnly srv = false -> is_ok (AuthorizeDeployer (authenticator srv) caller) = true ->
  core d -> pending (sys st) d = Some p -> Peer p <> addr -> Applied p = true ->
  (forall p' d', core d' -> d' <> d -> pending (sys st) d' = Some p' -> ID p' <> ID p) ->
  fault_free (tick (sys st)) 9 -> e_now env (tick (sys st) + 9) < Deadline p ->
  (forall n, exists c, ex_confirmed (executor fw nc d) n (Target p) (hosts (sys st) d) = Done c) ->
  exists s', Confirm env srv fw nc (Some addr) caller (ID p) (sys st) = (s', Done tt).
Proof.
  intros Hr Hm Hob Hau Hc Hp Hpe Hap Hoth Hf Hdl Hcf. apply reachable_inv in Hr; [|done].
  eapply (Confirm_ok addr caller (ID p) d p); try done.
  - unfold refused. by rewrite Hob, Hau, bool_decide_eq_true_2.
  - destruct (proj2 Hr d Hc) as (ds & Hrec & _ & Hi). rewrite (pending_record _ _ _ _ Hrec) in Hp.
    rewrite Hp in Hi. destruct Hi as (_ & _ & (i & _ & ->) & _). apply (uuid_nonempty env srv).
  - intros d' Hd'. destruct (proj2 Hr d' Hd') as (ds & ? & _). eauto.
  - intros d' p' Hd'. by apply Hoth.
Qed.

End Safety.

(** * An instance

    A host that is one JSON document per domain: a target replaces it, a snapshot is the
    document itself.  The clock advances by [rate] nanoseconds at every call. *)
Module Cell.

Definition document (t : raw) : option json := match t with RawDoc j => Some j | _ => None end.

Definition replace (s : raw) (h : json) : json * outcome string unit :=
  match s with
  | RawEmpty => (h, Done tt)
  | RawDoc j => (j, Done tt)
  | _ => (h, Failed "not a document")
  end.

Definition executor : Executor json := {|
  plan := json;
  ex_check n t h := match document t with
                    | Some j => Done j
                    | None => Failed (mkStatus InvalidArgument "not a document")
                    end;
  ex_snapshot n pl h := Done (RawDoc h);
  ex_mutate n pl h := (pl, Done tt);
  ex_rollback n := replace;
  ex_restore n := replace;
  ex_confirmed n t h := Done t;
|}.

#[global, program] Instance laws : ExecLaws executor json := {|
  view h := h;
  planned t pl := t = RawDoc pl;
  guards s pl := True;
  covers s v h := s = RawDoc v;
  enacted t h := t = RawDoc h;
  replays c v := c = RawEmpty \/ c = RawDoc v;
  lost v h := True;
  rebooted h h' := True;
|}.
Next Obligation. intros n [] h pl; simpl; congruence. Qed.
Next Obligation. intros n pl h s [= <-]. done. Qed.
Next Obligation. done. Qed.
Next Obligation. intros n t pl h h' -> [= <-]. done. Qed.
Next Obligation. intros n s v h h' o -> [= <- <-]. done. Qed.
Next Obligation. intros n t h c -> [= <-]. by right. Qed.
Next Obligation. intros v. by left. Qed.
Next Obligation. done. Qed.
Next Obligation. done. Qed.
Next Obligation. done. Qed.
Next Obligation. intros n c v h h' o [-> | ->] _ [= <- <-]; done. Qed.

Fixpoint tally (n : nat) : string :=
  match n with O => EmptyString | S n' => "a" +++ tally n' end.

Definition env (rate : Z) : Env :=
  mkEnv (fun n => Z.of_nat n * rate) (fun _ => NoFault) (fun _ => false) (fun _ => false)
    (fun _ => false) (fun _ => CmdOk) (fun _ => false) (fun n => "lease-" +++ tally n).

Definition server : Server :=
  mkServer false (NewAuthenticator "tag:deployer") "/usr/bin/ghostd" "/var/lib/ghostd" core_domains.

Definition deployer : result string (option Caller) :=
  Ok (Some (mkCaller "ops" "n1" "ops.example" ["tag:deployer"] [] ∅)).

Lemma tally_inj i j : tally i = tally j -> i = j.
Proof.
  revert j. induction i as [|i IH]; intros [|j]; simpl; try done. intros [= E]. auto.
Qed.

#[global] Instance sane rate : 0 <= rate -> Sane (env rate) server.
Proof.
  intros Hr. split.
  - intros i j Hij. simpl. nia.
  - intros i j. simpl. intros [= E]. by apply tally_inj.
  - done.
  - done.
  - intros d [-> | ->]; by vm_compute.
Qed.

(** A fresh host, its first boot, one Apply for netconfig, and the daemon's death. *)
Definition fresh_host : St (H := json) (V := json) :=
  mkSt Down (mkSys ∅ ∅ ∅ (fun _ => JBool false) 0) (fun _ => JBool false).
Definition booted_sys (rate : Z) : Sys json :=
  fst (boot (env rate) server executor executor (sys fresh_host)).
Definition booted_host (rate : Z) : St :=
  mkSt Up (booted_sys rate)
    (good_after_boot server executor executor (sys fresh_host) (booted_sys rate) (good fresh_host)).
Definition request : ApplyRequest := mkApplyRequest domainNetconfig (RawDoc (JBool true)) 1.
Definition applied_sys (rate : Z) : Sys json :=
  fst (Apply (env rate) server executor executor (Some "100.64.0.2:1000") deployer request (booted_sys rate)).
Definition applied_host (rate : Z) : St := mkSt Up (applied_sys rate) (good (booted_host rate)).
Definition dead_host (rate : Z) : St := mkSt Down (lose_memory (applied_sys rate)) (good (booted_host rate)).

Definition slow : Z := 1.
Definition fast : Z := 10 * second.

Lemma booted_step rate : step (env rate) server executor executor fresh_host (booted_host rate).
Proof. apply step_boot. reflexivity. Qed.

Lemma applied_step rate :
  rate = slow \/ rate = fast ->
  exists id, Apply (env rate) server executor executor (Some "100.64.0.2:1000") deployer request
               (booted_sys rate) = (applied_sys rate, Done id).
Proof. intros [-> | ->]; eexists; vm_compute; reflexivity. Qed.

Lemma fresh_initial : initial executor executor fresh_host.
Proof. split_and!; try done. intros d [-> | ->]; exact I. Qed.

Lemma booted_reachable rate : reachable (env rate) server executor executor (booted_host rate).
Proof. exists fresh_host. split; [apply fresh_initial|]. eapply rtc_l; [apply booted_step|done]. Qed.

Lemma applied_reachable rate :
  rate = slow \/ rate = fast -> reachable (env rate) server executor executor (applied_host rate).
Proof.
  intros Hr. destruct (applied_step rate Hr) as [id HA]. exists fresh_host. split; [apply fresh_initial|].
  eapply rtc_l; [apply booted_step|]. eapply rtc_l; [|done].
  pose proof (step_apply _ _ _ _ _ _ (good (booted_host rate)) _ _ _ _ HA) as Hst. exact Hst.
Qed.

Lemma dead_reachable rate :
  rate = slow \/ rate = fast -> reachable (env rate) server executor executor (dead_host rate).
Proof.
  intros Hr. destruct (applied_reachable rate Hr) as (st0 & Hi & Hs). exists st0. split; [done|].
  eapply rtc_r; [done|]. exact (step_kill _ _ _ _ Up (applied_sys rate) (good (booted_host rate))).
Qed.

#[global] Instance sane_slow : Sane (env slow) server.
Proof. by apply sane. Qed.
#[global] Instance sane_fast : Sane (env fast) server.
Proof. by apply sane. Qed.

Lemma no_faults rate n k : fault_free (env rate) n k.
Proof. by split. Qed.

Definition lease_of (rate : Z) : Pending :=
  default zero_pending (pending server (applied_sys rate) domainNetconfig).
Definition timer_of (rate : Z) : Z * list string :=
  default (0, []) (tms (applied_sys rate) !! unitName (ID (lease_of rate))).

Lemma lease_of_pending rate :
  rate = slow \/ rate = fast ->
  pending server (sys (applied_host rate)) domainNetconfig = Some (lease_of rate).
Proof. intros [-> | ->]; vm_compute; reflexivity. Qed.

Lemma lease_safety_witness :
  is_Some (pending server (sys (applied_host slow)) domainNetconfig)
  /\ match pending server (sys (applied_host slow)) domainNetconfig with
     | None => False
     | Some p => Snapshot p = RawDoc (JBool false)
                 /\ armed server (sys (applied_host slow)) domainNetconfig p
     end.
Proof.
  pose proof (lease_safety (env slow) server executor executor (applied_host slow) domainNetconfig
    (applied_reachable slow (or_introl eq_refl)) eq_refl (or_intror eq_refl)) as Hs.
  rewrite (lease_of_pending slow (or_introl eq_refl)) in Hs |- *. split; [by eexists|].
  destruct Hs as [Hc [Hv|Ha]].
  - exfalso. vm_compute in Hv. discriminate Hv.
  - split; [exact Hc | exact Ha].
Defined.

Lemma record_recoverable_witness :
  exists ds, record server (fs (sys (dead_host slow))) domainNetconfig = Some ds
    /\ (Confirmed ds = RawEmpty \/ Confirmed ds = RawDoc (good (dead_host slow) domainNetconfig)).
Proof.
  destruct (record_recoverable (env slow) server executor executor (dead_host slow) domainNetconfig
    (dead_reachable slow (or_introl eq_refl)) (or_intror eq_refl)) as (ds & Hr & Hc & _).
  exists ds. split; [exact Hr | exact Hc].
Defined.

Lemma revert_restores_witness :
  exists s', (let '(lease, dom, _) := revert_request (snd (timer_of fast)) in
              runRevert (env fast) server executor executor lease dom (sys (applied_host fast)))
             = (s', Done tt)
    /\ hosts s' domainNetconfig = JBool false /\ pending server s' domainNetconfig = None.
Proof.
  apply (revert_restores (env fast) server executor executor (applied_host fast) domainNetconfig
    (lease_of fast) (fst (timer_of fast)) (snd (timer_of fast)) (JBool false)
    (applied_reachable fast (or_intror eq_refl)) (or_intror eq_refl)
    (lease_of_pending fast (or_intror eq_refl))).
  - vm_compute. reflexivity.
  - vm_compute. discriminate.
  - apply no_faults.
  - vm_compute. reflexivity.
Defined.

Definition restarted (rate : Z) : Sys json :=
  fst (boot (env rate) server executor executor (sys (dead_host rate))).

Lemma boot_restores_witness :
  pending server (restarted slow) domainNetconfig = None
  /\ hosts (restarted slow) domainNetconfig = JBool false.
Proof.
  destruct (boot_restores (env slow) server executor executor (dead_host slow) (restarted slow)
    domainNetconfig (dead_reachable slow (or_introl eq_refl)) eq_refl) as [Hn Hv].
  - vm_compute. reflexivity.
  - by right.
  - split; [exact Hn|]. apply Hv. vm_compute. discriminate.
Defined.

Definition confirmed_sys (rate : Z) : Sys json :=
  fst (Confirm (env rate) server executor executor (Some "100.64.0.2:1001") deployer
         (ID (lease_of rate)) (applied_sys rate)).

Lemma confirm_sound_witness :
  is_ok (AuthorizeDeployer (authenticator server) deployer) = true
  /\ exists addr d p, Some "100.64.0.2:1001" = Some addr /\ core d
       /\ pending server (applied_sys slow) d = Some p /\ Peer p <> addr
       /\ pending server (confirmed_sys slow) d = None.
Proof.
  destruct (confirm_sound (env slow) server executor executor (applied_host slow)
    (Some "100.64.0.2:1001") deployer (ID (lease_of slow)) (confirmed_sys slow)
    (applied_reachable slow (or_introl eq_refl)) eq_refl) as (Hok & addr & d & p & Hp).
  - vm_compute. reflexivity.
  - split; [exact Hok|]. exists addr, d, p. destruct Hp as (? & ? & ? & ? & ? & ? & ? & ? & ? & ?).
    split_and!; assumption.
Defined.

Lemma apply_sound_witness :
  exists id p, pending server (applied_sys slow) domainNetconfig = Some p /\ ID p = id
    /\ armed server (applied_sys slow) domainNetconfig p.
Proof.
  destruct (applied_step slow (or_introl eq_refl)) as [id HA].
  destruct (apply_sound (env slow) server executor executor (booted_host slow)
    (Some "100.64.0.2:1000") deployer request (applied_sys slow) id
    (booted_reachable slow) eq_refl HA) as (_ & _ & p & _ & Hp & Hid & _ & _ & Ha & _).
  exists id, p. split_and!; assumption.
Defined.

(** A second Apply while the lease of the first is open. *)
Definition reapplied : Sys json * outcome status string :=
  Apply (env slow) server executor executor (Some "100.64.0.3:1000") deployer request (applied_sys slow).

Lemma apply_respects_open_lease_witness :
  fs (fst reapplied) = fs (applied_sys slow) /\ tms (fst reapplied) = tms (applied_sys slow)
  /\ hosts (fst reapplied) = hosts (applied_sys slow) /\ forall id, snd reapplied <> Done id.
Proof.
  apply (apply_respects_open_lease (env slow) server executor executor
    (Some "100.64.0.3:1000") deployer request (lease_of slow) (applied_sys slow)).
  - by right.
  - exact (lease_of_pending slow (or_introl eq_refl)).
  - vm_compute. reflexivity.
  - exact (surjective_pairing reapplied).
Defined.

Lemma refused_unchanged_witness :
  (exists e, Apply (env slow) server executor executor (Some "100.64.0.9:1") (Ok None) request
               (booted_sys slow) = (booted_sys slow, Failed e))
  /\ (exists e, Confirm (env slow) server executor executor (Some "100.64.0.9:1") (Ok None) "lease"
               (booted_sys slow) = (booted_sys slow, Failed e)).
Proof.
  apply (refused_unchanged (env slow) server executor executor (Some "100.64.0.9:1") (Ok None) request).
  right. right. reflexivity.
Defined.

(** The timer of a confirmed lease that could not be stopped. *)
Definition late : Sys json * outcome string unit :=
  runRevert (env slow) server executor executor (ID (lease_of slow)) domainNetconfig (confirmed_sys slow).

Lemma late_timer_harmless_witness :
  fs (fst late) = fs (confirmed_sys slow) /\ tms (fst late) = tms (confirmed_sys slow)
  /\ hosts (fst late) = hosts (confirmed_sys slow).
Proof.
  apply (late_timer_harmless (env slow) server executor executor domainNetconfig (ID (lease_of slow))
    (confirmed_sys slow) (fst late) (snd late)).
  - vm_compute. reflexivity.
  - assert (pending server (confirmed_sys slow) domainNetconfig = None) as Hn by (vm_compute; reflexivity).
    intros p Hp. rewrite Hn in Hp. discriminate Hp.
  - exact (surjective_pairing late).
Defined.

Lemma apply_completes_witness :
  exists s' id, Apply (env slow) server executor executor (Some "100.64.0.2:1000") deployer request
                  (booted_sys slow) = (s', Done id).
Proof.
  apply (apply_completes (env slow) server executor executor "100.64.0.2:1000" deployer request
    (mkDomainState RawEmpty None) (JBool true) (RawDoc (JBool false)) (JBool true) (booted_sys slow)).
  - reflexivity.
  - vm_compute. reflexivity.
  - by right.
  - vm_compute. reflexivity.
  - apply no_faults.
  - vm_compute. reflexivity.
  - reflexivity.
  - vm_compute. reflexivity.
  - vm_compute. reflexivity.
  - vm_compute. reflexivity.
Defined.

Lemma confirm_completes_witness :
  exists s', Confirm (env slow) server executor executor (Some "100.64.0.2:1001") deployer
               (ID (lease_of slow)) (sys (applied_host slow)) = (s', Done tt).
Proof.
  apply (confirm_completes (env slow) server executor executor (applied_host slow) "100.64.0.2:1001"
    deployer domainNetconfig (lease_of slow)).
  - exact (applied_reachable slow (or_introl eq_refl)).
  - reflexivity.
  - reflexivity.
  - vm_compute. reflexivity.
  - by right.
  - exact (lease_of_pending slow (or_introl eq_refl)).
  - vm_compute. discriminate.
  - vm_compute. reflexivity.
  - assert (pending server (sys (applied_host slow)) domainFirewall = None) as Hn by (vm_compute; reflexivity).
    intros p' d' [-> | ->] Hne Hp; [rewrite Hn in Hp; discriminate Hp | by destruct Hne].
  - apply no_faults.
  - vm_compute. reflexivity.
  - intros n. exists (RawDoc (JBool true)). vm_compute. reflexivity.
Defined.

End Cell.
