(* ===== verification/NetAddr.v ===== *)
(** net/netip, and net.IP in its sixteen-byte form: the part of Go's standard library the program's
    address handling rests on.

    An address is a number of its width, with a zone for IPv6; [ParseAddr], [ParsePrefix]
    and the printers follow the library byte by byte, since validators accept exactly what
    they accept. *)

From S2P Require Import Prelude.
From Stdlib Require Import Ascii.
Local Open Scope Z_scope.

(** * Addresses *)

Inductive Addr :=
| Addr4 (n : Z)
| Addr6 (n : Z) (zone : string).

#[global] Instance Addr_eq_dec : EqDecision Addr.
Proof. solve_decision. Defined.

Definition Is4 (a : Addr) : bool := match a with Addr4 _ => true | _ => false end.
Definition Is6 (a : Addr) : bool := negb (Is4 a).
Definition AddrZone (a : Addr) : string := match a with Addr4 _ => EmptyString | Addr6 _ z => z end.
Definition BitLen (a : Addr) : Z := if Is4 a then 32 else 128.
Definition addr_num (a : Addr) : Z := match a with Addr4 n | Addr6 n _ => n end.

Definition addr_valid (a : Addr) : Prop := 0 <= addr_num a < 2 ^ BitLen a.

(** A prefix as ParsePrefix returns it: the address is not masked. *)
Record Prefix := mkPrefix { PAddr : Addr; PBits : Z }.

#[global] Instance Prefix_eq_dec : EqDecision Prefix.
Proof. solve_decision. Defined.

(** Prefix.Masked, Prefix.Contains. *)
Definition mask_num (len bits n : Z) : Z := Z.shiftl (Z.shiftr n (len - bits)) (len - bits).

Definition with_num (a : Addr) (n : Z) : Addr :=
  match a with Addr4 _ => Addr4 n | Addr6 _ z => Addr6 n z end.

Definition Masked (p : Prefix) : Prefix :=
  mkPrefix (with_num (PAddr p) (mask_num (BitLen (PAddr p)) (PBits p) (addr_num (PAddr p)))) (PBits p).

Definition Contains (p : Prefix) (a : Addr) : bool :=
  Bool.eqb (Is4 (PAddr p)) (Is4 a) && is_empty (AddrZone a)
  && (Z.shiftr (addr_num a) (BitLen a - PBits p)
      =? Z.shiftr (addr_num (PAddr p)) (BitLen a - PBits p)).

(** * Parsing *)

Definition digit_val (c : ascii) : Z := byte_of c - 48.

(** parseIPv4Fields: [acc] are the finished octets, [val] and [len] the current one; [prev]
    says whether the previous byte was a dot (true at the start). *)
Fixpoint parse_octets (acc : list Z) (val : Z) (len : nat) (prev : bool) (l : list ascii) :
    option (list Z) :=
  match l with
  | [] => if (length acc <? 3)%nat then None else Some (acc ++ [val])
  | c :: l' =>
    if is_digit c then
      if (len =? 1)%nat && (val =? 0) then None
      else let v := val * 10 + digit_val c in
           if 255 <? v then None else parse_octets acc v (S len) false l'
    else if Ascii.eqb c "." then
      if prev || (match l' with [] => true | _ => false end) then None
      else if (length acc =? 3)%nat then None
      else parse_octets (acc ++ [val]) 0 0 true l'
    else None
  end.

Definition num_of_octets (l : list Z) : Z := fold_left (fun n o => n * 256 + o) l 0.

Definition parseIPv4 (s : string) : option Addr :=
  o ← parse_octets [] 0 0 true (string_chars s); Some (Addr4 (num_of_octets o)).

Definition hex_val (c : ascii) : option Z :=
  if is_digit c then Some (byte_of c - 48)
  else if in_range 97 102 c then Some (byte_of c - 87)
  else if in_range 65 70 c then Some (byte_of c - 55)
  else None.

(** One hexadecimal group: its value, the number of digits, and the rest; [None] for more
    than four digits. *)
Fixpoint hex_group (acc : Z) (off : nat) (l : list ascii) : option (Z * nat * list ascii) :=
  match l with
  | c :: l' =>
    match hex_val c with
    | None => Some (acc, off, l)
    | Some d => if (3 <? off)%nat then None else hex_group (acc * 16 + d) (S off) l'
    end
  | [] => Some (acc, off, [])
  end.

(** The loop of parseIPv6.  [bytes] are the bytes found so far, [ell] the position of the
    ellipsis.  [fuel] bounds the groups: each round adds two bytes and stops at 16. *)
Fixpoint v6_loop (fuel : nat) (bytes : list Z) (ell : option nat) (l : list ascii) :
    option (list Z * option nat * list ascii) :=
  match fuel with
  | O => Some (bytes, ell, l)
  | S fuel' =>
    if (16 <=? length bytes)%nat then Some (bytes, ell, l) else
    match hex_group 0 0 l with
    | None => None
    | Some (_, O, _) => None
    | Some (acc, _, rest) =>
      match rest with
      | [] => Some (bytes ++ [acc / 256; acc mod 256], ell, [])
      | c :: rest' =>
        if Ascii.eqb c "." then
          if (match ell with None => negb (length bytes =? 12)%nat | Some _ => false end) then None
          else if (16 <? length bytes + 4)%nat then None
          else o ← parse_octets [] 0 0 true l; Some (bytes ++ o, ell, [])
        else if negb (Ascii.eqb c ":") then None
        else
          let bytes' := bytes ++ [acc / 256; acc mod 256] in
          match rest' with
          | [] => None
          | c' :: rest'' =>
            if Ascii.eqb c' ":" then
              match ell with
              | Some _ => None
              | None => match rest'' with
                        | [] => Some (bytes', Some (length bytes'), [])
                        | _ => v6_loop fuel' bytes' (Some (length bytes')) rest''
                        end
              end
            else v6_loop fuel' bytes' ell rest'
          end
      end
    end
  end.

Definition expand_ellipsis (bytes : list Z) (e : nat) : list Z :=
  take e bytes ++ replicate (16 - length bytes) 0 ++ drop e bytes.

Definition v6_finish (zone : string) (r : option (list Z * option nat * list ascii)) : option Addr :=
  '(bytes, ell, rest) ← r;
  match rest with
  | _ :: _ => None
  | [] =>
    if (length bytes <? 16)%nat then
      match ell with
      | None => None
      | Some e => Some (Addr6 (num_of_octets (expand_ellipsis bytes e)) zone)
      end
    else match ell with
         | Some _ => None
         | None => Some (Addr6 (num_of_octets bytes) zone)
         end
  end.

(** Cut at the first percent sign. *)
Fixpoint cut_zone (l : list ascii) : list ascii * option (list ascii) :=
  match l with
  | [] => ([], None)
  | c :: l' => if Ascii.eqb c "%" then ([], Some l')
               else let '(a, z) := cut_zone l' in (c :: a, z)
  end.

Definition parseIPv6 (s : string) : option Addr :=
  let '(l, z) := cut_zone (string_chars s) in
  match z with
  | Some [] => None
  | _ =>
    let zone := match z with Some zl => string_of_chars zl | None => EmptyString end in
    match l with
    | ":"%char :: ":"%char :: [] => Some (Addr6 0 zone)
    | ":"%char :: ":"%char :: l' => v6_finish zone (v6_loop 8 [] (Some 0%nat) l')
    | _ => v6_finish zone (v6_loop 8 [] None l)
    end
  end.

(** ParseAddr looks for the first dot, colon or percent sign. *)
Fixpoint first_sep (l : list ascii) : option ascii :=
  match l with
  | [] => None
  | c :: l' => if Ascii.eqb c "." || Ascii.eqb c ":" || Ascii.eqb c "%" then Some c else first_sep l'
  end.

Definition ParseAddr (s : string) : option Addr :=
  match first_sep (string_chars s) with
  | Some "."%char => parseIPv4 s
  | Some ":"%char => parseIPv6 s
  | _ => None
  end.

(** strconv.Atoi of a short unsigned decimal. *)
Fixpoint decimal_of (acc : Z) (l : list ascii) : option Z :=
  match l with
  | [] => Some acc
  | c :: l' => if is_digit c then decimal_of (acc * 10 + digit_val c) l' else None
  end.

(** strings.LastIndexByte(s, '/'): what comes before and after. *)
Fixpoint cut_last (c : ascii) (l : list ascii) : option (list ascii * list ascii) :=
  match l with
  | [] => None
  | x :: l' =>
    match cut_last c l' with
    | Some (a, b) => Some (x :: a, b)
    | None => if Ascii.eqb x c then Some ([], l') else None
    end
  end.

Definition ParsePrefix (s : string) : option Prefix :=
  '(ip, bits) ← cut_last "/" (string_chars s);
  a ← ParseAddr (string_of_chars ip);
  if negb (is_empty (AddrZone a)) then None else
  match bits with
  | [] => None
  | c :: rest =>
    if (match rest with [] => false | _ => true end) && negb (in_range 49 57 c) then None
    else n ← decimal_of 0 bits;
         if BitLen a <? n then None else Some (mkPrefix a n)
  end.

(** * "host:port" texts: net.SplitHostPort, net.JoinHostPort *)

(** The text around the last colon. *)
Fixpoint last_colon (s : string) : option (string * string) :=
  match s with
  | EmptyString => None
  | String c s' => match last_colon s' with
                   | Some (a, b) => Some (String c a, b)
                   | None => if Ascii.eqb c ":" then Some (EmptyString, s') else None
                   end
  end.

(** A host in brackets ends at the first closing one, which the last colon follows; a bare host
    has no colon.  No other bracket may appear. *)
Definition SplitHostPort (s : string) : option (string * string) :=
  match last_colon s with
  | None => None
  | Some (before, port) =>
    let host := match before with
                | String "[" r => match split_char "]" r with [h; EmptyString] => Some h | _ => None end
                | _ => if contains_char ":" before || contains_char "]" before then None else Some before
                end in
    match host with
    | Some h => if contains_char "[" h || contains_char "[" port || contains_char "]" port then None else Some (h, port)
    | None => None
    end
  end.

Definition JoinHostPort (host port : string) : string :=
  if contains_char ":" host then "[" +++ host +++ "]:" +++ port else host +++ ":" +++ port.

(** * Printing *)

Definition octet (n i : Z) : Z := Z.shiftr n (8 * i) mod 256.

Definition AddrString4 (n : Z) : string :=
  pretty (octet n 3) +++ "." +++ pretty (octet n 2) +++ "." +++ pretty (octet n 1)
  +++ "." +++ pretty (octet n 0).

Definition group (n i : Z) : Z := Z.shiftr n (16 * (7 - i)) mod 65536.

Definition hex_char (d : Z) : ascii := ascii_of_nat (Z.to_nat (if d <? 10 then 48 + d else 87 + d)).

(** appendHex: a group without leading zeros. *)
Definition hex_string (n : Z) : string :=
  string_of_chars (map hex_char
    ((if 4096 <=? n then [Z.shiftr n 12 mod 16] else [])
     ++ (if 256 <=? n then [Z.shiftr n 8 mod 16] else [])
     ++ (if 16 <=? n then [Z.shiftr n 4 mod 16] else [])
     ++ [n mod 16])).

Fixpoint zeros (l : list Z) : nat :=
  match l with 0 :: l' => S (zeros l') | _ => O end.

(** The first longest run of at least two zero groups: its start and end. *)
Definition zero_run (gs : list Z) : option (nat * nat) :=
  fold_left (fun best i =>
    let n := zeros (drop i gs) in
    let len := match best with Some (a, b) => (b - a)%nat | None => O end in
    if (2 <=? n)%nat && (len <? n)%nat then Some (i, (i + n)%nat) else best) (seq 0 8) None.

(** appendTo6's loop from group [i]. *)
Fixpoint print_groups (fuel : nat) (gs : list Z) (run : option (nat * nat)) (i : nat) : string :=
  match fuel with
  | O => EmptyString
  | S fuel' =>
    if (8 <=? i)%nat then EmptyString else
    match run with
    | Some (a, b) =>
      if (i =? a)%nat then
        "::" +++ (if (8 <=? b)%nat then EmptyString
                  else hex_string (nth b gs 0) +++ print_groups fuel' gs run (S b))
      else (if (0 <? i)%nat then ":" else EmptyString) +++ hex_string (nth i gs 0) +++ print_groups fuel' gs run (S i)
    | None => (if (0 <? i)%nat then ":" else EmptyString) +++ hex_string (nth i gs 0) +++ print_groups fuel' gs run (S i)
    end
  end.

Definition Is4In6 (a : Addr) : bool :=
  match a with Addr4 _ => false | Addr6 n _ => Z.shiftr n 32 =? 65535 end.

Definition AddrString6 (n : Z) : string :=
  if Z.shiftr n 32 =? 65535 then "::ffff:" +++ AddrString4 (n mod 2^32)
  else let gs := map (fun i => group n (Z.of_nat i)) (seq 0 8) in print_groups 8 gs (zero_run gs) 0.

Definition AddrString (a : Addr) : string :=
  match a with
  | Addr4 n => AddrString4 n
  | Addr6 n z => AddrString6 n +++ (if is_empty z then EmptyString else "%" +++ z)
  end.

Definition PrefixString (p : Prefix) : string := AddrString (PAddr p) +++ "/" +++ pretty (PBits p).

(** * Order and classes *)

(** Addr.Compare: the width, then the number, then the zone. *)
Definition Compare (a b : Addr) : comparison :=
  match a, b with
  | Addr4 n, Addr4 m => n ?= m
  | Addr4 _, Addr6 _ _ => Lt
  | Addr6 _ _, Addr4 _ => Gt
  | Addr6 n z, Addr6 m y => match n ?= m with
                            | Eq => String.compare z y
                            | c => c
                            end
  end.
Definition addr_leb (a b : Addr) : bool := match Compare a b with Gt => false | _ => true end.

(** Addr.Next: [None] is the zero Addr after the last address. *)
Definition Next (a : Addr) : option Addr :=
  if addr_num a + 1 <? 2 ^ BitLen a then Some (with_num a (addr_num a + 1)) else None.

Definition IsUnspecified (a : Addr) : bool :=
  match a with Addr4 n => n =? 0 | Addr6 n z => (n =? 0) && is_empty z end.
Definition IsMulticast (a : Addr) : bool :=
  match a with
  | Addr4 n => Z.shiftr n 28 =? 14
  | Addr6 n _ => if Z.shiftr n 32 =? 65535 then Z.shiftr (n mod 2^32) 28 =? 14 else Z.shiftr n 120 =? 255
  end.

Definition IsLoopback (a : Addr) : bool :=
  match a with
  | Addr4 n => Z.shiftr n 24 =? 127
  | Addr6 n _ => if Z.shiftr n 32 =? 65535 then Z.shiftr (n mod 2^32) 24 =? 127 else n =? 1
  end.
Definition IsLinkLocalUnicast (a : Addr) : bool :=
  match a with
  | Addr4 n => Z.shiftr n 16 =? 43518
  | Addr6 n _ => if Z.shiftr n 32 =? 65535 then Z.shiftr (n mod 2^32) 16 =? 43518 else Z.shiftr n 118 =? 1018
  end.

(** Prefix.Overlaps *)
Definition Overlaps (p q : Prefix) : bool :=
  Bool.eqb (Is4 (PAddr p)) (Is4 (PAddr q))
  && let bits := Z.min (PBits p) (PBits q) in
     (Z.shiftr (addr_num (PAddr p)) (BitLen (PAddr p) - bits)
      =? Z.shiftr (addr_num (PAddr q)) (BitLen (PAddr p) - bits)).

(** * net.ParseMAC *)

(** xtoi2: two digits, then the end of the text or the separator. *)
Definition mac_byte (sep : option ascii) (l : list ascii) : option (Z * list ascii) :=
  match l with
  | a :: b :: rest =>
    x ← hex_val a; y ← hex_val b;
    match rest, sep with
    | [], _ => Some (x * 16 + y, [])
    | c :: rest', Some s => if Ascii.eqb c s then Some (x * 16 + y, rest') else None
    | _, None => Some (x * 16 + y, rest)
    end
  | _ => None
  end.

Fixpoint mac_pairs (n : nat) (sep : ascii) (l : list ascii) : option (list Z) :=
  match n with
  | O => match l with [] => Some [] | _ => None end
  | S n' => '(x, rest) ← mac_byte (Some sep) l; xs ← mac_pairs n' sep rest; Some (x :: xs)
  end.

Fixpoint mac_quads (n : nat) (l : list ascii) : option (list Z) :=
  match n with
  | O => match l with [] => Some [] | _ => None end
  | S n' => '(x, rest) ← mac_byte None l; '(y, rest') ← mac_byte (Some "."%char) rest;
            xs ← mac_quads n' rest'; Some (x :: y :: xs)
  end.

Definition ParseMAC (s : string) : option (list Z) :=
  let l := string_chars s in let n := length l in
  if (n <? 14)%nat then None else
  match nth 2 l "000"%char, nth 4 l "000"%char with
  | c2, c4 =>
    if Ascii.eqb c2 ":" || Ascii.eqb c2 "-" then
      if (n =? 17)%nat || (n =? 23)%nat || (n =? 59)%nat then mac_pairs ((n + 1) / 3) c2 l else None
    else if Ascii.eqb c4 "." then
      if (n =? 14)%nat || (n =? 19)%nat || (n =? 49)%nat then mac_quads ((n + 1) / 5) l else None
    else None
  end.

Definition hex2 (b : Z) : string := String (hex_char (b / 16)) (String (hex_char (b mod 16)) EmptyString).

(** HardwareAddr.String *)
Definition MACString (hw : list Z) : string := join ":" (map hex2 hw).

(** Go's net.IP where the packet handlers use it: the sixteen-byte form of an address, in which an
    IPv4 address is mapped into ::ffff:0:0/96. *)

(** A net.IP of sixteen bytes, as a number; nil is [None]. *)
Definition of4 (n : Z) : Z := Z.shiftl 65535 32 + n.

Definition ParseIP (s : string) : option Z :=
  match ParseAddr s with
  | Some (Addr4 n) => Some (of4 n)
  | Some (Addr6 n z) => if is_empty z then Some n else None
  | None => None
  end.

Definition To4 (ip : option Z) : option Z :=
  n ← ip; if Z.shiftr n 32 =? 65535 then Some (n mod 2^32) else None.

Definition IPString (n : Z) : string :=
  match To4 (Some n) with Some m => AddrString4 m | None => AddrString6 n end.

(** IP.Equal; a nil address equals only nil. *)
Definition ip_eqb (a b : option Z) : bool :=
  match a, b with
  | Some n, Some m => n =? m
  | None, None => true
  | _, _ => false
  end.

Lemma of4_mapped n : 0 <= n < 2^32 -> To4 (Some (of4 n)) = Some n.
Proof.
  intros Hn. unfold To4, of4, mbind, option_bind.
  rewrite Z.shiftr_div_pow2, Z.shiftl_mul_pow2, Z.div_add_l, Z.div_small by lia.
  replace (65535 * 2^32 + n) with (n + 65535 * 2^32) by lia. rewrite Z_mod_plus_full, Z.mod_small by lia. done.
Qed.
