(* ===== verification/Nft.v ===== *)
(** internal/nft: desiredstate.go, output.go and render.go.

    The firewall request, its validation, and the text Render hands to nft.  Go iterates
    over the zones in an order of its own choosing, so [validate] takes that order as an
    argument; the rendered text never depends on it. *)

From S2P Require Import Prelude Json NetAddr.
From Stdlib Require Import Ascii.
Local Open Scope Z_scope.

(** * desiredstate.go *)

Record PortRule := mkPortRule { pr_Port : Z; pr_Proto : string }.
Record RedirectRule := mkRedirectRule { rr_Port : Z; rr_ToPort : Z; rr_Proto : string }.

Record Zone := mkZone {
  Interfaces : list string;
  SSH : option Z;                       (* SSHRule.Port *)
  NFS : option (list string);           (* NFSRule.Exports *)
  Services : list string;
  Ports : list PortRule;
  ZTarget : string;
  Forward : list string;
  Masquerade : bool;
  Redirects : list RedirectRule;
}.

Record Ingress := mkIngress { i_Interfaces : list string; i_Redirects : list RedirectRule }.

Record OutputRule := mkOutputRule {
  o_Proto : string; o_Port : Z; o_Family : string; o_Interface : string; o_Destination : string }.

Record OutputPolicy := mkOutputPolicy {
  Policy : string; EstablishedRelated : bool; Loopback : bool; Rules : list OutputRule }.

Record DesiredState := mkDesired {
  RedirectOnly : bool;
  Zones : gmap string Zone;
  DIngress : option Ingress;
  Output : option OutputPolicy;
  AllowDNATForward : bool;
}.

Definition zero_zone : Zone := mkZone [] None None [] [] EmptyString [] false [].

(** ** The wire form: DisallowUnknownFields at every level *)

Definition dec_strings : json -> option (list string) := dec_list (dec_string EmptyString).

Definition set_port_rule (k : string) (v : json) (r : PortRule) : option (option PortRule) :=
  if equal_fold k "port" then Some (n ← dec_int (pr_Port r) v; Some (mkPortRule n (pr_Proto r)))
  else if equal_fold k "proto" then
    Some (s ← dec_string (pr_Proto r) v; Some (mkPortRule (pr_Port r) s))
  else None.
Definition dec_port_rule : json -> option PortRule :=
  dec_struct true set_port_rule (mkPortRule 0 EmptyString).

Definition set_redirect (k : string) (v : json) (r : RedirectRule) : option (option RedirectRule) :=
  if equal_fold k "port" then
    Some (n ← dec_int (rr_Port r) v; Some (mkRedirectRule n (rr_ToPort r) (rr_Proto r)))
  else if equal_fold k "to_port" then
    Some (n ← dec_int (rr_ToPort r) v; Some (mkRedirectRule (rr_Port r) n (rr_Proto r)))
  else if equal_fold k "proto" then
    Some (s ← dec_string (rr_Proto r) v; Some (mkRedirectRule (rr_Port r) (rr_ToPort r) s))
  else None.
Definition dec_redirect : json -> option RedirectRule :=
  dec_struct true set_redirect (mkRedirectRule 0 0 EmptyString).

(** SSHRule and NFSRule have one field each. *)
Definition dec_ssh (cur : Z) : json -> option Z :=
  dec_struct true (fun k v n => if equal_fold k "port" then Some (dec_int n v) else None) cur.
Definition dec_nfs (cur : list string) : json -> option (list string) :=
  dec_struct true (fun k v l => if equal_fold k "exports" then Some (dec_strings v) else None) cur.

Definition set_zone (k : string) (v : json) (z : Zone) : option (option Zone) :=
  let '(mkZone i s n sv p t f m r) := z in
  if equal_fold k "interfaces" then Some (x ← dec_strings v; Some (mkZone x s n sv p t f m r))
  else if equal_fold k "ssh" then
    Some (x ← dec_ptr (dec_ssh (default 0 s)) v; Some (mkZone i x n sv p t f m r))
  else if equal_fold k "nfs" then
    Some (x ← dec_ptr (dec_nfs (default [] n)) v; Some (mkZone i s x sv p t f m r))
  else if equal_fold k "services" then Some (x ← dec_strings v; Some (mkZone i s n x p t f m r))
  else if equal_fold k "ports" then
    Some (x ← dec_list dec_port_rule v; Some (mkZone i s n sv x t f m r))
  else if equal_fold k "target" then Some (x ← dec_string t v; Some (mkZone i s n sv p x f m r))
  else if equal_fold k "forward" then Some (x ← dec_strings v; Some (mkZone i s n sv p t x m r))
  else if equal_fold k "masquerade" then Some (x ← dec_bool m v; Some (mkZone i s n sv p t f x r))
  else if equal_fold k "redirects" then
    Some (x ← dec_list dec_redirect v; Some (mkZone i s n sv p t f m x))
  else None.

Definition set_ingress (k : string) (v : json) (g : Ingress) : option (option Ingress) :=
  if equal_fold k "interfaces" then Some (x ← dec_strings v; Some (mkIngress x (i_Redirects g)))
  else if equal_fold k "redirects" then
    Some (x ← dec_list dec_redirect v; Some (mkIngress (i_Interfaces g) x))
  else None.

Definition set_output_rule (k : string) (v : json) (r : OutputRule) : option (option OutputRule) :=
  let '(mkOutputRule p n f i d) := r in
  if equal_fold k "proto" then Some (x ← dec_string p v; Some (mkOutputRule x n f i d))
  else if equal_fold k "port" then Some (x ← dec_int n v; Some (mkOutputRule p x f i d))
  else if equal_fold k "family" then Some (x ← dec_string f v; Some (mkOutputRule p n x i d))
  else if equal_fold k "interface" then Some (x ← dec_string i v; Some (mkOutputRule p n f x d))
  else if equal_fold k "destination" then Some (x ← dec_string d v; Some (mkOutputRule p n f i x))
  else None.
Definition dec_output_rule : json -> option OutputRule :=
  dec_struct true set_output_rule (mkOutputRule EmptyString 0 EmptyString EmptyString EmptyString).

Definition set_output (k : string) (v : json) (o : OutputPolicy) : option (option OutputPolicy) :=
  let '(mkOutputPolicy p e l r) := o in
  if equal_fold k "policy" then Some (x ← dec_string p v; Some (mkOutputPolicy x e l r))
  else if equal_fold k "established_related" then Some (x ← dec_bool e v; Some (mkOutputPolicy p x l r))
  else if equal_fold k "loopback" then Some (x ← dec_bool l v; Some (mkOutputPolicy p e x r))
  else if equal_fold k "rules" then
    Some (x ← dec_list dec_output_rule v; Some (mkOutputPolicy p e l x))
  else None.

Definition zero_output : OutputPolicy := mkOutputPolicy EmptyString false false [].

Definition set_desired (k : string) (v : json) (d : DesiredState) : option (option DesiredState) :=
  let '(mkDesired r z i o a) := d in
  if equal_fold k "redirect_only" then Some (x ← dec_bool r v; Some (mkDesired x z i o a))
  else if equal_fold k "zones" then
    Some (x ← dec_map (dec_struct true set_zone zero_zone) z v; Some (mkDesired r x i o a))
  else if equal_fold k "ingress" then
    Some (x ← dec_ptr (dec_struct true set_ingress (default (mkIngress [] []) i)) v;
          Some (mkDesired r z x o a))
  else if equal_fold k "output" then
    Some (x ← dec_ptr (dec_struct true set_output (default zero_output o)) v;
          Some (mkDesired r z i x a))
  else if equal_fold k "allow_dnat_forward" then
    Some (x ← dec_bool a v; Some (mkDesired r z i o x))
  else None.

Definition zero_desired : DesiredState := mkDesired false ∅ None None false.

Definition ParseDesiredState (r : raw) : result string DesiredState :=
  match decode_first r with
  | None => Err "json: invalid document"
  | Some j =>
    match dec_struct true set_desired zero_desired j with
    | None => Err "json: document does not fit the schema"
    | Some ds => if at_eof r then Ok ds else Err "nft: trailing JSON data"
    end
  end.

(** * Validation *)

Definition iface_char (c : ascii) : bool :=
  is_alnum c || Ascii.eqb c "_" || Ascii.eqb c "." || Ascii.eqb c ":" || Ascii.eqb c "-".

Definition validInterface (name : string) : bool :=
  ((1 <=? String.length name)%nat && (String.length name <=? 15)%nat && str_forallb iface_char name)
  && negb (name =?s ".") && negb (name =?s "..").

Definition validPort (port : Z) : bool := (1 <=? port) && (port <=? 65535).

Definition zone_char (c : ascii) : bool := is_alnum c || Ascii.eqb c "_".

(** The regular expression zoneName. *)
Definition zoneName (name : string) : bool :=
  match name with
  | EmptyString => false
  | String c rest => (is_alpha c || Ascii.eqb c "_") && str_forallb zone_char rest
  end.

Definition tcp_or_udp (proto : string) : bool := (proto =?s "tcp") || (proto =?s "udp").

(** ** output.go *)

Definition destination_addr (s : string) : option Addr :=
  match ParseAddr s with
  | Some a => Some a
  | None => p ← ParsePrefix s; Some (PAddr p)
  end.

Definition validate_output_rule (rule : OutputRule) : result string unit :=
  fail_if (negb (validPort (o_Port rule)) || negb (tcp_or_udp (o_Proto rule)))
    "nft: invalid output port/protocol";;
  fail_if (negb (is_empty (o_Family rule)) && negb (o_Family rule =?s "ip")
           && negb (o_Family rule =?s "ip6")) "nft: invalid output family";;
  fail_if (negb (is_empty (o_Interface rule)) && negb (validInterface (o_Interface rule)))
    "nft: invalid output interface";;
  if is_empty (o_Destination rule) then Ok tt
  else match destination_addr (o_Destination rule) with
       | None => Err "nft: invalid output destination"
       | Some addr =>
         fail_if (negb (is_empty (AddrZone addr))
                  || ((o_Family rule =?s "ip") && negb (Is4 addr))
                  || ((o_Family rule =?s "ip6") && Is4 addr))
           "nft: output destination family mismatch"
       end.

Definition validateOutput (output : option OutputPolicy) : result string unit :=
  match output with
  | None => Ok tt
  | Some o =>
    fail_if (negb (Policy o =?s "DROP") && negb (Policy o =?s "ACCEPT"))
      "nft: output policy must be DROP or ACCEPT";;
    for_each validate_output_rule (Rules o)
  end.

(** ** render.go: validate *)

Definition PortDNS : Z := 53.
Definition PortDHCPv4Server : Z := 67.
Definition PortTFTP : Z := 69.
Definition PortHTTP : Z := 80.
Definition PortHTTPS : Z := 443.
Definition PortDHCPv6Client : Z := 546.
Definition PortMDNS : Z := 5353.
Definition PortRPCBind : Z := 111.
Definition PortNFS : Z := 2049.
Definition PortMountd : Z := 20048.
Definition TailnetCGNAT4 : string := "100.64.0.0/10".
Definition TailnetULA6 : string := "fd7a:115c:a1e0::/48".

Definition builtinServices (svc : string) : option (list PortRule) :=
  if svc =?s "mdns" then Some [mkPortRule PortMDNS "udp"]
  else if svc =?s "tftp" then Some [mkPortRule PortTFTP "udp"]
  else if svc =?s "dns" then Some [mkPortRule PortDNS "tcp"; mkPortRule PortDNS "udp"]
  else if svc =?s "dhcp" then Some [mkPortRule PortDHCPv4Server "udp"]
  else if svc =?s "dhcpv6-client" then Some [mkPortRule PortDHCPv6Client "udp"]
  else if svc =?s "http" then Some [mkPortRule PortHTTP "tcp"]
  else if svc =?s "https" then Some [mkPortRule PortHTTPS "tcp"]
  else None.

Definition serviceReplyPorts (svc : string) : list PortRule :=
  if svc =?s "mdns" then [mkPortRule PortMDNS "udp"] else [].

Definition nfsPorts : list Z := [PortRPCBind; PortNFS; PortMountd].

Definition mem_Z (n : Z) (l : list Z) : bool := existsb (Z.eqb n) l.

(** One iteration over the ingress redirects; the state is seenIngress. *)
Definition validate_ingress_rule (seen : list Z) (rule : RedirectRule) : result string (list Z) :=
  if negb (validPort (rr_Port rule)) || negb (validPort (rr_ToPort rule))
     || (rr_Port rule =? rr_ToPort rule) || negb (rr_Proto rule =?s "tcp") || mem_Z (rr_Port rule) seen
  then Err "nft: invalid or duplicate ingress redirect"
  else Ok (rr_Port rule :: seen).

Definition validate_ingress (ingress : option Ingress) : result string unit :=
  match ingress with
  | None => Ok tt
  | Some g =>
    fail_if (bool_decide (i_Interfaces g = []) || (match i_Redirects g with [] => true | _ => false end))
      "nft: ingress requires interfaces and the ports to redirect";;
    for_each (fun iface => check (validInterface iface) ("nft: invalid ingress interface " +++ quote iface))
      (i_Interfaces g);;
    _ ← fold_m validate_ingress_rule [] (i_Redirects g);
    Ok tt
  end.

(** [assigned]: the zone of each interface met so far. *)
Definition assign_iface (name : string) (assigned : gmap string string) (iface : string) :
    result string (gmap string string) :=
  if negb (validInterface iface) then Err ("nft: invalid interface " +++ quote iface)
  else match assigned !! iface with
       | Some previous => Err ("nft: interface " +++ quote iface +++ " repeated in zones "
                               +++ quote previous +++ " and " +++ quote name)
       | None => Ok (<[iface := name]> assigned)
       end.

Definition redirect_key (rule : RedirectRule) : string :=
  rr_Proto rule +++ "/" +++ pretty (rr_Port rule).

Definition validate_zone_redirect (seen : list string) (rule : RedirectRule) :
    result string (list string) :=
  if negb (validPort (rr_Port rule)) || negb (validPort (rr_ToPort rule))
     || (rr_Port rule =? rr_ToPort rule) || negb (tcp_or_udp (rr_Proto rule))
     || mem_str (redirect_key rule) seen
  then Err "nft: invalid or duplicate redirect"
  else Ok (redirect_key rule :: seen).

Definition nfs_source_ok (source : string) : bool :=
  (match ParsePrefix source with Some p => Is4 (PAddr p) | None => false end)
  || (match ParseAddr source with Some a => Is4 a | None => false end).

Definition redirect_only_zone (zone : Zone) : bool :=
  negb (bool_decide (is_Some (SSH zone)) || bool_decide (is_Some (NFS zone))
        || negb (bool_decide (Services zone = [])) || (match Ports zone with [] => false | _ => true end)
        || negb (bool_decide (Forward zone = [])) || Masquerade zone
        || (negb (is_empty (ZTarget zone)) && negb (ZTarget zone =?s "DROP"))).

Definition target_ok (t : string) : bool :=
  is_empty t || equal_fold t "DROP" || equal_fold t "ACCEPT".

(** One iteration of the loop over ds.Zones; the state is (assigned, hasReachableZone). *)
Definition validate_zone (ds : DesiredState) (st : gmap string string * bool) (name : string) :
    result string (gmap string string * bool) :=
  let zone := lookup_default (Zones ds) name zero_zone in
  let '(assigned, reachable) := st in
  fail_if (RedirectOnly ds && negb (redirect_only_zone zone))
    "nft: redirect-only zone cannot contain filtering or forwarding policy";;
  check (zoneName name) ("nft: invalid zone name " +++ quote name);;
  check (target_ok (ZTarget zone)) ("nft: invalid target " +++ quote (ZTarget zone));;
  assigned' ← fold_m (assign_iface name) assigned (Interfaces zone);
  check (match SSH zone with Some p => validPort p | None => true end) "nft: invalid SSH port";;
  for_each (fun r => check (validPort (pr_Port r) && tcp_or_udp (pr_Proto r)) "nft: invalid port rule")
    (Ports zone);;
  _ ← fold_m validate_zone_redirect [] (Redirects zone);
  for_each (fun s => check (nfs_source_ok s) ("nft: NFS source must be an IPv4 address or CIDR: " +++ quote s))
    (default [] (NFS zone));;
  let reachable' := reachable || (name =?s "trusted") || bool_decide (is_Some (SSH zone)) in
  for_each (fun egress => check (bool_decide (is_Some (Zones ds !! egress)))
             ("nft: zone " +++ quote name +++ " forwards to undeclared zone " +++ quote egress))
    (Forward zone);;
  for_each (fun svc => check (bool_decide (is_Some (builtinServices svc)))
             ("nft: zone " +++ quote name +++ " declares unrecognized service " +++ quote svc))
    (Services zone);;
  fail_if (bool_decide (Interfaces zone = [])) ("nft: zone " +++ quote name +++ " declares no interfaces");;
  Ok (assigned', reachable').

(** [order] is the order in which the runtime iterates over ds.Zones. *)
Definition validate (order : list string) (ds : DesiredState) : result string unit :=
  fail_if (RedirectOnly ds && (bool_decide (is_Some (Output ds)) || bool_decide (is_Some (DIngress ds))
           || AllowDNATForward ds)) "nft: redirect-only policy cannot contain output or ingress policy";;
  validateOutput (Output ds);;
  fail_if (bool_decide (Zones ds = ∅)) "nft: no zones declared";;
  validate_ingress (DIngress ds);;
  st ← fold_m (validate_zone ds) (∅, false) order;
  fail_if (negb (snd st) && negb (RedirectOnly ds))
    "nft: no zone declares ssh (and no zone is named trusted): this host would be unreachable".

(** * Render *)

Record ReachabilityGuard := mkGuard { TailscaleInterface : string; GuardPort : Z }.

Definition tableName : string := "stack_ghostd".

Definition itoa (n : Z) : string := pretty n.

(** Texts ending in a newline, as the source writes them. *)
Definition ln (l : list string) : string := concat_str l +++ newline.

Definition sortedZoneNames (zones : gmap string Zone) : list string := sorted_keys zones.
Definition sortedStrings (items : list string) : list string := sort_strings items.

Definition ifaceSet (interfaces : list string) : string :=
  "{ " +++ join ", " (map quote (sortedStrings interfaces)) +++ " }".

Definition ingressOutputDestinations : list (string * string) :=
  [ ("ip", TailnetCGNAT4); ("ip6", TailnetULA6);
    ("ip", "{ 10.0.0.0/8, 172.16.0.0/12, 192.168.0.0/16 }"); ("ip6", "fc00::/7") ].

(** sort.Slice by port (the order among equal ports is the library's). *)
Definition redirect_le (a b : RedirectRule) : Prop := rr_Port a <= rr_Port b.
#[global] Instance redirect_le_dec a b : Decision (redirect_le a b).
Proof. unfold redirect_le. apply _. Defined.

Definition sortedIngressRedirects (ingress : Ingress) : list RedirectRule :=
  merge_sort redirect_le (i_Redirects ingress).

Fixpoint dedup_ports (seen : list Z) (rules : list RedirectRule) : list Z :=
  match rules with
  | [] => []
  | r :: rules' => if mem_Z (rr_ToPort r) seen then dedup_ports seen rules'
                   else rr_ToPort r :: dedup_ports (rr_ToPort r :: seen) rules'
  end.

Definition backendPorts (ingress : Ingress) : list Z :=
  merge_sort Z.le (dedup_ports [] (sortedIngressRedirects ingress)).

Definition portSet (ports : list Z) : string := join ", " (map itoa ports).

Definition zone_of (ds : DesiredState) (name : string) : Zone :=
  lookup_default (Zones ds) name zero_zone.

Definition has_redirects (g : option Ingress) : bool :=
  match g with Some g => match i_Redirects g with [] => false | _ => true end | None => false end.

Definition writeInputChain (ds : DesiredState) (guard : ReachabilityGuard) (names : list string) : string :=
  ln ["  chain input {"] +++
  ln ["    type filter hook input priority 0; policy drop;"] +++
  ln ["    ct state established,related accept"] +++
  ln ["    iifname "; dquote; "lo"; dquote; " accept"] +++
  ln ["    iifname "; dquote; "podman*"; dquote; " udp dport "; itoa PortDNS; " accept"] +++
  ln ["    iifname "; dquote; "podman*"; dquote; " tcp dport "; itoa PortDNS; " accept"] +++
  ln ["    iifname "; dquote; "podman*"; dquote; " udp dport "; itoa PortMDNS; " accept"] +++
  ln ["    meta l4proto ipv6-icmp icmpv6 type { destination-unreachable, packet-too-big, time-exceeded, parameter-problem } accept"] +++
  ln ["    meta l4proto ipv6-icmp icmpv6 type { nd-router-solicit, nd-router-advert, nd-neighbor-solicit, nd-neighbor-advert } ip6 hoplimit 255 accept"] +++
  (if negb (is_empty (TailscaleInterface guard)) && negb (GuardPort guard =? 0) then
     ln ["    iifname "; quote (TailscaleInterface guard); " tcp dport "; itoa (GuardPort guard); " accept"]
   else EmptyString) +++
  concat_str (map (fun name =>
    ln ["    iifname "; ifaceSet (Interfaces (zone_of ds name)); " jump zone_"; name]) names) +++
  (match DIngress ds with
   | Some g => if has_redirects (Some g) then
       ln ["    iifname "; ifaceSet (i_Interfaces g); " tcp dport { "; portSet (backendPorts g); " } accept"]
     else EmptyString
   | None => EmptyString
   end) +++
  ln ["  }"].

Definition writeForwardChain (ds : DesiredState) (names : list string) : string :=
  ln ["  chain forward {"] +++
  ln ["    type filter hook forward priority 0; policy drop;"] +++
  ln ["    ct state established,related accept"] +++
  (if AllowDNATForward ds then ln ["    ct status dnat accept"] else EmptyString) +++
  concat_str (map (fun name =>
    let zone := zone_of ds name in
    concat_str (map (fun egress =>
      ln ["    iifname "; ifaceSet (Interfaces zone); " oifname ";
          ifaceSet (Interfaces (zone_of ds egress)); " accept"]) (sortedStrings (Forward zone)))) names) +++
  ln ["  }"].

Definition write_output_rule (rule : OutputRule) : string :=
  "    " +++
  (if is_empty (o_Family rule) then EmptyString
   else "meta nfproto " +++ (if o_Family rule =?s "ip6" then "ipv6" else "ipv4") +++ " ") +++
  (if is_empty (o_Interface rule) then EmptyString
   else "oifname " +++ quote (o_Interface rule) +++ " ") +++
  (if is_empty (o_Destination rule) then EmptyString
   else (if contains_char ":" (o_Destination rule) then "ip6" else "ip")
        +++ " daddr " +++ o_Destination rule +++ " ") +++
  ln [o_Proto rule; " dport "; itoa (o_Port rule); " accept"].

Definition writeOutputChain (output : option OutputPolicy) : string :=
  match output with
  | None => EmptyString
  | Some o =>
    ln ["  chain output {"] +++
    ln ["    type filter hook output priority 0; policy "; to_lower (Policy o); ";"] +++
    (if EstablishedRelated o then ln ["    ct state established,related accept"] else EmptyString) +++
    (if Loopback o then ln ["    oifname "; dquote; "lo"; dquote; " accept"] else EmptyString) +++
    concat_str (map write_output_rule (Rules o)) +++
    ln ["  }"]
  end.

Definition writePreroutingChain (ds : DesiredState) : string :=
  ln ["  chain prerouting {"] +++
  ln ["    type nat hook prerouting priority -100;"] +++
  concat_str (map (fun name =>
    let zone := zone_of ds name in
    concat_str (map (fun iface =>
      concat_str (map (fun rule =>
        ln ["    iifname "; quote iface; " fib daddr type local "; rr_Proto rule; " dport ";
            itoa (rr_Port rule); " redirect to :"; itoa (rr_ToPort rule)]) (Redirects zone)))
      (sortedStrings (Interfaces zone)))) (sortedZoneNames (Zones ds))) +++
  (match DIngress ds with
   | Some g =>
     concat_str (map (fun iface =>
       concat_str (map (fun rule =>
         ln ["    iifname "; quote iface; " fib daddr type local tcp dport ";
             itoa (rr_Port rule); " dnat to :"; itoa (rr_ToPort rule)]) (sortedIngressRedirects g)))
       (sortedStrings (i_Interfaces g)))
   | None => EmptyString
   end) +++
  ln ["  }"].

Definition writeIngressOutputChain (ds : DesiredState) : string :=
  match DIngress ds with
  | None => EmptyString
  | Some g =>
    if negb (has_redirects (Some g)) then EmptyString else
    ln ["  chain output_redirect {"] +++
    ln ["    type nat hook output priority -100;"] +++
    concat_str (map (fun rule =>
      concat_str (map (fun '(family, prefix) =>
        ln ["    fib daddr type local "; family; " daddr "; prefix; " tcp dport ";
            itoa (rr_Port rule); " redirect to :"; itoa (rr_ToPort rule)]) ingressOutputDestinations))
      (sortedIngressRedirects g)) +++
    ln ["  }"]
  end.

Definition writePostroutingChain (ds : DesiredState) (names : list string) : string :=
  ln ["  chain postrouting {"] +++
  ln ["    type nat hook postrouting priority 100;"] +++
  concat_str (map (fun name =>
    let zone := zone_of ds name in
    if Masquerade zone then
      concat_str (map (fun iface => ln ["    oifname "; quote iface; " masquerade"])
        (sortedStrings (Interfaces zone)))
    else EmptyString) names) +++
  ln ["  }"].

Definition writeZoneChain (name : string) (zone : Zone) : string :=
  ln ["  chain zone_"; name; " {"] +++
  if name =?s "trusted" then ln ["    accept"] +++ ln ["  }"]
  else
  (match SSH zone with
   | Some port => ln ["    tcp dport "; itoa port; " accept"]
   | None => EmptyString
   end) +++
  concat_str (map (fun rule =>
    ln ["    ct status dnat meta l4proto "; rr_Proto rule; " ct original proto-dst "; itoa (rr_Port rule);
        " "; rr_Proto rule; " dport "; itoa (rr_ToPort rule); " accept"]) (Redirects zone)) +++
  concat_str (map (fun export =>
    ln ["    ip saddr "; export; " tcp dport { "; join ", " (map itoa nfsPorts); " } accept"])
    (sortedStrings (default [] (NFS zone)))) +++
  concat_str (map (fun svc =>
    concat_str (map (fun rule =>
      ln ["    "; pr_Proto rule; " sport "; itoa (pr_Port rule); " "; pr_Proto rule; " dport 1024-65535 accept"])
      (serviceReplyPorts svc)) +++
    concat_str (map (fun rule =>
      ln ["    "; pr_Proto rule; " dport "; itoa (pr_Port rule); " accept"])
      (default [] (builtinServices svc)))) (sortedStrings (Services zone))) +++
  concat_str (map (fun rule =>
    ln ["    "; pr_Proto rule; " dport "; itoa (pr_Port rule); " accept"]) (Ports zone)) +++
  (if equal_fold (ZTarget zone) "ACCEPT" then ln ["    accept"] else EmptyString) +++
  ln ["  }"].

(** The interfaces of the zones that open tftp, once per mention of the service. *)
Definition tftp_ifaces (ds : DesiredState) (names : list string) : list string :=
  concat (map (fun name =>
    let zone := zone_of ds name in
    concat (map (fun svc => if svc =?s "tftp" then Interfaces zone else []) (Services zone))) names).

Definition writeTFTPHelper (ds : DesiredState) (names : list string) : string :=
  match tftp_ifaces ds names with
  | [] => EmptyString
  | ifaces =>
    ln ["  ct helper ghost_tftp {"] +++ ln ["    type "; dquote; "tftp"; dquote; " protocol udp"] +++ ln ["  }"] +++
    ln ["  chain tftp_helper {"] +++ ln ["    type filter hook prerouting priority -300; policy accept;"] +++
    ln ["    iifname "; ifaceSet ifaces; " udp dport "; itoa PortTFTP; " ct helper set ";
        dquote; "ghost_tftp"; dquote] +++ ln ["  }"]
  end.

(** The script's head: the table is made, deleted and opened again in one transaction. *)
Definition script_head : string :=
  ln ["# Atomic replacement: ensure the table exists, delete it, then recreate it below."] +++
  ln ["# nft applies this entire file as one transaction; other tables are untouched."] +++
  ln ["add table inet "; tableName] +++
  ln ["delete table inet "; tableName] +++
  ln ["table inet "; tableName; " {"].

Definition Render (order : list string) (ds : DesiredState) (guard : ReachabilityGuard) :
    result string string :=
  fail_if (negb (validInterface (TailscaleInterface guard)) || negb (validPort (GuardPort guard)))
    "nft: invalid reachability guard";;
  validate order ds;;
  let names := sortedZoneNames (Zones ds) in
  if RedirectOnly ds then Ok (script_head +++ writePreroutingChain ds +++ ln ["}"])
  else Ok (script_head +++
    writeTFTPHelper ds names +++
    writeInputChain ds guard names +++
    writeForwardChain ds names +++
    writeOutputChain (Output ds) +++
    writePreroutingChain ds +++
    writeIngressOutputChain ds +++
    writePostroutingChain ds names +++
    concat_str (map (fun name => writeZoneChain name (zone_of ds name)) names) +++
    ln ["}"]).
