(* ===== verification/NftPolicy.v ===== *)
(** What the rendered ruleset says, and what it does to packets.

    [ruleset] is the table Render writes, as a syntax tree; [render_refines] shows that the
    text is its printed form.  [input_accepts] and [forward_accepts] read the filter chains
    the way nft(8) documents it: rules in order, the first accepting rule decides, a jump
    falls through when the zone's chain ends, and the chain's policy decides last. *)

From S2P Require Import Prelude Json NetAddr Nft.
From Stdlib Require Import Ascii.
Local Open Scope Z_scope.

(** * Rules *)

Inductive match_ :=
| CtEstablished
| CtDnat
| Iif (name : string)
| IifSet (names : list string)
| Oif (name : string)
| OifSet (names : list string)
| NfProto (family : string)
| Saddr (text : string)
| Daddr (family text : string)
| FibLocal
| L4Proto (proto : string)
| Icmp6 (types : list string)
| HopLimit (n : Z)
| OrigDport (port : Z)
| Sport (proto : string) (port : Z)
| Dport (proto : string) (port : Z)
| DportSet (proto : string) (ports : list Z)
| DportUser (proto : string).              (* dport 1024-65535 *)

Inductive verdict :=
| Accept
| JumpZone (zone : string)
| RedirectTo (port : Z)
| DnatTo (port : Z)
| MasqueradeAs
| SetHelper.

Record rule := mkRule { r_match : list match_; r_verdict : verdict }.

(** A chain: its name, the line that makes it a base chain, its rules. *)
Record chain := mkChain { c_name : string; c_base : option string; c_rules : list rule }.

Definition print_match (m : match_) : string :=
  match m with
  | CtEstablished => "ct state established,related"
  | CtDnat => "ct status dnat"
  | Iif n => "iifname " +++ quote n
  | IifSet l => "iifname " +++ ifaceSet l
  | Oif n => "oifname " +++ quote n
  | OifSet l => "oifname " +++ ifaceSet l
  | NfProto f => "meta nfproto " +++ f
  | Saddr t => "ip saddr " +++ t
  | Daddr f t => f +++ " daddr " +++ t
  | FibLocal => "fib daddr type local"
  | L4Proto p => "meta l4proto " +++ p
  | Icmp6 ts => "icmpv6 type { " +++ join ", " ts +++ " }"
  | HopLimit n => "ip6 hoplimit " +++ itoa n
  | OrigDport p => "ct original proto-dst " +++ itoa p
  | Sport pr p => pr +++ " sport " +++ itoa p
  | Dport pr p => pr +++ " dport " +++ itoa p
  | DportSet pr ps => pr +++ " dport { " +++ portSet ps +++ " }"
  | DportUser pr => pr +++ " dport 1024-65535"
  end.

Definition print_verdict (v : verdict) : string :=
  match v with
  | Accept => "accept"
  | JumpZone z => "jump zone_" +++ z
  | RedirectTo p => "redirect to :" +++ itoa p
  | DnatTo p => "dnat to :" +++ itoa p
  | MasqueradeAs => "masquerade"
  | SetHelper => "ct helper set " +++ quote "ghost_tftp"
  end.

Definition print_rule (r : rule) : string :=
  ln ["    "; concat_str (map (fun m => print_match m +++ " ") (r_match r)); print_verdict (r_verdict r)].

Definition print_chain (c : chain) : string :=
  ln ["  chain "; c_name c; " {"]
  +++ (match c_base c with Some b => ln ["    "; b] | None => EmptyString end)
  +++ concat_str (map print_rule (c_rules c)) +++ ln ["  }"].

Definition tftp_object : string :=
  ln ["  ct helper ghost_tftp {"] +++ ln ["    type "; dquote; "tftp"; dquote; " protocol udp"] +++ ln ["  }"].

(** * The table of a desired state *)

Definition base_rules (guard : ReachabilityGuard) : list rule :=
    [ mkRule [CtEstablished] Accept;
      mkRule [Iif "lo"] Accept;
      mkRule [Iif "podman*"; Dport "udp" PortDNS] Accept;
      mkRule [Iif "podman*"; Dport "tcp" PortDNS] Accept;
      mkRule [Iif "podman*"; Dport "udp" PortMDNS] Accept;
      mkRule [L4Proto "ipv6-icmp";
              Icmp6 ["destination-unreachable"; "packet-too-big"; "time-exceeded"; "parameter-problem"]] Accept;
      mkRule [L4Proto "ipv6-icmp";
              Icmp6 ["nd-router-solicit"; "nd-router-advert"; "nd-neighbor-solicit"; "nd-neighbor-advert"];
              HopLimit 255] Accept;
      mkRule [Iif (TailscaleInterface guard); Dport "tcp" (GuardPort guard)] Accept ].

Definition input_chain (ds : DesiredState) (guard : ReachabilityGuard) : chain :=
  mkChain "input" (Some "type filter hook input priority 0; policy drop;") (
    base_rules guard
    ++ map (fun name => mkRule [IifSet (Interfaces (zone_of ds name))] (JumpZone name))
         (sortedZoneNames (Zones ds))
    ++ match DIngress ds with
       | Some g => [mkRule [IifSet (i_Interfaces g); DportSet "tcp" (backendPorts g)] Accept]
       | None => []
       end).

Definition forward_chain (ds : DesiredState) : chain :=
  mkChain "forward" (Some "type filter hook forward priority 0; policy drop;") (
    [mkRule [CtEstablished] Accept]
    ++ (if AllowDNATForward ds then [mkRule [CtDnat] Accept] else [])
    ++ concat (map (fun name =>
         map (fun egress => mkRule [IifSet (Interfaces (zone_of ds name));
                                    OifSet (Interfaces (zone_of ds egress))] Accept)
           (sortedStrings (Forward (zone_of ds name)))) (sortedZoneNames (Zones ds)))).

Definition output_rule (r : OutputRule) : rule :=
  mkRule ((if is_empty (o_Family r) then [] else [NfProto (if o_Family r =?s "ip6" then "ipv6" else "ipv4")])
          ++ (if is_empty (o_Interface r) then [] else [Oif (o_Interface r)])
          ++ (if is_empty (o_Destination r) then []
              else [Daddr (if contains_char ":" (o_Destination r) then "ip6" else "ip") (o_Destination r)])
          ++ [Dport (o_Proto r) (o_Port r)]) Accept.

Definition output_chain (o : OutputPolicy) : chain :=
  mkChain "output" (Some ("type filter hook output priority 0; policy " +++ to_lower (Policy o) +++ ";")) (
    (if EstablishedRelated o then [mkRule [CtEstablished] Accept] else [])
    ++ (if Loopback o then [mkRule [Oif "lo"] Accept] else [])
    ++ map output_rule (Rules o)).

Definition prerouting_chain (ds : DesiredState) : chain :=
  mkChain "prerouting" (Some "type nat hook prerouting priority -100;") (
    concat (map (fun name =>
      concat (map (fun iface =>
        map (fun r => mkRule [Iif iface; FibLocal; Dport (rr_Proto r) (rr_Port r)] (RedirectTo (rr_ToPort r)))
          (Redirects (zone_of ds name))) (sortedStrings (Interfaces (zone_of ds name)))))
      (sortedZoneNames (Zones ds)))
    ++ match DIngress ds with
       | Some g =>
         concat (map (fun iface =>
           map (fun r => mkRule [Iif iface; FibLocal; Dport "tcp" (rr_Port r)] (DnatTo (rr_ToPort r)))
             (sortedIngressRedirects g)) (sortedStrings (i_Interfaces g)))
       | None => []
       end).

Definition ingress_output_chain (g : Ingress) : chain :=
  mkChain "output_redirect" (Some "type nat hook output priority -100;") (
    concat (map (fun r =>
      map (fun '(family, prefix) =>
        mkRule [FibLocal; Daddr family prefix; Dport "tcp" (rr_Port r)] (RedirectTo (rr_ToPort r)))
        ingressOutputDestinations) (sortedIngressRedirects g))).

Definition postrouting_chain (ds : DesiredState) : chain :=
  mkChain "postrouting" (Some "type nat hook postrouting priority 100;") (
    concat (map (fun name =>
      if Masquerade (zone_of ds name) then
        map (fun iface => mkRule [Oif iface] MasqueradeAs) (sortedStrings (Interfaces (zone_of ds name)))
      else []) (sortedZoneNames (Zones ds)))).

Definition zone_rules (name : string) (zone : Zone) : list rule :=
  if name =?s "trusted" then [mkRule [] Accept]
  else
    (match SSH zone with Some p => [mkRule [Dport "tcp" p] Accept] | None => [] end)
    ++ map (fun r => mkRule [CtDnat; L4Proto (rr_Proto r); OrigDport (rr_Port r);
                             Dport (rr_Proto r) (rr_ToPort r)] Accept) (Redirects zone)
    ++ map (fun e => mkRule [Saddr e; DportSet "tcp" nfsPorts] Accept)
         (sortedStrings (default [] (NFS zone)))
    ++ concat (map (fun svc =>
         map (fun r => mkRule [Sport (pr_Proto r) (pr_Port r); DportUser (pr_Proto r)] Accept)
           (serviceReplyPorts svc)
         ++ map (fun r => mkRule [Dport (pr_Proto r) (pr_Port r)] Accept)
              (default [] (builtinServices svc))) (sortedStrings (Services zone)))
    ++ map (fun r => mkRule [Dport (pr_Proto r) (pr_Port r)] Accept) (Ports zone)
    ++ (if equal_fold (ZTarget zone) "ACCEPT" then [mkRule [] Accept] else []).

Definition zone_chain (name : string) (zone : Zone) : chain :=
  mkChain ("zone_" +++ name) None (zone_rules name zone).

Definition tftp_chain (ifaces : list string) : chain :=
  mkChain "tftp_helper" (Some "type filter hook prerouting priority -300; policy accept;")
    [mkRule [IifSet ifaces; Dport "udp" PortTFTP] SetHelper].

Definition print_tftp (ds : DesiredState) : string :=
  match tftp_ifaces ds (sortedZoneNames (Zones ds)) with
  | [] => EmptyString
  | ifaces => tftp_object +++ print_chain (tftp_chain ifaces)
  end.

(** The chains of the table in the order Render writes them. *)
Definition ruleset (ds : DesiredState) (guard : ReachabilityGuard) : list chain :=
  [input_chain ds guard; forward_chain ds]
  ++ (match Output ds with Some o => [output_chain o] | None => [] end)
  ++ [prerouting_chain ds]
  ++ (match DIngress ds with Some g => [ingress_output_chain g] | None => [] end)
  ++ [postrouting_chain ds]
  ++ map (fun name => zone_chain name (zone_of ds name)) (sortedZoneNames (Zones ds)).

Definition print_table (ds : DesiredState) (guard : ReachabilityGuard) : string :=
  script_head +++ print_tftp ds +++ concat_str (map print_chain (ruleset ds guard)) +++ ln ["}"].

(** * The text is the printed table *)

Lemma concat_str_map_app {A} (f : A -> string) l1 l2 :
  concat_str (map f (l1 ++ l2)) = concat_str (map f l1) +++ concat_str (map f l2).
Proof. by rewrite map_app, concat_str_app. Qed.

Lemma concat_str_map_concat {A} (f : A -> string) ll :
  concat_str (map f (concat ll)) = concat_str (map (fun l => concat_str (map f l)) ll).
Proof. induction ll as [|l ll IH]; simpl; [done|]. by rewrite concat_str_map_app, IH. Qed.

Lemma concat_str_map_map {A B} (f : B -> string) (g : A -> B) l :
  concat_str (map f (map g l)) = concat_str (map (fun x => f (g x)) l).
Proof. by rewrite map_map. Qed.

Lemma concat_str_ext {A} (f g : A -> string) l :
  (forall x, f x = g x) -> concat_str (map f l) = concat_str (map g l).
Proof. intros Hfg. induction l as [|x l IH]; simpl; [done|]. by rewrite Hfg, IH. Qed.

Ltac print_norm :=
  unfold ln, print_rule, ln; simpl; repeat (rewrite ?append_assoc, ?append_empty_r; simpl); try reflexivity.

Lemma print_input ds guard :
  validInterface (TailscaleInterface guard) = true -> validPort (GuardPort guard) = true ->
  (forall g, DIngress ds = Some g -> has_redirects (Some g) = true) ->
  writeInputChain ds guard (sortedZoneNames (Zones ds)) = print_chain (input_chain ds guard).
Proof.
  intros Hi Hp Hg. unfold writeInputChain, print_chain, input_chain.
  cbn [c_name c_base c_rules]. unfold base_rules. rewrite !concat_str_map_app, concat_str_map_map.
  assert (is_empty (TailscaleInterface guard) = false) as ->.
  { destruct (TailscaleInterface guard); [by vm_compute in Hi|done]. }
  assert ((GuardPort guard =? 0) = false) as ->.
  { unfold validPort in Hp. bool_hyps. apply Z.eqb_neq. lia. }
  rewrite (concat_str_ext (fun x => print_rule _)
    (fun name => ln ["    iifname "; ifaceSet (Interfaces (zone_of ds name)); " jump zone_"; name]))
    by (intros; print_norm).
  generalize (concat_str (map (fun name => ln ["    iifname "; ifaceSet (Interfaces (zone_of ds name));
    " jump zone_"; name]) (sortedZoneNames (Zones ds)))); intros jumps.
  change (quote "lo") with (dquote +++ "lo" +++ dquote).
  destruct (DIngress ds) as [g|]; [rewrite (Hg g eq_refl)|]; cbn [negb andb map]; print_norm.
Qed.

Lemma print_forward ds :
  writeForwardChain ds (sortedZoneNames (Zones ds)) = print_chain (forward_chain ds).
Proof.
  unfold writeForwardChain, print_chain, forward_chain. cbn [c_name c_base c_rules].
  rewrite !concat_str_map_app, concat_str_map_concat, concat_str_map_map.
  rewrite (concat_str_ext (fun x => concat_str (map print_rule _))
    (fun name => concat_str (map (fun egress =>
      ln ["    iifname "; ifaceSet (Interfaces (zone_of ds name)); " oifname ";
          ifaceSet (Interfaces (zone_of ds egress)); " accept"]) (sortedStrings (Forward (zone_of ds name)))))).
  2: { intros name. rewrite concat_str_map_map. apply concat_str_ext. intros. print_norm. }
  set (rest := concat_str _). destruct (AllowDNATForward ds); print_norm.
Qed.

Lemma print_output_rule r : write_output_rule r = print_rule (output_rule r).
Proof.
  unfold write_output_rule, output_rule, print_rule. cbn [r_match r_verdict].
  rewrite !concat_str_map_app.
  destruct (is_empty (o_Family r)), (is_empty (o_Interface r)), (is_empty (o_Destination r)),
    (o_Family r =?s "ip6"), (contains_char ":" (o_Destination r)); print_norm.
Qed.

Lemma print_output o : writeOutputChain (Some o) = print_chain (output_chain o).
Proof.
  unfold writeOutputChain, print_chain, output_chain. cbn [c_name c_base c_rules].
  rewrite !concat_str_map_app, concat_str_map_map.
  rewrite (concat_str_ext (fun x => print_rule (output_rule x)) write_output_rule)
    by (intros; symmetry; apply print_output_rule).
  generalize (concat_str (map write_output_rule (Rules o))); intros rest.
  change (quote "lo") with (dquote +++ "lo" +++ dquote).
  destruct (EstablishedRelated o), (Loopback o); print_norm.
Qed.

Lemma print_prerouting ds : writePreroutingChain ds = print_chain (prerouting_chain ds).
Proof.
  unfold writePreroutingChain, print_chain, prerouting_chain. cbn [c_name c_base c_rules].
  rewrite concat_str_map_app, concat_str_map_concat, concat_str_map_map.
  rewrite (concat_str_ext (fun x => concat_str (map print_rule _))
    (fun name => concat_str (map (fun iface => concat_str (map (fun rule =>
      ln ["    iifname "; quote iface; " fib daddr type local "; rr_Proto rule; " dport ";
          itoa (rr_Port rule); " redirect to :"; itoa (rr_ToPort rule)]) (Redirects (zone_of ds name))))
      (sortedStrings (Interfaces (zone_of ds name)))))).
  2: { intros name. rewrite concat_str_map_concat, concat_str_map_map. apply concat_str_ext.
       intros iface. rewrite concat_str_map_map. apply concat_str_ext. intros. print_norm. }
  destruct (DIngress ds) as [g|]; [|print_norm].
  rewrite concat_str_map_concat, concat_str_map_map.
  rewrite (concat_str_ext (fun x => concat_str (map print_rule _))
    (fun iface => concat_str (map (fun rule =>
      ln ["    iifname "; quote iface; " fib daddr type local tcp dport ";
          itoa (rr_Port rule); " dnat to :"; itoa (rr_ToPort rule)]) (sortedIngressRedirects g)))).
  2: { intros iface. rewrite concat_str_map_map. apply concat_str_ext. intros. print_norm. }
  generalize (concat_str (map (fun iface => concat_str (map (fun rule => ln ["    iifname "; quote iface;
    " fib daddr type local tcp dport "; itoa (rr_Port rule); " dnat to :"; itoa (rr_ToPort rule)])
    (sortedIngressRedirects g))) (sortedStrings (i_Interfaces g)))); intros rest. print_norm.
Qed.

Lemma print_ingress_output ds g :
  DIngress ds = Some g -> has_redirects (Some g) = true ->
  writeIngressOutputChain ds = print_chain (ingress_output_chain g).
Proof.
  intros Hg Hr. unfold writeIngressOutputChain, print_chain, ingress_output_chain.
  rewrite Hg, Hr. cbn [negb c_name c_base c_rules]. rewrite concat_str_map_concat, concat_str_map_map.
  rewrite (concat_str_ext (fun x => concat_str (map print_rule _))
    (fun rule => concat_str (map (fun '(family, prefix) =>
        ln ["    fib daddr type local "; family; " daddr "; prefix; " tcp dport ";
            itoa (rr_Port rule); " redirect to :"; itoa (rr_ToPort rule)]) ingressOutputDestinations))).
  2: { intros r. rewrite concat_str_map_map. apply concat_str_ext. intros [f x]. print_norm. }
  generalize (concat_str (map (fun rule => concat_str (map (fun '(family, prefix) =>
    ln ["    fib daddr type local "; family; " daddr "; prefix; " tcp dport ";
        itoa (rr_Port rule); " redirect to :"; itoa (rr_ToPort rule)]) ingressOutputDestinations))
    (sortedIngressRedirects g))); intros rest. print_norm.
Qed.

Lemma print_postrouting ds :
  writePostroutingChain ds (sortedZoneNames (Zones ds)) = print_chain (postrouting_chain ds).
Proof.
  unfold writePostroutingChain, print_chain, postrouting_chain. cbn [c_name c_base c_rules].
  rewrite concat_str_map_concat, concat_str_map_map.
  rewrite (concat_str_ext (fun x => concat_str (map print_rule _))
    (fun name => if Masquerade (zone_of ds name) then
       concat_str (map (fun iface => ln ["    oifname "; quote iface; " masquerade"])
         (sortedStrings (Interfaces (zone_of ds name)))) else EmptyString)).
  2: { intros name. destruct (Masquerade _); [|done]. rewrite concat_str_map_map.
       apply concat_str_ext. intros. print_norm. }
  generalize (concat_str (map (fun name => if Masquerade (zone_of ds name) then
       concat_str (map (fun iface => ln ["    oifname "; quote iface; " masquerade"])
         (sortedStrings (Interfaces (zone_of ds name)))) else EmptyString) (sortedZoneNames (Zones ds))));
    intros rest. print_norm.
Qed.

Lemma print_service_rules (svcs : list string) :
  concat_str (map print_rule (concat (map (fun svc =>
    map (fun r => mkRule [Sport (pr_Proto r) (pr_Port r); DportUser (pr_Proto r)] Accept) (serviceReplyPorts svc)
    ++ map (fun r => mkRule [Dport (pr_Proto r) (pr_Port r)] Accept) (default [] (builtinServices svc))) svcs)))
  = concat_str (map (fun svc =>
      concat_str (map (fun rule =>
        ln ["    "; pr_Proto rule; " sport "; itoa (pr_Port rule); " "; pr_Proto rule; " dport 1024-65535 accept"])
        (serviceReplyPorts svc)) +++
      concat_str (map (fun rule => ln ["    "; pr_Proto rule; " dport "; itoa (pr_Port rule); " accept"])
        (default [] (builtinServices svc)))) svcs).
Proof.
  rewrite concat_str_map_concat, concat_str_map_map. apply concat_str_ext. intros svc.
  rewrite concat_str_map_app, !concat_str_map_map. f_equal; apply concat_str_ext; intros; print_norm.
Qed.

Lemma print_zone name zone : writeZoneChain name zone = print_chain (zone_chain name zone).
Proof.
  unfold writeZoneChain, print_chain, zone_chain, zone_rules. cbn [c_name c_base c_rules].
  destruct (name =?s "trusted"); [print_norm|].
  rewrite !concat_str_map_app, print_service_rules, !concat_str_map_map.
  rewrite (concat_str_ext (fun x => print_rule (mkRule [CtDnat; _; _; _] Accept)) (fun rule =>
    ln ["    ct status dnat meta l4proto "; rr_Proto rule; " ct original proto-dst "; itoa (rr_Port rule);
        " "; rr_Proto rule; " dport "; itoa (rr_ToPort rule); " accept"])) by (intros; print_norm).
  rewrite (concat_str_ext (fun x => print_rule (mkRule [Saddr x; _] Accept)) (fun export =>
    ln ["    ip saddr "; export; " tcp dport { "; join ", " (map itoa nfsPorts); " } accept"]))
    by (intros; print_norm).
  rewrite (concat_str_ext (fun x => print_rule (mkRule [Dport (pr_Proto x) (pr_Port x)] Accept)) (fun rule =>
    ln ["    "; pr_Proto rule; " dport "; itoa (pr_Port rule); " accept"])) by (intros; print_norm).
  do 4 (set (concat_str (map _ _)) at 1).
  destruct (SSH zone), (equal_fold _ _); print_norm.
Qed.

Lemma print_tftp_helper ds :
  writeTFTPHelper ds (sortedZoneNames (Zones ds)) = print_tftp ds.
Proof.
  unfold writeTFTPHelper, print_tftp, print_chain, tftp_chain, tftp_object.
  destruct (tftp_ifaces _ _) as [|i l]; [done|]. cbn [c_name c_base c_rules map].
  generalize (i :: l) as x. intros x.
  change (quote "ghost_tftp") with (dquote +++ "ghost_tftp" +++ dquote). print_norm.
Qed.

(** ** What validation guarantees *)

Lemma validate_ingress_redirects ds g order :
  validate order ds = Ok tt -> DIngress ds = Some g -> has_redirects (Some g) = true.
Proof.
  intros Hv Hg. unfold validate in Hv. rewrite !seq_ok in Hv.
  destruct Hv as (_ & _ & _ & Hi & _). rewrite Hg in Hi. unfold validate_ingress in Hi.
  rewrite seq_ok, fail_if_ok in Hi. destruct Hi as [Hi _]. simpl.
  apply orb_false_elim in Hi as [_ Hi]. by destruct (i_Redirects g).
Qed.

Lemma rendered order ds guard text :
  Render order ds guard = Ok text -> RedirectOnly ds = false -> text = print_table ds guard.
Proof.
  unfold Render. rewrite !seq_ok, fail_if_ok. intros (Hg & Hv & Hr) Hro. rewrite Hro in Hr.
  apply Ok_inj in Hr as <-. apply orb_false_elim in Hg as [Hi Hp]. apply negb_false_iff in Hi, Hp.
  pose proof (fun g => validate_ingress_redirects ds g order Hv) as Hred.
  unfold print_table, ruleset. rewrite !concat_str_map_app, concat_str_map_map.
  rewrite print_tftp_helper, (print_input ds guard Hi Hp Hred), print_forward, print_prerouting, print_postrouting.
  rewrite (concat_str_ext (fun x => print_chain (zone_chain x (zone_of ds x)))
    (fun name => writeZoneChain name (zone_of ds name))) by (intros; symmetry; apply print_zone).
  destruct (Output ds) as [o|]; [rewrite print_output|];
    (destruct (DIngress ds) as [g|] eqn:Eg;
     [rewrite (print_ingress_output ds g Eg (Hred g eq_refl))
     |unfold writeIngressOutputChain; rewrite Eg]);
    cbn [map concat_str]; rewrite ?append_assoc, ?append_empty_r; reflexivity.
Qed.

Lemma rendered_redirects order ds guard text :
  Render order ds guard = Ok text -> RedirectOnly ds = true ->
  text = script_head +++ print_chain (prerouting_chain ds) +++ ln ["}"].
Proof.
  unfold Render. rewrite !seq_ok, fail_if_ok. intros (_ & _ & Hr) Hro. rewrite Hro in Hr.
  apply Ok_inj in Hr as <-. by rewrite print_prerouting.
Qed.

(** C37: Render writes the declared table.  Whenever Render succeeds on a full policy, the text
    is exactly the printed form of [ruleset]: the table is replaced in one script, and its
    chains are the ones the desired state and the reachability guard define, in order. *)
Theorem render_refines order ds guard text :
  Render order ds guard = Ok text -> RedirectOnly ds = false -> text = print_table ds guard.
Proof. apply rendered. Qed.

(** * Packets *)

Record packet := mkPacket {
  p_iif : string; p_oif : string;
  p_established : bool; p_dnat : bool; p_orig_dport : Z;
  p_proto : string; p_sport : Z; p_dport : Z;
  p_src : Addr; p_dst : Addr; p_local : bool;
  p_icmp6 : string; p_hoplimit : Z;
}.

(** A trailing star is a wildcard. *)
Definition name_matches (pat n : string) : bool :=
  match rev (string_chars pat) with
  | "*"%char :: r => has_prefix n (string_of_chars (rev r))
  | _ => pat =?s n
  end.

Definition source_in (text : string) (a : Addr) : bool :=
  match ParseAddr text with
  | Some b => bool_decide (a = b)
  | None => match ParsePrefix text with Some p => Contains p a | None => false end
  end.

Definition matches (pkt : packet) (m : match_) : bool :=
  match m with
  | CtEstablished => p_established pkt
  | CtDnat => p_dnat pkt
  | Iif n => name_matches n (p_iif pkt)
  | IifSet l => mem_str (p_iif pkt) l
  | Oif n => name_matches n (p_oif pkt)
  | OifSet l => mem_str (p_oif pkt) l
  | NfProto f => Bool.eqb (f =?s "ipv4") (Is4 (p_dst pkt))
  | Saddr t => Is4 (p_src pkt) && source_in t (p_src pkt)
  | Daddr f t => Bool.eqb (f =?s "ip") (Is4 (p_dst pkt)) && source_in t (p_dst pkt)
  | FibLocal => p_local pkt
  | L4Proto p => p_proto pkt =?s p
  | Icmp6 ts => mem_str (p_icmp6 pkt) ts
  | HopLimit n => p_hoplimit pkt =? n
  | OrigDport p => p_orig_dport pkt =? p
  | Sport pr p => (p_proto pkt =?s pr) && (p_sport pkt =? p)
  | Dport pr p => (p_proto pkt =?s pr) && (p_dport pkt =? p)
  | DportSet pr ps => (p_proto pkt =?s pr) && mem_Z (p_dport pkt) ps
  | DportUser pr => (p_proto pkt =?s pr) && (1024 <=? p_dport pkt) && (p_dport pkt <=? 65535)
  end.

(** Whether the rules accept the packet; [call z] is what the chain of zone [z] does.  No
    rule of this table drops, so a chain either accepts or falls through. *)
Fixpoint run (call : string -> bool) (pkt : packet) (rules : list rule) : bool :=
  match rules with
  | [] => false
  | r :: rules' =>
    if forallb (matches pkt) (r_match r) then
      match r_verdict r with
      | Accept => true
      | JumpZone z => if call z then true else run call pkt rules'
      | _ => run call pkt rules'
      end
    else run call pkt rules'
  end.

Definition find_chain (name : string) (t : list chain) : list rule :=
  match find (fun c => c_name c =?s name) t with Some c => c_rules c | None => [] end.

Definition call_zone (t : list chain) (pkt : packet) (z : string) : bool :=
  run (fun _ => false) pkt (find_chain ("zone_" +++ z) t).

Definition input_accepts (t : list chain) (pkt : packet) : bool :=
  run (call_zone t pkt) pkt (find_chain "input" t).

Definition forward_accepts (t : list chain) (pkt : packet) : bool :=
  run (call_zone t pkt) pkt (find_chain "forward" t).

(** ** What a policy declares *)

Definition base_admits (guard : ReachabilityGuard) (pkt : packet) : Prop :=
  p_established pkt = true
  \/ p_iif pkt = "lo"
  \/ (has_prefix (p_iif pkt) "podman" = true
      /\ ((p_proto pkt = "udp" /\ p_dport pkt = PortDNS) \/ (p_proto pkt = "tcp" /\ p_dport pkt = PortDNS)
          \/ (p_proto pkt = "udp" /\ p_dport pkt = PortMDNS)))
  \/ (p_proto pkt = "ipv6-icmp"
      /\ (p_icmp6 pkt ∈ ["destination-unreachable"; "packet-too-big"; "time-exceeded"; "parameter-problem"]
          \/ (p_icmp6 pkt ∈ ["nd-router-solicit"; "nd-router-advert"; "nd-neighbor-solicit"; "nd-neighbor-advert"]
              /\ p_hoplimit pkt = 255)))
  \/ (p_iif pkt = TailscaleInterface guard /\ p_proto pkt = "tcp" /\ p_dport pkt = GuardPort guard).

Definition port_open (rules : list PortRule) (pkt : packet) : Prop :=
  exists r, r ∈ rules /\ p_proto pkt = pr_Proto r /\ p_dport pkt = pr_Port r.

Definition service_open (svc : string) (pkt : packet) : Prop :=
  port_open (default [] (builtinServices svc)) pkt
  \/ exists r, r ∈ serviceReplyPorts svc /\ p_proto pkt = pr_Proto r /\ p_sport pkt = pr_Port r
       /\ 1024 <= p_dport pkt <= 65535.

Definition zone_admits (name : string) (zone : Zone) (pkt : packet) : Prop :=
  name = "trusted"
  \/ (p_proto pkt = "tcp" /\ SSH zone = Some (p_dport pkt))
  \/ (exists r, r ∈ Redirects zone /\ p_dnat pkt = true /\ p_proto pkt = rr_Proto r
        /\ p_orig_dport pkt = rr_Port r /\ p_dport pkt = rr_ToPort r)
  \/ (exists e, e ∈ default [] (NFS zone) /\ Is4 (p_src pkt) = true /\ source_in e (p_src pkt) = true
        /\ p_proto pkt = "tcp" /\ p_dport pkt ∈ nfsPorts)
  \/ (exists svc, svc ∈ Services zone /\ service_open svc pkt)
  \/ port_open (Ports zone) pkt
  \/ equal_fold (ZTarget zone) "ACCEPT" = true.

Definition input_policy (ds : DesiredState) (guard : ReachabilityGuard) (pkt : packet) : Prop :=
  base_admits guard pkt
  \/ (exists name zone, Zones ds !! name = Some zone /\ p_iif pkt ∈ Interfaces zone
        /\ zone_admits name zone pkt)
  \/ (exists g r, DIngress ds = Some g /\ p_iif pkt ∈ i_Interfaces g /\ r ∈ i_Redirects g
        /\ p_proto pkt = "tcp" /\ p_dport pkt = rr_ToPort r).

Definition forward_policy (ds : DesiredState) (pkt : packet) : Prop :=
  p_established pkt = true
  \/ (AllowDNATForward ds = true /\ p_dnat pkt = true)
  \/ (exists name zone egress, Zones ds !! name = Some zone /\ egress ∈ Forward zone
        /\ p_iif pkt ∈ Interfaces zone /\ p_oif pkt ∈ Interfaces (zone_of ds egress)).

(** ** The chains accept exactly that *)

Definition fires (call : string -> bool) (pkt : packet) (r : rule) : Prop :=
  forallb (matches pkt) (r_match r) = true
  /\ (r_verdict r = Accept \/ exists z, r_verdict r = JumpZone z /\ call z = true).

Lemma exists_cons {A} (P : A -> Prop) x l :
  (exists y, y ∈ x :: l /\ P y) <-> P x \/ exists y, y ∈ l /\ P y.
Proof.
  split.
  - intros (y & Hy & HP). apply elem_of_cons in Hy as [->|Hy]; [by left|right; eauto].
  - intros [HP|(y & Hy & HP)]; [exists x|exists y]; (split; [|done]); [left|by right].
Qed.

Lemma exists_nil {A} (P : A -> Prop) : (exists y, y ∈ [] /\ P y) <-> False.
Proof. split; [|done]. intros (y & Hy & _). by apply elem_of_nil in Hy. Qed.

Lemma run_cons call pkt r rules :
  run call pkt (r :: rules) = true <-> fires call pkt r \/ run call pkt rules = true.
Proof.
  unfold fires. simpl. destruct (forallb _ _).
  - destruct (r_verdict r) as [|z|p|p| |].
    + split; [|done]. intros _. left. auto.
    + destruct (call z) eqn:Ez; (split; [intros ?|intros [[_ [?|(z' & [= <-] & ?)]]|?]]); auto; try congruence.
      left. split; [done|]. right. eauto.
    + split; [auto|]. by intros [[_ [?|(z' & ? & ?)]]|?].
    + split; [auto|]. by intros [[_ [?|(z' & ? & ?)]]|?].
    + split; [auto|]. by intros [[_ [?|(z' & ? & ?)]]|?].
    + split; [auto|]. by intros [[_ [?|(z' & ? & ?)]]|?].
  - split; [auto|]. by intros [[? _]|?].
Qed.

Lemma run_fires call pkt rules :
  run call pkt rules = true <-> exists r, r ∈ rules /\ fires call pkt r.
Proof.
  induction rules as [|r rules IH]; [by rewrite exists_nil|].
  by rewrite exists_cons, run_cons, IH.
Qed.

Lemma run_app call pkt l1 l2 :
  run call pkt (l1 ++ l2) = true <-> run call pkt l1 = true \/ run call pkt l2 = true.
Proof.
  induction l1 as [|r l1 IH]; simpl app; [simpl; intuition done|]. rewrite !run_cons, IH. tauto.
Qed.

Lemma run_map {A} call pkt (f : A -> rule) l :
  run call pkt (map f l) = true <-> exists x, x ∈ l /\ fires call pkt (f x).
Proof.
  induction l as [|x l IH]; [by rewrite exists_nil|]. simpl map. by rewrite exists_cons, run_cons, IH.
Qed.

Lemma run_concat {A} call pkt (f : A -> list rule) l :
  run call pkt (concat (map f l)) = true <-> exists x, x ∈ l /\ run call pkt (f x) = true.
Proof.
  induction l as [|x l IH]; [by rewrite exists_nil|]. simpl map. simpl concat. by rewrite exists_cons, run_app, IH.
Qed.

Lemma fires_accept call pkt ms : fires call pkt (mkRule ms Accept) <-> Forall (fun m => matches pkt m = true) ms.
Proof.
  unfold fires; simpl. rewrite forallb_forall, List.Forall_forall. split; [by intros [? _] | auto].
Qed.

Lemma fires_jump call pkt ms z :
  fires call pkt (mkRule ms (JumpZone z)) <-> Forall (fun m => matches pkt m = true) ms /\ call z = true.
Proof.
  unfold fires; simpl. rewrite forallb_forall, List.Forall_forall. split.
  - intros [? [?|(z' & [= <-] & ?)]]; done.
  - intros [? ?]. split; [done|]. right. eauto.
Qed.

Lemma mem_Z_spec n l : mem_Z n l = true <-> n ∈ l.
Proof.
  unfold mem_Z. rewrite existsb_exists. setoid_rewrite list_elem_of_In. split.
  - intros (x & ? & ->%Z.eqb_eq). done.
  - intros ?. exists n. by rewrite Z.eqb_refl.
Qed.

Lemma find_chain_skip name c t :
  c_name c <> name -> find_chain name (c :: t) = find_chain name t.
Proof. intros Hne. unfold find_chain. simpl. by rewrite (proj2 (String.eqb_neq _ _) Hne). Qed.

Lemma find_chain_head name c t : c_name c = name -> find_chain name (c :: t) = c_rules c.
Proof. intros <-. unfold find_chain. simpl. by rewrite String.eqb_refl. Qed.

Lemma find_zone_chain ds name names :
  name ∈ names ->
  find_chain ("zone_" +++ name) (map (fun n => zone_chain n (zone_of ds n)) names)
  = zone_rules name (zone_of ds name).
Proof.
  induction names as [|n names IH]; [by intros ?%elem_of_nil|]. intros Hin. simpl map.
  destruct (decide (n = name)) as [->|Hne]; [by rewrite find_chain_head|].
  rewrite find_chain_skip.
  - apply IH. apply elem_of_cons in Hin as [?|?]; [by subst|done].
  - simpl. intros [= ?]. done.
Qed.

Lemma find_zone ds guard name :
  is_Some (Zones ds !! name) ->
  find_chain ("zone_" +++ name) (ruleset ds guard) = zone_rules name (zone_of ds name).
Proof.
  intros Hz. apply elem_of_sorted_keys in Hz. unfold ruleset.
  destruct (Output ds), (DIngress ds); cbn [app]; rewrite !find_chain_skip by done;
    by apply find_zone_chain.
Qed.

Lemma find_input ds guard : find_chain "input" (ruleset ds guard) = c_rules (input_chain ds guard).
Proof. reflexivity. Qed.

Lemma find_forward ds guard : find_chain "forward" (ruleset ds guard) = c_rules (forward_chain ds).
Proof. unfold ruleset. cbn [app]. rewrite find_chain_skip by done. by rewrite find_chain_head. Qed.

(** Interface names have no wildcard. *)
Lemma name_matches_plain pat n : contains_char "*" pat = false -> name_matches pat n = (pat =?s n).
Proof.
  intros Hs. unfold name_matches. destruct (rev (string_chars pat)) as [|c r] eqn:E; [done|].
  assert (Hc : c <> "*"%char).
  { intros ->. enough (contains_char "*" pat = true) by congruence.
    unfold contains_char. apply existsb_exists. exists "*"%char. split; [|done].
    apply in_rev. rewrite E. by left. }
  destruct c as [[] [] [] [] [] [] [] []]; try done; by destruct Hc.
Qed.

Lemma validInterface_plain n : validInterface n = true -> contains_char "*" n = false.
Proof.
  intros Hv. unfold validInterface in Hv. bool_hyps. unfold str_forallb in *.
  apply not_true_is_false. intros Hc. unfold contains_char in Hc.
  apply existsb_exists in Hc as (c & Hin & <-%Ascii.eqb_eq).
  match goal with H : forallb _ _ = true |- _ => rewrite forallb_forall in H; specialize (H _ Hin) end.
  done.
Qed.

(** The tests of a rule as propositions. *)
Lemma matches_Dport pkt pr p :
  matches pkt (Dport pr p) = true <-> p_proto pkt = pr /\ p_dport pkt = p.
Proof. simpl. by rewrite andb_true_iff, String.eqb_eq, Z.eqb_eq. Qed.

Lemma matches_Sport pkt pr p :
  matches pkt (Sport pr p) = true <-> p_proto pkt = pr /\ p_sport pkt = p.
Proof. simpl. by rewrite andb_true_iff, String.eqb_eq, Z.eqb_eq. Qed.

Lemma matches_DportSet pkt pr ps :
  matches pkt (DportSet pr ps) = true <-> p_proto pkt = pr /\ p_dport pkt ∈ ps.
Proof. simpl. by rewrite andb_true_iff, String.eqb_eq, mem_Z_spec. Qed.

Lemma matches_DportUser pkt pr :
  matches pkt (DportUser pr) = true <-> p_proto pkt = pr /\ 1024 <= p_dport pkt <= 65535.
Proof. simpl. rewrite !andb_true_iff, String.eqb_eq, !Z.leb_le. tauto. Qed.

Lemma matches_L4Proto pkt p : matches pkt (L4Proto p) = true <-> p_proto pkt = p.
Proof. apply String.eqb_eq. Qed.

Lemma matches_OrigDport pkt p : matches pkt (OrigDport p) = true <-> p_orig_dport pkt = p.
Proof. apply Z.eqb_eq. Qed.

Lemma matches_IifSet pkt l : matches pkt (IifSet l) = true <-> p_iif pkt ∈ l.
Proof. apply mem_str_spec. Qed.

Lemma matches_OifSet pkt l : matches pkt (OifSet l) = true <-> p_oif pkt ∈ l.
Proof. apply mem_str_spec. Qed.

Lemma matches_Saddr pkt t :
  matches pkt (Saddr t) = true <-> Is4 (p_src pkt) = true /\ source_in t (p_src pkt) = true.
Proof. apply andb_true_iff. Qed.

Lemma matches_Icmp6 pkt ts : matches pkt (Icmp6 ts) = true <-> p_icmp6 pkt ∈ ts.
Proof. apply mem_str_spec. Qed.

Lemma matches_HopLimit pkt n : matches pkt (HopLimit n) = true <-> p_hoplimit pkt = n.
Proof. apply Z.eqb_eq. Qed.

Create Rewrite HintDb nft_rw.
#[export] Hint Rewrite @fires_accept fires_jump @Forall_cons @Forall_nil matches_Dport matches_Sport
  matches_DportSet matches_DportUser matches_L4Proto matches_OrigDport matches_IifSet matches_OifSet
  matches_Saddr matches_Icmp6 matches_HopLimit : nft_rw.

Lemma run_optional call pkt (b : bool) r :
  run call pkt (if b then [r] else []) = true <-> b = true /\ fires call pkt r.
Proof.
  destruct b; [|by split; [|intros [? _]]]. rewrite run_cons.
  split; [intros [?|?]; done | intros [_ ?]; by left].
Qed.

Lemma ex_iff {A} (P Q : A -> Prop) : (forall x, P x <-> Q x) -> ex P <-> ex Q.
Proof. intros HPQ. split; intros [x Hx]; exists x; by apply HPQ. Qed.

Ltac ex_rules := apply ex_iff; intros ?; autorewrite with nft_rw; unfold sortedStrings;
  rewrite ?elem_of_sort_strings; simpl; tauto.

Lemma ssh_rules call pkt (o : option Z) :
  run call pkt (match o with Some p => [mkRule [Dport "tcp" p] Accept] | None => [] end) = true
  <-> p_proto pkt = "tcp" /\ o = Some (p_dport pkt).
Proof.
  destruct o as [p|]; [|by split; [|intros [_ ?]]].
  rewrite run_cons, fires_accept, Forall_cons, Forall_nil, matches_Dport. split.
  - intros [[[? ->] _]|?]; done.
  - intros [? [= ->]]. by left.
Qed.

Lemma port_rules call pkt rules :
  (exists r, r ∈ rules /\ fires call pkt (mkRule [Dport (pr_Proto r) (pr_Port r)] Accept))
  <-> port_open rules pkt.
Proof. unfold port_open. ex_rules. Qed.

Lemma service_rules call pkt svcs :
  (exists svc, svc ∈ sortedStrings svcs /\
     run call pkt (map (fun r => mkRule [Sport (pr_Proto r) (pr_Port r); DportUser (pr_Proto r)] Accept)
                     (serviceReplyPorts svc)
                   ++ map (fun r => mkRule [Dport (pr_Proto r) (pr_Port r)] Accept)
                     (default [] (builtinServices svc))) = true)
  <-> exists svc, svc ∈ svcs /\ service_open svc pkt.
Proof.
  apply ex_iff. intros svc. unfold sortedStrings. rewrite elem_of_sort_strings, run_app, !run_map, port_rules.
  unfold service_open.
  assert ((exists x, x ∈ serviceReplyPorts svc /\
    fires call pkt (mkRule [Sport (pr_Proto x) (pr_Port x); DportUser (pr_Proto x)] Accept)) <->
    exists r, r ∈ serviceReplyPorts svc /\ p_proto pkt = pr_Proto r /\ p_sport pkt = pr_Port r
      /\ 1024 <= p_dport pkt <= 65535) as -> by ex_rules. tauto.
Qed.

Lemma zone_rules_exact call pkt name zone :
  run call pkt (zone_rules name zone) = true <-> zone_admits name zone pkt.
Proof.
  unfold zone_rules, zone_admits. destruct (name =?s "trusted") eqn:En.
  - apply String.eqb_eq in En. split; [by left|]. intros _. apply run_cons. left. by rewrite fires_accept.
  - apply String.eqb_neq in En.
    rewrite !run_app, run_concat, !run_map, run_optional, ssh_rules, service_rules, port_rules.
    rewrite fires_accept, Forall_nil.
    assert ((exists x, x ∈ Redirects zone /\ fires call pkt (mkRule [CtDnat; L4Proto (rr_Proto x);
        OrigDport (rr_Port x); Dport (rr_Proto x) (rr_ToPort x)] Accept)) <->
      exists r, r ∈ Redirects zone /\ p_dnat pkt = true /\ p_proto pkt = rr_Proto r
        /\ p_orig_dport pkt = rr_Port r /\ p_dport pkt = rr_ToPort r) as -> by ex_rules.
    assert ((exists x, x ∈ sortedStrings (default [] (NFS zone)) /\
        fires call pkt (mkRule [Saddr x; DportSet "tcp" nfsPorts] Accept)) <->
      exists e, e ∈ default [] (NFS zone) /\ Is4 (p_src pkt) = true /\ source_in e (p_src pkt) = true
        /\ p_proto pkt = "tcp" /\ p_dport pkt ∈ nfsPorts) as -> by ex_rules.
    tauto.
Qed.

Lemma elem_of_dedup_ports n seen rules :
  n ∈ dedup_ports seen rules <-> (n ∉ seen) /\ exists r, r ∈ rules /\ n = rr_ToPort r.
Proof.
  revert seen. induction rules as [|r rules IH]; intros seen; simpl.
  - rewrite exists_nil. set_solver.
  - rewrite exists_cons. destruct (mem_Z (rr_ToPort r) seen) eqn:E.
    + apply mem_Z_spec in E. rewrite IH. split; [tauto|]. intros [Hn [->|?]]; [done|tauto].
    + assert (rr_ToPort r ∉ seen) by (rewrite <- mem_Z_spec; congruence).
      rewrite elem_of_cons, IH. split.
      * intros [->|[Hn He]]; [tauto|]. apply not_elem_of_cons in Hn as [_ Hn]. tauto.
      * intros [Hn [->|He]]; [by left|]. destruct (decide (n = rr_ToPort r)) as [->|Hne]; [by left|].
        right. split; [|done]. by apply not_elem_of_cons.
Qed.

Lemma elem_of_backendPorts n g :
  n ∈ backendPorts g <-> exists r, r ∈ i_Redirects g /\ n = rr_ToPort r.
Proof.
  unfold backendPorts. rewrite merge_sort_Permutation, elem_of_dedup_ports.
  unfold sortedIngressRedirects. split.
  - intros (_ & r & Hr & ->). exists r. by rewrite merge_sort_Permutation in Hr.
  - intros (r & Hr & ->). split; [set_solver|]. exists r. by rewrite merge_sort_Permutation.
Qed.

Lemma eq_comm {A} (x y : A) : x = y <-> y = x.
Proof. by split. Qed.

Lemma base_rules_exact call guard pkt :
  validInterface (TailscaleInterface guard) = true ->
  run call pkt (base_rules guard) = true <-> base_admits guard pkt.
Proof.
  intros Hv. unfold base_rules, base_admits.
  rewrite !run_cons. autorewrite with nft_rw. cbn [matches run].
  rewrite (name_matches_plain (TailscaleInterface guard)) by (by apply validInterface_plain).
  change (name_matches "podman*" (p_iif pkt)) with (has_prefix (p_iif pkt) "podman").
  change (name_matches "lo" (p_iif pkt)) with (("lo" : string) =?s p_iif pkt).
  rewrite !String.eqb_eq. rewrite !(eq_comm _ (p_iif pkt)).
  split.
  - intros [[? _]|[[? _]|[(?&?&_)|[(?&?&_)|[(?&?&_)|[(?&?&_)|[(?&?&?&_)|[(?&?&_)|?]]]]]]]]; try done; tauto.
  - intros [?|[?|[(?&[?|[?|?]])|[(?&[?|?])|?]]]]; tauto.
Qed.

Lemma zone_of_Some ds name zone : Zones ds !! name = Some zone -> zone_of ds name = zone.
Proof. unfold zone_of, lookup_default. by intros ->. Qed.

Lemma input_accepts_spec ds guard pkt :
  validInterface (TailscaleInterface guard) = true ->
  input_accepts (ruleset ds guard) pkt = true <-> input_policy ds guard pkt.
Proof.
  intros Hv. unfold input_accepts. rewrite find_input. unfold input_chain. cbn [c_rules].
  rewrite !run_app, run_map, base_rules_exact by done. unfold input_policy.
  assert ((exists x, x ∈ sortedZoneNames (Zones ds) /\ fires (call_zone (ruleset ds guard) pkt) pkt
      (mkRule [IifSet (Interfaces (zone_of ds x))] (JumpZone x))) <->
    exists name zone, Zones ds !! name = Some zone /\ p_iif pkt ∈ Interfaces zone
      /\ zone_admits name zone pkt) as ->.
  { apply ex_iff. intros name. unfold sortedZoneNames. autorewrite with nft_rw.
    rewrite elem_of_sorted_keys. unfold call_zone. split.
    - intros ([zone Hz] & [Hi _] & Hc). exists zone. rewrite find_zone, zone_rules_exact in Hc by eauto.
      by rewrite (zone_of_Some _ _ _ Hz) in *.
    - intros (zone & Hz & Hi & Hc). rewrite find_zone, zone_rules_exact by eauto.
      rewrite (zone_of_Some _ _ _ Hz). split; [eauto | done]. }
  assert (run (call_zone (ruleset ds guard) pkt) pkt match DIngress ds with
      | Some g => [mkRule [IifSet (i_Interfaces g); DportSet "tcp" (backendPorts g)] Accept]
      | None => [] end = true <->
    exists g r, DIngress ds = Some g /\ p_iif pkt ∈ i_Interfaces g /\ r ∈ i_Redirects g
        /\ p_proto pkt = "tcp" /\ p_dport pkt = rr_ToPort r) as ->; [|done].
  destruct (DIngress ds) as [g|]; [|split; [done|]; by intros (g & r & ? & _)].
  rewrite run_cons. autorewrite with nft_rw. rewrite elem_of_backendPorts. split.
  - intros [(Hi & (Hp & r & Hr & Hd) & _)|?]; [|done]. exists g, r. done.
  - intros (g' & r & [= <-] & Hi & Hr & Hp & Hd). left. eauto 10.
Qed.

Lemma forward_accepts_spec ds guard pkt :
  forward_accepts (ruleset ds guard) pkt = true <-> forward_policy ds pkt.
Proof.
  unfold forward_accepts. rewrite find_forward. unfold forward_chain. cbn [c_rules].
  rewrite !run_app, run_cons, run_optional, run_concat. autorewrite with nft_rw.
  unfold forward_policy. cbn [matches run].
  assert ((exists x, x ∈ sortedZoneNames (Zones ds) /\ run (call_zone (ruleset ds guard) pkt) pkt
      (map (fun egress => mkRule [IifSet (Interfaces (zone_of ds x)); OifSet (Interfaces (zone_of ds egress))]
         Accept) (sortedStrings (Forward (zone_of ds x)))) = true) <->
    exists name zone egress, Zones ds !! name = Some zone /\ egress ∈ Forward zone
        /\ p_iif pkt ∈ Interfaces zone /\ p_oif pkt ∈ Interfaces (zone_of ds egress)) as ->.
  { apply ex_iff. intros name. unfold sortedZoneNames. rewrite elem_of_sorted_keys, run_map. split.
    - intros ([zone Hz] & egress & He & Hf). autorewrite with nft_rw in Hf.
      unfold sortedStrings in He. rewrite elem_of_sort_strings in He.
      rewrite (zone_of_Some _ _ _ Hz) in *. exists zone, egress. tauto.
    - intros (zone & egress & Hz & He & Hi & Ho). split; [eauto|]. exists egress.
      autorewrite with nft_rw. unfold sortedStrings. rewrite elem_of_sort_strings.
      rewrite (zone_of_Some _ _ _ Hz). done. }
  split.
  - intros [[[? _]|?]|[(? & ? & _)|?]]; try done; tauto.
  - intros [?|[[? ?]|?]]; tauto.
Qed.

Lemma Render_ok order ds guard text :
  Render order ds guard = Ok text ->
  validInterface (TailscaleInterface guard) = true /\ validPort (GuardPort guard) = true
  /\ validate order ds = Ok tt.
Proof.
  unfold Render. rewrite !seq_ok, fail_if_ok. intros (Hg & Hv & _).
  apply orb_false_elim in Hg as [Hi Hp]. apply negb_false_iff in Hi, Hp. done.
Qed.

(** C35: The input chain is exactly the declared policy.  For every full policy Render
    accepts, the text is the printed form of a table whose input chain hooks the input with
    policy drop and accepts a packet if and only if it is established, local, one of the
    fixed container, ICMPv6 and reachability-guard cases, comes in on an interface of a zone
    that admits it, or is ingress traffic to a translated port.  For a redirect-only state
    the text is a table with the nat prerouting chain alone, so it filters nothing. *)
Theorem input_exact order ds guard text :
  Render order ds guard = Ok text ->
  if RedirectOnly ds then text = script_head +++ print_chain (prerouting_chain ds) +++ ln ["}"]
  else text = print_table ds guard
    /\ (exists c, find (fun c => c_name c =?s "input") (ruleset ds guard) = Some c
          /\ c_base c = Some "type filter hook input priority 0; policy drop;")
    /\ forall pkt, input_accepts (ruleset ds guard) pkt = true <-> input_policy ds guard pkt.
Proof.
  intros Hr. destruct (RedirectOnly ds) eqn:Ero; [by apply (rendered_redirects order ds guard)|].
  split_and!; [by apply (rendered order)|by exists (input_chain ds guard)|].
  intros pkt. apply Render_ok in Hr as (Hi & _ & _). by apply input_accepts_spec.
Qed.

(** The forward chain is exactly the declared policy: established flows, flows another
    table translated when the policy asks for them, and flows from a zone to a zone it
    forwards to. *)
Theorem forward_exact ds guard pkt :
  forward_accepts (ruleset ds guard) pkt = true <-> forward_policy ds pkt.
Proof. apply forward_accepts_spec. Qed.

(** The daemon stays reachable.  Whatever full policy Render accepts, the input chain of
    the table it prints accepts a new TCP connection to the guard's port on the guard's
    interface. *)
Theorem guard_reachable order ds guard text pkt :
  Render order ds guard = Ok text -> RedirectOnly ds = false ->
  p_iif pkt = TailscaleInterface guard -> p_proto pkt = "tcp" -> p_dport pkt = GuardPort guard ->
  text = print_table ds guard /\ input_accepts (ruleset ds guard) pkt = true.
Proof.
  intros Hr Hro Hi Hp Hd. split; [by apply (rendered order)|].
  apply Render_ok in Hr as (Hv & _ & _). apply input_accepts_spec; [done|]. left. unfold base_admits. tauto.
Qed.
