(* ===== verification/NftValidate.v ===== *)
(** Validation of a firewall request: which requests pass, and that Go's map iteration order
    does not matter. *)

From S2P Require Import Prelude Json NetAddr Nft NftPolicy.
Local Open Scope Z_scope.

Lemma assign_fold name l a :
  (exists a', fold_m (assign_iface name) a l = Ok a')
  <-> Forall (fun i => validInterface i = true) l /\ NoDup l /\ Forall (fun i => a !! i = None) l.
Proof.
  revert a. induction l as [|i l IH]; intros a; simpl.
  - split; [|by eauto]. intros _. split_and!; constructor.
  - rewrite !Forall_cons, NoDup_cons. unfold assign_iface at 1.
    destruct (validInterface i); simpl; [|split; [by intros [? ?]|naive_solver]].
    destruct (a !! i) as [x|] eqn:Ei; [split; [by intros [? ?]|naive_solver]|].
    rewrite IH, !Forall_forall. split.
    + intros (Hv & Hnd & Hf). split_and!; try done.
      * intros Hin. specialize (Hf i Hin). by rewrite lookup_insert_eq in Hf.
      * intros j Hj. specialize (Hf j Hj). by apply lookup_insert_None in Hf as [? _].
    + intros ((_ & Hv) & (Hni & Hnd) & _ & Hf). split_and!; try done.
      intros j Hj. apply lookup_insert_None. split; [by apply Hf|]. by intros ->.
Qed.

Lemma assign_fold_dom name l a a' :
  fold_m (assign_iface name) a l = Ok a' -> forall j, a' !! j = None <-> a !! j = None /\ j ∉ l.
Proof.
  revert a. induction l as [|i l IH]; intros a; simpl.
  - intros [= <-] j. set_solver.
  - unfold assign_iface at 1. destruct (validInterface i); simpl; [|done].
    destruct (a !! i) eqn:Ei; [done|]. intros Hf j. rewrite (IH _ Hf), lookup_insert_None. set_solver.
Qed.

(** The tests on one zone that do not look at the others met so far. *)
Definition zone_static (ds : DesiredState) (name : string) : Prop :=
  let zone := zone_of ds name in
  RedirectOnly ds && negb (redirect_only_zone zone) = false
  /\ zoneName name = true /\ target_ok (ZTarget zone) = true
  /\ (match SSH zone with Some p => validPort p | None => true end) = true
  /\ for_each (fun r => check (validPort (pr_Port r) && tcp_or_udp (pr_Proto r)) "nft: invalid port rule")
       (Ports zone) = Ok tt
  /\ (exists seen, fold_m validate_zone_redirect [] (Redirects zone) = Ok seen)
  /\ for_each (fun s => check (nfs_source_ok s)
       ("nft: NFS source must be an IPv4 address or CIDR: " +++ quote s)) (default [] (NFS zone)) = Ok tt
  /\ for_each (fun egress => check (bool_decide (is_Some (Zones ds !! egress)))
       ("nft: zone " +++ quote name +++ " forwards to undeclared zone " +++ quote egress)) (Forward zone) = Ok tt
  /\ for_each (fun svc => check (bool_decide (is_Some (builtinServices svc)))
       ("nft: zone " +++ quote name +++ " declares unrecognized service " +++ quote svc)) (Services zone) = Ok tt
  /\ bool_decide (Interfaces zone = []) = false.

Definition reaches (ds : DesiredState) (name : string) : bool :=
  (name =?s "trusted") || bool_decide (is_Some (SSH (zone_of ds name))).

Lemma validate_zone_ok ds a r name a' r' :
  validate_zone ds (a, r) name = Ok (a', r')
  <-> zone_static ds name /\ fold_m (assign_iface name) a (Interfaces (zone_of ds name)) = Ok a'
      /\ r' = r || reaches ds name.
Proof.
  unfold validate_zone, zone_static, reaches, zone_of. set (zone := lookup_default _ _ _).
  rewrite !seq_ok, fail_if_ok, !check_ok, result_bind_ok. split.
  - intros (H1 & H2 & H3 & a1 & Ha & Hr). rewrite !seq_ok, check_ok, result_bind_ok in Hr.
    destruct Hr as (H4 & H5 & seen & Hs & Hr). rewrite !seq_ok, fail_if_ok in Hr.
    destruct Hr as (H6 & H7 & H8 & H9 & [= <- <-]). split_and!; eauto. by rewrite orb_assoc.
  - intros ((H1 & H2 & H3 & H4 & H5 & [seen Hs] & H6 & H7 & H8 & H9) & Ha & ->).
    split_and!; try done. exists a'. split; [done|]. rewrite !seq_ok, check_ok, result_bind_ok.
    split_and!; try done. exists seen. split; [done|]. rewrite !seq_ok, fail_if_ok.
    split_and!; try done. by rewrite orb_assoc.
Qed.

Definition all_ifaces (ds : DesiredState) (order : list string) : list string :=
  concat (map (fun n => Interfaces (zone_of ds n)) order).

Lemma validate_zones_ok ds order a r r' :
  (exists a', fold_m (validate_zone ds) (a, r) order = Ok (a', r'))
  <-> Forall (zone_static ds) order
      /\ Forall (fun i => validInterface i = true) (all_ifaces ds order)
      /\ NoDup (all_ifaces ds order) /\ Forall (fun i => a !! i = None) (all_ifaces ds order)
      /\ r' = r || existsb (reaches ds) order.
Proof.
  unfold all_ifaces. revert a r.
  induction order as [|name order IH]; intros a r; cbn [fold_m map concat existsb].
  - rewrite orb_false_r. split.
    + intros [a' [= <- <-]]. split_and!; try done; constructor.
    + intros (_ & _ & _ & _ & ->). eauto.
  - rewrite Forall_cons, !Forall_app, NoDup_app.
    destruct (validate_zone ds (a, r) name) as [[a1 r1]|e] eqn:E.
    + apply validate_zone_ok in E as (Hs & Ha & ->). cbv beta iota. rewrite IH.
      assert (Hi : exists a', fold_m (assign_iface name) a (Interfaces (zone_of ds name)) = Ok a') by eauto.
      apply assign_fold in Hi as (Hv & Hnd & Hf). pose proof (assign_fold_dom _ _ _ _ Ha) as Hdom.
      rewrite orb_assoc. split.
      * intros (H1 & H2 & H3 & H4 & H5). split_and!; try done.
        -- intros i Hi Hi'. rewrite Forall_forall in H4. specialize (H4 i Hi'). apply Hdom in H4. set_solver.
        -- eapply Forall_impl; [done|]. intros i Hi. by apply Hdom in Hi as [? _].
      * intros ((_ & H1) & (_ & H2) & (_ & Hdis & H3) & (_ & H4) & H5). split_and!; try done.
        rewrite Forall_forall in H4 |- *. intros i Hi. apply Hdom. split; [auto|]. set_solver.
    + split; [by intros [? ?]|]. intros ((Hs & _) & (Hv & _) & (Hnd & _) & (Hf & _) & _).
      destruct (proj2 (assign_fold name (Interfaces (zone_of ds name)) a)) as [a' Ha']; [done|].
      assert (validate_zone ds (a, r) name = Ok (a', r || reaches ds name)) by (by apply validate_zone_ok).
      congruence.
Qed.

Lemma all_ifaces_permutation ds o1 o2 : o1 ≡ₚ o2 -> all_ifaces ds o1 ≡ₚ all_ifaces ds o2.
Proof. intros Hp. unfold all_ifaces. by rewrite Hp. Qed.

Lemma existsb_permutation {A} (f : A -> bool) l1 l2 : l1 ≡ₚ l2 -> existsb f l1 = existsb f l2.
Proof.
  induction 1; simpl; try congruence. by rewrite !orb_assoc, (orb_comm (f y)).
Qed.

Lemma NoDup_concat_disjoint {A B} (f : A -> list B) l x y i :
  NoDup (concat (map f l)) -> x ∈ l -> y ∈ l -> x <> y -> i ∈ f x -> i ∈ f y -> False.
Proof.
  induction l as [|z l IH]; simpl; [by intros _ ?%elem_of_nil|].
  intros (_ & Hdis & Hnd)%NoDup_app Hx Hy Hne Hix Hiy.
  assert (Hmem : forall w, w ∈ l -> i ∈ f w -> i ∈ concat (map f l)).
  { intros w Hw Hi. apply list_elem_of_In, in_concat. exists (f w).
    split; [apply in_map|]; by apply list_elem_of_In. }
  apply elem_of_cons in Hx as [->|Hx]; apply elem_of_cons in Hy as [->|Hy]; try done.
  - exact (Hdis i Hix (Hmem y Hy Hiy)).
  - exact (Hdis i Hiy (Hmem x Hx Hix)).
  - by apply IH.
Qed.

Lemma validate_permutation o1 o2 ds : o1 ≡ₚ o2 -> validate o1 ds = Ok tt -> validate o2 ds = Ok tt.
Proof.
  intros Hp. unfold validate. rewrite !seq_ok, !result_bind_ok.
  intros (H1 & H2 & H3 & H4 & [a r] & Hf & H5). split_and!; try done.
  assert (He : exists a', fold_m (validate_zone ds) (∅, false) o2 = Ok (a', r)).
  { assert (He : exists a', fold_m (validate_zone ds) (∅, false) o1 = Ok (a', r)) by eauto.
    apply validate_zones_ok in He as (E1 & E2 & E3 & E4 & E5). apply validate_zones_ok.
    pose proof (all_ifaces_permutation ds _ _ Hp) as Hi. split_and!.
    - by rewrite <- Hp.
    - by rewrite <- Hi.
    - by rewrite <- Hi.
    - by rewrite <- Hi.
    - by rewrite <- (existsb_permutation _ _ _ Hp). }
  destruct He as [a' He]. exists (a', r). done.
Qed.

(** The answer does not depend on Go's map iteration order: whichever order the runtime
    walks the zones in, the same desired states are accepted and they render to the same
    text. *)
Theorem render_order_free o1 o2 ds guard text :
  o1 ≡ₚ o2 -> Render o1 ds guard = Ok text -> Render o2 ds guard = Ok text.
Proof.
  intros Hp. unfold Render. rewrite !seq_ok. intros (H1 & H2 & H3).
  split; [done|]. split; [|done]. by apply (validate_permutation o1).
Qed.

(** C36: No lockout.  An accepted full policy declares a zone that can be logged in to: it has
    at least one interface, every one of them is a valid interface name and in no other
    zone, and the zone is named trusted or has an SSH port.  On every one of its interfaces
    the input chain of the table the text prints accepts new TCP connections to the zone's
    SSH port, and to any port when the zone is the one named trusted. *)
Theorem no_lockout order ds guard text :
  order ≡ₚ sortedZoneNames (Zones ds) -> Render order ds guard = Ok text -> RedirectOnly ds = false ->
  text = print_table ds guard
  /\ exists name zone, Zones ds !! name = Some zone /\ Interfaces zone <> []
    /\ Forall (fun i => validInterface i = true) (Interfaces zone)
    /\ (forall other, other <> name ->
          forall i, i ∈ Interfaces zone -> i ∉ Interfaces (zone_of ds other))
    /\ (name = "trusted" \/ is_Some (SSH zone))
    /\ forall pkt, p_iif pkt ∈ Interfaces zone -> p_proto pkt = "tcp" ->
         name = "trusted" \/ SSH zone = Some (p_dport pkt) ->
         input_accepts (ruleset ds guard) pkt = true.
Proof.
  intros Hord Hr Hro. split; [by apply (rendered order)|]. apply Render_ok in Hr as (Hgi & _ & Hv).
  unfold validate in Hv. rewrite !seq_ok, result_bind_ok in Hv.
  destruct Hv as (_ & _ & _ & _ & [a r] & Hf & Hreach). rewrite fail_if_ok, Hro in Hreach. simpl in Hreach.
  assert (He : exists a', fold_m (validate_zone ds) (∅, false) order = Ok (a', r)) by eauto.
  apply validate_zones_ok in He as (Hst & Hval & Hnd & _ & ->). simpl in Hreach.
  rewrite andb_true_r in Hreach. apply negb_false_iff, existsb_exists in Hreach as (name & Hin & Hre).
  apply list_elem_of_In in Hin. rewrite Forall_forall in Hst. pose proof (Hst name Hin) as Hs.
  destruct Hs as (_ & _ & _ & _ & _ & _ & _ & _ & _ & Hne). apply bool_decide_eq_false in Hne.
  assert (Hz : is_Some (Zones ds !! name)).
  { rewrite Hord in Hin. by apply elem_of_sorted_keys. }
  destruct Hz as [zone Hz]. pose proof (zone_of_Some _ _ _ Hz) as Hzo. rewrite Hzo in Hne.
  exists name, zone. split_and!; [done..| | | |].
  - apply Forall_forall. intros i Hi. rewrite Forall_forall in Hval. apply Hval.
    apply list_elem_of_In, in_concat. exists (Interfaces (zone_of ds name)).
    split; [|by rewrite Hzo; apply list_elem_of_In].
    by apply (in_map (fun n => Interfaces (zone_of ds n))), list_elem_of_In.
  - intros other Hoth i Hi Hi'. unfold zone_of, lookup_default in Hi'.
    destruct (Zones ds !! other) as [z'|] eqn:Ez; [|by apply elem_of_nil in Hi'].
    assert (Hino : other ∈ order) by (rewrite Hord; apply elem_of_sorted_keys; eauto).
    apply (NoDup_concat_disjoint (fun n => Interfaces (zone_of ds n)) order name other i Hnd Hin Hino);
      [done|by rewrite Hzo|by rewrite (zone_of_Some _ _ _ Ez)].
  - unfold reaches in Hre. rewrite Hzo in Hre.
    apply orb_prop in Hre as [Hre|Hre]; [left; by apply String.eqb_eq|right].
    by apply bool_decide_eq_true in Hre.
  - intros pkt Hi Hp Ho. apply input_accepts_spec; [done|]. right. left. exists name, zone.
    split_and!; [done..|]. unfold zone_admits. tauto.
Qed.

(** ** A policy to try the theorems on *)

Module Example.

Definition lan : Zone :=
  mkZone ["eth0"] (Some 22) (Some ["10.0.0.0/8"]) ["dns"; "mdns"] [mkPortRule 8080 "tcp"] "DROP" ["wan"] false [].
Definition wan : Zone := mkZone ["wan0"] None None [] [] EmptyString [] true [].
Definition policy : DesiredState := mkDesired false {["lan" := lan; "wan" := wan]} None None false.
Definition guard : ReachabilityGuard := mkGuard "tailscale0" 7443.
Definition text : string := print_table policy guard.

Lemma renders : Render ["wan"; "lan"] policy guard = Ok text.
Proof. vm_compute. reflexivity. Qed.

Definition knock (iif : string) (port : Z) : packet :=
  mkPacket iif EmptyString false false 0 "tcp" 40000 port (Addr4 0) (Addr4 0) true EmptyString 64.

Lemma render_refines_witness : text = print_table policy guard.
Proof. apply (render_refines ["wan"; "lan"] policy guard text); [exact renders | reflexivity]. Defined.

Lemma render_order_free_witness : Render ["lan"; "wan"] policy guard = Ok text.
Proof.
  apply (render_order_free ["wan"; "lan"] ["lan"; "wan"] policy guard text); [|exact renders].
  apply perm_swap.
Defined.

Lemma input_exact_witness :
  input_policy policy guard (knock "eth0" 22) /\ ~ input_policy policy guard (knock "wan0" 22).
Proof.
  destruct (input_exact ["wan"; "lan"] policy guard text renders) as (_ & _ & Hpkt). split.
  - apply (Hpkt (knock "eth0" 22)). vm_compute. reflexivity.
  - intros Hp. apply (Hpkt (knock "wan0" 22)) in Hp. vm_compute in Hp. discriminate Hp.
Defined.

Lemma guard_reachable_witness : input_accepts (ruleset policy guard) (knock "tailscale0" 7443) = true.
Proof. apply (guard_reachable ["wan"; "lan"] policy guard text (knock "tailscale0" 7443) renders); reflexivity. Defined.

Lemma no_lockout_witness :
  exists name zone, Zones policy !! name = Some zone
    /\ exists iface port, iface ∈ Interfaces zone /\ SSH zone = Some port
    /\ input_accepts (ruleset policy guard) (knock iface port) = true.
Proof.
  destruct (no_lockout ["wan"; "lan"] policy guard text) as (_ & name & zone & Hz & Hi & _ & _ & Ho & Hpkt).
  - assert (sortedZoneNames (Zones policy) = ["lan"; "wan"]) as -> by (vm_compute; reflexivity).
    apply perm_swap.
  - exact renders.
  - reflexivity.
  - exists name, zone. split; [assumption|].
    destruct (Interfaces zone) as [|i l] eqn:El; [by destruct Hi|].
    destruct Ho as [-> | [port Hp]]; [vm_compute in Hz; discriminate Hz|].
    exists i, port. split; [left|]. split; [exact Hp|].
    apply (Hpkt (knock i port)); [left|reflexivity|right; exact Hp].
Defined.

End Example.
