(* ===== verification/NftKernel.v ===== *)
(** internal/nft/nft.go and redirect.go: ghostd's table in the kernel.

    The documents are what `nft -j list ruleset` prints and `nft -j -f -` reads.  nft itself
    is outside the repository: [NftTool] is its four uses, [NftLaws] the documented
    behaviour the daemon relies on. *)

From S2P Require Import Prelude Json NetAddr Nft State Auth Server Protocol.
Local Open Scope Z_scope.

(** * Documents *)

(** struct{ Nftables []map[string]json.RawMessage } *)
Definition dec_entry : json -> option (gmap string json) := dec_map Some ∅.

Definition dec_dump (j : json) : option (list (gmap string json)) :=
  dec_struct false
    (fun k v cur => if equal_fold k "nftables" then Some (dec_list dec_entry v) else None) [] j.

Definition parse_dump (r : raw) : option (list (gmap string json)) := j ← unmarshal r; dec_dump j.

(** json.Marshal of a map: the keys in order. *)
Definition obj_of_map (m : gmap string json) : json :=
  JObj (map (fun k => (k, default JNull (m !! k))) (sorted_keys m)).

Definition dump_doc (entries : list (gmap string json)) : raw :=
  marshal (JObj [("nftables", JArr (map obj_of_map entries))]).

(** struct{ Family, Table, Name string } *)
Record nft_obj := mkNftObj { ob_family : string; ob_table : string; ob_name : string }.

Definition set_nft_obj (k : string) (v : json) (o : nft_obj) : option (option nft_obj) :=
  if equal_fold k "family" then
    Some (s ← dec_string (ob_family o) v; Some (mkNftObj s (ob_table o) (ob_name o)))
  else if equal_fold k "table" then
    Some (s ← dec_string (ob_table o) v; Some (mkNftObj (ob_family o) s (ob_name o)))
  else if equal_fold k "name" then
    Some (s ← dec_string (ob_name o) v; Some (mkNftObj (ob_family o) (ob_table o) s))
  else None.

Definition dec_nft_obj : json -> option nft_obj :=
  dec_struct false set_nft_obj (mkNftObj EmptyString EmptyString EmptyString).

Definition owned_obj (kind : string) (o : nft_obj) : bool :=
  (ob_family o =?s "inet")
  && ((ob_table o =?s tableName) || ((kind =?s "table") && (ob_name o =?s tableName))).

(** The inner loop of OwnedRuleset: the entry once for every object of it that is ours. *)
Fixpoint owned_entry (entry : gmap string json) (kinds : list string) :
    result string (list (gmap string json)) :=
  match kinds with
  | [] => Ok []
  | kind :: kinds' =>
    match dec_nft_obj (default JNull (entry !! kind)) with
    | None => Err "json: cannot unmarshal object"
    | Some o => rest ← owned_entry entry kinds';
                Ok (if owned_obj kind o then entry :: rest else rest)
    end
  end.

Fixpoint owned_entries (entries : list (gmap string json)) : result string (list (gmap string json)) :=
  match entries with
  | [] => Ok []
  | entry :: entries' =>
    here ← owned_entry entry (sorted_keys entry);
    rest ← owned_entries entries';
    Ok (here ++ rest)
  end.

Definition OwnedRuleset (r : raw) : result string raw :=
  match parse_dump r with
  | None => Err "json: invalid ruleset"
  | Some entries => owned ← owned_entries entries; Ok (dump_doc owned)
  end.

(** ** Restore *)

Definition table_ref : json := JObj [("table", JObj [("family", JStr "inet"); ("name", JStr tableName)])].

(** map[string]json.RawMessage without the kernel's handle. *)
Definition clean_body (body : json) : option (gmap string json) :=
  m ← dec_map Some ∅ body; Some (delete "handle" m).

Fixpoint clean_kinds (entry : gmap string json) (kinds : list string) :
    result string (list (string * gmap string json)) :=
  match kinds with
  | [] => Ok []
  | kind :: kinds' =>
    match clean_body (default JNull (entry !! kind)) with
    | None => Err ("nft: invalid snapshot " +++ kind)
    | Some m => rest ← clean_kinds entry kinds'; Ok ((kind, m) :: rest)
    end
  end.

Fixpoint clean_entries (entries : list (gmap string json)) :
    result string (list (list (string * gmap string json))) :=
  match entries with
  | [] => Ok []
  | entry :: entries' =>
    c ← clean_kinds entry (sorted_keys entry); rest ← clean_entries entries'; Ok (c :: rest)
  end.

Definition add_command (entry : list (string * gmap string json)) : json :=
  JObj [("add", JObj (map (fun '(kind, m) => (kind, obj_of_map m)) entry))].

Definition restore_script (entries : list (list (string * gmap string json))) : json :=
  JObj [("nftables", JArr ([JObj [("add", table_ref)]; JObj [("delete", table_ref)]]
                           ++ map add_command entries))].

(** What Restore asks nft to load: nothing for an empty blob. *)
Definition restore_request (blob : raw) : result string (option json) :=
  if raw_is_empty blob then Ok None else
  match OwnedRuleset blob with
  | Err e => Err ("nft: invalid snapshot: " +++ e)
  | Ok owned =>
    match parse_dump owned with
    | None => Err "json: invalid ruleset"
    | Some entries => clean ← clean_entries entries; Ok (Some (restore_script clean))
    end
  end.

(** ** redirect.go *)

(** struct{ Family, Table, Type string } *)
Record nft_chain := mkNftChain { ch_family : string; ch_table : string; ch_type : string }.

Definition set_nft_chain (k : string) (v : json) (o : nft_chain) : option (option nft_chain) :=
  if equal_fold k "family" then
    Some (s ← dec_string (ch_family o) v; Some (mkNftChain s (ch_table o) (ch_type o)))
  else if equal_fold k "table" then
    Some (s ← dec_string (ch_table o) v; Some (mkNftChain (ch_family o) s (ch_type o)))
  else if equal_fold k "type" then
    Some (s ← dec_string (ch_type o) v; Some (mkNftChain (ch_family o) (ch_table o) s))
  else None.

Definition dec_nft_chain : json -> option nft_chain :=
  dec_struct false set_nft_chain (mkNftChain EmptyString EmptyString EmptyString).

Definition filtering (c : nft_chain) : bool :=
  (ch_family c =?s "inet") && (ch_table c =?s tableName) && (ch_type c =?s "filter").

Definition check_coexistence (entry : gmap string json) : result string unit :=
  match entry !! "chain" with
  | None => Ok tt
  | Some value =>
    match dec_nft_chain value with
    | None => Err "json: cannot unmarshal chain"
    | Some c => fail_if (filtering c) "nft: redirect-only policy would remove existing ghostd filtering"
    end
  end.

Definition ValidateRedirectCoexistence (r : raw) : result string unit :=
  match parse_dump r with
  | None => Err "json: invalid ruleset"
  | Some entries => for_each check_coexistence entries
  end.

(** * nft, and the firewall domain's executor *)

(** The four ways the daemon runs nft; the first argument tells one run from another. *)
Record NftTool (K : Type) := mkNftTool {
  nft_list : nat -> K -> outcome string raw;                  (* nft -j list ruleset *)
  nft_check : nat -> string -> K -> outcome string unit;      (* nft -c -f - *)
  nft_load : nat -> string -> K -> K * outcome string unit;   (* nft -f - *)
  nft_json : nat -> json -> K -> K * outcome string unit;     (* nft -j -f - *)
}.
Arguments nft_list {K} _ _ _.
Arguments nft_check {K} _ _ _ _.
Arguments nft_load {K} _ _ _ _.
Arguments nft_json {K} _ _ _ _.

(** An error under another name. *)
Definition wrap {E E' A} (f : E -> E') (o : outcome E A) : outcome E' A :=
  match o with Done a => Done a | Failed e => Failed (f e) | Stopped => Stopped end.

Definition and_then {E A B} (o : outcome E A) (f : A -> outcome E B) : outcome E B :=
  match o with Done a => f a | Failed e => Failed e | Stopped => Stopped end.

Section Executor.
Context {K : Type} (tool : NftTool K) (guard : ReachabilityGuard).
(** The order in which the runtime walks a map of zones at a given moment. *)
Context (iteration : nat -> DesiredState -> list string).

Definition ReadRulesetJSON (n : nat) (k : K) : outcome string raw :=
  wrap (fun e => "nft: list ruleset: " +++ e) (nft_list tool n k).
Definition ValidateSyntax (n : nat) (script : string) (k : K) : outcome string unit :=
  wrap (fun e => "nft: ruleset failed validation: " +++ e) (nft_check tool n script k).
Definition Commit (n : nat) (script : string) (k : K) : K * outcome string unit :=
  let '(k', o) := nft_load tool n script k in (k', wrap (fun e => "nft: commit failed: " +++ e) o).

Definition Restore (n : nat) (blob : raw) (k : K) : K * outcome string unit :=
  match restore_request blob with
  | Err e => (k, Failed e)
  | Ok None => (k, Done tt)
  | Ok (Some script) =>
    let '(k', o) := nft_json tool n script k in (k', wrap (fun e => "nft: restore failed: " +++ e) o)
  end.

Definition status_of (c : code) (e : string) : status := mkStatus c e.

(** applyFirewall before recoverExpired: the script, and whether it is redirect-only. *)
Definition fw_check (n : nat) (desired : raw) (k : K) : outcome status (string * bool) :=
  match ParseDesiredState desired with
  | Err e => Failed (status_of InvalidArgument ("rpc: desired_state_json: " +++ e))
  | Ok ds =>
    match Render (iteration n ds) ds guard with
    | Err e => Failed (status_of InvalidArgument ("rpc: " +++ e))
    | Ok script =>
      and_then (wrap (fun e => status_of InvalidArgument ("rpc: " +++ e)) (ValidateSyntax n script k))
        (fun _ => Done (script, RedirectOnly ds))
    end
  end.

(** applyFirewall between recoverExpired and begin. *)
Definition fw_snapshot (n : nat) (pl : string * bool) (k : K) : outcome status raw :=
  and_then (wrap (fun e => status_of Internal ("snapshot: " +++ e)) (ReadRulesetJSON n k)) (fun r =>
  and_then (if snd pl
            then wrap (fun e => status_of FailedPrecondition ("rpc: " +++ e))
                   (of_result (ValidateRedirectCoexistence r))
            else Done tt) (fun _ =>
  wrap (fun e => status_of Internal ("snapshot: " +++ e)) (of_result (OwnedRuleset r)))).

(** Confirm's firewall branch. *)
Definition fw_confirmed (n : nat) (target : raw) (k : K) : outcome status raw :=
  and_then (wrap internal (ReadRulesetJSON n k)) (fun r => wrap internal (of_result (OwnedRuleset r))).

Definition firewall : Executor K := {|
  plan := string * bool;
  ex_check := fw_check;
  ex_snapshot := fw_snapshot;
  ex_mutate n pl := Commit n (fst pl);
  ex_rollback := Restore;
  ex_restore := Restore;
  ex_confirmed := fw_confirmed;
|}.

End Executor.

(** ** What is relied on of nft

    [listing] is what the kernel holds, as the objects nft lists: their kind and fields.
    A listing prints as a document of one-object entries; loading a script either takes
    effect as a whole or not at all, whatever the command reports, and has taken effect when
    it reports success.  [denote] is the table a script of Render defines.  The objects of
    ghostd's table, cleaned of handles and added again in order after the table was dropped,
    make the same table. *)

Definition entry_of (o : string * list (string * json)) : gmap string json := {[fst o := JObj (snd o)]}.

Definition owned (o : string * list (string * json)) : bool :=
  match dec_nft_obj (JObj (snd o)) with Some ob => owned_obj (fst o) ob | None => false end.

Definition clean (o : string * list (string * json)) : string * gmap string json :=
  (fst o, delete "handle" (default ∅ (dec_map Some ∅ (JObj (snd o))))).

Class NftLaws {K : Type} (tool : NftTool K) := {
  listing : K -> list (string * list (string * json));
  denote : string -> list (string * gmap string json);
  nft_list_prints n k r : nft_list tool n k = Done r -> parse_dump r = Some (map entry_of (listing k));
  nft_load_atomic n s k k' o : nft_load tool n (script_head +++ s) k = (k', o) ->
    (map clean (List.filter owned (listing k')) = map clean (List.filter owned (listing k)) /\ o <> Done tt
     \/ map clean (List.filter owned (listing k')) = denote (script_head +++ s))
    /\ List.filter (fun x => negb (owned x)) (listing k') = List.filter (fun x => negb (owned x)) (listing k);
  nft_json_atomic n k0 k k' o :
    nft_json tool n (restore_script (map (fun e => [e]) (map clean (List.filter owned (listing k0))))) k = (k', o) ->
    (map clean (List.filter owned (listing k')) = map clean (List.filter owned (listing k)) /\ o <> Done tt
     \/ map clean (List.filter owned (listing k')) = map clean (List.filter owned (listing k0)))
    /\ List.filter (fun x => negb (owned x)) (listing k') = List.filter (fun x => negb (owned x)) (listing k);
}.

(** * Documents of listings *)

Lemma sorted_keys_singleton {A} k (v : A) : sorted_keys ({[k := v]} : gmap string A) = [k].
Proof. unfold sorted_keys. rewrite map_to_list_singleton. done. Qed.

Lemma obj_of_singleton k j : obj_of_map {[k := j]} = JObj [(k, j)].
Proof. unfold obj_of_map. rewrite sorted_keys_singleton. simpl. by rewrite lookup_singleton_eq. Qed.

Lemma dec_obj_of_entry o : dec_entry (obj_of_map (entry_of o)) = Some (entry_of o).
Proof. unfold entry_of. by rewrite obj_of_singleton. Qed.

Lemma traverse_entries l :
  traverse dec_entry (map obj_of_map (map entry_of l)) = Some (map entry_of l).
Proof.
  induction l as [|o l IH]; cbn [map traverse]; [done|]. by rewrite dec_obj_of_entry, IH.
Qed.

Lemma parse_dump_doc l : parse_dump (dump_doc (map entry_of l)) = Some (map entry_of l).
Proof. unfold parse_dump, dump_doc. simpl. by rewrite traverse_entries. Qed.

Lemma dec_map_obj fields : exists m, dec_map Some ∅ (JObj fields) = Some m.
Proof.
  simpl. generalize (∅ : gmap string json). induction fields as [|[k j] fields IH]; intros m; simpl; eauto.
Qed.

Lemma owned_entry_of o :
  owned_entry (entry_of o) (sorted_keys (entry_of o))
  = match dec_nft_obj (JObj (snd o)) with
    | Some ob => Ok (if owned_obj (fst o) ob then [entry_of o] else [])
    | None => Err "json: cannot unmarshal object"
    end.
Proof.
  unfold entry_of at 2. rewrite sorted_keys_singleton. cbn [owned_entry].
  unfold entry_of at 1. rewrite lookup_singleton_eq. cbn [from_option id].
  by destruct (dec_nft_obj (JObj (snd o))).
Qed.

Lemma owned_entries_listing l es :
  owned_entries (map entry_of l) = Ok es -> es = map entry_of (List.filter owned l).
Proof.
  revert es. induction l as [|o l IH]; cbn [map owned_entries List.filter]; intros es; [intros [= <-]; done|].
  rewrite owned_entry_of, result_bind_ok. intros (here & Hh & Hr). rewrite result_bind_ok in Hr.
  destruct Hr as (rest & Hrest & [= <-]). apply IH in Hrest as ->. unfold owned at 2.
  destruct (dec_nft_obj _) as [ob|]; [|done]. apply Ok_inj in Hh as <-. by destruct (owned_obj _ _).
Qed.

Lemma owned_entries_owned l :
  Forall (fun o => owned o = true) l -> owned_entries (map entry_of l) = Ok (map entry_of l).
Proof.
  induction 1 as [|o l Ho _ IH]; [done|]. cbn [map owned_entries]. rewrite owned_entry_of, IH.
  unfold owned in Ho. destruct (dec_nft_obj _) as [ob|]; [|done]. rewrite Ho. reflexivity.
Qed.

Lemma filter_owned l : Forall (fun o => owned o = true) (List.filter owned l).
Proof. apply List.Forall_forall. intros x Hx. by apply filter_In in Hx as [_ ?]. Qed.

Lemma clean_entry_of o : clean_kinds (entry_of o) (sorted_keys (entry_of o)) = Ok [clean o].
Proof.
  unfold entry_of at 2. rewrite sorted_keys_singleton. cbn [clean_kinds].
  unfold entry_of at 1. rewrite lookup_singleton_eq. cbn [from_option id].
  unfold clean_body, clean. destruct (dec_map_obj (snd o)) as [m Hm]. rewrite Hm. reflexivity.
Qed.

Lemma clean_entries_listing l :
  clean_entries (map entry_of l) = Ok (map (fun e => [e]) (map clean l)).
Proof.
  induction l as [|o l IH]; [done|]. cbn [map clean_entries]. rewrite clean_entry_of, IH. reflexivity.
Qed.

Lemma OwnedRuleset_listing r l s :
  parse_dump r = Some (map entry_of l) -> OwnedRuleset r = Ok s ->
  s = dump_doc (map entry_of (List.filter owned l)).
Proof.
  intros Hp. unfold OwnedRuleset. rewrite Hp, result_bind_ok. intros (es & Hes & Hs).
  apply owned_entries_listing in Hes as ->. by apply Ok_inj in Hs.
Qed.

Lemma restore_request_owned l :
  Forall (fun o => owned o = true) l ->
  restore_request (dump_doc (map entry_of l)) = Ok (Some (restore_script (map (fun e => [e]) (map clean l)))).
Proof.
  intros Ho. unfold restore_request, OwnedRuleset.
  rewrite parse_dump_doc, owned_entries_owned by done.
  change (mbind _ (Ok (map entry_of l))) with (Ok (E := string) (dump_doc (map entry_of l))).
  cbv iota. rewrite parse_dump_doc, clean_entries_listing. reflexivity.
Qed.

(** * The firewall package keeps its promises to the RPC layer *)

Section Laws.
Context {K : Type} (tool : NftTool K) (guard : ReachabilityGuard).
Context (iteration : nat -> DesiredState -> list string) `{!NftLaws tool}.

(** ghostd's table, without handles. *)
Definition contents (k : K) : list (string * gmap string json) := map clean (List.filter owned (listing k)).

(** The rest of the ruleset. *)
Definition foreign (k : K) : list (string * list (string * json)) :=
  List.filter (fun x => negb (owned x)) (listing k).

(** The document of a past table of ghostd's. *)
Definition snapshot_of (s : raw) (v : list (string * gmap string json)) : Prop :=
  exists k0, s = dump_doc (map entry_of (List.filter owned (listing k0))) /\ v = contents k0.

Lemma OwnedRuleset_snapshot n k r s :
  nft_list tool n k = Done r -> OwnedRuleset r = Ok s -> snapshot_of s (contents k).
Proof.
  intros Hl Ho. apply nft_list_prints in Hl. exists k. split; [|done]. by eapply OwnedRuleset_listing.
Qed.

Lemma Restore_snapshot n s v k k' o :
  snapshot_of s v -> Restore tool n s k = (k', o) ->
  (contents k' = contents k /\ o <> Done tt \/ contents k' = v) /\ foreign k' = foreign k.
Proof.
  intros (k0 & -> & ->). unfold Restore. rewrite restore_request_owned by apply filter_owned.
  destruct (nft_json _ _ _ _) as [k1 o1] eqn:E. intros [= <- <-].
  apply nft_json_atomic in E as [Hc Hf]. split; [|done]. destruct Hc as [[Hc Hn]|Hc]; [left|by right].
  split; [done|]. by destruct o1 as [[]|e|].
Qed.

Lemma Commit_render n ds order text k k' o :
  Render order ds guard = Ok text -> Commit tool n text k = (k', o) ->
  (contents k' = contents k /\ o <> Done tt \/ contents k' = denote text) /\ foreign k' = foreign k.
Proof.
  intros Hr. assert (Hh : exists s, text = script_head +++ s).
  { unfold Render in Hr. rewrite !seq_ok in Hr. destruct Hr as (_ & _ & Hr).
    destruct (RedirectOnly ds); apply Ok_inj in Hr as <-; eauto. }
  destruct Hh as [s ->]. unfold Commit. destruct (nft_load _ _ _ _) as [k1 o1] eqn:E. intros [= <- <-].
  apply nft_load_atomic in E as [Hc Hf]. split; [|done]. destruct Hc as [[Hc Hn]|Hc]; [left|by right].
  split; [done|]. by destruct o1 as [[]|e|].
Qed.

Lemma wrap_done {E E' A} (f : E -> E') (o : outcome E A) a : wrap f o = Done a <-> o = Done a.
Proof. destruct o; simpl; naive_solver. Qed.

Lemma and_then_done {E A B} (o : outcome E A) (f : A -> outcome E B) b :
  and_then o f = Done b <-> exists a, o = Done a /\ f a = Done b.
Proof. destruct o; simpl; naive_solver. Qed.

Lemma of_result_done {E A} (r : result E A) a : of_result r = Done a <-> r = Ok a.
Proof. destruct r; simpl; naive_solver. Qed.

(** A script is planned for a target when the target renders to it. *)
Definition renders_to (t : raw) (script : string) : Prop :=
  exists ds order, ParseDesiredState t = Ok ds /\ Render order ds guard = Ok script.

#[global, program] Instance firewall_laws :
  ExecLaws (firewall tool guard iteration) (list (string * gmap string json)) := {|
  view := contents;
  planned t pl := renders_to t (fst pl);
  guards s pl := True;
  covers s v k := snapshot_of s v;
  enacted t k := exists script, renders_to t script /\ contents k = denote script;
  replays c v := c = RawEmpty \/ snapshot_of c v;
  lost v k := True;
  rebooted k k' := True;
|}.
Next Obligation.
  intros n t k pl. simpl. unfold fw_check, renders_to.
  destruct (ParseDesiredState t) as [ds|e]; [|done].
  destruct (Render _ ds guard) as [script|e] eqn:Er; [|done].
  rewrite and_then_done. intros ([] & _ & [= <-]). eauto.
Qed.
Next Obligation.
  intros n pl k s. simpl. unfold fw_snapshot, ReadRulesetJSON. rewrite and_then_done.
  intros (r & Hr%wrap_done%wrap_done & Hs). apply and_then_done in Hs as ([] & _ & Hs%wrap_done%of_result_done).
  pose proof (OwnedRuleset_snapshot _ _ _ _ Hr Hs) as Hsn. split_and!; [done..|].
  by destruct Hsn as (k0 & -> & _).
Qed.
Next Obligation. done. Qed.
Next Obligation.
  intros n t pl k k' (ds & order & Hp & Hr) Hc. simpl in Hc.
  destruct (Commit_render _ _ _ _ _ _ _ Hr Hc) as [[[_ Hn]|Hd] _]; [done|].
  exists (fst pl). split; [|done]. by exists ds, order.
Qed.
Next Obligation.
  intros n s v k k' o Hs Hr. simpl in Hr. destruct (Restore_snapshot _ _ _ _ _ _ Hs Hr) as [Hc _].
  split; [done|]. intros Hor. destruct Hc as [[Hc Hn]|Hc]; [|done].
  destruct Hor as [->|Hv]; [done | congruence].
Qed.
Next Obligation.
  intros n t k c _. simpl. unfold fw_confirmed, ReadRulesetJSON. rewrite and_then_done.
  intros (r & Hr%wrap_done%wrap_done & Hs%wrap_done%of_result_done). right.
  by eapply OwnedRuleset_snapshot.
Qed.
Next Obligation. by left. Qed.
Next Obligation. done. Qed.
Next Obligation. done. Qed.
Next Obligation. done. Qed.
Next Obligation.
  intros n c v k k' o [->|Hs] _ Hr; simpl in Hr; [by split|].
  split; [done|]. intros -> _. by destruct (Restore_snapshot _ _ _ _ _ _ Hs Hr) as [[[_ Hn]|Hc] _].
Qed.

End Laws.

(** * Theorems *)

(** OwnedRuleset keeps exactly ghostd's objects.  Of the objects nft lists it keeps, in
    their order, those of ghostd's table and no other writer's, and applying it again to its
    own output changes nothing. *)
Theorem owned_exact l r s :
  parse_dump r = Some (map entry_of l) -> OwnedRuleset r = Ok s ->
  parse_dump s = Some (map entry_of (List.filter owned l)) /\ OwnedRuleset s = Ok s.
Proof.
  intros Hp Ho. rewrite (OwnedRuleset_listing _ _ _ Hp Ho). rewrite parse_dump_doc. split; [done|].
  unfold OwnedRuleset. rewrite parse_dump_doc, owned_entries_owned by apply filter_owned. reflexivity.
Qed.

Lemma clean_kinds_no_handle entry kinds c :
  clean_kinds entry kinds = Ok c -> Forall (fun km => snd km !! "handle" = None) c.
Proof.
  revert c. induction kinds as [|k kinds IH]; cbn [clean_kinds]; intros c; [by intros [= <-]|].
  unfold clean_body. destruct (dec_map _ _ _) as [m|]; [|done]. cbn [mbind option_bind].
  rewrite result_bind_ok. intros (rest & Hrest & [= <-]). constructor; [|by apply IH].
  apply lookup_delete_eq.
Qed.

(** Restore's script.  Whatever blob it is given, the script Restore hands to nft makes
    ghostd's table, deletes it, and only adds objects without a kernel handle (in an add
    command a handle would be a position in the table just deleted); an empty blob asks for
    nothing. *)
Theorem restore_script_shape blob script :
  restore_request blob = Ok (Some script) ->
  blob <> RawEmpty
  /\ exists entries,
       script = JObj [("nftables", JArr (JObj [("add", table_ref)] :: JObj [("delete", table_ref)]
                                         :: map add_command entries))]
       /\ Forall (Forall (fun km => snd km !! "handle" = None)) entries.
Proof.
  unfold restore_request. destruct (raw_is_empty blob) eqn:Ee; [done|]. intros Hr.
  split; [by intros ->|]. destruct (OwnedRuleset blob) as [owned_|e]; [|done].
  destruct (parse_dump owned_) as [es|]; [|done]. apply result_bind_ok in Hr as (c & Hc & Hs).
  apply Ok_inj in Hs as [= <-]. exists c. split; [done|]. revert c Hc.
  induction es as [|e es IH]; cbn [clean_entries]; intros c; [by intros [= <-]|].
  rewrite result_bind_ok. intros (x & Hx & Hrest). apply result_bind_ok in Hrest as (y & Hy & [= <-]).
  constructor; [by eapply clean_kinds_no_handle | by apply IH].
Qed.

(** A redirect-only request never removes filtering.  When the snapshot of a redirect-only
    Apply succeeds, the kernel's ruleset holds no filter chain of ghostd's table. *)
Theorem redirect_only_coexists {K} (tool : NftTool K) `{!NftLaws tool} n script k s :
  fw_snapshot tool n (script, true) k = Done s ->
  forall fields, ("chain", fields) ∈ listing k ->
  exists c, dec_nft_chain (JObj fields) = Some c /\ filtering c = false.
Proof.
  unfold fw_snapshot, ReadRulesetJSON. rewrite and_then_done. intros (r & Hr%wrap_done%wrap_done & Hs).
  apply and_then_done in Hs as ([] & Hv%wrap_done%of_result_done & _).
  unfold ValidateRedirectCoexistence in Hv. rewrite (nft_list_prints _ _ _ Hr), for_each_ok in Hv.
  intros fields Hin. rewrite Forall_forall in Hv. specialize (Hv (entry_of ("chain", fields))).
  assert (Hc : check_coexistence (entry_of ("chain", fields)) = Ok tt).
  { apply Hv, list_elem_of_In, in_map, list_elem_of_In, Hin. }
  unfold check_coexistence, entry_of in Hc. rewrite lookup_singleton_eq in Hc. simpl snd in Hc.
  destruct (dec_nft_chain _) as [c|]; [|done]. exists c. by apply fail_if_ok in Hc.
Qed.

(** The firewall rolls back.  From the snapshot an Apply takes, a Restore that succeeds
    brings ghostd's table back to what it was, after a Commit of any rendered policy that
    succeeded, failed or was cut short; and throughout, no other table changes. *)
Theorem firewall_rolls_back {K} (tool : NftTool K) `{!NftLaws tool} guard
    n1 n2 n3 pl k0 s order ds text k1 o1 k2 o2 :
  fw_snapshot tool n1 pl k0 = Done s ->
  Render order ds guard = Ok text -> Commit tool n2 text k0 = (k1, o1) ->
  Restore tool n3 s k1 = (k2, o2) ->
  (o2 = Done tt -> contents tool k2 = contents tool k0)
  /\ foreign tool k1 = foreign tool k0 /\ foreign tool k2 = foreign tool k0.
Proof.
  intros Hs Hr Hc Hre. unfold fw_snapshot, ReadRulesetJSON in Hs.
  apply and_then_done in Hs as (r & Hl%wrap_done%wrap_done & Hs).
  apply and_then_done in Hs as ([] & _ & Ho%wrap_done%of_result_done).
  pose proof (OwnedRuleset_snapshot tool _ _ _ _ Hl Ho) as Hsn.
  destruct (Commit_render tool guard _ _ _ _ _ _ _ Hr Hc) as [_ Hf1].
  destruct (Restore_snapshot tool _ _ _ _ _ _ Hsn Hre) as [Hc2 Hf2].
  split_and!; [|done|congruence]. intros ->. by destruct Hc2 as [[_ ?]|?].
Qed.

(** * A tool to try the theorems on

    A kernel that knows chains of ghostd's table and tables of others, by name. *)
Module NftExample.

Definition kernel : Type := list string * list string.

Definition own_chain (c : string) : string * list (string * json) :=
  ("chain", [("family", JStr "inet"); ("table", JStr tableName); ("name", JStr c); ("handle", JNum 4)]).
Definition other_table (t : string) : string * list (string * json) :=
  ("table", [("family", JStr "ip"); ("name", JStr t); ("handle", JNum 9)]).

Definition objects (k : kernel) : list (string * list (string * json)) :=
  map own_chain (fst k) ++ map other_table (snd k).

(** The chain an add command names. *)
Definition added (j : json) : string :=
  match j with
  | JObj [(_, JObj [(_, JObj fields)])] =>
    match obj_get "name" fields with Some (JStr c) => c | _ => EmptyString end
  | _ => EmptyString
  end.

Definition tool : NftTool kernel := {|
  nft_list n k := Done (dump_doc (map entry_of (objects k)));
  nft_check n s k := Done tt;
  nft_load n s k := ((["input"], snd k), Done tt);
  nft_json n j k :=
    match j with
    | JObj [(_, JArr (_ :: _ :: adds))] => ((map added adds, snd k), Done tt)
    | _ => (k, Failed "syntax error")
    end;
|}.

Lemma own_owned c : owned (own_chain c) = true.
Proof. reflexivity. Qed.
Lemma other_not_owned t : owned (other_table t) = false.
Proof. reflexivity. Qed.

Lemma filter_objects k : List.filter owned (objects k) = map own_chain (fst k).
Proof.
  unfold objects. rewrite List.filter_app. destruct k as [own other]; simpl.
  induction own as [|c own IH]; simpl; [|by rewrite IH].
  induction other as [|t other IH]; simpl; done.
Qed.

Lemma filter_foreign k :
  List.filter (fun x => negb (owned x)) (objects k) = map other_table (snd k).
Proof.
  unfold objects. rewrite List.filter_app. destruct k as [own other]; simpl.
  induction own as [|c own IH]; simpl; [|done].
  induction other as [|t other IH]; simpl; [done|]. by rewrite IH.
Qed.

Lemma added_own l : map added (map add_command (map (fun e => [e]) (map clean (map own_chain l)))) = l.
Proof. induction l as [|c l IH]; [done|]. cbn [map]. rewrite IH. f_equal. Qed.

#[global, program] Instance tool_laws : NftLaws tool := {|
  listing := objects;
  denote s := map clean [own_chain "input"];
|}.
Next Obligation. intros n k r [= <-]. apply parse_dump_doc. Qed.
Next Obligation. intros n s k k' o [= <- <-]. rewrite !filter_objects, !filter_foreign. auto. Qed.
Next Obligation.
  intros n k0 k k' o Hj. rewrite !filter_objects in Hj. unfold tool, restore_script in Hj.
  cbn [nft_json app] in Hj. rewrite added_own in Hj. injection Hj as <- <-.
  rewrite !filter_objects, !filter_foreign. split; [by right|done].
Qed.

Definition before : kernel := (["input"; "forward"], ["tailscale"]).
Definition guard : ReachabilityGuard := mkGuard "tailscale0" 7443.
Definition policy : DesiredState :=
  mkDesired false {["lan" := mkZone ["eth0"] (Some 22) None [] [] EmptyString [] false []]} None None false.
Definition script : string := match Render ["lan"] policy guard with Ok t => t | Err _ => EmptyString end.

Lemma owned_exact_witness :
  parse_dump (dump_doc (map entry_of (map own_chain ["input"; "forward"])))
  = Some (map entry_of (List.filter owned (objects before))).
Proof.
  apply (owned_exact (objects before) (dump_doc (map entry_of (objects before)))).
  - vm_compute. reflexivity.
  - vm_compute. reflexivity.
Defined.

Lemma restore_script_shape_witness :
  exists entries, restore_script [[clean (own_chain "input")]]
      = JObj [("nftables", JArr (JObj [("add", table_ref)] :: JObj [("delete", table_ref)]
                                 :: map add_command entries))]
    /\ Forall (Forall (fun km => snd km !! "handle" = None)) entries.
Proof.
  apply (restore_script_shape (dump_doc [entry_of (own_chain "input")])). vm_compute. reflexivity.
Defined.

(** The chains of this kernel have no filter hook, so a redirect-only request is accepted. *)
Lemma redirect_only_coexists_witness :
  exists c, dec_nft_chain (JObj (snd (own_chain "input"))) = Some c /\ filtering c = false.
Proof.
  apply (redirect_only_coexists tool 0 script before (dump_doc (map entry_of (map own_chain ["input"; "forward"])))).
  - vm_compute. reflexivity.
  - left.
Defined.

Definition saved : raw := dump_doc (map entry_of (map own_chain ["input"; "forward"])).

Lemma firewall_rolls_back_witness :
  contents tool (fst (Restore tool 2 saved (["input"], ["tailscale"]))) = contents tool before.
Proof.
  apply (firewall_rolls_back tool guard 0 1 2 (script, false) before saved ["lan"] policy script
    (["input"], ["tailscale"]) (Done tt) (fst (Restore tool 2 saved (["input"], ["tailscale"]))) (Done tt)).
  - vm_compute. reflexivity.
  - vm_compute. reflexivity.
  - reflexivity.
  - vm_compute. reflexivity.
  - reflexivity.
Defined.

End NftExample.
