(* ===== verification/Ifupdown.v ===== *)
(** internal/netconfig/ifupdown.go: the boot include tree.

    [checkIfupdownFiles] follows ifupdown's include directives from the main file over the
    files captured and about to be written.  The path functions are those of path/filepath
    on Unix; names are taken to be ASCII, so a byte is a rune. *)

From S2P Require Import Prelude.
From Stdlib Require Import Ascii.
Local Open Scope nat_scope.

Definition InterfacesDir : string := "/etc/network/interfaces.d".
Definition interfacesMain : string := "/etc/network/interfaces".

(** * path/filepath *)

(** filepath.Clean: [stack] holds the elements kept, last first. *)
Fixpoint clean_elems (rooted : bool) (stack : list string) (elems : list string) : list string :=
  match elems with
  | [] => rev stack
  | e :: elems' =>
    if is_empty e || (e =?s ".") then clean_elems rooted stack elems'
    else if e =?s ".." then
      match stack with
      | top :: stack' =>
        if negb rooted && (top =?s "..") then clean_elems rooted (e :: stack) elems'
        else clean_elems rooted stack' elems'
      | [] => if rooted then clean_elems rooted [] elems' else clean_elems rooted [e] elems'
      end
    else clean_elems rooted (e :: stack) elems'
  end.

Definition IsAbs (path : string) : bool := has_prefix path "/".

Definition Clean (path : string) : string :=
  if is_empty path then "."
  else
    let elems := clean_elems (IsAbs path) [] (split_char "/" path) in
    if IsAbs path then "/" +++ join "/" elems
    else if is_empty (join "/" elems) then "." else join "/" elems.

(** Everything up to and including the last slash, and what follows it. *)
Fixpoint split_last_slash (l : list ascii) : list ascii * list ascii :=
  match l with
  | [] => ([], [])
  | c :: l' =>
    let '(d, b) := split_last_slash l' in
    match d with
    | [] => if Ascii.eqb c "/" then ([c], b) else ([], c :: b)
    | _ => (c :: d, b)
    end
  end.

Definition Dir (path : string) : string :=
  Clean (string_of_chars (fst (split_last_slash (string_chars path)))).

Fixpoint drop_slashes (l : list ascii) : list ascii :=
  match l with c :: l' => if Ascii.eqb c "/" then drop_slashes l' else l | [] => [] end.

Definition Base (path : string) : string :=
  if is_empty path then "."
  else match rev (drop_slashes (rev (string_chars path))) with
       | [] => "/"
       | l => string_of_chars (snd (split_last_slash l))
       end.

Definition Join (a b : string) : string :=
  if is_empty a then (if is_empty b then EmptyString else Clean b)
  else if is_empty b then Clean a else Clean (a +++ "/" +++ b).

(** ** filepath.Match *)

Fixpoint scan_stars (l : list ascii) : bool * list ascii :=
  match l with
  | "*"%char :: l' => (true, snd (scan_stars l'))
  | _ => (false, l)
  end.

(** The chunk up to the next star outside brackets, and the rest. *)
Fixpoint scan_body (inrange : bool) (l : list ascii) : list ascii * list ascii :=
  match l with
  | [] => ([], [])
  | "*"%char :: l' =>
    if inrange then let '(a, b) := scan_body inrange l' in ("*"%char :: a, b) else ([], l)
  | "\"%char :: c :: l' => let '(a, b) := scan_body inrange l' in ("\"%char :: c :: a, b)
  | "["%char :: l' => let '(a, b) := scan_body true l' in ("["%char :: a, b)
  | "]"%char :: l' => let '(a, b) := scan_body false l' in ("]"%char :: a, b)
  | c :: l' => let '(a, b) := scan_body inrange l' in (c :: a, b)
  end.

Definition scan_chunk (l : list ascii) : bool * list ascii * list ascii :=
  let '(star, l') := scan_stars l in
  let '(chunk, rest) := scan_body false l' in (star, chunk, rest).

(** getEsc: one character of a class; [None] is ErrBadPattern. *)
Definition get_esc (l : list ascii) : option (ascii * list ascii) :=
  match l with
  | [] => None
  | c :: l' =>
    if Ascii.eqb c "-" || Ascii.eqb c "]" then None
    else if Ascii.eqb c "\" then
      match l' with d :: (_ :: _) as r => Some (d, tl l') | _ => None end
    else match l' with [] => None | _ => Some (c, l') end
  end.

(** The ranges of a class; [fuel] is the length of the chunk, of which every range takes at
    least one byte. *)
Fixpoint class_ranges (fuel : nat) (r : ascii) (first matched : bool) (l : list ascii) :
    option (bool * list ascii) :=
  match fuel with
  | O => None
  | S fuel' =>
    match l with
    | c :: l' =>
      if Ascii.eqb c "]" && negb first then Some (matched, l')
      else
        '(lo, l1) ← get_esc l;
        '(hi, l2) ← (match l1 with
                     | d :: l1' => if Ascii.eqb d "-" then get_esc l1' else Some (lo, l1)
                     | [] => Some (lo, l1)
                     end);
        class_ranges fuel' r false
          (matched || ((byte_of lo <=? byte_of r)%Z && (byte_of r <=? byte_of hi)%Z)) l2
    | [] => None
    end
  end.

(** matchChunk: [None] is ErrBadPattern, [Some None] no match, [Some (Some t)] a match with
    [t] left over.  [s] is [None] once the match has failed. *)
Fixpoint match_chunk (fuel : nat) (chunk : list ascii) (s : option (list ascii)) :
    option (option (list ascii)) :=
  match fuel with
  | O => Some None
  | S fuel' =>
    match chunk with
    | [] => Some s
    | c :: chunk' =>
      let s := match s with Some [] => None | _ => s end in
      if Ascii.eqb c "[" then
        let '(r, s1) := match s with Some (x :: s') => (x, Some s') | _ => ("000"%char, None) end in
        let '(negated, body) := match chunk' with
                                | d :: chunk'' => if Ascii.eqb d "^" then (true, chunk'') else (false, chunk')
                                | [] => (false, chunk')
                                end in
        '(matched, rest) ← class_ranges (S (length body)) r true false body;
        match_chunk fuel' rest (if Bool.eqb matched negated then None else s1)
      else if Ascii.eqb c "?" then
        match_chunk fuel' chunk'
          (match s with Some (x :: s') => if Ascii.eqb x "/" then None else Some s' | _ => None end)
      else if Ascii.eqb c "\" then
        match chunk' with
        | [] => None
        | d :: chunk'' =>
          match_chunk fuel' chunk''
            (match s with Some (x :: s') => if Ascii.eqb x d then Some s' else None | _ => None end)
        end
      else
        match_chunk fuel' chunk'
          (match s with Some (x :: s') => if Ascii.eqb x c then Some s' else None | _ => None end)
    end
  end.

Definition matchChunk (chunk s : list ascii) : option (option (list ascii)) :=
  match_chunk (S (length chunk)) chunk (Some s).

(** The search for a place after a star: the first suffix the chunk matches, not past a
    slash; the last chunk must use up the name. *)
Fixpoint star_search (chunk : list ascii) (last : bool) (name : list ascii) :
    option (option (list ascii)) :=
  match name with
  | [] => Some None
  | c :: name' =>
    if Ascii.eqb c "/" then Some None
    else match matchChunk chunk name' with
         | None => None
         | Some (Some t) =>
           if last && (match t with [] => false | _ => true end) then star_search chunk last name'
           else Some (Some t)
         | Some None => star_search chunk last name'
         end
  end.

(** The rest of a pattern that can no longer match still has to be well formed. *)
Fixpoint rest_valid (fuel : nat) (pattern : list ascii) : option bool :=
  match fuel, pattern with
  | _, [] => Some false
  | O, _ => Some false
  | S fuel', _ => let '(_, chunk, rest) := scan_chunk pattern in
                  _ ← matchChunk chunk []; rest_valid fuel' rest
  end.

Fixpoint match_pattern (fuel : nat) (pattern name : list ascii) : option bool :=
  match fuel, pattern with
  | _, [] => Some (match name with [] => true | _ => false end)
  | O, _ => Some false
  | S fuel', _ =>
    let '(star, chunk, rest) := scan_chunk pattern in
    let last := match rest with [] => true | _ => false end in
    if star && (match chunk with [] => true | _ => false end) then
      Some (negb (existsb (Ascii.eqb "/") name))
    else
      here ← matchChunk chunk name;
      match here with
      | Some t => if (match t with [] => true | _ => false end) || negb last
                  then match_pattern fuel' rest t
                  else if star then
                    found ← star_search chunk last name;
                    match found with
                    | Some t' => match_pattern fuel' rest t'
                    | None => rest_valid fuel' rest
                    end
                  else rest_valid fuel' rest
      | None => if star then
                  found ← star_search chunk last name;
                  match found with
                  | Some t' => match_pattern fuel' rest t'
                  | None => rest_valid fuel' rest
                  end
                else rest_valid fuel' rest
      end
  end.

(** filepath.Match; [None] is ErrBadPattern. *)
Definition Match (pattern name : string) : option bool :=
  match_pattern (S (String.length pattern)) (string_chars pattern) (string_chars name).

(** * checkIfupdownFiles *)

(** The words of a line without its comment; the lines of a file. *)
Definition words_of (line : string) : list string := fields (before_char "#" line).
Definition lines_of (content : string) : list string := split_char "010" content.

Definition iface_key (words : list string) : option string :=
  match words with
  | w :: name :: family :: _ :: _ => if w =?s "iface" then Some (name +++ " " +++ family) else None
  | _ => None
  end.

Definition directory_char (c : ascii) : bool := is_alnum c || Ascii.eqb c "_" || Ascii.eqb c "-".
Definition directoryName (name : string) : bool := negb (is_empty name) && str_forallb directory_char name.

Definition wildcard (pattern : string) : bool :=
  contains_char "*" pattern || contains_char "?" pattern || contains_char "[" pattern.

(** The captured maps that visit changes: reached, and claims. *)
Record walk := mkWalk { reached : gset string; claims : gmap string string }.

Section Visit.
Context (files : gmap string string).

Definition absolute (path pattern : string) : string :=
  if IsAbs pattern then pattern else Join (Dir path) pattern.

Definition include_dir (directive pattern : string) : string :=
  if directive =?s "source-directory" then pattern else Dir pattern.

(** Whether a captured file is one the directive includes: [None] for a bad pattern. *)
Definition included (directive pattern p : string) : option bool :=
  if directive =?s "source-directory" then
    if directoryName (Base p) then Match pattern (Dir p) else Some false
  else Match pattern p.

(** One file of the loop over sortedKeys(files); the state is (walk, found). *)
Definition visit_file (visit : string -> walk -> result string walk) (directive pattern : string)
    (st : walk * bool) (p : string) : result string (walk * bool) :=
  match included directive pattern p with
  | None => Err ("invalid ifupdown include " +++ pattern)
  | Some false => Ok st
  | Some true => w ← visit p (fst st); Ok (w, true)
  end.

Definition visit_pattern (visit : string -> walk -> result string walk) (path directive : string)
    (w : walk) (pat : string) : result string walk :=
  let pattern := absolute path pat in
  fail_if (negb (include_dir directive pattern =?s InterfacesDir))
    ("ifupdown include directory is not fully captured: " +++ include_dir directive pattern);;
  st ← fold_m (visit_file visit directive pattern) (w, false) (sorted_keys files);
  fail_if ((directive =?s "source") && negb (snd st) && negb (wildcard pattern))
    ("ifupdown include not captured: " +++ pattern);;
  Ok (fst st).

Definition claim (path : string) (words : list string) (w : walk) : result string walk :=
  match iface_key words with
  | None => Ok w
  | Some key =>
    match claims w !! key with
    | Some prior => Err ("duplicate ifupdown definition " +++ key +++ ": " +++ prior +++ " and " +++ path)
    | None => Ok (mkWalk (reached w) (<[key := path]> (claims w)))
    end
  end.

Definition visit_line (visit : string -> walk -> result string walk) (path : string)
    (w : walk) (line : string) : result string walk :=
  match words_of line with
  | [] => Ok w
  | directive :: args =>
    w1 ← claim path (directive :: args) w;
    if (directive =?s "source") || (directive =?s "source-directory")
    then fold_m (visit_pattern visit path directive) w1 args
    else Ok w1
  end.

(** [active] are the files being visited; [fuel] bounds their number. *)
Fixpoint visit (fuel : nat) (active : gset string) (path : string) (w : walk) : result string walk :=
  match fuel with
  | O => Err "out of fuel"
  | S fuel' =>
    fail_if (bool_decide (path ∈ active)) ("ifupdown include cycle: " +++ path);;
    match files !! path with
    | None => Err ("ifupdown file was not captured: " +++ path)
    | Some content =>
      fold_m (visit_line (visit fuel' ({[path]} ∪ active)) path)
        (mkWalk ({[path]} ∪ reached w) (claims w)) (lines_of content)
    end
  end.

End Visit.

Definition in_dir (p : string) : bool := has_prefix p (InterfacesDir +++ "/").

Definition generated (desired : gmap string string) : list string :=
  List.filter in_dir (sorted_keys desired).

(** The check of one desired file after the walk. *)
Definition check_desired (current : gmap string string) (w : walk) (p : string) : result string unit :=
  fail_if (in_dir p && negb (bool_decide (p ∈ reached w)))
    ("generated interface file is not loaded at boot: " +++ p);;
  for_each (fun line =>
    match iface_key (words_of line) with
    | Some key => fail_if (is_empty (default EmptyString (claims w !! key)))
                    ("write would remove boot configuration for " +++ key +++ " from " +++ p)
    | None => Ok tt
    end) (lines_of (lookup_default current p EmptyString)).

Definition checkIfupdownFiles (current desired : gmap string string) : result string unit :=
  let files := desired ∪ current in
  match generated desired with
  | [] => Ok tt
  | _ =>
    w ← visit files (S (size files)) ∅ interfacesMain (mkWalk ∅ ∅);
    for_each (check_desired current w) (sorted_keys desired)
  end.

(** * What an accepted tree guarantees *)

Definition ifaces_in (content : string) : list string :=
  omap (fun line => iface_key (words_of line)) (lines_of content).

Definition is_include (directive : string) : bool :=
  (directive =?s "source") || (directive =?s "source-directory").

(** File [p] includes the captured file [q]. *)
Definition includes (files : gmap string string) (p q : string) : Prop :=
  exists content line directive args pat,
    files !! p = Some content /\ line ∈ lines_of content /\ words_of line = directive :: args
    /\ is_include directive = true /\ pat ∈ args
    /\ included directive (absolute p pat) q = Some true /\ q ∈ sorted_keys files.

(** The files ifupdown loads at boot. *)
Inductive loaded (files : gmap string string) : string -> Prop :=
| loaded_main : loaded files interfacesMain
| loaded_include p q : loaded files p -> includes files p q -> loaded files q.

(** The iface stanzas of a file. *)
Definition defines (files : gmap string string) (p key : string) : Prop :=
  exists content, files !! p = Some content /\ key ∈ ifaces_in content.

Section Sound.
Context (files : gmap string string).

Record walk_inv (active : gset string) (w : walk) : Prop := {
  wi_loaded p : p ∈ reached w -> loaded files p;
  wi_claims key p : claims w !! key = Some p -> p ∈ reached w /\ defines files p key;
  wi_defines p key : p ∈ reached w -> p ∉ active -> defines files p key -> claims w !! key = Some p;
  wi_includes p q : p ∈ reached w -> p ∉ active -> includes files p q -> q ∈ reached w;
}.

Definition grows (w w' : walk) : Prop := reached w ⊆ reached w' /\ claims w ⊆ claims w'.

#[local] Instance grows_preorder : PreOrder grows.
Proof.
  split; [by intros w|]. intros w1 w2 w3 [? ?] [? ?]. split; by etrans.
Qed.

#[local] Instance grows_fst_preorder : PreOrder (fun a b : walk * bool => grows (fst a) (fst b)).
Proof. split; [by intros ?|]. intros ???. apply transitivity. Qed.

Definition visits (active : gset string) (v : string -> walk -> result string walk) : Prop :=
  forall p w w', walk_inv active w -> loaded files p -> v p w = Ok w' ->
    walk_inv active w' /\ grows w w' /\ p ∈ reached w'.

Lemma visit_pattern_sound active v path directive pat w w' :
  visits active v -> walk_inv active w -> loaded files path ->
  (exists content line args, files !! path = Some content /\ line ∈ lines_of content
     /\ words_of line = directive :: args /\ pat ∈ args) -> is_include directive = true ->
  visit_pattern files v path directive w pat = Ok w' ->
  walk_inv active w' /\ grows w w'
  /\ forall q, q ∈ sorted_keys files -> included directive (absolute path pat) q = Some true -> q ∈ reached w'.
Proof.
  intros Hv Hi Hl (content & line & args & Hc & Hline & Hw & Hpat) Hinc. unfold visit_pattern.
  rewrite seq_ok, result_bind_ok. intros (_ & st & Hf & Hrest). apply seq_ok in Hrest as [_ [= <-]].
  apply (fold_m_spec _ (fun st => walk_inv active (fst st)) (fun a b => grows (fst a) (fst b))
    (fun q st => included directive (absolute path pat) q = Some true -> q ∈ reached (fst st))) in Hf
    as (Hi' & Hg & Hall).
  - split_and!; [done..|]. intros q Hq Hm. rewrite Forall_forall in Hall. by apply Hall.
  - intros q a b [Hg _] Hq Hm. by apply Hg, Hq.
  - intros q a b Hq Ha. unfold visit_file.
    destruct (included directive (absolute path pat) q) as [[]|] eqn:Em; [| |done].
    + rewrite result_bind_ok. intros (w1 & Hw1 & [= <-]). simpl.
      destruct (Hv q (fst a) w1 Ha) as (? & ? & ?); [|done|by split_and!].
      eapply loaded_include; [exact Hl|]. exists content, line, directive, args, pat. by split_and!.
    + intros [= <-]. by split_and!.
  - done.
Qed.

Lemma claim_sound active path words w w' content line :
  walk_inv active w -> path ∈ active -> path ∈ reached w ->
  files !! path = Some content -> line ∈ lines_of content -> words_of line = words ->
  claim path words w = Ok w' ->
  walk_inv active w' /\ grows w w' /\ forall key, iface_key words = Some key -> claims w' !! key = Some path.
Proof.
  intros [I1 I2 I3 I4] Hact Hre Hc Hline Hw. unfold claim.
  destruct (iface_key words) as [key|] eqn:Ek; [|intros [= <-]; by split_and!].
  destruct (claims w !! key) as [prior|] eqn:Ep; [done|]. intros [= <-].
  assert (Hd : defines files path key).
  { exists content. split; [done|]. unfold ifaces_in. apply list_elem_of_omap. exists line. by rewrite Hw. }
  split_and!; [split; simpl| |].
  - exact I1.
  - intros k p. rewrite lookup_insert. case_decide as E; [subst|apply I2]. intros [= <-]. done.
  - intros p k Hp Hna Hdef. rewrite lookup_insert. case_decide as E; [subst|by apply I3].
    rewrite (I3 p k Hp Hna Hdef) in Ep. done.
  - exact I4.
  - split; [done|]. simpl. by apply insert_subseteq.
  - intros k [= <-]. simpl. apply lookup_insert_eq.
Qed.

(** What is left behind for a line already read. *)
Definition line_done (path line : string) (w : walk) : Prop :=
  (forall key, iface_key (words_of line) = Some key -> claims w !! key = Some path)
  /\ forall directive args pat q, words_of line = directive :: args -> is_include directive = true ->
       pat ∈ args -> included directive (absolute path pat) q = Some true -> q ∈ sorted_keys files ->
       q ∈ reached w.

Lemma line_done_grows path line w w' : grows w w' -> line_done path line w -> line_done path line w'.
Proof.
  intros [Hr Hc] [H1 H2]. split.
  - intros key Hk. eapply lookup_weaken; [by apply H1|done].
  - intros directive args pat q Hw Hd Hp Hi Hq. apply Hr. by eapply H2.
Qed.

Lemma visit_line_sound active v path content line w w' :
  visits active v -> walk_inv active w -> loaded files path -> path ∈ active -> path ∈ reached w ->
  files !! path = Some content -> line ∈ lines_of content ->
  visit_line files v path w line = Ok w' ->
  walk_inv active w' /\ grows w w' /\ line_done path line w'.
Proof.
  intros Hv Hi Hl Hact Hre Hc Hline. unfold visit_line.
  destruct (words_of line) as [|directive args] eqn:Ew.
  { intros [= <-]. split_and!; [done..|]. unfold line_done. rewrite Ew. by split. }
  rewrite result_bind_ok. intros (w1 & H1 & H2).
  destruct (claim_sound active path _ w w1 content line Hi Hact Hre Hc Hline Ew H1) as (Hi1 & Hg1 & Hk1).
  change ((directive =?s "source") || (directive =?s "source-directory")) with (is_include directive) in H2.
  destruct (is_include directive) eqn:Ed.
  - apply (fold_m_spec _ (walk_inv active) grows (fun pat w => forall q, q ∈ sorted_keys files ->
      included directive (absolute path pat) q = Some true -> q ∈ reached w)) in H2 as (Hi2 & Hg2 & Hall).
    + split; [done|]. split; [by etrans|]. split.
      * rewrite Ew. intros key Hk. eapply lookup_weaken; [by apply Hk1 | apply Hg2].
      * rewrite Ew. intros d a pat q [= <- <-] _ Hp Hinc Hq. rewrite Forall_forall in Hall. by apply (Hall pat).
    + intros pat a b [Hg _] H q Hq Hm. by apply Hg, H.
    + intros pat a b Hp Ha Hb. eapply visit_pattern_sound in Hb; try done. by exists content, line, args.
    + done.
  - injection H2 as <-. split_and!; [done..|]. split; rewrite Ew; [done|]. intros d a pat q [= <- <-]. by rewrite Ed.
Qed.

Lemma walk_inv_enter path active w :
  loaded files path -> walk_inv active w ->
  walk_inv ({[path]} ∪ active) (mkWalk ({[path]} ∪ reached w) (claims w)).
Proof.
  intros Hl [I1 I2 I3 I4]. split; simpl.
  - intros p [->%elem_of_singleton|Hp]%elem_of_union; [done|by apply I1].
  - intros key p Hk. destruct (I2 key p Hk). split; [set_solver|done].
  - intros p key Hp Hna. apply I3; set_solver.
  - intros p q Hp Hna Hq. apply elem_of_union_r. apply (I4 p); set_solver.
Qed.

Lemma walk_inv_leave path content active w :
  files !! path = Some content -> Forall (fun line => line_done path line w) (lines_of content) ->
  walk_inv ({[path]} ∪ active) w -> walk_inv active w.
Proof.
  rewrite Forall_forall. intros Hc Hall [I1 I2 I3 I4]. split; [done..| |].
  - intros p key Hp Hna Hd. destruct (decide (p = path)) as [->|]; [|apply I3; set_solver].
    destruct Hd as (content' & Hc' & (line & Hin & Hk)%list_elem_of_omap).
    rewrite Hc in Hc'. injection Hc' as <-. by apply (Hall line).
  - intros p q Hp Hna Hi. destruct (decide (p = path)) as [->|]; [|apply (I4 p); set_solver].
    destruct Hi as (content' & line & directive & args & pat & Hc' & Hin & Hw & Hd & Hpat & Hm & Hq).
    rewrite Hc in Hc'. injection Hc' as <-. destruct (Hall line Hin) as [_ H]. by eapply H.
Qed.

Lemma visit_sound fuel active : visits active (visit files fuel active).
Proof.
  revert active. induction fuel as [|fuel IH]; intros active path w w' Hi Hl; simpl; [done|].
  rewrite seq_ok. intros [_ H]. destruct (files !! path) as [content|] eqn:Hc; [|done].
  apply (fold_m_spec _
    (fun w => walk_inv ({[path]} ∪ active) w /\ path ∈ reached w) grows (line_done path)) in H
    as ([Hi' Hr'] & [Hg1 Hg2] & Hall).
  - split; [by eapply walk_inv_leave|]. simpl in *. split; [|done]. split; [set_solver|done].
  - intros line a b. apply line_done_grows.
  - intros line a b Hin [Ha Hra] Hb.
    eapply visit_line_sound in Hb as (? & Hg & ?); [|by apply IH|try done; set_solver..].
    split_and!; [done| |done|done]. by apply Hg.
  - split; [by apply walk_inv_enter|]. simpl. set_solver.
Qed.

(** The walk reaches exactly the files ifupdown loads, and claims exactly their stanzas. *)
Lemma visit_exact fuel w :
  visit files fuel ∅ interfacesMain (mkWalk ∅ ∅) = Ok w ->
  (forall p, p ∈ reached w <-> loaded files p)
  /\ (forall key p, claims w !! key = Some p <-> loaded files p /\ defines files p key).
Proof.
  intros H. apply visit_sound in H as ([I1 I2 I3 I4] & _ & Hm); [|by split|constructor].
  assert (Hre : forall p, p ∈ reached w <-> loaded files p).
  { intros p. split; [apply I1|]. induction 1 as [|p q _ IH Hi]; [done|]. by apply (I4 p). }
  split; [done|]. intros key p. split.
  - intros Hk. destruct (I2 key p Hk) as [Hp Hd]. by rewrite <-Hre.
  - intros [Hp Hd]. by apply I3; [apply Hre| |].
Qed.

End Sound.

(** When the boot check accepts a request that generates files under interfaces.d, the
    include tree of the resulting configuration is unambiguous: ifupdown loads every generated
    file, no iface stanza is defined in two loaded files, and every stanza that a rewritten file
    used to hold is still defined by some loaded file. *)
Theorem boot_tree_sound current desired :
  checkIfupdownFiles current desired = Ok tt -> generated desired <> [] ->
  let files := desired ∪ current in
  (forall p, p ∈ dom desired -> in_dir p = true -> loaded files p)
  /\ (forall p q key, loaded files p -> loaded files q ->
        defines files p key -> defines files q key -> p = q)
  /\ (forall p key, p ∈ dom desired -> defines current p key ->
        exists q, loaded files q /\ defines files q key).
Proof.
  unfold checkIfupdownFiles. destruct (generated desired) eqn:Eg; [done|].
  intros H _. apply result_bind_ok in H as (w & Hw & Hall).
  apply visit_exact in Hw as [Hr Hc]. rewrite for_each_ok, Forall_forall in Hall.
  assert (Hd : forall p, p ∈ dom desired -> check_desired current w p = Ok tt).
  { intros p Hp. apply Hall. by apply elem_of_sorted_keys, elem_of_dom. }
  split_and!.
  - intros p Hp Hin. apply Hr. apply Hd in Hp. unfold check_desired in Hp.
    rewrite seq_ok, fail_if_ok, Hin in Hp. destruct Hp as [Hp _].
    by destruct (bool_decide_reflect (p ∈ reached w)).
  - intros p q key Hp Hq Hdp Hdq. assert (H1 : claims w !! key = Some p) by (by apply Hc).
    assert (H2 : claims w !! key = Some q) by (by apply Hc). congruence.
  - intros p key Hp (content & Hcur & (line & Hin & Hk)%list_elem_of_omap).
    apply Hd in Hp. unfold check_desired in Hp. rewrite seq_ok, for_each_ok, Forall_forall in Hp.
    destruct Hp as [_ Hp]. unfold lookup_default in Hp. rewrite Hcur in Hp. specialize (Hp line Hin).
    rewrite Hk, fail_if_ok in Hp. destruct (claims w !! key) as [q|] eqn:E; [|done].
    exists q. by apply Hc.
Qed.

(** * Termination of the walk *)

Lemma fold_m_ext {E A S} (f g : S -> A -> result E S) s l :
  (forall s x, f s x = g s x) -> fold_m f s l = fold_m g s l.
Proof.
  intros H. revert s. induction l as [|x l IH]; intros s; simpl; [done|].
  rewrite H. destruct (g s x); [apply IH|done].
Qed.

Lemma visit_line_ext files v1 v2 path w line :
  (forall p w, v1 p w = v2 p w) -> visit_line files v1 path w line = visit_line files v2 path w line.
Proof.
  intros H. unfold visit_line. destruct (words_of line) as [|d args]; [done|].
  destruct (claim path (d :: args) w) as [w1|]; [|done]. cbn [mbind result_bind].
  destruct (_ || _); [|done]. apply fold_m_ext. intros w2 pat. unfold visit_pattern.
  rewrite (fold_m_ext (visit_file v1 d (absolute path pat)) (visit_file v2 d (absolute path pat))); [done|].
  intros st q. unfold visit_file. by rewrite H.
Qed.

Lemma visit_fuel files fuel1 fuel2 active path w :
  active ⊆ dom files -> size files < size active + fuel1 -> fuel1 <= fuel2 ->
  visit files fuel1 active path w = visit files fuel2 active path w.
Proof.
  revert fuel2 active path w. induction fuel1 as [|fuel1 IH]; intros fuel2 active path w Hsub Hsz Hle.
  - apply subseteq_size in Hsub. rewrite size_dom in Hsub. lia.
  - destruct fuel2 as [|fuel2]; [lia|]. simpl. destruct (bool_decide_reflect (path ∈ active)) as [|Hna]; [done|].
    simpl. destruct (files !! path) as [content|] eqn:Hc; [|done].
    apply fold_m_ext. intros w1 line. apply visit_line_ext. intros p w2. apply IH; [| |lia].
    + apply union_subseteq. split; [|done]. apply singleton_subseteq_l, elem_of_dom. by exists content.
    + rewrite size_union, size_singleton by set_solver. lia.
Qed.

(** The recursion of the boot check ends on every tree, cyclic ones included: from any set of
    files being visited, the walk with the model's bound satisfies the recursive equation of the
    code, in which no bound appears. *)
Theorem visit_terminates files active path w :
  active ⊆ dom files ->
  let visit := visit files (S (size files)) in
  visit active path w =
    (fail_if (bool_decide (path ∈ active)) ("ifupdown include cycle: " +++ path);;
     match files !! path with
     | None => Err ("ifupdown file was not captured: " +++ path)
     | Some content =>
       fold_m (visit_line files (visit ({[path]} ∪ active)) path)
         (mkWalk ({[path]} ∪ reached w) (claims w)) (lines_of content)
     end).
Proof.
  intros Hsub v. unfold v at 1. simpl. destruct (bool_decide_reflect (path ∈ active)) as [|Hna]; [done|].
  simpl. destruct (files !! path) as [content|] eqn:Hc; [|done].
  apply fold_m_ext. intros w1 line. apply visit_line_ext. intros p w2. apply visit_fuel; [| |lia].
  - apply union_subseteq. split; [|done]. apply singleton_subseteq_l, elem_of_dom. by exists content.
  - rewrite size_union, size_singleton by set_solver. lia.
Qed.

(** * A concrete boot tree *)

Module BootTree.

Definition current : gmap string string :=
  {[ interfacesMain := "auto lo" +++ newline +++ "iface lo inet loopback" +++ newline
       +++ "source interfaces.d/*";
     InterfacesDir +++ "/old" := "iface eth0 inet dhcp" ]}.

Definition desired : gmap string string :=
  {[ InterfacesDir +++ "/old" := "# moved";
     InterfacesDir +++ "/ghost" := "iface eth0 inet dhcp" +++ newline +++ "iface eth0.5 inet static # lan" ]}.

Lemma boot_tree_sound_witness :
  checkIfupdownFiles current desired = Ok tt /\ loaded (desired ∪ current) (InterfacesDir +++ "/ghost").
Proof.
  assert (H : checkIfupdownFiles current desired = Ok tt) by (vm_compute; reflexivity).
  split; [exact H|].
  apply (boot_tree_sound current desired H); [vm_compute; discriminate| |vm_compute; reflexivity].
  apply elem_of_dom. vm_compute. eauto.
Defined.

Lemma visit_terminates_witness :
  {[interfacesMain]} ⊆ dom current
  /\ visit current (S (size current)) {[interfacesMain]} interfacesMain (mkWalk ∅ ∅)
     = Err ("ifupdown include cycle: " +++ interfacesMain).
Proof.
  assert (H : {[interfacesMain]} ⊆ dom current).
  { apply singleton_subseteq_l, elem_of_dom. vm_compute. eauto. }
  split; [exact H|]. rewrite (visit_terminates current {[interfacesMain]} interfacesMain (mkWalk ∅ ∅) H).
  vm_compute. reflexivity.
Defined.

(** The same stanza in two loaded files is refused. *)
Example duplicate_refused :
  checkIfupdownFiles current {[ InterfacesDir +++ "/ghost" := "iface eth0 inet dhcp" ]}
  = Err ("duplicate ifupdown definition eth0 inet: " +++ InterfacesDir +++ "/ghost and "
         +++ InterfacesDir +++ "/old").
Proof. vm_compute. reflexivity. Qed.

End BootTree.
