(* ===== verification/Tftp.v ===== *)
(** internal/addressbook/tftp.go: which file a TFTP request gets.

    Symbolic links, opening and inspecting a file are answers of the file system; the laws used of
    filepath.EvalSymlinks are the documented ones. *)

From S2P Require Import Prelude Ifupdown.
From Stdlib Require Import Ascii.
Local Open Scope Z_scope.

(** * filepath.Rel *)

Definition path_elems (p : string) : list string := List.filter (fun e => negb (is_empty e)) (split_char "/" p).

(** What is left of two paths after the elements they share. *)
Fixpoint strip_common (b t : list string) : list string * list string :=
  match b, t with
  | x :: b', y :: t' => if x =?s y then strip_common b' t' else (b, t)
  | _, _ => (b, t)
  end.

Definition Rel (basepath targpath : string) : result string string :=
  let targ := Clean targpath in
  if targ =?s Clean basepath then Ok "." else
  let base := if Clean basepath =?s "." then EmptyString else Clean basepath in
  let no := "Rel: can't make " +++ targpath +++ " relative to " +++ basepath in
  if negb (Bool.eqb (IsAbs base) (IsAbs targ)) then Err no
  else match strip_common (path_elems base) (path_elems targ) with
       | ([], t) => Ok (join "/" t)
       | (e :: b, t) => if e =?s ".." then Err no else Ok (join "/" (map (fun _ => "..") (e :: b) ++ t))
       end.

(** * openInRoot *)

Definition maxTFTPFile : Z := Z.shiftl 256 20.

Definition slashes (s : string) : string := string_of_chars (map (fun c => if Ascii.eqb c "\" then "/"%char else c) (string_chars s)).

Section Tftp.
Context (EvalSymlinks : string -> result string string).
Context (Open : string -> result string unit) (Stat : string -> result string (bool * Z)).   (* regular, size *)

Definition openInRoot (root name0 : string) : result string string :=
  let name := slashes name0 in
  let clean := Clean ("/" +++ name) in
  fail_if ((clean =?s "/") || contains_char "000" name) "invalid file name";;
  realRoot ← EvalSymlinks root;
  match EvalSymlinks (Join realRoot clean) with
  | Err _ => Err "file not found"
  | Ok resolved =>
    match Rel realRoot resolved with
    | Err _ => Err "file not found"
    | Ok rel =>
      fail_if ((rel =?s "..") || has_prefix rel "../") "file not found";;
      match Open resolved, Stat resolved with
      | Ok _, Ok (regular, size) => fail_if (negb regular || (maxTFTPFile <? size)) "file not found";; Ok resolved
      | _, _ => Err "file not found"
      end
    end
  end.

(** The two handlers of the server: the file of a read request, and none for a write request. *)
Definition serve_tftp (root : string) (write : bool) (name : string) : result string string :=
  if write then Err "server does not support write requests" else openInRoot root name.

End Tftp.

(** * Clean paths *)

(** An element of a cleaned absolute path. *)
Definition plain_elem (e : string) : Prop := e <> EmptyString /\ e <> "." /\ e <> ".." /\ contains_char "/" e = false.

Lemma clean_plain stack es : Forall plain_elem stack -> Forall (fun e => contains_char "/" e = false) es ->
  Forall plain_elem (clean_elems true stack es).
Proof.
  intros Hs He. revert stack Hs. induction He as [|e es Hc _ IH]; intros stack Hs; cbn [clean_elems]; [by apply Forall_rev|].
  destruct (is_empty e) eqn:E1; [by apply IH|]. destruct (String.eqb_spec e ".") as [|E2]; [by apply IH|]. cbn [orb].
  destruct (String.eqb_spec e "..") as [|E3].
  - destruct stack as [|top stack]; [by apply IH|]. cbn. apply IH. by apply Forall_cons in Hs as [_ ?].
  - apply IH. constructor; [|done]. split_and!; try done. by intros ->.
Qed.

Lemma clean_pushes es : forall stack, Forall plain_elem es -> clean_elems true stack es = rev stack ++ es.
Proof.
  induction es as [|e es IH]; intros stack He; cbn [clean_elems]; [by rewrite app_nil_r|]. apply Forall_cons in He as [(H1 & H2 & H3 & _) He].
  destruct e as [|c e]; [done|]. cbn [is_empty]. apply String.eqb_neq in H2, H3. rewrite H2, H3. cbn [orb]. rewrite IH by done. cbn. by rewrite <-app_assoc.
Qed.

(** The elements of an absolute path and the clean path made of elements. *)
Definition rooted (es : list string) : string := "/" +++ join "/" es.

Lemma IsAbs_cons p : IsAbs p = true -> exists r, p = String "/" r.
Proof. unfold IsAbs. intros H%has_prefix_spec. destruct H as [r ->]. by exists r. Qed.

Lemma Clean_rooted p : IsAbs p = true -> exists es, Forall plain_elem es /\ Clean p = rooted es.
Proof.
  intros H. destruct (IsAbs_cons p H) as [r ->]. exists (clean_elems true [] (split_char "/" (String "/" r))). split.
  - apply clean_plain; [done|]. apply split_pieces.
  - unfold Clean. cbn [is_empty]. by rewrite H.
Qed.

Lemma elems_rooted es : Forall plain_elem es -> path_elems (rooted es) = es.
Proof.
  intros H. unfold path_elems, rooted. change ("/" +++ join "/" es) with (EmptyString +++ String "/" (join "/" es)).
  rewrite split_char_cut by done. cbn [List.filter is_empty negb]. destruct es as [|e es]; [done|].
  rewrite split_join; [|done|]; [|eapply Forall_impl; [exact H|]; by intros x (_ & _ & _ & Hx)].
  induction H as [|x xs (Hx & _) _ IH]; [done|]. cbn. destruct x; [done|]. cbn. by rewrite IH.
Qed.

Lemma rooted_clean es : Forall plain_elem es -> Clean (rooted es) = rooted es.
Proof.
  intros H. unfold Clean, rooted. cbn [is_empty String.append]. change (IsAbs (String "/" (join "/" es))) with true. cbn iota.
  change (String "/" (join "/" es)) with (EmptyString +++ String "/" (join "/" es)) at 1. rewrite split_char_cut by done.
  cbn [clean_elems is_empty orb]. destruct es as [|e es]; [done|].
  rewrite split_join; [|done|]; [|eapply Forall_impl; [exact H|]; by intros x (_ & _ & _ & Hx)]. by rewrite clean_pushes.
Qed.

Lemma rooted_inj es es' : Forall plain_elem es -> Forall plain_elem es' -> rooted es = rooted es' -> es = es'.
Proof. intros H H' E. rewrite <-(elems_rooted es H), <-(elems_rooted es' H'). by rewrite E. Qed.

Lemma clean_skips r es : forall stack, clean_elems r stack es = clean_elems r stack (List.filter (fun e => negb (is_empty e)) es).
Proof.
  induction es as [|e es IH]; intros stack; [done|]. cbn [clean_elems List.filter]. destruct (is_empty e) eqn:E; cbn [negb orb]; [apply IH|].
  cbn [clean_elems]. rewrite E. cbn [orb]. destruct (e =?s "."); [apply IH|]. destruct (e =?s ".."); [|apply IH].
  destruct stack; [destruct r; apply IH|]. destruct (_ && _); apply IH.
Qed.

Lemma Join_rooted es es' : Forall plain_elem es -> Forall plain_elem es' -> Join (rooted es) (rooted es') = rooted (es ++ es').
Proof.
  intros H H'. unfold Join. cbn [is_empty rooted String.append]. unfold Clean. cbn [is_empty String.append].
  change (IsAbs (String "/" (join "/" es +++ String "/" (String "/" (join "/" es'))))) with true. cbn iota.
  change (String "/" (join "/" es +++ String "/" (String "/" (join "/" es')))) with (rooted es +++ String "/" (rooted es')).
  rewrite split_char_app, clean_skips, List.filter_app. fold (path_elems (rooted es)) (path_elems (rooted es')).
  rewrite !elems_rooted by done. rewrite clean_pushes; [done|]. by apply Forall_app.
Qed.

Lemma strip_common_app es rest : strip_common es (es ++ rest) = ([], rest).
Proof. induction es as [|e es IH]; cbn; [by destruct rest|]. by rewrite String.eqb_refl. Qed.

Lemma strip_common_nil es : forall fs rest, strip_common es fs = ([], rest) -> fs = es ++ rest.
Proof.
  induction es as [|e es IH]; intros fs rest; cbn; [by destruct fs; intros [= <-]|]. destruct fs as [|f fs]; [done|].
  destruct (String.eqb_spec e f) as [-> |]; [|done]. intros H. cbn. by rewrite <-(IH _ _ H).
Qed.

Lemma strip_common_suffix es : forall fs b t, strip_common es fs = (b, t) -> exists pre, es = pre ++ b.
Proof.
  induction es as [|e es IH]; intros fs b t; cbn; [destruct fs; intros [= <- <-]; by exists []|]. destruct fs as [|f fs]; [intros [= <- <-]; by exists []|].
  destruct (e =?s f); [|intros [= <- <-]; by exists []]. intros [pre ->]%IH. by exists (e :: pre).
Qed.

Lemma contains_cut c a r : contains_char c (a +++ String c r) = true.
Proof. induction a as [|x a IH]; cbn [String.append]; rewrite contains_cons; [by rewrite Ascii.eqb_refl|]. by rewrite IH, orb_true_r. Qed.

(** A relative path that leads upwards begins with two dots. *)
Definition upwards (rel : string) : bool := (rel =?s "..") || has_prefix rel "../".

Lemma upwards_dots (b t : list string) : upwards (join "/" (".." :: b ++ t)) = true.
Proof. destruct (b ++ t) as [|x l]; [done|]. unfold upwards. cbn [join]. apply orb_true_iff. right. apply has_prefix_spec. by exists (join "/" (x :: l)). Qed.

Lemma upwards_plain t : Forall plain_elem t -> upwards (join "/" t) = false.
Proof.
  intros H. unfold upwards. destruct t as [|e t]; [done|]. apply Forall_cons in H as [(_ & _ & Hd & Hc) _].
  apply orb_false_iff. split.
  - apply String.eqb_neq. intros E. destruct t as [|x t]; [done|]. cbn [join] in E.
    assert (H : contains_char "/" ".." = true) by (rewrite <-E; apply contains_cut). done.
  - apply not_true_is_false. intros [r E]%has_prefix_spec. destruct t as [|x t].
    + cbn [join] in E. rewrite E in Hc. done.
    + apply Hd. change ("../" +++ r) with (".." +++ String "/" r) in E. apply (f_equal (split_char "/")) in E.
      change (join "/" (e :: x :: t)) with (e +++ String "/" (join "/" (x :: t))) in E. rewrite !split_char_cut in E by done. by injection E.
Qed.

(** * Confinement *)

(** A path in the tree of a directory. *)
Definition inside (dir p : string) : Prop := exists es rest, Forall plain_elem (es ++ rest) /\ dir = rooted es /\ p = rooted (es ++ rest).

Lemma Rel_inside es fs : Forall plain_elem es -> Forall plain_elem fs ->
  (exists rel, Rel (rooted es) (rooted fs) = Ok rel /\ upwards rel = false) <-> inside (rooted es) (rooted fs).
Proof.
  intros He Hf. unfold Rel. rewrite !rooted_clean by done. assert (Hd : (rooted es =?s ".") = false) by done. rewrite Hd. cbn [negb Bool.eqb IsAbs].
  destruct (String.eqb_spec (rooted fs) (rooted es)) as [E|Hne].
  { split; [intros _|by exists "."]. exists es, []. rewrite app_nil_r. by rewrite E. }
  change (IsAbs (rooted es)) with true. change (IsAbs (rooted fs)) with true. cbn [Bool.eqb negb]. rewrite !elems_rooted by done.
  destruct (strip_common es fs) as [b t] eqn:Es. split.
  - intros (rel & Hr & Hu). destruct b as [|e b].
    + apply strip_common_nil in Es as ->. by exists es, t.
    + destruct (e =?s ".."); [done|]. apply Ok_inj in Hr as <-. pose proof (upwards_dots (map (fun _ => "..") b) t) as Ht.
      exact (False_ind _ (diff_true_false (eq_trans (eq_sym Ht) Hu))).
  - intros (es' & rest & Hp & E1 & E2). apply Forall_app in Hp as [Hp1 Hp2]. apply rooted_inj in E1 as <-; [|done..].
    apply rooted_inj in E2 as ->; [|done|by apply Forall_app]. rewrite strip_common_app in Es. injection Es as <- <-.
    exists (join "/" rest). split; [done|]. by apply upwards_plain.
Qed.

Section Confinement.
Context (EvalSymlinks : string -> result string string) (Open : string -> result string unit) (Stat : string -> result string (bool * Z)).
(** filepath.EvalSymlinks calls Clean on its result, and an absolute path has an absolute one. *)
Context (evaluated_clean : forall p q, EvalSymlinks p = Ok q -> Clean q = q).
Context (evaluated_abs : forall p q, IsAbs p = true -> EvalSymlinks p = Ok q -> IsAbs q = true).

Lemma evaluated p q : IsAbs p = true -> EvalSymlinks p = Ok q -> exists es, Forall plain_elem es /\ q = rooted es.
Proof.
  intros Hp Hq. destruct (Clean_rooted q (evaluated_abs _ _ Hp Hq)) as (es & He & E). exists es. split; [done|]. by rewrite <-E, (evaluated_clean _ _ Hq).
Qed.

(** The path a name stands for under the real root. *)
Definition asked (realRoot name : string) : string := Join realRoot (Clean ("/" +++ slashes name)).

Lemma asked_inside realRoot es name : Forall plain_elem es -> realRoot = rooted es -> inside realRoot (asked realRoot name).
Proof.
  intros He ->. destruct (Clean_rooted ("/" +++ slashes name)) as (es' & He' & E); [done|]. exists es, es'. split; [by apply Forall_app|].
  split; [done|]. unfold asked. by rewrite E, Join_rooted.
Qed.

(** C30: TFTP serves the files of its root and nothing else.  A request gets a file exactly if it is a
    read request whose name, with backslashes taken for slashes, names something below the root;
    after following symbolic links that is still in the tree of the real root; and it is a regular
    file of at most 256 MiB that can be opened.  No name makes the server even look at a path
    outside of the tree: the path that is resolved is always inside it, dots, slashes and
    backslashes of the name notwithstanding. *)
Theorem tftp_confined root write name f : IsAbs root = true ->
  serve_tftp EvalSymlinks Open Stat root write name = Ok f <->
  write = false /\ Clean ("/" +++ slashes name) <> "/" /\ contains_char "000" (slashes name) = false
  /\ exists realRoot, EvalSymlinks root = Ok realRoot /\ inside realRoot (asked realRoot name)
     /\ EvalSymlinks (asked realRoot name) = Ok f /\ inside realRoot f
     /\ Open f = Ok tt /\ exists size, Stat f = Ok (true, size) /\ size <= maxTFTPFile.
Proof.
  intros Hroot. unfold serve_tftp, openInRoot. fold (asked). destruct write; [split; [done|by intros [? _]]|]. cbv zeta. split.
  - intros H. apply seq_ok in H as [H0%fail_if_ok H]. apply orb_false_iff in H0 as [Hc%String.eqb_neq Hn]. next_ok H. rename x into realRoot.
    fold (asked realRoot name) in H. split_and!; try done. exists realRoot.
    destruct (evaluated _ _ Hroot Hx) as (es & He & ->). split; [done|]. assert (Hin : inside (rooted es) (asked (rooted es) name)) by by eapply asked_inside.
    destruct (EvalSymlinks (asked (rooted es) name)) as [resolved|] eqn:Ea; [|done].
    destruct (evaluated (asked (rooted es) name) resolved) as (fs & Hf & ->); [destruct Hin as (? & ? & _ & _ & ->); done|done|].
    destruct (Rel (rooted es) (rooted fs)) as [rel|] eqn:Er; [|done]. apply seq_ok in H as [Hu%fail_if_ok H].
    destruct (Open (rooted fs)) as [[]|] eqn:Eo; [|done]. destruct (Stat (rooted fs)) as [[regular size]|] eqn:Et; [|done].
    apply seq_ok in H as [Hs%fail_if_ok [= <-]]. apply orb_false_iff in Hs as [->%negb_false_iff Hz%Z.ltb_ge].
    split_and!; try done; [apply Rel_inside; [done|done|by exists rel]|by exists size].
  - intros (_ & Hc & Hn & realRoot & Hr & _ & Ha & Hin & Ho & size & Hs & Hz). apply String.eqb_neq in Hc. rewrite Hc, Hn. cbn [orb fail_if].
    rewrite Hr. cbn [mbind result_bind]. unfold asked in Ha. rewrite Ha. destruct (evaluated _ _ Hroot Hr) as (es & He & ->).
    destruct Hin as (es' & rest & Hp & E1 & ->). apply rooted_inj in E1 as <-; [|done|by apply Forall_app in Hp as [? _]].
    destruct (proj2 (Rel_inside es (es ++ rest) He Hp)) as (rel & -> & Hu); [by exists es, rest|]. unfold upwards in Hu. rewrite Hu, Ho, Hs. cbn.
    apply Z.ltb_ge in Hz. by rewrite Hz.
Qed.
End Confinement.

(** * An example *)

Module TftpExample.

(** The root is a link; below it a boot image, and a link that leads out of it. *)
Definition links (p : string) : result string string :=
  if p =?s "/srv/tftp" then Ok "/data/tftp"
  else if p =?s "/data/tftp/pxe/boot.img" then Ok "/data/tftp/pxe/boot.img"
  else if p =?s "/data/tftp/secrets" then Ok "/etc/shadow"
  else Err "no such file".
Definition opened (p : string) : result string unit := Ok tt.
Definition info (p : string) : result string (bool * Z) := Ok (true, 1048576).

Lemma links_clean p q : links p = Ok q -> Clean q = q.
Proof. unfold links. repeat case_match; intros [= <-]; reflexivity. Qed.
Lemma links_abs p q : IsAbs p = true -> links p = Ok q -> IsAbs q = true.
Proof. intros _. unfold links. repeat case_match; intros [= <-]; reflexivity. Qed.

(** A name that tries to climb out of the root gets the file below it; the link that leads out gets nothing. *)
Lemma tftp_confined_witness :
  serve_tftp links opened info "/srv/tftp" false "..\..\pxe/boot.img" = Ok "/data/tftp/pxe/boot.img"
  /\ serve_tftp links opened info "/srv/tftp" false "secrets" = Err "file not found"
  /\ exists realRoot, links "/srv/tftp" = Ok realRoot /\ inside realRoot "/data/tftp/pxe/boot.img".
Proof.
  assert (H : serve_tftp links opened info "/srv/tftp" false "..\..\pxe/boot.img" = Ok "/data/tftp/pxe/boot.img") by (vm_compute; reflexivity).
  split; [exact H|]. split; [vm_compute; reflexivity|].
  destruct (proj1 (tftp_confined links opened info links_clean links_abs "/srv/tftp" false "..\..\pxe/boot.img" "/data/tftp/pxe/boot.img" eq_refl) H)
    as (_ & _ & _ & realRoot & Hr & _ & _ & Hin & _).
  exists realRoot. split; [exact Hr|exact Hin].
Defined.

End TftpExample.
