(* ===== verification/Netconfig.v ===== *)
(** internal/netconfig: netconfig.go, routes.go and snapshot.go.

    The package validates a desired state, snapshots what an apply may overwrite, executes
    the desired state and undoes it.  Its outside is [NetTool]: the commands of Runner, which
    act on a kernel state of their own, and the file system, whose calls can fail or be the
    last thing the process does.  The boot include check is Ifupdown.v's. *)

From S2P Require Import Prelude Json NetAddr Ifupdown State Auth Server Protocol.
From Stdlib Require Import Ascii.
Local Open Scope Z_scope.

(** * The request *)

Record DesiredState := mkDesired {
  ExpectedFilesSHA256 : gmap string string;
  Files : gmap string string;
  Actions : list (list string);
}.

Definition set_desired (k : string) (v : json) (d : DesiredState) : option (option DesiredState) :=
  let '(mkDesired e f a) := d in
  if equal_fold k "expected_files_sha256" then
    Some (x ← dec_map (dec_string EmptyString) e v; Some (mkDesired x f a))
  else if equal_fold k "files" then
    Some (x ← dec_map (dec_string EmptyString) f v; Some (mkDesired e x a))
  else if equal_fold k "actions" then
    Some (x ← dec_list (dec_list (dec_string EmptyString)) v; Some (mkDesired e f x))
  else None.

Definition ParseDesiredState (r : raw) : result string DesiredState :=
  match unmarshal r with
  | None => Err "json: invalid document"
  | Some j => match dec_struct false set_desired (mkDesired ∅ ∅ []) j with
              | Some ds => Ok ds
              | None => Err "json: document does not fit the schema"
              end
  end.

(** * Validation *)

Definition forwardingFiles : list string :=
  ["/etc/sysctl.d/99-stack-forward.conf"; "/etc/sysctl.d/99-stack-no-forward.conf"].

Definition forwarding_contents : list string :=
  [EmptyString; "net.ipv4.ip_forward=0" +++ newline; "net.ipv4.ip_forward=1" +++ newline].

Definition knownActions (kind : string) : option nat :=
  if kind =?s "default-route" then Some 3%nat
  else if kind =?s "vlan" then Some 3%nat
  else if kind =?s "addr" then Some 2%nat
  else if kind =?s "sysctl" then Some 1%nat
  else if kind =?s "forward" then Some 1%nat
  else if kind =?s "up" then Some 1%nat
  else None.

(** action[i], on an action whose length was checked. *)
Definition arg (action : list string) (i : nat) : string := nth i action EmptyString.

Definition route_char (c : ascii) : bool :=
  is_alnum c || Ascii.eqb c "_" || Ascii.eqb c "." || Ascii.eqb c ":" || Ascii.eqb c "-".

(** The regular expression routeDevice. *)
Definition routeDevice (name : string) : bool :=
  (1 <=? String.length name)%nat && (String.length name <=? 15)%nat && str_forallb route_char name.

(** Addr.IsUnspecified, Addr.IsMulticast on an IPv4 address. *)
Definition unicast4 (a : Addr) : bool :=
  match a with
  | Addr4 n => negb (n =? 0) && negb (Z.shiftr n 28 =? 14)
  | Addr6 _ _ => false
  end.

Definition validateDefaultRoute (action : list string) : result string unit :=
  fail_if (negb (length action =? 4)%nat || negb (routeDevice (arg action 1))
           || (arg action 1 =?s ".") || (arg action 1 =?s "..")) "invalid default route device";;
  check (match ParseAddr (arg action 2) with Some a => unicast4 a | None => false end)
    "default route requires an IPv4 unicast gateway";;
  check ((arg action 3 =?s "onlink") || (arg action 3 =?s "offlink")) "invalid default route onlink flag".

Definition hex_lower (c : ascii) : bool := is_digit c || in_range 97 102 c.

Definition validate_digest (ds : DesiredState) (path : string) : result string unit :=
  let digest := lookup_default (ExpectedFilesSHA256 ds) path EmptyString in
  fail_if (negb (path =?s interfacesMain) || negb (String.length digest =? 64)%nat)
    "invalid network file precondition";;
  check (str_forallb hex_lower digest) "invalid network file digest";;
  check (bool_decide (is_Some (Files ds !! path))) "precondition without desired file".

Definition validate_file (ds : DesiredState) (path : string) : result string unit :=
  let content := lookup_default (Files ds) path EmptyString in
  if path =?s interfacesMain then
    fail_if (is_empty (lookup_default (ExpectedFilesSHA256 ds) path EmptyString))
      "main ifupdown file requires explicit adoption precondition"
  else if mem_str path forwardingFiles then
    check (mem_str content forwarding_contents) ("netconfig: invalid forwarding file " +++ path)
  else
    fail_if (negb (Clean path =?s path) || negb (has_prefix (Clean path) (InterfacesDir +++ "/")))
      ("netconfig: refusing to write " +++ quote path +++ ": not inside " +++ InterfacesDir).

Definition validate_action (action : list string) : result string unit :=
  match action with
  | [] => Err "netconfig: empty action"
  | kind :: args =>
    match knownActions kind with
    | None => Err ("netconfig: unrecognized action kind " +++ quote kind)
    | Some want =>
      check (length args =? want)%nat ("netconfig: action " +++ quote kind +++ " wants "
        +++ pretty (Z.of_nat want) +++ " argument(s), got " +++ pretty (Z.of_nat (length args)));;
      (if kind =?s "default-route" then validateDefaultRoute action else Ok tt);;
      fail_if ((kind =?s "sysctl") && negb (arg action 1 =?s "net.ipv4.ip_forward=0")
               && negb (arg action 1 =?s "net.ipv4.ip_forward=1"))
        "netconfig: only IPv4 forwarding sysctl is supported";;
      fail_if ((kind =?s "forward") && negb (arg action 1 =?s "/etc/stack-forward.sh"))
        "netconfig: unknown forwarding script"
    end
  end.

(** validateNoConflictingAddresses: [claims] maps a bare address to its set of pairs. *)
Definition is_addr (action : list string) : bool := arg action 0 =?s "addr".
Definition bare_of (action : list string) : string := before_char "/" (arg action 2).
Definition claim_of (action : list string) : string := arg action 1 +++ " (" +++ arg action 2 +++ ")".

Definition add_claim (claims : gmap string (gset string)) (action : list string) :
    gmap string (gset string) :=
  if is_addr action then
    <[bare_of action := {[claim_of action]} ∪ default ∅ (claims !! bare_of action)]> claims
  else claims.

Definition claims_of (actions : list (list string)) : gmap string (gset string) :=
  fold_left add_claim actions ∅.

Definition validateNoConflictingAddresses (actions : list (list string)) : result string unit :=
  let claims := claims_of actions in
  for_each (fun bare =>
    let pairs := default ∅ (claims !! bare) in
    fail_if (1 <? size pairs)%nat
      ("netconfig: " +++ bare +++ " is declared more than once with conflicting assignments: "
       +++ join ", " (sort_strings (elements pairs)))) (sorted_keys claims).

Definition Validate (ds : DesiredState) : result string unit :=
  for_each (validate_digest ds) (sorted_keys (ExpectedFilesSHA256 ds));;
  for_each (validate_file ds) (sorted_keys (Files ds));;
  for_each validate_action (Actions ds);;
  validateNoConflictingAddresses (Actions ds).
