(* ===== verification/NetExec.v ===== *)
(** internal/netconfig, the half that touches the host: netconfig.go's Apply, ReadLive and
    Restore, routes.go's routes and snapshot.go's Snapshot and Rollback.

    A node is the files on disk and the kernel's network state.  The outside ([NetWorld])
    answers every call by its number: what ip and sysctl print, what a command does to the
    kernel and reports, whether a file operation fails or is the last thing the process
    does, and whether the request's context has ended.  writeFile stages its content in a
    temporary file and renames it, so a path holds its old content or its new one at every
    moment; the temporary files themselves are not part of the model. *)

From S2P Require Import Prelude Json NetAddr Ifupdown State Auth Server Netconfig.
From Stdlib Require Import Ascii.
Local Open Scope Z_scope.

(** * The outside *)

(** What becomes of a file operation: DiesBefore and DiesAfter are a stop of the process
    before and after it took effect. *)
Inductive file_fate := FileOk | FileFails | DiesBefore | DiesAfter.

Record NetWorld (K : Type) := mkNetWorld {
  ip_show : nat -> list string -> K -> outcome string raw;            (* ip -j ... *)
  sysctl_get : nat -> K -> outcome string string;                     (* sysctl -n net.ipv4.ip_forward *)
  command : nat -> string -> list string -> K -> K * outcome string unit;
  file_fate_at : nat -> file_fate;
  read_error : nat -> bool;
  ctx_err : nat -> bool;
  proc_forward : nat -> K -> option string;                           (* /proc/sys/net/ipv4/ip_forward *)
  sha256_hex : string -> string;                                      (* crypto/sha256, %x *)
}.
Arguments ip_show {K} _ _ _ _.
Arguments sysctl_get {K} _ _ _.
Arguments command {K} _ _ _ _ _.
Arguments file_fate_at {K} _ _.
Arguments read_error {K} _ _.
Arguments ctx_err {K} _ _.
Arguments proc_forward {K} _ _ _.
Arguments sha256_hex {K} _ _.

Record node (K : Type) := mkNode { disk : gmap string string; kernel : K }.
Arguments mkNode {K} disk kernel.
Arguments disk {K} _.
Arguments kernel {K} _.

(** A computation: the node, the number of the next call, and how it ends. *)
Definition act (K A : Type) : Type := node K * nat -> (node K * nat) * outcome string A.

#[global] Instance act_ret K : MRet (act K) := fun A a s => (s, Done a).
#[global] Instance act_bind K : MBind (act K) := fun A B f m s =>
  match m s with
  | (s', Done a) => f a s'
  | (s', Failed e) => (s', Failed e)
  | (s', Stopped) => (s', Stopped)
  end.

Definition raise {K A} (e : string) : act K A := fun s => (s, Failed e).
Definition lift {K A} (r : result string A) : act K A := fun s => (s, of_result r).

(** [if err := m; err != nil { h }]. *)
Definition catch {K A} (m : act K A) (h : string -> act K A) : act K A := fun s =>
  match m s with
  | (s', Failed e) => h e s'
  | r => r
  end.

Definition wrap_err {K A} (f : string -> string) (m : act K A) : act K A := catch m (fun e => raise (f e)).

Fixpoint for_act {K A} (f : A -> act K unit) (l : list A) : act K unit :=
  match l with [] => mret tt | x :: l' => f x;; for_act f l' end.

Fixpoint fold_act {K A S} (f : S -> A -> act K S) (s : S) (l : list A) : act K S :=
  match l with [] => mret s | x :: l' => s' ← f s x; fold_act f s' l' end.

Section Run.
Context {K : Type} (w : NetWorld K).

Definition show (args : list string) : act K raw := fun '(h, i) =>
  ((h, S i), ip_show w i args (kernel h)).

Definition run (name : string) (args : list string) : act K unit := fun '(h, i) =>
  let '(k, o) := command w i name args (kernel h) in ((mkNode (disk h) k, S i), o).

Definition ctx_Err : act K unit := fun '(h, i) =>
  ((h, S i), if ctx_err w i then Failed "context deadline exceeded" else Done tt).

(** os.ReadFile, with a missing file told from an error. *)
Definition ReadFile (path : string) : act K (option string) := fun '(h, i) =>
  ((h, S i), if read_error w i then Failed ("open " +++ path) else Done (disk h !! path)).

(** os.ReadDir of InterfacesDir: its regular entries, by name. *)
Definition ReadDir : act K (list string) := fun '(h, i) =>
  ((h, S i), if read_error w i then Failed ("netconfig: read " +++ InterfacesDir)
             else Done (List.filter (fun p => Dir p =?s InterfacesDir) (sorted_keys (disk h)))).

Definition file_op (d : gmap string string) : act K unit := fun '(h, i) =>
  match file_fate_at w i with
  | FileOk => ((mkNode d (kernel h), S i), Done tt)
  | FileFails => ((h, S i), Failed "file operation failed")
  | DiesBefore => ((h, S i), Stopped)
  | DiesAfter => ((mkNode d (kernel h), S i), Stopped)
  end.

Definition writeFile (path content : string) : act K unit := fun s =>
  file_op (<[path := content]> (disk (fst s))) s.

(** os.Remove, where a missing file is no error. *)
Definition Remove (path : string) : act K unit := fun s => file_op (delete path (disk (fst s))) s.

(** * Reading *)

Definition read_present (files : gmap string string) (path : string) : act K (gmap string string) :=
  content ← ReadFile path;
  match content with
  | Some c => mret (<[path := c]> files)
  | None => mret files
  end.

Definition read_entry (files : gmap string string) (path : string) : act K (gmap string string) :=
  content ← wrap_err (fun e => "netconfig: read " +++ path +++ ": " +++ e) (ReadFile path);
  match content with
  | Some c => mret (<[path := c]> files)
  | None => raise ("netconfig: read " +++ path)
  end.

Definition readInterfacesFiles : act K (gmap string string) :=
  files ← fold_act read_present ∅ forwardingFiles;
  entries ← ReadDir;
  fold_act read_entry files entries.

Definition check_precondition (ds : DesiredState) (path : string) : act K unit :=
  raw ← wrap_err (fun e => "cannot read adoption precondition: " +++ e) (ReadFile path);
  match raw with
  | None => raise "cannot read adoption precondition"
  | Some text =>
    if text =?s lookup_default (Files ds) path EmptyString then mret tt
    else lift (check (sha256_hex w text =?s lookup_default (ExpectedFilesSHA256 ds) path EmptyString)
                 (path +++ " changed since observation; refusing adoption"))
  end.

Definition checkFilePreconditions (ds : DesiredState) : act K unit :=
  for_act (check_precondition ds) (sorted_keys (ExpectedFilesSHA256 ds)).

Definition checkIfupdown (ds : DesiredState) : act K unit :=
  if existsb in_dir (sorted_keys (Files ds)) then
    current ← readInterfacesFiles;
    main ← wrap_err (fun e => "read boot network configuration: " +++ e) (ReadFile interfacesMain);
    match main with
    | None => raise "read boot network configuration"
    | Some text => lift (checkIfupdownFiles (<[interfacesMain := text]> current) (Files ds))
    end
  else mret tt.

(** * Default routes *)

(** One element of the listing as a map[string]any; null is an empty map. *)
Definition dec_route (j : json) : option (list (string * json)) :=
  match j with JObj kvs => Some kvs | JNull => Some [] | _ => None end.

Definition route_keys : list string :=
  ["dst"; "gateway"; "dev"; "flags"; "protocol"; "scope"; "type"; "table"; "metric"].

(** r[key], with null and absent both nil. *)
Definition any_at (r : list (string * json)) (key : string) : json := default JNull (obj_get key r).
Definition is_text (s : string) (j : json) : bool := match j with JStr t => t =?s s | _ => false end.
Definition is_num (n : Z) (j : json) : bool := match j with JNum z => z =? n | _ => false end.
Definition is_nil (j : json) : bool := match j with JNull => true | _ => false end.

Definition route_flags (r : list (string * json)) : list json :=
  match any_at r "flags" with JArr l => l | _ => [] end.

(** The one default route of a listing: whether it is the action's, and ghostd's own. *)
Definition match_route (action : list string) (r : list (string * json)) : result string (bool * bool) :=
  for_each (fun kv => check (mem_str (fst kv) route_keys)
                        ("unsupported default route attribute " +++ fst kv)) r;;
  for_each (fun flag => check (is_text "onlink" flag) "unsupported route flag") (route_flags r);;
  let onlink := match route_flags r with [] => false | _ => true end in
  fail_if (negb (is_text "default" (any_at r "dst")) || negb (is_text (arg action 2) (any_at r "gateway"))
           || negb (is_text (arg action 1) (any_at r "dev"))
           || negb (Bool.eqb onlink (arg action 3 =?s "onlink"))
           || negb (is_nil (any_at r "metric") || is_num 0 (any_at r "metric"))
           || negb (is_nil (any_at r "type") || is_text "unicast" (any_at r "type")))
    "existing default route conflicts; refusing replacement";;
  Ok (true, is_num 242 (any_at r "protocol") || is_text "242" (any_at r "protocol")).

(** What a listing says of an action: (exists, owned). *)
Definition route_verdict (action : list string) (out : raw) : result string (bool * bool) :=
  match unmarshal out with
  | Some (JArr l) =>
    match traverse dec_route l with
    | None => Err "default route observation invalid"
    | Some [] => Ok (false, false)
    | Some [r] => match_route action r
    | Some _ => Err "multiple default routes require explicit migration"
    end
  | _ => Err "default route observation invalid"
  end.

Definition route_show : list string := ["-j"; "-4"; "route"; "show"; "table"; "main"; "default"].

Definition routeState (action : list string) : act K (bool * bool) :=
  out ← show route_show; lift (route_verdict action out).

Definition routeArgs (verb : string) (action : list string) : list string :=
  ["-4"; "route"; verb; "default"; "via"; arg action 2; "dev"; arg action 1; "proto"; "242"]
  ++ (if arg action 3 =?s "onlink" then ["onlink"] else []).

Definition ensureDefaultRoute (action : list string) : act K unit :=
  '(exists_, _) ← routeState action;
  if exists_ : bool then mret tt
  else catch (run "ip" (routeArgs "add" action)) (fun e =>
    '(now_exists, _) ← catch (routeState action) (fun _ => mret (false, false));
    if now_exists : bool then mret tt else raise e).

(** * Live actions *)

(** strconv.Atoi *)
Definition Atoi (s : string) : option Z :=
  let '(sign, digits) := match string_chars s with
                         | "-"%char :: l => (-1, l) | "+"%char :: l => (1, l) | l => (1, l) end in
  if match digits with [] => false | _ => forallb is_digit digits end then
    let n := sign * fold_left (fun acc c => 10 * acc + (byte_of c - 48)) digits 0 in
    if (-2^63 <=? n) && (n <? 2^63) then Some n else None
  else None.

Record link := mkLink {
  l_Name : string; l_Index : Z; l_Parent : Z; l_Link : string; l_Kind : string; l_ID : Z;
}.

Definition set_vlan_data (k : string) (v : json) (id : Z) : option (option Z) :=
  if equal_fold k "id" then Some (dec_int id v) else None.
Definition set_info (k : string) (v : json) (p : string * Z) : option (option (string * Z)) :=
  if equal_fold k "info_kind" then Some (x ← dec_string (fst p) v; Some (x, snd p))
  else if equal_fold k "info_data" then Some (x ← dec_struct false set_vlan_data (snd p) v; Some (fst p, x))
  else None.
Definition set_link (k : string) (v : json) (l : link) : option (option link) :=
  let '(mkLink n i p k' kind id) := l in
  if equal_fold k "ifname" then Some (x ← dec_string n v; Some (mkLink x i p k' kind id))
  else if equal_fold k "ifindex" then Some (x ← dec_int i v; Some (mkLink n x p k' kind id))
  else if equal_fold k "link_index" then Some (x ← dec_int p v; Some (mkLink n i x k' kind id))
  else if equal_fold k "link" then Some (x ← dec_string k' v; Some (mkLink n i p x kind id))
  else if equal_fold k "linkinfo" then
    Some ('(x, y) ← dec_struct false set_info (kind, id) v; Some (mkLink n i p k' x y))
  else None.

Definition vlan_matches (links : list link) (base dev : string) (id : Z) : bool :=
  let parent := fold_left (fun acc l => if l_Name l =?s base then l_Index l else acc) links 0 in
  existsb (fun l => (l_Name l =?s dev) && negb (parent =? 0)
                    && ((l_Parent l =? parent) || ((l_Parent l =? 0) && (l_Link l =?s base)))
                    && (l_Kind l =?s "vlan") && (l_ID l =? id)) links.

Definition checkVLAN (base dev vlanID : string) : act K unit :=
  out ← show ["-j"; "-d"; "link"; "show"];
  match unmarshal out ≫= dec_list (dec_struct false set_link (mkLink EmptyString 0 0 EmptyString EmptyString 0)) with
  | None => raise "json: cannot unmarshal links"
  | Some links =>
    match Atoi vlanID with
    | None => raise ("strconv.Atoi: parsing " +++ quote vlanID)
    | Some id => lift (check (vlan_matches links base dev id)
                         ("existing " +++ dev +++ " does not match VLAN " +++ vlanID +++ " on " +++ base))
    end
  end.

Record ipAddrInfo := mkAddrInfo { Local_ : string; PrefixLen : Z }.
Record ipIface := mkIface { IfName : string; AddrInfo : list ipAddrInfo }.

Definition set_addr_info (k : string) (v : json) (a : ipAddrInfo) : option (option ipAddrInfo) :=
  let '(mkAddrInfo l p) := a in
  if equal_fold k "local" then Some (x ← dec_string l v; Some (mkAddrInfo x p))
  else if equal_fold k "prefixlen" then Some (x ← dec_int p v; Some (mkAddrInfo l x))
  else None.
Definition set_iface (k : string) (v : json) (f : ipIface) : option (option ipIface) :=
  let '(mkIface n a) := f in
  if equal_fold k "ifname" then Some (x ← dec_string n v; Some (mkIface x a))
  else if equal_fold k "addr_info" then
    Some (x ← dec_list (dec_struct false set_addr_info (mkAddrInfo EmptyString 0)) v; Some (mkIface n x))
  else None.

Definition add_iface (addrs : gmap string (list string)) (f : ipIface) : gmap string (list string) :=
  if is_empty (IfName f) then addrs
  else <[IfName f := lookup_default addrs (IfName f) []
           ++ map (fun i => Local_ i +++ "/" +++ pretty (PrefixLen i))
                (List.filter (fun i => negb (is_empty (Local_ i))) (AddrInfo f))]> addrs.

Definition addrs_of (out : raw) : option (gmap string (list string)) :=
  ifaces ← unmarshal out ≫= dec_list (dec_struct false set_iface (mkIface EmptyString []));
  Some (fold_left add_iface ifaces ∅).

Definition readAddrs : act K (gmap string (list string)) :=
  out ← wrap_err (fun e => "netconfig: ip -j addr show: " +++ e) (show ["-j"; "addr"; "show"]);
  match addrs_of out with
  | Some a => mret a
  | None => raise "netconfig: parse 'ip -j addr show'"
  end.

Definition same_prefix (a b : string) : bool :=
  match ParsePrefix a, ParsePrefix b with
  | Some x, Some y => bool_decide (x = y)
  | _, _ => false
  end.

(** The calls of applyAction, by kind; [sysctl -q -w] takes a key=value. *)
Definition add_vlan (base dev vlanID : string) : act K unit :=
  catch (run "ip" ["link"; "add"; "link"; base; "name"; dev; "type"; "vlan"; "id"; vlanID]) (fun e =>
    catch (checkVLAN base dev vlanID) (fun _ =>
      raise ("netconfig: create vlan " +++ dev +++ " on " +++ base +++ ": " +++ e))).

Definition add_addr (dev ip : string) : act K unit :=
  catch (run "ip" ["addr"; "add"; ip; "dev"; dev]) (fun e =>
    let refused : act K unit := raise ("netconfig: add " +++ ip +++ " to " +++ dev +++ ": " +++ e) in
    addrs ← catch (readAddrs) (fun _ => mret ∅);
    if existsb (fun a => same_prefix a ip) (lookup_default addrs dev []) then mret tt else refused).

Definition set_sysctl (keyval : string) : act K unit := run "sysctl" ["-q"; "-w"; keyval].

Definition applyAction (action : list string) : act K unit :=
  let kind := arg action 0 in
  if kind =?s "default-route" then ensureDefaultRoute action
  else if kind =?s "vlan" then add_vlan (arg action 1) (arg action 2) (arg action 3)
  else if kind =?s "addr" then add_addr (arg action 1) (arg action 2)
  else if kind =?s "sysctl" then
    wrap_err (fun e => "netconfig: sysctl -w " +++ arg action 1 +++ ": " +++ e) (set_sysctl (arg action 1))
  else if kind =?s "forward" then
    wrap_err (fun e => "netconfig: apply forwarding script " +++ arg action 1 +++ ": " +++ e)
      (run "sh" [arg action 1]);;
    wrap_err (fun e => "netconfig: sysctl -w net.ipv4.ip_forward=1: " +++ e)
      (set_sysctl "net.ipv4.ip_forward=1")
  else if kind =?s "up" then
    wrap_err (fun e => "netconfig: bring " +++ arg action 1 +++ " up: " +++ e)
      (run "ip" ["link"; "set"; arg action 1; "up"])
  else raise ("netconfig: unrecognized action kind " +++ quote kind).

Definition is_route (action : list string) : bool := arg action 0 =?s "default-route".

Definition write_declared (files : gmap string string) (path : string) : act K unit :=
  ctx_Err;; writeFile path (lookup_default files path EmptyString).

Definition Apply (ds : DesiredState) : act K unit :=
  lift (Validate ds);;
  checkFilePreconditions ds;;
  checkIfupdown ds;;
  for_act (fun a => if is_route a then _ ← routeState a; mret tt else mret tt) (Actions ds);;
  for_act (write_declared (Files ds)) (sorted_keys (Files ds));;
  for_act (fun a => ctx_Err;; applyAction a) (Actions ds).

Definition Restore (blob : raw) : act K unit :=
  if raw_is_empty blob then mret tt
  else ds ← lift (match ParseDesiredState blob with
                  | Ok ds => Ok ds
                  | Err e => Err ("netconfig: restore: " +++ e)
                  end);
       Apply ds.

End Run.

(** * Undo *)

Record Undo := mkUndo {
  AddedRoutes : list (list string);
  UFiles : gmap string (option string);
  UForward : string;
}.

Definition json_strings (l : list string) : json := JArr (map JStr l).

(** json.Marshal of an Undo.  The contents come from the disk; the paths and the routes come
    from a document. *)
Definition undo_file (u : Undo) (path : string) : string * json :=
  (path, match UFiles u !! path with Some (Some c) => JStr (coerce_utf8 c) | _ => JNull end).
Definition marshal_undo (u : Undo) : raw :=
  marshal (JObj (
    match AddedRoutes u with [] => [] | l => [("added_routes", JArr (map json_strings l))] end
    ++ [("files", JObj (map (undo_file u) (sorted_keys (UFiles u))))]
    ++ (if is_empty (UForward u) then [] else [("ip_forward", JStr (UForward u))]))).

Definition set_undo (k : string) (v : json) (u : Undo) : option (option Undo) :=
  let '(mkUndo r f i) := u in
  if equal_fold k "added_routes" then
    Some (x ← dec_list (dec_list (dec_string EmptyString)) v; Some (mkUndo x f i))
  else if equal_fold k "files" then
    Some (x ← dec_map (dec_ptr (dec_string EmptyString)) f v; Some (mkUndo r x i))
  else if equal_fold k "ip_forward" then Some (x ← dec_string i v; Some (mkUndo r f x))
  else None.
Definition unmarshal_undo (blob : raw) : result string Undo :=
  match unmarshal blob with
  | None => Err "json: invalid undo"
  | Some j => match dec_struct false set_undo (mkUndo [] ∅ EmptyString) j with
              | Some u => Ok u
              | None => Err "json: undo does not fit the schema"
              end
  end.

Section Undo.
Context {K : Type} (w : NetWorld K).

Definition save_file (files : gmap string (option string)) (path : string) :
    act K (gmap string (option string)) :=
  content ← ReadFile w path; mret (<[path := content]> files).

Definition missing_route (added : list (list string)) (action : list string) : act K (list (list string)) :=
  if is_route action then
    '(exists_, _) ← routeState w action; mret (if exists_ : bool then added else added ++ [action])
  else mret added.

Definition needs_forward (action : list string) : bool :=
  (arg action 0 =?s "sysctl") || (arg action 0 =?s "forward").

Definition zero_or_one (s : string) : bool := (s =?s "0") || (s =?s "1").

Definition forward_now : act K string := fun '(h, i) =>
  ((h, S i), match sysctl_get w i (kernel h) with
             | Done out => if zero_or_one (trim_space out) then Done (trim_space out)
                           else Failed ("cannot snapshot ip_forward: " +++ quote out)
             | Failed e => Failed e
             | Stopped => Stopped
             end).

Definition Snapshot (desired : DesiredState) : act K raw :=
  lift (Validate desired);;
  checkFilePreconditions w desired;;
  checkIfupdown w desired;;
  files ← fold_act save_file ∅ (sorted_keys (Files desired));
  added ← fold_act missing_route [] (Actions desired);
  forward ← (if existsb needs_forward (Actions desired) then forward_now else mret EmptyString);
  mret (marshal_undo (mkUndo added files forward)).

(** The desired state Rollback validates its paths with. *)
Definition undo_paths (u : Undo) : DesiredState :=
  let paths := (fun _ => EmptyString) <$> UFiles u in
  mkDesired (if bool_decide (is_Some (paths !! interfacesMain))
             then {[interfacesMain := string_of_chars (repeat "0"%char 64)]} else ∅) paths [].

Definition undo_one (u : Undo) (path : string) : act K unit :=
  match UFiles u !! path with
  | Some (Some content) => writeFile w path content
  | _ => Remove w path
  end.

Definition undo_route (action : list string) : act K unit :=
  '(exists_, owned) ← routeState w action;
  lift (fail_if (exists_ && negb owned) "default route ownership changed; refusing rollback deletion");;
  if exists_ : bool then run w "ip" (routeArgs "del" action) else mret tt.

(** Rollback after the record is decoded. *)
Definition undo (u : Undo) : act K unit :=
  lift (for_each validateDefaultRoute (AddedRoutes u));;
  lift (Validate (undo_paths u));;
  for_act (undo_one u) (sorted_keys (UFiles u));;
  for_act undo_route (AddedRoutes u);;
  if is_empty (UForward u) then mret tt
  else lift (check (zero_or_one (UForward u)) "invalid forwarding snapshot");;
       set_sysctl w ("net.ipv4.ip_forward=" +++ UForward u).

Definition Rollback (blob : raw) : act K unit := u ← lift (unmarshal_undo blob); undo u.

End Undo.

(** * Live state *)

Record LiveState := mkLive {
  Observation : gmap string raw;
  ObservationErrors : gmap string string;
  LFiles : gmap string string;
  Addrs : gmap string (list string);
  IPForward : string;
}.

(** ReadLive's table of commands. *)
Definition observations : list (string * list string) :=
  [("links", ["-d"; "-j"; "link"; "show"]);
   ("addresses", ["-j"; "addr"; "show"]);
   ("routes4", ["-j"; "-4"; "route"; "show"; "table"; "all"]);
   ("routes6", ["-j"; "-6"; "route"; "show"; "table"; "all"]);
   ("rules4", ["-j"; "-4"; "rule"; "show"]);
   ("rules6", ["-j"; "-6"; "rule"; "show"])].

Section Live.
Context {K : Type} (w : NetWorld K).

Definition observe (acc : gmap string raw * gmap string string) (c : string * list string) :
    act K (gmap string raw * gmap string string) :=
  catch (out ← show w (snd c);
         mret (if json_valid out then (<[fst c := out]> (fst acc), snd acc)
               else (fst acc, <[fst c := "invalid JSON"]> (snd acc))))
    (fun e => mret (fst acc, <[fst c := e]> (snd acc))).

Definition read_forward : act K string := fun '(h, i) =>
  ((h, S i), Done (trim_space (default EmptyString (proc_forward w i (kernel h))))).

Definition ReadLive : act K LiveState :=
  files ← readInterfacesFiles w;
  addrs ← readAddrs w;
  forward ← read_forward;
  '(observation, errors) ← fold_act observe (∅, ∅) observations;
  catch (main ← ReadFile w interfacesMain;
         mret (mkLive observation errors
           (match main with Some c => <[interfacesMain := c]> files | None => files end) addrs forward))
    (fun e => mret (mkLive observation (<["interfaces" := e]> errors) files addrs forward)).

End Live.

(** * The netconfig domain's executor *)

Section Executor.
Context {K : Type} (world : nat -> NetWorld K).

(** A call of the package on a node. *)
Definition on_node {A} (m : act K A) (h : node K) : node K * outcome string A :=
  let '(s, o) := m (h, 0%nat) in (fst s, o).

(** applyNetconfig before recoverExpired. *)
Definition nc_check (n : nat) (desired : raw) (h : node K) : outcome status DesiredState :=
  match ParseDesiredState desired with
  | Err e => Failed (mkStatus InvalidArgument ("rpc: desired_state_json: " +++ e))
  | Ok ds => match Validate ds with
             | Err e => Failed (mkStatus InvalidArgument ("rpc: " +++ e))
             | Ok _ => Done ds
             end
  end.

Definition nc_snapshot (n : nat) (ds : DesiredState) (h : node K) : outcome status raw :=
  match snd (on_node (Snapshot (world n) ds) h) with
  | Done s => Done s
  | Failed e => Failed (mkStatus Internal ("snapshot: " +++ e))
  | Stopped => Stopped
  end.

Definition netconfig : Executor (node K) := {|
  plan := DesiredState;
  ex_check := nc_check;
  ex_snapshot := nc_snapshot;
  ex_mutate n ds := on_node (Apply (world n) ds);
  ex_rollback n s := on_node (Rollback (world n) s);
  ex_restore n c := on_node (Restore (world n) c);
  ex_confirmed n t h := Done t;
|}.

End Executor.
