(* ===== verification/NetLaws.v ===== *)
(** internal/netconfig: what its operations do to the files, and why the RPC layer can rely on
    them.  Nothing is assumed of ip, sysctl or the file system here: the laws hold whatever
    they answer and wherever the process stops. *)

From S2P Require Import Prelude Json NetAddr Ifupdown State Auth Server Protocol Netconfig NetExec.
From Stdlib Require Import Ascii.

(** * Undo records round-trip *)

Lemma dec_map_fold {A} (f : json -> option A) (g : string -> json) (m : gmap string A) l acc :
  (forall k, k ∈ l -> exists v, m !! k = Some v /\ f (g k) = Some v) ->
  exists m', dec_map f acc (JObj (map (fun k => (k, g k)) l)) = Some m'
    /\ (forall k, k ∈ l -> m' !! k = m !! k) /\ (forall k, k ∉ l -> m' !! k = acc !! k).
Proof.
  simpl. revert acc. induction l as [|x l IH]; intros acc Hf; simpl.
  - exists acc. split_and!; [done|by intros k ?%elem_of_nil|done].
  - destruct (Hf x) as (v & Hv & ->); [left|].
    destruct (IH (<[x := v]> acc)) as (m' & Hm & H1 & H2).
    { intros k Hk. apply Hf. by right. }
    exists m'. split_and!; [done| |].
    + intros k [->|Hk]%elem_of_cons; [|by apply H1]. destruct (decide (x ∈ l)); [by apply H1|].
      rewrite H2, Hv by done. apply lookup_insert_eq.
    + intros k [Hne Hk]%not_elem_of_cons. rewrite H2 by done. by apply lookup_insert_ne.
Qed.

Lemma dec_map_keys {A} (f : json -> option A) (g : string -> json) (m : gmap string A) :
  (forall k v, m !! k = Some v -> f (g k) = Some v) ->
  dec_map f ∅ (JObj (map (fun k => (k, g k)) (sorted_keys m))) = Some m.
Proof.
  intros Hf. destruct (dec_map_fold f g m (sorted_keys m) ∅) as (m' & Hm & H1 & H2).
  - intros k [v Hv]%elem_of_sorted_keys. eauto.
  - rewrite Hm. f_equal. apply map_eq. intros k. destruct (decide (k ∈ sorted_keys m)) as [|Hk]; [by apply H1|].
    rewrite H2, lookup_empty by done. rewrite elem_of_sorted_keys, <-eq_None_not_Some in Hk. done.
Qed.

Lemma dec_strings l : dec_list (dec_string EmptyString) (json_strings l) = Some l.
Proof. simpl. induction l as [|x l IH]; simpl; [done|]. by rewrite IH. Qed.

Lemma dec_routes l : dec_list (dec_list (dec_string EmptyString)) (JArr (map json_strings l)) = Some l.
Proof.
  cbn [dec_list]. induction l as [|x l IH]; [done|]. cbn [map traverse]. by rewrite dec_strings, IH.
Qed.

(** What of an Undo survives its encoding: contents that are not UTF-8 are altered. *)
Definition coerced (u : Undo) : Undo :=
  mkUndo (AddedRoutes u) (fmap (option_map coerce_utf8) (UFiles u)) (UForward u).

Lemma dec_undo_files u :
  dec_map (dec_ptr (dec_string EmptyString)) ∅ (JObj (map (undo_file u) (sorted_keys (UFiles u))))
  = Some (UFiles (coerced u)).
Proof.
  assert (Hk : sorted_keys (UFiles u) = sorted_keys (UFiles (coerced u))).
  { unfold sorted_keys. simpl. rewrite map_to_list_fmap, map_map. done. }
  rewrite Hk. apply (dec_map_keys _ (fun k => snd (undo_file u k))).
  intros k v. simpl. rewrite lookup_fmap_Some. intros (c & <- & Hc). rewrite Hc. by destruct c.
Qed.

Lemma set_undo_routes r0 f i l :
  set_undo "added_routes" (JArr (map json_strings l)) (mkUndo r0 f i) = Some (Some (mkUndo l f i)).
Proof.
  unfold set_undo. change (equal_fold "added_routes" "added_routes") with true. cbv iota.
  by rewrite dec_routes.
Qed.

Lemma set_undo_files r i u :
  set_undo "files" (JObj (map (undo_file u) (sorted_keys (UFiles u)))) (mkUndo r ∅ i)
  = Some (Some (mkUndo r (UFiles (coerced u)) i)).
Proof.
  unfold set_undo. change (equal_fold "files" "added_routes") with false.
  change (equal_fold "files" "files") with true. cbv iota. by rewrite dec_undo_files.
Qed.

Lemma set_undo_forward r f i s : set_undo "ip_forward" (JStr s) (mkUndo r f i) = Some (Some (mkUndo r f s)).
Proof. done. Qed.

Lemma unmarshal_marshal_undo u : unmarshal_undo (marshal_undo u) = Ok (coerced u).
Proof.
  unfold unmarshal_undo, marshal_undo. cbn [unmarshal marshal].
  destruct (AddedRoutes u) as [|r routes] eqn:Hr; destruct (UForward u) as [|c s] eqn:Hi;
    cbn [is_empty app dec_struct fold_left fst snd]; rewrite ?set_undo_routes, set_undo_files, ?set_undo_forward;
    unfold coerced; by rewrite Hr, Hi.
Qed.

(** * Frames

    [keeps R m]: however [m] ends, the node it leaves is related to the one it found. *)

Definition keeps {K A} (R : node K -> node K -> Prop) (m : act K A) : Prop :=
  forall s, R (fst s) (fst (fst (m s))).

Section Frames.
Context {K : Type} (R : node K -> node K -> Prop) `{!PreOrder R}.

Lemma keeps_ret {A} (a : A) : keeps R (mret a : act K A).
Proof. intros s. simpl. reflexivity. Qed.
Lemma keeps_raise {A} e : keeps R (raise e : act K A).
Proof. intros s. simpl. reflexivity. Qed.
Lemma keeps_lift {A} (r : result string A) : keeps R (lift r).
Proof. intros s. simpl. reflexivity. Qed.
Lemma keeps_bind {A B} (m : act K A) (f : A -> act K B) :
  keeps R m -> (forall a, keeps R (f a)) -> keeps R (m ≫= f).
Proof.
  intros Hm Hf s. unfold mbind, act_bind. specialize (Hm s). destruct (m s) as [s1 [a|e|]]; simpl in *; [|done..].
  etrans; [exact Hm|apply Hf].
Qed.
Lemma keeps_catch {A} (m : act K A) h : keeps R m -> (forall e, keeps R (h e)) -> keeps R (catch m h).
Proof.
  intros Hm Hh s. unfold catch. specialize (Hm s). destruct (m s) as [s1 [a|e|]]; simpl in *; [done| |done].
  etrans; [exact Hm|apply Hh].
Qed.
Lemma keeps_for {A} (f : A -> act K unit) l : (forall x, x ∈ l -> keeps R (f x)) -> keeps R (for_act f l).
Proof.
  induction l as [|x l IH]; intros Hf; [apply keeps_ret|]. apply keeps_bind; [apply Hf; left|].
  intros _. apply IH. intros y Hy. apply Hf. by right.
Qed.
Lemma keeps_fold {A S} (f : S -> A -> act K S) s l : (forall s x, keeps R (f s x)) -> keeps R (fold_act f s l).
Proof.
  intros Hf. revert s. induction l as [|x l IH]; intros s; [apply keeps_ret|]. by apply keeps_bind.
Qed.

Context (w : NetWorld K).

Lemma keeps_show args : keeps R (show w args).
Proof. intros [h i]. simpl. reflexivity. Qed.
Lemma keeps_ctx : keeps R (ctx_Err w).
Proof. intros [h i]. simpl. reflexivity. Qed.
Lemma keeps_ReadFile p : keeps R (ReadFile w p).
Proof. intros [h i]. simpl. reflexivity. Qed.
Lemma keeps_ReadDir : keeps R (ReadDir w).
Proof. intros [h i]. simpl. reflexivity. Qed.
Lemma keeps_forward_now : keeps R (forward_now w).
Proof. intros [h i]. simpl. reflexivity. Qed.
Lemma keeps_run name args :
  (forall d k k' i o, command w i name args k = (k', o) -> R (mkNode d k) (mkNode d k')) -> keeps R (run w name args).
Proof.
  intros Hc [[d k] i]. unfold run. cbn [kernel disk fst snd].
  destruct (command w i name args k) as [k' o] eqn:E. simpl. by eapply Hc.
Qed.
Lemma keeps_file_op (f : gmap string string -> gmap string string) :
  (forall d k, R (mkNode d k) (mkNode (f d) k)) -> keeps R (fun s => file_op w (f (disk (fst s))) s).
Proof.
  intros Hf [[d k] i]. unfold file_op. cbn [kernel disk fst snd].
  destruct (file_fate_at w i); simpl; first [reflexivity | apply Hf].
Qed.

End Frames.

(** Steps through a computation, one construct at a time. *)
Ltac keep_step :=
  match goal with
  | |- keeps _ (@mret _ _ _ _) => apply keeps_ret; typeclasses eauto
  | |- keeps _ (raise _) => apply keeps_raise; typeclasses eauto
  | |- keeps _ (lift _) => apply keeps_lift; typeclasses eauto
  | |- keeps _ (@mbind _ _ _ _ _ _) => apply keeps_bind; [typeclasses eauto| |intros ?]
  | |- keeps _ (catch _ _) => apply keeps_catch; [typeclasses eauto| |intros ?]
  | |- keeps _ (for_act _ _) => apply keeps_for; [typeclasses eauto|intros ? ?]
  | |- keeps _ (fold_act _ _ _) => apply keeps_fold; [typeclasses eauto|intros ? ?]
  | |- keeps _ (show _ _) => apply keeps_show; typeclasses eauto
  | |- keeps _ (ctx_Err _) => apply keeps_ctx; typeclasses eauto
  | |- keeps _ (ReadFile _ _) => apply keeps_ReadFile; typeclasses eauto
  | |- keeps _ (ReadDir _) => apply keeps_ReadDir; typeclasses eauto
  | |- keeps _ (forward_now _) => apply keeps_forward_now; typeclasses eauto
  | |- keeps _ (wrap_err _ _) => unfold wrap_err
  | |- keeps _ (match ?x with _ => _ end) => destruct x
  end.
Ltac keep := repeat keep_step.

Section Reads.
Context {K : Type} (R : node K -> node K -> Prop) `{!PreOrder R} (w : NetWorld K).

Lemma keeps_routeState a : keeps R (routeState w a).
Proof. unfold routeState. keep. Qed.
Lemma keeps_checkFilePreconditions ds : keeps R (checkFilePreconditions w ds).
Proof. unfold checkFilePreconditions, check_precondition. keep. Qed.
Lemma keeps_checkIfupdown ds : keeps R (checkIfupdown w ds).
Proof. unfold checkIfupdown, readInterfacesFiles, read_present, read_entry. keep. Qed.
Lemma keeps_readAddrs : keeps R (readAddrs w).
Proof. unfold readAddrs. keep. Qed.
Lemma keeps_checkVLAN b d v : keeps R (checkVLAN w b d v).
Proof. unfold checkVLAN. keep. Qed.
Lemma keeps_Snapshot ds : keeps R (Snapshot w ds).
Proof.
  unfold Snapshot, save_file, missing_route. keep;
    first [apply keeps_checkFilePreconditions | apply keeps_checkIfupdown | apply keeps_routeState]; done.
Qed.

(** applyAction only runs commands. *)
Lemma keeps_applyAction a :
  (forall name args d k k' i o, command w i name args k = (k', o) -> R (mkNode d k) (mkNode d k')) ->
  keeps R (applyAction w a).
Proof.
  intros Hc. assert (Hr : forall name args, keeps R (run w name args)) by (intros; apply keeps_run; eauto).
  unfold applyAction, ensureDefaultRoute, add_vlan, add_addr, set_sysctl.
  keep; first [apply Hr | by apply keeps_routeState | by apply keeps_checkVLAN | by apply keeps_readAddrs].
Qed.

End Reads.

(** * What happens to the files

    [toward t h h']: every path holds what it held, or what [t] says it should hold. *)

Definition toward {K} (t : gmap string (option string)) (h h' : node K) : Prop :=
  forall p, disk h' !! p = disk h !! p \/ t !! p = Some (disk h' !! p).

#[global] Instance toward_preorder {K} t : PreOrder (@toward K t).
Proof.
  split.
  - intros h p. by left.
  - intros h1 h2 h3 H12 H23 p. destruct (H23 p) as [->|?]; [apply H12|by right].
Qed.

Definition target (ds : DesiredState) : gmap string (option string) := Some <$> Files ds.

Section Files.
Context {K : Type} (w : NetWorld K) (t : gmap string (option string)).

Lemma writeFile_toward p c : t !! p = Some (Some c) -> keeps (toward t) (writeFile w p c).
Proof.
  intros Ht. apply (keeps_file_op (toward t) w (insert p c)). intros d k q. simpl.
  destruct (decide (q = p)) as [->|]; [right|left; by apply lookup_insert_ne].
  by rewrite lookup_insert_eq.
Qed.

Lemma Remove_toward p : t !! p = Some None -> keeps (toward t) (Remove w p).
Proof.
  intros Ht. apply (keeps_file_op (toward t) w (delete p)). intros d k q. simpl.
  destruct (decide (q = p)) as [->|]; [right|left; by apply lookup_delete_ne].
  by rewrite lookup_delete_eq.
Qed.

Lemma writeFile_done p c s s' :
  writeFile w p c s = (s', Done tt) -> disk (fst s') !! p = Some c.
Proof.
  destruct s as [h i]. unfold writeFile, file_op. destruct (file_fate_at w i); intros [= <-].
  apply lookup_insert_eq.
Qed.

Lemma Remove_done p s s' : Remove w p s = (s', Done tt) -> disk (fst s') !! p = None.
Proof.
  destruct s as [h i]. unfold Remove, file_op. destruct (file_fate_at w i); intros [= <-].
  apply lookup_delete_eq.
Qed.

Lemma act_bind_done {A B} (m : act K A) (f : A -> act K B) s s' b :
  (m ≫= f) s = (s', Done b) <-> exists s1 a, m s = (s1, Done a) /\ f a s1 = (s', Done b).
Proof.
  unfold mbind, act_bind. destruct (m s) as [s1 [a|e|]]; split.
  - eauto.
  - intros (s2 & a2 & [= <- <-] & H). done.
  - done.
  - by intros (? & ? & ? & _).
  - done.
  - by intros (? & ? & ? & _).
Qed.

Lemma lift_done {A} (r : result string A) (s s' : node K * nat) a :
  lift r s = (s', Done a) <-> s' = s /\ r = Ok a.
Proof. destruct r; simpl; unfold lift; simpl; naive_solver. Qed.

(** A loop over paths that brings each of them to what [t] says. *)
Lemma for_done (f : string -> act K unit) l s s' :
  (forall p, p ∈ l -> keeps (toward t) (f p)) ->
  (forall p s s', p ∈ l -> f p s = (s', Done tt) -> t !! p = Some (disk (fst s') !! p)) ->
  for_act f l s = (s', Done tt) -> forall p, p ∈ l -> t !! p = Some (disk (fst s') !! p).
Proof.
  revert s. induction l as [|x l IH]; intros s Hk Hd Hr p; [by intros ?%elem_of_nil|].
  cbn [for_act] in Hr. apply act_bind_done in Hr as (s1 & [] & Hx & Hl).
  assert (Hrest : keeps (toward t) (for_act f l)).
  { apply keeps_for; [typeclasses eauto|]. intros y Hy. apply Hk. by right. }
  intros [->|Hp]%elem_of_cons.
  - apply Hd in Hx; [|left]. specialize (Hrest s1 x). rewrite Hl in Hrest. simpl in Hrest.
    destruct Hrest as [->|?]; done.
  - eapply IH; [| |exact Hl|done].
    + intros q Hq. apply Hk. by right.
    + intros q s2 s3 Hq. apply Hd. by right.
Qed.

End Files.

Section Operations.
Context {K : Type} (w : NetWorld K).

Lemma target_lookup ds p c : Files ds !! p = Some c -> target ds !! p = Some (Some c).
Proof. intros H. unfold target. by rewrite lookup_fmap, H. Qed.

Lemma write_declared_toward ds p :
  p ∈ sorted_keys (Files ds) -> keeps (toward (target ds)) (write_declared w (Files ds) p).
Proof.
  intros [c Hc]%elem_of_sorted_keys. unfold write_declared, lookup_default. rewrite Hc. keep.
  apply writeFile_toward. by apply target_lookup.
Qed.

Lemma toward_commands t name args d k k' i o :
  command w i name args k = (k', o) -> toward t (mkNode d k) (mkNode d k').
Proof. intros _ p. by left. Qed.

Lemma Apply_toward ds : keeps (toward (target ds)) (Apply w ds).
Proof.
  unfold Apply. keep.
  - apply keeps_checkFilePreconditions. typeclasses eauto.
  - apply keeps_checkIfupdown. typeclasses eauto.
  - apply keeps_routeState. typeclasses eauto.
  - by apply write_declared_toward.
  - apply keeps_applyAction; [typeclasses eauto|]. intros. by eapply toward_commands.
Qed.

Lemma Apply_done ds s s' p c :
  Apply w ds s = (s', Done tt) -> Files ds !! p = Some c -> disk (fst s') !! p = Some c.
Proof.
  intros Ha Hc. unfold Apply in Ha. do 4 (apply act_bind_done in Ha as (? & [] & _ & Ha)).
  apply act_bind_done in Ha as (s1 & [] & Hw & Ha).
  assert (Ht : target ds !! p = Some (disk (fst s1) !! p)).
  { eapply for_done; [..|exact Hw|by apply elem_of_sorted_keys; eauto].
    - apply write_declared_toward.
    - intros q a b [d Hd]%elem_of_sorted_keys. unfold write_declared, lookup_default. rewrite Hd.
      intros (a1 & [] & _ & Hq)%act_bind_done. simpl in Hq. rewrite (writeFile_done _ _ _ _ _ Hq).
      by apply target_lookup. }
  rewrite (target_lookup _ _ _ Hc) in Ht. injection Ht as Ht. rewrite Ht.
  assert (Hk : keeps (toward ∅) (for_act (fun a => ctx_Err w;; applyAction w a) (Actions ds))).
  { keep. apply keeps_applyAction; [typeclasses eauto|]. intros. by eapply toward_commands. }
  specialize (Hk s1 p). rewrite Ha in Hk. simpl in Hk. destruct Hk as [->|H]; [done|].
  by rewrite lookup_empty in H.
Qed.

Lemma undo_one_toward u p :
  p ∈ sorted_keys (UFiles u) -> keeps (toward (UFiles u)) (undo_one w u p).
Proof.
  intros [[c|] Hc]%elem_of_sorted_keys; unfold undo_one; rewrite Hc;
    [by apply writeFile_toward | by apply Remove_toward].
Qed.

Lemma undo_route_toward t a : keeps (toward t) (undo_route w a).
Proof.
  unfold undo_route. keep; [apply keeps_routeState; typeclasses eauto|].
  apply keeps_run. intros. by eapply toward_commands.
Qed.

Lemma undo_toward u : keeps (toward (UFiles u)) (undo w u).
Proof.
  unfold undo, set_sysctl. keep.
  - by apply undo_one_toward.
  - apply undo_route_toward.
  - apply keeps_run. intros. by eapply toward_commands.
Qed.

Lemma undo_done u s s' p c :
  undo w u s = (s', Done tt) -> UFiles u !! p = Some c -> disk (fst s') !! p = c.
Proof.
  intros Ha Hc. unfold undo in Ha. do 2 (apply act_bind_done in Ha as (? & [] & _ & Ha)).
  apply act_bind_done in Ha as (s1 & [] & Hw & Ha).
  assert (Ht : UFiles u !! p = Some (disk (fst s1) !! p)).
  { eapply for_done; [..|exact Hw|by apply elem_of_sorted_keys; eauto].
    - apply undo_one_toward.
    - intros q a b [[d|] Hd]%elem_of_sorted_keys; unfold undo_one; rewrite Hd; intros Hq.
      + by rewrite (writeFile_done _ _ _ _ _ Hq).
      + by rewrite (Remove_done _ _ _ _ Hq). }
  rewrite Hc in Ht. injection Ht as ->.
  match type of Ha with ?m s1 = _ => assert (Hk : keeps (toward ∅) m) end.
  { unfold set_sysctl. keep; [apply undo_route_toward|]. apply keeps_run. intros. by eapply toward_commands. }
  specialize (Hk s1 p). rewrite Ha in Hk. simpl in Hk. destruct Hk as [->|H]; [done|].
  by rewrite lookup_empty in H.
Qed.

Lemma Rollback_eq s u st : unmarshal_undo s = Ok u -> Rollback w s st = undo w u st.
Proof. intros Hu. unfold Rollback. by rewrite Hu. Qed.

(** The files a snapshot has recorded so far. *)
Lemma save_files l files st st' files' :
  fold_act (save_file w) files l st = (st', Done files') ->
  fst st' = fst st
  /\ forall p, files' !! p = if decide (p ∈ l) then Some (disk (fst st) !! p) else files !! p.
Proof.
  revert files st. induction l as [|x l IH]; intros files [h i] Hf.
  - injection Hf as <- <-. split; [done|]. intros p. case_decide as Hp; [by apply elem_of_nil in Hp|done].
  - cbn [fold_act] in Hf. apply act_bind_done in Hf as ([h1 i1] & f1 & Hx & Hl).
    apply act_bind_done in Hx as ([h2 i2] & c & Hr & [= <- <- <-]). unfold ReadFile in Hr.
    destruct (read_error w i); [done|]. injection Hr as <- <- <-.
    destruct (IH _ _ Hl) as [-> Hp]. split; [done|]. intros p. rewrite Hp. simpl.
    destruct (decide (p ∈ l)) as [|Hn]; [rewrite decide_True by (by right); done|].
    destruct (decide (p = x)) as [->|Hne]; [rewrite decide_True by left; apply lookup_insert_eq|].
    rewrite decide_False by (by apply not_elem_of_cons). by apply lookup_insert_ne.
Qed.

Lemma Snapshot_done ds h i st s :
  Snapshot w ds (h, i) = (st, Done s) ->
  exists u i1 i2 i3, s = marshal_undo u
    /\ (forall p, UFiles u !! p = (fun _ => disk h !! p) <$> Files ds !! p)
    /\ fold_act (missing_route w) [] (Actions ds) (h, i1) = ((h, i2), Done (AddedRoutes u))
    /\ (if existsb needs_forward (Actions ds) then forward_now w else mret EmptyString) (h, i2)
       = ((h, i3), Done (UForward u)).
Proof.
  intros Hs. unfold Snapshot in Hs. apply act_bind_done in Hs as (s0 & [] & [-> _]%lift_done & Hs).
  apply act_bind_done in Hs as ([h1 j1] & [] & H1 & Hs). apply act_bind_done in Hs as ([h2 j2] & [] & H2 & Hs).
  pose proof (keeps_checkFilePreconditions eq w ds (h, i)) as E1. rewrite H1 in E1.
  pose proof (keeps_checkIfupdown eq w ds (h1, j1)) as E2. rewrite H2 in E2. simpl in E1, E2. subst h1 h2.
  apply act_bind_done in Hs as ([h3 i1] & files & H3 & Hs). apply act_bind_done in Hs as ([h4 i2] & added & H4 & Hs).
  apply act_bind_done in Hs as ([h5 i3] & forward & H5 & [= _ <-]).
  apply save_files in H3 as [E3 Hf]. simpl in E3. subst h3.
  assert (E4 : keeps eq (fold_act (missing_route w) [] (Actions ds))).
  { unfold missing_route. keep. apply keeps_routeState. typeclasses eauto. }
  specialize (E4 (h, i1)). rewrite H4 in E4. simpl in E4. subst h4.
  assert (E5 : keeps eq (if existsb needs_forward (Actions ds) then forward_now w else mret EmptyString)) by keep.
  specialize (E5 (h, i2)). rewrite H5 in E5. simpl in E5. subst h5.
  exists (mkUndo added files forward), i1, i2, i3. split_and!; [done| |done..]. intros p. simpl.
  rewrite Hf. destruct (Files ds !! p) as [c|] eqn:Hc; simpl.
  - by rewrite decide_True by (apply elem_of_sorted_keys; eauto).
  - rewrite decide_False by (rewrite elem_of_sorted_keys, Hc; by intros [? ?]). apply lookup_empty.
Qed.

End Operations.

(** * The netconfig package keeps its promises to the RPC layer

    What a lease protects is the persisted configuration, as text. *)

Definition boot_files {K} (h : node K) : gmap string string := coerce_utf8 <$> disk h.

Section Laws.
Context {K : Type} (world : nat -> NetWorld K).

Definition restorable (s : raw) (v : gmap string string) (h : node K) : Prop :=
  exists u, unmarshal_undo s = Ok u
    /\ forall p, match UFiles u !! p with
                 | Some c => coerce_utf8 <$> c = v !! p
                 | None => boot_files h !! p = v !! p
                 end.

Lemma restorable_toward s v h h' u t :
  unmarshal_undo s = Ok u -> (forall p, UFiles u !! p = None -> t !! p = None) ->
  restorable s v h -> toward t h h' -> restorable s v h'.
Proof.
  intros Hu Ht (u' & Hu' & Hv) Hto. rewrite Hu in Hu'. injection Hu' as <-. exists u. split; [done|].
  intros p. specialize (Hv p). destruct (UFiles u !! p) eqn:Hp; [done|].
  unfold boot_files in *. rewrite lookup_fmap in *. destruct (Hto p) as [->|Hx]; [done|].
  by rewrite (Ht p Hp) in Hx.
Qed.

(** Moving toward contents that the view already holds. *)
Lemma view_toward (h h' : node K) t v :
  boot_files h = v -> (forall p c, t !! p = Some c -> coerce_utf8 <$> c = v !! p) ->
  toward t h h' -> boot_files h' = v.
Proof.
  intros Hv Ht Hto. apply map_eq. intros p. unfold boot_files in *. rewrite lookup_fmap.
  destruct (Hto p) as [->|Hx]; [by rewrite <-lookup_fmap, Hv | by apply Ht in Hx].
Qed.

Definition holds_target (t : raw) (h : node K) : Prop :=
  exists ds, ParseDesiredState t = Ok ds /\ forall p c, Files ds !! p = Some c -> disk h !! p = Some c.

Definition replayable (c : raw) (v : gmap string string) : Prop :=
  c = RawEmpty
  \/ exists ds, ParseDesiredState c = Ok ds /\ forall p t, Files ds !! p = Some t -> v !! p = Some (coerce_utf8 t).

Lemma on_node_inv {A} (m : act K A) h h' o :
  on_node m h = (h', o) -> exists s, m (h, 0%nat) = (s, o) /\ h' = fst s.
Proof. unfold on_node. destruct (m (h, 0%nat)) as [s o'] eqn:E. intros [= <- <-]. eauto. Qed.

Lemma snapshot_restorable n ds h s :
  nc_snapshot world n ds h = Done s ->
  (exists u, unmarshal_undo s = Ok u /\ forall p, UFiles u !! p = None -> target ds !! p = None)
  /\ restorable s (boot_files h) h /\ raw_is_empty s = false.
Proof.
  unfold nc_snapshot, on_node. destruct (Snapshot (world n) ds (h, 0%nat)) as [st [s'|e|]] eqn:E; [|done..].
  intros [= <-]. apply Snapshot_done in E as (u & i1 & i2 & i3 & -> & Hu & _).
  assert (Hd : forall p, UFiles (coerced u) !! p = option_map (option_map coerce_utf8) (UFiles u !! p)).
  { intros p. simpl. by rewrite lookup_fmap. }
  split_and!; [| |done].
  - exists (coerced u). split; [apply unmarshal_marshal_undo|]. intros p. rewrite Hd, Hu. unfold target.
    rewrite lookup_fmap. by destruct (Files ds !! p).
  - exists (coerced u). split; [apply unmarshal_marshal_undo|]. intros p. rewrite Hd, Hu.
    destruct (Files ds !! p); simpl; [|done]. unfold boot_files. rewrite lookup_fmap.
    destruct (disk h !! p); simpl; [|done]. by rewrite coerce_utf8_idem.
Qed.

Lemma rollback_restores n s v h h' o :
  restorable s v h -> on_node (Rollback (world n) s) h = (h', o) ->
  restorable s v h' /\ (o = Done tt \/ boot_files h = v -> boot_files h' = v).
Proof.
  intros Hr Ho. destruct Hr as (u & Hu & Hv). apply on_node_inv in Ho as (st & Ho & ->).
  rewrite (Rollback_eq _ _ u) in Ho by done. pose proof (undo_toward (world n) u (h, 0%nat)) as Hto.
  rewrite Ho in Hto. simpl in Hto. split.
  - eapply restorable_toward; [done| |by exists u|exact Hto]. done.
  - intros [->|Hview].
    + apply map_eq. intros p. specialize (Hv p). unfold boot_files in *. rewrite lookup_fmap in *.
      destruct (UFiles u !! p) as [c|] eqn:Hp; [by rewrite (undo_done _ _ _ _ _ _ Ho Hp)|].
      destruct (Hto p) as [->|Hx]; [done|]. by rewrite Hp in Hx.
    + eapply view_toward; [exact Hview| |exact Hto]. intros p c Hc. specialize (Hv p). by rewrite Hc in Hv.
Qed.

Lemma restore_view n c v h h' o :
  replayable c v -> boot_files h = v -> on_node (Restore (world n) c) h = (h', o) -> boot_files h' = v.
Proof.
  intros Hc Hv Ho. apply on_node_inv in Ho as (st & Ho & ->). unfold Restore in Ho.
  destruct Hc as [->|(ds & Hp & Hf)]; [by injection Ho as <- <-|].
  destruct (raw_is_empty c); [by injection Ho as <- <-|]. rewrite Hp in Ho.
  change (Apply (world n) ds (h, 0%nat) = (st, o)) in Ho.
  pose proof (Apply_toward (world n) ds (h, 0%nat)) as Hto. rewrite Ho in Hto. simpl in Hto.
  eapply view_toward; [exact Hv| |exact Hto]. intros p x. unfold target. rewrite lookup_fmap_Some.
  intros (t & <- & Ht). simpl. symmetry. by apply Hf.
Qed.

#[global, program] Instance netconfig_laws : ExecLaws (netconfig world) (gmap string string) := {|
  view := boot_files;
  planned t ds := ParseDesiredState t = Ok ds;
  guards s ds := exists u, unmarshal_undo s = Ok u /\ forall p, UFiles u !! p = None -> target ds !! p = None;
  covers := restorable;
  enacted := holds_target;
  replays := replayable;
  lost v h := boot_files h = v;
  rebooted h h' := disk h' = disk h;
|}.
Next Obligation.
  intros n t h ds. simpl. unfold nc_check. destruct (ParseDesiredState t) as [ds'|]; [|done].
  destruct (Validate ds'); [|done]. by intros [= ->].
Qed.
Next Obligation. intros n ds h s. apply snapshot_restorable. Qed.
Next Obligation.
  intros n ds s v h h' o (u & Hu & Hd) Hr Ho. simpl in Ho. apply on_node_inv in Ho as (st & Ho & ->).
  pose proof (Apply_toward (world n) ds (h, 0%nat)) as Hto. rewrite Ho in Hto.
  by eapply restorable_toward.
Qed.
Next Obligation.
  intros n t ds h h' Hp Ho. simpl in Ho. apply on_node_inv in Ho as (st & Ho & ->).
  exists ds. split; [done|]. intros p c. by eapply Apply_done.
Qed.
Next Obligation. intros n s v h h' o. apply rollback_restores. Qed.
Next Obligation.
  intros n t h c (ds & Hp & Hf) [= <-]. right. exists ds. split; [done|]. intros p x Hx.
  unfold boot_files. by rewrite lookup_fmap, (Hf p x Hx).
Qed.
Next Obligation. intros v. by left. Qed.
Next Obligation. done. Qed.
Next Obligation. intros v h h' Hv Hd. unfold boot_files in *. by rewrite Hd. Qed.
Next Obligation.
  intros s v h h' (u & Hu & Hv) Hd. exists u. split; [done|]. intros p. specialize (Hv p).
  unfold boot_files in *. by rewrite Hd.
Qed.
Next Obligation.
  intros n c v h h' o Hc Hv Ho. pose proof (restore_view n c v h h' o Hc Hv Ho) as Hb. done.
Qed.

End Laws.
