(* ===== verification/NetSafety.v ===== *)
(** internal/netconfig: the theorems about what the package may do to a host, and a small
    network to try them on. *)

From S2P Require Import Prelude Json NetAddr Ifupdown State Auth Server Protocol Netconfig NetExec NetLaws.
From Stdlib Require Import Ascii.

(** * Validation *)

Lemma Validate_ok ds :
  Validate ds = Ok tt <->
  (forall p, p ∈ sorted_keys (ExpectedFilesSHA256 ds) -> validate_digest ds p = Ok tt)
  /\ (forall p, p ∈ sorted_keys (Files ds) -> validate_file ds p = Ok tt)
  /\ (forall a, a ∈ Actions ds -> validate_action a = Ok tt)
  /\ validateNoConflictingAddresses (Actions ds) = Ok tt.
Proof. unfold Validate. rewrite !seq_ok, !for_each_ok, !Forall_forall. done. Qed.

(** The paths netconfig may touch. *)
Definition may_write (p : string) : Prop :=
  p = interfacesMain \/ p ∈ forwardingFiles \/ (Clean p = p /\ has_prefix p (InterfacesDir +++ "/") = true).

Lemma mem_str_In k l : mem_str k l = true -> k ∈ l.
Proof.
  unfold mem_str. rewrite existsb_exists. intros (x & Hx & ->%String.eqb_eq). by apply list_elem_of_In.
Qed.

Lemma Validate_paths ds p c : Validate ds = Ok tt -> Files ds !! p = Some c -> may_write p.
Proof.
  intros (_ & Hf & _)%Validate_ok Hp. specialize (Hf p). unfold validate_file in Hf.
  destruct (p =?s interfacesMain) eqn:E1; [by left; apply String.eqb_eq|].
  destruct (mem_str p forwardingFiles) eqn:E2; [right; left; by apply mem_str_In|].
  right; right. rewrite fail_if_ok in Hf. rewrite elem_of_sorted_keys, Hp in Hf.
  destruct (Clean p =?s p) eqn:E3; [apply String.eqb_eq in E3|]; simpl in Hf.
  - split; [done|]. rewrite E3 in Hf. by destruct (has_prefix p _); [|discriminate Hf; eauto].
  - discriminate Hf. eauto.
Qed.

(** * Confinement *)

(** Every change is to a path netconfig may touch. *)
Definition confined {K} (h h' : node K) : Prop :=
  forall p, ~ may_write p -> disk h' !! p = disk h !! p.

#[global] Instance confined_preorder {K} : PreOrder (@confined K).
Proof. split; [by intros h p|]. intros h1 h2 h3 H1 H2 p Hp. rewrite H2 by done. by apply H1. Qed.

Lemma toward_confined {K} t (h h' : node K) :
  (forall p c, t !! p = Some c -> may_write p) -> toward t h h' -> confined h h'.
Proof. intros Ht Hto p Hp. destruct (Hto p) as [->|H]; [done|]. by apply Ht in H. Qed.

(** A check in front of a computation. *)
Lemma keeps_guard {K A} (R : node K -> node K -> Prop) `{!PreOrder R} r (m : act K A) :
  (r = Ok tt -> keeps R m) -> keeps R (lift r;; m).
Proof. intros Hm s. destruct r as [[]|e]; [by apply Hm|]. simpl. reflexivity. Qed.

Lemma Apply_confined {K} (w : NetWorld K) ds : keeps confined (Apply w ds).
Proof.
  intros s. destruct (Validate ds) as [[]|e] eqn:Ev.
  - eapply toward_confined; [|apply Apply_toward]. intros p c. unfold target. rewrite lookup_fmap_Some.
    intros (x & _ & Hx). by eapply Validate_paths.
  - unfold Apply. rewrite Ev. simpl. reflexivity.
Qed.

Lemma Rollback_confined {K} (w : NetWorld K) blob : keeps confined (Rollback w blob).
Proof.
  intros s. destruct (unmarshal_undo blob) as [u|e] eqn:Eu; [|unfold Rollback; rewrite Eu; simpl; reflexivity].
  rewrite (Rollback_eq w blob u) by done.
  destruct (for_each validateDefaultRoute (AddedRoutes u)) as [[]|e] eqn:Er;
    [|unfold undo; rewrite Er; simpl; reflexivity].
  destruct (Validate (undo_paths u)) as [[]|e] eqn:Ev; [|unfold undo; rewrite Er, Ev; simpl; reflexivity].
  eapply toward_confined; [|apply undo_toward]. intros p c Hp.
  eapply (Validate_paths _ p EmptyString); [exact Ev|]. simpl. by rewrite lookup_fmap, Hp.
Qed.

(** netconfig writes nowhere else.  For every desired state, every snapshot and every
    confirmed state, well formed or not, and wherever the process stops, Apply, Rollback and
    Restore leave every file as it was that is not /etc/network/interfaces, one of the two
    forwarding files, or a clean path below interfaces.d. *)
Theorem writes_confined {K} (w : NetWorld K) ds blob s p :
  ~ may_write p ->
  disk (fst (fst (Apply w ds s))) !! p = disk (fst s) !! p
  /\ disk (fst (fst (Rollback w blob s))) !! p = disk (fst s) !! p
  /\ disk (fst (fst (Restore w blob s))) !! p = disk (fst s) !! p.
Proof.
  intros Hp. split_and!.
  - by apply Apply_confined.
  - by apply Rollback_confined.
  - assert (Hk : keeps confined (Restore w blob)); [|by apply Hk]. unfold Restore. keep. apply Apply_confined.
Qed.

(** * Conflicting addresses *)

(** The claims made so far on a bare address. *)
Lemma claims_of_spec actions acc bare pair :
  pair ∈ default ∅ (fold_left add_claim actions acc !! bare)
  <-> pair ∈ default ∅ (acc !! bare)
      \/ exists a, a ∈ actions /\ is_addr a = true /\ bare_of a = bare /\ claim_of a = pair.
Proof.
  revert acc. induction actions as [|a actions IH]; intros acc; simpl.
  - split; [auto|]. intros [?|(a & ?%elem_of_nil & _)]; done.
  - rewrite IH. unfold add_claim. destruct (is_addr a) eqn:Ea.
    + destruct (decide (bare_of a = bare)) as [<-|Hne].
      * rewrite lookup_insert_eq. simpl. rewrite elem_of_union, elem_of_singleton. split.
        -- intros [[->|?]|(b & Hb & H)]; [right; exists a|by left|right; exists b; by split; [right|]].
           by split; [left|].
        -- intros [?|(b & [->|Hb]%elem_of_cons & H)]; [left; by right|left; left; naive_solver|right; eauto].
      * rewrite lookup_insert_ne by done. split; (intros [?|(b & Hb & H)]; [by left|right]).
        -- exists b. by split; [right|].
        -- apply elem_of_cons in Hb as [->|Hb]; [destruct H as (? & ? & _); congruence|eauto].
    + split; (intros [?|(b & Hb & H)]; [by left|right]).
      * exists b. by split; [right|].
      * apply elem_of_cons in Hb as [->|Hb]; [destruct H as (? & ? & _); congruence|eauto].
Qed.

Lemma size_le_1 (X : gset string) :
  (1 <? size X)%nat = false <-> forall x y, x ∈ X -> y ∈ X -> x = y.
Proof.
  rewrite Nat.ltb_ge. split.
  - intros Hs x y Hx Hy. destruct (decide (x = y)) as [|Hne]; [done|].
    assert (Hsub : {[x; y]} ⊆ X) by set_solver. apply subseteq_size in Hsub.
    rewrite size_union, !size_singleton in Hsub by set_solver. lia.
  - intros H. destruct (decide (X = ∅)) as [->|(x & Hx)%set_choose_L]; [rewrite size_empty; lia|].
    assert (X ⊆ {[x]}) as Hsub%subseteq_size by (intros y Hy; apply elem_of_singleton; by apply H).
    by rewrite size_singleton in Hsub.
Qed.

(** Conflicting addresses are refused, and only those.  The check accepts a list of actions
    exactly when any two of its addr actions for the same bare address (the text before the
    slash) make the same claim, device and prefix length included. *)
Theorem address_conflicts_exact actions :
  validateNoConflictingAddresses actions = Ok tt <->
  forall a b, a ∈ actions -> b ∈ actions -> is_addr a = true -> is_addr b = true ->
    bare_of a = bare_of b -> claim_of a = claim_of b.
Proof.
  unfold validateNoConflictingAddresses. rewrite for_each_ok, Forall_forall. split.
  - intros H a b Ha Hb Iaa Iab Hab. specialize (H (bare_of a)). rewrite fail_if_ok, size_le_1 in H.
    assert (Hin : forall x, x ∈ actions -> is_addr x = true -> bare_of x = bare_of a ->
      claim_of x ∈ default ∅ (claims_of actions !! bare_of a)).
    { intros x Hx Ix Ex. apply claims_of_spec. right. by exists x. }
    apply H; [|by apply Hin|by apply Hin]. apply elem_of_sorted_keys. specialize (Hin a Ha Iaa eq_refl).
    destruct (claims_of actions !! bare_of a); [eauto|]. simpl in Hin. set_solver.
  - intros H bare _. rewrite fail_if_ok, size_le_1. intros x y Hx Hy.
    apply claims_of_spec in Hx as [Hx|(a & Ha & Ia & <- & <-)]; [rewrite lookup_empty in Hx; set_solver|].
    apply claims_of_spec in Hy as [Hy|(b & Hb & Ib & E & <-)]; [rewrite lookup_empty in Hy; set_solver|].
    by apply H.
Qed.

(** * Only additive commands *)

Inductive additive : string -> list string -> Prop :=
| additive_vlan base dev id : additive "ip" ["link"; "add"; "link"; base; "name"; dev; "type"; "vlan"; "id"; id]
| additive_addr ip dev : additive "ip" ["addr"; "add"; ip; "dev"; dev]
| additive_up dev : additive "ip" ["link"; "set"; dev; "up"]
| additive_route action : validateDefaultRoute action = Ok tt -> additive "ip" (routeArgs "add" action)
| additive_forward v : v ∈ ["net.ipv4.ip_forward=0"; "net.ipv4.ip_forward=1"] -> additive "sysctl" ["-q"; "-w"; v]
| additive_script : additive "sh" ["/etc/stack-forward.sh"].

(** Two outsides that answer alike, except that they may treat a command that is not additive
    differently. *)
Record alike {K} (w w' : NetWorld K) : Prop := {
  alike_show i args k : ip_show w i args k = ip_show w' i args k;
  alike_command i name args k : additive name args -> command w i name args k = command w' i name args k;
  alike_fate i : file_fate_at w i = file_fate_at w' i;
  alike_read i : read_error w i = read_error w' i;
  alike_ctx i : ctx_err w i = ctx_err w' i;
  alike_sha s : sha256_hex w s = sha256_hex w' s;
}.

Definition agree {K A} (m m' : act K A) : Prop := forall s, m s = m' s.

Section Agree.
Context {K : Type} (w w' : NetWorld K) (Hw : alike w w').

Lemma agree_refl {A} (m : act K A) : agree m m.
Proof. by intros s. Qed.
Lemma agree_bind {A B} (m m' : act K A) (f f' : A -> act K B) :
  agree m m' -> (forall a, agree (f a) (f' a)) -> agree (m ≫= f) (m' ≫= f').
Proof. intros Hm Hf s. unfold mbind, act_bind. rewrite Hm. destruct (m' s) as [s1 [a|e|]]; [apply Hf|done..]. Qed.
Lemma agree_catch {A} (m m' : act K A) h h' :
  agree m m' -> (forall e, agree (h e) (h' e)) -> agree (catch m h) (catch m' h').
Proof. intros Hm Hh s. unfold catch. rewrite Hm. destruct (m' s) as [s1 [a|e|]]; [done|apply Hh|done]. Qed.
Lemma agree_for {A} (f f' : A -> act K unit) l :
  (forall x, x ∈ l -> agree (f x) (f' x)) -> agree (for_act f l) (for_act f' l).
Proof.
  induction l as [|x l IH]; intros Hf; [apply agree_refl|]. apply agree_bind; [apply Hf; left|].
  intros _. apply IH. intros y Hy. apply Hf. by right.
Qed.
Lemma agree_fold {A S} (f f' : S -> A -> act K S) s l :
  (forall s x, agree (f s x) (f' s x)) -> agree (fold_act f s l) (fold_act f' s l).
Proof.
  intros Hf. revert s. induction l as [|x l IH]; intros s; [apply agree_refl|]. by apply agree_bind.
Qed.
Lemma agree_show args : agree (show w args) (show w' args).
Proof. intros [h i]. unfold show. by rewrite (alike_show _ _ Hw). Qed.
Lemma agree_ctx : agree (ctx_Err w) (ctx_Err w').
Proof. intros [h i]. unfold ctx_Err. by rewrite (alike_ctx _ _ Hw). Qed.
Lemma agree_ReadFile p : agree (ReadFile w p) (ReadFile w' p).
Proof. intros [h i]. unfold ReadFile. by rewrite (alike_read _ _ Hw). Qed.
Lemma agree_ReadDir : agree (ReadDir w) (ReadDir w').
Proof. intros [h i]. unfold ReadDir. by rewrite (alike_read _ _ Hw). Qed.
Lemma agree_writeFile p c : agree (writeFile w p c) (writeFile w' p c).
Proof. intros [h i]. unfold writeFile, file_op. by rewrite (alike_fate _ _ Hw). Qed.
Lemma agree_run name args : additive name args -> agree (run w name args) (run w' name args).
Proof. intros Ha [h i]. unfold run. by rewrite (alike_command _ _ Hw). Qed.

End Agree.

Ltac agree_step :=
  match goal with
  | |- agree ?m ?m => apply agree_refl
  | |- agree (@mbind _ _ _ _ _ _) (@mbind _ _ _ _ _ _) => apply agree_bind; [|intros ?]
  | |- agree (catch _ _) (catch _ _) => apply agree_catch; [|intros ?]
  | |- agree (wrap_err _ _) (wrap_err _ _) => unfold wrap_err
  | |- agree (for_act _ _) (for_act _ _) => apply agree_for; intros ? ?
  | |- agree (fold_act _ _ _) (fold_act _ _ _) => apply agree_fold; intros ? ?
  | |- agree (show _ _) (show _ _) => by apply agree_show
  | |- agree (ctx_Err _) (ctx_Err _) => by apply agree_ctx
  | |- agree (ReadFile _ _) (ReadFile _ _) => by apply agree_ReadFile
  | |- agree (ReadDir _) (ReadDir _) => by apply agree_ReadDir
  | |- agree (writeFile _ _ _) (writeFile _ _ _) => by apply agree_writeFile
  | |- agree (match ?x with _ => _ end) (match ?x with _ => _ end) => destruct x eqn:?
  end.

Section Additive.
Context {K : Type} (w w' : NetWorld K) (Hw : alike w w').

Lemma agree_routeState a : agree (routeState w a) (routeState w' a).
Proof. unfold routeState. repeat agree_step. Qed.

Lemma agree_checkFilePreconditions ds : agree (checkFilePreconditions w ds) (checkFilePreconditions w' ds).
Proof.
  unfold checkFilePreconditions, check_precondition. repeat agree_step.
  rewrite (alike_sha _ _ Hw). apply agree_refl.
Qed.

Lemma agree_checkIfupdown ds : agree (checkIfupdown w ds) (checkIfupdown w' ds).
Proof. unfold checkIfupdown, readInterfacesFiles, read_present, read_entry. repeat agree_step. Qed.

Lemma agree_applyAction a : validate_action a = Ok tt -> agree (applyAction w a) (applyAction w' a).
Proof.
  destruct a as [|kind args]; [done|]. unfold validate_action. destruct (knownActions kind); [|done].
  rewrite !seq_ok, !fail_if_ok. intros (_ & Hr & Hs & Hf). unfold applyAction, set_sysctl.
  change (arg (kind :: args) 0) with kind in *.
  destruct (kind =?s "default-route") eqn:E1.
  { unfold ensureDefaultRoute. repeat first [agree_step | apply agree_routeState].
    apply agree_run; [done|]. by constructor. }
  destruct (kind =?s "vlan"); [unfold add_vlan, checkVLAN; repeat agree_step; apply agree_run; [done|constructor]|].
  destruct (kind =?s "addr"); [unfold add_addr, readAddrs; repeat agree_step; apply agree_run; [done|constructor]|].
  destruct (kind =?s "sysctl").
  { repeat agree_step. apply agree_run; [done|]. constructor. rewrite list_elem_of_In. simpl.
    destruct (arg _ 1 =?s "net.ipv4.ip_forward=0") eqn:E2; [left; symmetry; by apply String.eqb_eq|].
    destruct (arg _ 1 =?s "net.ipv4.ip_forward=1") eqn:E3; [right; left; symmetry; by apply String.eqb_eq|done]. }
  destruct (kind =?s "forward").
  { repeat agree_step; (apply agree_run; [done|]); [|constructor; set_solver].
    simpl in Hf. apply negb_false_iff, String.eqb_eq in Hf as ->. constructor. }
  destruct (kind =?s "up"); repeat agree_step. apply agree_run; [done|constructor].
Qed.

Lemma agree_Apply ds : agree (Apply w ds) (Apply w' ds).
Proof.
  intros s. unfold Apply. destruct (Validate ds) as [[]|e] eqn:Ev; [|done].
  apply Validate_ok in Ev as (_ & _ & Hv & _). revert s.
  apply agree_bind; [apply agree_refl|intros _]. apply agree_bind; [apply agree_checkFilePreconditions|intros _].
  apply agree_bind; [apply agree_checkIfupdown|intros _].
  repeat first [agree_step | apply agree_routeState | unfold write_declared].
  by apply agree_applyAction, Hv.
Qed.

Lemma agree_Restore blob : agree (Restore w blob) (Restore w' blob).
Proof. unfold Restore. repeat agree_step. apply agree_Apply. Qed.

End Additive.

(** Apply is additive only.  For every desired state, and for Restore of every blob, the
    outcome and the node left behind do not depend on what any command would do other than
    adding a VLAN link, adding an address, setting a link up, adding a default route marked as
    ghostd's, setting IPv4 forwarding to 0 or 1, or running the forwarding script: no other
    command is ever run. *)
Theorem apply_additive {K} (w w' : NetWorld K) ds blob s :
  alike w w' -> Apply w ds s = Apply w' ds s /\ Restore w blob s = Restore w' blob s.
Proof. intros Hw. split; [by apply agree_Apply | by apply agree_Restore]. Qed.

(** * Routes and forwarding

    What is relied on of ip and sysctl.  [default_routes] is the main table's default routes
    as ip lists them, [forwarding] the IPv4 forwarding value.  A command takes effect or not,
    and has taken effect when it reports success; a route added with [proto 242] to a table
    without a default route is the only one and lists as such. *)

Definition route_command (name : string) (args : list string) : bool :=
  (name =?s "ip") && match args with v :: _ => v =?s "-4" | [] => false end.

Class NetLaws {K : Type} (world : nat -> NetWorld K) := {
  default_routes : K -> list (list (string * json));
  forwarding : K -> string;
  route_show_prints n i k out : ip_show (world n) i route_show k = Done out ->
    out = RawDoc (JArr (map JObj (default_routes k)));
  sysctl_prints n i k out : sysctl_get (world n) i k = Done out -> trim_space out = forwarding k;
  route_add_effect n i a k k' o : validateDefaultRoute a = Ok tt -> default_routes k = [] ->
    command (world n) i "ip" (routeArgs "add" a) k = (k', o) ->
    (default_routes k' = [] /\ o <> Done tt)
    \/ exists r, default_routes k' = [r] /\ match_route a r = Ok (true, true);
  route_del_effect n i a r k k' o : validateDefaultRoute a = Ok tt -> default_routes k = [r] ->
    match_route a r = Ok (true, true) -> command (world n) i "ip" (routeArgs "del" a) k = (k', o) ->
    (default_routes k' = [r] /\ o <> Done tt) \/ default_routes k' = [];
  other_keeps_routes n i name args k k' o : name <> "sh" -> route_command name args = false ->
    command (world n) i name args k = (k', o) -> default_routes k' = default_routes k;
  ip_keeps_forwarding n i args k k' o :
    command (world n) i "ip" args k = (k', o) -> forwarding k' = forwarding k;
  sysctl_effect n i v k k' o : zero_or_one v = true ->
    command (world n) i "sysctl" ["-q"; "-w"; "net.ipv4.ip_forward=" +++ v] k = (k', o) ->
    (forwarding k' = forwarding k /\ o <> Done tt) \/ forwarding k' = v;
}.

(** [m] does not break [I]. *)
Definition inv_rel {K} (I : node K -> Prop) (h h' : node K) : Prop := I h -> I h'.

#[global] Instance inv_rel_preorder {K} (I : node K -> Prop) : PreOrder (inv_rel I).
Proof. split; unfold inv_rel; [by intros ?|]. intros ???. auto. Qed.

Lemma traverse_routes l : traverse dec_route (map JObj l) = Some l.
Proof. induction l as [|r l IH]; simpl; [done|]. by rewrite IH. Qed.

Section Routes.
Context {K : Type} (world : nat -> NetWorld K) `{!NetLaws world}.

Definition routes_of (h : node K) : list (list (string * json)) := default_routes (kernel h).

(** What a successful look at the routes tells. *)
Lemma routeState_done n a s s' ex ow :
  routeState (world n) a s = (s', Done (ex, ow)) ->
  fst s' = fst s
  /\ match routes_of (fst s) with
     | [] => ex = false /\ ow = false
     | [r] => match_route a r = Ok (ex, ow)
     | _ => False
     end.
Proof.
  destruct s as [h i]. intros (s1 & out & Hs & [-> Hl]%lift_done)%act_bind_done.
  unfold show in Hs. injection Hs as <- Hs. split; [done|]. apply route_show_prints in Hs as ->.
  unfold route_verdict in Hl. cbn [unmarshal] in Hl. rewrite traverse_routes in Hl. unfold routes_of. simpl.
  destruct (default_routes (kernel h)) as [|r [|r' l]]; [|done|done]. by injection Hl as <- <-.
Qed.

Lemma match_route_exists a r ex ow : match_route a r = Ok (ex, ow) -> ex = true.
Proof. unfold match_route. rewrite !seq_ok. intros (_ & _ & _ & [= <- _]). done. Qed.

(** On a host with default routes, the route action finds its route or fails. *)
Lemma ensureDefaultRoute_keeps n a l :
  l <> [] -> keeps (inv_rel (fun h => routes_of h = l)) (ensureDefaultRoute (world n) a).
Proof.
  intros Hl s Hs. unfold ensureDefaultRoute, mbind, act_bind.
  pose proof (keeps_routeState eq (world n) a s) as Hk.
  destruct (routeState (world n) a s) as [s1 [[ex ow]|e|]] eqn:E; simpl in Hk; [|by simpl; rewrite <-Hk..].
  apply routeState_done in E as [_ Hm]. rewrite Hs in Hm.
  destruct l as [|r [|r' l]]; [done| |done]. apply match_route_exists in Hm as ->. simpl. by rewrite <-Hk.
Qed.

Lemma other_action_keeps n (I : K -> Prop) a :
  validate_action a = Ok tt -> is_route a = false -> arg a 0 <> "forward" ->
  (forall name args k k' i o, name <> "sh" -> route_command name args = false ->
     command (world n) i name args k = (k', o) -> I k -> I k') ->
  keeps (inv_rel (fun h => I (kernel h))) (applyAction (world n) a).
Proof.
  intros Hv Hr Hf Hc. destruct a as [|kind args]; [done|]. unfold is_route in Hr.
  unfold applyAction, set_sysctl, add_vlan, add_addr, checkVLAN, readAddrs. change (arg (kind :: args) 0) with kind in *.
  rewrite Hr. destruct (kind =?s "forward") eqn:E; [by apply String.eqb_eq in E|].
  assert (Hrun : forall name args, name <> "sh" -> route_command name args = false ->
    keeps (inv_rel (fun h => I (kernel h))) (run (world n) name args)).
  { intros name args' Hn Ha. apply keeps_run. intros d k k' i o Ho Hi. simpl in *. by eapply Hc. }
  keep; by apply Hrun.
Qed.

Lemma Validate_action_ok ds a : Validate ds = Ok tt -> a ∈ Actions ds -> validate_action a = Ok tt.
Proof. intros (_ & _ & H & _)%Validate_ok. apply H. Qed.

(** Apply on a host whose kernel state satisfies an invariant of its actions. *)
Lemma Apply_keeps n ds (I : K -> Prop) :
  (Validate ds = Ok tt -> forall a, a ∈ Actions ds -> keeps (inv_rel (fun h => I (kernel h))) (applyAction (world n) a)) ->
  keeps (inv_rel (fun h => I (kernel h))) (Apply (world n) ds).
Proof.
  intros Ha. apply keeps_guard; [typeclasses eauto|]. intros Hv. unfold write_declared. keep.
  - apply keeps_checkFilePreconditions. typeclasses eauto.
  - apply keeps_checkIfupdown. typeclasses eauto.
  - apply keeps_routeState. typeclasses eauto.
  - apply (keeps_file_op _ _ (insert _ _)). intros d k Hi. exact Hi.
  - by apply Ha.
Qed.

Definition no_script (ds : DesiredState) : Prop := forall a, a ∈ Actions ds -> arg a 0 <> "forward".

Lemma Apply_keeps_routes n ds l :
  no_script ds -> (l = [] -> forall a, a ∈ Actions ds -> is_route a = false) ->
  keeps (inv_rel (fun h => routes_of h = l)) (Apply (world n) ds).
Proof.
  intros Hn Hl. apply (Apply_keeps n ds (fun k => default_routes k = l)). intros Hv a Ha.
  destruct (is_route a) eqn:Er.
  - unfold applyAction. unfold is_route in Er. rewrite Er. apply ensureDefaultRoute_keeps.
    intros ->. specialize (Hl eq_refl a Ha). unfold is_route in Hl. congruence.
  - apply (other_action_keeps n (fun k => default_routes k = l)); [by eapply Validate_action_ok|done|by apply Hn|].
    intros name args k k' i o H1 H2 Ho <-. by eapply other_keeps_routes.
Qed.

End Routes.

Section Rollback.
Context {K : Type} (world : nat -> NetWorld K) `{!NetLaws world}.

(** ** Routes *)

Lemma missing_routes n acc actions s s' added :
  fold_act (missing_route (world n)) acc actions s = (s', Done added) ->
  added = acc ++ match routes_of world (fst s) with [] => List.filter is_route actions | _ => [] end.
Proof.
  revert acc s. induction actions as [|a actions IH]; intros acc s Hf; cbn [fold_act] in Hf.
  - injection Hf as <- <-. by destruct (routes_of _ _); rewrite app_nil_r.
  - apply act_bind_done in Hf as (s1 & acc1 & Ha & Hf). apply IH in Hf as ->. unfold missing_route in Ha.
    cbn [List.filter]. destruct (is_route a); [|by injection Ha as <- <-].
    apply act_bind_done in Ha as (s2 & [ex ow] & Hr & [= <- <-]).
    destruct (routeState_done world _ _ _ _ _ _ Hr) as [E Hm]. rewrite E.  destruct (routes_of world (fst s)) as [|r [|r' l]]; [| |done].
    + destruct Hm as [-> ->]. by rewrite <-app_assoc.
    + by apply match_route_exists in Hm as ->.
Qed.

Lemma undo_route_done n a s s' :
  validateDefaultRoute a = Ok tt -> undo_route (world n) a s = (s', Done tt) -> routes_of world (fst s') = [].
Proof.
  intros Hv (s1 & [ex ow] & Hr & Hu)%act_bind_done. apply act_bind_done in Hu as (s2 & [] & [-> Hf]%lift_done & Hu).
  destruct (routeState_done world _ _ _ _ _ _ Hr) as [E Hm]. rewrite fail_if_ok in Hf. rewrite <-E in Hm.
  destruct (routes_of world (fst s1)) as [|r [|r' l]] eqn:Hl; [| |done].
  - destruct Hm as [-> ->]. by injection Hu as <-.
  - pose proof (match_route_exists _ _ _ _ Hm) as ->. destruct ow; [|done]. destruct s1 as [h i]. unfold run in Hu.
    destruct (command _ _ _ _ _) as [k o] eqn:Ho. injection Hu as <- ->.
    eapply route_del_effect in Ho as [[_ ?]|?]; done.
Qed.

Lemma undo_routes_done n l s s' :
  Forall (fun a => validateDefaultRoute a = Ok tt) l -> l <> [] ->
  for_act (undo_route (world n)) l s = (s', Done tt) -> routes_of world (fst s') = [].
Proof.
  revert s. induction l as [|a l IH]; intros s Hv Hl Hf; [done|]. apply Forall_cons in Hv as [Ha Hv].
  cbn [for_act] in Hf. apply act_bind_done in Hf as (s1 & [] & H1 & Hf).
  apply undo_route_done in H1; [|done]. destruct l as [|b l]; [by injection Hf as <-|]. by eapply IH.
Qed.

Lemma set_sysctl_routes n v l : keeps (inv_rel (fun h => routes_of world h = l)) (set_sysctl (world n) v).
Proof.
  apply keeps_run. intros d k k' i o Ho <-. eapply other_keeps_routes; [..|exact Ho]; done.
Qed.

Lemma undo_one_kernel n u p k : keeps (inv_rel (fun h => kernel h = k)) (undo_one (world n) u p).
Proof.
  unfold undo_one, writeFile, Remove.
  repeat case_match; [apply (keeps_file_op _ _ (insert _ _))|apply (keeps_file_op _ _ (delete _))..];
    intros d k' Hk; exact Hk.
Qed.

Lemma undo_routes n u s s' l :
  undo (world n) u s = (s', Done tt) -> (AddedRoutes u = [] -> routes_of world (fst s) = l) ->
  (AddedRoutes u <> [] -> l = []) -> routes_of world (fst s') = l.
Proof.
  intros Hu Hnil Hcons. unfold undo in Hu.
  apply act_bind_done in Hu as (? & [] & [-> Hv]%lift_done & Hu). apply for_each_ok in Hv.
  apply act_bind_done in Hu as (? & [] & [-> _]%lift_done & Hu).
  apply act_bind_done in Hu as (s1 & [] & H1 & Hu). apply act_bind_done in Hu as (s2 & [] & H2 & Hu).
  assert (E1 : kernel (fst s1) = kernel (fst s)).
  { assert (Hk : keeps (inv_rel (fun h => kernel h = kernel (fst s))) (for_act (undo_one (world n) u) (sorted_keys (UFiles u)))).
    { keep. apply undo_one_kernel. }
    specialize (Hk s eq_refl). by rewrite H1 in Hk. }
  assert (E2 : routes_of world (fst s2) = l).
  { destruct (AddedRoutes u) as [|a routes] eqn:Ea.
    - injection H2 as <-. unfold routes_of in *. rewrite E1. by apply Hnil.
    - rewrite Hcons by done. by eapply undo_routes_done in H2. }
  destruct (is_empty (UForward u)); [by injection Hu as <-|].
  apply act_bind_done in Hu as (? & [] & [-> _]%lift_done & Hu).
  pose proof (set_sysctl_routes n ("net.ipv4.ip_forward=" +++ UForward u) l s2 E2) as H. by rewrite Hu in H.
Qed.

(** ** Forwarding *)

Lemma run_ip_forwarding n args f : keeps (inv_rel (fun h => forwarding (kernel h) = f)) (run (world n) "ip" args).
Proof. apply keeps_run. intros d k k' i o Ho <-. by eapply ip_keeps_forwarding. Qed.

Lemma Apply_keeps_forwarding n ds f :
  existsb needs_forward (Actions ds) = false ->
  keeps (inv_rel (fun h => forwarding (kernel h) = f)) (Apply (world n) ds).
Proof.
  intros Hn. apply (Apply_keeps world n ds (fun k => forwarding k = f)). intros Hv a Ha.
  assert (Hna : needs_forward a = false).
  { destruct (needs_forward a) eqn:E; [|done]. rewrite <-Hn. symmetry. apply existsb_exists. exists a.
    by split; [apply list_elem_of_In|]. }
  unfold needs_forward in Hna. apply orb_false_elim in Hna as [N1 N2].
  unfold applyAction, ensureDefaultRoute, add_vlan, add_addr. rewrite N1, N2.
  keep; first [apply run_ip_forwarding | apply keeps_routeState | apply keeps_checkVLAN | apply keeps_readAddrs];
    typeclasses eauto.
Qed.

End Rollback.

(** * Theorems *)

Section Theorems.
Context {K : Type} (world : nat -> NetWorld K) `{!NetLaws world}.

Lemma nc_snapshot_inv n ds h s :
  nc_snapshot world n ds h = Done s ->
  exists u i1 i2 i3, s = marshal_undo u
    /\ (forall p, UFiles u !! p = (fun _ => disk h !! p) <$> Files ds !! p)
    /\ fold_act (missing_route (world n)) [] (Actions ds) (h, i1) = ((h, i2), Done (AddedRoutes u))
    /\ (if existsb needs_forward (Actions ds) then forward_now (world n) else mret EmptyString) (h, i2)
       = ((h, i3), Done (UForward u)).
Proof.
  unfold nc_snapshot, on_node. destruct (Snapshot _ ds _) as [st [s'|e|]] eqn:E; [|done..].
  intros [= <-]. by eapply Snapshot_done.
Qed.

Lemma forward_now_done n h i h' i' v :
  forward_now (world n) (h, i) = ((h', i'), Done v) -> v = forwarding (kernel h) /\ zero_or_one v = true.
Proof.
  unfold forward_now. destruct (sysctl_get _ _ _) as [out|e|] eqn:E; [|done..].
  destruct (zero_or_one (trim_space out)) eqn:Ez; [|done]. intros [= _ _ <-].
  split; [by eapply sysctl_prints | done].
Qed.

Lemma undo_forwarding n u s s' :
  undo (world n) u s = (s', Done tt) ->
  if is_empty (UForward u) then forwarding (kernel (fst s')) = forwarding (kernel (fst s))
  else forwarding (kernel (fst s')) = UForward u.
Proof.
  intros Hu. unfold undo in Hu. do 2 apply act_bind_done in Hu as (? & [] & [-> _]%lift_done & Hu).
  apply act_bind_done in Hu as (s1 & [] & H1 & Hu). apply act_bind_done in Hu as (s2 & [] & H2 & Hu).
  destruct (is_empty (UForward u)) eqn:Ee.
  - injection Hu as <-.
    assert (Hk : keeps (inv_rel (fun h => forwarding (kernel h) = forwarding (kernel (fst s))))
      (for_act (undo_one (world n) u) (sorted_keys (UFiles u));; for_act (undo_route (world n)) (AddedRoutes u))).
    { unfold undo_route. keep; [|apply keeps_routeState; typeclasses eauto|apply (run_ip_forwarding world)].
      intros st <-. by rewrite (undo_one_kernel world n u _ _ st eq_refl). }
    specialize (Hk s eq_refl). unfold mbind, act_bind in Hk. by rewrite H1, H2 in Hk.
  - apply act_bind_done in Hu as (? & [] & [-> Hz]%lift_done & Hu). rewrite check_ok in Hz.
    destruct s2 as [h i]. unfold set_sysctl, run in Hu. destruct (command _ _ _ _ _) as [k o] eqn:Ho.
    injection Hu as <- ->. by eapply sysctl_effect in Ho as [[_ ?]|?].
Qed.

(** netconfig rolls back.  Take the snapshot of an Apply, run the Apply to any end (success,
    an error, the death of the process at any call), then a Rollback that reports success.
    Every file of the host is as it was, absence included, provided its old content was
    UTF-8 text; IPv4 forwarding is as it was; and so are the default routes, unless the
    request ran the legacy forwarding script. *)
Theorem netconfig_rolls_back n1 n2 n3 ds h0 s h1 o1 h2 :
  nc_snapshot world n1 ds h0 = Done s ->
  on_node (Apply (world n2) ds) h0 = (h1, o1) ->
  on_node (Rollback (world n3) s) h1 = (h2, Done tt) ->
  (forall p, (forall c, disk h0 !! p = Some c -> utf8 (string_chars c)) -> disk h2 !! p = disk h0 !! p)
  /\ forwarding (kernel h2) = forwarding (kernel h0)
  /\ (no_script ds -> default_routes (kernel h2) = default_routes (kernel h0)).
Proof.
  intros Hs Ha Hr. apply nc_snapshot_inv in Hs as (u & i1 & i2 & i3 & -> & Hf & Hroutes & Hforward).
  apply on_node_inv in Ha as (st1 & Ha & ->). apply on_node_inv in Hr as (st2 & Hr & ->).
  rewrite (Rollback_eq _ _ _ _ (unmarshal_marshal_undo u)) in Hr. split_and!.
  - intros p Hp. pose proof (undo_toward (world n3) (coerced u) (fst st1, 0%nat) p) as H2. rewrite Hr in H2.
    pose proof (Apply_toward (world n2) ds (h0, 0%nat) p) as H1. rewrite Ha in H1. simpl in H1, H2.
    assert (Hu : UFiles (coerced u) !! p = option_map (option_map coerce_utf8) (UFiles u !! p)) by (simpl; by rewrite lookup_fmap).
    rewrite Hf in Hu. unfold target in H1. rewrite lookup_fmap in H1. destruct (Files ds !! p); simpl in Hu, H1.
    + rewrite (undo_done _ _ _ _ _ _ Hr Hu). destruct (disk h0 !! p) as [c|] eqn:Ec; simpl; [|done].
      by rewrite coerce_utf8_id by (by apply Hp).
    + simpl in Hu. destruct H1 as [<-|?]; [|done]. destruct H2 as [?|H2]; [done|].
      simpl in H2. rewrite Hu in H2. done.
  - apply undo_forwarding in Hr. change (UForward (coerced u)) with (UForward u) in Hr.
    destruct (existsb needs_forward (Actions ds)) eqn:En.
    + apply forward_now_done in Hforward as [<- Hz]. destruct (UForward u); [done|]. exact Hr.
    + injection Hforward as _ Hforward. rewrite <-Hforward in Hr. simpl in Hr. rewrite Hr.
      pose proof (Apply_keeps_forwarding world n2 ds _ En (h0, 0%nat) eq_refl) as H. by rewrite Ha in H.
  - intros Hn. eapply (undo_routes world n3 _ _ _ (routes_of world h0) Hr); apply (missing_routes world) in Hroutes.
    + change (AddedRoutes (coerced u)) with (AddedRoutes u). rewrite Hroutes. simpl. intros Hnil.
      pose proof (Apply_keeps_routes world n2 ds (routes_of world h0) Hn) as Hk.
      assert (Hk' : keeps (inv_rel (fun h => routes_of world h = routes_of world h0)) (Apply (world n2) ds)).
      { apply Hk. intros E a Ha'. rewrite E in Hnil. destruct (is_route a) eqn:Er; [|done].
        apply list_elem_of_In in Ha'. assert (Hin : In a (List.filter is_route (Actions ds))) by (by apply filter_In).
        by rewrite Hnil in Hin. }
      specialize (Hk' (h0, 0%nat) eq_refl). by rewrite Ha in Hk'.
    + change (AddedRoutes (coerced u)) with (AddedRoutes u). rewrite Hroutes. simpl.
      by destruct (routes_of world h0).
Qed.

(** A default route is never replaced.  On a host that has default routes, whoever set them
    and however many, Apply leaves exactly those, whatever the request asks and however it
    ends (the legacy forwarding script apart). *)
Theorem default_route_preserved n ds h h' o :
  no_script ds -> default_routes (kernel h) <> [] ->
  on_node (Apply (world n) ds) h = (h', o) -> default_routes (kernel h') = default_routes (kernel h).
Proof.
  intros Hn Hne Ha. apply on_node_inv in Ha as (st & Ha & ->).
  pose proof (Apply_keeps_routes world n ds (routes_of world h) Hn) as Hk.
  assert (Hk' : keeps (inv_rel (fun h' => routes_of world h' = routes_of world h)) (Apply (world n) ds)) by (by apply Hk).
  specialize (Hk' (h, 0%nat) eq_refl). by rewrite Ha in Hk'.
Qed.

End Theorems.

(** * A network to try the theorems on

    The kernel is its default routes and its forwarding value. *)
Module NetExample.

Record net := mkNet { n_routes : list (list (string * json)); n_forward : string }.

Definition listed (gateway dev : string) (onlink : bool) : list (string * json) :=
  [("dst", JStr "default"); ("gateway", JStr gateway); ("dev", JStr dev); ("protocol", JStr "242");
   ("flags", JArr (if onlink then [JStr "onlink"] else []))].

Definition effect (name : string) (args : list string) (k : net) : net * outcome string unit :=
  if (name =?s "ip") && match args with v :: _ => v =?s "-4" | [] => false end then
    match args with
    | _ :: _ :: verb :: _ :: _ :: gateway :: _ :: dev :: _ :: _ :: rest =>
      if verb =?s "add" then
        match n_routes k with
        | [] => (mkNet [listed gateway dev (match rest with [] => false | _ => true end)] (n_forward k), Done tt)
        | _ => (k, Failed "RTNETLINK answers: File exists")
        end
      else (mkNet [] (n_forward k), Done tt)
    | _ => (k, Failed "usage")
    end
  else if name =?s "sysctl" then
    match args with
    | [_; _; v] => (mkNet (n_routes k) (if v =?s "net.ipv4.ip_forward=1" then "1" else "0"), Done tt)
    | _ => (k, Failed "usage")
    end
  else (k, Done tt).

(** Call [dies] never returns. *)
Definition outside (dies : nat) : NetWorld net := {|
  ip_show i args k := Done (RawDoc (JArr (map JObj (n_routes k))));
  sysctl_get i k := Done (n_forward k);
  command i name args k := effect name args k;
  file_fate_at i := if (i =? dies)%nat then DiesAfter else FileOk;
  read_error i := false;
  ctx_err i := false;
  proc_forward i k := Some (n_forward k);
  sha256_hex s := s;
|}.

Lemma match_listed a : validateDefaultRoute a = Ok tt ->
  match_route a (listed (arg a 2) (arg a 1)
    (match (if arg a 3 =?s "onlink" then ["onlink"] else []) with [] => false | _ => true end)) = Ok (true, true).
Proof.
  unfold validateDefaultRoute. rewrite !seq_ok, check_ok. intros (_ & _ & _). unfold match_route.
  destruct (arg a 3 =?s "onlink"); simpl; by rewrite !String.eqb_refl.
Qed.

#[global, program] Instance net_laws dies : NetLaws (fun n => outside (dies n)) := {|
  default_routes := n_routes;
  forwarding k := trim_space (n_forward k);
|}.
Next Obligation. by intros dies n i k out [= <-]. Qed.
Next Obligation. by intros dies n i k out [= <-]. Qed.
Next Obligation.
  intros dies n i a k k' o Hv Hk. simpl. unfold effect. simpl. rewrite Hk. intros [= <- <-]. right.
  eexists. split; [done|]. by apply match_listed.
Qed.
Next Obligation. intros dies n i a r k k' o Hv Hk Hm. simpl. intros [= <- <-]. by right. Qed.
Next Obligation.
  intros dies n i name args k k' o _ Hr. simpl. unfold effect, route_command in *. rewrite Hr.
  repeat case_match; by intros [= <- <-].
Qed.
Next Obligation.
  intros dies n i args k k' o. simpl. unfold effect. simpl. repeat case_match; by intros [= <- <-].
Qed.
Next Obligation.
  intros dies n i v k k' o Hv. simpl. intros [= <- <-]. right. unfold zero_or_one in Hv.
  apply orb_true_iff in Hv as [E|E]; apply String.eqb_eq in E as ->; done.
Qed.

Definition main_text : string := "source interfaces.d/*".
Definition lan_file : string := InterfacesDir +++ "/lan".

Definition before : node net :=
  mkNode {[ interfacesMain := main_text; lan_file := "iface eth0 inet manual" ]} (mkNet [] "0").

Definition request : DesiredState :=
  mkDesired ∅ {[ lan_file := "iface eth0 inet dhcp"; InterfacesDir +++ "/wan" := "iface eth1 inet dhcp" ]}
    [["addr"; "eth0"; "192.0.2.2/24"]; ["default-route"; "eth1"; "192.0.2.1"; "offlink"];
     ["sysctl"; "net.ipv4.ip_forward=1"]].

Definition worlds : nat -> NetWorld net := fun n => outside ((fun _ => 99%nat) n).

Definition saved : raw := match nc_snapshot worlds 0 request before with Done s => s | _ => RawEmpty end.
Definition during : node net := fst (on_node (Apply (worlds 1) request) before).
Definition restored : node net := fst (on_node (Rollback (worlds 2) saved) during).

(** The request took effect, and is gone after the rollback. *)
Lemma netconfig_rolls_back_witness :
  (n_forward (kernel during) = "1" /\ length (n_routes (kernel during)) = 1%nat)
  /\ default_routes (NetLaws := net_laws (fun _ => 99%nat)) (kernel restored) = [].
Proof.
  split; [split; vm_compute; reflexivity|].
  destruct (netconfig_rolls_back worlds (NetLaws0 := net_laws (fun _ => 99%nat))
    0 1 2 request before saved during (Done tt) restored) as (_ & _ & H).
  - vm_compute. reflexivity.
  - vm_compute. reflexivity.
  - vm_compute. reflexivity.
  - apply H. intros a Ha. apply list_elem_of_In in Ha. simpl in Ha.
    destruct Ha as [<-|[<-|[<-|[]]]]; discriminate.
Defined.

Definition routed : node net := mkNode (disk before) (mkNet [listed "192.0.2.9" "eth2" true] "0").

Lemma default_route_preserved_witness :
  default_routes (NetLaws := net_laws (fun _ => 99%nat)) (kernel (fst (on_node (Apply (worlds 1) request) routed)))
  = [listed "192.0.2.9" "eth2" true].
Proof.
  apply (default_route_preserved worlds (NetLaws0 := net_laws (fun _ => 99%nat)) 1 request routed _
    (snd (on_node (Apply (worlds 1) request) routed))).
  - intros a Ha. apply list_elem_of_In in Ha. simpl in Ha.
    destruct Ha as [<-|[<-|[<-|[]]]]; discriminate.
  - discriminate.
  - vm_compute. reflexivity.
Defined.

Lemma passwd_foreign : ~ may_write "/etc/passwd".
Proof.
  intros [H|[H|[_ H]]]; [discriminate H| |vm_compute in H; discriminate H].
  apply list_elem_of_In in H. simpl in H. destruct H as [H|[H|[]]]; discriminate H.
Qed.

Lemma writes_confined_witness :
  disk (fst (fst (Rollback (outside 0) (RawDoc (JObj [("files", JObj [("/etc/passwd", JNull)])])) (before, 0%nat))))
    !! "/etc/passwd" = disk before !! "/etc/passwd".
Proof.
  apply (writes_confined (outside 0) request (RawDoc (JObj [("files", JObj [("/etc/passwd", JNull)])]))
    (before, 0%nat) "/etc/passwd" passwd_foreign).
Defined.

(** The same outside, except that deleting a link would wipe the routes. *)
Definition trapped : NetWorld net := {|
  ip_show := ip_show (outside 99);
  sysctl_get := sysctl_get (outside 99);
  command i name args k := if bool_decide (args = ["link"; "del"; "eth0"]) then (mkNet [] "0", Done tt)
                           else command (outside 99) i name args k;
  file_fate_at := file_fate_at (outside 99);
  read_error := read_error (outside 99);
  ctx_err := ctx_err (outside 99);
  proc_forward := proc_forward (outside 99);
  sha256_hex := sha256_hex (outside 99);
|}.

Lemma trapped_alike : alike (outside 99) trapped.
Proof. split; try done. intros i name args k Ha. unfold trapped. simpl. by inversion Ha; subst. Qed.

Lemma apply_additive_witness :
  Apply (outside 99) request (before, 0%nat) = Apply trapped request (before, 0%nat).
Proof. apply (apply_additive (outside 99) trapped request RawEmpty (before, 0%nat) trapped_alike). Defined.

(** A file that is not UTF-8 text comes back altered: json.Marshal has replaced its bytes in
    the snapshot. *)
Definition latin1 : node net :=
  mkNode {[ interfacesMain := main_text; lan_file := String "233" EmptyString ]} (mkNet [] "0").
Definition latin1_saved : raw := match nc_snapshot worlds 0 request latin1 with Done s => s | _ => RawEmpty end.

Theorem rollback_alters_bytes :
  let h1 := fst (on_node (Apply (worlds 1) request) latin1) in
  exists h2, on_node (Rollback (worlds 2) latin1_saved) h1 = (h2, Done tt)
    /\ disk latin1 !! lan_file = Some (String "233" EmptyString)
    /\ disk h2 !! lan_file = Some (string_of_chars replacement).
Proof. eexists. split_and!; [vm_compute; reflexivity..]. Qed.

(** Two spellings of one IPv6 address are not seen as a conflict. *)
Theorem spellings_do_not_conflict :
  let actions := [["addr"; "eth0"; "2001:db8::1/64"]; ["addr"; "eth1"; "2001:db8:0::1/64"]] in
  validateNoConflictingAddresses actions = Ok tt
  /\ ParsePrefix "2001:db8::1/64" = ParsePrefix "2001:db8:0::1/64" /\ ParsePrefix "2001:db8::1/64" <> None.
Proof. split_and!; [vm_compute; reflexivity..|vm_compute; discriminate]. Qed.

End NetExample.
