(* ===== verification/Host.v ===== *)
(** The daemon with its real packages: the lease protocol of Server.v over the firewall of
    NftKernel.v and the netconfig of NetExec.v.

    The protocol is written against one host type for both domains, so each package is
    focused on its part of a host (nft's kernel state, and a node); the promises of both
    packages carry over, and the protocol's invariant becomes a statement about ghostd's
    table and the boot files. *)

From S2P Require Import Prelude Json State Auth Server Protocol Safety Nft NftKernel Netconfig NetExec.
From S2P Require Import NetLaws NetSafety.

(** * Focusing an executor on a part of the host *)

Section Focus.
Context {A H V W : Type} (get : H -> A) (put : A -> H -> H) (inj : V -> W) (ex : Executor A).

Definition focused {X} (f : A -> A * X) (h : H) : H * X := let '(a, x) := f (get h) in (put a h, x).

Definition focus : Executor H := {|
  plan := plan ex;
  ex_check n t h := ex_check ex n t (get h);
  ex_snapshot n pl h := ex_snapshot ex n pl (get h);
  ex_mutate n pl := focused (ex_mutate ex n pl);
  ex_rollback n s := focused (ex_rollback ex n s);
  ex_restore n c := focused (ex_restore ex n c);
  ex_confirmed n t h := ex_confirmed ex n t (get h);
|}.

Context (get_put : forall a h, get (put a h) = a) (inj_inj : forall v v', inj v = inj v' -> v = v').
Context `{!ExecLaws ex V}.

Lemma focused_inv {X} (f : A -> A * X) h h' x : focused f h = (h', x) -> f (get h) = (get h', x).
Proof. unfold focused. destruct (f (get h)) as [a y]. intros [= <- <-]. by rewrite get_put. Qed.

#[program] Definition focus_laws : ExecLaws focus W := {|
  view h := inj (view (ex := ex) (get h));
  planned t pl := planned (ex := ex) t pl;
  guards s pl := guards (ex := ex) s pl;
  covers s v h := exists v0, v = inj v0 /\ covers (ex := ex) s v0 (get h);
  enacted t h := enacted (ex := ex) t (get h);
  replays c v := c = RawEmpty \/ exists v0, v = inj v0 /\ replays (ex := ex) c v0;
  lost v h := exists v0, v = inj v0 /\ lost (ex := ex) v0 (get h);
  rebooted h h' := rebooted (ex := ex) (get h) (get h');
|}.
Next Obligation. intros n t h pl. apply (law_check (ex := ex)). Qed.
Next Obligation.
  intros n pl h s Hs. destruct (law_snapshot (ex := ex) _ _ _ _ Hs) as (? & ? & ?). eauto.
Qed.
Next Obligation.
  intros n pl s v h h' o Hg (v0 & -> & Hc) Hm%focused_inv. exists v0. split; [done|].
  exact (law_mutate (ex := ex) n pl s v0 _ _ _ Hg Hc Hm).
Qed.
Next Obligation. intros n t pl h h' Hp Hm%focused_inv. exact (law_enacted (ex := ex) n t pl _ _ Hp Hm). Qed.
Next Obligation.
  intros n s v h h' o (v0 & -> & Hc) Hr%focused_inv.
  destruct (law_rollback (ex := ex) _ _ _ _ _ _ Hc Hr) as [H1 H2]. split; [by exists v0|].
  intros [->|E]; f_equal; apply H2; [by left|right; by apply inj_inj].
Qed.
Next Obligation.
  intros n t h c He Hc. right. exists (view (ex := ex) (get h)). split; [done|].
  exact (law_confirmed (ex := ex) n t _ c He Hc).
Qed.
Next Obligation. intros v. by left. Qed.
Next Obligation. intros v h <-. eexists. split; [done|]. by apply (law_lost (ex := ex)). Qed.
Next Obligation.
  intros v h h' (v0 & -> & Hl) Hr. exists v0. split; [done|]. exact (law_lost_reboot (ex := ex) _ _ _ Hl Hr).
Qed.
Next Obligation.
  intros s v h h' (v0 & -> & Hl) Hr. exists v0. split; [done|]. exact (law_covers_reboot (ex := ex) _ _ _ _ Hl Hr).
Qed.
Next Obligation.
  intros n c v h h' o Hc (v0 & -> & Hl) Hr%focused_inv.
  assert (Hrep : replays (ex := ex) c v0).
  { destruct Hc as [->|(v1 & E & Hc)]; [apply law_replays_empty|]. by apply inj_inj in E as ->. }
  destruct (law_restore (ex := ex) _ _ _ _ _ _ Hrep Hl Hr) as [H1 H2]. split; [by exists v0|].
  intros Ho Hne. f_equal. by apply H2.
Qed.

End Focus.

(** * The two packages on one host *)

Section Ghostd.
Context {K1 K2 : Type} (tool : NftTool K1) (guard : ReachabilityGuard)
  (iteration : nat -> Nft.DesiredState -> list string) (world : nat -> NetWorld K2).

Definition host : Type := K1 * node K2.
Definition table : Type := list (string * gmap string json).

Definition fw : Executor host := focus fst (fun k h => (k, snd h)) (firewall tool guard iteration).
Definition nc : Executor host := focus snd (fun n h => (fst h, n)) (netconfig world).

Context `{!NftLaws tool}.

#[global] Instance fw_laws : ExecLaws fw (table + gmap string string).
Proof. apply (focus_laws _ _ (@inl table (gmap string string))); [done|by intros ?? [=]|typeclasses eauto]. Defined.

#[global] Instance nc_laws : ExecLaws nc (table + gmap string string).
Proof. apply (focus_laws _ _ (@inr table (gmap string string))); [done|by intros ?? [=]|typeclasses eauto]. Defined.

(** C4: The lease protocol over the real packages.  In every state that a running daemon with
    the firewall and netconfig packages can reach, there is a last good table and a last good
    set of boot files such that: without an open lease, ghostd's nftables table (respectively
    the boot files) is that; with an open lease, every rollback from the recorded snapshot that
    succeeds brings that back.  Boot files are compared as the UTF-8 text a snapshot carries
    ([boot_files]): bytes that are not UTF-8 count as U+FFFD, and a rollback writes that in their
    place, so only a file that is UTF-8 comes back byte by byte. *)
Theorem ghostd_leases env srv `{!Sane env srv} st :
  reachable env srv fw nc st -> md st = Up ->
  exists tbl files, good st domainFirewall = inl tbl /\ good st domainNetconfig = inr files
    /\ match pending srv (sys st) domainFirewall with
       | None => contents tool (fst (hosts (sys st) domainFirewall)) = tbl
       | Some p => forall n k, NftKernel.Restore tool n (State.Snapshot p) (fst (hosts (sys st) domainFirewall)) = (k, Done tt) ->
                   contents tool k = tbl
       end
    /\ match pending srv (sys st) domainNetconfig with
       | None => boot_files (snd (hosts (sys st) domainNetconfig)) = files
       | Some p => forall n h, on_node (Rollback (world n) (State.Snapshot p)) (snd (hosts (sys st) domainNetconfig)) = (h, Done tt) ->
                   boot_files h = files
       end.
Proof.
  intros Hr Hm. apply reachable_inv in Hr as [_ Hd]; [|done]. rewrite Hm in Hd.
  assert (Hf : exists tbl, good st domainFirewall = inl tbl
    /\ match pending srv (sys st) domainFirewall with
       | None => contents tool (fst (hosts (sys st) domainFirewall)) = tbl
       | Some p => covers (ex := firewall tool guard iteration) (State.Snapshot p) tbl (fst (hosts (sys st) domainFirewall))
       end).
  { destruct (Hd domainFirewall) as (ds & Hrec & _ & Hi); [by left|]. rewrite (pending_record _ _ _ _ Hrec).
    destruct (PendingLease ds) as [p|].
    - destruct Hi as ((tbl & E & Hc) & _). eauto.
    - simpl in Hi. eauto. }
  assert (Hn : exists files, good st domainNetconfig = inr files
    /\ match pending srv (sys st) domainNetconfig with
       | None => boot_files (snd (hosts (sys st) domainNetconfig)) = files
       | Some p => covers (ex := netconfig world) (State.Snapshot p) files (snd (hosts (sys st) domainNetconfig))
       end).
  { destruct (Hd domainNetconfig) as (ds & Hrec & _ & Hi); [by right|]. rewrite (pending_record _ _ _ _ Hrec).
    destruct (PendingLease ds) as [p|].
    - destruct Hi as ((files & E & Hc) & _). eauto.
    - simpl in Hi. eauto. }
  destruct Hf as (tbl & E1 & H1), Hn as (files & E2 & H2). exists tbl, files. split_and!; [done..| |].
  - destruct (pending srv (sys st) domainFirewall) as [p|]; [|done]. intros n k Hk.
    apply (law_rollback (ex := firewall tool guard iteration) n _ _ _ _ _ H1 Hk). by left.
  - destruct (pending srv (sys st) domainNetconfig) as [p|]; [|done]. intros n h Hk.
    apply (law_rollback (ex := netconfig world) n _ _ _ _ _ H2 Hk). by left.
Qed.

End Ghostd.

(** * A daemon to try the theorem on

    Its first boot, and an Apply to netconfig that writes one boot file. *)
Module GhostdExample.

Definition iteration (n : nat) (ds : Nft.DesiredState) : list string := [].
Definition firewall_part : Executor (host (K1 := NftExample.kernel) (K2 := NetExample.net)) :=
  fw NftExample.tool NftExample.guard iteration.
Definition netconfig_part : Executor (host (K1 := NftExample.kernel) (K2 := NetExample.net)) := nc NetExample.worlds.

Definition at_first : host := (NftExample.before, NetExample.before).
Definition clock : Env := Cell.env Cell.slow.

Definition installed : St (H := host) (V := table + gmap string string) :=
  mkSt Down (mkSys ∅ ∅ ∅ (fun _ => at_first) 0)
    (fun d => if d =?s domainFirewall then inl (contents NftExample.tool NftExample.before)
              else inr (boot_files NetExample.before)).

Definition booted : Sys host := fst (boot clock Cell.server firewall_part netconfig_part (sys installed)).

Definition document : raw :=
  RawDoc (JObj [("files", JObj [(NetExample.lan_file, JStr "iface eth0 inet dhcp")]);
                ("actions", JArr [JArr [JStr "sysctl"; JStr "net.ipv4.ip_forward=1"]])]).

Definition applied : Sys host :=
  fst (Server.Apply clock Cell.server firewall_part netconfig_part (Some "100.64.0.2:1000") Cell.deployer
         (mkApplyRequest domainNetconfig document 300) booted).

Definition after_boot : St :=
  mkSt Up booted (good_after_boot Cell.server firewall_part netconfig_part (sys installed) booted (good installed)).
Definition after_apply : St := mkSt Up applied (good after_boot).

Lemma installed_initial : initial firewall_part netconfig_part installed.
Proof.
  split_and!; try done. intros d [->| ->]; eexists; (split; [reflexivity|]); reflexivity || exact I.
Qed.

Lemma boot_step : step clock Cell.server firewall_part netconfig_part installed after_boot.
Proof. apply step_boot. vm_compute. reflexivity. Qed.

Lemma apply_done : exists id,
  Server.Apply clock Cell.server firewall_part netconfig_part (Some "100.64.0.2:1000") Cell.deployer
    (mkApplyRequest domainNetconfig document 300) booted = (applied, Done id).
Proof. eexists. vm_compute. reflexivity. Qed.

Lemma after_apply_reachable : reachable clock Cell.server firewall_part netconfig_part after_apply.
Proof.
  destruct apply_done as [id Ha]. exists installed. split; [apply installed_initial|].
  eapply rtc_l; [apply boot_step|]. eapply rtc_l; [|done].
  pose proof (step_apply _ _ _ _ _ _ (good after_boot) _ _ _ _ Ha) as Hst. exact Hst.
Qed.

Definition lease : Pending :=
  match pending Cell.server applied domainNetconfig with
  | Some p => p
  | None => mkPending false EmptyString 0 RawEmpty RawEmpty EmptyString
  end.
Definition rolled_back : node NetExample.net :=
  fst (on_node (Rollback (NetExample.worlds 0) (State.Snapshot lease)) (snd (hosts applied domainNetconfig))).

(** The open lease of the example leads back to the files found at the first boot. *)
Lemma ghostd_leases_witness :
  disk (snd (hosts applied domainNetconfig)) !! NetExample.lan_file = Some "iface eth0 inet dhcp"
  /\ boot_files rolled_back = boot_files NetExample.before.
Proof.
  split; [vm_compute; reflexivity|].
  destruct (ghostd_leases NftExample.tool NftExample.guard iteration NetExample.worlds clock Cell.server
    (Sane0 := Cell.sane Cell.slow ltac:(done)) after_apply after_apply_reachable eq_refl)
    as (tbl & files & _ & Hg & _ & Hn).
  match type of Hn with match ?x with _ => _ end =>
    assert (Hp : x = Some lease) by (vm_compute; reflexivity); rewrite Hp in Hn end.
  assert (Hgood : good after_apply domainNetconfig = inr (boot_files NetExample.before))
    by (vm_compute; reflexivity).
  assert (Hfiles : inr (A := table) (boot_files NetExample.before) = inr files) by (rewrite <-Hgood; exact Hg).
  injection Hfiles as <-. apply (Hn 0). vm_compute. reflexivity.
Defined.

End GhostdExample.
