(* ===== verification/Ledger.v ===== *)
(** internal/addressbook: the ledger (store.go, index.go).

    The bbolt file is a record of buckets.  A bucket is a map or a set over its keys, walked in
    byte order; values are kept decoded, since only [save] and its siblings write them.  A
    transaction that returns an error leaves the ledger as it was ([update]); the clock is
    read once per operation. *)

From S2P Require Import Prelude.
From Stdlib Require Import Ascii.
Local Open Scope Z_scope.

(** * Records *)

Record Binding := mkBinding {
  DUID : string; IAID : string; PreferredEnd : Z;
  bScope : string; Address : string; Client : string; MAC : string;
  Device : string; Name : string; ClaimedName : string;
  bState : string; Origin : string; Start : Z; End_ : Z;
  NodeID : string; Evidence : string; Via : string;
}.

Definition no_binding : Binding :=
  mkBinding EmptyString EmptyString 0 EmptyString EmptyString EmptyString EmptyString EmptyString EmptyString
    EmptyString EmptyString EmptyString 0 0 EmptyString EmptyString EmptyString.

#[global] Instance Binding_eq_dec : EqDecision Binding.
Proof. solve_decision. Defined.

(** Assignments to fields. *)
Definition with_state (st : string) (e : Z) (b : Binding) : Binding :=
  mkBinding (DUID b) (IAID b) (PreferredEnd b) (bScope b) (Address b) (Client b) (MAC b) (Device b)
    (Name b) (ClaimedName b) st (Origin b) (Start b) e (NodeID b) (Evidence b) (Via b).
Definition with_identity (dev n nid ev : string) (b : Binding) : Binding :=
  mkBinding (DUID b) (IAID b) (PreferredEnd b) (bScope b) (Address b) (Client b) (MAC b) dev n
    (ClaimedName b) (bState b) (Origin b) (Start b) (End_ b) nid ev (Via b).

Definition originPD : string := "dhcpv6-pd".

Record Observation := mkObservation {
  oScope : string; oAddress : string; oMAC : string; oOrigin : string; Detail : string;
  Seen : Z; Until : Z; Historical : bool;
}.

Record Event := mkEvent {
  Message : string; EventID : Z; Time : Z; Kind : string; eBinding : Binding;
  eObservation : option Observation;
}.

Record InterfaceReport := mkInterfaceReport { iMAC : string; iAddresses : list string }.
Record Node := mkNode {
  nID : string; DNSName : string; Addresses : list string; Interfaces : list InterfaceReport; nSeen : Z;
}.

Record AssociationVersion := mkVersion {
  avDevice : string; avName : string; avNodeID : string; avReason : string; avUpdated : Z; avEnded : Z;
}.
Record Association := mkAssociation {
  aClient : string; aDevice : string; aName : string; aNodeID : string; Reason : string; Updated : Z;
  History : list AssociationVersion;
}.

(** * The file *)

Record ledger := mkLedger {
  bindings : gmap string Binding;          (* bindings-v1 *)
  events : list Event;                     (* events-v1, by identifier *)
  sequence : Z;                            (* the sequence number of events-v1 *)
  dns : gmap string string;                (* dns-v1: scope/name/address to the binding's key *)
  expiry : gset (Z * string);              (* expiry-v1: end time, big endian, then the binding's key *)
  clientIdx : gset string;                 (* idx-client-v1 *)
  macIdx : gset string;                    (* idx-mac-v1 *)
  nameIdx : gset string;                   (* idx-name-v1 *)
  addrIdx : gset string;                   (* idx-addr-v1 *)
  nodes : gmap string Node;                (* nodes-v1 *)
  observations : gmap string Observation;  (* observations-v1 *)
  associations : gmap string Association;  (* associations-v1 *)
  meta : gmap string string;               (* meta: the server's DUID, fingerprints, cursors *)
}.

(** db.Update *)
Definition update {E A} (f : ledger -> result E (ledger * A)) (l : ledger) : ledger * result E A :=
  match f l with
  | Ok (l', a) => (l', Ok a)
  | Err e => (l, Err e)
  end.

Definition set_bindings (x : gmap string Binding) (l : ledger) : ledger :=
  mkLedger x (events l) (sequence l) (dns l) (expiry l) (clientIdx l) (macIdx l) (nameIdx l)
    (addrIdx l) (nodes l) (observations l) (associations l) (meta l).
Definition set_dns (x : gmap string string) (l : ledger) : ledger :=
  mkLedger (bindings l) (events l) (sequence l) x (expiry l) (clientIdx l) (macIdx l) (nameIdx l)
    (addrIdx l) (nodes l) (observations l) (associations l) (meta l).
Definition set_expiry (x : gset (Z * string)) (l : ledger) : ledger :=
  mkLedger (bindings l) (events l) (sequence l) (dns l) x (clientIdx l) (macIdx l) (nameIdx l)
    (addrIdx l) (nodes l) (observations l) (associations l) (meta l).
Definition set_nodes (x : gmap string Node) (l : ledger) : ledger :=
  mkLedger (bindings l) (events l) (sequence l) (dns l) (expiry l) (clientIdx l) (macIdx l) (nameIdx l)
    (addrIdx l) x (observations l) (associations l) (meta l).
Definition set_observations (x : gmap string Observation) (l : ledger) : ledger :=
  mkLedger (bindings l) (events l) (sequence l) (dns l) (expiry l) (clientIdx l) (macIdx l) (nameIdx l)
    (addrIdx l) (nodes l) x (associations l) (meta l).
Definition set_associations (x : gmap string Association) (l : ledger) : ledger :=
  mkLedger (bindings l) (events l) (sequence l) (dns l) (expiry l) (clientIdx l) (macIdx l) (nameIdx l)
    (addrIdx l) (nodes l) (observations l) x (meta l).
Definition set_events (x : list Event) (n : Z) (l : ledger) : ledger :=
  mkLedger (bindings l) x n (dns l) (expiry l) (clientIdx l) (macIdx l) (nameIdx l) (addrIdx l)
    (nodes l) (observations l) (associations l) (meta l).

Definition set_meta (k v : string) (l : ledger) : ledger :=
  mkLedger (bindings l) (events l) (sequence l) (dns l) (expiry l) (clientIdx l) (macIdx l) (nameIdx l)
    (addrIdx l) (nodes l) (observations l) (associations l) (<[k := v]> (meta l)).

Definition bindingKey (scope address : string) : string := scope +++ "/" +++ address.
Definition key_of (b : Binding) : string := bindingKey (bScope b) (Address b).

(** The stored binding, or the zero value. *)
Definition readBinding (l : ledger) (scope address : string) : Binding :=
  default no_binding (bindings l !! bindingKey scope address).

Definition liveState (state : string) : bool :=
  (state =?s "active") || (state =?s "offered") || (state =?s "declined").

Definition expiryKey (b : Binding) : Z * string := (End_ b mod 2^64, key_of b).

Definition dnsKey (b : Binding) : string := bScope b +++ "/" +++ Name b +++ "/" +++ Address b.

(** * index.go *)

Inductive index := clientIdxBucket | macIdxBucket | nameIdxBucket | addrIdxBucket.

#[global] Instance index_eq_dec : EqDecision index.
Proof. solve_decision. Defined.

Definition bucket (i : index) (l : ledger) : gset string :=
  match i with
  | clientIdxBucket => clientIdx l
  | macIdxBucket => macIdx l
  | nameIdxBucket => nameIdx l
  | addrIdxBucket => addrIdx l
  end.

Definition set_bucket (i : index) (x : gset string) (l : ledger) : ledger :=
  match i with
  | clientIdxBucket => mkLedger (bindings l) (events l) (sequence l) (dns l) (expiry l) x (macIdx l)
    (nameIdx l) (addrIdx l) (nodes l) (observations l) (associations l) (meta l)
  | macIdxBucket => mkLedger (bindings l) (events l) (sequence l) (dns l) (expiry l) (clientIdx l) x
    (nameIdx l) (addrIdx l) (nodes l) (observations l) (associations l) (meta l)
  | nameIdxBucket => mkLedger (bindings l) (events l) (sequence l) (dns l) (expiry l) (clientIdx l)
    (macIdx l) x (addrIdx l) (nodes l) (observations l) (associations l) (meta l)
  | addrIdxBucket => mkLedger (bindings l) (events l) (sequence l) (dns l) (expiry l) (clientIdx l)
    (macIdx l) (nameIdx l) x (nodes l) (observations l) (associations l) (meta l)
  end.

Definition nul : string := String "000" EmptyString.

Definition indexEntries (b : Binding) : list (index * string) :=
  if liveState (bState b) then
    [(clientIdxBucket, join nul [Client b; bScope b; Address b])]
    ++ (if is_empty (MAC b) then [] else [(macIdxBucket, join nul [MAC b; bScope b; Address b])])
    ++ (if (bState b =?s "active") && negb (is_empty (Name b))
        then [(nameIdxBucket, join nul [Name b; bScope b; Address b])] else [])
    ++ [(addrIdxBucket, join nul [Address b; bScope b])]
  else [].

Definition idx_delete (l : ledger) (e : index * string) : ledger :=
  set_bucket (fst e) (bucket (fst e) l ∖ {[snd e]}) l.
Definition idx_put (l : ledger) (e : index * string) : ledger :=
  set_bucket (fst e) ({[snd e]} ∪ bucket (fst e) l) l.

Definition reindex (old b : Binding) (l : ledger) : ledger :=
  fold_left idx_put (indexEntries b) (fold_left idx_delete (indexEntries old) l).

(** A cursor's walk over the keys that start with [prefix], in byte order. *)
Definition scan (prefix : string) (keys : gset string) : list string :=
  List.filter (fun k => has_prefix k prefix) (sort_strings (elements keys)).

(** Where an index key points. *)
Definition split_key (i : index) (k : string) : option (string * string) :=
  match i, split_char "000" k with
  | addrIdxBucket, [address; scope] => Some (scope, address)
  | _, [_; scope; address] => Some (scope, address)
  | _, _ => None
  end.

Definition live_at (l : ledger) (at_ : option (string * string)) : list Binding :=
  match at_ with
  | None => []
  | Some (scope, address) =>
    let b := readBinding l scope address in
    if is_empty (bScope b) || negb (liveState (bState b)) then [] else [b]
  end.

Definition liveFromIndex (l : ledger) (i : index) (prefix : string) : list Binding :=
  flat_map (fun k => live_at l (split_key i k)) (scan prefix (bucket i l)).

Definition idxPrefix (parts : list string) : string := concat_str (map (fun p => p +++ nul) parts).

Definition liveByClient (l : ledger) (scope client : string) : list Binding :=
  liveFromIndex l clientIdxBucket (idxPrefix [client; scope]).

Definition liveByClientPrefix (l : ledger) (prefix : string) : list Binding :=
  flat_map (fun k => match split_char "000" k with
                     | [_; scope; address] => live_at l (Some (scope, address))
                     | _ => []
                     end) (scan prefix (clientIdx l)).

Definition liveByAddress (l : ledger) (address : string) : list Binding :=
  liveFromIndex l addrIdxBucket (idxPrefix [address]).
Definition liveByMAC (l : ledger) (mac : string) : list Binding :=
  liveFromIndex l macIdxBucket (idxPrefix [mac]).
Definition activeByName (l : ledger) (name : string) : list Binding :=
  List.filter (fun b => (bState b =?s "active") && (Name b =?s name))
    (liveFromIndex l nameIdxBucket (idxPrefix [name])).

(** * store.go *)

(** appendEvent: the next identifier of the bucket. *)
Definition appendEvent (e : Event) (l : ledger) : ledger :=
  let id := sequence l + 1 in
  set_events (events l ++ [mkEvent (Message e) id (Time e) (Kind e) (eBinding e) (eObservation e)]) id l.

Definition save (now : Z) (b : Binding) (kind : string) (l : ledger) : ledger :=
  let old := readBinding l (bScope b) (Address b) in
  let l1 := if is_empty (Name old) then l else set_dns (delete (dnsKey old) (dns l)) l in
  let l2 := reindex old b l1 in
  let l3 := if liveState (bState old) then set_expiry (expiry l2 ∖ {[expiryKey old]}) l2 else l2 in
  let l4 := if liveState (bState b) then set_expiry ({[expiryKey b]} ∪ expiry l3) l3 else l3 in
  let l5 := if (bState b =?s "active") && negb (Origin b =?s originPD)
            then set_dns (<[dnsKey b := key_of b]> (dns l4)) l4 else l4 in
  let l6 := set_bindings (<[key_of b := b]> (bindings l5)) l5 in
  appendEvent (mkEvent EmptyString 0 now kind b None) l6.

Definition audit (now : Z) (kind message : string) (l : ledger) : ledger :=
  appendEvent (mkEvent message 0 now kind no_binding None) l.

Definition empty_ledger : ledger := mkLedger ∅ [] 0 ∅ ∅ ∅ ∅ ∅ ∅ ∅ ∅ ∅ ∅.

(** The current states as of [at_]: from the bucket, or from the log. *)
Definition collect (scope ip : string) (states : gmap string Binding) (b : Binding) : gmap string Binding :=
  if (is_empty scope || (bScope b =?s scope)) && (is_empty ip || (Address b =?s ip))
  then <[key_of b := b]> states else states.

Definition replay_event (scope ip : string) (at_ : Z) (states : gmap string Binding) (e : Event) :
    gmap string Binding :=
  if (Time e <=? at_) && negb (is_empty (bScope (eBinding e))) then collect scope ip states (eBinding e) else states.

Definition binding_le (a b : Binding) : Prop :=
  (bScope a <> bScope b /\ String.le (bScope a) (bScope b))
  \/ (bScope a = bScope b /\ String.le (Address a) (Address b)).
#[global] Instance binding_le_dec : RelDecision binding_le.
Proof. intros a b. unfold binding_le. apply _. Defined.

Definition expire_at (at_ : Z) (b : Binding) : Binding :=
  if (End_ b <=? at_) && liveState (bState b) then with_state "expired" (End_ b) b else b.

Record Snapshot := mkSnapshot {
  sObservations : list Observation;
  ServerDUID : string;
  sBindings : list Binding;
  sNodes : list Node;
  sAssociations : list Association;
}.

(** [%x] of a byte string. *)
Definition hex_of (s : string) : string :=
  concat_str (map (fun c => String (hex_digit (nat_of_ascii c / 16)) (String (hex_digit (nat_of_ascii c mod 16)) EmptyString))
    (string_chars s)).

Definition sighting (scope ip : string) (at_ : Z) (m : gmap string Observation) (e : Event) : gmap string Observation :=
  match eObservation e with
  | Some o => if (Time e <=? at_) && (is_empty scope || (oScope o =?s scope)) && (is_empty ip || (oAddress o =?s ip))
              then <[bindingKey (oScope o) (oAddress o) := o]> m else m
  | None => m
  end.

(** The values of a bucket in the order of its keys. *)
Definition values {A} (m : gmap string A) : list A := omap (fun k => m !! k) (sorted_keys m).

Definition observation_le (a b : Observation) : Prop :=
  String.le (oScope a +++ "/" +++ oAddress a) (oScope b +++ "/" +++ oAddress b).
#[global] Instance observation_le_dec : RelDecision observation_le.
Proof. intros a b. unfold observation_le. apply _. Defined.

Definition historical (at_ : Z) (o : Observation) : option Observation :=
  if (Seen o <=? at_) && (at_ <? Until o)
  then Some (mkObservation (oScope o) (oAddress o) (oMAC o) (oOrigin o) (Detail o) (Seen o) (Until o) true)
  else None.

Definition take_snapshot (now : Z) (scope ip : string) (at0 : Z) (l : ledger) : result string Snapshot :=
  let at_ := if at0 =? 0 then now else at0 in
  fail_if (at_ <? 0) "at must be a nonnegative Unix timestamp";;
  fail_if (now <? at_) "future attribution is not available";;
  let current := at_ =? now in
  let states := if current then fold_left (collect scope ip) (values (bindings l)) ∅
                else fold_left (replay_event scope ip at_) (events l) ∅ in
  let obs := if current
             then List.filter (fun o => (is_empty scope || (oScope o =?s scope)) && (is_empty ip || (oAddress o =?s ip)))
                    (values (observations l))
             else merge_sort observation_le
                    (omap (historical at_) (values (fold_left (sighting scope ip at_) (events l) ∅))) in
  Ok (mkSnapshot obs (hex_of (lookup_default (meta l) "duid" EmptyString))
        (merge_sort binding_le (map (expire_at at_) (values states))) (values (nodes l))
        (if current then values (associations l) else [])).

Definition Events (after limit : Z) (l : ledger) : result string (list Event) :=
  fail_if ((limit <? 1) || (1000 <? limit)) "limit must be 1..1000";;
  Ok (take (Z.to_nat limit) (List.filter (fun e => after <? EventID e) (events l))).

Definition answers (now : Z) (b : Binding) : bool := (bState b =?s "active") && (now <? End_ b).

Definition DNSBindings (now : Z) (scope name address : string) (l : ledger) : list Binding :=
  if negb (is_empty address) then
    match bindings l !! bindingKey scope address with
    | Some b => if answers now b then [b] else []
    | None => []
    end
  else
    List.filter (answers now)
      (omap (fun k => dns l !! k ≫= fun v => bindings l !! v)
         (scan (scope +++ "/" +++ name +++ "/") (dom (dns l)))).

Definition Revision (l : ledger) : Z := sequence l mod 2^32.

(** Open on a ledger whose indexes are missing: each is rebuilt from the bindings. *)
Definition backfillIndexes (l : ledger) : ledger :=
  fold_left (fun l b => reindex no_binding b l) (values (bindings l)) l.
Definition backfill_expiry (l : ledger) : ledger :=
  fold_left (fun l b => if liveState (bState b) then set_expiry ({[expiryKey b]} ∪ expiry l) l else l)
    (values (bindings l)) l.
Definition backfill_dns (l : ledger) : ledger :=
  fold_left (fun l b => if bState b =?s "active" then set_dns (<[dnsKey b := key_of b]> (dns l)) l else l)
    (values (bindings l)) l.
Definition Open_ (has_expiry has_index has_dns : bool) (l : ledger) : ledger :=
  let l1 := if has_index then l else backfillIndexes l in
  let l2 := if has_expiry then l1 else backfill_expiry l1 in
  if has_dns then l2 else backfill_dns l2.
