(* ===== verification/LedgerInv.v ===== *)
(** The ledger's invariant: every index says exactly what the bindings say, and the log of
    events replays to the bindings. *)

From S2P Require Import Prelude Ledger.
From Stdlib Require Import Ascii.
Local Open Scope Z_scope.

(** * Text that can be part of a key *)

Definition no_nul (s : string) : bool := negb (contains_char "000" s).
Definition no_slash (s : string) : bool := negb (contains_char "/" s).

(** What every binding that reaches the ledger satisfies. *)
Definition sound_binding (b : Binding) : Prop :=
  is_empty (bScope b) = false /\ no_slash (bScope b) = true /\ no_nul (bScope b) = true
  /\ is_empty (Name b) = false /\ no_slash (Name b) = true /\ no_nul (Name b) = true
  /\ no_nul (Address b) = true /\ no_nul (Client b) = true /\ no_nul (MAC b) = true.

(** A separator that does not occur in the first part determines the split. *)
Lemma cut_inj c a a' r r' :
  contains_char c a = false -> contains_char c a' = false ->
  a +++ String c r = a' +++ String c r' -> a = a' /\ r = r'.
Proof.
  revert a'. induction a as [|x a IH]; intros [|x' a'] Ha Ha' E; simpl in E.
  - by injection E as ->.
  - injection E as <- _. rewrite contains_cons, Ascii.eqb_refl in Ha'. done.
  - injection E as -> _. rewrite contains_cons, Ascii.eqb_refl in Ha. done.
  - injection E as <- E. rewrite contains_cons in Ha, Ha'.
    apply orb_false_elim in Ha as [_ Ha]. apply orb_false_elim in Ha' as [_ Ha'].
    destruct (IH a' Ha Ha' E) as [-> ->]. done.
Qed.

Lemma bindingKey_inj s a s' a' :
  no_slash s = true -> no_slash s' = true -> bindingKey s a = bindingKey s' a' -> s = s' /\ a = a'.
Proof. intros H%negb_true_iff H'%negb_true_iff. apply cut_inj; done. Qed.

Lemma key_of_inj b b' : sound_binding b -> sound_binding b' -> key_of b = key_of b' ->
  bScope b = bScope b' /\ Address b = Address b'.
Proof. intros (_ & H & _) (_ & H' & _). by apply bindingKey_inj. Qed.

Lemma dnsKey_inj b b' : sound_binding b -> sound_binding b' -> dnsKey b = dnsKey b' -> key_of b = key_of b'.
Proof.
  intros (_ & H1%negb_true_iff & _ & _ & H2%negb_true_iff & _) (_ & H1'%negb_true_iff & _ & _ & H2'%negb_true_iff & _) E.
  apply cut_inj in E as [E1 E]; [|done..]. apply cut_inj in E as [_ E2]; [|done..].
  unfold key_of. by rewrite E1, E2.
Qed.

Lemma join_nul3_inj a b c a' b' c' :
  no_nul a = true -> no_nul a' = true -> no_nul b = true -> no_nul b' = true ->
  join nul [a; b; c] = join nul [a'; b'; c'] -> a = a' /\ b = b' /\ c = c'.
Proof.
  intros Ha%negb_true_iff Ha'%negb_true_iff Hb%negb_true_iff Hb'%negb_true_iff E.
  apply cut_inj in E as [-> E]; [|done..]. by apply cut_inj in E as [-> ->].
Qed.

(** Index keys point back at the binding they were made for. *)
Lemma entry_inj b b' i k : sound_binding b -> sound_binding b' ->
  (i, k) ∈ indexEntries b -> (i, k) ∈ indexEntries b' -> key_of b = key_of b'.
Proof.
  intros (_ & _ & S & _ & _ & N & A & C & M) (_ & _ & S' & _ & _ & N' & A' & C' & M') H H'.
  assert (Hk : forall b, (i, k) ∈ indexEntries b ->
    match i with
    | clientIdxBucket => k = join nul [Client b; bScope b; Address b]
    | macIdxBucket => k = join nul [MAC b; bScope b; Address b]
    | nameIdxBucket => k = join nul [Name b; bScope b; Address b]
    | addrIdxBucket => k = join nul [Address b; bScope b]
    end).
  { clear. intros b. unfold indexEntries. rewrite list_elem_of_In.
    destruct (liveState _); [|done]. rewrite !in_app_iff. simpl.
    repeat case_match; simpl; intros Hin; destruct_or?; simplify_eq/=; done. }
  apply Hk in H, H'. unfold key_of. destruct i; rewrite H in H'.
  1-3: apply join_nul3_inj in H' as (_ & -> & ->); done.
  apply negb_true_iff in A, A'. apply cut_inj in H' as [-> ->]; done.
Qed.

(** * The invariant *)

Definition stored (l : ledger) (b : Binding) : Prop := bindings l !! key_of b = Some b.
Definition named (b : Binding) : Prop := bState b = "active" /\ Origin b <> originPD.

Definition log_event (m : gmap string Binding) (e : Event) : gmap string Binding :=
  if is_empty (bScope (eBinding e)) then m else <[key_of (eBinding e) := eBinding e]> m.

Record wf (l : ledger) : Prop := {
  wf_keys k b : bindings l !! k = Some b -> k = key_of b /\ sound_binding b;
  wf_dns k v : dns l !! k = Some v <-> exists b, stored l b /\ named b /\ k = dnsKey b /\ v = key_of b;
  wf_expiry e : e ∈ expiry l <-> exists b, stored l b /\ liveState (bState b) = true /\ e = expiryKey b;
  wf_index i k : k ∈ bucket i l <-> exists b, stored l b /\ (i, k) ∈ indexEntries b;
  wf_events e : e ∈ events l -> is_empty (bScope (eBinding e)) = true \/ sound_binding (eBinding e);
  wf_log : bindings l = fold_left log_event (events l) ∅;
  wf_ids : map EventID (events l) = map Z.of_nat (seq 1 (length (events l)));
  wf_sequence : sequence l = Z.of_nat (length (events l));
}.

Lemma wf_empty : wf empty_ledger.
Proof.
  assert (Hs : forall b, ~ stored empty_ledger b) by (intros b; unfold stored; simpl; by rewrite lookup_empty).
  split; simpl; [..|by intros e ?%elem_of_nil|done|done|done].
  - intros k b. rewrite lookup_empty. by intros [=].
  - intros k v. rewrite lookup_empty. split; [done|]. intros (b & Hb & _). by apply Hs in Hb.
  - intros e. split; [set_solver|]. intros (b & Hb & _). by apply Hs in Hb.
  - intros i k. split; [destruct i; set_solver|]. intros (b & Hb & _). by apply Hs in Hb.
Qed.

(** * Moving index entries from an old binding to a new one *)

Section Move.
Context {E : Type} (entry : Binding -> E -> Prop) (l : ledger) (b : Binding).
Context (Hwf : forall k c, bindings l !! k = Some c -> k = key_of c /\ sound_binding c) (Hb : sound_binding b).
Context (Hdisjoint : forall c c' x, sound_binding c -> sound_binding c' -> entry c x -> entry c' x -> key_of c = key_of c').
Context (Hnone : forall x, ~ entry no_binding x).

Definition old_of : Binding := readBinding l (bScope b) (Address b).

Lemma old_cases : (old_of = no_binding /\ bindings l !! key_of b = None)
  \/ (stored l old_of /\ key_of old_of = key_of b /\ sound_binding old_of).
Proof.
  unfold old_of, readBinding. change (bindingKey (bScope b) (Address b)) with (key_of b).
  destruct (bindings l !! key_of b) as [c|] eqn:E1; [right|by left]. simpl.
  destruct (Hwf _ _ E1) as [Hk Hs]. unfold stored. rewrite <-Hk. done.
Qed.

Lemma move_entries (S S' : E -> Prop) (l' : ledger) :
  bindings l' = <[key_of b := b]> (bindings l) ->
  (forall x, S x <-> exists c, stored l c /\ entry c x) ->
  (forall x, S' x <-> entry b x \/ (S x /\ ~ entry old_of x)) ->
  forall x, S' x <-> exists c, stored l' c /\ entry c x.
Proof.
  intros Hl HS HS' x. rewrite HS', HS. unfold stored at 2. rewrite Hl. split.
  - intros [Hx|[(c & Hc & Hx) Hn]].
    + exists b. by rewrite lookup_insert_eq.
    + exists c. split; [|done]. destruct (decide (key_of c = key_of b)) as [Ek|Hne].
      * destruct old_cases as [[_ H0]|(Ho & Ek' & _)]; unfold stored in *; [congruence|].
        rewrite Ek' in Ho. rewrite Ek in Hc. rewrite Hc in Ho. injection Ho as Ho. congruence.
      * by rewrite lookup_insert_ne.
  - intros (c & Hc & Hx). destruct (decide (key_of c = key_of b)) as [Ek|Hne].
    + rewrite Ek, lookup_insert_eq in Hc. injection Hc as ->. by left.
    + rewrite lookup_insert_ne in Hc by done. right. split; [by exists c|]. intros Ho.
      destruct old_cases as [[E0 _]|(_ & Ek & Hs)]; [rewrite E0 in Ho; by apply Hnone in Ho|].
      apply Hne. rewrite <-Ek. eapply Hdisjoint; [|exact Hs|exact Hx|exact Ho]. by apply (Hwf _ _ Hc).
Qed.

End Move.

(** * What save changes *)

Definition same_data (l l' : ledger) : Prop :=
  bindings l' = bindings l /\ dns l' = dns l /\ expiry l' = expiry l /\ events l' = events l
  /\ sequence l' = sequence l /\ nodes l' = nodes l /\ observations l' = observations l
  /\ associations l' = associations l /\ meta l' = meta l.

Lemma same_data_trans l1 l2 l3 : same_data l1 l2 -> same_data l2 l3 -> same_data l1 l3.
Proof. unfold same_data. intros H1 H2. destruct_and!. split_and!; congruence. Qed.

Lemma idx_put_data l e : same_data l (idx_put l e).
Proof. by destruct e as [[] k]. Qed.
Lemma idx_delete_data l e : same_data l (idx_delete l e).
Proof. by destruct e as [[] k]. Qed.

Lemma reindex_data old b l : same_data l (reindex old b l).
Proof.
  unfold reindex. apply same_data_trans with (fold_left idx_delete (indexEntries old) l).
  - generalize (indexEntries old) as es. intros es. revert l. induction es as [|e es IH]; intros l; [done|].
    simpl. eapply same_data_trans; [apply idx_delete_data|apply IH].
  - generalize (fold_left idx_delete (indexEntries old) l) as l0. generalize (indexEntries b) as es.
    induction es as [|e es IH]; intros l0; [done|].
    simpl. eapply same_data_trans; [apply idx_put_data|apply IH].
Qed.

Lemma bucket_set i j x l : bucket i (set_bucket j x l) = if decide (i = j) then x else bucket i l.
Proof. by destruct i, j. Qed.

Lemma puts_bucket es l i k : k ∈ bucket i (fold_left idx_put es l) <-> (i, k) ∈ es \/ k ∈ bucket i l.
Proof.
  revert l. induction es as [|[j x] es IH]; intros l; simpl.
  - split; [by right|]. intros [H|H]; [by apply elem_of_nil in H|done].
  - rewrite IH. unfold idx_put. simpl. rewrite bucket_set, elem_of_cons.
    case_decide as E; [subst j; rewrite elem_of_union, elem_of_singleton|].
    + split; [intros [?|[->|?]]|intros [[[=]|?]|?]]; auto.
    + split; [intros [?|?]|intros [[[=]|?]|?]]; auto. done.
Qed.

Lemma deletes_bucket es l i k : k ∈ bucket i (fold_left idx_delete es l) <-> k ∈ bucket i l /\ (i, k) ∉ es.
Proof.
  revert l. induction es as [|[j x] es IH]; intros l; simpl.
  - split; [|by intros [? _]]. intros H. split; [done|]. apply not_elem_of_nil.
  - rewrite IH. unfold idx_delete. simpl. rewrite bucket_set, not_elem_of_cons.
    case_decide as E; [subst j; rewrite elem_of_difference, elem_of_singleton|].
    + split; [intros [[? ?] ?]|intros (? & ? & ?)]; split_and!; try done; congruence.
    + split; [intros [? ?]|intros (? & ? & ?)]; split_and!; try done; congruence.
Qed.

Lemma reindex_bucket old b l i k :
  k ∈ bucket i (reindex old b l) <-> (i, k) ∈ indexEntries b \/ (k ∈ bucket i l /\ (i, k) ∉ indexEntries old).
Proof. unfold reindex. by rewrite puts_bucket, deletes_bucket. Qed.

Definition saved_dns (old b : Binding) (m : gmap string string) : gmap string string :=
  let m1 := if is_empty (Name old) then m else delete (dnsKey old) m in
  if (bState b =?s "active") && negb (Origin b =?s originPD) then <[dnsKey b := key_of b]> m1 else m1.

Definition saved_expiry (old b : Binding) (x : gset (Z * string)) : gset (Z * string) :=
  let x1 := if liveState (bState old) then x ∖ {[expiryKey old]} else x in
  if liveState (bState b) then {[expiryKey b]} ∪ x1 else x1.

Lemma save_fields now b kind l :
  let l' := save now b kind l in let old := old_of l b in
  bindings l' = <[key_of b := b]> (bindings l)
  /\ dns l' = saved_dns old b (dns l) /\ expiry l' = saved_expiry old b (expiry l)
  /\ (forall i k, k ∈ bucket i l' <-> (i, k) ∈ indexEntries b \/ (k ∈ bucket i l /\ (i, k) ∉ indexEntries old))
  /\ events l' = events l ++ [mkEvent EmptyString (sequence l + 1) now kind b None]
  /\ sequence l' = sequence l + 1
  /\ nodes l' = nodes l /\ observations l' = observations l /\ associations l' = associations l /\ meta l' = meta l.
Proof.
  unfold save, saved_dns, saved_expiry. fold (old_of l b). set (old := old_of l b).
  set (l1 := if is_empty (Name old) then l else _).
  assert (H1 : bindings l1 = bindings l /\ expiry l1 = expiry l /\ events l1 = events l /\ sequence l1 = sequence l
    /\ nodes l1 = nodes l /\ observations l1 = observations l /\ associations l1 = associations l /\ meta l1 = meta l
    /\ (forall i, bucket i l1 = bucket i l)
    /\ dns l1 = if is_empty (Name old) then dns l else delete (dnsKey old) (dns l)).
  { unfold l1. destruct (is_empty (Name old)); split_and!; try done; by intros []. }
  clearbody l1. destruct (reindex_data old b l1) as (D1 & D2 & D3 & D4 & D5 & D6 & D7 & D8 & D9).
  pose proof (fun i k => reindex_bucket old b l1 i k) as HB. set (l2 := reindex old b l1) in *. clearbody l2.
  destruct H1 as (A1 & A2 & A3 & A4 & A5 & A6 & A7 & A8 & A9 & A10).
  set (l3 := if liveState (bState old) then _ else l2).
  set (l4 := if liveState (bState b) then set_expiry _ l3 else l3).
  assert (H4 : bindings l4 = bindings l2 /\ dns l4 = dns l2 /\ events l4 = events l2 /\ sequence l4 = sequence l2
    /\ nodes l4 = nodes l2 /\ observations l4 = observations l2 /\ associations l4 = associations l2 /\ meta l4 = meta l2
    /\ (forall i, bucket i l4 = bucket i l2) /\ expiry l4 = saved_expiry old b (expiry l2)).
  { unfold l4, l3, saved_expiry. destruct (liveState (bState old)), (liveState (bState b)); split_and!; try done; by intros []. }
  unfold saved_expiry in H4. clearbody l4. clear l3. destruct H4 as (B1 & B2 & B3 & B4 & B5 & B6 & B7 & B8 & B9 & B10).
  destruct ((bState b =?s "active") && negb (Origin b =?s originPD)); simpl; split_and!;
    first [congruence | by rewrite B10, D3, A2 | intros i k; rewrite <-A9, <-HB, <-B9; by destruct i].
Qed.

Definition dns_entry (b : Binding) (x : string * string) : Prop := named b /\ x = (dnsKey b, key_of b).
Definition expiry_entry (b : Binding) (x : Z * string) : Prop := liveState (bState b) = true /\ x = expiryKey b.
Definition index_entry (b : Binding) (x : index * string) : Prop := x ∈ indexEntries b.

Lemma named_spec b : (bState b =?s "active") && negb (Origin b =?s originPD) = true <-> named b.
Proof. unfold named. rewrite andb_true_iff, negb_true_iff, String.eqb_eq, String.eqb_neq. done. Qed.

Section Save.
Context (l : ledger) (Hwf : wf l) (b : Binding) (Hb : sound_binding b).
Abbreviation old := (old_of l b).

Lemma saved_dns_spec k v :
  saved_dns old b (dns l) !! k = Some v
  <-> dns_entry b (k, v) \/ (dns l !! k = Some v /\ ~ dns_entry old (k, v)).
Proof.
  (* a key of [old] or of [b] in the index belongs to [old] *)
  assert (Hown : forall c x, sound_binding c -> key_of c = key_of b -> dns l !! dnsKey c = Some x ->
    dns_entry old (dnsKey c, x)).
  { intros c x Hc Ek Hx. apply (wf_dns _ Hwf) in Hx as (d & Hd & Hn & Edns & ->).
    assert (Ekd : key_of d = key_of b).
    { rewrite <-Ek. apply dnsKey_inj; [by apply (wf_keys _ Hwf _ _ Hd)|done|done]. }
    assert (old = d) as ->; [|by rewrite Edns].
    unfold old_of, readBinding. change (bindingKey _ _) with (key_of b). rewrite <-Ekd. unfold stored in Hd. by rewrite Hd. }
  unfold saved_dns. set (m1 := if is_empty (Name old) then dns l else delete (dnsKey old) (dns l)).
  assert (Hm1 : m1 !! k = Some v <-> dns l !! k = Some v /\ ~ dns_entry old (k, v)).
  { unfold m1. destruct (old_cases l b (wf_keys _ Hwf)) as [[E0 _]|(Hst & Ek & Hs)].
    - rewrite E0. simpl. split; [|by intros [? _]]. intros H. split; [done|]. intros [[H1 _] _]. done.
    - pose proof Hs as (_ & _ & _ & Hn & _). rewrite Hn. rewrite lookup_delete_Some. split.
      + intros [Hne Hk]. split; [done|]. intros [_ [= -> _]]. done.
      + intros [Hk Hno]. split; [|done]. intros <-. apply Hno. by apply Hown. }
  destruct ((bState b =?s "active") && negb (Origin b =?s originPD)) eqn:Enam.
  - rewrite lookup_insert_Some, Hm1. apply named_spec in Enam. split.
    + intros [[<- <-]|[Hne H]]; [by left|by right].
    + intros [[_ [= -> ->]]|[Hk Hno]]; [by left|]. right. split; [|done]. intros <-.
      apply Hno. by apply Hown.
  - rewrite Hm1. split; [by right|]. intros [[Hn _]|?]; [|done]. apply named_spec in Hn. congruence.
Qed.

Lemma saved_expiry_spec x :
  x ∈ saved_expiry old b (expiry l) <-> expiry_entry b x \/ (x ∈ expiry l /\ ~ expiry_entry old x).
Proof.
  unfold saved_expiry, expiry_entry.
  destruct (liveState (bState old)), (liveState (bState b)); set_solver.
Qed.

Lemma log_app m es e : fold_left log_event (es ++ [e]) m = log_event (fold_left log_event es m) e.
Proof. by rewrite fold_left_app. Qed.

Lemma dns_disjoint c c' x : sound_binding c -> sound_binding c' -> dns_entry c x -> dns_entry c' x -> key_of c = key_of c'.
Proof. intros Hc Hc' [_ ->] [_ E]. by injection E as _ E. Qed.
Lemma expiry_disjoint c c' x :
  sound_binding c -> sound_binding c' -> expiry_entry c x -> expiry_entry c' x -> key_of c = key_of c'.
Proof. intros _ _ [_ ->] [_ E]. by injection E. Qed.
Lemma index_disjoint c c' x :
  sound_binding c -> sound_binding c' -> index_entry c x -> index_entry c' x -> key_of c = key_of c'.
Proof. destruct x as [i k]. apply entry_inj. Qed.

Lemma dns_entries l' k v :
  (exists c, stored l' c /\ dns_entry c (k, v))
  <-> exists c, stored l' c /\ named c /\ k = dnsKey c /\ v = key_of c.
Proof.
  split.
  - intros (c & Hs & Hn & [= -> ->]). exists c. done.
  - intros (c & Hs & Hn & -> & ->). exists c. done.
Qed.

(** Saving a sound binding keeps the ledger well formed. *)
Lemma save_wf now kind : wf (save now b kind l).
Proof.
  destruct (save_fields now b kind l) as (F1 & F2 & F3 & F4 & F5 & F6 & _).
  pose proof (wf_keys _ Hwf) as Hkeys. split.
  - intros k c. rewrite F1, lookup_insert_Some. intros [[<- <-]|[_ Hc]]; [done|by apply Hkeys].
  - intros k v. rewrite F2.
    rewrite (move_entries dns_entry l b Hkeys Hb dns_disjoint ltac:(by intros x [[H _] _])
      (fun x => dns l !! fst x = Some (snd x)) (fun x => saved_dns old b (dns l) !! fst x = Some (snd x)) _ F1
      ltac:(intros [k' v']; rewrite dns_entries; apply (wf_dns _ Hwf))
      ltac:(intros [k' v']; apply saved_dns_spec) (k, v)).
    apply dns_entries.
  - intros x. rewrite F3.
    rewrite (move_entries expiry_entry l b Hkeys Hb expiry_disjoint ltac:(by intros x' [H _])
      (fun x => x ∈ expiry l) (fun x => x ∈ saved_expiry old b (expiry l)) _ F1
      (wf_expiry _ Hwf)
      saved_expiry_spec x).
    done.
  - intros i k.
    rewrite (move_entries index_entry l b Hkeys Hb index_disjoint ltac:(intros x'; apply not_elem_of_nil)
      (fun x => snd x ∈ bucket (fst x) l) (fun x => snd x ∈ bucket (fst x) (save now b kind l)) _ F1
      ltac:(intros [i' k']; apply (wf_index _ Hwf)) ltac:(intros [i' k']; apply F4) (i, k)).
    done.
  - intros e. rewrite F5, elem_of_app, list_elem_of_singleton.
    intros [He| ->]; [by apply (wf_events _ Hwf)|by right].
  - rewrite F1, F5, log_app, <-(wf_log _ Hwf). unfold log_event. simpl. destruct Hb as (-> & _). done.
  - rewrite F5, map_app, length_app, (wf_ids _ Hwf), (wf_sequence _ Hwf), seq_app, map_app. simpl.
    do 2 f_equal. lia.
  - rewrite F5, F6, length_app, (wf_sequence _ Hwf). simpl. lia.
Qed.

End Save.

(** * Reading through the indexes *)

Lemma elem_of_scan prefix X k : k ∈ scan prefix X <-> k ∈ X /\ exists r, k = prefix +++ r.
Proof.
  unfold scan. rewrite list_elem_of_In, filter_In, <-list_elem_of_In, has_prefix_spec.
  by rewrite elem_of_sort_strings, elem_of_elements.
Qed.

Lemma split_join3 a b c : no_nul a = true -> no_nul b = true -> no_nul c = true ->
  split_char "000" (join nul [a; b; c]) = [a; b; c].
Proof.
  intros Ha%negb_true_iff Hb%negb_true_iff Hc%negb_true_iff. simpl.
  change (nul +++ (b +++ nul +++ c)) with (String "000" (b +++ String "000" c)).
  by rewrite !split_char_cut, split_char_none.
Qed.

Lemma split_join2 a b : no_nul a = true -> no_nul b = true -> split_char "000" (join nul [a; b]) = [a; b].
Proof.
  intros Ha%negb_true_iff Hb%negb_true_iff. simpl. change (nul +++ b) with (String "000" b).
  by rewrite split_char_cut, split_char_none.
Qed.

(** The entries of a binding, index by index. *)
Definition index_key (i : index) (b : Binding) : string :=
  match i with
  | clientIdxBucket => join nul [Client b; bScope b; Address b]
  | macIdxBucket => join nul [MAC b; bScope b; Address b]
  | nameIdxBucket => join nul [Name b; bScope b; Address b]
  | addrIdxBucket => join nul [Address b; bScope b]
  end.
Definition indexed (i : index) (b : Binding) : bool :=
  liveState (bState b) &&
  match i with
  | clientIdxBucket | addrIdxBucket => true
  | macIdxBucket => negb (is_empty (MAC b))
  | nameIdxBucket => (bState b =?s "active") && negb (is_empty (Name b))
  end.

Lemma entry_spec i k b : (i, k) ∈ indexEntries b <-> indexed i b = true /\ k = index_key i b.
Proof.
  unfold indexEntries, indexed. rewrite list_elem_of_In. destruct (liveState (bState b)); simpl; [|naive_solver].
  rewrite !in_app_iff. destruct (is_empty (MAC b)), ((bState b =?s "active") && negb (is_empty (Name b))), i; simpl;
    naive_solver.
Qed.

Section Lookups.
Context (l : ledger) (Hwf : wf l).

Lemma stored_sound b : stored l b -> sound_binding b.
Proof. apply (wf_keys _ Hwf). Qed.

Lemma read_stored b : stored l b -> readBinding l (bScope b) (Address b) = b.
Proof. unfold stored, readBinding. change (bindingKey _ _) with (key_of b). by intros ->. Qed.

Lemma split_index_key i b : sound_binding b -> split_key i (index_key i b) = Some (bScope b, Address b).
Proof.
  intros (_ & _ & S & _ & _ & N & A & C & M). unfold split_key. destruct i; cbn [index_key].
  1-3: by rewrite split_join3.
  by rewrite split_join2.
Qed.

Lemma live_at_stored b : stored l b -> liveState (bState b) = true -> live_at l (Some (bScope b, Address b)) = [b].
Proof.
  intros Hs Hl. unfold live_at. rewrite read_stored by done. destruct (stored_sound b Hs) as (-> & _).
  by rewrite Hl.
Qed.

(** A lookup through an index finds the stored bindings whose index key has the prefix. *)
Lemma liveFromIndex_exact i prefix b :
  b ∈ liveFromIndex l i prefix
  <-> stored l b /\ indexed i b = true /\ exists r, index_key i b = prefix +++ r.
Proof.
  unfold liveFromIndex. rewrite list_elem_of_In, in_flat_map. split.
  - intros (k & Hk%list_elem_of_In & Hb%list_elem_of_In). apply elem_of_scan in Hk as [Hk Hp].
    apply (wf_index _ Hwf) in Hk as (c & Hc & He). apply entry_spec in He as [Hi ->].
    rewrite split_index_key, live_at_stored in Hb; [|done|by apply andb_prop in Hi as [? _]|by apply stored_sound].
    apply list_elem_of_singleton in Hb as ->. done.
  - intros (Hs & Hi & Hp). exists (index_key i b). split.
    + apply list_elem_of_In, elem_of_scan. split; [|done]. apply (wf_index _ Hwf). exists b.
      split; [done|]. by apply entry_spec.
    + rewrite split_index_key by (by apply stored_sound).
      rewrite live_at_stored; [by left|done|]. by apply andb_prop in Hi as [? _].
Qed.

End Lookups.

Lemma idxPrefix1 x : idxPrefix [x] = x +++ String "000" EmptyString.
Proof. unfold idxPrefix, nul. simpl. by rewrite append_empty_r. Qed.

Lemma prefix1 a x rest :
  no_nul a = true -> no_nul x = true ->
  (exists r, a +++ String "000" rest = idxPrefix [x] +++ r) <-> a = x.
Proof.
  intros Ha%negb_true_iff Hx%negb_true_iff. rewrite idxPrefix1. setoid_rewrite append_assoc. simpl. split.
  - intros [r E]. by apply cut_inj in E as [-> _].
  - intros ->. by exists rest.
Qed.

Lemma prefix2 a b x y rest :
  no_nul a = true -> no_nul b = true -> no_nul x = true -> no_nul y = true ->
  (exists r, a +++ String "000" (b +++ String "000" rest) = idxPrefix [x; y] +++ r) <-> a = x /\ b = y.
Proof.
  intros Ha Hb Hx Hy.
  assert (Hp : forall r, idxPrefix [x; y] +++ r = x +++ String "000" (y +++ String "000" r)).
  { intros r. unfold idxPrefix, nul. cbn [map concat_str]. by rewrite append_empty_r, !append_assoc. }
  setoid_rewrite Hp. apply negb_true_iff in Ha, Hb, Hx, Hy. split.
  - intros [r E]. apply cut_inj in E as [-> E]; [|done..]. by apply cut_inj in E as [-> _].
  - intros [-> ->]. by exists rest.
Qed.

Section Exact.
Context (l : ledger) (Hwf : wf l) (b : Binding).

Lemma liveByClient_exact scope client : no_nul scope = true -> no_nul client = true ->
  b ∈ liveByClient l scope client
  <-> stored l b /\ liveState (bState b) = true /\ bScope b = scope /\ Client b = client.
Proof.
  intros Hs Hc. unfold liveByClient. rewrite (liveFromIndex_exact l Hwf). unfold indexed, index_key. split.
  - intros (Hst & Hl & Hp). destruct (stored_sound l Hwf b Hst) as (_ & _ & S & _ & _ & _ & A & C & _).
    apply prefix2 in Hp as [<- <-]; try done. by rewrite andb_true_r in Hl.
  - intros (Hst & Hl & <- & <-). rewrite Hl. split_and!; [done..|].
    destruct (stored_sound l Hwf b Hst) as (_ & _ & S & _). by apply prefix2.
Qed.

Lemma liveByAddress_exact address : no_nul address = true ->
  b ∈ liveByAddress l address <-> stored l b /\ liveState (bState b) = true /\ Address b = address.
Proof.
  intros Ha. unfold liveByAddress. rewrite (liveFromIndex_exact l Hwf). unfold indexed, index_key. split.
  - intros (Hst & Hl & Hp). destruct (stored_sound l Hwf b Hst) as (_ & _ & S & _ & _ & _ & A & _).
    apply prefix1 in Hp as <-; try done. by rewrite andb_true_r in Hl.
  - intros (Hst & Hl & <-). rewrite Hl. split_and!; [done..|]. by apply prefix1.
Qed.

Lemma liveByMAC_exact mac : no_nul mac = true -> is_empty mac = false ->
  b ∈ liveByMAC l mac <-> stored l b /\ liveState (bState b) = true /\ MAC b = mac.
Proof.
  intros Hm Hne. unfold liveByMAC. rewrite (liveFromIndex_exact l Hwf). unfold indexed, index_key. split.
  - intros (Hst & Hl & Hp). destruct (stored_sound l Hwf b Hst) as (_ & _ & S & _ & _ & _ & _ & _ & M).
    apply prefix1 in Hp as <-; try done. by apply andb_prop in Hl as [? _].
  - intros (Hst & Hl & <-). rewrite Hl, Hne. split_and!; [done..|]. by apply prefix1.
Qed.

Lemma activeByName_exact name : no_nul name = true ->
  b ∈ activeByName l name <-> stored l b /\ bState b = "active" /\ Name b = name.
Proof.
  intros Hn. unfold activeByName. rewrite list_elem_of_In, filter_In, <-list_elem_of_In, (liveFromIndex_exact l Hwf).
  unfold indexed, index_key. split.
  - intros [(Hst & Hl & Hp) [Ea%String.eqb_eq En%String.eqb_eq]%andb_prop]. done.
  - intros (Hst & Ha & <-). rewrite Ha. destruct (stored_sound l Hwf b Hst) as (_ & _ & _ & -> & _).
    rewrite !String.eqb_refl. split_and!; [done..| |done]. by apply prefix1.
Qed.

End Exact.

(** The secondary indexes are exact.  In a well-formed ledger, looking up a client in a
    scope, an address, a hardware address or a name through its index finds exactly the live
    (for names: active) bindings that a scan of the whole ledger would find. *)
Theorem index_exact l b :
  wf l ->
  (forall scope client, no_nul scope = true -> no_nul client = true ->
     b ∈ liveByClient l scope client
     <-> stored l b /\ liveState (bState b) = true /\ bScope b = scope /\ Client b = client)
  /\ (forall address, no_nul address = true ->
     b ∈ liveByAddress l address <-> stored l b /\ liveState (bState b) = true /\ Address b = address)
  /\ (forall mac, no_nul mac = true -> is_empty mac = false ->
     b ∈ liveByMAC l mac <-> stored l b /\ liveState (bState b) = true /\ MAC b = mac)
  /\ (forall name, no_nul name = true ->
     b ∈ activeByName l name <-> stored l b /\ bState b = "active" /\ Name b = name).
Proof.
  intros Hwf. split_and!; [intros; by apply liveByClient_exact|intros; by apply liveByAddress_exact
    |intros; by apply liveByMAC_exact|intros; by apply activeByName_exact].
Qed.

Lemma dns_prefix scope name r :
  (scope +++ "/" +++ name +++ "/") +++ r = scope +++ String "/" (name +++ String "/" r).
Proof. rewrite append_assoc. f_equal. simpl. f_equal. by rewrite append_assoc. Qed.

(** DNS answers are exact.  In a well-formed ledger, the bindings answered for a name in a
    scope are exactly the active, unexpired host bindings of that scope that carry the name
    (never a delegated prefix), and the binding answered for an address is the scope's active,
    unexpired binding of that address. *)
Theorem dns_exact l now scope name b :
  wf l -> no_slash scope = true -> no_slash name = true ->
  (b ∈ DNSBindings now scope name EmptyString l
   <-> stored l b /\ bState b = "active" /\ Origin b <> originPD /\ bScope b = scope /\ Name b = name /\ now < End_ b)
  /\ forall address, is_empty address = false ->
     b ∈ DNSBindings now scope name address l
     <-> stored l b /\ bState b = "active" /\ bScope b = scope /\ Address b = address /\ now < End_ b.
Proof.
  intros Hwf Hs Hn. unfold DNSBindings. split.
  - cbn [is_empty negb]. rewrite list_elem_of_In, filter_In, <-list_elem_of_In, list_elem_of_omap. unfold answers.
    rewrite andb_true_iff, String.eqb_eq, Z.ltb_lt. split.
    + intros [(k & Hk & Hb) [Ha He]]. apply elem_of_scan in Hk as [_ [r Hk]].
      destruct (dns l !! k) as [v|] eqn:Ev; [|done]. simpl in Hb.
      apply (wf_dns _ Hwf) in Ev as (c & Hc & Hnm & Ek & ->). unfold stored in Hc. rewrite Hc in Hb. injection Hb as <-.
      destruct (stored_sound l Hwf c Hc) as (_ & S%negb_true_iff & _ & _ & N%negb_true_iff & _).
      apply negb_true_iff in Hs, Hn. rewrite Ek, dns_prefix in Hk. unfold dnsKey in Hk.
      apply cut_inj in Hk as [E1 Hk]; [|done..]. apply cut_inj in Hk as [E2 _]; [|done..].
      destruct Hnm. by split_and!.
    + intros (Hst & Ha & Ho & <- & <- & He). split; [|done]. exists (dnsKey b).
      assert (Hd : dns l !! dnsKey b = Some (key_of b)) by (apply (wf_dns _ Hwf); by exists b). split.
      * apply elem_of_scan. split; [apply elem_of_dom; eauto|]. exists (Address b). by rewrite dns_prefix.
      * rewrite Hd. exact Hst.
  - intros address Hne. rewrite Hne. simpl.
    assert (Hk : forall c, bindings l !! bindingKey scope address = Some c ->
      stored l c /\ bScope c = scope /\ Address c = address).
    { intros c Hc. destruct (wf_keys _ Hwf _ _ Hc) as [Ek (_ & S & _)]. unfold stored. rewrite <-Ek.
      apply bindingKey_inj in Ek as [-> ->]; done. }
    destruct (bindings l !! bindingKey scope address) as [c|] eqn:Ec.
    + destruct (Hk c eq_refl) as (Hst & <- & <-). unfold answers. split.
      * destruct (_ && _) eqn:E; [|by intros ?%elem_of_nil]. apply andb_prop in E as [Ea%String.eqb_eq Ee%Z.ltb_lt].
        intros ->%list_elem_of_singleton. done.
      * intros (Hb & Ha & E1 & E2 & He). unfold stored, key_of in Hb. rewrite E1, E2, Ec in Hb. injection Hb as ->.
        rewrite Ha. apply Z.ltb_lt in He as ->. simpl. by left.
    + split; [by intros ?%elem_of_nil|]. intros (Hb & _ & E1 & E2 & _). unfold stored, key_of in Hb.
      rewrite E1, E2, Ec in Hb. done.
Qed.

(** * History *)

Definition selected (scope ip : string) (b : Binding) : bool :=
  (is_empty scope || (bScope b =?s scope)) && (is_empty ip || (Address b =?s ip)).

Definition selection (scope ip : string) (m : gmap string Binding) : gmap string Binding :=
  filter (fun kv => selected scope ip (snd kv) = true) m.

Lemma selection_insert scope ip m b :
  (forall c, m !! key_of b = Some c -> selected scope ip c = selected scope ip b) ->
  selection scope ip (<[key_of b := b]> m) = collect scope ip (selection scope ip m) b.
Proof.
  intros Hsame. unfold selection, collect. fold (selected scope ip b).
  destruct (selected scope ip b) eqn:Es.
  - by rewrite map_filter_insert_True.
  - rewrite map_filter_insert_False by (simpl; congruence).
    apply map_eq. intros k. rewrite !map_lookup_filter, lookup_delete. case_decide as Ek; [subst k|done].
    destruct (m !! key_of b) as [c|]; simpl; [|done]. rewrite (Hsame c eq_refl).
    by rewrite option_guard_False by congruence.
Qed.

Lemma selected_key scope ip b c :
  sound_binding b -> sound_binding c -> key_of b = key_of c -> selected scope ip b = selected scope ip c.
Proof. intros Hb Hc E. destruct (key_of_inj b c Hb Hc E) as [E1 E2]. unfold selected. by rewrite E1, E2. Qed.

Definition sound_map (m : gmap string Binding) : Prop :=
  forall k b, m !! k = Some b -> k = key_of b /\ sound_binding b.

Lemma collect_values scope ip m bs acc :
  sound_map m -> sound_map acc -> (forall b, b ∈ bs -> sound_binding b) ->
  selection scope ip acc = m ->
  fold_left (collect scope ip) bs m = selection scope ip (fold_left (fun a b => <[key_of b := b]> a) bs acc)
  /\ sound_map (fold_left (fun a b => <[key_of b := b]> a) bs acc).
Proof.
  revert m acc. induction bs as [|b bs IH]; intros m acc Hm Ha Hbs <-; simpl; [done|].
  assert (Hb : sound_binding b) by (apply Hbs; left).
  assert (Hacc : sound_map (<[key_of b := b]> acc)).
  { intros k c. rewrite lookup_insert_Some. intros [[<- <-]|[_ Hc]]; [done|by apply Ha]. }
  rewrite <-selection_insert.
  2:{ intros c Hc. destruct (Ha _ _ Hc) as [E Hs]. by apply selected_key. }
  apply IH; [|done| |done].
  - intros k c. unfold selection. rewrite map_lookup_filter_Some. intros [Hc _]. by apply Hacc.
  - intros c Hc. apply Hbs. by right.
Qed.

Definition put_all (bs : list Binding) (acc : gmap string Binding) : gmap string Binding :=
  fold_left (fun a b => <[key_of b := b]> a) bs acc.

Lemma put_all_lookup (m : gmap string Binding) bs acc k :
  (forall b, b ∈ bs -> m !! key_of b = Some b) ->
  put_all bs acc !! k = if decide (k ∈ map key_of bs) then m !! k else acc !! k.
Proof.
  revert acc. induction bs as [|b bs IH]; intros acc Hbs; simpl; [done|].
  change (put_all bs (<[key_of b := b]> acc) !! k = if decide (k ∈ key_of b :: map key_of bs) then m !! k else acc !! k).
  rewrite IH by (intros c Hc; apply Hbs; by right).
  destruct (decide (k ∈ map key_of bs)) as [Hin|Hni]; [by rewrite decide_True by (by right)|].
  destruct (decide (k = key_of b)) as [->|Hne].
  - rewrite decide_True by left. rewrite lookup_insert_eq. symmetry. apply Hbs. left.
  - rewrite decide_False by (by apply not_elem_of_cons). by apply lookup_insert_ne.
Qed.

Lemma elem_of_values {A} (m : gmap string A) x : x ∈ values m <-> exists k, m !! k = Some x.
Proof.
  unfold values. rewrite list_elem_of_omap. split.
  - intros (k & _ & H). eauto.
  - intros (k & H). exists k. split; [|done]. apply elem_of_sorted_keys. eauto.
Qed.

Lemma put_all_values (m : gmap string Binding) : sound_map m -> put_all (values m) ∅ = m.
Proof.
  intros Hm. apply map_eq. intros k. rewrite (put_all_lookup m).
  - case_decide as Hk; [done|]. rewrite lookup_empty. destruct (m !! k) as [b|] eqn:E; [|done]. destruct Hk.
    destruct (Hm _ _ E) as [-> _]. apply list_elem_of_In, in_map, list_elem_of_In, elem_of_values. eauto.
  - intros b (k' & Hb)%elem_of_values. by destruct (Hm _ _ Hb) as [<- _].
Qed.

Lemma current_states scope ip (m : gmap string Binding) :
  sound_map m -> fold_left (collect scope ip) (values m) ∅ = selection scope ip m.
Proof.
  intros Hm. destruct (collect_values scope ip ∅ (values m) ∅) as [E _]; try done.
  - intros b (k & Hb)%elem_of_values. by apply Hm in Hb as [_ ?].
  - rewrite E. fold (put_all (values m) ∅). by rewrite put_all_values.
Qed.

(** The bindings an event list writes, in order. *)
Definition written (es : list Event) : list Binding :=
  List.filter (fun b => negb (is_empty (bScope b))) (map eBinding es).

Lemma log_written es acc : fold_left log_event es acc = put_all (written es) acc.
Proof.
  revert acc. induction es as [|e es IH]; intros acc; simpl; [done|]. rewrite IH. unfold written, log_event. simpl.
  by destruct (is_empty (bScope (eBinding e))).
Qed.

Lemma replay_written scope ip at_ es acc :
  (forall e, e ∈ es -> Time e <= at_) ->
  fold_left (replay_event scope ip at_) es acc = fold_left (collect scope ip) (written es) acc.
Proof.
  revert acc. induction es as [|e es IH]; intros acc Ht; simpl; [done|].
  rewrite IH by (intros e' He'; apply Ht; by right). unfold replay_event, written. simpl.
  rewrite (proj2 (Z.leb_le (Time e) at_)) by (apply Ht; left). simpl.
  by destruct (is_empty (bScope (eBinding e))).
Qed.

Lemma replay_later scope ip at_ es acc :
  (forall e, e ∈ es -> at_ < Time e) -> fold_left (replay_event scope ip at_) es acc = acc.
Proof.
  revert acc. induction es as [|e es IH]; intros acc Ht; simpl; [done|].
  rewrite IH by (intros e' He'; apply Ht; by right). unfold replay_event.
  rewrite (proj2 (Z.leb_gt (Time e) at_)) by (apply Ht; left). done.
Qed.

Lemma past_states scope ip at_ l later :
  wf l -> (forall e, e ∈ events l -> Time e <= at_) -> (forall e, e ∈ later -> at_ < Time e) ->
  fold_left (replay_event scope ip at_) (events l ++ later) ∅ = selection scope ip (bindings l).
Proof.
  intros Hwf He Hl. rewrite fold_left_app, replay_later, replay_written by done.
  destruct (collect_values scope ip ∅ (written (events l)) ∅) as [E _]; try done.
  - intros b Hb. unfold written in Hb. apply list_elem_of_In, filter_In in Hb as [(e & <- & Hin%list_elem_of_In)%in_map_iff Hb].
    destruct (wf_events _ Hwf e Hin) as [E|]; [by rewrite E in Hb|done].
  - rewrite E. f_equal. rewrite (wf_log _ Hwf), log_written. done.
Qed.

(** The past is answered as it was.  Take the ledger at some instant and any later ledger
    that extends its log with events after that instant.  Asked for that instant, the later
    ledger answers with exactly the bindings the earlier one answered with at the time, states
    included, for every choice of scope and address. *)
Theorem history_exact l l' later at_ now scope ip s s' :
  wf l -> events l' = events l ++ later ->
  (forall e, e ∈ events l -> Time e <= at_) -> (forall e, e ∈ later -> at_ < Time e) ->
  0 < at_ < now ->
  take_snapshot at_ scope ip at_ l = Ok s -> take_snapshot now scope ip at_ l' = Ok s' ->
  sBindings s' = sBindings s.
Proof.
  intros Hwf He Ht Hl [H0 Hn] Hs Hs'. unfold take_snapshot in Hs, Hs'.
  rewrite (proj2 (Z.eqb_neq at_ 0)) in Hs, Hs' by lia. rewrite Z.eqb_refl in Hs.
  rewrite (proj2 (Z.eqb_neq at_ now)) in Hs' by lia.
  apply seq_ok in Hs as [_ Hs]. apply seq_ok in Hs as [_ Hs]. apply Ok_inj in Hs as <-.
  apply seq_ok in Hs' as [_ Hs']. apply seq_ok in Hs' as [_ Hs']. apply Ok_inj in Hs' as <-.
  cbn [sBindings]. rewrite He, past_states, current_states; [done|exact (wf_keys _ Hwf)|done..].
Qed.
