(* ===== verification/Config.v ===== *)
(** internal/addressbook/config.go: the DHCP domain's configuration and its validation. *)

From S2P Require Import Prelude NetAddr Ifupdown.
From Stdlib Require Import Ascii.
Local Open Scope Z_scope.

Record DHCPOption := mkOption { Code : Z; Type_ : string; Value : list string }.
Record BootConfig := mkBoot { Always : bool; File : string; NextServer : string }.
Record TFTPConfig := mkTFTP { Root : string; tInterfaces : list string }.
Record PDConfig := mkPD { pdPrefix : string; Length : Z; Route : bool }.
Record Reservation := mkReservation { rClient : string; rAddress : string; rDevice : string }.
Record DeviceConfig := mkDevice {
  Aliases : list string; NodeIDs : list string; dID : string; dName : string; dNodeID : string;
}.
Record RelayConfig := mkRelay { rPeer : string; Link : string }.
Record RAConfig := mkRA { SLAAC : bool; RouterLifetime : Z; Interval : Z }.

Record Scope := mkScope {
  sID : string; Interface : string; Subnet : string; sServer : string;
  sStart : string; sEnd : string; Router : string; Zone : string;
  LeaseSeconds : Z; Enabled : bool; Reservations : list Reservation;
  PreferredSeconds : Z; Relay : option RelayConfig; RA : option RAConfig; Boot : option BootConfig;
  DNSServers : list string; Options : list DHCPOption; PD : option PDConfig;
}.

Record Config := mkConfig { Scopes : list Scope; Devices : list DeviceConfig; TFTP : option TFTPConfig }.

(** * Lookups *)

Definition find_scope (c : Config) (id : string) : option Scope := find (fun s => sID s =?s id) (Scopes c).
Definition find_device (c : Config) (id : string) : option DeviceConfig := find (fun d => dID d =?s id) (Devices c).

Definition HasNode (d : DeviceConfig) (id : string) : bool :=
  negb (is_empty id) && ((dNodeID d =?s id) || mem_str id (NodeIDs d)).
Definition DeclaresNodes (d : DeviceConfig) : bool :=
  negb (is_empty (dNodeID d)) || match NodeIDs d with [] => false | _ => true end.
Definition HasAlias (d : DeviceConfig) (name : string) : bool := mem_str name (Aliases d).

Definition scope_is6 (s : Scope) : bool :=
  match ParsePrefix (Subnet s) with Some p => Is6 (PAddr p) | None => false end.

Definition socketKey (s : Scope) : string := (if scope_is6 s then "6" else "4") +++ "/" +++ Interface s.

(** disabled: the configuration with every scope switched off.  Configurations are values here, so
    cloneConfig's copies are the configuration itself. *)
Definition with_enabled (on : bool) (s : Scope) : Scope :=
  mkScope (sID s) (Interface s) (Subnet s) (sServer s) (sStart s) (sEnd s) (Router s) (Zone s) (LeaseSeconds s) on
    (Reservations s) (PreferredSeconds s) (Relay s) (RA s) (Boot s) (DNSServers s) (Options s) (PD s).
Definition disabled (c : Config) : Config := mkConfig (map (with_enabled false) (Scopes c)) (Devices c) (TFTP c).

(** * Names and identifiers *)

Definition label_end (c : ascii) : bool := is_lower c || is_digit c.
Definition label_char (c : ascii) : bool := label_end c || Ascii.eqb c "-".

(** The regular expression labelPattern. *)
Definition labelPattern (s : string) : bool :=
  let l := string_chars s in
  match l with
  | [] => false
  | c :: _ => label_end c && label_end (List.last l c) && forallb label_char l && (length l <=? 63)%nat
  end.

Definition iface_pattern_char (c : ascii) : bool :=
  is_alnum c || Ascii.eqb c "_" || Ascii.eqb c "." || Ascii.eqb c ":" || Ascii.eqb c "-".
Definition interfacePattern (s : string) : bool :=
  (1 <=? String.length s)%nat && (String.length s <=? 15)%nat && str_forallb iface_pattern_char s.

Definition has_suffix (s suffix : string) : bool :=
  let l := string_chars s in let x := string_chars suffix in
  (length x <=? length l)%nat && bool_decide (drop (length l - length x) l = x).
Definition trim_suffix (s x : string) : string :=
  if has_suffix s x then String.substring 0 (String.length s - String.length x) s else s.

Definition validZone (s : string) : bool :=
  contains_char "." s && negb (has_suffix s ".local") && negb (has_suffix s ".ts.net")
  && (String.length s <=? 200)%nat && forallb labelPattern (split_char "." s).

(** strings.Split with a separator of several bytes. *)
Fixpoint split_str (fuel : nat) (sep s acc : string) : list string :=
  match fuel with
  | O => [acc +++ s]
  | S fuel' =>
    match strip_prefix sep s with
    | Some rest => acc :: split_str fuel' sep rest EmptyString
    | None => match s with
              | EmptyString => [acc]
              | String c s' => split_str fuel' sep s' (acc +++ String c EmptyString)
              end
    end
  end.
Definition Split (s sep : string) : list string := split_str (S (String.length s)) sep s EmptyString.

Definition is_hex (c : ascii) : bool := match hex_val c with Some _ => true | None => false end.
(** hex.DecodeString succeeds. *)
Definition hex_decodes (s : string) : bool := Nat.even (String.length s) && str_forallb is_hex s.
Definition hex_lower_char (c : ascii) : bool := is_digit c || in_range 97 102 c.

Definition validClient (s : string) : bool :=
  if has_prefix s "duid:" then
    match Split (trim_prefix s "duid:") "/iaid:" with
    | [d; i] => (String.length i =? 8)%nat && (4 <=? String.length d)%nat && (String.length d <=? 256)%nat
                && hex_decodes d && hex_decodes i && (to_lower s =?s s)
    | _ => false
    end
  else if has_prefix s "mac:" then
    match ParseMAC (trim_prefix s "mac:") with
    | Some mac => (length mac =? 6)%nat && (("mac:" +++ MACString mac) =?s s)
    | None => false
    end
  else if has_prefix s "id:" then
    let v := trim_prefix s "id:" in
    (2 <=? String.length v)%nat && (String.length v <=? 510)%nat && Nat.even (String.length v)
    && str_forallb hex_lower_char v
  else false.

(** lastAddr: the broadcast address of an IPv4 subnet. *)
Definition lastAddr (p : Prefix) : Addr :=
  Addr4 (Z.lor (addr_num (PAddr p)) (Z.shiftr 4294967295 (PBits p))).

(** * Options *)

Definition reservedOptionCodes : list Z :=
  [0; 1; 3; 6; 12; 15; 28; 50; 51; 52; 53; 54; 55; 58; 59; 60; 61; 66; 67; 119; 255].

(** strconv.ParseUint in base 10. *)
Definition ParseUint (s : string) (bits : Z) : option Z :=
  if negb (is_empty s) && str_forallb is_digit s then
    let n := fold_left (fun acc c => 10 * acc + (byte_of c - 48)) (string_chars s) 0 in
    if n <? 2 ^ bits then Some n else None
  else None.

Definition has_control (s : string) : bool :=
  contains_char "000" s || contains_char "013" s || contains_char "010" s.

Definition option_bits (t : string) : option Z :=
  if t =?s "u8" then Some 8 else if t =?s "u16" then Some 16 else if t =?s "u32" then Some 32 else None.

Definition validate_option (o : DHCPOption) : result string unit :=
  let name := "option " +++ pretty (Code o) in
  fail_if ((Code o <? 1) || (254 <? Code o) || existsb (Z.eqb (Code o)) reservedOptionCodes)
    (name +++ " is reserved or out of range");;
  fail_if (match Value o with [] => true | _ => (16 <? length (Value o))%nat end) (name +++ " needs 1..16 values");;
  if Type_ o =?s "ips" then
    for_each (fun v => check (match ParseAddr v with Some a => Is4 a | None => false end)
                         (name +++ ": " +++ quote v +++ " is not an IPv4 address")) (Value o)
  else if Type_ o =?s "text" then
    check (match Value o with
           | [v] => negb (is_empty v) && (String.length v <=? 255)%nat && negb (has_control v)
           | _ => false
           end) (name +++ ": text must be one string of 1..255 printable characters")
  else match option_bits (Type_ o) with
       | Some bits =>
         check (match Value o with [v] => bool_decide (is_Some (ParseUint v bits)) | _ => false end)
           (name +++ ": " +++ Type_ o +++ " needs one number that fits")
       | None => Err (name +++ ": unknown type " +++ quote (Type_ o))
       end.

(** DHCPOption.wire: the bytes of a validated option. *)
Definition wire (o : DHCPOption) : list Z :=
  if Type_ o =?s "ips" then
    flat_map (fun v => match ParseAddr v with
                       | Some a => map (octet (addr_num a)) [3; 2; 1; 0]
                       | None => []
                       end) (Value o)
  else if Type_ o =?s "text" then map byte_of (string_chars (hd EmptyString (Value o)))
  else match option_bits (Type_ o) with
       | Some bits => let n := default 0 (ParseUint (hd EmptyString (Value o)) bits) in
                      map (octet n) (rev (map Z.of_nat (seq 0 (Z.to_nat (bits / 8)))))
       | None => []
       end.

(** * Config.Validate *)

(** The maps devices, nodes and names. *)
Record seen_devices := mkSeen { devices : gset string; node_ids : gset string; names : gset string }.

Definition add_alias (names : gset string) (alias : string) : result string (gset string) :=
  fail_if (negb (labelPattern alias) || (alias =?s "ns") || bool_decide (alias ∈ names))
    ("invalid/duplicate DNS alias " +++ quote alias);;
  Ok ({[alias]} ∪ names).

Definition add_node (d : DeviceConfig) (nodes : gset string) (id : string) : result string (gset string) :=
  if is_empty id then Ok nodes
  else fail_if (bool_decide (id ∈ nodes)) ("duplicate tailnet node " +++ quote (dNodeID d));;
       Ok ({[id]} ∪ nodes).

Definition validate_device (st : seen_devices) (d : DeviceConfig) : result string seen_devices :=
  fail_if (negb (labelPattern (dID d)) || negb (labelPattern (dName d)) || (dName d =?s "ns")
           || bool_decide (dID d ∈ devices st) || bool_decide (dName d ∈ names st))
    ("invalid/duplicate device ID or name " +++ quote (dID d));;
  names' ← fold_m add_alias ({[dName d]} ∪ names st) (Aliases d);
  nodes' ← fold_m (add_node d) (node_ids st) (NodeIDs d ++ [dNodeID d]);
  Ok (mkSeen ({[dID d]} ∪ devices st) nodes' names').

Definition validate_tftp (t : option TFTPConfig) : result string unit :=
  match t with
  | None => Ok tt
  | Some t =>
    for_each (fun i => check (interfacePattern i) ("tftp: bad interface " +++ quote i)) (tInterfaces t);;
    fail_if (negb (IsAbs (Root t)) || negb (Clean (Root t) =?s Root t) || (4096 <? String.length (Root t))%nat
             || (Root t =?s "/")) "tftp root must be an absolute, clean directory other than /"
  end.

(** The host addresses of a scope's subnet. *)
Definition valid_host (p : Prefix) (v : string) : bool :=
  match ParseAddr v with
  | Some a => Contains p a && negb (bool_decide (a = PAddr p)) && (negb (Is4 a) || negb (bool_decide (a = lastAddr p)))
  | None => false
  end.

(** The loop that counts a pool: at most [fuel] addresses up to [end_]. *)
Fixpoint pool_fits (fuel : nat) (a : option Addr) (end_ : Addr) : bool :=
  if (match a with Some x => addr_leb x end_ | None => true end) then
    match fuel with
    | O => false
    | S fuel' => pool_fits fuel' (a ≫= Next) end_
    end
  else true.

Definition must_addr (v : string) : Addr := default (Addr4 0) (ParseAddr v).

Definition unicast4_text (v : string) : bool :=
  match ParseAddr v with Some a => Is4 a && negb (IsUnspecified a) && negb (IsMulticast a) | None => false end.

Record seen_scopes := mkSeenScopes {
  ids : gset string; selectors : gset string; zones : list string;
  prefixes : list Prefix; pdPools : list (Prefix * string);
}.

Definition check_subnet (s : Scope) : result string Prefix :=
  match ParsePrefix (Subnet s) with
  | None => Err ("scope " +++ sID s +++ " requires a canonical subnet with host addresses")
  | Some p =>
    fail_if (negb (bool_decide (p = Masked p)) || Is4In6 (PAddr p) || IsMulticast (PAddr p)
             || (Is4 (PAddr p) && (30 <? PBits p)) || (Is6 (PAddr p) && (126 <? PBits p)))
      ("scope " +++ sID s +++ " requires a canonical subnet with host addresses");;
    Ok p
  end.

Definition check_server (s : Scope) (p : Prefix) : result string Addr :=
  match ParseAddr (sServer s) with
  | None => Err ("invalid server address in " +++ sID s)
  | Some a =>
    fail_if (IsUnspecified a || IsMulticast a || negb (Bool.eqb (Is4 a) (Is4 (PAddr p))) || negb (is_empty (AddrZone a)))
      ("invalid server address in " +++ sID s);;
    Ok a
  end.

(** The selector by which requests find the scope. *)
Definition check_selector (s : Scope) (p : Prefix) (server : Addr) : result string string :=
  match Relay s with
  | Some r =>
    match ParseAddr (rPeer r), ParseAddr (Link r) with
    | Some peer, Some link =>
      fail_if (IsUnspecified peer || IsMulticast peer || negb (Bool.eqb (Is4 peer) (Is4 server))
               || negb (Contains p link) || IsUnspecified link) ("invalid relay peer/link in " +++ sID s);;
      Ok (socketKey s +++ "/" +++ AddrString peer +++ "/" +++ AddrString link)
    | _, _ => Err ("invalid relay peer/link in " +++ sID s)
    end
  | None =>
    check (valid_host p (sServer s)) ("server must be on direct scope " +++ sID s);;
    Ok (socketKey s +++ "/direct")
  end.

Definition check_pool (s : Scope) (p : Prefix) : result string unit :=
  fail_if (negb (valid_host p (sStart s)) || negb (valid_host p (sEnd s))
           || (negb (scope_is6 s) && negb (valid_host p (Router s)))
           || negb (addr_leb (must_addr (sStart s)) (must_addr (sEnd s))))
    ("invalid addresses in scope " +++ sID s);;
  check (pool_fits (Z.to_nat 65536) (Some (must_addr (sStart s))) (must_addr (sEnd s)))
    "pool limited to 65536 addresses".

Definition check_times (s : Scope) (p : Prefix) : result string unit :=
  fail_if ((LeaseSeconds s <? 60) || (604800 <? LeaseSeconds s)) "lease_seconds must be 60..604800";;
  fail_if (scope_is6 s && ((PreferredSeconds s <? 1) || (LeaseSeconds s <? PreferredSeconds s)))
    "preferred_seconds must be positive and <= lease_seconds";;
  fail_if (negb (scope_is6 s) && (negb (PreferredSeconds s =? 0) || bool_decide (is_Some (RA s))))
    "IPv6 settings on IPv4 scope";;
  match RA s with
  | None => Ok tt
  | Some ra =>
    fail_if (bool_decide (is_Some (Relay s)) || negb (PBits p =? 64) || (Interval ra <? 4) || (600 <? Interval ra)
             || (RouterLifetime ra <? 0) || (9000 <? RouterLifetime ra)
             || ((0 <? RouterLifetime ra) && (RouterLifetime ra <? Interval ra * 3)))
      "RA needs a direct /64, interval 4..600 and router_lifetime 0 or 3*interval..9000"
  end.

Definition add_option (s : Scope) (seen : list Z) (o : DHCPOption) : result string (list Z) :=
  (match validate_option o with Ok _ => Ok tt | Err e => Err ("scope " +++ sID s +++ ": " +++ e) end);;
  fail_if (existsb (Z.eqb (Code o)) seen) ("scope " +++ sID s +++ ": option " +++ pretty (Code o) +++ " given twice");;
  Ok (Code o :: seen).

Definition check_options (s : Scope) : result string unit :=
  match DNSServers s, Options s with
  | [], [] => Ok tt
  | _, _ =>
    fail_if (scope_is6 s) ("scope " +++ sID s +++ ": DNS servers and options are IPv4 settings");;
    fail_if ((8 <? length (DNSServers s))%nat || (32 <? length (Options s))%nat)
      ("scope " +++ sID s +++ ": too many DNS servers or options");;
    for_each (fun d => check (unicast4_text d) ("scope " +++ sID s +++ ": dns_servers must be unicast IPv4 addresses"))
      (DNSServers s);;
    _ ← fold_m (add_option s) [] (Options s);
    Ok tt
  end.

(** [earlier] are the subnets of the scopes before this one, [p] its own. *)
Definition check_pd (s : Scope) (p : Prefix) (earlier : list Prefix) (pools : list (Prefix * string)) :
    result string (list (Prefix * string)) :=
  match PD s with
  | None => Ok pools
  | Some pd =>
    let name := "scope " +++ sID s in
    check (scope_is6 s) (name +++ ": prefix delegation needs an IPv6 scope");;
    match ParsePrefix (pdPrefix pd) with
    | None => Err (name +++ ": pd prefix must be a canonical IPv6 prefix")
    | Some pool =>
      fail_if (negb (bool_decide (pool = Masked pool)) || Is4 (PAddr pool) || Is4In6 (PAddr pool))
        (name +++ ": pd prefix must be a canonical IPv6 prefix");;
      fail_if ((Length pd <=? PBits pool) || (64 <? Length pd) || (16 <? Length pd - PBits pool) || (Length pd <? 32))
        (name +++ ": pd length must be 32..64, longer than the pool prefix, at most 16 bits deeper (65536 delegations)");;
      fail_if (Overlaps pool p) (name +++ ": the pd pool overlaps the scope's own subnet");;
      fail_if (existsb (Overlaps pool) earlier) (name +++ ": the pd pool overlaps another scope");;
      for_each (fun pr => fail_if (Overlaps pool (fst pr)) (name +++ ": the pd pool overlaps scope " +++ snd pr +++ "'s pool"))
        pools;;
      Ok (pools ++ [(pool, sID s)])
    end
  end.

Definition check_boot (s : Scope) : result string unit :=
  match Boot s with
  | None => Ok tt
  | Some b =>
    fail_if (scope_is6 s) ("network boot is IPv4 only (scope " +++ sID s +++ ")");;
    fail_if (is_empty (File b) || (128 <? String.length (File b))%nat || has_control (File b))
      ("scope " +++ sID s +++ ": boot file must be 1..128 printable characters");;
    fail_if (negb (is_empty (NextServer b)) && negb (unicast4_text (NextServer b)))
      ("scope " +++ sID s +++ ": next_server must be a unicast IPv4 address")
  end.

Definition add_reservation (devs : gset string) (s : Scope) (p : Prefix) (st : gset string * gset string) (r : Reservation) :
    result string (gset string * gset string) :=
  let '(clients, addresses) := st in
  fail_if (negb (validClient (rClient r)) || negb (valid_host p (rAddress r)) || (rAddress r =?s sServer s)
           || (rAddress r =?s Router s) || negb (bool_decide (rDevice r ∈ devs))
           || bool_decide (rClient r ∈ clients) || bool_decide (rAddress r ∈ addresses))
    ("invalid/duplicate reservation in " +++ sID s);;
  check (Bool.eqb (scope_is6 s) (has_prefix (rClient r) "duid:")) "reservation client family does not match scope";;
  Ok ({[rClient r]} ∪ clients, {[rAddress r]} ∪ addresses).

Definition validate_scope (devs : gset string) (st : seen_scopes) (s : Scope) : result string seen_scopes :=
  fail_if (negb (labelPattern (sID s)) || bool_decide (sID s ∈ ids st) || negb (interfacePattern (Interface s)))
    ("invalid/duplicate scope or interface " +++ quote (sID s));;
  p ← check_subnet s;
  fail_if (existsb (Overlaps p) (prefixes st)) "overlapping scopes on one authority are not supported";;
  server ← check_server s p;
  selector ← check_selector s p server;
  fail_if (bool_decide (selector ∈ selectors st)) ("ambiguous scope selector " +++ selector);;
  check_pool s p;;
  check_times s p;;
  check_options s;;
  pools ← check_pd s p (prefixes st) (pdPools st);
  check_boot s;;
  check (validZone (Zone s)) ("scope " +++ sID s +++ " needs a local DNS zone (not .local or .ts.net)");;
  for_each (fun z => fail_if (has_suffix z ("." +++ Zone s) || has_suffix (Zone s) ("." +++ z))
                       "nested authoritative zones are not supported") (zones st);;
  _ ← fold_m (add_reservation devs s p) (∅, ∅) (Reservations s);
  Ok (mkSeenScopes ({[sID s]} ∪ ids st) ({[selector]} ∪ selectors st) (Zone s :: zones st)
        (prefixes st ++ [p]) pools).

Definition Validate (c : Config) : result string unit :=
  seen ← fold_m validate_device (mkSeen ∅ ∅ ∅) (Devices c);
  validate_tftp (TFTP c);;
  _ ← fold_m (validate_scope (devices seen)) (mkSeenScopes ∅ ∅ [] [] []) (Scopes c);
  Ok tt.
