(* ===== verification/KeyText.v ===== *)
(** The texts that become parts of ledger keys: labels, clients, hardware and network
    addresses.  None of them can hold the separators the keys are built with. *)

From S2P Require Import Prelude Json NetAddr Ledger LedgerInv Config.
From Stdlib Require Import Ascii.
Local Open Scope Z_scope.

(** A text of characters that satisfy [p], when [p] excludes the separator [c]. *)
Lemma forallb_no_char c p l :
  p c = false -> forallb p l = true -> existsb (Ascii.eqb c) l = false.
Proof.
  intros Hc. induction l as [|x l IH]; simpl; [done|]. intros [Hx Hl]%andb_prop. rewrite IH by done.
  destruct (Ascii.eqb_spec c x) as [->|]; [congruence|done].
Qed.

Lemma text_no_nul p s : p "000"%char = false -> str_forallb p s = true -> no_nul s = true.
Proof. intros Hp Hs. unfold no_nul, contains_char. by rewrite (forallb_no_char _ p). Qed.
Lemma text_no_slash p s : p "/"%char = false -> str_forallb p s = true -> no_slash s = true.
Proof. intros Hp Hs. unfold no_slash, contains_char. by rewrite (forallb_no_char _ p). Qed.

Lemma label_chars s : labelPattern s = true -> str_forallb label_char s = true /\ is_empty s = false.
Proof.
  unfold labelPattern, str_forallb. destruct s as [|c s]; [done|]. cbn [string_chars].
  intros [[_ H]%andb_prop _]%andb_prop. done.
Qed.

Lemma label_key s : labelPattern s = true -> is_empty s = false /\ no_slash s = true /\ no_nul s = true.
Proof.
  intros [H Hn]%label_chars. split_and!; [done|by apply (text_no_slash label_char)|by apply (text_no_nul label_char)].
Qed.

Lemma chars_app a b : string_chars (a +++ b) = string_chars a ++ string_chars b.
Proof. induction a as [|c a IH]; simpl; [done|]. by rewrite IH. Qed.

Lemma str_forallb_app p a b : str_forallb p (a +++ b) = str_forallb p a && str_forallb p b.
Proof. unfold str_forallb. by rewrite chars_app, forallb_app. Qed.

Lemma no_nul_app a b : no_nul (a +++ b) = no_nul a && no_nul b.
Proof. unfold no_nul, contains_char. rewrite chars_app, existsb_app. by destruct (existsb _ _). Qed.

Lemma no_nul_cons c s : no_nul (String c s) = negb (Ascii.eqb "000" c) && no_nul s.
Proof. unfold no_nul. rewrite contains_cons. by destruct (Ascii.eqb _ _). Qed.

(** * Hardware addresses *)

Definition mac_char (c : ascii) : bool := is_alnum c || Ascii.eqb c ":".

Lemma hex_char_alnum d : 0 <= d < 16 -> is_alnum (hex_char d) = true.
Proof.
  intros Hd. assert (Hin : In d (map Z.of_nat (seq 0 16))).
  { apply in_map_iff. exists (Z.to_nat d). split; [lia|]. apply in_seq. lia. }
  simpl in Hin. repeat destruct Hin as [<-|Hin]; [reflexivity..|done].
Qed.

Lemma hex_val_range c d : hex_val c = Some d -> 0 <= d < 16.
Proof.
  unfold hex_val, is_digit, in_range. repeat case_match; intros [= <-]; bool_hyps; lia.
Qed.

Lemma mac_byte_range sep l x rest : mac_byte sep l = Some (x, rest) -> 0 <= x < 256.
Proof.
  destruct l as [|a [|b l]]; [done..|]. simpl. destruct (hex_val a) as [u|] eqn:Ea; [|done].
  destruct (hex_val b) as [v|] eqn:Eb; [|done]. apply hex_val_range in Ea, Eb. simpl.
  repeat case_match; intros [= <- _]; lia.
Qed.

Lemma mac_pairs_range n sep l xs : mac_pairs n sep l = Some xs -> Forall (fun x => 0 <= x < 256) xs.
Proof.
  revert l xs. induction n as [|n IH]; intros l xs; simpl; [by destruct l; intros [= <-]|].
  destruct (mac_byte _ l) as [[x rest]|] eqn:E; [|done]. simpl. destruct (mac_pairs n sep rest) eqn:Er; [|done].
  intros [= <-]. constructor; [by eapply mac_byte_range|by eapply IH].
Qed.

Lemma mac_quads_range n l xs : mac_quads n l = Some xs -> Forall (fun x => 0 <= x < 256) xs.
Proof.
  revert l xs. induction n as [|n IH]; intros l xs; simpl; [by destruct l; intros [= <-]|].
  destruct (mac_byte None l) as [[x rest]|] eqn:E; [|done]. simpl.
  destruct (mac_byte _ rest) as [[y rest']|] eqn:E'; [|done]. simpl. destruct (mac_quads n rest') eqn:Er; [|done].
  intros [= <-]. constructor; [by eapply mac_byte_range|]. constructor; [by eapply mac_byte_range|by eapply IH].
Qed.

Lemma ParseMAC_range s hw : ParseMAC s = Some hw -> Forall (fun x => 0 <= x < 256) hw.
Proof.
  unfold ParseMAC. repeat case_match; try done; first [apply mac_pairs_range | apply mac_quads_range].
Qed.

Lemma hex2_chars x : 0 <= x < 256 -> str_forallb mac_char (hex2 x) = true.
Proof.
  intros Hx. unfold hex2, str_forallb, mac_char. simpl.
  rewrite !hex_char_alnum; [done| |]; [apply Z.mod_pos_bound; lia|]. split; [apply Z.div_pos; lia|].
  apply Z.div_lt_upper_bound; lia.
Qed.

Lemma MACString_no_nul hw : Forall (fun x => 0 <= x < 256) hw -> no_nul (MACString hw) = true.
Proof.
  intros H. apply (text_no_nul mac_char); [done|]. unfold MACString. induction H as [|x hw Hx _ IH]; [done|].
  destruct hw as [|y hw]; [by apply hex2_chars|]. cbn [map join] in *. rewrite !str_forallb_app, hex2_chars, IH by done.
  done.
Qed.

(** * Client identifiers *)

Lemma split_str_join fuel sep s acc : join sep (split_str fuel sep s acc) = acc +++ s.
Proof.
  revert s acc. induction fuel as [|fuel IH]; intros s acc; [done|]. cbn [split_str].
  destruct (strip_prefix sep s) as [rest|] eqn:E.
  - apply strip_prefix_Some in E as ->. pose proof (IH rest EmptyString) as H.
    destruct (split_str fuel sep rest EmptyString) as [|x xs] eqn:Es.
    + destruct fuel as [|fuel]; [done|]. cbn [split_str] in Es.
      by destruct (strip_prefix sep rest), rest; try done; destruct fuel; simpl in Es; repeat case_match.
    + change (acc +++ sep +++ join sep (x :: xs) = acc +++ sep +++ rest). by rewrite H.
  - destruct s as [|c s]; [simpl; by rewrite append_empty_r|]. rewrite IH, append_assoc. done.
Qed.

Lemma trim_prefix_eq s p : has_prefix s p = true -> s = p +++ trim_prefix s p.
Proof.
  unfold has_prefix, trim_prefix. destruct (strip_prefix p s) as [r|] eqn:E; [|done].
  by apply strip_prefix_Some in E.
Qed.

Lemma validClient_no_nul s : validClient s = true -> no_nul s = true.
Proof.
  unfold validClient. destruct (has_prefix s "duid:") eqn:Ed.
  { apply trim_prefix_eq in Ed. set (v := trim_prefix s "duid:") in *.
    destruct (Split v "/iaid:") as [|d [|i [|]]] eqn:Es; try done. intros H. unfold hex_decodes in H. bool_hyps.
    pose proof (split_str_join (S (String.length v)) "/iaid:" v EmptyString) as Hj. unfold Split in Es.
    rewrite Es in Hj. change (d +++ "/iaid:" +++ i = v) in Hj. rewrite Ed, no_nul_app, <-Hj, !no_nul_app.
    rewrite (text_no_nul is_hex d), (text_no_nul is_hex i) by done. done. }
  destruct (has_prefix s "mac:") eqn:Em.
  { destruct (ParseMAC _) as [hw|] eqn:Ehw; [|done]. intros [_ <-%String.eqb_eq]%andb_prop.
    rewrite no_nul_app, MACString_no_nul by (by eapply ParseMAC_range). done. }
  destruct (has_prefix s "id:") eqn:Ei; [|done]. intros H. bool_hyps. apply trim_prefix_eq in Ei.
  rewrite Ei, no_nul_app, (text_no_nul hex_lower_char (trim_prefix s "id:")) by done. done.
Qed.

(** * Network addresses *)

Definition addr_char (c : ascii) : bool := is_hex c || Ascii.eqb c "." || Ascii.eqb c ":".

Lemma is_digit_hex c : is_digit c = true -> is_hex c = true.
Proof. intros H. unfold is_hex, hex_val. by rewrite H. Qed.

Lemma parse_octets_chars acc v n p l o :
  parse_octets acc v n p l = Some o -> forallb addr_char l = true.
Proof.
  revert acc v n p. induction l as [|c l IH]; intros acc v n p; [done|]. cbn [parse_octets forallb]. unfold addr_char at 1.
  destruct (is_digit c) eqn:Ec.
  - rewrite is_digit_hex by done. repeat case_match; try done; apply IH.
  - destruct (Ascii.eqb c "."); [|done]. rewrite orb_true_r. repeat case_match; try done; apply IH.
Qed.

Lemma hex_group_chars acc off l v n rest :
  hex_group acc off l = Some (v, n, rest) -> exists pre, l = pre ++ rest /\ forallb addr_char pre = true.
Proof.
  revert acc off. induction l as [|c l IH]; intros acc off; cbn [hex_group]; [intros [= _ _ <-]; by exists []|].
  destruct (hex_val c) as [d|] eqn:Ec; [|intros [= _ _ <-]; by exists []]. case_match; [done|].
  intros (pre & -> & Hp)%IH. exists (c :: pre). split; [done|]. cbn [forallb].
  unfold addr_char at 1, is_hex. by rewrite Ec, Hp.
Qed.

Lemma v6_loop_chars fuel bytes ell l b e :
  v6_loop fuel bytes ell l = Some (b, e, []) -> forallb addr_char l = true.
Proof.
  revert bytes ell l. induction fuel as [|fuel IH]; intros bytes ell l; cbn [v6_loop]; [by intros [= _ _ ->]|].
  case_match; [by intros [= _ _ ->]|]. destruct (hex_group 0 0 l) as [[[acc n] rest]|] eqn:Eg; [|done].
  apply hex_group_chars in Eg as (pre & El & Hp). destruct n; [done|]. rewrite El, forallb_app, Hp.
  destruct rest as [|c rest]; [done|]. destruct (Ascii.eqb_spec c ".") as [->|_].
  { destruct (parse_octets [] 0 0 true (pre ++ "."%char :: rest)) eqn:Eo; [|by repeat case_match].
    apply parse_octets_chars in Eo. rewrite forallb_app in Eo. by apply andb_prop in Eo as [_ ?]. }
  destruct (Ascii.eqb_spec c ":") as [->|]; [|done]. destruct rest as [|c' rest]; [done|].
  destruct (Ascii.eqb_spec c' ":") as [->|]; [|by intros H'%IH]. destruct ell; [done|].
  destruct rest as [|c'' rest]; [done|]. by intros H'%IH.
Qed.

Lemma v6_finish_inv zone r a : v6_finish zone r = Some a -> exists b e, r = Some (b, e, []) /\ AddrZone a = zone.
Proof.
  destruct r as [[[b e] rest]|]; [|done]. cbn. intros H. exists b, e. by repeat case_match; simplify_eq/=.
Qed.

Lemma v6_finish_chars zone fuel bytes ell l a :
  v6_finish zone (v6_loop fuel bytes ell l) = Some a -> forallb addr_char l = true.
Proof. intros (b & e & H & _)%v6_finish_inv. by apply v6_loop_chars in H. Qed.

Lemma cut_zone_none l a : cut_zone l = (a, None) -> a = l.
Proof.
  revert a. induction l as [|c l IH]; intros a; cbn [cut_zone]; [by intros [= <-]|].
  case_match; [done|]. destruct (cut_zone l) as [x z] eqn:Ez. intros [= <- ->]. f_equal. by apply IH.
Qed.

Lemma parseIPv6_chars s a : parseIPv6 s = Some a -> AddrZone a = EmptyString -> str_forallb addr_char s = true.
Proof.
  unfold parseIPv6, str_forallb. destruct (cut_zone (string_chars s)) as [l [[|z zl]|]] eqn:Ez; [done| |].
  - assert (Hz : forall x, v6_finish (string_of_chars (z :: zl)) x = Some a -> AddrZone a = EmptyString -> False).
    { intros x (b & e & _ & ->)%v6_finish_inv. done. }
    repeat case_match; intros Hr E; try (by apply Hz in Hr); by injection Hr as <-.
  - apply cut_zone_none in Ez as <-.
    repeat case_match; intros Hr _; try apply v6_finish_chars in Hr; done.
Qed.

Lemma ParseAddr_chars s a : ParseAddr s = Some a -> AddrZone a = EmptyString -> str_forallb addr_char s = true.
Proof.
  unfold ParseAddr. intros H Hz.
  assert (parseIPv4 s = Some a \/ parseIPv6 s = Some a) as [H4|H6].
  { repeat case_match; simplify_eq/=; auto. }
  - unfold parseIPv4 in H4. destruct (parse_octets _ _ _ _ _) eqn:E; [|done]. by apply parse_octets_chars in E.
  - by apply parseIPv6_chars in H6.
Qed.

Definition printed_char (c : ascii) : bool := is_alnum c || Ascii.eqb c "." || Ascii.eqb c ":".

Lemma chars_of_chars l : string_chars (string_of_chars l) = l.
Proof. induction l as [|c l IH]; simpl; [done|]. by rewrite IH. Qed.

Lemma printed_hex d : printed_char (hex_char (d mod 16)) = true.
Proof. unfold printed_char. rewrite hex_char_alnum; [done|]. apply Z.mod_pos_bound. lia. Qed.

Lemma hex_string_chars n : str_forallb printed_char (hex_string n) = true.
Proof.
  unfold hex_string, str_forallb. rewrite chars_of_chars.
  destruct (4096 <=? n), (256 <=? n), (16 <=? n); cbn [map app forallb]; by rewrite !printed_hex.
Qed.

Lemma octet_text n i : str_forallb printed_char (pretty (octet n i)) = true.
Proof.
  assert (H : forallb (fun k => str_forallb printed_char (pretty (Z.of_nat k))) (seq 0 256) = true) by by vm_compute.
  rewrite forallb_forall in H. specialize (H (Z.to_nat (octet n i))).
  assert (0 <= octet n i < 256) by (apply Z.mod_pos_bound; lia). rewrite Z2Nat.id in H by lia. apply H, in_seq. lia.
Qed.

Lemma AddrString4_chars n : str_forallb printed_char (AddrString4 n) = true.
Proof. unfold AddrString4. by rewrite !str_forallb_app, !octet_text. Qed.

Lemma print_groups_chars fuel gs run i : str_forallb printed_char (print_groups fuel gs run i) = true.
Proof.
  revert i. induction fuel as [|fuel IH]; intros i; [done|]. cbn [print_groups].
  repeat case_match; rewrite ?str_forallb_app, ?hex_string_chars, ?IH; done.
Qed.

Lemma ParseAddr_no_nul s a : ParseAddr s = Some a -> AddrZone a = EmptyString -> no_nul s = true.
Proof. intros H Hz. apply (text_no_nul addr_char); [done|]. by eapply ParseAddr_chars. Qed.

Definition not_percent (c : ascii) : bool := negb (Ascii.eqb c "%").

Lemma cut_zone_plain l : forallb not_percent l = true -> cut_zone l = (l, None).
Proof.
  induction l as [|c l IH]; [done|]. cbn [forallb cut_zone]. intros [Hc Hl]%andb_prop. rewrite IH by done.
  by destruct (Ascii.eqb_spec c "%") as [->|].
Qed.

(** A text without a percent sign parses, if at all, to an address without a zone. *)
Lemma percent_zone s a : str_forallb not_percent s = true -> ParseAddr s = Some a -> AddrZone a = EmptyString.
Proof.
  intros Hs. unfold ParseAddr.
  assert (H6 : parseIPv6 s = Some a -> AddrZone a = EmptyString).
  { unfold parseIPv6. rewrite cut_zone_plain by done.
    repeat case_match; try (by intros [= <-]); by intros (? & ? & _ & ->)%v6_finish_inv. }
  assert (H4 : parseIPv4 s = Some a -> AddrZone a = EmptyString).
  { unfold parseIPv4. destruct (parse_octets _ _ _ _ _); [|done]. by intros [= <-]. }
  intros H. repeat case_match; simplify_eq/=; auto.
Qed.

Lemma str_forallb_weaken (p q : ascii -> bool) s :
  (forall c, p c = true -> q c = true) -> str_forallb p s = true -> str_forallb q s = true.
Proof. unfold str_forallb. rewrite !forallb_forall. auto. Qed.

Lemma printed_not_percent c : printed_char c = true -> not_percent c = true.
Proof. unfold not_percent. by destruct (Ascii.eqb_spec c "%") as [->|]. Qed.

Lemma AddrString_chars a : AddrZone a = EmptyString -> str_forallb printed_char (AddrString a) = true.
Proof.
  intros Hz. destruct a as [n|n z]; [apply AddrString4_chars|].
  cbn in Hz. subst z. unfold AddrString, AddrString6. rewrite str_forallb_app.
  case_match; [by rewrite str_forallb_app, AddrString4_chars|]. by rewrite print_groups_chars.
Qed.

(** Prefix texts: printed addresses with a number of bits. *)
Lemma bits_text n : 0 <= n <= 128 -> str_forallb printed_char (pretty n) = true.
Proof.
  intros Hn. assert (H : forallb (fun k => str_forallb printed_char (pretty (Z.of_nat k))) (seq 0 129) = true) by by vm_compute.
  rewrite forallb_forall in H. specialize (H (Z.to_nat n)). rewrite Z2Nat.id in H by lia. apply H, in_seq. lia.
Qed.

Definition prefix_char (c : ascii) : bool := printed_char c || Ascii.eqb c "/".

Lemma PrefixString_chars p : AddrZone (PAddr p) = EmptyString -> 0 <= PBits p <= 128 ->
  str_forallb prefix_char (PrefixString p) = true.
Proof.
  intros Hz Hb. unfold PrefixString. rewrite !str_forallb_app.
  assert (Hw : forall x, str_forallb printed_char x = true -> str_forallb prefix_char x = true).
  { intros x. apply str_forallb_weaken. unfold prefix_char. by intros c ->. }
  rewrite (Hw (AddrString _)), (Hw (pretty _)); [done|by apply bits_text|by apply AddrString_chars].
Qed.
