(* ===== verification/ConfigInv.v ===== *)
(** What an accepted DHCP configuration guarantees: scopes with distinct identifiers and
    disjoint subnets, pools inside their subnets and small enough to walk, reservations that
    are host addresses of their scope and belong to known devices. *)

From S2P Require Import Prelude Json NetAddr Ledger LedgerInv Config KeyText.
From Stdlib Require Import Ascii.
Local Open Scope Z_scope.

(** * Prefixes *)

Lemma ParsePrefix_bits s p : ParsePrefix s = Some p -> 0 <= PBits p <= BitLen (PAddr p) /\ AddrZone (PAddr p) = EmptyString.
Proof.
  unfold ParsePrefix. destruct (cut_last _ _) as [[ip bits]|]; [|done]. cbn.
  destruct (ParseAddr _) as [a|]; [|done]. cbn. destruct (is_empty (AddrZone a)) eqn:Ez; [|done]. cbn.
  destruct bits as [|c rest]; [done|]. case_match; [done|].
  assert (Hd : forall l acc n, 0 <= acc -> decimal_of acc l = Some n -> 0 <= n).
  { clear. intros l. induction l as [|c l IH]; intros acc n Ha; cbn [decimal_of]; [by intros [= <-]|].
    destruct (is_digit c) eqn:Ec; [|done]. apply IH. unfold is_digit, in_range in Ec. bool_hyps. unfold digit_val. lia. }
  destruct (decimal_of 0 (c :: rest)) as [n|] eqn:En; [|done]. cbn. destruct (Z.ltb_spec (BitLen a) n); [done|].
  intros [= <-]. cbn. apply Hd in En; [|lia]. split; [lia|]. by apply is_empty_spec.
Qed.

Lemma shiftr_coarser n m i j : 0 <= i -> i <= j -> Z.shiftr n i = Z.shiftr m i -> Z.shiftr n j = Z.shiftr m j.
Proof. intros Hi Hj E. replace j with (i + (j - i)) by lia. rewrite <-!Z.shiftr_shiftr, E by lia. done. Qed.

Lemma BitLen_eq a b : Is4 a = Is4 b -> BitLen a = BitLen b.
Proof. unfold BitLen. by intros ->. Qed.

(** Subnets with a common address overlap. *)
Lemma common_overlaps p q a :
  PBits p <= BitLen (PAddr p) -> PBits q <= BitLen (PAddr q) ->
  Contains p a = true -> Contains q a = true -> Overlaps p q = true.
Proof.
  unfold Contains, Overlaps. intros Hp Hq H1 H2. bool_hyps.
  repeat match goal with H : Bool.eqb _ _ = true |- _ => apply eqb_prop in H end.
  assert (E : Is4 (PAddr p) = Is4 (PAddr q)) by congruence.
  assert (Ep : BitLen (PAddr p) = BitLen a) by (apply BitLen_eq; congruence).
  assert (Eq : BitLen (PAddr q) = BitLen a) by (apply BitLen_eq; congruence).
  rewrite E, eqb_reflx. cbn. apply Z.eqb_eq. rewrite Ep in *. rewrite Eq in *.
  transitivity (Z.shiftr (addr_num a) (BitLen a - Z.min (PBits p) (PBits q))).
  - symmetry. apply (shiftr_coarser _ _ (BitLen a - PBits p)); [lia..|done].
  - apply (shiftr_coarser _ _ (BitLen a - PBits q)); [lia..|done].
Qed.

(** Between two addresses of a subnet there are only addresses of the subnet. *)
Lemma Contains_between p a x b :
  PBits p <= BitLen (PAddr p) -> Contains p a = true -> Contains p b = true -> AddrZone x = EmptyString ->
  addr_leb a x = true -> addr_leb x b = true -> Contains p x = true.
Proof.
  unfold Contains, addr_leb. intros Hp Ha Hb Hz H1 H2. bool_hyps.
  repeat match goal with H : Bool.eqb _ _ = true |- _ => apply eqb_prop in H end.
  assert (Hn : Is4 a = Is4 x /\ addr_num a <= addr_num x <= addr_num b /\ Is4 x = Is4 b).
  { revert H1 H2. destruct a as [n|n z], x as [m|m y], b as [k|k w]; cbn in *; try congruence;
      destruct (Z.compare_spec n m), (Z.compare_spec m k); try done; intros _ _; subst; split_and!; try done; lia. }
  destruct Hn as (E1 & Hn & E2).
  rewrite Hz. assert (Is4 (PAddr p) = Is4 x) as -> by congruence. rewrite eqb_reflx. cbn. apply Z.eqb_eq.
  assert (BitLen a = BitLen x /\ BitLen b = BitLen x) as [E3 E4] by (split; apply BitLen_eq; congruence).
  assert (0 <= BitLen x - PBits p).
  { assert (BitLen (PAddr p) = BitLen x) by (apply BitLen_eq; congruence). lia. }
  rewrite E3, E4 in *. rewrite !Z.shiftr_div_pow2 in * by done.
  assert (0 < 2 ^ (BitLen x - PBits p)) by (apply Z.pow_pos_nonneg; lia).
  assert (addr_num a / 2 ^ (BitLen x - PBits p) <= addr_num x / 2 ^ (BitLen x - PBits p)) by (apply Z.div_le_mono; lia).
  assert (addr_num x / 2 ^ (BitLen x - PBits p) <= addr_num b / 2 ^ (BitLen x - PBits p)) by (apply Z.div_le_mono; lia).
  lia.
Qed.

(** * Accepted scopes *)

(** The addresses of a subnet lie between its own and, for IPv4, the last one. *)
Lemma Contains_bounds p a : p = Masked p -> 0 <= PBits p <= BitLen (PAddr p) -> Contains p a = true ->
  addr_num (PAddr p) <= addr_num a /\ (Is4 a = true -> addr_num a <= addr_num (lastAddr p)).
Proof.
  intros Hm Hb H. unfold Contains in H. bool_hyps. repeat match goal with H : Bool.eqb _ _ = true |- _ => apply eqb_prop in H end.
  assert (El : BitLen (PAddr p) = BitLen a) by (by apply BitLen_eq). rewrite El in Hb. set (k := BitLen a - PBits p) in *.
  assert (Hn : addr_num (PAddr p) = Z.shiftl (Z.shiftr (addr_num a) k) k).
  { apply (f_equal (fun p => addr_num (PAddr p))) in Hm. rewrite Hm. unfold Masked, mask_num. cbn [PAddr]. rewrite El. fold k.
    replace (Z.shiftr (addr_num a) k) with (Z.shiftr (addr_num (PAddr p)) k) by congruence. by destruct (PAddr p). }
  assert (Hk : 0 <= k) by lia. assert (Hpow : 0 < 2 ^ k) by (apply Z.pow_pos_nonneg; lia).
  rewrite Z.shiftl_mul_pow2, Z.shiftr_div_pow2 in Hn by done.
  pose proof (Z.div_mod (addr_num a) (2 ^ k) ltac:(lia)) as Hd. pose proof (Z.mod_pos_bound (addr_num a) (2 ^ k) Hpow) as Hr. split; [lia|].
  intros H4. unfold lastAddr. cbn [addr_num]. assert (Ek : k = 32 - PBits p) by (unfold k, BitLen; by rewrite H4).
  assert (Ef : Z.shiftr 4294967295 (PBits p) = Z.ones k).
  { change 4294967295 with (Z.ones 32). rewrite Ek. apply Z.bits_inj'. intros i Hi. rewrite Z.shiftr_spec by done.
    destruct (Z.ltb_spec i (32 - PBits p)); [rewrite !Z.ones_spec_low by lia; done|rewrite !Z.ones_spec_high by lia; done]. }
  rewrite Ef. assert (Hz : Z.land (addr_num (PAddr p)) (Z.ones k) = 0).
  { rewrite Z.land_ones, Hn by done. apply Z.mod_mul. lia. }
  rewrite <-(Z.add_nocarry_lor _ _ Hz), Z.ones_equiv. lia.
Qed.

(** An address between two hosts of a subnet is one. *)
Lemma host_between p u v ip a : p = Masked p -> 0 <= PBits p <= BitLen (PAddr p) -> valid_host p u = true -> valid_host p v = true ->
  ParseAddr ip = Some a -> AddrZone a = EmptyString -> addr_leb (must_addr u) a = true -> addr_leb a (must_addr v) = true -> valid_host p ip = true.
Proof.
  intros Hm Hb Hu Hv Ea Hz H1 H2. unfold valid_host, must_addr in *. rewrite Ea. destruct (ParseAddr u) as [x|]; [|done]. destruct (ParseAddr v) as [y|]; [|done].
  bool_hyps. assert (Hc : Contains p a = true) by (eapply (Contains_between p x a y); try done; lia). rewrite Hc.
  destruct (Contains_bounds p x Hm Hb) as [Bx _]; [done|]. destruct (Contains_bounds p y Hm Hb) as [_ By]; [done|].
  assert (Fx : Is4 x = Is4 a /\ Is4 y = Is4 a /\ addr_num x <= addr_num a <= addr_num y /\ AddrZone x = EmptyString /\ AddrZone y = EmptyString).
  { unfold Contains in *. bool_hyps. repeat match goal with H : Bool.eqb _ _ = true |- _ => apply eqb_prop in H | H : is_empty _ = true |- _ => apply is_empty_spec in H end.
    split_and!; try congruence; unfold addr_leb, Compare in H1, H2; destruct x as [n|n z], a as [m|m w], y as [k|k o]; cbn in *; try congruence;
      destruct (Z.compare_spec n m), (Z.compare_spec m k); done || lia. }
  destruct Fx as (F1 & F2 & F3 & Z1 & Z2). apply andb_true_iff. split.
  - apply negb_true_iff, bool_decide_eq_false. intros ->. match goal with H : bool_decide (x = _) = false |- _ => apply bool_decide_eq_false in H; apply H end.
    destruct x, (PAddr p); cbn in *; try done; f_equal; try congruence; lia.
  - destruct (Is4 a) eqn:E4; [|done]. cbn. apply negb_true_iff, bool_decide_eq_false. intros ->.
    match goal with H : (_ || negb (bool_decide (y = _)))%bool = true |- _ => rewrite F2 in H; cbn in H; apply negb_true_iff, bool_decide_eq_false in H; apply H end.
    unfold lastAddr in *. destruct y; cbn in *; [|done]. specialize (By eq_refl). f_equal. lia.
Qed.

Lemma valid_host_spec p v : valid_host p v = true -> exists a, ParseAddr v = Some a /\ Contains p a = true.
Proof. unfold valid_host. destruct (ParseAddr v) as [a|]; [|done]. intros H. bool_hyps. eauto. Qed.

Definition good_reservation (devs : gset string) (s : Scope) (p : Prefix) (r : Reservation) : Prop :=
  validClient (rClient r) = true /\ valid_host p (rAddress r) = true /\ rDevice r ∈ devs
  /\ rAddress r <> sServer s /\ rAddress r <> Router s
  /\ has_prefix (rClient r) "duid:" = scope_is6 s.

(** The pool of delegated prefixes: canonical IPv6, at most 65536 prefixes of 32 to 64 bits. *)
Definition good_pool (pd : PDConfig) : Prop :=
  exists pool, ParsePrefix (pdPrefix pd) = Some pool /\ pool = Masked pool /\ Is4 (PAddr pool) = false
  /\ 32 <= Length pd <= 64 /\ PBits pool < Length pd <= PBits pool + 16.

Lemma check_pd_ok s p earlier pools pools' pd :
  check_pd s p earlier pools = Ok pools' -> PD s = Some pd -> scope_is6 s = true /\ good_pool pd.
Proof.
  unfold check_pd. intros H E. rewrite E in H. apply seq_ok in H as [H6%check_ok H]. split; [done|].
  destruct (ParsePrefix (pdPrefix pd)) as [pool|] eqn:Ep; [|done]. apply seq_ok in H as [H1%fail_if_ok H].
  apply seq_ok in H as [H2%fail_if_ok _]. bool_hyps. exists pool. split; [done|].
  repeat match goal with H : bool_decide _ = true |- _ => apply bool_decide_eq_true in H end. split_and!; done || lia.
Qed.

Record good_scope (devs : gset string) (s : Scope) (p : Prefix) : Prop := {
  gs_id : labelPattern (sID s) = true;
  gs_prefix : ParsePrefix (Subnet s) = Some p;
  gs_masked : p = Masked p;
  gs_start : valid_host p (sStart s) = true;
  gs_end : valid_host p (sEnd s) = true;
  gs_order : addr_leb (must_addr (sStart s)) (must_addr (sEnd s)) = true;
  gs_fits : pool_fits (Z.to_nat 65536) (Some (must_addr (sStart s))) (must_addr (sEnd s)) = true;
  gs_lease : 60 <= LeaseSeconds s <= 604800;
  gs_reservations : Forall (good_reservation devs s p) (Reservations s);
  gs_pd pd : PD s = Some pd -> scope_is6 s = true /\ good_pool pd;
  gs_unique : NoDup (map rClient (Reservations s)) /\ NoDup (map rAddress (Reservations s));
}.

Lemma add_reservation_ok devs s p cs xs r st :
  add_reservation devs s p (cs, xs) r = Ok st ->
  good_reservation devs s p r /\ (rClient r ∉ cs) /\ (rAddress r ∉ xs)
  /\ st = (({[rClient r]} ∪ cs), ({[rAddress r]} ∪ xs)).
Proof.
  unfold add_reservation. intros H. apply seq_ok in H as [H1%fail_if_ok H]. apply seq_ok in H as [H2%check_ok [= <-]].
  bool_hyps. repeat match goal with H : bool_decide _ = _ |- _ => first [apply bool_decide_eq_true in H|apply bool_decide_eq_false in H] end.
  apply eqb_prop in H2. unfold good_reservation. done.
Qed.

Lemma fold_reservations devs s p rs cs xs st :
  fold_m (add_reservation devs s p) (cs, xs) rs = Ok st ->
  Forall (good_reservation devs s p) rs
  /\ NoDup (map rClient rs) /\ NoDup (map rAddress rs)
  /\ (forall r, r ∈ rs -> (rClient r ∉ cs) /\ (rAddress r ∉ xs)).
Proof.
  revert cs xs. induction rs as [|r rs IH]; intros cs xs; cbn [fold_m].
  { intros _. split_and!; [done|constructor|constructor|]. by intros r ?%elem_of_nil. }
  destruct (add_reservation _ _ _ _ r) as [st1|] eqn:E; [|done].
  apply add_reservation_ok in E as (Hg & Hc & Hx & ->). intros (HF & N1 & N2 & Hni)%IH. split_and!.
  - by constructor.
  - cbn. constructor; [|done]. rewrite list_elem_of_In, in_map_iff. intros (r' & E & Hr%list_elem_of_In). set_solver.
  - cbn. constructor; [|done]. rewrite list_elem_of_In, in_map_iff. intros (r' & E & Hr%list_elem_of_In). set_solver.
  - intros r' [->|Hr]%elem_of_cons; [done|]. set_solver.
Qed.

Lemma validate_scope_ok devs st s st' :
  validate_scope devs st s = Ok st' ->
  exists p, good_scope devs s p /\ prefixes st' = prefixes st ++ [p]
  /\ existsb (Overlaps p) (prefixes st) = false /\ (sID s ∉ ids st) /\ ids st' = ({[sID s]} ∪ ids st).
Proof.
  unfold validate_scope. intros H. do 14 next_ok H.
  apply Ok_inj in H as <-. repeat match goal with x : unit |- _ => destruct x end. exists x0.
  rename select (check_pool _ _ = _) into Hpool. rename select (check_times _ _ = _) into Htimes.
  rename select (check_pd _ _ _ _ = _) into Hpd. rename select (fold_m _ _ _ = _) into Hres. rename select (check_subnet _ = _) into Hsub.
  unfold check_pool in Hpool. apply seq_ok in Hpool as [P1%fail_if_ok P2%check_ok].
  unfold check_times in Htimes. apply seq_ok in Htimes as [T1%fail_if_ok _].
  apply fold_reservations in Hres as (R1 & R2 & R3 & _).
  repeat match goal with H : fail_if _ _ = Ok tt |- _ => apply fail_if_ok in H end. bool_hyps.
  repeat match goal with H : bool_decide _ = false |- _ => apply bool_decide_eq_false in H end.
  unfold check_subnet in Hsub. destruct (ParsePrefix (Subnet s)) as [p|] eqn:Ep; [|done]. apply seq_ok in Hsub as [Hm%fail_if_ok [= <-]].
  bool_hyps. repeat match goal with H : bool_decide _ = true |- _ => apply bool_decide_eq_true in H end.
  split_and!; try done. split; try done. by intros pd; eapply check_pd_ok.
Qed.

Lemma fold_scopes devs ss st st' :
  fold_m (validate_scope devs) st ss = Ok st' ->
  exists ps, Forall2 (good_scope devs) ss ps
  /\ (forall s, s ∈ ss -> sID s ∉ ids st) /\ NoDup (map sID ss)
  /\ (forall j q, ps !! j = Some q -> existsb (Overlaps q) (prefixes st ++ take j ps) = false).
Proof.
  revert st. induction ss as [|s ss IH]; intros st; cbn [fold_m].
  { intros _. exists []. split_and!; [constructor|by intros s ?%elem_of_nil|constructor|done]. }
  destruct (validate_scope devs st s) as [st1|] eqn:E; [|done].
  apply validate_scope_ok in E as (p & Hg & Hp & Ho & Hid & Hids).
  intros (ps & HF & Hni & Hnd & Hov)%IH. exists (p :: ps). split_and!.
  - by constructor.
  - intros t [->|Ht]%elem_of_cons; [done|]. specialize (Hni t Ht). set_solver.
  - cbn. constructor; [|done]. rewrite list_elem_of_In, in_map_iff. intros (t & E & Ht%list_elem_of_In).
    specialize (Hni t Ht). set_solver.
  - intros [|j] q Hq; [injection Hq as ->; by rewrite app_nil_r|]. cbn in *. specialize (Hov j q Hq).
    rewrite Hp, <-(assoc_L (++)) in Hov. done.
Qed.

Lemma fold_devices ds st st' :
  fold_m validate_device st ds = Ok st' ->
  Forall (fun d => labelPattern (dID d) = true /\ labelPattern (dName d) = true) ds
  /\ (forall id, id ∈ devices st' <-> id ∈ devices st \/ exists d, d ∈ ds /\ dID d = id).
Proof.
  revert st. induction ds as [|d ds IH]; intros st; cbn [fold_m].
  { intros [= <-]. split; [done|]. intros id. split; [by left|]. intros [?|(d & ?%elem_of_nil & _)]; done. }
  destruct (validate_device st d) as [st1|] eqn:E; [|done]. unfold validate_device in E.
  apply seq_ok in E as [E1%fail_if_ok E]. next_ok E. next_ok E. apply Ok_inj in E as <-. bool_hyps.
  intros [HF Hd]%IH. split; [by constructor|]. intros id. rewrite Hd. cbn. rewrite elem_of_union, elem_of_singleton.
  split.
  - intros [[->|?]|(d' & ? & <-)]; [right; exists d; split; [left|done]|by left|]. right. exists d'. split; [by right|done].
  - intros [?|(d' & [->|?]%elem_of_cons & <-)]; [by left; right|by left; left|]. right. by exists d'.
Qed.

(** An accepted configuration, seen through its prefixes. *)
Record good_config (c : Config) (devs : gset string) (ps : list Prefix) : Prop := {
  gc_scopes : Forall2 (good_scope devs) (Scopes c) ps;
  gc_ids : NoDup (map sID (Scopes c));
  gc_disjoint j q : ps !! j = Some q -> existsb (Overlaps q) (take j ps) = false;
  gc_devices : Forall (fun d => labelPattern (dID d) = true /\ labelPattern (dName d) = true) (Devices c);
  gc_known id : id ∈ devs -> exists d, d ∈ Devices c /\ dID d = id;
}.

Lemma Validate_good c : Validate c = Ok tt -> exists devs ps, good_config c devs ps.
Proof.
  unfold Validate. intros H. next_ok H. apply seq_ok in H as [_ H]. next_ok H.
  apply fold_devices in Hx as [HF Hd]. apply fold_scopes in Hx0 as (ps & HS & _ & Hnd & Hov).
  exists (devices x), ps. split; try done. intros id [?%elem_of_empty|?]%Hd; done.
Qed.

Lemma find_scope_good c id s : Validate c = Ok tt -> find_scope c id = Some s ->
  sID s = id /\ exists devs ps p, good_config c devs ps /\ good_scope devs s p.
Proof.
  intros (devs & ps & Hg)%Validate_good [Hin E%String.eqb_eq]%find_some. split; [done|].
  apply list_elem_of_In, list_elem_of_lookup in Hin as [i Hi].
  destruct (Forall2_lookup_l _ _ _ _ _ (gc_scopes _ _ _ Hg) Hi) as (p & _ & Hp). by exists devs, ps, p.
Qed.

Lemma scope_checked c s : Validate c = Ok tt -> s ∈ Scopes c -> exists devs st st', validate_scope devs st s = Ok st'.
Proof.
  unfold Validate. intros H Hs. next_ok H. apply seq_ok in H as [_ H]. next_ok H.
  destruct (fold_m_each _ _ _ _ _ Hx0 Hs) as (st & st' & E). eauto.
Qed.

(** Identifiers are unique: a scope is found under its own. *)
Lemma find_scope_self c s : Validate c = Ok tt -> s ∈ Scopes c -> find_scope c (sID s) = Some s.
Proof.
  intros (devs & ps & Hg)%Validate_good Hs. pose proof (gc_ids _ _ _ Hg) as Hn. unfold find_scope. clear Hg.
  induction (Scopes c) as [|t ss IH]; [by apply elem_of_nil in Hs|]. cbn in *. apply NoDup_cons in Hn as [Ht Hn].
  apply elem_of_cons in Hs as [->|Hs]; [by rewrite String.eqb_refl|]. destruct (String.eqb_spec (sID t) (sID s)) as [E|_]; [|by apply IH].
  exfalso. apply Ht. rewrite E. apply list_elem_of_In, in_map_iff. exists s. by rewrite <-list_elem_of_In.
Qed.

(** An address, as text, of a scope's subnet. *)
Definition in_subnet (s : Scope) (ip : string) : Prop :=
  exists p a, ParsePrefix (Subnet s) = Some p /\ ParseAddr ip = Some a /\ Contains p a = true.

Lemma disjoint_lt c devs ps i j s t ip : good_config c devs ps -> (i < j)%nat ->
  Scopes c !! i = Some s -> Scopes c !! j = Some t -> in_subnet s ip -> in_subnet t ip -> False.
Proof.
  intros Hg Hij Hs Ht (p & a & Ep & Ea & Hp) (q & b & Eq & Eb & Hq).
  destruct (Forall2_lookup_l _ _ _ _ _ (gc_scopes _ _ _ Hg) Hs) as (p' & Hp' & Gp).
  destruct (Forall2_lookup_l _ _ _ _ _ (gc_scopes _ _ _ Hg) Ht) as (q' & Hq' & Gq).
  pose proof (gs_prefix _ _ _ Gp) as E1. pose proof (gs_prefix _ _ _ Gq) as E2. simplify_eq.
  pose proof (gc_disjoint _ _ _ Hg j q Hq') as Hd.
  assert (existsb (Overlaps q) (take j ps) = true); [|congruence].
  apply existsb_exists. exists p. split.
  - apply list_elem_of_In, list_elem_of_lookup. exists i. by rewrite lookup_take_lt.
  - apply (common_overlaps q p a); try done; by eapply ParsePrefix_bits.
Qed.

(** Scopes never share an identifier or an address.  In an accepted configuration any two
    scopes have different identifiers, and no address lies in both of their subnets. *)
Theorem scopes_disjoint c i j s t ip :
  Validate c = Ok tt -> i <> j -> Scopes c !! i = Some s -> Scopes c !! j = Some t ->
  sID s <> sID t /\ ~ (in_subnet s ip /\ in_subnet t ip).
Proof.
  intros (devs & ps & Hg)%Validate_good Hij Hs Ht. split.
  - intros E. apply Hij. apply (NoDup_lookup (map sID (Scopes c)) i j (sID s) (gc_ids _ _ _ Hg)).
    + change (sID <$> Scopes c) with (map sID (Scopes c)). setoid_rewrite list_lookup_fmap. by rewrite Hs.
    + setoid_rewrite list_lookup_fmap. rewrite Ht. cbn. by rewrite E.
  - intros [H1 H2]. destruct (Nat.lt_total i j) as [?|[->|?]]; [by eapply disjoint_lt|done|by eapply (disjoint_lt c devs ps j i)].
Qed.
