(* ===== verification/AddrText.v ===== *)
(** Printed addresses and prefixes are read back as themselves: the ledger's keys are texts,
    and the operations that parse them again rest on this. *)

From S2P Require Import Prelude NetAddr LedgerInv Config KeyText.
From Stdlib Require Import Ascii.
Local Open Scope Z_scope.

(** * Small numbers, by cases *)

Lemma below_cases (P : Z -> bool) n : forallb (fun k => P (Z.of_nat k)) (seq 0 n) = true -> forall k, 0 <= k < Z.of_nat n -> P k = true.
Proof.
  intros HF k Hk. rewrite forallb_forall in HF. rewrite <-(Z2Nat.id k) by lia. apply HF, in_seq. lia.
Qed.

Definition decimal_val (cs : list ascii) : Z := fold_left (fun v c => v * 10 + digit_val c) cs 0.

(** One to three digits without a leading zero. *)
Definition decimal_text (o : Z) (cs : list ascii) : bool :=
  forallb is_digit cs && (decimal_val cs =? o) && (1 <=? length cs)%nat && (length cs <=? 3)%nat
  && ((length cs =? 1)%nat || match cs with c :: _ => in_range 49 57 c | [] => false end).

Lemma decimal_printed o : 0 <= o < 256 -> decimal_text o (string_chars (pretty o)) = true.
Proof. intros Ho. apply (below_cases (fun o => decimal_text o (string_chars (pretty o))) 256); [vm_compute; reflexivity|lia]. Qed.

Lemma digit_range c : is_digit c = true -> 0 <= digit_val c <= 9.
Proof. unfold is_digit, in_range, digit_val. intros H. bool_hyps. lia. Qed.

(** * IPv4 *)

Lemma digit_step acc v n p c rest : is_digit c = true -> n = 0%nat \/ v <> 0 -> v * 10 + digit_val c <= 255 ->
  parse_octets acc v n p (c :: rest) = parse_octets acc (v * 10 + digit_val c) (S n) false rest.
Proof.
  intros Hc Hv Hle. cbn [parse_octets]. rewrite Hc, (proj2 (Z.ltb_ge 255 _)) by lia.
  destruct (Nat.eqb_spec n 1), (Z.eqb_spec v 0); cbn; try done. lia.
Qed.

Lemma octet_read acc p rest o : 0 <= o < 256 ->
  exists n, parse_octets acc 0 0 p (string_chars (pretty o) ++ rest) = parse_octets acc o (S n) false rest.
Proof.
  intros Ho. pose proof (decimal_printed o Ho) as H. unfold decimal_text in H. bool_hyps.
  generalize dependent (string_chars (pretty o)). intros cs Hd Hv H1 H3 Hz. unfold decimal_val in Hv. rewrite Nat.leb_le in H1, H3.
  destruct cs as [|c1 [|c2 [|c3 [|]]]]; cbn [length] in *; try lia; cbn [forallb fold_left app] in *; bool_hyps;
    repeat match goal with H : is_digit ?c = true |- _ => pose proof (digit_range c H); revert H end; intros.
  - exists 0%nat. rewrite digit_step by (done || lia). by f_equal.
  - exists 1%nat. change (in_range 49 57 c1 = true) in Hz. unfold in_range in Hz. bool_hyps. unfold digit_val in *.
    rewrite digit_step by (done || unfold digit_val; lia). rewrite digit_step by (done || unfold digit_val; lia).
    f_equal. unfold digit_val. lia.
  - exists 2%nat. change (in_range 49 57 c1 = true) in Hz. unfold in_range in Hz. bool_hyps. unfold digit_val in *.
    rewrite digit_step by (done || unfold digit_val; lia). rewrite digit_step by (done || unfold digit_val; lia).
    rewrite digit_step by (done || unfold digit_val; lia). f_equal. unfold digit_val. lia.
Qed.

Lemma hex_group_digits cs acc off c rest : forallb is_hex cs = true -> (off + length cs <= 4)%nat -> hex_val c = None ->
  exists v, hex_group acc off (cs ++ c :: rest) = Some (v, (off + length cs)%nat, c :: rest).
Proof.
  revert acc off. induction cs as [|x cs IH]; intros acc off Hh Hl Hc; cbn [app hex_group forallb length] in *.
  - exists acc. rewrite Hc. by rewrite Nat.add_0_r.
  - apply andb_prop in Hh as [Hx Hh]. unfold is_hex in Hx. destruct (hex_val x) as [d|]; [|done].
    rewrite (proj2 (Nat.ltb_ge 3 off)) by lia. destruct (IH (acc * 16 + d) (S off)) as [v ->]; [done|lia|done|].
    exists v. do 2 f_equal. f_equal. lia.
Qed.

Lemma octet_digits o : 0 <= o < 256 -> forallb is_hex (string_chars (pretty o)) = true.
Proof.
  intros H%decimal_printed. unfold decimal_text in H. bool_hyps. rewrite forallb_forall in *.
  intros c Hc. by apply is_digit_hex; auto.
Qed.

Lemma octet_chars o : 0 <= o < 256 -> exists c cs, string_chars (pretty o) = c :: cs /\ is_digit c = true /\ (length cs <= 2)%nat.
Proof.
  intros H%decimal_printed. unfold decimal_text in H. bool_hyps. rewrite Nat.leb_le in *.
  destruct (string_chars (pretty o)) as [|c cs]; cbn in *; [lia|]. bool_hyps. exists c, cs. split_and!; [done..|lia].
Qed.

Lemma octet_hex rest o : 0 <= o < 256 ->
  exists v n, hex_group 0 0 (string_chars (pretty o) ++ "."%char :: rest) = Some (v, S n, "."%char :: rest).
Proof.
  intros Ho. destruct (hex_group_digits (string_chars (pretty o)) 0 0 "." rest) as [v ->]; [by apply octet_digits| |done|].
  - destruct (octet_chars o Ho) as (c & cs & -> & _ & ?). cbn. lia.
  - destruct (octet_chars o Ho) as (c & cs & -> & _). by exists v, (length cs).
Qed.

Lemma octet_dot acc o rest o' n r : 0 <= o' < 256 -> (length acc < 3)%nat ->
  (forall m, parse_octets (acc ++ [o]) o' (S m) false rest = r) ->
  parse_octets acc o (S n) false ("."%char :: string_chars (pretty o') ++ rest) = r.
Proof.
  intros Ho Ha Hr. destruct (octet_read (acc ++ [o]) true rest o' Ho) as [m E]. rewrite <-(Hr m), <-E.
  destruct (octet_chars o' Ho) as (c & cs & -> & _). cbn. by rewrite (proj2 (Nat.eqb_neq (length acc) 3)) by lia.
Qed.

Definition quad (n : Z) : list Z := [octet n 3; octet n 2; octet n 1; octet n 0].

Lemma octet_range n i : 0 <= octet n i < 256.
Proof. apply Z.mod_pos_bound. lia. Qed.

Definition dotted (a b c d : Z) : list ascii :=
  string_chars (pretty a) ++ "."%char :: string_chars (pretty b) ++ "."%char :: string_chars (pretty c)
  ++ "."%char :: string_chars (pretty d).

Lemma AddrString4_dotted n : string_chars (AddrString4 n) = dotted (octet n 3) (octet n 2) (octet n 1) (octet n 0).
Proof. unfold AddrString4, dotted. by rewrite !chars_app. Qed.

Lemma dotted_read a b c d : 0 <= a < 256 -> 0 <= b < 256 -> 0 <= c < 256 -> 0 <= d < 256 ->
  parse_octets [] 0 0 true (dotted a b c d) = Some [a; b; c; d].
Proof.
  intros Ha Hb Hc Hd. unfold dotted. rewrite <-(app_nil_r (string_chars (pretty d))).
  destruct (octet_read [] true ("."%char :: string_chars (pretty b) ++ "."%char :: string_chars (pretty c)
    ++ "."%char :: string_chars (pretty d) ++ []) a Ha) as [n1 ->].
  apply octet_dot; [done|cbn; lia|]. intros n2. apply octet_dot; [done|cbn; lia|]. intros n3.
  apply octet_dot; [done|cbn; lia|]. done.
Qed.

Lemma shift_octet n k : 0 <= k -> Z.shiftr n (8 * k) = Z.shiftr n (8 * (k + 1)) * 256 + octet n k.
Proof.
  intros Hk. unfold octet. rewrite (Z.div_mod (Z.shiftr n (8 * k)) 256) at 1 by lia. f_equal. rewrite Z.mul_comm. f_equal.
  change 256 with (2^8). rewrite <-Z.shiftr_div_pow2, Z.shiftr_shiftr by lia. f_equal. lia.
Qed.

Lemma quad_num n : 0 <= n < 2^32 -> num_of_octets (quad n) = n.
Proof.
  intros Hn. unfold num_of_octets, quad. cbn [fold_left].
  assert (H4 : Z.shiftr n (8 * 4) = 0) by (rewrite Z.shiftr_div_pow2 by lia; apply Z.div_small; lia).
  pose proof (shift_octet n 3 ltac:(lia)) as E3. pose proof (shift_octet n 2 ltac:(lia)) as E2.
  pose proof (shift_octet n 1 ltac:(lia)) as E1. pose proof (shift_octet n 0 ltac:(lia)) as E0.
  change (3 + 1) with 4 in E3. change (2 + 1) with 3 in E2. change (1 + 1) with 2 in E1. change (0 + 1) with 1 in E0.
  rewrite Z.mul_0_r, Z.shiftr_0_r in E0. lia.
Qed.

Lemma first_sep_digits cs c rest : forallb is_hex cs = true -> first_sep (cs ++ c :: rest) =
  if Ascii.eqb c "." || Ascii.eqb c ":" || Ascii.eqb c "%" then Some c else first_sep rest.
Proof.
  induction cs as [|x cs IH]; [done|]. cbn [forallb app first_sep]. intros [Hx Hcs]%andb_prop.
  rewrite <-IH by done. clear -Hx.
  destruct (Ascii.eqb_spec x "."), (Ascii.eqb_spec x ":"), (Ascii.eqb_spec x "%"); subst; done.
Qed.

Lemma read_addr4 n : 0 <= n < 2^32 -> ParseAddr (AddrString4 n) = Some (Addr4 n).
Proof.
  intros Hn. unfold ParseAddr, parseIPv4. rewrite AddrString4_dotted. unfold dotted at 1.
  rewrite first_sep_digits by apply octet_digits, octet_range. cbn [Ascii.eqb]. change (Ascii.eqb "." ".") with true. cbn [orb].
  rewrite dotted_read by apply octet_range. cbn. f_equal. f_equal. by apply quad_num.
Qed.

(** * IPv6 *)

Lemma hex_val_char d : 0 <= d < 16 -> hex_val (hex_char d) = Some d.
Proof.
  intros Hd. pose proof (below_cases (fun d => match hex_val (hex_char d) with Some e => e =? d | None => false end) 16) as H.
  specialize (H eq_refl d Hd). cbn beta in H. destruct (hex_val (hex_char d)) as [e|]; [|done]. f_equal. lia.
Qed.

Definition hexes (g : Z) : list ascii := string_chars (hex_string g).

Lemma hex_step acc off d rest : 0 <= d < 16 -> (off <= 3)%nat ->
  hex_group acc off (hex_char d :: rest) = hex_group (acc * 16 + d) (S off) rest.
Proof. intros Hd Ho. cbn [hex_group]. by rewrite hex_val_char, (proj2 (Nat.ltb_ge 3 off)) by lia. Qed.

Definition no_hex (l : list ascii) : Prop := match l with c :: _ => hex_val c = None | [] => True end.

Lemma hex_stop acc off rest : no_hex rest -> hex_group acc off rest = Some (acc, off, rest).
Proof. destruct rest; [done|]. cbn. by intros ->. Qed.

Lemma hex_group_string g rest : 0 <= g < 65536 -> no_hex rest ->
  exists n, hex_group 0 0 (hexes g ++ rest) = Some (g, S n, rest).
Proof.
  intros Hg Hr. unfold hexes, hex_string. rewrite chars_of_chars. rewrite !Z.shiftr_div_pow2 by lia.
  change (2^12) with 4096. change (2^8) with 256. change (2^4) with 16.
  assert (Hm : forall x, 0 <= x mod 16 < 16) by (intros; apply Z.mod_pos_bound; lia).
  pose proof (Z.div_mod g 16 ltac:(lia)). pose proof (Z.div_mod (g / 16) 16 ltac:(lia)).
  pose proof (Z.div_mod (g / 256) 16 ltac:(lia)). pose proof (Z.div_div g 16 16 ltac:(lia) ltac:(lia)) as E1.
  pose proof (Z.div_div g 256 16 ltac:(lia) ltac:(lia)) as E2. change (16 * 16) with 256 in E1. change (256 * 16) with 4096 in E2.
  pose proof (Hm g). pose proof (Hm (g / 16)). pose proof (Hm (g / 256)).
  assert (0 <= g / 4096 < 16) by (split; [apply Z.div_pos; lia|apply Z.div_lt_upper_bound; lia]).
  assert (g / 4096 mod 16 = g / 4096) by (apply Z.mod_small; lia).
  destruct (Z.leb_spec 4096 g), (Z.leb_spec 256 g), (Z.leb_spec 16 g); try lia; cbn [map app];
    rewrite !hex_step by (apply Hm || lia); rewrite hex_stop by done; eexists; do 3 f_equal; lia.
Qed.

Lemma hexes_cons g : exists d ds, hexes g = hex_char d :: ds /\ 0 <= d < 16.
Proof.
  unfold hexes, hex_string. rewrite chars_of_chars. assert (Hm : forall x, 0 <= x mod 16 < 16) by (intros; apply Z.mod_pos_bound; lia).
  destruct (4096 <=? g), (256 <=? g), (16 <=? g); cbn [map app]; do 2 eexists; (split; [reflexivity|apply Hm]).
Qed.

Lemma hex_char_not c d : 0 <= d < 16 -> hex_val c = None -> Ascii.eqb (hex_char d) c = false.
Proof. intros Hd Hc. apply Ascii.eqb_neq. intros <-. by rewrite hex_val_char in Hc by done. Qed.

(** Groups with a colon before each, and joined by colons. *)
Definition colons (gs : list Z) : list ascii := flat_map (fun g => ":"%char :: hexes g) gs.
Definition joined (gs : list Z) : list ascii := match gs with [] => [] | g :: gs' => hexes g ++ colons gs' end.
Definition bytes_of (gs : list Z) : list Z := flat_map (fun g => [g / 256; g mod 256]) gs.

Lemma bytes_length gs : length (bytes_of gs) = (2 * length gs)%nat.
Proof. induction gs as [|g gs IH]; [done|]. unfold bytes_of in *. cbn [flat_map app length]. rewrite IH. lia. Qed.

Lemma colons_no_hex gs rest : no_hex rest -> no_hex (colons gs ++ rest).
Proof. by destruct gs. Qed.

Definition group_range (g : Z) : Prop := 0 <= g < 65536.

(** One more group, followed by the next. *)
Lemma v6_next fuel bytes ell g g' gs rest : group_range g -> (length bytes < 16)%nat ->
  v6_loop (S fuel) bytes ell (hexes g ++ colons (g' :: gs) ++ rest)
  = v6_loop fuel (bytes ++ [g / 256; g mod 256]) ell (joined (g' :: gs) ++ rest).
Proof.
  intros Hg Hb. destruct (hex_group_string g (colons (g' :: gs) ++ rest) Hg) as [n E]; [done|].
  change (hexes g ++ colons (g' :: gs) ++ rest) with (hexes g ++ (colons (g' :: gs) ++ rest)).
  cbn [v6_loop]. rewrite (proj2 (Nat.leb_gt 16 (length bytes))) by lia. rewrite E.
  cbn [colons flat_map joined]. fold (colons gs). rewrite <-!app_assoc. cbn [app].
  destruct (hexes_cons g') as (d & ds & -> & Hd). cbn [app].
  change (Ascii.eqb ":" ".") with false. change (Ascii.eqb ":" ":") with true. cbn [negb]. cbv iota.
  by rewrite (hex_char_not ":" d Hd eq_refl).
Qed.

Lemma v6_groups gs : forall fuel bytes ell, gs <> [] -> Forall group_range gs -> (length gs <= fuel)%nat ->
  (length bytes + 2 * length gs <= 16)%nat -> v6_loop fuel bytes ell (joined gs) = Some (bytes ++ bytes_of gs, ell, []).
Proof.
  induction gs as [|g gs IH]; intros fuel bytes ell Hne Hr Hf Hb; [done|]. inversion Hr as [|? ? Hg Hr']; subst.
  cbn [length] in *. destruct fuel as [|fuel]; [lia|]. destruct gs as [|g' gs].
  - cbn [joined colons flat_map]. destruct (hex_group_string g [] Hg) as [n E]; [done|]. cbn [v6_loop].
    rewrite (proj2 (Nat.leb_gt 16 (length bytes))) by lia. by rewrite E.
  - cbn [joined]. rewrite <-(app_nil_r (colons (g' :: gs))), v6_next by (done || lia). rewrite app_nil_r.
    rewrite IH; [|done|done|lia|rewrite length_app; cbn [length] in *; lia]. rewrite <-app_assoc. done.
Qed.

Lemma v6_ellipsis gs gs' : forall fuel bytes, gs <> [] -> Forall group_range gs -> Forall group_range gs' ->
  (length gs + length gs' <= fuel)%nat -> (length bytes + 2 * length gs + 2 * length gs' <= 16)%nat ->
  v6_loop fuel bytes None (joined gs ++ ":"%char :: ":"%char :: joined gs')
  = Some (bytes ++ bytes_of gs ++ bytes_of gs', Some (length bytes + 2 * length gs)%nat, []).
Proof.
  induction gs as [|g gs IH]; intros fuel bytes Hne Hr Hr' Hf Hb; [done|]. inversion Hr as [|? ? Hg Hrs]; subst.
  cbn [length] in *. destruct fuel as [|fuel]; [lia|]. destruct gs as [|g1 gs].
  - cbn [joined colons flat_map]. rewrite app_nil_r.
    destruct (hex_group_string g (":"%char :: ":"%char :: joined gs') Hg) as [n E]; [done|].
    cbn [v6_loop]. rewrite (proj2 (Nat.leb_gt 16 (length bytes))) by lia. rewrite E.
    change (Ascii.eqb ":" ".") with false. change (Ascii.eqb ":" ":") with true. cbn [negb]. cbv iota.
    rewrite length_app. cbn [length]. replace (length bytes + 2)%nat with (length bytes + 2 * 1)%nat by lia.
    destruct gs' as [|g' gs']; [cbn; by rewrite ?app_nil_r|].
    pose proof (v6_groups (g' :: gs') fuel (bytes ++ [g / 256; g mod 256]) (Some (length bytes + 2 * 1)%nat)) as H.
    rewrite <-app_assoc in H. destruct (hexes_cons g') as (d & ds & Eh & _).
    cbn [joined] in *. rewrite Eh in *. cbn [app] in *. apply H; [done|done|cbn [length] in *; lia|rewrite length_app; cbn [length] in *; lia].
  - cbn [joined]. rewrite <-app_assoc. rewrite v6_next by (done || lia).
    rewrite IH; [|done..|lia|rewrite length_app; cbn [length] in *; lia]. rewrite length_app. cbn [length].
    rewrite <-app_assoc. do 4 f_equal. cbn [length]. lia.
Qed.

(** ** Which groups are elided *)

Lemma zeros_spec l : take (zeros l) l = replicate (zeros l) 0 /\ (zeros l <= length l)%nat.
Proof.
  induction l as [|x l [IH1 IH2]]; [done|]. destruct x; cbn; [|split; [done|lia]..]. rewrite IH1. split; [done|lia].
Qed.

Lemma zero_run_spec gs a b : zero_run gs = Some (a, b) -> (a + 2 <= b)%nat /\ b = (a + zeros (drop a gs))%nat.
Proof.
  unfold zero_run. revert a b. apply (fold_left_inv _ (fun best => forall a b, best = Some (a, b) ->
    (a + 2 <= b)%nat /\ b = (a + zeros (drop a gs))%nat)); [|done].
  intros i best _ IH a b. destruct (_ && _) eqn:E; [|apply IH]. intros [= <- <-].
  apply andb_prop in E as [E%Nat.leb_le _]. split; [lia|done].
Qed.

Lemma zero_run_split gs a b : zero_run gs = Some (a, b) ->
  (a + 2 <= b)%nat /\ (a <= length gs -> b <= length gs)%nat /\ gs = take a gs ++ replicate (b - a) 0 ++ drop b gs.
Proof.
  intros [H1 H2]%zero_run_spec. destruct (zeros_spec (drop a gs)) as [Z1 Z2]. rewrite length_drop in Z2.
  split_and!; [done|lia|]. rewrite <-(take_drop a gs) at 1. f_equal. rewrite <-(take_drop (zeros (drop a gs)) (drop a gs)) at 1.
  rewrite Z1, drop_drop. f_equal; [f_equal; lia|f_equal; lia].
Qed.

Lemma drop_cons gs i : (i < length gs)%nat -> drop i gs = nth i gs 0 :: drop (S i) gs.
Proof. revert i. induction gs as [|g gs IH]; intros [|i] Hi; cbn in *; try lia; [done|]. apply IH. lia. Qed.

(** The printer after the elided groups. *)
Lemma print_tail gs run fuel i : length gs = 8%nat -> (8 <= fuel + i)%nat -> (0 < i)%nat ->
  match run with Some (a, _) => (a < i)%nat | None => True end ->
  string_chars (print_groups fuel gs run i) = colons (drop i gs).
Proof.
  intros Hl. revert i. induction fuel as [|fuel IH]; intros i Hf Hi Ha; cbn [print_groups].
  { by rewrite drop_ge by lia. }
  destruct (Nat.leb_spec 8 i); [by rewrite drop_ge by lia|]. rewrite (drop_cons gs i) by lia. cbn [colons flat_map].
  fold (colons (drop (S i) gs)). rewrite (proj2 (Nat.ltb_lt 0 i)) by lia.
  assert (Hs : string_chars (":" +++ hex_string (nth i gs 0) +++ print_groups fuel gs run (S i))
    = ":"%char :: hexes (nth i gs 0) ++ colons (drop (S i) gs)).
  { rewrite !chars_app, IH; [done|lia|lia|]. destruct run as [[a b]|]; [lia|done]. }
  destruct run as [[a b]|]; [|done]. by rewrite (proj2 (Nat.eqb_neq i a)) by lia.
Qed.

Lemma print_run gs b : length gs = 8%nat -> forall fuel i a, (8 <= fuel + i)%nat -> (i <= a)%nat -> (a < b <= 8)%nat ->
  string_chars (print_groups fuel gs (Some (a, b)) i)
  = (if (i =? 0)%nat then joined (take (a - i) (drop i gs)) else colons (take (a - i) (drop i gs)))
    ++ ":"%char :: ":"%char :: joined (drop b gs).
Proof.
  intros Hl fuel. induction fuel as [|fuel IH]; intros i a Hf Hi Hab; [lia|]. cbn [print_groups].
  rewrite (proj2 (Nat.leb_gt 8 i)) by lia. destruct (Nat.eqb_spec i a) as [->|Hne].
  - rewrite Nat.sub_diag, take_0. replace (if (a =? 0)%nat then joined [] else colons []) with (@nil ascii) by (by destruct (a =? 0)%nat).
    rewrite chars_app. cbn [app string_chars]. do 2 f_equal.
    destruct (Nat.leb_spec 8 b); [by rewrite (drop_ge gs b) by lia|]. rewrite (drop_cons gs b) by lia. cbn [joined].
    rewrite chars_app, print_tail by (cbn; lia). done.
  - rewrite !chars_app, (IH (S i) a) by lia. rewrite (drop_cons gs i) by lia.
    replace (a - i)%nat with (S (a - S i)) by lia. cbn [take]. change (S i =? 0)%nat with false. cbv iota.
    destruct i as [|i].
    + cbn [Nat.ltb Nat.leb Nat.eqb joined string_chars app]. by rewrite <-app_assoc.
    + rewrite (proj2 (Nat.ltb_lt 0 (S i))) by lia. cbn [Nat.eqb colons flat_map string_chars app].
      rewrite <-app_assoc. done.
Qed.

Lemma print_plain gs : length gs = 8%nat -> string_chars (print_groups 8 gs None 0) = joined gs.
Proof.
  intros Hl. change (print_groups 8 gs None 0) with (EmptyString +++ hex_string (nth 0 gs 0) +++ print_groups 7 gs None 1).
  rewrite !chars_app, print_tail by (done || lia). destruct gs as [|g gs]; [done|]. done.
Qed.

(** ** The groups of a number *)

Definition groups (n : Z) : list Z := map (fun i => group n (Z.of_nat i)) (seq 0 8).

Lemma groups_range n : Forall group_range (groups n).
Proof. apply Forall_map, Forall_forall. intros i _. apply Z.mod_pos_bound. lia. Qed.

Lemma shift_group n k : 0 <= k -> Z.shiftr n (16 * k) = Z.shiftr n (16 * (k + 1)) * 65536 + group n (7 - k).
Proof.
  intros Hk. unfold group. replace (7 - (7 - k)) with k by lia.
  rewrite (Z.div_mod (Z.shiftr n (16 * k)) 65536) at 1 by lia. f_equal. rewrite Z.mul_comm. f_equal.
  change 65536 with (2^16). rewrite <-Z.shiftr_div_pow2, Z.shiftr_shiftr by lia. f_equal. lia.
Qed.

Lemma num_bytes gs acc :
  fold_left (fun n o => n * 256 + o) (bytes_of gs) acc = fold_left (fun n g => n * 65536 + g) gs acc.
Proof.
  revert acc. induction gs as [|g gs IH]; intros acc; [done|]. cbn [bytes_of flat_map app fold_left]. fold (bytes_of gs).
  rewrite IH. f_equal. pose proof (Z.div_mod g 256 ltac:(lia)). lia.
Qed.

Lemma groups_num n : 0 <= n < 2^128 -> num_of_octets (bytes_of (groups n)) = n.
Proof.
  intros Hn. unfold num_of_octets. rewrite num_bytes.
  change (groups n) with [group n 0; group n 1; group n 2; group n 3; group n 4; group n 5; group n 6; group n 7].
  assert (H8 : Z.shiftr n (16 * 8) = 0) by (rewrite Z.shiftr_div_pow2 by lia; apply Z.div_small; lia).
  pose proof (shift_group n 7 ltac:(lia) : Z.shiftr n (16 * 7) = Z.shiftr n (16 * 8) * 65536 + group n 0) as E7.
  pose proof (shift_group n 6 ltac:(lia) : Z.shiftr n (16 * 6) = Z.shiftr n (16 * 7) * 65536 + group n 1) as E6.
  pose proof (shift_group n 5 ltac:(lia) : Z.shiftr n (16 * 5) = Z.shiftr n (16 * 6) * 65536 + group n 2) as E5.
  pose proof (shift_group n 4 ltac:(lia) : Z.shiftr n (16 * 4) = Z.shiftr n (16 * 5) * 65536 + group n 3) as E4.
  pose proof (shift_group n 3 ltac:(lia) : Z.shiftr n (16 * 3) = Z.shiftr n (16 * 4) * 65536 + group n 4) as E3.
  pose proof (shift_group n 2 ltac:(lia) : Z.shiftr n (16 * 2) = Z.shiftr n (16 * 3) * 65536 + group n 5) as E2.
  pose proof (shift_group n 1 ltac:(lia) : Z.shiftr n (16 * 1) = Z.shiftr n (16 * 2) * 65536 + group n 6) as E1.
  pose proof (shift_group n 0 ltac:(lia) : Z.shiftr n (16 * 0) = Z.shiftr n (16 * 1) * 65536 + group n 7) as E0.
  rewrite Z.mul_0_r, Z.shiftr_0_r in E0. cbn [fold_left]. lia.
Qed.

Lemma bytes_app gs gs' : bytes_of (gs ++ gs') = bytes_of gs ++ bytes_of gs'.
Proof. apply flat_map_app. Qed.
Lemma bytes_zeros k : bytes_of (replicate k 0) = replicate (2 * k) 0.
Proof.
  induction k as [|k IH]; [done|]. replace (2 * S k)%nat with (S (S (2 * k))) by lia.
  unfold bytes_of in *. cbn [replicate flat_map app]. rewrite IH. done.
Qed.

Lemma hexes_hex g : forallb is_hex (hexes g) = true.
Proof.
  unfold hexes, hex_string. rewrite chars_of_chars.
  assert (H : forall x, is_hex (hex_char (x mod 16)) = true).
  { intros x. unfold is_hex. rewrite hex_val_char; [done|]. apply Z.mod_pos_bound. lia. }
  destruct (4096 <=? g), (256 <=? g), (16 <=? g); cbn [map app forallb]; by rewrite !H.
Qed.

(** ParseAddr and parseIPv6 on a text whose first group is followed by a colon. *)
Lemma read_after_group s g rest :
  str_forallb not_percent s = true -> string_chars s = hexes g ++ ":"%char :: rest ->
  ParseAddr s = v6_finish EmptyString (v6_loop 8 [] None (string_chars s)).
Proof.
  intros Hp Es. unfold ParseAddr, parseIPv6. rewrite cut_zone_plain by done. rewrite Es at 1.
  rewrite first_sep_digits by apply hexes_hex. change (Ascii.eqb ":" "." || Ascii.eqb ":" ":" || _) with true. cbv iota.
  rewrite Es. destruct (hexes_cons g) as (d & ds & -> & Hd). cbn [app].
  pose proof (hex_char_not ":" d Hd eq_refl) as Hc. apply Ascii.eqb_neq in Hc. generalize dependent (hex_char d). intros c Hc.
  destruct c as [[] [] [] [] [] [] [] []]; done.
Qed.

(** The same after a leading ellipsis. *)
Lemma read_ellipsis s l : str_forallb not_percent s = true -> string_chars s = ":"%char :: ":"%char :: l ->
  ParseAddr s = match l with [] => Some (Addr6 0 EmptyString) | _ => v6_finish EmptyString (v6_loop 8 [] (Some 0%nat) l) end.
Proof.
  intros Hp Es. unfold ParseAddr, parseIPv6. rewrite cut_zone_plain by done. rewrite Es. cbn. by destruct l.
Qed.

Lemma finish_ellipsis gs a b : length gs = 8%nat -> zero_run gs = Some (a, b) -> (a <= 8)%nat ->
  v6_finish EmptyString (Some (bytes_of (take a gs) ++ bytes_of (drop b gs), Some (2 * a)%nat, []))
  = Some (Addr6 (num_of_octets (bytes_of gs)) EmptyString).
Proof.
  intros Hl (H1 & H2 & H3)%zero_run_split Ha. unfold v6_finish. cbn [mbind option_bind].
  rewrite length_app, !bytes_length, length_take, length_drop, Hl, (proj2 (Nat.ltb_lt _ _)) by lia.
  do 2 f_equal. unfold expand_ellipsis. rewrite length_app, !bytes_length, length_take, length_drop, Hl.
  rewrite take_app_length', drop_app_length' by (rewrite bytes_length, length_take; lia).
  rewrite H3 at 3. rewrite !bytes_app, bytes_zeros. do 4 f_equal. lia.
Qed.

Lemma read_mapped m : 0 <= m < 2^32 ->
  ParseAddr ("::ffff:" +++ AddrString4 m) = Some (Addr6 (65535 * 2^32 + m) EmptyString).
Proof.
  intros Hm. rewrite (read_ellipsis _ (string_chars "ffff:" ++ string_chars (AddrString4 m))).
  - rewrite AddrString4_dotted. unfold dotted. pose proof (octet_range m 3) as R.
    destruct (octet_chars _ R) as (c & cs & Ec & Hd & _).
    destruct (octet_hex (string_chars (pretty (octet m 2)) ++ "."%char :: string_chars (pretty (octet m 1))
      ++ "."%char :: string_chars (pretty (octet m 0))) _ R) as (v & k & E).
    pose proof (dotted_read (octet m 3) (octet m 2) (octet m 1) (octet m 0)) as Hq. unfold dotted in Hq.
    rewrite Ec in *. cbn [app string_chars] in *. cbn [v6_loop hex_group]. change (16 <=? length [])%nat with false. cbv iota.
    change (hex_val "f") with (Some 15). change (hex_val ":") with (@None Z). cbv iota.
    cbn [Nat.ltb Nat.leb app length negb]. change (Ascii.eqb ":" ".") with false. change (Ascii.eqb ":" ":") with true.
    replace (Ascii.eqb c ":") with false by (symmetry; apply Ascii.eqb_neq; by intros ->). cbn [negb]. cbv iota.
    rewrite E. change (Ascii.eqb "." ".") with true. cbv iota. rewrite Hq by apply octet_range.
    pose proof (quad_num m Hm) as Eq. unfold num_of_octets, quad in Eq. cbn [fold_left] in Eq.
    cbn [Nat.add mbind option_bind app].
    change ((((0 * 16 + 15) * 16 + 15) * 16 + 15) * 16 + 15) with 65535. change (65535 / 256) with 255. change (65535 mod 256) with 255.
    cbn [v6_finish mbind option_bind length Nat.ltb Nat.leb]. unfold expand_ellipsis, num_of_octets.
    cbn [take drop app length replicate Nat.sub fold_left]. f_equal. f_equal. lia.
  - unfold str_forallb. rewrite chars_app, forallb_app.
    apply andb_true_intro. split; [done|]. eapply (str_forallb_weaken printed_char); [apply printed_not_percent|apply AddrString4_chars].
  - done.
Qed.

Lemma read_addr6 n : 0 <= n < 2^128 -> ParseAddr (AddrString6 n) = Some (Addr6 n EmptyString).
Proof.
  intros Hn. assert (Hp : str_forallb not_percent (AddrString6 n) = true).
  { pose proof (AddrString_chars (Addr6 n EmptyString) eq_refl) as H. cbn in H. rewrite append_empty_r in H.
    eapply str_forallb_weaken; [apply printed_not_percent|done]. }
  unfold AddrString6 in *. destruct (Z.eqb_spec (Z.shiftr n 32) 65535) as [E|_].
  { rewrite read_mapped by (apply Z.mod_pos_bound; lia). do 2 f_equal. rewrite Z.shiftr_div_pow2 in E by lia.
    rewrite (Z.div_mod n (2^32)) at 2 by lia. lia. }
  cbv zeta in *. fold (groups n) in *. pose proof (groups_range n) as Hr. assert (Hl : length (groups n) = 8%nat) by done.
  replace (Addr6 n EmptyString) with (Addr6 (num_of_octets (bytes_of (groups n))) EmptyString) by (by rewrite groups_num).
  revert Hp. generalize dependent (groups n). intros gs Hr Hl.
  destruct (zero_run gs) as [[a b]|] eqn:Ez.
  - intros Hp. pose proof (zero_run_split gs a b Ez) as (H1 & H2 & H3).
    assert (Ha : (a <= 8)%nat).
    { destruct (zero_run_spec gs a b Ez) as [_ Hb]. destruct (le_lt_dec a 8); [done|]. rewrite drop_ge in Hb by lia. cbn in Hb. lia. }
    pose proof (print_run gs b Hl 8 0 a ltac:(lia) ltac:(lia) ltac:(lia)) as Es. rewrite Nat.sub_0_r, drop_0 in Es.
    change (0 =? 0)%nat with true in Es. cbv iota in Es. pose proof (finish_ellipsis gs a b Hl Ez Ha) as Hf.
    assert (Hrt : Forall group_range (take a gs)) by by apply Forall_take.
    assert (Hrd : Forall group_range (drop b gs)) by by apply Forall_drop.
    destruct (take a gs) as [|g ts] eqn:Et.
    + assert (a = 0)%nat as ->. { apply (f_equal length) in Et. rewrite length_take in Et. cbn in Et. lia. }
      rewrite (read_ellipsis _ _ Hp Es). destruct (drop b gs) as [|g gs'] eqn:Ed.
      * rewrite <-Hf. cbn. done.
      * assert (Hj : joined (g :: gs') <> []). { cbn. by destruct (hexes_cons g) as (d & ds & -> & _). }
        destruct (joined (g :: gs')) eqn:Ej; [done|]. rewrite <-Ej, v6_groups; [exact Hf|done|done| |];
          apply (f_equal length) in Ed; rewrite length_drop in Ed; cbn [length] in *; lia.
    + assert (Hlen : length (g :: ts) = a) by (rewrite <-Et, length_take; lia).
      assert (Es' : exists rest, string_chars (print_groups 8 gs (Some (a, b)) 0) = hexes g ++ ":"%char :: rest).
      { rewrite Es. cbn [joined]. rewrite <-app_assoc. destruct ts; cbn; eauto. }
      destruct Es' as [rest Es']. rewrite (read_after_group _ _ _ Hp Es'), Es, v6_ellipsis; [|done..| |].
      * rewrite Hlen. exact Hf.
      * rewrite Hlen, length_drop. lia.
      * rewrite Hlen, length_drop. cbn. lia.
  - intros Hp. pose proof (print_plain gs Hl) as Es. destruct gs as [|g [|g' gs]]; [done|done|].
    rewrite (read_after_group _ g (hexes g' ++ colons gs) Hp Es), Es, v6_groups; [|done|done|lia|cbn in *; lia].
    cbn [mbind option_bind v6_finish app]. rewrite bytes_length, Hl. done.
Qed.

(** * What parsing yields is an address *)

Definition byte_range (x : Z) : Prop := 0 <= x < 256.

Lemma num_of_octets_range l : Forall byte_range l -> 0 <= num_of_octets l < 256 ^ Z.of_nat (length l).
Proof.
  unfold num_of_octets. assert (H : forall l acc k, 0 <= k -> 0 <= acc < 256 ^ k -> Forall byte_range l ->
    0 <= fold_left (fun n o => n * 256 + o) l acc < 256 ^ (k + Z.of_nat (length l))).
  { clear l. induction l as [|x l IH]; intros acc k Hk Ha Hf; [cbn; by rewrite Z.add_0_r|].
    inversion Hf as [|? ? Hx Hl]; subst. cbn [fold_left length].
    replace (k + Z.of_nat (S (length l))) with ((k + 1) + Z.of_nat (length l)) by lia.
    apply IH; [lia| |done]. rewrite Z.pow_add_r by lia. unfold byte_range in Hx. lia. }
  intros Hf. apply (H l 0 0); [lia|done|done].
Qed.

Lemma parse_octets_range acc v n p l o : Forall byte_range acc -> byte_range v -> (length acc <= 3)%nat ->
  parse_octets acc v n p l = Some o -> Forall byte_range o /\ length o = 4%nat.
Proof.
  revert acc v n p. induction l as [|c l IH]; intros acc v n p Ha Hv Hl; cbn [parse_octets].
  - destruct (Nat.ltb_spec (length acc) 3); [done|]. intros [= <-]. rewrite length_app. cbn. split; [|lia].
    apply Forall_app_2; [done|by constructor].
  - destruct (is_digit c) eqn:Ec.
    + destruct (_ && _); [done|]. destruct (Z.ltb_spec 255 (v * 10 + digit_val c)); [done|]. apply IH; [done| |done].
      pose proof (digit_range c Ec). unfold byte_range in *. lia.
    + destruct (Ascii.eqb c "."); [|done]. destruct (_ || _); [done|]. destruct (Nat.eqb_spec (length acc) 3); [done|].
      apply IH; [apply Forall_app_2; [done|by constructor]|done|]. rewrite length_app. cbn. lia.
Qed.

Lemma hex_group_range l acc off v n rest : 0 <= acc < 16 ^ Z.of_nat off -> (off <= 4)%nat ->
  hex_group acc off l = Some (v, n, rest) -> group_range v.
Proof.
  revert acc off. induction l as [|c l IH]; intros acc off Ha Ho; cbn [hex_group].
  - intros [= <- _ _]. unfold group_range. assert (16 ^ Z.of_nat off <= 16 ^ 4) by (apply Z.pow_le_mono_r; lia). lia.
  - destruct (hex_val c) as [d|] eqn:Ec.
    + destruct (Nat.ltb_spec 3 off); [done|]. apply IH; [|lia]. apply hex_val_range in Ec.
      replace (Z.of_nat (S off)) with (Z.of_nat off + 1) by lia. rewrite Z.pow_add_r by lia. lia.
    + intros [= <- _ _]. unfold group_range. assert (16 ^ Z.of_nat off <= 16 ^ 4) by (apply Z.pow_le_mono_r; lia). lia.
Qed.

Lemma group_bytes v : group_range v -> Forall byte_range [v / 256; v mod 256].
Proof.
  intros Hv. unfold group_range in Hv. repeat constructor; try (apply Z.mod_pos_bound; lia).
  - apply Z.div_pos; lia.
  - apply Z.div_lt_upper_bound; lia.
Qed.

Lemma v6_loop_range fuel bytes ell l b e : Forall byte_range bytes -> (length bytes <= 16)%nat ->
  match ell with Some k => (k <= length bytes)%nat | None => True end -> Nat.Even (length bytes) ->
  v6_loop fuel bytes ell l = Some (b, e, []) ->
  Forall byte_range b /\ (length b <= 16)%nat /\ match e with Some k => (k <= length b)%nat | None => True end.
Proof.
  revert bytes ell l. induction fuel as [|fuel IH]; intros bytes ell l Hb Hl He Hev; cbn [v6_loop]; [by intros [= <- <- _]|].
  destruct (Nat.leb_spec 16 (length bytes)); [by intros [= <- <- _]|].
  destruct (hex_group 0 0 l) as [[[acc n] rest]|] eqn:Eg; [|done]. apply hex_group_range in Eg; [|cbn; lia|lia].
  assert (Hb' : Forall byte_range (bytes ++ [acc / 256; acc mod 256])) by (apply Forall_app_2; [done|by apply group_bytes]).
  assert (Hl' : length (bytes ++ [acc / 256; acc mod 256]) = (length bytes + 2)%nat) by (rewrite length_app; done).
  assert (H16 : (length bytes + 2 <= 16)%nat) by (destruct Hev as [k ?]; lia).
  assert (Hev' : Nat.Even (length bytes + 2)) by (destruct Hev as [k ?]; exists (S k); lia).
  destruct n; [done|]. destruct rest as [|c rest].
  { intros [= <- <-]. split_and!; [done|lia|]. destruct ell; [lia|done]. }
  destruct (Ascii.eqb c ".").
  { destruct (match ell with None => _ | Some _ => _ end); [done|]. destruct (Nat.ltb_spec 16 (length bytes + 4)); [done|].
    destruct (parse_octets [] 0 0 true l) as [o|] eqn:Eo; [|done]. intros [= <- <-].
    apply parse_octets_range in Eo as [Ho1 Ho2]; [|constructor|unfold byte_range; lia|cbn; lia]. rewrite length_app, Ho2.
    split_and!; [by apply Forall_app_2|lia|]. destruct ell; [lia|done]. }
  destruct (negb _); [done|]. destruct rest as [|c' rest]; [done|]. rewrite Hl'. destruct (Ascii.eqb c' ":").
  - destruct ell; [done|]. destruct rest as [|c'' rest].
    + intros [= <- <-]. split_and!; [done|lia|lia].
    + apply IH; rewrite ?Hl'; (done || lia).
  - apply IH; rewrite ?Hl'; [done|lia| |done]. destruct ell; [lia|done].
Qed.

Lemma v6_finish_valid zone r a :
  (forall b e, r = Some (b, e, []) -> Forall byte_range b /\ (length b <= 16)%nat /\ match e with Some k => (k <= length b)%nat | None => True end) ->
  v6_finish zone r = Some a -> addr_valid a.
Proof.
  intros Hr. destruct r as [[[b e] rest]|]; [|done]. cbn [v6_finish mbind option_bind].
  destruct rest; [|done]. destruct (Hr b e eq_refl) as (H1 & H2 & H3).
  assert (H16 : forall l, Forall byte_range l -> length l = 16%nat -> addr_valid (Addr6 (num_of_octets l) zone)).
  { intros l Hl El. pose proof (num_of_octets_range l Hl) as H. rewrite El in H. exact H. }
  destruct (Nat.ltb_spec (length b) 16); destruct e as [k|]; try done; intros [= <-]; apply H16; try done; try lia.
  - unfold expand_ellipsis. repeat apply Forall_app_2; [by apply Forall_take| |by apply Forall_drop].
    apply Forall_replicate. unfold byte_range. lia.
  - unfold expand_ellipsis. rewrite !length_app, length_take, length_replicate, length_drop. lia.
Qed.

Lemma parseIPv6_cases s a : parseIPv6 s = Some a ->
  (exists zone, a = Addr6 0 zone)
  \/ exists zone ell l, (ell = None \/ ell = Some 0%nat) /\ v6_finish zone (v6_loop 8 [] ell l) = Some a.
Proof.
  unfold parseIPv6. destruct (cut_zone (string_chars s)) as [l z]. destruct (match z with Some [] => true | _ => false end) eqn:Ez.
  { by destruct z as [[|]|]. }
  set (zone := match z with Some zl => string_of_chars zl | None => EmptyString end). intros H.
  assert (H' : match l with
    | ":"%char :: ":"%char :: [] => Some (Addr6 0 zone)
    | ":"%char :: ":"%char :: l' => v6_finish zone (v6_loop 8 [] (Some 0%nat) l')
    | _ => v6_finish zone (v6_loop 8 [] None l) end = Some a) by (destruct z as [[|]|]; done).
  clear H. clearbody zone. clear Ez z.
  assert (Hnone : v6_finish zone (v6_loop 8 [] None l) = Some a ->
    (exists zone, a = Addr6 0 zone)
    \/ exists zone ell l, (ell = None \/ ell = Some 0%nat) /\ v6_finish zone (v6_loop 8 [] ell l) = Some a).
  { intros. right. exists zone, None, l. auto. }
  destruct l as [|c l]; [by apply Hnone|]. destruct (Ascii.eqb_spec c ":") as [->|Hc].
  2: { apply Hnone. clear Hnone. by destruct c as [[] [] [] [] [] [] [] []]. }
  destruct l as [|c l]; [by apply Hnone|]. destruct (Ascii.eqb_spec c ":") as [->|Hc].
  2: { apply Hnone. clear Hnone. by destruct c as [[] [] [] [] [] [] [] []]. }
  clear Hnone. destruct l as [|c l]; [injection H' as <-; eauto|]. right. exists zone, (Some 0%nat), (c :: l). auto.
Qed.

Lemma ParseAddr_valid s a : ParseAddr s = Some a -> addr_valid a.
Proof.
  unfold ParseAddr. intros H. assert (parseIPv4 s = Some a \/ parseIPv6 s = Some a) as [H4|H6].
  { repeat case_match; simplify_eq/=; auto. }
  - unfold parseIPv4 in H4. destruct (parse_octets _ _ _ _ _) as [o|] eqn:E; [|done]. injection H4 as <-.
    apply parse_octets_range in E as [Ho El]; [|constructor|unfold byte_range; lia|cbn; lia].
    pose proof (num_of_octets_range o Ho) as Hn. rewrite El in Hn. exact Hn.
  - apply parseIPv6_cases in H6 as [[zone ->]|(zone & ell & l & He & Hf)]; [unfold addr_valid; cbn; lia|].
    revert Hf. apply v6_finish_valid. intros b e Hb. eapply v6_loop_range; [| | | |exact Hb]; [constructor|cbn; lia| |by exists 0%nat].
    destruct He as [-> | ->]; cbn; lia || done.
Qed.

(** * The round trips *)

Lemma read_addr a : addr_valid a -> AddrZone a = EmptyString -> ParseAddr (AddrString a) = Some a.
Proof.
  destruct a as [n|n z]; cbn [AddrString AddrZone addr_valid addr_num BitLen Is4]; intros Hv Hz; [by apply read_addr4|].
  subst z. cbn [is_empty]. rewrite append_empty_r. by apply read_addr6.
Qed.

Lemma cut_last_app c a b : forallb (fun x => negb (Ascii.eqb x c)) b = true -> cut_last c (a ++ c :: b) = Some (a, b).
Proof.
  intros Hb. assert (Hn : cut_last c b = None).
  { induction b as [|x b IH]; [done|]. cbn in *. apply andb_prop in Hb as [Hx Hb]. rewrite IH by done. by destruct (Ascii.eqb x c). }
  induction a as [|x a IH]; cbn [app cut_last]; [by rewrite Hn, Ascii.eqb_refl|]. by rewrite IH.
Qed.

Definition bits_ok (n : Z) : bool :=
  let cs := string_chars (pretty n) in
  forallb (fun x => negb (Ascii.eqb x "/")) cs
  && match cs with
     | [] => false
     | c :: rest => negb ((match rest with [] => false | _ => true end) && negb (in_range 49 57 c))
     end
  && match decimal_of 0 cs with Some m => m =? n | None => false end.

Lemma bits_printed n : 0 <= n <= 128 -> bits_ok n = true.
Proof. intros Hn. apply (below_cases bits_ok 129); [vm_compute; reflexivity|lia]. Qed.

Lemma of_chars_string s : string_of_chars (string_chars s) = s.
Proof. induction s as [|c s IH]; cbn; [done|]. by rewrite IH. Qed.

Lemma read_prefix p : addr_valid (PAddr p) -> AddrZone (PAddr p) = EmptyString -> 0 <= PBits p <= BitLen (PAddr p) ->
  ParsePrefix (PrefixString p) = Some p.
Proof.
  intros Hv Hz Hb. assert (Hb' : 0 <= PBits p <= 128) by (unfold BitLen in Hb; destruct (Is4 (PAddr p)); lia).
  pose proof (bits_printed _ Hb') as H. unfold bits_ok in H. bool_hyps.
  unfold ParsePrefix, PrefixString. rewrite !chars_app. cbn [string_chars app]. rewrite cut_last_app by done. cbn [mbind option_bind].
  rewrite of_chars_string, read_addr by done. cbn [mbind option_bind]. rewrite Hz. cbn [is_empty negb].
  destruct (string_chars (pretty (PBits p))) as [|c rest]; [done|].
  destruct (_ && _); [done|]. destruct (decimal_of 0 (c :: rest)) as [m|]; [|done]. cbn [mbind option_bind].
  replace m with (PBits p) by lia. rewrite (proj2 (Z.ltb_ge _ _)) by lia. by destruct p.
Qed.

Lemma ParsePrefix_valid s p : ParsePrefix s = Some p -> addr_valid (PAddr p).
Proof.
  unfold ParsePrefix. destruct (cut_last _ _) as [[ip bits]|]; [|done]. cbn [mbind option_bind].
  destruct (ParseAddr _) as [a|] eqn:Ea; [|done]. cbn [mbind option_bind]. apply ParseAddr_valid in Ea.
  destruct (negb _); [done|]. destruct bits; [done|]. destruct (_ && _); [done|]. destruct (decimal_of _ _); [|done].
  cbn [mbind option_bind]. destruct (_ <? _); [done|]. by intros [= <-].
Qed.

(** An IPv4 address has one text: whatever ParseAddr reads as an IPv4 address is what String
    prints for it. *)

(** The digits of the octet being read: none yet, or its decimal text. *)
Definition octet_so_far (v : Z) (len : nat) (cs : list ascii) : Prop :=
  length cs = len /\ match len with O => v = 0 | S _ => cs = string_chars (pretty v) end.

Definition next_digit_ok (v d : Z) : bool :=
  bool_decide (string_chars (pretty (v * 10 + d))
    = (if v =? 0 then [] else string_chars (pretty v)) ++ [ascii_of_nat (Z.to_nat (48 + d))]).

Lemma next_digit v d : 0 <= v < 26 -> 0 <= d < 10 -> next_digit_ok v d = true.
Proof.
  intros Hv Hd.
  pose proof (below_cases (fun v => forallb (fun k => next_digit_ok v (Z.of_nat k)) (seq 0 10)) 26 ltac:(vm_compute; reflexivity) v ltac:(lia)) as H.
  exact (below_cases (next_digit_ok v) 10 H d ltac:(lia)).
Qed.

Lemma digit_char c : is_digit c = true -> ascii_of_nat (Z.to_nat (48 + digit_val c)) = c.
Proof.
  intros Hc. pose proof (digit_range c Hc). unfold digit_val, byte_of in *.
  replace (Z.to_nat (48 + (Z.of_nat (nat_of_ascii c) - 48))) with (nat_of_ascii c) by lia. apply ascii_nat_embedding.
Qed.

Lemma octet_extend v len cs c : 0 <= v -> v * 10 + digit_val c <= 255 -> octet_so_far v len cs -> is_digit c = true ->
  (len =? 1)%nat && (v =? 0) = false -> octet_so_far (v * 10 + digit_val c) (S len) (cs ++ [c]).
Proof.
  intros Hv Hle [Hl Hcs] Hc Hz. pose proof (digit_range c Hc) as Hd. split; [rewrite length_app; cbn; lia|].
  pose proof (next_digit v (digit_val c) ltac:(lia) ltac:(lia)) as E. apply bool_decide_eq_true in E. rewrite E, digit_char by done.
  destruct len as [|len]; [subst v; by destruct cs|]. destruct (Z.eqb_spec v 0) as [->|_]; [|by rewrite Hcs].
  exfalso. subst cs. cbn in Hl. injection Hl as <-. done.
Qed.

(** What remains to be printed of the octets from the current one on. *)
Fixpoint dot_joined (os : list Z) : list ascii :=
  match os with
  | [] => []
  | [o] => string_chars (pretty o)
  | o :: os' => string_chars (pretty o) ++ "."%char :: dot_joined os'
  end.

Lemma parse_octets_text l : forall acc v len cs o, 0 <= v <= 255 -> octet_so_far v len cs -> (length acc <= 3)%nat ->
  (len = 0%nat -> l <> [] \/ acc = []) ->
  parse_octets acc v len (len =? 0)%nat l = Some o ->
  exists os, o = acc ++ os /\ cs ++ l = dot_joined os /\ (length acc + length os = 4)%nat /\ Forall (fun x => 0 <= x < 256) os.
Proof.
  induction l as [|c l IH]; intros acc v len cs o Hv Hcs Ha Hne; cbn [parse_octets].
  - destruct (Nat.ltb_spec (length acc) 3); [done|]. intros [= <-]. exists [v]. rewrite app_nil_r. split_and!; [done| |cbn; lia|].
    + destruct Hcs as [_ Hcs]. destruct len; [|done]. destruct (Hne eq_refl) as [? | ->]; [done|cbn in *; lia].
    + constructor; [lia|constructor].
  - destruct (is_digit c) eqn:Hc.
    + destruct (_ && _) eqn:Hz; [done|]. destruct (Z.ltb_spec 255 (v * 10 + digit_val c)); [done|].
      pose proof (digit_range c Hc). intros Hp. apply (IH acc _ (S len) (cs ++ [c])) in Hp as (os & -> & E & Hl & Hr); [|lia| |done|done].
      * exists os. split_and!; try done. by rewrite <-E, <-app_assoc.
      * apply octet_extend; try done; lia.
    + destruct (Ascii.eqb_spec c ".") as [->|]; [|done]. destruct (_ || _) eqn:Hp; [done|]. apply orb_false_iff in Hp as [Hp Hl'].
      destruct (Nat.eqb_spec (length acc) 3) as [|Hn]; [done|]. intros H.
      apply (IH (acc ++ [v]) 0 0%nat []) in H as (os & -> & E & Hl & Hr).
      * exists (v :: os). rewrite <-app_assoc. rewrite length_app in Hl. cbn [length] in Hl. split_and!; [done| |cbn; lia|constructor; [lia|done]].
        destruct Hcs as [_ Hcs]. destruct len; [done|]. rewrite Hcs. cbn [app] in E. rewrite E. destruct os; [|done]. cbn in Hl. lia.
      * lia.
      * done.
      * rewrite length_app. cbn. lia.
      * intros _. left. by destruct l.
Qed.

Lemma octets_of a b c d : 0 <= a < 256 -> 0 <= b < 256 -> 0 <= c < 256 -> 0 <= d < 256 ->
  quad (num_of_octets [a; b; c; d]) = [a; b; c; d].
Proof.
  intros Ha Hb Hc Hd. unfold quad, octet, num_of_octets. cbn [fold_left]. rewrite !Z.shiftr_div_pow2 by lia.
  change (2^(8*3)) with 16777216. change (2^(8*2)) with 65536. change (2^(8*1)) with 256. change (2^(8*0)) with 1.
  rewrite !Z.mul_0_l, !Z.add_0_l. repeat f_equal; Z.div_mod_to_equations; lia.
Qed.

Lemma canonical4 t n : ParseAddr t = Some (Addr4 n) -> t = AddrString4 n.
Proof.
  unfold ParseAddr. intros H. assert (Hp : parseIPv4 t = Some (Addr4 n)).
  { assert (parseIPv4 t = Some (Addr4 n) \/ parseIPv6 t = Some (Addr4 n)) as [|H6] by (repeat case_match; simplify_eq/=; auto); [done|].
    exfalso. apply parseIPv6_cases in H6 as [[z E]|(z & ell & l & _ & E)]; [done|]. unfold v6_finish in E.
    destruct (v6_loop _ _ _ _) as [[[bs e] rest]|]; [|done]. cbn in E. repeat case_match; done. }
  clear H. unfold parseIPv4 in Hp. destruct (parse_octets _ _ _ _ _) as [o|] eqn:E; [|done]. injection Hp as <-.
  apply (parse_octets_text _ [] 0 0%nat []) in E as (os & -> & Et & Hl & Hr); [|lia|done|cbn; lia|by right].
  destruct os as [|a [|b [|c [|d [|]]]]]; cbn in Hl; try lia. clear Hl.
  repeat match goal with H : Forall _ (_ :: _) |- _ => apply Forall_cons in H as [? H] end.
  pose proof (octets_of a b c d ltac:(done) ltac:(done) ltac:(done) ltac:(done)) as Eq. cbn [app] in *. unfold quad in Eq.
  injection Eq as E3 E2 E1 E0. rewrite <-(of_chars_string t), <-(of_chars_string (AddrString4 _)), AddrString4_dotted, E3, E2, E1, E0.
  f_equal. exact Et.
Qed.
