(* ===== verification/Allocate.v ===== *)
(** internal/addressbook/allocate.go: granting, releasing and expiring leases.

    SHA-256 is a parameter ([sha256_hex], the %x of a digest), as is what is relied on of it:
    it prints lowercase hexadecimal digits. *)

From S2P Require Import Prelude Json NetAddr Ledger Config.
From Stdlib Require Import Ascii.
Local Open Scope Z_scope.

(** Errors: those that wrap ErrUnavailable, and the others. *)
Inductive alloc_error := Unavailable (msg : string) | Refused (msg : string).

Section Allocate.
Context (sha256_hex : string -> string).

Definition deviceID (scope client : string) : string :=
  String.substring 0 23 ("device-" +++ sha256_hex (scope +++ "/" +++ client)).

Definition reservation (s : Scope) (client mac : string) : option Reservation :=
  find (fun r => (rClient r =?s client) || (rClient r =?s ("mac:" +++ mac))) (Reservations s).

Definition allowed (s : Scope) (client mac ip : string) : bool :=
  match ParseAddr ip with
  | None => false
  | Some a =>
    if negb (Bool.eqb (Is6 a) (scope_is6 s)) || (ip =?s sServer s) || (ip =?s Router s) then false
    else match reservation s client mac with
         | Some r => rAddress r =?s ip
         | None =>
           negb (existsb (fun r => rAddress r =?s ip) (Reservations s))
           && addr_leb (must_addr (sStart s)) a && addr_leb a (must_addr (sEnd s))
         end
  end.

Definition usable_state (state : string) : bool := (state =?s "active") || (state =?s "offered").

Definition busy (now : Z) (b : Binding) : bool := (now <? End_ b) && liveState (bState b).

(** A binding that keeps the address from [client]. *)
Definition blocks (now : Z) (client : string) (b : Binding) : bool :=
  busy now b && negb ((Client b =?s client) && negb (bState b =?s "declined")).

Definition available (l : ledger) (now : Z) (s : Scope) (client mac ip : string) : bool :=
  allowed s client mac ip && negb (blocks now client (readBinding l (sID s) ip)).

(** The walk over the pool; [fuel] bounds it (Validate limits a pool to 65536 addresses and
    refuses one that reaches the last address, so Next never runs out before the end). *)
Fixpoint scan_pool (fuel : nat) (ok : string -> bool) (a : option Addr) (end_ : Addr) : option string :=
  match fuel with
  | O => None
  | S fuel' =>
    match a with
    | Some x => if addr_leb x end_ then
                  if ok (AddrString x) then Some (AddrString x) else scan_pool fuel' ok (Next x) end_
                else None
    | None => None
    end
  end.
Definition pool_limit : nat := Z.to_nat 65536.

(** The address a discovering client is given first: the one it holds, or its reservation. *)
Definition held (now : Z) (s : Scope) (client mac : string) (b : Binding) : bool :=
  negb (Origin b =?s originPD) && (now <? End_ b) && usable_state (bState b) && allowed s client mac (Address b).

Definition first_choice (l : ledger) (now : Z) (s : Scope) (client mac requested : string) : string :=
  let c := fold_left (fun c b => if held now s client mac b then Address b else c)
             (liveByClient l (sID s) client) requested in
  match reservation s client mac with Some r => rAddress r | None => c end.

Definition choose (l : ledger) (now : Z) (s : Scope) (client mac requested : string) (commit : bool) :
    result alloc_error string :=
  if commit && is_empty requested then Err (Unavailable "request must identify its address") else
  let candidate := if commit then requested else first_choice l now s client mac requested in
  if available l now s client mac candidate then Ok candidate
  else if commit then Err (Unavailable "requested address is outside client policy or occupied")
  else match reservation s client mac with
       | Some _ => Err (Unavailable "reserved address is occupied")
       | None =>
         match scan_pool pool_limit (available l now s client mac) (Some (must_addr (sStart s))) (must_addr (sEnd s)) with
         | Some ip => Ok ip
         | None => Err (Unavailable "address pool exhausted")
         end
       end.

Definition no_device : DeviceConfig := mkDevice [] [] EmptyString EmptyString EmptyString.

(** The identity a new binding carries: the last lease's, then an operator's association,
    then the inventory. *)
Definition identify (c : Config) (l : ledger) (now : Z) (s : Scope) (old b : Binding) : Binding :=
  let b1 := if (Client old =?s Client b) && (now <? End_ old) && negb (bState old =?s "declined")
            then with_identity (Device old) (Name old) (NodeID old) (Evidence old) b else b in
  let b2 := match associations l !! Client b with
            | Some a => with_identity (aDevice a) (aName a) (aNodeID a) ("operator repair: " +++ Reason a) b1
            | None => b1
            end in
  match reservation s (Client b) (MAC b) with
  | Some r => let d := default no_device (find_device c (rDevice r)) in
              with_identity (dID d) (dName d) (dNodeID d) "inventory reservation" b2
  | None => b2
  end.

Definition duid_parts (client : string) : string * string :=
  match Split (trim_prefix client "duid:") "/iaid:" with
  | d :: i :: _ => (d, i)
  | _ => (EmptyString, EmptyString)
  end.

(** The binding Allocate writes, and the kind of its event. *)
Definition new_binding (c : Config) (l : ledger) (now : Z) (s : Scope) (client mac claimed ip : string) (commit : bool) :
    Binding * string :=
  let old := readBinding l (sID s) ip in
  let mine := (Client old =?s client) && (now <? End_ old) in
  let six := scope_is6 s in
  let '(duid, iaid) := if six then duid_parts client else (EmptyString, EmptyString) in
  let dev := deviceID (sID s) client in
  let b := mkBinding duid iaid (if commit && six then now + PreferredSeconds s else 0) (sID s) ip client mac dev dev
             (ToValidUTF8 claimed) (if commit then "active" else "offered")
             (if six then "dhcpv6" else "dhcpv4")
             (if mine && negb (bState old =?s "declined") then Start old else now)
             (if commit then now + LeaseSeconds s else now + 30) EmptyString EmptyString EmptyString in
  (identify c l now s old b,
   if commit then (if mine && (bState old =?s "active") then "renew" else "grant") else "offer").

(** The checks before the transaction: the scope and the canonical hardware address. *)
Definition admission (c : Config) (scopeID client mac : string) : result alloc_error (Scope * string) :=
  match find_scope c scopeID with
  | None => Err (Refused "scope is not enabled")
  | Some s =>
    check (Enabled s) (Refused "scope is not enabled");;
    check (validClient client) (Refused "invalid client identifier");;
    mac' ← (if negb (is_empty mac) || negb (scope_is6 s) then
              match ParseMAC mac with
              | Some hw => if (length hw =? 6)%nat then Ok (MACString hw) else Err (Refused "invalid hardware address")
              | None => Err (Refused "invalid hardware address")
              end
            else Ok mac);
    check (Bool.eqb (scope_is6 s) (has_prefix client "duid:")) (Refused "client family does not match scope");;
    Ok (s, mac')
  end.

Definition allocate_tx (now : Z) (c : Config) (s : Scope) (client mac claimed requested : string) (commit : bool)
    (l : ledger) : result alloc_error (ledger * Binding) :=
  ip ← choose l now s client mac requested commit;
  let old := readBinding l (sID s) ip in
  if negb commit && (Client old =?s client) && (bState old =?s "active") && (now <? End_ old) then Ok (l, old)
  else let '(b, kind) := new_binding c l now s client mac claimed ip commit in
       Ok (save now b kind l, b).

Definition Allocate (now : Z) (c : Config) (scopeID client mac claimed requested : string) (commit : bool)
    (l : ledger) : ledger * result alloc_error Binding :=
  match admission c scopeID client mac with
  | Err e => (l, Err e)
  | Ok (s, mac') => update (allocate_tx now c s client mac' claimed requested commit) l
  end.

(** * Release and expiry *)

Definition Release (now : Z) (scope client ip : string) (decline : bool) (l : ledger) :
    ledger * result alloc_error unit :=
  update (fun l =>
    let b := readBinding l scope ip in
    fail_if (negb (Client b =?s client) || (End_ b <=? now) || negb (usable_state (bState b)))
      (Refused "no live binding owned by client");;
    Ok (if decline then save now (with_state "declined" (now + 600) b) "decline" l
        else save now (with_state "released" now b) "release" l, tt)) l.

Definition expiry_le (a b : Z * string) : Prop := fst a < fst b \/ (fst a = fst b /\ String.le (snd a) (snd b)).
#[local] Instance expiry_le_dec : RelDecision expiry_le.
Proof. intros a b. unfold expiry_le. apply _. Defined.

(** int64 of the first eight bytes of a key. *)
Definition int64 (u : Z) : Z := if u <? 2^63 then u else u - 2^64.

(** The keys that are due, in order: the cursor stops at the first that is not. *)
Fixpoint take_due (now : Z) (limit : nat) (keys : list (Z * string)) : list (Z * string) :=
  match limit, keys with
  | S limit', k :: keys' => if int64 (fst k) <=? now then k :: take_due now limit' keys' else []
  | _, _ => []
  end.

Definition expire_one (now : Z) (l : ledger) (k : Z * string) : ledger :=
  let drop := set_expiry (expiry l ∖ {[k]}) l in
  match bindings l !! snd k with
  | None => drop
  | Some b => if negb (liveState (bState b)) || negb (End_ b =? int64 (fst k)) then drop
              else save now (with_state "expired" (End_ b) b) "expire" l
  end.

Definition Expire (now : Z) (l : ledger) : ledger :=
  fold_left (expire_one now) (take_due now 1000 (merge_sort expiry_le (elements (expiry l)))) l.

End Allocate.
