(* ===== verification/AllocInv.v ===== *)
(** Every address-book operation keeps the ledger well formed, and the choice of an address
    only ever yields one that is available to the client. *)

From S2P Require Import Prelude Json NetAddr Ledger LedgerInv Config KeyText ConfigInv Allocate.
From Stdlib Require Import Ascii.
Local Open Scope Z_scope.

(** * The pool walk *)

Lemma scan_pool_ok fuel ok a e ip : scan_pool fuel ok a e = Some ip -> ok ip = true.
Proof.
  revert a. induction fuel as [|fuel IH]; intros a; cbn [scan_pool]; [done|]. destruct a as [x|]; [|done].
  case_match; [|done]. destruct (ok (AddrString x)) eqn:E; [by intros [= <-]|]. apply IH.
Qed.

Lemma Next_zone a b : Next a = Some b -> AddrZone b = AddrZone a.
Proof. unfold Next. case_match; [|done]. intros [= <-]. by destruct a. Qed.

Lemma scan_pool_text fuel ok a e ip :
  (forall x, a = Some x -> AddrZone x = EmptyString) -> scan_pool fuel ok a e = Some ip ->
  exists x, ip = AddrString x /\ AddrZone x = EmptyString.
Proof.
  revert a. induction fuel as [|fuel IH]; intros a Hz; cbn [scan_pool]; [done|]. destruct a as [x|]; [|done].
  case_match; [|done]. case_match; [intros [= <-]; eauto|]. apply IH. intros y ->%Next_zone. by apply Hz.
Qed.

(** [k] steps of Next. *)
Fixpoint next_n (k : nat) (a : Addr) : option Addr :=
  match k with O => Some a | S k' => Next a ≫= next_n k' end.

(** The walk misses no address, given the fuel that Validate checks the pool against. *)
Lemma scan_pool_complete fuel ok a e x k :
  pool_fits fuel (Some a) e = true ->
  next_n k a = Some x -> (forall i y, (i <= k)%nat -> next_n i a = Some y -> addr_leb y e = true) ->
  ok (AddrString x) = true -> is_Some (scan_pool fuel ok (Some a) e).
Proof.
  revert a k. induction fuel as [|fuel IH]; intros a k Hf Hx Hle Hok.
  - cbn in Hf. by rewrite (Hle 0%nat a) in Hf by (done || lia).
  - cbn [scan_pool]. pose proof (Hle 0%nat a ltac:(lia) eq_refl) as Ha. rewrite Ha.
    destruct (ok (AddrString a)) eqn:E; [eauto|]. destruct k as [|k]; [cbn in Hx; congruence|].
    cbn [next_n] in Hx. destruct (Next a) as [b|] eqn:En; [|done]. cbn [mbind option_bind] in Hx.
    apply (IH b k); [|done| |done].
    + cbn in Hf. rewrite Ha in Hf. cbn in Hf. by rewrite En in Hf.
    + intros i y Hi Hy. apply (Hle (S i)); [lia|]. cbn. by rewrite En.
Qed.

(** * The choice of an address *)

Section Choice.
Context (l : ledger) (now : Z) (s : Scope) (client mac requested : string).

Lemma choose_available commit ip :
  choose l now s client mac requested commit = Ok ip -> available l now s client mac ip = true.
Proof.
  unfold choose. repeat case_match; intros [= <-]; first [done | by eapply scan_pool_ok].
Qed.

Lemma choose_commit ip : choose l now s client mac requested true = Ok ip -> ip = requested.
Proof. unfold choose. repeat case_match; by intros [= <-]. Qed.

Lemma blocks_spec b : blocks now client b = true <->
  now < End_ b /\ liveState (bState b) = true /\ (Client b <> client \/ bState b = "declined").
Proof.
  unfold blocks, busy. rewrite !andb_true_iff, Z.ltb_lt, negb_true_iff, andb_false_iff, negb_false_iff.
  rewrite String.eqb_eq, String.eqb_neq. tauto.
Qed.

Lemma available_allowed ip : available l now s client mac ip = true -> allowed s client mac ip = true.
Proof. unfold available. by intros [? _]%andb_prop. Qed.

(** What [allowed] grants: never an address of the server's own, never somebody else's
    reservation. *)
Lemma allowed_spec ip : allowed s client mac ip = true ->
  exists a, ParseAddr ip = Some a /\ Is6 a = scope_is6 s /\ ip <> sServer s /\ ip <> Router s
  /\ match reservation s client mac with
     | Some r => rAddress r = ip
     | None => (forall r, r ∈ Reservations s -> rAddress r <> ip)
               /\ addr_leb (must_addr (sStart s)) a = true /\ addr_leb a (must_addr (sEnd s)) = true
     end.
Proof.
  unfold allowed. destruct (ParseAddr ip) as [a|]; [|done]. case_match eqn:E; [done|]. bool_hyps.
  intros Hr. exists a. split; [done|]. split; [by apply eqb_prop|]. split_and!; [done..|].
  destruct (reservation s client mac) as [r|]; [by apply String.eqb_eq|]. bool_hyps. split; [|done].
  intros r Hin Heq. assert (existsb (fun r => rAddress r =?s ip) (Reservations s) = true); [|congruence].
  apply existsb_exists. exists r. split; [by apply list_elem_of_In|]. by apply String.eqb_eq.
Qed.

End Choice.

(** * Allocate, step by step *)

Section Allocate.
Context (sha256_hex : string -> string).
Context (sha_digits : forall x, str_forallb hex_lower_char (sha256_hex x) = true).

Lemma admission_ok c id client mac s mac' :
  admission c id client mac = Ok (s, mac') ->
  find_scope c id = Some s /\ Enabled s = true /\ validClient client = true /\ no_nul mac' = true
  /\ has_prefix client "duid:" = scope_is6 s.
Proof.
  unfold admission. destruct (find_scope c id) as [s0|]; [|done]. intros H.
  apply seq_ok in H as [H1%check_ok H]. apply seq_ok in H as [H2%check_ok H]. next_ok H.
  apply seq_ok in H as [H3%check_ok [= -> ->]]. apply eqb_prop in H3. split_and!; try done.
  destruct (negb (is_empty mac) || negb (scope_is6 s)) eqn:E.
  - destruct (ParseMAC mac) as [hw|] eqn:Ehw; [|done]. destruct (length hw =? 6)%nat; [|done].
    apply Ok_inj in Hx as <-. by eapply MACString_no_nul, ParseMAC_range.
  - apply Ok_inj in Hx as <-. bool_hyps. by destruct mac.
Qed.

Lemma Allocate_ok now c id client mac claimed requested commit l l' b :
  Allocate sha256_hex now c id client mac claimed requested commit l = (l', Ok b) ->
  exists s mac' ip, admission c id client mac = Ok (s, mac') /\ choose l now s client mac' requested commit = Ok ip
  /\ ((commit = false /\ l' = l /\ b = readBinding l (sID s) ip /\ Client b = client /\ bState b = "active" /\ now < End_ b)
      \/ exists kind, new_binding sha256_hex c l now s client mac' claimed ip commit = (b, kind) /\ l' = save now b kind l).
Proof.
  unfold Allocate. destruct (admission c id client mac) as [[s mac']|] eqn:Ea; [|done]. unfold update, allocate_tx.
  destruct (choose l now s client mac' requested commit) as [ip|] eqn:Ec; [|done]. cbn.
  destruct (negb commit && _ && _ && _) eqn:E.
  - intros [= <- <-]. exists s, mac', ip. split_and!; [done..|]. left. bool_hyps. done.
  - destruct (new_binding _ _ _ _ _ _ _ _ _ _) as [b' kind] eqn:En. intros [= <- <-]. exists s, mac', ip.
    split_and!; [done..|]. right. by exists kind.
Qed.

(** A refused allocation changes nothing. *)
Lemma Allocate_err now c id client mac claimed requested commit l l' e :
  Allocate sha256_hex now c id client mac claimed requested commit l = (l', Err e) -> l' = l.
Proof.
  unfold Allocate, update, allocate_tx. destruct (admission _ _ _ _) as [[s mac']|]; [|by intros [= <-]].
  destruct (choose _ _ _ _ _ _ _) as [ip|]; [|by intros [= <-]]. cbn.
  destruct (negb commit && _ && _ && _); [done|]. by destruct (new_binding _ _ _ _ _ _ _ _ _ _).
Qed.

Lemma identify_fields c l now s old b :
  let b' := identify c l now s old b in
  bScope b' = bScope b /\ Address b' = Address b /\ Client b' = Client b /\ MAC b' = MAC b /\ bState b' = bState b
  /\ Origin b' = Origin b /\ End_ b' = End_ b /\ Start b' = Start b.
Proof. unfold identify. repeat case_match; done. Qed.

Lemma new_binding_fields c l now s client mac claimed ip commit b kind :
  new_binding sha256_hex c l now s client mac claimed ip commit = (b, kind) ->
  bScope b = sID s /\ Address b = ip /\ Client b = client /\ MAC b = mac
  /\ bState b = (if commit then "active" else "offered")
  /\ Origin b = (if scope_is6 s then "dhcpv6" else "dhcpv4")
  /\ End_ b = (if commit then now + LeaseSeconds s else now + 30).
Proof.
  unfold new_binding. destruct (if scope_is6 s then _ else _) as [duid iaid]. intros [= <- _].
  destruct (identify_fields c l now s (readBinding l (sID s) ip)
    (mkBinding duid iaid (if commit && scope_is6 s then now + PreferredSeconds s else 0) (sID s) ip client mac
       (deviceID sha256_hex (sID s) client) (deviceID sha256_hex (sID s) client) (ToValidUTF8 claimed)
       (if commit then "active" else "offered") (if scope_is6 s then "dhcpv6" else "dhcpv4")
       (if (Client (readBinding l (sID s) ip) =?s client) && (now <? End_ (readBinding l (sID s) ip))
           && negb (bState (readBinding l (sID s) ip) =?s "declined") then Start (readBinding l (sID s) ip) else now)
       (if commit then now + LeaseSeconds s else now + 30) EmptyString EmptyString EmptyString))
    as (E1 & E2 & E3 & E4 & E5 & E6 & E7 & _). done.
Qed.

(** Texts that may name a host. *)
Definition sound_name (n : string) : Prop := is_empty n = false /\ no_slash n = true /\ no_nul n = true.

Lemma substring_chars p n m x : str_forallb p x = true -> str_forallb p (String.substring n m x) = true.
Proof.
  unfold str_forallb. revert n m. induction x as [|c x IH]; intros [|n] [|m] H; cbn in *; try done.
  - apply andb_prop in H as [-> H]. by apply IH.
  - apply andb_prop in H as [_ H]. by apply IH.
  - apply andb_prop in H as [_ H]. by apply IH.
Qed.

Lemma deviceID_sound scope client : sound_name (deviceID sha256_hex scope client).
Proof.
  assert (H : str_forallb label_char (deviceID sha256_hex scope client) = true).
  { apply substring_chars. rewrite str_forallb_app. apply andb_true_intro. split; [done|].
    pose proof (sha_digits (scope +++ "/" +++ client)) as Hs.
    unfold str_forallb in *. revert Hs. generalize (string_chars (sha256_hex (scope +++ "/" +++ client))) as cs.
    intros cs. induction cs as [|x cs IH]; cbn; [done|]. intros [Hx Hc]%andb_prop. rewrite IH by done.
    unfold label_char, label_end, hex_lower_char, is_lower, in_range in *. apply orb_prop in Hx as [->|Hx].
    - by rewrite orb_true_r.
    - bool_hyps. rewrite (proj2 (Z.leb_le _ _)), (proj2 (Z.leb_le _ _)) by lia. done. }
  split_and!; [done|by apply (text_no_slash label_char)|by apply (text_no_nul label_char)].
Qed.

(** * What Allocate writes is sound *)

(** An address text without a zone, as the packet handlers print addresses. *)
Definition plain (ip : string) : Prop := forall a, ParseAddr ip = Some a -> AddrZone a = EmptyString.

Lemma plain_check ip :
  match ParseAddr ip with Some a => is_empty (AddrZone a) | None => true end = true -> plain ip.
Proof. unfold plain. intros H a E. rewrite E in H. by apply is_empty_spec. Qed.

(** The ledger between operations: well formed, its addresses plain, delegated prefixes
    written as the library prints them, its end times nonnegative int64 values, every operator's association with a usable name, and every
    sighting sound. *)
Definition printed (b : Binding) : Prop :=
  Origin b = originPD -> exists p, ParsePrefix (Address b) = Some p /\ PrefixString p = Address b.
Definition lasting (b : Binding) : Prop := (plain (Address b) /\ printed b) /\ 0 <= End_ b < 2^63.
(** A stored sighting as the evidence collectors write it. *)
Definition sound_sighting (o : Observation) : Prop :=
  (is_empty (oScope o) = false /\ no_slash (oScope o) = true /\ no_nul (oScope o) = true)
  /\ no_nul (oAddress o) = true /\ plain (oAddress o) /\ no_nul (oMAC o) = true /\ 0 <= Until o < 2^63.

Record ledger_ok (l : ledger) : Prop := {
  ok_wf : wf l;
  ok_lasting b : stored l b -> lasting b;
  ok_names k a : associations l !! k = Some a -> sound_name (aName a);
  ok_sightings k o : observations l !! k = Some o -> sound_sighting o;
}.

Lemma ok_empty : ledger_ok empty_ledger.
Proof.
  split; [apply wf_empty|..].
  - intros b. unfold stored. cbn. by rewrite lookup_empty.
  - intros k a. cbn. by rewrite lookup_empty.
  - intros k o. cbn. by rewrite lookup_empty.
Qed.

Lemma Contains_zone p a : Contains p a = true -> AddrZone a = EmptyString.
Proof. unfold Contains. intros H. bool_hyps. by apply is_empty_spec. Qed.

Lemma must_addr_host p v : valid_host p v = true -> Contains p (must_addr v) = true.
Proof. intros (a & E & H)%valid_host_spec. unfold must_addr. by rewrite E. Qed.

Section Sound.
Context (c : Config) (devs : gset string) (ps : list Prefix) (Hc : good_config c devs ps).
Context (s : Scope) (p : Prefix) (Hs : good_scope devs s p).

Lemma reservation_good client mac r :
  reservation s client mac = Some r ->
  r ∈ Reservations s /\ good_reservation devs s p r /\ (rClient r = client \/ rClient r = "mac:" +++ mac).
Proof.
  intros [Hin H]%find_some. apply list_elem_of_In in Hin. split; [done|]. split.
  - pose proof (gs_reservations _ _ _ Hs) as HF. rewrite Forall_forall in HF. by apply HF.
  - apply orb_prop in H as [H|H]; apply String.eqb_eq in H; auto.
Qed.

Lemma host_no_nul v : valid_host p v = true -> no_nul v = true.
Proof. intros (a & E & H)%valid_host_spec. eapply ParseAddr_no_nul; [done|]. by eapply Contains_zone. Qed.

(** An allowed address without a zone lies in the scope's subnet. *)
Lemma allowed_subnet client mac ip : plain ip -> allowed s client mac ip = true -> in_subnet s ip.
Proof.
  intros Hz (a & Ea & _ & _ & _ & Hr)%allowed_spec. exists p, a. split; [apply (gs_prefix _ _ _ Hs)|]. split; [done|].
  destruct (reservation s client mac) as [r|] eqn:Er.
  - apply reservation_good in Er as (_ & (_ & (b & Eb & Hb)%valid_host_spec & _) & _). congruence.
  - destruct Hr as (_ & H1 & H2). pose proof (ParsePrefix_bits _ _ (gs_prefix _ _ _ Hs)) as [Hbits _].
    eapply (Contains_between p (must_addr (sStart s)) a (must_addr (sEnd s))); [lia| | |by apply Hz|done..];
      apply must_addr_host, Hs.
Qed.

(** It is a host of the subnet: not its own address nor, for IPv4, the last one. *)
Lemma allowed_host client mac ip : plain ip -> allowed s client mac ip = true -> valid_host p ip = true.
Proof.
  intros Hz (a & Ea & _ & _ & _ & Hr)%allowed_spec. destruct (reservation s client mac) as [r|] eqn:Er.
  - apply reservation_good in Er as (_ & (_ & Hv & _) & _). by rewrite <-Hr.
  - destruct Hr as (_ & H1 & H2). pose proof (ParsePrefix_bits _ _ (gs_prefix _ _ _ Hs)) as Hbits.
    eapply (host_between p (sStart s) (sEnd s) ip a); [apply Hs|lia|apply Hs|apply Hs|done|by apply Hz|done..].
Qed.

Lemma in_subnet_plain ip : in_subnet s ip -> plain ip.
Proof. intros (q & a & _ & Ea & H) b Eb. rewrite Ea in Eb. injection Eb as <-. by eapply Contains_zone. Qed.

Lemma allowed_no_nul client mac ip : plain ip -> allowed s client mac ip = true -> no_nul ip = true.
Proof. intros Hz (a & Ea & _)%allowed_spec. eapply ParseAddr_no_nul; [done|]. by apply Hz. Qed.

Lemma identify_sound l now old b :
  ledger_ok l -> sound_name (Name b) -> (Client old = Client b -> sound_name (Name old)) ->
  sound_name (Name (identify c l now s old b)).
Proof.
  intros [_ _ Ha _] Hb Ho. unfold identify. destruct (reservation s (Client b) (MAC b)) as [r|] eqn:Er.
  - apply reservation_good in Er as (_ & (_ & _ & Hd & _) & _).
    apply (gc_known _ _ _ Hc) in Hd as (d & Hin & Hid). destruct (find_device c (rDevice r)) as [d'|] eqn:Ed.
    + apply find_some in Ed as [Hin'%list_elem_of_In _]. cbn. pose proof (gc_devices _ _ _ Hc) as HF.
      rewrite Forall_forall in HF. by apply label_key, HF.
    + eapply find_none in Ed; [|by apply list_elem_of_In]. cbn in Ed. rewrite Hid, String.eqb_refl in Ed. done.
  - destruct (associations l !! Client b) as [a|] eqn:Ea; [by apply (Ha _ _ Ea)|].
    destruct (_ && _ && _) eqn:E; [|done]. bool_hyps. by apply Ho.
Qed.

Lemma first_choice_cases l now client mac requested :
  let c := first_choice l now s client mac requested in
  (exists r, reservation s client mac = Some r /\ c = rAddress r)
  \/ (reservation s client mac = None
      /\ (c = requested \/ exists b, b ∈ liveByClient l (sID s) client /\ held now s client mac b = true /\ c = Address b)).
Proof.
  unfold first_choice. destruct (reservation s client mac) as [r|] eqn:Er; [left; eauto|right]. split; [done|].
  generalize (liveByClient l (sID s) client) as bs. intros bs. revert requested.
  induction bs as [|b bs IH]; intros requested; cbn [fold_left]; [by left|].
  destruct (IH (if held now s client mac b then Address b else requested)) as [E|(b' & Hin & Hh & E)].
  - rewrite E. destruct (held now s client mac b) eqn:Hb; [|by left]. right. exists b. split; [left|done].
  - right. exists b'. split; [by right|done].
Qed.

Lemma choose_plain l now client mac requested commit ip :
  ledger_ok l -> plain requested -> choose l now s client mac requested commit = Ok ip -> plain ip.
Proof.
  intros [Hwf Hp _ _] Hr. unfold choose. destruct (commit && is_empty requested); [done|].
  set (cand := if commit then requested else _). assert (Hc' : plain cand).
  { unfold cand. destruct commit; [done|].
    destruct (first_choice_cases l now client mac requested) as [(r & Er & ->)|(_ & [-> |(b & Hb & _ & ->)])]; [|done|].
    - apply reservation_good in Er as (_ & (_ & (a & Ea & Ha)%valid_host_spec & _) & _).
      intros b Eb. rewrite Ea in Eb. injection Eb as <-. by eapply Contains_zone.
    - apply Hp. unfold liveByClient in Hb. by apply liveFromIndex_exact in Hb as [? _]. }
  destruct (available _ _ _ _ _ cand); [by intros [= <-]|]. destruct commit; [done|].
  destruct (reservation s client mac); [done|]. destruct (scan_pool _ _ _ _) as [x|] eqn:Es; [|done].
  intros [= <-]. apply scan_pool_text in Es as (a & -> & Hz).
  - intros b. apply percent_zone. eapply str_forallb_weaken; [apply printed_not_percent|by apply AddrString_chars].
  - intros a [= <-]. eapply Contains_zone, must_addr_host, Hs.
Qed.

Lemma read_client l scope ip client :
  wf l -> no_slash scope = true -> Client (readBinding l scope ip) = client -> client <> EmptyString ->
  stored l (readBinding l scope ip) /\ bScope (readBinding l scope ip) = scope /\ Address (readBinding l scope ip) = ip.
Proof.
  intros Hwf Hsc Hcl Hne. unfold readBinding in *. destruct (bindings l !! bindingKey scope ip) as [b|] eqn:E; [|by subst].
  cbn in *. destruct (wf_keys _ Hwf _ _ E) as [Ek Hb]. unfold stored. rewrite <-Ek. split; [done|].
  apply bindingKey_inj in Ek as [E1 E2]; [done|done|apply Hb].
Qed.

Lemma new_binding_sound l now client mac claimed ip commit b kind :
  ledger_ok l -> validClient client = true -> no_nul mac = true -> no_nul ip = true ->
  new_binding sha256_hex c l now s client mac claimed ip commit = (b, kind) -> sound_binding b.
Proof.
  intros Hl Hcl Hmac Hip Hn. pose proof (new_binding_fields _ _ _ _ _ _ _ _ _ _ _ Hn) as (E1 & E2 & E3 & E4 & _).
  destruct (label_key _ (gs_id _ _ _ Hs)) as (S1 & S2 & S3).
  assert (Hname : sound_name (Name b)).
  { unfold new_binding in Hn. destruct (if scope_is6 s then _ else _) as [duid iaid]. injection Hn as <- _.
    apply identify_sound; [done|apply deviceID_sound|]. cbn [Client]. intros Hold.
    destruct (read_client l (sID s) ip client) as [Hst _]; [apply Hl|done|done|by intros ->|].
    apply (stored_sound l (ok_wf _ Hl)) in Hst. destruct Hst as (_ & _ & _ & N1 & N2 & N3 & _). done. }
  destruct Hname as (N1 & N2 & N3). unfold sound_binding. rewrite E1, E2, E3, E4. split_and!; try done.
  by apply validClient_no_nul.
Qed.

End Sound.

Lemma keep_save now b kind l : ledger_ok l -> sound_binding b -> lasting b -> ledger_ok (save now b kind l).
Proof.
  intros [Hwf Hp Ha Ho] Hb Hl.
  destruct (save_fields now b kind l) as (F1 & _ & _ & _ & _ & _ & _ & F8 & F9 & _). split.
  - by apply save_wf.
  - intros b'. unfold stored. rewrite F1, lookup_insert_Some. intros [[_ <-]|[_ ?]]; [done|by apply Hp].
  - rewrite F9. done.
  - rewrite F8. done.
Qed.

(** Unix times the arithmetic on end times stays inside int64 for. *)
Definition unix (now : Z) : Prop := 0 <= now < 2^62.

Lemma Allocate_keeps now c id client mac claimed requested commit l l' r :
  Validate c = Ok tt -> unix now -> plain requested -> ledger_ok l ->
  Allocate sha256_hex now c id client mac claimed requested commit l = (l', r) -> ledger_ok l'.
Proof.
  intros Hc Hn Hr Hl H. destruct r as [b|e]; [|by apply Allocate_err in H as ->].
  apply Allocate_ok in H as (s & mac' & ip & Ha & Hch & H). destruct H as [(_ & -> & _)|(kind & Hb & ->)]; [done|].
  apply admission_ok in Ha as (Hf & _ & Hcl & Hmac & _).
  apply (find_scope_good c id s Hc) in Hf as (_ & devs & ps & p & Gc & Gs).
  assert (Hip : plain ip) by (by eapply choose_plain).
  apply choose_available, available_allowed in Hch. apply keep_save; [done| |].
  - eapply new_binding_sound; [done..|by eapply allowed_no_nul|done].
  - unfold lasting, printed. apply new_binding_fields in Hb as (_ & -> & _ & _ & _ & -> & ->).
    split; [split; [done|by destruct (scope_is6 s)]|]. pose proof (gs_lease _ _ _ Gs). unfold unix in Hn. destruct commit; lia.
Qed.

Lemma with_state_sound st e b : sound_binding b -> sound_binding (with_state st e b).
Proof. done. Qed.

Lemma Release_ok now scope client ip decline l l' :
  Release now scope client ip decline l = (l', Ok tt) ->
  let b := readBinding l scope ip in
  Client b = client /\ now < End_ b /\ usable_state (bState b) = true
  /\ l' = if decline then save now (with_state "declined" (now + 600) b) "decline" l
          else save now (with_state "released" now b) "release" l.
Proof.
  unfold Release, update. destruct (_ || _) eqn:E; [done|]. cbn [fail_if]. intros [= <-]. bool_hyps. done.
Qed.

Lemma Release_err now scope client ip decline l l' e : Release now scope client ip decline l = (l', Err e) -> l' = l.
Proof. unfold Release, update. destruct (fail_if _ _) as [[]|]; cbn; intros H; by simplify_eq. Qed.

(** Whatever the client text, a live binding that was read is a stored one. *)
Lemma read_live l scope ip : wf l -> liveState (bState (readBinding l scope ip)) = true ->
  stored l (readBinding l scope ip) /\ bindingKey scope ip = key_of (readBinding l scope ip).
Proof.
  intros Hwf. unfold readBinding. destruct (bindings l !! bindingKey scope ip) as [b|] eqn:E; [|done]. cbn. intros _.
  destruct (wf_keys _ Hwf _ _ E) as [Ek _]. unfold stored. by rewrite <-Ek.
Qed.

Lemma usable_live st : usable_state st = true -> liveState st = true.
Proof. unfold usable_state, liveState. by intros ->. Qed.

Lemma Release_keeps now scope client ip decline l l' r :
  unix now -> ledger_ok l -> Release now scope client ip decline l = (l', r) -> ledger_ok l'.
Proof.
  intros Hn Hl H. destruct r as [[]|e]; [|by apply Release_err in H as ->].
  apply Release_ok in H as (_ & _ & Hu%usable_live & ->). destruct (read_live l scope ip (ok_wf _ Hl) Hu) as [Hst _].
  pose proof (stored_sound l (ok_wf _ Hl) _ Hst). destruct (ok_lasting _ Hl _ Hst) as [Hp He]. unfold unix in Hn.
  destruct decline; (apply keep_save; [done|by apply with_state_sound|split; [done|cbn; lia]]).
Qed.

End Allocate.

(** * Expiry *)

Lemma int64_small e : 0 <= e < 2^63 -> int64 (e mod 2^64) = e /\ e mod 2^64 = e.
Proof.
  intros He. rewrite Z.mod_small by lia. split; [|done]. unfold int64. by rewrite (proj2 (Z.ltb_lt e (2^63))) by lia.
Qed.

Section Expiry.
Context (now : Z).

(** An entry of the expiry index leads to the live binding it was written for. *)
Lemma expiry_entry_read l k : ledger_ok l -> k ∈ expiry l ->
  exists b, stored l b /\ snd k = key_of b /\ liveState (bState b) = true /\ fst k = End_ b /\ int64 (fst k) = End_ b.
Proof.
  intros [Hwf Hlast _ _] (b & Hb & Hlive & ->)%(wf_expiry _ Hwf). exists b.
  destruct (Hlast b Hb) as [_ He]. destruct (int64_small _ He). done.
Qed.

Lemma drop_stale l k : k ∉ expiry l -> set_expiry (expiry l ∖ {[k]}) l = l.
Proof. intros Hk. replace (expiry l ∖ {[k]}) with (expiry l) by set_solver. by destruct l. Qed.

Definition lapse (b : Binding) : Binding := with_state "expired" (End_ b) b.

(** One round: an entry of the index expires its binding. *)
Lemma expire_one_entry l k : ledger_ok l -> k ∈ expiry l ->
  exists b, stored l b /\ snd k = key_of b /\ expire_one now l k = save now (lapse b) "expire" l.
Proof.
  intros Hl Hk. destruct (expiry_entry_read l k Hl Hk) as (b & Hb & Ek & Hlive & _ & Ei). exists b.
  split_and!; [done..|]. unfold expire_one. rewrite Ek. unfold stored in Hb. rewrite Hb, Hlive, Ei, Z.eqb_refl. done.
Qed.

Lemma lapse_ok l b : ledger_ok l -> stored l b -> ledger_ok (save now (lapse b) "expire" l).
Proof.
  intros Hl Hb. apply keep_save; [done| |apply (ok_lasting _ Hl b Hb)].
  by apply with_state_sound, (stored_sound l (ok_wf _ Hl)).
Qed.

Lemma lapse_keeps_entry l b k : ledger_ok l -> stored l b -> k ∈ expiry l -> snd k <> key_of b ->
  k ∈ expiry (save now (lapse b) "expire" l).
Proof.
  intros Hl Hb Hk Hne. pose proof (ok_wf _ (lapse_ok l b Hl Hb)) as Hwf'.
  apply (wf_expiry _ (ok_wf _ Hl)) in Hk as (d & Hd & Hlive & ->). apply (wf_expiry _ Hwf'). exists d. split; [|done].
  destruct (save_fields now (lapse b) "expire" l) as (F1 & _). unfold stored. rewrite F1.
  by rewrite lookup_insert_ne by (cbn in Hne; done).
Qed.

Lemma expire_fold ks l : ledger_ok l -> NoDup (map snd ks) -> (forall k, k ∈ ks -> k ∈ expiry l) ->
  let l' := fold_left (expire_one now) ks l in
  ledger_ok l' /\ forall key, bindings l' !! key = if decide (key ∈ map snd ks) then lapse <$> bindings l !! key else bindings l !! key.
Proof.
  revert l. induction ks as [|k ks IH]; intros l Hl Hnd Hks; cbn [fold_left map].
  { split; [done|]. intros key. by rewrite decide_False by apply not_elem_of_nil. }
  apply NoDup_cons in Hnd as [Hni Hnd]. destruct (expire_one_entry l k Hl) as (b & Hb & Ek & ->); [apply Hks; left|].
  destruct (IH (save now (lapse b) "expire" l)) as [Hok Hlook]; [by apply lapse_ok|done| |].
  { intros k' Hk'. apply lapse_keeps_entry; [done..|apply Hks; by right|]. rewrite <-Ek. intros E. apply Hni.
    rewrite <-E. apply list_elem_of_In, in_map, list_elem_of_In, Hk'. }
  split; [done|]. intros key. rewrite Hlook. destruct (save_fields now (lapse b) "expire" l) as (-> & _).
  destruct (decide (key = key_of b)) as [->|Hne].
  - change (key_of (lapse b)) with (key_of b). rewrite Ek in Hni |- *. unfold stored in Hb.
    rewrite decide_False by done. rewrite decide_True by left. by rewrite lookup_insert_eq, Hb.
  - rewrite lookup_insert_ne by done. destruct (decide (key ∈ map snd ks)) as [Hin|Hno].
    + by rewrite decide_True by (by right).
    + rewrite decide_False; [done|]. apply not_elem_of_cons. split; [congruence|done].
Qed.

#[local] Existing Instance expiry_le_dec.

#[local] Instance expiry_le_total : Total expiry_le.
Proof.
  intros [a x] [b y]. unfold expiry_le. cbn. destruct (Z.lt_trichotomy a b) as [?|[->|?]]; [by left; left| |by right; left].
  destruct (total String.le x y); [left|right]; right; done.
Qed.
#[local] Instance expiry_le_trans : Transitive expiry_le.
Proof.
  intros [a x] [b y] [d z]. unfold expiry_le. cbn. intros [H1|[-> H1]] [H2|[-> H2]]; [left; lia|by left|by left|].
  right. split; [done|]. by transitivity y.
Qed.

Lemma take_due_spec n ks : StronglySorted expiry_le ks -> (forall k, k ∈ ks -> int64 (fst k) = fst k) ->
  take_due now n ks = take n (List.filter (fun k => fst k <=? now) ks).
Proof.
  revert n. induction ks as [|k ks IH]; intros n Hs Hi; [by destruct n|]. apply StronglySorted_inv in Hs as [Hs Hle].
  destruct n as [|n]; [done|]. cbn [take_due List.filter]. rewrite Hi by left.
  destruct (Z.leb_spec (fst k) now) as [Hk|Hk]; [cbn; f_equal; apply IH; [done|intros; apply Hi; by right]|].
  replace (List.filter (fun k => fst k <=? now) ks) with (@nil (Z * string)); [by destruct n|].
  symmetry. rewrite Forall_forall in Hle. clear IH Hi Hs. induction ks as [|k' ks IH]; [done|]. cbn.
  destruct (Hle k') as [?|[? _]]; [by left|..]; rewrite (proj2 (Z.leb_gt _ _)) by lia; apply IH; intros x Hx; apply Hle; by right.
Qed.

(** The entries that are due, earliest first. *)
Definition due (l : ledger) : list (Z * string) :=
  List.filter (fun k => fst k <=? now) (merge_sort expiry_le (elements (expiry l))).

Lemma Expire_due l : ledger_ok l -> Expire now l = fold_left (expire_one now) (take 1000 (due l)) l.
Proof.
  intros Hl. unfold Expire, due. rewrite take_due_spec; [done|apply StronglySorted_merge_sort; apply _|].
  intros k Hk. rewrite merge_sort_Permutation in Hk. apply elem_of_elements in Hk.
  by destruct (expiry_entry_read l k Hl Hk) as (b & _ & _ & _ & -> & E).
Qed.

Lemma elem_of_due l k : k ∈ due l <-> k ∈ expiry l /\ fst k <= now.
Proof.
  unfold due. rewrite list_elem_of_In, filter_In, <-list_elem_of_In, merge_sort_Permutation, elem_of_elements, Z.leb_le.
  done.
Qed.

Lemma NoDup_due l : ledger_ok l -> NoDup (map snd (due l)).
Proof.
  intros Hl. apply NoDup_fmap_2_strong.
  - intros k k' [Hk _]%elem_of_due [Hk' _]%elem_of_due E.
    destruct (expiry_entry_read l k Hl Hk) as (b & Hb & Eb & _ & Fb & _).
    destruct (expiry_entry_read l k' Hl Hk') as (d & Hd & Ed & _ & Fd & _).
    unfold stored in *. rewrite <-Eb, E, Ed, Hd in Hb. destruct k, k'; cbn in *; congruence.
  - unfold due. apply NoDup_ListNoDup, List.NoDup_filter, NoDup_ListNoDup. rewrite merge_sort_Permutation. apply NoDup_elements.
Qed.

Lemma Expire_bindings l : ledger_ok l ->
  ledger_ok (Expire now l)
  /\ forall key, bindings (Expire now l) !! key
     = if decide (key ∈ map snd (take 1000 (due l))) then lapse <$> bindings l !! key else bindings l !! key.
Proof.
  intros Hl. rewrite Expire_due by done. apply expire_fold; [done| |].
  - rewrite <-firstn_map. pose proof (NoDup_due l Hl) as Hnd. rewrite <-(take_drop 1000 (map snd (due l))) in Hnd.
    by apply NoDup_app in Hnd as [? _].
  - intros k Hk. apply (elem_of_due l). rewrite <-(take_drop 1000 (due l)). apply elem_of_app. by left.
Qed.

End Expiry.
