(* ===== verification/LeaseImport.v ===== *)
(** internal/addressbook: leases adopted from another server (allocate.go: Import,
    ImportDocument, isQuarantineMarker; dhcp6.go: adoptDUID).

    Parameters: SHA-256 as in Allocate.v, and [duid_valid], whether the DHCPv6 library accepts
    a byte string as a DUID. *)

From S2P Require Import Prelude Json NetAddr Ledger Config Allocate.
From Stdlib Require Import Ascii.
Local Open Scope Z_scope.

Record ImportedLease := mkImported {
  iDUID : string; iIAID : string; iScope : string; iAddress : string; iMACText : string;
  ClientID : string; Hostname : string; Expiry : Z;
}.
Record ImportDocument_ := mkDocument { Leases : list ImportedLease; docDUID : string }.

(** strings.ReplaceAll(s, c, "") *)
Definition remove_char (c : ascii) (s : string) : string :=
  string_of_chars (List.filter (fun x => negb (Ascii.eqb x c)) (string_chars s)).

(** hex.DecodeString *)
Fixpoint decode_pairs (l : list ascii) : option (list ascii) :=
  match l with
  | [] => Some []
  | a :: b :: rest => x ← hex_val a; y ← hex_val b; r ← decode_pairs rest;
                      Some (ascii_of_nat (Z.to_nat (x * 16 + y)) :: r)
  | [_] => None
  end.
Definition hex_decode (s : string) : option string := string_of_chars <$> decode_pairs (string_chars s).

(** The lease file's "no end". *)
Definition forever : Z := 253402300799.

Section Adopt.
Context (sha256_hex : string -> string) (duid_valid : string -> bool).

Definition adoptDUID (c : Config) (value : string) (l : ledger) : result string ledger :=
  match hex_decode (remove_char ":" value) with
  | None => Err "encoding/hex: invalid byte"
  | Some raw =>
    check (duid_valid raw) "invalid DUID";;
    fail_if (existsb (fun s => scope_is6 s && Enabled s) (Scopes c)) "disable IPv6 scopes before adopting DUID";;
    let old := lookup_default (meta l) "duid" EmptyString in
    fail_if (negb (is_empty old) && negb (old =?s raw)
             && existsb (fun b => negb (is_empty (DUID b))) (values (bindings l)))
      "server DUID differs from existing IPv6 ledger";;
    Ok (set_meta "duid" raw l)
  end.

(** The hardware address a lease names; the zero value when it does not parse. *)
Definition imported_mac (i : ImportedLease) : list Z := default [] (ParseMAC (iMACText i)).

Definition imported_client (s : Scope) (i : ImportedLease) : string :=
  if scope_is6 s then "duid:" +++ to_lower (remove_char ":" (iDUID i)) +++ "/iaid:" +++ to_lower (iIAID i)
  else if negb (is_empty (ClientID i)) && negb (ClientID i =?s "*")
       then "id:" +++ to_lower (remove_char ":" (ClientID i))
       else "mac:" +++ MACString (imported_mac i).

(** The identity ExportDNSmasq gives an address in quarantine. *)
Definition marker_duid (scope address : string) : string :=
  "0004" +++ String.substring 0 32 (sha256_hex (scope +++ "/" +++ address)).
Definition marker_mac : string := "02:ff:ff:ff:ff:fe".

Definition isQuarantineMarker (s : Scope) (i : ImportedLease) : bool :=
  if scope_is6 s then equal_fold (remove_char ":" (iDUID i)) (marker_duid (sID s) (iAddress i))
  else MACString (imported_mac i) =?s marker_mac.

Definition import_end (i : ImportedLease) : Z := if Expiry i =? 0 then forever else Expiry i.

(** The binding an import writes before the identities of the ledger and the inventory. *)
Definition imported_binding (now : Z) (s : Scope) (i : ImportedLease) (state evidence : string) (preferred : Z) : Binding :=
  let client := imported_client s i in
  let dev := deviceID sha256_hex (iScope i) client in
  mkBinding (if scope_is6 s then trim_prefix (hd EmptyString (Split client "/iaid:")) "duid:" else EmptyString)
    (if scope_is6 s then iIAID i else EmptyString) (if scope_is6 s then preferred else 0)
    (iScope i) (iAddress i) client (MACString (imported_mac i)) dev dev
    (if state =?s "declined" then EmptyString else Hostname i) state "dnsmasq-import" now (import_end i)
    EmptyString evidence EmptyString.

Definition with_start (t : Z) (b : Binding) : Binding :=
  mkBinding (DUID b) (IAID b) (PreferredEnd b) (bScope b) (Address b) (Client b) (MAC b) (Device b) (Name b)
    (ClaimedName b) (bState b) (Origin b) t (End_ b) (NodeID b) (Evidence b) (Via b).

Definition import_marker (now : Z) (s : Scope) (i : ImportedLease) (old : Binding) (l : ledger) : result string ledger :=
  if (now <? End_ old) && (bState old =?s "declined") then Ok l
  else
    fail_if ((now <? End_ old) && usable_state (bState old))
      ("import conflicts with live binding " +++ bindingKey (iScope i) (iAddress i));;
    Ok (save now (imported_binding now s i "declined" "quarantine restored from exported lease file" 0) "import" l).

Definition import_lease (now : Z) (c : Config) (s : Scope) (i : ImportedLease) (old : Binding) (l : ledger) :
    result string ledger :=
  let client := imported_client s i in
  let live := (now <? End_ old) && liveState (bState old) in
  if live && (Client old =?s client) && (bState old =?s "active") && (import_end i <=? End_ old) then Ok l
  else
    fail_if (live && (negb (Client old =?s client) || (bState old =?s "declined")))
      ("import conflicts with live binding " +++ bindingKey (iScope i) (iAddress i));;
    let b := imported_binding now s i "active" EmptyString (import_end i) in
    let b1 := if (Client old =?s client) && (bState old =?s "active") && (now <? End_ old)
              then with_start (Start old) (with_identity (Device old) (Name old) (NodeID old) (Evidence old) b) else b in
    let b2 := match reservation s client (MAC b1) with
              | Some r => let d := default no_device (find_device c (rDevice r)) in
                          with_identity (dID d) (dName d) (dNodeID d) "inventory reservation" b1
              | None => b1
              end in
    Ok (save now b2 "import" l).

Definition import_one (now : Z) (c : Config) (adopted : bool) (l : ledger) (i : ImportedLease) : result string ledger :=
  fail_if (Expiry i <? 0) "negative imported lease expiry";;
  fail_if (negb (is_empty (iDUID i)) && negb adopted && is_empty (lookup_default (meta l) "duid" EmptyString))
    "IPv6 adoption requires the legacy server DUID";;
  match find_scope c (iScope i) with
  | None => Err ("unknown import scope " +++ iScope i)
  | Some s =>
    fail_if (Enabled s) ("disable scope " +++ sID s +++ " before importing leases");;
    match ParsePrefix (Subnet s) with
    | None => Err "invalid subnet"                      (* MustParsePrefix: Validate has parsed it *)
    | Some p =>
      fail_if (negb (valid_host p (iAddress i)) || (iAddress i =?s sServer s) || (iAddress i =?s Router s))
        "invalid imported address";;
      fail_if (negb (scope_is6 s)
               && match ParseMAC (iMACText i) with Some hw => negb (length hw =? 6)%nat | None => true end)
        "invalid imported MAC";;
      check (validClient (imported_client s i)) "invalid imported client ID";;
      if import_end i <=? now then Ok l
      else
        let old := readBinding l (iScope i) (iAddress i) in
        if isQuarantineMarker s i then import_marker now s i old l else import_lease now c s i old l
    end
  end.

Definition ImportDocument (now : Z) (c : Config) (doc : ImportDocument_) (l : ledger) : ledger * result string unit :=
  if 10000 <? Z.of_nat (length (Leases doc)) then (l, Err "too many leases") else
  update (fun l =>
    l1 ← (if is_empty (docDUID doc) then Ok l else adoptDUID c (docDUID doc) l);
    l2 ← fold_m (import_one now c (negb (is_empty (docDUID doc)))) l1 (Leases doc);
    Ok (l2, tt)) l.

Definition Import (now : Z) (c : Config) (leases : list ImportedLease) (l : ledger) : ledger * result string unit :=
  if 10000 <? Z.of_nat (length leases) then (l, Err "import limited to 10000 leases per request")
  else ImportDocument now c (mkDocument leases EmptyString) l.

End Adopt.
