(* ===== verification/Sightings.v ===== *)
(** internal/addressbook/observations.go: evidence of who uses an address that is not a grant,
    and operators' repairs of identities.

    The rows of [ip -j neigh show] are a parameter of [neighbors]: the command's output,
    decoded. *)

From S2P Require Import Prelude Json NetAddr Ledger Config Allocate.
From Stdlib Require Import Ascii.
Local Open Scope Z_scope.

(** * Sightings *)

Definition canonical (now ttl : Z) (ip : Addr) (mac : list Z) (o : Observation) : Observation :=
  mkObservation (oScope o) (AddrString ip) (MACString mac) (oOrigin o) (Detail o) now (now + ttl) (Historical o).

Definition sighted (kind : string) (now : Z) (o : Observation) : Event :=
  mkEvent EmptyString 0 now kind no_binding (Some o).

Definition with_until (t : Z) (o : Observation) : Observation :=
  mkObservation (oScope o) (oAddress o) (oMAC o) (oOrigin o) (Detail o) (Seen o) t (Historical o).

(** Storing a sighting: an unchanged, still valid one is only extended; otherwise the log
    gains the end of the earlier one and the new one. *)
Definition put_sighting (now : Z) (o : Observation) (l : ledger) : ledger :=
  let key := bindingKey (oScope o) (oAddress o) in
  let l1 := set_observations (<[key := o]> (observations l)) l in
  match observations l !! key with
  | None => appendEvent (sighted "observation" now o) l1
  | Some prev =>
    if negb (oMAC prev =?s oMAC o) || (Until prev <=? Seen o) then
      let l2 := if 0 <? Until prev
                then appendEvent (sighted "observation-end" now
                       (if Seen o <? Until prev then with_until (Seen o) prev else prev)) l1
                else l1 in
      appendEvent (sighted "observation" now o) l2
    else l1
  end.

Definition observe_one (now ttl : Z) (c : Config) (l : ledger) (o : Observation) : result string ledger :=
  match find_scope c (oScope o) with
  | None => Err "unknown observation scope"
  | Some s =>
    match ParseAddr (oAddress o), ParsePrefix (Subnet s) with
    | Some ip, Some p =>
      check (Contains p ip) "observation outside scope";;
      match ParseMAC (oMAC o) with
      | Some mac =>
        check (length mac =? 6)%nat "invalid observation MAC";;
        Ok (put_sighting now (canonical now ttl ip mac o) l)
      | None => Err "invalid observation MAC"
      end
    | _, _ => Err "observation outside scope"
    end
  end.

Definition observe (now : Z) (c : Config) (os : list Observation) (ttl : Z) (l : ledger) : ledger * result string unit :=
  if 10000 <? Z.of_nat (length os) then (l, Err "too many observations")
  else update (fun l => l' ← fold_m (observe_one now ttl c) l os; Ok (l', tt)) l.

Definition with_origin (origin : string) (o : Observation) : Observation :=
  mkObservation (oScope o) (oAddress o) (oMAC o) origin (Detail o) (Seen o) (Until o) (Historical o).

Definition Observe (now : Z) (c : Config) (os : list Observation) (l : ledger) : ledger * result string unit :=
  observe now c (map (with_origin "kernel-neighbor") os) 120 l.

Definition ObserveSwitch (now : Z) (c : Config) (os : list Observation) (ttl : Z) (l : ledger) : ledger * result string unit :=
  if (ttl <? 10) || (3600 <? ttl) then (l, Err "ttl must be 10..3600 seconds")
  else if existsb (fun o => (128 <? String.length (Detail o))%nat) os then (l, Err "observation detail too long")
  else observe now c (map (with_origin "switch-snooping") os) ttl l.

(** * The kernel's neighbour table *)

Record NeighborRow := mkRow { rAddr : string; rMAC : string; rDev : string; rState : list string }.

(** strings.Contains *)
Fixpoint str_contains (s sub : string) : bool :=
  has_prefix s sub || match s with EmptyString => false | String _ s' => str_contains s' sub end.

Definition confirmed_row (r : NeighborRow) : bool :=
  let text := " " +++ join " " (rState r) +++ " " in
  str_contains text " REACHABLE " || str_contains text " PERMANENT ".

Definition in_scope (r : NeighborRow) (ip : Addr) (s : Scope) : bool :=
  (Interface s =?s rDev r) && bool_decide (Relay s = None)
  && match ParsePrefix (Subnet s) with Some p => Contains p ip | None => false end.

Definition neighbors (c : Config) (rows : list NeighborRow) : list Observation :=
  flat_map (fun r =>
    if confirmed_row r then
      match ParseAddr (rAddr r) with
      | Some ip => map (fun s => mkObservation (sID s) (AddrString ip) (rMAC r) EmptyString EmptyString 0 0 false)
                     (List.filter (in_scope r ip) (Scopes c))
      | None => []
      end
    else []) rows.

Definition CollectNeighbors (now : Z) (c : Config) (rows : list NeighborRow) (l : ledger) : ledger * result string unit :=
  Observe now c (neighbors c rows) l.

(** * Repairs *)

Record IdentityRepair := mkRepair {
  irScope : string; irAddress : string; irClient : string; ExpectedDevice : string; irDevice : string; irName : string;
  irNodeID : string; irReason : string; Persist : bool; Forget : bool;
}.

Definition putAssociation (now : Z) (r : IdentityRepair) (l : ledger) : ledger :=
  if Forget r then set_associations (delete (irClient r) (associations l)) l
  else if negb (Persist r) then l
  else
    let history := match associations l !! irClient r with
      | None => []
      | Some a =>
        if negb (aDevice a =?s irDevice r) || negb (aName a =?s irName r) || negb (aNodeID a =?s irNodeID r)
        then History a ++ [mkVersion (aDevice a) (aName a) (aNodeID a) (Reason a) (Updated a) now]
        else History a
      end in
    set_associations (<[irClient r := mkAssociation (irClient r) (irDevice r) (irName r) (irNodeID r) (irReason r) now history]>
      (associations l)) l.

(** The inventory speaks against assigning the name or the device. *)
Definition inventory_conflict (r : IdentityRepair) (d : DeviceConfig) : bool :=
  (((dName d =?s irName r) || HasAlias d (irName r)) && negb (dID d =?s irDevice r))
  || ((dID d =?s irDevice r) && (negb (dName d =?s irName r) || (DeclaresNodes d && negb (HasNode d (irNodeID r))))).

(** Another live device holds the name. *)
Definition name_taken (now : Z) (r : IdentityRepair) (b : Binding) : bool :=
  negb (Device b =?s irDevice r) && (now <? End_ b)
  && negb ((bScope b =?s irScope r) && (Address b =?s irAddress r)).

Definition repair_one (now : Z) (c : Config) (l : ledger) (r : IdentityRepair) : result string ledger :=
  fail_if (negb (labelPattern (irDevice r)) || negb (labelPattern (irName r)) || (irName r =?s "ns")
           || is_empty (trim_space (irReason r)) || (512 <? String.length (irReason r))%nat)
    "repair requires valid device/name and reason";;
  fail_if (existsb (inventory_conflict r) (Devices c)) "repair conflicts with inventory";;
  fail_if (existsb (name_taken now r) (activeByName l (irName r)))
    ("name " +++ quote (irName r) +++ " is already held by live device "
     +++ Device (default no_binding (find (name_taken now r) (activeByName l (irName r)))));;
  let b := readBinding l (irScope r) (irAddress r) in
  fail_if (negb (Client b =?s irClient r) || negb (Device b =?s ExpectedDevice r) || negb (bState b =?s "active")
           || (End_ b <=? now)) "binding changed; refresh before repairing";;
  fail_if (match find_scope c (bScope b) with
           | Some s => match reservation s (Client b) (MAC b) with
                       | Some res => negb (rDevice res =?s irDevice r)
                       | None => false
                       end
           | None => false
           end) "change inventory reservation before repairing this binding";;
  Ok (putAssociation now r
        (save now (with_identity (irDevice r) (irName r) (irNodeID r) ("operator repair: " +++ irReason r) b)
           "identity-repair" l)).

Definition Repair (now : Z) (c : Config) (changes : list IdentityRepair) (l : ledger) : ledger * result string unit :=
  if match changes with [] => true | _ => (256 <? length changes)%nat end then (l, Err "repair needs 1..256 bindings")
  else update (fun l => l' ← fold_m (repair_one now c) l changes; Ok (l', tt)) l.
