(* ===== verification/Delegate.v ===== *)
(** internal/addressbook/pd.go: prefix delegation, and the kernel routes to delegated prefixes.

    DHCPv6 messages are seen through what handlePD reads of them; the routing tool is a
    parameter of [ReconcileRoutes]. *)

From S2P Require Import Prelude Json NetAddr Ledger Config Allocate.
From Stdlib Require Import Ascii.
Local Open Scope Z_scope.

(** * Arithmetic on prefixes *)

(** Addr.As16 and AddrFrom16, most significant byte first. *)
Definition As16 (n : Z) : list Z := map (fun k => octet n (15 - Z.of_nat k)) (seq 0 16).

(** The loop of prefixAt from byte [k - 1] down: add [carry] to the address. *)
Fixpoint add_carry (k : nat) (carry : Z) (bytes : list Z) : list Z :=
  match k with
  | O => bytes
  | S k' =>
    if carry =? 0 then bytes
    else let sum := nth k' bytes 0 + Z.land carry 255 in
         add_carry k' (Z.shiftr carry 8 + Z.shiftr sum 8) (<[k' := sum mod 256]> bytes)
  end.

Definition prefixAt (pool : Prefix) (length_ i : Z) : Prefix :=
  let shift := 128 - length_ in
  let byteIdx := 15 - shift / 8 in
  mkPrefix (Addr6 (num_of_octets (add_carry (Z.to_nat (byteIdx + 1)) (Z.shiftl i (shift mod 8)) (As16 (addr_num (PAddr pool)))))
              EmptyString) length_.

Definition poolSize (pool : Prefix) (length_ : Z) : Z := Z.shiftl 1 (length_ - PBits pool).

Definition inPool (pool : Prefix) (length_ : Z) (p : Prefix) : bool :=
  (PBits p =? length_) && bool_decide (p = Masked p) && Contains pool (PAddr p).

(** * Delegating *)

Definition no_prefix : Prefix := mkPrefix (Addr6 0 EmptyString) 0.
Definition must_prefix (v : string) : Prefix := default no_prefix (ParsePrefix v).

Section Delegate.
Context (sha256_hex : string -> string).

(** [free]: nobody else has the prefix. *)
Definition free (l : ledger) (now : Z) (scope client : string) (p : Prefix) : bool :=
  let b := readBinding l scope (PrefixString p) in
  negb ((now <? End_ b) && usable_state (bState b)) || (Client b =?s client).

Definition delegated (now : Z) (b : Binding) : bool :=
  (Origin b =?s originPD) && (now <? End_ b) && usable_state (bState b).

(** The last of the bindings that satisfy a test: the loops keep overwriting their variable. *)
Definition last_such (f : Binding -> bool) (bs : list Binding) : option Binding :=
  fold_left (fun acc b => if f b then Some b else acc) bs None.

(** The lowest free prefix from the [i]-th on. *)
Fixpoint first_free (n : nat) (ok : Prefix -> bool) (pool : Prefix) (length_ i : Z) : option Prefix :=
  match n with
  | O => None
  | S n' => let p := prefixAt pool length_ i in
            if ok p then Some p else first_free n' ok pool length_ (i + 1)
  end.

Definition choose_prefix (l : ledger) (now : Z) (scope client hint : string) (pool : Prefix) (length_ : Z) : option Prefix :=
  match last_such (delegated now) (liveByClient l scope client) with
  | Some mine => Some (must_prefix (Address mine))
  | None =>
    match (if is_empty hint then None else ParsePrefix hint) with
    | Some hp => if inPool pool length_ hp && free l now scope client hp then Some hp
                 else first_free (Z.to_nat (poolSize pool length_)) (free l now scope client) pool length_ 0
    | None => first_free (Z.to_nat (poolSize pool length_)) (free l now scope client) pool length_ 0
    end
  end.

(** The address binding of the same client machine in the scope. *)
Definition same_machine (now : Z) (scope duidHex : string) (b : Binding) : bool :=
  (bScope b =?s scope) && (Origin b =?s "dhcpv6") && (DUID b =?s duidHex) && (bState b =?s "active") && (now <? End_ b).

Definition prefix_binding (l : ledger) (now : Z) (s : Scope) (client duidHex via : string) (chosen : Prefix) (commit : bool) :
    Binding * string :=
  let address := PrefixString chosen in
  let old := readBinding l (sID s) address in
  let mine := (Client old =?s client) && (now <? End_ old) in
  let dev := deviceID sha256_hex (sID s) client in
  let b := mkBinding duidHex EmptyString (if commit then now + PreferredSeconds s else 0) (sID s) address client EmptyString
             dev dev EmptyString (if commit then "active" else "offered") originPD (if mine then Start old else now)
             (if commit then now + LeaseSeconds s else now + 30) EmptyString "delegated prefix" via in
  let same := default no_binding
                (last_such (same_machine now (sID s) duidHex) (liveByClientPrefix l ("duid:" +++ duidHex +++ "/"))) in
  let b1 := if negb (is_empty (Device same))
            then with_identity (Device same) (Name same) (NodeID same) ("delegated prefix; same DUID as " +++ Address same) b
            else if mine && negb (is_empty (Device old))
                 then with_identity (Device old) (Name old) (NodeID old) (Evidence b) b
                 else b in
  (b1, if commit then (if mine && (bState old =?s "active") then "renew" else "grant") else "offer").

Definition delegate_tx (now : Z) (s : Scope) (pd : PDConfig) (client duidHex hint via : string) (commit : bool) (l : ledger) :
    result alloc_error (ledger * Binding) :=
  match choose_prefix l now (sID s) client hint (must_prefix (pdPrefix pd)) (Length pd) with
  | None => Err (Unavailable "prefix pool exhausted")
  | Some chosen =>
    let mine := default no_binding (last_such (delegated now) (liveByClient l (sID s) client)) in
    if negb commit && (bState mine =?s "active") then Ok (l, mine)
    else let '(b, kind) := prefix_binding l now s client duidHex via chosen commit in Ok (save now b kind l, b)
  end.

Definition AllocatePrefix (now : Z) (s : Scope) (pd : PDConfig) (client duidHex hint via : string) (commit : bool) (l : ledger) :
    ledger * result alloc_error Binding :=
  update (delegate_tx now s pd client duidHex hint via commit) l.

Definition releasePrefix (now : Z) (s : Scope) (client : string) (l : ledger) : ledger * result alloc_error unit :=
  update (fun l =>
    let held := List.filter (delegated now) (liveByClient l (sID s) client) in
    fail_if (match held with [] => true | _ => false end) (Refused "no live delegation owned by client");;
    Ok (fold_left (fun l b => save now (with_state "released" now b) "release" l) held l, tt)) l.

(** * handlePD *)

Inductive MessageType := Solicit | Request | Renew | Rebind | Release_ | Decline | Confirm_.

#[global] Instance MessageType_eq_dec : EqDecision MessageType.
Proof. solve_decision. Defined.

(** The IA_PD option of a reply: a status, a prefix with its lifetimes, or nothing. *)
Inductive IAPD :=
| PDStatus (code : string) (text : string)
| PDPrefix (T1 T2 preferred valid : Z) (prefix : string)
| PDEmpty.

Definition pdClient (duidHex iaidHex : string) : string := "duid:" +++ duidHex +++ "/iaid:" +++ iaidHex.

Definition current (l : ledger) (now : Z) (scope client : string) : bool :=
  bool_decide (is_Some (last_such (fun b => (Origin b =?s originPD) && (bState b =?s "active") && (now <? End_ b))
                          (liveByClient l scope client))).

Definition handlePD (now : Z) (s : Scope) (kind : MessageType) (duidHex iaidHex : string) (prefixes : list string) (via : string)
    (l : ledger) : ledger * result string IAPD :=
  match PD s with
  | None => (l, Ok (PDStatus "NoPrefixAvail" "prefix delegation not configured"))
  | Some pd =>
    let client := pdClient duidHex iaidHex in
    if negb (validClient client) then (l, Ok (PDStatus "NoPrefixAvail" "invalid client")) else
    let answer :=
      let hint := List.last prefixes EmptyString in
      match AllocatePrefix now s pd client duidHex hint via (negb (bool_decide (kind = Solicit))) l with
      | (l', Ok b) => (l', Ok (PDPrefix (LeaseSeconds s / 2) (LeaseSeconds s * 4 / 5) (PreferredSeconds s) (LeaseSeconds s)
                               (PrefixString (Masked (must_prefix (Address b))))))
      | (l', Err (Unavailable _)) => (l', Ok (PDStatus "NoPrefixAvail" "no prefix available"))
      | (l', Err (Refused e)) => (l', Err e)
      end in
    match kind with
    | Release_ | Decline =>
      if negb (current l now (sID s) client) then (l, Ok (PDStatus "NoBinding" "no delegation"))
      else match releasePrefix now s client l with
           | (l', Ok _) => (l', Ok (PDStatus "Success" "delegation released"))
           | (l', Err (Unavailable e)) | (l', Err (Refused e)) => (l', Err e)
           end
    | Renew | Rebind =>
      if negb (current l now (sID s) client) then (l, Ok (PDStatus "NoBinding" "no active delegation")) else answer
    | Confirm_ => (l, Ok PDEmpty)
    | Solicit | Request => answer
    end
  end.

End Delegate.

(** * Routes *)

Definition routeProto : string := "250".

Record route := mkRoute { via_ : string; dev_ : string }.
#[global] Instance route_eq_dec : EqDecision route.
Proof. solve_decision. Defined.

(** The routes the ledger calls for, from the bindings of a snapshot. *)
Definition routed (c : Config) (b : Binding) : option route :=
  if (Origin b =?s originPD) && (bState b =?s "active") && negb (is_empty (Via b)) then
    match find_scope c (bScope b) with
    | Some s => match PD s with
                | Some pd => if Enabled s && Route pd then Some (mkRoute (Via b) (Interface s)) else None
                | None => None
                end
    | None => None
    end
  else None.

Definition wanted (c : Config) (bs : list Binding) : gmap string route :=
  fold_left (fun m b => match routed c b with Some r => <[Address b := r]> m | None => m end) bs ∅.

Definition replace_args (prefix : string) (r : route) : list string :=
  ["-6"; "route"; "replace"; prefix; "via"; via_ r; "dev"; dev_ r; "proto"; routeProto].
Definition del_args (prefix : string) (r : route) : list string :=
  ["-6"; "route"; "del"; prefix; "dev"; dev_ r; "proto"; routeProto].

(** What the reconciliation runs, given the tagged routes the kernel has.  Go deletes in the
    map's order; the model in the order of the keys. *)
Definition route_commands (want current : gmap string route) : list (list string) :=
  omap (fun k => r ← want !! k; if bool_decide (current !! k = Some r) then None else Some (replace_args k r))
    (sorted_keys want)
  ++ omap (fun k => r ← current !! k; if bool_decide (is_Some (want !! k)) then None else Some (del_args k r))
    (sorted_keys current).

Section Routes.
Context {K : Type} (show : K -> result string (gmap string route)) (run : list string -> K -> K * result string unit).

Fixpoint run_all (cmds : list (list string)) (k : K) : K * list string :=
  match cmds with
  | [] => (k, [])
  | a :: rest => let '(k1, r) := run a k in
                 let '(k2, errs) := run_all rest k1 in
                 (k2, match r with Ok _ => errs | Err e => e :: errs end)
  end.

Definition ReconcileRoutes (now : Z) (c : Config) (l : ledger) (k : K) : K * result string unit :=
  match take_snapshot now EmptyString EmptyString 0 l with
  | Err e => (k, Err e)
  | Ok snap =>
    match show k with
    | Err e => (k, Err e)
    | Ok current =>
      let '(k', errs) := run_all (route_commands (wanted c (sBindings snap)) current) k in
      (k', match errs with [] => Ok tt | _ => Err (join "; " errs) end)
    end
  end.

End Routes.

(** * Delegations that end with a takeover (handover.go, abandonDelegations) *)

Definition pd_pools (target : Config) : list string :=
  omap (fun s => match PD s with Some _ => Some (sID s) | None => None end) (Scopes target).
Definition abandoned_one (now : Z) (pools : list string) (b : Binding) : bool :=
  (Origin b =?s originPD) && mem_str (bScope b) pools && (now <? End_ b) && usable_state (bState b).
Definition abandon (now : Z) (l : ledger) (b : Binding) : ledger :=
  save now (mkBinding (DUID b) (IAID b) (PreferredEnd b) (bScope b) (Address b) (Client b) (MAC b) (Device b) (Name b) (ClaimedName b)
    "released" (Origin b) (Start b) now (NodeID b)
    "abandoned: rolled back to the legacy allocator, which cannot serve delegations" (Via b)) "release" l.
Definition abandon_all (now : Z) (pools : list string) (l : ledger) : ledger :=
  fold_left (abandon now) (List.filter (abandoned_one now pools) (values (bindings l))) l.
