(* ===== verification/Advert.v ===== *)
(** internal/addressbook/ra.go: router advertisements of a scope, their content and their timing.

    A listener is one goroutine that reads solicitations and one that sends; the steps below are
    what either does, in any order.  Times are nanoseconds.  An advertisement that could not be
    written counts as sent. *)

From S2P Require Import Prelude NetAddr Ledger Config ConfigInv Delegate.
From stdpp Require Import relations.
Local Open Scope Z_scope.

(** * Advertisement *)

Record PrefixInformation := mkPrefixInfo {
  PrefixLength : Z; piPrefix : Addr; OnLink : bool; Autonomous : bool; ValidLifetime : Z; PreferredLifetime : Z;
}.
(** Lifetimes are seconds. *)
Record RouterAdvertisement := mkAdvertisement {
  CurrentHopLimit : Z; ManagedConfiguration : bool; OtherConfiguration : bool; aLifetime : Z;
  aPrefix : PrefixInformation; dnsLifetime : Z; dnsServers : list Addr; searchLifetime : Z; searchDomains : list string;
}.

Definition no_ra : RAConfig := mkRA false 0 0.
Definition ra_of (s : Scope) : RAConfig := default no_ra (RA s).

Definition Advertisement (s : Scope) (withdraw : bool) : RouterAdvertisement :=
  let lifetime := if withdraw then 0 else RouterLifetime (ra_of s) in
  let dnsLife := if withdraw then 0 else Interval (ra_of s) * 3 in
  let p := must_prefix (Subnet s) in
  mkAdvertisement 64 true true lifetime
    (mkPrefixInfo (PBits p mod 256) (PAddr p) true (SLAAC (ra_of s)) (LeaseSeconds s) (PreferredSeconds s))
    dnsLife [must_addr (sServer s)] dnsLife [Zone s].

(** * newRA *)

(** What the host answers: the forwarding switch, the interface, and the three socket calls. *)
Record ra_answers := mkRaAnswers { forwarding : result string string; link : result string unit; ndp : result string unit; joined : result string unit; control : result string unit }.

Definition newRA (r : ra_answers) (s : Scope) : result string unit :=
  (if 0 <? RouterLifetime (ra_of s) then
     check (match forwarding r with Ok raw => has_prefix raw "1" | Err _ => false end) "RA default-router advertising requires IPv6 forwarding enabled"
   else Ok tt);;
  link r;; ndp r;; joined r;; control r.

(** * run *)

Definition second : Z := 10^9.
Definition AllNodes6 : Addr := Addr6 (Z.shiftl 65282 112 + 1) EmptyString.

(** Why a message was sent, when, to whom, and what. *)
Inductive cause := Periodic | Solicited | Final.
Record message := mkMessage { mCause : cause; mAt : Z; mTo : Addr; mSaid : RouterAdvertisement }.

(** [asked]: the channel of solicitations, which holds one; [due]: when the timer fires. *)
Record raListener := mkRaListener { rScope : Scope; last : Z; asked : option Addr; due : Z; sent : list message; done : bool }.

Definition send (why : cause) (now : Z) (dst : Addr) (withdraw : bool) (r : raListener) : raListener :=
  let to := if IsUnspecified dst then AllNodes6 else dst in
  mkRaListener (rScope r) now (asked r) (due r) (sent r ++ [mkMessage why now to (Advertisement (rScope r) withdraw)]) (done r).

(** The zero address and the unspecified one are both sent to all nodes. *)
Definition everyone : Addr := Addr6 0 EmptyString.

Definition reset_timer (now : Z) (r : raListener) : raListener :=
  mkRaListener (rScope r) (last r) (asked r) (now + Interval (ra_of (rScope r)) * second) (sent r) (done r).
Definition with_scope (s : Scope) (r : raListener) : raListener := mkRaListener s (last r) (asked r) (due r) (sent r) (done r).
Definition with_asked (a : option Addr) (r : raListener) : raListener := mkRaListener (rScope r) (last r) a (due r) (sent r) (done r).

Definition run_start (s : Scope) (now : Z) : raListener :=
  reset_timer now (send Periodic now everyone false (mkRaListener s 0 None 0 [] false)).

(** The scope as it is configured now, if it still advertises. *)
Definition refreshed (c : Config) (s : Scope) : Scope :=
  default s (List.find (fun t => (sID t =?s sID s) && Enabled t && bool_decide (is_Some (RA t))) (Scopes c)).

(** A packet: a solicitation or not, its hop limit if the kernel told it, and its sender. *)
Definition heard (is_rs : bool) (hops : option Z) (peer : Addr) (r : raListener) : raListener :=
  if negb is_rs || negb (bool_decide (hops = Some 255)) || (negb (IsUnspecified peer) && negb (IsLinkLocalUnicast peer)) then r
  else match asked r with Some _ => r | None => with_asked (Some peer) r end.

Definition solicited (now : Z) (peer : Addr) (r : raListener) : raListener :=
  let r1 := with_asked None r in
  if 3 * second <=? now - last r then send Solicited now peer false r1 else r1.

Definition fired (now : Z) (c : Config) (r : raListener) : raListener :=
  reset_timer now (send Periodic now everyone false (with_scope (refreshed c (rScope r)) r)).

Definition stopped (now : Z) (r : raListener) : raListener :=
  let r1 := send Final now everyone true r in
  mkRaListener (rScope r1) (last r1) (asked r1) (due r1) (sent r1) true.

(** A state and the clock.  The configuration the timer reads is one that is in force. *)
Inductive ra_step : Z * raListener -> Z * raListener -> Prop :=
| rs_heard now r is_rs hops peer : ra_step (now, r) (now, heard is_rs hops peer r)
| rs_solicited now now' r peer : now <= now' -> done r = false -> asked r = Some peer -> ra_step (now, r) (now', solicited now' peer r)
| rs_fired now now' r c : now <= now' -> done r = false -> due r <= now' -> Validate c = Ok tt -> ra_step (now, r) (now', fired now' c r)
| rs_stopped now now' r : now <= now' -> done r = false -> ra_step (now, r) (now', stopped now' r).

(** * What is advertised, and when *)

(** A scope of a configuration in force that advertises. *)
Definition advertises (s : Scope) : Prop := exists c ra, Validate c = Ok tt /\ s ∈ Scopes c /\ RA s = Some ra.

(** Every field fits the width it has in the packet, and means what the receivers take it for. *)
Record fits (a : RouterAdvertisement) : Prop := {
  f_lifetime : 0 <= aLifetime a <= 9000;
  f_prefix : PrefixLength (aPrefix a) = 64 /\ Is6 (piPrefix (aPrefix a)) = true /\ OnLink (aPrefix a) = true;
  f_valid : 0 < PreferredLifetime (aPrefix a) <= ValidLifetime (aPrefix a) /\ ValidLifetime (aPrefix a) < 2^32;
  f_dns : 0 <= dnsLifetime a <= 1800 /\ searchLifetime a = dnsLifetime a /\ (0 < aLifetime a -> dnsLifetime a <= aLifetime a);
  f_server : exists server, dnsServers a = [server] /\ Contains (mkPrefix (piPrefix (aPrefix a)) 64) server = true;
}.

(** A message and a later one. *)
Definition paced (x y : message) : Prop :=
  mAt x <= mAt y /\ mCause x <> Final
  /\ (mCause y = Solicited -> mAt x + 3 * second <= mAt y)
  /\ (mCause x = Periodic -> mCause y = Periodic -> mAt x + 4 * second <= mAt y).

Definition withdrawal (m : message) : Prop := mCause m = Final /\ mTo m = AllNodes6 /\ aLifetime (mSaid m) = 0 /\ dnsLifetime (mSaid m) = 0.

Record ra_ok (now : Z) (r : raListener) : Prop := {
  o_scope : advertises (rScope r);
  o_fits : Forall (fun m => fits (mSaid m)) (sent r);
  o_last : last r <= now /\ Forall (fun m => mAt m <= last r) (sent r);
  o_due : Forall (fun m => mCause m = Periodic -> mAt m + 4 * second <= due r) (sent r);
  o_paced : StronglySorted paced (sent r);
  o_done : if done r then exists l m, sent r = l ++ [m] /\ withdrawal m else Forall (fun m => mCause m <> Final) (sent r);
}.

Lemma advertises_checked s : advertises s -> exists p server,
  ParsePrefix (Subnet s) = Some p /\ ParseAddr (sServer s) = Some server /\ Is6 (PAddr p) = true /\ PBits p = 64 /\ Contains p server = true
  /\ 0 < PreferredSeconds s <= LeaseSeconds s /\ LeaseSeconds s <= 604800
  /\ 4 <= Interval (ra_of s) <= 600 /\ 0 <= RouterLifetime (ra_of s) <= 9000
  /\ (0 < RouterLifetime (ra_of s) -> Interval (ra_of s) * 3 <= RouterLifetime (ra_of s)).
Proof.
  intros (c & ra & Hv & Hs & Hra). destruct (scope_checked c s Hv Hs) as (devs & st & st' & H). unfold validate_scope in H.
  do 14 next_ok H. clear H. rename select (check_subnet s = Ok _) into Hp. rename select (check_server s _ = Ok _) into Hsv.
  rename select (check_times s _ = Ok _) into Ht. rename select (check_selector s _ _ = Ok _) into Hsel.
  unfold check_subnet in Hp. destruct (ParsePrefix (Subnet s)) as [p|] eqn:Ep; [|done]. apply seq_ok in Hp as [_ [= <-]].
  unfold check_server in Hsv. destruct (ParseAddr (sServer s)) as [server|] eqn:Es; [|done]. apply seq_ok in Hsv as [_ [= <-]].
  unfold check_times in Ht. apply seq_ok in Ht as [Ht1%fail_if_ok Ht]. apply seq_ok in Ht as [Ht2%fail_if_ok Ht]. apply seq_ok in Ht as [Ht3%fail_if_ok Ht].
  unfold ra_of. rewrite Hra in *. cbn. destruct x6 as []. apply fail_if_ok in Ht. unfold check_selector in Hsel.
  assert (E6 : scope_is6 s = true) by (destruct (scope_is6 s); [done|]; cbn in Ht3; by rewrite orb_true_r in Ht3).
  rewrite E6 in *. bool_hyps. repeat match goal with H : bool_decide _ = false |- _ => apply bool_decide_eq_false in H end.
  cbn in Ht2. bool_hyps. destruct (Relay s); [destruct H; done|]. apply seq_ok in Hsel as [Hh%check_ok _]. unfold valid_host in Hh. rewrite Es in Hh.
  bool_hyps. unfold scope_is6 in E6. rewrite Ep in E6. exists p, server. split_and!; try done; try lia.
Qed.

Lemma advertisement_fits s withdraw : advertises s -> fits (Advertisement s withdraw).
Proof.
  intros (p & server & Ep & Es & E6 & E64 & Hc & Hp & Hl & Hi & Hr & H3)%advertises_checked.
  unfold Advertisement, must_prefix, must_addr. rewrite Ep, Es. cbn [default].
  split; cbn; rewrite ?E64; [destruct withdraw; lia|done|lia| |exists server; split; [done|]; by destruct p; cbn in *; subst].
  destruct withdraw; split_and!; try done; lia.
Qed.

Lemma refreshed_advertises c s : Validate c = Ok tt -> advertises s -> advertises (refreshed c s).
Proof.
  intros Hv Hs. unfold refreshed. destruct (List.find _ _) as [t|] eqn:E; [|done]. apply find_some in E as [Hin H].
  apply andb_true_iff in H as [_ [ra Hra]%bool_decide_eq_true]. exists c, ra. by rewrite list_elem_of_In.
Qed.

Lemma sorted_snoc {A} (R : A -> A -> Prop) l x : StronglySorted R l -> Forall (fun y => R y x) l -> StronglySorted R (l ++ [x]).
Proof.
  induction 1 as [|a l Hl IH Ha]; intros Hx; cbn; [by repeat constructor|]. apply Forall_cons in Hx as [Hax Hx].
  constructor; [by apply IH|]. apply Forall_app. by split; [|constructor].
Qed.

(** Sending keeps the order, when the message is one that may follow. *)
Lemma send_ok why now dst withdraw r : ra_ok now r -> done r = false ->
  (why = Solicited -> last r + 3 * second <= now) -> (why = Periodic -> due r <= now) ->
  let r' := send why now dst withdraw r in
  Forall (fun m => fits (mSaid m)) (sent r') /\ Forall (fun m => mAt m <= now) (sent r') /\ StronglySorted paced (sent r')
  /\ sent r' = sent r ++ [mkMessage why now (if IsUnspecified dst then AllNodes6 else dst) (Advertisement (rScope r) withdraw)].
Proof.
  intros [Hs Hf [Hl Ha] Hd Hp Hn] Ed Hsol Hper. rewrite Ed in Hn. cbn. split_and!; [| | |done].
  - apply Forall_app. split; [done|]. constructor; [by apply advertisement_fits|done].
  - apply Forall_app. split; [|by constructor]. eapply Forall_impl; [exact Ha|]. cbn. lia.
  - apply sorted_snoc; [done|]. rewrite Forall_forall in *. intros m Hm. specialize (Ha m Hm). specialize (Hd m Hm). specialize (Hn m Hm). unfold paced. cbn.
    split_and!; [lia|done|intros E; specialize (Hsol E); lia|intros E1 E2; specialize (Hd E1); specialize (Hper E2); lia].
Qed.

Lemma heard_ok now is_rs hops peer r : ra_ok now r -> ra_ok now (heard is_rs hops peer r).
Proof. intros H. unfold heard. destruct (_ || _); [done|]. destruct (asked r); [done|]. by destruct H; split. Qed.

Lemma Forall_ne {A} (P : A -> Prop) l x : Forall P l -> P x -> Forall P (l ++ [x]).
Proof. intros H Hx. apply Forall_app. by split; [|constructor]. Qed.

Lemma solicited_ok now now' peer r : ra_ok now r -> now <= now' -> done r = false -> ra_ok now' (solicited now' peer r).
Proof.
  intros H Hn Ed. unfold solicited. assert (Hr : ra_ok now' (with_asked None r)) by (destruct H as [? ? [? ?] ? ? ?]; split; cbn; try done; split; [lia|done]).
  destruct (Z.leb_spec (3 * second) (now' - last r)) as [Hl|]; [|done].
  destruct (send_ok Solicited now' peer false _ Hr Ed) as (H1 & H2 & H3 & E); [cbn; lia|done|].
  destruct Hr as [? ? [? ?] Hd ? Hdn]. cbn in *. rewrite Ed in Hdn. split; cbn; try done; [by apply Forall_ne|]. rewrite Ed. by apply Forall_ne.
Qed.

Lemma reset_ok now r : advertises (rScope r) -> Forall (fun m => fits (mSaid m)) (sent r) -> Forall (fun m => mAt m <= now) (sent r) ->
  StronglySorted paced (sent r) -> last r = now -> done r = false -> Forall (fun m => mCause m <> Final) (sent r) -> ra_ok now (reset_timer now r).
Proof.
  intros Hs Hf Ha Hp El Ed Hn. destruct (advertises_checked _ Hs) as (_ & _ & _ & _ & _ & _ & _ & _ & _ & Hi & _). split; cbn; try done.
  - rewrite El. by split.
  - eapply Forall_impl; [exact Ha|]. cbn. intros m Hm _. unfold second in *. lia.
  - by rewrite Ed.
Qed.

Lemma ra_start_ok s now : advertises s -> ra_ok now (run_start s now).
Proof.
  intros Hs. apply reset_ok; cbn; try done; [|by constructor|by repeat constructor|by constructor]. constructor; [by apply advertisement_fits|done].
Qed.

Lemma fired_ok now now' c r : ra_ok now r -> now <= now' -> done r = false -> due r <= now' -> Validate c = Ok tt -> ra_ok now' (fired now' c r).
Proof.
  intros H Hn Ed Hd Hv. unfold fired. set (r1 := with_scope _ r).
  assert (Hr : ra_ok now' r1).
  { destruct H as [? ? [? ?] ? ? ?]. split; cbn; try done; [by apply refreshed_advertises|]. split; [lia|done]. }
  destruct (send_ok Periodic now' everyone false r1 Hr Ed) as (H1 & H2 & H3 & E); [done|done|].
  destruct Hr as [Hs _ _ _ _ Hdn]. cbn in Hdn. rewrite Ed in Hdn. apply reset_ok; try done. cbn. by apply Forall_ne.
Qed.

Lemma stopped_ok now now' r : ra_ok now r -> now <= now' -> done r = false -> ra_ok now' (stopped now' r).
Proof.
  intros H Hn Ed. assert (Hr : ra_ok now' r) by (destruct H as [? ? [? ?] ? ? ?]; split; try done; split; [lia|done]).
  destruct (send_ok Final now' everyone true r Hr Ed) as (H1 & H2 & H3 & E); [done|done|].
  destruct Hr as [? ? [? ?] Hd ? Hdn]. split; cbn in *; try done; [by apply Forall_ne|]. eexists _, _. split; [done|]. by split_and!.
Qed.

Lemma ra_steps_ok x y : rtc ra_step x y -> ra_ok (fst x) (snd x) -> ra_ok (fst y) (snd y).
Proof.
  induction 1 as [|x1 x2 x3 H1 _ IH]; [done|]. intros H. apply IH.
  destruct H1; cbn in *; eauto using heard_ok, solicited_ok, fired_ok, stopped_ok.
Qed.

(** C31: Router advertisements stay within their bounds.  Whatever packets arrive and however the
    configuration in force changes while a scope advertises, every field of every advertisement
    fits the width it has in the packet: the router lifetime is at most 9000 seconds, the prefix is
    an IPv6 /64 that holds the DNS server it names, the preferred lifetime is positive and at most
    the valid one, which is below 2^32, and DNS is announced for at most half an hour and, by a
    default router (one with a lifetime above zero), for no longer than the router itself.  They are
    paced: solicitations make the router answer at most every three seconds, the timer at most
    every four.  And once the scope stops advertising the last message of all withdraws router and
    DNS, to all nodes. *)
Theorem ra_bounded s start now r :
  advertises s -> rtc ra_step (start, run_start s start) (now, r) ->
  Forall (fun m => fits (mSaid m)) (sent r) /\ StronglySorted paced (sent r)
  /\ (done r = true -> exists l m, sent r = l ++ [m] /\ withdrawal m).
Proof.
  intros Hs Hr. apply ra_steps_ok in Hr as [? ? ? ? ? Hd]; [|by apply ra_start_ok]. cbn in *. split_and!; try done. intros E. by rewrite E in Hd.
Qed.

(** * An example *)

Module AdvertExample.

Definition lan6 : Scope :=
  mkScope "lan6" "eth0" "2001:db8:1::/64" "2001:db8:1::1" "2001:db8:1::100" "2001:db8:1::1ff" EmptyString "lan.example" 3600 true [] 1800 None
    (Some (mkRA true 1800 30)) None [] [] None.
Definition config : Config := mkConfig [lan6] [] None.

Lemma lan6_advertises : advertises lan6.
Proof. exists config, (mkRA true 1800 30). split; [vm_compute; reflexivity|]. split; [apply list_elem_of_singleton; reflexivity|reflexivity]. Qed.

(** A host asks after five seconds, and again a second later; the timer fires, and the scope is turned off. *)
Definition host : Addr := Addr6 (Z.shiftl 65152 112 + 7) EmptyString.
Definition r0 : raListener := run_start lan6 0.
Definition r1 : raListener := solicited (5 * second) host (heard true (Some 255) host r0).
Definition r2 : raListener := solicited (6 * second) host (heard true (Some 255) host r1).
Definition r3 : raListener := stopped (40 * second) (fired (30 * second) config r2).

Lemma example_run : rtc ra_step (0, r0) (40 * second, r3).
Proof.
  eapply rtc_l; [apply (rs_heard 0 r0 true (Some 255) host)|]. eapply rtc_l; [apply (rs_solicited 0 (5 * second)); [unfold second; lia|reflexivity|reflexivity]|].
  eapply rtc_l; [apply (rs_heard (5 * second) r1 true (Some 255) host)|]. eapply rtc_l; [apply (rs_solicited (5 * second) (6 * second)); [unfold second; lia|reflexivity|reflexivity]|].
  eapply rtc_l; [apply (rs_fired (6 * second) (30 * second) r2 config); [unfold second; lia|reflexivity|vm_compute; discriminate|vm_compute; reflexivity]|].
  apply rtc_once. apply rs_stopped; [unfold second; lia|reflexivity].
Qed.

Lemma ra_bounded_witness : map mCause (sent r3) = [Periodic; Solicited; Periodic; Final] /\ StronglySorted paced (sent r3).
Proof.
  split; [vm_compute; reflexivity|].
  exact (proj1 (proj2 (ra_bounded lan6 0 (40 * second) r3 lan6_advertises example_run))).
Defined.

End AdvertExample.
