(* ===== verification/Report.v ===== *)
(** internal/addressbook/identity.go: joining a host's authenticated report about itself with
    the ledger's evidence; and replicate.go: the events a standby applies. *)

From S2P Require Import Prelude Json NetAddr Ledger Config Allocate LeaseImport.
From Stdlib Require Import Ascii.
Local Open Scope Z_scope.

Section Report.
Context (sha256_hex : string -> string).

Definition check_interface (i : InterfaceReport) : result string unit :=
  check (match ParseMAC (iMAC i) with Some hw => (length hw =? 6)%nat | None => false end
         && (length (iAddresses i) <=? 128)%nat) "invalid reported interface";;
  for_each (fun a => check (bool_decide (is_Some (ParseAddr a))) "invalid reported address") (iAddresses i).

Definition check_report (n : Node) : result string unit :=
  fail_if (is_empty (nID n) || (64 <? length (Interfaces n))%nat) "invalid host report";;
  for_each check_interface (Interfaces n).

Definition iface_mac (i : InterfaceReport) : string := MACString (default [] (ParseMAC (iMAC i))).

(** A sighting of [mac] at a key that still holds. *)
Definition fresh_sighting (l : ledger) (now : Z) (key mac : string) : option Observation :=
  o ← observations l !! key;
  if (now <? Until o) && (oMAC o =?s mac) then Some o else None.

(** The candidates, with the keys already taken. *)
Definition claims : Type := gset string * list Binding.

Definition claim_binding (l : ledger) (now : Z) (mac : string) (st : claims) (b : Binding) : claims :=
  let key := bScope b +++ "/" +++ Address b in
  if bool_decide (key ∈ fst st) || negb (bState b =?s "active") || (End_ b <=? now) then st
  else if negb (MAC b =?s mac) && negb (bool_decide (is_Some (fresh_sighting l now (bindingKey (bScope b) (Address b)) mac)))
       then st
       else ({[key]} ∪ fst st, snd st ++ [b]).

Definition neighbor_binding (now : Z) (o : Observation) : Binding :=
  mkBinding EmptyString EmptyString 0 (oScope o) (oAddress o) ("neighbor:" +++ oMAC o) (oMAC o)
    (deviceID sha256_hex (oScope o) (oMAC o)) EmptyString EmptyString "active" "neighbor-report" now (Until o)
    EmptyString EmptyString EmptyString.

Definition claim_sighting (l : ledger) (now : Z) (mac ip : string) (st : claims) (s : Scope) : claims :=
  match ParseAddr ip, ParsePrefix (Subnet s) with
  | Some a, Some p =>
    let key := sID s +++ "/" +++ AddrString a in
    if negb (Contains p a) || bool_decide (key ∈ fst st) then st
    else match fresh_sighting l now (bindingKey (sID s) (AddrString a)) mac with
         | None => st
         | Some o => if busy now (readBinding l (oScope o) (oAddress o)) then st
                     else ({[key]} ∪ fst st, snd st ++ [neighbor_binding now o])
         end
  | _, _ => st
  end.

Definition claim_address (c : Config) (l : ledger) (now : Z) (mac : string) (st : claims) (ip : string) : claims :=
  fold_left (claim_sighting l now mac ip) (Scopes c) (fold_left (claim_binding l now mac) (liveByAddress l ip) st).

Definition matches (c : Config) (l : ledger) (now : Z) (n : Node) : list Binding :=
  snd (fold_left (fun st i => fold_left (claim_address c l now (iface_mac i)) (iAddresses i) st) (Interfaces n) (∅, [])).

(** The declared device of the node and of the candidates; conflicts refuse the whole report. *)
Definition declare (c : Config) (n : Node) (st : string * string) (b : Binding) : result string (string * string) :=
  fail_if (negb (is_empty (NodeID b)) && negb (NodeID b =?s nID n)
           && match find_device c (Device b) with
              | Some d => negb (HasNode d (NodeID b)) || negb (HasNode d (nID n))
              | None => true
              end) ("identity conflict for " +++ bScope b +++ "/" +++ Address b);;
  match find_device c (Device b) with
  | None => Ok st
  | Some d =>
    fail_if (DeclaresNodes d && negb (HasNode d (nID n))) "inventory identity conflict";;
    fail_if (negb (is_empty (fst st)) && negb (fst st =?s dID d)) "report spans distinct declared devices";;
    Ok (dID d, dName d)
  end.

Definition declared_by (c : Config) (n : Node) : string * string :=
  fold_left (fun st d => if HasNode d (nID n) then (dID d, dName d) else st) (Devices c) (EmptyString, EmptyString).

Definition tailnet_name (c : Config) (l : ledger) (now : Z) (n : Node) (device : string) : string :=
  let first := hd EmptyString (split_char "." (DNSName n)) in
  let name0 := if negb (labelPattern first) || (first =?s "ns") then device else first in
  let name1 := fold_left (fun nm d => if (dName d =?s nm) || HasAlias d nm then device else nm) (Devices c) name0 in
  fold_left (fun nm b => if negb (Device b =?s device) && negb (is_empty (NodeID b)) && negb (NodeID b =?s nID n)
                            && (now <? End_ b) then device else nm) (activeByName l name1) name1.

(** One candidate written with the node's identity. *)
Definition associate (now : Z) (n : Node) (device name : string) (st : ledger * list Binding) (b : Binding) :
    result string (ledger * list Binding) :=
  let '(l, joined) := st in
  fail_if (has_prefix (Evidence b) "operator repair:" && negb (NodeID b =?s nID n)) "operator association requires explicit repair";;
  let changed := negb (Device b =?s device) || negb (NodeID b =?s nID n) || negb (Name b =?s name) in
  let sight := if Origin b =?s "neighbor-report" then fresh_sighting l now (bindingKey (bScope b) (Address b)) (MAC b) else None in
  let evidence := if Origin b =?s "neighbor-report"
    then "authenticated self-report + fresh " +++ match sight with Some o => oOrigin o | None => "kernel-neighbor" end
         +++ " sighting (not a DHCP grant)"
    else "authenticated self-report + active DHCP MAC/address" in
  let end_ := match sight with Some o => Until o | None => End_ b end in
  let b' := with_state (bState b) end_ (with_identity device name (nID n) evidence b) in
  Ok (if changed || negb (End_ b =? end_) then save now b' "associate" l else l, joined ++ [b']).

Definition report_tx (now : Z) (c : Config) (n : Node) (l : ledger) : result string (ledger * list Binding) :=
  let ms := matches c l now n in
  st ← fold_m (declare c n) (declared_by c n) ms;
  let '(device, name) := if is_empty (fst st)
    then let device := deviceID sha256_hex "tailnet" (nID n) in (device, tailnet_name c l now n device)
    else st in
  r ← fold_m (associate now n device name) (l, []) ms;
  Ok (set_nodes (<[nID n := mkNode (nID n) (DNSName n) (Addresses n) (Interfaces n) now]> (nodes (fst r))) (fst r), snd r).

(** A refused report changes nothing but the log. *)
Definition Report (now : Z) (c : Config) (n : Node) (l : ledger) : ledger * result string (list Binding) :=
  match check_report n with
  | Err e => (l, Err e)
  | Ok _ => match report_tx now c n l with
            | Ok (l', joined) => (l', Ok joined)
            | Err e => (audit now "identity-conflict" (nID n +++ ": " +++ e) l, Err e)
            end
  end.

End Report.

(** * internal/addressbook/replicate.go: a warm standby's copy of the authority's ledger, and
    store.go's record of the DNS-visible configuration. *)

(** An unsigned 64-bit number as eight bytes, most significant first, and back. *)
Definition be64 (n : Z) : string :=
  string_of_chars (map (fun i => ascii_of_nat (Z.to_nat (octet n (7 - Z.of_nat i)))) (seq 0 8)).
Definition of_be64 (s : string) : option Z :=
  if (String.length s =? 8)%nat then Some (fold_left (fun n c => n * 256 + byte_of c) (string_chars s) 0) else None.

Definition ReplicaCursor (l : ledger) : Z := default 0 (meta l !! "replica-cursor" ≫= of_be64).

(** One event of the leader; the cursor moves with it. *)
Definition apply_event (now : Z) (st : Z * ledger) (e : Event) : Z * ledger :=
  let '(cursor, l) := st in
  if EventID e <=? cursor then st
  else
    (EventID e,
     match eObservation e with
     | Some o =>
       let l1 := if Kind e =?s "observation"
                 then set_observations (<[bindingKey (oScope o) (oAddress o) := o]> (observations l)) l else l in
       appendEvent (mkEvent EmptyString 0 (Time e) (Kind e) no_binding (Some o)) l1
     | None => if negb (is_empty (bScope (eBinding e))) then save now (eBinding e) (Kind e) l else l
     end).

Definition apply_snapshot (s : Snapshot) (l : ledger) : result string ledger :=
  l1 ← (if is_empty (ServerDUID s) then Ok l
        else match hex_decode (remove_char ":" (ServerDUID s)) with
             | Some raw => Ok (set_meta "duid" raw l)
             | None => Err "replicated server DUID"
             end);
  let l2 := set_nodes (fold_left (fun m n => <[nID n := n]> m) (sNodes s) ∅) l1 in
  Ok (set_associations (fold_left (fun m a => <[aClient a := a]> m) (sAssociations s) ∅) l2).

Definition ApplyReplicated (now : Z) (es : list Event) (snap : option Snapshot) (l : ledger) : ledger * result string Z :=
  update (fun l =>
    let '(cursor, l1) := fold_left (apply_event now) es (ReplicaCursor l, l) in
    l2 ← match snap with Some s => apply_snapshot s l1 | None => Ok l1 end;
    Ok (set_meta "replica-cursor" (be64 cursor) l2, cursor)) l.

(** NoteDNSConfig: [fingerprint] is the digest of the DNS-visible configuration. *)
Definition NoteDNSConfig (now : Z) (fingerprint : string) (l : ledger) : ledger :=
  if bool_decide (meta l !! "dns-config" = Some fingerprint) then l
  else appendEvent (mkEvent (hex_of (String.substring 0 8 fingerprint)) 0 now "dns-config" no_binding None)
         (set_meta "dns-config" fingerprint l).
