(* ===== verification/BookInv.v ===== *)
(** Every other operation on the ledger keeps it well formed: imports, sightings, repairs,
    delegations, reports and replication. *)

From S2P Require Import Prelude Json NetAddr Ledger LedgerInv Config KeyText ConfigInv AddrText Allocate.
From S2P Require Import AllocInv LeaseImport Sightings Delegate Report.
From Stdlib Require Import Ascii.
Local Open Scope Z_scope.

(** * Changes outside the bindings *)

(** The parts of the ledger its invariant speaks about. *)
Definition same_core (l l' : ledger) : Prop :=
  bindings l' = bindings l /\ dns l' = dns l /\ expiry l' = expiry l /\ (forall i, bucket i l' = bucket i l)
  /\ events l' = events l /\ sequence l' = sequence l.

Lemma wf_core l l' : same_core l l' -> wf l -> wf l'.
Proof.
  intros (E1 & E2 & E3 & E4 & E5 & E6) [H1 H2 H3 H4 H5 H6 H7 H8].
  assert (Hs : forall b, stored l' b <-> stored l b) by (intros b; unfold stored; by rewrite E1).
  split; rewrite ?E1, ?E2, ?E3, ?E5, ?E6; try done.
  - intros k v. rewrite H2. by setoid_rewrite Hs.
  - intros e. rewrite H3. by setoid_rewrite Hs.
  - intros i k. rewrite E4, H4. by setoid_rewrite Hs.
Qed.

Lemma core_observations x l : same_core l (set_observations x l).
Proof. by repeat split; try intros []. Qed.
Lemma core_nodes x l : same_core l (set_nodes x l).
Proof. by repeat split; try intros []. Qed.
Lemma core_associations x l : same_core l (set_associations x l).
Proof. by repeat split; try intros []. Qed.
Lemma core_meta k v l : same_core l (set_meta k v l).
Proof. by repeat split; try intros []. Qed.

(** An entry of the log that carries no binding. *)
Lemma append_wf e l : is_empty (bScope (eBinding e)) = true -> wf l -> wf (appendEvent e l).
Proof.
  intros He [H1 H2 H3 H4 H5 H6 H7 H8].
  assert (Hs : forall b, stored (appendEvent e l) b <-> stored l b) by done.
  split; cbn [appendEvent set_events bindings dns expiry events sequence]; try done.
  - intros e'. rewrite elem_of_app, list_elem_of_singleton. intros [?| ->]; [by apply H5|by left].
  - rewrite fold_left_app, <-H6. cbn. unfold log_event. cbn. by rewrite He.
  - rewrite map_app, length_app, H7, H8, seq_app, map_app. cbn. do 2 f_equal. lia.
  - rewrite length_app, H8. cbn. lia.
Qed.

Lemma ok_core l l' : same_core l l' -> associations l' = associations l ->
  (forall k o, observations l' !! k = Some o -> sound_sighting o) -> ledger_ok l -> ledger_ok l'.
Proof.
  intros Hc Ha Ho [Hwf Hl Hn _]. split; [by eapply wf_core| |by rewrite Ha|done].
  intros b Hb. apply Hl. destruct Hc as (E & _). unfold stored in *. by rewrite <-E.
Qed.

Lemma ok_append e l : is_empty (bScope (eBinding e)) = true -> ledger_ok l -> ledger_ok (appendEvent e l).
Proof. intros He [Hwf Hl Hn Ho]. split; [by apply append_wf|done..]. Qed.

Lemma ok_associations x l : ledger_ok l -> (forall k a, x !! k = Some a -> sound_name (aName a)) ->
  ledger_ok (set_associations x l).
Proof. intros [Hwf Hl Hn Ho] Hx. split; [eapply wf_core; [apply core_associations|done]|done..]. Qed.

Lemma ok_observations k o l : ledger_ok l -> sound_sighting o -> ledger_ok (set_observations (<[k := o]> (observations l)) l).
Proof.
  intros Hl Ho. eapply ok_core; [apply core_observations|done| |done]. cbn. intros k' o'.
  rewrite lookup_insert_Some. intros [[_ <-]|[_ H]]; [done|by apply (ok_sightings _ Hl k')].
Qed.
Lemma ok_nodes x l : ledger_ok l -> ledger_ok (set_nodes x l).
Proof. intros Hl. by eapply ok_core; [apply core_nodes|done|apply Hl|]. Qed.
Lemma ok_meta k v l : ledger_ok l -> ledger_ok (set_meta k v l).
Proof. intros Hl. by eapply ok_core; [apply core_meta|done|apply Hl|]. Qed.

#[export] Hint Resolve ok_append ok_observations ok_nodes ok_meta : ghost.

(** A loop whose every round keeps the ledger in order. *)
Lemma fold_ok {A E} (f : ledger -> A -> result E ledger) xs l l' :
  (forall l x l', x ∈ xs -> ledger_ok l -> f l x = Ok l' -> ledger_ok l') ->
  ledger_ok l -> fold_m f l xs = Ok l' -> ledger_ok l'.
Proof.
  intros Hf Hl. apply fold_m_inv; [|done]. intros x s s' Hx. by apply Hf.
Qed.

Lemma update_ok {A E} (f : ledger -> result E (ledger * A)) l l' r :
  (forall l' a, f l = Ok (l', a) -> ledger_ok l') -> ledger_ok l -> update f l = (l', r) -> ledger_ok l'.
Proof. unfold update. intros Hf Hl. destruct (f l) as [[l1 a]|e]; intros [= <- <-]; [by eapply Hf|done]. Qed.

(** * Imports *)

Section Adopt.
Context (sha256_hex : string -> string) (duid_valid : string -> bool).
Context (sha_digits : forall x, str_forallb hex_lower_char (sha256_hex x) = true).
Context (now : Z) (c : Config) (Hc : Validate c = Ok tt).

Lemma adoptDUID_ok value l l' : adoptDUID duid_valid c value l = Ok l' -> exists raw, l' = set_meta "duid" raw l.
Proof.
  unfold adoptDUID. destruct (hex_decode _) as [raw|]; [|done]. intros H.
  apply seq_ok in H as [_ H]. apply seq_ok in H as [_ H]. apply seq_ok in H as [_ [= <-]]. by exists raw.
Qed.

Lemma imported_mac_no_nul i : no_nul (MACString (imported_mac i)) = true.
Proof.
  unfold imported_mac. destruct (ParseMAC (iMACText i)) as [hw|] eqn:E; [|done].
  by eapply MACString_no_nul, ParseMAC_range.
Qed.

(** The texts of an imported lease that passed the checks. *)
Lemma imported_sound s p devs i state evidence preferred :
  good_scope devs s p -> iScope i = sID s -> valid_host p (iAddress i) = true -> validClient (imported_client s i) = true ->
  sound_binding (imported_binding sha256_hex now s i state evidence preferred).
Proof.
  intros Gs Es Hh Hcl. destruct (label_key _ (gs_id _ _ _ Gs)) as (S1 & S2 & S3).
  destruct (deviceID_sound sha256_hex sha_digits (iScope i) (imported_client s i)) as (N1 & N2 & N3).
  unfold sound_binding, imported_binding. cbn. rewrite Es in *. split_and!; try done.
  - by eapply host_no_nul.
  - by apply validClient_no_nul.
  - apply imported_mac_no_nul.
Qed.

Lemma imported_lasting p s i state evidence preferred :
  valid_host p (iAddress i) = true -> 0 <= Expiry i < 2^63 ->
  lasting (imported_binding sha256_hex now s i state evidence preferred).
Proof.
  intros (a & Ea & Ha)%valid_host_spec He. split; [split; [|done]|]; cbn.
  - intros b Eb. rewrite Ea in Eb. injection Eb as <-. by eapply Contains_zone.
  - unfold import_end, forever. destruct (Expiry i =? 0); lia.
Qed.

Lemma sound_identity dev n nid ev b : sound_binding b -> sound_name n -> sound_binding (with_identity dev n nid ev b).
Proof. unfold sound_binding, sound_name. cbn. intros H (N1 & N2 & N3). destruct_and!. done. Qed.

Lemma sound_start t b : sound_binding b -> sound_binding (with_start t b).
Proof. done. Qed.

(** The inventory's name for a reservation is a label. *)
Lemma inventory_name devs ps s p client mac r :
  good_config c devs ps -> good_scope devs s p -> reservation s client mac = Some r ->
  sound_name (dName (default no_device (find_device c (rDevice r)))).
Proof.
  intros Gc Gs Hr. eapply reservation_good in Hr as (_ & (_ & _ & Hd & _) & _); [|done].
  apply (gc_known _ _ _ Gc) in Hd as (d & Hin & Hid). destruct (find_device c (rDevice r)) as [d'|] eqn:Ed.
  - apply find_some in Ed as [Hin'%list_elem_of_In _]. cbn. pose proof (gc_devices _ _ _ Gc) as HF.
    rewrite Forall_forall in HF. by apply label_key, HF.
  - eapply find_none in Ed; [|by apply list_elem_of_In]. cbn in Ed. rewrite Hid, String.eqb_refl in Ed. done.
Qed.

Lemma old_name l scope ip client : ledger_ok l -> no_slash scope = true -> client <> EmptyString ->
  Client (readBinding l scope ip) = client -> sound_name (Name (readBinding l scope ip)).
Proof.
  intros Hl Hs Hne Hcl. destruct (read_client l scope ip client) as [Hst _]; [apply Hl|done..|].
  apply (stored_sound l (ok_wf _ Hl)) in Hst. destruct Hst as (_ & _ & _ & N1 & N2 & N3 & _). done.
Qed.

Lemma import_one_ok adopted l i l' :
  0 <= Expiry i < 2^63 -> ledger_ok l -> import_one sha256_hex now c adopted l i = Ok l' -> ledger_ok l'.
Proof.
  intros He Hl H. unfold import_one in H. apply seq_ok in H as [_ H]. apply seq_ok in H as [_ H].
  destruct (find_scope c (iScope i)) as [s|] eqn:Es; [|done].
  apply (find_scope_good c _ _ Hc) in Es as (Eid & devs & ps & p & Gc & Gs).
  apply seq_ok in H as [_ H]. rewrite (gs_prefix _ _ _ Gs) in H. apply seq_ok in H as [Ha%fail_if_ok H].
  apply seq_ok in H as [_ H]. apply seq_ok in H as [Hcl%check_ok H]. bool_hyps. destruct (import_end i <=? now); [by injection H as <-|].
  assert (Hsound : forall st ev pr, sound_binding (imported_binding sha256_hex now s i st ev pr)).
  { intros. by eapply imported_sound. }
  assert (Hlast : forall st ev pr, lasting (imported_binding sha256_hex now s i st ev pr)) by (intros; by eapply imported_lasting).
  destruct (isQuarantineMarker sha256_hex s i).
  - unfold import_marker in H. destruct (_ && _); [by injection H as <-|]. apply seq_ok in H as [_ H]. apply Ok_inj in H as <-.
    apply keep_save; [done|apply Hsound|apply Hlast].
  - unfold import_lease in H. destruct (_ && _ && _ && _); [by injection H as <-|]. apply seq_ok in H as [_ H]. apply Ok_inj in H as <-.
    destruct (label_key _ (gs_id _ _ _ Gs)) as (_ & S2 & _).
    match goal with |- ledger_ok (save _ (match reservation _ _ (MAC ?b1) with _ => _ end) _ _) =>
      assert (Hb1 : sound_binding b1 /\ lasting b1); [|set (b1' := b1) in *; clearbody b1'] end.
    { destruct (_ && _ && _) eqn:E; [|done]. bool_hyps. split; [|apply (Hlast "active" EmptyString (import_end i))].
      apply sound_start, sound_identity; [apply Hsound|].
      eapply old_name; [done|by rewrite <-Eid| |done]. intros E0. rewrite E0 in Hcl. done. }
    destruct Hb1 as [B1 B2]. destruct (reservation _ _ _) as [r|] eqn:Er; [|by apply keep_save].
    apply keep_save; [done| |exact B2]. apply sound_identity; [done|]. by eapply inventory_name.
Qed.

Lemma ImportDocument_keeps doc l l' r :
  Forall (fun i => Expiry i < 2^63) (Leases doc) -> ledger_ok l ->
  ImportDocument sha256_hex duid_valid now c doc l = (l', r) -> ledger_ok l'.
Proof.
  intros He Hl. unfold ImportDocument. destruct (_ <? _); [by intros [= <- _]|]. apply update_ok; [|done].
  intros l1 [] H. next_ok H. next_ok H. apply Ok_inj in H. simplify_eq.
  assert (Hx1 : ledger_ok x).
  { destruct (is_empty _); [by injection Hx as <-|]. apply adoptDUID_ok in Hx as [raw ->]. by apply ok_meta. }
  eapply fold_ok; [|exact Hx1|exact Hx0]. intros l2 i l3 Hin Hl2 H. apply import_one_ok in H; [done| |done].
  rewrite Forall_forall in He. specialize (He i Hin). unfold import_one in H.
  apply seq_ok in H as [H%fail_if_ok _]. bool_hyps. lia.
Qed.

End Adopt.

(** * Sightings and repairs *)

Section Sightings.
Context (now : Z) (Hnow : unix now) (c : Config) (Hc : Validate c = Ok tt).

Lemma put_sighting_ok o l : sound_sighting o -> ledger_ok l -> ledger_ok (put_sighting now o l).
Proof.
  intros Ho Hl. unfold put_sighting. pose proof (ok_observations (bindingKey (oScope o) (oAddress o)) o l Hl Ho) as H1.
  destruct (observations l !! _); [|by apply ok_append].
  destruct (_ || _); [|done]. apply ok_append; [done|]. destruct (0 <? _); [by apply ok_append|done].
Qed.

Lemma canonical_sound s p devs ttl ip mac o :
  good_scope devs s p -> oScope o = sID s -> Contains p ip = true -> Forall (fun x => 0 <= x < 256) mac ->
  0 <= ttl <= 3600 -> sound_sighting (canonical now ttl ip mac o).
Proof.
  intros Gs Es Hip Hmac Ht. destruct (label_key _ (gs_id _ _ _ Gs)) as (S1 & S2 & S3).
  apply Contains_zone in Hip. unfold sound_sighting, canonical. cbn. rewrite Es. unfold unix in Hnow. split_and!; try done; try lia.
  - apply (text_no_nul printed_char); [done|]. by apply AddrString_chars.
  - intros a. apply percent_zone. eapply str_forallb_weaken; [apply printed_not_percent|by apply AddrString_chars].
  - by apply MACString_no_nul.
Qed.

Lemma observe_one_ok ttl l o l' :
  0 <= ttl <= 3600 -> ledger_ok l -> observe_one now ttl c l o = Ok l' -> ledger_ok l'.
Proof.
  intros Ht Hl. unfold observe_one. destruct (find_scope c (oScope o)) as [s|] eqn:Es; [|done].
  apply (find_scope_good c _ _ Hc) in Es as (Eid & devs & ps & p & Gc & Gs).
  destruct (ParseAddr (oAddress o)) as [ip|]; [|done]. rewrite (gs_prefix _ _ _ Gs). intros H.
  apply seq_ok in H as [Hip%check_ok H]. destruct (ParseMAC (oMAC o)) as [mac|] eqn:Em; [|done].
  apply seq_ok in H as [_ H]. apply Ok_inj in H as <-. apply put_sighting_ok; [|done].
  eapply canonical_sound; [done..|by eapply ParseMAC_range|done].
Qed.

Lemma observe_keeps os ttl l l' r :
  0 <= ttl <= 3600 -> ledger_ok l -> observe now c os ttl l = (l', r) -> ledger_ok l'.
Proof.
  intros Ht Hl. unfold observe. destruct (_ <? _); [by intros [= <- _]|]. apply update_ok; [|done].
  intros l1 [] H. next_ok H. apply Ok_inj in H. simplify_eq. eapply fold_ok; [|done|done].
  intros l2 o l3 _ Hl2. by apply observe_one_ok.
Qed.

Lemma ObserveSwitch_keeps os ttl l l' r : ledger_ok l -> ObserveSwitch now c os ttl l = (l', r) -> ledger_ok l'.
Proof.
  intros Hl. unfold ObserveSwitch. destruct (_ || _) eqn:E; [by intros [= <- _]|]. bool_hyps.
  destruct (existsb _ _); [by intros [= <- _]|]. by apply observe_keeps; [lia|].
Qed.

Lemma putAssociation_ok r l : labelPattern (irName r) = true -> ledger_ok l -> ledger_ok (putAssociation now r l).
Proof.
  intros Hn Hl. unfold putAssociation. destruct (Forget r).
  { apply ok_associations; [done|]. intros k a [_ H]%lookup_delete_Some. by apply (ok_names _ Hl k). }
  destruct (negb (Persist r)); [done|]. apply ok_associations; [done|]. intros k a.
  rewrite lookup_insert_Some. intros [[_ <-]|[_ H]]; [by apply label_key|by apply (ok_names _ Hl k)].
Qed.

Lemma repair_one_ok l r l' : ledger_ok l -> repair_one now c l r = Ok l' -> ledger_ok l'.
Proof.
  intros Hl H. unfold repair_one in H. apply seq_ok in H as [H1%fail_if_ok H]. do 2 apply seq_ok in H as [_ H].
  apply seq_ok in H as [H2%fail_if_ok H]. apply seq_ok in H as [_ H]. apply Ok_inj in H as <-. bool_hyps.
  destruct (read_live l (irScope r) (irAddress r) (ok_wf _ Hl)) as [Hst _].
  { by rewrite (ltac:(eassumption) : bState (readBinding l (irScope r) (irAddress r)) = "active"). }
  apply putAssociation_ok; [done|]. apply keep_save; [done| |exact (ok_lasting _ Hl _ Hst)].
  apply sound_identity; [by apply (stored_sound l (ok_wf _ Hl))|by apply label_key].
Qed.

Lemma Repair_keeps changes l l' r : ledger_ok l -> Repair now c changes l = (l', r) -> ledger_ok l'.
Proof.
  intros Hl. unfold Repair. destruct (match changes with [] => true | _ => _ end); [by intros [= <- _]|].
  apply update_ok; [|done]. intros l1 [] H. next_ok H. apply Ok_inj in H. simplify_eq. eapply fold_ok; [|done|done].
  intros l2 o l3 _ Hl2. by apply repair_one_ok.
Qed.

End Sightings.

(** * Delegations *)

Lemma last_such_spec f bs b : last_such f bs = Some b -> b ∈ bs /\ f b = true.
Proof.
  unfold last_such. assert (H : forall acc, fold_left (fun acc b => if f b then Some b else acc) bs acc = Some b ->
    (b ∈ bs /\ f b = true) \/ acc = Some b).
  { induction bs as [|x bs IH]; intros acc; cbn [fold_left]; [by right|]. intros [[Hin Hf]|E]%IH; [left; split; [by right|done]|].
    destruct (f x) eqn:Ex; [|by right]. injection E as ->. left. split; [left|done]. }
  intros [?|?]%H; done.
Qed.

Lemma live_at_sound l at_ b : wf l -> b ∈ live_at l at_ -> stored l b /\ liveState (bState b) = true.
Proof.
  intros Hwf. destruct at_ as [[scope ip]|]; [|by intros ?%elem_of_nil]. cbn.
  destruct (liveState (bState (readBinding l scope ip))) eqn:E; [|rewrite orb_true_r; by intros ?%elem_of_nil].
  destruct (read_live l scope ip Hwf E) as [Hst _]. destruct (_ || _); [by intros ?%elem_of_nil|].
  by intros ->%list_elem_of_singleton.
Qed.

Lemma liveByClientPrefix_sound l prefix b : wf l -> b ∈ liveByClientPrefix l prefix -> stored l b.
Proof.
  intros Hwf. unfold liveByClientPrefix. rewrite list_elem_of_In, in_flat_map. intros (k & _ & Hb%list_elem_of_In).
  repeat case_match; try (by apply elem_of_nil in Hb). by eapply live_at_sound.
Qed.

Lemma liveByClient_sound l scope client b : wf l -> b ∈ liveByClient l scope client -> stored l b.
Proof. intros Hwf Hb. unfold liveByClient in Hb. by apply liveFromIndex_exact in Hb as [? _]. Qed.

Lemma stored_name l b : ledger_ok l -> stored l b -> sound_name (Name b).
Proof. intros Hl Hb. apply (stored_sound l (ok_wf _ Hl)) in Hb. destruct Hb as (_ & _ & _ & N1 & N2 & N3 & _). done. Qed.

Definition good_prefix (p : Prefix) : Prop :=
  (addr_valid (PAddr p) /\ AddrZone (PAddr p) = EmptyString) /\ 0 <= PBits p <= BitLen (PAddr p).

Lemma ParsePrefix_good v p : ParsePrefix v = Some p -> good_prefix p.
Proof. intros H. pose proof (ParsePrefix_valid _ _ H). apply ParsePrefix_bits in H as [Hb Hz]. done. Qed.

Lemma must_prefix_good v : good_prefix (must_prefix v).
Proof.
  unfold must_prefix. destruct (ParsePrefix v) eqn:E; [by eapply ParsePrefix_good|].
  unfold good_prefix, addr_valid. cbn. split_and!; done || lia.
Qed.

Lemma good_prefix_text p : good_prefix p -> no_nul (PrefixString p) = true /\ plain (PrefixString p).
Proof.
  intros [[_ Hz] Hb]. assert (0 <= PBits p <= 128) as Hb' by (unfold BitLen in Hb; destruct (Is4 (PAddr p)); lia).
  pose proof (PrefixString_chars p Hz Hb') as H. split; [by apply (text_no_nul prefix_char)|].
  intros a. apply percent_zone. eapply str_forallb_weaken; [|exact H]. intros x. unfold prefix_char.
  intros [Hx|Hx]%orb_prop; [by apply printed_not_percent|]. apply Ascii.eqb_eq in Hx as ->. done.
Qed.

Lemma good_prefix_read p : good_prefix p -> ParsePrefix (PrefixString p) = Some p.
Proof. intros [[Hv Hz] Hb]. by apply read_prefix. Qed.

(** The bytes prefixAt works on stay bytes. *)
Lemma add_carry_bytes k carry bytes : Forall byte_range bytes ->
  Forall byte_range (add_carry k carry bytes) /\ length (add_carry k carry bytes) = length bytes.
Proof.
  revert carry bytes. induction k as [|k IH]; intros carry bytes Hb; cbn [add_carry]; [done|].
  destruct (carry =? 0); [done|]. edestruct IH as [H1 H2]; [|split; [exact H1|]; rewrite H2; apply length_insert].
  apply Forall_insert; [done|]. apply Z.mod_pos_bound. lia.
Qed.

Lemma prefixAt_good pool len i : 0 <= len <= 128 -> good_prefix (prefixAt pool len i).
Proof.
  intros Hlen. unfold good_prefix, prefixAt. cbn [PAddr PBits AddrZone BitLen Is4]. split; [|done]. split; [|done].
  edestruct (add_carry_bytes (Z.to_nat (15 - (128 - len) / 8 + 1)) (Z.shiftl i ((128 - len) mod 8)) (As16 (addr_num (PAddr pool))))
    as [H1 H2]; [apply Forall_map, Forall_forall; intros k _; apply octet_range|].
  pose proof (num_of_octets_range _ H1) as H. rewrite H2 in H. exact H.
Qed.

Lemma first_free_good n ok pool len i p :
  0 <= len <= 128 -> first_free n ok pool len i = Some p -> good_prefix p /\ ok p = true.
Proof.
  intros Hlen. revert i. induction n as [|n IH]; intros i; cbn [first_free]; [done|].
  destruct (ok (prefixAt pool len i)) eqn:E; [intros [= <-]; split; [by apply prefixAt_good|done]|apply IH].
Qed.

Section Delegate.
Context (sha256_hex : string -> string).
Context (sha_digits : forall x, str_forallb hex_lower_char (sha256_hex x) = true).
Context (now : Z) (Hnow : unix now).

Lemma choose_prefix_good l scope client hint pool len p :
  0 <= len <= 128 -> choose_prefix l now scope client hint pool len = Some p -> good_prefix p.
Proof.
  intros Hlen. unfold choose_prefix. destruct (last_such _ _); [intros [= <-]; apply must_prefix_good|].
  destruct (if is_empty hint then None else ParsePrefix hint) as [hp|] eqn:Eh.
  - destruct (inPool _ _ _ && _); [|by intros [? _]%first_free_good]. intros [= <-].
    destruct (is_empty hint); [done|]. by eapply ParsePrefix_good.
  - by intros [? _]%first_free_good.
Qed.

Lemma prefix_binding_fields l s client duid via p commit b kind :
  prefix_binding sha256_hex l now s client duid via p commit = (b, kind) ->
  bScope b = sID s /\ Address b = PrefixString p /\ Client b = client /\ MAC b = EmptyString
  /\ bState b = (if commit then "active" else "offered") /\ Origin b = originPD
  /\ End_ b = (if commit then now + LeaseSeconds s else now + 30).
Proof. unfold prefix_binding. intros [= <- _]. by repeat case_match. Qed.

(** Whose name a delegation carries. *)
Lemma prefix_binding_name l s client duid via p commit b kind :
  wf l -> prefix_binding sha256_hex l now s client duid via p commit = (b, kind) ->
  (exists same, stored l same /\ Name b = Name same)
  \/ (Client (readBinding l (sID s) (PrefixString p)) = client /\ Name b = Name (readBinding l (sID s) (PrefixString p)))
  \/ Name b = deviceID sha256_hex (sID s) client.
Proof.
  unfold prefix_binding. intros Hwf [= <- _].
  destruct (last_such _ _) as [same|] eqn:Es; change (default no_binding (Some ?x)) with x;
    change (default no_binding None) with no_binding.
  - destruct (negb (is_empty (Device same))).
    + apply last_such_spec in Es as [Hin _]. apply liveByClientPrefix_sound in Hin; [|done]. left. by exists same.
    + destruct (_ && _ && _) eqn:E; [|by right; right]. bool_hyps. by right; left.
  - cbn [no_binding Device is_empty negb]. destruct (_ && _ && _) eqn:E; [|by right; right]. bool_hyps. by right; left.
Qed.

Lemma prefix_binding_sound l devs s sp client duid via p commit b kind :
  good_scope devs s sp -> ledger_ok l -> good_prefix p -> validClient client = true ->
  prefix_binding sha256_hex l now s client duid via p commit = (b, kind) -> sound_binding b.
Proof.
  intros Gs Hl Gp Hcl Hb. pose proof (prefix_binding_fields _ _ _ _ _ _ _ _ _ Hb) as (E1 & E2 & E3 & E4 & _).
  destruct (label_key _ (gs_id _ _ _ Gs)) as (S1 & S2 & S3). destruct (good_prefix_text p Gp) as [T1 _].
  assert (Hname : sound_name (Name b)).
  { apply prefix_binding_name in Hb as [(same & Hst & ->)|[[Ho ->]| ->]]; [..|apply Hl].
    - by eapply stored_name.
    - eapply old_name; [done..| |done]. by intros ->.
    - by apply deviceID_sound. }
  destruct Hname as (N1 & N2 & N3). unfold sound_binding. rewrite E1, E2, E3, E4. split_and!; try done. by apply validClient_no_nul.
Qed.

Lemma AllocatePrefix_keeps devs s sp pd client duid hint via commit l l' r :
  good_scope devs s sp -> 0 <= Length pd <= 128 -> validClient client = true -> ledger_ok l ->
  AllocatePrefix sha256_hex now s pd client duid hint via commit l = (l', r) -> ledger_ok l'.
Proof.
  intros Gs Hlen Hcl Hl. unfold AllocatePrefix. apply update_ok; [|done]. intros l1 b. unfold delegate_tx.
  destruct (choose_prefix _ _ _ _ _ _ _) as [p|] eqn:Ep; [|done]. apply choose_prefix_good in Ep; [|done].
  destruct (_ && _); [by intros [= <- _]|]. destruct (prefix_binding _ _ _ _ _ _ _ _ _) as [b' kind] eqn:Eb.
  intros H. apply Ok_inj in H. injection H as <- <-. apply keep_save; [done|by eapply prefix_binding_sound|].
  destruct (prefix_binding_fields _ _ _ _ _ _ _ _ _ Eb) as (_ & E2 & _ & _ & _ & _ & E7). unfold lasting, printed. rewrite E2, E7.
  split; [split; [by apply good_prefix_text|intros _; exists p; split; [by apply good_prefix_read|done]]|]. pose proof (gs_lease _ _ _ Gs). unfold unix in Hnow. destruct commit; lia.
Qed.

Lemma release_fold_ok bs l : (forall b, b ∈ bs -> sound_binding b /\ plain (Address b) /\ printed b) -> ledger_ok l ->
  ledger_ok (fold_left (fun l b => save now (with_state "released" now b) "release" l) bs l).
Proof.
  revert l. induction bs as [|b bs IH]; intros l Hbs Hl; [done|]. cbn. apply IH; [intros; apply Hbs; by right|].
  destruct (Hbs b) as [H1 H2]; [left|]. apply keep_save; [done|by apply with_state_sound|].
  split; [done|]. unfold unix in Hnow. cbn. lia.
Qed.

Lemma releasePrefix_keeps s client l l' r : ledger_ok l -> releasePrefix now s client l = (l', r) -> ledger_ok l'.
Proof.
  intros Hl. unfold releasePrefix. apply update_ok; [|done]. intros l1 [] H. apply seq_ok in H as [_ H].
  apply Ok_inj in H. injection H as <-. apply release_fold_ok; [|done]. intros b Hb.
  apply list_elem_of_In, filter_In in Hb as [Hb%list_elem_of_In _]. apply liveByClient_sound in Hb; [|apply Hl].
  split; [by apply (stored_sound l (ok_wf _ Hl))|by apply (ok_lasting _ Hl)].
Qed.

End Delegate.

(** * Reports *)

Section Report.
Context (sha256_hex : string -> string).
Context (sha_digits : forall x, str_forallb hex_lower_char (sha256_hex x) = true).
Context (now : Z) (c : Config) (Hc : Validate c = Ok tt).

(** A candidate: everything but its name is in order. *)
Definition claimable (b : Binding) : Prop := (forall dev n nid ev, sound_name n -> sound_binding (with_identity dev n nid ev b)) /\ lasting b.

Lemma stored_claimable l b : ledger_ok l -> stored l b -> claimable b.
Proof.
  intros Hl Hb. split; [|by apply (ok_lasting _ Hl)]. intros. apply sound_identity; [|done].
  by apply (stored_sound l (ok_wf _ Hl)).
Qed.

Lemma fresh_sighting_ok l key mac o : ledger_ok l -> fresh_sighting l now key mac = Some o -> sound_sighting o.
Proof.
  intros Hl. unfold fresh_sighting. destruct (observations l !! key) as [o'|] eqn:E; [|done]. cbn.
  destruct (_ && _); [|done]. intros [= <-]. by apply (ok_sightings _ Hl key).
Qed.

Lemma neighbor_claimable o : sound_sighting o -> claimable (neighbor_binding sha256_hex now o).
Proof.
  intros ((S1 & S2 & S3) & A1 & A2 & M & U). split; [|split; [split; [done|by intros ?]|done]].
  intros dev n nid ev (N1 & N2 & N3). unfold sound_binding. cbn. split_and!; try done.
Qed.

Lemma matches_claimable l n : ledger_ok l -> Forall claimable (matches sha256_hex c l now n).
Proof.
  intros Hl. unfold matches. apply (fold_left_inv _ (fun st : claims => Forall claimable (snd st))); [|by constructor].
  intros i st _ Hst. apply (fold_left_inv _ (fun st : claims => Forall claimable (snd st))); [|done].
  intros ip st' _ Hst'. unfold claim_address. apply (fold_left_inv _ (fun st : claims => Forall claimable (snd st))).
  - intros s st1 _ H1. unfold claim_sighting. destruct (ParseAddr ip); [|done]. destruct (ParsePrefix _); [|done].
    destruct (_ || _); [done|]. destruct (fresh_sighting _ _ _ _) as [o|] eqn:Eo; [|done].
    destruct (busy _ _); [done|]. apply Forall_app_2; [done|]. constructor; [|constructor].
    by eapply neighbor_claimable, fresh_sighting_ok.
  - apply (fold_left_inv _ (fun st : claims => Forall claimable (snd st))); [|done]. intros b st1 Hb H1.
    unfold claim_binding. destruct (_ || _); [done|]. destruct (_ && _); [done|]. apply Forall_app_2; [done|].
    constructor; [|constructor]. unfold liveByAddress in Hb. apply liveFromIndex_exact in Hb as [Hb _]; [|apply Hl].
    by eapply stored_claimable.
Qed.

Lemma device_name d : d ∈ Devices c -> sound_name (dName d).
Proof.
  destruct (Validate_good c Hc) as (devs & ps & Gc). intros Hd. pose proof (gc_devices _ _ _ Gc) as HF.
  rewrite Forall_forall in HF. by apply label_key, HF.
Qed.

Definition named_device (st : string * string) : Prop := fst st = EmptyString \/ sound_name (snd st).

Lemma declare_ok n bs st : fold_m (declare c n) (declared_by c n) bs = Ok st -> named_device st.
Proof.
  apply fold_m_inv.
  - intros b s s' _ Hs H. unfold declare in H. apply seq_ok in H as [_ H]. destruct (find_device c (Device b)) as [d|] eqn:Ed.
    + do 2 apply seq_ok in H as [_ H]. apply Ok_inj in H as <-. right. cbn. apply find_some in Ed as [Hin%list_elem_of_In _].
      by apply device_name.
    + by apply Ok_inj in H as <-.
  - unfold declared_by. apply fold_left_inv; [|by left]. intros d s Hd Hs. destruct (HasNode d (nID n)); [|done].
    right. by apply device_name.
Qed.

Lemma tailnet_name_sound l n device : sound_name device -> sound_name (tailnet_name c l now n device).
Proof.
  intros Hd. unfold tailnet_name. apply fold_left_inv; [intros b nm _ Hnm; by destruct (_ && _ && _ && _)|].
  apply fold_left_inv; [intros d nm _ Hnm; by destruct (_ || _)|]. destruct (_ || _) eqn:E; [done|]. bool_hyps.
  by apply label_key.
Qed.

Lemma associate_ok n device name l joined b l' joined' : sound_name name -> claimable b -> ledger_ok l ->
  associate now n device name (l, joined) b = Ok (l', joined') -> ledger_ok l'.
Proof.
  intros Hname [Hb Hlast] Hl H. unfold associate in H. apply seq_ok in H as [_ H]. apply Ok_inj in H. injection H as <- _.
  match goal with |- ledger_ok (if ?cond then _ else _) => destruct cond; [|done] end.
  apply keep_save; [done|apply with_state_sound; by apply Hb|]. split; [apply Hlast|]. cbn.
  destruct (Origin b =?s "neighbor-report"); [|apply Hlast].
  destruct (fresh_sighting _ _ _ _) as [o|] eqn:Eo; [|apply Hlast]. by apply (fresh_sighting_ok _ _ _ _ Hl) in Eo as (_ & _ & _ & _ & ?).
Qed.

Lemma Report_keeps n l l' r : ledger_ok l -> Report sha256_hex now c n l = (l', r) -> ledger_ok l'.
Proof.
  intros Hl. unfold Report. destruct (check_report n); [|by intros [= <- _]].
  destruct (report_tx sha256_hex now c n l) as [[l1 joined]|e] eqn:E; [|intros [= <- _]; by apply ok_append].
  intros [= <- _]. unfold report_tx in E. next_ok E. apply declare_ok in Hx. destruct (is_empty (fst x)) eqn:Ee.
  - next_ok E. apply Ok_inj in E. injection E as <- _. apply ok_nodes. destruct x0 as [l2 j2].
    apply (fold_m_inv _ (fun st => ledger_ok (fst st))) in Hx0; [done| |done]. intros b [l3 j3] [l4 j4] Hb H3 H.
    eapply associate_ok; [| |exact H3|exact H]; [apply tailnet_name_sound, deviceID_sound; done|].
    pose proof (matches_claimable l n Hl) as HF. rewrite Forall_forall in HF. by apply HF.
  - destruct x as [device name]. next_ok E. apply Ok_inj in E. injection E as <- _. apply ok_nodes. destruct x as [l2 j2].
    apply (fold_m_inv _ (fun st => ledger_ok (fst st))) in Hx0; [done| |done]. intros b [l3 j3] [l4 j4] Hb H3 H.
    eapply associate_ok; [| |exact H3|exact H]; [by destruct Hx as [E0|?]; [rewrite E0 in Ee|]|].
    pose proof (matches_claimable l n Hl) as HF. rewrite Forall_forall in HF. by apply HF.
Qed.

End Report.

(** * Replication *)

(** An event a leader in order can have logged. *)
Definition sound_event (e : Event) : Prop :=
  (forall o, eObservation e = Some o -> sound_sighting o)
  /\ (is_empty (bScope (eBinding e)) = false -> sound_binding (eBinding e) /\ lasting (eBinding e)).

Lemma apply_event_ok now cursor l e : sound_event e -> ledger_ok l -> ledger_ok (snd (apply_event now (cursor, l) e)).
Proof.
  intros [Ho Hb] Hl. unfold apply_event. destruct (_ <=? _); [done|]. cbn [snd]. destruct (eObservation e) as [o|].
  - apply ok_append; [done|]. destruct (_ =?s _); [|done]. apply ok_observations; [done|by apply Ho].
  - destruct (is_empty (bScope (eBinding e))) eqn:E; [done|]. destruct (Hb eq_refl). by apply keep_save.
Qed.

Lemma ApplyReplicated_keeps now es snap l l' r :
  Forall sound_event es -> (forall s a, snap = Some s -> a ∈ sAssociations s -> sound_name (aName a)) -> ledger_ok l ->
  ApplyReplicated now es snap l = (l', r) -> ledger_ok l'.
Proof.
  intros Hes Hs Hl. unfold ApplyReplicated. apply update_ok; [|done]. intros l1 z H.
  assert (Hf : ledger_ok (snd (fold_left (apply_event now) es (ReplicaCursor l, l)))).
  { apply (fold_left_inv _ (fun st => ledger_ok (snd st))); [|done]. intros e [cur l2] He Hl2. rewrite Forall_forall in Hes.
    apply apply_event_ok; [by apply Hes|done]. }
  destruct (fold_left _ es _) as [cursor l2]. cbn [snd] in Hf. next_ok H. apply Ok_inj in H. injection H as <- _. apply ok_meta.
  destruct snap as [s|]; [|by apply Ok_inj in Hx as <-]. unfold apply_snapshot in Hx. next_ok Hx. apply Ok_inj in Hx as <-.
  apply ok_associations.
  - apply ok_nodes. destruct (is_empty _); [by apply Ok_inj in Hx0 as <-|]. destruct (hex_decode _); [|done].
    apply Ok_inj in Hx0 as <-. by apply ok_meta.
  - apply (fold_left_inv _ (fun m : gmap string Association => forall k a, m !! k = Some a -> sound_name (aName a))).
    + intros a m Ha Hm k a'. rewrite lookup_insert_Some. intros [[_ <-]|[_ ?]]; [by eapply Hs|by eapply Hm].
    + intros k a. by rewrite lookup_empty.
Qed.
