(* ===== verification/BookSafety.v ===== *)
(** The address book as a transition system, and its safety: what every reachable ledger
    satisfies, and that nobody but its owner ends or changes a live lease. *)

From S2P Require Import Prelude Json NetAddr Ledger LedgerInv Config KeyText ConfigInv Allocate AllocInv.
From S2P Require Import LeaseImport Sightings Delegate Report BookInv.
From Stdlib Require Import Ascii.
Local Open Scope Z_scope.

(** * A lease that is held *)

(** The grant itself: everything of a binding but the identity joined to it. *)
Definition same_lease (b b' : Binding) : Prop :=
  bScope b' = bScope b /\ Address b' = Address b /\ Client b' = Client b /\ MAC b' = MAC b /\ bState b' = bState b
  /\ Origin b' = Origin b /\ Start b' = Start b /\ End_ b' = End_ b.

Definition holds (b : Binding) (l : ledger) : Prop := exists b', stored l b' /\ same_lease b b'.

Lemma same_lease_refl b : same_lease b b.
Proof. done. Qed.
Lemma same_lease_identity b b' dev n nid ev : same_lease b b' -> same_lease b (with_identity dev n nid ev b').
Proof. done. Qed.
Lemma same_key b b' : same_lease b b' -> key_of b' = key_of b.
Proof. intros (E1 & E2 & _). unfold key_of. by rewrite E1, E2. Qed.

Section Kept.
Context (b : Binding).

Lemma holds_bindings l l' : bindings l' = bindings l -> holds b l -> holds b l'.
Proof. intros E (b' & Hb & Hs). exists b'. split; [|done]. unfold stored in *. by rewrite E. Qed.

(** Writing a binding keeps the lease, unless it is written over with another. *)
Lemma holds_save now b' kind l : (key_of b' = key_of b -> same_lease b b') -> holds b l -> holds b (save now b' kind l).
Proof.
  intros Hk (d & Hd & Hs). destruct (save_fields now b' kind l) as (F & _). unfold holds, stored. rewrite F.
  destruct (decide (key_of b' = key_of b)) as [E|Hne].
  - exists b'. split; [apply lookup_insert_eq|by apply Hk].
  - exists d. split; [|done]. rewrite lookup_insert_ne; [exact Hd|]. rewrite (same_key _ _ Hs). done.
Qed.

Lemma holds_read l scope ip : holds b l -> bindingKey scope ip = key_of b -> same_lease b (readBinding l scope ip).
Proof.
  intros (d & Hd & Hs) E. unfold readBinding. rewrite E, <-(same_key _ _ Hs). unfold stored in Hd. by rewrite Hd.
Qed.

Lemma holds_stored l d : holds b l -> stored l d -> key_of d = key_of b -> same_lease b d.
Proof.
  intros (d' & Hd' & Hs) Hd E. unfold stored in *. rewrite (same_key _ _ Hs) in Hd'. rewrite E in Hd. by simplify_eq.
Qed.

Lemma holds_update {A X} (f : ledger -> result X (ledger * A)) l :
  (forall l' a, f l = Ok (l', a) -> holds b l') -> holds b l -> holds b (fst (update f l)).
Proof. unfold update. intros Hf Hl. destruct (f l) as [[l1 a]|e] eqn:E; cbn; [by eapply Hf|done]. Qed.

End Kept.

#[export] Hint Resolve holds_bindings : ghost.

(** * The operations *)

Inductive op :=
| OpAllocate (c : Config) (scope client mac claimed requested : string) (commit : bool)
| OpRelease (scope client ip : string) (decline : bool)
| OpExpire
| OpImport (c : Config) (doc : ImportDocument_)
| OpObserve (c : Config) (os : list Observation)
| OpObserveSwitch (c : Config) (os : list Observation) (ttl : Z)
| OpRepair (c : Config) (changes : list IdentityRepair)
| OpDelegate (c : Config) (scope : string) (pd : PDConfig) (client duid hint via : string) (commit : bool)
| OpReleasePrefix (c : Config) (scope client : string)
| OpReport (c : Config) (n : Node)
| OpNoteDNS (fingerprint : string).

Section Book.
Context (sha256_hex : string -> string) (duid_valid : string -> bool).

(** The ledger after an operation at a time, whether it succeeds or fails. *)
Definition perform (now : Z) (o : op) (l : ledger) : ledger :=
  match o with
  | OpAllocate c scope client mac claimed requested commit =>
    fst (Allocate sha256_hex now c scope client mac claimed requested commit l)
  | OpRelease scope client ip decline => fst (Release now scope client ip decline l)
  | OpExpire => Expire now l
  | OpImport c doc => fst (ImportDocument sha256_hex duid_valid now c doc l)
  | OpObserve c os => fst (Observe now c os l)
  | OpObserveSwitch c os ttl => fst (ObserveSwitch now c os ttl l)
  | OpRepair c changes => fst (Repair now c changes l)
  | OpDelegate c scope pd client duid hint via commit =>
    match find_scope c scope with
    | Some s => fst (AllocatePrefix sha256_hex now s pd client duid hint via commit l)
    | None => l
    end
  | OpReleasePrefix c scope client =>
    match find_scope c scope with Some s => fst (releasePrefix now s client l) | None => l end
  | OpReport c n => fst (Report sha256_hex now c n l)
  | OpNoteDNS fp => NoteDNSConfig now fp l
  end.

Definition valid_config (c : Config) : Prop := Validate c = Ok tt.

(** What the callers guarantee: accepted configurations, addresses printed without a zone,
    validated clients and lengths of delegations, int64 expiries. *)
Definition admissible (o : op) : Prop :=
  match o with
  | OpAllocate c _ _ _ _ requested _ => valid_config c /\ plain requested
  | OpImport c doc => valid_config c /\ Forall (fun i => Expiry i < 2^63) (Leases doc)
  | OpObserve c _ | OpObserveSwitch c _ _ | OpRepair c _ | OpReport c _ => valid_config c
  | OpDelegate c _ pd client _ _ _ _ => valid_config c /\ validClient client = true /\ 0 <= Length pd <= 128
  | OpReleasePrefix c _ _ => valid_config c
  | OpRelease _ _ _ _ | OpExpire | OpNoteDNS _ => True
  end.

Inductive book_step : Z * op -> ledger -> ledger -> Prop :=
| step_op now o l : unix now -> admissible o -> book_step (now, o) l (perform now o l).

(** A run: the operations in their order. *)
Inductive run : list (Z * op) -> ledger -> ledger -> Prop :=
| run_nil l : run [] l l
| run_cons x xs l1 l2 l3 : book_step x l1 l2 -> run xs l2 l3 -> run (x :: xs) l1 l3.

Context (sha_digits : forall x, str_forallb hex_lower_char (sha256_hex x) = true).

Lemma step_ok x l l' : book_step x l l' -> ledger_ok l -> ledger_ok l'.
Proof.
  intros Hs Hl. destruct Hs as [now o l Hn Ha]. destruct o; cbn in *.
  - destruct (Allocate _ _ _ _ _ _ _ _ _ _) eqn:E. eapply (Allocate_keeps sha256_hex sha_digits); [..|exact E]; tauto.
  - destruct (Release _ _ _ _ _ _) eqn:E. by eapply Release_keeps.
  - by apply Expire_bindings.
  - destruct (ImportDocument _ _ _ _ _ _) eqn:E. eapply (ImportDocument_keeps sha256_hex duid_valid sha_digits); [..|exact E]; tauto.
  - destruct (Observe _ _ _ _) eqn:E. eapply observe_keeps; [..|exact E]; [done..|lia|done].
  - destruct (ObserveSwitch _ _ _ _ _) eqn:E. eapply ObserveSwitch_keeps; [..|exact E]; done.
  - destruct (Repair _ _ _ _) eqn:E. eapply Repair_keeps; [..|exact E]; done.
  - destruct Ha as (Hc & Hcl & Hlen). destruct (find_scope c scope) as [s|] eqn:Es; [|done].
    apply (find_scope_good c _ _ Hc) in Es as (_ & devs & ps & p & _ & Gs).
    destruct (AllocatePrefix _ _ _ _ _ _ _ _ _ _) eqn:E. by eapply (AllocatePrefix_keeps sha256_hex sha_digits).
  - destruct (find_scope c scope) as [s|]; [|done]. destruct (releasePrefix _ _ _ _) eqn:E. by eapply releasePrefix_keeps.
  - destruct (Report _ _ _ _ _) eqn:E. by eapply (Report_keeps sha256_hex sha_digits).
  - unfold NoteDNSConfig. destruct (bool_decide _); [done|]. apply ok_append; [done|by apply ok_meta].
Qed.

Lemma run_ok xs l l' : run xs l l' -> ledger_ok l -> ledger_ok l'.
Proof. induction 1 as [|x xs l1 l2 l3 Hs _ IH]; [done|]. intros Hl. by eapply IH, step_ok. Qed.
End Book.

(** * Nobody else ends a live lease *)

Section Foreign.
Context (sha256_hex : string -> string) (duid_valid : string -> bool).
Context (b : Binding) (now : Z).
Context (Hlive : liveState (bState b) = true) (Hend : now < End_ b) (Horigin : Origin b <> "neighbor-report").

Lemma held_busy l scope ip : holds b l -> bindingKey scope ip = key_of b -> busy now (readBinding l scope ip) = true.
Proof.
  intros Hb E. destruct (holds_read b l scope ip Hb E) as (_ & _ & _ & _ & E5 & _ & _ & E8). unfold busy.
  by rewrite E5, E8, Hlive, (proj2 (Z.ltb_lt _ _)).
Qed.

Lemma held_client l scope ip : holds b l -> bindingKey scope ip = key_of b -> Client (readBinding l scope ip) = Client b.
Proof. intros Hb E. by destruct (holds_read b l scope ip Hb E) as (_ & _ & ? & _). Qed.

Lemma Allocate_foreign c id client mac claimed requested commit l :
  client <> Client b -> holds b l -> holds b (fst (Allocate sha256_hex now c id client mac claimed requested commit l)).
Proof.
  intros Hne Hb. destruct (Allocate _ _ _ _ _ _ _ _ _ l) as [l' [d|e]] eqn:E; [|by apply Allocate_err in E as ->].
  apply Allocate_ok in E as (s & mac' & ip & _ & Hch & [(_ & -> & _)|(kind & Hn & ->)]); [done|]. cbn [fst].
  apply holds_save; [|done]. apply new_binding_fields in Hn as (E1 & E2 & _). unfold key_of. rewrite E1, E2. intros Ek.
  apply choose_available in Hch. unfold available, blocks in Hch. apply andb_prop in Hch as [_ Hbl].
  rewrite (held_busy l (sID s) ip Hb Ek), (held_client l (sID s) ip Hb Ek), (proj2 (String.eqb_neq _ _)) in Hbl by done.
  done.
Qed.

(** A live binding of another client is not this one. *)
Lemma other_key l d : holds b l -> stored l d -> Client d <> Client b -> key_of d <> key_of b.
Proof. intros Hb Hd Hne E. by destruct (holds_stored b l d Hb Hd E) as (_ & _ & ? & _). Qed.

Lemma Release_foreign scope client ip decline l :
  client <> Client b -> wf l -> holds b l -> holds b (fst (Release now scope client ip decline l)).
Proof.
  intros Hne Hwf Hb. destruct (Release now scope client ip decline l) as [l' [[]|e]] eqn:E; [|by apply Release_err in E as ->].
  apply Release_ok in E as (Hc & _ & Hu%usable_live & ->). destruct (read_live l scope ip Hwf Hu) as [Hst _].
  pose proof (other_key l _ Hb Hst ltac:(congruence)) as Hk. cbn [fst]. destruct decline; by apply holds_save.
Qed.

Lemma Expire_foreign l : ledger_ok l -> holds b l -> holds b (Expire now l).
Proof.
  intros Hl (d & Hd & Hs). exists d. split; [|done]. unfold stored. destruct (Expire_bindings now l Hl) as [_ ->].
  destruct (decide _) as [Hin|]; [|done]. apply list_elem_of_In, in_map_iff in Hin as (k & Ek & Hk%list_elem_of_In).
  assert (Hdue : k ∈ due now l) by (rewrite <-(take_drop 1000 (due now l)); apply elem_of_app; by left).
  apply elem_of_due in Hdue as [Hke Hle]. destruct (expiry_entry_read l k Hl Hke) as (d' & Hd' & Ek' & _ & Ef & _).
  unfold stored in Hd'. rewrite <-Ek', Ek in Hd'. unfold stored in Hd. simplify_eq.
  destruct Hs as (_ & _ & _ & _ & _ & _ & _ & ?). lia.
Qed.

Lemma import_one_foreign c adopted l i l' :
  (forall s, find_scope c (iScope i) = Some s -> imported_client s i <> Client b) ->
  holds b l -> import_one sha256_hex now c adopted l i = Ok l' -> holds b l'.
Proof.
  intros Hne Hb H. unfold import_one in H. do 2 apply seq_ok in H as [_ H].
  destruct (find_scope c (iScope i)) as [s|] eqn:Es; [|done]. apply seq_ok in H as [_ H].
  destruct (ParsePrefix (Subnet s)); [|done]. do 3 apply seq_ok in H as [_ H].
  destruct (import_end i <=? now); [by injection H as <-|]. specialize (Hne s eq_refl).
  assert (Hk : bindingKey (iScope i) (iAddress i) = key_of b ->
    busy now (readBinding l (iScope i) (iAddress i)) = true /\ Client (readBinding l (iScope i) (iAddress i)) = Client b).
  { intros E. split; [by apply held_busy|by apply held_client]. }
  unfold busy in Hk. destruct (isQuarantineMarker sha256_hex s i).
  - unfold import_marker in H. destruct (_ && _) eqn:Ed; [by injection H as <-|]. apply seq_ok in H as [Hu%fail_if_ok H].
    apply Ok_inj in H as <-. apply holds_save; [|done]. intros [Hbusy _]%Hk. exfalso. unfold usable_state in Hu.
    unfold liveState in Hbusy. clear -Ed Hu Hbusy.
    destruct (now <? _), (_ =?s "declined"), (_ =?s "active"), (_ =?s "offered"); done.
  - unfold import_lease in H. destruct (_ && _ && _ && _); [by injection H as <-|]. apply seq_ok in H as [Hu%fail_if_ok H].
    apply Ok_inj in H as <-. apply holds_save; [|done].
    assert (Hcl : bindingKey (iScope i) (iAddress i) = key_of b -> False).
    { intros [Hbusy Hc]%Hk. rewrite Hbusy, Hc, (proj2 (String.eqb_neq _ _)) in Hu by congruence. done. }
    intros E. exfalso. apply Hcl. rewrite <-E. unfold key_of. by repeat case_match.
Qed.

Lemma ImportDocument_foreign c doc l :
  (forall i s, i ∈ Leases doc -> find_scope c (iScope i) = Some s -> imported_client s i <> Client b) ->
  holds b l -> holds b (fst (ImportDocument sha256_hex duid_valid now c doc l)).
Proof.
  intros Hne Hb. unfold ImportDocument. destruct (_ <? _); [done|]. apply holds_update; [|done].
  intros l1 [] H. next_ok H. next_ok H. apply Ok_inj in H. simplify_eq.
  assert (Hx1 : holds b x).
  { destruct (is_empty _); [by injection Hx as <-|]. apply adoptDUID_ok in Hx as [raw ->]. by apply (holds_bindings b l). }
  eapply fold_m_inv; [|exact Hx1|exact Hx0]. intros i l2 l3 Hi Hl2. apply import_one_foreign; [|done].
  intros s. by apply Hne.
Qed.

Lemma put_sighting_bindings o l : bindings (put_sighting now o l) = bindings l.
Proof. unfold put_sighting. by repeat case_match. Qed.

Lemma observe_foreign c os ttl l : holds b l -> holds b (fst (observe now c os ttl l)).
Proof.
  intros Hb. unfold observe. destruct (_ <? _); [done|]. apply holds_update; [|done]. intros l1 [] H. next_ok H.
  apply Ok_inj in H. simplify_eq. eapply fold_m_inv; [|exact Hb|exact Hx]. intros o l2 l3 _ H2 H. unfold observe_one in H.
  destruct (find_scope _ _); [|done]. destruct (ParseAddr _); [|done]. destruct (ParsePrefix _); [|done].
  apply seq_ok in H as [_ H]. destruct (ParseMAC _); [|done]. apply seq_ok in H as [_ H]. apply Ok_inj in H as <-.
  eapply holds_bindings; [apply put_sighting_bindings|done].
Qed.

Lemma repair_foreign c changes l : Validate c = Ok tt -> ledger_ok l -> holds b l -> holds b (fst (Repair now c changes l)).
Proof.
  intros Hc Hl Hb. unfold Repair. destruct (match changes with [] => true | _ => _ end); [done|]. apply holds_update; [|done].
  intros l1 [] H. next_ok H. apply Ok_inj in H. simplify_eq.
  eapply (fold_m_inv _ (fun l => ledger_ok l /\ holds b l)) in Hx; [apply Hx| |done]. intros r l2 l3 _ [Hok2 H2] H.
  split; [by eapply repair_one_ok|]. unfold repair_one in H. do 3 apply seq_ok in H as [_ H].
  apply seq_ok in H as [Hg%fail_if_ok H]. apply seq_ok in H as [_ H]. apply Ok_inj in H as <-. bool_hyps.
  eapply (holds_bindings b (save now _ "identity-repair" l2)).
  { unfold putAssociation. destruct (Forget r); [reflexivity|]. by destruct (negb (Persist r)). }
  apply holds_save; [|done]. intros E. apply same_lease_identity. eapply holds_stored; [exact H2| |exact E].
  apply read_live; [apply Hok2|]. by rewrite (ltac:(eassumption) : bState (readBinding l2 (irScope r) (irAddress r)) = "active").
Qed.

(** Delegations write keys with a slash in the address: a quarantined address is none. *)
Context (Hkind : usable_state (bState b) = true \/ no_slash (Address b) = true).

Lemma prefix_slash p : no_slash (PrefixString p) = false.
Proof.
  unfold no_slash, PrefixString. apply negb_false_iff. generalize (AddrString (PAddr p)). intros x.
  induction x as [|ch x IH]; [done|]. change (String ch x +++ ?y) with (String ch (x +++ y)). rewrite contains_cons, IH.
  apply orb_true_r.
Qed.

Lemma free_foreign l scope client p : no_slash scope = true -> no_slash (bScope b) = true -> client <> Client b -> holds b l ->
  free l now scope client p = true -> bindingKey scope (PrefixString p) <> key_of b.
Proof.
  intros Hs Hsb Hne Hb Hf E. unfold free in Hf. rewrite (held_client l scope _ Hb E) in Hf.
  rewrite (proj2 (String.eqb_neq _ _)), orb_false_r in Hf by congruence.
  destruct (holds_read b l scope _ Hb E) as (_ & _ & _ & _ & E5 & _ & _ & E8). rewrite E5, E8, (proj2 (Z.ltb_lt _ _)) in Hf by done.
  destruct Hkind as [Hu|Hn]; [by rewrite Hu in Hf|]. apply bindingKey_inj in E as [_ E]; [|done..].
  rewrite <-E, prefix_slash in Hn. done.
Qed.

Lemma choose_prefix_foreign l s client hint pool len p :
  no_nul (sID s) = true -> no_slash (sID s) = true -> no_nul client = true -> 0 <= len <= 128 ->
  client <> Client b -> ledger_ok l -> holds b l -> choose_prefix l now (sID s) client hint pool len = Some p ->
  bindingKey (sID s) (PrefixString p) <> key_of b.
Proof.
  intros Hn Hs Hcn Hlen Hne Hl Hb. assert (Hsb : no_slash (bScope b) = true).
  { destruct Hb as (d & Hd & E & _). rewrite <-E. apply (stored_sound l (ok_wf _ Hl) d Hd). }
  unfold choose_prefix. destruct (last_such _ _) as [mine|] eqn:Em.
  - intros [= <-]. apply last_such_spec in Em as [Hin Hd]. apply (liveByClient_exact l (ok_wf _ Hl)) in Hin as (Hst & _ & Esc & Ecl); [|done..].
    unfold delegated in Hd. bool_hyps. destruct (ok_lasting _ Hl _ Hst) as [[_ Hpr] _]. destruct Hpr as (p & Ep & Et); [done|].
    unfold must_prefix. rewrite Ep. change (default no_prefix (Some p)) with p. rewrite Et, <-Esc. apply (other_key l mine Hb Hst). congruence.
  - assert (Hff : forall n i, first_free n (free l now (sID s) client) pool len i = Some p -> bindingKey (sID s) (PrefixString p) <> key_of b).
    { intros n i [_ Hf]%first_free_good; [|done]. by eapply free_foreign. }
    destruct (if is_empty hint then None else ParsePrefix hint) as [hp|]; [|apply Hff].
    destruct (_ && _) eqn:E; [|apply Hff]. intros [= <-]. apply andb_prop in E as [_ E]. by eapply free_foreign.
Qed.

Lemma AllocatePrefix_foreign s pd client duid hint via commit l :
  no_nul (sID s) = true -> no_slash (sID s) = true -> no_nul client = true -> 0 <= Length pd <= 128 ->
  client <> Client b -> ledger_ok l -> holds b l ->
  holds b (fst (AllocatePrefix sha256_hex now s pd client duid hint via commit l)).
Proof.
  intros Hn Hs Hcn Hlen Hne Hl Hb. unfold AllocatePrefix. apply holds_update; [|done]. intros l1 d. unfold delegate_tx.
  destruct (choose_prefix _ _ _ _ _ _ _) as [p|] eqn:Ep; [|done]. destruct (_ && _); [by intros [= <- _]|].
  destruct (prefix_binding _ _ _ _ _ _ _ _ _) as [b' kind] eqn:Eb. intros H. apply Ok_inj in H. injection H as <- _.
  apply prefix_binding_fields in Eb as (E1 & E2 & _). apply holds_save; [|done]. unfold key_of at 1. rewrite E1, E2. intros E.
  exfalso. revert E. by eapply choose_prefix_foreign.
Qed.

Lemma releasePrefix_foreign s client l : no_nul (sID s) = true -> no_nul client = true -> client <> Client b ->
  ledger_ok l -> holds b l -> holds b (fst (releasePrefix now s client l)).
Proof.
  intros Hn Hcn Hne Hl Hb. unfold releasePrefix. apply holds_update; [|done]. intros l1 [] H. apply seq_ok in H as [_ H].
  apply Ok_inj in H. injection H as <-. apply fold_left_inv; [|done]. intros d l2 Hd H2. apply holds_save; [|done].
  change (key_of (with_state _ _ d)) with (key_of d). intros E. exfalso. revert E.
  apply list_elem_of_In, filter_In in Hd as [Hd%list_elem_of_In _].
  apply (liveByClient_exact l (ok_wf _ Hl)) in Hd as (Hst & _ & _ & Ecl); [|done..]. eapply other_key; [exact Hb|done|congruence].
Qed.

(** ** Reports *)

(** A candidate of a report that lies on the lease is the lease. *)
Definition claims_lease (d : Binding) : Prop := key_of d = key_of b -> same_lease b d.

Lemma matches_foreign c l n : ledger_ok l -> holds b l -> Forall claims_lease (matches sha256_hex c l now n).
Proof.
  intros Hl Hb. unfold matches. apply (fold_left_inv _ (fun st : claims => Forall claims_lease (snd st))); [|by constructor].
  intros i st _ Hst. apply (fold_left_inv _ (fun st : claims => Forall claims_lease (snd st))); [|done].
  intros ip st' _ Hst'. unfold claim_address. apply (fold_left_inv _ (fun st : claims => Forall claims_lease (snd st))).
  - intros s st1 _ H1. unfold claim_sighting. destruct (ParseAddr ip); [|done]. destruct (ParsePrefix _); [|done].
    destruct (_ || _); [done|]. destruct (fresh_sighting _ _ _ _) as [o|]; [|done].
    destruct (busy _ _) eqn:Ebusy; [done|]. apply Forall_app_2; [done|]. constructor; [|constructor].
    intros E. rewrite (held_busy l (oScope o) (oAddress o) Hb E) in Ebusy. done.
  - apply (fold_left_inv _ (fun st : claims => Forall claims_lease (snd st))); [|done]. intros d st1 Hd H1.
    unfold claim_binding. destruct (_ || _); [done|]. destruct (_ && _); [done|]. apply Forall_app_2; [done|].
    constructor; [|constructor]. unfold liveByAddress in Hd. apply liveFromIndex_exact in Hd as [Hd _]; [|apply Hl].
    intros E. by apply (holds_stored b l).
Qed.

Lemma associate_foreign n device name l joined d l' joined' : claims_lease d -> holds b l ->
  associate now n device name (l, joined) d = Ok (l', joined') -> holds b l'.
Proof.
  intros Hd Hb H. unfold associate in H. apply seq_ok in H as [_ H]. apply Ok_inj in H. injection H as <- _.
  match goal with |- holds b (if ?cond then _ else _) => destruct cond; [|done] end.
  apply holds_save; [|done]. intros E. pose proof (Hd E) as (E1 & E2 & E3 & E4 & E5 & E6 & E7 & E8).
  rewrite E6, (proj2 (String.eqb_neq _ _)) by done. done.
Qed.

Lemma Report_foreign c n l : ledger_ok l -> holds b l -> holds b (fst (Report sha256_hex now c n l)).
Proof.
  intros Hl Hb. unfold Report. destruct (check_report n); [|done].
  destruct (report_tx sha256_hex now c n l) as [[l1 joined]|e] eqn:E; [|by apply (holds_bindings b l)].
  cbn [fst]. unfold report_tx in E. next_ok E. pose proof (matches_foreign c l n Hl Hb) as HF. rewrite Forall_forall in HF.
  assert (Hfold : forall device name st, fold_m (associate now n device name) (l, []) (matches sha256_hex c l now n) = Ok st ->
    holds b (fst st)).
  { intros device name st Hst. apply (fold_m_inv _ (fun st => holds b (fst st))) in Hst; [done| |done].
    intros d [l3 j3] [l4 j4] Hin H3. by apply associate_foreign; [apply HF|]. }
  destruct (is_empty (fst x)); [|destruct x as [device name]]; next_ok E; apply Ok_inj in E; injection E as <- _;
    eapply holds_bindings; [reflexivity|by eapply Hfold|reflexivity|by eapply Hfold].
Qed.
End Foreign.

(** * The safety of leases *)

Section Safety.
Context (sha256_hex : string -> string) (duid_valid : string -> bool).
Context (sha_digits : forall x, str_forallb hex_lower_char (sha256_hex x) = true).

(** The operation is not one by [client]. *)
Definition by_others (client : string) (o : op) : Prop :=
  match o with
  | OpAllocate _ _ c _ _ _ _ | OpRelease _ c _ _ => c <> client
  | OpDelegate _ _ _ c _ _ _ _ => c <> client
  | OpReleasePrefix _ _ c => no_nul c = true /\ c <> client
  | OpImport c doc => forall i s, i ∈ Leases doc -> find_scope c (iScope i) = Some s -> imported_client s i <> client
  | _ => True
  end.

(** An address granted, offered or quarantined, or a prefix delegated: not a mere sighting. *)
Definition granted_lease (b : Binding) : Prop :=
  liveState (bState b) = true /\ Origin b <> "neighbor-report"
  /\ (usable_state (bState b) = true \/ no_slash (Address b) = true).

Lemma step_foreign b now o l l' :
  granted_lease b -> now < End_ b -> by_others (Client b) o -> ledger_ok l -> holds b l ->
  book_step sha256_hex duid_valid (now, o) l l' -> holds b l'.
Proof.
  intros (Hlive & Hor & Hkind) Hend Hne Hl Hb Hs. inversion Hs as [? ? ? Hn Ha]; subst. destruct o; cbn in *.
  - by apply Allocate_foreign.
  - apply Release_foreign; [done..|apply Hl|done].
  - by apply Expire_foreign.
  - by apply ImportDocument_foreign.
  - by apply observe_foreign.
  - unfold ObserveSwitch. destruct (_ || _); [done|]. destruct (existsb _ _); [done|]. by apply observe_foreign.
  - by apply repair_foreign.
  - destruct Ha as (Hc & Hcl & Hlen). destruct (find_scope c scope) as [s|] eqn:Es; [|done].
    apply (find_scope_good c _ _ Hc) in Es as (_ & devs & ps & p & _ & Gs). destruct (label_key _ (gs_id _ _ _ Gs)) as (_ & ? & ?).
    apply AllocatePrefix_foreign; try done. by apply validClient_no_nul.
  - destruct (find_scope c scope) as [s|] eqn:Es; [|done].
    apply (find_scope_good c _ _ Ha) in Es as (_ & devs & ps & p & _ & Gs). destruct (label_key _ (gs_id _ _ _ Gs)) as (_ & ? & ?).
    destruct Hne. by apply releasePrefix_foreign.
  - by apply Report_foreign.
  - apply (holds_bindings b l); [|done]. unfold NoteDNSConfig. by destruct (bool_decide _).
Qed.

(** Everything that writes to the ledger's file: the operations above; on a warm standby, events and
    state of a leader; the end of delegations with a takeover; the server's own DHCPv6 identity; and a
    reopening of the file, which rebuilds nothing since every index is there. *)
Inductive writing :=
| Operation (o : op)
| Replicated (es : list Event) (snap : option Snapshot)
| Abandoned (pools : list string)
| Identified (duid : string)
| Reopened.

Definition written (now : Z) (w : writing) (l : ledger) : ledger :=
  match w with
  | Operation o => perform sha256_hex duid_valid now o l
  | Replicated es snap => fst (ApplyReplicated now es snap l)
  | Abandoned pools => abandon_all now pools l
  | Identified duid => set_meta "duid" duid l
  | Reopened => Open_ true true true l
  end.

(** Events and associations of a leader are well formed. *)
Definition writable (w : writing) : Prop :=
  match w with
  | Operation o => admissible o
  | Replicated es snap => Forall sound_event es /\ forall s a, snap = Some s -> a ∈ sAssociations s -> sound_name (aName a)
  | _ => True
  end.

Inductive written_to : ledger -> Prop :=
| w_empty : written_to empty_ledger
| w_more now w l : written_to l -> unix now -> writable w -> written_to (written now w l).

Lemma abandon_all_keeps now pools l : unix now -> ledger_ok l -> ledger_ok (abandon_all now pools l).
Proof.
  intros Hn Hl. unfold abandon_all. apply (fold_left_inv _ ledger_ok); [|done]. intros b l1 Hb Hl1.
  apply elem_of_kept in Hb as [Hb _]. apply elem_of_values in Hb as [k Hk]. destruct (wf_keys _ (ok_wf _ Hl) _ _ Hk) as [-> Hs].
  destruct (ok_lasting _ Hl b Hk) as [Hp _]. apply keep_save; [done|exact Hs|]. split; [exact Hp|]. cbn. unfold unix in Hn. lia.
Qed.

(** C5: The ledger stays well formed.  Whatever is written to it, in whatever order, succeeding or
    refused (grants, releases, expiries, imports, sightings, repairs, delegations and their end with a
    takeover, host reports, the DNS configuration's mark, replicated events whose bindings are well
    formed, and every reopening of the file), every ledger that is reached from the empty one is in
    order: each binding is stored under its own key with well-formed texts, the expiry, name and
    secondary indexes list exactly the bindings they should, the log has consecutive numbers and
    replays to the bindings, end times are nonnegative int64 values and delegated prefixes are in
    canonical form.  (The peer inventory is a bucket of its own; a file of an older version, whose
    indexes Open rebuilds, is not one of these ledgers.) *)
Theorem book_well_formed l : written_to l -> ledger_ok l.
Proof.
  induction 1 as [|now w l _ IH Hn Hw]; [apply ok_empty|]. destruct w as [o|es snap|pools|duid|]; cbn in *.
  - eapply step_ok; [exact sha_digits|by apply step_op|done].
  - destruct (ApplyReplicated now es snap l) as [l' r] eqn:E. destruct Hw. by eapply ApplyReplicated_keeps.
  - by apply abandon_all_keeps.
  - by apply ok_meta.
  - done.
Qed.

Lemma run_holds b xs l l' : ledger_ok l -> holds b l -> granted_lease b ->
  (forall now o, (now, o) ∈ xs -> now < End_ b /\ by_others (Client b) o) -> run sha256_hex duid_valid xs l l' -> holds b l'.
Proof.
  intros Hl Hb Hg Hxs Hrun. induction Hrun as [|[now o] xs l1 l2 l3 Hs _ IH]; [done|]. destruct (Hxs now o) as [Hn Ho]; [left|].
  apply IH; [by eapply step_ok|by eapply step_foreign|intros; apply Hxs; by right].
Qed.

(** C2: Nobody else ends a lease.  From any ledger in order, through any sequence of
    allocations, releases, expiries, imports, sightings, repairs, delegations and host
    reports, successful or refused, by other clients and at times before the lease ends, a
    granted, offered or quarantined address (or delegated prefix) keeps its client, state,
    start and end: only the identity joined to it may change. *)
Theorem lease_kept b xs l l' :
  ledger_ok l -> stored l b -> granted_lease b ->
  (forall now o, (now, o) ∈ xs -> now < End_ b /\ by_others (Client b) o) ->
  run sha256_hex duid_valid xs l l' ->
  exists b', stored l' b' /\ same_lease b b'.
Proof.
  intros Hl Hst Hg Hxs Hrun. apply (run_holds b xs l l'); try done. by exists b.
Qed.
End Safety.
