(* ===== verification/BookGrant.v ===== *)
(** What a successful allocation grants, that a free address is always found, and what an
    expiry round does. *)

From S2P Require Import Prelude Json NetAddr Ledger LedgerInv Config KeyText ConfigInv AddrText Allocate.
From S2P Require Import AllocInv.
From Stdlib Require Import Ascii.
Local Open Scope Z_scope.

Section Grant.
Context (sha256_hex : string -> string).

Lemma save_stored now b kind l : stored (save now b kind l) b.
Proof. destruct (save_fields now b kind l) as (F & _). unfold stored. by rewrite F, lookup_insert_eq. Qed.

Lemma find_scope_id c id s : find_scope c id = Some s -> sID s = id.
Proof. unfold find_scope. intros [_ E]%find_some. by apply String.eqb_eq in E. Qed.

(** An address the scope may grant the client: a host of the subnet, not spelled like the server's
    nor the router's, and the client's own reservation or nobody's. *)
Definition grantable (s : Scope) (client mac ip : string) : Prop :=
  in_subnet s ip /\ ip <> sServer s /\ ip <> Router s
  /\ match reservation s client mac with
     | Some r => rAddress r = ip
     | None => forall r, r ∈ Reservations s -> rAddress r <> ip
     end
  /\ exists p, ParsePrefix (Subnet s) = Some p /\ valid_host p ip = true.

(** The same as addresses: not the server's nor the router's, and the client's own reservation or nobody's. *)
Definition same_address (t u : string) : Prop := exists a, ParseAddr t = Some a /\ ParseAddr u = Some a.
Definition protected (s : Scope) (client mac ip : string) : Prop :=
  ~ same_address ip (sServer s) /\ ~ same_address ip (Router s)
  /\ match reservation s client mac with
     | Some r => rAddress r = ip
     | None => forall r, r ∈ Reservations s -> ~ same_address ip (rAddress r)
     end.

(** Addresses written the way netip prints them; those of a scope. *)
Definition canonical (t : string) : Prop := forall a, ParseAddr t = Some a -> AddrString a = t.
Definition canonical_scope (s : Scope) : Prop :=
  canonical (sServer s) /\ canonical (Router s) /\ Forall (fun r => canonical (rAddress r)) (Reservations s).

Lemma canonical_same t u : canonical t -> canonical u -> same_address t u -> t = u.
Proof. intros Ht Hu (a & Ea & Eb). by rewrite <-(Ht a Ea), <-(Hu a Eb). Qed.
Lemma same_address4 t u : (exists n, ParseAddr t = Some (Addr4 n)) -> same_address t u -> t = u.
Proof. intros [n E] (a & Ea & Eb). rewrite E in Ea. injection Ea as <-. apply canonical4 in E, Eb. congruence. Qed.

(** IPv4 addresses have one spelling; among IPv6 addresses it is enough that all are canonical. *)
Lemma grantable_protected s client mac ip : grantable s client mac ip ->
  (scope_is6 s = true -> canonical ip /\ canonical_scope s) -> protected s client mac ip.
Proof.
  intros ((p & a & Ep & Ea & Hc) & H1 & H2 & H3 & _) H6.
  assert (Hd : forall t, (scope_is6 s = true -> canonical t) -> ip <> t -> ~ same_address ip t).
  { intros t Ht Hne Hs. apply Hne. destruct (scope_is6 s) eqn:E6; [by apply canonical_same; [apply H6|apply Ht|]|].
    apply same_address4; [|done]. unfold scope_is6 in E6. rewrite Ep in E6. unfold Contains in Hc. bool_hyps.
    match goal with H : Bool.eqb _ _ = true |- _ => apply eqb_prop in H; rename H into Hf end. unfold Is6 in E6. destruct a as [n|n z]; [by exists n|].
    cbn in Hf. by rewrite Hf in E6. }
  split_and!; [apply Hd; [apply H6|done]|apply Hd; [apply H6|done]|]. destruct (reservation s client mac); [done|].
  intros r Hr. apply Hd; [intros E; destruct (H6 E) as (_ & _ & _ & HF); rewrite Forall_forall in HF; by apply HF|apply not_eq_sym, (H3 r Hr)].
Qed.

Lemma Allocate_grants now c id client mac claimed requested commit l l' b :
  Validate c = Ok tt -> ledger_ok l -> plain requested ->
  Allocate sha256_hex now c id client mac claimed requested commit l = (l', Ok b) ->
  exists s mac', admission c id client mac = Ok (s, mac') /\ Enabled s = true
  /\ stored l' b /\ bScope b = id /\ Client b = client /\ grantable s client mac' (Address b)
  /\ (busy now (readBinding l id (Address b)) = true -> Client (readBinding l id (Address b)) = client)
  /\ (if commit then Address b = requested /\ bState b = "active" /\ End_ b = now + LeaseSeconds s
      else usable_state (bState b) = true /\ (bState b = "active" /\ l' = l /\ now < End_ b \/ End_ b = now + 30)).
Proof.
  intros Hc Hl Hr H. apply Allocate_ok in H as (s & mac' & ip & Ha & Hch & H). exists s, mac'. split; [done|].
  destruct (admission_ok _ _ _ _ _ _ Ha) as (Hf & Hen & Hcl & _). split; [done|]. pose proof (find_scope_id _ _ _ Hf) as Eid.
  apply (find_scope_good c id s Hc) in Hf as (_ & devs & ps & p & Gc & Gs).
  assert (Hip : plain ip) by (by eapply choose_plain).
  assert (Hne : client <> EmptyString) by (by intros ->).
  destruct (label_key _ (gs_id _ _ _ Gs)) as (_ & Hslash & _).
  assert (Hb : stored l' b /\ bScope b = sID s /\ Client b = client /\ Address b = ip).
  { destruct H as [(_ & -> & -> & Ecl & _)|(kind & Hn & ->)].
    - destruct (read_client l (sID s) ip client (ok_wf _ Hl) Hslash Ecl Hne) as (? & ? & ?). done.
    - apply new_binding_fields in Hn as (? & ? & ? & _). split; [apply save_stored|done]. }
  destruct Hb as (Hst & Esc & Ecl & Eip). rewrite Esc, Eip. split_and!; try done.
  - apply choose_available, available_allowed in Hch. pose proof (allowed_subnet devs s p Gs client mac' ip Hip Hch) as Hin.
    pose proof (allowed_host devs s p Gs client mac' ip Hip Hch) as Hho.
    apply allowed_spec in Hch as (a & _ & _ & H1 & H2 & Hres). split_and!; try done; [by destruct (reservation s client mac'); [|apply Hres]|].
    exists p. split; [apply Gs|done].
  - rewrite <-Eid. intros Hbusy. apply choose_available in Hch. unfold available, blocks in Hch. rewrite Hbusy in Hch.
    bool_hyps. destruct (String.eqb_spec (Client (readBinding l (sID s) ip)) client); [done|]. by bool_hyps.
  - destruct commit; destruct H as [(? & E)|(kind & Hn & ->)]; try done.
    + apply new_binding_fields in Hn as (_ & _ & _ & _ & ? & _ & ?). apply choose_commit in Hch. done.
    + destruct E as (-> & _ & _ & Est & Hend). rewrite Est. split; [done|]. by left.
    + apply new_binding_fields in Hn as (_ & _ & _ & _ & -> & _ & ->). split; [done|]. by right.
Qed.

(** The address of a binding Allocate returns was available to the client. *)
Lemma Allocate_available now c id client mac claimed requested commit l l' b : Validate c = Ok tt -> ledger_ok l ->
  Allocate sha256_hex now c id client mac claimed requested commit l = (l', Ok b) ->
  exists s mac', admission c id client mac = Ok (s, mac') /\ available l now s client mac' (Address b) = true.
Proof.
  intros Hv Hl H. pose proof H as (s & mac' & ip & Had & Hch & Hcase)%Allocate_ok. exists s, mac'. split; [done|].
  destruct (admission_ok _ _ _ _ _ _ Had) as (Hf & _ & Hcl & _). assert (Hne : client <> EmptyString) by (by intros ->).
  pose proof (find_scope_good c _ _ Hv Hf) as (_ & devs & ps & q & _ & Gq). destruct (label_key _ (gs_id _ _ _ Gq)) as (_ & ? & _).
  assert (ip = Address b) as <-; [|by apply choose_available in Hch].
  destruct Hcase as [(_ & _ & -> & Ec & _)|(kind & Hn & _)]; [|by apply new_binding_fields in Hn as (_ & <- & _)].
  destruct (read_client l (sID s) ip client) as (_ & _ & ?); try done. apply Hl.
Qed.

(** C27: What Allocate grants.  Whenever it succeeds, the binding it returns is stored, belongs to
    the client, names a host address of the enabled scope's subnet (neither the subnet's own nor an
    IPv4 broadcast address) that is not spelled like the server's nor the router's and is the
    client's own reservation or spelled like nobody's, and that no other client held under that
    spelling; a committed request yields exactly the requested address, active for the scope's lease
    time, and an offer ends in 30 seconds or is a lease the client has.  As addresses, and not only
    as text, the server's, the router's and other clients' reservations are protected in every IPv4
    scope, and in an IPv6 scope whose addresses, like the granted one, are in canonical spelling;
    a scope that spells them otherwise does not protect them (spelling_escapes_protection). *)
Theorem grant_sound now c id client mac claimed requested commit l l' b :
  Validate c = Ok tt -> ledger_ok l -> plain requested ->
  Allocate sha256_hex now c id client mac claimed requested commit l = (l', Ok b) ->
  exists s mac', admission c id client mac = Ok (s, mac') /\ Enabled s = true
  /\ stored l' b /\ bScope b = id /\ Client b = client /\ grantable s client mac' (Address b)
  /\ ((scope_is6 s = true -> canonical (Address b) /\ canonical_scope s) -> protected s client mac' (Address b))
  /\ (busy now (readBinding l id (Address b)) = true -> Client (readBinding l id (Address b)) = client)
  /\ (if commit then Address b = requested /\ bState b = "active" /\ End_ b = now + LeaseSeconds s
      else usable_state (bState b) = true /\ (bState b = "active" /\ l' = l /\ now < End_ b \/ End_ b = now + 30)).
Proof.
  intros Hc Hl Hr H. destruct (Allocate_grants _ _ _ _ _ _ _ _ _ _ _ Hc Hl Hr H) as (s & mac' & H1 & H2 & H3 & H4 & H5 & H6 & H7). exists s, mac'.
  split_and!; try done; [by apply grantable_protected|apply H7..].
Qed.

(** * A free address is found *)

Lemma next_n_offset k a : addr_num a + Z.of_nat k < 2 ^ BitLen a -> next_n k a = Some (with_num a (addr_num a + Z.of_nat k)).
Proof.
  revert a. induction k as [|k IH]; intros a Ha; cbn [next_n].
  - rewrite Z.add_0_r. by destruct a.
  - rewrite Nat2Z.inj_succ in *. unfold Next. assert (Hlt : addr_num a + 1 < 2 ^ BitLen a) by lia.
    apply Z.ltb_lt in Hlt. rewrite Hlt. cbn [mbind option_bind].
    rewrite IH; destruct a as [m|m z]; cbn [with_num addr_num BitLen Is4] in *; [do 2 f_equal; lia|do 2 f_equal; lia|lia|lia].
Qed.

Lemma string_compare_refl z : String.compare z z = Eq.
Proof.
  induction z as [|c z IH]; [done|]. cbn. replace (Ascii.compare c c) with Eq; [done|].
  symmetry. unfold Ascii.compare. apply N.compare_refl.
Qed.

Lemma addr_leb_num a b : Is4 a = Is4 b -> AddrZone a = AddrZone b -> addr_leb a b = (addr_num a <=? addr_num b).
Proof.
  unfold addr_leb, Compare. destruct a as [n|n z], b as [m|m y]; cbn; try done. intros _ ->. unfold Z.leb.
  destruct (n ?= m); [|done..]. by rewrite string_compare_refl.
Qed.

Lemma addr_ext a b : Is4 a = Is4 b -> AddrZone a = AddrZone b -> addr_num a = addr_num b -> a = b.
Proof. destruct a, b; cbn; congruence. Qed.

Lemma Contains_family p a : Contains p a = true -> Is4 a = Is4 (PAddr p) /\ AddrZone a = EmptyString.
Proof. unfold Contains. intros H. bool_hyps. split; [symmetry; by apply eqb_prop|by apply is_empty_spec]. Qed.

Lemma between_family a x b : Is4 a = Is4 b -> addr_leb a x = true -> addr_leb x b = true -> Is4 x = Is4 b.
Proof. unfold addr_leb, Compare. by destruct a, x, b. Qed.

(** The walk over the pool of an accepted scope reaches every address of it. *)
Lemma pool_walk s devs p a ok :
  good_scope devs s p -> addr_leb (must_addr (sStart s)) a = true -> addr_leb a (must_addr (sEnd s)) = true ->
  AddrZone a = EmptyString -> ok (AddrString a) = true ->
  is_Some (scan_pool pool_limit ok (Some (must_addr (sStart s))) (must_addr (sEnd s))).
Proof.
  intros Gs Hs He Hz Hok. assert (Hv : addr_valid (must_addr (sEnd s))).
  { destruct (valid_host_spec _ _ (gs_end _ _ _ Gs)) as (e & E & _). unfold must_addr. rewrite E. by eapply ParseAddr_valid. }
  destruct (Contains_family _ _ (must_addr_host _ _ (gs_start _ _ _ Gs))) as [F1 Z1].
  destruct (Contains_family _ _ (must_addr_host _ _ (gs_end _ _ _ Gs))) as [F2 Z2]. pose proof (gs_fits _ _ _ Gs) as Hfit.
  set (st := must_addr (sStart s)) in *. set (en := must_addr (sEnd s)) in *. clearbody st en.
  assert (F : Is4 a = Is4 en) by (eapply between_family; [|exact Hs|exact He]; congruence).
  rewrite addr_leb_num in Hs, He by congruence. apply Z.leb_le in Hs, He.
  assert (Hbits : BitLen st = BitLen en) by (unfold BitLen; by rewrite F1, F2).
  assert (Hlt : addr_num en < 2 ^ BitLen st) by (rewrite Hbits; apply Hv).
  assert (Hstep : forall i, Z.of_nat i <= addr_num a - addr_num st -> next_n i st = Some (with_num st (addr_num st + Z.of_nat i))).
  { intros i Hi. apply next_n_offset. lia. }
  apply (scan_pool_complete _ _ _ _ a (Z.to_nat (addr_num a - addr_num st))); [done| | |done].
  - rewrite Hstep by lia. f_equal. apply addr_ext; destruct st; cbn in *; congruence || lia.
  - intros i y Hi. rewrite Hstep by lia. intros [= <-]. rewrite addr_leb_num by (destruct st; cbn in *; congruence).
    apply Z.leb_le. destruct st; cbn in *; lia.
Qed.

Lemma choose_answers now c client mac claimed requested s l ip :
  choose l now s client mac requested false = Ok ip ->
  exists l' b, allocate_tx sha256_hex now c s client mac claimed requested false l = Ok (l', b).
Proof.
  intros H. unfold allocate_tx. rewrite H. cbn [mbind result_bind]. destruct (_ && _ && _ && _); [eauto|].
  destruct (new_binding _ _ _ _ _ _ _ _ _ _). eauto.
Qed.

(** An address of the scope's pool. *)
Definition in_pool (s : Scope) (a : Addr) : Prop :=
  addr_leb (must_addr (sStart s)) a = true /\ addr_leb a (must_addr (sEnd s)) = true /\ AddrZone a = EmptyString.

(** C28: A free address is always found.  When a client without a reservation asks for any
    address and some address of the pool is available to it, the walk over the pool (at most
    65536 steps, which Validate makes enough) ends with an offer. *)
Theorem discover_finds now c id client mac claimed requested l s mac' a :
  Validate c = Ok tt -> admission c id client mac = Ok (s, mac') -> reservation s client mac' = None ->
  in_pool s a -> available l now s client mac' (AddrString a) = true ->
  exists l' b, Allocate sha256_hex now c id client mac claimed requested false l = (l', Ok b).
Proof.
  intros Hc Ha Hr (Hs & He & Hz) Hav. unfold Allocate. rewrite Ha.
  destruct (admission_ok _ _ _ _ _ _ Ha) as (Hf & _). apply (find_scope_good c id s Hc) in Hf as (_ & devs & ps & p & _ & Gs).
  assert (exists ip, choose l now s client mac' requested false = Ok ip) as [ip Hch].
  { unfold choose. cbn [andb]. destruct (available l now s client mac' (first_choice _ _ _ _ _ _)); [eauto|]. rewrite Hr.
    destruct (pool_walk s devs p a (available l now s client mac') Gs Hs He Hz Hav) as [ip ->]. eauto. }
  destruct (choose_answers now c client mac' claimed requested s l ip Hch) as (l' & b & E). unfold update. rewrite E. eauto.
Qed.

Lemma fold_choice (f : Binding -> bool) bs x start :
  (forall d, d ∈ bs -> f d = true -> Address d = x) -> (exists d, d ∈ bs /\ f d = true) ->
  fold_left (fun c d => if f d then Address d else c) bs start = x.
Proof.
  assert (Hkeep : forall bs, (forall d, d ∈ bs -> f d = true -> Address d = x) ->
    fold_left (fun c d => if f d then Address d else c) bs x = x).
  { clear bs. induction bs as [|d bs IH]; intros Ha; [done|]. cbn. destruct (f d) eqn:Ed.
    - rewrite (Ha d) by (done || left). apply IH. intros; apply Ha; [by right|done].
    - apply IH. intros; apply Ha; [by right|done]. }
  revert start. induction bs as [|d bs IH]; intros start Ha (e & He & Hf); [by apply elem_of_nil in He|]. cbn.
  destruct (f d) eqn:Ed.
  - rewrite (Ha d) by (done || left). apply Hkeep. intros; apply Ha; [by right|done].
  - apply IH; [intros; apply Ha; [by right|done]|]. exists e. split; [|done].
    apply elem_of_cons in He as [-> |?]; [congruence|done].
Qed.

(** The one lease of the client in the scope that it may still use. *)
Definition sole_lease (l : ledger) (now : Z) (s : Scope) (client mac : string) (b : Binding) : Prop :=
  stored l b /\ bScope b = sID s /\ Client b = client /\ held now s client mac b = true
  /\ forall d, stored l d -> bScope d = sID s -> Client d = client -> held now s client mac d = true -> d = b.

(** A client that discovers again keeps its lease.  When the client holds one live lease
    that the scope still allows it, a discovery answers with exactly that lease, whatever
    address it asks for, and writes nothing. *)
Theorem rediscover_stable now c id client mac claimed requested l s mac' b :
  Validate c = Ok tt -> ledger_ok l -> admission c id client mac = Ok (s, mac') ->
  match reservation s client mac' with Some r => rAddress r = Address b | None => True end ->
  bState b = "active" -> sole_lease l now s client mac' b ->
  Allocate sha256_hex now c id client mac claimed requested false l = (l, Ok b).
Proof.
  intros Hc Hl Ha Hr Est (Hst & Esc' & Ecl & Hh & Hone). unfold Allocate. rewrite Ha.
  destruct (admission_ok _ _ _ _ _ _ Ha) as (Hf & _ & Hcl & _). pose proof (find_scope_id _ _ _ Hf) as Eid.
  apply (find_scope_good c id s Hc) in Hf as (_ & devs & ps & p & _ & Gs). destruct (label_key _ (gs_id _ _ _ Gs)) as (_ & _ & Hn).
  pose proof (validClient_no_nul _ Hcl) as Hcn. assert (Esc : bScope b = id) by congruence.
  assert (Hc1 : first_choice l now s client mac' requested = Address b).
  { unfold first_choice. destruct (reservation s client mac') as [r|]; [done|]. apply fold_choice.
    - intros d (Hd & _ & E1 & E2)%(liveByClient_exact l (ok_wf _ Hl)) Hhd; [|done..]. f_equal. apply Hone; congruence.
    - exists b. split; [|done]. apply (liveByClient_exact l (ok_wf _ Hl)); [done..|]. rewrite Est. split_and!; congruence || done. }
  pose proof (read_stored l b Hst) as Eread. rewrite Esc in Eread. unfold held in Hh. bool_hyps.
  assert (Hav : available l now s client mac' (Address b) = true).
  { unfold available, blocks. rewrite Eid, Eread, Est, Ecl, String.eqb_refl. cbn. rewrite andb_false_r, andb_true_r. done. }
  unfold update, allocate_tx, choose. cbn [andb]. rewrite Hc1, Hav. cbn [mbind result_bind]. rewrite Eid, Eread, Ecl, Est, !String.eqb_refl.
  cbn [negb andb]. by rewrite (proj2 (Z.ltb_lt _ _)).
Qed.
End Grant.

(** * Expiry *)

Section Expiry.
Context (now : Z).

(** What is over: live, with its end reached. *)
Definition over (b : Binding) : bool := liveState (bState b) && (End_ b <=? now).

Lemma due_over l b : ledger_ok l -> stored l b -> key_of b ∈ map snd (due now l) <-> over b = true.
Proof.
  intros Hl Hb. unfold over. rewrite andb_true_iff, Z.leb_le, list_elem_of_In, in_map_iff. split.
  - intros (k & Ek & Hk%list_elem_of_In). apply elem_of_due in Hk as [Hk Hle].
    destruct (expiry_entry_read l k Hl Hk) as (d & Hd & Ekd & Hlive & Ef & _). unfold stored in Hb, Hd.
    rewrite <-Ekd, Ek, Hb in Hd. simplify_eq. split; [done|lia].
  - intros [Hlive Hle]. exists (expiryKey b). split; [done|]. apply list_elem_of_In, elem_of_due.
    destruct (int64_small _ (proj2 (ok_lasting _ Hl b Hb))) as [_ E]. split; [|cbn; lia].
    apply (wf_expiry _ (ok_wf _ Hl)). exists b. done.
Qed.

Lemma stored_key l k b : wf l -> bindings l !! k = Some b -> k = key_of b /\ stored l b.
Proof. intros Hwf E. destruct (wf_keys _ Hwf _ _ E) as [-> _]. done. Qed.

(** The keys that are due are those of the bindings that are over. *)
Lemma due_length l : ledger_ok l -> length (due now l) = size (filter (fun kb : string * Binding => over kb.2 = true) (bindings l)).
Proof.
  intros Hl. rewrite <-(length_map snd (due now l)), <-(size_dom (D := gset string)).
  rewrite <-(size_list_to_set (C := gset string) (map snd (due now l)) (NoDup_due now l Hl)). f_equal. apply set_eq. intros k.
  rewrite elem_of_list_to_set, elem_of_dom. split.
  - intros Hk. pose proof Hk as Hk'. apply list_elem_of_In, in_map_iff in Hk as (e & <- & He%list_elem_of_In).
    apply elem_of_due in He as [He _]. destruct (expiry_entry_read l e Hl He) as (d & Hd & Ek & _). rewrite Ek in *.
    exists d. apply map_lookup_filter_Some. split; [exact Hd|]. cbn. by apply (due_over l).
  - intros [b [Hb Ho]%map_lookup_filter_Some]. apply (stored_key l k b (ok_wf _ Hl)) in Hb as [-> Hb]. by apply (due_over l).
Qed.

(** An expiry round is exact.  When at most 1000 live bindings have reached their end (the
    round's limit), Expire marks exactly those expired and leaves every other binding as it
    is; the indexes and the log stay in order. *)
Theorem expire_exact l :
  ledger_ok l -> (size (filter (fun kb : string * Binding => over kb.2 = true) (bindings l)) <= 1000)%nat ->
  ledger_ok (Expire now l)
  /\ forall key, bindings (Expire now l) !! key
     = (fun b => if over b then with_state "expired" (End_ b) b else b) <$> bindings l !! key.
Proof.
  intros Hl Hsize. destruct (Expire_bindings now l Hl) as [Hok Hlook]. split; [done|]. intros key. rewrite Hlook.
  rewrite take_ge by (rewrite due_length by done; done). destruct (bindings l !! key) as [b|] eqn:E; [|by destruct (decide _)].
  apply (stored_key l key b (ok_wf _ Hl)) in E as [-> Hb]. pose proof (due_over l b Hl Hb) as Hdo. cbn.
  destruct (decide _) as [Hin|Hno].
  - apply Hdo in Hin. by rewrite Hin.
  - destruct (over b); [|done]. tauto.
Qed.
End Expiry.
