(* ===== verification/DelegateInv.v ===== *)
(** Prefix delegation: the enumeration of a pool is exact, delegations to different clients
    do not overlap, and the kernel's routes converge to the ledger. *)

From S2P Require Import Prelude Json NetAddr Ledger LedgerInv Config KeyText ConfigInv AddrText Allocate.
From S2P Require Import AllocInv Delegate BookInv.
From Stdlib Require Import Ascii.
Local Open Scope Z_scope.

(** * Addition with carry *)

Lemma num_app l1 l2 acc : fold_left (fun n o => n * 256 + o) (l1 ++ l2) acc
  = fold_left (fun n o => n * 256 + o) l2 (fold_left (fun n o => n * 256 + o) l1 acc).
Proof. apply fold_left_app. Qed.

Lemma num_acc l acc : fold_left (fun n o => n * 256 + o) l acc = acc * 256 ^ Z.of_nat (length l) + num_of_octets l.
Proof.
  unfold num_of_octets. revert acc. induction l as [|x l IH]; intros acc; cbn [fold_left length]; [cbn; lia|].
  rewrite (IH (acc * 256 + x)), (IH (0 * 256 + x)). rewrite Nat2Z.inj_succ, Z.pow_succ_r by lia. lia.
Qed.

Lemma num_middle l1 x y l2 :
  num_of_octets (l1 ++ x :: l2) = num_of_octets (l1 ++ y :: l2) + (x - y) * 256 ^ Z.of_nat (length l2).
Proof. unfold num_of_octets. rewrite !num_app. cbn [fold_left]. rewrite !(num_acc l2). lia. Qed.

Lemma num_insert l k x : (k < length l)%nat ->
  num_of_octets (<[k := x]> l) = num_of_octets l + (x - nth k l 0) * 256 ^ (Z.of_nat (length l) - Z.of_nat k - 1).
Proof.
  intros Hk. destruct (lookup_lt_is_Some_2 l k Hk) as [y Hy]. rewrite (nth_lookup_Some l k 0 y Hy).
  rewrite insert_take_drop by done. rewrite (num_middle _ x y), take_drop_middle, length_drop by done.
  do 3 f_equal. lia.
Qed.

(** One round adds the low byte of the carry and passes the rest on. *)
Lemma carry_round carry y : 0 <= carry ->
  (y + Z.land carry 255) mod 256 - y + 256 * (Z.shiftr carry 8 + Z.shiftr (y + Z.land carry 255) 8) = carry.
Proof.
  intros Hc. change 255 with (Z.ones 8). rewrite Z.land_ones, !Z.shiftr_div_pow2 by lia. change (2^8) with 256.
  pose proof (Z.div_mod carry 256 ltac:(lia)). pose proof (Z.div_mod (y + carry mod 256) 256 ltac:(lia)). lia.
Qed.

(** The loop adds the carry at its place, as long as the sum fits. *)
Lemma add_carry_sum k : forall carry bytes, length bytes = 16%nat -> (k <= 16)%nat -> Forall byte_range bytes -> 0 <= carry ->
  num_of_octets bytes + carry * 256 ^ (16 - Z.of_nat k) < 256 ^ 16 ->
  num_of_octets (add_carry k carry bytes) = num_of_octets bytes + carry * 256 ^ (16 - Z.of_nat k).
Proof.
  induction k as [|k IH]; intros carry bytes Hl Hk Hb Hc Hfit; cbn [add_carry].
  - pose proof (num_of_octets_range bytes Hb) as Hr. change (16 - Z.of_nat 0) with 16 in *. assert (carry = 0) as -> by nia. lia.
  - destruct (Z.eqb_spec carry 0) as [->|Hne]; [lia|].
    assert (Hy : byte_range (nth k bytes 0)).
    { rewrite Forall_forall in Hb. apply Hb, list_elem_of_In, nth_In. lia. }
    set (y := nth k bytes 0) in *. set (sum := y + Z.land carry 255). set (carry' := Z.shiftr carry 8 + Z.shiftr sum 8).
    assert (Hc' : 0 <= carry').
    { unfold carry', sum. apply Z.add_nonneg_nonneg; apply Z.shiftr_nonneg; [done|]. apply Z.add_nonneg_nonneg; [apply Hy|].
      apply Z.land_nonneg. by left. }
    pose proof (num_insert bytes k (sum mod 256) ltac:(lia)) as En. fold y in En. rewrite Hl in En.
    pose proof (carry_round carry y Hc) as Er. fold sum in Er. fold carry' in Er.
    set (w := 256 ^ (16 - Z.of_nat (S k))) in *.
    assert (Ew : 256 ^ (16 - Z.of_nat k) = 256 * w).
    { unfold w. rewrite <-Z.pow_succ_r by lia. f_equal. lia. }
    replace (Z.of_nat 16 - Z.of_nat k - 1) with (16 - Z.of_nat (S k)) in En by lia. fold w in En.
    assert (Et : num_of_octets (<[k := sum mod 256]> bytes) + carry' * 256 ^ (16 - Z.of_nat k) = num_of_octets bytes + carry * w).
    { rewrite En, Ew. rewrite <-Er. ring. }
    rewrite IH; [exact Et|by rewrite length_insert|lia| |done|rewrite Et; exact Hfit].
    apply Forall_insert; [done|]. apply Z.mod_pos_bound. lia.
Qed.

(** * The prefixes of a pool *)

Lemma octet_shift n k : 0 <= k -> octet n (k + 1) = octet (Z.shiftr n 8) k.
Proof. intros Hk. unfold octet. rewrite Z.shiftr_shiftr by lia. do 2 f_equal. lia. Qed.

Lemma octets_num m : forall n,
  num_of_octets (map (fun k => octet n (Z.of_nat m - 1 - Z.of_nat k)) (seq 0 m)) = n mod 256 ^ Z.of_nat m.
Proof.
  induction m as [|m IH]; intros n; [cbn; by rewrite Z.mod_1_r|]. rewrite seq_S, map_app. cbn [map Nat.add].
  unfold num_of_octets. rewrite num_app. cbn [fold_left]. fold (num_of_octets (map (fun k => octet n (Z.of_nat (S m) - 1 - Z.of_nat k)) (seq 0 m))).
  rewrite (map_ext_in _ (fun k => octet (Z.shiftr n 8) (Z.of_nat m - 1 - Z.of_nat k))).
  - rewrite IH. replace (Z.of_nat (S m) - 1 - Z.of_nat m) with 0 by lia. unfold octet.
    rewrite Z.mul_0_r, Z.shiftr_0_r, Z.shiftr_div_pow2 by lia. change (2^8) with 256.
    rewrite Nat2Z.inj_succ, Z.pow_succ_r, Z.rem_mul_r by lia. lia.
  - intros k Hk%in_seq. rewrite <-octet_shift by lia. f_equal. lia.
Qed.

Lemma As16_num n : 0 <= n < 2^128 -> num_of_octets (As16 n) = n.
Proof.
  intros Hn. etransitivity; [apply (octets_num 16)|]. change (256 ^ Z.of_nat 16) with (2^128). by apply Z.mod_small.
Qed.

Lemma prefixAt_num pool len i :
  addr_valid (PAddr pool) -> Is4 (PAddr pool) = false -> 1 <= len <= 128 -> 0 <= i ->
  addr_num (PAddr pool) + i * 2 ^ (128 - len) < 2 ^ 128 ->
  prefixAt pool len i = mkPrefix (Addr6 (addr_num (PAddr pool) + i * 2 ^ (128 - len)) EmptyString) len.
Proof.
  intros Hv H4 Hlen Hi Hfit. assert (Hn : 0 <= addr_num (PAddr pool) < 2 ^ 128).
  { unfold addr_valid, BitLen in Hv. by rewrite H4 in Hv. }
  unfold prefixAt. do 2 f_equal. set (sh := 128 - len) in *.
  pose proof (Z.div_mod sh 8 ltac:(lia)) as Ed. pose proof (Z.mod_pos_bound sh 8 ltac:(lia)).
  assert (0 <= sh / 8 <= 15) by (split; [apply Z.div_pos; lia|apply Z.lt_succ_r, Z.div_lt_upper_bound; lia]).
  assert (Ew : Z.shiftl i (sh mod 8) * 256 ^ (16 - Z.of_nat (Z.to_nat (15 - sh / 8 + 1))) = i * 2 ^ sh).
  { rewrite Z2Nat.id by lia. replace (16 - (15 - sh / 8 + 1)) with (sh / 8) by lia. rewrite Z.shiftl_mul_pow2 by lia.
    change 256 with (2 ^ 8). rewrite <-Z.pow_mul_r by lia. rewrite <-Z.mul_assoc, <-Z.pow_add_r by lia. do 2 f_equal. lia. }
  rewrite add_carry_sum; rewrite ?Ew, ?As16_num by done; try done.
  - lia.
  - apply Forall_map, Forall_forall. intros k _. apply octet_range.
  - by apply Z.shiftl_nonneg.
Qed.

Lemma num_with_num a n : addr_num (with_num a n) = n.
Proof. by destruct a. Qed.

(** Where the pool of a valid scope lies. *)
Section Pool.
Context (pool : Prefix) (len : Z).
Context (Hv : addr_valid (PAddr pool)) (Hm : pool = Masked pool) (H4 : Is4 (PAddr pool) = false) (Hz : AddrZone (PAddr pool) = EmptyString).
Context (Hlen : 0 <= PBits pool < len) (Hlen' : len <= 128).

Let base : Z := addr_num (PAddr pool).

Lemma base_multiple : exists q, base = q * 2 ^ (128 - PBits pool).
Proof.
  exists (Z.shiftr base (128 - PBits pool)). pose proof (f_equal (fun x => addr_num (PAddr x)) Hm) as E. cbn in E.
  rewrite num_with_num in E. unfold mask_num, BitLen in E. rewrite H4 in E. fold base in E. rewrite Z.shiftl_mul_pow2 in E by lia. exact E.
Qed.

Lemma pool_width : 2 ^ (128 - PBits pool) = poolSize pool len * 2 ^ (128 - len).
Proof.
  unfold poolSize. rewrite Z.shiftl_mul_pow2, Z.mul_1_l, <-Z.pow_add_r by lia. f_equal. lia.
Qed.

Lemma base_fits i : 0 <= i < poolSize pool len -> 0 <= base + i * 2 ^ (128 - len) < 2 ^ 128.
Proof.
  intros Hi. destruct base_multiple as [q Eq]. assert (Hb : 0 <= base < 2 ^ 128).
  { unfold addr_valid, BitLen in Hv. by rewrite H4 in Hv. }
  assert (E128 : 2 ^ 128 = 2 ^ PBits pool * 2 ^ (128 - PBits pool)) by (rewrite <-Z.pow_add_r by lia; f_equal; lia).
  assert (0 < 2 ^ (128 - len)) by (apply Z.pow_pos_nonneg; lia). assert (0 < 2 ^ (128 - PBits pool)) by (apply Z.pow_pos_nonneg; lia).
  pose proof pool_width as Ew. rewrite E128 in *. assert (q < 2 ^ PBits pool) by nia. split; [nia|].
  assert (i * 2 ^ (128 - len) < 2 ^ (128 - PBits pool)) by nia. nia.
Qed.

Lemma prefixAt_pool i : 0 <= i < poolSize pool len -> prefixAt pool len i = mkPrefix (Addr6 (base + i * 2 ^ (128 - len)) EmptyString) len.
Proof. intros Hi. apply prefixAt_num; [done|done|lia|lia|]. by apply base_fits. Qed.

Lemma inPool_spec p : inPool pool len p = true <->
  exists n, p = mkPrefix (Addr6 n EmptyString) len /\ (2 ^ (128 - len) | n) /\ n / 2 ^ (128 - PBits pool) = base / 2 ^ (128 - PBits pool).
Proof.
  unfold inPool. rewrite !andb_true_iff, Z.eqb_eq, bool_decide_eq_true. unfold Contains. rewrite !andb_true_iff, Z.eqb_eq, H4. split.
  - intros [[Eb Em] [[Ef Ez%is_empty_spec] Ec]]. destruct p as [[n|n z] bits]; [done|].
    cbn [PAddr PBits AddrZone addr_num BitLen Is4] in *. subst. exists n. split; [done|].
    rewrite !Z.shiftr_div_pow2 in Ec by lia. split; [|done]. unfold Masked in Em.
    cbn [PAddr PBits AddrZone addr_num BitLen Is4 with_num] in Em. injection Em as Em. unfold mask_num in Em.
    rewrite Z.shiftl_mul_pow2 in Em by lia. by exists (Z.shiftr n (128 - len)).
  - intros (n & -> & [q Eq] & Ec). unfold Masked. cbn [PAddr PBits AddrZone addr_num BitLen Is4 with_num].
    rewrite !Z.shiftr_div_pow2 by lia. split_and!; try done. do 2 f_equal.
    unfold mask_num. rewrite Z.shiftl_mul_pow2, Z.shiftr_div_pow2 by lia. rewrite Eq.
    by rewrite Z.div_mul by (apply Z.pow_nonzero; lia).
Qed.

Lemma enumerates p : inPool pool len p = true <-> exists i, 0 <= i < poolSize pool len /\ p = prefixAt pool len i.
Proof.
  rewrite inPool_spec. destruct base_multiple as [q Eq]. pose proof pool_width as Ew.
  assert (0 < 2 ^ (128 - len)) by (apply Z.pow_pos_nonneg; lia). assert (0 < 2 ^ (128 - PBits pool)) by (apply Z.pow_pos_nonneg; lia).
  rewrite Eq, Z.div_mul by lia. split.
  - intros (n & -> & [k Ek] & Ec). exists (k - q * poolSize pool len).
    assert (Hr : 0 <= k - q * poolSize pool len < poolSize pool len).
    { pose proof (Z.div_mod n (2 ^ (128 - PBits pool)) ltac:(lia)) as Ed. pose proof (Z.mod_pos_bound n (2 ^ (128 - PBits pool)) ltac:(lia)).
      rewrite Ec, Ew in *. nia. }
    split; [done|]. rewrite prefixAt_pool by done. do 2 f_equal. rewrite Eq, Ek, Ew. ring.
  - intros (i & Hi & ->). rewrite prefixAt_pool by done. exists (base + i * 2 ^ (128 - len)). split; [done|]. split.
    + exists (q * poolSize pool len + i). rewrite Eq, Ew. ring.
    + rewrite Eq. rewrite Z.add_comm, Z.div_add by lia. rewrite Z.div_small; [done|]. nia.
Qed.
End Pool.

(** The pool of an accepted scope. *)
Lemma scope_pool c id s pd : Validate c = Ok tt -> find_scope c id = Some s -> PD s = Some pd ->
  let pool := must_prefix (pdPrefix pd) in
  addr_valid (PAddr pool) /\ pool = Masked pool /\ Is4 (PAddr pool) = false /\ AddrZone (PAddr pool) = EmptyString
  /\ 0 <= PBits pool < Length pd /\ 32 <= Length pd <= 64.
Proof.
  intros Hc Hf Hpd. apply (find_scope_good c id s Hc) in Hf as (_ & devs & ps & p & _ & Gs).
  destruct (gs_pd _ _ _ Gs pd Hpd) as [_ (pool & Ep & Hm & H4 & Hl & Hb)]. unfold must_prefix. rewrite Ep.
  change (default no_prefix (Some pool)) with pool. pose proof (ParsePrefix_valid _ _ Ep).
  apply ParsePrefix_bits in Ep as [? ?]. split_and!; done || lia.
Qed.

(** The prefixes of a pool are enumerated exactly.  For an accepted scope, the carry loop
    of prefixAt yields, for the indexes below the pool's size, exactly the prefixes of the
    delegated length inside the pool, the i-th being the pool's address plus i blocks, all
    within 128 bits; so none is missed and no two are the same. *)
Theorem prefix_enumeration c id s pd :
  Validate c = Ok tt -> find_scope c id = Some s -> PD s = Some pd ->
  let pool := must_prefix (pdPrefix pd) in
  (forall i, 0 <= i < poolSize pool (Length pd) ->
     prefixAt pool (Length pd) i
     = mkPrefix (Addr6 (addr_num (PAddr pool) + i * 2 ^ (128 - Length pd)) EmptyString) (Length pd)
     /\ addr_num (PAddr pool) + i * 2 ^ (128 - Length pd) < 2 ^ 128)
  /\ (forall p, inPool pool (Length pd) p = true
        <-> exists i, 0 <= i < poolSize pool (Length pd) /\ p = prefixAt pool (Length pd) i).
Proof.
  intros Hc Hf Hpd pool. destruct (scope_pool c id s pd Hc Hf Hpd) as (Hv & Hm & H4 & Hz & Hb & Hl). split.
  - intros i Hi. split; [apply prefixAt_pool; done || lia|]. apply base_fits; done || lia.
  - intros p. apply enumerates; done || lia.
Qed.

Section Exclusive.
Context (sha256_hex : string -> string).
Context (now : Z) (c : Config) (id : string) (s : Scope) (pd : PDConfig).
Context (Hc : Validate c = Ok tt) (Hf : find_scope c id = Some s) (Hpd : PD s = Some pd).

Let pool : Prefix := must_prefix (pdPrefix pd).

Lemma pool_prefix_good p : inPool pool (Length pd) p = true -> good_prefix p.
Proof.
  destruct (scope_pool c id s pd Hc Hf Hpd) as (Hv & Hm & H4 & Hz & Hb & Hl). fold pool in Hv, Hm, H4, Hz, Hb.
  intros (i & Hi & ->)%enumerates; try done; try lia. apply prefixAt_good. lia.
Qed.

(** Two prefixes of the delegated length that overlap are the same. *)
Lemma same_length_overlap p q : inPool pool (Length pd) p = true -> PBits q = Length pd -> q = Masked q ->
  AddrZone (PAddr q) = EmptyString -> Overlaps p q = true -> p = q.
Proof.
  destruct (scope_pool c id s pd Hc Hf Hpd) as (Hv & Hm & H4 & Hz & Hb & Hl). fold pool in Hv, Hm, H4, Hz, Hb.
  intros (n & -> & [k Ek] & _)%inPool_spec Eb Em Ez Ho; try done; try lia. unfold Overlaps in Ho.
  cbn [PAddr PBits Is4 BitLen addr_num] in Ho. rewrite Eb, Z.min_id in Ho. bool_hyps.
  destruct q as [[m|m z] bits]; [done|]. cbn in Eb, Ez. subst z bits. cbn [PAddr PBits Is4 BitLen addr_num] in *.
  unfold Masked in Em. cbn [PAddr PBits AddrZone addr_num BitLen Is4 with_num] in Em. injection Em as Em.
  unfold mask_num in Em. rewrite Em. do 2 f_equal. rewrite Ek at 1. rename select (Z.shiftr n _ = _) into En. rewrite <-En, Ek.
  rewrite Z.shiftl_mul_pow2, Z.shiftr_div_pow2 by lia. by rewrite Z.div_mul by (apply Z.pow_nonzero; lia).
Qed.

Lemma delegate_cases client duid hint via commit l l' b :
  AllocatePrefix sha256_hex now s pd client duid hint via commit l = (l', Ok b) ->
  exists p, choose_prefix l now (sID s) client hint pool (Length pd) = Some p
  /\ ((l' = l /\ last_such (delegated now) (liveByClient l (sID s) client) = Some b)
      \/ exists kind, prefix_binding sha256_hex l now s client duid via p commit = (b, kind) /\ l' = save now b kind l).
Proof.
  unfold AllocatePrefix, update, delegate_tx. fold pool. destruct (choose_prefix _ _ _ _ _ _ _) as [p|]; [|done]. cbv zeta.
  destruct (negb commit && _) eqn:E.
  - destruct (last_such _ _) as [mine|]; [|by apply andb_prop in E as [_ E]]. intros [= <- <-]. exists p. eauto.
  - destruct (prefix_binding _ _ _ _ _ _ _ _ _) as [b' kind] eqn:Eb. intros H. injection H as <- <-. exists p. split; [done|]. right. eauto.
Qed.

Lemma choose_prefix_cases l client hint p : choose_prefix l now (sID s) client hint pool (Length pd) = Some p ->
  (exists mine, last_such (delegated now) (liveByClient l (sID s) client) = Some mine /\ p = must_prefix (Address mine))
  \/ (last_such (delegated now) (liveByClient l (sID s) client) = None
      /\ inPool pool (Length pd) p = true /\ free l now (sID s) client p = true).
Proof.
  destruct (scope_pool c id s pd Hc Hf Hpd) as (Hv & Hm & H4 & Hz & Hb & Hl). fold pool in Hv, Hm, H4, Hz, Hb.
  unfold choose_prefix. destruct (last_such _ _) as [mine|]; [intros [= <-]; left; eauto|]. intros H. right. split; [done|].
  assert (Hff : forall n i, 0 <= i -> i + Z.of_nat n <= poolSize pool (Length pd) ->
    first_free n (free l now (sID s) client) pool (Length pd) i = Some p ->
    inPool pool (Length pd) p = true /\ free l now (sID s) client p = true).
  { induction n as [|n IH]; intros i H0 Hi; cbn [first_free]; [done|].
    destruct (free l now (sID s) client (prefixAt pool (Length pd) i)) eqn:E; [|apply IH; lia]. intros [= <-]. split; [|done].
    apply enumerates; try done; try lia. exists i. split; [lia|done]. }
  assert (0 <= poolSize pool (Length pd)) by (apply Z.shiftl_nonneg; lia).
  destruct (if is_empty hint then None else ParsePrefix hint) as [hp|]; [|apply Hff in H; [done|lia|lia]].
  destruct (_ && _) eqn:E; [injection H as <-; by apply andb_prop in E|apply Hff in H; [done|lia|lia]].
Qed.


(** A free prefix is always found.  When some prefix of the pool is free for the client,
    the request ends with a delegation. *)
Theorem delegation_finds client duid hint via commit l p :
  inPool pool (Length pd) p = true -> free l now (sID s) client p = true ->
  exists l' b, AllocatePrefix sha256_hex now s pd client duid hint via commit l = (l', Ok b).
Proof.
  destruct (scope_pool c id s pd Hc Hf Hpd) as (Hv & Hm & H4 & Hz & Hb & Hl). fold pool in Hv, Hm, H4, Hz, Hb.
  intros (i & Hi & ->)%enumerates Hfree; try done; try lia.
  assert (Hff : forall n j, 0 <= j <= i -> i < j + Z.of_nat n -> is_Some (first_free n (free l now (sID s) client) pool (Length pd) j)).
  { induction n as [|n IH]; intros j Hj Hn; [lia|]. cbn [first_free]. destruct (free l now (sID s) client (prefixAt _ _ j)) eqn:E; [eauto|].
    apply IH; [|lia]. assert (i <> j) by (intros ->; congruence). lia. }
  assert (is_Some (choose_prefix l now (sID s) client hint pool (Length pd))) as [q Hq].
  { unfold choose_prefix. destruct (last_such _ _); [eauto|]. specialize (Hff (Z.to_nat (poolSize pool (Length pd))) 0 ltac:(lia) ltac:(lia)).
    destruct (if is_empty hint then None else ParsePrefix hint); [|done]. destruct (_ && _); eauto. }
  unfold AllocatePrefix, update, delegate_tx. fold pool. rewrite Hq. destruct (_ && _); [eauto|].
  destruct (prefix_binding _ _ _ _ _ _ _ _ _). eauto.
Qed.
End Exclusive.

(** * Routes *)

(** What is relied on of the routing tool, for the routes that carry the daemon's protocol
    number: a successful replace sets the route of its prefix, and a successful deletion of an
    existing route removes it. *)
Class RoutingTool {K : Type} (show : K -> result string (gmap string route)) (run : list string -> K -> K * result string unit) : Prop := {
  run_replace k k' m p r : show k = Ok m -> run (replace_args p r) k = (k', Ok tt) -> show k' = Ok (<[p := r]> m);
  run_delete k k' m p r : show k = Ok m -> m !! p = Some r -> run (del_args p r) k = (k', Ok tt) -> show k' = Ok (delete p m);
}.

Section Routes.
Context {K : Type} (show : K -> result string (gmap string route)) (run : list string -> K -> K * result string unit).
Context {tool : RoutingTool show run}.

Lemma run_all_app a b k : run_all run (a ++ b) k =
  let '(k1, e1) := run_all run a k in let '(k2, e2) := run_all run b k1 in (k2, e1 ++ e2).
Proof.
  revert k. induction a as [|x a IH]; intros k; cbn [app run_all].
  - by destruct (run_all run b k).
  - destruct (run x k) as [k1 r]. rewrite IH. destruct (run_all run a k1) as [k2 e1]. destruct (run_all run b k2) as [k3 e2].
    by destruct r.
Qed.

Lemma run_all_cons x a k k' : run_all run (x :: a) k = (k', []) -> exists k1, run x k = (k1, Ok tt) /\ run_all run a k1 = (k', []).
Proof.
  cbn [run_all]. destruct (run x k) as [k1 [[]|e]]; destruct (run_all run a k1) as [k2 es] eqn:E; [|done].
  intros [= <- ->]. eauto.
Qed.

Context (want current : gmap string route).

Definition replaces (k : string) : option (list string) :=
  r ← want !! k; if bool_decide (current !! k = Some r) then None else Some (replace_args k r).
Definition deletes (k : string) : option (list string) :=
  r ← current !! k; if bool_decide (is_Some (want !! k)) then None else Some (del_args k r).

Lemma replace_phase ks : forall k k' m, show k = Ok m -> run_all run (omap replaces ks) k = (k', []) ->
  (forall y r, y ∈ ks -> want !! y = Some r -> current !! y = Some r -> m !! y = Some r) ->
  exists m', show k' = Ok m'
  /\ forall y, m' !! y = match want !! y with Some r => if decide (y ∈ ks) then Some r else m !! y | None => m !! y end.
Proof.
  induction ks as [|x ks IH]; intros k k' m Hs Hr Hm.
  { cbn in Hr. injection Hr as <-. exists m. split; [done|]. intros y. by destruct (want !! y). }
  cbn [omap list_omap] in Hr. unfold replaces at 1 in Hr. destruct (want !! x) as [r|] eqn:Ex; cbn [mbind option_bind] in Hr.
  2: { destruct (IH k k' m Hs Hr) as (m' & Hs' & Hl); [intros; apply Hm; [by right|done..]|]. exists m'. split; [done|]. intros y.
    rewrite Hl. destruct (want !! y) eqn:Ey; [|done]. assert (x <> y) by congruence.
    by destruct (decide (y ∈ ks)), (decide (y ∈ x :: ks)); set_solver. }
  destruct (bool_decide_reflect (current !! x = Some r)) as [Ec|_].
  - destruct (IH k k' m Hs Hr) as (m' & Hs' & Hl); [intros; apply Hm; [by right|done..]|]. exists m'. split; [done|]. intros y.
    rewrite Hl. destruct (want !! y) as [r'|] eqn:Ey; [|done]. destruct (decide (y = x)) as [->|Hne].
    + assert (m !! x = Some r) as -> by (apply Hm; [left|done..]). rewrite Ex in Ey. injection Ey as ->.
      rewrite (decide_True (P := x ∈ x :: ks)) by left. by destruct (decide _).
    + by destruct (decide (y ∈ ks)), (decide (y ∈ x :: ks)); set_solver.
  - apply run_all_cons in Hr as (k1 & H1 & Hr). destruct (IH k1 k' (<[x := r]> m)) as (m' & Hs' & Hl); [by eapply run_replace|done| |].
    { intros y r' Hy E1 E2. destruct (decide (y = x)) as [->|]; [rewrite lookup_insert_eq; congruence|].
      rewrite lookup_insert_ne by done. apply Hm; [by right|done..]. }
    exists m'. split; [done|]. intros y. rewrite Hl. destruct (decide (y = x)) as [->|Hne].
    + rewrite Ex, lookup_insert_eq, (decide_True (P := x ∈ x :: ks)) by left. by destruct (decide _).
    + rewrite !lookup_insert_ne by done. destruct (want !! y); [|done]. by destruct (decide (y ∈ ks)), (decide (y ∈ x :: ks)); set_solver.
Qed.

Lemma delete_phase ks : forall k k' m, NoDup ks -> show k = Ok m -> run_all run (omap deletes ks) k = (k', []) ->
  (forall y, y ∈ ks -> want !! y = None -> m !! y = current !! y) ->
  exists m', show k' = Ok m'
  /\ forall y, m' !! y = if decide (y ∈ ks /\ want !! y = None) then None else m !! y.
Proof.
  induction ks as [|x ks IH]; intros k k' m Hnd Hs Hr Hm.
  { cbn in Hr. injection Hr as <-. exists m. split; [done|]. intros y. rewrite decide_False; [done|]. set_solver. }
  apply NoDup_cons in Hnd as [Hni Hnd]. cbn [omap list_omap] in Hr. unfold deletes at 1 in Hr.
  assert (Hskip : run_all run (omap deletes ks) k = (k', []) -> (want !! x = None -> m !! x = None) -> exists m', show k' = Ok m'
    /\ forall y, m' !! y = if decide (y ∈ x :: ks /\ want !! y = None) then None else m !! y).
  { intros Hr' Hx. destruct (IH k k' m Hnd Hs Hr') as (m' & Hs' & Hl); [intros; apply Hm; [by right|done]|]. exists m'. split; [done|].
    intros y. rewrite Hl. destruct (decide (y = x)) as [->|]; repeat case_decide; try done; set_solver. }
  destruct (current !! x) as [r|] eqn:Ex; cbn [mbind option_bind] in Hr.
  2: { apply Hskip; [done|]. intros Hw. rewrite Hm by (done || left). done. }
  destruct (bool_decide_reflect (is_Some (want !! x))) as [[r' Hw]|Hw]; [apply Hskip; [done|congruence]|].
  apply eq_None_not_Some in Hw. apply run_all_cons in Hr as (k1 & H1 & Hr).
  destruct (IH k1 k' (delete x m)) as (m' & Hs' & Hl); [done| |done| |].
  - eapply run_delete; [done| |done]. rewrite Hm by (done || left). done.
  - intros y Hy Hw'. rewrite lookup_delete_ne; [apply Hm; [by right|done]|]. intros ->. done.
  - exists m'. split; [done|]. intros y. rewrite Hl. destruct (decide (y = x)) as [->|].
    + rewrite lookup_delete_eq, (decide_True (P := x ∈ x :: ks /\ _)) by (split; [left|done]). by case_decide.
    + rewrite lookup_delete_ne by done. repeat case_decide; try done; set_solver.
Qed.

Lemma route_commands_phases : route_commands want current = omap replaces (sorted_keys want) ++ omap deletes (sorted_keys current).
Proof. done. Qed.
End Routes.

(** Routes converge to the ledger.  Given what is relied on of the routing tool, a
    reconciliation that reports success leaves exactly the wanted routes under the daemon's
    protocol number: those of the active delegations of the ledger as it is now, each through
    its next hop, and nothing else. *)
Theorem routes_converge {K : Type} (show : K -> result string (gmap string route)) (run : list string -> K -> K * result string unit)
    now c l k k' :
  RoutingTool show run -> ReconcileRoutes show run now c l k = (k', Ok tt) ->
  exists snap, take_snapshot now EmptyString EmptyString 0 l = Ok snap /\ show k' = Ok (wanted c (sBindings snap)).
Proof.
  intros tool. unfold ReconcileRoutes. destruct (take_snapshot now EmptyString EmptyString 0 l) as [snap|]; [|done].
  intros H. exists snap. split; [done|]. revert H. destruct (show k) as [current|] eqn:Es; [|done].
  set (want := wanted c (sBindings snap)). destruct (run_all run (route_commands want current) k) as [k2 errs] eqn:Er.
  destruct errs; [|done]. intros [= <-]. rewrite route_commands_phases, run_all_app in Er.
  destruct (run_all run (omap (replaces want current) (sorted_keys want)) k) as [k1 e1] eqn:E1.
  destruct (run_all run (omap (deletes want current) (sorted_keys current)) k1) as [k3 e2] eqn:E2.
  injection Er as -> Ee. apply app_nil in Ee as [-> ->].
  destruct (replace_phase show run want current _ _ _ _ Es E1) as (m1 & Hs1 & Hl1); [done|].
  assert (Hm1 : forall y, m1 !! y = match want !! y with Some r => Some r | None => current !! y end).
  { intros y. rewrite Hl1. destruct (want !! y) as [r|] eqn:Ey; [|done]. rewrite decide_True; [done|]. apply elem_of_sorted_keys. eauto. }
  destruct (delete_phase show run want current _ _ _ _ (NoDup_sorted_keys current) Hs1 E2) as (m2 & Hs2 & Hl2).
  { intros y _ Hw. by rewrite Hm1, Hw. }
  rewrite Hs2. f_equal. apply map_eq. intros y. rewrite Hl2, Hm1. case_decide as Hd; [destruct Hd as [_ ->]; done|].
  destruct (want !! y) eqn:Ey; [done|]. destruct (current !! y) eqn:Ec; [|done]. destruct Hd. split; [|done]. apply elem_of_sorted_keys. eauto.
Qed.
