(* ===== verification/ReportInv.v ===== *)
(** Host reports: what a host's statement about itself can join to its identity; and the warm
    standby that follows the authority's log. *)

From S2P Require Import Prelude Json NetAddr Ledger LedgerInv Config KeyText ConfigInv AddrText Allocate AllocInv LeaseImport.
From S2P Require Import Sightings Delegate Report BookInv DelegateInv.
From Stdlib Require Import Ascii.
Local Open Scope Z_scope.

Section Report.
Context (sha256_hex : string -> string) (now : Z) (c : Config) (l : ledger) (n : Node).
Context (Hl : ledger_ok l).
Context (Hnul : forall i ip, i ∈ Interfaces n -> ip ∈ iAddresses i -> no_nul ip = true).

(** What speaks for the candidate: the host names the address on an interface, and either the
    active lease of that address carries the interface's hardware address, or a sighting that
    still holds saw that hardware address there, at the lease or at an address nobody holds. *)
Definition evidence (b : Binding) : Prop :=
  exists i ip, i ∈ Interfaces n /\ ip ∈ iAddresses i
  /\ ((stored l b /\ bState b = "active" /\ now < End_ b /\ Address b = ip
       /\ (MAC b = iface_mac i \/ is_Some (fresh_sighting l now (key_of b) (iface_mac i))))
      \/ exists s a o, s ∈ Scopes c /\ ParseAddr ip = Some a
         /\ fresh_sighting l now (bindingKey (sID s) (AddrString a)) (iface_mac i) = Some o
         /\ busy now (readBinding l (oScope o) (oAddress o)) = false /\ b = neighbor_binding sha256_hex now o).

Lemma matches_evidence : Forall evidence (matches sha256_hex c l now n).
Proof.
  unfold matches. apply (fold_left_inv _ (fun st : claims => Forall evidence (snd st))); [|by constructor].
  intros i st Hi Hst. apply (fold_left_inv _ (fun st : claims => Forall evidence (snd st))); [|done].
  intros ip st' Hip Hst'. unfold claim_address. apply (fold_left_inv _ (fun st : claims => Forall evidence (snd st))).
  - intros s st1 Hs H1. unfold claim_sighting. destruct (ParseAddr ip) as [a|] eqn:Ea; [|done]. destruct (ParsePrefix _); [|done].
    destruct (_ || _); [done|]. destruct (fresh_sighting _ _ _ _) as [o|] eqn:Eo; [|done].
    destruct (busy _ _) eqn:Eb; [done|]. apply Forall_app_2; [done|]. constructor; [|constructor].
    exists i, ip. split_and!; [done..|]. right. by exists s, a, o.
  - apply (fold_left_inv _ (fun st : claims => Forall evidence (snd st))); [|done]. intros b st1 Hb H1.
    unfold claim_binding. destruct (_ || _ || _) eqn:E1; [done|]. destruct (_ && _) eqn:E2; [done|]. apply Forall_app_2; [done|].
    constructor; [|constructor]. apply (liveByAddress_exact l (ok_wf _ Hl)) in Hb as (Hst1 & _ & Eip).
    + exists i, ip. split_and!; [done..|]. left. bool_hyps. split_and!; try done.
      apply andb_false_iff in E2 as [E2|E2]; bool_hyps; [by left|right; by apply bool_decide_eq_true in E2].
    + by apply (Hnul i).
Qed.

(** The candidate an entry of the answer was made from. *)
Definition joined_from (ms : list Binding) (b : Binding) : Prop :=
  NodeID b = nID n /\ exists d, d ∈ ms /\ bScope b = bScope d /\ Address b = Address d /\ MAC b = MAC d /\ Client b = Client d
  /\ (has_prefix (Evidence d) "operator repair:" = false \/ NodeID d = nID n).

Lemma associate_joined ms device name st st' d : d ∈ ms -> Forall (joined_from ms) (snd st) ->
  associate now n device name st d = Ok st' -> Forall (joined_from ms) (snd st').
Proof.
  destruct st as [l1 j1]. intros Hd Hj H. unfold associate in H. apply seq_ok in H as [Hop%fail_if_ok H]. apply Ok_inj in H as <-. cbn [snd] in *.
  apply Forall_app_2; [done|]. constructor; [|constructor]. split; [done|]. exists d. split_and!; try done.
  apply andb_false_iff in Hop as [?|?]; bool_hyps; auto.
Qed.

(** What associating the candidates has done so far: the stored bindings are those of [l]
    but for the joined ones, and every joined one is stored under the node's identity. *)
Definition associated (device name : string) (st : ledger * list Binding) : Prop :=
  (forall k, bindings (fst st) !! k = bindings l !! k
     \/ exists b, b ∈ snd st /\ key_of b = k /\ bindings (fst st) !! k = Some b)
  /\ nodes (fst st) = nodes l
  /\ Forall (fun b => (NodeID b = nID n /\ Device b = device /\ Name b = name)
       /\ exists b0, bindings (fst st) !! key_of b = Some b0
            /\ NodeID b0 = nID n /\ Device b0 = device /\ Name b0 = name) (snd st).

Lemma associated_saved device name l1 j1 b : associated device name (l1, j1) ->
  NodeID b = nID n -> Device b = device -> Name b = name ->
  associated device name (save now b "associate" l1, j1 ++ [b]).
Proof.
  intros (Hb & Hn & Hj) E1 E2 E3. cbn [fst snd] in *. unfold associated. cbn [fst snd].
  pose proof (save_fields now b "associate" l1) as (Es & _ & _ & _ & _ & _ & En & _). cbn zeta in Es, En. rewrite Es, En.
  split_and!; [|done|].
  - intros k. destruct (decide (key_of b = k)) as [<-|Hk].
    + right. exists b. rewrite lookup_insert_eq. split_and!; [set_solver|done..].
    + rewrite lookup_insert_ne by done. destruct (Hb k) as [?|(b1 & H1 & H2)]; [by left|right].
      exists b1. split; [|done]. apply elem_of_app. by left.
  - assert (Hkeep : forall k, (exists b0, bindings l1 !! k = Some b0 /\ NodeID b0 = nID n /\ Device b0 = device /\ Name b0 = name) ->
      exists b0, <[key_of b := b]> (bindings l1) !! k = Some b0 /\ NodeID b0 = nID n /\ Device b0 = device /\ Name b0 = name).
    { intros k H. destruct (decide (key_of b = k)) as [<-|]; [exists b; by rewrite lookup_insert_eq|by rewrite lookup_insert_ne]. }
    apply Forall_app_2.
    + eapply Forall_impl; [exact Hj|]. intros b1 [? ?]. split; [done|]. by apply Hkeep.
    + constructor; [|constructor]. split; [done|]. exists b. by rewrite lookup_insert_eq.
Qed.

Lemma associated_step device name st st' d : nID n <> EmptyString -> evidence d ->
  associated device name st -> associate now n device name st d = Ok st' -> associated device name st'.
Proof.
  destruct st as [l1 j1]. intros Hid Hd Ha H. unfold associate in H. apply seq_ok in H as [_ H]. apply Ok_inj in H as <-.
  destruct (_ || negb (End_ d =? _)) eqn:Ec; [by apply associated_saved|]. bool_hyps.
  destruct Ha as (Hb & Hn & Hj). cbn [fst snd] in *. unfold associated. cbn [fst snd]. split_and!; [|done|].
  - intros k. destruct (Hb k) as [?|(b1 & B1 & B2)]; [by left|right]. exists b1. split; [|done]. apply elem_of_app. by left.
  - apply Forall_app_2; [done|]. constructor; [|constructor]. split; [done|]. change (key_of _) with (key_of d).
    destruct Hd as (i & ip & _ & _ & [(Hst & _)|(s & a & o & _ & _ & _ & _ & ->)]); [|by destruct Hid].
    destruct (Hb (key_of d)) as [E|(b1 & B1 & Ek & E)].
    + exists d. rewrite E. done.
    + exists b1. rewrite Forall_forall in Hj. by destruct (Hj b1 B1).
Qed.

(** What a transaction that commits leaves: the joined bindings and the node's record. *)
Lemma report_tx_sound l' joined : check_report n = Ok tt -> report_tx sha256_hex now c n l = Ok (l', joined) ->
  Forall (joined_from (matches sha256_hex c l now n)) joined
  /\ nodes l' = <[nID n := mkNode (nID n) (DNSName n) (Addresses n) (Interfaces n) now]> (nodes l)
  /\ exists device name l1, bindings l' = bindings l1 /\ nodes l1 = nodes l /\ associated device name (l1, joined).
Proof.
  intros Ec E. assert (Hid : nID n <> EmptyString).
  { unfold check_report in Ec. apply seq_ok in Ec as [Ec%fail_if_ok _]. bool_hyps. intros E0. rewrite E0 in *. done. }
  unfold report_tx in E. next_ok E. set (ms := matches sha256_hex c l now n) in *.
  pose proof matches_evidence as HE. fold ms in HE. rewrite Forall_forall in HE.
  assert (Hfold : forall device name st, fold_m (associate now n device name) (l, []) ms = Ok st ->
    Forall (joined_from ms) (snd st) /\ associated device name st).
  { intros device name st Hst. apply (fold_m_inv _ (fun st => Forall (joined_from ms) (snd st) /\ associated device name st)) in Hst; [done| |].
    - intros d st1 st2 Hin [H1 H2] H3. split; [by eapply associate_joined|by eapply associated_step; eauto].
    - split; [constructor|]. split_and!; [by left|done|constructor]. }
  destruct (if is_empty (fst x) then _ else x) as [device name]. next_ok E. apply Ok_inj in E. injection E as <- <-.
  match goal with H : fold_m (associate _ _ _ _) _ _ = Ok ?st |- _ => destruct (Hfold _ _ _ H) as [H1 H2]; destruct st as [l1 j1] end.
  cbn [fst snd] in *. pose proof H2 as (_ & En & _). cbn [fst] in En. split_and!; [done| |].
  - cbn. by rewrite En.
  - exists device, name, l1. done.
Qed.

(** C38: A host cannot claim an address without evidence.  Let no address of the report hold a
    NUL byte.  When the report is accepted, every binding joined to the reporting node is at
    an address the host named on one of its interfaces, where the ledger already holds an
    active lease with that interface's hardware address, or a sighting that still holds of
    that hardware address, at the lease or at an address nobody else holds; and no binding an
    operator assigned to another node is taken.  The ledger after the report holds every one
    of them under the node's identity, device and name, its other bindings are as they were,
    and the node's record is the only one written.  A refused report changes no binding and
    no node. *)
Theorem report_sound l' r :
  Report sha256_hex now c n l = (l', r) ->
  match r with
  | Ok joined =>
    (forall b, b ∈ joined -> NodeID b = nID n
       /\ (exists d, evidence d /\ bScope b = bScope d /\ Address b = Address d /\ MAC b = MAC d /\ Client b = Client d
            /\ (has_prefix (Evidence d) "operator repair:" = false \/ NodeID d = nID n))
       /\ exists b0, bindings l' !! key_of b = Some b0 /\ NodeID b0 = nID n /\ Device b0 = Device b /\ Name b0 = Name b)
    /\ (forall k, (forall b, b ∈ joined -> key_of b <> k) -> bindings l' !! k = bindings l !! k)
    /\ nodes l' = <[nID n := mkNode (nID n) (DNSName n) (Addresses n) (Interfaces n) now]> (nodes l)
  | Err _ => bindings l' = bindings l /\ nodes l' = nodes l
  end.
Proof.
  unfold Report. destruct (check_report n) as [[]|] eqn:Ec; [|by intros [= <- <-]].
  destruct (report_tx sha256_hex now c n l) as [[l1 j1]|e] eqn:E; [|by intros [= <- <-]]. intros [= <- <-].
  apply (report_tx_sound _ _ Ec) in E as (HF & Hn & device & name & l2 & Eb & _ & Hk & _ & Hj). cbn [fst snd] in *. rewrite Eb.
  rewrite Forall_forall in HF, Hj. split_and!; [|intros k Hno|done].
  - intros b Hb. destruct (HF b Hb) as (En & d & Hd & Hrest). destruct (Hj b Hb) as ((_ & -> & ->) & Hst). split_and!; [done| |done].
    exists d. split; [|done]. pose proof matches_evidence as HE. rewrite Forall_forall in HE. by apply HE.
  - destruct (Hk k) as [?|(b & Hb & Ekb & _)]; [done|]. by destruct (Hno b Hb).
Qed.
End Report.

(** A warm standby that applies the authority's log, page by page, arrives at its bindings. *)

(** * The cursor's bytes *)

Lemma byte_of_octet x : byte_range x -> byte_of (ascii_of_nat (Z.to_nat x)) = x.
Proof. intros Hx. unfold byte_range in Hx. unfold byte_of. rewrite nat_ascii_embedding by lia. lia. Qed.

Lemma be64_chars n : string_chars (be64 n) = map (fun i => ascii_of_nat (Z.to_nat (octet n (7 - Z.of_nat i)))) (seq 0 8).
Proof. apply chars_of_chars. Qed.

Lemma fold_byte_map (cs : list ascii) acc :
  fold_left (fun n c => n * 256 + byte_of c) cs acc = fold_left (fun n o => n * 256 + o) (map byte_of cs) acc.
Proof. revert acc. induction cs as [|x cs IH]; intros acc; cbn; [done|]. apply IH. Qed.

Lemma read_be64 n : 0 <= n < 2 ^ 64 -> of_be64 (be64 n) = Some n.
Proof.
  intros Hn. unfold of_be64. rewrite <-chars_length, be64_chars, length_map, length_seq. cbn [Nat.eqb].
  f_equal. rewrite fold_byte_map, map_map. rewrite (map_ext _ (fun i => octet n (Z.of_nat 8 - 1 - Z.of_nat i))).
  - etransitivity; [apply (octets_num 8)|]. change (256 ^ Z.of_nat 8) with (2 ^ 64). by apply Z.mod_small.
  - intros i. by rewrite byte_of_octet by apply octet_range.
Qed.

Lemma ReplicaCursor_range l : 0 <= ReplicaCursor l < 2 ^ 64.
Proof.
  unfold ReplicaCursor. destruct (meta l !! "replica-cursor") as [v|]; [|cbn; lia]. cbn [mbind option_bind].
  unfold of_be64. destruct (Nat.eqb_spec (String.length v) 8) as [E|_]; [|cbn; lia]. cbn [default]. rewrite fold_byte_map.
  pose proof (num_of_octets_range (map byte_of (string_chars v))) as H. rewrite length_map, chars_length, E in H.
  apply H, Forall_map, Forall_forall. intros x _. unfold byte_range, byte_of. cbn. pose proof (nat_ascii_bounded x). lia.
Qed.

(** * Pages of the log *)

Lemma ids_from k (es : list Event) : map EventID es = map Z.of_nat (seq (S k) (length es)) ->
  forall cur, List.filter (fun e => Z.of_nat cur <? EventID e) es = drop (cur - k) es.
Proof.
  revert k. induction es as [|e es IH]; intros k Hids cur; [by rewrite drop_nil|]. cbn [map length seq] in Hids.
  injection Hids as He Hids. cbn [List.filter]. rewrite He. destruct (Z.ltb_spec (Z.of_nat cur) (Z.of_nat (S k))) as [Hlt|Hge].
  - replace (cur - k)%nat with O by lia. rewrite drop_0. f_equal. rewrite (IH (S k) Hids).
    replace (cur - S k)%nat with O by lia. apply drop_0.
  - rewrite (IH (S k) Hids). replace (cur - k)%nat with (S (cur - S k)) by lia. done.
Qed.

Lemma Events_page l cur limit es : wf l -> Events (Z.of_nat cur) limit l = Ok es -> es = take (Z.to_nat limit) (drop cur (events l)).
Proof.
  intros Hwf. unfold Events. intros H. apply seq_ok in H as [_ H]. apply Ok_inj in H as <-.
  by rewrite (ids_from 0 _ (wf_ids _ Hwf)), Nat.sub_0_r.
Qed.

(** An entry of the log that is either a binding's or a sighting's. *)
Definition one_subject (e : Event) : Prop := eObservation e = None \/ is_empty (bScope (eBinding e)) = true.

Lemma apply_event_bindings now cur l e : cur < EventID e -> one_subject e ->
  fst (apply_event now (cur, l) e) = EventID e
  /\ bindings (snd (apply_event now (cur, l) e)) = log_event (bindings l) e.
Proof.
  intros Hc He. unfold apply_event. rewrite (proj2 (Z.leb_gt _ _)) by lia. split; [done|]. cbn [snd]. unfold log_event, one_subject in *.
  destruct (eObservation e) as [o|].
  - destruct He as [?|He]; [done|]. rewrite He. by destruct (Kind e =?s "observation").
  - destruct (is_empty (bScope (eBinding e))); [done|]. cbn [negb].
    by destruct (save_fields now (eBinding e) (Kind e) l) as (-> & _).
Qed.

Lemma apply_page now es : forall cur l, map EventID es = map Z.of_nat (seq (S cur) (length es)) -> Forall one_subject es ->
  let r := fold_left (apply_event now) es (Z.of_nat cur, l) in
  fst r = Z.of_nat (cur + length es) /\ bindings (snd r) = fold_left log_event es (bindings l).
Proof.
  induction es as [|e es IH]; intros cur l Hids Hs; cbn [fold_left length]; [by rewrite Nat.add_0_r|].
  cbn [map length seq] in Hids. injection Hids as He Hids. inversion Hs as [|? ? Hse Hss]; subst.
  destruct (apply_event_bindings now (Z.of_nat cur) l e) as [E1 E2]; [lia|done|].
  destruct (apply_event now (Z.of_nat cur, l) e) as [cur' l1]. cbn [fst snd] in E1, E2. subst cur'. rewrite He, <-E2.
  replace (cur + S (length es))%nat with (S cur + length es)%nat by lia. by apply IH.
Qed.

Lemma apply_snapshot_bindings s l l' : apply_snapshot s l = Ok l' -> bindings l' = bindings l /\ meta l' !! "replica-cursor" = meta l !! "replica-cursor".
Proof.
  unfold apply_snapshot. intros H. next_ok H. apply Ok_inj in H as <-. cbn. destruct (is_empty _); [by injection Hx as <-|].
  destruct (hex_decode _); [|done]. injection Hx as <-. cbn. by rewrite lookup_insert_ne by done.
Qed.

(** The standby has applied the first [cur] entries of the authority's log. *)
Definition replicates (leader : ledger) (cur : nat) (standby : ledger) : Prop :=
  ReplicaCursor standby = Z.of_nat cur /\ bindings standby = fold_left log_event (take cur (events leader)) ∅.

(** The standby applies entries that follow its cursor in the authority's log. *)
Lemma replicated_page leader standby standby' cur es later snap now cur' :
  wf leader -> Forall one_subject (events leader) -> sequence leader < 2 ^ 64 -> ReplicaCursor standby = Z.of_nat cur ->
  events leader = take cur (events leader) ++ es ++ later -> (es <> [] -> (cur <= length (events leader))%nat) ->
  ApplyReplicated now es snap standby = (standby', Ok cur') ->
  cur' = Z.of_nat (cur + length es) /\ ReplicaCursor standby' = Z.of_nat (cur + length es)
  /\ bindings standby' = fold_left log_event es (bindings standby)
  /\ take (cur + length es) (events leader) = take cur (events leader) ++ es.
Proof.
  intros Hwf Hs Hseq Hcur Elog Hin H.
  assert (Hids : map EventID es = map Z.of_nat (seq (S cur) (length es))).
  { pose proof (wf_ids _ Hwf) as Hi. destruct (decide (es = [])) as [->|Hne]; [done|].
    specialize (Hin Hne).
    rewrite Elog in Hi. rewrite !map_app, !length_app, length_take, Nat.min_l, !seq_app, !map_app in Hi by done.
    apply app_inj_1 in Hi as [_ Hi]; [|rewrite !length_map, length_take, length_seq; lia].
    apply app_inj_1 in Hi as [Hi _]; [|by rewrite !length_map, length_seq]. exact Hi. }
  assert (Hse : Forall one_subject es) by (rewrite Elog in Hs; by apply Forall_app in Hs as [_ [? _]%Forall_app]).
  unfold ApplyReplicated, update in H. rewrite Hcur in H. destruct (apply_page now es cur standby Hids Hse) as [E1 E2].
  destruct (fold_left (apply_event now) es (Z.of_nat cur, standby)) as [c1 l1]. cbn [fst snd] in E1, E2. subst c1.
  destruct (match snap with Some s => apply_snapshot s l1 | None => Ok l1 end) as [l2|] eqn:Es; [|done]. cbn [mbind result_bind] in H.
  injection H as <- <-.
  assert (E3 : bindings l2 = bindings l1).
  { destruct snap as [s|]; [by apply apply_snapshot_bindings in Es as [? _]|by injection Es as <-]. }
  split_and!; [done| |change (bindings (set_meta _ _ l2)) with (bindings l2); by rewrite E3, E2|].
  - unfold ReplicaCursor. cbn [meta set_meta]. rewrite lookup_insert_eq. cbn [mbind option_bind]. rewrite read_be64; [done|].
    destruct (decide (es = [])) as [->|Hne]; [cbn [length]; rewrite Nat.add_0_r, <-Hcur; apply ReplicaCursor_range|].
    rewrite (wf_sequence _ Hwf), Elog, !length_app, length_take in Hseq.
    specialize (Hin Hne). lia.
  - destruct (decide (es = [])) as [->|Hne]; [by rewrite app_nil_r, Nat.add_0_r|]. rewrite Elog at 1. rewrite app_assoc.
    rewrite take_app_length'; [done|]. rewrite length_app, length_take. specialize (Hin Hne). lia.
Qed.

Lemma replicated_run leader standby standby' cur es later snap now cur' :
  wf leader -> Forall one_subject (events leader) -> sequence leader < 2 ^ 64 -> replicates leader cur standby ->
  events leader = take cur (events leader) ++ es ++ later -> (es <> [] -> (cur <= length (events leader))%nat) ->
  ApplyReplicated now es snap standby = (standby', Ok cur') ->
  cur' = Z.of_nat (cur + length es) /\ replicates leader (cur + length es) standby'
  /\ (later = [] -> bindings standby' = bindings leader).
Proof.
  intros Hwf Hs Hseq [Hcur Hb] Elog Hin H. destruct (replicated_page _ _ _ _ _ _ _ _ _ Hwf Hs Hseq Hcur Elog Hin H) as (E1 & E2 & E3 & E4).
  split; [done|]. split; [split; [done|]; by rewrite E4, E3, Hb, <-fold_left_app|].
  intros ->. rewrite app_nil_r in Elog. by rewrite E3, Hb, <-fold_left_app, (wf_log _ Hwf), <-Elog.
Qed.

(** A binding of the standby that is the authority's, or the authority's after it has run out. *)
Definition lapsed (until : Z) (x y : option Binding) : Prop :=
  y = x \/ exists b, x = Some b /\ liveState (bState b) = true /\ End_ b <= until /\ y = Some (with_state "expired" (End_ b) b).

(** The standby has applied the first [cur] entries of the authority's log, and has expired leases of
    its own accord up to [until] at most. *)
Definition mirrors (until : Z) (leader : ledger) (cur : nat) (standby : ledger) : Prop :=
  ReplicaCursor standby = Z.of_nat cur /\ (forall k b, bindings standby !! k = Some b -> key_of b = k)
  /\ forall k, lapsed until (fold_left log_event (take cur (events leader)) ∅ !! k) (bindings standby !! k).

Lemma log_keyed e (m : gmap string Binding) : (forall k b, m !! k = Some b -> key_of b = k) -> forall k b, log_event m e !! k = Some b -> key_of b = k.
Proof. intros H k b. unfold log_event. destruct (is_empty _); [apply H|]. rewrite lookup_insert_Some. intros [[<- <-]|[_ ?]]; [done|by apply H]. Qed.
Lemma log_lapsed until e (m m' : gmap string Binding) : (forall k, lapsed until (m !! k) (m' !! k)) ->
  forall k, lapsed until (log_event m e !! k) (log_event m' e !! k).
Proof.
  intros H k. unfold log_event. destruct (is_empty _); [apply H|]. destruct (decide (key_of (eBinding e) = k)) as [<-|Hne].
  - rewrite !lookup_insert_eq. by left.
  - rewrite !lookup_insert_ne by done. apply H.
Qed.

Lemma mirrors_page until leader standby standby' cur es later snap now cur' :
  wf leader -> Forall one_subject (events leader) -> sequence leader < 2 ^ 64 -> mirrors until leader cur standby ->
  events leader = take cur (events leader) ++ es ++ later -> (es <> [] -> (cur <= length (events leader))%nat) ->
  ApplyReplicated now es snap standby = (standby', Ok cur') -> mirrors until leader (cur + length es) standby'.
Proof.
  intros Hwf Hs Hseq (Hcur & Hk & Hb) Elog Hin H. destruct (replicated_page _ _ _ _ _ _ _ _ _ Hwf Hs Hseq Hcur Elog Hin H) as (_ & E2 & E3 & E4).
  unfold mirrors. rewrite E2, E3, E4, fold_left_app. split; [done|]. clear -Hk Hb. revert Hk Hb.
  generalize (bindings standby) as m', (fold_left log_event (take cur (events leader)) ∅) as m.
  induction es as [|e es IH]; intros m' m Hk Hb; [done|]. cbn [fold_left]. apply IH; [by apply log_keyed|by apply log_lapsed].
Qed.

(** An expiry round of the standby's own. *)
Lemma expire_one_mirrors until leader cur now l k : int64 (fst k) <= now -> now <= until -> mirrors until leader cur l -> mirrors until leader cur (expire_one now l k).
Proof.
  intros Hk Hn (H1 & H2 & H3). unfold expire_one. destruct (bindings l !! snd k) as [b|] eqn:Eb; [|done].
  destruct (negb (liveState (bState b)) || negb (End_ b =? int64 (fst k))) eqn:Ec; [done|]. bool_hyps.
  destruct (save_fields now (with_state "expired" (End_ b) b) "expire" l) as (F1 & _ & _ & _ & _ & _ & _ & _ & _ & F2). pose proof (H2 _ _ Eb) as Ekey.
  assert (Ek : key_of (with_state "expired" (End_ b) b) = snd k) by exact Ekey. split_and!.
  - rewrite <-H1. unfold ReplicaCursor. by rewrite F2.
  - intros j c. rewrite F1, Ek, lookup_insert_Some. intros [[<- <-]|[_ ?]]; [done|by apply H2].
  - intros j. rewrite F1, Ek. destruct (decide (snd k = j)) as [<-|Hne]; [|by rewrite lookup_insert_ne].
    rewrite lookup_insert_eq. specialize (H3 (snd k)). rewrite Eb in H3. right. destruct H3 as [H3|(b' & _ & _ & _ & H3)]; [|injection H3 as ->; done].
    exists b. split_and!; [done|done|lia|done].
Qed.

Lemma take_due_due now n : forall ks, Forall (fun k => int64 (fst k) <= now) (take_due now n ks).
Proof. induction n as [|n IH]; intros [|k ks]; cbn; [constructor..|]. destruct (Z.leb_spec (int64 (fst k)) now); [by constructor|constructor]. Qed.

Lemma expire_mirrors until leader cur now l : now <= until -> mirrors until leader cur l -> mirrors until leader cur (Expire now l).
Proof.
  intros Hn Hm. unfold Expire. apply (fold_left_inv _ (mirrors until leader cur)); [|done]. intros k x Hk Hx.
  apply expire_one_mirrors; [|done|done]. pose proof (take_due_due now 1000 (merge_sort expiry_le (elements (expiry l)))) as HF.
  rewrite Forall_forall in HF. by apply HF.
Qed.

(** Nothing else the ledger keeps matters. *)
Lemma mirrors_other until leader cur l l' : bindings l' = bindings l -> meta l' !! "replica-cursor" = meta l !! "replica-cursor" ->
  mirrors until leader cur l -> mirrors until leader cur l'.
Proof. intros E1 E2 (H1 & H2 & H3). unfold mirrors, ReplicaCursor in *. by rewrite E1, E2. Qed.

(** A standby converges to the authority.  Whenever a standby that has applied the first
    entries of the authority's log applies a page read from its cursor on, it has applied the
    page too: its cursor, stored in eight bytes, has moved past the page and its bindings are
    those the authority had at that point of the log; an empty page means that the bindings
    are the authority's. *)
Theorem replica_converges leader standby standby' cur limit es snap now cur' :
  wf leader -> Forall one_subject (events leader) -> sequence leader < 2 ^ 64 ->
  replicates leader cur standby ->
  Events (Z.of_nat cur) limit leader = Ok es ->
  ApplyReplicated now es snap standby = (standby', Ok cur') ->
  cur' = Z.of_nat (cur + length es) /\ replicates leader (cur + length es) standby'
  /\ (es = [] -> bindings standby' = bindings leader).
Proof.
  intros Hwf Hs Hseq Hr Hev H. pose proof Hev as Hlim. apply (Events_page leader cur limit es Hwf) in Hev.
  assert (Hpage : exists later, events leader = take cur (events leader) ++ es ++ later /\ (es = [] -> later = [])).
  { exists (drop (Z.to_nat limit) (drop cur (events leader))). rewrite Hev, take_drop. split; [symmetry; apply take_drop|].
    intros E. unfold Events in Hlim. apply seq_ok in Hlim as [Hl%fail_if_ok _]. bool_hyps.
    destruct (drop cur (events leader)); [apply drop_nil|]. destruct (Z.to_nat limit) eqn:El; [lia|done]. }
  destruct Hpage as (later & Elog & Hlater).
  destruct (replicated_run leader standby standby' cur es later snap now cur' Hwf Hs Hseq Hr Elog) as (E1 & E2 & E3); [|done|by auto].
  intros Hne. destruct (le_lt_dec cur (length (events leader))); [done|]. destruct Hne. rewrite Hev, drop_ge by lia. apply take_nil.
Qed.
