(* ===== verification/BookExample.v ===== *)
(** A small address book: one IPv4 scope with a reservation, one IPv6 scope that delegates
    prefixes, and a ledger written by the program's own operations.  The theorems of the
    address book are applied to it. *)

From S2P Require Import Prelude Json NetAddr Ledger LedgerInv Config KeyText ConfigInv AddrText Allocate.
From S2P Require Import AllocInv LeaseImport Sightings Delegate Report BookInv BookSafety BookGrant.
From S2P Require Import DelegateInv ReportInv.
From Stdlib Require Import Ascii.
Local Open Scope Z_scope.

Module BookExample.

(** A stand-in for SHA-256 that prints hexadecimal digits. *)
Definition digest (x : string) : string :=
  if (String.length x <? 30)%nat then "00112233445566778899" else "aabbccddeeff00112233".

Lemma digest_digits x : str_forallb hex_lower_char (digest x) = true.
Proof. unfold digest. by destruct (_ <? _)%nat. Qed.

Definition printer : DeviceConfig := mkDevice ["lp"] [] "printer" "laser" EmptyString.
Definition lan : Scope :=
  mkScope "lan" "eth0" "10.0.0.0/24" "10.0.0.1" "10.0.0.10" "10.0.0.12" "10.0.0.1" "lan.example" 3600 true
    [mkReservation "mac:02:00:00:00:00:05" "10.0.0.5" "printer"] 0 None None None [] [] None.
Definition lan6 : Scope :=
  mkScope "lan6" "eth0" "2001:db8:1::/64" "2001:db8:1::1" "2001:db8:1::100" "2001:db8:1::1ff" EmptyString "lan.example" 3600
    true [] 1800 None None None [] [] (Some (mkPD "2001:db8:f000::/48" 56 true)).
Definition book : Config := mkConfig [lan; lan6] [printer] None.

Lemma book_valid : Validate book = Ok tt.
Proof. vm_compute. reflexivity. Qed.

Definition anna : string := "mac:02:00:00:00:00:0a".
Definition bob : string := "mac:02:00:00:00:00:0b".
Definition lease (now : Z) (client mac ip : string) (l : ledger) : ledger :=
  fst (Allocate digest now book "lan" client mac "host" ip true l).

Definition one_lease : ledger := lease 1000 anna "02:00:00:00:00:0a" "10.0.0.10" empty_ledger.
Definition two_leases : ledger := lease 1100 bob "02:00:00:00:00:0b" "10.0.0.11" one_lease.

Lemma lease_ok now client mac ip l :
  unix now -> plain ip -> ledger_ok l -> ledger_ok (lease now client mac ip l).
Proof.
  intros Hn Hp Hl. unfold lease. destruct (Allocate _ _ _ _ _ _ _ _ _ l) as [l' r] eqn:E.
  by apply (Allocate_keeps digest digest_digits _ _ _ _ _ _ _ _ _ _ _ book_valid Hn Hp Hl E).
Qed.

Lemma one_ok : ledger_ok one_lease.
Proof. apply lease_ok; [unfold unix; lia|apply plain_check; vm_compute; reflexivity|apply ok_empty]. Qed.
Lemma two_ok : ledger_ok two_leases.
Proof. apply lease_ok; [unfold unix; lia|apply plain_check; vm_compute; reflexivity|apply one_ok]. Qed.

Definition bob_lease : Binding := readBinding two_leases "lan" "10.0.0.11".

Lemma bob_facts :
  stored two_leases bob_lease /\ bState bob_lease = "active" /\ Origin bob_lease <> originPD
  /\ bScope bob_lease = "lan" /\ Address bob_lease = "10.0.0.11" /\ 1200 < End_ bob_lease.
Proof. split_and!; first [vm_compute; reflexivity | vm_compute; congruence]. Qed.

Lemma index_exact_witness :
  wf two_leases /\ length (liveByClient two_leases "lan" bob) = 1%nat /\ bob_lease ∈ liveByClient two_leases "lan" bob.
Proof.
  split; [apply two_ok|]. split; [vm_compute; reflexivity|].
  apply (proj1 (index_exact two_leases bob_lease (ok_wf _ two_ok)) "lan" bob); vm_compute; done.
Defined.

Lemma dns_exact_witness :
  wf two_leases
  /\ bob_lease ∈ DNSBindings 1200 "lan" (Name bob_lease) EmptyString two_leases
  /\ bob_lease ∈ DNSBindings 1200 "lan" (Name bob_lease) "10.0.0.11" two_leases.
Proof.
  destruct bob_facts as (F1 & F2 & F3 & F4 & F5 & F6). split; [apply two_ok|].
  destruct (dns_exact two_leases 1200 "lan" (Name bob_lease) bob_lease (ok_wf _ two_ok)
    ltac:(vm_compute; reflexivity) ltac:(vm_compute; reflexivity)) as [H1 H2].
  split; [apply H1; exact (conj F1 (conj F2 (conj F3 (conj F4 (conj eq_refl F6)))))|].
  apply H2; [reflexivity|exact (conj F1 (conj F2 (conj F4 (conj F5 F6))))].
Defined.

Definition snap_at (now : Z) (l : ledger) : Snapshot :=
  match take_snapshot now EmptyString EmptyString 1050 l with Ok s => s | Err _ => mkSnapshot [] EmptyString [] [] [] end.

Lemma history_exact_witness :
  length (sBindings (snap_at 1200 two_leases)) = 1%nat
  /\ sBindings (snap_at 1200 two_leases) = sBindings (snap_at 1050 one_lease).
Proof.
  split; [vm_compute; reflexivity|].
  apply (history_exact one_lease two_leases (drop 1 (events two_leases)) 1050 1200 EmptyString EmptyString (snap_at 1050 one_lease)
    (snap_at 1200 two_leases)); [apply one_ok|vm_compute; reflexivity| | |lia|vm_compute; reflexivity|vm_compute; reflexivity].
  - intros e. rewrite list_elem_of_In. vm_compute. intros [<-|[]]. done.
  - intros e. rewrite list_elem_of_In. vm_compute. intros [<-|[]]. done.
Defined.

Lemma scopes_disjoint_witness :
  Validate book = Ok tt /\ sID lan <> sID lan6 /\ ~ (in_subnet lan "10.0.0.10" /\ in_subnet lan6 "10.0.0.10").
Proof.
  split; [apply book_valid|]. apply (scopes_disjoint book 0 1 lan lan6); [apply book_valid|done|done|done].
Defined.

(** * The book at work *)

Definition any_duid (raw : string) : bool := true.

(** Anna asks for Bob's address, then an expiry round. *)
Definition grab : Z * op := (1200, OpAllocate book "lan" anna "02:00:00:00:00:0a" "host" "10.0.0.11" true).
Definition sweep : Z * op := (1300, OpExpire).
Definition later_book : ledger := perform digest any_duid 1300 OpExpire (perform digest any_duid 1200 (snd grab) two_leases).

Lemma later_run : run digest any_duid [grab; sweep] two_leases later_book.
Proof.
  eapply run_cons; [apply step_op|eapply run_cons; [apply step_op|apply run_nil]].
  - unfold unix. lia.
  - split; [exact book_valid|apply plain_check; vm_compute; reflexivity].
  - unfold unix. lia.
  - exact I.
Qed.

Lemma book_well_formed_witness :
  ledger_ok (perform digest any_duid 1000 (OpAllocate book "lan" anna "02:00:00:00:00:0a" "host" "10.0.0.10" true) empty_ledger).
Proof.
  apply (book_well_formed digest any_duid digest_digits).
  apply (w_more digest any_duid 1000 (Operation (OpAllocate book "lan" anna "02:00:00:00:00:0a" "host" "10.0.0.10" true)) empty_ledger);
    [apply w_empty|unfold unix; lia|].
  split; [exact book_valid|apply plain_check; vm_compute; reflexivity].
Defined.

Lemma lease_kept_witness :
  stored two_leases bob_lease /\ exists b', stored later_book b' /\ same_lease bob_lease b'.
Proof.
  destruct bob_facts as (F1 & F2 & F3 & F4 & F5 & F6). split; [exact F1|].
  apply (lease_kept digest any_duid digest_digits bob_lease [grab; sweep] two_leases later_book two_ok F1).
  - split; [vm_compute; reflexivity|]. split; [vm_compute; congruence|left; vm_compute; reflexivity].
  - intros now o Hin. apply elem_of_cons in Hin as [E|Hin].
    + injection E as -> ->. split; [vm_compute; reflexivity|vm_compute; congruence].
    + apply list_elem_of_singleton in Hin. injection Hin as -> ->. split; [vm_compute; reflexivity|exact I].
  - exact later_run.
Defined.

Definition grant_of (r : ledger * result alloc_error Binding) : Binding :=
  match snd r with Ok b => b | Err _ => no_binding end.
Definition anna_asks : ledger * result alloc_error Binding :=
  Allocate digest 1000 book "lan" anna "02:00:00:00:00:0a" "host" "10.0.0.10" true empty_ledger.

Lemma grant_sound_witness :
  Address (grant_of anna_asks) = "10.0.0.10"
  /\ exists s mac', admission book "lan" anna "02:00:00:00:00:0a" = Ok (s, mac') /\ in_subnet s (Address (grant_of anna_asks)).
Proof.
  split; [vm_compute; reflexivity|].
  destruct (grant_sound digest 1000 book "lan" anna "02:00:00:00:00:0a" "host" "10.0.0.10" true empty_ledger (fst anna_asks)
    (grant_of anna_asks) book_valid ok_empty) as (s & mac' & Ha & _ & _ & _ & _ & (Hin & _) & _).
  - apply plain_check. vm_compute. reflexivity.
  - vm_compute. reflexivity.
  - exists s, mac'. split; [exact Ha|exact Hin].
Defined.

(** The last address of the pool is still free. *)
Definition dora : string := "mac:02:00:00:00:00:0d".

Lemma discover_finds_witness :
  available two_leases 1200 lan dora "02:00:00:00:00:0d" "10.0.0.12" = true
  /\ exists l' b, Allocate digest 1200 book "lan" dora "02:00:00:00:00:0d" "host" EmptyString false two_leases = (l', Ok b).
Proof.
  split; [vm_compute; reflexivity|].
  apply (discover_finds digest 1200 book "lan" dora "02:00:00:00:00:0d" "host" EmptyString two_leases lan "02:00:00:00:00:0d"
    (must_addr "10.0.0.12") book_valid); [vm_compute; reflexivity|vm_compute; reflexivity| |vm_compute; reflexivity].
  unfold in_pool. split_and!; vm_compute; reflexivity.
Defined.

Lemma two_stored d : stored two_leases d -> d = readBinding two_leases "lan" "10.0.0.10" \/ d = bob_lease.
Proof.
  unfold stored. generalize (key_of d). intros k Hk. apply elem_of_map_to_list, list_elem_of_In in Hk.
  assert (E : map_to_list (bindings two_leases) = [("lan/10.0.0.10", readBinding two_leases "lan" "10.0.0.10"); ("lan/10.0.0.11", bob_lease)]
    \/ map_to_list (bindings two_leases) = [("lan/10.0.0.11", bob_lease); ("lan/10.0.0.10", readBinding two_leases "lan" "10.0.0.10")])
    by (first [left; vm_compute; reflexivity | right; vm_compute; reflexivity]).
  destruct E as [E|E]; rewrite E in Hk; destruct Hk as [Hk|[Hk|[]]]; apply (f_equal snd) in Hk; cbn [snd] in Hk;
    first [left; exact (eq_sym Hk) | right; exact (eq_sym Hk)].
Qed.

Lemma rediscover_stable_witness :
  bState bob_lease = "active"
  /\ Allocate digest 1200 book "lan" bob "02:00:00:00:00:0b" "host" "10.0.0.12" false two_leases = (two_leases, Ok bob_lease).
Proof.
  split; [vm_compute; reflexivity|].
  apply (rediscover_stable digest 1200 book "lan" bob "02:00:00:00:00:0b" "host" "10.0.0.12" two_leases lan "02:00:00:00:00:0b"
    bob_lease book_valid two_ok);
    [vm_compute; reflexivity|vm_compute; exact I|vm_compute; reflexivity|].
  split; [vm_compute; reflexivity|]. do 3 (split; [vm_compute; reflexivity|]).
  intros d Hd _ Hcl _. apply two_stored in Hd as [-> | ->]; [vm_compute in Hcl; congruence|reflexivity].
Defined.

Lemma expire_exact_witness :
  over 9000 bob_lease = true
  /\ ledger_ok (Expire 9000 two_leases)
  /\ forall key, bindings (Expire 9000 two_leases) !! key
     = (fun b => if over 9000 b then with_state "expired" (End_ b) b else b) <$> bindings two_leases !! key.
Proof.
  split; [vm_compute; reflexivity|]. apply (expire_exact 9000 two_leases two_ok). apply Nat.leb_le. vm_compute. reflexivity.
Defined.

(** * Delegation, reports and a standby *)

Definition pd6 : PDConfig := mkPD "2001:db8:f000::/48" 56 true.
Definition carol : string := "duid:00010001aa/iaid:00000001".

Lemma prefix_enumeration_witness :
  find_scope book "lan6" = Some lan6
  /\ forall p, inPool (must_prefix (pdPrefix pd6)) (Length pd6) p = true
       <-> exists i, 0 <= i < poolSize (must_prefix (pdPrefix pd6)) (Length pd6) /\ p = prefixAt (must_prefix (pdPrefix pd6)) (Length pd6) i.
Proof.
  split; [vm_compute; reflexivity|]. apply (prefix_enumeration book "lan6" lan6 pd6 book_valid); vm_compute; reflexivity.
Defined.

Definition carol_prefix : ledger * result alloc_error Binding :=
  AllocatePrefix digest 1000 lan6 pd6 carol "00010001aa" EmptyString "fe80::1" true two_leases.


Lemma delegation_finds_witness :
  exists l' b, AllocatePrefix digest 1000 lan6 pd6 carol "00010001aa" EmptyString "fe80::1" true two_leases = (l', Ok b).
Proof.
  apply (delegation_finds digest 1000 book "lan6" lan6 pd6 book_valid ltac:(vm_compute; reflexivity) ltac:(vm_compute; reflexivity)
    carol "00010001aa" EmptyString "fe80::1" true two_leases (must_prefix "2001:db8:f000:100::/56")); vm_compute; reflexivity.
Defined.

(** A routing tool that keeps a table. *)
Definition table : Type := gmap string route.
Definition show_table (k : table) : result string table := Ok k.
Definition run_table (args : list string) (k : table) : table * result string unit :=
  match args with
  | [_; _; _; p; _; v; _; d; _; _] => (<[p := mkRoute v d]> k, Ok tt)
  | [_; _; _; p; _; _; _; _] => (delete p k, Ok tt)
  | _ => (k, Err "usage")
  end.
#[local] Instance table_tool : RoutingTool show_table run_table.
Proof.
  split.
  - intros k k' m p [v d] E Hr. apply Ok_inj in E as ->. cbn in Hr. by injection Hr as <-.
  - intros k k' m p [v d] E _ Hr. apply Ok_inj in E as ->. cbn in Hr. by injection Hr as <-.
Qed.

Definition routing_book : ledger := fst carol_prefix.
Definition stale : table := {["2001:db8:f000:500::/56" := mkRoute "fe80::5" "eth0"]}.

Lemma routes_converge_witness :
  exists snap, take_snapshot 1100 EmptyString EmptyString 0 routing_book = Ok snap
  /\ show_table (fst (ReconcileRoutes show_table run_table 1100 book routing_book stale)) = Ok (wanted book (sBindings snap)).
Proof.
  apply (routes_converge show_table run_table 1100 book routing_book stale); [exact table_tool|vm_compute; reflexivity].
Defined.

(** Bob's machine reports itself. *)
Definition bobs_host : Node :=
  mkNode "node-b" "bob.tail.example" [] [mkInterfaceReport "02:00:00:00:00:0b" ["10.0.0.11"]] 0.
Definition bobs_report : ledger * result string (list Binding) := Report digest 1200 book bobs_host two_leases.
Definition joined_by (r : ledger * result string (list Binding)) : list Binding := match snd r with Ok bs => bs | Err _ => [] end.

Lemma report_sound_witness :
  map Address (joined_by bobs_report) = ["10.0.0.11"]
  /\ (exists d, evidence digest 1200 book two_leases bobs_host d /\ Address (hd no_binding (joined_by bobs_report)) = Address d)
  /\ nodes (fst bobs_report) !! "node-b" = Some (mkNode "node-b" "bob.tail.example" [] (Interfaces bobs_host) 1200).
Proof.
  split; [vm_compute; reflexivity|].
  destruct (report_sound digest 1200 book two_leases bobs_host two_ok) with (l' := fst bobs_report) (r := @Ok string _ (joined_by bobs_report))
    as (Hj & _ & Hn).
  - intros i ip Hi Hip. apply list_elem_of_singleton in Hi as ->. apply list_elem_of_singleton in Hip as ->.
    vm_compute. reflexivity.
  - vm_compute. reflexivity.
  - destruct (Hj (hd no_binding (joined_by bobs_report))) as (_ & (d & Hd & _ & Ha & _) & _).
    { apply list_elem_of_In. vm_compute. left. reflexivity. }
    split; [exists d; exact (conj Hd Ha)|]. rewrite Hn. vm_compute. reflexivity.
Defined.

(** An empty standby reads the log of the two leases. *)
Definition page : list Event := match Events 0 1000 two_leases with Ok es => es | Err _ => [] end.
Definition standby : ledger := fst (ApplyReplicated 5000 page None empty_ledger).

Lemma subjects_check es : forallb (fun e => match eObservation e with None => true | Some _ => false end) es = true -> Forall one_subject es.
Proof.
  rewrite forallb_forall, Forall_forall. intros H e He%list_elem_of_In. left. specialize (H e He). by destruct (eObservation e).
Qed.

Lemma replica_converges_witness :
  length page = 2%nat /\ replicates two_leases 2 standby.
Proof.
  split; [vm_compute; reflexivity|].
  apply (replica_converges two_leases empty_ledger standby 0 1000 page None 5000 2 (ok_wf _ two_ok)).
  - apply subjects_check. vm_compute. reflexivity.
  - vm_compute. reflexivity.
  - split; vm_compute; reflexivity.
  - vm_compute. reflexivity.
  - vm_compute. reflexivity.
Defined.

(** The standby's log carries its own clock: asked about a moment before it replicated, it
    knows of no lease, while the authority does. *)
Lemma replicated_history_shifts :
  length (sBindings (snap_at 6000 two_leases)) = 1%nat /\ sBindings (snap_at 6000 standby) = [].
Proof. split; vm_compute; reflexivity. Qed.

(** * What validation lets through *)

(** A scope whose prefix pool covers the subnet of a later scope is accepted; in the other
    order the same two scopes are refused. *)
Definition delegating : Scope :=
  mkScope "wide" "eth1" "2001:db8:aaaa::/64" "2001:db8:aaaa::1" "2001:db8:aaaa::100" "2001:db8:aaaa::1ff" EmptyString
    "wide.example" 3600 true [] 1800 None None None [] [] (Some (mkPD "2001:db8::/40" 56 false)).

Lemma pd_overlap_depends_on_order :
  Validate (mkConfig [delegating; lan6] [] None) = Ok tt
  /\ is_ok (Validate (mkConfig [lan6; delegating] [] None)) = false.
Proof. split; vm_compute; reflexivity. Qed.

(** The server's own address and a reservation, both inside the pool and spelled with
    capitals: the configuration is accepted, and two strangers are leased both. *)
Definition dave : string := "duid:00010001bb/iaid:00000001".
Definition shouting : Scope :=
  mkScope "lan6" "eth0" "2001:db8:1::/64" "2001:DB8:1::100" "2001:db8:1::100" "2001:db8:1::1ff" EmptyString "lan.example" 3600
    true [mkReservation "duid:00010001cc/iaid:00000001" "2001:DB8:1::101" "printer"] 1800 None None None [] [] None.
Definition shouting_book : Config := mkConfig [shouting] [printer] None.

Definition granted (c : Config) (client : string) (l : ledger) : ledger * string :=
  let r := Allocate digest 1000 c "lan6" client EmptyString EmptyString EmptyString false l in
  (fst r, match snd r with Ok b => Address b | Err _ => EmptyString end).

Lemma spelling_escapes_protection :
  Validate shouting_book = Ok tt
  /\ ParseAddr (sServer shouting) = ParseAddr "2001:db8:1::100"
  /\ snd (granted shouting_book carol empty_ledger) = "2001:db8:1::100"
  /\ snd (granted shouting_book dave (fst (granted shouting_book carol empty_ledger))) = "2001:db8:1::101".
Proof. split_and!; vm_compute; reflexivity. Qed.

(** Rebuilding a missing name index publishes a delegated prefix, which save never does. *)
Definition delegation : Binding :=
  mkBinding "00010001aa" EmptyString 4600 "lan6" "2001:db8:f000::/56" carol EmptyString "router" "router" EmptyString "active"
    originPD 1000 4600 EmptyString EmptyString EmptyString.
Definition delegated_ledger : ledger := save 1000 delegation "grant" empty_ledger.

Lemma rebuilt_index_names_prefix :
  DNSBindings 1100 "lan6" "router" EmptyString delegated_ledger = []
  /\ DNSBindings 1100 "lan6" "router" EmptyString (Open_ true true false delegated_ledger) = [delegation].
Proof. split; vm_compute; reflexivity. Qed.

End BookExample.
