(* ===== verification/Dnsmasq.v ===== *)
(** internal/addressbook/dnsmasq.go: dnsmasq's lease file, read at a takeover and written back
    by a rollback.

    Bytes above 127 are taken to be parts of words when a line is split.  SHA-256 is a
    parameter, as in Allocate.v. *)

From S2P Require Import Prelude NetAddr Ledger Config LeaseImport.
From Stdlib Require Import Ascii.
Local Open Scope Z_scope.

(** The unit and the files a takeover is about (legacy.go). *)
Record LegacySpec := mkSpec { Unit : string; ConfigPath : string; LeasePath : string }.

(** strconv.ParseInt(s, 10, 64) *)
Definition ParseInt64 (s : string) : option Z :=
  let '(neg, digits) :=
    match s with
    | String c r => if Ascii.eqb c "-" then (true, r) else if Ascii.eqb c "+" then (false, r) else (false, s)
    | EmptyString => (false, s)
    end in
  n ← ParseUint digits 64;
  if neg : bool then (if n <=? 2^63 then Some (- n) else None)
  else if n <? 2^63 then Some n else None.

(** strconv.ParseUint(s, 16, bits) *)
Fixpoint hex_number (acc : Z) (l : list ascii) : option Z :=
  match l with
  | [] => Some acc
  | c :: l' => d ← hex_val c; hex_number (acc * 16 + d) l'
  end.
Definition ParseHex (s : string) (bits : Z) : option Z :=
  if is_empty s then None
  else n ← hex_number 0 (string_chars s); if n <? 2 ^ bits then Some n else None.

(** [%08x] of a 32-bit number *)
Definition hex8 (n : Z) : string :=
  string_of_chars (map (fun i => hex_char (Z.shiftr n (4 * i) mod 16)) [7; 6; 5; 4; 3; 2; 1; 0]).

(** * ParseDNSmasq *)

(** The scope whose subnet holds the address; more than one, or none, is an error. *)
Definition match_scope (ip : Addr) (found : string) (s : Scope) : result string string :=
  match ParsePrefix (Subnet s) with
  | None => Err "invalid subnet"                      (* MustParsePrefix: Validate has parsed it *)
  | Some p => if Contains p ip then fail_if (negb (is_empty found)) "ambiguous lease scope";; Ok (sID s)
              else Ok found
  end.

Definition parse_lease (c : Config) (expiry_text hw address name client : string) : result string ImportedLease :=
  match ParseAddr address with
  | None => Err ("ParseAddr(" +++ quote address +++ "): unable to parse IP")
  | Some ip =>
    match ParseInt64 expiry_text with
    | None => Err "invalid lease expiry"
    | Some expiry =>
      fail_if (expiry <? 0) "invalid lease expiry";;
      let host := if name =?s "*" then EmptyString else name in
      scope ← fold_m (match_scope ip) EmptyString (Scopes c);
      fail_if (is_empty scope) ("lease " +++ AddrString ip +++ " has no declared scope");;
      if Is6 ip then
        match ParseUint hw 32 with
        | None => Err "unsupported DHCPv6 IAID (temporary addresses are not IA_NA)"
        | Some iaid => Ok (mkImported (remove_char ":" client) (hex8 iaid) scope (AddrString ip) EmptyString EmptyString host expiry)
        end
      else Ok (mkImported EmptyString EmptyString scope (AddrString ip) hw client host expiry)
    end
  end.

Definition parse_line (c : Config) (doc : ImportDocument_) (numbered : nat * string) : result string ImportDocument_ :=
  match fields (snd numbered) with
  | [] => Ok doc
  | [f0; f1] => if f0 =?s "duid" then Ok (mkDocument (Leases doc) (remove_char ":" f1))
                else Err ("lease line " +++ pretty (S (fst numbered)) +++ ": expected five fields")
  | [f0; f1; f2; f3; f4] => i ← parse_lease c f0 f1 f2 f3 f4; Ok (mkDocument (Leases doc ++ [i]) (docDUID doc))
  | _ => Err ("lease line " +++ pretty (S (fst numbered)) +++ ": expected five fields")
  end.

Definition ParseDNSmasq (c : Config) (text : string) : result string ImportDocument_ :=
  fold_m (parse_line c) (mkDocument [] EmptyString) (imap pair (split_char "010" text)).

(** * ExportDNSmasq *)

(** The loop of colonHex: a trailing odd byte is left out. *)
Fixpoint hex_fields (l : list ascii) : list string :=
  match l with
  | a :: b :: l' => String a (String b EmptyString) :: hex_fields l'
  | _ => []
  end.
Definition colonHex (value : string) : string := join ":" (hex_fields (string_chars value)).

Section Lines.
Context (sha256_hex : string -> string).

(** A binding that has a line in the lease file. *)
Definition has_line (b : Binding) : bool :=
  liveState (bState b) && negb ((Origin b =?s "neighbor-report") || (Origin b =?s originPD)).

Definition line_expiry (b : Binding) : Z := if End_ b =? forever then 0 else End_ b.
Definition line_name (b : Binding) : string := if labelPattern (Name b) then Name b else "*".

(** The identity of the line: the client's own, or the marker of a quarantined address. *)
Definition line_duid (b : Binding) : string :=
  if bState b =?s "declined" then marker_duid sha256_hex (bScope b) (Address b) else DUID b.
Definition line_mac (b : Binding) : string := if bState b =?s "declined" then marker_mac else MAC b.
Definition line_client (b : Binding) : string :=
  if bState b =?s "declined" then "ff:" +++ colonHex (hex_of (Address b))
  else if has_prefix (Client b) "id:" then colonHex (trim_prefix (Client b) "id:") else "*".

Definition export_line (b : Binding) : result string string :=
  match ParseAddr (Address b) with
  | None => Err ("ParseAddr(" +++ quote (Address b) +++ "): unable to parse IP")
  | Some ip =>
    if Is6 ip then
      match ParseHex (IAID b) 32 with
      | None => Err ("strconv.ParseUint: parsing " +++ quote (IAID b))
      | Some iaid => Ok (join " " [pretty (line_expiry b); pretty iaid; Address b; line_name b; colonHex (line_duid b)])
      end
    else Ok (join " " [pretty (line_expiry b); line_mac b; Address b; line_name b; line_client b])
  end.

Definition ExportDNSmasq (snap : Snapshot) : result string string :=
  lines ← fold_m (fun lines b => if has_line b then line ← export_line b; Ok (lines ++ [line]) else Ok lines)
            (if is_empty (ServerDUID snap) then [] else ["duid " +++ colonHex (ServerDUID snap)]) (sBindings snap);
  Ok (join newline lines +++ newline).

End Lines.
