(* ===== verification/LeaseText.v ===== *)
(** The texts of dnsmasq's lease file read back: numbers, hexadecimal identities, words and
    lines. *)

From S2P Require Import Prelude NetAddr Ledger LedgerInv Config KeyText AddrText Allocate LeaseImport Dnsmasq.
From Stdlib Require Import Ascii.
Local Open Scope Z_scope.

(** * Decimal numbers *)

Definition decimal_value (acc : Z) (l : list ascii) : Z := fold_left (fun acc c => 10 * acc + (byte_of c - 48)) l acc.

Lemma pretty_digit n : (n < 10)%N -> is_digit (pretty_N_char n) = true /\ byte_of (pretty_N_char n) - 48 = Z.of_N n.
Proof.
  intros Hn. pose proof (below_cases (fun k => is_digit (pretty_N_char (Z.to_N k)) && (byte_of (pretty_N_char (Z.to_N k)) - 48 =? k)) 10
    ltac:(vm_compute; reflexivity) (Z.of_N n) ltac:(lia)) as H. cbn beta in H. rewrite N2Z.id in H. bool_hyps. done.
Qed.

Lemma pretty_go_read n s : (0 < n)%N -> exists cs, string_chars (pretty_N_go n s) = cs ++ string_chars s
  /\ forallb is_digit cs = true /\ cs <> [] /\ decimal_value 0 cs = Z.of_N n.
Proof.
  revert s. induction (N.lt_wf_0 n) as [n _ IH]. intros s Hn. rewrite pretty_N_go_step by done.
  pose proof (N.mod_lt n 10 ltac:(lia)) as Hm. destruct (pretty_digit _ Hm) as [Hd Hv].
  destruct (decide (n `div` 10 = 0)%N) as [E|E].
  - rewrite E, pretty_N_go_0. exists [pretty_N_char (n `mod` 10)%N]. cbn [string_chars forallb decimal_value fold_left].
    split_and!; [done|by rewrite Hd|done|]. rewrite Hv. apply N.div_small_iff in E; [|done]. by rewrite N.mod_small.
  - destruct (IH (n `div` 10)%N ltac:(by apply N.div_lt) (String (pretty_N_char (n `mod` 10)%N) s) ltac:(by apply N.neq_0_lt_0)) as (cs & E1 & E2 & E3 & E4).
    exists (cs ++ [pretty_N_char (n `mod` 10)%N]). rewrite E1, <-app_assoc. split; [done|].
    rewrite forallb_app, E2. cbn [forallb]. rewrite Hd. split; [done|]. split; [by destruct cs|].
    unfold decimal_value in *. rewrite fold_left_app, E4. cbn [fold_left]. rewrite Hv, <-N2Z.inj_mul with (n := 10%N), <-N2Z.inj_add. f_equal. symmetry. apply N.div_mod'.
Qed.

Lemma pretty_read z : 0 <= z -> forallb is_digit (string_chars (pretty z)) = true /\ is_empty (pretty z) = false
  /\ decimal_value 0 (string_chars (pretty z)) = z.
Proof.
  intros Hz. destruct z as [|p|p]; [done| |lia]. change (pretty (Z.pos p)) with (pretty_N (N.pos p)). unfold pretty_N.
  destruct (decide (N.pos p = 0)%N) as [E|E]; [done|].
  destruct (pretty_go_read (N.pos p) EmptyString ltac:(lia)) as (cs & E1 & E2 & E3 & E4).
  cbn [string_chars] in E1. rewrite app_nil_r in E1. rewrite E1. split; [done|].
  split; [|done]. destruct (pretty_N_go (N.pos p) EmptyString); [by rewrite <-E1 in E3|done].
Qed.

Lemma ParseUint_pretty z bits : 0 <= z < 2 ^ bits -> ParseUint (pretty z) bits = Some z.
Proof.
  intros Hz. destruct (pretty_read z ltac:(lia)) as (H1 & H2 & H3). unfold ParseUint, str_forallb. rewrite H1, H2. cbn [negb andb].
  unfold decimal_value in H3. rewrite H3. by replace (z <? 2 ^ bits) with true by (symmetry; apply Z.ltb_lt; lia).
Qed.

Lemma ParseInt64_pretty z : 0 <= z < 2 ^ 63 -> ParseInt64 (pretty z) = Some z.
Proof.
  intros Hz. destruct (pretty_read z ltac:(lia)) as (H1 & H2 & _). pose proof (ParseUint_pretty z 64 ltac:(lia)) as Hu.
  unfold ParseInt64. destruct (pretty z) as [|c r] eqn:E; [done|]. cbn [string_chars forallb] in H1. apply andb_prop in H1 as [Hc _].
  assert (Ascii.eqb c "-" = false /\ Ascii.eqb c "+" = false) as [-> ->].
  { split; apply Ascii.eqb_neq; intros ->; by vm_compute in Hc. }
  rewrite Hu. cbn [mbind option_bind]. by replace (z <? 2 ^ 63) with true by (symmetry; apply Z.ltb_lt; lia).
Qed.

(** * Hexadecimal *)

Lemma hex_char_val c d : hex_lower_char c = true -> hex_val c = Some d -> hex_char d = c.
Proof.
  intros Hc Hd. assert (H : forall k, 0 <= k < 256 -> (let c := ascii_of_nat (Z.to_nat k) in negb (hex_lower_char c) ||
    match hex_val c with Some d => Ascii.eqb (hex_char d) c | None => true end) = true).
  { apply (below_cases _ 256). vm_compute. reflexivity. }
  specialize (H (byte_of c)). unfold byte_of in H. rewrite Nat2Z.id, ascii_nat_embedding in H. pose proof (nat_ascii_bounded c).
  cbv zeta in H. rewrite Hc, Hd in H. apply Ascii.eqb_eq, H. lia.
Qed.

Lemma hex_lower_val c : hex_lower_char c = true -> exists d, hex_val c = Some d.
Proof.
  unfold hex_lower_char, hex_val. intros [->|H]%orb_true_iff; [eauto|]. rewrite H. destruct (is_digit c); eauto.
Qed.

Definition hex_digits (k : nat) (n : Z) : list ascii :=
  map (fun i => hex_char (Z.shiftr n (4 * Z.of_nat i) mod 16)) (rev (seq 0 k)).

Lemma hex_digits_snoc k v d : 0 <= v -> 0 <= d < 16 -> hex_digits (S k) (v * 16 + d) = hex_digits k v ++ [hex_char d].
Proof.
  intros Hv Hd. unfold hex_digits. cbn [seq rev]. rewrite map_app. f_equal.
  - rewrite <-seq_shift, <-map_rev, map_map. apply map_ext. intros i. f_equal.
    replace (4 * Z.of_nat (S i)) with (4 + 4 * Z.of_nat i) by lia. rewrite <-Z.shiftr_shiftr by lia. do 2 f_equal.
    rewrite Z.shiftr_div_pow2 by lia. change (2 ^ 4) with 16. rewrite Z.div_add_l by lia. rewrite Z.div_small by lia. lia.
  - cbn [map]. do 2 f_equal. cbn [Z.of_nat Z.mul]. rewrite Z.shiftr_0_r, Z.add_comm, Z.mod_add by lia. apply Z.mod_small. lia.
Qed.

(** Reading [k] lowercase digits and printing them to the same width gives them back. *)
Lemma hex_number_printed l acc : 0 <= acc -> forallb hex_lower_char l = true ->
  exists n, hex_number acc l = Some n /\ 0 <= n < (acc + 1) * 16 ^ Z.of_nat (length l)
  /\ forall k, hex_digits (k + length l) n = hex_digits k acc ++ l.
Proof.
  revert acc. induction l as [|c l IH]; intros acc Ha Hl.
  - exists acc. cbn. split_and!; [done|lia|lia|]. intros k. by rewrite Nat.add_0_r, app_nil_r.
  - cbn [forallb] in Hl. apply andb_prop in Hl as [Hc Hl]. destruct (hex_lower_val _ Hc) as [d Hd].
    pose proof (hex_val_range _ _ Hd). destruct (IH (acc * 16 + d) ltac:(lia) Hl) as (n & E1 & E2 & E3).
    exists n. cbn [hex_number]. rewrite Hd. cbn [mbind option_bind]. split; [done|]. split.
    + cbn [length]. rewrite Nat2Z.inj_succ, Z.pow_succ_r by lia. split; [lia|]. pose proof (Z.pow_pos_nonneg 16 (Z.of_nat (length l))).
      nia.
    + intros k. cbn [length]. replace (k + S (length l))%nat with (S k + length l)%nat by lia.
      rewrite E3, hex_digits_snoc by lia. by rewrite <-app_assoc, (hex_char_val c d).
Qed.

Lemma hex8_read s : String.length s = 8%nat -> str_forallb hex_lower_char s = true ->
  exists n, ParseHex s 32 = Some n /\ 0 <= n < 2 ^ 32 /\ hex8 n = s.
Proof.
  intros Hl Hs. destruct (hex_number_printed (string_chars s) 0 ltac:(lia) Hs) as (n & E1 & E2 & E3).
  assert (Hlen : length (string_chars s) = 8%nat) by (rewrite <-Hl; clear; induction s; cbn; congruence).
  rewrite Hlen in E2. change ((0 + 1) * 16 ^ Z.of_nat 8) with (2 ^ 32) in E2.
  specialize (E3 0%nat). rewrite Hlen in E3. cbn [Nat.add] in E3. exists n. unfold ParseHex.
  destruct s as [|c s]; [done|]. cbn [is_empty]. rewrite E1. cbn [mbind option_bind].
  replace (n <? 2 ^ 32) with true by (symmetry; apply Z.ltb_lt; lia). split; [done|]. split; [done|].
  rewrite <-(of_chars_string (String c s)). change (hex_digits 0 0 ++ string_chars (String c s)) with (string_chars (String c s)) in E3.
  by rewrite <-E3.
Qed.

Definition no_char (c : ascii) (s : string) : bool := negb (contains_char c s).

Lemma remove_char_app c a b : remove_char c (a +++ b) = remove_char c a +++ remove_char c b.
Proof.
  unfold remove_char. rewrite chars_app. induction (string_chars a) as [|x l IH]; [done|]. cbn [app List.filter].
  destruct (negb _); [|done]. cbn [string_of_chars String.append]. by rewrite IH.
Qed.

Lemma remove_char_none c p s : p c = false -> str_forallb p s = true -> remove_char c s = s.
Proof.
  intros Hp Hs. unfold remove_char. rewrite <-(of_chars_string s) at 2. f_equal. unfold str_forallb in Hs.
  induction (string_chars s) as [|x l IH]; [done|]. cbn [forallb] in Hs. apply andb_prop in Hs as [Hx Hl]. cbn [List.filter].
  destruct (Ascii.eqb_spec x c) as [->|]; [congruence|]. cbn [negb]. by rewrite IH.
Qed.

Lemma lower_char_hex c : hex_lower_char c = true -> lower_char c = c.
Proof.
  intros H. unfold lower_char, is_upper, in_range. unfold hex_lower_char, is_digit, in_range in H.
  destruct ((65 <=? byte_of c) && (byte_of c <=? 90)) eqn:E; [|done]. bool_hyps. apply orb_true_iff in H as [H|H]; bool_hyps; lia.
Qed.

Lemma to_lower_hex s : str_forallb hex_lower_char s = true -> to_lower s = s.
Proof.
  intros Hs. unfold to_lower. rewrite <-(of_chars_string s) at 2. f_equal. unfold str_forallb in Hs.
  induction (string_chars s) as [|x l IH]; [done|]. cbn [forallb] in Hs. apply andb_prop in Hs as [Hx Hl]. cbn [map].
  by rewrite lower_char_hex, IH.
Qed.

(** Pairs of digits joined by colons, and the colons taken out again. *)
Lemma hex_fields_read l : Nat.even (length l) = true -> forallb hex_lower_char l = true ->
  remove_char ":" (join ":" (hex_fields l)) = string_of_chars l.
Proof.
  remember (length l) as n eqn:En. revert l En. induction (lt_wf n) as [n _ IH]. intros l -> He Hl.
  destruct l as [|a [|b l]]; [done|done|]. cbn [forallb] in Hl. bool_hyps. cbn [hex_fields].
  assert (IHl : remove_char ":" (join ":" (hex_fields l)) = string_of_chars l) by (eapply IH; [|reflexivity|done|done]; cbn; lia).
  assert (Hab : remove_char ":" (String a (String b EmptyString)) = String a (String b EmptyString)).
  { apply (remove_char_none _ hex_lower_char); [done|]. unfold str_forallb. cbn [string_chars forallb].
    rewrite H, H0. done. }
  destruct (hex_fields l) as [|f fs] eqn:Ef.
  - cbn [join] in *. rewrite Hab. cbn [string_of_chars]. rewrite <-IHl. done.
  - change (join ":" (String a (String b EmptyString) :: f :: fs)) with (String a (String b EmptyString) +++ ":" +++ join ":" (f :: fs)).
    rewrite !remove_char_app, Hab, IHl. done.
Qed.

Definition hex_text (s : string) : Prop := Nat.even (String.length s) = true /\ str_forallb hex_lower_char s = true.

Lemma colonHex_read s : hex_text s -> remove_char ":" (colonHex s) = s.
Proof. intros [He Hs]. unfold colonHex. rewrite hex_fields_read; [apply of_chars_string|by rewrite chars_length|done]. Qed.

(** * Words and lines *)

Definition word (s : string) : bool := negb (is_empty s) && str_forallb (fun c => negb (go_space c)) s.

Lemma fields_word cur s rest : str_forallb (fun c => negb (go_space c)) s = true ->
  fields_go cur (string_chars s ++ rest) = fields_go (rev (string_chars s) ++ cur) rest.
Proof.
  revert cur. unfold str_forallb. induction (string_chars s) as [|c l IH]; intros cur Hs; [done|]. cbn [forallb] in Hs.
  apply andb_prop in Hs as [Hc Hl]. apply negb_true_iff in Hc. cbn [app fields_go rev]. rewrite Hc, IH by done. by rewrite <-app_assoc.
Qed.

Lemma fields_cut s rest : word s = true -> fields_go [] (string_chars s ++ " "%char :: rest) = s :: fields_go [] rest.
Proof.
  intros [He Hs]%andb_prop. rewrite fields_word, app_nil_r by done. cbn [fields_go].
  replace (go_space " ") with true by reflexivity. destruct (rev (string_chars s)) as [|c l] eqn:E.
  - apply (f_equal (@rev ascii)) in E. rewrite rev_involutive in E. by destruct s.
  - rewrite <-E, rev_involutive, of_chars_string. done.
Qed.

Lemma fields_last s : word s = true -> fields_go [] (string_chars s) = [s].
Proof.
  intros [He Hs]%andb_prop. rewrite <-(app_nil_r (string_chars s)), fields_word, app_nil_r by done. cbn [fields_go].
  destruct (rev (string_chars s)) as [|c l] eqn:E.
  - apply (f_equal (@rev ascii)) in E. rewrite rev_involutive in E. by destruct s.
  - by rewrite <-E, rev_involutive, of_chars_string.
Qed.

Lemma fields_join ws : Forall (fun w => word w = true) ws -> fields (join " " ws) = ws.
Proof.
  unfold fields. induction 1 as [|w ws Hw Hws IH]; [done|]. destruct ws as [|w' ws]; [by apply fields_last|].
  change (join " " (w :: w' :: ws)) with (w +++ " " +++ join " " (w' :: ws)). rewrite !chars_app.
  change (string_chars " " ++ string_chars (join " " (w' :: ws))) with (" "%char :: string_chars (join " " (w' :: ws))).
  by rewrite fields_cut, IH.
Qed.

Lemma word_text p s : (forall c, p c = true -> go_space c = false) -> is_empty s = false -> str_forallb p s = true -> word s = true.
Proof.
  intros Hp He Hs. unfold word. rewrite He. cbn [negb andb]. eapply str_forallb_weaken; [|exact Hs]. intros c Hc. by rewrite Hp.
Qed.

Lemma word_no_newline s : word s = true -> contains_char "010" s = false.
Proof. intros [_ Hs]%andb_prop. unfold contains_char. by apply (forallb_no_char _ (fun c => negb (go_space c))). Qed.

Lemma line_no_newline ws : Forall (fun w => word w = true) ws -> contains_char "010" (join " " ws) = false.
Proof.
  unfold contains_char. induction 1 as [|w ws Hw Hws IH]; [done|]. apply word_no_newline in Hw. unfold contains_char in Hw.
  destruct ws as [|w' ws]; [done|].
  change (join " " (w :: w' :: ws)) with (w +++ " " +++ join " " (w' :: ws)). by rewrite !chars_app, !existsb_app, Hw, IH.
Qed.

Lemma split_lines ls : Forall (fun l => contains_char "010" l = false) ls ->
  split_char "010" (join newline ls +++ newline) = (if ls is [] then [EmptyString] else ls) ++ [EmptyString].
Proof.
  unfold newline. induction 1 as [|l ls Hl Hls IH]; [done|]. destruct ls as [|l' ls].
  - cbn [join]. rewrite split_char_cut by done. done.
  - change (join (String "010" EmptyString) (l :: l' :: ls)) with (l +++ String "010" (join (String "010" EmptyString) (l' :: ls))).
    rewrite append_assoc. cbn [String.append]. rewrite split_char_cut by done. by rewrite IH.
Qed.

(** * Client identifiers *)

Lemma all_bytes (P : ascii -> bool) : forallb (fun k => P (ascii_of_nat k)) (seq 0 256) = true -> forall c, P c = true.
Proof.
  rewrite forallb_forall. intros H c. rewrite <-(ascii_nat_embedding c). apply H. apply in_seq. pose proof (nat_ascii_bounded c). lia.
Qed.

Lemma lower_fixed c : is_hex c = true -> lower_char c = c -> hex_lower_char c = true.
Proof.
  intros Hx Hl. pose proof (all_bytes (fun c => negb (is_hex c) || negb (Ascii.eqb (lower_char c) c) || hex_lower_char c)
    ltac:(vm_compute; reflexivity) c) as H. cbn beta in H. by rewrite Hx, Hl, Ascii.eqb_refl in H.
Qed.

Lemma lower_fixed_text s : str_forallb is_hex s = true -> map lower_char (string_chars s) = string_chars s ->
  str_forallb hex_lower_char s = true.
Proof.
  unfold str_forallb. induction (string_chars s) as [|x l IH]; [done|]. cbn [forallb map]. intros [Hx Hl]%andb_prop [= E1 E2].
  by rewrite lower_fixed, IH.
Qed.

(** The two halves of an IPv6 client identifier. *)
Lemma duid_client client d i : validClient client = true -> has_prefix client "duid:" = true -> duid_parts client = (d, i) ->
  client = "duid:" +++ d +++ "/iaid:" +++ i /\ hex_text d /\ (4 <= String.length d <= 256)%nat
  /\ String.length i = 8%nat /\ str_forallb hex_lower_char i = true.
Proof.
  unfold validClient, duid_parts. intros H Hp. rewrite Hp in H. apply trim_prefix_eq in Hp.
  set (v := trim_prefix client "duid:") in *. destruct (Split v "/iaid:") as [|d' [|i' [|]]] eqn:Es; try done. intros [= -> ->].
  unfold hex_decodes in H. bool_hyps. rewrite Nat.leb_le, Nat.eqb_eq in *.
  pose proof (split_str_join (S (String.length v)) "/iaid:" v EmptyString) as Hj. unfold Split in Es. rewrite Es in Hj.
  change (d +++ "/iaid:" +++ i = v) in Hj. rewrite <-Hj in Hp. split; [done|].
  assert (Hl : map lower_char (string_chars client) = string_chars client).
  { match goal with H : to_lower _ = _ |- _ => unfold to_lower in H; apply (f_equal string_chars) in H; by rewrite chars_of_chars in H end. }
  rewrite Hp, !chars_app, !map_app in Hl. apply app_inj_1 in Hl as [_ Hl]; [|done].
  apply app_inj_1 in Hl as [Hd Hl]; [|by rewrite length_map]. apply app_inj_1 in Hl as [_ Hi]; [|done].
  split_and!; [split; [done|]|done..|]; by apply lower_fixed_text.
Qed.

(** Splitting at a separator whose first byte does not occur in the fields. *)
Lemma split_str_none c sep fuel x acc : contains_char c x = false -> split_str fuel (String c sep) x acc = [acc +++ x].
Proof.
  revert x acc. induction fuel as [|fuel IH]; intros x acc Hx; [done|]. cbn [split_str]. destruct x as [|y x].
  - cbn. by rewrite append_empty_r.
  - rewrite contains_cons in Hx. apply orb_false_elim in Hx as [Hy Hx]. cbn [strip_prefix]. rewrite Hy, IH, append_assoc by done. done.
Qed.

Lemma split_str_cut c sep fuel d i acc : contains_char c d = false -> (String.length d < fuel)%nat ->
  split_str fuel (String c sep) (d +++ String c sep +++ i) acc
  = (acc +++ d) :: split_str (fuel - S (String.length d)) (String c sep) i EmptyString.
Proof.
  revert fuel acc. induction d as [|y d IH]; intros fuel acc Hd Hf; destruct fuel as [|fuel]; try (cbn in Hf; lia).
  - rewrite append_empty_r. change (EmptyString +++ String c sep +++ i) with (String c sep +++ i). cbn [split_str].
    rewrite strip_prefix_append. cbn. by rewrite Nat.sub_0_r.
  - rewrite contains_cons in Hd. apply orb_false_elim in Hd as [Hy Hd]. change (String y d +++ String c sep +++ i) with (String y (d +++ String c sep +++ i)).
    cbn [split_str strip_prefix]. rewrite Hy, IH by (done || cbn in Hf; lia). by rewrite append_assoc.
Qed.

Lemma hex_no_slash s : str_forallb hex_lower_char s = true -> contains_char "/" s = false.
Proof. intros Hs. unfold contains_char. by apply (forallb_no_char _ hex_lower_char). Qed.

Lemma split_duid d i : str_forallb hex_lower_char d = true -> str_forallb hex_lower_char i = true ->
  Split (d +++ "/iaid:" +++ i) "/iaid:" = [d; i].
Proof.
  intros Hd%hex_no_slash Hi%hex_no_slash. unfold Split. rewrite split_str_cut, split_str_none; [done..|].
  rewrite append_length. lia.
Qed.

Lemma hex_lower_hex c : hex_lower_char c = true -> is_hex c = true.
Proof. intros (d & E)%hex_lower_val. unfold is_hex. by rewrite E. Qed.

Lemma hex_text_decodes s : hex_text s -> hex_decodes s = true.
Proof. intros [He Hs]. unfold hex_decodes. rewrite He. eapply str_forallb_weaken; [|exact Hs]. apply hex_lower_hex. Qed.

Lemma duid_client_valid d i : hex_text d -> hex_text i -> (4 <= String.length d <= 256)%nat -> String.length i = 8%nat ->
  validClient ("duid:" +++ d +++ "/iaid:" +++ i) = true.
Proof.
  intros Hd Hi Hl Hl8. unfold validClient. change (has_prefix ("duid:" +++ d +++ "/iaid:" +++ i) "duid:") with true. cbv iota.
  change (trim_prefix ("duid:" +++ d +++ "/iaid:" +++ i) "duid:") with (d +++ "/iaid:" +++ i).
  rewrite split_duid by (apply Hd || apply Hi). rewrite !hex_text_decodes by done.
  rewrite (proj2 (Nat.leb_le _ _)), (proj2 (Nat.leb_le _ _)) by lia. rewrite Hl8. cbn [Nat.eqb andb].
  apply String.eqb_eq. rewrite !to_lower_app, (to_lower_hex d), (to_lower_hex i) by (apply Hd || apply Hi). done.
Qed.

Lemma id_client client : validClient client = true -> has_prefix client "id:" = true ->
  hex_text (trim_prefix client "id:") /\ (2 <= String.length (trim_prefix client "id:") <= 510)%nat.
Proof.
  intros H Hp. pose proof (trim_prefix_eq _ _ Hp) as E. set (v := trim_prefix client "id:") in *. clearbody v. subst client.
  change (validClient ("id:" +++ v)) with ((2 <=? String.length v)%nat && (String.length v <=? 510)%nat && Nat.even (String.length v)
    && str_forallb hex_lower_char v) in H. bool_hyps. rewrite Nat.leb_le in *. done.
Qed.

Lemma id_client_valid v : hex_text v -> (2 <= String.length v <= 510)%nat -> validClient ("id:" +++ v) = true.
Proof.
  intros [He Hs] Hl. change (validClient ("id:" +++ v)) with ((2 <=? String.length v)%nat && (String.length v <=? 510)%nat
    && Nat.even (String.length v) && str_forallb hex_lower_char v).
  by rewrite He, Hs, (proj2 (Nat.leb_le _ _)), (proj2 (Nat.leb_le _ _)) by lia.
Qed.

(** * Hardware addresses and bytes in hexadecimal *)

Lemma hex2_read x rest sep : byte_range x ->
  mac_byte sep (string_chars (hex2 x) ++ rest) = mac_byte sep (hex_char (x / 16) :: hex_char (x mod 16) :: rest)
  /\ hex_val (hex_char (x / 16)) = Some (x / 16) /\ hex_val (hex_char (x mod 16)) = Some (x mod 16).
Proof.
  intros Hx. split; [done|]. split; apply hex_val_char; [|apply Z.mod_pos_bound; lia].
  unfold byte_range in Hx. split; [apply Z.div_pos; lia|apply Z.div_lt_upper_bound; lia].
Qed.

Lemma mac_byte_read x rest : byte_range x -> mac_byte (Some ":"%char) (hex_char (x / 16) :: hex_char (x mod 16) :: rest)
  = match rest with [] => Some (x, []) | c :: rest' => if Ascii.eqb c ":" then Some (x, rest') else None end.
Proof.
  intros Hx. destruct (hex2_read x rest (Some ":"%char) Hx) as (_ & E1 & E2). cbn [mac_byte]. rewrite E1, E2.
  cbn [mbind option_bind]. replace (x / 16 * 16 + x mod 16) with x; [done|]. pose proof (Z.div_mod x 16 ltac:(lia)). lia.
Qed.

Lemma read_mac hw : length hw = 6%nat -> Forall byte_range hw -> ParseMAC (MACString hw) = Some hw.
Proof.
  intros Hl Hb. destruct hw as [|a [|b [|c [|d [|e [|f [|]]]]]]]; try done. rewrite !Forall_cons in Hb.
  destruct Hb as (Ha & Hb & Hc & Hd & He & Hf & _).
  change (ParseMAC (MACString [a; b; c; d; e; f])) with (mac_pairs 6 ":" (string_chars (MACString [a; b; c; d; e; f]))).
  change (string_chars (MACString [a; b; c; d; e; f])) with
    (flat_map (fun x => [hex_char (x / 16); hex_char (x mod 16); ":"%char]) [a; b; c; d; e] ++ [hex_char (f / 16); hex_char (f mod 16)]).
  cbn [flat_map app mac_pairs]. rewrite mac_byte_read by done. cbn [Ascii.eqb Bool.eqb mbind option_bind].
  repeat (rewrite mac_byte_read by done; cbn [Ascii.eqb Bool.eqb mbind option_bind]). done.
Qed.

Lemma hex_of_text s : hex_text (hex_of s) /\ String.length (hex_of s) = (2 * String.length s)%nat.
Proof.
  unfold hex_of, hex_text. induction s as [|x s [[He Hs] Hl]]; [done|]. cbn [string_chars map concat_str].
  cbn [String.append String.length Nat.even]. rewrite He, Hl. unfold str_forallb in *. cbn [string_chars forallb]. rewrite Hs.
  pose proof (all_bytes (fun x => hex_lower_char (hex_digit (nat_of_ascii x / 16)) && hex_lower_char (hex_digit (nat_of_ascii x mod 16)))
    ltac:(vm_compute; reflexivity) x) as H. cbn beta in H. bool_hyps. rewrite H, H0. split; [done|lia].
Qed.

Lemma read_hex s : hex_decode (hex_of s) = Some s.
Proof.
  unfold hex_decode, hex_of. induction s as [|x s IH]; [done|]. cbn [string_chars map concat_str String.append decode_pairs].
  pose proof (all_bytes (fun x => match hex_val (hex_digit (nat_of_ascii x / 16)), hex_val (hex_digit (nat_of_ascii x mod 16)) with
    | Some a, Some b => Ascii.eqb (ascii_of_nat (Z.to_nat (a * 16 + b))) x | _, _ => false end) ltac:(vm_compute; reflexivity) x) as H.
  cbn beta in H. destruct (hex_val _) as [a|]; [|done]. destruct (hex_val _) as [b|]; [|done]. apply Ascii.eqb_eq in H.
  cbn [mbind option_bind]. destruct (decode_pairs _) as [r|]; [|done]. cbn [fmap option_map option_fmap mbind option_bind string_of_chars] in *.
  injection IH as ->. by rewrite H.
Qed.
