(* ===== verification/Disclosure.v ===== *)
(** What the host tells others about itself: the evidence an adoption reads
    (internal/observation/evidence.go) and the identity report it sends to the address book's
    authority (cmd/ghostd/report.go).

    Programs, files, the host's interfaces and the resolver are parameters; [size] is the length of
    a byte string, whose spelling Json.v does not keep. *)

From S2P Require Import Prelude Json Nft NetAddr AddrText Ledger Config Allocate ConfigInv LeaseText Report.
Local Open Scope Z_scope.

(** * Evidence *)

Record Evidence := mkEvidence { eVersion : Z; CapturedAt : Z; Commands : gmap string raw; Files : gmap string raw; Errors : gmap string string }.

Definition limit : Z := 4 * 1024 * 1024.

Record command := mkCommand { ckey : string; cname : string; cargs : list string }.

Definition commands : list command :=
  [ mkCommand "iptables-save" "iptables-save" [];
    mkCommand "ip6tables-save" "ip6tables-save" [];
    mkCommand "services" "systemctl" ["show"; "ufw.service"; "tailscaled.service"; "nftables.service"; "--property=Id,ActiveState,UnitFileState,FragmentPath"];
    mkCommand "tailscale-prefs" "tailscale" ["debug"; "prefs"] ].

Definition paths : list string :=
  ["/etc/ufw/ufw.conf"; "/etc/default/ufw"; "/etc/ufw/before.rules"; "/etc/ufw/before6.rules"; "/etc/ufw/after.rules"; "/etc/ufw/after6.rules"; "/etc/ufw/user.rules"; "/etc/ufw/user6.rules"].

(** The preferences that may be exported. *)
Definition exported : list string := ["NetfilterMode"; "NoSNAT"; "AdvertiseRoutes"; "WantRunning"].

Definition put_command (k : string) (r : raw) (e : Evidence) : Evidence := mkEvidence (eVersion e) (CapturedAt e) (<[k := r]> (Commands e)) (Files e) (Errors e).
Definition put_file (k : string) (r : raw) (e : Evidence) : Evidence := mkEvidence (eVersion e) (CapturedAt e) (Commands e) (<[k := r]> (Files e)) (Errors e).
Definition put_error (k m : string) (e : Evidence) : Evidence := mkEvidence (eVersion e) (CapturedAt e) (Commands e) (Files e) (<[k := m]> (Errors e)).

(** What io.ReadAll gives of a file: the bytes it read, and an error if it met one. *)
Record read_result := mkRead { rBytes : raw; rError : option string }.

Section Capture.
Context (Output : string -> list string -> result string raw).
Context (size : raw -> Z).
Context (IsRegular : string -> result string bool).
Context (ReadAtMost : Z -> string -> result string read_result).

(** json.Unmarshal into a map of raw values, the choice of the exported keys, json.Marshal with
    its keys in order. *)
Definition select_prefs (r : raw) : option raw :=
  prefs ← unmarshal r ≫= dec_map Some ∅;
  let selected := fold_left (fun m k => match prefs !! k with Some v => <[k := v]> m | None => m end) exported (∅ : gmap string json) in
  Some (marshal (JObj (map (fun k => (k, lookup_default selected k JNull)) (sorted_keys selected)))).

(** What one command contributes. *)
Definition observe (c : command) : result string raw :=
  r ← Output (cname c) (cargs c);
  fail_if (limit <? size r) "evidence exceeds size limit; not used";;
  if ckey c =?s "tailscale-prefs" then match select_prefs r with Some r' => Ok r' | None => Err "invalid JSON" end else Ok r.

Definition capture_command (e : Evidence) (c : command) : Evidence :=
  match observe c with
  | Err m => put_error (ckey c) m e
  | Ok r => put_command (ckey c) r e
  end.

Definition readFile (path : string) : result string raw :=
  regular ← IsRegular path;
  check regular "not a regular file";;
  r ← ReadAtMost (limit + 1) path;
  fail_if (limit <? size (rBytes r)) "evidence exceeds size limit";;
  match rError r with Some m => Err m | None => Ok (rBytes r) end.

Definition capture_file (e : Evidence) (path : string) : Evidence :=
  match readFile path with
  | Err m => put_error path m e
  | Ok r => put_file path r e
  end.

Definition Capture (now : Z) : Evidence :=
  fold_left capture_file paths (fold_left capture_command commands (mkEvidence 1 now ∅ ∅ ∅)).

End Capture.

(** * The identity report *)

(** net.Interface: FlagUp, HardwareAddr and what Addrs answers, as texts. *)
Record Interface := mkInterface { Up : bool; HardwareAddr : list Z; Addrs : result string (list string) }.

Definition defaultPort : string := "7443".

Section ReportHost.
Context (interfaces : result string (list Interface)).
Context (LookupNetIP : string -> result string (list Addr)).

(** The address of one interface text that is told. *)
Definition told (a : string) : option string :=
  p ← ParsePrefix a;
  if IsLoopback (PAddr p) || IsLinkLocalUnicast (PAddr p) then None else Some (AddrString (PAddr p)).

Definition report_interface (acc : list InterfaceReport) (i : Interface) : result string (list InterfaceReport) :=
  if negb (Up i) || negb (length (HardwareAddr i) =? 6)%nat then Ok acc
  else addresses ← Addrs i;
       let item := mkInterfaceReport (MACString (HardwareAddr i)) (omap told addresses) in
       Ok (match iAddresses item with [] => acc | _ => acc ++ [item] end).

Definition on_tailnet (ip : Addr) : bool :=
  match ParsePrefix TailnetCGNAT4, ParsePrefix TailnetULA6 with
  | Some p4, Some p6 => Contains p4 ip || Contains p6 ip
  | _, _ => false
  end.

(** reportHost up to the call: whom it dials, and the document it sends. *)
Definition reportHost (authority : string) : result string (string * list InterfaceReport) :=
  ifs ← interfaces;
  report ← fold_m report_interface [] ifs;
  let '(host, port) := default (authority, defaultPort) (SplitHostPort authority) in
  addresses ← LookupNetIP host;
  match find on_tailnet addresses with
  | Some ip => Ok (JoinHostPort (AddrString ip) port, report)
  | None => Err "identity authority must resolve to a tailnet address"
  end.
End ReportHost.

(** * What the evidence holds *)

Section CaptureSpec.
Context (Output : string -> list string -> result string raw) (size : raw -> Z).
Context (IsRegular : string -> result string bool) (ReadAtMost : Z -> string -> result string read_result).

Local Abbreviation observed := (observe Output size).
Local Abbreviation file := (readFile size IsRegular ReadAtMost).

(** Keyed answers fill a map with the results and another, which held [errs0], with the errors. *)
Definition fed {A} (key : A -> string) (answer : A -> result string raw) (errs0 : gmap string string) (l : list A)
    (got : gmap string raw) (errs : gmap string string) : Prop :=
  (forall k r, got !! k = Some r -> exists a, a ∈ l /\ key a = k /\ answer a = Ok r)
  /\ (forall k m, errs !! k = Some m -> errs0 !! k = Some m \/ exists a, a ∈ l /\ key a = k /\ answer a = Err m)
  /\ (forall a, a ∈ l -> is_Some (got !! key a) \/ is_Some (errs !! key a))
  /\ (forall k, is_Some (errs0 !! k) -> is_Some (errs !! k)).

Lemma still_there {T} (k k' : string) (v : T) (m : gmap string T) : is_Some (m !! k') -> is_Some (<[k := v]> m !! k').
Proof. intros Hs. destruct (decide (k = k')) as [->|]; [rewrite lookup_insert_eq; eauto|by rewrite lookup_insert_ne]. Qed.

Lemma fed_none {A} (key : A -> string) answer errs0 : fed key answer errs0 [] ∅ errs0.
Proof. unfold fed. split_and!; [intros k r Hk; by rewrite lookup_empty in Hk|auto|by intros a ?%not_elem_of_nil|auto]. Qed.

Lemma fed_more {A} (key : A -> string) answer errs0 l a got errs got' errs' :
  (match answer a with Ok r => got' = <[key a := r]> got /\ errs' = errs | Err m => got' = got /\ errs' = <[key a := m]> errs end) ->
  fed key answer errs0 l got errs -> fed key answer errs0 (l ++ [a]) got' errs'.
Proof.
  intros Hs (Hg & He & Ha & H0). unfold fed. setoid_rewrite elem_of_app. setoid_rewrite list_elem_of_singleton.
  destruct (answer a) as [r|m] eqn:E; destruct Hs as [-> ->]; (split_and!; [| |intros x [Hx| ->]|]); try (auto using still_there; fail).
  all: try (destruct (Ha x Hx) as [H1|H1]; auto using still_there; fail).
  all: try (rewrite lookup_insert_eq; eauto; fail).
  all: intros k v Hk; try (apply lookup_insert_Some in Hk as [[<- <-]|[_ Hk]]; [by eauto 8|]).
  all: match type of v with raw => destruct (Hg _ _ Hk) as (x & ? & ? & ?) | _ => destruct (He _ _ Hk) as [?|(x & ? & ? & ?)] end; eauto 8.
Qed.

Lemma commands_fed cs t :
  let e := fold_left (capture_command Output size) cs (mkEvidence 1 t ∅ ∅ ∅) in
  fed ckey observed ∅ cs (Commands e) (Errors e) /\ Files e = ∅.
Proof.
  induction cs as [|c cs [IH1 IH2]] using rev_ind; [split; [apply fed_none|done]|]. rewrite fold_left_app. cbn [fold_left].
  unfold capture_command at 1 3 5. split; [eapply fed_more; [|exact IH1]|]; by destruct (observed c).
Qed.

Lemma files_fed ps e : Files e = ∅ ->
  let e' := fold_left (capture_file size IsRegular ReadAtMost) ps e in
  fed (fun p => p) file (Errors e) ps (Files e') (Errors e') /\ Commands e' = Commands e.
Proof.
  intros H0. induction ps as [|p ps [IH1 IH2]] using rev_ind.
  { split; [cbn; rewrite H0; apply fed_none|done]. }
  rewrite fold_left_app. cbn [fold_left].
  unfold capture_file at 1 3 5. split; [eapply fed_more; [|exact IH1]|]; by destruct (file p).
Qed.

(** What a chosen set of preferences is. *)
Lemma selected_lookup (prefs : gmap string json) ks k v :
  fold_left (fun m k => match prefs !! k with Some v => <[k := v]> m | None => m end) ks (∅ : gmap string json) !! k = Some v
  <-> k ∈ ks /\ prefs !! k = Some v.
Proof.
  induction ks as [|k0 ks IH] using rev_ind; [cbn [fold_left]; rewrite lookup_empty, elem_of_nil; naive_solver|].
  rewrite fold_left_app, elem_of_app, list_elem_of_singleton. cbn [fold_left].
  destruct (prefs !! k0) as [w|] eqn:E; [rewrite lookup_insert_Some|]; rewrite IH; [destruct (decide (k0 = k)) as [->|]|]; naive_solver.
Qed.

Lemma select_prefs_exact r r' : select_prefs r = Some r' ->
  exists prefs kvs, unmarshal r ≫= dec_map Some ∅ = Some prefs /\ r' = marshal (JObj kvs)
    /\ forall k v, (k, v) ∈ kvs <-> k ∈ exported /\ prefs !! k = Some v.
Proof.
  unfold select_prefs. destruct (unmarshal r ≫= _) as [prefs|]; [|done]. cbn [mbind option_bind]. cbn zeta. intros H. apply Some_inj in H as <-.
  eexists prefs, _. split_and!; [done..|]. intros k v. rewrite <-selected_lookup. set (sel := fold_left _ _ _).
  rewrite list_elem_of_fmap. setoid_rewrite elem_of_sorted_keys. unfold lookup_default. split.
  - intros (k0 & [= -> ->] & [w Hw]). by rewrite Hw.
  - intros Hs. exists k. rewrite Hs. eauto.
Qed.

(** The commands and the files are told apart by their keys. *)
Lemma keys_apart : NoDup (map ckey commands) /\ forall c, c ∈ commands -> ckey c ∉ paths.
Proof. split; [by apply (bool_decide_unpack _); vm_compute|]. apply Forall_forall. by apply (bool_decide_unpack _); vm_compute. Qed.

Lemma same_command c c' : c ∈ commands -> c' ∈ commands -> ckey c = ckey c' -> c = c'.
Proof.
  intros Hc Hc' Hk. apply list_elem_of_lookup in Hc as [i Hi], Hc' as [j Hj].
  enough (i = j) by congruence. apply (NoDup_lookup (map ckey commands) i j (ckey c) (proj1 keys_apart)); rewrite list_lookup_fmap.
  - by rewrite Hi.
  - by rewrite Hj, Hk.
Qed.

Lemma readFile_exact p r : file p = Ok r <-> IsRegular p = Ok true /\ ReadAtMost (limit + 1) p = Ok (mkRead r None) /\ size r <= limit.
Proof.
  unfold readFile. split.
  - intros H. apply result_bind_ok in H as (reg & Hreg & H). apply seq_ok in H as [->%check_ok H].
    apply result_bind_ok in H as ([bytes err] & -> & H). apply seq_ok in H as [Hs%fail_if_ok H]. apply Z.ltb_ge in Hs. cbn [rBytes rError] in *.
    destruct err; [done|]. apply Ok_inj in H as <-. done.
  - intros (-> & -> & Hs). cbn. by rewrite (proj2 (Z.ltb_ge _ _) Hs).
Qed.

Lemma observed_told c out : Output (cname c) (cargs c) = Ok out -> size out <= limit ->
  (ckey c = "tailscale-prefs" -> is_Some (unmarshal out ≫= dec_map Some ∅)) -> exists r, observed c = Ok r.
Proof.
  intros Ho Hs Hp. unfold observe. rewrite Ho. cbn [mbind result_bind]. rewrite (proj2 (Z.ltb_ge _ _) Hs). cbn.
  destruct (String.eqb_spec (ckey c) "tailscale-prefs") as [E|_]; [|eauto].
  destruct (Hp E) as [prefs E1]. unfold select_prefs. rewrite E1. cbn [mbind option_bind]. eauto.
Qed.

Lemma observed_output c r : observed c = Ok r -> exists out, Output (cname c) (cargs c) = Ok out /\ size out <= limit
  /\ if ckey c =?s "tailscale-prefs"
     then exists prefs kvs, unmarshal out ≫= dec_map Some ∅ = Some prefs /\ r = marshal (JObj kvs)
            /\ forall key v, (key, v) ∈ kvs <-> key ∈ exported /\ prefs !! key = Some v
     else r = out.
Proof.
  unfold observe. intros H. apply result_bind_ok in H as (out & Ho & H). apply seq_ok in H as [Hs%fail_if_ok H]. apply Z.ltb_ge in Hs.
  exists out. split_and!; [done..|]. destruct (ckey c =?s "tailscale-prefs"); [|by apply Ok_inj in H].
  destruct (select_prefs out) as [r'|] eqn:E; [|done]. apply Ok_inj in H as ->. by apply select_prefs_exact.
Qed.

(** What the two loops leave: a result is kept exactly when there is one, and an error exactly
    when there is none. *)
Lemma captured now (e := Capture Output size IsRegular ReadAtMost now) :
  (forall c r, c ∈ commands -> Commands e !! ckey c = Some r <-> observed c = Ok r)
  /\ (forall p r, p ∈ paths -> Files e !! p = Some r <-> file p = Ok r)
  /\ (forall k, is_Some (Commands e !! k) -> exists c, c ∈ commands /\ k = ckey c)
  /\ (forall k, is_Some (Files e !! k) -> k ∈ paths)
  /\ (forall k, is_Some (Errors e !! k) <->
       (exists c, c ∈ commands /\ k = ckey c /\ Commands e !! k = None) \/ (k ∈ paths /\ Files e !! k = None)).
Proof.
  unfold e, Capture. destruct (commands_fed commands now) as [(Hg & He & Ha & _) Hf].
  set (e1 := fold_left (capture_command Output size) commands _) in *.
  destruct (files_fed paths e1 Hf) as [(Hg2 & He2 & Ha2 & H0) Hc].
  set (e2 := fold_left (capture_file size IsRegular ReadAtMost) paths e1) in *. rewrite Hc.
  destruct keys_apart as [_ Hap].
  assert (HC : forall c r, c ∈ commands -> Commands e1 !! ckey c = Some r <-> observed c = Ok r).
  { intros c r Hin. split.
    - intros Hk. destruct (Hg _ _ Hk) as (c' & Hin' & Hk' & Hr). by rewrite (same_command c' c) in Hr.
    - intros Hr. destruct (Ha c Hin) as [[r' Hk]|[m Hm]].
      + destruct (Hg _ _ Hk) as (c' & Hin' & Hk' & Hr'). rewrite (same_command c' c) in Hr' by done. congruence.
      + destruct (He _ _ Hm) as [H2|(c' & Hin' & Hk' & Hr')]; [by rewrite lookup_empty in H2|].
        rewrite (same_command c' c) in Hr' by done. congruence. }
  assert (HF : forall p r, p ∈ paths -> Files e2 !! p = Some r <-> file p = Ok r).
  { intros p r Hin. split.
    - intros Hk. by destruct (Hg2 _ _ Hk) as (p' & _ & -> & Hr).
    - intros Hr. destruct (Ha2 p Hin) as [[r' Hk]|[m Hm]]; [destruct (Hg2 _ _ Hk) as (p' & _ & -> & Hr'); congruence|].
      destruct (He2 _ _ Hm) as [H1|(p' & _ & -> & Hr')]; [|congruence].
      destruct (He _ _ H1) as [H2|(c & Hc1 & <- & _)]; [by rewrite lookup_empty in H2|by destruct (Hap c Hc1)]. }
  split_and!; [done|done| | |].
  - intros k [r Hk]. destruct (Hg _ _ Hk) as (c & ? & <- & _). eauto.
  - intros k [r Hk]. by destruct (Hg2 _ _ Hk) as (p & ? & -> & _).
  - intros k. split.
    + intros [m Hm]. destruct (He2 _ _ Hm) as [H1|(p & Hp & -> & Hr)].
      * destruct (He _ _ H1) as [H2|(c & Hin & <- & Hr)]; [by rewrite lookup_empty in H2|]. left. exists c. split_and!; [done..|].
        apply eq_None_not_Some. intros [r E%HC]; [congruence|done].
      * right. split; [done|]. apply eq_None_not_Some. intros [r E%HF]; [congruence|done].
    + intros [(c & Hin & -> & Hn)|[Hp Hn]]; [apply H0; destruct (Ha c Hin) as [[? ?]|]; congruence|].
      destruct (Ha2 k Hp) as [[? ?]|]; congruence.
Qed.

(** C40: the evidence of an adoption tells only what it should.  It names only the fixed commands
    and the fixed files, each of which ends in exactly one of a result and an error.  A file is
    told, as it was read, exactly when it is a regular one read without error and not longer
    than the limit.  A command is told only if its output is not longer than the limit, and
    then it is told unless it is the overlay client's preferences and they do not decode as a JSON
    map: the output as it was, but of the preferences exactly the four named ones that were
    set, written again as JSON.  The limit is on what is read: the rewritten preferences and
    the texts of errors have none of their own. *)
Theorem evidence_limited now :
  let e := Capture Output size IsRegular ReadAtMost now in
  (forall k, is_Some (Errors e !! k) <->
     (exists c, c ∈ commands /\ k = ckey c /\ Commands e !! k = None) \/ (k ∈ paths /\ Files e !! k = None))
  /\ (forall k r, Files e !! k = Some r <->
       k ∈ paths /\ IsRegular k = Ok true /\ ReadAtMost (limit + 1) k = Ok (mkRead r None) /\ size r <= limit)
  /\ (forall k r, Commands e !! k = Some r -> exists c out, c ∈ commands /\ k = ckey c /\ Output (cname c) (cargs c) = Ok out /\ size out <= limit
       /\ if k =?s "tailscale-prefs"
          then exists prefs kvs, unmarshal out ≫= dec_map Some ∅ = Some prefs /\ r = marshal (JObj kvs)
                 /\ forall key v, (key, v) ∈ kvs <-> key ∈ exported /\ prefs !! key = Some v
          else r = out)
  /\ (forall c out, c ∈ commands -> Output (cname c) (cargs c) = Ok out -> size out <= limit ->
       (ckey c = "tailscale-prefs" -> is_Some (unmarshal out ≫= dec_map Some ∅)) -> is_Some (Commands e !! ckey c)).
Proof.
  intros e. destruct (captured now) as (HC & HF & HCk & HFk & HE). fold e in HC, HF, HCk, HFk, HE. split_and!; [exact HE| | |].
  - intros k r. split.
    + intros Hk. assert (Hp : k ∈ paths) by (apply HFk; eauto). split; [done|]. by apply readFile_exact, HF.
    + intros [Hp Hr]. by apply HF, readFile_exact.
  - intros k r Hk. destruct (HCk k) as (c & Hin & ->); [eauto|]. apply HC in Hk; [|done]. exists c.
    destruct (observed_output _ _ Hk) as (out & ? & ? & ?). by exists out.
  - intros c out Hin Ho Hs Hp. destruct (observed_told c out Ho Hs Hp) as [r Hr]. exists r. by apply HC.
Qed.
End CaptureSpec.

(** * What the report tells, and whom *)

Section ReportSpec.
Context (LookupNetIP : string -> result string (list Addr)).

Lemma told_exact a ip : told a = Some ip <->
  exists p, ParsePrefix a = Some p /\ IsLoopback (PAddr p) = false /\ IsLinkLocalUnicast (PAddr p) = false /\ ip = AddrString (PAddr p).
Proof.
  unfold told. destruct (ParsePrefix a) as [p|]; cbn [mbind option_bind]; [|naive_solver].
  split.
  - intros H. exists p. destruct (IsLoopback (PAddr p)), (IsLinkLocalUnicast (PAddr p)); naive_solver.
  - intros (? & [= <-] & -> & -> & ->). done.
Qed.

(** The item of one interface. *)
Definition item_of (i : Interface) : option InterfaceReport :=
  if negb (Up i) || negb (length (HardwareAddr i) =? 6)%nat then None
  else match Addrs i with
       | Ok addresses => match omap told addresses with [] => None | l => Some (mkInterfaceReport (MACString (HardwareAddr i)) l) end
       | Err _ => None
       end.

Lemma report_items ifs acc r : fold_m report_interface acc ifs = Ok r -> r = acc ++ omap item_of ifs.
Proof.
  revert acc. induction ifs as [|i ifs IH]; intros acc; cbn [fold_m omap list_omap]; [intros [= ->]; by rewrite app_nil_r|].
  destruct (report_interface acc i) as [acc1|] eqn:E; [|done]. intros ->%IH. revert E. unfold report_interface, item_of.
  destruct (negb (Up i) || _); [by intros [= ->]|]. destruct (Addrs i) as [l|]; [|done]. cbn [mbind result_bind iAddresses].
  destruct (omap told l); intros [= <-]; [done|]. by rewrite <-app_assoc.
Qed.

Lemma item_exact i item : item_of i = Some item <->
  Up i = true /\ length (HardwareAddr i) = 6%nat /\ iMAC item = MACString (HardwareAddr i)
  /\ exists l, Addrs i = Ok l /\ iAddresses item = omap told l /\ iAddresses item <> [].
Proof.
  unfold item_of. destruct (Up i); cbn [negb orb]; [|naive_solver].
  destruct (Nat.eqb_spec (length (HardwareAddr i)) 6) as [Hl|Hl]; cbn [negb]; [|naive_solver].
  destruct (Addrs i) as [l|m]; [|naive_solver]. destruct item as [mac ips]. cbn [iMAC iAddresses].
  split.
  - destruct (omap told l) as [|x l'] eqn:E; [done|]. intros [= <- <-]. split_and!; [done..|]. by exists l.
  - intros (_ & _ & -> & l0 & [= <-] & -> & Hne). by destruct (omap told l).
Qed.

Lemma reported_addresses_valid (ifs : list Interface) item ip : item ∈ omap item_of ifs -> ip ∈ iAddresses item ->
  exists a, ParseAddr ip = Some a /\ IsLoopback a = false /\ IsLinkLocalUnicast a = false.
Proof.
  intros (i & _ & (_ & _ & _ & l & _ & -> & _)%item_exact)%list_elem_of_omap (a & _ & (p & Hp & H1 & H2 & ->)%told_exact)%list_elem_of_omap.
  exists (PAddr p). split_and!; [|done..]. apply read_addr; [by eapply ParsePrefix_valid|by apply ParsePrefix_bits in Hp as [_ ?]].
Qed.

Lemma reported_pairs (ifs : list Interface) mac ip : (exists item, item ∈ omap item_of ifs /\ iMAC item = mac /\ ip ∈ iAddresses item) <->
  exists i l a p, i ∈ ifs /\ Up i = true /\ length (HardwareAddr i) = 6%nat /\ mac = MACString (HardwareAddr i)
    /\ Addrs i = Ok l /\ a ∈ l /\ ParsePrefix a = Some p
    /\ IsLoopback (PAddr p) = false /\ IsLinkLocalUnicast (PAddr p) = false /\ ip = AddrString (PAddr p).
Proof.
  split.
  - intros (item & (i & Hi & (Hu & Hl & -> & l & Ha & -> & _)%item_exact)%list_elem_of_omap & <- & (a & Hal & (p & ?)%told_exact)%list_elem_of_omap).
    exists i, l, a, p. naive_solver.
  - intros (i & l & a & p & Hi & Hu & Hl & -> & Ha & Hal & Ht).
    assert (Hin : ip ∈ omap told l) by (apply list_elem_of_omap; exists a; rewrite told_exact; eauto).
    exists (mkInterfaceReport (MACString (HardwareAddr i)) (omap told l)). split_and!; [|done..]. apply list_elem_of_omap. exists i. split; [done|].
    apply item_exact. split_and!; [done..|]. exists l. split_and!; [done..|]. cbn. intros E. rewrite E in Hin. by apply elem_of_nil in Hin.
Qed.

(** What the authority asks of a report. *)
Lemma check_report_spec n : check_report n = Ok tt <->
  nID n <> EmptyString /\ (length (Interfaces n) <= 64)%nat
  /\ Forall (fun i => (exists hw, ParseMAC (iMAC i) = Some hw /\ length hw = 6%nat) /\ (length (iAddresses i) <= 128)%nat
       /\ Forall (fun a => is_Some (ParseAddr a)) (iAddresses i)) (Interfaces n).
Proof.
  unfold check_report. rewrite seq_ok, fail_if_ok, for_each_ok, orb_false_iff, Nat.ltb_ge.
  assert (He : is_empty (nID n) = false <-> nID n <> EmptyString) by (by destruct (nID n)). rewrite He.
  assert (Hf : forall i, check_interface i = Ok tt <-> (exists hw, ParseMAC (iMAC i) = Some hw /\ length hw = 6%nat) /\ (length (iAddresses i) <= 128)%nat
     /\ Forall (fun a => is_Some (ParseAddr a)) (iAddresses i)).
  { intros i. unfold check_interface. rewrite seq_ok, check_ok, for_each_ok, andb_true_iff, Nat.leb_le.
    setoid_rewrite check_ok. setoid_rewrite bool_decide_eq_true.
    destruct (ParseMAC (iMAC i)) as [hw|]; [rewrite Nat.eqb_eq|]; naive_solver. }
  setoid_rewrite Hf. naive_solver.
Qed.

(** the identity report is sent only over the overlay, and the authority can take it.  The
    address dialled is one of the overlay's, whatever the resolver answers.  The document pairs a
    MAC address with an IP address exactly when an interface that is up has both and the address
    is neither loopback nor link-local; and the authority's check of a report accepts it for every
    node that has an identity, unless more than 64 interfaces or more than 128 addresses of one
    of them are told. *)
Theorem report_accepted ifs authority target report n :
  Forall (fun i => Forall byte_range (HardwareAddr i)) ifs ->
  reportHost (Ok ifs) LookupNetIP authority = Ok (target, report) ->
  (exists ip port, on_tailnet ip = true /\ target = JoinHostPort (AddrString ip) port)
  /\ (forall mac ip, (exists item, item ∈ report /\ iMAC item = mac /\ ip ∈ iAddresses item) <->
       exists i l a p, i ∈ ifs /\ Up i = true /\ length (HardwareAddr i) = 6%nat /\ mac = MACString (HardwareAddr i)
         /\ Addrs i = Ok l /\ a ∈ l /\ ParsePrefix a = Some p
         /\ IsLoopback (PAddr p) = false /\ IsLinkLocalUnicast (PAddr p) = false /\ ip = AddrString (PAddr p))
  /\ (Interfaces n = report ->
       check_report n = Ok tt <-> nID n <> EmptyString /\ (length report <= 64)%nat /\ Forall (fun i => (length (iAddresses i) <= 128)%nat) report).
Proof.
  intros Hb H. unfold reportHost in H. cbn [mbind result_bind] in H. apply result_bind_ok in H as (r & Hr%report_items & H).
  destruct (default _ (SplitHostPort authority)) as [host port]. apply result_bind_ok in H as (ips & _ & H).
  destruct (find on_tailnet ips) as [ip|] eqn:Ef; [|done]. apply Ok_inj in H as [= <- <-]. cbn [app] in Hr. subst r. split_and!.
  - apply find_some in Ef as [_ Ef]. eauto.
  - intros mac a. apply reported_pairs.
  - intros Hn. rewrite check_report_spec, Hn. split.
    { intros (? & ? & H3). split_and!; [done..|]. eapply Forall_impl; [exact H3|]. by intros i (_ & ? & _). }
    intros (H1 & H2 & H3). split_and!; [done..|].
    apply Forall_forall. intros item Hi. split_and!; [|by apply (proj1 (Forall_forall _ _) H3)|].
    + apply list_elem_of_omap in Hi as (i & Hi & (_ & Hl & -> & _)%item_exact). exists (HardwareAddr i). split; [|done].
      apply read_mac; [done|]. by apply (proj1 (Forall_forall _ _) Hb).
    + apply Forall_forall. intros x Hx. destruct (reported_addresses_valid ifs item x Hi Hx) as (? & -> & _). eauto.
Qed.
End ReportSpec.

(** * An example *)

Module DisclosureExample.

Definition laptop : list Interface :=
  [ mkInterface true [2;0;0;0;0;10] (Ok ["10.0.0.10/24"; "fe80::1/64"; "fd00::a/64"]);
    mkInterface true [] (Ok ["127.0.0.1/8"]);
    mkInterface false [2;0;0;0;0;11] (Ok ["10.0.0.11/24"]);
    mkInterface true [2;0;0;0;0;12] (Ok ["fe80::2/64"]) ].

Definition resolve (host : string) : result string (list Addr) :=
  if host =?s "router.tail.example" then Ok (omap ParseAddr ["192.168.1.1"; "100.64.0.7"]) else Err "no such host".

Definition sent : list InterfaceReport := Eval vm_compute in match reportHost (Ok laptop) resolve "router.tail.example" with Ok (_, r) => r | Err _ => [] end.

Lemma report_accepted_witness :
  (exists ip port, on_tailnet ip = true /\ "100.64.0.7:7443" = JoinHostPort (AddrString ip) port)
  /\ check_report (mkNode "node-a" "laptop.tail.example" [] sent 0) = Ok tt.
Proof.
  destruct (report_accepted resolve laptop "router.tail.example" "100.64.0.7:7443" sent (mkNode "node-a" "laptop.tail.example" [] sent 0)) as (H1 & _ & H3).
  - repeat constructor; discriminate.
  - vm_compute. reflexivity.
  - split; [exact H1|]. apply (H3 eq_refl). split; [discriminate|]. split; [vm_compute; lia|]. repeat constructor; vm_compute; lia.
Defined.

(** An address outside the overlay is never dialled, and keys stay at home. *)
Lemma lan_authority_refused : reportHost (Ok laptop) (fun _ => Ok (omap ParseAddr ["192.168.1.1"])) "router.lan:7443" = Err "identity authority must resolve to a tailnet address".
Proof. vm_compute. reflexivity. Qed.

Lemma keys_not_exported :
  select_prefs (RawDoc (JObj [("WantRunning", JBool true); ("Config", JObj [("PrivateNodeKey", JStr "privkey:0")]); ("NoSNAT", JBool false)]))
  = Some (RawDoc (JObj [("NoSNAT", JBool false); ("WantRunning", JBool true)])).
Proof. vm_compute. reflexivity. Qed.

End DisclosureExample.
