(* ===== verification/LeaseFile.v ===== *)
(** The lease file written by ExportDNSmasq, read by ParseDNSmasq and imported: every lease and
    every quarantine of the ledger comes back. *)

From S2P Require Import Prelude Json NetAddr Ledger LedgerInv Config KeyText ConfigInv AddrText Allocate.
From S2P Require Import AllocInv LeaseImport BookInv BookSafety Dnsmasq LeaseText.
From Stdlib Require Import Ascii.
Local Open Scope Z_scope.

Section LeaseFile.
Context (sha256_hex : string -> string).
Context (sha_digits : forall x, str_forallb hex_lower_char (sha256_hex x) = true).
Context (sha_length : forall x, String.length (sha256_hex x) = 64%nat).
Context (c : Config) (Hc : Validate c = Ok tt).

(** The IPv4 identity of a line: a printed hardware address, and a client named by it or by a
    client identifier. *)
Definition identity4 (b : Binding) : Prop :=
  (exists hw, MAC b = MACString hw /\ length hw = 6%nat /\ Forall byte_range hw)
  /\ (has_prefix (Client b) "id:" = true \/ Client b = "mac:" +++ MAC b).

(** A binding of a scope of the configuration, as Allocate and ImportDocument write them. *)
Record carried (s : Scope) (b : Binding) : Prop := {
  cr_scope : s ∈ Scopes c /\ sID s = bScope b;
  cr_address : exists a, ParseAddr (Address b) = Some a /\ AddrString a = Address b;
  cr_host : exists p, ParsePrefix (Subnet s) = Some p /\ valid_host p (Address b) = true;
  cr_free : Address b <> sServer s /\ Address b <> Router s;
  cr_end : 0 < End_ b < 2^63;
  cr_client : validClient (Client b) = true /\ has_prefix (Client b) "duid:" = scope_is6 s;
  cr_identity : if scope_is6 s then duid_parts (Client b) = (DUID b, IAID b) else identity4 b;
  cr_unmarked : bState b <> "declined" ->
    if scope_is6 s then DUID b <> marker_duid sha256_hex (bScope b) (Address b) else MAC b <> marker_mac;
}.

(** The decision procedure. *)
Definition carriedb (b : Binding) : bool :=
  match find_scope c (bScope b), ParseAddr (Address b) with
  | Some s, Some a =>
    (AddrString a =?s Address b)
    && match ParsePrefix (Subnet s) with Some p => valid_host p (Address b) | None => false end
    && negb (Address b =?s sServer s) && negb (Address b =?s Router s) && (0 <? End_ b) && (End_ b <? 2^63)
    && validClient (Client b) && Bool.eqb (has_prefix (Client b) "duid:") (scope_is6 s)
    && (if scope_is6 s then bool_decide (duid_parts (Client b) = (DUID b, IAID b))
        else match ParseMAC (MAC b) with Some hw => (length hw =? 6)%nat && (MACString hw =?s MAC b) | None => false end
             && (has_prefix (Client b) "id:" || (Client b =?s ("mac:" +++ MAC b))))
    && ((bState b =?s "declined")
        || negb (if scope_is6 s then DUID b =?s marker_duid sha256_hex (bScope b) (Address b) else MAC b =?s marker_mac))
  | _, _ => false
  end.

Lemma carriedb_sound b : carriedb b = true -> exists s, carried s b.
Proof.
  unfold carriedb. destruct (find_scope c (bScope b)) as [s|] eqn:Es; [|done]. apply find_some in Es as [Hin Eid%String.eqb_eq].
  apply list_elem_of_In in Hin. destruct (ParseAddr (Address b)) as [a|] eqn:Ea; [|done]. intros H. bool_hyps. exists s.
  repeat match goal with H : Bool.eqb _ _ = true |- _ => apply eqb_prop in H | H : (_ || _)%bool = true |- _ => apply orb_true_iff in H end.
  split; try done; [by exists a|by destruct (ParsePrefix (Subnet s)) as [p|]; [exists p|]| |].
  - match goal with H : (if scope_is6 s then bool_decide _ else _) = true |- _ => revert H end. destruct (scope_is6 s); [by intros ?%bool_decide_eq_true|].
    unfold identity4. intros Hx. bool_hyps. destruct (ParseMAC (MAC b)) as [hw|] eqn:Em; [|done]. bool_hyps. split.
    + exists hw. rewrite Nat.eqb_eq in *. split_and!; [done..|by eapply ParseMAC_range].
    + match goal with H : (_ || _)%bool = true |- _ => apply orb_true_iff in H as [?|?%String.eqb_eq]; auto end.
  - intros Hd. match goal with H : _ \/ negb (if _ then _ else _) = true |- _ => destruct H as [?%String.eqb_eq|Hn]; [done|] end.
    destruct (scope_is6 s); by apply negb_true_iff, String.eqb_neq in Hn.
Qed.

(** * One line *)

Lemma match_other a l found : (forall s, s ∈ l -> exists p, ParsePrefix (Subnet s) = Some p /\ Contains p a = false) ->
  fold_m (match_scope a) found l = Ok found.
Proof.
  induction l as [|s l IH]; intros H; [done|]. cbn [fold_m]. destruct (H s (list_elem_of_here _ _)) as (p & Ep & Ec).
  unfold match_scope at 1. rewrite Ep, Ec. apply IH. intros t Ht. apply H. by right.
Qed.

Lemma scope_prefix s : s ∈ Scopes c -> exists p devs, ParsePrefix (Subnet s) = Some p /\ good_scope devs s p.
Proof.
  intros [i Hi]%list_elem_of_lookup. destruct (Validate_good _ Hc) as (devs & ps & Hg).
  destruct (Forall2_lookup_l _ _ _ _ _ (gc_scopes _ _ _ Hg) Hi) as (p & _ & Gp). exists p, devs. split; [apply Gp|done].
Qed.

(** The scope of a line is found, and it is the only one. *)
Lemma match_scope_found s p ip a : s ∈ Scopes c -> ParsePrefix (Subnet s) = Some p -> ParseAddr ip = Some a ->
  Contains p a = true -> fold_m (match_scope a) EmptyString (Scopes c) = Ok (sID s).
Proof.
  intros [i Hi]%list_elem_of_lookup Ep Ea Hp. destruct (Validate_good _ Hc) as (devs & ps & Hg).
  assert (Hother : forall j t, j <> i -> Scopes c !! j = Some t -> exists q, ParsePrefix (Subnet t) = Some q /\ Contains q a = false).
  { intros j t Hj Ht. destruct (scope_prefix t) as (q & _ & Eq & _); [by eapply list_elem_of_lookup_2|].
    exists q. split; [done|]. destruct (Contains q a) eqn:E; [|done]. exfalso.
    assert (in_subnet s ip) by (by exists p, a). assert (in_subnet t ip) by (by exists q, a).
    destruct (Nat.lt_total i j) as [?|[->|?]]; [by eapply (disjoint_lt c devs ps i j)|done|by eapply (disjoint_lt c devs ps j i)]. }
  pose proof (take_drop_middle _ _ _ Hi) as Es. rewrite <-Es, fold_m_app.
  rewrite match_other; cbn [mbind result_bind fold_m].
  - unfold match_scope at 1. rewrite Ep, Hp. cbn. apply match_other. intros t [j Hj]%list_elem_of_lookup.
    rewrite lookup_drop in Hj. eapply (Hother (S i + j)%nat); [lia|done].
  - intros t [j Hj]%list_elem_of_lookup. pose proof (lookup_lt_Some _ _ _ Hj) as Hlt. rewrite length_take in Hlt.
    rewrite lookup_take_lt in Hj by lia. eapply (Hother j); [lia|done].
Qed.

Definition lease_host (b : Binding) : string := if labelPattern (Name b) then Name b else EmptyString.

(** The lease a binding's line reads back as. *)
Definition lease_of (s : Scope) (b : Binding) : ImportedLease :=
  if scope_is6 s
  then mkImported (line_duid sha256_hex b) (IAID b) (bScope b) (Address b) EmptyString EmptyString (lease_host b) (line_expiry b)
  else mkImported EmptyString EmptyString (bScope b) (Address b) (line_mac b) (line_client b) (lease_host b) (line_expiry b).

Lemma space_check p : forallb (fun k => negb (p (ascii_of_nat k)) || negb (go_space (ascii_of_nat k))) (seq 0 256) = true ->
  forall x, p x = true -> go_space x = false.
Proof.
  intros H x Hx. pose proof (all_bytes (fun x => negb (p x) || negb (go_space x)) H x) as E. cbn beta in E. rewrite Hx in E.
  by apply negb_true_iff.
Qed.

Lemma pretty_word z : 0 <= z -> word (pretty z) = true.
Proof. intros (H1 & H2 & _)%pretty_read. eapply word_text; [apply (space_check is_digit); vm_compute; reflexivity|done|done]. Qed.

Lemma name_word b : word (line_name b) = true.
Proof.
  unfold line_name. destruct (labelPattern (Name b)) eqn:E; [|done]. apply label_chars in E as [E1 E2].
  eapply word_text; [apply (space_check label_char); vm_compute; reflexivity|done..].
Qed.

Lemma address_word ip a : ParseAddr ip = Some a -> AddrZone a = EmptyString -> word ip = true.
Proof.
  intros Ea Hz. eapply word_text; [apply (space_check addr_char); vm_compute; reflexivity|by destruct ip|by eapply ParseAddr_chars].
Qed.

Definition colon_hex_char (x : ascii) : bool := hex_lower_char x || Ascii.eqb x ":".

Lemma colonHex_word v : hex_text v -> (2 <= String.length v)%nat -> word (colonHex v) = true.
Proof.
  intros [He Hs] Hl. eapply (word_text colon_hex_char); [apply space_check; vm_compute; reflexivity| |].
  - destruct v as [|x [|y v]]; cbn in Hl; [lia|lia|]. unfold colonHex. cbn [string_chars hex_fields]. cbn [join]. by destruct (hex_fields _).
  - unfold colonHex, str_forallb in *. rewrite <-chars_length in He. clear Hl. remember (string_chars v) as l eqn:E. clear E v.
    remember (length l) as n eqn:En. revert l En Hs He. induction (lt_wf n) as [n _ IH]. intros l -> Hs He.
    destruct l as [|x [|y l]]; [done|done|]. cbn [forallb] in Hs. bool_hyps. cbn [hex_fields].
    assert (IHl : forallb colon_hex_char (string_chars (join ":" (hex_fields l))) = true) by (eapply IH; [|reflexivity|done|done]; cbn; lia).
    unfold colon_hex_char in *. destruct (hex_fields l) as [|f fs].
    + cbn. by rewrite H, H0.
    + change (join ":" (String x (String y EmptyString) :: f :: fs)) with (String x (String y (String ":" (join ":" (f :: fs))))).
      cbn [string_chars forallb]. rewrite H, H0, IHl. done.
Qed.

Lemma mac_word hw : length hw = 6%nat -> Forall byte_range hw -> word (MACString hw) = true.
Proof.
  intros Hl Hb. eapply (word_text mac_char); [apply space_check; vm_compute; reflexivity|by destruct hw as [|? [|]]|].
  unfold MACString. clear Hl. induction Hb as [|x hw Hx _ IH]; [done|].
  destruct hw as [|y hw]; [by apply hex2_chars|]. cbn [map join] in *. by rewrite !str_forallb_app, hex2_chars, IH.
Qed.

(** * Identities *)

Lemma marker_text scope ip : hex_text (marker_duid sha256_hex scope ip) /\ String.length (marker_duid sha256_hex scope ip) = 36%nat.
Proof.
  unfold marker_duid. set (x := sha256_hex (scope +++ "/" +++ ip)).
  pose proof (sha_length (scope +++ "/" +++ ip)) as Hl. pose proof (sha_digits (scope +++ "/" +++ ip)) as Hd. fold x in Hl, Hd. clearbody x.
  assert (Hs : forall n x, (n <= String.length x)%nat -> str_forallb hex_lower_char x = true ->
    String.length (String.substring 0 n x) = n /\ str_forallb hex_lower_char (String.substring 0 n x) = true).
  { clear. unfold str_forallb. induction n as [|n IH]; intros [|y x] Hl Hd; cbn in *; [done..|lia|]. bool_hyps.
    destruct (IH x ltac:(lia) ltac:(done)) as [-> ->]. by rewrite H. }
  destruct (Hs 32%nat x ltac:(lia) Hd) as [E1 E2]. unfold hex_text. rewrite append_length, E1, str_forallb_app, E2. done.
Qed.

Lemma AddrString4_length n : (String.length (AddrString4 n) <= 15)%nat.
Proof.
  rewrite <-chars_length, AddrString4_dotted. unfold dotted.
  destruct (octet_chars _ (octet_range n 3)) as (? & ? & -> & _ & ?). destruct (octet_chars _ (octet_range n 2)) as (? & ? & -> & _ & ?).
  destruct (octet_chars _ (octet_range n 1)) as (? & ? & -> & _ & ?). destruct (octet_chars _ (octet_range n 0)) as (? & ? & -> & _ & ?).
  repeat (cbn [app length] || rewrite length_app). lia.
Qed.

Lemma quarantine_text a : Is4 a = true -> hex_text ("ff" +++ hex_of (AddrString a))
  /\ (2 <= String.length ("ff" +++ hex_of (AddrString a)) <= 510)%nat.
Proof.
  destruct a as [n|]; [|done]. intros _. cbn [AddrString]. destruct (hex_of_text (AddrString4 n)) as [[He Hs] Hl].
  pose proof (AddrString4_length n). unfold hex_text. rewrite append_length, str_forallb_app, Hs, Hl. cbn [String.length Nat.add Nat.even].
  rewrite <-Hl, He, Hl. split; [done|lia].
Qed.

Section Line.
Context (s : Scope) (b : Binding) (Hb : carried s b).

Lemma carried_addr : exists p a, ParsePrefix (Subnet s) = Some p /\ ParseAddr (Address b) = Some a /\ AddrString a = Address b
  /\ Contains p a = true /\ Is6 a = scope_is6 s /\ AddrZone a = EmptyString.
Proof.
  destruct (cr_address _ _ Hb) as (a & Ea & Es). destruct (cr_host _ _ Hb) as (p & Ep & (a' & Ea' & Hp)%valid_host_spec).
  rewrite Ea in Ea'. injection Ea' as <-. exists p, a. split_and!; try done; [|by eapply Contains_zone].
  unfold scope_is6. rewrite Ep. unfold Contains in Hp. bool_hyps. apply eqb_prop in H. unfold Is6. congruence.
Qed.

(** The identity the line of an IPv6 binding carries. *)
Lemma line_duid_text : scope_is6 s = true -> hex_text (line_duid sha256_hex b) /\ (4 <= String.length (line_duid sha256_hex b) <= 256)%nat
  /\ String.length (IAID b) = 8%nat /\ str_forallb hex_lower_char (IAID b) = true.
Proof.
  intros H6. destruct (cr_client _ _ Hb) as [Hv Hp]. pose proof (cr_identity _ _ Hb) as Hi. rewrite H6 in *.
  destruct (duid_client _ _ _ Hv Hp Hi) as (_ & Hd & Hl & Hi8 & Hil). unfold line_duid.
  destruct (bState b =?s "declined"); [|done]. destruct (marker_text (bScope b) (Address b)) as [Hm ->]. done || (split_and!; try done; lia).
Qed.

Lemma line4_words : scope_is6 s = false -> word (line_mac b) = true /\ word (line_client b) = true.
Proof.
  intros H4. destruct (cr_client _ _ Hb) as [Hv _]. pose proof (cr_identity _ _ Hb) as Hi. rewrite H4 in Hi.
  destruct Hi as [(hw & Em & Hl & Hr) Hid]. unfold line_mac, line_client.
  destruct carried_addr as (p & a & _ & _ & Es & _ & H6 & _). rewrite H4 in H6. apply negb_false_iff in H6.
  destruct (bState b =?s "declined").
  - split; [done|]. destruct (quarantine_text a H6) as [Ht Hlen]. rewrite Es in Ht, Hlen. 
    change ("ff:" +++ colonHex (hex_of (Address b))) with (String "f" (String "f" (String ":" (colonHex (hex_of (Address b)))))).
    destruct (hex_of_text (Address b)) as [Hx Hxl]. 
    assert (Hw : str_forallb (fun c => negb (go_space c)) (colonHex (hex_of (Address b))) = true).
    { destruct (decide (2 <= String.length (hex_of (Address b)))%nat) as [H2|H2].
      - pose proof (colonHex_word _ Hx H2) as Hw. by apply andb_prop in Hw as [_ Hw].
      - by destruct (hex_of (Address b)) as [|? [|]]; cbn in H2; try lia. }
    unfold word, str_forallb in *. cbn [is_empty string_chars forallb]. by rewrite Hw.
  - split; [rewrite Em; by apply mac_word|]. destruct (has_prefix (Client b) "id:") eqn:E; [|done].
    destruct (id_client _ Hv E). apply colonHex_word; [done|lia].
Qed.

Lemma line_expiry_range : 0 <= line_expiry b < 2^63.
Proof. pose proof (cr_end _ _ Hb). unfold line_expiry. destruct (_ =? _); lia. Qed.

Lemma parse_lease_start hw client : let ip := Address b in
  exists a, ParseAddr ip = Some a /\ Is6 a = scope_is6 s /\
  parse_lease c (pretty (line_expiry b)) hw ip (line_name b) client =
    if scope_is6 s then
      match ParseUint hw 32 with
      | None => Err "unsupported DHCPv6 IAID (temporary addresses are not IA_NA)"
      | Some iaid => Ok (mkImported (remove_char ":" client) (hex8 iaid) (bScope b) ip EmptyString EmptyString (lease_host b) (line_expiry b))
      end
    else Ok (mkImported EmptyString EmptyString (bScope b) ip hw client (lease_host b) (line_expiry b)).
Proof.
  cbv zeta. destruct carried_addr as (p & a & Ep & Ea & Es & Hp & H6 & _). destruct (cr_scope _ _ Hb) as [Hin Eid].
  exists a. split; [done|]. split; [done|]. unfold parse_lease. rewrite Ea, ParseInt64_pretty by apply line_expiry_range.
  replace (line_expiry b <? 0) with false by (symmetry; apply Z.ltb_ge; pose proof line_expiry_range; lia).
  cbn [fail_if mbind result_bind]. cbv zeta. rewrite (match_scope_found s p (Address b) a) by done. cbn [mbind result_bind].
  destruct (scope_prefix s Hin) as (q & devs & _ & Gs). destruct (label_key _ (gs_id _ _ _ Gs)) as (-> & _ & _).
  cbn [fail_if mbind result_bind]. rewrite H6, Eid, Es. replace (if line_name b =?s "*" then EmptyString else line_name b) with (lease_host b); [done|].
  unfold line_name, lease_host. destruct (labelPattern (Name b)) eqn:El; [|done]. destruct (String.eqb_spec (Name b) "*") as [E|E]; [|done].
  by rewrite E in El.
Qed.

(** The line of a binding reads back as its lease. *)
Lemma line_reads doc n : exists line, export_line sha256_hex b = Ok line /\ contains_char "010" line = false
  /\ parse_line c doc (n, line) = Ok (mkDocument (Leases doc ++ [lease_of s b]) (docDUID doc)).
Proof.
  destruct carried_addr as (p & a & _ & Ea & _ & _ & H6 & Hz). unfold export_line. rewrite Ea, H6.
  pose proof (pretty_word (line_expiry b) ltac:(pose proof line_expiry_range; lia)) as W0. pose proof (address_word _ _ Ea Hz) as W2.
  pose proof (name_word b) as W3. unfold lease_of. destruct (scope_is6 s) eqn:E6.
  - destruct (line_duid_text E6) as (Ht & Hl & Hi8 & Hil). destruct (hex8_read _ Hi8 Hil) as (n6 & -> & Hn & En). 
    pose proof (pretty_word n6 ltac:(lia)) as W1. pose proof (colonHex_word _ Ht ltac:(lia)) as W4. eexists. split; [reflexivity|].
    assert (HW : Forall (fun w => word w = true) [pretty (line_expiry b); pretty n6; Address b; line_name b; colonHex (line_duid sha256_hex b)]).
    { rewrite !Forall_cons. by split_and!. }
    split; [by apply line_no_newline|]. unfold parse_line. cbn [snd]. rewrite fields_join by done.
    destruct (parse_lease_start (pretty n6) (colonHex (line_duid sha256_hex b))) as (a' & _ & _ & ->). rewrite E6.
    rewrite ParseUint_pretty by lia. cbn [mbind result_bind]. by rewrite En, colonHex_read.
  - destruct (line4_words E6) as [W1 W4]. eexists. split; [reflexivity|].
    assert (HW : Forall (fun w => word w = true) [pretty (line_expiry b); line_mac b; Address b; line_name b; line_client b]).
    { rewrite !Forall_cons. by split_and!. }
    split; [by apply line_no_newline|]. unfold parse_line. cbn [snd]. rewrite fields_join by done.
    destruct (parse_lease_start (line_mac b) (line_client b)) as (a' & _ & _ & ->). by rewrite E6.
Qed.

End Line.

(** * The file *)

(** The leases of the lines, in order. *)
Definition line_of (b : Binding) (i : ImportedLease) : Prop := exists s, carried s b /\ i = lease_of s b.

Definition add_line (lines : list string) (b : Binding) : result string (list string) :=
  if has_line b then line ← export_line sha256_hex b; Ok (lines ++ [line]) else Ok lines.

Lemma lines_read bs acc : (forall b, b ∈ bs -> has_line b = true -> exists s, carried s b) ->
  exists ls leases, fold_m add_line acc bs = Ok (acc ++ ls) /\ Forall (fun l => contains_char "010" l = false) ls
  /\ Forall2 line_of (List.filter has_line bs) leases
  /\ forall nls doc, map snd nls = ls -> fold_m (parse_line c) doc nls = Ok (mkDocument (Leases doc ++ leases) (docDUID doc)).
Proof.
  revert acc. induction bs as [|b bs IH]; intros acc H.
  - exists [], []. rewrite app_nil_r. split_and!; [done|constructor|constructor|]. intros [|] [ls d] E; [|done]. cbn. by rewrite app_nil_r.
  - cbn [fold_m List.filter]. unfold add_line at 1. destruct (has_line b) eqn:Eb.
    + destruct (H b (list_elem_of_here _ _) Eb) as [s Hs]. destruct (line_reads s b Hs (mkDocument [] EmptyString) 0%nat) as (line & El & Hn & _).
      rewrite El. cbn [mbind result_bind]. destruct (IH (acc ++ [line])) as (ls & leases & E1 & E2 & E3 & E4); [intros b' Hb'; apply H; by right|].
      exists (line :: ls), (lease_of s b :: leases). rewrite E1, <-app_assoc. split; [done|]. split; [by constructor|].
      split; [constructor; [by exists s|done]|]. intros [|[n x] nls] doc E; [done|]. cbn [map snd] in E. injection E as -> E.
      cbn [fold_m]. destruct (line_reads s b Hs doc n) as (line' & El' & _ & Hp). rewrite El in El'. injection El' as <-. rewrite Hp.
      rewrite E4 by done. cbn [Leases docDUID]. by rewrite <-app_assoc.
    + destruct (IH acc) as (ls & leases & E1 & E2 & E3 & E4); [intros b' Hb'; apply H; by right|]. by exists ls, leases.
Qed.

Lemma imap_snd {A} (l : list A) : map snd (imap pair l) = l.
Proof. apply list_eq. intros i. setoid_rewrite list_lookup_fmap. rewrite list_lookup_imap. by destruct (l !! i). Qed.

Lemma join_line d : join " " ["duid"; d] = "duid " +++ d.
Proof. done. Qed.

(** What is exported parses, to the leases of the lines and the server's identity. *)
Lemma file_read snap raw : (forall b, b ∈ sBindings snap -> has_line b = true -> exists s, carried s b) -> ServerDUID snap = hex_of raw ->
  exists text leases, ExportDNSmasq sha256_hex snap = Ok text /\ Forall2 line_of (List.filter has_line (sBindings snap)) leases
  /\ ParseDNSmasq c text = Ok (mkDocument leases (hex_of raw)).
Proof.
  intros Hb Hd. unfold ExportDNSmasq. rewrite Hd. set (first := if is_empty (hex_of raw) then _ else _).
  destruct (lines_read (sBindings snap) first Hb) as (ls & leases & E1 & E2 & E3 & E4). change (fold_m _ first (sBindings snap)) with (fold_m add_line first (sBindings snap)).
  rewrite E1. cbn [mbind result_bind]. eexists _, leases. split; [reflexivity|]. split; [done|]. unfold ParseDNSmasq.
  assert (Hf : Forall (fun l => contains_char "010" l = false) first /\ forall nls doc, map snd nls = first ->
    fold_m (parse_line c) doc nls = Ok (mkDocument (Leases doc) (if is_empty (hex_of raw) then docDUID doc else hex_of raw))).
  { subst first. destruct (is_empty (hex_of raw)) eqn:Ee.
    - split; [constructor|]. intros [|] [? ?] E; [done|done].
    - destruct (hex_of_text raw) as [Ht Hl]. assert (W : word (colonHex (hex_of raw)) = true).
      { apply colonHex_word; [done|]. destruct raw; [done|]. rewrite Hl. cbn. lia. }
      rewrite <-join_line. assert (HW : Forall (fun w => word w = true) ["duid"; colonHex (hex_of raw)]) by (by repeat constructor).
      split; [constructor; [by apply line_no_newline|constructor]|]. intros [|[n x] [|]] doc E; [done| |done]. apply (f_equal (hd EmptyString)) in E. cbn [map snd hd] in E. subst x.
      cbn [fold_m]. unfold parse_line. cbn [snd]. rewrite fields_join by done. cbn. by rewrite colonHex_read. }
  destruct Hf as [Hf1 Hf2]. rewrite split_lines by (by apply Forall_app). set (body := if _ is [] then _ else _).
  assert (Hbody : forall nls doc, map snd nls = body ->
    fold_m (parse_line c) doc nls = fold_m (parse_line c) doc (if first ++ ls is [] then [] else nls)).
  { subst body. intros nls doc. destruct (first ++ ls); [|done]. by destruct nls as [|[n x] [|]]; try done; intros [= ->]. }
  rewrite imap_app, fold_m_app, Hbody by apply imap_snd.
  assert (E : fold_m (parse_line c) (mkDocument [] EmptyString) (if first ++ ls is [] then [] else imap pair body) = Ok (mkDocument leases (hex_of raw))).
  { subst body. assert (Hnls : forall nls, map snd nls = first ++ ls -> fold_m (parse_line c) (mkDocument [] EmptyString) nls = Ok (mkDocument leases (hex_of raw))).
    { intros nls (n1 & n2 & -> & H1 & H2)%map_eq_app. rewrite fold_m_app, Hf2 by done. cbn [mbind result_bind]. rewrite E4 by done. cbn.
      by destruct (hex_of raw). }
    destruct (first ++ ls) eqn:Efl; apply Hnls; [done|apply imap_snd]. }
  rewrite E. done.
Qed.

(** * The import *)

Section Adopted.
Context (s : Scope) (b : Binding) (Hb : carried s b).
Let t : Scope := with_enabled false s.

Lemma disabled_scope : find_scope (disabled c) (bScope b) = Some t.
Proof.
  destruct (cr_scope _ _ Hb) as [Hin <-]. destruct (Validate_good _ Hc) as (devs & ps & Hg). pose proof (gc_ids _ _ _ Hg) as Hnd.
  unfold find_scope, disabled. cbn [Scopes]. subst t. induction (Scopes c) as [|x l IH]; [by apply elem_of_nil in Hin|].
  cbn [map] in *. apply NoDup_cons in Hnd as [Hx Hnd]. cbn [find]. change (sID (with_enabled false x)) with (sID x).
  destruct (String.eqb_spec (sID x) (sID s)) as [E|E].
  - apply elem_of_cons in Hin as [->|Hin]; [done|]. exfalso. apply Hx. rewrite E. apply list_elem_of_In, in_map. by apply list_elem_of_In.
  - apply elem_of_cons in Hin as [->|Hin]; [done|]. by apply IH.
Qed.

(** The hardware address a line is imported with. *)
Definition line_hw : string := if scope_is6 s then EmptyString else line_mac b.

Lemma lease_mac : scope_is6 s = false -> exists hw, ParseMAC (line_mac b) = Some hw /\ length hw = 6%nat /\ MACString hw = line_mac b.
Proof.
  intros H4. pose proof (cr_identity _ _ Hb) as Hi. rewrite H4 in Hi. destruct Hi as [(hw & Em & Hl & Hr) _]. unfold line_mac.
  destruct (_ =?s _); [by eexists|]. exists hw. rewrite Em, read_mac by done. done.
Qed.

Lemma lease_imported_mac : MACString (imported_mac (lease_of s b)) = line_hw.
Proof.
  unfold line_hw, lease_of, imported_mac. destruct (scope_is6 s) eqn:E6; [done|]. cbn [iMACText].
  destruct (lease_mac E6) as (hw & -> & _ & E). done.
Qed.

Lemma duid_clean : scope_is6 s = true -> remove_char ":" (line_duid sha256_hex b) = line_duid sha256_hex b
  /\ to_lower (line_duid sha256_hex b) = line_duid sha256_hex b /\ to_lower (IAID b) = IAID b.
Proof.
  intros E6. destruct (line_duid_text s b Hb E6) as ([_ Hd] & _ & _ & Hi).
  by rewrite (remove_char_none _ hex_lower_char), !to_lower_hex.
Qed.

Definition line_identity : string :=
  if scope_is6 s then "duid:" +++ line_duid sha256_hex b +++ "/iaid:" +++ IAID b
  else if bState b =?s "declined" then "id:ff" +++ hex_of (Address b) else Client b.

Lemma lease_client : imported_client t (lease_of s b) = line_identity.
Proof.
  unfold imported_client, line_identity. change (scope_is6 t) with (scope_is6 s). destruct (scope_is6 s) eqn:E6.
  - unfold lease_of. rewrite E6. cbn [iDUID iIAID]. by destruct (duid_clean E6) as (-> & -> & ->).
  - pose proof lease_imported_mac as Hm. unfold line_hw in Hm. rewrite E6 in Hm. rewrite Hm. unfold lease_of. rewrite E6. cbn [ClientID].
    unfold line_client, line_mac. destruct (bState b =?s "declined") eqn:Ed.
    + destruct (hex_of_text (Address b)) as [Ht _].
      change (is_empty ("ff:" +++ colonHex (hex_of (Address b)))) with false.
      change ("ff:" +++ colonHex (hex_of (Address b)) =?s "*") with false. cbn [negb andb].
      rewrite remove_char_app, colonHex_read by done. change (remove_char ":" "ff:") with "ff".
      rewrite to_lower_app, (to_lower_hex (hex_of _)) by apply Ht. done.
    + pose proof (cr_identity _ _ Hb) as Hi. rewrite E6 in Hi. destruct Hi as [_ Hid]. destruct (has_prefix (Client b) "id:") eqn:Ei.
      * destruct (cr_client _ _ Hb) as [Hv _]. destruct (id_client _ Hv Ei) as [Ht Hl].
        pose proof (colonHex_word _ Ht ltac:(lia)) as Hw. apply andb_prop in Hw as [Hw _]. rewrite Hw.
        assert (colonHex (trim_prefix (Client b) "id:") <> "*") as Hstar.
        { intros E. apply (f_equal (remove_char ":")) in E. rewrite colonHex_read in E by done. rewrite E in Ht. by destruct Ht. }
        apply String.eqb_neq in Hstar as ->. cbn [negb andb]. rewrite colonHex_read by done. rewrite to_lower_hex by apply Ht.
        symmetry. by apply trim_prefix_eq.
      * cbn. by destruct Hid.
Qed.

Lemma lease_client_valid : validClient line_identity = true.
Proof.
  unfold line_identity. destruct (scope_is6 s) eqn:E6.
  - destruct (line_duid_text s b Hb E6) as (Hd & Hl & Hi8 & Hi). apply duid_client_valid; try done. split; [by rewrite Hi8|done].
  - destruct (bState b =?s "declined"); [|apply Hb]. destruct (carried_addr s b Hb) as (p & a & _ & _ & Es & _ & H6 & _).
    rewrite E6 in H6. apply negb_false_iff in H6. rewrite <-Es. apply (id_client_valid ("ff" +++ hex_of (AddrString a))); by apply quarantine_text.
Qed.

Lemma lease_marker : isQuarantineMarker sha256_hex t (lease_of s b) = (bState b =?s "declined").
Proof.
  unfold isQuarantineMarker. change (scope_is6 t) with (scope_is6 s). pose proof (cr_unmarked _ _ Hb) as Hu. destruct (scope_is6 s) eqn:E6.
  - change (sID t) with (sID s). destruct (cr_scope _ _ Hb) as [_ ->]. unfold lease_of. rewrite E6. cbn [iDUID iAddress].
    destruct (duid_clean E6) as (-> & El & _). unfold equal_fold. rewrite El.
    rewrite (to_lower_hex (marker_duid _ _ _)) by apply marker_text. unfold line_duid. destruct (String.eqb_spec (bState b) "declined") as [E|E].
    + apply String.eqb_refl.
    + apply String.eqb_neq. by apply Hu.
  - rewrite lease_imported_mac. unfold line_hw, line_mac. rewrite E6. destruct (String.eqb_spec (bState b) "declined") as [E|E]; [done|].
    apply String.eqb_neq. by apply Hu.
Qed.

Lemma lease_end : import_end (lease_of s b) = End_ b.
Proof.
  pose proof (cr_end _ _ Hb). unfold import_end, lease_of. destruct (scope_is6 s); cbn [Expiry]; unfold line_expiry;
    destruct (Z.eqb_spec (End_ b) forever) as [->|]; try done; by rewrite (proj2 (Z.eqb_neq _ 0)) by lia.
Qed.

Lemma lease_key : iScope (lease_of s b) = bScope b /\ iAddress (lease_of s b) = Address b /\ 0 <= Expiry (lease_of s b)
  /\ (scope_is6 s = false -> iDUID (lease_of s b) = EmptyString).
Proof.
  pose proof (line_expiry_range s b Hb). unfold lease_of. destruct (scope_is6 s); cbn; split_and!; done || lia.
Qed.

(** The binding a lease comes back as. *)
Definition returned (b' : Binding) : Prop :=
  bScope b' = bScope b /\ Address b' = Address b /\ End_ b' = End_ b /\ Origin b' <> originPD
  /\ if bState b =?s "declined" then bState b' = "declined"
     else bState b' = "active" /\ Client b' = Client b /\ IAID b' = (if scope_is6 s then IAID b else EmptyString)
          /\ MAC b' = (if scope_is6 s then EmptyString else MAC b).

(** The bindings an import writes for the lease. *)
Lemma returned_marker now ev pr : (bState b =?s "declined") = true -> returned (imported_binding sha256_hex now t (lease_of s b) "declined" ev pr).
Proof.
  intros Ed. destruct lease_key as (K1 & K2 & _). unfold returned. rewrite Ed. unfold imported_binding. cbn.
  by rewrite K1, K2, lease_end.
Qed.

Lemma returned_lease now ev pr : (bState b =?s "declined") = false -> returned (imported_binding sha256_hex now t (lease_of s b) "active" ev pr).
Proof.
  intros Ed. destruct lease_key as (K1 & K2 & _). unfold returned. rewrite Ed. unfold imported_binding.
  cbn [bScope Address End_ Origin bState Client IAID MAC]. rewrite K1, K2, lease_end, lease_client, lease_imported_mac.
  change (scope_is6 t) with (scope_is6 s). unfold line_identity, line_hw, line_mac, line_duid. rewrite Ed.
  split_and!; [done..| | |by destruct (scope_is6 s)].
  - destruct (scope_is6 s) eqn:E6; [|done]. destruct (cr_client _ _ Hb) as [Hv Hp]. pose proof (cr_identity _ _ Hb) as Hi. rewrite E6 in *.
    by destruct (duid_client _ _ _ Hv Hp Hi) as [<- _].
  - unfold lease_of. by destruct (scope_is6 s).
Qed.

Lemma returned_identity b' dev n nid ev : returned b' -> returned (with_identity dev n nid ev b').
Proof. done. Qed.

Lemma import_step now l : busy now (readBinding l (bScope b) (Address b)) = false ->
  let old := readBinding l (bScope b) (Address b) in
  exists b', returned b' /\ (if bState b =?s "declined" then import_marker sha256_hex now t (lease_of s b) old l
    else import_lease sha256_hex now (disabled c) t (lease_of s b) old l) = Ok (save now b' "import" l).
Proof.
  intros Hbusy old. fold old in Hbusy. destruct (bState b =?s "declined") eqn:Ed.
  - eexists. split; [apply (returned_marker now "quarantine restored from exported lease file" 0 Ed)|]. unfold import_marker.
    unfold busy, liveState in Hbusy. unfold usable_state. destruct (now <? End_ old); [|done].
    cbn [andb] in *. bool_hyps. by rewrite !(proj2 (String.eqb_neq _ _)).
  - unfold import_lease. fold (busy now old). rewrite Hbusy. cbn [andb fail_if mbind result_bind].
    assert ((Client old =?s imported_client t (lease_of s b)) && (bState old =?s "active") && (now <? End_ old) = false) as ->.
    { unfold busy, liveState in Hbusy. destruct (now <? End_ old); [|by rewrite andb_false_r]. cbn [andb] in Hbusy. bool_hyps.
      by rewrite (proj2 (String.eqb_neq (bState old) "active")), andb_false_r. }
    pose proof (returned_lease now EmptyString (import_end (lease_of s b)) Ed) as Hr.
    destruct (reservation _ _ _); eexists; (split; [|reflexivity]); [by apply returned_identity|done].
Qed.

Lemma import_lease_of now adopted l : (scope_is6 s = true -> adopted = true \/ is_empty (lookup_default (meta l) "duid" EmptyString) = false) ->
  busy now (readBinding l (bScope b) (Address b)) = false ->
  exists l', import_one sha256_hex now (disabled c) adopted l (lease_of s b) = Ok l'
  /\ if End_ b <=? now then l' = l else exists b', returned b' /\ l' = save now b' "import" l.
Proof.
  intros Hd Hbusy. destruct lease_key as (K1 & K2 & K3 & K4). destruct (carried_addr s b Hb) as (p & a & Ep & Ea & _).
  destruct (cr_host _ _ Hb) as (p' & Ep' & Hh). rewrite Ep in Ep'. injection Ep' as <-. destruct (cr_free _ _ Hb) as [F1 F2].
  unfold import_one. rewrite K1, K2, disabled_scope. rewrite (proj2 (Z.ltb_ge _ 0)) by lia. cbn [fail_if mbind result_bind].
  assert (negb (is_empty (iDUID (lease_of s b))) && negb adopted && is_empty (lookup_default (meta l) "duid" EmptyString) = false) as ->.
  { destruct (scope_is6 s) eqn:E6; [destruct (Hd eq_refl) as [-> | ->]; by rewrite ?andb_false_r|by rewrite K4]. }
  cbn [fail_if mbind result_bind]. change (Enabled t) with false. cbn [fail_if mbind result_bind]. change (Subnet t) with (Subnet s).
  change (sServer t) with (sServer s). change (Router t) with (Router s). change (scope_is6 t) with (scope_is6 s). rewrite Ep, Hh.
  apply String.eqb_neq in F1 as ->. apply String.eqb_neq in F2 as ->. cbn [negb orb fail_if mbind result_bind].
  rewrite lease_client, lease_client_valid, lease_marker, lease_end.
  assert ((negb (scope_is6 s) && match ParseMAC (iMACText (lease_of s b)) with Some hw => negb (length hw =? 6)%nat | None => true end) = false) as ->.
  { unfold lease_of. destruct (scope_is6 s) eqn:E6; [done|]. cbn [iMACText]. destruct (lease_mac E6) as (hw & -> & -> & _). done. }
  cbn [fail_if check mbind result_bind]. destruct (End_ b <=? now); [by eexists|].
  destruct (import_step now l Hbusy) as (b' & Hr & ->). exists (save now b' "import" l). split; [done|]. by exists b'.
Qed.
End Adopted.

Lemma returned_key s b b' : returned s b b' -> key_of b' = key_of b.
Proof. intros (E1 & E2 & _). unfold key_of. by rewrite E1, E2. Qed.

(** A binding that has come back. *)
Definition back (now : Z) (bs : list Binding) (k : string) (b' : Binding) : Prop :=
  exists s b, b ∈ bs /\ carried s b /\ now < End_ b /\ returned s b b' /\ k = key_of b.

Lemma back_cons now b bs k b' : back now bs k b' -> back now (b :: bs) k b'.
Proof. intros (s & b0 & H0 & H). exists s, b0. split; [by right|done]. Qed.

Lemma import_fold now adopted bs leases l : Forall2 line_of bs leases -> NoDup (map key_of bs) ->
  (forall b, b ∈ bs -> bindings l !! key_of b = None) ->
  (forall s b, b ∈ bs -> carried s b -> scope_is6 s = true -> adopted = true) ->
  exists l', fold_m (import_one sha256_hex now (disabled c) adopted) l leases = Ok l' /\ meta l' = meta l
  /\ (forall k b', bindings l' !! k = Some b' -> bindings l !! k = Some b' \/ back now bs k b')
  /\ (forall k, k ∉ map key_of bs -> bindings l' !! k = bindings l !! k)
  /\ forall b, b ∈ bs -> now < End_ b -> exists b', bindings l' !! key_of b = Some b' /\ back now bs (key_of b) b'.
Proof.
  intros HF. revert l. induction HF as [|b i bs leases (s & Hs & ->) HF IH]; intros l Hnd Hfree H6.
  - exists l. split_and!; try done; [auto|]. by intros b Hb%elem_of_nil.
  - cbn [map] in Hnd. apply NoDup_cons in Hnd as [Hx Hnd].
    assert (Hb : busy now (readBinding l (bScope b) (Address b)) = false).
    { unfold readBinding. change (bindingKey _ _) with (key_of b). rewrite Hfree by left. unfold busy. cbn. by rewrite andb_false_r. }
    destruct (import_lease_of s b Hs now adopted l) as (l1 & E1 & E2); [intros H; left; eapply H6; [left|done|done]|done|].
    assert (Hl1 : meta l1 = meta l /\ (forall k, k <> key_of b -> bindings l1 !! k = bindings l !! k)
      /\ (forall b', bindings l1 !! key_of b = Some b' -> back now (b :: bs) (key_of b) b')
      /\ (now < End_ b -> exists b', bindings l1 !! key_of b = Some b')).
    { destruct (Z.leb_spec (End_ b) now) as [He|He].
      - subst l1. rewrite Hfree by left. split_and!; try done. lia.
      - destruct E2 as (b' & Hr & ->). destruct (save_fields now b' "import" l) as (F1 & _ & _ & _ & _ & _ & _ & _ & _ & F10).
        rewrite F1, F10, (returned_key _ _ _ Hr). split_and!; [done| | |].
        + intros k Hk. by apply lookup_insert_ne.
        + intros b2. rewrite lookup_insert_eq. intros [= <-]. exists s, b. split_and!; [left|done..].
        + intros _. exists b'. apply lookup_insert_eq. }
    destruct Hl1 as (M1 & O1 & B1 & P1). destruct (IH l1) as (l' & E & M & B & O & P); [done| | |].
    { intros b2 H2. rewrite O1; [apply Hfree; by right|]. intros E. apply Hx. rewrite <-E. apply list_elem_of_In, in_map. by apply list_elem_of_In. }
    { intros s2 b2 H2. apply H6. by right. }
    exists l'. cbn [fold_m]. rewrite E1. split_and!; [done|congruence| | |].
    + intros k b' Hk. destruct (decide (k = key_of b)) as [->|Hne].
      * right. apply B1. by rewrite <-O.
      * destruct (B k b' Hk) as [Hl|Hl]; [left; by rewrite <-O1|right; by apply back_cons].
    + intros k [Hk1 Hk2]%not_elem_of_cons. by rewrite O, O1.
    + intros b2 [->|H2]%elem_of_cons He.
      * destruct (P1 He) as [b' Hb']. exists b'. rewrite O by done. split; [done|by apply B1].
      * destruct (P b2 H2 He) as (b' & Hb' & Hk). exists b'. split; [done|by apply back_cons].
Qed.

(** * From ledger to ledger *)

(** A live binding that the lease file can express. *)
Definition on_file (now : Z) (b : Binding) : Prop := has_line b = true /\ now < End_ b.

Lemma selection_all m : selection EmptyString EmptyString m = m.
Proof. unfold selection. apply map_filter_id. done. Qed.

Lemma expire_key at_ b : key_of (expire_at at_ b) = key_of b.
Proof. unfold expire_at. by destruct (_ && _). Qed.

Lemma snapshot_now now l : 0 <= now -> wf l -> exists snap, take_snapshot now EmptyString EmptyString 0 l = Ok snap
  /\ ServerDUID snap = hex_of (lookup_default (meta l) "duid" EmptyString)
  /\ sBindings snap ≡ₚ map (expire_at now) (values (bindings l)).
Proof.
  intros Hn Hw. unfold take_snapshot. cbn [Z.eqb]. rewrite (proj2 (Z.ltb_ge now 0)), (Z.ltb_irrefl now), Z.eqb_refl by lia.
  cbn [fail_if mbind result_bind]. eexists. split; [reflexivity|]. cbn [ServerDUID sBindings]. split; [done|].
  rewrite merge_sort_Permutation, current_states, selection_all; [done|]. intros k b Hk. by apply (wf_keys _ Hw).
Qed.

Lemma values_keys l : wf l -> map key_of (values (bindings l)) = sorted_keys (bindings l).
Proof.
  intros Hw. unfold values. assert (H : forall ks, (forall k, k ∈ ks -> is_Some (bindings l !! k)) -> map key_of (omap (fun k => bindings l !! k) ks) = ks).
  { induction ks as [|k ks IH]; intros Hk; [done|]. cbn [omap list_omap]. destruct (Hk k (list_elem_of_here _ _)) as [b Eb]. rewrite Eb.
    cbn [map]. destruct (wf_keys _ Hw _ _ Eb) as [<- _]. f_equal. apply IH. intros k' Hk'. apply Hk. by right. }
  apply H. intros k. apply elem_of_sorted_keys.
Qed.

Lemma snapshot_lines now l snap : wf l -> sBindings snap ≡ₚ map (expire_at now) (values (bindings l)) ->
  (forall b, b ∈ sBindings snap -> has_line b = true -> stored l b /\ on_file now b)
  /\ (forall b, stored l b -> on_file now b -> b ∈ List.filter has_line (sBindings snap))
  /\ NoDup (map key_of (List.filter has_line (sBindings snap))).
Proof.
  intros Hw Hp. assert (Hfile : forall b, has_line (expire_at now b) = true -> expire_at now b = b /\ on_file now b).
  { intros b. unfold expire_at, on_file. destruct ((End_ b <=? now) && liveState (bState b)) eqn:E; [done|]. intros H. split; [done|].
    split; [done|]. unfold has_line in H. bool_hyps. rewrite H, andb_true_r in E. by apply Z.leb_gt. }
  split; [|split].
  - intros b. rewrite Hp. intros (b0 & -> & (k & H0)%elem_of_values)%list_elem_of_fmap H. apply Hfile in H as [E H]. rewrite E.
    split; [|done]. destruct (wf_keys _ Hw _ _ H0) as [-> _]. done.
  - intros b Hs Hf. rewrite list_elem_of_In, filter_In, <-list_elem_of_In, Hp. destruct Hf as [Hl He]. split; [|done].
    apply list_elem_of_fmap. exists b. split; [|apply elem_of_values; by eexists]. unfold expire_at. by rewrite (proj2 (Z.leb_gt _ _)).
  - assert (Hnd : NoDup (map key_of (sBindings snap))).
    { rewrite (Permutation_map key_of Hp), map_map. rewrite (map_ext _ key_of) by apply expire_key. rewrite values_keys by done.
      apply NoDup_sorted_keys. }
    clear Hp. induction (sBindings snap) as [|b bs IH]; [constructor|]. cbn [map] in Hnd. apply NoDup_cons in Hnd as [Hx Hnd].
    cbn [List.filter]. destruct (has_line b); [|by apply IH]. cbn [map]. apply NoDup_cons. split; [|by apply IH].
    intros (b' & E & Hb')%list_elem_of_fmap. apply Hx. rewrite E. apply list_elem_of_In, in_map. apply list_elem_of_In, filter_In in Hb'. tauto.
Qed.

Context (duid_valid : string -> bool).

Lemma adopt_own raw : is_empty raw = false -> duid_valid raw = true ->
  adoptDUID duid_valid (disabled c) (hex_of raw) empty_ledger = Ok (set_meta "duid" raw empty_ledger).
Proof.
  intros Hr Hv. unfold adoptDUID. destruct (hex_of_text raw) as [[_ Ht] _].
  rewrite (remove_char_none _ hex_lower_char), read_hex, Hv by done. cbn [check mbind result_bind].
  assert (existsb (fun s => scope_is6 s && Enabled s) (Scopes (disabled c)) = false) as ->; [|done].
  cbn [disabled Scopes]. induction (Scopes c) as [|s l IH]; [done|]. cbn [map existsb]. change (Enabled (with_enabled false s)) with false.
  by rewrite andb_false_r.
Qed.

Lemma lines_limit l snap now : sBindings snap ≡ₚ map (expire_at now) (values (bindings l)) -> Z.of_nat (size (bindings l)) <= 10000 -> wf l ->
  (10000 <? Z.of_nat (length (List.filter has_line (sBindings snap)))) = false.
Proof.
  intros Hp Hs Hw. apply Z.ltb_ge. pose proof (Permutation_length Hp) as Hlen. rewrite length_map in Hlen.
  pose proof (f_equal (@length _) (values_keys l Hw)) as Hk. rewrite length_map in Hk. unfold sorted_keys in Hk.
  rewrite (Permutation_length (sort_strings_permutation _)), length_map in Hk.
  rewrite length_map_to_list in Hk.
  pose proof (filter_length_le has_line (sBindings snap)). lia.
Qed.

(** The ledger the import starts from. *)
Lemma adopt_start raw : (raw <> EmptyString -> duid_valid raw = true) ->
  let l0 := if is_empty raw then empty_ledger else set_meta "duid" raw empty_ledger in
  (if is_empty (hex_of raw) then Ok empty_ledger else adoptDUID duid_valid (disabled c) (hex_of raw) empty_ledger) = Ok l0
  /\ bindings l0 = ∅ /\ lookup_default (meta l0) "duid" EmptyString = raw /\ is_empty (hex_of raw) = is_empty raw.
Proof.
  intros Hv. destruct raw as [|x r] eqn:Er; [done|]. cbn [is_empty]. split_and!; [|done|done|done].
  change (is_empty (hex_of (String x r))) with false. cbv iota. apply adopt_own; [done|by apply Hv].
Qed.

(** C13: A lease file that is handed back carries every lease it can express.  Take a well-formed ledger
    of at most 10000 bindings (what an import accepts), whose live address bindings each sit in a
    scope of the configuration, at a host address of its subnet in canonical spelling that is
    neither the server's nor the router's, with an end dnsmasq can write, a client identity of the
    scope's family that matches its hardware address or DUID and IAID, and, unless declined, not
    the identity the file marks quarantine with; and let the server's DUID be a valid one, which
    must be there when a binding has a DUID.  Then what ExportDNSmasq writes is accepted by
    ParseDNSmasq and, in an empty ledger and with the scopes disabled as a handover has them, by
    ImportDocument, and the imported ledger holds exactly those bindings and nothing else: each with
    its scope, address and end; in quarantine when it was declined, and otherwise active with its
    client and, for IPv4, its hardware address, or, for IPv6, its IAID (an IPv6 line has no hardware
    address, and an offer comes back as a lease).  The server's DUID comes back too. *)
Theorem lease_file_roundtrip now l :
  0 <= now -> wf l -> Z.of_nat (size (bindings l)) <= 10000 ->
  (forall b, stored l b -> on_file now b -> exists s, carried s b) ->
  let raw := lookup_default (meta l) "duid" EmptyString in
  (raw <> EmptyString -> duid_valid raw = true) ->
  (forall b, stored l b -> on_file now b -> DUID b <> EmptyString -> raw <> EmptyString) ->
  exists snap text doc l',
    take_snapshot now EmptyString EmptyString 0 l = Ok snap /\ ExportDNSmasq sha256_hex snap = Ok text
    /\ ParseDNSmasq c text = Ok doc
    /\ ImportDocument sha256_hex duid_valid now (disabled c) doc empty_ledger = (l', Ok tt)
    /\ lookup_default (meta l') "duid" EmptyString = raw
    /\ (forall b, stored l b -> on_file now b -> exists s b', carried s b /\ stored l' b' /\ returned s b b')
    /\ (forall b', stored l' b' -> exists s b, stored l b /\ on_file now b /\ carried s b /\ returned s b b').
Proof.
  intros Hn Hw Hsz Hcar raw Hv H6. destruct (snapshot_now now l Hn Hw) as (snap & E1 & Hd & Hp).
  destruct (snapshot_lines now l snap Hw Hp) as (L1 & L2 & L3).
  destruct (file_read snap raw) as (text & leases & E2 & HF & E3); [intros b Hb Hl; destruct (L1 b Hb Hl); auto|done|].
  destruct (adopt_start raw Hv) as (A1 & A2 & A3 & A4). set (l0 := if is_empty raw then _ else _) in *.
  destruct (import_fold now (negb (is_empty (hex_of raw))) _ leases l0 HF L3) as (l' & E4 & M & B & _ & P).
  { intros b _. by rewrite A2, lookup_empty. }
  { intros s b Hb Hs H6s. apply list_elem_of_In, filter_In in Hb as [Hb Hl]. apply list_elem_of_In in Hb. destruct (L1 b Hb Hl) as [Hst Hf].
    rewrite A4. assert (raw <> EmptyString); [|by destruct raw]. apply (H6 b Hst Hf). intros E.
    destruct (cr_client _ _ Hs) as [Hval Hpre]. pose proof (cr_identity _ _ Hs) as Hi. rewrite H6s in *.
    destruct (duid_client _ _ _ Hval Hpre Hi) as (_ & _ & Hlen & _). rewrite E in Hlen. cbn in Hlen. lia. }
  assert (Hback : forall k b', back now (List.filter has_line (sBindings snap)) k b' ->
    exists s b, stored l b /\ on_file now b /\ carried s b /\ returned s b b' /\ k = key_of b).
  { intros k b' (s & b & Hb & Hs & _ & Hr & Ek). apply list_elem_of_In, filter_In in Hb as [Hb Hl]. apply list_elem_of_In in Hb.
    destruct (L1 b Hb Hl). by exists s, b. }
  exists snap, text, (mkDocument leases (hex_of raw)), l'. split_and!; [done..| | | |].
  - unfold ImportDocument. cbn [Leases docDUID]. rewrite <-(Forall2_length _ _ _ HF), (lines_limit l snap now) by done. unfold update.
    rewrite A1. cbn [mbind result_bind]. rewrite E4. done.
  - by rewrite M.
  - intros b Hst Hf. destruct (P b) as (b' & Hb' & Hk); [by apply L2|apply Hf|]. destruct Hk as (s & b2 & Hb2 & Hs & _ & Hr & Ek).
    assert (b2 = b) as ->.
    { apply list_elem_of_In, filter_In in Hb2 as [Hb2 Hl2]. apply list_elem_of_In in Hb2. destruct (L1 b2 Hb2 Hl2) as [Hst2 _].
      unfold stored in Hst, Hst2. congruence. }
    exists s, b'. split; [done|]. split; [|done]. unfold stored. by rewrite (returned_key _ _ _ Hr).
  - intros b' Hb'. unfold stored in Hb'. destruct (B _ _ Hb') as [H|H]; [by rewrite A2, lookup_empty in H|].
    destruct (Hback _ _ H) as (s & b & H1 & H2 & H3 & H4 & _). by exists s, b.
Qed.

End LeaseFile.
