(* ===== verification/Manager.v ===== *)
(** internal/addressbook/server.go: the Manager, which serves a configuration.

    The listeners are the sets of their keys (DHCP sockets by family and interface, DNS servers
    by address, router advertisers by scope, TFTP servers by address with their root).  Beside
    them stand the sockets the process has open ([mOpen]), which Apply opens and closes one by
    one, on its error paths too.  What the host answers while they are opened is a function of the
    call ([opens]); within one Apply no call is made twice. *)

From S2P Require Import Prelude NetAddr Ledger Config Report.
Local Open Scope Z_scope.

Inductive socket :=
| DHCPSocket (key : string)
| UDPSocket (server : string)
| TCPSocket (server : string)
| TFTPSocket (server : string)
| RASocket (id : string).
#[global] Instance socket_eq_dec : EqDecision socket.
Proof. solve_decision. Defined.
#[global] Instance socket_countable : Countable socket.
Proof.
  apply (inj_countable' (fun x => match x with DHCPSocket k => (0%nat, k) | UDPSocket k => (1%nat, k) | TCPSocket k => (2%nat, k) | TFTPSocket k => (3%nat, k) | RASocket k => (4%nat, k) end)
    (fun p => match fst p with O => DHCPSocket | 1%nat => UDPSocket | 2%nat => TCPSocket | 3%nat => TFTPSocket | _ => RASocket end (snd p))).
  by intros [].
Defined.

Record Manager := mkManager {
  mConfig : Config;
  mDHCP : gset string;
  mDNS : gset string;
  mRA : gset string;
  mTFTP : gmap string string;
  mStandby : bool;
  mOpen : gset socket;
}.

Definition no_config : Config := mkConfig [] [] None.
Definition NewManager : Manager := mkManager no_config ∅ ∅ ∅ ∅ false ∅.
Definition SetStandby (on : bool) (m : Manager) : Manager :=
  mkManager (mConfig m) (mDHCP m) (mDNS m) (mRA m) (mTFTP m) on (mOpen m).

(** The sockets of a set of listeners: one per DHCP and TFTP server and advertiser, two per DNS server. *)
Definition sockets_of (dhcp dns ra : gset string) (tftp : gmap string string) : gset socket :=
  set_map DHCPSocket dhcp ∪ set_map UDPSocket dns ∪ set_map TCPSocket dns ∪ set_map RASocket ra ∪ set_map TFTPSocket (dom tftp).
Definition listening (m : Manager) : gset socket := sockets_of (mDHCP m) (mDNS m) (mRA m) (mTFTP m).

Definition set_open (xs : gset socket) (m : Manager) : Manager := mkManager (mConfig m) (mDHCP m) (mDNS m) (mRA m) (mTFTP m) (mStandby m) xs.
Definition opens_sockets (xs : gset socket) (m : Manager) : Manager := set_open (mOpen m ∪ xs) m.
Definition closes_sockets (xs : gset socket) (m : Manager) : Manager := set_open (mOpen m ∖ xs) m.

(** Close stops every listener and forgets the configuration. *)
Definition Close (m : Manager) : Manager := mkManager no_config ∅ ∅ ∅ ∅ (mStandby m) (mOpen m ∖ listening m).

(** The calls that open listeners: ownsAddress, listenDHCP or listenDHCP6, startCore, the two DNS
    sockets, os.Stat of the TFTP root, its socket, and newRA. *)
Inductive open_call :=
| OwnsAddress (iface address : string)
| ListenDHCP (key : string)
| StartCore (key : string)
| ListenUDP (server : string)
| ListenTCP (server : string)
| StatDir (root : string)
| ListenTFTP (server : string)
| NewRA (id : string).

Definition tftpServes (t : TFTPConfig) (s : Scope) : bool :=
  match tInterfaces t with [] => true | l => mem_str (Interface s) l end.

(** What one Apply has opened and wants so far. *)
Record opening := mkOpening {
  added : gset string; addedDNS : gset string; addedTFTP : gmap string string; addedRA : gset string;
  wanted : gset string; wantDNS : gset string; wantTFTP : gmap string string; wantRA : gset string;
}.
Definition no_opening : opening := mkOpening ∅ ∅ ∅ ∅ ∅ ∅ ∅ ∅.

Section Apply.
Context (opens : open_call -> bool).

(** What Apply has opened is closed again before it returns an error. *)
Definition cleanup (o : opening) (m : Manager) : Manager :=
  closes_sockets (sockets_of (added o) (addedDNS o) (addedRA o) (addedTFTP o)) m.

Definition open_dhcp (s : Scope) (m : Manager) (o : opening) : Manager * result string opening :=
  let key := socketKey s in
  let o1 := mkOpening (added o) (addedDNS o) (addedTFTP o) (addedRA o) ({[key]} ∪ wanted o) ({[sServer s]} ∪ wantDNS o)
              (wantTFTP o) (wantRA o) in
  if bool_decide (key ∈ mDHCP m) || bool_decide (key ∈ added o) then (m, Ok o1)
  else if negb (opens (ListenDHCP key)) then (cleanup o1 m, Err ("DHCP bind " +++ key +++ " (stop previous authority first)"))
  else let m1 := opens_sockets {[DHCPSocket key]} m in
       if negb (opens (StartCore key)) then (cleanup o1 (closes_sockets {[DHCPSocket key]} m1), Err "start DHCP server")
       else (m1, Ok (mkOpening ({[key]} ∪ added o1) (addedDNS o1) (addedTFTP o1) (addedRA o1) (wanted o1) (wantDNS o1) (wantTFTP o1) (wantRA o1))).

Definition open_dns (s : Scope) (m : Manager) (o : opening) : Manager * result string opening :=
  if bool_decide (sServer s ∈ mDNS m) || bool_decide (sServer s ∈ addedDNS o) then (m, Ok o)
  else if negb (opens (ListenUDP (sServer s))) then (cleanup o m, Err "listen udp")
  else let m1 := opens_sockets {[UDPSocket (sServer s)]} m in
       if negb (opens (ListenTCP (sServer s))) then (cleanup o (closes_sockets {[UDPSocket (sServer s)]} m1), Err "listen tcp")
       else (opens_sockets {[TCPSocket (sServer s)]} m1,
             Ok (mkOpening (added o) ({[sServer s]} ∪ addedDNS o) (addedTFTP o) (addedRA o) (wanted o) (wantDNS o) (wantTFTP o) (wantRA o))).

(** The running TFTP server of an address is closed. *)
Definition stop_tftp (server : string) (m : Manager) : Manager :=
  match mTFTP m !! server with
  | Some _ => closes_sockets {[TFTPSocket server]}
                (mkManager (mConfig m) (mDHCP m) (mDNS m) (mRA m) (delete server (mTFTP m)) (mStandby m) (mOpen m))
  | None => m
  end.

(** A changed root closes the running TFTP server before the new one binds: the manager changes
    even when the Apply fails later. *)
Definition open_tftp (c : Config) (s : Scope) (m : Manager) (o : opening) : Manager * result string opening :=
  match TFTP c with
  | Some t =>
    if negb (scope_is6 s) && tftpServes t s then
      let o1 := mkOpening (added o) (addedDNS o) (addedTFTP o) (addedRA o) (wanted o) (wantDNS o)
                  (<[sServer s := Root t]> (wantTFTP o)) (wantRA o) in
      if bool_decide (mTFTP m !! sServer s = Some (Root t)) || bool_decide (is_Some (addedTFTP o !! sServer s)) then (m, Ok o1)
      else if negb (opens (StatDir (Root t))) then (cleanup o1 m, Err ("tftp root " +++ Root t +++ " is not a directory"))
      else let m1 := stop_tftp (sServer s) m in
           if negb (opens (ListenTFTP (sServer s))) then (cleanup o1 m1, Err ("TFTP bind " +++ sServer s))
           else (opens_sockets {[TFTPSocket (sServer s)]} m1,
                 Ok (mkOpening (added o1) (addedDNS o1) (<[sServer s := Root t]> (addedTFTP o1)) (addedRA o1)
                       (wanted o1) (wantDNS o1) (wantTFTP o1) (wantRA o1)))
    else (m, Ok o)
  | None => (m, Ok o)
  end.

(** Whether the running advertiser of the scope announces something else. *)
Definition ra_moved (m : Manager) (s : Scope) : bool :=
  match find_scope (mConfig m) (sID s) with
  | Some old => bool_decide (sID s ∈ mRA m)
                && (negb (Interface old =?s Interface s) || negb (Subnet old =?s Subnet s) || negb (sServer old =?s sServer s))
  | None => false
  end.

Definition open_ra (s : Scope) (m : Manager) (o : opening) : Manager * result string opening :=
  match RA s with
  | None => (m, Ok o)
  | Some _ =>
    if ra_moved m s then (cleanup o m, Err "disable RA before moving its interface, prefix or DNS address")
    else
      let o1 := mkOpening (added o) (addedDNS o) (addedTFTP o) (addedRA o) (wanted o) (wantDNS o) (wantTFTP o) ({[sID s]} ∪ wantRA o) in
      if bool_decide (sID s ∈ mRA m) then (m, Ok o1)
      else if negb (opens (NewRA (sID s))) then (cleanup o1 m, Err "start router advertisement")
      else (opens_sockets {[RASocket (sID s)]} m,
            Ok (mkOpening (added o1) (addedDNS o1) (addedTFTP o1) ({[sID s]} ∪ addedRA o1) (wanted o1) (wantDNS o1) (wantTFTP o1) (wantRA o1)))
  end.

(** The next part of the loop body, unless it has returned. *)
Definition and_then (x : Manager * result string opening) (k : Manager -> opening -> Manager * result string opening) : Manager * result string opening :=
  match x with
  | (m, Ok o) => k m o
  | (m, Err e) => (m, Err e)
  end.

Definition open_scope (c : Config) (s : Scope) (m : Manager) (o : opening) : Manager * result string opening :=
  if negb (Enabled s) then (m, Ok o)
  else if negb (opens (OwnsAddress (Interface s) (sServer s))) then (cleanup o m, Err (Interface s +++ " does not own server address " +++ sServer s))
  else and_then (and_then (and_then (open_dhcp s m o) (open_dns s)) (open_tftp c s)) (open_ra s).

Fixpoint open_scopes (c : Config) (ss : list Scope) (m : Manager) (o : opening) : Manager * result string opening :=
  match ss with
  | [] => (m, Ok o)
  | s :: ss' => and_then (open_scope c s m o) (open_scopes c ss')
  end.

(** A live binding of another scope inside a subnet of the new configuration. *)
Definition foreign_binding (s : Scope) (b : Binding) : bool :=
  liveState (bState b) && negb (Origin b =?s originPD) && negb (sID s =?s bScope b)
  && match ParsePrefix (Subnet s), ParseAddr (Address b) with
     | Some p, Some a => Contains p a
     | _, _ => false                (* MustParsePrefix, MustParseAddr: both were parsed when stored *)
     end.

Definition check_bindings (c : Config) (bs : list Binding) : result string unit :=
  for_each (fun b => for_each (fun s => fail_if (foreign_binding s b)
    ("scope " +++ sID s +++ " overlaps outstanding binding in " +++ bScope b +++ "; retain original scope ID")) (Scopes c)) bs.

(** The checks Apply makes before it reads the ledger. *)
Definition check_config (c : Config) (m : Manager) : result string unit :=
  Validate c;;
  if mStandby m then for_each (fun s => fail_if (Enabled s)
    ("this authority is a warm standby; promote it before enabling scope " +++ sID s)) (Scopes c) else Ok tt.

(** Everything else it does before it changes durable state. *)
Definition prepare (now : Z) (c : Config) (l : ledger) (m : Manager) : Manager * result string opening :=
  match (snap ← take_snapshot now EmptyString EmptyString 0 l; check_bindings c (sBindings snap)) with
  | Err e => (m, Err e)
  | Ok _ => open_scopes c (Scopes c) m no_opening
  end.

(** The sockets of running listeners that are wanted no more. *)
Definition retired (o : opening) (m : Manager) : gset socket :=
  sockets_of (mDHCP m ∖ wanted o) (mDNS m ∖ wantDNS o) (mRA m ∖ wantRA o) (filter (fun kv => wantTFTP o !! kv.1 = None) (mTFTP m)).

(** What Apply does after the configuration is saved: it cannot fail any more. *)
Definition switch (c : Config) (o : opening) (m : Manager) : Manager :=
  mkManager c (added o ∪ filter (fun k => k ∈ wanted o) (mDHCP m)) (addedDNS o ∪ filter (fun k => k ∈ wantDNS o) (mDNS m))
    (addedRA o ∪ filter (fun k => k ∈ wantRA o) (mRA m))
    (addedTFTP o ∪ filter (fun kv => is_Some (wantTFTP o !! kv.1)) (mTFTP m)) (mStandby m) (mOpen m ∖ retired o m).

End Apply.

(** The listeners a configuration asks for. *)
Definition enabled_scopes (c : Config) : list Scope := List.filter Enabled (Scopes c).
Definition serving (c : Config) : bool := existsb Enabled (Scopes c).

(** A manager whose listeners are exactly those of its configuration. *)
Record in_step (m : Manager) : Prop := {
  st_dhcp k : k ∈ mDHCP m <-> exists s, s ∈ enabled_scopes (mConfig m) /\ k = socketKey s;
  st_dns k : k ∈ mDNS m <-> exists s, s ∈ enabled_scopes (mConfig m) /\ k = sServer s;
  st_ra k : k ∈ mRA m <-> exists s, s ∈ enabled_scopes (mConfig m) /\ is_Some (RA s) /\ k = sID s;
  st_tftp k r : mTFTP m !! k = Some r <->
    exists s t, s ∈ enabled_scopes (mConfig m) /\ TFTP (mConfig m) = Some t /\ scope_is6 s = false /\ tftpServes t s = true
    /\ k = sServer s /\ r = Root t;
}.

(** The process holds exactly the sockets of its listeners. *)
Definition tidy (m : Manager) : Prop := mOpen m = listening m.

