(* ===== verification/ManagerInv.v ===== *)
(** A configuration that is applied is served by exactly its listeners; one that is refused leaves
    them as they were. *)

From S2P Require Import Prelude Json NetAddr Ledger Config Report Manager.
Local Open Scope Z_scope.

(** Same listeners, TFTP apart. *)
Definition same_but_tftp (m m' : Manager) : Prop :=
  mConfig m' = mConfig m /\ mDHCP m' = mDHCP m /\ mDNS m' = mDNS m /\ mRA m' = mRA m /\ mStandby m' = mStandby m.

Definition wants_tftp (c : Config) (ss : list Scope) (k r : string) : Prop :=
  exists s t, s ∈ ss /\ Enabled s = true /\ TFTP c = Some t /\ scope_is6 s = false /\ tftpServes t s = true
  /\ k = sServer s /\ r = Root t.

(** The state of the loop after the scopes [ss]. *)
Record opened (m0 : Manager) (c : Config) (ss : list Scope) (m : Manager) (o : opening) : Prop := {
  op_same : same_but_tftp m0 m;
  op_wanted k : k ∈ wanted o <-> exists s, s ∈ ss /\ Enabled s = true /\ k = socketKey s;
  op_added k : k ∈ added o <-> k ∈ wanted o /\ k ∉ mDHCP m0;
  op_wantDNS k : k ∈ wantDNS o <-> exists s, s ∈ ss /\ Enabled s = true /\ k = sServer s;
  op_addedDNS k : k ∈ addedDNS o <-> k ∈ wantDNS o /\ k ∉ mDNS m0;
  op_wantRA k : k ∈ wantRA o <-> exists s, s ∈ ss /\ Enabled s = true /\ is_Some (RA s) /\ k = sID s;
  op_addedRA k : k ∈ addedRA o <-> k ∈ wantRA o /\ k ∉ mRA m0;
  op_wantTFTP k r : wantTFTP o !! k = Some r <-> wants_tftp c ss k r;
  op_tftp k : match wantTFTP o !! k with
              | Some r => (addedTFTP o ∪ mTFTP m) !! k = Some r
              | None => addedTFTP o !! k = None /\ mTFTP m !! k = mTFTP m0 !! k
              end;
  op_sub : mTFTP m ⊆ mTFTP m0;
}.

Lemma opened_start m c : opened m c [] m no_opening.
Proof.
  split; cbn; try done; try (intros k; rewrite ?elem_of_empty; split; [done|]; by intros (s & ?%elem_of_nil & _)).
  1-3: intros k; by split; [intros ?%elem_of_empty|intros [?%elem_of_empty _]].
  - intros k r. rewrite lookup_empty. split; [done|]. by intros (s & t & ?%elem_of_nil & _).
Qed.

Section Step.
Context (opens : open_call -> bool) (m0 : Manager) (c : Config).

Lemma scopes_snoc (P : Scope -> Prop) ss s : (exists x, x ∈ ss ++ [s] /\ P x) <-> (exists x, x ∈ ss /\ P x) \/ P s.
Proof.
  split.
  - intros (x & [Hx| ->%list_elem_of_singleton]%elem_of_app & H); [left; by exists x|by right].
  - intros [(x & Hx & H)|H]; [exists x|exists s]; (split; [apply elem_of_app|done]); [by left|right; by apply list_elem_of_singleton].
Qed.

Lemma wants_snoc ss s k r : wants_tftp c (ss ++ [s]) k r <-> wants_tftp c ss k r
  \/ exists t, Enabled s = true /\ TFTP c = Some t /\ scope_is6 s = false /\ tftpServes t s = true /\ k = sServer s /\ r = Root t.
Proof.
  unfold wants_tftp. split.
  - intros (x & t & [Hx| ->%list_elem_of_singleton]%elem_of_app & H); [left; by exists x, t|right; by exists t].
  - intros [(x & t & Hx & H)|(t & H)]; [exists x, t|exists s, t]; (split; [apply elem_of_app|done]); [by left|right; by apply list_elem_of_singleton].
Qed.

(** The four parts of the loop body.  Whatever they open, the listeners the manager has stay. *)
Lemma open_dhcp_spec m s o m' o' : mDHCP m = mDHCP m0 -> (forall k, k ∈ added o <-> k ∈ wanted o /\ k ∉ mDHCP m0) ->
  open_dhcp opens s m o = (m', Ok o') ->
  wanted o' = {[socketKey s]} ∪ wanted o /\ wantDNS o' = {[sServer s]} ∪ wantDNS o
  /\ (forall k, k ∈ added o' <-> k ∈ wanted o' /\ k ∉ mDHCP m0)
  /\ addedDNS o' = addedDNS o /\ addedTFTP o' = addedTFTP o /\ addedRA o' = addedRA o /\ wantTFTP o' = wantTFTP o /\ wantRA o' = wantRA o.
Proof.
  intros Em Ha. unfold open_dhcp. rewrite Em. destruct (_ || _) eqn:E.
  - intros [= <- <-]. cbn. split_and!; try done. apply orb_true_iff in E. rewrite !bool_decide_eq_true in E.
    intros k. rewrite Ha. set_solver.
  - repeat case_match; try done. intros [= <- <-]. cbn. split_and!; try done.
    apply orb_false_elim in E as [E1%bool_decide_eq_false _]. intros k. rewrite elem_of_union, elem_of_singleton, Ha. set_solver.
Qed.

Lemma open_dns_spec m s o m' o' W : mDNS m = mDNS m0 -> wantDNS o = {[sServer s]} ∪ W ->
  (forall k, k ∈ addedDNS o <-> k ∈ W /\ k ∉ mDNS m0) ->
  open_dns opens s m o = (m', Ok o') ->
  (forall k, k ∈ addedDNS o' <-> k ∈ wantDNS o' /\ k ∉ mDNS m0)
  /\ wanted o' = wanted o /\ wantDNS o' = wantDNS o /\ added o' = added o /\ addedTFTP o' = addedTFTP o /\ addedRA o' = addedRA o
  /\ wantTFTP o' = wantTFTP o /\ wantRA o' = wantRA o.
Proof.
  intros Em Hw Ha. unfold open_dns. rewrite Em. destruct (_ || _) eqn:E.
  - intros [= <- <-]. split_and!; try done. apply orb_true_iff in E. rewrite !bool_decide_eq_true in E.
    intros k. rewrite Hw, Ha. set_solver.
  - repeat case_match; try done. intros [= <- <-]. cbn. split_and!; try done.
    apply orb_false_elim in E as [E1%bool_decide_eq_false _]. intros k. rewrite Hw, elem_of_union, elem_of_singleton, Ha. set_solver.
Qed.

Lemma open_ra_spec m s o m' o' : mRA m = mRA m0 -> open_ra opens s m o = (m', Ok o') ->
  (forall k, k ∈ addedRA o <-> k ∈ wantRA o /\ k ∉ mRA m0) ->
  (forall k, k ∈ wantRA o' <-> k ∈ wantRA o \/ is_Some (RA s) /\ k = sID s)
  /\ (forall k, k ∈ addedRA o' <-> k ∈ wantRA o' /\ k ∉ mRA m0)
  /\ wanted o' = wanted o /\ wantDNS o' = wantDNS o /\ added o' = added o /\ addedDNS o' = addedDNS o /\ addedTFTP o' = addedTFTP o
  /\ wantTFTP o' = wantTFTP o.
Proof.
  intros Em H Ha. unfold open_ra in H. destruct (RA s) as [ra|].
  2:{ injection H as <- <-. split_and!; try done. intros k. split; [auto|]. intros [?|[[? ?] _]]; done. }
  rewrite Em in H. destruct (ra_moved m s); [done|]. destruct (bool_decide _) eqn:E.
  - apply bool_decide_eq_true in E. injection H as <- <-. cbn. split_and!; try done; [set_solver|]. intros k. rewrite Ha. set_solver.
  - apply bool_decide_eq_false in E. destruct (negb _); [done|]. injection H as <- <-. cbn. split_and!; try done; [set_solver|].
    intros k. rewrite elem_of_union, Ha. set_solver.
Qed.

(** Only TFTP servers are stopped, and those only to be started again with another root. *)
Definition stops (m m' : Manager) : Prop :=
  same_but_tftp m m' /\ mTFTP m' ⊆ mTFTP m
  /\ forall k root, mTFTP m !! k = Some root -> mTFTP m' !! k = Some root \/ exists t, TFTP c = Some t /\ root <> Root t.

Lemma stops_refl m : stops m m.
Proof. split_and!; [by unfold same_but_tftp|done|auto]. Qed.
Lemma stops_trans m1 m2 m3 : stops m1 m2 -> stops m2 m3 -> stops m1 m3.
Proof.
  intros (A1 & A2 & A3) (B1 & B2 & B3). split_and!; [unfold same_but_tftp in *; naive_solver congruence|by etrans|].
  intros k root Hk. destruct (A3 k root Hk) as [H|H]; [by apply B3|auto].
Qed.
Lemma stops_open m m' xs : stops m m' -> stops m (set_open xs m').
Proof. done. Qed.
Lemma stop_tftp_kept server m t : TFTP c = Some t -> mTFTP m !! server <> Some (Root t) -> stops m (stop_tftp server m).
Proof.
  intros Et Hne. unfold stop_tftp. destruct (mTFTP m !! server) as [r|] eqn:E; [|apply stops_refl].
  split_and!; [done|apply delete_subseteq|]. intros k root Hk. destruct (decide (server = k)) as [<-|]; [right; exists t; split; congruence|].
  left. cbn. by rewrite lookup_delete_ne.
Qed.
Lemma stop_tftp_lookup server m k : mTFTP (stop_tftp server m) !! k = if decide (server = k) then None else mTFTP m !! k.
Proof.
  unfold stop_tftp. destruct (mTFTP m !! server) eqn:E; case_decide as Hk; cbn; try (by subst); [by subst; rewrite lookup_delete_eq|by rewrite lookup_delete_ne].
Qed.

Lemma open_dhcp_stops s m o m' r : open_dhcp opens s m o = (m', r) -> stops m m'.
Proof. unfold open_dhcp. repeat case_match; intros [= <- <-]; repeat apply stops_open; apply stops_refl. Qed.
Lemma open_dns_stops s m o m' r : open_dns opens s m o = (m', r) -> stops m m'.
Proof. unfold open_dns. repeat case_match; intros [= <- <-]; repeat apply stops_open; apply stops_refl. Qed.
Lemma open_ra_stops s m o m' r : open_ra opens s m o = (m', r) -> stops m m'.
Proof. unfold open_ra. repeat case_match; intros [= <- <-]; repeat apply stops_open; apply stops_refl. Qed.
Lemma open_dhcp_tftp s m o m' r : open_dhcp opens s m o = (m', r) -> mTFTP m' = mTFTP m.
Proof. unfold open_dhcp. repeat case_match; by intros [= <- <-]. Qed.
Lemma open_dns_tftp s m o m' r : open_dns opens s m o = (m', r) -> mTFTP m' = mTFTP m.
Proof. unfold open_dns. repeat case_match; by intros [= <- <-]. Qed.
Lemma open_ra_tftp s m o m' r : open_ra opens s m o = (m', r) -> mTFTP m' = mTFTP m.
Proof. unfold open_ra. repeat case_match; by intros [= <- <-]. Qed.
Lemma open_tftp_stops s m o m' r : open_tftp opens c s m o = (m', r) -> stops m m'.
Proof.
  unfold open_tftp. destruct (TFTP c) as [t|] eqn:Et; [|intros [= <- <-]; apply stops_refl]. destruct (_ && _); [|intros [= <- <-]; apply stops_refl].
  destruct (_ || _) eqn:E; [intros [= <- <-]; apply stops_refl|]. apply orb_false_iff in E as [E%bool_decide_eq_false _].
  repeat case_match; intros [= <- <-]; repeat apply stops_open; try apply stops_refl; by eapply stop_tftp_kept.
Qed.

Lemma open_tftp_spec m s o m' o' : open_tftp opens c s m o = (m', Ok o') ->
  wanted o' = wanted o /\ wantDNS o' = wantDNS o /\ added o' = added o /\ addedDNS o' = addedDNS o
  /\ addedRA o' = addedRA o /\ wantRA o' = wantRA o.
Proof. unfold open_tftp. repeat case_match; intros [= <- <-]; done. Qed.

(** TFTP: what the scope wants is running or opened. *)
Lemma open_tftp_wants m s o m' o' ss : Enabled s = true ->
  (forall k r, wantTFTP o !! k = Some r <-> wants_tftp c ss k r) ->
  (forall k, match wantTFTP o !! k with
             | Some r => (addedTFTP o ∪ mTFTP m) !! k = Some r
             | None => addedTFTP o !! k = None /\ mTFTP m !! k = mTFTP m0 !! k
             end) ->
  open_tftp opens c s m o = (m', Ok o') ->
  (forall k r, wantTFTP o' !! k = Some r <-> wants_tftp c (ss ++ [s]) k r)
  /\ forall k, match wantTFTP o' !! k with
               | Some r => (addedTFTP o' ∪ mTFTP m') !! k = Some r
               | None => addedTFTP o' !! k = None /\ mTFTP m' !! k = mTFTP m0 !! k
               end.
Proof.
  intros He Hw Ht. unfold open_tftp.
  destruct (TFTP c) as [t|] eqn:Et.
  2:{ intros [= <- <-]. split; [|done]. intros k r. rewrite wants_snoc, Hw. split; [auto|]. intros [?|(? & ? & ? & _)]; [done|congruence]. }
  destruct (negb (scope_is6 s) && tftpServes t s) eqn:Es.
  2:{ intros [= <- <-]. split; [|done]. intros k r. rewrite wants_snoc, Hw. split; [auto|]. intros [?|(t' & _ & Et' & E6 & Ev & _)]; [done|].
      rewrite Et in Et'. injection Et' as <-. by rewrite E6, Ev in Es. }
  apply andb_prop in Es as [E6%negb_true_iff Ev].
  assert (Hw' : forall k r, <[sServer s := Root t]> (wantTFTP o) !! k = Some r <-> wants_tftp c (ss ++ [s]) k r).
  { intros k r. rewrite lookup_insert_Some, wants_snoc, Hw. split.
    - intros [[<- <-]|[_ ?]]; [right; by exists t|auto].
    - intros [H|(t' & _ & Et' & _ & _ & -> & ->)]; [|rewrite Et in Et'; injection Et' as <-; auto].
      destruct (decide (sServer s = k)) as [<-|]; [|auto]. left. split; [done|]. destruct H as (s' & t' & _ & _ & Et' & _ & _ & _ & ->). congruence. }
  assert (Hroot : forall k r, wantTFTP o !! k = Some r -> r = Root t).
  { intros k r (s' & t' & _ & _ & Et' & _ & _ & _ & ->)%Hw. congruence. }
  destruct (_ || _) eqn:Eb.
  - intros [= <- <-]. cbn [wantTFTP addedTFTP]. split; [done|]. intros k. specialize (Ht k).
    destruct (decide (sServer s = k)) as [<-|Hne]; [|by rewrite lookup_insert_ne]. rewrite lookup_insert_eq.
    destruct (wantTFTP o !! sServer s) as [r|] eqn:Ek; [by rewrite <-(Hroot _ _ Ek)|]. destruct Ht as [H1 H2].
    apply orb_true_iff in Eb as [Eb%bool_decide_eq_true|Eb%bool_decide_eq_true]; [by rewrite lookup_union_r|].
    rewrite H1 in Eb. by destruct Eb.
  - repeat case_match; try done. intros [= <- <-]. cbn [wantTFTP addedTFTP mTFTP opens_sockets set_open]. split; [done|]. intros k. specialize (Ht k).
    destruct (decide (sServer s = k)) as [<-|Hne]; [by rewrite lookup_insert_eq, lookup_union, lookup_insert_eq, union_Some_l|].
    rewrite !lookup_insert_ne, lookup_union, lookup_insert_ne, stop_tftp_lookup, decide_False, <-lookup_union by done. done.
Qed.

Lemma and_then_ok x k m' o' : and_then x k = (m', Ok o') -> exists m o, x = (m, Ok o) /\ k m o = (m', Ok o').
Proof. destruct x as [m [o|]]; cbn; [eauto|done]. Qed.

Lemma open_scope_step ss s m o m' o' : opened m0 c ss m o -> open_scope opens c s m o = (m', Ok o') -> opened m0 c (ss ++ [s]) m' o'.
Proof.
  intros [(S1 & S2 & S3 & S4 & S5) W A WD AD WR AR WT T Sub]. unfold open_scope. destruct (Enabled s) eqn:He; cbn [negb].
  2:{ intros [= <- <-]. split; try done; intros k; rewrite ?scopes_snoc; try intros r; rewrite ?W, ?WD, ?WR, ?WT, ?wants_snoc; naive_solver congruence. }
  destruct (negb _); [done|]. intros (m3 & o3 & (m2 & o2 & (m1 & o1 & E1 & E2)%and_then_ok & E3)%and_then_ok & E4)%and_then_ok.
  destruct (open_dhcp_spec m s o m1 o1 S2 A E1) as (D1 & D2 & D3 & D4 & D5 & D6 & D7 & D8).
  destruct (open_dhcp_stops _ _ _ _ _ E1) as ((P1 & P2 & P3 & P4 & P5) & _ & _). pose proof (open_dhcp_tftp _ _ _ _ _ E1) as PT.
  destruct (open_dns_spec m1 s o1 m2 o2 (wantDNS o) ltac:(congruence) D2) as (N1 & N2 & N3 & N4 & N5 & N6 & N7 & N8); [by rewrite D4|done|].
  destruct (open_dns_stops _ _ _ _ _ E2) as ((Q1 & Q2 & Q3 & Q4 & Q5) & _ & _). pose proof (open_dns_tftp _ _ _ _ _ E2) as QT.
  destruct (open_tftp_stops s m2 o2 m3 (Ok o3) E3) as ((X1 & X2 & X3 & X4 & X5) & X6 & _). destruct (open_tftp_spec m2 s o2 m3 o3 E3) as (Y1 & Y2 & Y3 & Y4 & Y5 & Y6).
  destruct (open_tftp_wants m2 s o2 m3 o3 ss He) as [Z1 Z2]; [by rewrite N7, D7|by rewrite N5, N7, D5, D7, QT, PT|done|].
  destruct (open_ra_spec m3 s o3 m' o' ltac:(congruence) E4) as (R1 & R2 & R3 & R4 & R5 & R6 & R7 & R8); [by rewrite Y5, Y6, N6, N8, D6, D8|].
  destruct (open_ra_stops _ _ _ _ _ E4) as ((U1 & U2 & U3 & U4 & U5) & _ & _). pose proof (open_ra_tftp _ _ _ _ _ E4) as UT.
  split; try done; try (intros k; rewrite ?scopes_snoc).
  - split_and!; congruence.
  - rewrite R3, Y1, N2, D1, elem_of_union, elem_of_singleton, W. naive_solver.
  - by rewrite R5, R3, Y3, Y1, N4, N2, D3.
  - rewrite R4, Y2, N3, D2, elem_of_union, elem_of_singleton, WD. naive_solver.
  - by rewrite R6, R4, Y4, Y2, N1.
  - rewrite R1, Y6, N8, D8, WR. naive_solver.
  - intros r. by rewrite R8.
  - rewrite R8, R7, UT. apply Z2.
  - revert k. change (mTFTP m' ⊆ mTFTP m0). rewrite UT. rewrite QT, PT in X6. by etrans.
Qed.

Lemma open_scope_stops s m o m' r : open_scope opens c s m o = (m', r) -> stops m m'.
Proof.
  unfold open_scope. destruct (negb (Enabled s)); [intros [= <- <-]; apply stops_refl|]. destruct (negb _); [intros [= <- <-]; apply stops_open, stops_refl|].
  destruct (open_dhcp opens s m o) as [m1 [o1|e]] eqn:E1; apply open_dhcp_stops in E1; cbn [and_then]; [|by intros [= <- <-]].
  destruct (open_dns opens s m1 o1) as [m2 [o2|e]] eqn:E2; apply open_dns_stops in E2; cbn [and_then]; [|intros [= <- <-]; by eapply stops_trans].
  destruct (open_tftp opens c s m2 o2) as [m3 [o3|e]] eqn:E3; apply open_tftp_stops in E3; cbn [and_then]; [|intros [= <- <-]; eauto using stops_trans].
  intros E4%open_ra_stops. eauto using stops_trans.
Qed.

(** A failing loop has only stopped TFTP servers whose root changes. *)
Lemma open_scopes_spec ss done_ m o m' r : opened m0 c done_ m o -> stops m0 m -> open_scopes opens c ss m o = (m', r) ->
  stops m0 m' /\ forall o', r = Ok o' -> opened m0 c (done_ ++ ss) m' o'.
Proof.
  revert done_ m o. induction ss as [|s ss IH]; intros done_ m o Ho Hs; cbn [open_scopes].
  - intros [= <- <-]. split; [done|]. intros o' [= <-]. by rewrite app_nil_r.
  - destruct (open_scope opens c s m o) as [m1 [o1|e]] eqn:E1; cbn [and_then].
    + intros H. apply (IH (done_ ++ [s])) in H; [by rewrite <-app_assoc in H|by eapply open_scope_step|].
      eapply stops_trans; [done|by eapply open_scope_stops].
    + intros [= <- <-]. split; [|done]. eapply stops_trans; [done|by eapply open_scope_stops].
Qed.

End Step.

Lemma check_config_ok c m : check_config c m = Ok tt -> Validate c = Ok tt /\ (mStandby m = true -> serving c = false).
Proof.
  intros [Hv Hs]%seq_ok. split; [done|]. intros Hst. rewrite Hst in Hs. apply for_each_ok in Hs. unfold serving.
  induction Hs as [|s ss Hs%fail_if_ok _ IH]; [done|]. cbn. by rewrite Hs.
Qed.

(** What Apply leaves behind when it gives up before saving. *)
Lemma prepare_spec opens now c l m m' r : prepare opens now c l m = (m', r) ->
  stops c m m' /\ forall o, r = Ok o -> opened m c (Scopes c) m' o.
Proof.
  unfold prepare. destruct (_ ≫= _) as [u|]; [|intros [= <- <-]; split; [apply stops_refl|done]].
  intros H. by apply (open_scopes_spec opens m c _ [] m no_opening m' r (opened_start m c) (stops_refl c m)) in H.
Qed.

Lemma enabled_elem c s : s ∈ enabled_scopes c <-> s ∈ Scopes c /\ Enabled s = true.
Proof. unfold enabled_scopes. by rewrite list_elem_of_In, filter_In, <-list_elem_of_In. Qed.

Lemma switch_in_step m0 c m o : opened m0 c (Scopes c) m o -> in_step (switch c o m).
Proof.
  intros [(S1 & S2 & S3 & S4 & S5) W A WD AD WR AR WT T Sub]. split; cbn [switch mConfig mDHCP mDNS mRA mTFTP]; intros k;
    setoid_rewrite enabled_elem.
  - rewrite elem_of_union, elem_of_filter, S2, A, W. destruct (decide (k ∈ mDHCP m0)); naive_solver.
  - rewrite elem_of_union, elem_of_filter, S3, AD, WD. destruct (decide (k ∈ mDNS m0)); naive_solver.
  - rewrite elem_of_union, elem_of_filter, S4, AR, WR. destruct (decide (k ∈ mRA m0)); naive_solver.
  - intros r. specialize (T k). transitivity (wantTFTP o !! k = Some r); [|rewrite WT; unfold wants_tftp; naive_solver].
    assert (U : forall x : option string, None ∪ x = x) by (by intros []).
    assert (V : forall x (y : option string), Some x ∪ y = Some x) by (by intros ? []).
    rewrite lookup_union, map_lookup_filter. destruct (wantTFTP o !! k) as [r'|] eqn:Ek.
    + rewrite lookup_union in T. destruct (addedTFTP o !! k) as [x|]; [rewrite V in *; by rewrite T|].
      rewrite U in T |- *. rewrite T. by simplify_option_eq.
    + destruct T as [-> _]. rewrite U. split; [|done]. destruct (mTFTP m !! k) as [y|]; [|done].
      intros (z & _ & (w & _ & _)%bind_Some)%bind_Some. cbn in w. rewrite Ek in w. by destruct w.
Qed.

(** * The sockets *)

Lemma elem_of_sockets x dhcp dns ra tftp : x ∈ sockets_of dhcp dns ra tftp <->
  match x with
  | DHCPSocket k => k ∈ dhcp
  | UDPSocket k | TCPSocket k => k ∈ dns
  | RASocket k => k ∈ ra
  | TFTPSocket k => is_Some (tftp !! k)
  end.
Proof. unfold sockets_of. rewrite !elem_of_union, !elem_of_map. setoid_rewrite elem_of_dom. destruct x; naive_solver. Qed.

Lemma socket_eq (x y : socket) : x = y <->
  match x, y with
  | DHCPSocket a, DHCPSocket b | UDPSocket a, UDPSocket b | TCPSocket a, TCPSocket b | RASocket a, RASocket b | TFTPSocket a, TFTPSocket b => b = a
  | _, _ => False
  end.
Proof. destruct x, y; naive_solver. Qed.

(** Beside the sockets of the manager's listeners the process holds those that were just opened, and no other. *)
Record holding (m : Manager) (o : opening) : Prop := {
  ho_open x : x ∈ mOpen m <-> x ∈ listening m \/ x ∈ sockets_of (added o) (addedDNS o) (addedRA o) (addedTFTP o);
  ho_dhcp k : k ∈ added o -> k ∉ mDHCP m;
  ho_dns k : k ∈ addedDNS o -> k ∉ mDNS m;
  ho_ra k : k ∈ addedRA o -> k ∉ mRA m;
  ho_tftp k : is_Some (addedTFTP o !! k) -> ~ is_Some (mTFTP m !! k);
}.

(** What a part of Apply leaves: the sockets opened so far, or none of them. *)
Definition holds_or_tidy (x : Manager * result string opening) : Prop := match x with (m, Ok o) => holding m o | (m, Err _) => tidy m end.

(** Membership in the sets of sockets and keys, one socket at a time. *)
Ltac sockets :=
  unfold listening, retired in *;
  cbn [mOpen mDHCP mDNS mRA mTFTP set_open opens_sockets closes_sockets cleanup added addedDNS addedRA addedTFTP wanted wantDNS wantRA wantTFTP] in *;
  let x := fresh "x" in intros x;
  repeat match goal with H : forall y : socket, y ∈ mOpen _ <-> _ |- _ => specialize (H x); rewrite ?elem_of_sockets in H end;
  rewrite ?elem_of_sockets; repeat (rewrite ?elem_of_difference, ?elem_of_union, ?elem_of_singleton, ?elem_of_sockets); rewrite ?socket_eq;
  let k := fresh "k" in destruct x as [k|k|k|k|k]; cbn beta iota in *;
  repeat match goal with H : forall j : string, _ |- _ => specialize (H k) end;
  repeat (rewrite ?elem_of_union, ?elem_of_singleton, ?elem_of_difference, ?elem_of_filter, ?lookup_insert_is_Some, ?lookup_delete_is_Some);
  try match goal with |- context [?a = ?b :> string] => destruct (decide (a = b)) as [<-|] end; try tauto; try (intuition congruence).

Lemma holding_start m : tidy m -> holding m no_opening.
Proof.
  intros Hm. split; [|by intros k ?%elem_of_empty..|intros k [? Hk]; cbn in Hk; by rewrite lookup_empty in Hk].
  intros x. rewrite Hm. split; [auto|]. intros [H|H%elem_of_sockets]; [done|]. destruct x; cbn in H; try (by apply elem_of_empty in H).
  destruct H as [? H]. by rewrite lookup_empty in H.
Qed.

(** Only what was opened counts. *)
Lemma holding_wants m o o' : added o' = added o -> addedDNS o' = addedDNS o -> addedRA o' = addedRA o -> addedTFTP o' = addedTFTP o ->
  holding m o -> holding m o'.
Proof. intros E1 E2 E3 E4 [H1 H2 H3 H4 H5]. split; by rewrite ?E1, ?E2, ?E3, ?E4. Qed.

Lemma holding_cleanup m o : holding m o -> tidy (cleanup o m).
Proof. intros [H1 H2 H3 H4 H5]. apply set_eq. sockets. Qed.

Section Sockets.
Context (opens : open_call -> bool) (c : Config).

Lemma open_dhcp_holds s m o : holding m o -> holds_or_tidy (open_dhcp opens s m o).
Proof.
  intros Ho. unfold open_dhcp. destruct (_ || _) eqn:E; [by eapply holding_wants; [..|exact Ho]|].
  apply orb_false_iff in E as [E1%bool_decide_eq_false E2%bool_decide_eq_false].
  destruct (negb _); [eapply holding_cleanup, holding_wants; [..|exact Ho]; done|]. destruct Ho as [H1 H2 H3 H4 H5]. destruct (negb _); cbn [holds_or_tidy].
  - apply set_eq. sockets.
  - split; [sockets| |exact H3|exact H4|exact H5]. intros k. cbn. rewrite elem_of_union, elem_of_singleton. intros [->|Hk]; [done|by apply H2].
Qed.

Lemma open_dns_holds s m o : holding m o -> holds_or_tidy (open_dns opens s m o).
Proof.
  intros Ho. unfold open_dns. destruct (_ || _) eqn:E; [done|].
  apply orb_false_iff in E as [E1%bool_decide_eq_false E2%bool_decide_eq_false].
  destruct (negb _); [by apply holding_cleanup|]. destruct Ho as [H1 H2 H3 H4 H5]. destruct (negb _); cbn [holds_or_tidy].
  - apply set_eq. sockets.
  - split; [sockets|exact H2| |exact H4|exact H5]. intros k. cbn. rewrite elem_of_union, elem_of_singleton. intros [->|Hk]; [done|by apply H3].
Qed.

Lemma open_ra_holds s m o : holding m o -> holds_or_tidy (open_ra opens s m o).
Proof.
  intros Ho. unfold open_ra. destruct (RA s); [|done]. destruct (ra_moved m s); [by apply holding_cleanup|].
  destruct (bool_decide _) eqn:E; [by eapply holding_wants; [..|exact Ho]|]. apply bool_decide_eq_false in E.
  destruct (negb _); [eapply holding_cleanup, holding_wants; [..|exact Ho]; done|]. destruct Ho as [H1 H2 H3 H4 H5].
  split; [sockets|exact H2|exact H3| |exact H5]. intros k. cbn. rewrite elem_of_union, elem_of_singleton. intros [->|Hk]; [done|by apply H4].
Qed.

Lemma stop_tftp_holds server m o : addedTFTP o !! server = None -> holding m o -> holding (stop_tftp server m) o.
Proof.
  intros Ha [H1 H2 H3 H4 H5]. unfold stop_tftp. destruct (mTFTP m !! server) as [r|] eqn:E; [|done].
  assert (Hn : ~ is_Some (addedTFTP o !! server)) by (rewrite Ha; by intros []). split; [sockets|exact H2|exact H3|exact H4|].
  intros k Hk. cbn. rewrite lookup_delete_is_Some. specialize (H5 k Hk). tauto.
Qed.

Lemma open_tftp_holds s m o : holding m o -> holds_or_tidy (open_tftp opens c s m o).
Proof.
  intros Ho. unfold open_tftp. destruct (TFTP c) as [t|]; [|done]. destruct (_ && _); [|done].
  destruct (_ || _) eqn:E; [by eapply holding_wants; [..|exact Ho]|]. apply orb_false_iff in E as [_ E%bool_decide_eq_false].
  assert (Ea : addedTFTP o !! sServer s = None) by (destruct (addedTFTP o !! sServer s) eqn:Ex; [destruct E; by eexists|done]).
  destruct (negb _); [eapply holding_cleanup, holding_wants; [..|exact Ho]; done|].
  pose proof (stop_tftp_holds (sServer s) m o Ea Ho) as Hs.
  destruct (negb _); [eapply holding_cleanup, holding_wants; [..|exact Hs]; done|]. pose proof (stop_tftp_lookup (sServer s) m (sServer s)) as El.
  rewrite decide_True in El by done. destruct Hs as [H1 H2 H3 H4 H5]. split; [sockets|exact H2|exact H3|exact H4|].
  intros k. cbn. rewrite lookup_insert_is_Some. intros [<-|[_ Hk]]; [rewrite El; by intros []|by apply H5].
Qed.

Lemma and_then_holds x k : holds_or_tidy x -> (forall m o, holding m o -> holds_or_tidy (k m o)) -> holds_or_tidy (and_then x k).
Proof. destruct x as [m [o|]]; cbn; auto. Qed.

Lemma open_scope_holds s m o : holding m o -> holds_or_tidy (open_scope opens c s m o).
Proof.
  intros Ho. unfold open_scope. destruct (negb _); [done|]. destruct (negb _); [by apply holding_cleanup|].
  repeat apply and_then_holds; eauto using open_dhcp_holds, open_dns_holds, open_tftp_holds, open_ra_holds.
Qed.

Lemma open_scopes_hold ss : forall m o, holding m o -> holds_or_tidy (open_scopes opens c ss m o).
Proof. induction ss as [|s ss IH]; intros m o Ho; [done|]. apply and_then_holds; [by apply open_scope_holds|done]. Qed.

Lemma prepare_holds now l m : tidy m -> holds_or_tidy (prepare opens now c l m).
Proof. intros Hm. unfold prepare. destruct (_ ≫= _); [|done]. by apply open_scopes_hold, holding_start. Qed.
End Sockets.

(** A filtered map union, key by key. *)
Lemma union_filter_some (a b w : gmap string string) k : is_Some ((a ∪ filter (fun kv => is_Some (w !! kv.1)) b) !! k)
  <-> is_Some (a !! k) \/ is_Some (b !! k) /\ is_Some (w !! k).
Proof.
  rewrite lookup_union_is_Some. apply or_iff_compat_l. unfold is_Some at 1. setoid_rewrite map_lookup_filter_Some. cbn. unfold is_Some. naive_solver.
Qed.
Lemma filter_none_some (b w : gmap string string) k : is_Some (filter (fun kv => w !! kv.1 = None) b !! k) <-> is_Some (b !! k) /\ ~ is_Some (w !! k).
Proof. unfold is_Some at 1. setoid_rewrite map_lookup_filter_Some. cbn. rewrite <-eq_None_not_Some. unfold is_Some. naive_solver. Qed.

Lemma switch_tidy m0 c m o : opened m0 c (Scopes c) m o -> holding m o -> tidy (switch c o m).
Proof.
  intros [(S1 & S2 & S3 & S4 & S5) _ A _ AD _ AR _ T _] [H1 H2 H3 H4 H5]. apply set_eq. unfold switch.
  assert (HT : forall k, is_Some (addedTFTP o !! k) -> is_Some (wantTFTP o !! k)).
  { intros k [r Hr]. specialize (T k). destruct (wantTFTP o !! k); [by eexists|]. destruct T as [T _]. congruence. }
  clear T. sockets; [destruct (decide (k ∈ wanted o)); tauto|destruct (decide (k ∈ wantDNS o)); tauto..| |destruct (decide (k ∈ wantRA o)); tauto].
  rewrite union_filter_some, filter_none_some. destruct (decide (is_Some (wantTFTP o !! k))); tauto.
Qed.

Lemma close_tidy m : tidy m -> tidy (Close m).
Proof. intros Hm. unfold tidy, Close. cbn. rewrite Hm, difference_diag_L. reflexivity. Qed.
