(* ===== verification/Handover.v ===== *)
(** internal/addressbook/handover.go, the unit half of legacy.go, and the parts of
    cmd/ghostd (startAddressbook, recoverLegacyHandover) that drive them: the takeover from a
    dnsmasq that systemd runs.

    A host is the durable state (the ledger's file with the journal and its history, the saved
    configuration, dnsmasq's lease file, the unit's mask), the state of the unit, and the running
    manager.  Every call to the outside (clock, database commit, configuration file, systemctl,
    lease file, sockets, probes) reads what happens from an environment, so a theorem for all
    environments covers every combination of errors and of a crash at any call. *)

From S2P Require Import Prelude Json State NetAddr Ledger Config Allocate Delegate LeaseImport Report Dnsmasq Manager.
From Stdlib Require Import Ascii.
Local Open Scope Z_scope.

(** * The journal *)

Record Probe := mkProbe { pKind : string; pScope : string; pName : string; Expect : string; pAddr : string }.
Record ProbeResult := mkProbeResult { prProbe : Probe; prOK : bool; prDetail : string; prAt : Z }.

Record HandoverJournal := mkJournal {
  Phase : string; Deadline : Z; Target : Config; Previous : Config; Legacy : LegacySpec;
  jSnapshot : string; Activated : bool; jError : string; jRevision : Z; Started : Z; Finished : Z;
  ImportedLeases : gmap string Z; RequireEvidence : bool; Probes : list Probe; ProbeResults : list ProbeResult;
  AbandonedDelegations : Z;
}.
Definition no_spec : LegacySpec := mkSpec EmptyString EmptyString EmptyString.
Definition no_journal : HandoverJournal :=
  mkJournal EmptyString 0 no_config no_config no_spec EmptyString false EmptyString 0 0 0 ∅ false [] [] 0.

(** Assignments to fields. *)
Definition with_phase (p : string) (d : Z) (j : HandoverJournal) : HandoverJournal :=
  mkJournal p d (Target j) (Previous j) (Legacy j) (jSnapshot j) (Activated j) (jError j) (jRevision j) (Started j) (Finished j)
    (ImportedLeases j) (RequireEvidence j) (Probes j) (ProbeResults j) (AbandonedDelegations j).
Definition with_error (e : string) (j : HandoverJournal) : HandoverJournal :=
  mkJournal (Phase j) (Deadline j) (Target j) (Previous j) (Legacy j) (jSnapshot j) (Activated j) e (jRevision j) (Started j) (Finished j)
    (ImportedLeases j) (RequireEvidence j) (Probes j) (ProbeResults j) (AbandonedDelegations j).
Definition with_snapshot (text : string) (j : HandoverJournal) : HandoverJournal :=
  mkJournal "snapshot" (Deadline j) (Target j) (Previous j) (Legacy j) text (Activated j) (jError j) (jRevision j) (Started j) (Finished j)
    (ImportedLeases j) (RequireEvidence j) (Probes j) (ProbeResults j) (AbandonedDelegations j).
Definition with_imported (n : gmap string Z) (j : HandoverJournal) : HandoverJournal :=
  mkJournal (Phase j) (Deadline j) (Target j) (Previous j) (Legacy j) (jSnapshot j) true (jError j) (jRevision j) (Started j) (Finished j)
    n (RequireEvidence j) (Probes j) (ProbeResults j) (AbandonedDelegations j).
Definition with_results (rs : list ProbeResult) (j : HandoverJournal) : HandoverJournal :=
  mkJournal (Phase j) (Deadline j) (Target j) (Previous j) (Legacy j) (jSnapshot j) (Activated j) (jError j) (jRevision j) (Started j)
    (Finished j) (ImportedLeases j) (RequireEvidence j) (Probes j) rs (AbandonedDelegations j).
Definition with_abandoned (n : Z) (j : HandoverJournal) : HandoverJournal :=
  mkJournal (Phase j) (Deadline j) (Target j) (Previous j) (Legacy j) (jSnapshot j) (Activated j) (jError j) (jRevision j) (Started j)
    (Finished j) (ImportedLeases j) (RequireEvidence j) (Probes j) (ProbeResults j) n.
Definition archived (now : Z) (j : HandoverJournal) : HandoverJournal :=
  mkJournal (Phase j) (Deadline j) (Target j) (Previous j) (Legacy j) EmptyString (Activated j) (jError j) (jRevision j) (Started j) now
    (ImportedLeases j) (RequireEvidence j) (Probes j) (ProbeResults j) (AbandonedDelegations j).

(** * The host *)

(** The legacy unit: systemd's ActiveState and whether the unit is masked. *)
Inductive unit_state := Active | Inactive | FailedUnit | Activating | Deactivating.
Record legacy_unit := mkUnit { masked : bool; ustate : unit_state }.
Definition state_text (s : unit_state) : string :=
  match s with
  | Active => "active" | Inactive => "inactive" | FailedUnit => "failed"
  | Activating => "activating" | Deactivating => "deactivating"
  end.
(** A process of the unit may be answering clients. *)
Definition running (u : legacy_unit) : bool :=
  match ustate u with Inactive | FailedUnit => false | _ => true end.

Record store := mkStore { book : ledger; journal : HandoverJournal; history : list HandoverJournal }.
Record host := mkHost {
  db : store; saved : Config; file : string; dnsmasq : legacy_unit; mgr : Manager;
  loaded : Config; ticks : nat;
}.

(** What the outside answers at each tick. *)
Record outside := mkOutside {
  o_now : nat -> Z;                          (* time.Now().Unix() *)
  o_view : nat -> bool;                      (* an error from a read transaction *)
  o_commit : nat -> command_fate;            (* a write transaction *)
  o_save : nat -> command_fate;              (* Handover.SaveConfig *)
  o_load : nat -> bool;                      (* an error from Store.Load *)
  o_lock : nat -> bool;                      (* an error from the store lock *)
  o_systemctl : nat -> command_fate;
  o_settles : nat -> unit_state;             (* where a stop or a start leaves the unit *)
  o_owns_port : nat -> bool;                 (* processOwnsUDPPort *)
  o_file : nat -> command_fate;              (* reading or writing the lease file *)
  o_validate : nat -> option string;         (* LegacyAuthority.Validate *)
  o_opens : nat -> open_call -> bool;
  o_answers : nat -> bool;                   (* the SOA query of Confirm *)
  o_probe : nat -> Probe -> Config -> ProbeResult;
}.

Definition act (A : Type) : Type := host -> host * outcome string A.
#[global] Instance act_ret : MRet act := fun A a h => (h, Done a).
#[global] Instance act_bind : MBind act := fun A B f m h =>
  match m h with
  | (h', Done a) => f a h'
  | (h', Failed e) => (h', Failed e)
  | (h', Stopped) => (h', Stopped)
  end.

Definition raise {A} (e : string) : act A := fun h => (h, Failed e).
Definition lift {A} (r : result string A) : act A := fun h => (h, of_result r).
Definition refuse_if (b : bool) (e : string) : act unit := if b then raise e else mret tt.

(** [_ = m] and a logged error: an error is dropped, a crash is not. *)
Definition dropped (m : act unit) : act unit := fun h =>
  match m h with (h', Stopped) => (h', Stopped) | (h', _) => (h', Done tt) end.
(** [if e := m; e != nil { handler }] *)
Definition rescue {A} (m : act A) (handler : string -> act A) : act A := fun h =>
  match m h with (h', Failed e) => handler e h' | r => r end.

(** A call whose error the caller keeps. *)
Definition attempt {A} (m : act A) : act (result string A) := fun h =>
  match m h with
  | (h', Done a) => (h', Done (Ok a))
  | (h', Failed e) => (h', Done (Err e))
  | (h', Stopped) => (h', Stopped)
  end.

Definition tick_on (h : host) : host := mkHost (db h) (saved h) (file h) (dnsmasq h) (mgr h) (loaded h) (S (ticks h)).
Definition set_db (s : store) (h : host) : host := mkHost s (saved h) (file h) (dnsmasq h) (mgr h) (loaded h) (ticks h).
Definition set_saved (c : Config) (h : host) : host := mkHost (db h) c (file h) (dnsmasq h) (mgr h) (loaded h) (ticks h).
Definition set_file (t : string) (h : host) : host := mkHost (db h) (saved h) t (dnsmasq h) (mgr h) (loaded h) (ticks h).
Definition set_unit (u : legacy_unit) (h : host) : host := mkHost (db h) (saved h) (file h) u (mgr h) (loaded h) (ticks h).
Definition set_mgr (m : Manager) (h : host) : host := mkHost (db h) (saved h) (file h) (dnsmasq h) m (loaded h) (ticks h).
Definition set_loaded (c : Config) (h : host) : host := mkHost (db h) (saved h) (file h) (dnsmasq h) (mgr h) c (ticks h).

Definition gets {A} (f : host -> A) : act A := fun h => (h, Done (f h)).
Definition modify (f : host -> host) : act unit := fun h => (f h, Done tt).
Definition ask {A} (f : nat -> A) : act A := fun h => (tick_on h, Done (f (ticks h))).

(** An effect whose call may fail or crash, before or after it took hold. *)
Definition effect (fate : command_fate) (f : host -> host) : act unit := fun h =>
  (if command_effect fate then f h else h, command_outcome fate).

Section Handover.
Context (sha256_hex : string -> string) (duid_valid : string -> bool) (fingerprint : Config -> string).
Context (out : outside).

(** * Store *)

Definition view {A} (f : store -> A) : act A :=
  failed ← ask (o_view out); if failed : bool then raise "database read" else gets (fun h => f (db h)).
Definition commit {A} (f : store -> result string (store * A)) : act A :=
  s ← gets db;
  match f s with
  | Err e => raise e
  | Ok (s', a) => fate ← ask (o_commit out); effect fate (set_db s');; mret a
  end.
Definition commit_book {A} (f : ledger -> ledger * result string A) : act A :=
  commit (fun s => match f (book s) with
                   | (l', Ok a) => Ok (mkStore l' (journal s) (history s), a)
                   | (_, Err e) => Err e
                   end).

Definition HandoverJournal_ : act HandoverJournal := view journal.
Definition saveHandover (j : HandoverJournal) : act unit := commit (fun s => Ok (mkStore (book s) j (history s), tt)).
Definition archiveHandover (j : HandoverJournal) : act unit :=
  now ← ask (o_now out); commit (fun s => Ok (mkStore (book s) (journal s) (history s ++ [archived now j]), tt)).
Definition HandoverHistory : act (list HandoverJournal) := view history.
Definition Snapshot_ : act Snapshot :=
  now ← ask (o_now out); l ← view book; lift (take_snapshot now EmptyString EmptyString 0 l).
Definition ImportDocument_h (c : Config) (doc : ImportDocument_) : act unit :=
  now ← ask (o_now out); commit_book (ImportDocument sha256_hex duid_valid now c doc).

(** * Manager.Apply *)

(** [cleanup(); return e] *)
Definition give_up_opening (o : opening) (e : string) : act unit := modify (fun h => set_mgr (cleanup o (mgr h)) h);; raise e.

Definition Apply (c : Config) (save : act unit) : act unit :=
  m ← gets mgr;
  lift (check_config c m);;
  now ← ask (o_now out); l ← view book;
  opens ← ask (o_opens out);
  let '(m', r) := prepare opens now c l m in
  modify (set_mgr m');;
  o ← lift r;
  now' ← ask (o_now out);
  rescue (commit_book (fun l => (NoteDNSConfig now' (fingerprint c) l, Ok tt))) (give_up_opening o);;
  rescue save (give_up_opening o);;
  modify (set_mgr (switch c o m')).

Definition SaveConfig (c : Config) : act unit := fate ← ask (o_save out); effect fate (set_saved c).
Definition apply (c : Config) : act unit := Apply c (SaveConfig c).

(** * SystemDNSmasq *)

Definition systemctl (f : host -> host) : act unit := fate ← ask (o_systemctl out); effect fate f.
Definition show_state : act unit_state := systemctl id;; gets (fun h => ustate (dnsmasq h)).

Definition mask_unit (on : bool) (h : host) : host := set_unit (mkUnit on (ustate (dnsmasq h))) h.
(** Stopping a unit that does not run does nothing. *)
Definition stop_unit (to : unit_state) (h : host) : host :=
  if running (dnsmasq h) then set_unit (mkUnit (masked (dnsmasq h)) to) h else h.
(** A masked unit is not started. *)
Definition start_unit (to : unit_state) (h : host) : host :=
  if masked (dnsmasq h) then h else set_unit (mkUnit false to) h.

Definition LegacyStop : act unit :=
  systemctl (mask_unit true);;
  to ← ask (o_settles out); systemctl (stop_unit to);;
  st ← show_state;
  refuse_if (negb (state_text st =?s "inactive") && negb (state_text st =?s "failed")) ("dnsmasq did not stop: " +++ state_text st).

(** The wait for the service's own process to hold a DHCP port: every round sleeps 200 ms and
    the wait ends after [servingTimeout], so [fuel] rounds are enough. *)
Definition servingTimeout : Z := 10.
Fixpoint await_serving (fuel : nat) (deadline : Z) : act unit :=
  match fuel with
  | O => raise "dnsmasq is active but not serving DHCP"
  | S fuel' =>
    st ← show_state;
    refuse_if (negb (state_text st =?s "active")) ("dnsmasq startup failed: " +++ state_text st);;
    systemctl id;;                                             (* show MainPID *)
    owns ← ask (o_owns_port out);
    if owns : bool then mret tt
    else now ← ask (o_now out);
         if deadline <? now then raise "dnsmasq is active but not serving DHCP" else await_serving fuel' deadline
  end.

Definition LegacyStart : act unit :=
  systemctl (mask_unit false);;
  blocked ← gets (fun h => masked (dnsmasq h));
  to ← ask (o_settles out); systemctl (start_unit to);;
  refuse_if blocked "unit is masked";;
  now ← ask (o_now out);
  await_serving 60 (now + servingTimeout).

Definition ReadLeases : act string := fate ← ask (o_file out); effect fate id;; gets file.
Definition WriteLeases (text : string) : act unit := fate ← ask (o_file out); effect fate (set_file text).
Definition LegacyValidate : act unit :=
  r ← ask (o_validate out); match r with Some e => raise e | None => mret tt end.

(** * Evidence *)

Record ScopeEvidence := mkEvidence { Imported : Z; Renewals : Z; Grants : Z }.

Definition isProbeMAC (mac : string) : bool := has_prefix (to_lower mac) "02:67:68:6f:73:".

Definition count_event (ev : gmap string ScopeEvidence) (e : Event) : gmap string ScopeEvidence :=
  let b := eBinding e in
  match ev !! bScope b with
  | Some ce =>
    if negb (has_prefix (Origin b) "dhcp") || isProbeMAC (MAC b) then ev
    else if Kind e =?s "renew" then <[bScope b := mkEvidence (Imported ce) (Renewals ce + 1) (Grants ce)]> ev
    else if Kind e =?s "grant" then <[bScope b := mkEvidence (Imported ce) (Renewals ce) (Grants ce + 1)]> ev
    else ev
  | None => ev
  end.

(** The log is read a thousand events at a time; [fuel] is one more than its length. *)
Fixpoint count_pages (fuel : nat) (l : ledger) (after : Z) (ev : gmap string ScopeEvidence) : result string (gmap string ScopeEvidence) :=
  match fuel with
  | O => Ok ev
  | S fuel' =>
    es ← Events after 1000 l;
    let ev' := fold_left count_event es ev in
    if (length es <? Z.to_nat 1000)%nat then Ok ev'
    else count_pages fuel' l (match last es with Some e => EventID e | None => after end) ev'
  end.

Definition start_evidence (j : HandoverJournal) : gmap string ScopeEvidence :=
  fold_left (fun ev s => if Enabled s then <[sID s := mkEvidence (lookup_default (ImportedLeases j) (sID s) 0) 0 0]> ev else ev)
    (Scopes (Target j)) ∅.

Definition clientEvidence (j : HandoverJournal) (l : ledger) : result string (gmap string ScopeEvidence) :=
  count_pages (S (length (events l))) l (jRevision j) (start_evidence j).

Definition missing_of (kv : string * ScopeEvidence) : list string :=
  let '(id, e) := kv in
  (if (0 <? Imported e) && (Renewals e =? 0) then ["scope " +++ id +++ ": no client has renewed an inherited lease yet"] else [])
  ++ (if Grants e =? 0 then ["scope " +++ id +++ ": no new client has been allocated an address yet"] else []).
Definition missingEvidence (ev : gmap string ScopeEvidence) : list string :=
  sort_strings (flat_map missing_of (map_to_list ev)).

(** * abandonDelegations *)

Definition abandonDelegations (target : Config) : act Z :=
  match pd_pools target with
  | [] => mret 0
  | pools =>
    now ← ask (o_now out);
    commit_book (fun l =>
      (abandon_all now pools l, Ok (Z.of_nat (length (List.filter (abandoned_one now pools) (values (bindings l)))))))
  end.

(** * Rollback and recovery *)

(** The leases of the snapshot that no live binding covers any more. *)
Definition live_keys (bs : list Binding) : list string :=
  map key_of (List.filter (fun b => liveState (bState b)) bs).
Definition missing_leases (bs : list Binding) (leases : list ImportedLease) : list ImportedLease :=
  List.filter (fun i => negb (mem_str (bindingKey (iScope i) (iAddress i)) (live_keys bs))) leases.

Definition hand_back (j : HandoverJournal) : act unit :=
  doc ← lift (ParseDNSmasq (Target j) (jSnapshot j));
  current ← Snapshot_;
  ImportDocument_h (disabled (Target j)) (mkDocument (missing_leases (sBindings current) (Leases doc)) (docDUID doc));;
  current' ← Snapshot_;
  text ← lift (ExportDNSmasq sha256_hex current');
  WriteLeases text.

Definition finished_phase (p : string) : bool := is_empty p || (p =?s "rolled-back").

(** reflect.DeepEqual of two configurations is [config_eqb]: a parameter of the handlers. *)
Context (config_eqb : Config -> Config -> bool).

Definition Rollback : act unit :=
  j ← HandoverJournal_;
  if finished_phase (Phase j) then mret tt
  else
    m ← gets mgr;
    refuse_if ((Phase j =?s "confirmed") && negb (config_eqb (disabled (mConfig m)) (disabled (Target j))))
      "DHCP configuration changed since takeover; reconcile it before rollback";;
    let j1 := with_phase "rolling-back" (Deadline j) j in
    saveHandover j1;;
    apply (disabled (Target j1));;
    (if Activated j1 then hand_back j1 else mret tt);;
    n ← (if Activated j1 then abandonDelegations (Target j1) else mret 0);
    let j2 := with_abandoned (AbandonedDelegations j1 + n) j1 in
    apply (disabled (Previous j2));;
    LegacyStart;;
    let j3 := with_phase "rolled-back" 0 j2 in
    saveHandover j3;;
    archiveHandover j3.

Definition needs_recovery (now : Z) (j : HandoverJournal) : bool :=
  if (Phase j =?s "stopping") || (Phase j =?s "snapshot") || (Phase j =?s "rolling-back") then true
  else if Phase j =?s "pending" then Deadline j <=? now else false.

Definition Recover : act unit :=
  j ← HandoverJournal_; now ← ask (o_now out);
  if needs_recovery now j then Rollback else mret tt.

(** * Begin *)

(** Probe.validate *)
Definition probe_validate (c : Config) (p : Probe) : result string unit :=
  if pKind p =?s "dhcp" then
    check (match find_scope c (pScope p) with Some s => negb (scope_is6 s) && Enabled s | None => false end)
      ("dhcp probe needs an enabled IPv4 scope, got " +++ quote (pScope p))
  else if pKind p =?s "dns" then
    fail_if (negb (bool_decide (is_Some (find_scope c (pScope p)))) || is_empty (pName p) || is_empty (Expect p))
      "dns probe needs a scope, a name and the address to expect";;
    check (bool_decide (is_Some (ParseAddr (Expect p)))) "dns probe: expect must be an address"
  else if pKind p =?s "tcp" then check (bool_decide (is_Some (SplitHostPort (pAddr p)))) "tcp probe needs host:port"
  else Err ("unknown probe kind " +++ quote (pKind p)).

Definition imported_counts (leases : list ImportedLease) : gmap string Z :=
  fold_left (fun m i => <[iScope i := lookup_default m (iScope i) 0 + 1]> m) leases ∅.

(** begin: the journal the caller holds is changed as it goes, so a failure returns it too. *)
Definition or_return {A} (j : HandoverJournal) (m : act A) (k : A -> act (HandoverJournal * result string unit)) :
    act (HandoverJournal * result string unit) :=
  r ← attempt m; match r with Ok a => k a | Err e => mret (j, Err e) end.

Definition begin_ (j : HandoverJournal) : act (HandoverJournal * result string unit) :=
  or_return j LegacyStop (fun _ =>
  or_return j ReadLeases (fun text =>
  let j1 := with_snapshot text j in
  or_return j1 (saveHandover j1) (fun _ =>
  or_return j1 (lift (ParseDNSmasq (Target j1) text)) (fun doc =>
  or_return j1 (ImportDocument_h (disabled (Target j1)) doc) (fun _ =>
  let j2 := with_imported (imported_counts (Leases doc)) j1 in
  or_return j2 (saveHandover j2) (fun _ =>
  or_return j2 (apply (Target j2)) (fun _ =>
  let j3 := with_phase "pending" (Deadline j2) j2 in
  or_return j3 (saveHandover j3) (fun _ => mret (j3, Ok tt))))))))).

Definition Begin (target : Config) (spec : LegacySpec) (grace : Z) (require : bool) (probes : list Probe) (allowPD : bool) : act unit :=
  lift (Validate target);;
  refuse_if ((grace <? 30) || (1800 <? grace)) "handover deadline must be 30..1800 seconds";;
  lift (for_each (fun s => fail_if (bool_decide (is_Some (PD s)) && negb allowPD)
    ("scope " +++ sID s +++ " delegates prefixes, which dnsmasq's lease file cannot carry")) (Scopes target));;
  lift (for_each (probe_validate target) probes);;
  previous ← gets (fun h => mConfig (mgr h));
  refuse_if (serving previous) "disable ghostd scopes before dnsmasq takeover";;
  old ← HandoverJournal_;
  refuse_if (negb (finished_phase (Phase old))) ("handover already exists in phase " +++ Phase old);;
  LegacyValidate;;
  started ← ask (o_now out); now ← ask (o_now out); revision ← view (fun s => Revision (book s));
  let j := mkJournal "stopping" (now + grace) target previous spec EmptyString false EmptyString revision started 0 ∅ require probes [] 0 in
  saveHandover j;;
  '(j', r) ← begin_ j;
  match r with
  | Ok _ => mret tt
  | Err e =>
    dropped (saveHandover (with_error e j'));;
    rescue Rollback (fun e' => raise ("takeover: " +++ e +++ "; rollback pending: " +++ e'));;
    raise e
  end.

(** * Confirm and Probe *)

Fixpoint verify_dns (ss : list Scope) : act unit :=
  match ss with
  | [] => mret tt
  | s :: ss' =>
    (if Enabled s then
       udp ← ask (o_answers out); refuse_if (negb udp) ("scope " +++ sID s +++ " DNS udp verification failed");;
       tcp ← ask (o_answers out); refuse_if (negb tcp) ("scope " +++ sID s +++ " DNS tcp verification failed")
     else mret tt);;
    verify_dns ss'
  end.

Fixpoint RunProbes (c : Config) (ps : list Probe) : act (list ProbeResult) :=
  match ps with
  | [] => mret []
  | p :: ps' => run ← ask (o_probe out); rs ← RunProbes c ps'; mret (run p c :: rs)
  end.

Definition probe_failures (rs : list ProbeResult) : list string :=
  map (fun r => pKind (prProbe r) +++ " probe: " +++ prDetail r) (List.filter (fun r => negb (prOK r)) rs).

(** The probes of the journal, run and recorded; the journal as it is then. *)
Definition run_journal_probes (j : HandoverJournal) : act HandoverJournal :=
  match Probes j with
  | [] => mret j
  | ps =>
    rs ← RunProbes (Target j) ps;
    let j1 := with_results rs j in
    saveHandover j1;;
    refuse_if (match probe_failures rs with [] => false | _ => true end)
      ("active verification failed: " +++ join "; " (probe_failures rs));;
    mret j1
  end.

Definition Confirm : act unit :=
  j ← HandoverJournal_;
  if Phase j =?s "confirmed" then mret tt
  else
    now ← ask (o_now out);
    refuse_if (negb (Phase j =?s "pending") || (Deadline j <=? now)) "no live takeover to confirm";;
    (if RequireEvidence j then
       l ← view book; ev ← lift (clientEvidence j l);
       refuse_if (match missingEvidence ev with [] => false | _ => true end)
         ("client verification incomplete: " +++ join "; " (missingEvidence ev))
     else mret tt);;
    verify_dns (Scopes (Target j));;
    j1 ← run_journal_probes j;
    now' ← ask (o_now out);
    refuse_if (Deadline j1 <=? now') "takeover expired during verification";;
    let j2 := with_phase "confirmed" 0 j1 in
    saveHandover j2;;
    archiveHandover j2.

Definition Probe_ : act (list ProbeResult) :=
  j ← HandoverJournal_;
  refuse_if (negb (Phase j =?s "pending")) "probes run during a pending takeover";;
  refuse_if (match Probes j with [] => true | _ => false end) "this takeover carries no probes";;
  rs ← RunProbes (Target j) (Probes j);
  saveHandover (with_results rs j);;
  mret rs.

(** * cmd/ghostd *)

(** recoverLegacyHandover: whether the journal ended in "rolled-back". *)
Definition recoverHandover (force : bool) : act bool :=
  j ← HandoverJournal_;
  if is_empty (Phase j) then mret false
  else
    (if force && (Phase j =?s "pending") then Rollback else Recover);;
    rescue (after ← HandoverJournal_; mret (Phase after =?s "rolled-back")) (fun _ => mret false).

(** store.Load and ParseConfig of the configuration file; the watcher remembers what it read. *)
Definition load_config : act Config :=
  failed ← ask (o_load out); if failed : bool then raise "load configuration"
  else c ← gets saved; modify (set_loaded c);; lift (Validate c);; mret c.

Definition lock : act unit := failed ← ask (o_lock out); refuse_if failed "store lock".

(** startAddressbook, up to the goroutine, of a daemon whose flags are [observe] and [standby]. *)
Definition startAddressbook (observe standby : bool) : act unit :=
  modify (set_mgr NewManager);;
  _ ← load_config;
  (if standby then modify (fun h => set_mgr (SetStandby true (mgr h)) h) else mret tt);;
  if observe then Apply no_config (mret tt)
  else
    lock;;
    dropped (recoverHandover false;; mret tt);;
    config ← load_config;
    rescue (Apply config (mret tt)) (fun e =>
      r ← attempt (recoverHandover true);
      match r with
      | Err e' => raise (e +++ "; handover rollback: " +++ e')
      | Ok true => config' ← load_config; Apply config' (mret tt)
      | Ok false => raise e
      end).

(** One round of the watcher: recovery, then a reload when the file differs from what was last
    applied. *)
Definition watch : act unit :=
  lock;;
  dropped (recoverHandover false;; mret tt);;
  raw ← gets loaded;
  failed ← ask (o_load out);
  latest ← gets saved;
  if failed || config_eqb latest raw then mret tt
  else dropped (lift (Validate latest);; Apply latest (mret tt);; modify (set_loaded latest)).

(** applyDHCP's change of configuration: refused while a takeover is in flight. *)
Definition in_flight (p : string) : bool := negb (is_empty p || (p =?s "confirmed") || (p =?s "rolled-back")).
Definition configure (c : Config) : act unit :=
  j ← HandoverJournal_;
  refuse_if (in_flight (Phase j)) "finish or roll back pending DHCP handover before changing configuration";;
  Apply c (SaveConfig c).

End Handover.
