(* ===== verification/HandoverInv.v ===== *)
(** A takeover never has two authorities: whatever fails and wherever the daemon or the machine
    stops, ghostd serves no scope unless dnsmasq's unit is masked and not running. *)

From S2P Require Import Prelude Json State NetAddr Ledger Config Allocate Delegate LeaseImport Report Dnsmasq Manager ManagerInv Handover.
Local Open Scope Z_scope.

(** * Triples

    [triple P m Q E]: run from a host in [P], [m] ends in [Q] when it returns and in [E] when it
    fails or crashes. *)

Definition triple {A} (P : host -> Prop) (m : act A) (Q : A -> host -> Prop) (E : host -> Prop) : Prop :=
  forall h, P h -> match m h with (h', Done a) => Q a h' | (h', _) => E h' end.

Section Rules.
Context {A B : Type}.
Implicit Types (P E : host -> Prop) (m : act A).

Lemma t_conseq (P P' : host -> Prop) m (Q Q' : A -> host -> Prop) (E E' : host -> Prop) :
  triple P' m Q' E' -> (forall h, P h -> P' h) -> (forall a h, Q' a h -> Q a h) -> (forall h, E' h -> E h) -> triple P m Q E.
Proof. intros H HP HQ HE h Hh. specialize (H h (HP h Hh)). destruct (m h) as [h' [a|e|]]; auto. Qed.

Lemma t_ret P (a : A) E : triple P (mret a) (fun x h => x = a /\ P h) E.
Proof. by intros h Hh. Qed.

Lemma t_bind P m (k : A -> act B) (R : A -> host -> Prop) (Q : B -> host -> Prop) E :
  triple P m R E -> (forall a, triple (R a) (k a) Q E) -> triple P (m ≫= k) Q E.
Proof.
  intros Hm Hk h Hh. specialize (Hm h Hh). unfold mbind, act_bind. destruct (m h) as [h' [a|e|]]; [|done..]. by apply Hk.
Qed.

Lemma t_raise P e (Q : A -> host -> Prop) E : (forall h, P h -> E h) -> triple P (raise e) Q E.
Proof. intros H h Hh. by apply H. Qed.

Lemma t_lift P (r : result string A) E : (forall h, P h -> E h) -> triple P (lift r) (fun a h => r = Ok a /\ P h) E.
Proof. intros H h Hh. unfold lift. destruct r; [done|by apply H]. Qed.

Lemma t_gets P (f : host -> A) E : triple P (gets f) (fun a h => a = f h /\ P h) E.
Proof. by intros h Hh. Qed.

Lemma t_ask P (f : nat -> A) E : (forall h, P h -> P (tick_on h)) -> triple P (ask f) (fun _ h => P h) E.
Proof. intros H h Hh. by apply H. Qed.

Lemma t_attempt P m (Q : A -> host -> Prop) E : triple P m Q E ->
  triple P (attempt m) (fun r h => match r with Ok a => Q a h | Err _ => E h end) E.
Proof. intros H h Hh. specialize (H h Hh). unfold attempt. by destruct (m h) as [h' [a|e|]]. Qed.

Lemma t_rescue P m (handler : string -> act A) (Q : A -> host -> Prop) E : triple P m Q E -> (forall e, triple E (handler e) Q E) ->
  triple P (rescue m handler) Q E.
Proof. intros H Hh h HP. specialize (H h HP). unfold rescue. destruct (m h) as [h' [a|e|]]; [done| |done]. by apply Hh. Qed.
End Rules.

Lemma t_ret' {A} (P E : host -> Prop) (a : A) : triple P (mret a) (fun _ => P) E.
Proof. by intros h Hh. Qed.
Lemma t_gets' {A} (P E : host -> Prop) (f : host -> A) : triple P (gets f) (fun _ => P) E.
Proof. by intros h Hh. Qed.
Lemma t_pre {A} (P P' : host -> Prop) (m : act A) Q E : triple P' m Q E -> (forall h, P h -> P' h) -> triple P m Q E.
Proof. intros H HP h Hh. by apply H, HP. Qed.

Lemma t_modify (P : host -> Prop) f (Q : unit -> host -> Prop) E : (forall h, P h -> Q tt (f h)) -> triple P (modify f) Q E.
Proof. intros H h Hh. by apply H. Qed.

Lemma t_dropped P m (Q : unit -> host -> Prop) (E : host -> Prop) : triple P m Q E -> (forall h, Q tt h -> E h) ->
  triple P (dropped m) (fun _ => E) E.
Proof. intros H HQ h Hh. specialize (H h Hh). unfold dropped. destruct (m h) as [h' [[]|e|]]; auto. Qed.

Lemma t_refuse P b e E : (forall h, P h -> E h) -> triple P (refuse_if b e) (fun _ h => b = false /\ P h) E.
Proof. intros H h Hh. unfold refuse_if. destruct b; [by apply H|done]. Qed.

Lemma t_effect (P : host -> Prop) fate f (Q : unit -> host -> Prop) (E : host -> Prop) :
  (forall h, P h -> Q tt (f h)) -> (forall h, P h -> E h) -> (forall h, P h -> E (f h)) -> triple P (effect fate f) Q E.
Proof. intros H1 H2 H3 h Hh. unfold effect. destruct fate; cbn; auto. Qed.

Section Safety.
Context (sha256_hex : string -> string) (duid_valid : string -> bool) (fingerprint : Config -> string).
Context (config_eqb : Config -> Config -> bool).

(** A manager that holds DHCP sockets only for a configuration that serves. *)
Definition bound (m : Manager) : Prop := serving (mConfig m) = false -> mDHCP m = ∅.

(** dnsmasq is off and stays off. *)
Definition quiet (h : host) : Prop := (masked (dnsmasq h) = true /\ running (dnsmasq h) = false) /\ bound (mgr h).
Definition phase (h : host) : string := Phase (journal (db h)).
Definition held_phase (p : string) : Prop := p = "pending" \/ p = "confirmed".

(** The invariant: ghostd serves, or will serve after a restart, only while dnsmasq is off, and a
    takeover that is pending or confirmed has it off. *)
Record safe (h : host) : Prop := {
  sf_mgr : serving (mConfig (mgr h)) = true -> quiet h;
  sf_saved : serving (saved h) = true -> quiet h;
  sf_phase : held_phase (phase h) -> quiet h;
  sf_bound : bound (mgr h);
}.

(** Neither the manager nor the saved configuration serves, and no takeover stands. *)
Record calm (h : host) : Prop := {
  cm_mgr : serving (mConfig (mgr h)) = false;
  cm_saved : serving (saved h) = false;
  cm_phase : ~ held_phase (phase h);
  cm_bound : bound (mgr h);
}.

Lemma calm_safe h : calm h -> safe h.
Proof. intros [H1 H2 H3 H4]. split; congruence || done. Qed.

Lemma quiet_safe h : quiet h -> safe h.
Proof. intros H. split; try done. apply H. Qed.

Lemma serving_disabled c : serving (disabled c) = false.
Proof. unfold serving, disabled. cbn. induction (Scopes c); [done|]. cbn. done. Qed.

Context (out : outside).

(** Predicates that only read the store's journal, the configurations and the unit. *)
Definition steady (P : host -> Prop) : Prop :=
  (forall h, P h -> P (tick_on h))
  /\ (forall h l, P h -> P (set_db (mkStore l (journal (db h)) (history (db h))) h))
  /\ (forall h x, P h -> P (set_db (mkStore (book (db h)) (journal (db h)) x) h))
  /\ (forall h t, P h -> P (set_file t h)).

Lemma steady_safe : steady safe.
Proof. split_and!; intros h; intros; (destruct H || destruct H0); by split. Qed.
Lemma steady_calm : steady calm.
Proof. split_and!; intros h; intros; (destruct H || destruct H0); by split. Qed.
Lemma steady_quiet : steady quiet.
Proof. by split_and!. Qed.

Section Steady.
Context (P : host -> Prop) (HP : steady P).

Lemma s_ask {A} (f : nat -> A) : triple P (ask f) (fun _ => P) P.
Proof. apply t_ask, HP. Qed.

Lemma s_view {A} (f : store -> A) : triple P (view out f) (fun _ => P) P.
Proof.
  unfold view. eapply t_bind; [apply s_ask|]. intros [|]; [by apply t_raise|].
  eapply t_conseq; [apply t_gets|done| |done]. by intros a h [_ H].
Qed.

Lemma s_book {A} (f : ledger -> ledger * result string A) : triple P (commit_book out f) (fun _ => P) P.
Proof.
  intros h Hh. destruct HP as (H1 & H2 & _). unfold commit_book, commit, mbind, act_bind, gets. destruct (f (book (db h))) as [l' [a|e]]; [|done].
  unfold ask, effect. destruct (o_commit out (ticks h)); cbn; auto; apply (H2 (tick_on h)); auto.
Qed.

Lemma s_archive j : triple P (archiveHandover out j) (fun _ => P) P.
Proof.
  unfold archiveHandover. eapply t_bind; [apply s_ask|]. intros now h Hh. destruct HP as (H1 & _ & H3 & _).
  unfold commit, mbind, act_bind, gets, ask, effect. destruct (o_commit out (ticks h)); cbn; auto; apply (H3 (tick_on h)); auto.
Qed.

Lemma s_snapshot : triple P (Snapshot_ out) (fun _ => P) P.
Proof.
  unfold Snapshot_. eapply t_bind; [apply s_ask|]. intros now. eapply t_bind; [apply s_view|]. intros l.
  eapply t_conseq; [by apply t_lift|done| |done]. by intros a h [_ H].
Qed.

Lemma s_import c doc : triple P (ImportDocument_h sha256_hex duid_valid out c doc) (fun _ => P) P.
Proof. unfold ImportDocument_h. eapply t_bind; [apply s_ask|]. intros now. apply s_book. Qed.

Lemma s_write t : triple P (WriteLeases out t) (fun _ => P) P.
Proof.
  unfold WriteLeases. eapply t_bind; [apply s_ask|]. intros fate. destruct HP as (_ & _ & _ & H4). apply t_effect; auto.
Qed.

Lemma s_hand_back j : triple P (hand_back sha256_hex duid_valid out j) (fun _ => P) P.
Proof.
  unfold hand_back. eapply t_bind; [by apply t_lift|]. intros doc. eapply t_bind.
  { eapply t_conseq; [apply s_snapshot|by intros h [_ H]|by intros|done]. }
  intros cur. eapply t_bind; [apply s_import|]. intros []. eapply t_bind; [apply s_snapshot|]. intros cur'.
  eapply t_bind; [by apply t_lift|]. intros text. eapply t_conseq; [apply s_write|by intros h [_ H]|done|done].
Qed.

Lemma s_abandon c : triple P (abandonDelegations out c) (fun _ => P) P.
Proof.
  unfold abandonDelegations. destruct (pd_pools c); [apply t_ret'|].
  eapply t_bind; [apply s_ask|]. intros now. apply s_book.
Qed.
End Steady.

(** * Manager.Apply *)

(** A predicate that does not read the manager's TFTP servers. *)
Definition mgr_blind (P : host -> Prop) : Prop := forall h m, P h -> same_but_tftp (mgr h) m -> P (set_mgr m h).

Lemma bound_same m m' : bound m -> same_but_tftp m m' -> bound m'.
Proof. intros H (E1 & E2 & _). unfold bound. by rewrite E1, E2. Qed.

Lemma bound_switch m0 c m o : opened m0 c (Scopes c) m o -> bound (switch c o m).
Proof.
  intros Ho%switch_in_step Hs. apply set_eq. intros k. rewrite (st_dhcp _ Ho). split; [|by intros ?%elem_of_empty].
  intros (s & [Hin He]%enabled_elem & _). change (mConfig (switch c o m)) with c in *. exfalso.
  assert (serving c = true); [|congruence]. apply existsb_exists. exists s. split; [by apply list_elem_of_In|done].
Qed.

Lemma quiet_blind : mgr_blind quiet.
Proof. intros h m [H1 H2] E. split; [done|]. by eapply bound_same. Qed.

Lemma safe_blind : mgr_blind safe.
Proof.
  intros h m [H1 H2 H3 H4] E. pose proof E as (E1 & _). split.
  - cbn. rewrite E1. intros H. by apply quiet_blind; [apply H1|].
  - intros H. by apply quiet_blind; [apply H2|].
  - intros H. by apply quiet_blind; [apply H3|].
  - by eapply bound_same.
Qed.

Lemma t_Apply (P Q R : host -> Prop) c (save : act unit) : steady P -> mgr_blind P -> triple P save (fun _ => Q) P ->
  (forall h m, Q h -> mConfig m = c -> bound m -> R (set_mgr m h)) -> triple P (Apply fingerprint out c save) (fun _ => R) P.
Proof.
  intros HP HM Hs HR. unfold Apply. eapply t_bind; [apply t_gets|]. intros m. eapply t_bind; [by apply t_lift; intros h [_ H]|]. intros [].
  eapply t_bind; [apply t_ask; intros h (? & -> & ?); split_and!; [done|done|by apply HP]|]. intros now. cbn beta.
  eapply t_bind with (R := fun _ h => m = mgr h /\ P h).
  { intros h (_ & -> & Hh). pose proof (s_view P HP book h Hh) as H. unfold view, ask, mbind, act_bind in *.
    destruct (o_view out (ticks h)); [done|]. by split. }
  intros l. eapply t_bind; [apply t_ask; intros h [E Hh]; split; [done|by apply HP]|]. intros opens.
  destruct (prepare opens now c l m) as [m' r] eqn:Ep. destruct (prepare_spec _ _ _ _ _ _ _ Ep) as ((E1 & _ & _) & Hop).
  eapply t_bind with (R := fun _ => P); [apply t_modify; intros h [-> Hh]; by apply HM|]. intros [].
  destruct r as [o|e]; [|intros h Hh; exact Hh]. eapply t_bind with (R := fun a h => a = o /\ P h); [by intros h Hh|]. intros a.
  eapply t_bind with (R := fun _ h => a = o /\ P h); [intros h [-> Hh]; split; [done|by apply HP]|]. intros now'.
  eapply t_bind with (R := fun _ h => a = o /\ P h).
  { intros h [-> Hh]. pose proof (s_book P HP (fun l => (NoteDNSConfig now' (fingerprint c) l, Ok tt)) h Hh) as H.
    unfold rescue. destruct (commit_book _ _ h) as [h' [[]|e|]]; [done|by apply HM|done]. }
  intros []. eapply t_bind with (R := fun _ h => a = o /\ Q h).
  { intros h [-> Hh]. specialize (Hs h Hh). unfold rescue. destruct (save h) as [h' [[]|e|]]; [done|by apply HM|done]. }
  intros []. apply t_modify. intros h [-> Hh]. apply HR; [done|done|]. eapply bound_switch. by apply Hop.
Qed.

(** The host may be given the configuration [c]. *)
Definition may_apply (c : Config) (h : host) : Prop := safe h /\ (serving c = true -> quiet h).

Lemma may_steady c : steady (may_apply c).
Proof.
  destruct steady_safe as (S1 & S2 & S3 & S4).
  split_and!; intros h; [intros [H1 H2]|intros l [H1 H2]|intros x [H1 H2]|intros t [H1 H2]]; split; auto.
Qed.
Lemma may_blind c : mgr_blind (may_apply c).
Proof. intros h m [H1 H2] E. split; [by apply safe_blind|]. intros H. by apply quiet_blind; [apply H2|]. Qed.

Lemma s_SaveConfig c : triple (may_apply c) (SaveConfig out c) (fun _ => may_apply c) (may_apply c).
Proof.
  unfold SaveConfig. eapply t_bind; [apply (s_ask _ (may_steady c))|]. intros fate.
  assert (H : forall h, may_apply c h -> may_apply c (set_saved c h)) by (intros h [[H1 H2 H3 H5] H4]; split; [by split|done]).
  apply t_effect; auto.
Qed.

Lemma quiet_switch h m : quiet h -> bound m -> quiet (set_mgr m h).
Proof. intros [H _] Hm. by split. Qed.

Lemma may_switch c h m : may_apply c h -> mConfig m = c -> bound m -> may_apply c (set_mgr m h).
Proof.
  intros [[H1 H2 H3 H5] H4] E Hm. split; [|intros H; apply quiet_switch; auto]. split; try done.
  - cbn. rewrite E. intros H. apply quiet_switch; auto.
  - intros H. apply quiet_switch; auto.
  - intros H. apply quiet_switch; auto.
Qed.

Lemma s_Apply c : triple (may_apply c) (Apply fingerprint out c (mret tt)) (fun _ => may_apply c) (may_apply c).
Proof.
  eapply t_Apply; [apply may_steady|apply may_blind| |apply may_switch].
  apply t_ret'.
Qed.

Lemma s_apply c : triple (may_apply c) (apply fingerprint out c) (fun _ => may_apply c) (may_apply c).
Proof. eapply t_Apply; [apply may_steady|apply may_blind|apply s_SaveConfig|apply may_switch]. Qed.

(** Switching every scope off, in a host whose takeover does not stand. *)
Definition released (h : host) : Prop := safe h /\ ~ held_phase (phase h).

Lemma released_steady : steady released.
Proof.
  destruct steady_safe as (S1 & S2 & S3 & S4).
  split_and!; intros h; [intros [H1 H2]|intros l [H1 H2]|intros x [H1 H2]|intros t [H1 H2]]; split; auto.
Qed.

Lemma s_disable c : triple released (apply fingerprint out (disabled c)) (fun _ => calm) safe.
Proof.
  eapply t_conseq with (E' := released) (P' := released) (Q' := fun _ => calm); [|done|done|by intros h [H _]].
  apply t_Apply with (Q := fun h => serving (saved h) = false /\ ~ held_phase (phase h)).
  - apply released_steady.
  - intros h m [H1 H2] E. split; [by apply safe_blind|done].
  - unfold SaveConfig. eapply t_bind; [apply (s_ask _ released_steady)|]. intros fate. apply t_effect; [|done|].
    + intros h [_ H]. split; [apply serving_disabled|done].
    + intros h [[H1 H2 H3 H5] H4]. split; [|done]. split; [done| |done..].
      intros Hx. change (serving (disabled c) = true) in Hx. by rewrite serving_disabled in Hx.
  - intros h m [H1 H2] E Hm. split; [|done..]. change (serving (mConfig m) = false). rewrite E. apply serving_disabled.
Qed.

(** * The unit *)

Lemma t_systemctl (P Q E : host -> Prop) f : (forall h, P h -> P (tick_on h)) -> (forall h, P h -> Q (f h)) -> (forall h, P h -> E h) ->
  (forall h, P h -> E (f h)) -> triple P (systemctl out f) (fun _ => Q) E.
Proof. intros H1 H2 H3 H4. unfold systemctl. eapply t_bind; [by apply t_ask|]. intros fate. by apply t_effect. Qed.

Lemma t_show (P : host -> Prop) : (forall h, P h -> P (tick_on h)) ->
  triple P (show_state out) (fun st h => st = ustate (dnsmasq h) /\ P h) P.
Proof.
  intros H. unfold show_state. eapply t_bind; [by apply t_systemctl with (Q := P)|]. intros []. apply t_gets.
Qed.

Lemma mask_safe h : safe h -> safe (mask_unit true h).
Proof. intros [H1 H2 H3 H4]. split; [intros H; destruct (H1 H) as [[? ?] ?]|intros H; destruct (H2 H) as [[? ?] ?]|intros H; destruct (H3 H) as [[? ?] ?]|]; done. Qed.

Lemma stop_quiet to h : quiet h -> quiet (stop_unit to h).
Proof. intros [[H1 H2] H3]. unfold stop_unit, quiet. by rewrite H2. Qed.

Lemma stop_safe to h : safe h -> safe (stop_unit to h).
Proof.
  intros [H1 H2 H3 H4]. split; [intros H; apply stop_quiet, H1|intros H; apply stop_quiet, H2|intros H; apply stop_quiet, H3|];
    unfold stop_unit in *; by destruct (running _).
Qed.

(** When dnsmasq has been stopped it is masked and not running. *)
Lemma s_stop : triple safe (LegacyStop out) (fun _ h => safe h /\ quiet h) safe.
Proof.
  pose proof steady_safe as (Tick & _). unfold LegacyStop.
  eapply t_bind with (R := fun _ h => safe h /\ masked (dnsmasq h) = true).
  { apply t_systemctl; [done| |done|by apply mask_safe]. intros h H. split; [by apply mask_safe|done]. }
  intros []. eapply t_bind; [apply t_ask; intros h [? ?]; split; [by apply Tick|done]|]. intros to. cbn beta.
  eapply t_bind with (R := fun _ h => safe h /\ masked (dnsmasq h) = true).
  { apply t_systemctl; [intros h [? ?]; split; [by apply Tick|done]| |by intros h [? _]|by intros h [? _]; apply stop_safe].
    intros h [? Hm]. split; [by apply stop_safe|]. unfold stop_unit. by destruct (running _). }
  intros []. eapply t_bind.
  { eapply (t_conseq _ (fun h => safe h /\ masked (dnsmasq h) = true)); [apply t_show|done|by intros a h H; apply H|by intros h [? _]].
    intros h [? ?]. split; [by apply Tick|done]. }
  intros st h (-> & Hs & Hm). unfold refuse_if, running. destruct (negb _ && negb _) eqn:E; [exact Hs|].
  split; [done|]. split; [|exact (sf_bound _ Hs)]. split; [done|]. unfold running. destruct (ustate (dnsmasq h)); by vm_compute in E.
Qed.

Lemma t_refuse' (P Q : host -> Prop) b e E : (forall h, P h -> E h) -> (forall h, P h -> Q h) -> triple P (refuse_if b e) (fun _ => Q) E.
Proof. intros H HQ h Hh. unfold refuse_if. destruct b; [by apply H|by apply HQ]. Qed.

Section Unit.
Context (P : host -> Prop) (Tick : forall h, P h -> P (tick_on h)).

Lemma s_await fuel deadline : triple P (await_serving out fuel deadline) (fun _ => P) P.
Proof.
  induction fuel as [|fuel IH]; cbn [await_serving]; [by apply t_raise|].
  eapply t_bind; [by apply t_show|]. intros st. eapply t_bind; [by apply t_refuse' with (Q := P); intros h [_ ?]|]. intros [].
  eapply t_bind; [by apply t_systemctl with (Q := P)|]. intros []. eapply t_bind; [by apply t_ask|]. intros [|].
  - apply t_ret'.
  - eapply t_bind; [by apply t_ask|]. intros now. destruct (_ <? _); [by apply t_raise|done].
Qed.
End Unit.

(** Starting dnsmasq again, when ghostd serves nothing. *)
Lemma s_start : triple calm (LegacyStart out) (fun _ => calm) calm.
Proof.
  pose proof steady_calm as (Tick & _). unfold LegacyStart.
  assert (Hu : forall u h, calm h -> calm (set_unit u h)) by (intros u h [H1 H2 H3 H4]; by split).
  eapply t_bind with (R := fun _ => calm); [apply t_systemctl; auto; intros h ?; by apply Hu|]. intros [].
  eapply t_bind with (R := fun _ => calm); [apply t_gets'|]. intros blocked.
  eapply t_bind; [by apply t_ask|]. intros to.
  assert (Hs : forall h, calm h -> calm (start_unit to h)) by (intros h ?; unfold start_unit; destruct (masked _); auto).
  eapply t_bind with (R := fun _ => calm); [by apply t_systemctl|]. intros [].
  eapply t_bind; [by apply t_refuse' with (Q := calm)|]. intros []. eapply t_bind; [by apply t_ask|]. intros now. by apply s_await.
Qed.

(** * The journal *)

Lemma t_journal (P : host -> Prop) : steady P -> triple P (HandoverJournal_ out) (fun j h => j = journal (db h) /\ P h) P.
Proof.
  intros HP h Hh. pose proof (s_view P HP journal h Hh) as H. unfold HandoverJournal_, view, ask, mbind, act_bind in *.
  destruct (o_view out (ticks h)); [done|]. by split.
Qed.

(** Saving a journal: the old one or the new one. *)
Lemma t_saveHandover (P Q E : host -> Prop) j : (forall h, P h -> P (tick_on h)) -> (forall h, P h -> E h) ->
  (forall h x, P h -> journal x = j -> Q (set_db x h)) -> (forall h, Q h -> E h) -> triple P (saveHandover out j) (fun _ => Q) E.
Proof.
  intros HT HE HQ HQE h Hh. unfold saveHandover, commit, mbind, act_bind, gets, ask, effect.
  destruct (o_commit out (ticks h)); cbn; try (apply HE; by apply HT); try (apply HQE); apply (HQ (tick_on h)); auto.
Qed.

Lemma journal_safe h x : safe h -> (held_phase (Phase (journal x)) -> quiet h) -> safe (set_db x h).
Proof. intros [H1 H2 H3 H4] H. by split. Qed.

Lemma journal_calm h x : calm h -> ~ held_phase (Phase (journal x)) -> calm (set_db x h).
Proof. intros [H1 H2 H3 H4] H. by split. Qed.

Lemma not_held p : bool_decide (p = "pending") || bool_decide (p = "confirmed") = false -> ~ held_phase p.
Proof. intros H. apply orb_false_elim in H as [H1%bool_decide_eq_false H2%bool_decide_eq_false]. by intros [?|?]. Qed.

Lemma s_Rollback : triple safe (Rollback sha256_hex duid_valid fingerprint out config_eqb) (fun _ => safe) safe.
Proof.
  unfold Rollback. eapply t_bind; [by apply t_journal, steady_safe|]. intros j.
  destruct (finished_phase (Phase j)); [by intros h [_ ?]|].
  eapply t_bind with (R := fun _ => safe); [by intros h [_ ?]|]. intros m.
  eapply t_bind; [by apply t_refuse' with (Q := safe)|]. intros [].
  eapply t_bind with (R := fun _ => released).
  { apply t_saveHandover; [apply steady_safe|done| |by intros h [? _]]. intros h x Hh E.
    assert (~ held_phase (Phase (journal x))) by (rewrite E; by apply not_held). split; [by apply journal_safe|done]. }
  intros []. eapply t_bind; [apply s_disable|]. intros [].
  assert (HE : forall A (m : act A), triple calm m (fun _ => calm) calm -> triple calm m (fun _ => calm) safe).
  { intros A m' H. eapply t_conseq; [exact H|done|done|apply calm_safe]. }
  assert (Hret : forall A (a : A), triple calm (mret a) (fun _ => calm) safe).
  { intros A a. apply t_ret'. }
  eapply t_bind; [destruct (Activated _); [apply HE, s_hand_back, steady_calm|apply Hret]|]. intros [].
  eapply t_bind; [destruct (Activated _); [apply HE, s_abandon, steady_calm|apply Hret]|]. intros n.
  eapply t_bind; [eapply t_conseq; [apply s_disable|intros h H; split; [by apply calm_safe|apply H]|done|done]|]. intros [].
  eapply t_bind; [apply HE, s_start|]. intros [].
  eapply t_bind with (R := fun _ => calm).
  { apply t_saveHandover; [apply steady_calm|apply calm_safe| |apply calm_safe]. intros h x Hh E. apply journal_calm; [done|].
    rewrite E. by apply not_held. }
  intros []. eapply t_conseq; [apply (s_archive calm steady_calm)|done|by intros ? h ?; apply calm_safe|apply calm_safe].
Qed.

(** * Begin *)

(** What begin hands back: a journal that says pending only when dnsmasq is off. *)
Definition begun (r : HandoverJournal * result string unit) (h : host) : Prop :=
  safe h /\ (held_phase (Phase (fst r)) -> quiet h).

Lemma t_or_return {A} (P E0 : host -> Prop) (Q : A -> host -> Prop) j (m : act A) k : triple P m Q E0 ->
  (forall a, triple (Q a) (k a) begun safe) -> (forall h, E0 h -> safe h /\ (held_phase (Phase j) -> quiet h)) ->
  triple P (or_return j m k) begun safe.
Proof.
  intros Hm Hk HE. unfold or_return. eapply t_bind.
  { eapply t_conseq; [by apply t_attempt|done|by intros a h H; apply H|intros h H; by apply HE]. }
  intros [a|e]; [apply Hk|]. intros h Hh. by apply HE.
Qed.

Lemma quiet_begun h j : quiet h -> safe h /\ (held_phase (Phase j) -> quiet h).
Proof. intros H. split; [by apply quiet_safe|done]. Qed.

Lemma q_save j : triple quiet (saveHandover out j) (fun _ => quiet) quiet.
Proof. by apply t_saveHandover. Qed.

Lemma q_apply c : triple quiet (apply fingerprint out c) (fun _ => quiet) quiet.
Proof.
  apply t_Apply with (Q := quiet); [apply steady_quiet|apply quiet_blind| |intros h m Hh _ Hm; by apply quiet_switch]. unfold SaveConfig.
  eapply t_bind; [apply (s_ask _ steady_quiet)|]. intros fate. by apply t_effect.
Qed.

Lemma q_read : triple quiet (ReadLeases out) (fun _ => quiet) quiet.
Proof.
  unfold ReadLeases. eapply t_bind; [apply (s_ask _ steady_quiet)|]. intros fate.
  eapply t_bind with (R := fun _ => quiet); [by apply t_effect|]. intros []. apply t_gets'.
Qed.

Lemma s_begin j : Phase j = "stopping" -> triple safe (begin_ sha256_hex duid_valid fingerprint out j) begun safe.
Proof.
  intros Ej. unfold begin_. eapply t_or_return with (Q := fun _ => quiet); [eapply t_conseq; [apply s_stop|done|by intros ? h [_ ?]|]; by intros h H; apply H| |].
  2:{ intros h H. split; [done|]. rewrite Ej. by intros [?|?]. }
  intros []. eapply t_or_return; [apply q_read| |by intros h; apply quiet_begun]. intros text. cbn beta zeta.
  eapply t_or_return; [apply q_save| |by intros h; apply quiet_begun]. intros [].
  eapply t_or_return with (E0 := quiet); [by apply t_lift| |by intros h; apply quiet_begun]. intros doc.
  eapply t_or_return; [eapply t_pre; [apply (s_import quiet steady_quiet)|by intros h [_ ?]]| |by intros h; apply quiet_begun]. intros [].
  eapply t_or_return; [apply q_save| |by intros h; apply quiet_begun]. intros [].
  eapply t_or_return; [apply q_apply| |by intros h; apply quiet_begun]. intros [].
  eapply t_or_return; [apply q_save| |by intros h; apply quiet_begun]. intros []. intros h Hh. by apply quiet_begun.
Qed.

Lemma s_journal : triple safe (HandoverJournal_ out) (fun _ => safe) safe.
Proof. apply (s_view _ steady_safe). Qed.

Lemma s_Begin target spec grace require probes allowPD :
  triple safe (Begin sha256_hex duid_valid fingerprint out config_eqb target spec grace require probes allowPD) (fun _ => safe) safe.
Proof.
  assert (Hlift : forall A (r : result string A), triple safe (lift r) (fun _ => safe) safe).
  { intros A r h Hh. by destruct r. }
  unfold Begin. eapply t_bind; [apply Hlift|]. intros []. eapply t_bind; [by apply t_refuse' with (Q := safe)|]. intros [].
  eapply t_bind; [apply Hlift|]. intros []. eapply t_bind; [apply Hlift|]. intros [].
  eapply t_bind; [apply t_gets'|]. intros previous. eapply t_bind; [by apply t_refuse' with (Q := safe)|]. intros [].
  eapply t_bind; [apply s_journal|]. intros old. eapply t_bind; [by apply t_refuse' with (Q := safe)|]. intros [].
  eapply t_bind with (R := fun _ => safe).
  { unfold LegacyValidate. eapply t_bind; [apply (s_ask _ steady_safe)|]. intros [e|]; [by apply t_raise|apply t_ret']. }
  intros []. eapply t_bind; [apply (s_ask _ steady_safe)|]. intros started. eapply t_bind; [apply (s_ask _ steady_safe)|]. intros now.
  eapply t_bind; [apply (s_view _ steady_safe)|]. intros revision. cbv zeta. set (j := mkJournal _ _ _ _ _ _ _ _ _ _ _ _ _ _ _ _).
  eapply t_bind with (R := fun _ => safe).
  { apply t_saveHandover; [apply steady_safe|done| |done]. intros h x Hh E. apply journal_safe; [done|]. rewrite E. by intros [?|?]. }
  intros []. eapply t_bind; [by apply s_begin|]. intros [j' [[]|e]]; [by intros h [? _]|].
  eapply t_bind with (R := fun _ => safe).
  { eapply (t_conseq _ (begun (j', Err e))); [eapply t_dropped with (Q := fun _ => safe) (E := safe); [|done]|done|done|done].
    apply t_saveHandover; [intros h [? ?]; split; [by apply steady_safe|done]|by intros h [? _]| |done].
    intros h x [Hh Hq] E. apply journal_safe; [done|]. by rewrite E. }
  intros []. eapply t_bind with (R := fun _ => safe); [apply t_rescue; [apply s_Rollback|intros e'; by apply t_raise]|].
  intros []. by apply t_raise.
Qed.

(** * Confirm and the probes *)

(** The journal read is the one stored, so while it says pending dnsmasq is off. *)
Lemma s_standing (k : HandoverJournal -> act unit) : (forall j, triple (fun h => safe h /\ (held_phase (Phase j) -> quiet h)) (k j) (fun _ => safe) safe) ->
  triple safe (j ← HandoverJournal_ out; k j) (fun _ => safe) safe.
Proof.
  intros Hk. eapply t_bind; [by apply t_journal, steady_safe|]. intros j. eapply t_pre; [apply Hk|].
  intros h [-> Hh]. split; [done|]. apply Hh.
Qed.

Lemma s_verify (P : host -> Prop) ss : (forall h, P h -> P (tick_on h)) -> triple P (verify_dns out ss) (fun _ => P) P.
Proof.
  intros HT. induction ss as [|s ss IH]; cbn [verify_dns]; [apply t_ret'|]. eapply t_bind with (R := fun _ => P); [|by intros []].
  destruct (Enabled s); [|apply t_ret']. eapply t_bind; [by apply t_ask|]. intros udp.
  eapply t_bind; [by apply t_refuse' with (Q := P)|]. intros []. eapply t_bind; [by apply t_ask|]. intros tcp. by apply t_refuse'.
Qed.

Lemma s_probes (P : host -> Prop) c ps : (forall h, P h -> P (tick_on h)) -> triple P (RunProbes out c ps) (fun _ => P) P.
Proof.
  intros HT. induction ps as [|p ps IH]; cbn [RunProbes]; [apply t_ret'|]. eapply t_bind; [by apply t_ask|]. intros run.
  eapply t_bind; [apply IH|]. intros rs. apply t_ret'.
Qed.

Lemma s_Confirm : triple safe (Confirm out) (fun _ => safe) safe.
Proof.
  apply s_standing. intros j. destruct (Phase j =?s "confirmed"); [by intros h [? _]|].
  eapply t_bind with (R := fun _ h => safe h /\ (held_phase (Phase j) -> quiet h)).
  { intros h [Hh Hq]. split; [by apply steady_safe|exact Hq]. }
  intros now. eapply t_bind with (R := fun _ => quiet).
  { intros h [Hh Hq]. unfold refuse_if. destruct (negb _ || _) eqn:E; [exact Hh|]. apply Hq. left. apply orb_false_elim in E as [E _].
    apply negb_false_iff in E. by apply String.eqb_eq. }
  intros []. assert (HQ : forall A (m : act A), triple quiet m (fun _ => quiet) quiet -> triple quiet m (fun _ => quiet) safe).
  { intros A m H. eapply t_conseq; [exact H|done|done|apply quiet_safe]. }
  eapply t_bind with (R := fun _ => quiet).
  { apply HQ. destruct (RequireEvidence j); [|apply t_ret']. eapply t_bind; [apply (s_view _ steady_quiet)|]. intros l.
    eapply t_bind; [by apply t_lift|]. intros ev. apply t_refuse'; by intros h [_ ?]. }
  intros []. eapply t_bind; [apply HQ, s_verify, steady_quiet|]. intros [].
  eapply t_bind with (R := fun _ => quiet).
  { apply HQ. unfold run_journal_probes. destruct (Probes j) as [|p ps]; [apply t_ret'|].
    eapply t_bind; [apply s_probes, steady_quiet|]. intros rs. cbv zeta. eapply t_bind; [apply q_save|]. intros [].
    eapply t_bind; [by apply t_refuse' with (Q := quiet)|]. intros []. apply t_ret'. }
  intros j1. eapply t_bind; [apply HQ, (s_ask _ steady_quiet)|]. intros now'.
  eapply t_bind; [apply HQ; by apply t_refuse' with (Q := quiet)|]. intros []. cbv zeta. eapply t_bind; [apply HQ, q_save|]. intros [].
  eapply t_conseq; [apply (s_archive quiet steady_quiet)|done|by intros ? h ?; apply quiet_safe|apply quiet_safe].
Qed.

Lemma s_Probe : triple safe (_ ← Probe_ out; mret tt) (fun _ => safe) safe.
Proof.
  eapply t_bind with (R := fun _ => safe); [|intros rs; apply t_ret']. unfold Probe_. eapply t_bind; [by apply t_journal, steady_safe|]. intros j.
  eapply t_bind with (R := fun _ => quiet).
  { intros h [-> Hh]. unfold refuse_if. destruct (negb _) eqn:E; [exact Hh|]. apply (sf_phase _ Hh). left. apply negb_false_iff in E. by apply String.eqb_eq. }
  intros []. eapply t_bind with (R := fun _ => quiet); [apply t_refuse'; [apply quiet_safe|done]|]. intros [].
  eapply t_bind with (R := fun _ => quiet); [eapply t_conseq; [apply (s_probes quiet), steady_quiet|done|done|apply quiet_safe]|].
  intros rs. eapply t_bind with (R := fun _ => quiet); [eapply t_conseq; [apply q_save|done|done|apply quiet_safe]|].
  intros []. intros h Hh. by apply quiet_safe.
Qed.

(** * The daemon *)

Lemma s_Recover : triple safe (Recover sha256_hex duid_valid fingerprint out config_eqb) (fun _ => safe) safe.
Proof.
  unfold Recover. eapply t_bind; [apply s_journal|]. intros j. eapply t_bind; [apply (s_ask _ steady_safe)|]. intros now.
  destruct (needs_recovery now j); [apply s_Rollback|apply t_ret'].
Qed.

Lemma s_recoverHandover force : triple safe (recoverHandover sha256_hex duid_valid fingerprint out config_eqb force) (fun _ => safe) safe.
Proof.
  unfold recoverHandover. eapply t_bind; [apply s_journal|]. intros j. destruct (is_empty _); [apply t_ret'|].
  eapply t_bind with (R := fun _ => safe); [destruct (_ && _); [apply s_Rollback|apply s_Recover]|]. intros [].
  apply t_rescue; [|intros e; apply t_ret']. eapply t_bind; [apply s_journal|]. intros after. apply t_ret'.
Qed.

(** A configuration just loaded is the saved one. *)
Lemma s_load : triple safe (load_config out) (fun c h => may_apply c h) safe.
Proof.
  unfold load_config. eapply t_bind; [apply (s_ask _ steady_safe)|]. intros [|]; [by apply t_raise|].
  eapply t_bind with (R := fun c h => may_apply c h); [intros h Hh; split; [done|apply Hh]|]. intros c.
  eapply t_bind with (R := fun _ => may_apply c).
  { apply t_modify. intros h [[H1 H2 H3 H5] H4]. split; [by split|done]. }
  intros []. eapply t_bind with (R := fun _ => may_apply c); [|by intros [] h Hh]. intros h Hh. unfold lift. destruct (Validate c); [done|apply Hh].
Qed.

Lemma s_apply_loaded c : triple (may_apply c) (Apply fingerprint out c (mret tt)) (fun _ => safe) safe.
Proof. eapply t_conseq; [apply s_Apply|done|by intros ? h [? _]|by intros h [? _]]. Qed.

Lemma s_lock : triple safe (lock out) (fun _ => safe) safe.
Proof. unfold lock. eapply t_bind; [apply (s_ask _ steady_safe)|]. intros failed. by apply t_refuse'. Qed.

Lemma s_drop_recover : triple safe (dropped (recoverHandover sha256_hex duid_valid fingerprint out config_eqb false;; mret tt)) (fun _ => safe) safe.
Proof.
  eapply t_dropped with (Q := fun _ => safe); [|done]. eapply t_bind; [apply s_recoverHandover|]. intros b. apply t_ret'.
Qed.

Lemma fresh_safe h : safe h -> safe (set_mgr NewManager h).
Proof. intros [H1 H2 H3 H4]. split; [done|intros H; by apply quiet_switch; [apply H2|]|intros H; by apply quiet_switch; [apply H3|]|done]. Qed.

Lemma standby_safe on h : safe h -> safe (set_mgr (SetStandby on (mgr h)) h).
Proof.
  intros [H1 H2 H3 H4]. assert (Hm : bound (SetStandby on (mgr h))) by exact H4.
  split; [intros H; by apply quiet_switch; [apply H1|]|intros H; by apply quiet_switch; [apply H2|]|intros H; by apply quiet_switch; [apply H3|]|done].
Qed.

Lemma s_startAddressbook observe standby :
  triple safe (startAddressbook sha256_hex duid_valid fingerprint out config_eqb observe standby) (fun _ => safe) safe.
Proof.
  unfold startAddressbook. eapply t_bind with (R := fun _ => safe); [apply t_modify; apply fresh_safe|]. intros [].
  eapply t_bind with (R := fun _ => safe); [eapply t_conseq; [apply s_load|done|by intros c h [? _]|done]|]. intros _.
  eapply t_bind with (R := fun _ => safe); [destruct standby; [apply t_modify; apply standby_safe|apply t_ret']|]. intros [].
  destruct observe; [eapply t_pre; [apply s_apply_loaded|intros h Hh; by split]|].
  eapply t_bind; [apply s_lock|]. intros []. eapply t_bind; [apply s_drop_recover|]. intros [].
  eapply t_bind; [apply s_load|]. intros c. apply t_rescue; [apply s_apply_loaded|]. intros e.
  eapply t_bind; [apply t_attempt, s_recoverHandover|]. intros [[|]|e']; [|by apply t_raise..].
  eapply t_bind; [apply s_load|]. intros c'. apply s_apply_loaded.
Qed.

Lemma s_watch : triple safe (watch sha256_hex duid_valid fingerprint out config_eqb) (fun _ => safe) safe.
Proof.
  unfold watch. eapply t_bind; [apply s_lock|]. intros []. eapply t_bind; [apply s_drop_recover|]. intros [].
  eapply t_bind; [apply t_gets'|]. intros raw. eapply t_bind; [apply (s_ask _ steady_safe)|]. intros failed.
  eapply t_bind with (R := fun c h => may_apply c h); [intros h Hh; split; [done|apply Hh]|]. intros latest.
  destruct (failed || _); [by intros h [? _]|].
  eapply t_dropped with (Q := fun _ => safe); [|done]. eapply t_bind with (R := fun _ => may_apply latest).
  { intros h Hh. unfold lift. destruct (Validate latest); [done|apply Hh]. }
  intros []. eapply t_bind; [apply s_apply_loaded|]. intros []. apply t_modify. intros h [H1 H2 H3 H4]. by split.
Qed.

Lemma s_configure c : triple (may_apply c) (configure fingerprint out c) (fun _ => safe) safe.
Proof.
  unfold configure. eapply t_bind with (R := fun _ => may_apply c).
  { eapply t_conseq; [apply (s_view _ (may_steady c))|done|done|by intros h [? _]]. }
  intros j. eapply t_bind with (R := fun _ => may_apply c); [apply t_refuse'; [by intros h [? _]|done]|]. intros [].
  eapply t_conseq; [apply s_apply|done|by intros ? h [? _]|by intros h [? _]].
Qed.
End Safety.

(** What Apply leaves of the manager, and of the sockets if the process is still there. *)
Lemma apply_outcome fingerprint out c save h h' r :
  (forall h, mgr (fst (save h)) = mgr h) -> Apply fingerprint out c save h = (h', r) ->
  (if r is Done _ then mConfig (mgr h') = c /\ in_step (mgr h') else stops c (mgr h) (mgr h'))
  /\ (tidy (mgr h) -> if r is Stopped then True else tidy (mgr h')).
Proof.
  intros Hs Ha. assert (Hk0 : stops c (mgr h) (mgr h)) by apply stops_refl.
  unfold Apply, mbind, act_bind in Ha. cbn [gets] in Ha. unfold lift at 1 in Ha.
  destruct (check_config c (mgr h)) as [[]|e]; cbn [of_result] in Ha; [|by injection Ha as <- <-].
  unfold view, mbind, act_bind in Ha. unfold ask in Ha. cbn [ticks tick_on] in Ha.
  destruct (o_view out (S (ticks h))); [by injection Ha as <- <-|]. cbn [gets] in Ha.
  match type of Ha with context [prepare ?a ?b c ?d (mgr h)] => pose proof (prepare_holds a c b d (mgr h)) as Hh end.
  destruct (prepare _ _ c _ (mgr h)) as [m' [o|e]] eqn:Ep; destruct (prepare_spec _ _ _ _ _ _ _ Ep) as (E1 & E2); cbn [holds_or_tidy] in Hh.
  2:{ cbn in Ha. injection Ha as <- <-. by split. }
  specialize (E2 o eq_refl). cbn [modify lift of_result] in Ha. unfold rescue, commit_book, commit, mbind, act_bind, gets, ask, effect in Ha.
  assert (Hc : stops c (mgr h) (cleanup o m') /\ (tidy (mgr h) -> tidy (cleanup o m'))) by (split; [apply stops_open, E1|auto using holding_cleanup]).
  destruct (o_commit out _); cbn [command_effect command_outcome] in Ha; try (injection Ha as <- <-; first [exact Hc|by split]).
  cbn [mret act_ret] in Ha. match type of Ha with context [save ?x] => pose proof (Hs x) as Hsx; destruct (save x) as [h1 [[]|e|]] end; cbn [fst] in Hsx; injection Ha as <- <-.
  - cbn. split; [split; [done|by eapply switch_in_step]|]. intros Ht. eapply switch_tidy; [exact E2|by apply Hh].
  - cbn. rewrite Hsx. exact Hc.
  - rewrite Hsx. by split.
Qed.

(** C15: A configuration change is all or nothing for the listeners.  Let the process hold exactly the
    sockets of its manager's listeners (as one that has just started does, and as every Apply leaves
    it).  When Apply succeeds the manager carries the new configuration, its DHCP, DNS,
    advertisement and TFTP listeners are exactly those the enabled scopes ask for, and the process
    again holds their sockets and no others: those of the listeners that are gone are closed.  When
    it fails, at whatever call (a bind of any listener after others were bound, the second socket of
    a DNS server, the start of a DHCP server on its socket, the DNS serial, the save), the
    configuration and every DHCP, DNS and advertisement listener are as before, no TFTP server has
    been added, one is gone only if the new configuration has another root, and every socket that
    was opened on the way is closed again.  If the process is stopped in the middle, its manager was
    still the old one in the same sense. *)
Theorem apply_all_or_nothing fingerprint out c save h h' r :
  (forall h, mgr (fst (save h)) = mgr h) -> tidy (mgr h) -> Apply fingerprint out c save h = (h', r) ->
  match r with
  | Done _ => mConfig (mgr h') = c /\ in_step (mgr h') /\ mOpen (mgr h') = listening (mgr h')
  | Failed _ => stops c (mgr h) (mgr h') /\ mOpen (mgr h') = listening (mgr h')
  | Stopped => stops c (mgr h) (mgr h')
  end.
Proof. intros Hs Ht Ha. destruct (apply_outcome _ _ _ _ _ _ _ Hs Ha) as [H1 H2]. specialize (H2 Ht). destruct r; [by destruct H1|by split|done]. Qed.

(** * The host over time *)

Section Moves.
Context (sha256_hex : string -> string) (duid_valid : string -> bool) (fingerprint : Config -> string).
Context (config_eqb : Config -> Config -> bool).

Inductive action :=
| ABegin (target : Config) (spec : LegacySpec) (grace : Z) (require : bool) (probes : list Probe) (allowPD : bool)
| AConfirm | ARollback | AProbe | AWatch
| AConfigure (c : Config).

Definition run_action (out : outside) (a : action) : act unit :=
  match a with
  | ABegin target spec grace require probes allowPD =>
    Begin sha256_hex duid_valid fingerprint out config_eqb target spec grace require probes allowPD
  | AConfirm => Confirm out
  | ARollback => Rollback sha256_hex duid_valid fingerprint out config_eqb
  | AProbe => _ ← Probe_ out; mret tt
  | AWatch => watch sha256_hex duid_valid fingerprint out config_eqb
  | AConfigure c => configure fingerprint out c
  end.

Definition out_of_service (h : host) : Prop := masked (dnsmasq h) = true /\ running (dnsmasq h) = false.

(** An ordinary configuration change is not checked against the unit; this is one that could not
    set up a second authority. *)
Definition sensible (a : action) (h : host) : Prop :=
  match a with
  | AConfigure c => serving c = true -> out_of_service h
  | _ => True
  end.
#[global] Instance sensible_dec a h : Decision (sensible a h).
Proof. destruct a; unfold sensible, out_of_service; apply _. Defined.

(** The process is gone, and its sockets with it. *)
Definition halt (h : host) : host := set_mgr NewManager h.

(** One event in the life of a host; the flag says whether the daemon runs.  The daemon acts, with
    any errors; it crashes in the middle of an action, is killed, starts or fails to start; the
    machine reboots, which starts a unit that is not masked; the unit changes state, which only an
    unmasked one does towards running; dnsmasq writes its lease file; clients change the ledger. *)
Inductive move : bool * host -> bool * host -> Prop :=
| m_action out a h h' r : run_action out a h = (h', r) -> r <> Stopped -> move (true, h) (true, h')
| m_crash out a h h' : run_action out a h = (h', Stopped) -> move (true, h) (false, halt h')
| m_start out observe standby h h' :
    startAddressbook sha256_hex duid_valid fingerprint out config_eqb observe standby h = (h', Done tt) -> move (false, h) (true, h')
| m_start_fails out observe standby h h' r :
    startAddressbook sha256_hex duid_valid fingerprint out config_eqb observe standby h = (h', r) -> r <> Done tt -> move (false, h) (false, halt h')
| m_kill h : move (true, h) (false, halt h)
| m_reboot up h st : (masked (dnsmasq h) = true -> st = Inactive) ->
    move (up, h) (false, halt (set_unit (mkUnit (masked (dnsmasq h)) st) h))
| m_unit up h st : (masked (dnsmasq h) = true -> running (dnsmasq h) = false -> running (mkUnit true st) = false) ->
    move (up, h) (up, set_unit (mkUnit (masked (dnsmasq h)) st) h)
| m_lease_file up h text : running (dnsmasq h) = true -> move (up, h) (up, set_file text h)
| m_traffic h l : move (true, h) (true, set_db (mkStore l (journal (db h)) (history (db h))) h).

Lemma action_safe out a h h' r : safe h -> sensible a h -> run_action out a h = (h', r) -> safe h'.
Proof.
  intros Hs Ha Hr. assert (Hout : triple (fun h => safe h /\ sensible a h) (run_action out a) (fun _ => safe) safe).
  { destruct a; (eapply t_pre; [first [apply s_Begin|apply s_Confirm|apply s_Rollback|apply s_Probe|apply s_watch|apply s_configure]|]).
    1-5: by intros h0 [? _].
    intros h0 [H1 H2]. split; [done|]. intros H. split; [by apply H2|exact (sf_bound _ H1)]. }
  specialize (Hout h (conj Hs Ha)). rewrite Hr in Hout. by destruct r.
Qed.

Lemma unit_safe h st : safe h -> (masked (dnsmasq h) = true -> running (dnsmasq h) = false -> running (mkUnit true st) = false) ->
  safe (set_unit (mkUnit (masked (dnsmasq h)) st) h).
Proof.
  intros [H1 H2 H3 H4] Hst. assert (Hq : quiet h -> quiet (set_unit (mkUnit (masked (dnsmasq h)) st) h)).
  { intros [[Hm Hr] Hb]. split; [|done]. cbn. rewrite Hm in *. split; [done|]. by apply Hst. }
  split; [intros H; by apply Hq, H1|intros H; by apply Hq, H2|intros H; by apply Hq, H3|done].
Qed.

(** A scope enabled by an ordinary configuration change while the unit is not out of service, and
    what the host is afterwards. *)
Definition enabled_beside (h : host) (y : bool * host) : Prop :=
  exists out c h' r, serving c = true /\ ~ out_of_service h /\ run_action out (AConfigure c) h = (h', r)
    /\ y = match r with Stopped => (false, halt h') | _ => (true, h') end.

Lemma action_beside out a h h' r : ~ sensible a h -> run_action out a h = (h', r) ->
  enabled_beside h (match r with Stopped => (false, halt h') | _ => (true, h') end).
Proof.
  intros Ha Hr. destruct a as [| | | | |c]; try (by destruct Ha). exists out, c, h', r. cbn [sensible] in Ha.
  destruct (serving c); [|by destruct Ha]. split_and!; try done. intros Ho. by apply Ha.
Qed.

Lemma move_safe x y : move x y -> safe (snd x) -> safe (snd y) \/ exists h, x = (true, h) /\ enabled_beside h y.
Proof.
  intros Hm Hs. pose proof steady_safe as (_ & St2 & _ & St4).
  destruct Hm as [out a h h' r Hr Hn|out a h h' Hr|out ob st h h' Hr|out ob st h h' r Hr _|h|up h st Hst|up h st Hst|up h t _|h l]; cbn [snd] in *.
  1-2: destruct (decide (sensible a h)) as [Ha|Ha]; [left|right; exists h; split; [done|]; pose proof (action_beside _ _ _ _ _ Ha Hr) as Hb; first [by destruct r|exact Hb]].
  3-9: left.
  - by eapply action_safe.
  - apply fresh_safe. by eapply action_safe.
  - pose proof (s_startAddressbook sha256_hex duid_valid fingerprint config_eqb out ob st h Hs) as H. by rewrite Hr in H.
  - apply fresh_safe. pose proof (s_startAddressbook sha256_hex duid_valid fingerprint config_eqb out ob st h Hs) as H. rewrite Hr in H. by destruct r.
  - by apply fresh_safe.
  - apply fresh_safe, unit_safe; [done|]. intros Hk _. by rewrite (Hst Hk).
  - by apply unit_safe.
  - by apply St4.
  - by apply St2.
Qed.

Lemma moves_safe x y : rtc move x y -> safe (snd x) ->
  safe (snd y) \/ exists h z, rtc move x (true, h) /\ enabled_beside h z /\ rtc move z y.
Proof.
  induction 1 as [x|x y z Hxy Hyz IH]; intros Hs; [by left|].
  destruct (move_safe x y Hxy Hs) as [Hy|(h & -> & Hb)]; [|right; by exists h, y].
  destruct (IH Hy) as [?|(h & w & H1 & H2 & H3)]; [by left|right]. exists h, w. split_and!; try done. by eapply rtc_l.
Qed.


End Moves.
