(* ===== verification/HandoverLive.v ===== *)
(** Recovery ends: on a host whose calls succeed, a takeover that has to be undone is undone, with
    dnsmasq running again on a lease file that holds the current leases. *)

From S2P Require Import Prelude Json State NetAddr Ledger LedgerInv Config KeyText ConfigInv AddrText Allocate Delegate AllocInv.
From S2P Require Import LeaseImport Report Dnsmasq LeaseText LeaseFile Manager ManagerInv Handover HandoverInv.
Local Open Scope Z_scope.

(** * Runs without errors *)

Definition later (n : nat) (h : host) : host :=
  mkHost (db h) (saved h) (file h) (dnsmasq h) (mgr h) (loaded h) n.

(** [m] returns [a] and takes the host from [h] to [h'], whenever it is run. *)
Definition yields {A} (m : act A) (h h' : host) (a : A) : Prop := forall n, exists n', m (later n h) = (later n' h', Done a).

Lemma y_ret {A} (a : A) h : yields (mret a) h h a.
Proof. intros n. by exists n. Qed.
Lemma y_bind {A B} (m : act A) (k : A -> act B) h h1 h2 a b : yields m h h1 a -> yields (k a) h1 h2 b -> yields (m ≫= k) h h2 b.
Proof.
  intros Hm Hk n. destruct (Hm n) as [n1 E1]. destruct (Hk n1) as [n2 E2]. exists n2. unfold mbind, act_bind. by rewrite E1.
Qed.
Lemma y_gets {A} (f : host -> A) h : (forall n, f (later n h) = f h) -> yields (gets f) h h (f h).
Proof. intros H n. exists n. unfold gets. by rewrite H. Qed.
Lemma y_ask {A} (f : nat -> A) a h : (forall n, f n = a) -> yields (ask f) h h a.
Proof. intros H n. exists (S n). unfold ask. by rewrite H. Qed.
Lemma y_lift {A} (r : result string A) a h : r = Ok a -> yields (lift r) h h a.
Proof. intros -> n. by exists n. Qed.
Lemma y_modify f h h' : (forall n, f (later n h) = later n h') -> yields (modify f) h h' tt.
Proof. intros H n. exists n. unfold modify. by rewrite H. Qed.
Lemma y_refuse b e h : b = false -> yields (refuse_if b e) h h tt.
Proof. intros -> n. by exists n. Qed.

Section Live.
Context (sha256_hex : string -> string) (duid_valid : string -> bool) (fingerprint : Config -> string).
Context (config_eqb : Config -> Config -> bool).

(** Every call succeeds, a started dnsmasq serves, and the clock stands at [now] meanwhile. *)
Record fine (out : outside) (now : Z) : Prop := {
  f_now n : o_now out n = now;
  f_view n : o_view out n = false;
  f_commit n : o_commit out n = CmdOk;
  f_save n : o_save out n = CmdOk;
  f_systemctl n : o_systemctl out n = CmdOk;
  f_settles n : o_settles out n = Active;
  f_owns n : o_owns_port out n = true;
  f_file n : o_file out n = CmdOk;
}.

Context (out : outside) (now : Z) (Hfine : fine out now).

Lemma y_view {A} (f : store -> A) h : yields (view out f) h h (f (db h)).
Proof.
  unfold view. eapply y_bind; [apply (y_ask _ false), Hfine|]. by apply (y_gets (fun h => f (db h))).
Qed.

Lemma y_commit {A} (f : store -> result string (store * A)) h s a : f (db h) = Ok (s, a) -> yields (commit out f) h (set_db s h) a.
Proof.
  intros E. unfold commit. eapply y_bind; [by apply (y_gets db)|]. rewrite E.
  eapply y_bind; [apply (y_ask _ CmdOk), Hfine|]. eapply y_bind; [|apply y_ret]. intros n. exists n. done.
Qed.

Definition with_book (l : ledger) (h : host) : host := set_db (mkStore l (journal (db h)) (history (db h))) h.
Definition with_journal (j : HandoverJournal) (h : host) : host := set_db (mkStore (book (db h)) j (history (db h))) h.

Lemma y_book {A} (f : ledger -> ledger * result string A) h l a : f (book (db h)) = (l, Ok a) -> yields (commit_book out f) h (with_book l h) a.
Proof. intros E. unfold commit_book. apply y_commit. by rewrite E. Qed.

Lemma y_save j h : yields (saveHandover out j) h (with_journal j h) tt.
Proof. by apply y_commit. Qed.

Lemma y_archive j h : yields (archiveHandover out j) h (set_db (mkStore (book (db h)) (journal (db h)) (history (db h) ++ [archived now j])) h) tt.
Proof. unfold archiveHandover. eapply y_bind; [apply (y_ask _ now), Hfine|]. by apply y_commit. Qed.

Lemma y_effect f h h' : (forall n, f (later n h) = later n h') -> yields (effect CmdOk f) h h' tt.
Proof. intros H n. exists n. unfold effect. cbn. by rewrite H. Qed.

Lemma y_SaveConfig c h : yields (SaveConfig out c) h (set_saved c h) tt.
Proof. unfold SaveConfig. eapply y_bind; [apply (y_ask _ CmdOk), Hfine|]. by apply y_effect. Qed.

Lemma y_rescue {A} (m : act A) handler h h' a : yields m h h' a -> yields (rescue m handler) h h' a.
Proof. intros H n. destruct (H n) as [n' E]. exists n'. unfold rescue. by rewrite E. Qed.

(** * Switching off *)

Lemma open_disabled opens c ss m o : forallb (fun s => negb (Enabled s)) ss = true -> open_scopes opens c ss m o = (m, Ok o).
Proof.
  induction ss as [|s ss IH]; [done|]. cbn [forallb open_scopes]. intros [He Hs]%andb_prop. unfold open_scope. rewrite He. by apply IH.
Qed.

Lemma disabled_scopes c : forallb (fun s => negb (Enabled s)) (Scopes (disabled c)) = true.
Proof. cbn. induction (Scopes c); [done|]. cbn. done. Qed.

Lemma check_disabled c m : Validate (disabled c) = Ok tt -> check_config (disabled c) m = Ok tt.
Proof.
  intros Hv. unfold check_config. apply seq_ok. split; [done|]. destruct (mStandby m); [|done].
  cbn [disabled Scopes]. induction (Scopes c) as [|s l IH]; [done|]. cbn [map for_each]. by rewrite IH.
Qed.

(** The snapshot taken now, and the ledgers Apply accepts a configuration over. *)
Definition no_foreign (c : Config) (l : ledger) : Prop :=
  exists snap, take_snapshot now EmptyString EmptyString 0 l = Ok snap /\ check_bindings c (sBindings snap) = Ok tt.

(** The manager once every scope of [c] is off. *)
Definition off_manager (c : Config) (m : Manager) : Manager := switch (disabled c) no_opening m.

Lemma off_empty c m : mDHCP (off_manager c m) = ∅ /\ mDNS (off_manager c m) = ∅ /\ mRA (off_manager c m) = ∅ /\ mTFTP (off_manager c m) = ∅.
Proof.
  unfold off_manager, switch, no_opening. cbn [mDHCP mDNS mRA mTFTP added addedDNS addedRA addedTFTP wanted wantDNS wantRA wantTFTP].
  split_and!; [apply set_eq; intros k; rewrite elem_of_union, elem_of_filter; set_solver ..|].
  apply map_eq. intros k. rewrite lookup_union, lookup_empty. assert (U : forall x : option string, None ∪ x = x) by (by intros []).
  rewrite U. apply eq_None_not_Some. intros [x [_ [y Hy]]%map_lookup_filter_Some]. cbn in Hy. by rewrite lookup_empty in Hy.
Qed.

Definition noted (c : Config) (l : ledger) : ledger := NoteDNSConfig now (fingerprint (disabled c)) l.

Lemma y_disable c h : Validate (disabled c) = Ok tt -> no_foreign (disabled c) (book (db h)) ->
  yields (apply fingerprint out (disabled c)) h
    (set_mgr (off_manager c (mgr h)) (set_saved (disabled c) (with_book (noted c (book (db h))) h))) tt.
Proof.
  intros Hv (snap & Es & Hb). unfold apply, Apply. eapply y_bind; [by apply (y_gets mgr)|].
  eapply y_bind; [by apply y_lift, check_disabled|].
  eapply y_bind; [apply (y_ask _ now), Hfine|]. eapply y_bind; [apply (y_view book)|].
  intros n. unfold mbind at 1, act_bind at 1, ask at 1.
  unfold prepare. rewrite Es. cbn [mbind result_bind]. rewrite Hb. rewrite open_disabled by apply disabled_scopes. cbn [fst snd].
  match goal with |- exists n', ?m _ = _ => enough (H : yields m h (set_mgr (off_manager c (mgr h)) (set_saved (disabled c) (with_book (noted c (book (db h))) h))) tt) end.
  { apply (H (S n)). }
  eapply y_bind; [by apply y_modify with (h' := h); intros; destruct h|]. eapply y_bind; [by apply y_lift|].
  eapply y_bind; [apply (y_ask _ now), Hfine|]. eapply y_bind; [by apply y_rescue, y_book|].
  eapply y_bind; [apply y_rescue, y_SaveConfig|]. by apply y_modify.
Qed.

(** * Starting dnsmasq *)

Lemma y_systemctl f h h' : (forall n, f (later n h) = later n h') -> yields (systemctl out f) h h' tt.
Proof. intros H. unfold systemctl. eapply y_bind; [apply (y_ask _ CmdOk), Hfine|]. by apply y_effect. Qed.

Definition serving_unit : legacy_unit := mkUnit false Active.

Lemma y_start h : yields (LegacyStart out) h (set_unit serving_unit h) tt.
Proof.
  unfold LegacyStart. eapply y_bind; [by apply y_systemctl with (h' := mask_unit false h)|].
  eapply y_bind; [by apply (y_gets (fun h => masked (dnsmasq h)))|]. eapply y_bind; [apply (y_ask _ Active), Hfine|].
  eapply y_bind; [by apply y_systemctl with (h' := set_unit serving_unit h)|]. eapply y_bind; [by apply y_refuse|].
  eapply y_bind; [apply (y_ask _ now), Hfine|]. change 60%nat with (S 59). cbn [await_serving].
  eapply y_bind.
  { unfold show_state. eapply y_bind; [by apply y_systemctl with (h' := set_unit serving_unit h)|]. by apply (y_gets (fun h => ustate (dnsmasq h))). }
  eapply y_bind; [by apply y_refuse|]. eapply y_bind; [by apply y_systemctl with (h' := set_unit serving_unit h)|].
  eapply y_bind; [apply (y_ask _ true), Hfine|]. apply y_ret.
Qed.

(** * The lease file *)

(** What a rollback makes of the ledger: the legacy leases it no longer covers imported again, and the
    text for dnsmasq. *)
Definition handed_back (j : HandoverJournal) (l : ledger) : result string (ledger * string) :=
  doc ← ParseDNSmasq (Target j) (jSnapshot j);
  current ← take_snapshot now EmptyString EmptyString 0 l;
  match ImportDocument sha256_hex duid_valid now (disabled (Target j))
          (mkDocument (missing_leases (sBindings current) (Leases doc)) (docDUID doc)) l with
  | (l', Ok _) =>
    current' ← take_snapshot now EmptyString EmptyString 0 l';
    text ← ExportDNSmasq sha256_hex current';
    Ok (l', text)
  | (_, Err e) => Err e
  end.

Lemma y_snapshot h snap : take_snapshot now EmptyString EmptyString 0 (book (db h)) = Ok snap -> yields (Snapshot_ out) h h snap.
Proof.
  intros E. unfold Snapshot_. eapply y_bind; [apply (y_ask _ now), Hfine|]. eapply y_bind; [apply (y_view book)|]. by apply y_lift.
Qed.

Lemma y_hand_back j h l' text : handed_back j (book (db h)) = Ok (l', text) ->
  yields (hand_back sha256_hex duid_valid out j) h (set_file text (with_book l' h)) tt.
Proof.
  unfold handed_back. intros H. next_ok H. next_ok H.
  destruct (ImportDocument _ _ _ _ _ _) as [l1 [[]|]] eqn:Ei; [|done]. next_ok H. next_ok H. injection H as <- <-.
  unfold hand_back. eapply y_bind; [by apply y_lift|]. eapply y_bind; [by apply y_snapshot|].
  eapply y_bind; [unfold ImportDocument_h; eapply y_bind; [apply (y_ask _ now), Hfine|]; by apply y_book|].
  eapply y_bind; [by apply y_snapshot|]. eapply y_bind; [by apply y_lift|].
  unfold WriteLeases. eapply y_bind; [apply (y_ask _ CmdOk), Hfine|]. by apply y_effect.
Qed.

(** The delegations a rollback ends. *)
Definition abandoned_all (target : Config) (l : ledger) : ledger * Z :=
  match pd_pools target with
  | [] => (l, 0)
  | pools => let live := List.filter (abandoned_one now pools) (values (bindings l)) in
             (abandon_all now pools l, Z.of_nat (length live))
  end.

Lemma with_book_same h : with_book (book (db h)) h = h.
Proof. by destruct h as [[] ? ? ? ? ? ?]. Qed.

Lemma y_abandon target h : yields (abandonDelegations out target) h (with_book (fst (abandoned_all target (book (db h)))) h)
  (snd (abandoned_all target (book (db h)))).
Proof.
  unfold abandonDelegations, abandoned_all. destruct (pd_pools target) as [|p ps]; [cbn [fst snd]; rewrite with_book_same; apply y_ret|].
  eapply y_bind; [apply (y_ask _ now), Hfine|]. by apply y_book.
Qed.

(** The ledger and the lease file after the activated half of a rollback. *)
Definition restored (j : HandoverJournal) (l : ledger) (old : string) : result string (ledger * string * Z) :=
  if Activated j then
    '(l1, text) ← handed_back j l;
    let '(l2, n) := abandoned_all (Target j) l1 in Ok (l2, text, n)
  else Ok (l, old, 0).

(** A takeover that can be undone: both configurations are acceptable over the ledger at the moment
    they are applied, and the leases can be written. *)
Definition undoable (j : HandoverJournal) (l : ledger) (old : string) (l' : ledger) (text : string) (n : Z) : Prop :=
  Validate (disabled (Target j)) = Ok tt /\ no_foreign (disabled (Target j)) l
  /\ restored j (noted (Target j) l) old = Ok (l', text, n)
  /\ Validate (disabled (Previous j)) = Ok tt /\ no_foreign (disabled (Previous j)) l'.

(** The host when the takeover has been undone. *)
Definition undone (j : HandoverJournal) (l' : ledger) (text : string) (n : Z) (h : host) : host :=
  let j3 := with_phase "rolled-back" 0 (with_abandoned (AbandonedDelegations j + n) (with_phase "rolling-back" (Deadline j) j)) in
  mkHost (mkStore (noted (Previous j) l') j3 (history (db h) ++ [archived now j3])) (disabled (Previous j)) text serving_unit
    (off_manager (Previous j) (off_manager (Target j) (mgr h))) (loaded h) (ticks h).

Lemma y_Rollback h l' text n : let j := journal (db h) in
  finished_phase (Phase j) = false -> Phase j <> "confirmed" -> undoable j (book (db h)) (file h) l' text n ->
  yields (Rollback sha256_hex duid_valid fingerprint out config_eqb) h (undone j l' text n h) tt.
Proof.
  intros j Hp Hconf (V1 & N1 & R & V2 & N2). unfold Rollback. eapply y_bind; [apply (y_view journal)|]. fold j. rewrite Hp.
  eapply y_bind; [by apply (y_gets mgr)|]. eapply y_bind; [apply y_refuse; by rewrite (proj2 (String.eqb_neq _ _) Hconf)|]. cbv zeta.
  eapply y_bind; [apply y_save|]. eapply y_bind; [by apply y_disable|]. set (h1 := set_mgr _ _).
  unfold restored in R. change (Activated (with_phase "rolling-back" (Deadline j) j)) with (Activated j).
  change (Target (with_phase "rolling-back" (Deadline j) j)) with (Target j).
  set (h2 := set_file text (with_book l' h1)).
  eapply y_bind with (h1 := if Activated j then set_file text (with_book (match handed_back j (noted (Target j) (book (db h))) with Ok (l1, _) => l1 | Err _ => l' end) h1) else h1).
  { destruct (Activated j); [|apply y_ret]. destruct (handed_back j (noted (Target j) (book (db h)))) as [[l1 t]|] eqn:Eh; [|done].
    cbn [mbind result_bind] in R. destruct (abandoned_all (Target j) l1) as [l2 k]. injection R as <- <- <-. by apply y_hand_back. }
  eapply y_bind with (h1 := h2) (a := n).
  { destruct (Activated j); [|injection R as <- <- <-; unfold h2; replace (set_file (file h) (with_book (noted (Target j) (book (db h))) h1)) with h1 by done; apply y_ret].
    destruct (handed_back j (noted (Target j) (book (db h)))) as [[l1 t]|] eqn:Eh; [|done].
    cbn [mbind result_bind] in R. pose proof (y_abandon (Target j) (set_file text (with_book l1 h1))) as Y.
    change (book (db (set_file text (with_book l1 h1)))) with l1 in Y. destruct (abandoned_all (Target j) l1) as [l2 k]. injection R as <- -> <-. exact Y. }
  eapply y_bind; [by apply y_disable|]. eapply y_bind; [apply y_start|]. cbv zeta. eapply y_bind; [apply y_save|].
  intros k. destruct (y_archive (with_phase "rolled-back" 0 (with_abandoned (AbandonedDelegations j + n) (with_phase "rolling-back" (Deadline j) j)))
    (with_journal (with_phase "rolled-back" 0 (with_abandoned (AbandonedDelegations j + n) (with_phase "rolling-back" (Deadline j) j)))
      (set_unit serving_unit (set_mgr (off_manager (Previous j) (mgr h2)) (set_saved (disabled (Previous j)) (with_book (noted (Previous j) (book (db h2))) h2))))) k) as [k' E].
  exists k'. exact E.
Qed.

Lemma recovering j : needs_recovery now j = true -> finished_phase (Phase j) = false /\ Phase j <> "confirmed".
Proof.
  unfold needs_recovery, finished_phase. intros H. destruct (_ || _ || _) eqn:E.
  - apply orb_true_iff in E as [[E|E]%orb_true_iff|E]; apply String.eqb_eq in E; by rewrite E.
  - destruct (String.eqb_spec (Phase j) "pending") as [->|]; [|done]. done.
Qed.

End Live.
