(* ===== verification/HandoverExample.v ===== *)
(** A dnsmasq replaced by ghostd on the small network of BookExample: a lease file that round-trips, a
    takeover, its rollback, and the situations in which the code strands a host. *)

From S2P Require Import Prelude Json State NetAddr Ledger LedgerInv Config KeyText ConfigInv AddrText Allocate AllocInv.
From S2P Require Import LeaseImport Delegate Report BookExample Dnsmasq LeaseText LeaseFile Manager ManagerInv Handover HandoverInv HandoverLive.
Local Open Scope Z_scope.

Module HandoverExample.
Import BookExample.

(** A stand-in for SHA-256 that prints 64 digits. *)
Definition digest64 (x : string) : string :=
  if (String.length x <? 16)%nat then "00112233445566778899aabbccddeeff00112233445566778899aabbccddeeff"
  else "ffeeddccbbaa99887766554433221100ffeeddccbbaa99887766554433221100".

Lemma digest64_digits x : str_forallb hex_lower_char (digest64 x) = true.
Proof. unfold digest64. by destruct (_ <? _)%nat. Qed.
Lemma digest64_length x : String.length (digest64 x) = 64%nat.
Proof. unfold digest64. by destruct (_ <? _)%nat. Qed.

Definition accept_duid (x : string) : bool := negb (is_empty x).

(** A lease, a quarantined address, an IPv6 lease and the server's own DUID. *)
Definition grant (scope client mac ip : string) (l : ledger) : ledger :=
  fst (Allocate digest64 1000 BookExample.book scope client mac "host" ip true l).
Definition carol : string := "duid:00030001020000000001/iaid:0000002a".
Definition mixed : ledger :=
  grant "lan6" carol EmptyString "2001:db8:1::100"
    (fst (Release 1100 "lan" bob "10.0.0.11" true
      (grant "lan" bob "02:00:00:00:00:0b" "10.0.0.11"
        (grant "lan" anna "02:00:00:00:00:0a" "10.0.0.10" (set_meta "duid" "ghost" empty_ledger))))).

Lemma grant_ok scope client mac ip l : plain ip -> ledger_ok l -> ledger_ok (grant scope client mac ip l).
Proof.
  intros Hp Hl. unfold grant. destruct (Allocate _ _ _ _ _ _ _ _ _ l) as [l' r] eqn:E.
  assert (Hu : unix 1000) by (unfold unix; lia).
  by apply (Allocate_keeps digest64 digest64_digits _ _ _ _ _ _ _ _ _ _ _ book_valid Hu Hp Hl E).
Qed.

Lemma mixed_wf : wf mixed.
Proof.
  apply ok_wf, grant_ok; [apply plain_check; vm_compute; reflexivity|].
  match goal with |- ledger_ok (fst ?r) => destruct r as [l' r'] eqn:E end.
  apply Release_keeps in E; [exact E|unfold unix; lia|].
  apply grant_ok; [apply plain_check; vm_compute; reflexivity|]. apply grant_ok; [apply plain_check; vm_compute; reflexivity|].
  apply BookInv.ok_meta, ok_empty.
Qed.

(** A property of every stored binding, checked one by one. *)
Lemma all_stored l (P : Binding -> bool) : forallb P (values (bindings l)) = true -> forall b, stored l b -> P b = true.
Proof.
  rewrite forallb_forall. intros H b Hb. apply H, list_elem_of_In, elem_of_values. by eexists.
Qed.

Lemma lease_file_roundtrip_witness :
  exists snap text doc l',
    take_snapshot 1200 EmptyString EmptyString 0 mixed = Ok snap /\ ExportDNSmasq digest64 snap = Ok text
    /\ ParseDNSmasq BookExample.book text = Ok doc
    /\ ImportDocument digest64 accept_duid 1200 (disabled BookExample.book) doc empty_ledger = (l', Ok tt)
    /\ lookup_default (meta l') "duid" EmptyString = "ghost".
Proof.
  destruct (lease_file_roundtrip digest64 digest64_digits digest64_length BookExample.book book_valid accept_duid 1200 mixed)
    as (snap & text & doc & l' & E1 & E2 & E3 & E4 & E5 & _).
  - lia.
  - exact mixed_wf.
  - vm_compute. congruence.
  - intros b Hb _. apply carriedb_sound. revert b Hb. apply all_stored. vm_compute. reflexivity.
  - intros _. vm_compute. reflexivity.
  - intros _ _ _ _. vm_compute. congruence.
  - exists snap, text, doc, l'. split_and!; assumption.
Defined.

(** * A takeover *)

Definition zero_print (c : Config) : string := "print".
Definition never_equal (a b : Config) : bool := false.

(** A world in which every call succeeds; a stop or start leaves the unit in [to]. *)
Definition calls (now : Z) (to : unit_state) : outside :=
  mkOutside (fun _ => now) (fun _ => false) (fun _ => CmdOk) (fun _ => CmdOk) (fun _ => false) (fun _ => false) (fun _ => CmdOk)
    (fun _ => to) (fun _ => true) (fun _ => CmdOk) (fun _ => None) (fun _ _ => true) (fun _ => true)
    (fun _ p _ => mkProbeResult p true EmptyString now).

Lemma calls_fine now : fine (calls now Active) now.
Proof. by split. Qed.

Definition lan_only : Config := mkConfig [lan] [printer] None.
Definition legacy_text : string := "5000 02:00:00:00:00:0c 10.0.0.12 laptop *".
(** dnsmasq serves, ghostd has nothing configured. *)
Definition host0 : host :=
  mkHost (mkStore empty_ledger no_journal []) no_config legacy_text (mkUnit false Active) NewManager no_config 0.
Definition spec : LegacySpec := mkSpec "dnsmasq.service" "/etc/dnsmasq.conf" "/var/lib/misc/dnsmasq.leases".

Definition started (out : outside) (observe standby : bool) (h : host) : host * outcome string unit :=
  startAddressbook digest64 accept_duid zero_print out never_equal observe standby h.
Definition acted (out : outside) (a : action) (h : host) : host * outcome string unit :=
  run_action digest64 accept_duid zero_print never_equal out a h.

Definition host1 : host := fst (started (calls 1000 Inactive) false false host0).
Definition take_over : action := ABegin lan_only spec 600 false [] false.
Definition host2 : host := fst (acted (calls 1000 Inactive) take_over host1).

Lemma pair_fst {A B} (p : A * B) (b : B) : snd p = b -> p = (fst p, b).
Proof. by intros <-; destruct p. Qed.

Lemma moved : rtc (move digest64 accept_duid zero_print never_equal) (false, host0) (true, host2).
Proof.
  eapply rtc_l; [apply (m_start _ _ _ _ (calls 1000 Inactive) false false host0 host1)|].
  - apply (pair_fst (started (calls 1000 Inactive) false false host0)). vm_compute. reflexivity.
  - apply rtc_once. apply (m_action _ _ _ _ (calls 1000 Inactive) take_over host1 host2 (Done tt)); [|discriminate].
    apply (pair_fst (acted (calls 1000 Inactive) take_over host1)). vm_compute. reflexivity.
Qed.


Definition no_save : act unit := mret tt.

(** The same host, where the address of the DNS server can be bound for UDP and not for TCP. *)
Definition half_bound : outside :=
  let o := calls 1000 Inactive in
  mkOutside (o_now o) (o_view o) (o_commit o) (o_save o) (o_load o) (o_lock o) (o_systemctl o) (o_settles o) (o_owns_port o) (o_file o)
    (o_validate o) (fun _ call => if call is ListenTCP _ then false else true) (o_answers o) (o_probe o).
Definition applied (out : outside) : host * outcome string unit := Apply zero_print out lan_only no_save host1.

Lemma apply_all_or_nothing_witness :
  (snd (applied (calls 1000 Inactive)) = Done tt /\ in_step (mgr (fst (applied (calls 1000 Inactive)))))
  /\ snd (applied half_bound) = Failed "listen tcp" /\ mOpen (mgr (fst (applied half_bound))) = listening (mgr (fst (applied half_bound))).
Proof.
  assert (E1 : snd (applied (calls 1000 Inactive)) = Done tt) by (vm_compute; reflexivity).
  assert (E2 : snd (applied half_bound) = Failed "listen tcp") by (vm_compute; reflexivity).
  assert (Ht : tidy (mgr host1)) by (vm_compute; reflexivity).
  pose proof (apply_all_or_nothing zero_print (calls 1000 Inactive) lan_only no_save host1 _ _ (fun h => eq_refl) Ht (surjective_pairing _)) as H1.
  pose proof (apply_all_or_nothing zero_print half_bound lan_only no_save host1 _ _ (fun h => eq_refl) Ht (surjective_pairing _)) as H2.
  fold (applied (calls 1000 Inactive)) in H1. fold (applied half_bound) in H2. rewrite E1 in H1. rewrite E2 in H2.
  split; [split; [exact E1|exact (proj1 (proj2 H1))]|]. split; [exact E2|exact (proj2 H2)].
Defined.

(** * Its rollback *)

(** The takeover's deadline passes: recovery at 2000. *)
Definition result_of (h : host) : ledger * string * Z :=
  match restored digest64 accept_duid 2000 (journal (db h)) (noted zero_print 2000 (Target (journal (db h))) (Handover.book (db h))) (file h) with
  | Ok r => r | Err _ => (empty_ledger, EmptyString, 0)
  end.

Lemma no_foreign_check now c l :
  match take_snapshot now EmptyString EmptyString 0 l with Ok snap => check_bindings c (sBindings snap) | Err e => Err e end = Ok tt ->
  no_foreign now c l.
Proof. destruct (take_snapshot now EmptyString EmptyString 0 l) as [snap|] eqn:E; [|done]. intros H. by exists snap. Qed.


(** * Where the code strands a host *)

(** A rollback that cannot end.  ghostd's own configuration, all scopes off, calls the network by another
    name than the takeover's target.  The takeover goes through; its rollback hands the leases back and
    then fails to restore the previous configuration, because the live leases belong to the target's
    scope.  dnsmasq stays masked and ghostd serves nothing. *)
Definition office : Config := mkConfig [with_enabled false (mkScope "office" "eth0" "10.0.0.0/24" "10.0.0.1" "10.0.0.10" "10.0.0.12" "10.0.0.1"
  "lan.example" 3600 false [] 0 None None None [] [] None)] [] None.
Definition office_host : host :=
  fst (started (calls 1000 Inactive) false false
    (mkHost (mkStore empty_ledger no_journal []) office legacy_text (mkUnit false Active) NewManager no_config 0)).
Definition office_taken : host * outcome string unit := acted (calls 1000 Inactive) take_over office_host.

Lemma rollback_stranded :
  let r := Recover digest64 accept_duid zero_print (calls 2000 Active) never_equal (fst office_taken) in
  snd office_taken = Done tt
  /\ snd r = Failed "scope office overlaps outstanding binding in lan; retain original scope ID"
  /\ phase (fst r) = "rolling-back" /\ serving (mConfig (mgr (fst r))) = false
  /\ dnsmasq (fst r) = mkUnit true Inactive.
Proof. vm_compute. split_and!; reflexivity. Qed.

(** A warm standby whose own configuration has an enabled scope does not start. *)
Lemma standby_cannot_start :
  snd (started (calls 1000 Inactive) false true
    (mkHost (mkStore empty_ledger no_journal []) lan_only EmptyString (mkUnit true Inactive) NewManager no_config 0))
  = Failed "this authority is a warm standby; promote it before enabling scope lan".
Proof. vm_compute. reflexivity. Qed.

(** A change of the TFTP root that fails later stops the running TFTP server. *)
Definition boot_config (root : string) : Config := mkConfig [lan] [printer] (Some (mkTFTP root [])).
Definition boot_host : host := fst (Apply zero_print (calls 1000 Inactive) (boot_config "/srv/tftp") no_save host1).

Lemma failed_apply_stops_tftp :
  let r := Apply zero_print (calls 1000 Inactive) (boot_config "/srv/boot") (raise "disk full") boot_host in
  mTFTP (mgr boot_host) !! "10.0.0.1" = Some "/srv/tftp" /\ snd r = Failed "disk full"
  /\ mConfig (mgr (fst r)) = boot_config "/srv/tftp" /\ mTFTP (mgr (fst r)) !! "10.0.0.1" = None.
Proof. vm_compute. split_and!; reflexivity. Qed.

(** A rollback that crashed after it had started dnsmasq is retried: the lease file of the running dnsmasq
    is overwritten, and a lease it has granted since is gone from it. *)
Definition retried : host :=
  let j := journal (db host2) in
  mkHost (mkStore (Handover.book (db host2)) (with_phase "rolling-back" (Deadline j) j) []) (disabled no_config)
    (legacy_text +++ newline +++ "5600 02:00:00:00:00:0d 10.0.0.11 phone *" +++ newline) (mkUnit false Active)
    (off_manager lan_only (mgr host2)) no_config 0.

Lemma retry_overwrites_leases :
  let r := Recover digest64 accept_duid zero_print (calls 2000 Active) never_equal retried in
  running (dnsmasq retried) = true /\ snd r = Done tt /\ file (fst r) = "5000 02:00:00:00:00:0c 10.0.0.12 device-ffeeddccbbaa9988 *
".
Proof. vm_compute. split_and!; reflexivity. Qed.

(** * A pool that moves to another scope *)

(** The pool of one IPv6 scope is given to another one.  The change is accepted over the delegation
    carol has, which is not an address of a subnet, and the next client of the new scope is
    delegated the same prefix while carol's lasts. *)
Definition lan7 : Scope :=
  mkScope "lan7" "eth1" "2001:db8:2::/64" "2001:db8:2::1" "2001:db8:2::100" "2001:db8:2::1ff" EmptyString "lan.example" 3600
    true [] 1800 None None None [] [] (Some pd6).
Definition without_pool : Scope :=
  mkScope "lan6" "eth0" "2001:db8:1::/64" "2001:db8:1::1" "2001:db8:1::100" "2001:db8:1::1ff" EmptyString "lan.example" 3600
    true [] 1800 None None None [] [] None.
Definition moved_pool : Config := mkConfig [lan; without_pool; lan7] [printer] None.
Definition dave_prefix : ledger * result alloc_error Binding :=
  AllocatePrefix digest 1100 lan7 pd6 dave "00010001bb" EmptyString "fe80::2" true (fst carol_prefix).

Lemma moved_pool_overlaps :
  Validate book = Ok tt /\ Validate moved_pool = Ok tt
  /\ match take_snapshot 1100 EmptyString EmptyString 0 (fst carol_prefix) with
     | Ok snap => check_bindings moved_pool (sBindings snap) = Ok tt
     | Err _ => False
     end
  /\ delegated 1100 (readBinding (fst dave_prefix) "lan6" "2001:db8:f000::/56") = true
  /\ Client (readBinding (fst dave_prefix) "lan6" "2001:db8:f000::/56") = BookExample.carol
  /\ Client (grant_of dave_prefix) = dave /\ Address (grant_of dave_prefix) = "2001:db8:f000::/56".
Proof. split_and!; vm_compute; reflexivity. Qed.

End HandoverExample.
