(* ===== verification/Suggest.v ===== *)
(** internal/addressbook/suggest.go with what feeds it: the peers of the overlay
    (internal/overlay/localapi, Peers), their reading as an inventory (cmd/ghostd/dhcp_feature.go,
    overlayPeers) and its refresh (server.go, CollectPeers).

    The peer bucket of the ledger's file is a map of its own beside the ledger of Ledger.v; SHA-256 is
    a parameter, as in Allocate.v.  Names are ASCII. *)

From S2P Require Import Prelude NetAddr Ledger LedgerInv Config KeyText Allocate AllocInv Sightings BookExample HandoverExample.
From Stdlib Require Import Ascii.
Local Open Scope Z_scope.

(** * Peers *)

(** overlay.Peer and addressbook.Peer *)
Record OverlayPeer := mkOverlayPeer { opID : string; opDNSName : string; opHostName : string; opAddresses : list string; Endpoints : list string; opOnline : bool }.
Record Peer := mkPeer { pID : string; pDNSName : string; HostName : string; pAddresses : list string; LANAddrs : list string; Online : bool; pSeen : Z }.

(** ipnstate.PeerStatus, of which the client reports a map. *)
Record PeerStatus := mkPeerStatus { psID : string; psDNSName : string; psHostName : string; psOnline : bool; CurAddr : string; Addrs : list string; TailscaleIPs : list Addr }.

Definition overlay_peer (p : PeerStatus) : OverlayPeer :=
  mkOverlayPeer (psID p) (psDNSName p) (psHostName p) (map AddrString (TailscaleIPs p)) (CurAddr p :: Addrs p) (psOnline p).

(** localapi.Peers; [status]: the values of the map, in the order Go visits them. *)
Definition Peers (status : result string (list PeerStatus)) : result string (list OverlayPeer) := ps ← status; Ok (map overlay_peer ps).

(** The address of an "ip:port" text: netip.ParseAddrPort. *)
Definition bracketed (ip : string) : option (string * bool) :=
  match ip with
  | String c r => if Ascii.eqb c "[" then (if has_suffix r "]" then Some (trim_suffix r "]", true) else None) else Some (ip, false)
  | EmptyString => None
  end.

Definition ParseAddrPort (s : string) : option Addr :=
  '(ip, port) ← last_colon s;
  if is_empty port then None else
  '(ip', v6) ← bracketed ip;
  _ ← ParseUint port 16;
  a ← ParseAddr ip';
  if Bool.eqb v6 (Is6 a) then Some a else None.

Definition IsPrivate (a : Addr) : bool :=
  let v4 n := (Z.shiftr n 24 =? 10) || (Z.shiftr n 20 =? 2753) || (Z.shiftr n 16 =? 49320) in
  match a with
  | Addr4 n => v4 n
  | Addr6 n _ => if Z.shiftr n 32 =? 65535 then v4 (n mod 2^32) else Z.shiftr n 121 =? 126
  end.

(** The host of an endpoint, if it is on a private or link-local network. *)
Definition private_host (e : string) : option string :=
  a ← ParseAddr (match ParseAddrPort e with Some a => AddrString a | None => e end);
  if IsPrivate a || IsLinkLocalUnicast a then Some (AddrString a) else None.

Definition PrivateEndpoints (endpoints : list string) : list string := sort_strings (remove_dups (omap private_host endpoints)).

Definition inventory_peer (q : OverlayPeer) : Peer :=
  mkPeer (opID q) (opDNSName q) (opHostName q) (opAddresses q) (PrivateEndpoints (Endpoints q)) (opOnline q) 0.
Definition overlayPeers (list_ : result string (list OverlayPeer)) : result string (list Peer) := qs ← list_; Ok (map inventory_peer qs).

(** * SightPeers *)

Definition seen_at (now : Z) (p : Peer) : Peer := mkPeer (pID p) (pDNSName p) (HostName p) (pAddresses p) (LANAddrs p) (Online p) now.

Definition SightPeers (now : Z) (peers : list Peer) (bucket : gmap string Peer) : gmap string Peer * result string unit :=
  if 10000 <? Z.of_nat (length peers) then (bucket, Err "too many peers")
  else (fold_left (fun m p => if is_empty (pID p) then m else <[pID p := seen_at now p]> m) peers ∅, Ok tt).

Definition CollectPeers (now : Z) (source : option (result string (list Peer))) (bucket : gmap string Peer) : gmap string Peer * result string unit :=
  match source with
  | None => (bucket, Ok tt)
  | Some (Err e) => (bucket, Err e)
  | Some (Ok peers) => SightPeers now peers bucket
  end.

(** * Suggest *)

Record Suggestion := mkSuggestion {
  gScope : string; gAddress : string; gDevice : string; PeerID : string; PeerName : string;
  Strength : string; gEvidence : string; Ambiguous : bool; Conflict : string; gRepair : IdentityRepair;
}.

Definition firstLabel (dnsName : string) : string := to_lower (hd EmptyString (split_char "." (trim_suffix dnsName "."))).

(** The bindings of the expiry index, in its order. *)
Definition expiry_le (a b : Z * string) : Prop := fst a < fst b \/ (fst a = fst b /\ String.le (snd a) (snd b)).
#[global] Instance expiry_le_dec : RelDecision expiry_le.
Proof. intros a b. unfold expiry_le. apply _. Defined.
Definition forEachLive (l : ledger) : list Binding :=
  List.filter (fun b => liveState (bState b)) (omap (fun e => bindings l !! snd e) (merge_sort expiry_le (elements (expiry l)))).

Definition live_now (now : Z) (l : ledger) : list Binding := List.filter (fun b => (bState b =?s "active") && (now <? End_ b)) (forEachLive l).

(** The device that already carries a peer. *)
Definition linked (bs : list Binding) : gmap string string :=
  fold_left (fun m b => if is_empty (NodeID b) then m else <[NodeID b := Device b]> m) bs ∅.

Definition place_le (a b : Binding) : Prop := String.le (bScope a +++ Address a) (bScope b +++ Address b).
#[global] Instance place_le_dec : RelDecision place_le.
Proof. intros a b. unfold place_le. apply _. Defined.

(** Why a peer might be behind a binding. *)
Definition match_peer (b : Binding) (p : Peer) : option (string * string) :=
  if mem_str (Address b) (LANAddrs p) then Some ("endpoint", "tailscaled reaches this peer directly at the leased LAN address")
  else
    let name := firstLabel (pDNSName p) in
    if negb (is_empty name) && ((name =?s to_lower (ClaimedName b)) || (negb (Name b =?s Device b) && (name =?s Name b)))
    then Some ("hostname", "only the host name matches; weak, confirm out of band before applying")
    else None.

Definition settled (c : Config) (b : Binding) : bool :=
  negb (is_empty (NodeID b)) || has_prefix (Evidence b) "operator repair:"
  || match find_device c (Device b) with Some d => DeclaresNodes d | None => false end.

Section Suggest.
Context (sha256_hex : string -> string).

Definition peer_device (p : Peer) : string := deviceID sha256_hex "tailnet" (pID p).
Definition peer_label (p : Peer) : string :=
  let name := firstLabel (pDNSName p) in
  if negb (labelPattern name) || (name =?s "ns") then peer_device p else name.

Definition suggestion (carried : gmap string string) (b : Binding) (p : Peer) (strength evidence : string) : Suggestion :=
  mkSuggestion (bScope b) (Address b) (Device b) (pID p) (pDNSName p) strength evidence false
    (match carried !! pID p with
     | Some dev => if dev =?s Device b then EmptyString else "peer is already linked to device " +++ dev
     | None => EmptyString
     end)
    (mkRepair (bScope b) (Address b) (Client b) (Device b) (peer_device p) (peer_label p) (pID p)
       ("suggested from peer inventory (" +++ strength +++ ")") true false).

Definition with_ambiguous (a : bool) (g : Suggestion) : Suggestion :=
  mkSuggestion (gScope g) (gAddress g) (gDevice g) (PeerID g) (PeerName g) (Strength g) (gEvidence g) a (Conflict g) (gRepair g).

Definition suggest_for (carried : gmap string string) (peers : list Peer) (b : Binding) : list Suggestion :=
  let mine := omap (fun p => '(s, e) ← match_peer b p; Some (suggestion carried b p s e)) peers in
  map (with_ambiguous (1 <? length mine)%nat) mine.

Definition Suggest (now : Z) (c : Config) (bucket : gmap string Peer) (l : ledger) : list Suggestion :=
  let bs := live_now now l in
  flat_map (suggest_for (linked bs) (values bucket)) (List.filter (fun b => negb (settled c b)) (merge_sort place_le bs)).

End Suggest.

(** * What the inventory holds *)

(** Every peer of the bucket is kept under its own, non-empty identifier. *)
Definition inventory_ok (m : gmap string Peer) : Prop := forall k p, m !! k = Some p -> k = pID p /\ is_empty (pID p) = false.

(** The peers that were reported, each under its identifier, and nobody else. *)
Lemma sighted now peers m m' : SightPeers now peers m = (m', Ok tt) ->
  inventory_ok m' /\ (forall k p, m' !! k = Some p -> exists q, q ∈ peers /\ p = seen_at now q)
  /\ (forall q, q ∈ peers -> is_empty (pID q) = false -> is_Some (m' !! pID q)).
Proof.
  unfold SightPeers. destruct (_ <? _); [done|]. intros [= <-].
  set (f := fun m p => if is_empty (pID p) then m else <[pID p := seen_at now p]> m).
  enough (H : forall m0, inventory_ok m0 -> (forall k p, m0 !! k = Some p -> exists q, q ∈ peers /\ p = seen_at now q) ->
    forall qs, (forall q, q ∈ qs -> q ∈ peers) -> let m' := fold_left f qs m0 in
    inventory_ok m' /\ (forall k p, m' !! k = Some p -> exists q, q ∈ peers /\ p = seen_at now q)
    /\ (forall k, is_Some (m0 !! k) -> is_Some (m' !! k)) /\ (forall q, q ∈ qs -> is_empty (pID q) = false -> is_Some (m' !! pID q))).
  { destruct (H ∅) with (qs := peers) as (H1 & H2 & _ & H3); try done. }
  intros m0 Hm0 Hq0 qs. revert m0 Hm0 Hq0. induction qs as [|q qs IH]; intros m0 Hm0 Hq0 Hqs; cbn [fold_left].
  { split_and!; try done. by intros q ?%elem_of_nil. }
  destruct (IH (f m0 q)) as (H1 & H2 & H3 & H4).
  - unfold f. destruct (is_empty (pID q)) eqn:E; [done|]. intros k p [[<- <-]|[_ Hk]]%lookup_insert_Some; [by cbn|by apply Hm0].
  - unfold f. destruct (is_empty (pID q)) eqn:E; [done|]. intros k p [[<- <-]|[_ Hk]]%lookup_insert_Some; [exists q; split; [apply Hqs; left|done]|by eapply Hq0].
  - intros q' Hq'. apply Hqs. by right.
  - assert (Hf : forall k, is_Some (m0 !! k) -> is_Some (f m0 q !! k)).
    { intros k Hk. unfold f. destruct (is_empty (pID q)); [done|]. destruct (decide (k = pID q)) as [-> |]; [by rewrite lookup_insert_eq|by rewrite lookup_insert_ne]. }
    split_and!; try done; [by auto|]. intros q' [-> |Hq']%elem_of_cons E; [|by apply H4]. apply H3. unfold f. rewrite E. by rewrite lookup_insert_eq.
Qed.

(** Exactly the private hosts among the endpoints, each once, in order. *)
Lemma private_endpoints es : NoDup (PrivateEndpoints es) /\ Sorted String.le (PrivateEndpoints es)
  /\ forall h, h ∈ PrivateEndpoints es <-> exists e, e ∈ es /\ private_host e = Some h.
Proof.
  unfold PrivateEndpoints. split_and!.
  - rewrite sort_strings_permutation. apply NoDup_remove_dups.
  - apply Sorted_merge_sort. apply _.
  - intros h. by rewrite elem_of_sort_strings, elem_of_remove_dups, list_elem_of_omap.
Qed.

(** * What is suggested *)

Section Sound.
Context (sha256_hex : string -> string).
Context (sha_digits : forall x, str_forallb hex_lower_char (sha256_hex x) = true) (sha_length : forall x, String.length (sha256_hex x) = 64%nat).

Lemma substring_take n : forall x, string_chars (String.substring 0 n x) = take n (string_chars x).
Proof. induction n as [|n IH]; intros [|c x]; cbn; try done. by rewrite IH. Qed.

Lemma label_end_hex c : hex_lower_char c = true -> label_end c = true.
Proof.
  unfold label_end, hex_lower_char, is_lower, in_range. intros [-> |H]%orb_true_iff; [by rewrite orb_true_r|]. bool_hyps.
  rewrite (proj2 (Z.leb_le _ _)), (proj2 (Z.leb_le _ _)) by lia. done.
Qed.

Lemma deviceID_label scope client : labelPattern (deviceID sha256_hex scope client) = true.
Proof.
  unfold deviceID. set (x := scope +++ "/" +++ client). unfold labelPattern. rewrite substring_take. cbn [string_chars String.append take].
  pose proof (sha_digits x) as Hd. pose proof (sha_length x) as Hl. rewrite <-chars_length in Hl. unfold str_forallb in Hd.
  set (cs := take 16 (string_chars (sha256_hex x))). assert (Hc : length cs = 16%nat) by (unfold cs; rewrite length_take; lia).
  assert (Hf : Forall (fun c => label_end c = true) cs).
  { apply Forall_take, Forall_forall. intros c Hin. apply label_end_hex. rewrite forallb_forall in Hd. by apply Hd, list_elem_of_In. }
  clearbody cs. do 16 (destruct cs as [|? cs]; [done|]; apply Forall_cons in Hf as [? Hf]). destruct cs; [|done].
  cbn [List.last forallb length]. unfold label_char. repeat match goal with H : label_end ?c = true |- _ => rewrite !H; clear H end. reflexivity.
Qed.

Lemma peer_label_ok p : labelPattern (peer_label sha256_hex p) = true /\ (peer_label sha256_hex p =?s "ns") = false.
Proof.
  unfold peer_label. destruct (negb _ || _) eqn:E; [|by apply orb_false_iff in E as [?%negb_false_iff ?]].
  split; [apply deviceID_label|]. apply String.eqb_neq. intros H. apply (f_equal String.length) in H. unfold peer_device, deviceID in H.
  by destruct (sha256_hex _) as [|? [|? ?]]; cbn in H.
Qed.

(** A repair that is refused: the inventory, a live holder of the name, or a reservation speaks against it. *)
Definition disputed (now : Z) (c : Config) (l : ledger) (r : IdentityRepair) (b : Binding) : Prop :=
  existsb (inventory_conflict r) (Devices c) = true
  \/ (exists b', b' ∈ activeByName l (irName r) /\ name_taken now r b' = true)
  \/ (exists s res, find_scope c (bScope b) = Some s /\ reservation s (Client b) (MAC b) = Some res /\ rDevice res <> irDevice r).

(** A live binding nobody has settled, and a peer with a reason to be behind it. *)
Record supported (now : Z) (c : Config) (m : gmap string Peer) (l : ledger) (g : Suggestion) (b : Binding) (p : Peer) : Prop := {
  su_binding : stored l b /\ bState b = "active" /\ now < End_ b;
  su_open : NodeID b = EmptyString /\ has_prefix (Evidence b) "operator repair:" = false
            /\ forall d, find_device c (Device b) = Some d -> DeclaresNodes d = false;
  su_peer : m !! pID p = Some p;
  su_place : gScope g = bScope b /\ gAddress g = Address b /\ gDevice g = Device b /\ PeerID g = pID p /\ PeerName g = pDNSName p;
  su_reason : match_peer b p = Some (Strength g, gEvidence g);
  su_repair : gRepair g = mkRepair (bScope b) (Address b) (Client b) (Device b) (peer_device sha256_hex p) (peer_label sha256_hex p) (pID p)
                ("suggested from peer inventory (" +++ Strength g +++ ")") true false;
}.

Lemma elem_of_forEachLive l b : wf l -> b ∈ forEachLive l <-> stored l b /\ liveState (bState b) = true.
Proof.
  intros Hwf. unfold forEachLive. rewrite elem_of_kept, list_elem_of_omap. split.
  - intros [([e k] & _ & Hk) Hl]. cbn in Hk. destruct (wf_keys _ Hwf _ _ Hk) as [-> _]. by split.
  - intros [Hs Hl]. split; [|done]. exists (expiryKey b). split; [|done]. rewrite merge_sort_Permutation, elem_of_elements. apply (wf_expiry _ Hwf). by exists b.
Qed.

Lemma elem_of_suggest now c m l g : g ∈ Suggest sha256_hex now c m l <->
  exists b, b ∈ live_now now l /\ settled c b = false /\ g ∈ suggest_for sha256_hex (linked (live_now now l)) (values m) b.
Proof.
  unfold Suggest. rewrite elem_of_flat_map. split.
  - intros (b & Hb & Hg). rewrite elem_of_kept, merge_sort_Permutation in Hb. destruct Hb as [Hb ?%negb_true_iff]. by exists b.
  - intros (b & Hb & Hs & Hg). exists b. split; [|done]. rewrite elem_of_kept, merge_sort_Permutation. by rewrite Hs.
Qed.

Lemma suggested now c m l g : wf l -> inventory_ok m -> g ∈ Suggest sha256_hex now c m l -> exists b p, supported now c m l g b p.
Proof.
  intros Hwf Hm (b & Hb & Hs & Hg)%elem_of_suggest.
  unfold live_now in Hb. rewrite elem_of_kept, elem_of_forEachLive in Hb by done. destruct Hb as [[Hst _] Ha]. bool_hyps.
  unfold settled in Hs. apply orb_false_iff in Hs as [Hs Hd]. apply orb_false_iff in Hs as [Hn He].
  unfold suggest_for in Hg. apply list_elem_of_In, in_map_iff in Hg as (g0 & <- & Hg). apply list_elem_of_In, list_elem_of_omap in Hg as (p & Hp & Hg).
  destruct (match_peer b p) as [[st ev]|] eqn:Em; [|done]. cbn in Hg. injection Hg as <-. exists b, p.
  apply elem_of_values in Hp as (k & Hk). destruct (Hm _ _ Hk) as [-> _].
  split; cbn; try done; [split_and!; [by destruct (NodeID b)|done|]|..]. intros d E. by rewrite E in Hd.
Qed.

Lemma repair_checks now c m l g b p : supported now c m l g b p ->
  (exists e, repair_one now c l (gRepair g) = Err e) /\ disputed now c l (gRepair g) b
  \/ repair_one now c l (gRepair g) = Ok (putAssociation now (gRepair g)
       (save now (with_identity (peer_device sha256_hex p) (peer_label sha256_hex p) (pID p) ("operator repair: " +++ irReason (gRepair g)) b) "identity-repair" l)).
Proof.
  intros [(Hst & Hact & Hend) _ _ _ Hr Hrep]. unfold repair_one, disputed. destruct (peer_label_ok p) as [Hl Hns].
  assert (Hreason : is_empty (trim_space (irReason (gRepair g))) = false /\ (512 <? String.length (irReason (gRepair g)))%nat = false).
  { rewrite Hrep. cbn [irReason]. unfold match_peer in Hr. case_match; [|cbv zeta in Hr; case_match; [|done]]; injection Hr as Hr _; rewrite <-Hr; vm_compute; by split. }
  destruct Hreason as [-> ->]. assert (irDevice (gRepair g) = peer_device sha256_hex p /\ irName (gRepair g) = peer_label sha256_hex p) as [-> ->] by by rewrite Hrep.
  assert (Hdev : labelPattern (peer_device sha256_hex p) = true) by apply deviceID_label. rewrite Hl, Hns, Hdev. cbn [negb orb fail_if mbind result_bind].
  destruct (existsb (inventory_conflict (gRepair g)) (Devices c)) eqn:E1; [left; split; [by eexists|by left]|]. cbn [fail_if mbind result_bind].
  destruct (existsb (name_taken now (gRepair g)) _) eqn:E2.
  { left. split; [by eexists|]. right. left. apply existsb_exists in E2 as (b' & Hb' & Ht). exists b'. by rewrite list_elem_of_In. }
  cbn [fail_if mbind result_bind].
  assert (readBinding l (irScope (gRepair g)) (irAddress (gRepair g)) = b) as ->.
  { rewrite Hrep. cbn [irScope irAddress]. unfold readBinding. change (bindingKey (bScope b) (Address b)) with (key_of b). by rewrite Hst. }
  assert (Client b = irClient (gRepair g) /\ Device b = ExpectedDevice (gRepair g) /\ irNodeID (gRepair g) = pID p) as (<- & <- & ->) by by rewrite Hrep.
  rewrite !String.eqb_refl, Hact. cbn [negb orb String.eqb Ascii.eqb]. rewrite (proj2 (Z.leb_gt _ _) Hend). cbn [fail_if mbind result_bind].
  destruct (find_scope c (bScope b)) as [s|] eqn:Es; [|right; done]. destruct (reservation s (Client b) (MAC b)) as [res|] eqn:Er; [|right; done].
  destruct (String.eqb_spec (rDevice res) (peer_device sha256_hex p)) as [|Hne]; [right; done|]. left. split; [by eexists|]. right. right. by exists s, res.
Qed.

Lemma not_again now c m l l' b b' g : wf l -> settled c b' = true -> key_of b' = key_of b ->
  (forall k, bindings l' !! k = if decide (k = key_of b) then Some b' else bindings l !! k) ->
  g ∈ Suggest sha256_hex now c m l' -> ~ (gScope g = bScope b /\ gAddress g = Address b).
Proof.
  intros Hwf Hset Hk Hl (d & Hd & Hs & Hg)%elem_of_suggest [E1 E2].
  unfold live_now, forEachLive in Hd. rewrite !elem_of_kept, list_elem_of_omap in Hd. destruct Hd as [[(e & _ & He) _] _]. rewrite Hl in He.
  unfold suggest_for in Hg. apply list_elem_of_In, in_map_iff in Hg as (g0 & <- & Hg). apply list_elem_of_In, list_elem_of_omap in Hg as (p & _ & Hg).
  destruct (match_peer d p) as [[st ev]|]; [|done]. cbn in Hg. injection Hg as <-. cbn in E1, E2.
  destruct (decide (snd e = key_of b)) as [_|Hne]; [injection He as <-; congruence|]. apply (wf_keys _ Hwf) in He as [He _].
  apply Hne. rewrite He. unfold key_of. by rewrite E1, E2.
Qed.

(** C39: Suggestions can be acted on.  Every suggestion is about a live lease that nobody has linked to a
    peer, by report, by repair or in the inventory, and about a peer of the current inventory with a
    reason to be behind it: tailscaled reaches it at that very address, or its name is the one the
    client gave or carries.  The repair it proposes is complete and up to date: applied to the same
    ledger it is refused only when the inventory, a live holder of the name or a reservation speaks
    against it, and otherwise gives the lease, and no other, the peer's identity; and the address is
    not suggested again. *)
Theorem suggestions_sound now c m l g : wf l -> inventory_ok m -> g ∈ Suggest sha256_hex now c m l ->
  exists b p, supported now c m l g b p
  /\ ((exists e, repair_one now c l (gRepair g) = Err e) /\ disputed now c l (gRepair g) b
      \/ exists l', repair_one now c l (gRepair g) = Ok l'
          /\ (forall k, bindings l' !! k = if decide (k = key_of b)
                then Some (with_identity (peer_device sha256_hex p) (peer_label sha256_hex p) (pID p) ("operator repair: " +++ irReason (gRepair g)) b)
                else bindings l !! k)
          /\ forall g', g' ∈ Suggest sha256_hex now c m l' -> ~ (gScope g' = gScope g /\ gAddress g' = gAddress g)).
Proof.
  intros Hwf Hm Hg. destruct (suggested _ _ _ _ _ Hwf Hm Hg) as (b & p & Hs). exists b, p. split; [done|].
  destruct (repair_checks _ _ _ _ _ _ _ Hs) as [H|E]; [by left|]. right. eexists. split; [exact E|].
  destruct Hs as [_ _ Hp (Eg1 & Eg2 & _) _ Hrep]. set (b' := with_identity _ _ _ _ b).
  assert (Hb : forall k, bindings (putAssociation now (gRepair g) (save now b' "identity-repair" l)) !! k = if decide (k = key_of b) then Some b' else bindings l !! k).
  { intros k. rewrite Hrep. unfold putAssociation. cbn [Forget Persist negb bindings set_associations]. rewrite (proj1 (save_fields now b' "identity-repair" l)).
    change (key_of b') with (key_of b). destruct (decide (k = key_of b)) as [-> |]; [by rewrite lookup_insert_eq|by rewrite lookup_insert_ne]. }
  split; [done|]. intros g' Hg'. rewrite Eg1, Eg2. eapply (not_again now c m l _ b b' g' Hwf); [|reflexivity|exact Hb|exact Hg'].
  unfold settled. cbn [NodeID b' with_identity]. destruct (Hm _ _ Hp) as [_ ->]. done.
Qed.
End Sound.

(** * An example *)

Module SuggestExample.
Import BookExample HandoverExample.

Definition laptop : PeerStatus := mkPeerStatus "n1" "laptop.tail.example." "laptop" true "10.0.0.10:41641" ["203.0.113.7:41641"; "[fe80::1]:41641"] [Addr4 1681915905].
Definition server : PeerStatus := mkPeerStatus "n2" "server.tail.example." "server" true EmptyString ["198.51.100.2:41641"] [].
Definition inventory : gmap string Peer :=
  match Peers (Ok [laptop; server]) ≫= fun ps => overlayPeers (Ok ps) with Ok ps => fst (CollectPeers 1040 (Some (Ok ps)) ∅) | Err _ => ∅ end.

Lemma inventory_sound : inventory_ok inventory.
Proof.
  apply (sighted 1040 (match Peers (Ok [laptop; server]) ≫= fun ps => overlayPeers (Ok ps) with Ok ps => ps | Err _ => [] end) ∅ inventory).
  vm_compute. reflexivity.
Qed.

Definition found : Suggestion := hd (mkSuggestion EmptyString EmptyString EmptyString EmptyString EmptyString EmptyString EmptyString false EmptyString
  (mkRepair EmptyString EmptyString EmptyString EmptyString EmptyString EmptyString EmptyString EmptyString false false)) (Suggest digest64 1050 book inventory one_lease).

Lemma suggestions_sound_witness : Strength found = "endpoint" /\ PeerID found = "n1" /\ irName (gRepair found) = "laptop"
  /\ exists b p, supported digest64 1050 book inventory one_lease found b p.
Proof.
  split; [vm_compute; reflexivity|]. split; [vm_compute; reflexivity|]. split; [vm_compute; reflexivity|].
  destruct (suggestions_sound digest64 digest64_digits digest64_length 1050 book inventory one_lease found (ok_wf _ one_ok) inventory_sound) as (b & p & H & _).
  - apply list_elem_of_In. vm_compute. left. reflexivity.
  - exists b, p. exact H.
Defined.

End SuggestExample.
