(* ===== verification/Dns.v ===== *)
(** internal/addressbook/dns.go: authoritative answers from the ledger.

    dns.ReverseAddr is a parameter; what is relied on is that it prints the host's name under
    in-addr.arpa. or ip6.arpa. ([arpa]).  A message is its question, and a reply the fields the
    code sets; records are of class IN throughout. *)

From S2P Require Import Prelude NetAddr Ledger Config LeaseImport.
From Stdlib Require Import Ascii.
Local Open Scope Z_scope.

Record Question := mkQuestion { qName : string; qType : Z; qClass : Z }.

Definition TypeA : Z := 1.
Definition TypeNS : Z := 2.
Definition TypeSOA : Z := 6.
Definition TypePTR : Z := 12.
Definition TypeAAAA : Z := 28.
Definition ClassINET : Z := 1.
Definition RcodeFormatError : Z := 1.
Definition RcodeNameError : Z := 3.
Definition RcodeRefused : Z := 5.

Inductive rdata :=
| A (ip : Z)
| AAAA (ip : option Z)
| PTR (name : string)
| NS (name : string)
| SOA (ns mbox : string) (serial refresh retry expire minttl : Z).
Record RR := mkRR { rrName : string; rrType : Z; rrTtl : Z; rrData : rdata }.
Record Msg := mkMsg { Authoritative : bool; Rcode : Z; Answer : list RR; Authority : list RR }.

(** What ServeDNS does: write a reply, return a code, or hand over to the next plugin. *)
Inductive served := Answered (m : Msg) | Coded (rcode : Z) | Passed.

(** * reverseIP *)

Definition octet_text (b : ascii) : Z := byte_of b.

Definition reverseIP (name : string) : option Addr :=
  if has_suffix name ".ip6.arpa." then
    let parts := split_char "." (trim_suffix name ".ip6.arpa.") in
    if negb (length parts =? 32)%nat || negb (forallb (fun p => String.length p =? 1)%nat parts) then None
    else raw ← hex_decode (concat_str (rev parts)); Some (Addr6 (num_of_octets (map octet_text (string_chars raw))) EmptyString)
  else if has_suffix name ".in-addr.arpa." then
    match split_char "." (trim_suffix name ".in-addr.arpa.") with
    | [d; c; b; a] => ParseAddr (a +++ "." +++ b +++ "." +++ c +++ "." +++ d)
    | _ => None
    end
  else None.

(** * ServeDNS *)

Definition in_zone (name zone : string) : bool := (name =?s (zone +++ ".")) || has_suffix name ("." +++ zone +++ ".").

(** The scope a name belongs to, and whether as the reverse name of an address of its subnet. *)
Fixpoint dns_scope (ss : list Scope) (name : string) : option (Scope * bool) :=
  match ss with
  | [] => None
  | s :: ss' =>
    if in_zone name (Zone s) then Some (s, false)
    else match reverseIP name, ParsePrefix (Subnet s) with
         | Some ip, Some p => if Contains p ip then Some (s, true) else dns_scope ss' name
         | _, _ => dns_scope ss' name
         end
  end.

(** The loop over the aliases: the label looked up and the owner's full name. *)
Definition follow_alias (zone : string) (st : string * string) (d : DeviceConfig) : string * string :=
  fold_left (fun st alias => if fst st =?s alias then (dName d, dName d +++ "." +++ zone +++ ".") else st) (Aliases d) st.

Section Serve.
Context (ReverseAddr : string -> string).

Definition lease_ttl (now : Z) (b : Binding) : Z := Z.min 30 (End_ b - now).

(** The records a binding contributes. *)
Definition lease_records (now : Z) (q : Question) (reverse : bool) (owner : string) (b : Binding) : list RR :=
  let hdr := mkRR (qName q) (qType q) (lease_ttl now b) in
  (if reverse && (qType q =? TypePTR) then [hdr (PTR owner)] else [])
  ++ match To4 (ParseIP (Address b)) with
     | Some n => if negb reverse && (qType q =? TypeA) then [hdr (A n)] else []
     | None => if negb reverse && (qType q =? TypeAAAA) then [hdr (AAAA (ParseIP (Address b)))] else []
     end.

Definition concerns (now : Z) (zone name lookup : string) (reverse : bool) (b : Binding) : bool :=
  answers now b && (if reverse then ReverseAddr (Address b) =?s name else (Name b +++ "." +++ zone +++ ".") =?s lookup).

Definition server_records (q : Question) (s : Scope) : list RR :=
  let hdr := mkRR (qName q) (qType q) 30 in
  match To4 (ParseIP (sServer s)) with
  | Some n => if qType q =? TypeA then [hdr (A n)] else []
  | None => if qType q =? TypeAAAA then [hdr (AAAA (ParseIP (sServer s)))] else []
  end.

Definition soa_record (q : Question) (zone : string) (reverse : bool) (serial : Z) : RR :=
  mkRR (if reverse then qName q else zone +++ ".") TypeSOA 1
    (SOA ("ns." +++ zone +++ ".") ("hostmaster." +++ zone +++ ".") serial 30 5 300 1).

Definition zone_scopes (c : Config) (zone : string) : list Scope := List.filter (fun s => Zone s =?s zone) (Scopes c).

Definition answer (now : Z) (c : Config) (l : ledger) (q : Question) (zone : string) (reverse : bool) : Msg :=
  let name := to_lower (qName q) in
  let address := if reverse then match reverseIP name with Some ip => AddrString ip | None => EmptyString end else EmptyString in
  let '(label, lookup) :=
    let start := (trim_suffix name ("." +++ zone +++ "."), name) in
    if reverse then start else fold_left (follow_alias zone) (Devices c) start in
  let found := flat_map (fun s => DNSBindings now (sID s) label address l) (zone_scopes c zone) in
  let mine := List.filter (concerns now zone name lookup reverse) found in
  let is_ns := name =?s ("ns." +++ zone +++ ".") in
  let apex := name =?s (zone +++ ".") in
  let soa := soa_record q zone reverse (Revision l) in
  let records :=
    flat_map (fun b => lease_records now q reverse (Name b +++ "." +++ zone +++ ".") b) mine
    ++ (if is_ns then flat_map (server_records q) (zone_scopes c zone) else [])
    ++ (if apex && (qType q =? TypeSOA) then [soa] else [])
    ++ (if apex && (qType q =? TypeNS) then [mkRR (qName q) TypeNS 30 (NS ("ns." +++ zone +++ "."))] else []) in
  mkMsg true (if apex || is_ns || negb (match mine with [] => true | _ => false end) then 0 else RcodeNameError)
    records (match records with [] => [soa] | _ => [] end).

Definition ServeDNS (now : Z) (c : Config) (l : ledger) (questions : list Question) : served :=
  match questions with
  | [q] =>
    match dns_scope (Scopes c) (to_lower (qName q)) with
    | None => Passed
    | Some (s, reverse) =>
      if negb (qClass q =? ClassINET) then Coded RcodeRefused else Answered (answer now c l q (Zone s) reverse)
    end
  | _ => Coded RcodeFormatError
  end.
End Serve.
