(* ===== verification/DnsInv.v ===== *)
(** DNS answers are exact: what a name of a served zone, and the reverse name of an address of a
    served subnet, are answered with. *)

From S2P Require Import Prelude NetAddr Ledger LedgerInv Config KeyText ConfigInv AddrText LeaseImport LeaseText Dns.
From Stdlib Require Import Ascii.
Local Open Scope Z_scope.

(** * Suffixes and zones *)

Lemma of_chars_app l l' : string_of_chars (l ++ l') = string_of_chars l +++ string_of_chars l'.
Proof. induction l as [|c l IH]; cbn; [done|]. by rewrite IH. Qed.

Lemma has_suffix_spec s x : has_suffix s x = true <-> exists a, s = a +++ x.
Proof.
  unfold has_suffix. rewrite andb_true_iff, Nat.leb_le, bool_decide_eq_true. split.
  - intros [Hl E]. exists (string_of_chars (take (length (string_chars s) - length (string_chars x)) (string_chars s))).
    rewrite <-(of_chars_string s) at 1. rewrite <-(take_drop (length (string_chars s) - length (string_chars x)) (string_chars s)) at 1.
    rewrite E, of_chars_app, (of_chars_string x). done.
  - intros [a ->]. rewrite chars_app, length_app. split; [lia|].
    replace (length (string_chars a) + length (string_chars x) - length (string_chars x))%nat with (length (string_chars a)) by lia.
    by rewrite drop_app_length.
Qed.

Lemma substring_prefix a b : String.substring 0 (String.length a) (a +++ b) = a.
Proof. induction a as [|c a IH]; cbn; [by destruct b|]. by rewrite IH. Qed.

Lemma trim_suffix_app a x : trim_suffix (a +++ x) x = a.
Proof.
  unfold trim_suffix. assert (has_suffix (a +++ x) x = true) as -> by (apply has_suffix_spec; eauto).
  rewrite append_length. replace (String.length a + String.length x - String.length x)%nat with (String.length a) by lia.
  apply substring_prefix.
Qed.

Definition nested (z z' : string) : Prop := has_suffix z ("." +++ z') = true \/ has_suffix z' ("." +++ z) = true.

Lemma append_split a b x y : a +++ x = b +++ y -> (String.length x <= String.length y)%nat -> exists m, b +++ m = a /\ y = m +++ x.
Proof.
  revert b. induction a as [|c a IH]; intros b E Hl.
  - assert (Eb : String.length (b +++ y) = String.length x) by (rewrite <-E; done). rewrite append_length in Eb.
    destruct b; cbn in *; [|lia]. exists EmptyString. cbn. done.
  - destruct b as [|c' b]; cbn in E.
    + exists (String c a). split; [done|]. by rewrite <-E.
    + injection E as -> E. destruct (IH b E Hl) as (m & <- & ->). by exists m.
Qed.

Lemma in_zone_spec name z : in_zone name z = true <-> name = z +++ "." \/ exists a, name = a +++ "." +++ z +++ ".".
Proof. unfold in_zone. by rewrite orb_true_iff, String.eqb_eq, has_suffix_spec. Qed.

(** Two zones of one name, the shorter first, are equal or nested. *)
Lemma zones_compare name z z' : in_zone name z = true -> in_zone name z' = true ->
  (String.length z <= String.length z')%nat -> z = z' \/ has_suffix z' ("." +++ z) = true.
Proof.
  rewrite !in_zone_spec. intros H H' Hl.
  assert (Hs : exists m, z' = m +++ z /\ (m = EmptyString \/ exists m', m = m' +++ ".")).
  { destruct H as [->|[a ->]], H' as [E|[b E]].
    - apply append_inj_r in E as ->. exists EmptyString. auto.
    - exfalso. apply (f_equal String.length) in E. rewrite !append_length in E. cbn in E. lia.
    - rewrite <-!append_assoc in E. apply append_inj_r in E. exists (a +++ "."). split; [|eauto]. by rewrite <-E.
    - rewrite <-!append_assoc in E. apply append_inj_r in E.
      destruct (append_split (a +++ ".") (b +++ ".") z z') as (m & Em & ->); [done..|].
      exists m. split; [done|]. destruct m as [|c m]; [by left|right].
      destruct (append_split a (b +++ ".") "." (String c m)) as (k & _ & ->); [done|cbn; lia|eauto]. }
  destruct Hs as (m & -> & [->|[m' ->]]); [by left|right]. apply has_suffix_spec. exists m'. by rewrite append_assoc.
Qed.

Lemma zone_unique name z z' : ~ nested z z' -> in_zone name z = true -> in_zone name z' = true -> z = z'.
Proof.
  unfold nested. intros Hn H H'. destruct (Nat.le_ge_cases (String.length z) (String.length z')).
  - destruct (zones_compare name z z'); auto. tauto.
  - destruct (zones_compare name z' z); auto. tauto.
Qed.

Lemma zone_not_under z : has_suffix z ("." +++ z) = false.
Proof.
  apply not_true_is_false. intros [a E]%has_suffix_spec. apply (f_equal String.length) in E.
  rewrite !append_length in E. cbn in E. lia.
Qed.

Lemma validate_scope_zones devs st s st' : validate_scope devs st s = Ok st' ->
  zones st' = Zone s :: zones st /\ Forall (fun z => ~ nested (Zone s) z) (zones st).
Proof.
  unfold validate_scope. intros H. do 14 next_ok H. apply Ok_inj in H as <-. split; [done|].
  rename select (for_each _ _ = _) into Hz. repeat match goal with x : unit |- _ => destruct x end. apply for_each_ok in Hz.
  eapply Forall_impl; [exact Hz|]. intros z [H1 H2]%fail_if_ok%orb_false_iff. unfold nested. rewrite H1, H2. by intros [].
Qed.

Lemma fold_scopes_zones devs ss st st' : fold_m (validate_scope devs) st ss = Ok st' ->
  ForallOrdPairs (fun z z' => ~ nested z z') (zones st) ->
  ForallOrdPairs (fun z z' => ~ nested z z') (zones st') /\ zones st' = rev (map Zone ss) ++ zones st.
Proof.
  revert st. induction ss as [|s ss IH]; intros st; cbn [fold_m]; [by intros [= <-]|].
  destruct (validate_scope devs st s) as [st1|] eqn:E; [|done]. apply validate_scope_zones in E as [E1 E2].
  intros H Hz. destruct (IH st1 H) as [H1 H2]; [rewrite E1; by constructor|]. split; [done|].
  rewrite H2, E1. cbn. by rewrite <-app_assoc.
Qed.

(** In an accepted configuration no zone lies inside another. *)
Lemma zones_apart c s t : Validate c = Ok tt -> s ∈ Scopes c -> t ∈ Scopes c -> ~ nested (Zone s) (Zone t).
Proof.
  unfold Validate. intros H. next_ok H. apply seq_ok in H as [_ H]. next_ok H.
  apply fold_scopes_zones in Hx0 as [Hz E]; [|constructor]. cbn in E. rewrite app_nil_r in E.
  intros Hs Ht. assert (Hin : forall s, s ∈ Scopes c -> In (Zone s) (zones x0)).
  { intros r Hr. rewrite E, <-in_rev. by apply in_map, list_elem_of_In. }
  destruct (ForallOrdPairs_In Hz _ _ (Hin s Hs) (Hin t Ht)) as [<-|[Hn|Hn]].
  - intros []; rewrite zone_not_under in *; done.
  - done.
  - unfold nested in *. tauto.
Qed.

Lemma dns_scope_forward ss name s r : reverseIP name = None -> dns_scope ss name = Some (s, r) ->
  r = false /\ s ∈ ss /\ in_zone name (Zone s) = true.
Proof.
  intros Hr. induction ss as [|t ss IH]; cbn [dns_scope]; [done|]. rewrite Hr.
  destruct (in_zone name (Zone t)) eqn:E; [intros [= -> <-]; split_and!; [done|left|done]|].
  intros (-> & Hs & Hz)%IH. split_and!; [done|by right|done].
Qed.

Lemma dns_scope_zone c name s : Validate c = Ok tt -> reverseIP name = None -> s ∈ Scopes c -> in_zone name (Zone s) = true ->
  exists s', dns_scope (Scopes c) name = Some (s', false) /\ Zone s' = Zone s.
Proof.
  intros Hv Hr Hs Hz. assert (Hsome : forall ss, s ∈ ss -> is_Some (dns_scope ss name)).
  { induction ss as [|t ss IH]; [by intros ?%elem_of_nil|]. cbn [dns_scope]. rewrite Hr.
    intros [<-|H]%elem_of_cons; [by rewrite Hz|]. destruct (in_zone name (Zone t)); eauto. }
  destruct (Hsome _ Hs) as [[s' r] E]. destruct (dns_scope_forward _ _ _ _ Hr E) as (-> & Hs' & Hz').
  exists s'. split; [done|]. apply (zone_unique name); try done. by apply (zones_apart c).
Qed.

(** * Aliases *)

(** The name an inventory gives a label: the device's whose alias it is, or its own. *)
Definition stands_for (c : Config) (label n : string) : Prop :=
  (exists d, d ∈ Devices c /\ label ∈ Aliases d /\ n = dName d)
  \/ ((forall d, d ∈ Devices c -> label ∉ Aliases d) /\ n = label).

Definition claimed_names (ds : list DeviceConfig) : list string := flat_map (fun d => dName d :: Aliases d) ds.

Lemma fold_aliases al names names' : fold_m add_alias names al = Ok names' ->
  NoDup al /\ (forall a, a ∈ al -> a ∉ names) /\ names' = list_to_set al ∪ names.
Proof.
  revert names. induction al as [|a al IH]; intros names; cbn [fold_m].
  { intros [= <-]. split_and!; [constructor|by intros a ?%elem_of_nil|set_solver]. }
  destruct (add_alias names a) as [n1|] eqn:E; [|done]. unfold add_alias in E. apply seq_ok in E as [E%fail_if_ok [= <-]].
  bool_hyps. apply bool_decide_eq_false in H0. intros (Hn & Hd & ->)%IH. split_and!.
  - constructor; [|done]. intros Ha. apply (Hd a Ha). set_solver.
  - intros b [->|Hb]%elem_of_cons; [done|]. specialize (Hd b Hb). set_solver.
  - cbn. set_solver.
Qed.

Lemma fold_claimed ds st st' : fold_m validate_device st ds = Ok st' ->
  NoDup (claimed_names ds) /\ (forall a, a ∈ claimed_names ds -> a ∉ names st).
Proof.
  revert st. induction ds as [|d ds IH]; intros st; cbn [fold_m].
  { intros _. split; [constructor|]. by intros a ?%elem_of_nil. }
  destruct (validate_device st d) as [st1|] eqn:E; [|done]. unfold validate_device in E.
  apply seq_ok in E as [E1%fail_if_ok E]. next_ok E. next_ok E. apply Ok_inj in E as <-. bool_hyps.
  apply bool_decide_eq_false in H0. apply fold_aliases in Hx as (Hn & Hd & ->). intros [Hnd Hni]%IH. cbn [names] in Hni.
  cbn [claimed_names flat_map app]. change (flat_map _ ds) with (claimed_names ds). split.
  - constructor.
    + rewrite elem_of_app. intros [Ha|Ha]; [apply (Hd _ Ha)|apply (Hni _ Ha)]; set_solver.
    + apply NoDup_app. split_and!; [done| |done]. intros a Ha Hb. apply (Hni a Hb). set_solver.
  - intros a. rewrite elem_of_cons, elem_of_app. intros [->|[Ha|Ha]]; [done| |].
    + specialize (Hd a Ha). set_solver.
    + specialize (Hni a Ha). set_solver.
Qed.

Lemma flat_map_unique {A B} (f : A -> list B) ds d d' x : NoDup (flat_map f ds) -> d ∈ ds -> d' ∈ ds -> x ∈ f d -> x ∈ f d' ->
  d = d' /\ NoDup (f d).
Proof.
  assert (Hin : forall (ds : list A) d, d ∈ ds -> x ∈ f d -> x ∈ flat_map f ds).
  { intros ds0 d0 H1 H2. apply list_elem_of_In, in_flat_map. exists d0. by rewrite <-!list_elem_of_In. }
  induction ds as [|e ds IH]; [by intros _ ?%elem_of_nil|]. cbn. intros (N1 & Hx & N2)%NoDup_app.
  intros [->|Hd]%elem_of_cons [->|Hd']%elem_of_cons H H'; [done|exfalso|exfalso|by apply IH].
  - exact (Hx x H (Hin _ _ Hd' H')).
  - exact (Hx x H' (Hin _ _ Hd H)).
Qed.

Section Alias.
Context (zone : string).
Definition full (n : string) : string := n +++ "." +++ zone +++ ".".

Lemma follow_none d x : x ∉ Aliases d -> follow_alias zone (x, full x) d = (x, full x).
Proof.
  unfold follow_alias. induction (Aliases d) as [|a al IH]; cbn; [done|]. rewrite not_elem_of_cons. intros [Ha Hal].
  apply String.eqb_neq in Ha. rewrite Ha. by apply IH.
Qed.

Lemma follow_one d x : dName d ∉ Aliases d -> x ∈ Aliases d -> follow_alias zone (x, full x) d = (dName d, full (dName d)).
Proof.
  intros Hd. pose proof (follow_none d (dName d) Hd) as Hn. unfold follow_alias in *.
  induction (Aliases d) as [|a al IH]; [by intros ?%elem_of_nil|]. cbn in *. apply not_elem_of_cons in Hd as [Ha Hd].
  pose proof Ha as Hae%String.eqb_neq. rewrite Hae in Hn. intros [->|Hx]%elem_of_cons; [by rewrite String.eqb_refl|].
  destruct (x =?s a); [done|by apply IH].
Qed.

Lemma follow_all ds x : (forall d d', d ∈ ds -> d' ∈ ds -> dName d ∉ Aliases d') ->
  exists n, fold_left (follow_alias zone) ds (x, full x) = (n, full n)
  /\ ((exists d, d ∈ ds /\ x ∈ Aliases d /\ n = dName d) \/ ((forall d, d ∈ ds -> x ∉ Aliases d) /\ n = x)).
Proof.
  intros Hd. revert x. induction ds as [|d ds IH]; intros x; cbn.
  { exists x. split; [done|right]. split; [by intros d ?%elem_of_nil|done]. }
  assert (Hd' : forall e e', e ∈ ds -> e' ∈ ds -> dName e ∉ Aliases e') by (intros; apply Hd; by right).
  specialize (IH Hd'). destruct (decide (x ∈ Aliases d)) as [Hx|Hx].
  - rewrite follow_one; [|apply Hd; left|done]. destruct (IH (dName d)) as (n & E & Hn). exists n. split; [done|left].
    destruct Hn as [(e & He & Ha & _)|[_ ->]]; [|exists d; split_and!; [left|done..]].
    exfalso. apply (Hd d e); [left|by right|done].
  - rewrite follow_none by done. destruct (IH x) as (n & E & [(e & He & Ha & ->)|[Hn ->]]).
    + exists (dName e). split; [done|left]. exists e. split_and!; [by right|done..].
    + exists x. split; [done|right]. split; [|done]. intros e [->|He]%elem_of_cons; auto.
Qed.
End Alias.

Lemma aliases_followed c zone x n : Validate c = Ok tt -> stands_for c x n ->
  fold_left (follow_alias zone) (Devices c) (x, full zone x) = (n, full zone n).
Proof.
  unfold Validate. intros H Hn. next_ok H. apply fold_claimed in Hx as [Hd _].
  pose proof (fun d d' y => flat_map_unique (fun d => dName d :: Aliases d) (Devices c) d d' y Hd) as Hu.
  destruct (follow_all zone (Devices c) x) as (m & E & Hm).
  { intros d d' H1 H2 Ha. destruct (Hu d d' (dName d)) as [-> N%NoDup_cons]; [done|done|left|by right|]. tauto. }
  rewrite E. assert (m = n) as ->; [|done].
  destruct Hm as [(d & H1 & H2 & ->)|[Hm ->]], Hn as [(d' & H1' & H2' & ->)|[Hn ->]]; [|exfalso; by eapply Hn|exfalso; by eapply Hm|done].
  destruct (Hu d d' x) as [-> _]; [done|done|by right|by right|done].
Qed.

(** * Bindings found *)

Lemma answers_spec now b : answers now b = true <-> bState b = "active" /\ now < End_ b.
Proof. unfold answers. by rewrite andb_true_iff, String.eqb_eq, Z.ltb_lt. Qed.

(** What a lookup by name finds are live host bindings of the scope, for every text asked for. *)
Lemma DNSBindings_sound l now scope name b : wf l -> no_slash scope = true -> b ∈ DNSBindings now scope name EmptyString l ->
  stored l b /\ bState b = "active" /\ Origin b <> originPD /\ bScope b = scope /\ now < End_ b.
Proof.
  intros Hwf Hs. unfold DNSBindings. cbn [is_empty negb].
  rewrite list_elem_of_In, filter_In, <-list_elem_of_In, list_elem_of_omap, answers_spec.
  intros [(k & [_ [r Hk]]%elem_of_scan & Hb) [Ha He]]. destruct (dns l !! k) as [v|] eqn:Ev; [|done]. simpl in Hb.
  apply (wf_dns _ Hwf) in Ev as (c & Hc & [_ Ho] & Ek & ->). unfold stored in Hc. rewrite Hc in Hb. injection Hb as <-.
  destruct (stored_sound l Hwf c Hc) as (_ & S%negb_true_iff & _). apply negb_true_iff in Hs.
  rewrite Ek, dns_prefix in Hk. unfold dnsKey in Hk. apply cut_inj in Hk as [E1 _]; [|done..]. by split_and!.
Qed.

(** A lease a name of the zone stands for. *)
Definition leased (c : Config) (l : ledger) (now : Z) (zone n : string) (b : Binding) : Prop :=
  stored l b /\ bState b = "active" /\ now < End_ b /\ Origin b <> originPD /\ Name b = n
  /\ exists s, s ∈ Scopes c /\ Zone s = zone /\ bScope b = sID s.

Lemma scope_no_slash c s : Validate c = Ok tt -> s ∈ Scopes c -> no_slash (sID s) = true.
Proof.
  intros (devs & ps & Hg)%Validate_good [i Hi]%list_elem_of_lookup.
  destruct (Forall2_lookup_l _ _ _ _ _ (gc_scopes _ _ _ Hg) Hi) as (p & _ & Hp). apply (label_key (sID s)), Hp.
Qed.

Lemma elem_of_zone_scopes c zone s : s ∈ zone_scopes c zone <-> s ∈ Scopes c /\ Zone s = zone.
Proof. unfold zone_scopes. by rewrite list_elem_of_In, filter_In, <-list_elem_of_In, String.eqb_eq. Qed.

Lemma full_inj zone a b : full zone a = full zone b -> a = b.
Proof. apply append_inj_r. Qed.

Lemma found_forward R c l now zone name n b : Validate c = Ok tt -> wf l ->
  b ∈ List.filter (concerns R now zone name (full zone n) false)
        (flat_map (fun s => DNSBindings now (sID s) n EmptyString l) (zone_scopes c zone))
  <-> leased c l now zone n b.
Proof.
  intros Hv Hwf. rewrite list_elem_of_In, filter_In, <-list_elem_of_In, elem_of_flat_map. unfold concerns.
  rewrite andb_true_iff, answers_spec, String.eqb_eq. setoid_rewrite elem_of_zone_scopes. split.
  - intros [(s & [Hs Hz] & Hb) [[Ha He] En%full_inj]].
    apply DNSBindings_sound in Hb as (H1 & H2 & H3 & H4 & H5); [|done|by apply (scope_no_slash c)]. split_and!; eauto.
  - intros (H1 & H2 & H3 & H4 & <- & s & Hs & Hz & E). split; [|done]. exists s. split; [done|].
    apply (proj1 (dns_exact l now (sID s) (Name b) b Hwf (scope_no_slash c s Hv Hs) ltac:(by apply (stored_sound l)))).
    by split_and!.
Qed.

(** The address records of an answer. *)
Definition address_data (type : Z) (text : string) (d : rdata) : Prop :=
  match To4 (ParseIP text) with
  | Some ip => type = TypeA /\ d = A ip
  | None => type = TypeAAAA /\ d = AAAA (ParseIP text)
  end.

Lemma lease_records_forward now q owner b rr : rr ∈ lease_records now q false owner b <->
  rrName rr = qName q /\ rrType rr = qType q /\ rrTtl rr = lease_ttl now b /\ address_data (qType q) (Address b) (rrData rr).
Proof.
  unfold lease_records, address_data. cbn. destruct rr as [n t ttl d]. cbn.
  destruct (To4 _) as [ip|]; case_match; bool_hyps; rewrite ?list_elem_of_singleton, ?elem_of_nil; naive_solver.
Qed.

Lemma server_records_spec q s rr : rr ∈ server_records q s <->
  rrName rr = qName q /\ rrType rr = qType q /\ rrTtl rr = 30 /\ address_data (qType q) (sServer s) (rrData rr).
Proof.
  unfold server_records, address_data. destruct rr as [n t ttl d]. cbn.
  destruct (To4 _) as [ip|]; case_match; bool_hyps; rewrite ?list_elem_of_singleton, ?elem_of_nil; naive_solver.
Qed.

(** The answer to a question for the name [label] of a zone, which stands for the device name [n]. *)
Definition forward_message (now : Z) (c : Config) (l : ledger) (q : Question) (zone label n : string) (m : Msg) : Prop :=
  Authoritative m = true
  /\ (forall rr, rr ∈ Answer m <-> rrName rr = qName q /\ rrType rr = qType q
       /\ ((exists b, leased c l now zone n b /\ rrTtl rr = Z.min 30 (End_ b - now) /\ address_data (qType q) (Address b) (rrData rr))
           \/ (label = "ns" /\ rrTtl rr = 30 /\ exists t, t ∈ Scopes c /\ Zone t = zone /\ address_data (qType q) (sServer t) (rrData rr))))
  /\ (Rcode m = 0 \/ Rcode m = RcodeNameError)
  /\ (Rcode m = RcodeNameError <-> label <> "ns" /\ forall b, ~ leased c l now zone n b)
  /\ Authority m = (if Answer m is [] then [soa_record q zone false (Revision l)] else []).

Lemma forward_answered ReverseAddr now c l q s label n :
  Validate c = Ok tt -> wf l -> s ∈ Scopes c -> qClass q = ClassINET ->
  to_lower (qName q) = label +++ "." +++ Zone s +++ "." -> reverseIP (to_lower (qName q)) = None -> stands_for c label n ->
  exists m, ServeDNS ReverseAddr now c l [q] = Answered m /\ forward_message now c l q (Zone s) label n m.
Proof.
  intros Hv Hwf Hs Hc En Hr Hn.
  destruct (dns_scope_zone c (to_lower (qName q)) s Hv Hr Hs) as (s' & Es & Ez).
  { apply in_zone_spec. right. by exists label. }
  unfold ServeDNS. rewrite Es, Hc, Ez. cbn [Z.eqb negb Pos.eqb]. eexists. split; [reflexivity|]. unfold forward_message.
  unfold answer. rewrite En, trim_suffix_app. change (label +++ "." +++ Zone s +++ ".") with (full (Zone s) label).
  rewrite (aliases_followed c (Zone s) label n Hv Hn). cbn zeta.
  set (mine := List.filter _ _).
  assert (Hm : forall b, b ∈ mine <-> leased c l now (Zone s) n b) by (intros b; by apply found_forward).
  assert ((full (Zone s) label =?s (Zone s +++ ".")) = false) as ->.
  { apply String.eqb_neq. intros E%(f_equal String.length). unfold full in E. rewrite !append_length in E. cbn in E. lia. }
  assert ((full (Zone s) label =?s ("ns." +++ Zone s +++ ".")) = (label =?s "ns")) as ->.
  { change ("ns." +++ Zone s +++ ".") with (full (Zone s) "ns"). apply eq_true_iff_eq. rewrite !String.eqb_eq.
    split; [apply full_inj|by intros ->]. }
  cbn [andb orb app Authoritative Rcode Answer Authority]. rewrite !app_nil_r. split; [done|].
  assert (Hrec : forall rr, rr ∈ flat_map (fun b => lease_records now q false (Name b +++ "." +++ Zone s +++ ".") b) mine
            ++ (if label =?s "ns" then flat_map (server_records q) (zone_scopes c (Zone s)) else [])
    <-> rrName rr = qName q /\ rrType rr = qType q
       /\ ((exists b, leased c l now (Zone s) n b /\ rrTtl rr = Z.min 30 (End_ b - now) /\ address_data (qType q) (Address b) (rrData rr))
           \/ (label = "ns" /\ rrTtl rr = 30 /\ exists t, t ∈ Scopes c /\ Zone t = Zone s /\ address_data (qType q) (sServer t) (rrData rr)))).
  { intros rr. rewrite elem_of_app, elem_of_flat_map. setoid_rewrite Hm. setoid_rewrite lease_records_forward. unfold lease_ttl.
    destruct (String.eqb_spec label "ns") as [->|Hne].
    - rewrite elem_of_flat_map. setoid_rewrite elem_of_zone_scopes. setoid_rewrite server_records_spec. naive_solver.
    - rewrite elem_of_nil. naive_solver. }
  set (records := flat_map _ mine ++ _) in *. split; [done|].
  assert (Hne : mine = [] <-> forall b, ~ leased c l now (Zone s) n b).
  { split; [intros E b Hb%Hm; rewrite E in Hb; by apply elem_of_nil in Hb|]. intros Hb. destruct mine as [|b bs]; [done|].
    exfalso. apply (Hb b), Hm. left. }
  split_and!.
  - destruct (label =?s "ns"), mine; cbn; auto.
  - rewrite <-Hne. destruct (String.eqb_spec label "ns"), mine; cbn; naive_solver.
  - by destruct records.
Qed.

(** C19: DNS answers are the leases.  For an accepted configuration and a well-formed ledger, a
    question of class IN for a name [label] of a served zone (one that is not also the arpa name of
    an address) is answered authoritatively; the address records are exactly those of the live
    leases, in the scopes of that zone, of the device the label stands for (itself, or through an
    alias), each with a lifetime of at most 30 seconds that never outlasts the lease, and, for the
    label ns, also those of the zone's servers; there are no other records.  The answer is a name
    error exactly when nobody holds a lease under that name and it is not ns, and otherwise a
    success; its authority section is the zone's start of authority, with the ledger's revision as
    its serial, if the answer is empty, and empty otherwise. *)
Theorem dns_forward_exact ReverseAddr now c l q s label n :
  Validate c = Ok tt -> wf l -> s ∈ Scopes c -> qClass q = ClassINET ->
  to_lower (qName q) = label +++ "." +++ Zone s +++ "." -> reverseIP (to_lower (qName q)) = None -> stands_for c label n ->
  exists m, ServeDNS ReverseAddr now c l [q] = Answered m /\ forward_message now c l q (Zone s) label n m.
Proof. apply forward_answered. Qed.

(** Reverse names: reverseIP reads back the arpa name of an address, and the answer to a PTR
    question is the name of the address's lease. *)

(** * The arpa name of an address *)

Definition nibble (n i : Z) : Z := Z.shiftr n (4 * i) mod 16.
Definition nibbles (n : Z) : list Z := map (fun k => nibble n (Z.of_nat k)) (seq 0 32).
Definition nibble_text (d : Z) : string := String (hex_char d) EmptyString.

Definition arpa (a : Addr) : string :=
  match a with
  | Addr4 n => join "." [pretty (octet n 0); pretty (octet n 1); pretty (octet n 2); pretty (octet n 3)] +++ ".in-addr.arpa."
  | Addr6 n _ => join "." (map nibble_text (nibbles n)) +++ ".ip6.arpa."
  end.

(** * IPv6 *)

Lemma nibble_range n i : 0 <= nibble n i < 16.
Proof. apply Z.mod_pos_bound. lia. Qed.

Lemma nibbles_range n : Forall (fun d => 0 <= d < 16) (nibbles n).
Proof. unfold nibbles. apply Forall_map, Forall_true. intros. apply nibble_range. Qed.

Definition of_nibbles (l : list Z) : Z := fold_right (fun d v => v * 16 + d) 0 l.

Lemma nibbles_value n k : forall i, 0 <= n -> of_nibbles (map (fun j => nibble n (Z.of_nat j)) (seq i k)) = Z.shiftr n (4 * Z.of_nat i) mod 2^(4 * Z.of_nat k).
Proof.
  induction k as [|k IH]; intros i Hn; cbn [seq map of_nibbles fold_right]; [by rewrite Z.mod_1_r|].
  change (fold_right _ 0 ?l) with (of_nibbles l). rewrite IH by done. unfold nibble.
  replace (2^(4 * Z.of_nat (S k))) with (16 * 2^(4 * Z.of_nat k)) by (rewrite Nat2Z.inj_succ, Z.mul_succ_r, Z.add_comm, Z.pow_add_r by lia; done).
  rewrite Z.rem_mul_r by (try apply Z.pow_nonzero; lia).
  replace (Z.shiftr n (4 * Z.of_nat (S i))) with (Z.shiftr n (4 * Z.of_nat i) / 16); [lia|].
  change 16 with (2^4). rewrite <-Z.shiftr_div_pow2, Z.shiftr_shiftr by lia. f_equal. lia.
Qed.

Lemma nibbles_num n : 0 <= n < 2^128 -> of_nibbles (nibbles n) = n.
Proof. intros Hn. unfold nibbles. rewrite nibbles_value by lia. by apply Z.mod_small. Qed.

Lemma of_nibbles_rev l : fold_left (fun v d => v * 16 + d) (rev l) 0 = of_nibbles l.
Proof. unfold of_nibbles. rewrite <-(rev_involutive l) at 2. symmetry. exact (fold_left_rev_right (fun d v => v * 16 + d) (rev l) 0). Qed.

Lemma byte_of_nat v : 0 <= v < 256 -> byte_of (ascii_of_nat (Z.to_nat v)) = v.
Proof. intros Hv. unfold byte_of. rewrite nat_ascii_embedding by lia. lia. Qed.

Lemma decode_nibbles k : forall hs acc, length hs = (2 * k)%nat -> Forall (fun d => 0 <= d < 16) hs ->
  exists bs, decode_pairs (map hex_char hs) = Some bs
  /\ fold_left (fun v o => v * 256 + o) (map octet_text bs) acc = fold_left (fun v d => v * 16 + d) hs acc.
Proof.
  induction k as [|k IH]; intros hs acc Hl Hr; [by destruct hs; [exists []|]|].
  destruct hs as [|a [|b hs]]; [done|cbn in Hl; lia|]. inversion Hr as [|? ? Ha Hr']; subst. inversion Hr' as [|? ? Hb Hr'']; subst.
  destruct (IH hs (acc * 256 + (a * 16 + b))) as (bs & E & Ev); [cbn in Hl; lia|done|].
  cbn [map decode_pairs]. rewrite !hex_val_char by done. cbn [mbind option_bind]. rewrite E. cbn.
  eexists. split; [reflexivity|]. cbn [map fold_left]. unfold octet_text at 2. rewrite byte_of_nat by lia.
  rewrite Ev. f_equal. lia.
Qed.

Lemma nibbles_joined n : split_char "." (join "." (map nibble_text (nibbles n))) = map nibble_text (nibbles n).
Proof.
  apply split_join; [done|]. apply Forall_map. eapply Forall_impl; [apply nibbles_range|]. intros d Hd.
  unfold nibble_text. rewrite contains_cons, Ascii.eqb_sym, (hex_char_not "." d Hd) by done. done.
Qed.

Lemma concat_nibbles hs : concat_str (map nibble_text hs) = string_of_chars (map hex_char hs).
Proof. induction hs as [|d hs IH]; [done|]. cbn. by rewrite IH. Qed.

Lemma reverse6 n z : 0 <= n < 2^128 -> reverseIP (arpa (Addr6 n z)) = Some (Addr6 n EmptyString).
Proof.
  intros Hn. unfold reverseIP, arpa. rewrite (proj2 (has_suffix_spec _ ".ip6.arpa.")) by eauto.
  rewrite trim_suffix_app, nibbles_joined. rewrite length_map. unfold nibbles at 1. rewrite length_map, length_seq.
  cbn [Nat.eqb negb orb]. rewrite (proj2 (forallb_forall _ _)).
  2:{ intros x (d & <- & _)%in_map_iff. done. }
  cbn [negb]. rewrite <-map_rev, concat_nibbles. unfold hex_decode. rewrite chars_of_chars.
  destruct (decode_nibbles 16 (rev (nibbles n)) 0) as (bs & E & Ev); [done|by apply Forall_rev, nibbles_range|].
  rewrite E. cbn. rewrite chars_of_chars. f_equal. f_equal. unfold num_of_octets. rewrite Ev.
  rewrite of_nibbles_rev. by apply nibbles_num.
Qed.


(** * IPv4 *)

Lemma octet_no_dot n i : contains_char "." (pretty (octet n i)) = false.
Proof. unfold contains_char. apply (forallb_no_char _ is_hex); [done|]. apply octet_digits, octet_range. Qed.

Lemma not_ip6 x : has_suffix (x +++ ".in-addr.arpa.") ".ip6.arpa." = false.
Proof.
  apply not_true_is_false. intros [a E]%has_suffix_spec. symmetry in E. apply append_split in E as (m & _ & E); [|cbn; lia].
  do 5 (destruct m as [|? m]; [discriminate E|]). apply (f_equal String.length) in E. rewrite append_length in E. cbn in E. lia.
Qed.

Lemma reverse4 n : 0 <= n < 2^32 -> reverseIP (arpa (Addr4 n)) = Some (Addr4 n).
Proof.
  intros Hn. unfold reverseIP, arpa. rewrite not_ip6, (proj2 (has_suffix_spec _ ".in-addr.arpa.")) by eauto.
  rewrite trim_suffix_app, split_join; [|done|]. 2:{ repeat constructor; apply octet_no_dot. }
  by apply read_addr4.
Qed.

Lemma reverse_arpa a : addr_valid a -> AddrZone a = EmptyString -> reverseIP (arpa a) = Some a.
Proof. destruct a as [n|n z]; cbn; intros Hv Hz; [by apply reverse4|]. subst z. by apply (reverse6 n EmptyString). Qed.

(** * PTR answers *)

Lemma dns_scope_reverse c name s p a : Validate c = Ok tt -> reverseIP name = Some a -> addr_valid a -> AddrZone a = EmptyString ->
  (forall t, t ∈ Scopes c -> in_zone name (Zone t) = false) -> s ∈ Scopes c -> ParsePrefix (Subnet s) = Some p ->
  Contains p a = true -> dns_scope (Scopes c) name = Some (s, true).
Proof.
  intros Hv Hr Ha Hz Hn [i Hi]%list_elem_of_lookup Hp Hc.
  assert (Hs : in_subnet s (AddrString a)) by (exists p, a; by rewrite read_addr).
  assert (Hfirst : forall j t, Scopes c !! j = Some t -> j <> i -> forall q, ParsePrefix (Subnet t) = Some q -> Contains q a = false).
  { intros j t Hj Hne q Hq. apply not_true_is_false. intros Hqa.
    apply (scopes_disjoint c j i t s (AddrString a) Hv Hne Hj Hi). split; [|done]. exists q, a. by rewrite read_addr. }
  clear Hs Hv. revert i Hi Hn Hfirst. induction (Scopes c) as [|t ss IH]; intros i Hi Hn Hfirst; [done|].
  cbn [dns_scope]. rewrite Hn by left. rewrite Hr. destruct i as [|i].
  - injection Hi as ->. by rewrite Hp, Hc.
  - rewrite (IH i Hi); [|intros u Hu; apply Hn; by right|intros j u Hj Hne; apply (Hfirst (S j) u Hj); lia].
    destruct (ParsePrefix (Subnet t)) as [q|] eqn:Eq; [|done]. by rewrite (Hfirst 0%nat t eq_refl ltac:(done) q Eq).
Qed.

(** The live lease of an address in a zone, whichever way the ledger spells it. *)
Definition lease_at (c : Config) (l : ledger) (now : Z) (zone : string) (a : Addr) (b : Binding) : Prop :=
  stored l b /\ bState b = "active" /\ now < End_ b /\ ParseAddr (Address b) = Some a
  /\ exists t, t ∈ Scopes c /\ Zone t = zone /\ bScope b = sID t.

(** The ledger spells the address the way netip prints it. *)
Definition spelled (l : ledger) (a : Addr) : Prop := forall b, stored l b -> ParseAddr (Address b) = Some a -> Address b = AddrString a.

(** IPv4 addresses have no other spelling. *)
Lemma spelled4 l n : spelled l (Addr4 n).
Proof. intros b _. apply canonical4. Qed.

Lemma AddrString_nonempty a : addr_valid a -> AddrZone a = EmptyString -> is_empty (AddrString a) = false.
Proof. intros Hv Hz. pose proof (read_addr a Hv Hz) as E. by destruct (AddrString a). Qed.

Lemma found_reverse R c l now zone name lookup label a b : Validate c = Ok tt -> wf l -> addr_valid a -> AddrZone a = EmptyString ->
  spelled l a -> R (AddrString a) = name ->
  b ∈ List.filter (concerns R now zone name lookup true)
        (flat_map (fun t => DNSBindings now (sID t) label (AddrString a) l) (zone_scopes c zone))
  <-> lease_at c l now zone a b.
Proof.
  intros Hv Hwf Ha Hz Hsp HR. rewrite list_elem_of_In, filter_In, <-list_elem_of_In, elem_of_flat_map. unfold concerns.
  rewrite andb_true_iff, answers_spec, String.eqb_eq. setoid_rewrite elem_of_zone_scopes.
  pose proof (AddrString_nonempty a Ha Hz) as He.
  assert (Hb : forall t, t ∈ Scopes c -> b ∈ DNSBindings now (sID t) label (AddrString a) l
    <-> stored l b /\ bState b = "active" /\ bScope b = sID t /\ Address b = AddrString a /\ now < End_ b).
  { intros t Ht. pose proof (dns_exact l now (sID t) EmptyString b Hwf (scope_no_slash c t Hv Ht) eq_refl) as [_ H].
    specialize (H (AddrString a) He). unfold DNSBindings in *. rewrite He in *. exact H. }
  split.
  - intros [(t & [Ht Hzt] & H%Hb) _]; [|done]. destruct H as (H1 & H2 & H3 & H4 & H5). split_and!; eauto. rewrite H4. by apply read_addr.
  - intros (H1 & H2 & H3 & H4%Hsp & t & Ht & Hzt & E); [|done]. split; [|by rewrite H4]. exists t. split; [done|]. by apply Hb.
Qed.

Lemma lease_records_reverse now q owner b rr : rr ∈ lease_records now q true owner b <->
  qType q = TypePTR /\ rr = mkRR (qName q) TypePTR (lease_ttl now b) (PTR owner).
Proof.
  unfold lease_records. cbn [andb negb]. assert (Hn : forall o : option Z, match o with Some _ => [] | None => [] end = @nil RR) by (by intros []).
  rewrite Hn, app_nil_r. destruct (Z.eqb_spec (qType q) TypePTR) as [->|Hne].
  - rewrite list_elem_of_singleton. naive_solver.
  - rewrite elem_of_nil. naive_solver.
Qed.

(** The answer to a question for the arpa name of an address. *)
Definition reverse_message (now : Z) (c : Config) (l : ledger) (q : Question) (zone : string) (a : Addr) (m : Msg) : Prop :=
  Authoritative m = true
  /\ (forall rr, rr ∈ Answer m <-> qType q = TypePTR /\ exists b, lease_at c l now zone a b
       /\ rr = mkRR (qName q) TypePTR (Z.min 30 (End_ b - now)) (PTR (Name b +++ "." +++ zone +++ ".")))
  /\ (Rcode m = RcodeNameError <-> forall b, ~ lease_at c l now zone a b)
  /\ (Rcode m = 0 \/ Rcode m = RcodeNameError)
  /\ Authority m = (if Answer m is [] then [soa_record q zone true (Revision l)] else []).

Lemma reverse_answered ReverseAddr now c l q s p a :
  (forall a, addr_valid a -> AddrZone a = EmptyString -> Is4In6 a = false -> ReverseAddr (AddrString a) = arpa a) ->
  Validate c = Ok tt -> wf l -> s ∈ Scopes c -> ParsePrefix (Subnet s) = Some p -> Contains p a = true ->
  addr_valid a -> AddrZone a = EmptyString -> Is4In6 a = false -> spelled l a ->
  qClass q = ClassINET -> to_lower (qName q) = arpa a -> (forall t, t ∈ Scopes c -> in_zone (arpa a) (Zone t) = false) ->
  exists m, ServeDNS ReverseAddr now c l [q] = Answered m /\ reverse_message now c l q (Zone s) a m.
Proof.
  intros Hlaw Hv Hwf Hs Hp Hc Ha Hz H4 Hsp Hq En Hzone. pose proof (reverse_arpa a Ha Hz) as Hr.
  unfold ServeDNS. rewrite En, (dns_scope_reverse c (arpa a) s p a), Hq by done. cbn [Z.eqb negb Pos.eqb].
  eexists. split; [reflexivity|]. unfold reverse_message, answer. rewrite En, Hr. cbn zeta.
  set (mine := List.filter _ _).
  assert (Hm : forall b, b ∈ mine <-> lease_at c l now (Zone s) a b).
  { intros b. apply found_reverse; auto. }
  pose proof (Hzone s Hs) as Hns. unfold in_zone in Hns. apply orb_false_iff in Hns as [Ha1 Ha2]. rewrite Ha1.
  assert ((arpa a =?s ("ns." +++ Zone s +++ ".")) = false) as ->.
  { apply String.eqb_neq. intros E. assert (has_suffix (arpa a) ("." +++ Zone s +++ ".") = true); [|congruence].
    apply has_suffix_spec. by exists "ns". }
  cbn [andb orb app Authoritative Rcode Answer Authority]. rewrite !app_nil_r. split; [done|].
  assert (Hne : mine = [] <-> forall b, ~ lease_at c l now (Zone s) a b).
  { setoid_rewrite <-Hm. split; [intros -> b; apply not_elem_of_nil|]. intros Hb. destruct mine as [|b bs]; [done|]. exfalso. apply (Hb b). left. }
  set (records := flat_map _ mine).
  split_and!.
  - intros rr. unfold records. rewrite elem_of_flat_map. setoid_rewrite Hm. setoid_rewrite lease_records_reverse. unfold lease_ttl. naive_solver.
  - rewrite <-Hne. destruct mine; cbn; naive_solver.
  - destruct mine; cbn; auto.
  - by destruct records.
Qed.

(** C20: Reverse DNS answers are the leases.  Take an accepted configuration, a well-formed ledger and
    an address of a served subnet (without a zone, and not an IPv4 address in IPv6 form) that the
    ledger, if it has it, spells canonically, as it always does for IPv4; and let no zone of the
    configuration contain arpa names.  Then a question of class IN for the arpa name of the address
    (which reverseIP reads back, for IPv4 and IPv6) is answered with authority: the records are
    exactly the name, in the scope's zone, of the live lease of that address when a PTR record is
    asked for, and none otherwise; it is a name error exactly when nobody holds the address, and
    otherwise a success; and an empty answer, and no other, carries the start of authority.  An
    IPv6 lease that a reservation spells otherwise is not found (capitals_have_no_name). *)
Theorem dns_reverse_exact ReverseAddr now c l q s p a :
  (forall a, addr_valid a -> AddrZone a = EmptyString -> Is4In6 a = false -> ReverseAddr (AddrString a) = arpa a) ->
  Validate c = Ok tt -> wf l -> s ∈ Scopes c -> ParsePrefix (Subnet s) = Some p -> Contains p a = true ->
  addr_valid a -> AddrZone a = EmptyString -> Is4In6 a = false -> spelled l a ->
  qClass q = ClassINET -> to_lower (qName q) = arpa a -> (forall t, t ∈ Scopes c -> in_zone (arpa a) (Zone t) = false) ->
  exists m, ServeDNS ReverseAddr now c l [q] = Answered m /\ reverse_message now c l q (Zone s) a m.
Proof. apply reverse_answered. Qed.
