(* ===== verification/Convert.v ===== *)
(** Taking over a dnsmasq configuration: its includes (convert.go, FlattenDNSmasq), the options it
    hands out (dnsmasq_options.go), the comparison of a target with it (legacy.go) and the
    conversion into a target (convert.go).

    The files, the addresses of the interfaces, and the order in which Go visits a map are
    parameters.  Texts are ASCII. *)

From stdpp Require Import pretty.
From S2P Require Import Prelude NetAddr Ifupdown Config Allocate Delegate Dnsmasq.
From Stdlib Require Import Ascii SpecFloat.
Local Open Scope Z_scope.

(** * time.ParseDuration *)

Fixpoint leadingInt (x : Z) (l : list ascii) : option (Z * list ascii) :=
  match l with
  | c :: l' => if is_digit c then
                 if 2^63 / 10 <? x then None
                 else let y := x * 10 + digit_val c in if 2^63 <? y then None else leadingInt y l'
               else Some (x, l)
  | [] => Some (x, [])
  end.

(** The digits of a fraction, their scale, and the rest; digits that do not fit are skipped. *)
Fixpoint leadingFraction (x scale : Z) (over : bool) (l : list ascii) : Z * Z * list ascii :=
  match l with
  | c :: l' => if is_digit c then
                 let y := x * 10 + digit_val c in
                 if over || ((2^63 - 1) / 10 <? x) || (2^63 <? y) then leadingFraction x scale true l'
                 else leadingFraction y (scale * 10) false l'
               else (x, scale, l)
  | [] => (x, scale, [])
  end.

Definition float64 (n : Z) : spec_float := binary_normalize 53 1024 n 0 false.
Definition uint64_of (f : spec_float) : Z :=
  match f with
  | S754_finite false m e => if 0 <=? e then Zpos m * 2^e else Zpos m / 2^(- e)
  | _ => 0
  end.

(** uint64(float64(f) * (float64(unit) / scale)) *)
Definition fraction_of (f unit_ scale : Z) : Z :=
  uint64_of (SFmul 53 1024 (float64 f) (SFdiv 53 1024 (float64 unit_) (float64 scale))).

Definition duration_unit (u : string) : option Z :=
  if u =?s "ns" then Some 1
  else if (u =?s "us") || (u =?s String "194" (String "181" "s")) || (u =?s String "206" (String "188" "s")) then Some 1000
  else if u =?s "ms" then Some (10^6)
  else if u =?s "s" then Some (10^9)
  else if u =?s "m" then Some (60 * 10^9)
  else if u =?s "h" then Some (3600 * 10^9)
  else None.

Definition dot_or_digit (c : ascii) : bool := Ascii.eqb c "." || is_digit c.

(** The unit in front, and the rest. *)
Fixpoint take_unit (l : list ascii) : list ascii * list ascii :=
  match l with
  | c :: l' => if dot_or_digit c then ([], l) else let '(u, r) := take_unit l' in (c :: u, r)
  | [] => ([], [])
  end.

(** One number with its unit. *)
Definition duration_part (l : list ascii) : option (Z * list ascii) :=
  match l with
  | [] => None
  | c :: _ =>
    if negb (dot_or_digit c) then None else
    '(v, l1) ← leadingInt 0 l;
    let pre := negb (length l1 =? length l)%nat in
    let '(f, scale, post, l2) :=
      match l1 with
      | c1 :: l1' => if Ascii.eqb c1 "." then
                       let '(f, scale, r) := leadingFraction 0 1 false l1' in (f, scale, negb (length r =? length l1')%nat, r)
                     else (0, 1, false, l1)
      | [] => (0, 1, false, l1)
      end in
    if negb pre && negb post then None else
    let '(u, l3) := take_unit l2 in
    unit_ ← duration_unit (string_of_chars u);
    if 2^63 / unit_ <? v then None else
    let v1 := v * unit_ in
    let v2 := if 0 <? f then v1 + fraction_of f unit_ scale else v1 in
    if 2^63 <? v2 then None else Some (v2, l3)
  end.

Fixpoint duration_parts (fuel : nat) (d : Z) (l : list ascii) : option Z :=
  match l, fuel with
  | [], _ => Some d
  | _, O => None
  | _, S fuel' => '(v, l') ← duration_part l; if 2^63 <? d + v then None else duration_parts fuel' (d + v) l'
  end.

(** Nanoseconds; each round takes a character at least, so the length is fuel enough. *)
Definition ParseDuration (s : string) : option Z :=
  let '(neg, l) :=
    match string_chars s with
    | c :: l' => if Ascii.eqb c "-" then (true, l') else if Ascii.eqb c "+" then (false, l') else (false, c :: l')
    | [] => (false, [])
    end in
  if string_of_chars l =?s "0" then Some 0
  else match l with
       | [] => None
       | _ => d ← duration_parts (length l) 0 l;
              if neg : bool then Some (- d) else if 2^63 - 1 <? d then None else Some d
       end.

(** * Lines *)

Fixpoint after_char (sep : ascii) (s : string) : string :=
  match s with
  | EmptyString => EmptyString
  | String c s' => if Ascii.eqb c sep then s' else after_char sep s'
  end.

(** A line without its comment, as key and value. *)
Definition bare (line : string) : string := trim_space (before_char "#" line).
Definition directive (line : string) : string * string := (before_char "=" (bare line), after_char "=" (bare line)).

Definition lines_of (text : string) : list string := split_char "010" text.

(** * FlattenDNSmasq *)

Section Flatten.
Context (ReadFile : string -> result string string) (ListDir : string -> result string (list string)).

(** A file of a directory that is not read. *)
Definition skipped (exts : list string) (f : string) : bool :=
  let base := Base f in
  has_prefix base "." || has_suffix base "~" || (has_prefix base "#" && has_suffix base "#")
  || existsb (fun ext => has_suffix base (trim_prefix (trim_space ext) "*")) exts.

(** The files read and the lines written so far. *)
Definition walked : Type := list string * list string.

Definition walk_dir (walk : string -> walked -> result string walked) (value : string) (st : walked) : result string walked :=
  match split_char "," value with
  | [] => Ok st
  | dir :: exts =>
    files ← ListDir dir;
    fold_m (fun st f => if skipped exts f then Ok st else walk f st) st (sort_strings files)
  end.

Definition walk_line (walk : string -> walked -> result string walked) (st : walked) (line : string) : result string walked :=
  let '(key, value) := directive line in
  if key =?s "conf-file" then walk value st
  else if key =?s "conf-dir" then walk_dir walk value st
  else Ok (fst st, snd st ++ [line]).

(** [k]: how many levels of includes are left. *)
Fixpoint walk (k : nat) (p : string) (st : walked) : result string walked :=
  match k with
  | O => Err ("dnsmasq includes nest deeper than 5 at " +++ p)
  | S k' =>
    let p' := Clean p in
    fail_if (mem_str p' (fst st)) ("dnsmasq include cycle or repeat at " +++ p');;
    text ← ReadFile p';
    fold_m (walk_line (walk k')) (fst st ++ [p'], snd st) (lines_of text)
  end.

Definition FlattenDNSmasq (path : string) : result string string :=
  st ← walk 6 path ([], []);
  Ok (join newline (snd st)).

End Flatten.

(** * dnsmasq_options.go *)

Definition knownDHCPOptions : list (string * (Z * string)) :=
  [("router", (3, "ips")); ("dns-server", (6, "ips")); ("time-server", (4, "ips")); ("log-server", (7, "ips"));
   ("lpr-server", (9, "ips")); ("mtu", (26, "u16")); ("ntp-server", (42, "ips")); ("netbios-ns", (44, "ips"))].

Record dmOption := mkDmOption { oTag : string; oCode : Z; oType : string; oVals : list string }.

Definition validateAny (o : DHCPOption) : result string unit :=
  if (Code o =? 3) || (Code o =? 6) then
    for_each (fun v => check (match ParseAddr v with Some a => Is4 a | None => false end)
                         ("option " +++ pretty (Code o) +++ ": " +++ quote v +++ " is not an IPv4 address")) (Value o)
  else validate_option o.

Definition option_kind (key : string) : result string (Z * string) :=
  if has_prefix key "option:" then
    match find (fun k => fst k =?s trim_prefix key "option:") knownDHCPOptions with
    | Some k => Ok (snd k)
    | None => Err ("option " +++ key +++ " is not one this converter carries over")
    end
  else match ParseInt64 key with
       | None => Err ("unsupported option " +++ quote key)
       | Some n =>
         match find (fun k => fst (snd k) =? n) knownDHCPOptions with
         | Some k => Ok (snd k)
         | None => Err ("option " +++ pretty n +++ " is not one this converter carries over")
         end
       end.

Definition parseDHCPOption (value : string) : result string dmOption :=
  let '(tag, f) :=
    match split_char "," value with
    | f0 :: rest => if has_prefix f0 "tag:" then (trim_prefix f0 "tag:", rest) else (EmptyString, f0 :: rest)
    | [] => (EmptyString, [])
    end in
  match f with
  | key :: v :: vals =>
    k ← option_kind key;
    validateAny (mkOption (fst k) (snd k) (v :: vals));;
    Ok (mkDmOption tag (fst k) (snd k) (v :: vals))
  | _ => Err ("option " +++ quote value +++ " has no value")
  end.

Record scopeSettings := mkSettings { stRouter : string; stDNS : list string; stOthers : list DHCPOption }.

(** The option reaches a range with this tag. *)
Definition reaches (tag : string) (o : dmOption) : bool := is_empty (oTag o) || (oTag o =?s tag).

Definition derive_one (tag : string) (subnet : Prefix) (server : string) (st : scopeSettings) (o : dmOption) : result string scopeSettings :=
  if negb (reaches tag o) then Ok st
  else if oCode o =? 3 then
    let v := hd EmptyString (oVals o) in
    if match ParseAddr v with Some a => Contains subnet a | None => false end then Ok (mkSettings v (stDNS st) (stOthers st))
    else if is_empty (oTag o) then Ok st
    else Err ("tagged router " +++ v +++ " is outside " +++ PrefixString subnet)
  else if oCode o =? 6 then
    Ok (if bool_decide (oVals o = [server]) then st else mkSettings (stRouter st) (oVals o) (stOthers st))
  else if existsb (fun x => Code x =? oCode o) (stOthers st) then Err ("option " +++ pretty (oCode o) +++ " is given twice for one scope")
  else Ok (mkSettings (stRouter st) (stDNS st) (stOthers st ++ [mkOption (oCode o) (oType o) (oVals o)])).

Definition code_le (a b : DHCPOption) : Prop := Code a <= Code b.
#[global] Instance code_le_dec : RelDecision code_le.
Proof. intros a b. unfold code_le. apply _. Defined.

#[global] Instance DHCPOption_eq_dec : EqDecision DHCPOption.
Proof. solve_decision. Defined.

Definition by_code (os : list DHCPOption) : list DHCPOption := merge_sort code_le os.

Definition deriveSettings (opts : list dmOption) (tag : string) (subnet : Prefix) (server : string) : result string scopeSettings :=
  st ← fold_m (derive_one tag subnet server) (mkSettings EmptyString [] []) opts;
  Ok (mkSettings (stRouter st) (stDNS st) (by_code (stOthers st))).

Definition sameOptions (a b : list DHCPOption) : bool := bool_decide (by_code a = by_code b).
Definition sameStrings (a b : list string) : bool := bool_decide (a = b).

Definition contains_text (s sub : string) : bool := (1 <? length (Split s sub))%nat.

(** The tag and the four fields of a range. *)
Definition splitRange (value : string) : result string (string * (string * string * string * string)) :=
  let '(tag, f) :=
    match split_char "," value with
    | f0 :: rest => if has_prefix f0 "set:" then (trim_prefix f0 "set:", rest) else (EmptyString, f0 :: rest)
    | [] => (EmptyString, [])
    end in
  for_each (fun x => fail_if (contains_char ":" x && negb (contains_text x "::")
                              && (has_prefix x "tag:" || has_prefix x "interface:" || has_prefix x "vendor:"))
                       ("range " +++ quote value +++ " matches on " +++ x +++ ", which a scope cannot express")) f;;
  match f with
  | [a; b; mask; life] => Ok (tag, (a, b, mask, life))
  | _ => Err "use [set:tag,]start,end,netmask/prefix,lifetime; static, mode and match-tag ranges need manual conversion"
  end.

(** * ValidateDNSmasqConfig *)

(** IPMask.Size *)
Definition mask_size (m : Z) : Z * Z :=
  match find (fun k => m =? 2^32 - 2^(32 - Z.of_nat k)) (seq 0 33) with
  | Some k => (Z.of_nat k, 32)
  | None => (0, 0)
  end.

Record legacyState := mkLegacyState {
  vInterfaces : list string;
  vDomains : list string;
  vScoped : list (Prefix * string);
  vExcluded : list string;
  vBoot : string * string;
  vRoot : string;
  vOptions : list dmOption;
  vRanges : gmap string string;          (* the scopes with a range, and its tag *)
  vTFTP : option (list string);
  vLease : bool;
  vRA : bool;
}.

Definition add_interface (i : string) (st : legacyState) : legacyState :=
  mkLegacyState (vInterfaces st ++ [i]) (vDomains st) (vScoped st) (vExcluded st) (vBoot st) (vRoot st) (vOptions st) (vRanges st) (vTFTP st) (vLease st) (vRA st).
Definition add_domain (z : string) (st : legacyState) : legacyState :=
  mkLegacyState (vInterfaces st) (vDomains st ++ [z]) (vScoped st) (vExcluded st) (vBoot st) (vRoot st) (vOptions st) (vRanges st) (vTFTP st) (vLease st) (vRA st).
Definition add_scoped (p : Prefix) (z : string) (st : legacyState) : legacyState :=
  mkLegacyState (vInterfaces st) (vDomains st) (List.filter (fun x => negb (bool_decide (fst x = p))) (vScoped st) ++ [(p, z)]) (vExcluded st) (vBoot st) (vRoot st) (vOptions st) (vRanges st) (vTFTP st) (vLease st) (vRA st).
Definition add_excluded (i : string) (st : legacyState) : legacyState :=
  mkLegacyState (vInterfaces st) (vDomains st) (vScoped st) (vExcluded st ++ [i]) (vBoot st) (vRoot st) (vOptions st) (vRanges st) (vTFTP st) (vLease st) (vRA st).
Definition set_boot (b : string * string) (st : legacyState) : legacyState :=
  mkLegacyState (vInterfaces st) (vDomains st) (vScoped st) (vExcluded st) b (vRoot st) (vOptions st) (vRanges st) (vTFTP st) (vLease st) (vRA st).
Definition set_root (r : string) (st : legacyState) : legacyState :=
  mkLegacyState (vInterfaces st) (vDomains st) (vScoped st) (vExcluded st) (vBoot st) r (vOptions st) (vRanges st) (vTFTP st) (vLease st) (vRA st).
Definition add_dm_option (o : dmOption) (st : legacyState) : legacyState :=
  mkLegacyState (vInterfaces st) (vDomains st) (vScoped st) (vExcluded st) (vBoot st) (vRoot st) (vOptions st ++ [o]) (vRanges st) (vTFTP st) (vLease st) (vRA st).
Definition add_range (id tag : string) (st : legacyState) : legacyState :=
  mkLegacyState (vInterfaces st) (vDomains st) (vScoped st) (vExcluded st) (vBoot st) (vRoot st) (vOptions st) (<[id := tag]> (vRanges st)) (vTFTP st) (vLease st) (vRA st).
Definition add_tftp (names : list string) (st : legacyState) : legacyState :=
  mkLegacyState (vInterfaces st) (vDomains st) (vScoped st) (vExcluded st) (vBoot st) (vRoot st) (vOptions st) (vRanges st)
    (Some (default [] (vTFTP st) ++ names)) (vLease st) (vRA st).
Definition set_lease (st : legacyState) : legacyState :=
  mkLegacyState (vInterfaces st) (vDomains st) (vScoped st) (vExcluded st) (vBoot st) (vRoot st) (vOptions st) (vRanges st) (vTFTP st) true (vRA st).
Definition set_ra (st : legacyState) : legacyState :=
  mkLegacyState (vInterfaces st) (vDomains st) (vScoped st) (vExcluded st) (vBoot st) (vRoot st) (vOptions st) (vRanges st) (vTFTP st) (vLease st) true.

Definition no_legacy : legacyState := mkLegacyState [] [] [] [] (EmptyString, EmptyString) EmptyString [] ∅ None false false.

Definition second : Z := 10^9.

(** A range and the scope with its start and end. *)
Definition match_range (s : Scope) (mask life : string) : result string unit :=
  let p := must_prefix (Subnet s) in
  (if Is6 (PAddr p) then
     check (match ParseInt64 mask with Some bits => bits =? PBits p | None => false end) "legacy IPv6 prefix differs"
   else match To4 (ParseIP mask) with
        | None => Err "invalid legacy netmask"
        | Some m => check (bool_decide (mask_size m = (PBits p, 32))) "legacy subnet mask differs"
        end);;
  let duration := match ParseInt64 life with Some _ => life +++ "s" | None => life end in
  check (match ParseDuration duration with Some d => d =? int64 ((LeaseSeconds s * second) mod 2^64) | None => false end)
    "legacy lease lifetime differs or is unsupported".

Definition range_scope (tag : string) (f : string * string * string * string) (acc : legacyState * bool) (s : Scope) :
    result string (legacyState * bool) :=
  let '(a, b, mask, life) := f in
  if (sStart s =?s a) && (sEnd s =?s b) then
    match_range s mask life;;
    Ok (add_range (sID s) tag (fst acc), true)
  else Ok acc.

Definition reserved (c : Config) (mac address name : string) : bool :=
  existsb (fun s => existsb (fun r => (rClient r =?s ("mac:" +++ to_lower mac)) && (rAddress r =?s address)
                                      && (dName (default no_device (find_device c (rDevice r))) =?s name)) (Reservations s)) (Scopes c).

(** The file and the next server of a dhcp-boot line, over what was said before. *)
Definition check_boot (value : string) (old : string * string) : result string (string * string) :=
  let f := split_char "," value in
  let f0 := hd EmptyString f in
  fail_if ((3 <? length f)%nat || is_empty f0 || contains_char ":" f0 && (has_prefix f0 "tag:" || has_prefix f0 "set:"))
    ("unsupported dhcp-boot form " +++ quote value +++ " (tagged or multi-field boot needs manual conversion)");;
  match f with
  | [_; _; next] => Ok (f0, next)
  | [_; next] => if match ParseIP next with Some ip => bool_decide (is_Some (To4 (Some ip))) | None => false end then Ok (f0, next)
                 else Err ("dhcp-boot server name " +++ quote next +++ " is not an address; only an address is supported")
  | _ => Ok (f0, snd old)
  end.

Definition interface_list (value : string) : list string := List.filter (fun i => negb (is_empty i)) (map trim_space (split_char "," value)).

Definition ignored_directives : list string :=
  ["bind-interfaces"; "no-resolv"; "no-hosts"; "log-dhcp"; "log-queries"; "dhcp-authoritative"; "pid-file"; "user"; "group"].

Definition check_domain (value : string) (st : legacyState) : result string legacyState :=
  match split_char "," value with
  | [_] => Ok (add_domain value st)
  | [z; cidr] => match ParsePrefix cidr with
                 | Some p => Ok (add_scoped (Masked p) z st)
                 | None => Err ("scoped domain needs a CIDR, got " +++ quote cidr)
                 end
  | _ => Err ("unsupported domain directive " +++ quote value)
  end.

Definition check_range (c : Config) (value : string) (st : legacyState) : result string legacyState :=
  '(tag, f) ← splitRange value;
  '(st', found) ← fold_m (range_scope tag f) (st, false) (Scopes c);
  check found "dnsmasq range is not represented in target";;
  Ok st'.

Definition check_host (c : Config) (value : string) (st : legacyState) : result string legacyState :=
  match split_char "," value with
  | [mac; address; name] => check (reserved c mac address name) "reservation is absent from target";; Ok st
  | _ => Err "unsupported reservation; use MAC,address,name"
  end.

(** One line of the configuration. *)
Definition check_line (c : Config) (leasePath : string) (st : legacyState) (line : string) : result string legacyState :=
  if is_empty (bare line) then Ok st else
  let '(key, value) := directive line in
  if key =?s "interface" then Ok (add_interface value st)
  else if key =?s "domain" then check_domain value st
  else if (key =?s "except-interface") || (key =?s "no-dhcp-interface") then Ok (add_excluded value st)
  else if key =?s "dhcp-leasefile" then fail_if (negb (value =?s leasePath)) "lease path differs from config";; Ok (set_lease st)
  else if key =?s "dhcp-range" then check_range c value st
  else if key =?s "dhcp-option" then o ← parseDHCPOption value; Ok (add_dm_option o st)
  else if key =?s "dhcp-host" then check_host c value st
  else if key =?s "dhcp-boot" then b ← check_boot value (vBoot st); Ok (set_boot b st)
  else if key =?s "enable-tftp" then Ok (add_tftp (interface_list value) st)
  else if key =?s "tftp-root" then Ok (set_root value st)
  else if key =?s "enable-ra" then Ok (set_ra st)
  else if mem_str key ignored_directives then Ok st
  else Err ("dnsmasq directive " +++ quote key +++ " needs explicit conversion before takeover").

(** What the options and the boot line mean for an IPv4 scope. *)
Definition check_settings (st : legacyState) (s : Scope) : result string unit :=
  if scope_is6 s || negb (Enabled s) then Ok tt else
  set_ ← deriveSettings (vOptions st) (lookup_default (vRanges st) (sID s) EmptyString) (must_prefix (Subnet s)) (sServer s);
  let wantRouter := if is_empty (stRouter set_) then sServer s else stRouter set_ in
  fail_if (negb (Router s =?s wantRouter) || negb (sameStrings (DNSServers s) (stDNS set_)) || negb (sameOptions (Options s) (stOthers set_)))
    ("scope " +++ sID s +++ ": router, DNS servers or options differ from the legacy dhcp-option lines that reach its range");;
  match Boot s with
  | None => check (is_empty (fst (vBoot st))) ("scope " +++ sID s +++ ": network boot in the target does not match the legacy dhcp-boot")
  | Some boot =>
    fail_if (is_empty (fst (vBoot st))) ("scope " +++ sID s +++ ": network boot in the target does not match the legacy dhcp-boot");;
    let next := if is_empty (NextServer boot) then sServer s else NextServer boot in
    let legacyNext := if is_empty (snd (vBoot st)) then sServer s else snd (vBoot st) in
    fail_if (negb (File boot =?s fst (vBoot st)) || negb (next =?s legacyNext))
      ("scope " +++ sID s +++ ": boot file or next server differs from the legacy dhcp-boot")
  end.

Definition check_place (st : legacyState) (s : Scope) : result string unit :=
  fail_if (scope_is6 s && negb (Bool.eqb (bool_decide (is_Some (RA s))) (vRA st))) "target must preserve explicit RA enablement";;
  let zoneOK := mem_str (Zone s) (vDomains st)
                || existsb (fun x => (snd x =?s Zone s) && Overlaps (fst x) (must_prefix (Subnet s))) (vScoped st) in
  fail_if (mem_str (Interface s) (vExcluded st))
    ("scope " +++ sID s +++ " is on interface " +++ Interface s +++ ", which the legacy configuration excludes from DHCP");;
  fail_if (negb (Enabled s) || negb (bool_decide (is_Some (vRanges st !! sID s))) || negb (mem_str (Interface s) (vInterfaces st)) || negb zoneOK)
    ("scope " +++ sID s +++ " does not match explicit legacy range/interface/domain").

Definition same_tftp (t : option TFTPConfig) (root : string) (ifaces : option (list string)) : bool :=
  match t, ifaces with
  | None, None => true
  | Some t, Some names => (Root t =?s root) && sameStrings (tInterfaces t) names
  | _, _ => false
  end.

Definition ValidateDNSmasqConfig (c : Config) (text leasePath : string) : result string unit :=
  st ← fold_m (check_line c leasePath) no_legacy (lines_of text);
  check (vLease st) "explicit dhcp-leasefile required";;
  fail_if (bool_decide (is_Some (vTFTP st)) && is_empty (vRoot st)) "enable-tftp without tftp-root serves the whole filesystem; set tftp-root";;
  check (same_tftp (TFTP c) (vRoot st) (vTFTP st)) "target TFTP does not match the legacy enable-tftp/tftp-root";;
  for_each (check_settings st) (Scopes c);;
  for_each (check_place st) (Scopes c).

(** * SystemDNSmasq.Validate *)

Definition unit_char (c : ascii) : bool := is_alnum c || Ascii.eqb c "_" || Ascii.eqb c "." || Ascii.eqb c "-".

(** ^dnsmasq(?:@[a-zA-Z0-9_.-]+)?\.service$ *)
Definition dnsmasq_unit (u : string) : bool :=
  match strip_prefix "dnsmasq" u with
  | None => false
  | Some r => has_suffix r ".service"
              && match trim_suffix r ".service" with
                 | EmptyString => true
                 | String c name => Ascii.eqb c "@" && negb (is_empty name) && str_forallb unit_char name
                 end
  end.

(** RE2's \s *)
Definition re_space (c : ascii) : bool :=
  Ascii.eqb c "009" || Ascii.eqb c "010" || Ascii.eqb c "012" || Ascii.eqb c "013" || Ascii.eqb c " ".

(** (?:=|\s)PATH(?:\s|;|$) somewhere in a text. *)
Definition path_here (path rest : string) : bool :=
  match strip_prefix path rest with
  | Some EmptyString => true
  | Some (String c _) => re_space c || Ascii.eqb c ";"
  | None => false
  end.
Fixpoint names_path (path text : string) : bool :=
  match text with
  | EmptyString => false
  | String c rest => (Ascii.eqb c "=" || re_space c) && path_here path rest || names_path path rest
  end.

Section Legacy.
Context (ReadFile : string -> result string string) (ListDir : string -> result string (list string)).
(** Whether a path is a regular file, and the command line systemd reports. *)
Context (Lstat : string -> result string bool) (execStart : string -> result string string).

Definition checked_path (p : string) : result string unit :=
  fail_if (negb (IsAbs p) || negb (Clean p =?s p)) "legacy paths must be absolute";;
  regular ← Lstat p;
  check regular "legacy path must be a regular file".

Definition SystemDNSmasq_Validate (l : LegacySpec) (c : Config) : result string unit :=
  check (dnsmasq_unit (Unit l)) "expected dnsmasq service unit";;
  for_each checked_path [ConfigPath l; LeasePath l];;
  command ← execStart (Unit l);
  fail_if (negb (contains_text command "dnsmasq") || negb (names_path (ConfigPath l) command))
    "unit ExecStart must explicitly name the checked dnsmasq config";;
  text ← FlattenDNSmasq ReadFile ListDir (ConfigPath l);
  ValidateDNSmasqConfig c text (LeasePath l).

End Legacy.

(** * ConvertDNSmasq *)

Definition parseDNSmasqDuration (s : string) : option Z :=
  if s =?s "infinite" then None else
  let '(mult, digits) :=
    match rev (string_chars s) with
    | c :: r =>
      let rest := string_of_chars (rev r) in
      if Ascii.eqb c "s" then (1, rest) else if Ascii.eqb c "m" then (60, rest) else if Ascii.eqb c "h" then (3600, rest)
      else if Ascii.eqb c "d" then (86400, rest) else if Ascii.eqb c "w" then (604800, rest) else (1, s)
    | [] => (1, s)
    end in
  v ← ParseInt64 digits;
  if v <=? 0 then None else Some (int64 ((v * mult) mod 2^64)).

Record ConvertPlan := mkPlan { Target : Config; Legacy : LegacySpec; Warnings : list string }.

(** What the lines of the configuration say. *)
Record converting := mkConverting {
  cInterfaces : list string;
  cRanges : list (string * (string * string * string * string));
  cHosts : list (string * string * string);
  cOptions : list dmOption;
  cZone : string;
  cBoot : string * string;
  cRoot : string;
  cTFTP : option (list string);
  cZoneFor : gmap string string;
  cRA : bool;
  cLeasePath : string;
  cWarnings : list string;
}.
Definition nothing_read : converting := mkConverting [] [] [] [] EmptyString (EmptyString, EmptyString) EmptyString None ∅ false EmptyString [].

Definition with_interfaces (is_ ws : list string) (c : converting) : converting :=
  mkConverting is_ (cRanges c) (cHosts c) (cOptions c) (cZone c) (cBoot c) (cRoot c) (cTFTP c) (cZoneFor c) (cRA c) (cLeasePath c) ws.
Definition with_ranges r (c : converting) : converting :=
  mkConverting (cInterfaces c) r (cHosts c) (cOptions c) (cZone c) (cBoot c) (cRoot c) (cTFTP c) (cZoneFor c) (cRA c) (cLeasePath c) (cWarnings c).
Definition with_hosts h (c : converting) : converting :=
  mkConverting (cInterfaces c) (cRanges c) h (cOptions c) (cZone c) (cBoot c) (cRoot c) (cTFTP c) (cZoneFor c) (cRA c) (cLeasePath c) (cWarnings c).
Definition with_options o (c : converting) : converting :=
  mkConverting (cInterfaces c) (cRanges c) (cHosts c) o (cZone c) (cBoot c) (cRoot c) (cTFTP c) (cZoneFor c) (cRA c) (cLeasePath c) (cWarnings c).
Definition with_zone z m (c : converting) : converting :=
  mkConverting (cInterfaces c) (cRanges c) (cHosts c) (cOptions c) z (cBoot c) (cRoot c) (cTFTP c) m (cRA c) (cLeasePath c) (cWarnings c).
Definition with_boot b (c : converting) : converting :=
  mkConverting (cInterfaces c) (cRanges c) (cHosts c) (cOptions c) (cZone c) b (cRoot c) (cTFTP c) (cZoneFor c) (cRA c) (cLeasePath c) (cWarnings c).
Definition with_tftp r t (c : converting) : converting :=
  mkConverting (cInterfaces c) (cRanges c) (cHosts c) (cOptions c) (cZone c) (cBoot c) r t (cZoneFor c) (cRA c) (cLeasePath c) (cWarnings c).
Definition with_ra (c : converting) : converting :=
  mkConverting (cInterfaces c) (cRanges c) (cHosts c) (cOptions c) (cZone c) (cBoot c) (cRoot c) (cTFTP c) (cZoneFor c) true (cLeasePath c) (cWarnings c).
Definition with_lease_path p (c : converting) : converting :=
  mkConverting (cInterfaces c) (cRanges c) (cHosts c) (cOptions c) (cZone c) (cBoot c) (cRoot c) (cTFTP c) (cZoneFor c) (cRA c) p (cWarnings c).

Definition removeString (l : list string) (v : string) : list string := List.filter (fun s => negb (s =?s v)) l.

Definition bad (key value why : string) : string :=
  "unsupported dnsmasq directive " +++ quote (key +++ "=" +++ value) +++ " (" +++ why +++ "); convert it by hand or remove it".
Definition or_bad {A} (key value : string) (r : result string A) : result string A :=
  match r with Ok a => Ok a | Err e => Err (bad key value e) end.

Definition read_domain (value : string) (c : converting) : result string converting :=
  match split_char "," value with
  | [z] => Ok (with_zone z (cZoneFor c) c)
  | [z; cidr] => Ok (with_zone (cZone c) (<[cidr := z]> (cZoneFor c)) c)
  | _ => Err (bad "domain" value "domain with range is not supported")
  end.

Definition read_boot (value : string) (old : string * string) : result string (string * string) :=
  let f := split_char "," value in
  let f0 := hd EmptyString f in
  fail_if ((3 <? length f)%nat || is_empty f0 || has_prefix f0 "tag:" || has_prefix f0 "set:")
    (bad "dhcp-boot" value "tagged or multi-field boot needs manual conversion");;
  Ok (f0, match f with [_; _; next] => next | [_; next] => next | _ => snd old end).

Definition read_host (value : string) : result string (string * string * string) :=
  match split_char "," value with
  | [mac; address; name] => Ok (mac, address, name)
  | _ => Err (bad "dhcp-host" value "use MAC,address,name")
  end.

Definition convert_line (c : converting) (numbered : nat * string) : result string converting :=
  let line := snd numbered in
  if is_empty (bare line) then Ok c else
  let '(key, value) := directive line in
  if key =?s "interface" then Ok (with_interfaces (cInterfaces c ++ [value]) (cWarnings c) c)
  else if (key =?s "except-interface") || (key =?s "no-dhcp-interface") then
    Ok (with_interfaces (removeString (cInterfaces c) value)
          (cWarnings c ++ [key +++ "=" +++ value +++ " excludes that interface from DHCP; no scope is generated for it"]) c)
  else if key =?s "domain" then read_domain value c
  else if key =?s "dhcp-leasefile" then Ok (with_lease_path value c)
  else if key =?s "dhcp-range" then r ← or_bad key value (splitRange value); Ok (with_ranges (cRanges c ++ [r]) c)
  else if key =?s "dhcp-option" then o ← or_bad key value (parseDHCPOption value); Ok (with_options (cOptions c ++ [o]) c)
  else if key =?s "dhcp-host" then h ← read_host value; Ok (with_hosts (cHosts c ++ [h]) c)
  else if key =?s "dhcp-boot" then b ← read_boot value (cBoot c); Ok (with_boot b c)
  else if key =?s "enable-tftp" then Ok (with_tftp (cRoot c) (Some (default [] (cTFTP c) ++ interface_list value)) c)
  else if key =?s "tftp-root" then Ok (with_tftp value (cTFTP c) c)
  else if key =?s "enable-ra" then Ok (with_ra c)
  else if mem_str key ignored_directives then Ok c
  else Err ("line " +++ pretty (Z.of_nat (fst numbered) + 1) +++ ": dnsmasq directive " +++ quote key +++ " needs explicit conversion before takeover").

Definition without_zone (a : Addr) : Addr := match a with Addr4 n => Addr4 n | Addr6 n _ => Addr6 n EmptyString end.

(** PrefixFrom(a, bits).Masked(); [None] is the invalid prefix, which contains nothing. *)
Definition prefix_from (a : Addr) (bits : Z) : option Prefix :=
  if (0 <=? bits) && (bits <=? BitLen a) then Some (Masked (mkPrefix (without_zone a) bits)) else None.

Definition range_prefix (start : Addr) (mask : string) : result string (option Prefix) :=
  if Is4 start then
    match To4 (ParseIP mask) with
    | Some m => Ok (prefix_from start (fst (mask_size m)))
    | None => Err ("invalid netmask " +++ quote mask)
    end
  else match ParseInt64 mask with
       | Some bits => Ok (prefix_from start bits)
       | None => Err ("invalid IPv6 prefix length " +++ quote mask)
       end.

Section Convert.
Context (ReadFile : string -> result string string) (ListDir : string -> result string (list string)).
Context (Addrs : string -> result string (list Prefix)) (iterate : gmap string string -> list (string * string)).

(** The interface and address that serve a prefix: the last of those listed. *)
Definition find_server (start : Addr) (prefix : option Prefix) (found : option (string * Addr)) (name : string) :
    result string (option (string * Addr)) :=
  addrs ← Addrs name;
  Ok (fold_left (fun acc a => if Bool.eqb (Is4 (PAddr a)) (Is4 start) && match prefix with Some p => Contains p (PAddr a) | None => false end
                                 && negb (IsLinkLocalUnicast (PAddr a))
                              then Some (name, PAddr a) else acc) addrs found).

Definition zone_of (c : converting) (prefix : Prefix) : string :=
  fold_left (fun z x => match ParsePrefix (fst x) with
                        | Some p => if Overlaps p prefix then snd x else z
                        | None => z
                        end) (iterate (cZoneFor c)) (cZone c).

(** A dhcp-host that lies in the prefix: the devices and the reservations with it. *)
Definition place_host (prefix : Prefix) (acc : list DeviceConfig * list Reservation) (h : string * string * string) :
    result string (list DeviceConfig * list Reservation) :=
  let '(mac, address, name) := h in
  match ParseAddr address with
  | Some a =>
    if Contains prefix a then
      match ParseMAC mac with
      | None => Err ("dhcp-host: invalid MAC " +++ quote mac)
      | Some hw =>
        check (labelPattern name) ("dhcp-host: name " +++ quote name +++ " is not a valid device label");;
        Ok (if existsb (fun d => dID d =?s name) (fst acc) then fst acc else fst acc ++ [mkDevice [] [] name name EmptyString],
            snd acc ++ [mkReservation ("mac:" +++ MACString hw) (AddrString a) name])
      end
    else Ok acc
  | None => Ok acc
  end.

(** The settings of an IPv4 scope, or of an IPv6 one. *)
Definition family_settings (c : converting) (tag : string) (start : Addr) (prefix : Prefix) (server : string) (life : Z) (s : Scope) : result string Scope :=
  if Is4 start then
    st ← deriveSettings (cOptions c) tag prefix server;
    Ok (mkScope (sID s) (Interface s) (Subnet s) (sServer s) (sStart s) (sEnd s) (if is_empty (stRouter st) then server else stRouter st) (Zone s)
          (LeaseSeconds s) (Enabled s) (Reservations s) 0 None None
          (if is_empty (fst (cBoot c)) then None
           else Some (mkBoot false (fst (cBoot c)) (if snd (cBoot c) =?s server then EmptyString else snd (cBoot c))))
          (stDNS st) (stOthers st) None)
  else Ok (mkScope (sID s) (Interface s) (Subnet s) (sServer s) (sStart s) (sEnd s) EmptyString (Zone s)
             (LeaseSeconds s) (Enabled s) (Reservations s) life None (if cRA c then Some (mkRA false 1800 30) else None) None [] [] None).

Definition ra_warning : string :=
  "enable-ra is carried over with interval 30s and router lifetime 1800s; check them against the network, and IPv6 forwarding must be on".

(** The scope of one range; the devices so far, and the warnings. *)
Definition convert_range (c : converting) (acc : list Scope * list DeviceConfig * list string) (rg : string * (string * string * string * string)) :
    result string (list Scope * list DeviceConfig * list string) :=
  let '(scopes, devices, warnings) := acc in
  let '(tag, (a, b, mask, lifetime)) := rg in
  match ParseAddr a, ParseAddr b with
  | Some start, Some end_ =>
    prefix ← range_prefix start mask;
    match parseDNSmasqDuration lifetime with
    | None => Err ("range " +++ a +++ ".." +++ b +++ ": unsupported lease lifetime")
    | Some life =>
      found ← fold_m (find_server start prefix) None (cInterfaces c);
      match found, prefix with
      | Some (iface, server), Some p =>
        let zone := zone_of c p in
        fail_if (is_empty zone) ("range " +++ a +++ ".." +++ b +++ ": no domain= applies; scopes need a local zone");;
        let id := if Is4 start then iface else iface +++ "-6" in
        fail_if (existsb (fun s => sID s =?s id) scopes) ("two ranges on " +++ iface +++ ": converted scopes must be one per interface and family");;
        let s := mkScope id iface (PrefixString p) (AddrString server) (AddrString start) (AddrString end_) EmptyString zone life true []
                   0 None None None [] [] None in
        s1 ← family_settings c tag start p (AddrString server) life s;
        '(devices', reservations) ← fold_m (place_host p) (devices, []) (cHosts c);
        let s2 := mkScope (sID s1) (Interface s1) (Subnet s1) (sServer s1) (sStart s1) (sEnd s1) (Router s1) (Zone s1) (LeaseSeconds s1)
                    (Enabled s1) reservations (PreferredSeconds s1) (Relay s1) (RA s1) (Boot s1) (DNSServers s1) (Options s1) (PD s1) in
        Ok (scopes ++ [s2], devices', if negb (Is4 start) && cRA c then warnings ++ [ra_warning] else warnings)
      | _, _ => Err ("range " +++ a +++ ".." +++ b +++ ": no listed interface has an address inside (add interface= or the address)")
      end
    end
  | _, _ => Err ("invalid dhcp-range addresses " +++ a +++ ".." +++ b)
  end.

Definition ConvertDNSmasq (path unit_ : string) : result string ConvertPlan :=
  text ← FlattenDNSmasq ReadFile ListDir path;
  c ← fold_m convert_line nothing_read (imap pair (lines_of text));
  fail_if (is_empty (cLeasePath c)) "explicit dhcp-leasefile required";;
  fail_if (match cRanges c with [] => true | _ => false end) "no dhcp-range: nothing to take over";;
  '(scopes, devices, warnings) ← fold_m (convert_range c) ([], [], cWarnings c) (cRanges c);
  fail_if (bool_decide (is_Some (cTFTP c)) && is_empty (cRoot c)) "enable-tftp without tftp-root serves the whole filesystem; set tftp-root";;
  let target := mkConfig scopes devices (mkTFTP (cRoot c) <$> cTFTP c) in
  for_each (fun h => check (match ParseAddr (snd (fst h)) with
                            | Some a => existsb (fun s => Contains (must_prefix (Subnet s)) a) scopes
                            | None => false
                            end) ("dhcp-host " +++ fst (fst h) +++ "," +++ snd (fst h) +++ "," +++ snd h +++ " lies outside every converted range"))
    (cHosts c);;
  (match Validate target with Ok _ => Ok tt | Err e => Err ("converted target invalid: " +++ e) end);;
  (match ValidateDNSmasqConfig target text (cLeasePath c) with
   | Ok _ => Ok tt
   | Err e => Err ("converted target does not reproduce the legacy behaviour: " +++ e)
   end);;
  Ok (mkPlan target (mkSpec unit_ path (cLeasePath c)) warnings).

End Convert.
