(* ===== verification/ConvertInv.v ===== *)
(** What a validated takeover rests on: the text that is compared is the one dnsmasq would read,
    file by file; a target that is accepted accounts for every line of it; and the plan of a
    conversion is such a target. *)

From stdpp Require Import pretty.
From S2P Require Import Prelude NetAddr Ifupdown Config ConfigInv Allocate Delegate Dnsmasq LeaseText DnsInv Convert.
From Stdlib Require Import Ascii.
Local Open Scope Z_scope.

(** * Includes *)

Section Flat.
Context (ReadFile : string -> result string string) (ListDir : string -> result string (list string)).

(** The files and the lines of a list of things, one after the other. *)
Fixpoint gather {A} (g : A -> result string walked) (l : list A) : result string walked :=
  match l with
  | [] => Ok ([], [])
  | a :: l' => '(f1, o1) ← g a; '(f2, o2) ← gather g l'; Ok (f1 ++ f2, o1 ++ o2)
  end.

Definition expand_line (expand : string -> result string walked) (line : string) : result string walked :=
  let '(key, value) := directive line in
  if key =?s "conf-file" then expand value
  else if key =?s "conf-dir" then
    match split_char "," value with
    | [] => Ok ([], [])
    | dir :: exts => files ← ListDir dir; gather (fun f => if skipped exts f then Ok ([], []) else expand f) (sort_strings files)
    end
  else Ok ([], [line]).

(** What a file stands for, its includes in their places: the files read, in order, and the lines. *)
Fixpoint expand (k : nat) (p : string) : result string walked :=
  match k with
  | O => Err "too deep"
  | S k' =>
    text ← ReadFile (Clean p);
    '(fs, ls) ← gather (expand_line (expand k')) (lines_of text);
    Ok (Clean p :: fs, ls)
  end.

(** [r] is [st] with the expansion [x] added, when no file is read twice. *)
Definition adds (st : walked) (x r : result string walked) : Prop :=
  forall st', r = Ok st' <-> exists fs ls, x = Ok (fs, ls) /\ NoDup fs /\ (forall f, f ∈ fs -> f ∉ fst st) /\ st' = (fst st ++ fs, snd st ++ ls).

Lemma adds_nothing st : adds st (Ok ([], [])) (Ok st).
Proof.
  intros st'. split.
  - intros [= <-]. exists [], []. rewrite !app_nil_r. split_and!; [done|constructor|by intros f ?%elem_of_nil|by destruct st].
  - intros (fs & ls & [= <- <-] & _ & _ & ->). rewrite !app_nil_r. by destruct st.
Qed.

(** A loop over things that add their own expansions adds the expansions together. *)
Lemma adds_gather {A} (g : A -> result string walked) (step : walked -> A -> result string walked) l :
  (forall st a, a ∈ l -> adds st (g a) (step st a)) -> forall st, adds st (gather g l) (fold_m step st l).
Proof.
  induction l as [|a l IH]; intros Hs st; [apply adds_nothing|]. intros st'. cbn [fold_m gather]. split.
  - destruct (step st a) as [st1|] eqn:E1; [|done]. cbn. intros E2. apply (Hs st a) in E1 as (f1 & o1 & Eg & N1 & D1 & ->); [|by left].
    apply IH in E2 as (f2 & o2 & El & N2 & D2 & ->); [|intros; apply Hs; by right]. cbn in D2. rewrite Eg. cbn. rewrite El. cbn.
    exists (f1 ++ f2), (o1 ++ o2). split; [done|]. rewrite !app_assoc. split; [|split; [|done]].
    + apply NoDup_app. split_and!; try done. intros f H1 H2. apply (D2 f H2). set_solver.
    + intros f [Hf|Hf]%elem_of_app; [by apply D1|]. specialize (D2 f Hf). set_solver.
  - intros (fs & ls & H & HN & HD & ->). destruct (g a) as [[f1 o1]|] eqn:Eg; [|done]. cbn in H.
    destruct (gather g l) as [[f2 o2]|] eqn:El; [|done]. cbn in H. injection H as <- <-. apply NoDup_app in HN as (N1 & ND & N2).
    assert (step st a = Ok (fst st ++ f1, snd st ++ o1)) as ->.
    { apply (Hs st a); [by left|]. exists f1, o1. split_and!; try done. intros f Hf. apply HD. set_solver. }
    cbn. apply IH; [intros; apply Hs; by right|]. exists f2, o2. cbn. rewrite !app_assoc. split_and!; try done.
    intros f Hf [H1|H1]%elem_of_app; [|by apply (ND f)]. apply (HD f); set_solver.
Qed.

Lemma walk_adds k : forall p st, adds st (expand k p) (walk ReadFile ListDir k p st).
Proof.
  induction k as [|k IH]; intros p st; cbn [expand walk]; [intros st'; split; [done|by intros (? & ? & ? & _)]|].
  assert (Hline : forall st line, adds st (expand_line (expand k) line) (walk_line ListDir (walk ReadFile ListDir k) st line)).
  { clear st. intros st line. unfold expand_line, walk_line. destruct (directive line) as [key value].
    destruct (key =?s "conf-file"); [apply IH|]. destruct (key =?s "conf-dir").
    - unfold walk_dir. destruct (split_char "," value) as [|dir exts]; [apply adds_nothing|].
      destruct (ListDir dir) as [files|e]; cbn; [|intros st'; split; [done|by intros (? & ? & ? & _)]].
      apply adds_gather. intros st1 f _. destruct (skipped exts f); [apply adds_nothing|apply IH].
    - intros st'. split.
      + intros [= <-]. exists [], [line]. rewrite app_nil_r. split_and!; [done|constructor|by intros f ?%elem_of_nil|done].
      + intros (fs & ls & [= <- <-] & _ & _ & ->). by rewrite app_nil_r. }
  intros st'. destruct (mem_str (Clean p) (fst st)) eqn:Em; cbn.
  - split; [done|]. intros (fs & ls & H & _ & HD & _). exfalso. apply mem_str_spec in Em.
    destruct (ReadFile (Clean p)); [|done]. cbn in H. destruct (gather _ _) as [[f1 o1]|]; [|done]. cbn in H. injection H as <- <-.
    apply (HD (Clean p)); [left|done].
  - assert (Hni : Clean p ∉ fst st) by (intros H; apply mem_str_spec in H; congruence).
    destruct (ReadFile (Clean p)) as [text|e]; cbn; [|split; [done|by intros (? & ? & ? & _)]].
    rewrite (adds_gather (expand_line (expand k)) (walk_line ListDir (walk ReadFile ListDir k)) (lines_of text) (fun st a _ => Hline st a) _ st').
    cbn [fst snd]. split.
    + intros (fs & ls & -> & HN & HD & ->). exists (Clean p :: fs), ls. split; [done|]. rewrite <-app_assoc. split_and!; [|set_solver|done].
      apply NoDup_cons. split; [|done]. intros H. apply (HD _ H). set_solver.
    + intros (fs & ls & H & HN & HD & ->). destruct (gather _ _) as [[f1 o1]|]; [|done]. cbn in H. injection H as <- <-.
      apply NoDup_cons in HN as [Hn HN]. exists f1, o1. split; [done|]. rewrite <-app_assoc. split_and!; [done| |done].
      intros f Hf [H|H]%elem_of_app; [by apply (HD f); [right|]|]. apply list_elem_of_singleton in H as ->. done.
Qed.

(** An include directive. *)
Definition includes (line : string) : bool := (fst (directive line) =?s "conf-file") || (fst (directive line) =?s "conf-dir").

Lemma gather_lines {A} (P : string -> Prop) (g : A -> result string walked) l fs ls :
  (forall a fs ls, g a = Ok (fs, ls) -> Forall P ls) -> gather g l = Ok (fs, ls) -> Forall P ls.
Proof.
  intros Hg. revert fs ls. induction l as [|a l IH]; intros fs ls; cbn [gather]; [intros [= <- <-]; constructor|].
  destruct (g a) as [[f1 o1]|] eqn:Eg; [|done]. cbn. destruct (gather g l) as [[f2 o2]|]; [|done]. cbn. intros [= <- <-].
  apply Forall_app. split; [by eapply Hg|by eapply IH].
Qed.

Lemma expand_lines k : forall p fs ls, expand k p = Ok (fs, ls) -> Forall (fun line => includes line = false /\ contains_char "010" line = false) ls.
Proof.
  induction k as [|k IH]; intros p fs ls; cbn [expand]; [done|]. destruct (ReadFile (Clean p)) as [text|]; [|done]. cbn.
  destruct (gather _ _) as [[f1 o1]|] eqn:Eg; [|done]. cbn. intros [= <- <-].
  assert (Hd : forall f fs ls exts, (if skipped exts f then Ok ([], []) else expand k f) = Ok (fs, ls) ->
    Forall (fun line => includes line = false /\ contains_char "010" line = false) ls).
  { intros f fs ls exts. destruct (skipped exts f); [intros [= <- <-]; constructor|apply IH]. }
  assert (Hg : forall l fs ls, Forall (fun line => contains_char "010" line = false) l -> gather (expand_line (expand k)) l = Ok (fs, ls) ->
    Forall (fun line => includes line = false /\ contains_char "010" line = false) ls); [|eapply Hg, Eg; apply split_pieces].
  clear f1 o1 Eg p. intros l. induction l as [|line l IHl]; intros fs ls Hl; cbn [gather]; [intros [= <- <-]; constructor|].
  apply Forall_cons in Hl as [Hline Hl]. destruct (expand_line _ line) as [[f1 o1]|] eqn:El; [|done]. cbn.
  destruct (gather _ l) as [[f2 o2]|]; [|done]. cbn. intros [= <- <-]. apply Forall_app. split; [|by eapply IHl].
  unfold expand_line in El. destruct (directive line) as [key value] eqn:Ed. destruct (key =?s "conf-file") eqn:Ef; [by eapply IH|].
  destruct (key =?s "conf-dir") eqn:Ec.
  - destruct (split_char "," value) as [|dir exts]; [injection El as <- <-; constructor|]. destruct (ListDir dir); [|done]. cbn in El.
    eapply gather_lines, El. intros f fs ls. apply Hd.
  - injection El as <- <-. constructor; [|constructor]. unfold includes. rewrite Ed. cbn. by rewrite Ef, Ec.
Qed.

(** The text that is compared is the one dnsmasq reads.  Flattening a configuration succeeds
    exactly when putting the files of every conf-file and conf-dir line in its place, at most five
    levels deep, reads no file twice; the result is then those lines in their order, and none of
    them is an include any more, so nothing of the configuration is left behind. *)
Theorem flatten_exact path text :
  FlattenDNSmasq ReadFile ListDir path = Ok text
  <-> exists files lines, expand 6 path = Ok (files, lines) /\ NoDup files /\ text = join newline lines
      /\ Forall (fun line => includes line = false) lines /\ (lines <> [] -> lines_of text = lines).
Proof.
  unfold FlattenDNSmasq. split.
  - destruct (walk _ _ _ _ _) as [st|] eqn:E; [|done]. cbn. intros [= <-]. apply walk_adds in E as (fs & ls & Ex & HN & _ & ->). cbn.
    pose proof (expand_lines _ _ _ _ Ex) as Hl. exists fs, ls. split_and!; try done.
    + eapply Forall_impl; [exact Hl|]. by intros ? [? _].
    + intros Hne. apply split_join; [done|]. eapply Forall_impl; [exact Hl|]. by intros ? [_ ?].
  - intros (fs & ls & Ex & HN & -> & _). assert (walk ReadFile ListDir 6 path ([], []) = Ok (fs, ls)) as ->; [|done].
    apply walk_adds. exists fs, ls. split_and!; try done. by intros f _ ?%elem_of_nil.
Qed.
End Flat.

(** * What an accepted target accounts for *)

(** The values of a directive, in the order of its lines. *)
Definition value_of (key line : string) : option string :=
  if is_empty (bare line) then None else if fst (directive line) =?s key then Some (snd (directive line)) else None.
Definition values (key : string) (ls : list string) : list string := omap (value_of key) ls.

Lemma values_snoc key ls line : values key (ls ++ [line]) = values key ls ++ match value_of key line with Some v => [v] | None => [] end.
Proof. unfold values. rewrite omap_app. cbn. by destruct (value_of key line). Qed.

(** The directives with consequences. *)
Definition used_keys : list string :=
  ["interface"; "domain"; "except-interface"; "no-dhcp-interface"; "dhcp-leasefile"; "dhcp-range"; "dhcp-option"; "dhcp-host"; "dhcp-boot";
   "enable-tftp"; "tftp-root"; "enable-ra"].
Definition known_keys : list string := used_keys ++ ignored_directives.
Definition understood (line : string) : Prop := is_empty (bare line) = true \/ fst (directive line) ∈ known_keys.

Definition one_field (v : string) : bool := match split_char "," v with [_] => true | _ => false end.

(** The range is one of the target's scopes, with its mask and lease time. *)
Definition range_kept (c : Config) (v : string) : Prop :=
  exists tag a b mask life, splitRange v = Ok (tag, (a, b, mask, life))
  /\ (exists s, s ∈ Scopes c /\ sStart s = a /\ sEnd s = b)
  /\ (forall s, s ∈ Scopes c -> sStart s = a -> sEnd s = b -> match_range s mask life = Ok tt).

(** The scope serves a range, which has the tag. *)
Definition serves_range (ls : list string) (s : Scope) (tag : string) : Prop :=
  exists v mask life, v ∈ values "dhcp-range" ls /\ splitRange v = Ok (tag, (sStart s, sEnd s, mask, life)).

Definition host_kept (c : Config) (v : string) : Prop :=
  exists mac address name, split_char "," v = [mac; address; name] /\ reserved c mac address name = true.

Record accounts (c : Config) (lease : string) (ls : list string) (st : legacyState) : Prop := {
  ac_known : Forall understood ls;
  ac_interfaces : vInterfaces st = values "interface" ls;
  ac_excluded : forall i, i ∈ vExcluded st <-> i ∈ values "except-interface" ls \/ i ∈ values "no-dhcp-interface" ls;
  ac_domains : forall z, z ∈ vDomains st <-> z ∈ values "domain" ls /\ one_field z = true;
  ac_scoped : forall p z, (p, z) ∈ vScoped st -> exists v cidr q, v ∈ values "domain" ls /\ split_char "," v = [z; cidr] /\ ParsePrefix cidr = Some q /\ p = Masked q;
  ac_leases : Forall (fun v => v = lease) (values "dhcp-leasefile" ls);
  ac_lease : vLease st = true -> values "dhcp-leasefile" ls <> [];
  ac_ranges : Forall (range_kept c) (values "dhcp-range" ls);
  ac_served : forall id tag, vRanges st !! id = Some tag -> exists s, s ∈ Scopes c /\ sID s = id /\ serves_range ls s tag;
  ac_options : Forall2 (fun v o => parseDHCPOption v = Ok o) (values "dhcp-option" ls) (vOptions st);
  ac_hosts : Forall (host_kept c) (values "dhcp-host" ls);
  ac_boot : fold_m (fun b v => check_boot v b) (EmptyString, EmptyString) (values "dhcp-boot" ls) = Ok (vBoot st);
  ac_tftp : vTFTP st = match values "enable-tftp" ls with [] => None | vs => Some (concat (map interface_list vs)) end;
  ac_root : vRoot st = List.last (values "tftp-root" ls) EmptyString;
  ac_ra : vRA st = true <-> values "enable-ra" ls <> [];
}.

Lemma accounts_empty c lease : accounts c lease [] no_legacy.
Proof. split; cbn; try done; try constructor; set_solver. Qed.

Lemma serves_range_more ls line s tag : serves_range ls s tag -> serves_range (ls ++ [line]) s tag.
Proof. intros (v & mask & life & Hv & E). exists v, mask, life. rewrite values_snoc. set_solver. Qed.

(** A line that says nothing of a kind leaves what is known of that kind. *)
Lemma value_of_other key line k v : is_empty (bare line) = false -> directive line = (k, v) ->
  value_of key line = if k =?s key then Some v else None.
Proof. unfold value_of. intros -> ->. done. Qed.

Lemma fold_range c tag f st st' found found' : fold_m (range_scope tag f) (st, found) (Scopes c) = Ok (st', found') ->
  let '(a, b, mask, life) := f in
  (found' = true -> found = true \/ exists s, s ∈ Scopes c /\ sStart s = a /\ sEnd s = b)
  /\ (forall s, s ∈ Scopes c -> sStart s = a -> sEnd s = b -> match_range s mask life = Ok tt)
  /\ (forall id t, vRanges st' !! id = Some t -> vRanges st !! id = Some t \/ (t = tag /\ exists s, s ∈ Scopes c /\ sID s = id /\ sStart s = a /\ sEnd s = b))
  /\ exists m, st' = mkLegacyState (vInterfaces st) (vDomains st) (vScoped st) (vExcluded st) (vBoot st) (vRoot st) (vOptions st) m (vTFTP st) (vLease st) (vRA st).
Proof.
  destruct f as [[[a b] mask] life]. revert st found. induction (Scopes c) as [|s ss IH]; intros st found; cbn [fold_m].
  - intros [= <- <-]. split_and!; [auto|by intros s ?%elem_of_nil|auto|]. exists (vRanges st). by destruct st.
  - unfold range_scope at 1. destruct ((sStart s =?s a) && (sEnd s =?s b)) eqn:Em.
    + apply andb_prop in Em as [Ea%String.eqb_eq Eb%String.eqb_eq]. destruct (match_range s mask life) as [[]|] eqn:Er; [|done]. cbn.
      intros (H1 & H2 & H3 & m & ->)%IH. split_and!.
      * intros _. right. exists s. split_and!; [left|done..].
      * intros t [->|Ht]%elem_of_cons; [done|by apply H2].
      * intros id t Ht. apply H3 in Ht as [Ht|(-> & u & Hu & ?)]; [|right; split; [done|exists u; split; [by right|done]]].
        cbn in Ht. apply lookup_insert_Some in Ht as [[<- <-]|[_ Ht]]; [|by left]. right. split; [done|]. exists s. split_and!; [left|done..].
      * by exists m.
    + cbn. intros (H1 & H2 & H3 & H4)%IH. split_and!; [| | |done].
      * intros Hf. destruct (H1 Hf) as [?|(u & Hu & ?)]; [by left|]. right. exists u. split; [by right|done].
      * intros t [->|Ht]%elem_of_cons Ha Hb; [|by apply H2]. rewrite Ha, Hb, !String.eqb_refl in Em. done.
      * intros id t Ht. apply H3 in Ht as [Ht|(-> & u & Hu & ?)]; [by left|]. right. split; [done|]. exists u. split; [by right|done].
Qed.

(** A directive without consequences is none of the others. *)
Lemma ignored_other k x : mem_str k ignored_directives = true -> x ∈ used_keys -> (k =?s x) = false.
Proof.
  intros Hk%mem_str_spec Hx. apply String.eqb_neq. intros ->. apply list_elem_of_In in Hk, Hx. cbn in Hk, Hx.
  intuition (subst; discriminate).
Qed.

(** The fields of [accounts] after one more line, whose key is the literal [k]. *)
Ltac resolve_values Hv k line :=
  repeat match goal with
         | |- context [value_of ?x line] =>
           rewrite (Hv x); let r := eval vm_compute in (String.eqb k x) in change (String.eqb k x) with r; cbv iota
         end.
Ltac one_more Hv k line :=
  split; cbn [vInterfaces vDomains vScoped vExcluded vBoot vRoot vOptions vRanges vTFTP vLease vRA
              add_interface add_domain add_scoped add_excluded set_boot set_root add_dm_option add_range add_tftp set_lease set_ra];
  rewrite ?values_snoc; resolve_values Hv k line; rewrite ?app_nil_r; try done;
  try (match goal with Hk : _ -> Forall understood _ |- _ => apply Hk; apply list_elem_of_In; cbn; tauto end).

Section Account.
Context (c : Config) (lease : string) (ls : list string) (st : legacyState) (line : string).
Context (A : accounts c lease ls st) (Hb : is_empty (bare line) = false).

Lemma known_more k v : directive line = (k, v) -> k ∈ known_keys -> Forall understood (ls ++ [line]).
Proof. intros Ed Hk. apply Forall_app. split; [apply A|]. apply Forall_singleton. right. by rewrite Ed. Qed.

Lemma served_more id tag : vRanges st !! id = Some tag -> exists s, s ∈ Scopes c /\ sID s = id /\ serves_range (ls ++ [line]) s tag.
Proof. intros H. destruct (ac_served _ _ _ _ A id tag H) as (s & ? & ? & ?). exists s. split_and!; try done. by apply serves_range_more. Qed.

Lemma said k v : directive line = (k, v) -> forall key, value_of key line = if k =?s key then Some v else None.
Proof. intros Ed key. by apply value_of_other. Qed.

Lemma account_domain v st' : directive line = ("domain", v) -> check_domain v st = Ok st' -> accounts c lease (ls ++ [line]) st'.
Proof.
  intros Ed. pose proof (said _ _ Ed) as Hv. pose proof (known_more _ _ Ed) as Hk. pose proof served_more as Hs. intros H. destruct A. unfold check_domain in H. destruct (split_char "," v) as [|f0 [|f1 [|]]] eqn:Ef; try done.
  - injection H as <-. one_more Hv "domain" line.
    + intros z. rewrite !elem_of_app, ac_domains0, list_elem_of_singleton. split; [|set_solver].
      intros [?| ->]; [set_solver|]. split; [by right|]. unfold one_field. by rewrite Ef.
    + intros p z Hpz. apply ac_scoped0 in Hpz as (w & cidr & q & ? & ?). exists w, cidr, q. set_solver.
  - destruct (ParsePrefix f1) as [q|] eqn:Eq; [|done]. injection H as <-. one_more Hv "domain" line.
    + intros z. rewrite ac_domains0, elem_of_app, list_elem_of_singleton. split; [set_solver|]. intros [[?| ->] ?]; [done|].
      unfold one_field in *. by rewrite Ef in *.
    + intros p z. rewrite elem_of_app, list_elem_of_singleton. intros [Hpz|[= -> ->]].
      * apply list_elem_of_In, filter_In in Hpz as [Hpz%list_elem_of_In _]. apply ac_scoped0 in Hpz as (w & cidr & q' & ? & ?).
        exists w, cidr, q'. set_solver.
      * exists v, f1, q. split_and!; [set_solver|done..].
Qed.

Lemma account_range v st' : directive line = ("dhcp-range", v) -> check_range c v st = Ok st' -> accounts c lease (ls ++ [line]) st'.
Proof.
  intros Ed. pose proof (said _ _ Ed) as Hv. pose proof (known_more _ _ Ed) as Hk. pose proof served_more as Hs. intros H. unfold check_range in H. next_ok H. destruct x as [tag [[[a b] mask] life]]. rename Hx into Er. next_ok H. destruct x as [st1 found].
  apply seq_ok in H as [->%check_ok [= ->]]. apply fold_range in Hx as (H1 & H2 & H3 & m & ->). cbn [vRanges] in H3. destruct A.
  one_more Hv "dhcp-range" line.
  - apply Forall_app. split; [done|]. apply Forall_singleton. exists tag, a, b, mask, life. split_and!; try done. by destruct H1.
  - intros id t Ht. apply H3 in Ht as [Ht|(-> & s & Hs' & <- & <- & <-)]; [by apply Hs|]. exists s. split_and!; try done.
    exists v, mask, life. rewrite values_snoc, Hv. cbn. set_solver.
Qed.

End Account.

Lemma check_line_accounts c lease ls st line st' : accounts c lease ls st -> check_line c lease st line = Ok st' -> accounts c lease (ls ++ [line]) st'.
Proof.
  intros A. unfold check_line. destruct (is_empty (bare line)) eqn:Hb.
  { intros [= <-]. assert (Hv : forall key, value_of key line = None) by (intros key; unfold value_of; by rewrite Hb).
    pose proof (served_more c lease ls st line A) as Hs. destruct A.
    split; rewrite ?values_snoc, ?Hv, ?app_nil_r; try done. apply Forall_app. split; [done|]. apply Forall_singleton. by left. }
  destruct (directive line) as [k v] eqn:Ed.
  assert (Hv : forall key, value_of key line = if k =?s key then Some v else None) by (intros key; by apply value_of_other).
  pose proof (known_more c lease ls st line A k v Ed) as Hk. pose proof (served_more c lease ls st line A) as Hs.
  destruct (String.eqb_spec k "interface") as [->|_].
  { intros [= <-]. destruct A. one_more Hv "interface" line. congruence. }
  destruct (String.eqb_spec k "domain") as [->|_]; [by apply account_domain|].
  destruct (String.eqb_spec k "except-interface") as [->|_]; [|destruct (String.eqb_spec k "no-dhcp-interface") as [->|_]].
  { cbn [orb]. intros [= <-]. destruct A. one_more Hv "except-interface" line. intros i. rewrite !elem_of_app, ac_excluded0. tauto. }
  { cbn [orb]. intros [= <-]. destruct A. one_more Hv "no-dhcp-interface" line. intros i. rewrite !elem_of_app, ac_excluded0. tauto. }
  cbn [orb].
  destruct (String.eqb_spec k "dhcp-leasefile") as [->|_].
  { intros H. apply seq_ok in H as [Hf%fail_if_ok [= <-]]. apply negb_false_iff, String.eqb_eq in Hf as ->. destruct A. one_more Hv "dhcp-leasefile" line.
    - apply Forall_app. split; [done|]. by apply Forall_singleton.
    - intros _ [_ ?]%app_eq_nil. done. }
  destruct (String.eqb_spec k "dhcp-range") as [->|_]; [by apply account_range|].
  destruct (String.eqb_spec k "dhcp-option") as [->|_].
  { intros H. next_ok H. injection H as <-. destruct A. one_more Hv "dhcp-option" line. apply Forall2_app; [done|]. by repeat constructor. }
  destruct (String.eqb_spec k "dhcp-host") as [->|_].
  { intros H. unfold check_host in H. destruct (split_char "," v) as [|f0 [|f1 [|f2 [|]]]] eqn:Ef; try done.
    apply seq_ok in H as [Hr%check_ok [= <-]]. destruct A. one_more Hv "dhcp-host" line. apply Forall_app. split; [done|].
    apply Forall_singleton. by exists f0, f1, f2. }
  destruct (String.eqb_spec k "dhcp-boot") as [->|_].
  { intros H. next_ok H. injection H as <-. destruct A. one_more Hv "dhcp-boot" line. rewrite fold_m_app, ac_boot0. cbn. by rewrite Hx. }
  destruct (String.eqb_spec k "enable-tftp") as [->|_].
  { intros [= <-]. destruct A. one_more Hv "enable-tftp" line. rewrite ac_tftp0. destruct (values "enable-tftp" ls) as [|w ws]; cbn; [by rewrite app_nil_r|].
    by rewrite map_app, concat_app, app_assoc; cbn; rewrite app_nil_r. }
  destruct (String.eqb_spec k "tftp-root") as [->|_].
  { intros [= <-]. destruct A. one_more Hv "tftp-root" line. by rewrite last_last. }
  destruct (String.eqb_spec k "enable-ra") as [->|_].
  { intros [= <-]. destruct A. one_more Hv "enable-ra" line. split; [|done]. intros _ [_ ?]%app_eq_nil. done. }
  destruct (mem_str k ignored_directives) eqn:Em; [|done]. intros [= <-].
  assert (Hn : forall x, x ∈ used_keys -> value_of x line = None) by (intros x Hx; rewrite Hv; by rewrite (ignored_other k x Em Hx)).
  destruct A. split; rewrite ?values_snoc; repeat (rewrite Hn by (apply list_elem_of_In; cbn; tauto)); rewrite ?app_nil_r; try done.
  apply Hk. unfold known_keys. apply elem_of_app. right. by apply mem_str_spec.
Qed.

Lemma check_lines_accounts c lease text st : fold_m (check_line c lease) no_legacy (lines_of text) = Ok st -> accounts c lease (lines_of text) st.
Proof.
  assert (H : forall todo done_ st0, accounts c lease done_ st0 -> fold_m (check_line c lease) st0 todo = Ok st -> accounts c lease (done_ ++ todo) st).
  { induction todo as [|line todo IH]; intros done_ st0 A; cbn [fold_m]; [intros [= <-]; by rewrite app_nil_r|].
    destruct (check_line c lease st0 line) as [st1|] eqn:E; [|done]. intros H%(IH (done_ ++ [line])); [|by eapply check_line_accounts].
    by rewrite <-app_assoc in H. }
  apply (H (lines_of text) []), accounts_empty.
Qed.

(** * Options *)

Lemma by_code_in os o : o ∈ by_code os <-> o ∈ os.
Proof. unfold by_code. by rewrite merge_sort_Permutation. Qed.

(** The options that reach a range, other than its router and DNS servers. *)
Definition other_option (tag : string) (d : dmOption) : bool := reaches tag d && negb (oCode d =? 3) && negb (oCode d =? 6).
Definition as_option (d : dmOption) : DHCPOption := mkOption (oCode d) (oType d) (oVals d).

(** The DNS servers and the router: those of the last line that gives some. *)
Definition last_dns (tag server : string) (dns : list string) (d : dmOption) : list string :=
  if reaches tag d && (oCode d =? 6) && negb (bool_decide (oVals d = [server])) then oVals d else dns.
Definition in_prefix (subnet : Prefix) (text : string) : bool := match ParseAddr text with Some a => Contains subnet a | None => false end.
Definition last_router (tag : string) (subnet : Prefix) (r : string) (d : dmOption) : string :=
  if reaches tag d && (oCode d =? 3) && in_prefix subnet (hd EmptyString (oVals d)) then hd EmptyString (oVals d) else r.

Definition router_near (tag : string) (subnet : Prefix) (d : dmOption) : Prop :=
  reaches tag d = true -> oCode d = 3 -> oTag d <> EmptyString -> in_prefix subnet (hd EmptyString (oVals d)) = true.

Lemma derive_one_ok tag subnet server st0 d st : derive_one tag subnet server st0 d = Ok st ->
  stOthers st = stOthers st0 ++ (if other_option tag d then [as_option d] else [])
  /\ stDNS st = last_dns tag server (stDNS st0) d /\ stRouter st = last_router tag subnet (stRouter st0) d
  /\ (NoDup (map Code (stOthers st0)) -> NoDup (map Code (stOthers st))) /\ router_near tag subnet d.
Proof.
  unfold derive_one, other_option, last_dns, last_router, router_near. destruct (reaches tag d); cbn [negb andb]; [|intros [= <-]; by rewrite app_nil_r].
  fold (in_prefix subnet (hd EmptyString (oVals d))). destruct (Z.eqb_spec (oCode d) 3) as [E3|N3]; cbn [negb andb].
  - rewrite E3. cbn [Z.eqb Pos.eqb andb]. rewrite app_nil_r. destruct (in_prefix _ _); [by intros [= <-]|].
    destruct (is_empty (oTag d)) eqn:Et; [|done]. intros [= <-]. apply is_empty_spec in Et. by split_and!.
  - destruct (Z.eqb_spec (oCode d) 6) as [E6|N6]; cbn [negb andb].
    + rewrite app_nil_r. by destruct (bool_decide _); intros [= <-].
    + destruct (existsb _ _) eqn:Ex; [done|]. intros [= <-]. cbn [stOthers stDNS stRouter]. split_and!; try done.
      intros Hn. rewrite map_app. apply NoDup_app. split_and!; [done| |apply NoDup_singleton].
      intros k Hk ->%list_elem_of_singleton. apply list_elem_of_In, in_map_iff in Hk as (o & Eo & Ho). apply not_true_iff_false in Ex. apply Ex, existsb_exists.
      exists o. split; [done|]. by apply Z.eqb_eq.
Qed.

Lemma derive_fold tag subnet server opts : forall st0 st, fold_m (derive_one tag subnet server) st0 opts = Ok st ->
  stOthers st = stOthers st0 ++ map as_option (List.filter (other_option tag) opts)
  /\ stDNS st = fold_left (last_dns tag server) opts (stDNS st0) /\ stRouter st = fold_left (last_router tag subnet) opts (stRouter st0)
  /\ (NoDup (map Code (stOthers st0)) -> NoDup (map Code (stOthers st))) /\ Forall (router_near tag subnet) opts.
Proof.
  induction opts as [|d opts IH]; intros st0 st; cbn [fold_m]; [intros [= <-]; cbn; by rewrite app_nil_r|].
  destruct (derive_one tag subnet server st0 d) as [st1|] eqn:E; [|done]. intros (H1 & H2 & H3 & H4 & H5)%IH.
  apply derive_one_ok in E as (E1 & E2 & E3 & E4 & E5). cbn [List.filter fold_left]. rewrite H1, H2, H3, E2, E3 in *. split_and!; try done; [|auto|by constructor].
  rewrite E1, <-app_assoc. by destruct (other_option tag d).
Qed.

(** * The target and the text *)

(** What the options and the boot lines hand out through a range with this tag is what the scope hands out. *)
Definition hands_out (ls : list string) (s : Scope) (tag : string) : Prop :=
  exists opts boot, Forall2 (fun v o => parseDHCPOption v = Ok o) (values "dhcp-option" ls) opts
  /\ Options s ≡ₚ map as_option (List.filter (other_option tag) opts) /\ NoDup (map Code (Options s))
  /\ DNSServers s = fold_left (last_dns tag (sServer s)) opts []
  /\ (let r := fold_left (last_router tag (must_prefix (Subnet s))) opts EmptyString in Router s = if is_empty r then sServer s else r)
  /\ Forall (router_near tag (must_prefix (Subnet s))) opts
  /\ fold_m (fun b v => check_boot v b) (EmptyString, EmptyString) (values "dhcp-boot" ls) = Ok boot
  /\ match Boot s with
     | None => fst boot = EmptyString
     | Some b => fst boot <> EmptyString /\ File b = fst boot
                 /\ (if is_empty (NextServer b) then sServer s else NextServer b) = (if is_empty (snd boot) then sServer s else snd boot)
     end.

(** The zone of the scope is that of a domain line for everyone, or for a network that overlaps the scope's. *)
Definition zone_kept (ls : list string) (s : Scope) : Prop :=
  (Zone s ∈ values "domain" ls /\ one_field (Zone s) = true)
  \/ exists v cidr q, v ∈ values "domain" ls /\ split_char "," v = [Zone s; cidr] /\ ParsePrefix cidr = Some q
     /\ Overlaps (Masked q) (must_prefix (Subnet s)) = true.

Record scope_kept (ls : list string) (s : Scope) : Prop := {
  sk_enabled : Enabled s = true;
  sk_interface : Interface s ∈ values "interface" ls;
  sk_included : Interface s ∉ (values "except-interface" ls ++ values "no-dhcp-interface" ls);
  sk_zone : zone_kept ls s;
  sk_ra : scope_is6 s = true -> is_Some (RA s) <-> values "enable-ra" ls <> [];
  sk_range : exists tag, serves_range ls s tag /\ (scope_is6 s = false -> hands_out ls s tag);
}.

Record reproduces (c : Config) (text lease : string) : Prop := {
  rp_known : Forall understood (lines_of text);
  rp_lease : values "dhcp-leasefile" (lines_of text) <> [] /\ Forall (fun v => v = lease) (values "dhcp-leasefile" (lines_of text));
  rp_ranges : Forall (range_kept c) (values "dhcp-range" (lines_of text));
  rp_hosts : Forall (host_kept c) (values "dhcp-host" (lines_of text));
  rp_tftp : match TFTP c with
            | None => values "enable-tftp" (lines_of text) = []
            | Some t => values "enable-tftp" (lines_of text) <> [] /\ Root t <> EmptyString
                        /\ Root t = List.last (values "tftp-root" (lines_of text)) EmptyString
                        /\ tInterfaces t = concat (map interface_list (values "enable-tftp" (lines_of text)))
            end;
  rp_scopes : Forall (scope_kept (lines_of text)) (Scopes c);
}.

Lemma sameOptions_perm a b : sameOptions a b = true -> a ≡ₚ b.
Proof.
  unfold sameOptions. intros H%bool_decide_eq_true. pose proof (merge_sort_Permutation code_le a) as Ha. pose proof (merge_sort_Permutation code_le b) as Hb.
  unfold by_code in H. rewrite H in Ha. by rewrite <-Ha, Hb.
Qed.

Lemma check_settings_kept c lease ls st s tag : accounts c lease ls st -> vRanges st !! sID s = Some tag -> Enabled s = true -> scope_is6 s = false ->
  check_settings st s = Ok tt -> hands_out ls s tag.
Proof.
  intros A Et Hen H6. unfold check_settings. rewrite H6, Hen. cbn [orb negb]. unfold lookup_default. rewrite Et. intros H. next_ok H.
  unfold deriveSettings in Hx. next_ok Hx. injection Hx as <-. apply derive_fold in Hx0 as (E1 & E2 & E3 & E4 & E5). cbn [stOthers stDNS stRouter default from_option id] in *.
  apply seq_ok in H as [Hf%fail_if_ok H]. apply orb_false_iff in Hf as [Hf Ho%negb_false_iff]. apply orb_false_iff in Hf as [Hr%negb_false_iff Hd%negb_false_iff].
  apply String.eqb_eq in Hr. apply bool_decide_eq_true in Hd. apply sameOptions_perm in Ho. unfold by_code in Ho. rewrite merge_sort_Permutation in Ho.
  rewrite E1 in Ho. cbn in Ho. exists (vOptions st), (vBoot st). rewrite E3 in Hr. rewrite E2 in Hd. split_and!; try done; [apply A| | |].
  - rewrite Ho, <-(app_nil_l (map as_option _)), <-E1. apply E4. constructor.
  - apply A.
  - destruct (Boot s) as [b|].
    + apply seq_ok in H as [Hb%fail_if_ok Hf%fail_if_ok]. apply orb_false_iff in Hf as [Hf%negb_false_iff Hn%negb_false_iff].
      apply String.eqb_eq in Hf, Hn. split_and!; [|done|done]. intros E. by rewrite E in Hb.
    + apply check_ok in H. by apply is_empty_spec.
Qed.

Lemma check_place_kept c lease ls st s : accounts c lease ls st -> check_place st s = Ok tt ->
  Enabled s = true /\ is_Some (vRanges st !! sID s) /\ Interface s ∈ values "interface" ls
  /\ (Interface s ∉ (values "except-interface" ls ++ values "no-dhcp-interface" ls)) /\ zone_kept ls s
  /\ (scope_is6 s = true -> is_Some (RA s) <-> values "enable-ra" ls <> []).
Proof.
  intros A H. unfold check_place in H. apply seq_ok in H as [Hra%fail_if_ok H]. cbv zeta in H. apply seq_ok in H as [Hex%fail_if_ok Hf%fail_if_ok].
  rewrite !orb_false_iff, !negb_false_iff in Hf. destruct Hf as (((Hen & Hr%bool_decide_eq_true) & Hi%mem_str_spec) & Hz). split_and!; try done.
  - by rewrite <-(ac_interfaces _ _ _ _ A).
  - rewrite elem_of_app, <-(ac_excluded _ _ _ _ A). intros Hin%mem_str_spec. congruence.
  - apply orb_true_iff in Hz as [Hz%mem_str_spec|Hz]; [left; by apply (ac_domains _ _ _ _ A)|]. right.
    apply existsb_exists in Hz as ([p z] & Hin%list_elem_of_In & Hz). cbn in Hz. apply andb_prop in Hz as [->%String.eqb_eq Hov].
    destruct (ac_scoped _ _ _ _ A _ _ Hin) as (v & cidr & q & ? & ? & ? & ->). exists v, cidr, q. done.
  - intros H6. rewrite H6 in Hra. cbn in Hra. apply negb_false_iff, eqb_prop in Hra. rewrite <-(ac_ra _ _ _ _ A), <-Hra. by rewrite bool_decide_eq_true.
Qed.

Lemma validated_reproduces c text lease : Validate c = Ok tt -> ValidateDNSmasqConfig c text lease = Ok tt -> reproduces c text lease.
Proof.
  intros Hv H. unfold ValidateDNSmasqConfig in H. next_ok H. rename x into st. apply check_lines_accounts in Hx as A.
  apply seq_ok in H as [Hl%check_ok H]. apply seq_ok in H as [Ht%fail_if_ok H]. apply seq_ok in H as [Hs%check_ok H]. apply seq_ok in H as [Hset Hpl].
  rewrite for_each_ok, Forall_forall in Hset, Hpl.
  split; try apply A.
  - split; [by apply (ac_lease _ _ _ _ A)|apply A].
  - unfold same_tftp in Hs. rewrite (ac_tftp _ _ _ _ A), (ac_root _ _ _ _ A) in *. destruct (TFTP c) as [t|]; destruct (values "enable-tftp" _) as [|w ws]; try done.
    apply andb_prop in Hs as [Hroot%String.eqb_eq Hi%bool_decide_eq_true]. rewrite bool_decide_eq_true_2 in Ht by eauto. cbn in Ht. split_and!; try done.
    intros E. rewrite E in Hroot. rewrite <-Hroot in Ht. done.
  - apply Forall_forall. intros s Hin. pose proof (Hset s Hin) as H1. pose proof (Hpl s Hin) as H2.
    apply (check_place_kept _ _ _ _ _ A) in H2 as (Hen & [tag Etag] & Hif & Hinc & Hz & Hra). split; try done. exists tag.
    destruct (ac_served _ _ _ _ A _ _ Etag) as (s' & Hs' & Eid & Hsv). assert (s' = s) as ->.
    { pose proof (find_scope_self c s Hv Hin) as F1. pose proof (find_scope_self c s' Hv Hs') as F2. rewrite Eid in F2. congruence. }
    split; [done|]. intros H6. by eapply check_settings_kept.
Qed.

(** A path as a word of its own: between a space or an equals sign and a space, a semicolon or the end. *)
Definition word_of (path text : string) : Prop :=
  exists before c after, text = before +++ String c (path +++ after) /\ (c = "="%char \/ re_space c = true)
  /\ match after with EmptyString => True | String d _ => re_space d = true \/ d = ";"%char end.

Lemma names_path_word path text : names_path path text = true -> word_of path text.
Proof.
  induction text as [|c text IH]; [done|]. cbn [names_path]. intros [[Hc Hp]%andb_true_iff|H]%orb_true_iff.
  - unfold path_here in Hp. destruct (strip_prefix path text) as [r|] eqn:E; [|done]. apply strip_prefix_Some in E as ->.
    exists EmptyString, c, r. split_and!; [done| |destruct r as [|d r]; [done|]].
    + apply orb_true_iff in Hc as [Hc|Hc]; [left; by apply Ascii.eqb_eq|by right].
    + apply orb_true_iff in Hp as [Hp|Hp]; [by left|right; by apply Ascii.eqb_eq].
  - destruct (IH H) as (before & d & after & -> & Hd). by exists (String c before), d, after.
Qed.

(** What an accepted target says of the unit it takes over from. *)
Record accounted (ReadFile : string -> result string string) (ListDir : string -> result string (list string))
    (Lstat : string -> result string bool) (execStart : string -> result string string) (l : LegacySpec) (c : Config) : Prop := {
  ac_unit : dnsmasq_unit (Unit l) = true;
  ac_command : exists command, execStart (Unit l) = Ok command /\ word_of (ConfigPath l) command;
  ac_files : Forall (fun p => IsAbs p = true /\ Clean p = p /\ Lstat p = Ok true) [ConfigPath l; LeasePath l];
  ac_text : exists text, FlattenDNSmasq ReadFile ListDir (ConfigPath l) = Ok text /\ reproduces c text (LeasePath l);
}.

Lemma system_accounts ReadFile ListDir Lstat execStart l c :
  Validate c = Ok tt -> SystemDNSmasq_Validate ReadFile ListDir Lstat execStart l c = Ok tt ->
  accounted ReadFile ListDir Lstat execStart l c.
Proof.
  intros Hc H. unfold SystemDNSmasq_Validate in H. apply seq_ok in H as [Hu%check_ok H]. apply seq_ok in H as [Hp%for_each_ok H].
  next_ok H. rename x into command. apply seq_ok in H as [Hx0%fail_if_ok H]. next_ok H. rename x into text.
  apply orb_false_iff in Hx0 as [_ Hn%negb_false_iff].
  split; [done|exists command; by auto using names_path_word| |exists text; split; [done|by apply validated_reproduces]].
  eapply Forall_impl; [exact Hp|]. intros p Hq. unfold checked_path in Hq. apply seq_ok in Hq as [Hf%fail_if_ok Hq]. next_ok Hq.
  apply check_ok in Hq as ->. apply orb_false_iff in Hf as [Ha%negb_false_iff Hl%negb_false_iff]. by apply String.eqb_eq in Hl.
Qed.

(** * Conversion *)

Section Conversion.
Context (ReadFile : string -> result string string) (ListDir : string -> result string (list string)).
Context (Addrs : string -> result string (list Prefix)) (iterate : gmap string string -> list (string * string)).

Lemma convert_line_ranges c c' n line : convert_line c (n, line) = Ok c' ->
  match value_of "dhcp-range" line with
  | Some v => exists r, splitRange v = Ok r /\ cRanges c' = cRanges c ++ [r]
  | None => cRanges c' = cRanges c
  end.
Proof.
  unfold convert_line. cbn [fst snd]. destruct (is_empty (bare line)) eqn:Hb; [intros [= <-]; unfold value_of; by rewrite Hb|].
  destruct (directive line) as [k v] eqn:Ed. rewrite (value_of_other _ _ _ _ Hb Ed). destruct (String.eqb_spec k "dhcp-range") as [-> |Hne].
  - cbn. intros H. next_ok H. injection H as <-. destruct (splitRange v) as [r|] eqn:Er; [|done]. injection Hx as <-. by exists r.
  - intros H. repeat match type of H with
      | (if ?b then _ else _) = _ => destruct b
      | (_ ≫= _) = _ => next_ok H
      end; try done; try (injection H as <-; done).
    unfold read_domain in H. repeat case_match; try done; by injection H as <-.
Qed.

Lemma convert_lines_ranges l : forall c c', fold_m convert_line c l = Ok c' ->
  exists rs, cRanges c' = cRanges c ++ rs /\ Forall2 (fun v r => splitRange v = Ok r) (values "dhcp-range" (map snd l)) rs.
Proof.
  induction l as [|[n line] l IH]; intros c c'; cbn [fold_m map]; [intros [= <-]; exists []; by rewrite app_nil_r|].
  destruct (convert_line c (n, line)) as [c1|] eqn:E; [|done]. intros (rs & Er & Hf)%IH. apply convert_line_ranges in E. cbn [snd].
  unfold values. cbn [omap list_omap]. fold (values "dhcp-range" (map snd l)). destruct (value_of "dhcp-range" line) as [v|].
  - destruct E as (r & Es & Ec). exists (r :: rs). rewrite Er, Ec, <-app_assoc. split; [done|]. by constructor.
  - exists rs. by rewrite Er, E.
Qed.

Lemma convert_line_interfaces c c' n line : convert_line c (n, line) = Ok c' ->
  cInterfaces c' ⊆ cInterfaces c ++ match value_of "interface" line with Some v => [v] | None => [] end.
Proof.
  unfold convert_line. cbn [fst snd]. destruct (is_empty (bare line)) eqn:Hb; [intros [= <-]; set_solver|].
  destruct (directive line) as [k v] eqn:Ed. rewrite (value_of_other _ _ _ _ Hb Ed). destruct (String.eqb_spec k "interface") as [-> |Hne].
  - cbn. by intros [= <-].
  - rewrite app_nil_r. intros H. destruct (_ || _); [injection H as <-; cbn; intros i Hi; unfold removeString in Hi; apply list_elem_of_In, filter_In in Hi as [Hi _]; by apply list_elem_of_In|].
    repeat match type of H with
      | (if ?b then _ else _) = _ => destruct b
      | (_ ≫= _) = _ => next_ok H
      end; try done; try (injection H as <-; done).
    unfold read_domain in H. repeat case_match; try done; by injection H as <-.
Qed.

Lemma convert_lines_interfaces l : forall c c', fold_m convert_line c l = Ok c' -> cInterfaces c' ⊆ cInterfaces c ++ values "interface" (map snd l).
Proof.
  induction l as [|[n line] l IH]; intros c c'; cbn [fold_m map]; [intros [= <-]; rewrite app_nil_r; done|].
  destruct (convert_line c (n, line)) as [c1|] eqn:E; [|done]. intros Hs%IH i Hi%Hs. apply convert_line_interfaces in E.
  unfold values. cbn [omap list_omap snd]. destruct (value_of "interface" line); set_solver.
Qed.

Lemma numbered_lines (l : list string) : map snd (imap pair l) = l.
Proof.
  apply list_eq. intros i. change (map snd (imap pair l)) with (snd <$> imap pair l). rewrite list_lookup_fmap, list_lookup_imap. by destruct (l !! i).
Qed.

(** The server of a scope is an address of its interface, inside its subnet. *)
Definition serves_on (interfaces : list string) (start : Addr) (p : Prefix) (found : string * Addr) : Prop :=
  exists addrs a, fst found ∈ interfaces /\ Addrs (fst found) = Ok addrs /\ a ∈ addrs /\ PAddr a = snd found
  /\ Is4 (snd found) = Is4 start /\ Contains p (snd found) = true /\ IsLinkLocalUnicast (snd found) = false.

Lemma find_server_ok start p interfaces : forall found found', fold_m (find_server Addrs start (Some p)) found interfaces = Ok found' ->
  found' = found \/ exists x, found' = Some x /\ serves_on interfaces start p x.
Proof.
  induction interfaces as [|name names IH]; intros found found'; cbn [fold_m]; [intros [= <-]; by left|].
  unfold find_server at 1. destruct (Addrs name) as [addrs|] eqn:Ea; [|done]. cbn. intros H.
  assert (H1 : forall l acc, (forall a, a ∈ l -> a ∈ addrs) -> let r := fold_left (fun acc a => if Bool.eqb (Is4 (PAddr a)) (Is4 start) && Contains p (PAddr a)
      && negb (IsLinkLocalUnicast (PAddr a)) then Some (name, PAddr a) else acc) l acc in r = acc \/ exists x, r = Some x /\ serves_on (name :: names) start p x).
  { induction l as [|a l IHl]; intros acc Hl; cbn; [by left|]. destruct (IHl (if Bool.eqb (Is4 (PAddr a)) (Is4 start) && Contains p (PAddr a)
      && negb (IsLinkLocalUnicast (PAddr a)) then Some (name, PAddr a) else acc)) as [E|E]; [intros; apply Hl; by right| |by right].
    rewrite E. destruct (_ && _) eqn:Eb; [|by left]. right. eexists. split; [done|]. apply andb_prop in Eb as [Eb Eu%negb_true_iff].
    apply andb_prop in Eb as [Eb%eqb_prop Ec]. exists addrs, a. split_and!; try done; [left|apply Hl; left]. }
  apply IH in H as [->|(x & -> & addrs' & a & Hx & Hr)]; [destruct (H1 addrs found (fun _ H => H)) as [E|E]; [by left|by right]|].
  right. exists x. split; [done|]. exists addrs', a. split; [by right|done].
Qed.

(** The scope a range becomes. *)
Definition scope_of_range (interfaces : list string) (v : string) (s : Scope) : Prop :=
  exists tag a b mask lifetime start end_ p server life, splitRange v = Ok (tag, (a, b, mask, lifetime))
  /\ ParseAddr a = Some start /\ ParseAddr b = Some end_ /\ range_prefix start mask = Ok (Some p) /\ parseDNSmasqDuration lifetime = Some life
  /\ sStart s = AddrString start /\ sEnd s = AddrString end_ /\ Subnet s = PrefixString p /\ LeaseSeconds s = life
  /\ sServer s = AddrString server /\ serves_on interfaces start p (Interface s, server)
  /\ sID s = (if Is4 start then Interface s else Interface s +++ "-6") /\ Enabled s = true.

Lemma convert_range_ok c scopes devices warnings rg scopes' devices' warnings' v : splitRange v = Ok rg ->
  convert_range Addrs iterate c (scopes, devices, warnings) rg = Ok (scopes', devices', warnings') ->
  exists s, scopes' = scopes ++ [s] /\ scope_of_range (cInterfaces c) v s.
Proof.
  intros Er H. destruct rg as [tag [[[a b] mask] lifetime]]. unfold convert_range in H.
  destruct (ParseAddr a) as [start|] eqn:Ea; [|done]. destruct (ParseAddr b) as [end_|] eqn:Eb; [|done]. next_ok H. rename x into prefix.
  destruct (parseDNSmasqDuration lifetime) as [life|] eqn:Ed; [|done]. next_ok H. destruct x as [[iface server]|]; [|done]. destruct prefix as [p|]; [|done].
  cbv zeta in H. apply seq_ok in H as [_ H]. apply seq_ok in H as [_ H]. next_ok H. rename x into s1. next_ok H. destruct x as [devs rsv]. injection H as <- <- <-.
  eexists. split; [done|]. apply find_server_ok in Hx0 as [?|(x & [= <-] & Hs)]; [done|].
  exists tag, a, b, mask, lifetime, start, end_, p, server, life. split_and!; try done.
  all: unfold family_settings in Hx1; destruct (Is4 start); [next_ok Hx1|]; by injection Hx1 as <-.
Qed.

Lemma convert_ranges_ok c rgs : forall vs scopes devices warnings scopes' devices' warnings', Forall2 (fun v r => splitRange v = Ok r) vs rgs ->
  fold_m (convert_range Addrs iterate c) (scopes, devices, warnings) rgs = Ok (scopes', devices', warnings') ->
  exists new, scopes' = scopes ++ new /\ Forall2 (scope_of_range (cInterfaces c)) vs new.
Proof.
  induction rgs as [|rg rgs IH]; intros vs scopes devices warnings scopes' devices' warnings' Hvs; cbn [fold_m].
  - apply Forall2_nil_inv_r in Hvs as ->. intros [= <- <- <-]. exists []. by rewrite app_nil_r.
  - apply Forall2_cons_inv_r in Hvs as (v & vs' & Hv & Hvs & ->). destruct (convert_range _ _ _ _ rg) as [[[s1 d1] w1]|] eqn:E; [|done].
    apply (convert_range_ok _ _ _ _ _ _ _ _ v) in E as (s & -> & Hs); [|done]. intros (new & -> & Hn)%(IH vs'); [|done].
    exists (s :: new). rewrite <-app_assoc. split; [done|by constructor].
Qed.

(** A plan whose files and unit are as the check wants them passes the whole of it. *)
Lemma checked_converted Lstat execStart l c text command :
  FlattenDNSmasq ReadFile ListDir (ConfigPath l) = Ok text -> ValidateDNSmasqConfig c text (LeasePath l) = Ok tt ->
  dnsmasq_unit (Unit l) = true -> Forall (fun p => IsAbs p = true /\ Clean p = p /\ Lstat p = Ok true) [ConfigPath l; LeasePath l] ->
  execStart (Unit l) = Ok command -> contains_text command "dnsmasq" = true -> names_path (ConfigPath l) command = true ->
  SystemDNSmasq_Validate ReadFile ListDir Lstat execStart l c = Ok tt.
Proof.
  intros Ht Hv Hu Hp He Hd Hn. unfold SystemDNSmasq_Validate. rewrite Hu, He, Ht.
  assert (for_each (checked_path Lstat) [ConfigPath l; LeasePath l] = Ok tt) as ->.
  { apply for_each_ok. eapply Forall_impl; [exact Hp|]. intros p (Ha & Hc & Hl). unfold checked_path. rewrite Ha, Hc, String.eqb_refl, Hl. reflexivity. }
  cbn [check mbind result_bind]. rewrite Hd, Hn. exact Hv.
Qed.

(** C12: A conversion accounts for the text it reads, the one FlattenDNSmasq makes of the file and its
    includes (with its own reading of conf-dir patterns, see star_leaves_out_the_files).  When it
    succeeds, whatever order Go visits its maps in, the plan names the unit and the file that were
    given; its target is an accepted configuration that accounts for every line of the text; it has
    exactly one scope per range of the text, in their order, with the range's addresses, netmask and
    lifetime, served from an address that one of the interfaces the text lists has inside the
    range's subnet; and the plan passes the check a takeover begins with, as long as the files say
    the same and are regular ones under clean absolute paths, the unit is a dnsmasq service and its
    command line names the file. *)
Theorem conversion_faithful path unit_ plan :
  ConvertDNSmasq ReadFile ListDir Addrs iterate path unit_ = Ok plan ->
  exists text interfaces, FlattenDNSmasq ReadFile ListDir path = Ok text
  /\ interfaces ⊆ values "interface" (lines_of text)
  /\ Unit (Legacy plan) = unit_ /\ ConfigPath (Legacy plan) = path
  /\ Validate (Target plan) = Ok tt /\ ValidateDNSmasqConfig (Target plan) text (LeasePath (Legacy plan)) = Ok tt
  /\ reproduces (Target plan) text (LeasePath (Legacy plan))
  /\ Forall2 (scope_of_range interfaces) (values "dhcp-range" (lines_of text)) (Scopes (Target plan))
  /\ forall Lstat execStart command, dnsmasq_unit unit_ = true ->
       Forall (fun p => IsAbs p = true /\ Clean p = p /\ Lstat p = Ok true) [path; LeasePath (Legacy plan)] ->
       execStart unit_ = Ok command -> contains_text command "dnsmasq" = true -> names_path path command = true ->
       SystemDNSmasq_Validate ReadFile ListDir Lstat execStart (Legacy plan) (Target plan) = Ok tt.
Proof.
  unfold ConvertDNSmasq. intros H. next_ok H. rename x into text. next_ok H. rename x into c. apply seq_ok in H as [_ H]. apply seq_ok in H as [_ H].
  next_ok H. destruct x as [[scopes devices] warnings]. apply seq_ok in H as [_ H]. cbv zeta in H. apply seq_ok in H as [_ H].
  apply seq_ok in H as [Hval H]. apply seq_ok in H as [Hdm [= <-]]. exists text, (cInterfaces c). cbn [Legacy Target Unit ConfigPath LeasePath Scopes].
  destruct (Validate _) as [[]|] eqn:Ev; [|done]. destruct (ValidateDNSmasqConfig _ _ _) as [[]|] eqn:Ed; [|done].
  pose proof (convert_lines_interfaces _ _ _ Hx0) as Hi. cbn in Hi. rewrite numbered_lines in Hi.
  apply convert_lines_ranges in Hx0 as (rs & Er & Hf). cbn in Er. rewrite Er in Hx1. rewrite numbered_lines in Hf.
  split_and!; try done; [by apply validated_reproduces| |intros; by eapply checked_converted].
  eapply convert_ranges_ok in Hx1 as (new & -> & Hn); [exact Hn|exact Hf].
Qed.
End Conversion.

(** * A dnsmasq configuration of two files, converted; and three configurations that show what the
    conversion does not do. *)

Module ConvertExample.

Definition lines (ls : list string) : string := join newline ls.

Definition main_file (include : string) : string :=
  lines ["# the LAN"; "interface=eth0"; "domain=lan.example"; "dhcp-leasefile=/var/lib/misc/dnsmasq.leases"; include; "enable-tftp"; "tftp-root=/srv/tftp"].
Definition lan_file (life : string) : string :=
  lines ["dhcp-range=set:lan,10.0.0.10,10.0.0.20,255.255.255.0," +++ life; "dhcp-option=tag:lan,option:ntp-server,10.0.0.2";
         "dhcp-host=02:00:00:00:00:05,10.0.0.5,printer  # upstairs"].

(** The files of the host: the main file and a directory. *)
Definition files (main lan extra : string) (p : string) : result string string :=
  if p =?s "/etc/dnsmasq.conf" then Ok main
  else if p =?s "/etc/dnsmasq.d/lan.conf" then Ok lan
  else if p =?s "/etc/dnsmasq.d/extra" then Ok extra
  else Err "no such file".
Definition dir (p : string) : result string (list string) :=
  if p =?s "/etc/dnsmasq.d" then Ok ["/etc/dnsmasq.d/lan.conf"; "/etc/dnsmasq.d/extra"] else Err "no such directory".
Definition addrs (name : string) : result string (list Prefix) :=
  if name =?s "eth0" then Ok [mkPrefix (Addr4 167772161) 24; mkPrefix (Addr6 338288524927261089654018896841347694593 "eth0") 64] else Err "no such interface".

Definition convert (main lan extra : string) (iterate : gmap string string -> list (string * string)) : result string ConvertPlan :=
  ConvertDNSmasq (files main lan extra) dir addrs iterate "/etc/dnsmasq.conf" "dnsmasq.service".

Definition main_text : string := main_file "conf-dir=/etc/dnsmasq.d,.bak".
Definition lan_text : string := lan_file "12h".
Definition plan : ConvertPlan :=
  Eval vm_compute in
    match convert main_text lan_text "# nothing" map_to_list with
    | Ok p => p
    | Err _ => mkPlan (mkConfig [] [] None) (mkSpec EmptyString EmptyString EmptyString) []
    end.
Definition flat : string :=
  Eval vm_compute in match FlattenDNSmasq (files main_text lan_text "# nothing") dir "/etc/dnsmasq.conf" with Ok t => t | Err _ => EmptyString end.

Lemma converted_plan :
  ConvertDNSmasq (files main_text lan_text "# nothing") dir addrs map_to_list "/etc/dnsmasq.conf" "dnsmasq.service" = Ok plan.
Proof. vm_compute. reflexivity. Qed.
Lemma flat_text : FlattenDNSmasq (files main_text lan_text "# nothing") dir "/etc/dnsmasq.conf" = Ok flat.
Proof. vm_compute. reflexivity. Qed.
Lemma flat_only text : FlattenDNSmasq (files main_text lan_text "# nothing") dir "/etc/dnsmasq.conf" = Ok text -> text = flat.
Proof. rewrite flat_text. intros H. by apply Ok_inj in H. Qed.
Lemma flat_ranges : values "dhcp-range" (lines_of flat) = ["set:lan,10.0.0.10,10.0.0.20,255.255.255.0,12h"].
Proof. vm_compute. reflexivity. Qed.
Lemma flat_hosts : values "dhcp-host" (lines_of flat) = ["02:00:00:00:00:05,10.0.0.5,printer"].
Proof. vm_compute. reflexivity. Qed.
Lemma plan_valid : Validate (Target plan) = Ok tt.
Proof. vm_compute. reflexivity. Qed.

Lemma conversion_faithful_witness : length (Scopes (Target plan)) = 1%nat /\ ConfigPath (Legacy plan) = "/etc/dnsmasq.conf".
Proof.
  destruct (conversion_faithful _ _ _ _ _ _ _ converted_plan) as (text & is_ & Ht & _ & _ & Hp & _ & _ & _ & Hf & _).
  split; [|exact Hp]. apply Forall2_length in Hf. rewrite <-Hf. rewrite (flat_only text Ht), flat_ranges. reflexivity.
Defined.

(** The host: both files are regular, and the unit runs dnsmasq on the first. *)
Definition lstat (p : string) : result string bool := Ok true.
Definition exec_start (u : string) : result string string := Ok "{ path=/usr/sbin/dnsmasq ; argv[]=/usr/sbin/dnsmasq -k -C /etc/dnsmasq.conf ; ignore_errors=no }".

Lemma plan_checked : SystemDNSmasq_Validate (files main_text lan_text "# nothing") dir lstat exec_start (Legacy plan) (Target plan) = Ok tt.
Proof. vm_compute. reflexivity. Qed.

Definition error_of {A} (r : result string A) : string := match r with Ok _ => EmptyString | Err e => e end.

(** A lifetime in days is read by the converter and refused by the check it ends with, which reads
    Go's durations: no range with such a lifetime is ever converted. *)
Lemma days_never_converted :
  parseDNSmasqDuration "1d" = Some 86400 /\ ParseDuration "24h" = Some (86400 * second) /\ ParseDuration "1d" = None
  /\ error_of (convert (main_file "conf-dir=/etc/dnsmasq.d") (lan_file "1d") "# nothing" map_to_list)
     = "converted target does not reproduce the legacy behaviour: legacy lease lifetime differs or is unsupported".
Proof. split_and!; vm_compute; reflexivity. Qed.

(** conf-dir=DIR,*.conf, which for dnsmasq means the files with that suffix only, leaves out exactly
    those: the ranges of lan.conf are not seen, and what is read instead is the other file. *)
Lemma star_leaves_out_the_files :
  FlattenDNSmasq (files (main_file "conf-dir=/etc/dnsmasq.d,*.conf") (lan_file "12h") "log-dhcp") dir "/etc/dnsmasq.conf" = Ok (main_file "log-dhcp").
Proof. vm_compute. reflexivity. Qed.

(** Two domain lines for networks that both hold the range: the zone of the scope is that of the
    network Go's map iteration happens to visit last, and either plan is accepted. *)
Definition two_zones : string := lines ["domain=a.example,10.0.0.0/24"; "domain=b.example,10.0.0.0/16"; "conf-dir=/etc/dnsmasq.d"].
Definition zones (iterate : gmap string string -> list (string * string)) : list string :=
  match convert (main_file two_zones) (lan_file "12h") "# nothing" iterate with Ok p => map Zone (Scopes (Target p)) | Err _ => [] end.
Lemma zone_depends_on_iteration : zones map_to_list <> zones (fun m => rev (map_to_list m)) /\ length (zones map_to_list) = 1%nat
  /\ length (zones (fun m => rev (map_to_list m))) = 1%nat.
Proof. split_and!; vm_compute; [discriminate|reflexivity..]. Qed.

End ConvertExample.
