(* ===== verification/Takeover.v ===== *)
(** A takeover and the configuration it takes over: [Begin] (Handover.v) with the answer of
    LegacyAuthority.Validate computed by the check of Convert.v. *)

From S2P Require Import Prelude State NetAddr Config Allocate Dnsmasq Manager Convert ConvertInv Handover HandoverExample BookExample.
Local Open Scope Z_scope.

(** Nothing has happened but the passing of time. *)
Definition untouched (h h' : host) : Prop :=
  db h' = db h /\ saved h' = saved h /\ file h' = file h /\ dnsmasq h' = dnsmasq h /\ mgr h' = mgr h /\ loaded h' = loaded h.

(** A step that leaves the host alone and whose result satisfies [Q]. *)
Definition quiet {A} (m : act A) (Q : A -> Prop) : Prop :=
  forall h, untouched h (fst (m h)) /\ forall a, snd (m h) = Done a -> Q a.
(** A step that either leaves the host alone and does not succeed, or [P] holds. *)
Definition guarded {A} (P : Prop) (m : act A) : Prop :=
  forall h, P \/ (untouched h (fst (m h)) /\ forall a, snd (m h) <> Done a).

Lemma untouched_trans h1 h2 h3 : untouched h1 h2 -> untouched h2 h3 -> untouched h1 h3.
Proof. unfold untouched. intuition congruence. Qed.

Lemma guarded_holds {A} (P : Prop) (m : act A) : P -> guarded P m.
Proof. by left. Qed.

Lemma guarded_bind {A B} (P : Prop) Q (m : act A) (f : A -> act B) :
  quiet m Q -> (forall a, Q a -> guarded P (f a)) -> guarded P (m ≫= f).
Proof.
  intros Hm Hf h. destruct (Hm h) as [Hu HQ]. unfold mbind, act_bind. destruct (m h) as [h1 [a|e|]]; cbn [fst snd] in *; [|right; by split..].
  destruct (Hf a (HQ a eq_refl) h1) as [HP|[Hu' Hn]]; [by left|]. right. split; [by eapply untouched_trans|done].
Qed.

Lemma quiet_gets {A} (f : host -> A) : quiet (gets f) (fun _ => True).
Proof. by intros h. Qed.
Lemma quiet_ask {A} (f : nat -> A) : quiet (ask f) (fun a => exists k, a = f k).
Proof. intros h. split; [done|]. cbn. intros a [= <-]. by eexists. Qed.
Lemma quiet_lift {A} (r : result string A) : quiet (lift r) (fun a => r = Ok a).
Proof. intros h. split; [done|]. cbn. by destruct r as [a|e]; intros ? [= <-]. Qed.
Lemma quiet_refuse b e : quiet (refuse_if b e) (fun _ => b = false).
Proof. intros h. by destruct b. Qed.
Lemma quiet_view out {A} (f : store -> A) : quiet (view out f) (fun _ => True).
Proof. intros h. unfold view, mbind, act_bind, ask. by destruct (o_view out (ticks h)). Qed.

Create HintDb takeover.
#[export] Hint Resolve quiet_gets quiet_ask quiet_lift quiet_refuse quiet_view : takeover.

Section Takeover.
Context (sha256_hex : string -> string) (duid_valid : string -> bool) (fingerprint : Config -> string).
Context (config_eqb : Config -> Config -> bool) (out : outside).
Context (ReadFile : string -> result string string) (ListDir : string -> result string (list string)).
Context (Lstat : string -> result string bool) (execStart : string -> result string string).

(** Validate answers with what the check of the unit and its files says. *)
Definition validates (spec : LegacySpec) (target : Config) : Prop :=
  forall k, o_validate out k = match SystemDNSmasq_Validate ReadFile ListDir Lstat execStart spec target with Ok _ => None | Err e => Some e end.

Lemma quiet_validate spec target : validates spec target ->
  quiet (LegacyValidate out) (fun _ => SystemDNSmasq_Validate ReadFile ListDir Lstat execStart spec target = Ok tt).
Proof.
  intros Hv h. unfold LegacyValidate, mbind, act_bind, ask. rewrite (Hv (ticks h)).
  by destruct (SystemDNSmasq_Validate _ _ _ _ _ _) as [[]|].
Qed.

Lemma begin_guarded target spec grace require probes allowPD : validates spec target ->
  guarded (accounted ReadFile ListDir Lstat execStart spec target)
    (Begin sha256_hex duid_valid fingerprint out config_eqb target spec grace require probes allowPD).
Proof.
  intros Hv. unfold Begin. eapply guarded_bind; [auto with takeover|]. intros [] Hc.
  do 6 (eapply guarded_bind; [unfold HandoverJournal_; auto with takeover|]; intros ? _).
  eapply guarded_bind; [auto with takeover|]. intros ? _. eapply guarded_bind; [by apply quiet_validate|]. intros [] Ha.
  apply guarded_holds. by apply system_accounts.
Qed.

(** C11: dnsmasq is only taken over with a target that accounts for its configuration as the daemon
    reads it, that is, for the text FlattenDNSmasq makes of the file and its includes.  (That text
    is not always what dnsmasq reads: a conf-dir line with a pattern such as *.conf leaves out the
    files with that suffix, where dnsmasq would read only those; see star_leaves_out_the_files.)
    Whatever fails or crashes, beginning a takeover either has not touched anything (the store, the
    saved configuration, the lease file, the unit and the running manager are as they were, and no
    success is returned), or the unit is a dnsmasq service whose command line names the
    configuration file as a word of its own, both files are regular ones under clean absolute
    paths, and the target reproduces the text: every line of it is one that is understood; every
    range in it is a scope of the target with the same addresses, netmask and lease time, and every
    reservation is one of the target's; and the other way around every scope of the target is
    enabled and serves a range of the text, on an interface the text lists and does not exclude, in
    a zone the text gives it; an IPv6 scope has router advertisements exactly if the text enables
    them, and an IPv4 scope hands out exactly the router, DNS servers, options and boot file that
    reach its range (what an IPv6 scope hands out besides addresses is not compared); TFTP is served
    exactly if it was, from the same root on the same interfaces; and the lease file is the one that
    is read. *)
Theorem takeover_guarded target spec grace require probes allowPD h h' r :
  validates spec target ->
  Begin sha256_hex duid_valid fingerprint out config_eqb target spec grace require probes allowPD h = (h', r) ->
  accounted ReadFile ListDir Lstat execStart spec target \/ (untouched h h' /\ forall a, r <> Done a).
Proof. intros Hv E. pose proof (begin_guarded target spec grace require probes allowPD Hv h) as H. rewrite E in H. exact H. Qed.
End Takeover.

Import HandoverExample ConvertExample BookExample.

(** A host whose dnsmasq runs the configuration of ConvertExample.v, and its conversion as the target. *)
Definition converted_config : Config := Convert.Target plan.
Definition spec0 : LegacySpec := Convert.Legacy plan.
Definition answering : outside :=
  let o := calls 1000 Inactive in
  mkOutside (o_now o) (o_view o) (o_commit o) (o_save o) (o_load o) (o_lock o) (o_systemctl o) (o_settles o) (o_owns_port o) (o_file o)
    (fun _ => match SystemDNSmasq_Validate (files main_text lan_text "# nothing") dir lstat exec_start spec0 converted_config with Ok _ => None | Err e => Some e end)
    (o_opens o) (o_answers o) (o_probe o).
Definition begun : host * outcome string unit :=
  Begin digest64 accept_duid zero_print answering never_equal converted_config spec0 600 false [] false host1.

Lemma takeover_guarded_witness : snd begun = Done tt /\ dnsmasq (fst begun) = mkUnit true Inactive
  /\ accounted (files main_text lan_text "# nothing") dir lstat exec_start spec0 converted_config.
Proof.
  assert (Hd : snd begun = Done tt) by (vm_compute; reflexivity). split; [exact Hd|]. split; [vm_compute; reflexivity|].
  destruct (takeover_guarded digest64 accept_duid zero_print never_equal answering (files main_text lan_text "# nothing") dir lstat exec_start
    converted_config spec0 600 false [] false host1 (fst begun) (snd begun)) as [H|[_ Hn]].
  - intros k. reflexivity.
  - apply surjective_pairing.
  - exact H.
  - destruct (Hn tt Hd).
Defined.
