(* ===== verification/Dhcp4.v ===== *)
(** DHCPv4: the packet path (coredhcpserver/handle.go), the registry's plugin (core_plugin.go) and
    the handler that turns a request into ledger operations (server.go, Handle4).

    A request is the fields the code reads through the packet library; a reply the fields it
    sets, its options by code.  Building a reply can fail in the library ([broken]). *)

From S2P Require Import Prelude NetAddr Ledger Config Allocate.
Local Open Scope Z_scope.

Inductive Msg4 := None4 | Discover4 | Offer4 | Request4 | Decline4 | Ack4 | Nak4 | Release4 | Inform4 | Other4.
#[global] Instance Msg4_eq_dec : EqDecision Msg4.
Proof. solve_decision. Defined.

Record DHCPv4 := mkDHCPv4 {
  BootRequest : bool;             (* OpCode = OpcodeBootRequest *)
  ClientHWAddr : list Z;
  HopCount : Z;
  GatewayIPAddr : Z;
  ClientIPAddr : Z;
  IsBroadcast : bool;
  MessageType4 : Msg4;
  ServerIdentifier : option Z;
  ClientIdentifier : list Z;      (* option 61, empty when absent *)
  RequestedIPAddress : option Z;
  HostName : string;
  ClassIdentifier : string;
  ParameterRequestList : list Z;
}.

Inductive optval :=
| OType (t : Msg4)
| OIPs (ips : list (option Z))
| OMask (bits : Z)
| OSeconds (n : Z)
| ODomains (names : list string)
| OBytes (b : list Z)
| OText (s : string).

Record Reply4 := mkReply4 {
  rClientIP : Z;
  rYourIP : option Z;
  rServerIP : option Z;
  rFile : string;
  rOptions : gmap Z optval;
}.
Definition opt (code : Z) (r : Reply4) : option optval := rOptions r !! code.
Definition update_option (code : Z) (v : optval) (r : Reply4) : Reply4 :=
  mkReply4 (rClientIP r) (rYourIP r) (rServerIP r) (rFile r) (<[code := v]> (rOptions r)).

(** NewReplyFromRequest with the options of the modifiers. *)
Definition new_reply (ciaddr : Z) (yiaddr : option Z) (opts : list (Z * optval)) : Reply4 :=
  fold_left (fun r kv => update_option (fst kv) (snd kv) r) opts (mkReply4 ciaddr yiaddr (Some (of4 0)) EmptyString ∅).

Definition OptMask : Z := 1.
Definition OptRouter : Z := 3.
Definition OptDNS : Z := 6.
Definition OptLeaseTime : Z := 51.
Definition OptMessageType : Z := 53.
Definition OptServerID : Z := 54.
Definition OptTFTPServer : Z := 66.
Definition OptBootFile : Z := 67.
Definition OptDomainSearch : Z := 119.

(** * Handle4 *)

Definition client4 (r : DHCPv4) : string :=
  match ClientIdentifier r with
  | [] => "mac:" +++ MACString (ClientHWAddr r)
  | id => "id:" +++ concat_str (map hex2 id)
  end.

Definition requested4 (r : DHCPv4) : string :=
  match RequestedIPAddress r with
  | Some ip => AddrString4 ip
  | None => if ClientIPAddr r =? 0 then EmptyString else AddrString4 (ClientIPAddr r)
  end.

Definition wantsBoot (r : DHCPv4) (b : BootConfig) : bool :=
  Always b || bool_decide (MessageType4 r = None4) || has_prefix (ClassIdentifier r) "PXEClient"
  || existsb (fun c => (c =? OptTFTPServer) || (c =? OptBootFile)) (ParameterRequestList r).

Definition prefix_bits (subnet : string) : Z := match ParsePrefix subnet with Some p => PBits p | None => 0 end.

Definition dns_servers (s : Scope) : list (option Z) :=
  match DNSServers s with [] => [ParseIP (sServer s)] | ds => map (fun d => of4 <$> To4 (ParseIP d)) ds end.

(** The reply that carries a lease. *)
Definition lease_reply (s : Scope) (t : Msg4) (r : DHCPv4) (b : Binding) : Reply4 :=
  let server := ParseIP (sServer s) in
  let r1 := new_reply (ClientIPAddr r) (ParseIP (Address b))
    [(OptMessageType, OType t); (OptServerID, OIPs [server]); (OptMask, OMask (prefix_bits (Subnet s)));
     (OptRouter, OIPs [ParseIP (Router s)]); (OptDNS, OIPs (dns_servers s)); (OptLeaseTime, OSeconds (LeaseSeconds s mod 2^32));
     (OptDomainSearch, ODomains [Zone s])] in
  let r2 := fold_left (fun r o => update_option (Code o mod 256) (OBytes (wire o)) r) (Options s) r1 in
  match Boot s with
  | Some boot =>
    if wantsBoot r boot then
      let next := if is_empty (NextServer boot) then server else ParseIP (NextServer boot) in
      update_option OptBootFile (OText (File boot)) (update_option OptTFTPServer (OText (default "<nil>" (IPString <$> next)))
        (mkReply4 (rClientIP r2) (rYourIP r2) (of4 <$> To4 next) (File boot) (rOptions r2)))
    else r2
  | None => r2
  end.

Section Handle4.
Context (sha256_hex : string -> string).

(** [broken]: the packet library could not build the reply. *)
Definition built (broken : bool) (r : Reply4) : result alloc_error (option Reply4) :=
  if broken then Err (Refused "reply") else Ok (Some r).

(** The requests the handler ignores. *)
Definition ignored4 (s : Scope) (r : DHCPv4) : bool :=
  negb (BootRequest r) || negb (length (ClientHWAddr r) =? 6)%nat
  || (match Relay s with None => negb (GatewayIPAddr r =? 0) | Some _ => false end)
  || (match ServerIdentifier r with Some id => negb (ip_eqb (Some (of4 id)) (ParseIP (sServer s))) | None => false end).

Definition Handle4 (now : Z) (broken : bool) (c : Config) (s : Scope) (r : DHCPv4) (l : ledger) :
    ledger * result alloc_error (option Reply4) :=
  if ignored4 s r then (l, Ok None)
  else
    let server := ParseIP (sServer s) in
    let commit := bool_decide (MessageType4 r = Request4) in
    match MessageType4 r with
    | Discover4 | Request4 =>
      match Allocate sha256_hex now c (sID s) (client4 r) (MACString (ClientHWAddr r)) (HostName r) (requested4 r) commit l with
      | (l', Ok b) => (l', built broken (lease_reply s (if commit then Ack4 else Offer4) r b))
      | (l', Err (Unavailable e)) =>
        if commit then (l', built broken (new_reply 0 (Some (of4 0)) [(OptMessageType, OType Nak4); (OptServerID, OIPs [server])]))
        else (l', Err (Unavailable e))
      | (l', Err e) => (l', Err e)
      end
    | Release4 | Decline4 =>
      match Release now (sID s) (client4 r) (requested4 r) (bool_decide (MessageType4 r = Decline4)) l with
      | (l', Ok _) => (l', Ok None)
      | (l', Err e) => (l', Err e)
      end
    | Inform4 =>
      (l, built broken (new_reply (ClientIPAddr r) (Some (of4 0))
            [(OptMessageType, OType Ack4); (OptServerID, OIPs [server]); (OptDNS, OIPs [server]); (OptDomainSearch, ODomains [Zone s])]))
    | _ => (l, Ok None)
    end.

(** * The plugin and the packet path *)

(** Where a datagram came from: its address (sixteen bytes) and port. *)
Record UDPAddr := mkUDP { uIP : Z; uPort : Z }.

Definition PortDHCPv4Server : Z := 67.

Definition matches4 (s : Scope) (r : DHCPv4) (peer : UDPAddr) : bool :=
  if scope_is6 s then false
  else match Relay s with
       | None => GatewayIPAddr r =? 0
       | Some relay => (uPort peer =? PortDHCPv4Server) && ip_eqb (Some (uIP peer)) (ParseIP (rPeer relay))
                       && ip_eqb (Some (of4 (GatewayIPAddr r))) (ParseIP (Link relay)) && (HopCount r <=? 16)
       end.

(** Guard4: some scope served on this socket may receive the packet. *)
Definition guard4 (c : Config) (key : string) (r : DHCPv4) (peer : UDPAddr) : bool :=
  existsb (fun s => Enabled s && (socketKey s =?s key) && matches4 s r peer) (Scopes c).

(** The scope the plugin picks. *)
Definition picks4 (key : string) (r : DHCPv4) (s : Scope) : bool :=
  Enabled s && (socketKey s =?s key)
  && match Relay s with
     | None => GatewayIPAddr r =? 0
     | Some relay => ip_eqb (Some (of4 (GatewayIPAddr r))) (ParseIP (Link relay))
     end.

(** The plugin: the reply it returns, errors logged and dropped. *)
Definition ghostleases4 (now : Z) (broken : bool) (c : Config) (key : string) (r : DHCPv4) (l : ledger) : ledger * option Reply4 :=
  match find (picks4 key r) (Scopes c) with
  | Some s =>
    match Handle4 now broken c s r l with
    | (l', Ok (Some reply)) =>
      (l', Some (mkReply4 (rClientIP reply) (rYourIP reply) (ParseIP (sServer s)) (rFile reply) (rOptions reply)))
    | (l', Ok None) => (l', None)
    | (l', Err _) => (l', None)
    end
  | None => (l, None)
  end.

Inductive destination :=
| ToRelay (ip : Z)
| ToBroadcast
| ToClient (ip : Z)
| ToHardware (ip : option Z).

Definition reply_to (r : DHCPv4) (reply : Reply4) : destination :=
  if negb (GatewayIPAddr r =? 0) then ToRelay (GatewayIPAddr r)
  else match opt OptMessageType reply with
       | Some (OType Nak4) => ToBroadcast
       | _ => if negb (ClientIPAddr r =? 0) then ToClient (ClientIPAddr r)
              else if IsBroadcast r then ToBroadcast else ToHardware (rYourIP reply)
       end.

Definition handled_type (t : Msg4) : bool :=
  match t with Discover4 | Request4 | Release4 | Decline4 | Inform4 => true | _ => false end.

(** HandleMsg4 of a listener whose one handler is the plugin: the ledger and the packet sent.
    [unbuilt]: its own reply, which the plugin replaces, could not be built. *)
Definition HandleMsg4 (now : Z) (unbuilt broken : bool) (c : Config) (key : string) (peer : UDPAddr) (r : DHCPv4) (l : ledger) :
    ledger * option (destination * Reply4) :=
  if negb (guard4 c key r peer) || negb (BootRequest r) || unbuilt || negb (handled_type (MessageType4 r)) then (l, None)
  else match ghostleases4 now broken c key r l with
       | (l', Some reply) => (l', Some (reply_to r reply, reply))
       | (l', None) => (l', None)
       end.

End Handle4.
