(* ===== verification/Dhcp4Inv.v ===== *)
(** DHCPv4 correctness: a packet is served by the one scope it matched, what the reply carries is
    what the ledger holds, and an offer is honoured. *)

From S2P Require Import Prelude NetAddr Ledger LedgerInv Config KeyText ConfigInv AddrText Allocate AllocInv BookInv BookSafety.
From S2P Require Import BookGrant LeaseText Dhcp4.
From Stdlib Require Import Ascii.
Local Open Scope Z_scope.

(** * Accepted scopes *)

(** What is used of an accepted scope here. *)
Record sound_scope (s : Scope) (p : Prefix) : Prop := {
  ss_prefix : ParsePrefix (Subnet s) = Some p;
  ss_server : exists a, ParseAddr (sServer s) = Some a /\ Is4 a = Is4 (PAddr p);
  ss_relay r : Relay s = Some r -> exists link, ParseAddr (Link r) = Some link /\ Contains p link = true /\ IsUnspecified link = false;
  ss_router : scope_is6 s = false -> exists a, ParseAddr (Router s) = Some a /\ Contains p a = true;
  ss_options : Forall (fun o => 1 <= Code o <= 254 /\ existsb (Z.eqb (Code o)) reservedOptionCodes = false) (Options s);
}.

Lemma add_option_ok s os seen seen' : fold_m (add_option s) seen os = Ok seen' ->
  Forall (fun o => 1 <= Code o <= 254 /\ existsb (Z.eqb (Code o)) reservedOptionCodes = false) os.
Proof.
  intros H. apply Forall_forall. intros o Ho. destruct (fold_m_each _ _ _ _ _ H Ho) as (s1 & s2 & E). unfold add_option in E.
  destruct (validate_option o) as [[]|] eqn:Eo; [|done]. unfold validate_option in Eo. apply seq_ok in Eo as [Eo%fail_if_ok _].
  bool_hyps. split; [lia|done].
Qed.

Lemma accepted_scope c s : Validate c = Ok tt -> s ∈ Scopes c -> exists p, sound_scope s p.
Proof.
  intros Hv Hs. destruct (scope_checked c s Hv Hs) as (devs & st & st' & H). unfold validate_scope in H. do 14 next_ok H. clear H.
  rename select (check_subnet _ = _) into Hsub. rename select (check_server _ _ = _) into Hsrv. rename select (check_selector _ _ _ = _) into Hsel.
  rename select (check_pool _ _ = _) into Hpool. rename select (check_options _ = _) into Hopt. exists x0. split.
  - unfold check_subnet in Hsub. destruct (ParsePrefix (Subnet s)) as [p|]; [|done]. by apply seq_ok in Hsub as [_ [= <-]].
  - unfold check_server in Hsrv. destruct (ParseAddr (sServer s)) as [a|]; [|done]. apply seq_ok in Hsrv as [Hf%fail_if_ok _].
    bool_hyps. exists a. split; [done|]. by apply eqb_prop.
  - intros r Er. unfold check_selector in Hsel. rewrite Er in Hsel. destruct (ParseAddr (rPeer r)); [|done].
    destruct (ParseAddr (Link r)) as [link|]; [|done]. apply seq_ok in Hsel as [Hf%fail_if_ok _]. bool_hyps. by exists link.
  - intros H6. unfold check_pool in Hpool. apply seq_ok in Hpool as [Hf%fail_if_ok _]. rewrite H6 in Hf. bool_hyps.
    apply valid_host_spec. cbn in *. by bool_hyps.
  - unfold check_options in Hopt. destruct (Options s) as [|o os] eqn:Eo; [constructor|]. rewrite <-Eo in *.
    assert (exists seen, fold_m (add_option s) [] (Options s) = Ok seen) as [seen Hf]; [|by eapply add_option_ok].
    rewrite Eo in *. destruct (DNSServers s); do 4 next_ok Hopt; eauto.
Qed.

(** * Which scope serves a packet *)

Lemma validate_scope_selector devs st s st' : validate_scope devs st s = Ok st' ->
  exists sel, selectors st' = {[sel]} ∪ selectors st /\ (sel ∉ selectors st) /\ (Relay s = None -> sel = socketKey s +++ "/direct").
Proof.
  unfold validate_scope. intros H. do 14 next_ok H. apply Ok_inj in H as <-. rename select (check_selector _ _ _ = _) into Hsel.
  exists x3. split; [done|]. split.
  - destruct x4. apply fail_if_ok, bool_decide_eq_false in Hx4. done.
  - intros Er. unfold check_selector in Hsel. rewrite Er in Hsel. by apply seq_ok in Hsel as [_ [= <-]].
Qed.

Lemma fold_direct devs ss st st' : fold_m (validate_scope devs) st ss = Ok st' ->
  (forall s, s ∈ ss -> Relay s = None -> (socketKey s +++ "/direct") ∉ selectors st)
  /\ forall i j s t, ss !! i = Some s -> ss !! j = Some t -> (i < j)%nat -> Relay s = None -> Relay t = None -> socketKey s <> socketKey t.
Proof.
  revert st. induction ss as [|u ss IH]; intros st; cbn [fold_m]; [by intros _; split; [intros s ?%elem_of_nil|]|].
  destruct (validate_scope devs st u) as [st1|] eqn:E; [|done]. apply validate_scope_selector in E as (sel & Es & Hsel & Hd).
  intros [H1 H2]%IH. split.
  - intros s [->|Hs]%elem_of_cons Hr; [by rewrite <-(Hd Hr)|]. specialize (H1 s Hs Hr). set_solver.
  - intros [|i] [|j] s t Hi Hj Hij Hr Ht; try lia; [|eapply (H2 i j); eauto; lia].
    injection Hi as ->. intros Ek. apply (H1 t); [by eapply list_elem_of_lookup_2|done|]. rewrite <-Ek, <-(Hd Hr). set_solver.
Qed.

(** A family and interface have at most one direct scope. *)
Lemma direct_unique c i j s t : Validate c = Ok tt -> Scopes c !! i = Some s -> Scopes c !! j = Some t ->
  Relay s = None -> Relay t = None -> socketKey s = socketKey t -> i = j.
Proof.
  unfold Validate. intros H Hi Hj Hr Ht Ek. next_ok H. apply seq_ok in H as [_ H]. next_ok H. apply fold_direct in Hx0 as [_ H2].
  destruct (Nat.lt_total i j) as [Hlt|[?|Hlt]]; [exfalso; by eapply (H2 i j)|done|exfalso; by eapply (H2 j i)].
Qed.

Lemma socketKey_family s t : socketKey s = socketKey t -> scope_is6 s = scope_is6 t.
Proof. unfold socketKey. by destruct (scope_is6 s), (scope_is6 t). Qed.

Lemma family4 s p : sound_scope s p -> scope_is6 s = false -> Is4 (PAddr p) = true.
Proof. intros Hs. unfold scope_is6. rewrite (ss_prefix _ _ Hs). unfold Is6. by destruct (Is4 (PAddr p)). Qed.

(** The link of an IPv4 relay scope, as a number. *)
Lemma link4 s p r : sound_scope s p -> scope_is6 s = false -> Relay s = Some r ->
  exists n, ParseAddr (Link r) = Some (Addr4 n) /\ ParseIP (Link r) = Some (of4 n) /\ n <> 0 /\ Contains p (Addr4 n) = true.
Proof.
  intros Hs H6 Er. destruct (ss_relay _ _ Hs r Er) as (link & El & Hc & Hu). pose proof (family4 s p Hs H6) as H4.
  destruct (Contains_family p link Hc) as [Hf _]. rewrite H4 in Hf. destruct link as [n|]; [|done].
  exists n. unfold ParseIP. rewrite El. split_and!; try done. cbn in Hu. by apply Z.eqb_neq in Hu.
Qed.

Lemma of4_inj a b : of4 a = of4 b -> a = b.
Proof. unfold of4. lia. Qed.

Lemma picks_unique c key r i j s t : Validate c = Ok tt -> Scopes c !! i = Some s -> Scopes c !! j = Some t ->
  scope_is6 s = false -> picks4 key r s = true -> picks4 key r t = true -> i = j.
Proof.
  intros Hv Hi Hj H6 Hps Hpt. unfold picks4 in *. bool_hyps.
  assert (Ek : socketKey s = socketKey t) by (repeat match goal with H : (_ =?s _) = true |- _ => apply String.eqb_eq in H end; congruence).
  assert (H6' : scope_is6 t = false) by (by rewrite <-(socketKey_family s t Ek)).
  destruct (accepted_scope c s Hv) as [p Gs]; [by eapply list_elem_of_lookup_2|].
  destruct (accepted_scope c t Hv) as [q Gt]; [by eapply list_elem_of_lookup_2|].
  destruct (Relay s) as [rs|] eqn:Es, (Relay t) as [rt|] eqn:Et.
  - destruct (link4 s p rs Gs H6 Es) as (n & Pn & In & Nn & Cn). destruct (link4 t q rt Gt H6' Et) as (m & Pm & Im & Nm & Cm).
    rewrite In in *. rewrite Im in *. cbn in *. repeat match goal with H : (of4 _ =? _) = true |- _ => apply Z.eqb_eq, of4_inj in H end.
    assert (n = m) as -> by congruence. destruct (decide (i = j)) as [|Hne]; [done|exfalso].
    apply (scopes_disjoint c i j s t (AddrString4 m) Hv Hne Hi Hj). pose proof (canonical4 _ _ Pm) as Em.
    split; [exists p, (Addr4 m)|exists q, (Addr4 m)]; (split_and!; [by apply ss_prefix|by rewrite <-Em|done]).
  - destruct (link4 s p rs Gs H6 Es) as (n & Pn & In & Nn & Cn). rewrite In in *. cbn in *.
    repeat match goal with H : (of4 _ =? _) = true |- _ => apply Z.eqb_eq, of4_inj in H end. lia.
  - destruct (link4 t q rt Gt H6' Et) as (n & Pn & In & Nn & Cn). rewrite In in *. cbn in *.
    repeat match goal with H : (of4 _ =? _) = true |- _ => apply Z.eqb_eq, of4_inj in H end. lia.
  - by eapply direct_unique.
Qed.

Lemma matches_picks key r peer s : Enabled s = true -> socketKey s = key -> matches4 s r peer = true -> picks4 key r s = true /\ scope_is6 s = false.
Proof.
  unfold matches4, picks4. intros -> -> H. rewrite String.eqb_refl. destruct (scope_is6 s); [done|]. split; [|done]. cbn.
  destruct (Relay s); [|done]. by bool_hyps.
Qed.

(** The scope the plugin picks is the one the packet was let in for. *)
Lemma served_scope c key r peer : Validate c = Ok tt -> guard4 c key r peer = true ->
  exists s, find (picks4 key r) (Scopes c) = Some s /\ s ∈ Scopes c /\ Enabled s = true /\ socketKey s = key /\ matches4 s r peer = true
  /\ scope_is6 s = false.
Proof.
  unfold guard4. intros Hv (s & Hs%list_elem_of_In & Hm)%existsb_exists. bool_hyps.
  destruct (matches_picks key r peer s) as [Hp H6]; try done.
  apply list_elem_of_lookup in Hs as [i Hi].
  destruct (find (picks4 key r) (Scopes c)) as [t|] eqn:Ef.
  2:{ exfalso. pose proof (find_none _ _ Ef s (proj1 (list_elem_of_In _ _) (list_elem_of_lookup_2 _ _ _ Hi))). congruence. }
  apply find_some in Ef as [Ht%list_elem_of_In Hpt]. pose proof Ht as [j Hj]%list_elem_of_lookup.
  assert (i = j) as -> by (by eapply picks_unique). assert (t = s) as -> by congruence. by exists s.
Qed.

(** * Replies *)

Lemma options_kept os r code : Forall (fun o => 1 <= Code o <= 254 /\ existsb (Z.eqb (Code o)) reservedOptionCodes = false) os ->
  existsb (Z.eqb code) reservedOptionCodes = true ->
  opt code (fold_left (fun r o => update_option (Code o mod 256) (OBytes (wire o)) r) os r) = opt code r.
Proof.
  intros H Hc. revert r. induction H as [|o os [Hr Ho] _ IH]; intros r; [done|]. cbn [fold_left]. rewrite IH. unfold opt, update_option.
  cbn. rewrite Z.mod_small by lia. apply lookup_insert_ne. intros E. rewrite E in Ho. congruence.
Qed.

Lemma fold_options_ip os r : rYourIP (fold_left (fun r o => update_option (Code o mod 256) (OBytes (wire o)) r) os r) = rYourIP r.
Proof. revert r. induction os as [|o os IH]; intros r; [done|]. cbn [fold_left]. by rewrite IH. Qed.

(** The options a lease is announced with: those of the scope, whatever options it adds. *)
Definition lease_options (s : Scope) (p : Prefix) (t : Msg4) (reply : Reply4) : Prop :=
  opt OptMessageType reply = Some (OType t) /\ opt OptServerID reply = Some (OIPs [ParseIP (sServer s)])
  /\ opt OptMask reply = Some (OMask (PBits p)) /\ opt OptRouter reply = Some (OIPs [ParseIP (Router s)])
  /\ opt OptDNS reply = Some (OIPs (dns_servers s)) /\ opt OptLeaseTime reply = Some (OSeconds (LeaseSeconds s mod 2^32))
  /\ opt OptDomainSearch reply = Some (ODomains [Zone s]).

Lemma lease_reply_fields s p t r b : sound_scope s p ->
  lease_options s p t (lease_reply s t r b) /\ rYourIP (lease_reply s t r b) = ParseIP (Address b).
Proof.
  intros Gs. pose proof (ss_options _ _ Gs) as Ho. unfold lease_reply. set (base := new_reply _ _ _).
  set (r2 := fold_left _ (Options s) base).
  assert (H2 : lease_options s p t r2).
  { unfold lease_options, r2. rewrite !options_kept by (try done; reflexivity). unfold base, prefix_bits. rewrite (ss_prefix _ _ Gs).
    split_and!; reflexivity. }
  assert (Hy : rYourIP r2 = ParseIP (Address b)) by (unfold r2; by rewrite fold_options_ip).
  destruct (Boot s) as [boot|]; [|done]. destruct (wantsBoot r boot); [|done]. split; [|done].
  unfold lease_options, opt, update_option in *. cbn [rOptions]. rewrite !lookup_insert_ne by done. exact H2.
Qed.

(** A lease in a reply: stored for the client under the address the reply gives, a host of
    the subnet that is neither the server's nor the router's. *)
Definition announces (l' : ledger) (s : Scope) (p : Prefix) (t : Msg4) (r : DHCPv4) (reply : Reply4) (b : Binding) : Prop :=
  stored l' b /\ bScope b = sID s /\ Client b = client4 r /\ lease_options s p t reply
  /\ exists n, rYourIP reply = Some (of4 n) /\ Address b = AddrString4 n /\ Contains p (Addr4 n) = true
     /\ ParseIP (sServer s) <> Some (of4 n) /\ ParseIP (Router s) <> Some (of4 n) /\ Addr4 n <> PAddr p /\ Addr4 n <> lastAddr p.

Lemma differs4 text n : text <> AddrString4 n -> ParseAddr text = None \/ (exists a, ParseAddr text = Some a /\ Is4 a = true) ->
  ParseIP text <> Some (of4 n).
Proof.
  intros Hne H E. unfold ParseIP in E. destruct H as [H|([m|] & H & H4)]; [by rewrite H in E| |done]. rewrite H in E.
  injection E as E%of4_inj. subst m. apply canonical4 in H. done.
Qed.

Lemma grantable_announced s p l' client mac b t r : sound_scope s p -> scope_is6 s = false -> stored l' b -> bScope b = sID s -> Client b = client4 r ->
  grantable s client mac (Address b) -> announces l' s p t r (lease_reply s t r b) b.
Proof.
  intros Gs H6 Hst Hsc Hcl ((p' & a & Ep & Ea & Hc) & Hsrv & Hrt & _ & q & Eq & Hho). rewrite (ss_prefix _ _ Gs) in Ep, Eq.
  injection Ep as <-. injection Eq as <-. unfold valid_host in Hho. rewrite Ea in Hho. bool_hyps.
  destruct (lease_reply_fields s p t r b Gs) as [Ho Hy]. pose proof (family4 s p Gs H6) as H4.
  destruct (Contains_family p a Hc) as [Hf _]. rewrite H4 in Hf. destruct a as [n|]; [|done].
  pose proof (canonical4 _ _ Ea) as En. split_and!; try done. exists n. split_and!; try done.
  - rewrite Hy. unfold ParseIP. by rewrite Ea.
  - apply differs4; [by rewrite <-En; apply not_eq_sym|]. right. destruct (ss_server _ _ Gs) as (x & ? & Hx). exists x. by rewrite Hx.
  - apply differs4; [by rewrite <-En; apply not_eq_sym|]. right. destruct (ss_router _ _ Gs H6) as (x & ? & Hx). exists x. split; [done|].
    destruct (Contains_family p x Hx) as [-> _]. done.
  - rename select (bool_decide (_ = PAddr p) = false) into Hb. by apply bool_decide_eq_false in Hb.
  - rename select (_ || _ = true) into Hb. cbn in Hb. by apply negb_true_iff, bool_decide_eq_false in Hb.
Qed.

(** * Soundness *)

(** The fields of a request that are addresses fit their width. *)
Definition wire_request (r : DHCPv4) : Prop :=
  0 <= ClientIPAddr r < 2^32 /\ (forall ip, RequestedIPAddress r = Some ip -> 0 <= ip < 2^32).

Lemma requested_plain r : wire_request r -> plain (requested4 r).
Proof.
  intros [Hc Hr] a. unfold requested4. destruct (RequestedIPAddress r) as [ip|].
  - rewrite read_addr4 by auto. by intros [= <-].
  - destruct (ClientIPAddr r =? 0); [done|]. rewrite read_addr4 by done. by intros [= <-].
Qed.

Section Sound.
Context (sha256_hex : string -> string).
Abbreviation Allocate := (Allocate sha256_hex).

Lemma Allocate_unavailable now c id client mac claimed requested l l' e :
  Allocate now c id client mac claimed requested true l = (l', Err (Unavailable e)) ->
  l' = l /\ exists s mac', admission c id client mac = Ok (s, mac') /\ available l now s client mac' requested = false.
Proof.
  intros H. split; [by eapply Allocate_err|]. unfold Allocate.Allocate, admission in *.
  destruct (find_scope c id) as [s|]; [|done]. destruct (Enabled s); [|done]. cbn in *. destruct (validClient client); [|done]. cbn in *.
  destruct (if negb (is_empty mac) || negb (scope_is6 s) then _ else _) as [mac'|[]] eqn:Em; cbn in *; [|by repeat case_match|done].
  destruct (Bool.eqb _ _); [|done]. cbn in *. exists s, mac'. split; [done|].
  unfold update, allocate_tx, choose in H. cbn in H. destruct (is_empty requested) eqn:Er.
  - apply is_empty_spec in Er as ->. unfold available, allowed. done.
  - destruct (available _ _ _ _ _ _); [|done]. cbn in H. destruct (new_binding _ _ _ _ _ _ _ _ _ _). done.
Qed.

(** What a packet may cause: an answer of the matched scope, or none. *)
Definition answered (now : Z) (c : Config) (s : Scope) (p : Prefix) (r : DHCPv4) (l l' : ledger) (reply : Reply4) : Prop :=
  match MessageType4 r with
  | Discover4 => exists b, announces l' s p Offer4 r reply b /\ usable_state (bState b) = true
      /\ (bState b = "active" /\ l' = l /\ now < End_ b \/ End_ b = now + 30)
  | Request4 =>
    (exists b, announces l' s p Ack4 r reply b /\ Address b = requested4 r /\ bState b = "active" /\ End_ b = now + LeaseSeconds s)
    \/ (l' = l /\ opt OptMessageType reply = Some (OType Nak4)
        /\ exists mac, admission c (sID s) (client4 r) (MACString (ClientHWAddr r)) = Ok (s, mac)
             /\ available l now s (client4 r) mac (requested4 r) = false)
  | Inform4 => l' = l /\ opt OptMessageType reply = Some (OType Ack4) /\ rYourIP reply = Some (of4 0)
  | _ => False
  end.

Lemma Handle4_discover now broken c s p r l l' reply : Validate c = Ok tt -> ledger_ok l -> wire_request r -> s ∈ Scopes c ->
  sound_scope s p -> scope_is6 s = false ->
  Handle4 sha256_hex now broken c s r l = (l', Ok (Some reply)) ->
  answered now c s p r l l' reply /\ opt OptServerID reply = Some (OIPs [ParseIP (sServer s)]).
Proof.
  intros Hv Hl Hw Hs Gs H6. unfold Handle4. destruct (ignored4 s r); [done|]. unfold answered.
  pose proof (find_scope_self c s Hv Hs) as Hf. pose proof (requested_plain r Hw) as Hpl.
  assert (Hgrant : forall commit b l1, Allocate now c (sID s) (client4 r) (MACString (ClientHWAddr r)) (HostName r) (requested4 r) commit l = (l1, Ok b) ->
    announces l1 s p (if commit then Ack4 else Offer4) r (lease_reply s (if commit then Ack4 else Offer4) r b) b
    /\ (if commit then Address b = requested4 r /\ bState b = "active" /\ End_ b = now + LeaseSeconds s
        else usable_state (bState b) = true /\ (bState b = "active" /\ l1 = l /\ now < End_ b \/ End_ b = now + 30))).
  { intros commit b l1 Ha. apply Allocate_grants in Ha as (s' & mac' & Ha & _ & Hst & Hsc & Hcl & Hg & _ & Hc); try done.
    apply admission_ok in Ha as (Hf' & _). assert (s' = s) as -> by congruence. split; [by eapply grantable_announced|].
    by destruct commit. }
  destruct (MessageType4 r) eqn:Et; try done.
  - rewrite bool_decide_eq_false_2 by done. destruct (Allocate _ _ _ _ _ _ _ _ _) as [l1 [b|e]] eqn:Ea; [|by destruct e].
    unfold built. destruct broken; [done|]. intros [= <- <-]. destruct (Hgrant false b l1 Ea) as [Han [? ?]].
    split; [by exists b|]. apply (lease_reply_fields s p Offer4 r b Gs).
  - rewrite bool_decide_eq_true_2 by done. destruct (Allocate _ _ _ _ _ _ _ _ _) as [l1 [b|[e|e]]] eqn:Ea; [| |done].
    + unfold built. destruct broken; [done|]. intros [= <- <-]. destruct (Hgrant true b l1 Ea) as [Han ?].
      split; [left; by exists b|]. apply (lease_reply_fields s p Ack4 r b Gs).
    + unfold built. destruct broken; [done|]. intros [= <- <-]. apply Allocate_unavailable in Ea as (-> & s' & mac' & Ha & Hna).
      pose proof Ha as (Hf' & _)%admission_ok. assert (s' = s) as -> by congruence. split; [right; eauto|done].
  - unfold Allocate.Release. by destruct (update _ _) as [l1 []].
  - by destruct (Allocate.Release _ _ _ _ _ _) as [l1 []].
  - unfold built. destruct broken; [done|]. by intros [= <- <-].
Qed.

(** A handled packet without a reply. *)
Lemma Handle4_silent now broken c s r l l' x : Handle4 sha256_hex now broken c s r l = (l', x) -> (forall reply, x <> Ok (Some reply)) ->
  l' = l \/ broken = true \/ l' = fst (Release now (sID s) (client4 r) (requested4 r) (bool_decide (MessageType4 r = Decline4)) l).
Proof.
  unfold Handle4. destruct (ignored4 s r); [intros [= <- <-]; auto|].
  assert (Hb : forall reply l1, (l1, built broken reply) = (l', x) -> (forall reply, x <> Ok (Some reply)) -> l' = l \/ broken = true
    \/ l' = fst (Release now (sID s) (client4 r) (requested4 r) (bool_decide (MessageType4 r = Decline4)) l)).
  { intros reply l1 [= <- <-] Hx. destruct broken; [auto|]. by destruct (Hx reply). }
  destruct (MessageType4 r) eqn:Et.
  all: try (intros [= <- <-]; by auto).
  - destruct (Allocate _ _ _ _ _ _ _ _ _) as [l1 [b|[e|e]]] eqn:Ea; [by apply Hb| |]; apply Allocate_err in Ea as ->;
      [case_match; [by apply Hb|]|]; intros [= <- <-]; auto.
  - destruct (Allocate _ _ _ _ _ _ _ _ _) as [l1 [b|[e|e]]] eqn:Ea; [by apply Hb| |]; apply Allocate_err in Ea as ->;
      [case_match; [by apply Hb|]|]; intros [= <- <-]; auto.
  - destruct (Release _ _ _ _ _ _) as [l1 [[]|e]] eqn:Er; intros [= <- <-]; auto.
  - destruct (Release _ _ _ _ _ _) as [l1 [[]|e]] eqn:Er; intros [= <- <-]; auto.
Qed.

(** C17: A DHCPv4 packet is answered from the ledger.  For an accepted configuration and a ledger in
    order, a packet that is answered came in for exactly one enabled scope of its socket (directly,
    or from the scope's relay), and the answer is that scope's: a discovery is offered an address
    that is stored as the client's, as a lease it already has and that lasts, or reserved for it for
    30 seconds from now; a request is granted exactly the address it asked for, stored as the
    client's active lease for the scope's lease time, or refused with the ledger unchanged, and then
    the address is not available to this client with its hardware address; the address is a host of
    the scope's subnet (neither the network's nor the broadcast address) and neither the server's
    nor the router's, and the reply's mask, router, DNS servers, lease time and search domain are
    the scope's, whatever options it adds.  A packet without an answer changes the ledger only as a
    release, a decline, or when the reply could not be built. *)
Theorem dhcp4_sound now unbuilt broken c key peer r l l' sent :
  Validate c = Ok tt -> ledger_ok l -> wire_request r ->
  HandleMsg4 sha256_hex now unbuilt broken c key peer r l = (l', sent) ->
  match sent with
  | Some (dst, reply) =>
    exists s p, s ∈ Scopes c /\ Enabled s = true /\ socketKey s = key /\ matches4 s r peer = true /\ sound_scope s p
    /\ (forall t, t ∈ Scopes c -> picks4 key r t = true -> t = s)
    /\ dst = reply_to r reply /\ opt OptServerID reply = Some (OIPs [ParseIP (sServer s)]) /\ answered now c s p r l l' reply
  | None =>
    l' = l \/ broken = true
    \/ exists s, s ∈ Scopes c /\ matches4 s r peer = true
       /\ l' = fst (Release now (sID s) (client4 r) (requested4 r) (bool_decide (MessageType4 r = Decline4)) l)
  end.
Proof.
  intros Hv Hl Hw. unfold HandleMsg4. destruct (guard4 c key r peer) eqn:Eg; cbn [negb orb]; [|intros [= <- <-]; by left].
  destruct (negb (BootRequest r) || unbuilt || negb (handled_type (MessageType4 r))) eqn:Eb; [intros [= <- <-]; by left|].
  destruct (served_scope c key r peer Hv Eg) as (s & Ef & Hs & Hen & Hk & Hm & H6). destruct (accepted_scope c s Hv Hs) as [p Gs].
  unfold ghostleases4. rewrite Ef. destruct (Handle4 sha256_hex now broken c s r l) as [l1 [[reply|]|e]] eqn:Eh.
  - intros [= <- <-]. destruct (Handle4_discover now broken c s p r l l1 reply Hv Hl Hw Hs Gs H6 Eh) as [Ha Ho].
    exists s, p. split_and!; try done. intros t Ht Hpt. pose proof (find_some _ _ Ef) as [_ Hps].
    apply list_elem_of_lookup in Ht as [i Hi], Hs as [j Hj]. assert (j = i) as -> by (by eapply picks_unique). congruence.
  - intros [= <- <-]. destruct (Handle4_silent _ _ _ _ _ _ _ _ Eh) as [?|[?|?]]; [done|auto|auto|]. right. right. by exists s.
  - intros [= <- <-]. destruct (Handle4_silent _ _ _ _ _ _ _ _ Eh) as [?|[?|?]]; [done|auto|auto|]. right. right. by exists s.
Qed.
End Sound.

(** An offer is honoured: the request that answers a DHCPv4 offer is acknowledged, whatever other
    clients did in between. *)

(** [r] is the request with which the sender of [d] takes the address [n] the server of [s] offered. *)
Record accepts (s : Scope) (d r : DHCPv4) (n : Z) : Prop := {
  ac_type : MessageType4 r = Request4;
  ac_boot : BootRequest r = true;
  ac_hardware : ClientHWAddr r = ClientHWAddr d;
  ac_identifier : ClientIdentifier r = ClientIdentifier d;
  ac_gateway : GatewayIPAddr r = GatewayIPAddr d;
  ac_hops : HopCount r = HopCount d;
  ac_address : RequestedIPAddress r = Some n;
  ac_server : match ServerIdentifier r with Some id => ParseIP (sServer s) = Some (of4 id) | None => True end;
}.

Lemma accepts_client s d r n : accepts s d r n -> client4 r = client4 d.
Proof. intros H. unfold client4. by rewrite (ac_hardware _ _ _ _ H), (ac_identifier _ _ _ _ H). Qed.

Lemma accepts_guard c key s d r n peer : accepts s d r n -> guard4 c key r peer = guard4 c key d peer.
Proof. intros H. unfold guard4, matches4. by rewrite (ac_gateway _ _ _ _ H), (ac_hops _ _ _ _ H). Qed.

Lemma accepts_picks c key s d r n : accepts s d r n -> find (picks4 key r) (Scopes c) = find (picks4 key d) (Scopes c).
Proof. intros H. unfold picks4. by rewrite (ac_gateway _ _ _ _ H). Qed.

Lemma accepts_noticed s d r n : accepts s d r n -> ignored4 s d = false -> ignored4 s r = false.
Proof.
  intros H. unfold ignored4. rewrite (ac_boot _ _ _ _ H), (ac_hardware _ _ _ _ H), (ac_gateway _ _ _ _ H).
  pose proof (ac_server _ _ _ _ H) as Hs. destruct (ServerIdentifier r) as [id|]; [rewrite Hs; cbn; rewrite Z.eqb_refl|];
    intros Hd; bool_hyps; repeat match goal with H : _ = true |- _ => rewrite H | H : _ = false |- _ => rewrite H end; done.
Qed.

Section Offer.
Context (sha256_hex : string -> string) (duid_valid : string -> bool).
Context (sha_digits : forall x, str_forallb hex_lower_char (sha256_hex x) = true).

Lemma commit_granted now c id client mac claimed ip l s mac' :
  admission c id client mac = Ok (s, mac') -> is_empty ip = false -> available l now s client mac' ip = true ->
  exists l' b, Allocate sha256_hex now c id client mac claimed ip true l = (l', Ok b).
Proof.
  intros Ha He Hav. unfold Allocate, update, allocate_tx, choose. rewrite Ha, He, Hav. cbn.
  destruct (new_binding _ _ _ _ _ _ _ _ _ _). eauto.
Qed.

(** An address stored for the client stays available to it. *)
Lemma held_available b l l2 now now' s mac : holds b l2 -> bScope b = sID s -> liveState (bState b) = true -> bState b <> "declined" ->
  available l now s (Client b) mac (Address b) = true -> available l2 now' s (Client b) mac (Address b) = true.
Proof.
  intros Hb Esc Hlive Hd Hav. unfold available. rewrite (available_allowed _ _ _ _ _ _ Hav). cbn.
  destruct (holds_read b l2 (sID s) (Address b) Hb) as (_ & _ & Ec & _ & Es & _); [by unfold key_of; rewrite Esc|].
  unfold blocks. rewrite Ec, Es, String.eqb_refl. destruct (String.eqb_spec (bState b) "declined"); [done|]. by rewrite andb_false_r.
Qed.

(** What an offer leaves behind. *)
Lemma offer_allocated now unbuilt c key peer d l l1 dst offer :
  Validate c = Ok tt -> ledger_ok l -> wire_request d -> MessageType4 d = Discover4 ->
  HandleMsg4 sha256_hex now unbuilt false c key peer d l = (l1, Some (dst, offer)) ->
  exists s p b mac', find (picks4 key d) (Scopes c) = Some s /\ s ∈ Scopes c /\ guard4 c key d peer = true /\ ignored4 s d = false
  /\ scope_is6 s = false /\ sound_scope s p
  /\ Allocate sha256_hex now c (sID s) (client4 d) (MACString (ClientHWAddr d)) (HostName d) (requested4 d) false l = (l1, Ok b)
  /\ admission c (sID s) (client4 d) (MACString (ClientHWAddr d)) = Ok (s, mac')
  /\ available l now s (client4 d) mac' (Address b) = true
  /\ usable_state (bState b) = true /\ now < End_ b /\ stored l1 b /\ Client b = client4 d /\ bScope b = sID s
  /\ grantable s (client4 d) mac' (Address b) /\ rYourIP offer = rYourIP (lease_reply s Offer4 d b) /\ rOptions offer = rOptions (lease_reply s Offer4 d b).
Proof.
  intros Hv Hl Hw Et. unfold HandleMsg4. destruct (guard4 c key d peer) eqn:Eg; [|done]. cbn [negb orb].
  destruct (negb (BootRequest d) || unbuilt || negb (handled_type (MessageType4 d))); [done|].
  destruct (served_scope c key d peer Hv Eg) as (s & Ef & Hs & _ & _ & _ & H6). destruct (accepted_scope c s Hv Hs) as [p Gs].
  unfold ghostleases4. rewrite Ef. unfold Handle4. destruct (ignored4 s d) eqn:Ei; [done|]. rewrite Et, bool_decide_eq_false_2 by done.
  destruct (Allocate _ _ _ _ _ _ _ _ _ l) as [l2 [b|[e|e]]] eqn:Ea; [|done..]. cbn [built]. intros [= <- _ <-].
  pose proof (find_scope_self c s Hv Hs) as Hf. pose proof (requested_plain d Hw) as Hpl.
  pose proof Ea as (s' & mac' & Had & _ & Hst & Esc & Ecl & Hg & _ & Hu & He)%Allocate_grants; try done.
  destruct (admission_ok _ _ _ _ _ _ Had) as (Hf' & _). assert (s' = s) as -> by congruence.
  pose proof Ea as (s1 & m1 & Had1 & Hav)%Allocate_available; try done. assert ((s1, m1) = (s, mac')) as [= -> ->] by congruence.
  exists s, p, b, mac'. split_and!; try done. destruct He as [(_ & _ & ?)|?]; lia.
Qed.

Lemma request_granted now' c key peer s p d r n l2 mac' :
  Validate c = Ok tt -> ledger_ok l2 -> find (picks4 key d) (Scopes c) = Some s -> guard4 c key d peer = true ->
  ignored4 s d = false -> sound_scope s p -> admission c (sID s) (client4 d) (MACString (ClientHWAddr d)) = Ok (s, mac') ->
  available l2 now' s (client4 d) mac' (AddrString4 n) = true -> wire_request r -> accepts s d r n ->
  exists l3 ack b', HandleMsg4 sha256_hex now' false false c key peer r l2 = (l3, Some (reply_to r ack, ack))
  /\ opt OptMessageType ack = Some (OType Ack4) /\ rYourIP ack = Some (of4 n)
  /\ stored l3 b' /\ Client b' = client4 d /\ Address b' = AddrString4 n /\ bState b' = "active" /\ End_ b' = now' + LeaseSeconds s.
Proof.
  intros Hv Hl Ef Eg Ei Gs Had Hav Hw Hac. pose proof (accepts_client _ _ _ _ Hac) as Ec.
  assert (Er : requested4 r = AddrString4 n) by (unfold requested4; by rewrite (ac_address _ _ _ _ Hac)).
  pose proof (proj2 Hw n (ac_address _ _ _ _ Hac)) as Hn. pose proof (read_addr4 n Hn) as Ea.
  destruct (commit_granted now' c (sID s) (client4 d) (MACString (ClientHWAddr d)) (HostName r) (AddrString4 n) l2 s mac' Had)
    as (l3 & b' & E); [by destruct (AddrString4 n)|done|].
  pose proof E as (s' & m & Had' & _ & Hst & _ & Ecl & _ & _ & Eb & Est & Een)%Allocate_grants; try done.
  2:{ rewrite <-Er. by apply requested_plain. }
  assert (s' = s) as -> by congruence. unfold HandleMsg4, ghostleases4, Handle4.
  rewrite (accepts_guard _ _ _ _ _ _ _ Hac), Eg, (ac_boot _ _ _ _ Hac), (accepts_picks _ _ _ _ _ _ Hac), Ef, (accepts_noticed _ _ _ _ Hac Ei).
  rewrite (ac_type _ _ _ _ Hac), bool_decide_eq_true_2, Ec, Er, (ac_hardware _ _ _ _ Hac), E by done. cbn [negb orb handled_type built].
  destruct (lease_reply_fields s p Ack4 r b' Gs) as [Ho Hy]. eexists l3, _, b'. split; [reflexivity|]. split; [apply Ho|].
  split; [cbn; rewrite Hy; unfold ParseIP; by rewrite Eb, Ea|done].
Qed.

(** C16: An offer is honoured.  When a discovery was answered with an offer, then through any
    sequence of the operations an authority's book performs for others while the offered binding
    lasts (other clients' allocations, releases and declines, expiries, imports, observations,
    repairs of identities, host reports, delegations), the request by which the client takes the offered address is acknowledged with
    exactly that address, unless the packet library fails to build the reply, and the ledger then
    stores it as the client's active lease for the scope's lease time.  Two things are not among
    those operations: an offer of an address that the book only knows from a neighbour report, and
    a mirrored batch that is written after a promotion, which can replace the binding
    (late_sync_replaces_lease). *)
Theorem offer_honoured now unbuilt c key peer d l l1 dst offer :
  Validate c = Ok tt -> ledger_ok l -> unix now -> wire_request d -> MessageType4 d = Discover4 ->
  HandleMsg4 sha256_hex now unbuilt false c key peer d l = (l1, Some (dst, offer)) ->
  exists s p b n, find (picks4 key d) (Scopes c) = Some s /\ announces l1 s p Offer4 d offer b /\ rYourIP offer = Some (of4 n)
  /\ Address b = AddrString4 n /\ usable_state (bState b) = true /\ now < End_ b
  /\ (Origin b <> "neighbor-report" -> forall xs l2 now' r,
      run sha256_hex duid_valid xs l1 l2 -> (forall t o, (t, o) ∈ xs -> t < End_ b /\ by_others (client4 d) o) ->
      wire_request r -> accepts s d r n ->
      exists l3 ack b', HandleMsg4 sha256_hex now' false false c key peer r l2 = (l3, Some (reply_to r ack, ack))
      /\ opt OptMessageType ack = Some (OType Ack4) /\ rYourIP ack = Some (of4 n)
      /\ stored l3 b' /\ Client b' = client4 d /\ Address b' = AddrString4 n /\ bState b' = "active" /\ End_ b' = now' + LeaseSeconds s).
Proof.
  intros Hv Hl Hn Hw Et H.
  destruct (offer_allocated _ _ _ _ _ _ _ _ _ _ Hv Hl Hw Et H)
    as (s & p & b & mac' & Ef & Hs & Eg & Ei & H6 & Gs & Ea & Had & Hav & Hu & He & Hst & Ecl & Esc & Hgr & Ey & Eo).
  assert (Han : announces l1 s p Offer4 d offer b).
  { pose proof (grantable_announced s p l1 _ _ b Offer4 d Gs H6 Hst Esc Ecl Hgr) as Han. unfold announces, lease_options, opt in *.
    by rewrite Ey, Eo. }
  pose proof Han as (_ & _ & _ & _ & n & Hy & En & _). exists s, p, b, n. split_and!; try done.
  intros Hor xs l2 now' r Hrun Hxs Hwr Hac. assert (Hl1 : ledger_ok l1).
  { eapply (Allocate_keeps sha256_hex sha_digits); [exact Hv|exact Hn|by apply (requested_plain d)|exact Hl|exact Ea]. }
  assert (Hb : holds b l2).
  { eapply run_holds; [exact sha_digits|exact Hl1|by exists b| |by rewrite Ecl|exact Hrun].
    split_and!; [by apply usable_live|done|by left]. }
  eapply request_granted; eauto; [by eapply run_ok|]. rewrite <-En, <-Ecl. rewrite <-Ecl in Hav.
  eapply held_available; eauto; [by apply usable_live|]. intros E. by rewrite E in Hu.
Qed.
End Offer.
