(* ===== verification/Dhcp6.v ===== *)
(** DHCPv6: the packet path (coredhcpserver/handle.go), the registry's plugin (core_plugin.go) and
    the handler that turns a request into ledger operations (dhcp6.go, Handle6Via).

    A message is the options the code reads through the packet library, in their order; a reply
    the options it adds.  The operations of one packet happen at one time. *)

From S2P Require Import Prelude NetAddr Ledger Config Allocate Delegate Dhcp4.
Local Open Scope Z_scope.

(** * Messages *)

(** A DUID: its bytes and, for the two types made of one, its link-layer address. *)
Record duid := mkDUID { dBytes : string; LinkLayerAddr : option (list Z) }.

Inductive type6 := Kind (k : MessageType) | InformationRequest | OtherType.
#[global] Instance type6_eq_dec : EqDecision type6.
Proof. solve_decision. Defined.

Record IANA := mkIANA { IaId : string; Addresses : list Z }.
Record IAPDRequest := mkIAPDRequest { pdIaId : string; pdHints : list string }.

Record Message6 := mkMessage6 {
  TransactionID : Z;
  mType : type6;
  ClientIDs : list duid;
  ServerIDs : list duid;
  IANAs : list IANA;
  IAPDs : list IAPDRequest;
}.

(** A packet: a message, or a relay's (forwarded, or a reply) around the packet of its
    RelayMessage option. *)
Inductive DHCPv6 :=
| Direct (m : Message6)
| RelayMessage (forward : bool) (hopCount linkAddr : Z) (inner : option DHCPv6).

Definition IsRelay (d : DHCPv6) : bool := match d with Direct _ => false | RelayMessage _ _ _ _ => true end.

Fixpoint GetInnerMessage (d : DHCPv6) : option Message6 :=
  match d with
  | Direct m => Some m
  | RelayMessage _ _ _ None => None
  | RelayMessage _ _ _ (Some d') => GetInnerMessage d'
  end.

(** What is said about one IA_NA of a request. *)
Inductive IAAnswer :=
| IAStatus (code text : string)
| IALease (T1 T2 : Z) (ip : option Z) (preferred valid : Z).

Record Reply6 := mkReply6 {
  rAdvertise : bool;
  rTransaction : Z;
  rClientID : option duid;
  rServerID : string;
  rDNS : option Z;
  rSearch : string;
  rStatus : option string;
  rIANAs : list (string * IAAnswer);
  rIAPDs : list (string * IAPD);
}.

(** * Handle6Via *)

Section Handle6.
Context (sha256_hex : string -> string) (duid_valid : string -> bool).

(** The server's identity, made up and kept on first use; [fresh] is the one it would make up. *)
Definition serverDUID (fresh : string) (l : ledger) : ledger * result string string :=
  let data := lookup_default (meta l) "duid" EmptyString in
  let '(l', id) := if is_empty data then (set_meta "duid" fresh l, fresh) else (l, data) in
  (l', if duid_valid id then Ok id else Err "invalid DUID").

Definition duidMAC (d : duid) : string :=
  match LinkLayerAddr d with
  | Some a => if (length a =? 6)%nat then MACString a else EmptyString
  | None => EmptyString
  end.

(** The active address lease of a client, and whether there is one. *)
Definition currentClient (now : Z) (scope client : string) (l : ledger) : Binding * bool :=
  let found := default no_binding
    (last_such (fun b => negb (Origin b =?s originPD) && (bState b =?s "active") && (now <? End_ b)) (liveByClient l scope client)) in
  (found, negb (is_empty (Client found))).

Definition client6 (cid : duid) (iaid : string) : string := pdClient (hex_of (dBytes cid)) (hex_of iaid).

(** The loop of a release or decline over the addresses of an IA. *)
Fixpoint release_addresses (now : Z) (scope client held : string) (decline : bool) (code : string) (addresses : list Z) (l : ledger) :
    ledger * result alloc_error string :=
  match addresses with
  | [] => (l, Ok code)
  | a :: rest =>
    if negb (IPString a =?s held) then release_addresses now scope client held decline "NoBinding" rest l
    else match Release now scope client held decline l with
         | (l', Ok _) => release_addresses now scope client held decline code rest l'
         | (l', Err e) => (l', Err e)
         end
  end.

(** The address asked for: the one held, or the first of the IA's; when it is not the client's
    to have, the address of an offer made for the purpose. *)
Definition wanted_address (now : Z) (c : Config) (s : Scope) (client mac : string) (cur : Binding) (exists_ : bool) (ia : IANA) (l : ledger) :
    ledger * result alloc_error string :=
  let requested := if exists_ then Address cur else match Addresses ia with a :: _ => IPString a | [] => EmptyString end in
  if is_empty requested || negb (allowed s client mac requested) then
    match Allocate sha256_hex now c (sID s) client mac EmptyString EmptyString false l with
    | (l', Ok offer) => (l', Ok (Address offer))
    | (l', Err e) => (l', Err e)
    end
  else (l, Ok requested).

Definition lease_ia (now : Z) (c : Config) (s : Scope) (kind : MessageType) (client mac : string) (cur : Binding) (exists_ : bool)
    (ia : IANA) (l : ledger) : ledger * result alloc_error IAAnswer :=
  match wanted_address now c s client mac cur exists_ ia l with
  | (l1, Err (Unavailable _)) => (l1, Ok (IAStatus "NoAddrsAvail" "pool unavailable"))
  | (l1, Err e) => (l1, Err e)
  | (l1, Ok requested) =>
    match Allocate sha256_hex now c (sID s) client mac EmptyString requested (negb (bool_decide (kind = Solicit))) l1 with
    | (l2, Ok b) => (l2, Ok (IALease (LeaseSeconds s / 2) (LeaseSeconds s * 4 / 5) (ParseIP (Address b)) (PreferredSeconds s) (LeaseSeconds s)))
    | (l2, Err (Unavailable _)) => (l2, Ok (IAStatus "NoAddrsAvail" "address unavailable"))
    | (l2, Err e) => (l2, Err e)
    end
  end.

Definition release_ia (now : Z) (s : Scope) (kind : MessageType) (client : string) (cur : Binding) (exists_ : bool) (ia : IANA) (l : ledger) :
    ledger * result alloc_error IAAnswer :=
  if negb exists_ then (l, Ok (IAStatus "NoBinding" "binding release"))
  else
    let code := match Addresses ia with [] => "NoBinding" | _ => "Success" end in
    match release_addresses now (sID s) client (Address cur) (bool_decide (kind = Decline)) code (Addresses ia) l with
    | (l', Ok code') => (l', Ok (IAStatus code' "binding release"))
    | (l', Err e) => (l', Err e)
    end.

(** One IA; [None]: the request is dropped. *)
Definition handle_ia (now : Z) (c : Config) (s : Scope) (kind : MessageType) (cid : duid) (ia : IANA) (l : ledger) :
    ledger * result alloc_error (option IAAnswer) :=
  let client := client6 cid (IaId ia) in
  if negb (validClient client) then (l, Ok None) else
  let '(cur, exists_) := currentClient now (sID s) client l in
  let '(l', r) :=
    match kind with
    | Release_ | Decline => release_ia now s kind client cur exists_ ia l
    | Renew | Rebind =>
      if negb exists_ then (l, Ok (IAStatus "NoBinding" "no active binding"))
      else lease_ia now c s kind client (duidMAC cid) cur exists_ ia l
    | _ => lease_ia now c s kind client (duidMAC cid) cur exists_ ia l
    end in
  (l', match r with Ok a => Ok (Some a) | Err e => Err e end).

Fixpoint handle_ias (now : Z) (c : Config) (s : Scope) (kind : MessageType) (cid : duid) (ias : list IANA) (l : ledger) :
    ledger * result alloc_error (option (list (string * IAAnswer))) :=
  match ias with
  | [] => (l, Ok (Some []))
  | ia :: rest =>
    match handle_ia now c s kind cid ia l with
    | (l1, Ok (Some a)) =>
      match handle_ias now c s kind cid rest l1 with
      | (l2, Ok (Some out)) => (l2, Ok (Some ((IaId ia, a) :: out)))
      | r => r
      end
    | (l1, Ok None) => (l1, Ok None)
    | (l1, Err e) => (l1, Err e)
    end
  end.

Fixpoint handle_pds (now : Z) (s : Scope) (kind : MessageType) (cid : duid) (via : string) (pds : list IAPDRequest) (l : ledger) :
    ledger * result string (list (string * IAPD)) :=
  match pds with
  | [] => (l, Ok [])
  | pd :: rest =>
    match handlePD sha256_hex now s kind (hex_of (dBytes cid)) (hex_of (pdIaId pd)) (pdHints pd) via l with
    | (l1, Ok a) =>
      match handle_pds now s kind cid via rest l1 with
      | (l2, Ok out) => (l2, Ok ((pdIaId pd, a) :: out))
      | r => r
      end
    | (l1, Err e) => (l1, Err e)
    end
  end.

(** More than sixteen IAs, an IAID twice, or more than sixteen addresses in one. *)
Definition excessive (ias : list IANA) : bool :=
  (16 <? length ias)%nat || negb (bool_decide (NoDup (map IaId ias))) || existsb (fun ia => (16 <? length (Addresses ia))%nat) ias.

(** The link check of a Confirm. *)
Definition confirm_code (s : Scope) (ias : list IANA) : string :=
  if forallb (fun ia => forallb (fun a => Contains (must_prefix (Subnet s)) (Addr6 a EmptyString)) (Addresses ia)) ias
  then "Success" else "NotOnLink".

Definition requires_id (t : type6) : bool :=
  match t with Kind Request | Kind Renew | Kind Release_ | Kind Decline => true | _ => false end.
Definition refuses_id (t : type6) : bool :=
  match t with Kind Solicit | Kind Confirm_ | Kind Rebind => true | _ => false end.

(** The message names another server, or names one where it should not or none where it should. *)
Definition misaddressed (server : string) (m : Message6) : bool :=
  match ServerIDs m with
  | [] => requires_id (mType m)
  | sid :: _ => negb (dBytes sid =?s server) || refuses_id (mType m)
  end.

Definition base_reply (s : Scope) (server : string) (m : Message6) : Reply6 :=
  mkReply6 (bool_decide (mType m = Kind Solicit)) (TransactionID m) (head (ClientIDs m)) server (ParseIP (sServer s)) (Zone s) None [] [].

(** The leases and delegations a request asks for. *)
Definition grant6 (now : Z) (c : Config) (s : Scope) (kind : MessageType) (cid : duid) (via : string) (m : Message6) (reply : Reply6) (l : ledger) :
    ledger * result string (option Reply6) :=
  match handle_ias now c s kind cid (IANAs m) l with
  | (l1, Ok (Some ias)) =>
    if (16 <? length (IAPDs m))%nat then (l1, Ok None)
    else match handle_pds now s kind cid via (IAPDs m) l1 with
         | (l2, Ok pds) =>
           (l2, Ok (Some (mkReply6 (rAdvertise reply) (rTransaction reply) (rClientID reply) (rServerID reply) (rDNS reply) (rSearch reply)
                            (rStatus reply) ias pds)))
         | (l2, Err e) => (l2, Err e)
         end
  | (l1, Ok None) => (l1, Ok None)
  | (l1, Err (Unavailable e)) | (l1, Err (Refused e)) => (l1, Err e)
  end.

(** The requests ignored before the ledger is asked for the server's identity. *)
Definition ignored6 (s : Scope) (m : Message6) : bool :=
  negb (scope_is6 s) || negb (Enabled s) || bool_decide (mType m = OtherType)
  || (bool_decide (ClientIDs m = []) && negb (bool_decide (mType m = InformationRequest)))
  || (1 <? length (ClientIDs m))%nat || (1 <? length (ServerIDs m))%nat.

Definition Handle6Via (now : Z) (fresh : string) (c : Config) (s : Scope) (packet : DHCPv6) (via : string) (l : ledger) :
    ledger * result string (option Reply6) :=
  match GetInnerMessage packet with
  | None => (l, Ok None)
  | Some m =>
    if ignored6 s m then (l, Ok None) else
    match serverDUID fresh l with
    | (l1, Err e) => (l1, Err e)
    | (l1, Ok server) =>
      if misaddressed server m then (l1, Ok None) else
      let reply := base_reply s server m in
      match mType m, ClientIDs m with
      | InformationRequest, _ => (l1, Ok (Some reply))
      | Kind kind, cid :: _ =>
        if excessive (IANAs m) then (l1, Ok None)
        else if bool_decide (kind = Confirm_) then
          (l1, Ok (Some (mkReply6 (rAdvertise reply) (rTransaction reply) (rClientID reply) (rServerID reply) (rDNS reply) (rSearch reply)
                           (Some (confirm_code s (IANAs m))) [] [])))
        else grant6 now c s kind cid via m reply l1
      | _, _ => (l1, Ok None)
      end
    end
  end.

(** * The plugin and the packet path *)

Definition ip_unspecified (n : Z) : bool := (n =? 0) || (n =? of4 0).
Definition ip_multicast (n : Z) : bool :=
  match To4 (Some n) with Some m => Z.shiftr m 28 =? 14 | None => Z.shiftr n 120 =? 255 end.
Definition ip_link_local (n : Z) : bool :=
  match To4 (Some n) with Some m => Z.shiftr m 16 =? 43518 | None => Z.shiftr n 118 =? 1018 end.

(** The next hop of a delegation. *)
Definition clientLinkLocal (d : DHCPv6) (peer : UDPAddr) : string :=
  if IsRelay d then if ip_unspecified (uIP peer) || ip_multicast (uIP peer) then EmptyString else IPString (uIP peer)
  else if ip_link_local (uIP peer) then IPString (uIP peer) else EmptyString.

(** The link of the relay closest to the client, [n] relays in. *)
Fixpoint relay_link (n : nat) (d : DHCPv6) : option Z :=
  match d with
  | Direct _ => None
  | RelayMessage _ _ link inner =>
    if (32 <=? n)%nat then None
    else match inner with
         | None => None
         | Some (Direct _) => Some link
         | Some d' => relay_link (S n) d'
         end
  end.
Definition relayLink (d : DHCPv6) : option Z := relay_link 0 d.

(** The loop of matches6 over the relays. *)
Fixpoint relayed_from (depth : nat) (d : DHCPv6) (link : option Z) : bool :=
  match d with
  | Direct _ => false
  | RelayMessage forward hops la inner =>
    if negb forward || (32 <? hops) || (32 <=? depth)%nat then false
    else match inner with
         | None => false
         | Some (Direct _) => ip_eqb (Some la) link
         | Some d' => relayed_from (S depth) d' link
         end
  end.

Definition PortDHCPv6Server : Z := 547.

Definition matches6 (s : Scope) (d : DHCPv6) (peer : UDPAddr) : bool :=
  if negb (scope_is6 s) then false
  else match Relay s with
       | None => negb (IsRelay d)
       | Some relay => (uPort peer =? PortDHCPv6Server) && ip_eqb (Some (uIP peer)) (ParseIP (rPeer relay))
                       && relayed_from 0 d (ParseIP (Link relay))
       end.

(** Guard6: some scope served on this socket may receive the packet. *)
Definition guard6 (c : Config) (key : string) (d : DHCPv6) (peer : UDPAddr) : bool :=
  existsb (fun s => Enabled s && (socketKey s =?s key) && matches6 s d peer) (Scopes c).

(** The scope the plugin picks. *)
Definition picks6 (key : string) (d : DHCPv6) (s : Scope) : bool :=
  Enabled s && (socketKey s =?s key)
  && match Relay s with
     | None => negb (IsRelay d)
     | Some relay => ip_eqb (relayLink d) (ParseIP (Link relay))
     end.

(** The plugin: the reply it returns, and whether it has the delegated routes brought up to date. *)
Definition ghostleases6 (now : Z) (fresh : string) (c : Config) (key : string) (peer : UDPAddr) (d : DHCPv6) (l : ledger) :
    ledger * option Reply6 * bool :=
  match find (picks6 key d) (Scopes c) with
  | Some s =>
    match Handle6Via now fresh c s d (clientLinkLocal d peer) l with
    | (l', Ok (Some reply)) => (l', Some reply, match PD s with Some pd => Route pd | None => false end)
    | (l', Ok None) => (l', None, false)
    | (l', Err _) => (l', None, false)
    end
  | None => (l, None, false)
  end.

(** A packet sent: where to, through which interface when that has to be said, and the relays it
    is wrapped for (NewRelayReplFromRelayForw mirrors those of the request). *)
Record sent6 := mkSent6 { sTo : UDPAddr; sInterface : option Z; sRelayed : option DHCPv6; sReply : Reply6 }.

(** [own], [oob]: the interface of the listener (0 when it has none) and the one the packet came in on. *)
Definition out_interface (own : Z) (oob : option Z) (peer : UDPAddr) : option Z :=
  if negb (ip_link_local (uIP peer)) then None
  else if negb (own =? 0) then Some own
  else match oob with Some i => if i =? 0 then None else Some i | None => None end.

(** HandleMsg6 of a listener whose one handler is the plugin: the ledger, the packet sent, and
    whether routes are reconciled.  [unbuilt]: its own reply, which the plugin replaces, could not
    be built; [unwrapped]: the reply could not be wrapped for the relays. *)
Definition HandleMsg6 (now : Z) (fresh : string) (unbuilt unwrapped : bool) (c : Config) (key : string) (own : Z) (oob : option Z)
    (peer : UDPAddr) (d : DHCPv6) (l : ledger) : ledger * option sent6 * bool :=
  if negb (guard6 c key d peer) then (l, None, false)
  else match GetInnerMessage d with
       | None => (l, None, false)
       | Some m =>
         if bool_decide (mType m = OtherType) || unbuilt then (l, None, false)
         else match ghostleases6 now fresh c key peer d l with
              | (l', Some reply, routes) =>
                (l', if IsRelay d && unwrapped then None
                     else Some (mkSent6 peer (out_interface own oob peer) (if IsRelay d then Some d else None) reply), routes)
              | (l', None, routes) => (l', None, routes)
              end
       end.

End Handle6.
