(* ===== verification/Dhcp6Inv.v ===== *)
(** DHCPv6 correctness: which scope serves a packet, that a packet is operations of the book by the
    clients it names and nothing else, and that what a reply gives is what the ledger holds. *)

From S2P Require Import Prelude NetAddr AddrText Ledger LedgerInv Config KeyText ConfigInv Allocate AllocInv.
From S2P Require Import LeaseText Delegate BookInv BookSafety BookGrant DelegateInv Dhcp4 Dhcp4Inv Dhcp6.
Local Open Scope Z_scope.

(** * Which scope serves a packet *)

Lemma family6 s p : sound_scope s p -> scope_is6 s = true -> Is4 (PAddr p) = false.
Proof. intros Hs. unfold scope_is6. rewrite (ss_prefix _ _ Hs). unfold Is6. by destruct (Is4 (PAddr p)). Qed.

(** The link of an IPv6 relay scope, as a number. *)
Lemma link6 s p r : sound_scope s p -> scope_is6 s = true -> Relay s = Some r ->
  exists n, ParseAddr (Link r) = Some (Addr6 n EmptyString) /\ ParseIP (Link r) = Some n /\ Contains p (Addr6 n EmptyString) = true.
Proof.
  intros Hs H6 Er. destruct (ss_relay _ _ Hs r Er) as (link & El & Hc & Hu). pose proof (family6 s p Hs H6) as H4.
  destruct (Contains_family p link Hc) as [Hf Hz]. rewrite H4 in Hf. destruct link as [|n z]; [done|]. cbn in Hz. subst z.
  exists n. unfold ParseIP. by rewrite El.
Qed.

Lemma relayed_link : forall d n link, relayed_from n d (Some link) = true -> relay_link n d = Some link.
Proof.
  fix IH 1. intros [m|forward hops la [d'|]] n link; cbn [relayed_from relay_link]; try done.
  - destruct (negb forward || (32 <? hops) || (32 <=? n)%nat) eqn:E; [done|]. apply orb_false_iff in E as [_ ->].
    pose proof (IH d') as IH'. destruct d' as [m|]; [cbn; by intros ->%Z.eqb_eq|]. apply IH'.
  - by destruct (_ || _).
Qed.

Lemma relay_link_relayed n d link : relay_link n d = Some link -> IsRelay d = true.
Proof. by destruct d. Qed.

Lemma direct_no_link n d : IsRelay d = false -> relay_link n d = None.
Proof. by destruct d. Qed.

Lemma picks6_unique c key d i j s t : Validate c = Ok tt -> Scopes c !! i = Some s -> Scopes c !! j = Some t ->
  scope_is6 s = true -> picks6 key d s = true -> picks6 key d t = true -> i = j.
Proof.
  intros Hv Hi Hj H6 Hps Hpt. unfold picks6 in *. bool_hyps.
  assert (Ek : socketKey s = socketKey t) by (repeat match goal with H : (_ =?s _) = true |- _ => apply String.eqb_eq in H end; congruence).
  assert (H6' : scope_is6 t = true) by (by rewrite <-(socketKey_family s t Ek)).
  destruct (accepted_scope c s Hv) as [p Gs]; [by eapply list_elem_of_lookup_2|].
  destruct (accepted_scope c t Hv) as [q Gt]; [by eapply list_elem_of_lookup_2|].
  destruct (Relay s) as [rs|] eqn:Es, (Relay t) as [rt|] eqn:Et.
  - destruct (link6 s p rs Gs H6 Es) as (n & Pn & In & Cn). destruct (link6 t q rt Gt H6' Et) as (m & Pm & Im & Cm).
    rewrite In in *. rewrite Im in *. destruct (relayLink d) as [k|]; [|done]. cbn in *.
    repeat match goal with H : (_ =? _) = true |- _ => apply Z.eqb_eq in H end. subst k m.
    destruct (decide (i = j)) as [|Hne]; [done|exfalso].
    pose proof (ParseAddr_valid _ _ Pn) as Hva. pose proof (read_addr _ Hva eq_refl) as Er.
    apply (scopes_disjoint c i j s t (AddrString (Addr6 n EmptyString)) Hv Hne Hi Hj).
    split; [exists p, (Addr6 n EmptyString)|exists q, (Addr6 n EmptyString)]; (split_and!; [by apply ss_prefix|done|done]).
  - destruct (link6 s p rs Gs H6 Es) as (n & Pn & In & Cn). rewrite In in *.
    destruct (relayLink d) as [k|] eqn:El; [|done]. apply relay_link_relayed in El. by rewrite El in *.
  - destruct (link6 t q rt Gt H6' Et) as (n & Pn & In & Cn). rewrite In in *.
    destruct (relayLink d) as [k|] eqn:El; [|done]. apply relay_link_relayed in El. by rewrite El in *.
  - by eapply direct_unique.
Qed.

Lemma matches_picks6 c key d peer s : Validate c = Ok tt -> s ∈ Scopes c -> Enabled s = true -> socketKey s = key -> matches6 s d peer = true ->
  picks6 key d s = true /\ scope_is6 s = true.
Proof.
  unfold matches6, picks6. intros Hv Hs -> -> H. rewrite String.eqb_refl. destruct (scope_is6 s) eqn:H6; [|done]. split; [|done]. cbn in *.
  destruct (Relay s) as [r|] eqn:Er; [|done]. destruct (accepted_scope c s Hv Hs) as [p Gs].
  destruct (link6 s p r Gs H6 Er) as (n & _ & In & _). rewrite In in *. bool_hyps. unfold relayLink.
  by rewrite (relayed_link d 0 n) by done; cbn; rewrite Z.eqb_refl.
Qed.

(** The scope the plugin picks is the one the packet was let in for, and no other matches. *)
Lemma served_scope6 c key d peer : Validate c = Ok tt -> guard6 c key d peer = true ->
  exists s, find (picks6 key d) (Scopes c) = Some s /\ s ∈ Scopes c /\ Enabled s = true /\ socketKey s = key /\ matches6 s d peer = true
  /\ scope_is6 s = true /\ forall t, t ∈ Scopes c -> picks6 key d t = true -> t = s.
Proof.
  unfold guard6. intros Hv (s & Hs%list_elem_of_In & Hm)%existsb_exists. bool_hyps.
  destruct (matches_picks6 c key d peer s) as [Hp H6]; try done.
  pose proof Hs as [i Hi]%list_elem_of_lookup.
  assert (Hu : forall t, t ∈ Scopes c -> picks6 key d t = true -> t = s).
  { intros t [j Hj]%list_elem_of_lookup Hpt. assert (i = j) as -> by (by eapply picks6_unique). congruence. }
  destruct (find (picks6 key d) (Scopes c)) as [t|] eqn:Ef.
  2:{ exfalso. pose proof (find_none _ _ Ef s (proj1 (list_elem_of_In _ _) Hs)). congruence. }
  apply find_some in Ef as [Ht%list_elem_of_In Hpt]. exists s. rewrite (Hu t Ht Hpt). done.
Qed.

(** * A packet is operations by the clients it names *)

(** The clients a message speaks for. *)
Definition clients6 (m : Message6) : list string :=
  match ClientIDs m with
  | cid :: _ => map (fun ia => client6 cid (IaId ia)) (IANAs m) ++ map (fun pd => client6 cid (pdIaId pd)) (IAPDs m)
  | [] => []
  end.

(** The addresses of an IA fit their width. *)
Definition wire_ia (ia : IANA) : Prop := Forall (fun a => 0 <= a < 2^128) (Addresses ia).

Section Acts.
Context (sha256_hex : string -> string) (duid_valid : string -> bool).
Context (sha_digits : forall x, str_forallb hex_lower_char (sha256_hex x) = true).
Context (now : Z) (Hn : unix now) (c : Config) (Hv : Validate c = Ok tt) (s : Scope) (Hs : s ∈ Scopes c).

Definition own (client : string) (o : op) : Prop :=
  match o with
  | OpAllocate _ _ c _ _ _ _ | OpRelease _ c _ _ | OpDelegate _ _ _ c _ _ _ _ => c = client
  | OpReleasePrefix _ _ c => no_nul c = true /\ c = client
  | _ => False
  end.

(** From [l] to [l'] by operations of [clients], all at [now]. *)
Definition acts (clients : list string) (l l' : ledger) : Prop :=
  exists xs, run sha256_hex duid_valid xs l l' /\ Forall (fun x => fst x = now /\ exists cl, cl ∈ clients /\ own cl (snd x)) xs.

Lemma acts_refl cls l : acts cls l l.
Proof. exists []. split; constructor. Qed.

Lemma acts_trans cls l1 l2 l3 : acts cls l1 l2 -> acts cls l2 l3 -> acts cls l1 l3.
Proof.
  intros (xs & Hr & Hf) (ys & Hr' & Hf'). exists (xs ++ ys). split; [|by apply Forall_app].
  clear Hf. induction Hr as [|x xs a b d Hx _ IH]; [done|]. cbn. econstructor; [exact Hx|by apply IH].
Qed.

Lemma acts_one cls cl o l : cl ∈ cls -> own cl o -> admissible o -> acts cls l (perform sha256_hex duid_valid now o l).
Proof.
  intros Hc Ho Ha. exists [(now, o)]. split; [|apply Forall_singleton; split; [done|by exists cl]].
  econstructor; [by constructor|constructor].
Qed.

Lemma acts_ok cls l l' : acts cls l l' -> ledger_ok l -> ledger_ok l'.
Proof. intros (xs & Hr & _). by eapply run_ok. Qed.

Lemma acts_mono cls cls' l l' : (forall cl, cl ∈ cls -> cl ∈ cls') -> acts cls l l' -> acts cls' l l'.
Proof.
  intros H (xs & Hr & Hf). exists xs. split; [done|]. eapply Forall_impl; [exact Hf|]. cbn. intros x (? & cl & ? & ?). split; [done|]. exists cl. auto.
Qed.

(** Nobody else's lease is touched. *)
Lemma acts_holds cls l l' b : acts cls l l' -> ledger_ok l -> granted_lease b -> now < End_ b -> Client b ∉ cls -> holds b l -> holds b l'.
Proof.
  intros (xs & Hr & Hf) Hl Hg He Hc Hb. eapply (run_holds sha256_hex duid_valid sha_digits); [exact Hl|exact Hb|exact Hg| |exact Hr].
  intros t o Hin. rewrite Forall_forall in Hf. destruct (Hf _ Hin) as (Et & cl & Hcl & Ho). cbn in Et, Ho. subst t. split; [done|].
  assert (cl <> Client b) by congruence. destruct o; cbn in *; try done; intuition congruence.
Qed.

Lemma Allocate_acts client mac claimed requested commit l l' r : plain requested ->
  Allocate sha256_hex now c (sID s) client mac claimed requested commit l = (l', r) -> acts [client] l l'.
Proof.
  intros Hp E. change l' with (fst (l', r)). rewrite <-E. eapply (acts_one _ client (OpAllocate c (sID s) client mac claimed requested commit));
    [by left|done|done].
Qed.

Lemma Release_acts scope client ip decline l l' r : Release now scope client ip decline l = (l', r) -> acts [client] l l'.
Proof.
  intros E. change l' with (fst (l', r)). rewrite <-E. by eapply (acts_one _ client (OpRelease scope client ip decline)); [left| |].
Qed.

Lemma release_addresses_acts client held decline addrs : forall code l l' r,
  release_addresses now (sID s) client held decline code addrs l = (l', r) -> acts [client] l l'.
Proof.
  induction addrs as [|a addrs IH]; intros code l l' r; cbn [release_addresses]; [intros [= <- _]; apply acts_refl|].
  destruct (negb _); [apply IH|]. destruct (Release _ _ _ _ _ _) as [l1 [[]|e]] eqn:Er; apply Release_acts in Er.
  - intros H%IH. by eapply acts_trans.
  - by intros [= <- _].
Qed.

(** The lease a client holds is a stored one of its own. *)
Lemma currentClient_stored client l b : ledger_ok l -> validClient client = true -> currentClient now (sID s) client l = (b, true) ->
  stored l b /\ bScope b = sID s /\ Client b = client /\ bState b = "active" /\ now < End_ b /\ Origin b <> originPD.
Proof.
  intros Hl Hcl. unfold currentClient. destruct (last_such _ _) as [d|] eqn:E; [|done]. intros [= <- _].
  apply last_such_spec in E as [Hin Hd]. pose proof (find_scope_self c s Hv Hs) as Hf.
  apply (find_scope_good c _ _ Hv) in Hf as (_ & devs & ps & p & _ & Gs). destruct (label_key _ (gs_id _ _ _ Gs)) as (_ & _ & Hnn).
  apply (liveByClient_exact l (ok_wf _ Hl)) in Hin as (Hst & _ & Esc & Ecl); [|done|by apply validClient_no_nul]. cbn. bool_hyps.
  split_and!; done || lia.
Qed.

Lemma stored_plain l b : ledger_ok l -> stored l b -> plain (Address b).
Proof. intros Hl Hb. apply (ok_lasting _ Hl b Hb). Qed.

Lemma IPString_plain n : 0 <= n < 2^128 -> plain (IPString n).
Proof.
  intros H a. unfold IPString, To4, mbind, option_bind. destruct (_ =? _).
  - rewrite read_addr4 by (apply Z.mod_pos_bound; lia). by intros [= <-].
  - rewrite read_addr6 by done. by intros [= <-].
Qed.

(** The address asked for next is printed without a zone. *)
Lemma wanted_address_acts client mac cur ex ia l l' r : ledger_ok l -> validClient client = true -> wire_ia ia ->
  currentClient now (sID s) client l = (cur, ex) ->
  wanted_address sha256_hex now c s client mac cur ex ia l = (l', r) ->
  acts [client] l l' /\ forall ip, r = Ok ip -> plain ip /\ is_empty ip = false.
Proof.
  intros Hl Hcl Hw Ec. unfold wanted_address. set (req := if ex then _ else _). assert (Hreq : plain req).
  { subst req. destruct ex; [apply currentClient_stored in Ec as (Hst & _); [by eapply stored_plain|done..]|].
    unfold wire_ia in Hw. destruct (Addresses ia); [done|]. apply IPString_plain. by apply Forall_inv in Hw. }
  destruct (_ || _) eqn:Eo.
  - destruct (Allocate _ _ _ _ _ _ _ _ _ _) as [l1 [b|e]] eqn:Ea; intros [= <- <-]; (split; [by eapply Allocate_acts, Ea|]); [|done].
    apply Allocate_grants in Ea as (s' & mac' & _ & _ & _ & _ & _ & (Hin & _) & _); [|done..]. intros ip [= <-].
    split; [by eapply in_subnet_plain|]. destruct Hin as (p & a & _ & Ea & _). by destruct (Address b).
  - intros [= <- <-]. split; [apply acts_refl|]. intros ip [= <-]. split; [done|]. by apply orb_false_iff in Eo as [? _].
Qed.

Lemma lease_ia_acts kind client mac cur ex ia l l' r : ledger_ok l -> validClient client = true -> wire_ia ia ->
  currentClient now (sID s) client l = (cur, ex) ->
  lease_ia sha256_hex now c s kind client mac cur ex ia l = (l', r) -> acts [client] l l'.
Proof.
  intros Hl Hcl Hw Ec. unfold lease_ia. destruct (wanted_address _ _ _ _ _ _ _ _ _ _) as [l1 [ip|[e|e]]] eqn:Ew;
    apply (wanted_address_acts client mac cur ex ia l) in Ew as [H1 Hp]; try done; [|by intros [= <- _]..].
  destruct (Hp ip eq_refl) as [Hip _]. destruct (Allocate _ _ _ _ _ _ _ _ _ _) as [l2 x] eqn:Ea. apply Allocate_acts in Ea; [|done].
  intros H. assert (l' = l2) as -> by (destruct x as [?|[]]; by injection H). by eapply acts_trans.
Qed.

Lemma handle_ia_acts kind cid ia l l' r : ledger_ok l -> wire_ia ia ->
  handle_ia sha256_hex now c s kind cid ia l = (l', r) -> acts [client6 cid (IaId ia)] l l'.
Proof.
  intros Hl Hw. unfold handle_ia. destruct (validClient _) eqn:Hcl; cbn [negb]; [|intros [= <- _]; apply acts_refl].
  destruct (currentClient _ _ _ _) as [cur ex] eqn:Ec.
  assert (Hlease : forall l1 r1, lease_ia sha256_hex now c s kind (client6 cid (IaId ia)) (duidMAC cid) cur ex ia l = (l1, r1) ->
    acts [client6 cid (IaId ia)] l l1) by (intros; by eapply lease_ia_acts).
  assert (Hrel : forall l1 r1, release_ia now s kind (client6 cid (IaId ia)) cur ex ia l = (l1, r1) -> acts [client6 cid (IaId ia)] l l1).
  { intros l1 r1. unfold release_ia. destruct ex; cbn [negb]; [|intros [= <- _]; apply acts_refl].
    destruct (release_addresses _ _ _ _ _ _ _ _) as [l2 [x|e]] eqn:Er; intros [= <- _]; by eapply release_addresses_acts. }
  destruct (match kind with Release_ => _ | _ => _ end) as [l1 r1] eqn:E. intros [= <- _].
  destruct kind; eauto; destruct ex; eauto; injection E as <- _; apply acts_refl.
Qed.

Lemma handle_ias_acts kind cid ias : forall l l' r, ledger_ok l -> Forall wire_ia ias ->
  handle_ias sha256_hex now c s kind cid ias l = (l', r) -> acts (map (fun ia => client6 cid (IaId ia)) ias) l l'.
Proof.
  induction ias as [|ia ias IH]; intros l l' r Hl Hw; cbn [handle_ias map]; [intros [= <- _]; apply acts_refl|].
  apply Forall_cons in Hw as [Hw Hws]. destruct (handle_ia _ _ _ _ _ _ _ _) as [l1 x] eqn:E1. apply handle_ia_acts in E1; [|done..].
  pose proof (acts_ok _ _ _ E1 Hl) as Hl1. apply (acts_mono _ (map (fun ia => client6 cid (IaId ia)) (ia :: ias))) in E1; [|set_solver].
  destruct x as [[a|]|e]; [|by intros [= <- _]..]. destruct (handle_ias _ _ _ _ _ _ _ _) as [l2 y] eqn:E2. apply IH in E2; [|done..].
  apply (acts_mono _ (map (fun ia => client6 cid (IaId ia)) (ia :: ias))) in E2; [|set_solver].
  intros H. assert (l' = l2) as -> by (destruct y as [[|]|]; by injection H). by eapply acts_trans.
Qed.

Lemma handlePD_acts kind duidHex iaidHex hints via l l' r :
  handlePD sha256_hex now s kind duidHex iaidHex hints via l = (l', r) -> acts [pdClient duidHex iaidHex] l l'.
Proof.
  unfold handlePD. destruct (PD s) as [pd|] eqn:Epd; [|intros [= <- _]; apply acts_refl].
  destruct (validClient _) eqn:Hcl; cbn [negb]; [|intros [= <- _]; apply acts_refl]. cbv zeta.
  pose proof (find_scope_self c s Hv Hs) as Hf. destruct (scope_pool c _ s pd Hv Hf Epd) as (_ & _ & _ & _ & _ & Hlen).
  destruct (AllocatePrefix _ _ _ _ _ _ _ _ _ _) as [l1 x] eqn:Ea. destruct (releasePrefix _ _ _ _) as [l2 y] eqn:Er.
  assert (H1 : acts [pdClient duidHex iaidHex] l l1).
  { pose proof (acts_one [pdClient duidHex iaidHex] _ (OpDelegate c (sID s) pd (pdClient duidHex iaidHex) duidHex (List.last hints EmptyString)
      via (negb (bool_decide (kind = Solicit)))) l ltac:(by left) eq_refl) as H. cbn [perform] in H. rewrite Hf, Ea in H. apply H. split_and!; done || lia. }
  assert (H2 : acts [pdClient duidHex iaidHex] l l2).
  { pose proof (acts_one [pdClient duidHex iaidHex] _ (OpReleasePrefix c (sID s) (pdClient duidHex iaidHex)) l ltac:(by left)) as H.
    cbn [perform] in H. rewrite Hf, Er in H. apply H; [|done]. split; [by apply validClient_no_nul|done]. }
  pose proof (acts_refl [pdClient duidHex iaidHex] l) as H0. intros H.
  assert (l' = l \/ l' = l1 \/ l' = l2) as [-> |[-> | ->]]; [|done..].
  destruct (current l now (sID s) (pdClient duidHex iaidHex)), kind, x as [?|[]], y as [?|[]]; cbn [negb] in H; injection H; auto.
Qed.

Lemma handle_pds_acts kind cid via pds : forall l l' r,
  handle_pds sha256_hex now s kind cid via pds l = (l', r) -> acts (map (fun pd => client6 cid (pdIaId pd)) pds) l l'.
Proof.
  induction pds as [|pd pds IH]; intros l l' r; cbn [handle_pds map]; [intros [= <- _]; apply acts_refl|].
  destruct (handlePD _ _ _ _ _ _ _ _ _) as [l1 x] eqn:E1. apply handlePD_acts in E1.
  apply (acts_mono _ (map (fun pd => client6 cid (pdIaId pd)) (pd :: pds))) in E1; [|set_solver].
  destruct x as [a|e]; [|by intros [= <- _]]. destruct (handle_pds _ _ _ _ _ _ _ _) as [l2 y] eqn:E2. apply IH in E2.
  apply (acts_mono _ (map (fun pd => client6 cid (pdIaId pd)) (pd :: pds))) in E2; [|set_solver].
  intros H. assert (l' = l2) as -> by (destruct y; by injection H). by eapply acts_trans.
Qed.

Lemma grant6_acts kind cid via m reply l l' r : ledger_ok l -> Forall wire_ia (IANAs m) -> head (ClientIDs m) = Some cid ->
  grant6 sha256_hex now c s kind cid via m reply l = (l', r) -> acts (clients6 m) l l'.
Proof.
  intros Hl Hw Hcid. unfold grant6, clients6. destruct (ClientIDs m) as [|cid' rest]; [done|]. injection Hcid as ->.
  set (cls := _ ++ _). destruct (handle_ias _ _ _ _ _ _ _ _) as [l1 x] eqn:E1. apply handle_ias_acts in E1; [|done..].
  apply (acts_mono _ cls) in E1; [|set_solver].
  destruct x as [[ias|]|[]]; [|by intros [= <- _]..]. destruct (16 <? _)%nat; [by intros [= <- _]|].
  destruct (handle_pds _ _ _ _ _ _ _ _) as [l2 y] eqn:E2. apply handle_pds_acts in E2. apply (acts_mono _ cls) in E2; [|set_solver].
  intros H. assert (l' = l2) as -> by (destruct y; by injection H). by eapply acts_trans.
Qed.

(** A packet: the server's identity is stored when there was none, and the clients it names act. *)
Lemma Handle6Via_acts fresh d m via l l' r : ledger_ok l -> GetInnerMessage d = Some m -> Forall wire_ia (IANAs m) ->
  Handle6Via sha256_hex duid_valid now fresh c s d via l = (l', r) ->
  l' = l \/ acts (clients6 m) (fst (serverDUID duid_valid fresh l)) l'.
Proof.
  intros Hl Ed Hw. unfold Handle6Via. rewrite Ed. destruct (ignored6 s m); [intros [= <- _]; by left|].
  assert (Hl1 : ledger_ok (fst (serverDUID duid_valid fresh l))).
  { unfold serverDUID. destruct (is_empty _); [by apply ok_meta|done]. }
  destruct (serverDUID duid_valid fresh l) as [l1 [server|e]] eqn:Es; cbn [fst] in *; [|intros [= <- _]; right; apply acts_refl].
  intros H. right. destruct (misaddressed server m); [injection H as <- _; apply acts_refl|].
  destruct (mType m) as [kind| |] eqn:Et; [|by injection H as <- _; apply acts_refl..].
  destruct (ClientIDs m) as [|cid rest] eqn:Ecid; [injection H as <- _; apply acts_refl|].
  destruct (excessive _); [injection H as <- _; apply acts_refl|]. destruct (bool_decide _); [injection H as <- _; apply acts_refl|].
  apply grant6_acts in H; [done..|]. by rewrite Ecid.
Qed.

(** Packets leave the server's identity alone. *)
Lemma own_meta cl t0 o l : own cl o -> meta (perform sha256_hex duid_valid t0 o l) = meta l.
Proof.
  intros Ho. destruct o; try done; cbn [perform].
  - destruct (Allocate _ _ _ _ _ _ _ _ _ _) as [l1 [b|e]] eqn:E; [|by apply Allocate_err in E as ->].
    apply Allocate_ok in E as (? & ? & ? & _ & _ & [(_ & -> & _)|(kind & _ & ->)]); [done|]. cbn [fst]. apply save_fields.
  - unfold Release, update. destruct (fail_if _ _); cbn; [|done]. destruct decline; apply save_fields.
  - destruct (find_scope _ _) as [t|]; [|done]. unfold AllocatePrefix, update, delegate_tx. destruct (choose_prefix _ _ _ _ _ _ _); [|done].
    destruct (negb commit && _); [done|]. destruct (prefix_binding _ _ _ _ _ _ _ _ _). cbn [fst]. apply save_fields.
  - destruct (find_scope _ _) as [t|]; [|done]. unfold releasePrefix, update. destruct (fail_if _ _); cbn; [|done].
    apply fold_left_inv; [|done]. intros d l2 _ <-. apply save_fields.
Qed.

Lemma acts_meta cls l l' : acts cls l l' -> meta l' = meta l.
Proof.
  intros (xs & Hr & Hf). induction Hr as [|x xs l1 l2 l3 Hx _ IH]; [done|]. apply Forall_cons in Hf as [(_ & cl & _ & Ho) Hf].
  rewrite (IH Hf). destruct Hx as [t o l1 _ _]. cbn in Ho.
  by apply (own_meta cl).
Qed.

End Acts.

Section Packet.
Context (sha256_hex : string -> string) (duid_valid : string -> bool).
Context (sha_digits : forall x, str_forallb hex_lower_char (sha256_hex x) = true).

Definition server_identity (l : ledger) : string := lookup_default (meta l) "duid" EmptyString.

(** What the packet path does with the ledger. *)
Lemma HandleMsg6_acts now fresh unbuilt unwrapped c key ifi oob peer d m l l' sent routes :
  Validate c = Ok tt -> ledger_ok l -> unix now -> GetInnerMessage d = Some m -> Forall wire_ia (IANAs m) ->
  HandleMsg6 sha256_hex duid_valid now fresh unbuilt unwrapped c key ifi oob peer d l = (l', sent, routes) ->
  l' = l \/ acts sha256_hex duid_valid now (clients6 m) (fst (serverDUID duid_valid fresh l)) l'.
Proof.
  intros Hv Hl Hn Ed Hw. unfold HandleMsg6. destruct (guard6 c key d peer) eqn:Eg; [|intros [= <- _ _]; by left]. cbn [negb].
  rewrite Ed. destruct (_ || _); [intros [= <- _ _]; by left|].
  destruct (served_scope6 c key d peer Hv Eg) as (s & Ef & Hs & _). unfold ghostleases6. rewrite Ef.
  destruct (Handle6Via _ _ _ _ _ _ _ _ _) as [l1 r] eqn:Eh. eapply Handle6Via_acts in Eh; eauto.
  intros H. assert (l' = l1) as -> by (destruct r as [[]|]; by injection H). done.
Qed.

(** A packet acts for the clients it names only.  Whatever DHCPv6 packet arrives, relayed or
    not, answered, dropped or failing half-way, the ledger stays in order; every address leased,
    offered or quarantined and every prefix delegated to a client that is not one of the packet's
    own (its DUID with one of its IAIDs) stays as it is while it lasts; and the server's identity,
    once it has one, does not change. *)
Theorem dhcp6_isolated now fresh unbuilt unwrapped c key ifi oob peer d m l l' sent routes :
  Validate c = Ok tt -> ledger_ok l -> unix now -> GetInnerMessage d = Some m -> Forall wire_ia (IANAs m) ->
  HandleMsg6 sha256_hex duid_valid now fresh unbuilt unwrapped c key ifi oob peer d l = (l', sent, routes) ->
  ledger_ok l'
  /\ (forall b, holds b l -> granted_lease b -> now < End_ b -> Client b ∉ clients6 m -> holds b l')
  /\ (server_identity l' = server_identity l \/ server_identity l = EmptyString /\ server_identity l' = fresh).
Proof.
  intros Hv Hl Hn Ed Hw H. eapply HandleMsg6_acts in H as [-> |H]; eauto.
  assert (Hl1 : ledger_ok (fst (serverDUID duid_valid fresh l))) by (unfold serverDUID; destruct (is_empty _); [by apply ok_meta|done]).
  split; [by eapply acts_ok|]. split.
  - intros b Hb Hg He Hc. eapply acts_holds; eauto. unfold serverDUID. by destruct (is_empty _).
  - unfold server_identity. rewrite (acts_meta _ _ _ _ _ _ H). unfold serverDUID.
    destruct (is_empty _) eqn:E; [right|by left]. apply is_empty_spec in E. split; [done|]. cbn.
    unfold lookup_default. by rewrite lookup_insert_eq.
Qed.
End Packet.
