(* ===== verification/Dhcp6Grant.v ===== *)
(** DHCPv6 replies: every address and prefix a reply gives is stored for the client it is given to
    when the packet has been handled, whatever else the packet asked for; and an advertised address is granted to who requests it. *)

From S2P Require Import Prelude NetAddr Ledger LedgerInv Config KeyText ConfigInv AddrText Allocate AllocInv LeaseImport Delegate.
From S2P Require Import BookInv BookSafety BookGrant DelegateInv LeaseText Dhcp4 Dhcp4Inv Dhcp6 Dhcp6Inv.
Local Open Scope Z_scope.

Lemma client6_inj cid a b : client6 cid a = client6 cid b -> a = b.
Proof.
  unfold client6, pdClient. intros H%append_inj_l%append_inj_l%append_inj_l.
  apply (f_equal hex_decode) in H. rewrite !read_hex in H. congruence.
Qed.

(** A request commits, a solicitation only asks for an offer. *)
Definition commits (kind : MessageType) : bool := negb (bool_decide (kind = Solicit)).
Definition grants_kind (kind : MessageType) : bool :=
  match kind with Solicit | Request | Renew | Rebind => true | _ => false end.

(** The ledger holds [addr] for the client: its lease from now on, or at least an offer. *)
Definition granted (now : Z) (s : Scope) (client : string) (commit : bool) (addr : string) (l : ledger) : Prop :=
  exists b, stored l b /\ bScope b = sID s /\ Client b = client /\ Address b = addr
  /\ usable_state (bState b) = true /\ now < End_ b
  /\ (commit = true -> bState b = "active" /\ End_ b = now + LeaseSeconds s).

Section Grant6.
Context (sha256_hex : string -> string) (duid_valid : string -> bool).
Context (sha_digits : forall x, str_forallb hex_lower_char (sha256_hex x) = true).
Context (now : Z) (Hn : unix now) (c : Config) (Hv : Validate c = Ok tt) (s : Scope) (Hs : s ∈ Scopes c).

Lemma scope_found : find_scope c (sID s) = Some s.
Proof. by apply find_scope_self. Qed.

Lemma scope_good : exists devs p, good_scope devs s p /\ no_slash (sID s) = true /\ no_nul (sID s) = true /\ 60 <= LeaseSeconds s.
Proof.
  destruct (find_scope_good c _ _ Hv scope_found) as (_ & devs & ps & p & _ & Gs). exists devs, p.
  destruct (label_key _ (gs_id _ _ _ Gs)) as (_ & ? & ?). pose proof (gs_lease _ _ _ Gs). split_and!; try done; lia.
Qed.

Lemma new_granted l b client (commit : bool) addr : stored l b -> bScope b = sID s -> Client b = client -> Address b = addr ->
  bState b = (if commit then "active" else "offered") -> End_ b = (if commit then now + LeaseSeconds s else now + 30) ->
  granted now s client commit addr l.
Proof.
  intros Hst E1 E2 E3 E4 E5. destruct scope_good as (_ & _ & _ & _ & _ & Hl). exists b. rewrite E4, E5. destruct commit; split_and!; done || lia.
Qed.

(** A write under another key, or one that grants the same, keeps a grant. *)
Lemma save_granted client commit addr b' kind l :
  (key_of b' = bindingKey (sID s) addr -> granted now s client commit addr (save now b' kind l)) ->
  granted now s client commit addr l -> granted now s client commit addr (save now b' kind l).
Proof.
  intros Hk (b & Hst & E1 & E2 & E3 & H). destruct (decide (key_of b' = bindingKey (sID s) addr)) as [E|Hne]; [auto|].
  exists b. split; [|done]. destruct (save_fields now b' kind l) as (F & _). unfold stored. rewrite F.
  rewrite lookup_insert_ne; [done|]. unfold key_of at 2. by rewrite E1, E3.
Qed.

(** Another client's allocation keeps it. *)
Lemma Allocate_keeps_grant id client client' commit commit' addr mac claimed requested l l' r : client' <> client ->
  Allocate sha256_hex now c id client' mac claimed requested commit' l = (l', r) ->
  granted now s client commit addr l -> granted now s client commit addr l'.
Proof.
  intros Hne H Hg. destruct r as [b|e]; [|by apply Allocate_err in H as ->].
  apply Allocate_ok in H as (s' & mac' & ip & Ha & Hch & [(_ & -> & _)|(kind & Hb & ->)]); [done|]. apply save_granted; [|done].
  apply new_binding_fields in Hb as (E1 & E2 & _). unfold key_of. rewrite E1, E2. intros E. exfalso.
  apply admission_ok in Ha as (Hf & _). pose proof (find_scope_good c _ _ Hv Hf) as (_ & devs & ps & p & _ & Gs').
  destruct (label_key _ (gs_id _ _ _ Gs')) as (_ & Hns & _). destruct scope_good as (_ & _ & _ & Hns2 & _).
  apply bindingKey_inj in E as [Ei ->]; [|done..]. destruct Hg as (d & Hst & D1 & D2 & D3 & D4 & D5 & _).
  apply choose_available in Hch. unfold available, blocks, busy in Hch. rewrite Ei, <-D1, <-D3, (read_stored l d Hst) in Hch.
  rewrite (proj2 (Z.ltb_lt _ _) D5), (usable_live _ D4), (proj2 (String.eqb_neq (Client d) client')) in Hch by congruence.
  cbn in Hch. by rewrite andb_false_r in Hch.
Qed.

(** A delegation in the same packet keeps it, whoever it is for. *)
Lemma AllocatePrefix_keeps_grant pd client client' commit addr duid hint via l l' r : PD s = Some pd -> validClient client' = true -> ledger_ok l ->
  AllocatePrefix sha256_hex now s pd client' duid hint via commit l = (l', r) ->
  granted now s client commit addr l -> granted now s client commit addr l'.
Proof.
  intros Hpd Hcl Hl H Hg. pose proof scope_found as Hf. destruct scope_good as (devs & p & Gs & Hns & Hnn & Hlease).
  destruct r as [b|e].
  2:{ unfold AllocatePrefix, update, delegate_tx in H. destruct (choose_prefix _ _ _ _ _ _ _); [|by injection H as <- _].
      destruct (_ && _); [done|]. by destruct (prefix_binding _ _ _ _ _ _ _ _ _). }
  apply delegate_cases in H as (q & Hch & [[-> _]|(kind & Hb & ->)]); [done|]. apply save_granted; [|done].
  pose proof Hb as (E1 & E2 & E3 & _ & E5 & _ & E7)%prefix_binding_fields. unfold key_of. rewrite E1, E2. intros E.
  apply bindingKey_inj in E as [_ E]; [|done..]. eapply new_granted; [apply save_stored|done| |by rewrite E2|done|done]. rewrite E3.
  destruct Hg as (d & Hst & D1 & D2 & D3 & D4 & D5 & _). rewrite <-D2.
  eapply choose_prefix_cases in Hch as [(mine & Hm & Eq)|(_ & _ & Hfree)]; [| |exact Hv|exact Hf|exact Hpd].
  - apply last_such_spec in Hm as [Hin Hd]. apply (liveByClient_exact l (ok_wf _ Hl)) in Hin as (Hst' & _ & M1 & M2); [|done|by apply validClient_no_nul].
    assert (Ho : Origin mine = originPD) by (unfold delegated in Hd; by bool_hyps). destruct (ok_lasting _ Hl _ Hst') as [[_ Hpr] _].
    destruct (Hpr Ho) as (q' & Eq' & Et). unfold must_prefix in Eq. rewrite Eq' in Eq. cbn in Eq. subst q'.
    assert (mine = d) as <-; [|done]. unfold stored, key_of in Hst, Hst'. rewrite M1, <-Et, E in Hst'. rewrite D1, D3 in Hst. congruence.
  - unfold free in Hfree. rewrite E, <-D1, <-D3, (read_stored l d Hst), (proj2 (Z.ltb_lt _ _) D5), D4 in Hfree. cbn in Hfree.
    by apply String.eqb_eq in Hfree.
Qed.

(** * Leases *)

(** What is said of an IA that is given an address. *)
Definition ia_sound (p : Prefix) (kind : MessageType) (cid : duid) (l' : ledger) (ia : IANA) (out : string * IAAnswer) : Prop :=
  fst out = IaId ia
  /\ match snd out with
     | IALease T1 T2 ip preferred valid =>
       T1 = LeaseSeconds s / 2 /\ T2 = LeaseSeconds s * 4 / 5 /\ preferred = PreferredSeconds s /\ valid = LeaseSeconds s
       /\ grants_kind kind = true
       /\ exists n addr mac, ip = Some n /\ ParseAddr addr = Some (Addr6 n EmptyString) /\ Contains p (Addr6 n EmptyString) = true
          /\ admission c (sID s) (client6 cid (IaId ia)) (duidMAC cid) = Ok (s, mac) /\ allowed s (client6 cid (IaId ia)) mac addr = true
          /\ grantable s (client6 cid (IaId ia)) mac addr /\ granted now s (client6 cid (IaId ia)) (commits kind) addr l'
     | IAStatus _ _ => True
     end.

Lemma lease_ia_sound p kind client mac cur ex ia l l' T1 T2 ip preferred valid :
  sound_scope s p -> scope_is6 s = true -> ledger_ok l -> validClient client = true -> wire_ia ia -> currentClient now (sID s) client l = (cur, ex) ->
  lease_ia sha256_hex now c s kind client mac cur ex ia l = (l', Ok (IALease T1 T2 ip preferred valid)) ->
  T1 = LeaseSeconds s / 2 /\ T2 = LeaseSeconds s * 4 / 5 /\ preferred = PreferredSeconds s /\ valid = LeaseSeconds s
  /\ exists n addr mac', ip = Some n /\ ParseAddr addr = Some (Addr6 n EmptyString) /\ Contains p (Addr6 n EmptyString) = true
     /\ admission c (sID s) client mac = Ok (s, mac') /\ allowed s client mac' addr = true
     /\ grantable s client mac' addr /\ granted now s client (commits kind) addr l'.
Proof.
  intros Gs H6 Hl Hcl Hw Ec. unfold lease_ia. destruct (wanted_address _ _ _ _ _ _ _ _ _ _) as [l1 [req|[]]] eqn:Ew; try done.
  eapply (wanted_address_acts sha256_hex duid_valid) in Ew as [Ha Hp]; eauto. destruct (Hp req eq_refl) as [Hreq _].
  pose proof (acts_ok sha256_hex duid_valid sha_digits _ _ _ _ Ha Hl) as Hl1.
  destruct (Allocate _ _ _ _ _ _ _ _ _ _) as [l2 [b|[]]] eqn:Ea; try done. intros [= <- <- <- <- <- <-].
  pose proof Ea as (s1 & m1 & Had1 & Hav%available_allowed)%Allocate_available; [|done..].
  apply Allocate_grants in Ea as (s' & mac' & Had & _ & Hst & Esc & Ecl & Hgr & _ & Hc); [|done..].
  rewrite Had in Had1. injection Had1 as <- <-. pose proof Had as (Hf & _)%admission_ok. rewrite scope_found in Hf. injection Hf as <-. split_and!; try done.
  pose proof Hgr as ((p' & a & Ep & Ea & Hcon) & _). rewrite (ss_prefix _ _ Gs) in Ep. injection Ep as <-.
  destruct (Contains_family p a Hcon) as [Hf4 Hz]. rewrite (family6 s p Gs H6) in Hf4. destruct a as [|n z]; [done|]. cbn in Hz. subst z.
  exists n, (Address b), mac'. split_and!; try done; [unfold ParseIP; by rewrite Ea|]. exists b. split_and!; try done.
  - unfold commits. destruct (negb _); [destruct Hc as (_ & -> & _)|destruct Hc as [? _]]; done.
  - destruct scope_good as (_ & _ & _ & _ & _ & ?). destruct (negb _); [destruct Hc as (_ & _ & ->); lia|].
    destruct Hc as [_ [(_ & _ & ?)|?]]; lia.
  - unfold commits. intros E. rewrite E in Hc. destruct Hc as (_ & ? & ?). done.
Qed.

Lemma lease_ia_keeps kind client client' mac cur ex ia l l' r addr : client' <> client ->
  lease_ia sha256_hex now c s kind client' mac cur ex ia l = (l', r) ->
  granted now s client (commits kind) addr l -> granted now s client (commits kind) addr l'.
Proof.
  intros Hne H Hg. unfold lease_ia, wanted_address in H.
  set (req := if ex then _ else _) in H.
  destruct (is_empty req || negb (allowed s client' mac req)).
  - destruct (Allocate _ _ _ _ _ _ _ _ _ l) as [l1 [b|[]]] eqn:E1; (eapply Allocate_keeps_grant in E1; [|exact Hne|exact Hg]); [|by injection H as <- _..].
    destruct (Allocate _ _ _ _ _ _ _ _ _ l1) as [l2 [b'|[]]] eqn:E2; injection H as <- _; by eapply Allocate_keeps_grant.
  - destruct (Allocate _ _ _ _ _ _ _ _ _ l) as [l2 [b'|[]]] eqn:E2; injection H as <- _; by eapply Allocate_keeps_grant.
Qed.

Lemma handle_ia_keeps kind client cid ia l l' r addr : grants_kind kind = true -> client6 cid (IaId ia) <> client ->
  handle_ia sha256_hex now c s kind cid ia l = (l', r) ->
  granted now s client (commits kind) addr l -> granted now s client (commits kind) addr l'.
Proof.
  intros Hk Hne H Hg. unfold handle_ia in H. destruct (validClient _); cbn [negb] in H; [|by injection H as <- _].
  destruct (currentClient _ _ _ _) as [cur ex]. destruct (match kind with Release_ => _ | _ => _ end) as [l1 r1] eqn:E. injection H as <- _.
  destruct kind; try done; try (by eapply lease_ia_keeps); (destruct ex; cbn [negb] in E; [by eapply lease_ia_keeps|by injection E as <- _]).
Qed.

Lemma handle_ia_sound p kind cid ia l l' a : sound_scope s p -> scope_is6 s = true -> ledger_ok l -> wire_ia ia -> kind <> Confirm_ ->
  handle_ia sha256_hex now c s kind cid ia l = (l', Ok (Some a)) -> ia_sound p kind cid l' ia (IaId ia, a).
Proof.
  intros Gs H6 Hl Hw Hk H. split; [done|]. cbn [snd]. destruct a as [|T1 T2 ip pref val]; [done|]. unfold handle_ia in H.
  destruct (validClient _) eqn:Hcl; [|done]. cbn [negb] in H. destruct (currentClient _ _ _ _) as [cur ex] eqn:Ec.
  destruct (match kind with Release_ => _ | _ => _ end) as [l1 [a'|]] eqn:E; [|done]. injection H as <- ->.
  assert (lease_ia sha256_hex now c s kind (client6 cid (IaId ia)) (duidMAC cid) cur ex ia l = (l1, Ok (IALease T1 T2 ip pref val))
    /\ grants_kind kind = true) as [HL Hg].
  { destruct kind; try done; try (by destruct ex); unfold release_ia in E; destruct ex; cbn [negb] in E; try done;
      by destruct (release_addresses _ _ _ _ _ _ _ _) as [? []]. }
  eapply lease_ia_sound in HL as (? & ? & ? & ? & ?); eauto. by split_and!.
Qed.

Lemma ia_sound_keeps p kind cid l l' ia out : (forall addr, grants_kind kind = true ->
    granted now s (client6 cid (IaId ia)) (commits kind) addr l -> granted now s (client6 cid (IaId ia)) (commits kind) addr l') ->
  ia_sound p kind cid l ia out -> ia_sound p kind cid l' ia out.
Proof.
  intros Hk [E H]. split; [done|]. destruct (snd out); [done|]. destruct H as (? & ? & ? & ? & Hg & n & addr & mac & ? & ? & ? & ? & ? & ? & ?).
  split_and!; try done. exists n, addr, mac. split_and!; auto.
Qed.

Lemma handle_ias_keeps kind client cid ias addr : grants_kind kind = true -> forall l l' r, Forall (fun ia => client6 cid (IaId ia) <> client) ias ->
  handle_ias sha256_hex now c s kind cid ias l = (l', r) ->
  granted now s client (commits kind) addr l -> granted now s client (commits kind) addr l'.
Proof.
  intros Hk. induction ias as [|ia ias IH]; intros l l' r Hne; cbn [handle_ias]; [by intros [= <- _]|].
  apply Forall_cons in Hne as [Hne Hnes]. destruct (handle_ia _ _ _ _ _ _ _ _) as [l1 x] eqn:E1. intros H Hg.
  eapply handle_ia_keeps in E1; [|exact Hk|exact Hne|exact Hg]. destruct x as [[a|]|e]; [|by injection H as <- _..].
  destruct (handle_ias _ _ _ _ _ _ _ _) as [l2 y] eqn:E2. assert (l' = l2) as -> by (destruct y as [[|]|]; by injection H).
  by eapply IH.
Qed.

Lemma handle_ias_sound p kind cid : sound_scope s p -> scope_is6 s = true -> kind <> Confirm_ -> forall ias l l' out,
  ledger_ok l -> Forall wire_ia ias -> NoDup (map IaId ias) ->
  handle_ias sha256_hex now c s kind cid ias l = (l', Ok (Some out)) -> Forall2 (ia_sound p kind cid l') ias out.
Proof.
  intros Gs H6 Hk. induction ias as [|ia ias IH]; intros l l' out Hl Hw Hd; cbn [handle_ias]; [intros [= <- <-]; constructor|].
  apply Forall_cons in Hw as [Hw Hws]. cbn [map] in Hd. apply NoDup_cons in Hd as [Hni Hd].
  destruct (handle_ia _ _ _ _ _ _ _ _) as [l1 [[a|]|e]] eqn:E1; [|done..].
  destruct (handle_ias _ _ _ _ _ _ _ _) as [l2 [[outs|]|e]] eqn:E2; [|done..]. intros [= <- <-].
  assert (Hl1 : ledger_ok l1).
  { eapply (acts_ok sha256_hex duid_valid sha_digits), Hl. eapply handle_ia_acts; eauto. }
  constructor; [|by eapply IH]. eapply ia_sound_keeps; [|eapply handle_ia_sound; [..|exact E1]; done]. intros addr Hg.
  eapply handle_ias_keeps; [done| |exact E2]. apply Forall_forall. intros ia' Hin E%client6_inj. apply Hni. rewrite <-E.
  by apply list_elem_of_fmap_2.
Qed.

(** * Delegations *)

Definition pd_sound (kind : MessageType) (cid : duid) (l' : ledger) (pd : IAPDRequest) (out : string * IAPD) : Prop :=
  fst out = pdIaId pd
  /\ match snd out with
     | PDPrefix T1 T2 preferred valid text =>
       T1 = LeaseSeconds s / 2 /\ T2 = LeaseSeconds s * 4 / 5 /\ preferred = PreferredSeconds s /\ valid = LeaseSeconds s
       /\ grants_kind kind = true
       /\ exists p, text = PrefixString (Masked p) /\ granted now s (client6 cid (pdIaId pd)) (commits kind) (PrefixString p) l'
     | _ => True
     end.

Lemma handlePD_keeps kind client duidHex iaidHex hints via l l' r addr : grants_kind kind = true -> ledger_ok l ->
  handlePD sha256_hex now s kind duidHex iaidHex hints via l = (l', r) ->
  granted now s client (commits kind) addr l -> granted now s client (commits kind) addr l'.
Proof.
  intros Hk Hl H Hg. unfold handlePD in H. destruct (PD s) as [pd|] eqn:Epd; [|by injection H as <- _].
  destruct (validClient _) eqn:Hcl; cbn [negb] in H; [|by injection H as <- _]. cbv zeta in H.
  destruct (AllocatePrefix _ _ _ _ _ _ _ _ _ _) as [l1 x] eqn:Ea. fold (commits kind) in Ea.
  assert (granted now s client (commits kind) addr l1) by (by eapply AllocatePrefix_keeps_grant).
  assert (l' = l \/ l' = l1) as [-> | ->]; [|done..].
  destruct (current l now (sID s) (pdClient duidHex iaidHex)), kind, x as [?|[]]; cbn [negb] in H; try done; injection H; auto.
Qed.

Lemma AllocatePrefix_granted pd client duid hint via commit l l' b : PD s = Some pd -> validClient client = true -> ledger_ok l ->
  AllocatePrefix sha256_hex now s pd client duid hint via commit l = (l', Ok b) ->
  exists p, must_prefix (Address b) = p /\ granted now s client commit (PrefixString p) l'.
Proof.
  intros Hpd Hcl Hl H. destruct scope_good as (devs & sp & Gs & Hns & Hnn & Hlease).
  assert (Hmine : forall mine, last_such (delegated now) (liveByClient l (sID s) client) = Some mine ->
    stored l mine /\ bScope mine = sID s /\ Client mine = client /\ delegated now mine = true
    /\ exists p, ParsePrefix (Address mine) = Some p /\ PrefixString p = Address mine).
  { intros mine [Hin Hd]%last_such_spec. apply (liveByClient_exact l (ok_wf _ Hl)) in Hin as (Hst & _ & E1 & E2); [|done|by apply validClient_no_nul].
    assert (Ho : Origin mine = originPD) by (unfold delegated in Hd; by bool_hyps).
    destruct (ok_lasting _ Hl _ Hst) as [[_ Hp] _]. specialize (Hp Ho). done. }
  eexists. split; [reflexivity|]. unfold AllocatePrefix, update, delegate_tx in H.
  destruct (choose_prefix _ _ _ _ _ _ _) as [q|] eqn:Hch; [|done]. cbv zeta in H. destruct (negb commit && _) eqn:Ec.
  - destruct (last_such _ _) as [mine|] eqn:Em; [|by apply andb_prop in Ec as [_ ?]]. injection H as <- <-.
    destruct (Hmine mine eq_refl) as (Hst & E1 & E2 & Hd & p & Ep & Et). unfold must_prefix. cbn [default from_option id]. rewrite Ep. cbn [default from_option id].
    unfold delegated in Hd. apply andb_prop in Ec as [Ec _]. apply negb_true_iff in Ec as ->. bool_hyps.
    exists mine. split_and!; try done; lia.
  - destruct (prefix_binding _ _ _ _ _ _ _ _ _) as [b' kind] eqn:Hb. injection H as <- <-.
    pose proof Hb as (E1 & E2 & E3 & _ & E5 & _ & E7)%prefix_binding_fields.
    eapply new_granted; [apply save_stored|done|done| |done|done]. rewrite E2. unfold must_prefix.
    assert (good_prefix q) as Gq; [|by rewrite (good_prefix_read q Gq)].
    destruct (scope_pool c _ s pd Hv scope_found Hpd) as (_ & _ & _ & _ & _ & Hlen).
    eapply choose_prefix_good, Hch. lia.
Qed.

Lemma handlePD_sound kind cid pd via l l' a : ledger_ok l -> 
  handlePD sha256_hex now s kind (hex_of (dBytes cid)) (hex_of (pdIaId pd)) (pdHints pd) via l = (l', Ok a) -> pd_sound kind cid l' pd (pdIaId pd, a).
Proof.
  intros Hl H. split; [done|]. cbn [snd]. destruct a as [|T1 T2 pref val text|]; [done| |done]. unfold handlePD in H.
  destruct (PD s) as [pc|] eqn:Epd; [|done]. destruct (validClient _) eqn:Hcl; cbn [negb] in H; [|done]. cbv zeta in H.
  destruct (AllocatePrefix _ _ _ _ _ _ _ _ _ _) as [l1 x] eqn:Ea.
  assert (Hx : exists b, x = Ok b /\ l' = l1 /\ grants_kind kind = true
    /\ PDPrefix T1 T2 pref val text = PDPrefix (LeaseSeconds s / 2) (LeaseSeconds s * 4 / 5) (PreferredSeconds s) (LeaseSeconds s)
         (PrefixString (Masked (must_prefix (Address b))))).
  { destruct (current l now (sID s) _), kind, x as [b|[]]; cbn [negb] in H; try done; try (by destruct (releasePrefix _ _ _ _) as [? [|[]]]);
      injection H as <- <- <- <- <- <-; by exists b. }
  destruct Hx as (b & -> & -> & Hg & [= -> -> -> -> ->]). split_and!; try done.
  eapply AllocatePrefix_granted in Ea as (p & <- & Hgr); eauto.
Qed.

Lemma handle_pds_keeps kind cid via client pds addr : grants_kind kind = true -> forall l l' r, ledger_ok l ->
  handle_pds sha256_hex now s kind cid via pds l = (l', r) ->
  granted now s client (commits kind) addr l -> granted now s client (commits kind) addr l'.
Proof.
  intros Hk. induction pds as [|pd pds IH]; intros l l' r Hl; cbn [handle_pds]; [by intros [= <- _]|].
  destruct (handlePD _ _ _ _ _ _ _ _ _) as [l1 x] eqn:E1. intros H Hg.
  assert (ledger_ok l1).
  { eapply (acts_ok sha256_hex duid_valid sha_digits), Hl. eapply handlePD_acts; eauto. }
  eapply handlePD_keeps in E1; [|exact Hk|exact Hl|exact Hg]. destruct x as [a|e]; [|by injection H as <- _].
  destruct (handle_pds _ _ _ _ _ _ _ _) as [l2 y] eqn:E2. assert (l' = l2) as -> by (destruct y; by injection H). by eapply IH.
Qed.

Lemma handle_pds_sound kind cid via : forall pds l l' out, ledger_ok l ->
  handle_pds sha256_hex now s kind cid via pds l = (l', Ok out) -> Forall2 (pd_sound kind cid l') pds out.
Proof.
  induction pds as [|pd pds IH]; intros l l' out Hl; cbn [handle_pds]; [intros [= <- <-]; constructor|].
  destruct (handlePD _ _ _ _ _ _ _ _ _) as [l1 [a|e]] eqn:E1; [|done].
  destruct (handle_pds _ _ _ _ _ _ _ _) as [l2 [outs|e]] eqn:E2; [|done]. intros [= <- <-].
  assert (Hl1 : ledger_ok l1).
  { eapply (acts_ok sha256_hex duid_valid sha_digits), Hl. eapply handlePD_acts; eauto. }
  constructor; [|by eapply IH]. apply handlePD_sound in E1 as [E H]; [|done]. split; [done|]. destruct (snd _); try done.
  destruct H as (? & ? & ? & ? & Hk & p & -> & Hg). split_and!; try done. exists p. split; [done|]. by eapply handle_pds_keeps.
Qed.

End Grant6.

(** * Replies *)

Section Sound6.
Context (sha256_hex : string -> string) (duid_valid : string -> bool).
Context (sha_digits : forall x, str_forallb hex_lower_char (sha256_hex x) = true).

(** What a reply says, by the kind of the message. *)
Definition answered6 (now : Z) (c : Config) (s : Scope) (p : Prefix) (m : Message6) (l l' : ledger) (reply : Reply6) : Prop :=
  match mType m with
  | Kind Confirm_ =>
    bindings l' = bindings l /\ rIANAs reply = [] /\ rIAPDs reply = []
    /\ exists code, rStatus reply = Some code
       /\ (code = "Success" <-> Forall (fun ia => Forall (fun a => Contains p (Addr6 a EmptyString) = true) (Addresses ia)) (IANAs m))
  | Kind kind =>
    exists cid, ClientIDs m = [cid] /\ NoDup (map IaId (IANAs m)) /\ (length (IANAs m) <= 16)%nat /\ (length (IAPDs m) <= 16)%nat
    /\ Forall2 (ia_sound now c s p kind cid l') (IANAs m) (rIANAs reply) /\ Forall2 (pd_sound now s kind cid l') (IAPDs m) (rIAPDs reply)
  | InformationRequest => bindings l' = bindings l /\ rIANAs reply = [] /\ rIAPDs reply = []
  | OtherType => False
  end.

(** The fields every reply has. *)
Definition addressed (s : Scope) (m : Message6) (l' : ledger) (reply : Reply6) : Prop :=
  rServerID reply = server_identity l' /\ misaddressed (server_identity l') m = false
  /\ rTransaction reply = TransactionID m /\ rClientID reply = head (ClientIDs m) /\ rAdvertise reply = bool_decide (mType m = Kind Solicit)
  /\ rDNS reply = ParseIP (sServer s) /\ rSearch reply = Zone s.

Lemma confirm_code_spec s p ias : sound_scope s p ->
  confirm_code s ias = "Success" <-> Forall (fun ia => Forall (fun a => Contains p (Addr6 a EmptyString) = true) (Addresses ia)) ias.
Proof.
  intros Gs. unfold confirm_code, must_prefix. rewrite (ss_prefix _ _ Gs). change (default no_prefix (Some p)) with p.
  destruct (forallb _ ias) eqn:E.
  - split; [|done]. intros _. apply Forall_forall. intros ia Hin%list_elem_of_In. apply Forall_forall. intros a Ha%list_elem_of_In.
    rewrite forallb_forall in E. specialize (E ia Hin). rewrite forallb_forall in E. by apply E.
  - split; [done|]. intros H. exfalso. apply not_true_iff_false in E. apply E, forallb_forall. intros ia Hin%list_elem_of_In.
    rewrite Forall_forall in H. specialize (H ia Hin). apply forallb_forall. intros a Ha%list_elem_of_In. rewrite Forall_forall in H. by apply H.
Qed.

Lemma serverDUID_identity fresh l l1 server : serverDUID duid_valid fresh l = (l1, Ok server) ->
  server_identity l1 = server /\ duid_valid server = true /\ bindings l1 = bindings l /\ (ledger_ok l -> ledger_ok l1).
Proof.
  unfold serverDUID, server_identity. destruct (is_empty _) eqn:E; destruct (duid_valid _) eqn:Ed; try done; intros [= <- <-].
  - split_and!; try done; [|by apply ok_meta]. cbn. unfold lookup_default. by rewrite lookup_insert_eq.
  - done.
Qed.

Lemma grant6_answered now c s p m kind cid via reply l l' reply' : unix now -> Validate c = Ok tt -> s ∈ Scopes c -> sound_scope s p ->
  scope_is6 s = true -> ledger_ok l -> Forall wire_ia (IANAs m) -> excessive (IANAs m) = false -> kind <> Confirm_ ->
  grant6 sha256_hex now c s kind cid via m reply l = (l', Ok (Some reply')) ->
  NoDup (map IaId (IANAs m)) /\ (length (IANAs m) <= 16)%nat /\ (length (IAPDs m) <= 16)%nat
  /\ Forall2 (ia_sound now c s p kind cid l') (IANAs m) (rIANAs reply') /\ Forall2 (pd_sound now s kind cid l') (IAPDs m) (rIAPDs reply')
  /\ rServerID reply' = rServerID reply /\ rTransaction reply' = rTransaction reply /\ rClientID reply' = rClientID reply
  /\ rAdvertise reply' = rAdvertise reply /\ rDNS reply' = rDNS reply /\ rSearch reply' = rSearch reply.
Proof.
  intros Hn Hv Hs Gs H6 Hl Hw Hex Hk H. unfold excessive in Hex. apply orb_false_iff in Hex as [Hex _].
  apply orb_false_iff in Hex as [Hlen%Nat.ltb_ge Hd]. apply negb_false_iff, bool_decide_eq_true in Hd.
  unfold grant6 in H. destruct (handle_ias _ _ _ _ _ _ _ _) as [l1 [[ias|]|[]]] eqn:E1; try done.
  destruct (Nat.ltb_spec 16 (length (IAPDs m))); [done|].
  assert (Hl1 : ledger_ok l1).
  { eapply (acts_ok sha256_hex duid_valid sha_digits), Hl. eapply handle_ias_acts; eauto. }
  destruct (handle_pds _ _ _ _ _ _ _ _) as [l2 [pds|]] eqn:E2; [|done]. injection H as <- <-. cbn. split_and!; try done.
  - eapply (handle_ias_sound sha256_hex duid_valid) in E1; eauto. eapply Forall2_impl; [exact E1|]. intros ia out.
    apply ia_sound_keeps. intros addr Hg. eapply (handle_pds_keeps sha256_hex duid_valid); eauto.
  - eapply (handle_pds_sound sha256_hex duid_valid) in E2; eauto.
Qed.

Lemma Handle6Via_answered now fresh c s p d m via l l' reply : unix now -> Validate c = Ok tt -> s ∈ Scopes c -> sound_scope s p ->
  ledger_ok l -> GetInnerMessage d = Some m -> Forall wire_ia (IANAs m) ->
  Handle6Via sha256_hex duid_valid now fresh c s d via l = (l', Ok (Some reply)) ->
  addressed s m l' reply /\ answered6 now c s p m l l' reply.
Proof.
  intros Hn Hv Hs Gs Hl Ed Hw H. unfold Handle6Via in H. rewrite Ed in H. destruct (ignored6 s m) eqn:Ei; [done|]. unfold ignored6 in Ei.
  destruct (serverDUID duid_valid fresh l) as [l1 [server|e]] eqn:Es; [|done].
  apply serverDUID_identity in Es as (Eid & _ & Eb & Hl1). specialize (Hl1 Hl). destruct (misaddressed server m) eqn:Em; [done|].
  assert (H6 : scope_is6 s = true) by (by destruct (scope_is6 s)). unfold answered6, addressed.
  destruct (mType m) as [kind| |] eqn:Et; [| |done].
  - destruct (ClientIDs m) as [|cid rest] eqn:Ecid; [done|]. assert (rest = []) as ->.
    { rewrite !orb_false_iff in Ei. destruct Ei as [[_ Ei%Nat.ltb_ge] _]. destruct rest; [done|cbn in Ei; lia]. }
    destruct (excessive (IANAs m)) eqn:Eex; [done|]. destruct (bool_decide_reflect (kind = Confirm_)) as [->|Hk].
    + injection H as <- <-. unfold base_reply. cbn. rewrite Et, Ecid, Eid. split_and!; try done. eexists. split; [done|]. by apply confirm_code_spec.
    + assert (Hacts : acts sha256_hex duid_valid now (clients6 m) l1 l').
      { eapply grant6_acts in H; eauto. by rewrite Ecid. }
      eapply grant6_answered in H as (? & ? & ? & ? & ? & -> & -> & -> & -> & -> & ->); eauto.
      assert (Eid' : server_identity l' = server) by (unfold server_identity; by rewrite (acts_meta _ _ _ _ _ _ Hacts)).
      rewrite Eid'. unfold base_reply. cbn. rewrite Et, Ecid. split; [by split_and!|]. destruct kind; try done; exists cid; by split_and!.
  - injection H as <- <-. unfold base_reply. cbn. rewrite Et, Eid. by split_and!.
Qed.

(** The packet path, from the packet to the answer. *)
Lemma HandleMsg6_answered now fresh unbuilt unwrapped c key ifi oob peer d m l l' sent routes :
  Validate c = Ok tt -> ledger_ok l -> unix now -> GetInnerMessage d = Some m -> Forall wire_ia (IANAs m) ->
  HandleMsg6 sha256_hex duid_valid now fresh unbuilt unwrapped c key ifi oob peer d l = (l', Some sent, routes) ->
  exists s p, find (picks6 key d) (Scopes c) = Some s /\ guard6 c key d peer = true /\ scope_is6 s = true
  /\ s ∈ Scopes c /\ Enabled s = true /\ socketKey s = key /\ matches6 s d peer = true /\ sound_scope s p
  /\ (forall t, t ∈ Scopes c -> picks6 key d t = true -> t = s)
  /\ sTo sent = peer /\ sRelayed sent = (if IsRelay d then Some d else None)
  /\ addressed s m l' (sReply sent) /\ answered6 now c s p m l l' (sReply sent).
Proof.
  intros Hv Hl Hn Ed Hw. unfold HandleMsg6. destruct (guard6 c key d peer) eqn:Eg; [|done]. cbn [negb].
  rewrite Ed. destruct (_ || unbuilt); [done|].
  destruct (served_scope6 c key d peer Hv Eg) as (s & Ef & Hs & Hen & Hk & Hm & H6 & Hu). unfold ghostleases6. rewrite Ef.
  destruct (accepted_scope c s Hv Hs) as [p Gs]. destruct (Handle6Via _ _ _ _ _ _ _ _ _) as [l1 [[reply|]|]] eqn:Eh; [|done..].
  destruct (IsRelay d && unwrapped); [done|]. intros [= <- <- _]. exists s, p. eapply Handle6Via_answered in Eh as [? ?]; eauto.
  by split_and!.
Qed.

(** C18: A DHCPv6 packet is answered from the ledger.  For an accepted configuration and a ledger in
    order, a packet that is answered came in for exactly one enabled scope of its socket (directly,
    or through the scope's relay, at most 32 relays deep), was meant for this server, and goes back
    to its sender, wrapped for the same relays.  Each of its at most sixteen IAs is answered under
    its IAID; one that gets an address gets one of the scope's subnet that the scope may grant the
    client, with the scope's lifetimes, and when the whole packet has been handled the ledger holds
    it for that client: offered, or for a request as its active lease for the scope's lease time;
    likewise delegated prefixes.  A Confirm is answered with Success exactly when all addresses are
    on the link, and neither it nor an information request changes a binding. *)
Theorem dhcp6_sound now fresh unbuilt unwrapped c key ifi oob peer d m l l' sent routes :
  Validate c = Ok tt -> ledger_ok l -> unix now -> GetInnerMessage d = Some m -> Forall wire_ia (IANAs m) ->
  HandleMsg6 sha256_hex duid_valid now fresh unbuilt unwrapped c key ifi oob peer d l = (l', Some sent, routes) ->
  exists s p, s ∈ Scopes c /\ Enabled s = true /\ socketKey s = key /\ matches6 s d peer = true /\ sound_scope s p
  /\ (forall t, t ∈ Scopes c -> picks6 key d t = true -> t = s)
  /\ sTo sent = peer /\ sRelayed sent = (if IsRelay d then Some d else None)
  /\ addressed s m l' (sReply sent) /\ answered6 now c s p m l l' (sReply sent).
Proof.
  intros Hv Hl Hn Ed Hw H. eapply HandleMsg6_answered in H as (s & p & _ & _ & _ & H); eauto.
Qed.
End Sound6.

(** DHCPv6 exchanges: the request that answers an advertised address is granted it, whatever other
    clients did in between, and a lease that is renewed is prolonged. *)

(** The same relays around another message. *)
Fixpoint with_inner (d : DHCPv6) (m : Message6) : DHCPv6 :=
  match d with
  | Direct _ => Direct m
  | RelayMessage forward hops link None => RelayMessage forward hops link None
  | RelayMessage forward hops link (Some d') => RelayMessage forward hops link (Some (with_inner d' m))
  end.

Lemma with_inner_relay d m : IsRelay (with_inner d m) = IsRelay d.
Proof. by destruct d as [|? ? ? []]. Qed.

Lemma with_inner_message : forall d m m', GetInnerMessage d = Some m -> GetInnerMessage (with_inner d m') = Some m'.
Proof.
  fix IH 1. intros [m0|forward hops la [d'|]] m m'; cbn; [done| |done]. pose proof (IH d' m m') as IH'. apply IH'.
Qed.

Lemma with_inner_link : forall d m n, relay_link n (with_inner d m) = relay_link n d.
Proof.
  fix IH 1. intros [m0|forward hops la [d'|]] m n; cbn [with_inner relay_link]; try done. destruct (_ <=? _)%nat; [done|].
  pose proof (IH d' m (S n)) as IH'. by destruct d' as [|? ? ? []].
Qed.

Lemma with_inner_from : forall d m n link, relayed_from n (with_inner d m) link = relayed_from n d link.
Proof.
  fix IH 1. intros [m0|forward hops la [d'|]] m n link; cbn [with_inner relayed_from]; try done. destruct (_ || _); [done|].
  pose proof (IH d' m (S n) link) as IH'. by destruct d' as [|? ? ? []].
Qed.

Lemma with_inner_guard c key d m peer : guard6 c key (with_inner d m) peer = guard6 c key d peer.
Proof.
  unfold guard6, matches6. rewrite with_inner_relay. induction (Scopes c) as [|s ss IH]; [done|]. cbn [existsb]. rewrite IH.
  destruct (Relay s); [|done]. by rewrite with_inner_from.
Qed.

Lemma with_inner_picks c key d m : find (picks6 key (with_inner d m)) (Scopes c) = find (picks6 key d) (Scopes c).
Proof. unfold picks6, relayLink. rewrite with_inner_relay, with_inner_link. done. Qed.

Section Exchange.
Context (sha256_hex : string -> string) (duid_valid : string -> bool).
Context (sha_digits : forall x, str_forallb hex_lower_char (sha256_hex x) = true).

(** The hardware address of a DUID is one that is accepted as it is printed. *)
Definition wire_duid (cid : duid) : Prop := forall a, LinkLayerAddr cid = Some a -> Forall byte_range a.

Lemma admission_duid c id client cid s mac : wire_duid cid -> admission c id client (duidMAC cid) = Ok (s, mac) ->
  mac = duidMAC cid \/ (duidMAC cid = EmptyString /\ scope_is6 s = false).
Proof.
  intros Hw H. unfold admission in H. destruct (find_scope c id) as [t|]; [|done]. apply seq_ok in H as [_ H]. apply seq_ok in H as [_ H].
  next_ok H. apply seq_ok in H as [_ [= -> ->]]. destruct (is_empty (duidMAC cid)) eqn:E; cbn in Hx.
  - apply is_empty_spec in E. destruct (scope_is6 s) eqn:E6; cbn in Hx; [|by right]. left. congruence.
  - left. unfold duidMAC in *. destruct (LinkLayerAddr cid) as [a|] eqn:Ea; [|done].
    destruct (length a =? 6)%nat eqn:El; [|done]. apply Nat.eqb_eq in El. rewrite (read_mac a El (Hw a Ea)) in Hx. rewrite El in Hx. cbn in Hx. congruence.
Qed.

(** A request that the server takes for its own, about one IA. *)
Definition one_ia (server : string) (kind : MessageType) (cid : duid) (iaid : string) (addresses : list Z) (m : Message6) : Prop :=
  mType m = Kind kind /\ ClientIDs m = [cid] /\ (length (ServerIDs m) <= 1)%nat /\ misaddressed server m = false
  /\ IANAs m = [mkIANA iaid addresses] /\ (length addresses <= 16)%nat /\ IAPDs m = [].

Lemma Handle6Via_one now fresh c s d m via l kind cid iaid addresses a l' :
  scope_is6 s = true -> Enabled s = true -> is_empty (server_identity l) = false -> duid_valid (server_identity l) = true ->
  GetInnerMessage d = Some m -> one_ia (server_identity l) kind cid iaid addresses m -> kind <> Confirm_ ->
  handle_ia sha256_hex now c s kind cid (mkIANA iaid addresses) l = (l', Ok (Some a)) ->
  exists reply, Handle6Via sha256_hex duid_valid now fresh c s d via l = (l', Ok (Some reply)) /\ rIANAs reply = [(iaid, a)] /\ rIAPDs reply = [].
Proof.
  intros H6 Hen Hid Hdv Ed (Et & Ec & Hsid & Hmis & Eia & Hlen & Epd) Hk H. unfold Handle6Via. rewrite Ed. unfold ignored6.
  rewrite H6, Hen, Et, Ec, (proj2 (Nat.ltb_ge _ _) Hsid). cbn [negb orb length bool_decide]. rewrite !bool_decide_eq_false_2 by done. cbn.
  unfold serverDUID. fold (server_identity l). rewrite Hid, Hdv, Hmis. unfold excessive. rewrite Eia. cbn [length map existsb IaId Addresses].
  rewrite bool_decide_eq_true_2 by (apply NoDup_singleton). rewrite (proj2 (Nat.ltb_ge _ _) Hlen). cbn.
  unfold grant6. rewrite Eia, Epd. cbn [handle_ias]. rewrite H. cbn. eexists. split; [reflexivity|]. done.
Qed.

(** A commit of an address that is the client's to have. *)
Lemma lease_ia_commits now c s p kind client mac mac' cur (ex : bool) ia l addr n :
  Validate c = Ok tt -> s ∈ Scopes c -> ledger_ok l -> sound_scope s p ->
  (if ex then Address cur else match Addresses ia with a :: _ => IPString a | [] => EmptyString end) = addr ->
  kind <> Solicit -> admission c (sID s) client mac = Ok (s, mac') -> mac' = mac ->
  ParseAddr addr = Some (Addr6 n EmptyString) -> available l now s client mac addr = true ->
  exists l', lease_ia sha256_hex now c s kind client mac cur ex ia l
    = (l', Ok (IALease (LeaseSeconds s / 2) (LeaseSeconds s * 4 / 5) (Some n) (PreferredSeconds s) (LeaseSeconds s)))
  /\ granted now s client true addr l'.
Proof.
  intros Hv Hs Hl Gs Ereq Hk Had -> Hpa Hav. unfold lease_ia, wanted_address. rewrite Ereq.
  assert (He : is_empty addr = false) by (by destruct addr). rewrite He, (available_allowed _ _ _ _ _ _ Hav). cbn [orb negb].
  rewrite bool_decide_eq_false_2 by done. cbn [negb].
  destruct (commit_granted sha256_hex now c (sID s) client mac EmptyString addr l s mac Had He Hav) as (l' & b & E). rewrite E.
  pose proof E as (s' & m' & Had' & _ & Hst & Esc & Ecl & _ & _ & Eb & Est & Een)%Allocate_grants; [|done|done|].
  2:{ intros x Hx. rewrite Hpa in Hx. by injection Hx as <-. }
  assert (s' = s) as -> by congruence. exists l'. split; [unfold ParseIP; by rewrite Eb, Hpa|].
  destruct (scope_good c Hv s Hs) as (_ & _ & _ & _ & _ & ?). exists b. rewrite Est. split_and!; done || lia.
Qed.

(** What an advertisement leaves in the ledger. *)
Lemma advertised_kept now fresh unbuilt unwrapped c key ifi oob peer d m l l1 sent routes iaid T1 T2 n pref val :
  Validate c = Ok tt -> ledger_ok l -> unix now -> GetInnerMessage d = Some m -> Forall wire_ia (IANAs m) -> mType m = Kind Solicit ->
  HandleMsg6 sha256_hex duid_valid now fresh unbuilt unwrapped c key ifi oob peer d l = (l1, Some sent, routes) ->
  (iaid, IALease T1 T2 (Some n) pref val) ∈ rIANAs (sReply sent) ->
  exists s p cid mac b, find (picks6 key d) (Scopes c) = Some s /\ guard6 c key d peer = true /\ scope_is6 s = true
  /\ s ∈ Scopes c /\ Enabled s = true /\ sound_scope s p /\ ClientIDs m = [cid]
  /\ stored l1 b /\ bScope b = sID s /\ Client b = client6 cid iaid /\ ParseAddr (Address b) = Some (Addr6 n EmptyString)
  /\ usable_state (bState b) = true /\ now < End_ b
  /\ admission c (sID s) (Client b) (duidMAC cid) = Ok (s, mac) /\ allowed s (Client b) mac (Address b) = true.
Proof.
  intros Hv Hl Hn Ed Hw Et H Hin. eapply HandleMsg6_answered in H as (s & p & Ef & Eg & H6 & Hs & Hen & _ & _ & Gs & _ & _ & _ & _ & Ha); eauto.
  unfold answered6 in Ha. rewrite Et in Ha. destruct Ha as (cid & Ecid & _ & _ & _ & Hias & _).
  apply list_elem_of_lookup in Hin as [i Hi]. destruct (Forall2_lookup_r _ _ _ _ _ Hias Hi) as (ia & _ & Eid & Hia). cbn in Eid, Hia. subst iaid.
  destruct Hia as (_ & _ & _ & _ & _ & n' & addr & mac & [= <-] & Hpa & _ & Had & Hal & _ & b & Hst & Esc & Ecl & <- & Hu & He & _).
  exists s, p, cid, mac, b. rewrite Ecl. by split_and!.
Qed.

Lemma dhcp6_ok now fresh unbuilt unwrapped c key ifi oob peer d m l l' sent routes :
  Validate c = Ok tt -> ledger_ok l -> unix now -> GetInnerMessage d = Some m -> Forall wire_ia (IANAs m) ->
  HandleMsg6 sha256_hex duid_valid now fresh unbuilt unwrapped c key ifi oob peer d l = (l', sent, routes) -> ledger_ok l'.
Proof.
  intros Hv Hl Hn Ed Hw H. eapply HandleMsg6_acts in H as [-> |H]; eauto. eapply acts_ok; [exact sha_digits|exact H|].
  unfold serverDUID. destruct (is_empty _); [by apply ok_meta|done].
Qed.

Lemma Handle6Via_identity now fresh c s d via l l' reply : Handle6Via sha256_hex duid_valid now fresh c s d via l = (l', Ok (Some reply)) ->
  exists l1, serverDUID duid_valid fresh l = (l1, Ok (rServerID reply)).
Proof.
  unfold Handle6Via. destruct (GetInnerMessage d) as [m|]; [|done]. destruct (ignored6 s m); [done|].
  destruct (serverDUID duid_valid fresh l) as [l1 [server|]]; [|done]. intros H. exists l1. do 2 f_equal. destruct (misaddressed _ _); [done|].
  destruct (mType m) as [kind| |]; [|by injection H as _ <-|done]. destruct (ClientIDs m) as [|cid rest]; [done|].
  destruct (excessive _); [done|]. destruct (bool_decide _); [by injection H as _ <-|]. unfold grant6 in H.
  destruct (handle_ias _ _ _ _ _ _ _ _) as [l2 [[ias|]|[]]]; try done. destruct (_ <? _)%nat; [done|].
  destruct (handle_pds _ _ _ _ _ _ _ _) as [l3 []]; [|done]. by injection H as _ <-.
Qed.

(** A server that replied has an identity. *)
Lemma replied_identity now fresh unbuilt unwrapped c key ifi oob peer d m l l' sent routes :
  Validate c = Ok tt -> ledger_ok l -> unix now -> GetInnerMessage d = Some m -> Forall wire_ia (IANAs m) ->
  HandleMsg6 sha256_hex duid_valid now fresh unbuilt unwrapped c key ifi oob peer d l = (l', Some sent, routes) -> fresh <> EmptyString ->
  is_empty (server_identity l') = false /\ duid_valid (server_identity l') = true.
Proof.
  intros Hv Hl Hn Ed Hw H Hfr. destruct (HandleMsg6_answered sha256_hex duid_valid sha_digits _ _ _ _ _ _ _ _ _ _ m _ _ _ _ Hv Hl Hn Ed Hw H)
    as (s & p & _ & _ & _ & _ & _ & _ & _ & _ & _ & _ & _ & [<- _] & _).
  unfold HandleMsg6 in H. destruct (guard6 _ _ _ _); [|done]. cbn [negb] in H. rewrite Ed in H. destruct (_ || unbuilt); [done|].
  unfold ghostleases6 in H. destruct (find _ _) as [t|]; [|done]. destruct (Handle6Via _ _ _ _ _ _ _ _ _) as [l2 [[reply|]|]] eqn:Eh; try done.
  destruct (_ && _); [done|]. injection H as _ <- _. cbn [sReply]. apply Handle6Via_identity in Eh as [l1 E]. unfold serverDUID in E.
  destruct (is_empty (lookup_default _ _ _)) eqn:Ee; destruct (duid_valid _) eqn:Edv; try done; injection E as _ <-; [|done].
  split; [|done]. destruct (is_empty fresh) eqn:Ef; [by apply is_empty_spec in Ef|done].
Qed.

(** An address stored for the client that its scope allows it is available to it. *)
Lemma held_allowed b l s mac now : holds b l -> bScope b = sID s -> liveState (bState b) = true -> bState b <> "declined" ->
  allowed s (Client b) mac (Address b) = true -> available l now s (Client b) mac (Address b) = true.
Proof.
  intros Hb Esc Hlive Hd Hal. unfold available. rewrite Hal. cbn.
  destruct (holds_read b l (sID s) (Address b) Hb) as (_ & _ & Ec & _ & Es & _); [by unfold key_of; rewrite Esc|].
  unfold blocks. rewrite Ec, Es, String.eqb_refl. destruct (String.eqb_spec (bState b) "declined"); [done|]. by rewrite andb_false_r.
Qed.

(** The request for an address that is the client's to have. *)
Lemma request_answered now fresh c key ifi oob peer d m r s p cid iaid n l b :
  Validate c = Ok tt -> ledger_ok l -> GetInnerMessage d = Some m -> find (picks6 key d) (Scopes c) = Some s -> guard6 c key d peer = true ->
  scope_is6 s = true -> s ∈ Scopes c -> Enabled s = true -> sound_scope s p ->
  is_empty (server_identity l) = false -> duid_valid (server_identity l) = true -> one_ia (server_identity l) Request cid iaid [n] r ->
  Client b = client6 cid iaid -> admission c (sID s) (Client b) (duidMAC cid) = Ok (s, duidMAC cid) ->
  ParseAddr (Address b) = Some (Addr6 n EmptyString) -> Address b = IPString n ->
  available l now s (Client b) (duidMAC cid) (Address b) = true ->
  (snd (currentClient now (sID s) (Client b) l) = true -> Address (fst (currentClient now (sID s) (Client b) l)) = Address b) ->
  exists l' sent, HandleMsg6 sha256_hex duid_valid now fresh false false c key ifi oob peer (with_inner d r) l
                  = (l', Some sent, match PD s with Some pd => Route pd | None => false end)
  /\ rIANAs (sReply sent) = [(iaid, IALease (LeaseSeconds s / 2) (LeaseSeconds s * 4 / 5) (Some n) (PreferredSeconds s) (LeaseSeconds s))]
  /\ granted now s (Client b) true (Address b) l'.
Proof.
  intros Hv Hl Ed Ef Eg H6 Hs Hen Gs Hid Hdv Hone Ecl Had Hpa Etext Hav Hcur.
  destruct (currentClient now (sID s) (Client b) l) as [cur ex] eqn:Ec. cbn [fst snd] in Hcur.
  destruct (lease_ia_commits now c s p Request (Client b) (duidMAC cid) (duidMAC cid) cur ex (mkIANA iaid [n]) l (Address b) n)
    as (l' & Elease & Hg); try done; [destruct ex; [by apply Hcur|done]|].
  destruct (Handle6Via_one now fresh c s (with_inner d r) r (clientLinkLocal (with_inner d r) peer) l Request cid iaid [n]
    (IALease (LeaseSeconds s / 2) (LeaseSeconds s * 4 / 5) (Some n) (PreferredSeconds s) (LeaseSeconds s)) l') as (reply & Eh & Eia & _); try done.
  { by eapply with_inner_message. }
  { unfold handle_ia. cbn [IaId]. rewrite <-Ecl. destruct (admission_ok _ _ _ _ _ _ Had) as (_ & _ & -> & _). cbn [negb]. rewrite Ec, Elease. done. }
  unfold HandleMsg6. rewrite with_inner_guard, Eg, (with_inner_message d m r Ed), (proj1 Hone). cbn [negb orb].
  rewrite bool_decide_eq_false_2 by done. cbn [orb]. unfold ghostleases6. rewrite with_inner_picks, Ef, Eh, andb_false_r. eexists l', _.
  split; [reflexivity|]. done.
Qed.

(** An advertised address is granted.  When a solicitation was answered with an address for one
    of its IAs, then through any operations by other clients while the advertised binding lasts
    (allocations, expiries, imports, host reports, delegations, anything the book does), the
    request by which the client takes the address, sent the same way and naming this server, is
    answered with exactly that address, and the ledger then stores it as the client's active lease
    for the scope's lease time.  (Exceptions: the client holds another active lease by then, the
    book only knew the address from a neighbour report, or the address is spelled unlike it is
    printed.) *)
Theorem offer6_honoured now fresh unbuilt unwrapped c key ifi oob peer d m l l1 sent routes iaid T1 T2 n pref val :
  Validate c = Ok tt -> ledger_ok l -> unix now -> GetInnerMessage d = Some m -> Forall wire_ia (IANAs m) -> mType m = Kind Solicit ->
  Forall wire_duid (ClientIDs m) -> fresh <> EmptyString ->
  HandleMsg6 sha256_hex duid_valid now fresh unbuilt unwrapped c key ifi oob peer d l = (l1, Some sent, routes) ->
  (iaid, IALease T1 T2 (Some n) pref val) ∈ rIANAs (sReply sent) ->
  exists s cid b, find (picks6 key d) (Scopes c) = Some s /\ ClientIDs m = [cid] /\ stored l1 b /\ Client b = client6 cid iaid
  /\ ParseAddr (Address b) = Some (Addr6 n EmptyString) /\ usable_state (bState b) = true /\ now < End_ b
  /\ (Origin b <> "neighbor-report" -> Address b = IPString n -> forall xs l2 now' r fresh',
      run sha256_hex duid_valid xs l1 l2 -> (forall t o, (t, o) ∈ xs -> t < End_ b /\ by_others (Client b) o) ->
      server_identity l2 = server_identity l1 -> one_ia (server_identity l1) Request cid iaid [n] r ->
      (snd (currentClient now' (sID s) (Client b) l2) = true -> Address (fst (currentClient now' (sID s) (Client b) l2)) = Address b) ->
      exists l3 sent', HandleMsg6 sha256_hex duid_valid now' fresh' false false c key ifi oob peer (with_inner d r) l2
                       = (l3, Some sent', match PD s with Some pd => Route pd | None => false end)
      /\ rIANAs (sReply sent') = [(iaid, IALease (LeaseSeconds s / 2) (LeaseSeconds s * 4 / 5) (Some n) (PreferredSeconds s) (LeaseSeconds s))]
      /\ granted now' s (Client b) true (Address b) l3).
Proof.
  intros Hv Hl Hn Ed Hw Et Hwd Hfr H Hin.
  destruct (advertised_kept _ _ _ _ _ _ _ _ _ _ _ _ _ _ _ _ _ _ _ _ _ Hv Hl Hn Ed Hw Et H Hin)
    as (s & p & cid & mac & b & Ef & Eg & H6 & Hs & Hen & Gs & Ecid & Hst & Esc & Ecl & Hpa & Hu & He & Had & Hal).
  exists s, cid, b. split_and!; try done. intros Hor Etext xs l2 now' r fresh' Hrun Hxs Hid Hone Hcur.
  pose proof (dhcp6_ok _ _ _ _ _ _ _ _ _ _ _ _ _ _ _ Hv Hl Hn Ed Hw H) as Hl1. destruct (replied_identity _ _ _ _ _ _ _ _ _ _ _ _ _ _ _ Hv Hl Hn Ed Hw H Hfr) as [Hne Hdv].
  assert (Hl2 : ledger_ok l2) by (by eapply run_ok).
  assert (Hb : holds b l2).
  { eapply run_holds; [exact sha_digits|exact Hl1|by exists b| |exact Hxs|exact Hrun]. split_and!; [by apply usable_live|done|by left]. }
  assert (mac = duidMAC cid) as ->.
  { rewrite Ecid in Hwd. apply Forall_inv in Hwd. destruct (admission_duid _ _ _ _ _ _ Hwd Had) as [?|[_ ?]]; congruence. }
  assert (Hav : available l2 now' s (Client b) (duidMAC cid) (Address b) = true).
  { eapply held_allowed; eauto; [by apply usable_live|]. intros E. by rewrite E in Hu. }
  destruct (request_answered now' fresh' c key ifi oob peer d m r s p cid iaid n l2 b) as (l3 & sent' & ? & ? & ?); try done; [by rewrite Hid|by rewrite Hid|by rewrite Hid|].
  by exists l3, sent'.
Qed.
End Exchange.
