(* ===== verification/WireExample.v ===== *)
(** The DNS, DHCPv4 and DHCPv6 theorems applied to the small address book, what a network boot is
    answered with, and a release that is not answered. *)

From S2P Require Import Prelude NetAddr Ledger LedgerInv Config ConfigInv AddrText Allocate AllocInv Delegate BookInv BookSafety.
From S2P Require Import BookGrant BookExample Dns DnsInv Dhcp4 Dhcp4Inv Dhcp6 Dhcp6Inv Dhcp6Grant.
Import BookExample.
Local Open Scope Z_scope.

Module WireExample.

(** * Names *)

Definition bob_name : string := Name bob_lease +++ ".lan.example.".
Definition ask (type : Z) (name : string) : Question := mkQuestion name type ClassINET.

Definition reverse_text (text : string) : string := match ParseAddr text with Some a => arpa a | None => EmptyString end.

Lemma reverse_text_law a : addr_valid a -> AddrZone a = EmptyString -> Is4In6 a = false -> reverse_text (AddrString a) = arpa a.
Proof. intros Hv Hz _. unfold reverse_text. by rewrite (read_addr a Hv Hz). Qed.

Lemma lan_served : lan ∈ Scopes book.
Proof. left. Qed.

Lemma plain_label : stands_for book (Name bob_lease) (Name bob_lease).
Proof.
  right. split; [|done]. intros d Hd. apply list_elem_of_singleton in Hd as ->. cbn. vm_compute Name.
  rewrite list_elem_of_singleton. done.
Qed.

Lemma dns_forward_exact_witness :
  exists m, ServeDNS reverse_text 1200 book two_leases [ask TypeA bob_name] = Answered m /\ Authoritative m = true
  /\ mkRR bob_name TypeA 30 (A 167772171) ∈ Answer m.
Proof.
  destruct (dns_forward_exact reverse_text 1200 book two_leases (ask TypeA bob_name) lan (Name bob_lease) (Name bob_lease) book_valid
    (ok_wf _ two_ok) lan_served eq_refl ltac:(vm_compute; reflexivity) ltac:(vm_compute; reflexivity) plain_label)
    as (m & H1 & H2 & H3 & _).
  exists m. split; [exact H1|]. split; [exact H2|]. apply H3. split; [reflexivity|]. split; [reflexivity|]. left. exists bob_lease.
  destruct bob_facts as (F1 & F2 & F3 & F4 & F5 & F6). split.
  - unfold leased. split; [exact F1|]. split; [exact F2|]. split; [exact F6|]. split; [exact F3|]. split; [reflexivity|].
    exists lan. split; [apply lan_served|]. split; [reflexivity|exact F4].
  - split; [vm_compute; reflexivity|]. unfold address_data. rewrite F5. vm_compute. split; reflexivity.
Defined.

Lemma zones_forward t : t ∈ Scopes book -> in_zone (arpa (Addr4 167772171)) (Zone t) = false.
Proof. intros Ht. apply list_elem_of_In in Ht. destruct Ht as [<-|[<-|[]]]; vm_compute; reflexivity. Qed.

Lemma dns_reverse_exact_witness :
  exists m, ServeDNS reverse_text 1200 book two_leases [ask TypePTR "11.0.0.10.in-addr.arpa."] = Answered m
  /\ Authoritative m = true /\ mkRR "11.0.0.10.in-addr.arpa." TypePTR 30 (PTR bob_name) ∈ Answer m.
Proof.
  destruct (dns_reverse_exact reverse_text 1200 book two_leases (ask TypePTR "11.0.0.10.in-addr.arpa.") lan (mkPrefix (Addr4 167772160) 24)
    (Addr4 167772171) reverse_text_law book_valid (ok_wf _ two_ok) lan_served ltac:(vm_compute; reflexivity) ltac:(vm_compute; reflexivity)
    ltac:(vm_compute; split; congruence) eq_refl eq_refl (spelled4 _ _) eq_refl ltac:(vm_compute; reflexivity) zones_forward) as (m & H1 & H2 & H3 & _).
  exists m. split; [exact H1|]. split; [exact H2|]. apply H3. split; [reflexivity|]. exists bob_lease.
  destruct bob_facts as (F1 & F2 & F3 & F4 & F5 & F6). split; [|vm_compute; reflexivity].
  unfold lease_at. split; [exact F1|]. split; [exact F2|]. split; [exact F6|]. split; [rewrite F5; vm_compute; reflexivity|].
  exists lan. split; [apply lan_served|]. split; [reflexivity|exact F4].
Defined.

(** A reservation spelled with capitals is leased under that spelling, and the arpa name of the
    address is a name error for as long as the lease lasts. *)
Definition reserved6 : ledger * result alloc_error Binding :=
  Allocate digest 1000 shouting_book "lan6" "duid:00010001cc/iaid:00000001" EmptyString EmptyString "2001:DB8:1::101" true empty_ledger.
Definition arpa6 : string := arpa (must_addr "2001:db8:1::101").
Lemma capitals_have_no_name :
  Validate shouting_book = Ok tt
  /\ (exists b, stored (fst reserved6) b /\ bState b = "active" /\ 1200 < End_ b /\ ParseAddr (Address b) = ParseAddr "2001:db8:1::101")
  /\ exists m, ServeDNS reverse_text 1200 shouting_book (fst reserved6) [ask TypePTR arpa6] = Answered m /\ Rcode m = RcodeNameError.
Proof.
  split; [vm_compute; reflexivity|]. split.
  - exists (grant_of reserved6). split_and!; vm_compute; reflexivity.
  - eexists. split; vm_compute; reflexivity.
Qed.

(** * DHCPv4 *)

Definition carol_hw : list Z := [2; 0; 0; 0; 0; 12].
Definition request (t : Msg4) (id ip : option Z) : DHCPv4 :=
  mkDHCPv4 true carol_hw 0 0 0 false t id [] ip "carol" EmptyString [].
Definition local_peer : UDPAddr := mkUDP (of4 0) 68.
Definition socket : string := socketKey lan.

Lemma wire t id ip : match ip with Some n => 0 <= n < 2^32 | None => True end -> wire_request (request t id ip).
Proof. intros H. split; [cbn; lia|]. intros n E. cbn in E. by subst ip. Qed.

Definition offered : ledger * option (destination * Reply4) :=
  HandleMsg4 digest 1200 false false book socket local_peer (request Discover4 None None) two_leases.

Lemma offered_address : exists dst reply, snd offered = Some (dst, reply) /\ rYourIP reply = Some (of4 167772172).
Proof. unfold offered. vm_compute. eexists _, _. split; reflexivity. Qed.

Lemma dhcp4_sound_witness : exists dst reply, snd offered = Some (dst, reply) /\ opt OptServerID reply = Some (OIPs [Some (of4 167772161)]).
Proof.
  pose proof (dhcp4_sound digest 1200 false false book socket local_peer (request Discover4 None None) two_leases (fst offered) (snd offered)
    book_valid two_ok (wire Discover4 None None I) (surjective_pairing _)) as H.
  destruct (snd offered) as [[dst reply]|] eqn:E.
  - exists dst, reply. split; [reflexivity|]. destruct H as (s & p & Hs & He & Hk & _ & _ & _ & _ & Ho & _).
    rewrite Ho. apply list_elem_of_In in Hs. destruct Hs as [<-|[<-|[]]]; [vm_compute; reflexivity|]. vm_compute in Hk. discriminate Hk.
  - exfalso. destruct offered_address as (dst & reply & E' & _). rewrite E' in E. discriminate E.
Defined.

Lemma carol_binding p reply b : announces (fst offered) lan p Offer4 (request Discover4 None None) reply b -> rYourIP reply = Some (of4 167772172) ->
  Origin b = "dhcpv4".
Proof.
  intros (Hst & Hsc & _ & _ & n & En & Ha & _) Ey. rewrite Ey in En. injection En as En. assert (n = 167772172) as -> by (unfold of4 in En; lia).
  unfold stored, key_of in Hst. rewrite Hsc, Ha in Hst. vm_compute in Hst. injection Hst as <-. reflexivity.
Qed.

Lemma offer_honoured_witness :
  exists l3 ack, HandleMsg4 digest 1210 false false book socket local_peer (request Request4 (Some 167772161) (Some 167772172)) (fst offered)
    = (l3, Some (reply_to (request Request4 (Some 167772161) (Some 167772172)) ack, ack)) /\ rYourIP ack = Some (of4 167772172).
Proof.
  destruct offered_address as (dst & reply & E & Ey).
  destruct (offer_honoured digest (fun _ => true) digest_digits 1200 false book socket local_peer (request Discover4 None None) two_leases
    (fst offered) dst reply book_valid two_ok ltac:(unfold unix; lia) (wire Discover4 None None I) eq_refl)
    as (s & p & b & n & Hs & Ha & En & Eb & _ & _ & H).
  { rewrite <-E. apply surjective_pairing. }
  assert (n = 167772172) as -> by (rewrite Ey in En; injection En as En; unfold of4 in En; lia).
  vm_compute in Hs. injection Hs as <-. apply carol_binding in Ha; [|exact Ey].
  destruct (H ltac:(rewrite Ha; discriminate) [] (fst offered) 1210 (request Request4 (Some 167772161) (Some 167772172)))
    as (l3 & ack & b' & H1 & _ & H2 & _); [constructor| | | |].
  - intros t o Ht. apply elem_of_nil in Ht. destruct Ht.
  - apply wire. lia.
  - constructor; reflexivity.
  - exists l3, ack. split; [exact H1|exact H2].
Defined.

(** * Network boot *)

Definition boot_lan : Scope :=
  mkScope "lan" "eth0" "10.0.0.0/24" "10.0.0.1" "10.0.0.10" "10.0.0.12" "10.0.0.1" "lan.example" 3600 true
    [] 0 None None (Some (mkBoot true "pxelinux.0" "10.0.0.9")) [] [] None.
Definition boot_book : Config := mkConfig [boot_lan] [] None.
Definition boot_offer : option (option Z * option optval) :=
  match snd (HandleMsg4 digest 1200 false false boot_book socket local_peer (request Discover4 None None) empty_ledger) with
  | Some (_, reply) => Some (rServerIP reply, opt OptTFTPServer reply)
  | None => None
  end.

(** The handler names the boot server in siaddr and option 66; the plugin overwrites siaddr with
    the DHCP server's address, so that the two disagree on the wire. *)
Lemma boot_server_overwritten :
  Validate boot_book = Ok tt
  /\ (forall b, rServerIP (lease_reply boot_lan Offer4 (request Discover4 None None) b) = Some (of4 167772169))
  /\ boot_offer = Some (Some (of4 167772161), Some (OText "10.0.0.9")).
Proof. split; [vm_compute; reflexivity|]. split; [intros b; reflexivity|]. vm_compute. reflexivity. Qed.

End WireExample.

(** The DHCPv6 theorems applied to the small address book: a solicitation for two addresses and a
    prefix, the request that follows, and a release. *)

Module Dhcp6Example.

Definition any_duid (raw : string) : bool := (2 <? String.length raw)%nat.
Definition server : string := "ghostd".
Definition carol : duid := mkDUID "carol" (Some [2; 0; 0; 0; 0; 12]).
Definition first_ia : string := "0001".
Definition second_ia : string := "0002".

Definition solicit : Message6 :=
  mkMessage6 7 (Kind Solicit) [carol] [] [mkIANA first_ia []; mkIANA second_ia []] [mkIAPDRequest first_ia []].
Definition message (kind : MessageType) (addresses : list Z) : Message6 :=
  mkMessage6 8 (Kind kind) [carol] [mkDUID server None] [mkIANA first_ia addresses] [].

Definition peer6 : UDPAddr := mkUDP 338288524927261089654018896841347694593 546.
Definition socket6 : string := socketKey lan6.
Definition receive (now : Z) (m : Message6) (l : ledger) : ledger * option sent6 * bool :=
  HandleMsg6 digest any_duid now server false false book socket6 2 None peer6 (Direct m) l.

Definition advertised : ledger * option sent6 * bool := receive 1200 solicit two_leases.
Definition address : Z := 42540766411283801782723599580828532992.

(** The addresses a reply gives. *)
Definition given (o : ledger * option sent6 * bool) : option (list (string * option Z)) :=
  match snd (fst o) with
  | Some s => Some (map (fun x => (fst x, match snd x with IALease _ _ ip _ _ => ip | IAStatus _ _ => None end)) (rIANAs (sReply s)))
  | None => None
  end.

Lemma split3 {A B C} (x : A * B * C) : x = (fst (fst x), snd (fst x), snd x).
Proof. by destruct x as [[]]. Qed.

Lemma advertised_addresses : given advertised = Some [(first_ia, Some address); (second_ia, Some (address + 1))].
Proof. vm_compute. reflexivity. Qed.

Lemma wire_solicit : Forall wire_ia (IANAs solicit).
Proof. repeat constructor. Qed.

Lemma dhcp6_isolated_witness : holds bob_lease (fst (fst advertised)) /\ server_identity (fst (fst advertised)) = server.
Proof.
  destruct (dhcp6_isolated digest any_duid digest_digits 1200 server false false book socket6 2 None peer6 (Direct solicit) solicit two_leases
    (fst (fst advertised)) (snd (fst advertised)) (snd advertised) book_valid two_ok ltac:(unfold unix; lia) eq_refl wire_solicit (split3 _))
    as (_ & H & _).
  destruct bob_facts as (F1 & F2 & F3 & F4 & F5 & F6). split; [|vm_compute; reflexivity]. apply H.
  - exists bob_lease. split; [exact F1|apply same_lease_refl].
  - split; [rewrite F2; reflexivity|]. split; [vm_compute; congruence|]. left. rewrite F2. reflexivity.
  - exact F6.
  - intros Hin%list_elem_of_In. vm_compute in Hin. destruct Hin as [Hin|[Hin|[Hin|[]]]]; discriminate Hin.
Defined.

Lemma dhcp6_sound_witness : exists sent, snd (fst advertised) = Some sent /\ length (rIANAs (sReply sent)) = 2%nat
  /\ sTo sent = peer6 /\ rServerID (sReply sent) = server_identity (fst (fst advertised)).
Proof.
  destruct (snd (fst advertised)) as [sent|] eqn:E; [|exfalso; vm_compute in E; discriminate E].
  destruct (dhcp6_sound digest any_duid digest_digits 1200 server false false book socket6 2 None peer6 (Direct solicit) solicit two_leases
    (fst (fst advertised)) sent (snd advertised) book_valid two_ok ltac:(unfold unix; lia) eq_refl wire_solicit)
    as (s & p & _ & _ & _ & _ & _ & _ & Hto & _ & (Hid & _) & H).
  { rewrite <-E. apply split3. }
  exists sent. split; [reflexivity|]. split; [|split; [exact Hto|exact Hid]].
  destruct H as (cid & _ & _ & _ & _ & H & _). apply Forall2_length in H. rewrite <-H. reflexivity.
Defined.

Lemma not_prefix b : stored (fst (fst advertised)) b -> ParseAddr (Address b) <> None -> Origin b <> originPD.
Proof.
  intros Hst%elem_of_map_to_list Hp. set (l := map_to_list _) in Hst. vm_compute in l. subst l. apply list_elem_of_In in Hst.
  destruct Hst as [E|[E|[E|[E|[E|[]]]]]]; injection E as _ <-; first [vm_compute; discriminate | exfalso; apply Hp; vm_compute; reflexivity].
Qed.

Lemma request_one : one_ia server Request carol first_ia [address] (message Request [address]).
Proof. split_and!; try reflexivity; cbn; lia. Qed.

(** What the advertisement stored for the first IA. *)
Lemma first_binding b : stored (fst (fst advertised)) b -> Client b = client6 carol first_ia -> Origin b <> originPD ->
  Origin b = "dhcpv6" /\ Address b = IPString address.
Proof.
  intros Hst%elem_of_map_to_list Hc Ho. set (l := map_to_list _) in Hst. vm_compute in l. subst l. apply list_elem_of_In in Hst.
  destruct Hst as [E|[E|[E|[E|[E|[]]]]]]; injection E as _ <-; vm_compute in Hc; try discriminate Hc; try (split; vm_compute; reflexivity).
  exfalso. apply Ho. reflexivity.
Qed.

Lemma offer6_honoured_witness : exists l3 sent, receive 1210 (message Request [address]) (fst (fst advertised)) = (l3, Some sent, true)
  /\ map fst (rIANAs (sReply sent)) = [first_ia] /\ Dhcp6Grant.granted 1210 lan6 (client6 carol first_ia) true (IPString address) l3.
Proof.
  destruct (snd (fst advertised)) as [sent|] eqn:E; [|exfalso; vm_compute in E; discriminate E].
  destruct (offer6_honoured digest any_duid digest_digits 1200 server false false book socket6 2 None peer6 (Direct solicit) solicit two_leases
    (fst (fst advertised)) sent (snd advertised) first_ia 1800 2880 address 1800 3600 book_valid two_ok ltac:(unfold unix; lia) eq_refl wire_solicit
    eq_refl) as (s & cid & b & Hs & Hcid & Hst & Hc & Hpa & _ & _ & H).
  - constructor; [|constructor]. intros a Ea. injection Ea as <-. repeat apply Forall_cons_2; try apply Forall_nil_2; unfold byte_range; lia.
  - discriminate.
  - rewrite <-E. apply split3.
  - apply list_elem_of_In. vm_compute in E. injection E as <-. left. reflexivity.
  - injection Hcid as <-. vm_compute in Hs. injection Hs as <-.
    assert (Origin b <> originPD) as Hpd by (apply not_prefix; [exact Hst|rewrite Hpa; discriminate]).
    destruct (first_binding b Hst Hc Hpd) as [Ho Ha].
    destruct (H ltac:(rewrite Ho; discriminate) Ha [] (fst (fst advertised)) 1210 (message Request [address]) server) as (l3 & sent' & H1 & H2 & H3).
    + constructor.
    + intros t o Ht. apply elem_of_nil in Ht. destruct Ht.
    + reflexivity.
    + assert (server_identity (fst (fst advertised)) = server) as -> by (vm_compute; reflexivity). exact request_one.
    + rewrite Hc. vm_compute. discriminate.
    + exists l3, sent'. split; [exact H1|]. split; [rewrite H2; reflexivity|]. rewrite <-Ha, <-Hc. exact H3.
Defined.

(** * A release that is not answered *)

Definition leased : ledger * option sent6 * bool := receive 1210 (message Request [address]) (fst (fst advertised)).
Definition status (o : ledger * option sent6 * bool) : option (list (string * IAAnswer)) := match snd (fst o) with Some s => Some (rIANAs (sReply s)) | None => None end.

(** A release that lists the client's address twice releases it and is then dropped: the second
    release of the loop finds no live binding, and the error costs the client its reply. *)
Lemma released_without_reply :
  status (receive 1220 (message Release_ [address]) (fst (fst leased))) = Some [(first_ia, IAStatus "Success" "binding release")]
  /\ status (receive 1220 (message Release_ [address; address]) (fst (fst leased))) = None
  /\ bState (readBinding (fst (fst (receive 1220 (message Release_ [address; address]) (fst (fst leased))))) "lan6" (IPString address)) = "released".
Proof. split_and!; vm_compute; reflexivity. Qed.

End Dhcp6Example.
