(* ===== verification/Probes.v ===== *)
(** The active checks of a takeover (internal/addressbook/probes.go, probes_linux.go) and the test
    whether a restored dnsmasq serves (serving_linux.go).

    DNS exchanges, TCP connections, the exchange of DHCP packets and the kernel's tables are answers
    of the environment; the laws below take the exchanges to be answered by the server of Dns.v.
    Errors are named by the beginning of their text. *)

From stdpp Require Import pretty.
From S2P Require Import Prelude NetAddr Ledger LedgerInv Config ConfigInv AddrText Allocate AllocInv LeaseImport Dnsmasq Delegate Dns LeaseText DnsInv Manager Handover BookInv BookSafety BookExample WireExample.
From Stdlib Require Import Ascii.
Local Open Scope Z_scope.

(** * DNS probes *)

Section Probes.
(** network, server, question *)
Context (Exchange : string -> string -> Question -> result string Msg).
Context (Fqdn ReverseAddr : string -> string) (Dial : string -> result string unit).

Definition PortDNS : Z := 53.
Definition dns_server (s : Scope) : string := sServer s.

(** The address of an answer, as text. *)
Definition rr_address (rr : RR) : option string :=
  match rrData rr with
  | A ip => Some (AddrString4 ip)
  | AAAA (Some ip) => Some (IPString ip)
  | _ => None
  end.

Fixpoint probe_networks (networks : list string) (server : string) (name : string) (qt : Z) (want : Addr) : result string unit :=
  match networks with
  | [] => Ok tt
  | network :: networks' =>
    match Exchange network server (mkQuestion (Fqdn name) qt ClassINET) with
    | Err e => Err (network +++ " query of " +++ name +++ " via " +++ server +++ ": " +++ e)
    | Ok r =>
      check (existsb (fun rr => bool_decide (rr_address rr = Some (AddrString want))) (Answer r))
        (network +++ ": " +++ name +++ " did not resolve to " +++ AddrString want);;
      probe_networks networks' server name qt want
    end
  end.

Definition no_scope : Scope := mkScope EmptyString EmptyString EmptyString EmptyString EmptyString EmptyString EmptyString EmptyString 0 false [] 0 None None None [] [] None.

Definition probeDNS (p : Probe) (c : Config) : result string string :=
  let s := default no_scope (find_scope c (pScope p)) in
  let want := must_addr (Expect p) in
  probe_networks ["udp"; "tcp"] (dns_server s) (pName p) (if Is6 want then TypeAAAA else TypeA) want;;
  Ok (pName p +++ " resolves to " +++ AddrString want +++ " over UDP and TCP").

(** The leased address both ways through the scope's server. *)
Definition verifyLeaseThroughDNS (s : Scope) (leased : Addr) : result string string :=
  match Exchange "udp" (dns_server s) (mkQuestion (ReverseAddr (AddrString leased)) TypePTR ClassINET) with
  | Ok (mkMsg _ _ (rr :: _) _) =>
    match rrData rr with
    | PTR ptr =>
      check (has_suffix (trim_suffix ptr ".") (Zone s)) ("PTR " +++ ptr +++ " is not in zone " +++ Zone s);;
      match Exchange "tcp" (dns_server s) (mkQuestion ptr TypeA ClassINET) with
      | Ok (mkMsg _ _ (rr' :: _) _) =>
        check (match rrData rr' with A ip => AddrString4 ip =?s AddrString leased | _ => false end)
          (ptr +++ " resolves to something else than " +++ AddrString leased);;
        Ok (trim_suffix ptr ".")
      | _ => Err (ptr +++ " does not resolve back")
      end
    | _ => Err ("PTR is not in zone " +++ Zone s)
    end
  | _ => Err ("no PTR for the leased address " +++ AddrString leased +++ " from " +++ sServer s)
  end.

(** * The DHCP probe *)

(** What the wire answers: the interface of the synthetic client, the socket, and the exchange: the
    leased address, the routers and the DNS servers of the acknowledgement. *)
Record dora := mkDora { d_iface : result string string; d_open : result string unit; d_ack : result string (Z * list Z * list Z) }.

Definition probeDHCP (d : dora) (p : Probe) (c : Config) : result string string :=
  let s := default no_scope (find_scope c (pScope p)) in
  iface ← d_iface d;
  (match d_open d with Ok _ => Ok tt | Err e => Err ("open " +++ iface +++ ": " +++ e) end);;
  match d_ack d with
  | Err e => Err ("DORA on " +++ Interface s +++ ": " +++ e)
  | Ok (your, routers, servers) =>
    check (Contains (must_prefix (Subnet s)) (Addr4 your)) ("leased " +++ AddrString4 your +++ " is outside " +++ Subnet s);;
    check (match routers with r :: _ => AddrString4 r =?s Router s | [] => false end) "router option";;
    check (bool_decide (map AddrString4 servers = match DNSServers s with [] => [sServer s] | l => l end)) "DNS option";;
    name ← verifyLeaseThroughDNS s (Addr4 your);
    Ok ("DORA on " +++ Interface s +++ " leased " +++ AddrString4 your +++ "; " +++ name +++ " resolves both ways")
  end.

(** The hardware address of the synthetic client: the marked prefix and a random byte. *)
Definition probe_mac (random : Z) : list Z := [2; 103; 104; 111; 115; random].

Definition RunProbe (now : Z) (d : dora) (p : Probe) (c : Config) : ProbeResult :=
  let r := if pKind p =?s "dhcp" then probeDHCP d p c
           else if pKind p =?s "dns" then probeDNS p c
           else if pKind p =?s "tcp" then Dial (pAddr p);; Ok ("connected to " +++ pAddr p)
           else Ok EmptyString in
  match r with Ok detail => mkProbeResult p true detail now | Err e => mkProbeResult p false e now end.

End Probes.

(** * The UDP ports of a process *)

Section Serving.
(** The tables of the kernel ([None]: no such file), the entries of a process and where they lead. *)
Context (table : string -> result string (option string)) (ReadDir : string -> result string (list string)) (Readlink : string -> result string string).

(** bufio.Scanner's lines. *)
Definition trim_cr (s : string) : string := trim_suffix s (String "013" EmptyString).
Definition scan_lines (text : string) : list string :=
  let ls := split_char "010" text in
  map trim_cr (if is_empty (List.last ls EmptyString) then removelast ls else ls).

(** strconv.ParseInt(s, 16, 32) *)
Definition ParseInt16 (s : string) : option Z :=
  let '(neg, digits) :=
    match s with
    | String c r => if Ascii.eqb c "-" then (true, r) else if Ascii.eqb c "+" then (false, r) else (false, s)
    | EmptyString => (false, s)
    end in
  n ← ParseHex digits 64;
  if neg : bool then (if n <=? 2^31 then Some (- n) else None) else if n <? 2^31 then Some n else None.

(** The inode of a row whose local port is one of the ports. *)
Definition row_inode (ports : list Z) (line : string) : option string :=
  let fs := fields line in
  if (length fs <? 10)%nat then None else
  let local := nth 1 fs EmptyString in
  if negb (contains_char ":" local) then None else
  n ← ParseInt16 (trim_prefix local (before_char ":" local +++ ":"));
  if existsb (Z.eqb n) ports then Some (nth 9 fs EmptyString) else None.

Definition table_inodes (ports : list Z) (text : option string) : list string :=
  match text with
  | Some t => omap (row_inode ports) (tail (scan_lines t))
  | None => []
  end.

Definition socketInodesForUDPPorts (ports : list Z) : result string (list string) :=
  t4 ← table "/proc/net/udp"; t6 ← table "/proc/net/udp6";
  Ok (table_inodes ports t4 ++ table_inodes ports t6).

Definition socket_of (link : string) : option string :=
  r ← strip_prefix "socket:[" link; Some (trim_suffix r "]").

Definition processOwnsUDPPort (pid : Z) (ports : list Z) : result string bool :=
  fail_if (pid <=? 0) "no main process";;
  inodes ← socketInodesForUDPPorts ports;
  match inodes with
  | [] => Ok false
  | _ =>
    let dir := "/proc/" +++ pretty pid +++ "/fd" in
    entries ← ReadDir dir;
    Ok (existsb (fun e => match Readlink (dir +++ "/" +++ e) with
                          | Ok link => match socket_of link with Some i => mem_str i inodes | None => false end
                          | Err _ => false
                          end) entries)
  end.

(** A process holds one of the ports: one of its descriptors is the socket of a row for that port. *)
Definition holds_port (pid : Z) (ports : list Z) : Prop :=
  exists path text line inode entries e link,
    path ∈ ["/proc/net/udp"; "/proc/net/udp6"] /\ table path = Ok (Some text) /\ line ∈ tail (scan_lines text) /\ row_inode ports line = Some inode
    /\ ReadDir ("/proc/" +++ pretty pid +++ "/fd") = Ok entries /\ e ∈ entries
    /\ Readlink (("/proc/" +++ pretty pid +++ "/fd") +++ "/" +++ e) = Ok link /\ socket_of link = Some inode.

End Serving.

(** The test is exact: it succeeds exactly if the tables can be read and the process holds a port. *)
Lemma owns_exact table ReadDir Readlink pid ports :
  processOwnsUDPPort table ReadDir Readlink pid ports = Ok true <->
  0 < pid /\ is_ok (table "/proc/net/udp") = true /\ is_ok (table "/proc/net/udp6") = true /\ holds_port table ReadDir Readlink pid ports.
Proof.
  unfold processOwnsUDPPort, socketInodesForUDPPorts. rewrite seq_ok, fail_if_ok, Z.leb_gt.
  destruct (table "/proc/net/udp") as [t4|e4] eqn:E4; cbn [mbind result_bind is_ok]; [|naive_solver].
  destruct (table "/proc/net/udp6") as [t6|e6] eqn:E6; cbn [mbind result_bind is_ok]; [|naive_solver].
  set (inodes := table_inodes ports t4 ++ table_inodes ports t6).
  assert (Hi : forall i, i ∈ inodes <-> exists path text line, path ∈ ["/proc/net/udp"; "/proc/net/udp6"] /\ table path = Ok (Some text)
             /\ line ∈ tail (scan_lines text) /\ row_inode ports line = Some i).
  { intros i. unfold inodes. rewrite elem_of_app. assert (Ht : forall t, i ∈ table_inodes ports t <-> exists text line, t = Some text
      /\ line ∈ tail (scan_lines text) /\ row_inode ports line = Some i).
    { intros [t|]; cbn; [rewrite list_elem_of_omap; naive_solver|rewrite elem_of_nil; naive_solver]. }
    rewrite !Ht. setoid_rewrite elem_of_cons. setoid_rewrite list_elem_of_singleton. split.
    - intros [(text & line & -> & H)|(text & line & -> & H)]; eauto 10.
    - intros (path & text & line & [-> | ->] & H & H'); [left|right]; exists text, line; (split; [congruence|done]). }
  split.
  - intros [Hp H]. split_and!; try done. destruct inodes as [|i is_] eqn:Ei; [done|]. rewrite <-Ei in *. next_ok H. rename x into entries.
    apply Ok_inj, existsb_exists in H as (e & He & H). destruct (Readlink _) as [link|] eqn:El; [|done].
    destruct (socket_of link) as [j|] eqn:Ej; [|done]. apply mem_str_spec, Hi in H as (path & text & line & H1 & H2 & H3 & H4).
    apply list_elem_of_In in He. exists path, text, line, j, entries, e, link. by split_and!.
  - intros (Hp & _ & _ & path & text & line & i & entries & e & link & H1 & H2 & H3 & H4 & H5 & H6 & H7 & H8). split; [done|].
    assert (Hin : i ∈ inodes) by (apply Hi; eauto 10). destruct inodes as [|j js] eqn:Ej; [by apply elem_of_nil in Hin|]. rewrite H5. cbn [mbind result_bind]. f_equal.
    apply existsb_exists. exists e. rewrite list_elem_of_In in H6. split; [done|]. rewrite H7, H8. by apply mem_str_spec.
Qed.

(** The client of a DHCP probe is never counted as evidence of a real one. *)
Lemma probe_client_marked random : isProbeMAC (MACString (probe_mac random)) = true.
Proof. unfold isProbeMAC. apply has_prefix_spec. eexists. unfold MACString, probe_mac. reflexivity. Qed.

(** * A lease through the scope's own DNS *)

(** The server's answer to a query, whichever way it comes. *)
Definition own_dns (ReverseAddr : string -> string) (now : Z) (c : Config) (l : ledger) (network server : string) (q : Question) : result string Msg :=
  match ServeDNS ReverseAddr now c l [q] with
  | Answered m => Ok m
  | Coded rcode => Ok (mkMsg false rcode [] [])
  | Passed => Err "not answered here"
  end.

Lemma octet_lower o : 0 <= o -> to_lower (pretty o) = pretty o.
Proof.
  intros H. apply to_lower_hex. destruct (pretty_read o H) as (Hd & _). apply forallb_forall. intros x Hx. rewrite forallb_forall in Hd. specialize (Hd x Hx).
  unfold hex_lower_char. by rewrite Hd.
Qed.

Lemma arpa4_lower n : to_lower (arpa (Addr4 n)) = arpa (Addr4 n).
Proof.
  unfold arpa. cbn [join]. rewrite !to_lower_app, !octet_lower; [done|..]; unfold octet; apply Z.mod_pos_bound; lia.
Qed.

Section Own.
Context (ReverseAddr : string -> string).
Context (reverse_law : forall a, addr_valid a -> AddrZone a = EmptyString -> Is4In6 a = false -> ReverseAddr (AddrString a) = arpa a).
Context (now : Z) (c : Config) (l : ledger) (s : Scope) (p : Prefix) (n : Z).
Context (accepted : Validate c = Ok tt) (well : wf l) (mine : s ∈ Scopes c) (subnet : ParsePrefix (Subnet s) = Some p).
Context (held : Contains p (Addr4 n) = true) (range : 0 <= n < 2^32).
Context (apart : forall t, t ∈ Scopes c -> in_zone (arpa (Addr4 n)) (Zone t) = false).

Lemma ptr_question m : own_dns ReverseAddr now c l "udp" (sServer s) (mkQuestion (ReverseAddr (AddrString (Addr4 n))) TypePTR ClassINET) = Ok m ->
  reverse_message now c l (mkQuestion (arpa (Addr4 n)) TypePTR ClassINET) (Zone s) (Addr4 n) m.
Proof.
  rewrite reverse_law by done. unfold own_dns. intros H.
  destruct (reverse_answered ReverseAddr now c l (mkQuestion (arpa (Addr4 n)) TypePTR ClassINET) s p (Addr4 n)) as (m' & E & Hm); try done; [apply spelled4|apply arpa4_lower|].
  rewrite E in H. injection H as <-. exact Hm.
Qed.

Lemma ptr_answered : exists m, own_dns ReverseAddr now c l "udp" (sServer s) (mkQuestion (ReverseAddr (AddrString (Addr4 n))) TypePTR ClassINET) = Ok m.
Proof.
  rewrite reverse_law by done. unfold own_dns.
  destruct (reverse_answered ReverseAddr now c l (mkQuestion (arpa (Addr4 n)) TypePTR ClassINET) s p (Addr4 n)) as (m & E & _); try done; [apply spelled4|apply arpa4_lower|].
  exists m. by rewrite E.
Qed.

(** What the lease of the address has to be for its name to lead back to it. *)
Record traceable (b : Binding) : Prop := {
  nm_only : forall b', lease_at c l now (Zone s) (Addr4 n) b' -> b' = b;
  nm_address : forall b', leased c l now (Zone s) (Name b) b' -> Address b' = Address b;
  nm_kind : Origin b <> originPD /\ Name b <> "ns" /\ (forall d, d ∈ Devices c -> Name b ∉ Aliases d);
  nm_text : let full := Name b +++ "." +++ Zone s +++ "." in to_lower full = full /\ reverseIP full = None;
}.

Lemma first_record m q b : lease_at c l now (Zone s) (Addr4 n) b -> traceable b -> qType q = TypeA ->
  forward_message now c l q (Zone s) (Name b) (Name b) m -> exists rr rest, Answer m = rr :: rest /\ rrData rr = A n.
Proof.
  intros Hb [_ Ha (Hk & Hns & _) _] Hq (_ & Hrr & _).
  assert (Hd : forall d, address_data TypeA (AddrString4 n) d <-> d = A n).
  { intros d. unfold address_data, ParseIP. rewrite read_addr4, of4_mapped by done. split; [by intros [_ ->]|by intros ->]. }
  destruct Hb as (H1 & H2 & H3 & H4%canonical4 & H5).
  assert (Hin : mkRR (qName q) (qType q) (Z.min 30 (End_ b - now)) (A n) ∈ Answer m).
  { apply Hrr. cbn. split_and!; try done. left. exists b. split; [by split_and!|]. split; [done|]. rewrite Hq, H4. by apply Hd. }
  destruct (Answer m) as [|rr rest]; [by apply elem_of_nil in Hin|]. exists rr, rest. split; [done|].
  destruct (proj1 (Hrr rr)) as (_ & _ & [(b' & Hl & _ & Hdat)|[E _]]); [left| |done]. rewrite Hq, (Ha b' Hl), H4 in Hdat. exact (proj1 (Hd _) Hdat).
Qed.

(** The DHCP probe believes exactly what the ledger says.  When a takeover checks a lease through
    the DNS of its scope, and that DNS is answered from the ledger, the check only succeeds if the
    address is really leased in the scope's zone, and reports the name of the lease; and it does succeed
    for a lease that is alone at its address and whose name is no other's. *)
Theorem lease_verified :
  (forall name, verifyLeaseThroughDNS (own_dns ReverseAddr now c l) ReverseAddr s (Addr4 n) = Ok name ->
     exists b, lease_at c l now (Zone s) (Addr4 n) b /\ name = Name b +++ "." +++ Zone s)
  /\ (forall b, lease_at c l now (Zone s) (Addr4 n) b -> traceable b ->
     verifyLeaseThroughDNS (own_dns ReverseAddr now c l) ReverseAddr s (Addr4 n) = Ok (Name b +++ "." +++ Zone s)).
Proof.
  unfold verifyLeaseThroughDNS, dns_server. destruct ptr_answered as [m Em]. rewrite Em. destruct (ptr_question m Em) as (_ & Hrr & _).
  assert (Hf : forall rr rest, Answer m = rr :: rest -> exists b, lease_at c l now (Zone s) (Addr4 n) b
            /\ rrData rr = PTR ((Name b +++ "." +++ Zone s) +++ ".")).
  { intros rr rest E. destruct (proj1 (Hrr rr)) as (_ & b & Hb & ->); [rewrite E; left|]. exists b. cbn. by rewrite !append_assoc. }
  split.
  - intros name H. destruct m as [au rc [|rr rest] auth]; [done|]. destruct (Hf rr rest eq_refl) as (b & Hb & Ed). rewrite Ed in H.
    apply seq_ok in H as [_ H]. destruct (own_dns _ _ _ _ "tcp" _ _) as [[? ? [|rr' rest'] ?]|]; [done| |done].
    apply seq_ok in H as [_ H]. apply Ok_inj in H as <-. exists b. by rewrite trim_suffix_app.
  - intros b Hb Hn. assert (Hne : Answer m <> []).
    { intros E. apply (elem_of_nil (mkRR (arpa (Addr4 n)) TypePTR (Z.min 30 (End_ b - now)) (PTR (Name b +++ "." +++ Zone s +++ ".")))).
      rewrite <-E. apply Hrr. split; [done|]. by exists b. }
    destruct m as [au rc [|rr rest] auth]; [done|]. destruct (Hf rr rest eq_refl) as (b' & Hb' & Ed). rewrite (nm_only _ Hn b' Hb') in Ed. rewrite Ed.
    rewrite trim_suffix_app. assert (has_suffix (Name b +++ "." +++ Zone s) (Zone s) = true) as ->.
    { apply has_suffix_spec. exists (Name b +++ "."). by rewrite append_assoc. }
    cbn [check mbind result_bind]. set (q := mkQuestion _ TypeA ClassINET).
    destruct (nm_text _ Hn) as [Hlow Hrev]. destruct (nm_kind _ Hn) as (_ & _ & Hal).
    assert (Eq : qName q = Name b +++ "." +++ Zone s +++ ".") by (cbn [q qName]; by rewrite !append_assoc).
    destruct (forward_answered ReverseAddr now c l q s (Name b) (Name b) accepted well mine eq_refl) as (m' & E & Hm);
      [by rewrite Eq|by rewrite Eq, Hlow|right; by split|].
    destruct (first_record m' q b Hb Hn eq_refl Hm) as (rr' & rest' & Ea & Ed'). unfold own_dns. rewrite E. destruct m' as [? ? ans ?]. cbn in Ea. subst ans.
    rewrite Ed'. cbn [AddrString]. by rewrite String.eqb_refl.
Qed.
End Own.

(** * An example *)

Module ProbesExample.
Import BookExample WireExample.

(** One lease in the ledger, and its check through the scope's DNS. *)
Definition anna_lease : Binding := readBinding one_lease "lan" "10.0.0.10".
Definition verified : result string string := verifyLeaseThroughDNS (own_dns reverse_text 1050 book one_lease) reverse_text lan (Addr4 167772170).

Lemma reverse_apart t : t ∈ Scopes book -> in_zone (arpa (Addr4 167772170)) (Zone t) = false.
Proof. intros Ht. apply list_elem_of_In in Ht. destruct Ht as [<-|[<-|[]]]; vm_compute; reflexivity. Qed.

Lemma lease_verified_witness : exists b, lease_at book one_lease 1050 (Zone lan) (Addr4 167772170) b /\ verified = Ok (Name b +++ "." +++ Zone lan).
Proof.
  destruct (lease_verified reverse_text reverse_text_law 1050 book one_lease lan (mkPrefix (Addr4 167772160) 24) 167772170 book_valid (ok_wf _ one_ok) lan_served
    ltac:(vm_compute; reflexivity) ltac:(vm_compute; reflexivity) ltac:(lia) reverse_apart) as [H _].
  assert (Hv : verified = Ok (Name anna_lease +++ "." +++ Zone lan)) by (vm_compute; reflexivity).
  destruct (H _ Hv) as (b & Hb & E). exists b. split; [exact Hb|]. rewrite <-E. exact Hv.
Defined.

End ProbesExample.
