(* ===== verification/Mdns.v ===== *)
(** Multicast DNS names and records, as internal/mdns reads them: the escapes of a presented name
    (norm, advertise.go), the DNS-SD class a name belongs to (classOf, reflect.go), the patterns of
    accepted classes and hosts, and messages as the fields the code reads.

    strings.ToLower is the class [CaseFold]: what is relied on is its behaviour on ASCII, also at the
    end of a longer text. *)

From S2P Require Import Prelude NetAddr Config Dns.
From Stdlib Require Import Ascii.
Local Open Scope Z_scope.

(** * Case folding *)

Definition ascii_char (c : ascii) : bool := byte_of c <? 128.

Class CaseFold := {
  ToLower : string -> string;
  ToLower_nil : ToLower EmptyString = EmptyString;
  ToLower_app a b : str_forallb ascii_char b = true -> ToLower (a +++ b) = ToLower a +++ to_lower b;
}.
#[global] Instance ascii_fold : CaseFold :=
  {| ToLower := to_lower; ToLower_nil := eq_refl; ToLower_app a b _ := to_lower_app a b |}.

Lemma ToLower_ascii `{CaseFold} s : str_forallb ascii_char s = true -> ToLower s = to_lower s.
Proof. intros Hs. change s with (EmptyString +++ s) at 1. by rewrite ToLower_app, ToLower_nil. Qed.

(** * Names *)

Definition escape_digit (c : ascii) : Z := byte_of c - 48.
Definition backslash : ascii := "092".

(** The escapes of a presented name: \DDD, or the next byte as it is. *)
Fixpoint unescape (l : list ascii) : list ascii :=
  match l with
  | [] => []
  | c :: l1 =>
    if Ascii.eqb c backslash then
      match l1 with
      | [] => [c]
      | d1 :: l2 =>
        match l2 with
        | d2 :: d3 :: l4 =>
          let n := escape_digit d1 * 100 + escape_digit d2 * 10 + escape_digit d3 in
          if is_digit d1 && is_digit d2 && is_digit d3 && (n <? 256) then ascii_of_nat (Z.to_nat n) :: unescape l4
          else d1 :: unescape l2
        | _ => d1 :: unescape l2
        end
      end
    else c :: unescape l1
  end.

(** The instance's display name in an owner name. *)
Definition unescapeKeepCase (name class : string) : string :=
  let raw := trim_suffix (trim_suffix (trim_suffix name ".") ".local") ("." +++ class) in
  string_of_chars (unescape (string_chars raw)).

Section Names.
Context `{CaseFold}.

Definition norm (name : string) : string := ToLower (string_of_chars (unescape (string_chars name))).

(** The walk from the top-level label down: [_type._proto]. *)
Fixpoint find_class (labels : list string) : option string :=
  match labels with
  | proto :: (type :: _) as rest =>
    if ((proto =?s "_tcp") || (proto =?s "_udp")) && has_prefix type "_" then Some (type +++ "." +++ proto) else find_class rest
  | _ => None
  end.

Definition classOf (name : string) : option string :=
  let labels := rev (split_char "." (trim_suffix (norm name) ".")) in
  if (length labels <? 3)%nat then None
  else match labels with
       | top :: rest => if top =?s "local" then find_class rest else None
       | [] => None
       end.
End Names.

Definition fq (parts : list string) : string := join "." parts +++ ".".

Definition enumerateName : string := "_services._dns-sd._udp.local.".

(** * Accepted names *)

Definition lower_alnum (c : ascii) : bool := is_lower c || is_digit c.
Definition lower_alnum_dash (c : ascii) : bool := lower_alnum c || Ascii.eqb c "-".

(** One label: an underscore, a letter or digit, then at most [n] letters, digits or dashes. *)
Definition underscored (n : nat) (s : string) : bool :=
  match string_chars s with
  | u :: c :: l => Ascii.eqb u "_" && lower_alnum c && forallb lower_alnum_dash l && (length l <=? n)%nat
  | _ => false
  end.

Definition serviceRE (s : string) : bool :=
  match split_char "." s with
  | [type; proto] => underscored 14 type && ((proto =?s "_tcp") || (proto =?s "_udp"))
  | _ => false
  end.
Definition hostRE (s : string) : bool :=
  match string_chars s with
  | [] => false
  | c :: l => lower_alnum c && lower_alnum (List.last l c) && forallb lower_alnum_dash l && (length l <=? 62)%nat
  end.
Definition subtypeRE (s : string) : bool := underscored 62 s.

(** * Messages *)

Definition TypeTXT : Z := 16.
Definition TypeSRV : Z := 33.
Definition TypeANY : Z := 255.

Inductive mdata :=
| MA (ip : Z)
| MAAAA (ip : Z)
| MPTR (ptr : string)
| MSRV (port : Z) (target : string)
| MTXT (txt : list string)
| MOther (type : Z).

Record mRR := mkMRR { hName : string; hClass : Z; hTtl : Z; hData : mdata }.

Definition Rrtype (rr : mRR) : Z :=
  match hData rr with
  | MA _ => TypeA | MAAAA _ => TypeAAAA | MPTR _ => TypePTR | MSRV _ _ => TypeSRV | MTXT _ => TypeTXT | MOther t => t
  end.
Definition set_ttl (ttl : Z) (rr : mRR) : mRR := mkMRR (hName rr) (hClass rr) ttl (hData rr).

Record mMsg := mkMMsg {
  mId : Z; mResponse : bool; mAuthoritative : bool; mOpcode : Z;
  mQuestion : list Question; mAnswer : list mRR; mExtra : list mRR;
}.
Definition records (m : mMsg) : list mRR := mAnswer m ++ mExtra m.

(** Times are in nanoseconds. *)
Definition second : Z := 1000000000.
