(* ===== verification/Reflect.v ===== *)
(** The directed mDNS relay (internal/mdns/reflect.go): what one pair of domains may see of each
    other, and the pairs that the configured rules compose into. *)

From S2P Require Import Prelude NetAddr Dns Mdns.
Local Open Scope Z_scope.

Record NATConfig := mkNATConfig { Services : list string; Ports : string }.
Record ReflectRule := mkReflectRule { From : string; To : string; AllowServices : list string; Advertise : option NATConfig }.

Section Relay.
Context `{CaseFold}.

(** * The filter of a pair *)

Record filter := mkFilter { allow : gset string; all : bool; hosts : gmap string Z }.

Definition newFilter (services : list string) : filter :=
  fold_left (fun f s => if s =?s "*" then mkFilter (allow f) true (hosts f)
                        else mkFilter ({[ToLower s]} ∪ allow f) (all f) (hosts f)) services (mkFilter ∅ false ∅).

Definition allows (f : filter) (class : string) : bool := all f || bool_decide (class ∈ allow f).
Definition allowedName (f : filter) (name : string) : bool :=
  match classOf name with Some c => allows f c | None => false end.

Definition enumeration (q : Question) : bool := (qType q =? TypePTR) && (norm (qName q) =?s enumerateName).
Definition enumerable (f : filter) (rr : mRR) : bool :=
  (Rrtype rr =? TypePTR) && (norm (hName rr) =?s enumerateName)
  && match hData rr with MPTR p => allowedName f p | _ => false end.

Definition host_limit : nat := 4096.
Definition grant_time : Z := 120 * second.

Definition grant (now : Z) (host : string) (f : filter) : filter :=
  let live := base.filter (fun he : string * Z => now < he.2) (hosts f) in
  mkFilter (allow f) (all f) (if (size live <? host_limit)%nat then <[norm host := now + grant_time]> live else live).

Definition granted (now : Z) (f : filter) (host : string) : bool :=
  match hosts f !! norm host with Some exp => now <? exp | None => false end.

(** Queries: the questions that may be asked, with the known answers that go with them. *)
Definition asked (now : Z) (f : filter) (q : Question) : bool :=
  allowedName f (qName q) || enumeration q
  || (((qType q =? TypeA) || (qType q =? TypeAAAA) || (qType q =? TypeANY)) && granted now f (qName q)).
Definition Queries (now : Z) (f : filter) (m : mMsg) : option mMsg :=
  match List.filter (asked now f) (mQuestion m) with
  | [] => None
  | qs => Some (mkMMsg (mId m) false false 0 qs
                  (List.filter (fun k => allowedName f (hName k) || enumerable f k) (mAnswer m)) [])
  end.

(** Responses: hosts named by an allowed service become resolvable, then the records that may be
    seen. *)
Definition grant_srv (now : Z) (f : filter) (rr : mRR) : filter :=
  match hData rr with MSRV _ target => if allowedName f (hName rr) then grant now target f else f | _ => f end.
Definition keep (now : Z) (f : filter) (rr : mRR) : bool :=
  let t := Rrtype rr in
  if t =? TypePTR then allowedName f (hName rr) || enumerable f rr
  else if (t =? TypeSRV) || (t =? TypeTXT) then allowedName f (hName rr)
  else if (t =? TypeA) || (t =? TypeAAAA) then granted now f (hName rr)
  else false.
Definition Responses (now : Z) (f : filter) (m : mMsg) : filter * option mMsg :=
  let f' := fold_left (grant_srv now) (records m) f in
  let answer := List.filter (keep now f') (mAnswer m) in
  let extra := List.filter (keep now f') (mExtra m) in
  (f', match answer ++ extra with [] => None | _ => Some (mkMMsg 0 true true 0 [] answer extra) end).

(** * Class sets *)

Record classSet := mkClassSet { csAll : bool; csSet : gset string }.
#[global] Instance classSet_eq_dec : EqDecision classSet.
Proof. solve_decision. Defined.

Definition classesOf (services : list string) : classSet :=
  fold_left (fun cs s => if s =?s "*" then mkClassSet true (csSet cs) else mkClassSet (csAll cs) ({[ToLower s]} ∪ csSet cs))
    services (mkClassSet false ∅).
Definition cs_empty (c : classSet) : bool := negb (csAll c) && bool_decide (csSet c = ∅).
Definition intersect (c o : classSet) : classSet :=
  if csAll o then c else if csAll c then o else mkClassSet false (csSet c ∩ csSet o).
Definition cs_union (c o : classSet) : classSet :=
  if csAll c || csAll o then mkClassSet true ∅ else mkClassSet false (csSet c ∪ csSet o).
Definition cs_equal (c o : classSet) : bool := bool_decide (c = o).
Definition cs_services (c : classSet) : list string := if csAll c then ["*"] else sort_strings (elements (csSet c)).

(** * The relation the rules compose into *)

(** A relay rule between two interface indexes. *)
Record relaying := mkRelaying { cfg : ReflectRule; from : Z; to : Z }.
Record relay := mkRelay { rFrom : Z; rTo : Z; rFilter : filter }.

Definition rule_classes (e : relaying) : classSet := classesOf (AllowServices (cfg e)).
Definition byFrom (rules : list relaying) (i : Z) : list relaying := List.filter (fun e => from e =? i) rules.

(** What a source reaches so far, and the interfaces whose rules are still to be followed. *)
Definition walk_state : Type := gmap Z classSet * list Z.

Definition push (to : Z) (cs : classSet) (st : walk_state) : walk_state :=
  let '(best, queue) := st in
  if cs_empty cs then st
  else match best !! to with
       | Some prev => let merged := cs_union prev cs in
                      if cs_equal prev merged then st else (<[to := merged]> best, queue ++ [to])
       | None => (<[to := cs]> best, queue ++ [to])
       end.

Definition no_classes : classSet := mkClassSet false ∅.

(** The rules out of one interface, each with what reaches that interface by then (a rule to
    itself would widen it). *)
Definition follow (via : Z) (st : walk_state) (e : relaying) : walk_state :=
  push (to e) (intersect (default no_classes (fst st !! via)) (rule_classes e)) st.

Fixpoint walk (fuel : nat) (rules : list relaying) (st : walk_state) : gmap Z classSet :=
  match fuel, snd st with
  | S fuel', via :: queue => walk fuel' rules (fold_left (follow via) (byFrom rules via) (fst st, queue))
  | _, _ => fst st
  end.

(** Each step of the queue is paid for by a strict improvement: at most one more class, or every
    class, for one of the interfaces. *)
Definition class_names (rules : list relaying) : gset string := ⋃ map (fun e => csSet (rule_classes e)) rules.
Definition targets (rules : list relaying) : gset Z := list_to_set (map to rules).
Definition walk_fuel (rules : list relaying) : nat := size (targets rules) * (size (class_names rules) + 3).

Definition reach (rules : list relaying) (source : Z) : gmap Z classSet :=
  walk (walk_fuel rules) rules
    (fold_left (fun st e => push (to e) (rule_classes e) st) (byFrom rules source) (∅, [])).

Definition sources (rules : list relaying) : gset Z := list_to_set (map from rules).

Definition pair_le (a b : relay) : Prop := rFrom a < rFrom b \/ (rFrom a = rFrom b /\ rTo a <= rTo b).
#[global] Instance pair_le_dec a b : Decision (pair_le a b).
Proof. apply _. Defined.

Definition planRelays (rules : list relaying) : list relay :=
  merge_sort pair_le
    (flat_map (fun source =>
       map (fun tc : Z * classSet => mkRelay source (fst tc) (newFilter (cs_services (snd tc))))
         (List.filter (fun tc : Z * classSet => negb (fst tc =? source)) (map_to_list (reach rules source))))
      (elements (sources rules))).

(** * Relaying a packet *)

Definition relay_response (now : Z) (m : mMsg) (i : Z) (r : relay) : relay * list (Z * mMsg) :=
  if rFrom r =? i then
    let '(f, out) := Responses now (rFilter r) m in
    (mkRelay (rFrom r) (rTo r) f, match out with Some resp => [(rTo r, resp)] | None => [] end)
  else (r, []).
Definition relay_query (now : Z) (m : mMsg) (i : Z) (r : relay) : list (Z * mMsg) :=
  if rTo r =? i then match Queries now (rFilter r) m with Some q => [(rFrom r, q)] | None => [] end else [].

(** One packet heard on interface [i]: the packets sent, with the interface of each. *)
Definition reflect (now : Z) (m : mMsg) (i : Z) (relays : list relay) : list relay * list (Z * mMsg) :=
  if mResponse m then
    let rs := map (relay_response now m i) relays in (map fst rs, flat_map snd rs)
  else (relays, flat_map (relay_query now m i) relays).
End Relay.
