(* ===== verification/ReflectInv.v ===== *)
(** The relay's pairs are exactly the paths of its rules, class by class; the walk that computes
    them ends, whatever cycles the rules form; what the relay lets through over time. *)

From S2P Require Import Prelude NetAddr Config KeyText LeaseText Dns Mdns Reflect.
From Stdlib Require Import Ascii.
Local Open Scope Z_scope.

(** * Classes *)

Definition has (cs : classSet) (c : string) : Prop := csAll cs = true \/ c ∈ csSet cs.

Lemma has_union a b c : has (cs_union a b) c <-> has a c \/ has b c.
Proof. unfold has, cs_union. destruct (csAll a), (csAll b); cbn; set_solver. Qed.
Lemma has_intersect a b c : has (intersect a b) c <-> has a c /\ has b c.
Proof. unfold has, intersect. destruct (csAll b) eqn:Eb; [naive_solver|]. destruct (csAll a) eqn:Ea; rewrite ?Eb; cbn; set_solver. Qed.
Lemma has_none cs c : cs_empty cs = true -> ~ has cs c.
Proof. unfold cs_empty, has. intros H. bool_hyps. apply bool_decide_eq_true in H0. rewrite H0. intros [?|?]; [congruence|set_solver]. Qed.
Lemma has_some cs : cs_empty cs = false -> exists c, has cs c.
Proof.
  unfold cs_empty, has. destruct (csAll cs); cbn; [exists EmptyString; by left|]. intros H%bool_decide_eq_false.
  apply set_choose_L in H as [c Hc]. exists c. by right.
Qed.

Section Exact.
Context `{CaseFold}.

(** Accepted class lists. *)
Definition class_ok (s : string) : bool := (s =?s "*") || serviceRE s.
Definition rule_ok (e : relaying) : bool := forallb class_ok (AllowServices (cfg e)).

Lemma split_char_chars p sep s : Forall (fun x => str_forallb p x = true) (split_char sep s) -> p sep = true -> str_forallb p s = true.
Proof.
  unfold str_forallb. intros Hs Hp. induction s as [|c s IH]; [done|]. cbn in *. destruct (Ascii.eqb_spec c sep) as [->|Hc].
  - inversion Hs; subst. rewrite Hp. by apply IH.
  - destruct (split_char sep s) as [|x xs] eqn:E; [exfalso; by destruct s; cbn in E; repeat case_match|].
    inversion Hs as [|? ? Hx Hxs]; subst. cbn in Hx. apply andb_prop in Hx as [-> Hx]. cbn. apply IH. by constructor.
Qed.

Definition class_char (c : ascii) : bool := lower_alnum_dash c || Ascii.eqb c "_" || Ascii.eqb c ".".

Lemma serviceRE_chars s : serviceRE s = true -> str_forallb class_char s = true.
Proof.
  unfold serviceRE. intros Hs. apply (split_char_chars class_char "." s); [|done].
  destruct (split_char "." s) as [|type [|proto [|]]]; try done. bool_hyps. unfold underscored in *.
  assert (Hd : forall l, forallb lower_alnum_dash l = true -> forallb class_char l = true).
  { intros l Hl. apply forallb_forall. intros x Hx. rewrite forallb_forall in Hl. unfold class_char. by rewrite (Hl x Hx). }
  constructor; [|constructor; [|constructor]].
  - unfold str_forallb. destruct (string_chars type) as [|u [|c l]]; try done. bool_hyps. cbn. rewrite (Hd l) by done.
    repeat match goal with E : Ascii.eqb _ _ = true |- _ => apply Ascii.eqb_eq in E; subst end. unfold class_char, lower_alnum_dash.
    match goal with E : lower_alnum c = true |- _ => rewrite E end. done.
  - match goal with E : (proto =?s _) || _ = true |- _ => apply orb_prop in E as [->%String.eqb_eq| ->%String.eqb_eq] end; done.
Qed.

Lemma class_char_lower c : class_char c = true -> ascii_char c = true /\ lower_char c = c.
Proof. destruct c as [[] [] [] [] [] [] [] []]; vm_compute; done. Qed.

Lemma class_ascii s : str_forallb class_char s = true -> str_forallb ascii_char s = true /\ to_lower s = s.
Proof.
  unfold str_forallb, to_lower. induction s as [|c s IH]; [done|]. cbn. intros [Hc Hs]%andb_prop.
  destruct (class_char_lower c Hc) as [-> ->]. by destruct (IH Hs) as [-> ->].
Qed.
Lemma lower_same s : str_forallb class_char s = true -> ToLower s = s.
Proof. intros [Ha Hl]%class_ascii. by rewrite ToLower_ascii. Qed.

Lemma star_lower : ToLower "*" = "*".
Proof. by rewrite ToLower_ascii. Qed.

Lemma class_lower s : class_ok s = true -> ToLower s = s.
Proof.
  unfold class_ok. intros [->%String.eqb_eq|Hs]%orb_prop; [apply star_lower|]. by apply lower_same, serviceRE_chars.
Qed.

Lemma classesOf_spec ss : forallb class_ok ss = true ->
  (csAll (classesOf ss) = true <-> "*" ∈ ss) /\ (forall c, c ∈ csSet (classesOf ss) <-> c ∈ ss /\ c <> "*").
Proof.
  unfold classesOf. intros Hok. set (f := fun cs s => _).
  assert (G : forall ss cs, forallb class_ok ss = true -> (csAll (fold_left f ss cs) = true <-> csAll cs = true \/ "*" ∈ ss)
    /\ (forall c, c ∈ csSet (fold_left f ss cs) <-> c ∈ csSet cs \/ (c ∈ ss /\ c <> "*"))).
  { clear. induction ss as [|s ss IH]; intros cs Hok; cbn [fold_left forallb] in *; [set_solver|].
    apply andb_prop in Hok as [Hs Hok]. specialize (IH (f cs s) Hok) as [IH1 IH2]. unfold f in *.
    destruct (String.eqb_spec s "*") as [->|Hne]; cbn in *.
    - split; [rewrite IH1|intros c; rewrite IH2]; set_solver.
    - rewrite (class_lower s Hs) in *. split; [rewrite IH1|intros c; rewrite IH2]; set_solver. }
  destruct (G ss (mkClassSet false ∅) Hok) as [G1 G2]. split; [rewrite G1|intros c; rewrite G2]; set_solver.
Qed.

(** The rule allows the class. *)
Definition permits (e : relaying) (c : string) : Prop := "*" ∈ AllowServices (cfg e) \/ c ∈ AllowServices (cfg e).

Lemma rule_has e c : rule_ok e = true -> has (rule_classes e) c <-> permits e c.
Proof.
  intros He. destruct (classesOf_spec _ He) as [H1 H2]. unfold has, permits, rule_classes. rewrite H1, H2.
  destruct (decide (c = "*")) as [->|]; naive_solver.
Qed.

Lemma newFilter_spec ss : (all (newFilter ss) = true <-> "*" ∈ ss)
  /\ (forall c, c ∈ allow (newFilter ss) <-> exists s, s ∈ ss /\ s <> "*" /\ c = ToLower s) /\ hosts (newFilter ss) = ∅.
Proof.
  unfold newFilter. set (f := fun g s => _).
  assert (G : forall ss g, (all (fold_left f ss g) = true <-> all g = true \/ "*" ∈ ss)
    /\ (forall c, c ∈ allow (fold_left f ss g) <-> c ∈ allow g \/ exists s, s ∈ ss /\ s <> "*" /\ c = ToLower s) /\ hosts (fold_left f ss g) = hosts g).
  { clear. induction ss as [|s ss IH]; intros g; cbn [fold_left]; [set_solver|].
    specialize (IH (f g s)) as (IH1 & IH2 & IH3). unfold f in *.
    destruct (String.eqb_spec s "*") as [->|Hne]; cbn in *; (split_and!; [rewrite IH1|intros c; rewrite IH2|done]); set_solver. }
  destruct (G ss (mkFilter ∅ false ∅)) as (G1 & G2 & G3). split_and!; [rewrite G1|intros c; rewrite G2|done]; set_solver.
Qed.

Definition lower_set (cs : classSet) : Prop := forall c, c ∈ csSet cs -> ToLower c = c /\ c <> "*".

Lemma services_allow cs c : lower_set cs -> allows (newFilter (cs_services cs)) c = true <-> has cs c.
Proof.
  intros Hl. destruct (newFilter_spec (cs_services cs)) as (H1 & H2 & _). unfold allows, has. rewrite orb_true_iff, bool_decide_eq_true, H1, H2.
  unfold cs_services. destruct (csAll cs); [set_solver|]. setoid_rewrite elem_of_sort_strings. setoid_rewrite elem_of_elements. split.
  - intros [Hs|(s & Hs & _ & ->)]; [by destruct (Hl _ Hs)|]. right. by destruct (Hl s Hs) as [-> _].
  - intros [?|Hc]; [done|]. right. exists c. destruct (Hl c Hc) as [-> ?]. done.
Qed.

(** * The walk *)

(** Every class is carried from [i] to [j] by a path of rules that each permit it. *)
Inductive path (rules : list relaying) (c : string) (i : Z) : Z -> Prop :=
| path_rule e : e ∈ rules -> from e = i -> permits e c -> path rules c i (to e)
| path_step e : path rules c i (from e) -> e ∈ rules -> permits e c -> path rules c i (to e).

Definition reaches (best : gmap Z classSet) (t : Z) (c : string) : Prop := exists cs, best !! t = Some cs /\ has cs c.

Lemma push_reaches t cs st t' c : reaches (fst (push t cs st)) t' c <-> reaches (fst st) t' c \/ (t' = t /\ has cs c).
Proof.
  destruct st as [best queue]. unfold push. destruct (cs_empty cs) eqn:Ee.
  { cbn. split; [auto|]. intros [?|[_ Hc]]; [done|]. by apply has_none in Hc. }
  unfold reaches. cbn. destruct (best !! t) as [prev|] eqn:Et.
  - destruct (cs_equal prev (cs_union prev cs)) eqn:Eq; cbn.
    + apply bool_decide_eq_true in Eq. split; [auto|]. intros [?|[-> Hc]]; [done|]. exists prev. split; [done|].
      rewrite Eq, has_union. by right.
    + destruct (decide (t' = t)) as [->|Hne].
      * rewrite lookup_insert_eq, Et. setoid_rewrite (inj_iff Some). split.
        -- intros (x & <- & [?|?]%has_union); [left; eauto|by right].
        -- intros [(x & <- & ?)|[_ ?]]; eexists; (split; [done|]); rewrite has_union; auto.
      * rewrite lookup_insert_ne by done. naive_solver.
  - cbn. destruct (decide (t' = t)) as [->|Hne].
    + rewrite lookup_insert_eq, Et. naive_solver.
    + rewrite lookup_insert_ne by done. naive_solver.
Qed.

Lemma push_queue t cs st : exists q, snd (push t cs st) = snd st ++ q /\ forall t', t' ∉ q -> fst (push t cs st) !! t' = fst st !! t'.
Proof.
  destruct st as [best queue]. unfold push. destruct (cs_empty cs); [exists []; by rewrite app_nil_r|].
  destruct (best !! t) as [prev|]; [destruct (cs_equal _ _); [exists []; by rewrite app_nil_r|]|]; exists [t]; (split; [done|]);
    intros t' Ht; cbn; apply lookup_insert_ne; set_solver.
Qed.

Section Walk.
Context (rules : list relaying) (Hok : forallb rule_ok rules = true) (source : Z).

Lemma elem_ok e : e ∈ rules -> rule_ok e = true.
Proof. intros He. rewrite forallb_forall in Hok. apply Hok. by apply list_elem_of_In. Qed.

Lemma elem_byFrom i e : e ∈ byFrom rules i <-> e ∈ rules /\ from e = i.
Proof. unfold byFrom. rewrite list_elem_of_In, filter_In, <-list_elem_of_In, Z.eqb_eq. done. Qed.

(** What has been reached is reached by a path. *)
Definition sound (st : walk_state) : Prop := forall t c, reaches (fst st) t c -> path rules c source t.
(** The rules of an interface that is not queued have been followed. *)
Definition closed (st : walk_state) : Prop :=
  forall e c, e ∈ rules -> from e ∉ snd st -> reaches (fst st) (from e) c -> permits e c -> reaches (fst st) (to e) c.

Lemma fold_queue {A} (f : walk_state -> A -> walk_state) (es : list A) st :
  (forall st e, exists t cs, f st e = push t cs st) ->
  (exists q, snd (fold_left f es st) = snd st ++ q)
  /\ (forall t, t ∉ snd (fold_left f es st) -> fst (fold_left f es st) !! t = fst st !! t)
  /\ (forall t c, reaches (fst st) t c -> reaches (fst (fold_left f es st)) t c).
Proof.
  intros Hf. revert st. induction es as [|e es IH]; intros st; cbn [fold_left]; [split_and!; [exists []; by rewrite app_nil_r|done|done]|].
  destruct (Hf st e) as (t0 & cs & E). destruct (IH (f st e)) as ((q & Eq) & H1 & H2). rewrite E in *.
  destruct (push_queue t0 cs st) as (q0 & Eq0 & H0). split_and!.
  - exists (q0 ++ q). by rewrite Eq, Eq0, app_assoc.
  - intros t Ht. rewrite H1 by done. apply H0. rewrite Eq, Eq0 in Ht. set_solver.
  - intros t c Hr. apply H2, push_reaches. by left.
Qed.

Lemma follow_push via st e : exists t cs, follow via st e = push t cs st.
Proof. unfold follow. eauto. Qed.

Lemma follow_sound via es st : (forall e, e ∈ es -> e ∈ rules /\ from e = via) -> sound st -> sound (fold_left (follow via) es st).
Proof.
  revert st. induction es as [|e es IH]; intros st He Hs; cbn [fold_left]; [done|].
  apply IH; [intros e' He'; apply He; by right|]. intros t c. unfold follow. rewrite push_reaches, has_intersect.
  intros [?|(-> & Hv & Hc)]; [by apply Hs|]. destruct (He e) as [Hin Ef]; [left|]. rewrite rule_has in Hc by (by apply elem_ok).
  apply path_step; [|done..]. apply Hs. rewrite Ef. destruct (fst st !! via) as [cs|] eqn:E; [by exists cs|].
  destruct Hv as [?|Hv]; [done|]. cbn in Hv. set_solver.
Qed.

Lemma follow_reaches via es st e c : e ∈ es -> rule_ok e = true -> via ∉ snd (fold_left (follow via) es st) ->
  reaches (fst (fold_left (follow via) es st)) via c -> permits e c -> reaches (fst (fold_left (follow via) es st)) (to e) c.
Proof.
  intros He Hr. revert st. induction es as [|e' es IH]; intros st; [by apply elem_of_nil in He|]. cbn [fold_left].
  apply elem_of_cons in He as [<-|He]; [|by apply IH].
  intros Hv Hvia Hp. destruct (fold_queue (follow via) es (follow via st e) (follow_push via)) as ((q & Eq) & H1 & H2).
  apply H2. unfold follow at 1. rewrite push_reaches. right. split; [done|]. rewrite has_intersect, rule_has by done. split; [|done].
  destruct Hvia as (cs & Ecs & Hcs). rewrite H1 in Ecs by done. unfold follow in Ecs.
  destruct (push_queue (to e) (intersect (default no_classes (fst st !! via)) (rule_classes e)) st) as (q0 & Eq0 & H0).
  rewrite H0 in Ecs; [by rewrite Ecs|]. intros Hq. apply Hv. rewrite Eq. unfold follow. rewrite Eq0. set_solver.
Qed.

Lemma follow_closed best via queue : closed (best, via :: queue) -> closed (fold_left (follow via) (byFrom rules via) (best, queue)).
Proof.
  intros Hc e c He Hq Hr Hp.
  destruct (fold_queue (follow via) (byFrom rules via) (best, queue) (follow_push via)) as ((q & Eq) & H1 & H2).
  destruct (decide (from e = via)) as [Ev|Hne].
  - rewrite Ev in *. apply follow_reaches; try done; [by apply elem_byFrom|by apply elem_ok].
  - apply H2. apply Hc; try done; [rewrite Eq in Hq; cbn in *; set_solver|].
    unfold reaches in *. rewrite H1 in Hr by done. done.
Qed.

(** * Enough fuel *)

Definition K : nat := size (class_names rules).
Definition rank (cs : option classSet) : nat :=
  match cs with
  | None => 0
  | Some cs => if csAll cs then (if decide (csSet cs = ∅) then K + 3 else K + 2) else 1 + size (csSet cs)
  end.
Definition potential (best : gmap Z classSet) : nat := sum_list_with (fun t => rank (best !! t)) (elements (targets rules)).
Definition bounded (best : gmap Z classSet) : Prop := forall t cs, best !! t = Some cs -> csSet cs ⊆ class_names rules.
Definition in_bound (cs : classSet) : Prop := csSet cs ⊆ class_names rules.

Lemma rank_bound best t : bounded best -> (rank (best !! t) <= K + 3)%nat.
Proof.
  intros Hb. destruct (best !! t) as [cs|] eqn:E; cbn; [|lia]. specialize (Hb t cs E). apply subseteq_size in Hb. unfold K in *.
  destruct (csAll cs); [case_decide; lia|lia].
Qed.

Lemma potential_bound best : bounded best -> (potential best <= walk_fuel rules)%nat.
Proof.
  intros Hb. unfold potential, walk_fuel. fold K. change (size (targets rules)) with (length (elements (targets rules))).
  induction (elements (targets rules)) as [|t ts IH]; cbn; [lia|]. pose proof (rank_bound best t Hb). lia.
Qed.

Lemma sum_lt {A} (f g : A -> nat) l t : (forall x, x ∈ l -> (f x <= g x)%nat) -> t ∈ l -> (f t < g t)%nat ->
  (sum_list_with f l < sum_list_with g l)%nat.
Proof.
  intros Hle Ht Hlt. assert (Hs : forall l, (forall x, x ∈ l -> (f x <= g x)%nat) -> (sum_list_with f l <= sum_list_with g l)%nat).
  { clear. induction l as [|x l IH]; intros Hle; cbn; [lia|]. pose proof (Hle x ltac:(left)). specialize (IH ltac:(intros; apply Hle; by right)). lia. }
  induction l as [|x l IH]; [by apply elem_of_nil in Ht|]. cbn. pose proof (Hle x ltac:(left)).
  apply elem_of_cons in Ht as [->|Ht]; [specialize (Hs l ltac:(intros; apply Hle; by right)); lia|].
  specialize (IH ltac:(intros; apply Hle; by right) Ht). lia.
Qed.

Lemma union_rank prev cs : in_bound prev -> in_bound cs -> prev <> cs_union prev cs -> (rank (Some prev) < rank (Some (cs_union prev cs)))%nat.
Proof.
  intros Hp Hc Hne. unfold cs_union, rank in *. destruct prev as [pa ps], cs as [ca xs]. cbn in *. unfold in_bound in *. cbn in *.
  apply subseteq_size in Hp as Sp. fold K in Sp. destruct pa, ca; cbn in *.
  - repeat case_decide; subst; congruence || lia.
  - repeat case_decide; subst; congruence || lia.
  - case_decide; congruence || lia.
  - assert (ps ⊂ ps ∪ xs); [|pose proof (subset_size ps (ps ∪ xs) H0); lia].
    split; [set_solver|]. intros Hs. apply Hne. f_equal. set_solver.
Qed.

Lemma insert_potential best t cs : t ∈ targets rules -> (rank (best !! t) < rank (Some cs))%nat -> (potential best < potential (<[t := cs]> best))%nat.
Proof.
  intros Ht Hr. unfold potential. apply (sum_lt _ _ _ t); [|by apply elem_of_elements|by rewrite lookup_insert_eq].
  intros x _. destruct (decide (x = t)) as [->|Hne]; [rewrite lookup_insert_eq; lia|by rewrite lookup_insert_ne].
Qed.

(** A push pays for its place in the queue. *)
Lemma push_potential t cs st : t ∈ targets rules -> bounded (fst st) -> in_bound cs ->
  bounded (fst (push t cs st)) /\ (length (snd (push t cs st)) + potential (fst st) <= length (snd st) + potential (fst (push t cs st)))%nat.
Proof.
  destruct st as [best queue]. intros Ht Hb Hc. unfold push. destruct (cs_empty cs) eqn:Ee; [done|]. cbn in Hb.
  assert (Hins : forall x, in_bound x -> bounded (<[t := x]> best)).
  { intros x Hx t' cs'. destruct (decide (t' = t)) as [->|]; [rewrite lookup_insert_eq; by intros [= <-]|rewrite lookup_insert_ne by done; apply Hb]. }
  destruct (best !! t) as [prev|] eqn:Et; [destruct (cs_equal _ _) eqn:Eq; [done|]|]; cbn [fst snd]; rewrite length_app; cbn [length].
  - apply bool_decide_eq_false in Eq. pose proof (Hb t prev Et) as Hp. split.
    + apply Hins. unfold in_bound, cs_union in *. destruct (csAll prev || csAll cs); cbn; set_solver.
    + pose proof (insert_potential best t (cs_union prev cs) Ht). rewrite Et in H0. pose proof (union_rank prev cs Hp Hc Eq). lia.
  - split; [by apply Hins|]. pose proof (insert_potential best t cs Ht) as Hi. rewrite Et in Hi.
    assert (0 < rank (Some cs))%nat by (cbn; destruct (csAll cs); [case_decide|]; lia). cbn [rank] in *. lia.
Qed.

Lemma rule_in_bound e : e ∈ rules -> in_bound (rule_classes e).
Proof.
  intros He c Hc. unfold class_names. apply elem_of_union_list. exists (csSet (rule_classes e)). split; [|done].
  apply list_elem_of_In, in_map_iff. exists e. by rewrite <-list_elem_of_In.
Qed.
Lemma to_target e : e ∈ rules -> to e ∈ targets rules.
Proof. intros He. unfold targets. rewrite elem_of_list_to_set, list_elem_of_In, in_map_iff. exists e. by rewrite <-list_elem_of_In. Qed.

Lemma fold_potential (f : walk_state -> relaying -> walk_state) es st :
  (forall st e, e ∈ es -> bounded (fst st) -> exists cs, f st e = push (to e) cs st /\ in_bound cs) -> (forall e, e ∈ es -> e ∈ rules) ->
  bounded (fst st) ->
  bounded (fst (fold_left f es st))
  /\ (length (snd (fold_left f es st)) + potential (fst st) <= length (snd st) + potential (fst (fold_left f es st)))%nat.
Proof.
  revert st. induction es as [|e es IH]; intros st Hf He Hb; cbn [fold_left]; [done|].
  destruct (Hf st e ltac:(left) Hb) as (cs & E & Hc). destruct (push_potential (to e) cs st) as [Hb' Hp]; [by apply to_target, He; left|done|done|].
  rewrite <-E in *. destruct (IH (f st e)) as [Hb2 Hp2]; [intros; apply Hf; [by right|done]|intros; apply He; by right|done|]. split; [done|lia].
Qed.

Lemma walk_spec fuel st : sound st -> closed st -> bounded (fst st) -> (length (snd st) + walk_fuel rules <= fuel + potential (fst st))%nat ->
  sound (walk fuel rules st, []) /\ closed (walk fuel rules st, []) /\ bounded (walk fuel rules st).
Proof.
  revert st. induction fuel as [|fuel IH]; intros [best queue] Hs Hc Hb Hf; cbn [fst snd] in *.
  { pose proof (potential_bound best Hb). destruct queue; cbn in *; [done|lia]. }
  destruct queue as [|via queue]; [done|]. cbn [walk fst snd].
  destruct (fold_potential (follow via) (byFrom rules via) (best, queue)) as [Hb' Hp'].
  - intros st e He Hbs. eexists. split; [done|]. unfold in_bound, intersect. destruct (fst st !! via) as [cs|] eqn:Ev; cbn.
    + apply Hbs in Ev. apply elem_byFrom in He as [He _]. pose proof (rule_in_bound e He) as Hr. unfold in_bound in Hr.
      destruct (csAll (rule_classes e)); [done|]. destruct (csAll cs); [done|]. cbn. set_solver.
    + destruct (csAll (rule_classes e)); cbn; set_solver.
  - intros e He. by apply elem_byFrom in He as [? _].
  - done.
  - apply IH; [|by apply follow_closed|done|cbn in *; lia].
    apply follow_sound; [intros e; apply elem_byFrom|]. exact Hs.
Qed.

Lemma walk_grows fuel st t c : reaches (fst st) t c -> reaches (walk fuel rules st) t c.
Proof.
  revert st. induction fuel as [|fuel IH]; intros [best queue] Hm; [done|]. destruct queue as [|via queue]; [done|]. cbn [walk fst snd].
  apply IH. by apply (fold_queue (follow via) (byFrom rules via) (best, queue) (follow_push via)).
Qed.

(** The rules out of the source. *)
Definition leave (st : walk_state) (e : relaying) : walk_state := push (to e) (rule_classes e) st.
Definition start : walk_state := fold_left leave (byFrom rules source) (∅, []).

Lemma start_exact t c : reaches (fst start) t c <-> exists e, e ∈ rules /\ from e = source /\ to e = t /\ permits e c.
Proof.
  assert (G : forall es st, (forall e, e ∈ es -> rule_ok e = true) ->
    reaches (fst (fold_left leave es st)) t c <-> reaches (fst st) t c \/ exists e, e ∈ es /\ to e = t /\ permits e c).
  { clear. induction es as [|e es IH]; intros st Hes; cbn [fold_left]; [set_solver|]. rewrite IH by (intros; apply Hes; by right).
    unfold leave. rewrite push_reaches, rule_has by (apply Hes; left). set_solver. }
  unfold start. rewrite G by (intros e [? _]%elem_byFrom; by apply elem_ok). setoid_rewrite elem_byFrom. unfold reaches. cbn.
  setoid_rewrite lookup_empty. naive_solver.
Qed.

Lemma start_fuel : bounded (fst start) /\ (length (snd start) <= potential (fst start))%nat.
Proof.
  destruct (fold_potential leave (byFrom rules source) (∅, [])) as [Hb Hp].
  - intros st e [He _]%elem_byFrom _. exists (rule_classes e). split; [done|]. by apply rule_in_bound.
  - by intros e [? _]%elem_byFrom.
  - intros ? ? [=].
  - split; [done|]. cbn in Hp. unfold start. lia.
Qed.

(** What the walk reaches is what a path reaches. *)
Lemma reach_walk : sound (reach rules source, []) /\ closed (reach rules source, []) /\ bounded (reach rules source).
Proof.
  unfold reach. change (fold_left _ _ _) with start. destruct start_fuel as [Hb Hp].
  apply walk_spec; [| |done|lia].
  - intros t' c' (e & He & Ef & <- & Hp')%start_exact. by apply path_rule.
  - intros e c' He Hq (cs & Ecs & _) Hpe. exfalso. apply Hq. destruct (decide (from e ∈ snd start)) as [|Hn]; [done|].
    destruct (fold_queue leave (byFrom rules source) (∅, [])) as (_ & H1 & _); [unfold leave; eauto|]. by rewrite H1 in Ecs.
Qed.

Lemma reach_exact t c : reaches (reach rules source) t c <-> path rules c source t.
Proof.
  destruct reach_walk as (Hs & Hc & _). split; [apply Hs|]. intros Hpath. induction Hpath as [e He Ef Hpe|e _ IH He Hpe].
  - apply walk_grows, start_exact. by exists e.
  - apply (Hc e c); [done|set_solver|done|done].
Qed.

Lemma reach_lower t cs : reach rules source !! t = Some cs -> lower_set cs.
Proof.
  intros E c Hc. destruct reach_walk as (_ & _ & Hb). apply (Hb t cs E) in Hc. unfold class_names in Hc.
  apply elem_of_union_list in Hc as (X & HX & Hc). apply list_elem_of_In, in_map_iff in HX as (e & <- & He%list_elem_of_In).
  pose proof (elem_ok e He) as Ho. apply (classesOf_spec _ Ho) in Hc as [Hc Hne]. split; [|done]. apply class_lower.
  unfold rule_ok in Ho. rewrite forallb_forall in Ho. apply Ho. by apply list_elem_of_In.
Qed.
End Walk.

(** * The planned pairs *)

Lemma elem_of_planRelays rules r : r ∈ planRelays rules <->
  rFrom r ∈ sources rules /\ rTo r <> rFrom r
  /\ exists cs, reach rules (rFrom r) !! rTo r = Some cs /\ rFilter r = newFilter (cs_services cs).
Proof.
  unfold planRelays. rewrite merge_sort_Permutation. rewrite list_elem_of_In, in_flat_map. split.
  - intros (source & Hs & ((t & cs) & <- & Ht)%in_map_iff). apply filter_In in Ht as [Ht Hne]. cbn in *.
    apply list_elem_of_In, elem_of_map_to_list in Ht. apply list_elem_of_In, elem_of_elements in Hs.
    split; [done|]. split; [|eauto]. intros ->. by rewrite Z.eqb_refl in Hne.
  - intros (Hs & Hne & cs & Hr & Ef). destruct r as [i j f]. cbn in *. exists i. split; [by apply list_elem_of_In, elem_of_elements|].
    apply in_map_iff. exists (j, cs). split; [by rewrite Ef|]. apply filter_In. split; [by apply list_elem_of_In, elem_of_map_to_list|].
    cbn. apply Z.eqb_neq in Hne. by rewrite Hne.
Qed.

Lemma path_source rules c i j : path rules c i j -> i ∈ sources rules.
Proof.
  intros Hp. induction Hp as [e He <- _|]; [|done]. unfold sources. rewrite elem_of_list_to_set, list_elem_of_In, in_map_iff.
  exists e. by rewrite <-list_elem_of_In.
Qed.

Lemma planned_allows rules r c : forallb rule_ok rules = true -> r ∈ planRelays rules ->
  allows (rFilter r) c = true <-> path rules c (rFrom r) (rTo r).
Proof.
  intros Hok (Hs & _ & cs & Hr & ->)%elem_of_planRelays.
  rewrite services_allow by (by eapply reach_lower). rewrite <-(reach_exact rules Hok). unfold reaches. rewrite Hr. naive_solver.
Qed.

(** Pairs and paths are the same thing, and a pair has one filter. *)
Lemma planRelays_exact rules : forallb rule_ok rules = true ->
  (forall i j c, (exists r, r ∈ planRelays rules /\ rFrom r = i /\ rTo r = j /\ allows (rFilter r) c = true) <-> i <> j /\ path rules c i j)
  /\ (forall r r', r ∈ planRelays rules -> r' ∈ planRelays rules -> rFrom r = rFrom r' -> rTo r = rTo r' -> r = r')
  /\ (forall r, r ∈ planRelays rules -> hosts (rFilter r) = ∅).
Proof.
  intros Hok. split_and!.
  - intros i j c. split.
    + intros (r & Hr & <- & <- & Ha). split; [by apply elem_of_planRelays in Hr as (_ & ? & _)|]. by apply (planned_allows rules r c Hok Hr).
    + intros [Hne Hp]. pose proof Hp as (cs & Hr & Hc)%(reach_exact rules Hok).
      exists (mkRelay i j (newFilter (cs_services cs))). split; [|split_and!; [done..|apply services_allow; [by eapply reach_lower|done]]].
      apply elem_of_planRelays. cbn. split_and!; [by eapply path_source|done|eauto].
  - intros [i j f] [i' j' f'] (_ & _ & cs & Hr & Ef)%elem_of_planRelays (_ & _ & cs' & Hr' & Ef')%elem_of_planRelays. cbn in *.
    intros <- <-. congruence.
  - intros r (_ & _ & cs & _ & Ef)%elem_of_planRelays. rewrite Ef. apply newFilter_spec.
Qed.
End Exact.

(** What the relay lets through, over everything it has heard. *)

(** * One filter *)

Section Filter.
Context `{CaseFold}.

(** Learning hosts changes no permission. *)
Definition same_classes (f g : filter) : Prop := allow g = allow f /\ all g = all f.

Lemma same_allowed f g n : same_classes f g -> allowedName g n = allowedName f n.
Proof. intros [E1 E2]. unfold allowedName, allows. by rewrite E1, E2. Qed.

Lemma grant_srv_same now f rr : same_classes f (grant_srv now f rr).
Proof. unfold grant_srv. destruct (hData rr); try done. by destruct (allowedName _ _). Qed.

Lemma grants_same now rrs f : same_classes f (fold_left (grant_srv now) rrs f).
Proof.
  apply (fold_left_inv _ (same_classes f)); [|done]. intros rr g _ [E1 E2]. destruct (grant_srv_same now g rr) as [F1 F2].
  split; congruence.
Qed.

(** A service record that names a host. *)
Definition names_host (rr : mRR) (host : string) : Prop := exists port target, hData rr = MSRV port target /\ norm target = host.

Lemma grant_srv_hosts now f rr h exp : hosts (grant_srv now f rr) !! h = Some exp ->
  hosts f !! h = Some exp \/ (exp = now + grant_time /\ allowedName f (hName rr) = true /\ names_host rr h).
Proof.
  unfold grant_srv. destruct (hData rr) as [| | |port target| |] eqn:Ed; auto. destruct (allowedName f (hName rr)) eqn:Ea; [|auto].
  unfold grant. cbn [hosts]. assert (Hf : forall m : gmap string Z, base.filter (fun he : string * Z => now < he.2) m !! h = Some exp -> m !! h = Some exp)
    by (by intros m [? _]%map_lookup_filter_Some).
  case_match; [|by left; apply Hf]. destruct (decide (h = norm target)) as [->|Hne].
  - rewrite lookup_insert_eq. intros [= <-]. right. split_and!; [done..|]. by exists port, target.
  - rewrite lookup_insert_ne by done. by left; apply Hf.
Qed.

Lemma grants_hosts now rrs f h exp : hosts (fold_left (grant_srv now) rrs f) !! h = Some exp ->
  hosts f !! h = Some exp \/ exists rr, rr ∈ rrs /\ exp = now + grant_time /\ allowedName f (hName rr) = true /\ names_host rr h.
Proof.
  revert f. induction rrs as [|rr rrs IH]; intros f; cbn [fold_left]; [auto|]. intros [E|(x & Hx & ? & Ha & ?)]%IH.
  - apply grant_srv_hosts in E as [?|(? & ? & ?)]; [by left|]. right. exists rr. split_and!; try done. left.
  - rewrite (same_allowed f) in Ha by apply grant_srv_same. right. exists x. split_and!; try done. by right.
Qed.

(** A host named by an allowed service stays known while there is room. *)
Lemma grant_size now host f : (size (hosts (grant now host f)) <= size (hosts f) + 1)%nat.
Proof.
  unfold grant. cbn [hosts]. pose proof (map_size_filter (fun he : string * Z => now < he.2) (hosts f)) as Hs.
  case_match; [|lia]. rewrite map_size_insert. destruct (_ !! _); cbn; lia.
Qed.

Lemma grants_size now rrs f : (size (hosts (fold_left (grant_srv now) rrs f)) <= size (hosts f) + length rrs)%nat.
Proof.
  revert f. induction rrs as [|rr rrs IH]; intros f; cbn [fold_left length]; [lia|]. specialize (IH (grant_srv now f rr)).
  assert (size (hosts (grant_srv now f rr)) <= size (hosts f) + 1)%nat; [|lia]. unfold grant_srv. destruct (hData rr); try lia.
  destruct (allowedName _ _); [apply grant_size|lia].
Qed.

Lemma grants_keep now rrs f h : hosts f !! h = Some (now + grant_time) ->
  hosts (fold_left (grant_srv now) rrs f) !! h = Some (now + grant_time).
Proof.
  intros Hh. apply (fold_left_inv _ (fun g => hosts g !! h = Some (now + grant_time))); [|done]. intros rr g _ Hg. unfold grant_srv.
  destruct (hData rr) as [| | |port target| |]; try done. destruct (allowedName g (hName rr)); [|done]. unfold grant. cbn [hosts].
  assert (Hf : base.filter (fun he : string * Z => now < he.2) (hosts g) !! h = Some (now + grant_time)).
  { apply map_lookup_filter_Some. split; [done|]. cbn. unfold grant_time, second. lia. }
  case_match; [|done]. destruct (decide (h = norm target)) as [->|]; [by rewrite lookup_insert_eq|by rewrite lookup_insert_ne].
Qed.

Lemma grants_named now rrs f rr h : rr ∈ rrs -> allowedName f (hName rr) = true -> names_host rr h ->
  (size (hosts f) + length rrs <= host_limit)%nat -> hosts (fold_left (grant_srv now) rrs f) !! h = Some (now + grant_time).
Proof.
  intros Hr Ha (port & target & Ed & <-). revert f Ha. induction rrs as [|x rrs IH]; intros f Ha Hs; [by apply elem_of_nil in Hr|].
  cbn [fold_left length] in *. apply elem_of_cons in Hr as [<-|Hr].
  - apply grants_keep. unfold grant_srv. rewrite Ed, Ha. unfold grant. cbn [hosts].
    pose proof (map_size_filter (fun he : string * Z => now < he.2) (hosts f)).
    destruct (Nat.ltb_spec (size (base.filter (fun he : string * Z => now < he.2) (hosts f))) host_limit); [by rewrite lookup_insert_eq|lia].
  - apply IH; [done|by rewrite (same_allowed f) by apply grant_srv_same|].
    pose proof (grants_size now [x] f). cbn in *. lia.
Qed.
End Filter.

(** * Everything heard *)

Section Run.
Context `{CaseFold}.
Context (rules : list relaying).

(** A packet: when it was heard, on which interface. *)
Definition event : Type := Z * Z * mMsg.

(** The relay after a history of packets. *)
Inductive heard : list event -> list relay -> Prop :=
| heard_none : heard [] (planRelays rules)
| heard_next hist rs now i m : heard hist rs -> heard (hist ++ [(now, i, m)]) (fst (reflect now m i rs)).

(** A host that a service of [i], of a class carried to [j], named less than two minutes ago. *)
Definition host_shown (hist : list event) (now i j : Z) (host : string) : Prop :=
  exists t m srv c, (t, i, m) ∈ hist /\ now < t + grant_time /\ mResponse m = true /\ srv ∈ records m
  /\ classOf (hName srv) = Some c /\ path rules c i j /\ names_host srv host.

(** The name is of a class carried from [i] to [j]. *)
Definition name_shown (i j : Z) (name : string) : Prop := exists c, classOf name = Some c /\ path rules c i j.

(** A record of [i] that [j] may see. *)
Definition record_shown (hist : list event) (now i j : Z) (rr : mRR) : Prop :=
  let t := Rrtype rr in
  ((t = TypePTR \/ t = TypeSRV \/ t = TypeTXT) /\ name_shown i j (hName rr))
  \/ (norm (hName rr) = enumerateName /\ exists p, hData rr = MPTR p /\ name_shown i j p)
  \/ ((t = TypeA \/ t = TypeAAAA) /\ host_shown hist now i j (norm (hName rr))).

(** A question of [j] that may be put to [i]. *)
Definition question_put (hist : list event) (now i j : Z) (q : Question) : Prop :=
  name_shown i j (qName q) \/ enumeration q = true
  \/ ((qType q = TypeA \/ qType q = TypeAAAA \/ qType q = TypeANY) /\ host_shown hist now i j (norm (qName q))).

(** The pair is a planned one, and what it knows of hosts it heard. *)
Definition justified (hist : list event) (r : relay) : Prop :=
  rFrom r <> rTo r /\ (forall c, allows (rFilter r) c = true <-> path rules c (rFrom r) (rTo r))
  /\ forall h exp, hosts (rFilter r) !! h = Some exp ->
       exists t m srv, (t, rFrom r, m) ∈ hist /\ exp = t + grant_time /\ mResponse m = true /\ srv ∈ records m
       /\ allowedName (rFilter r) (hName srv) = true /\ names_host srv h.

Lemma justified_more hist e r : justified hist r -> justified (hist ++ e) r.
Proof.
  intros (H1 & H2 & H3). split_and!; [done..|]. intros h exp (t & m & srv & Hin & ?)%H3. exists t, m, srv. split; [|done].
  apply elem_of_app. by left.
Qed.

Lemma allows_same f g c : same_classes f g -> allows g c = allows f c.
Proof. intros [E1 E2]. unfold allows. by rewrite E1, E2. Qed.

Lemma grants_justified hist now m r : mResponse m = true -> justified hist r ->
  justified (hist ++ [(now, rFrom r, m)]) (mkRelay (rFrom r) (rTo r) (fold_left (grant_srv now) (records m) (rFilter r))).
Proof.
  intros Hr (H1 & H2 & H3). pose proof (grants_same now (records m) (rFilter r)) as Hs. split_and!; cbn.
  - done.
  - intros c. by rewrite (allows_same (rFilter r)).
  - intros h exp [E|(srv & Hin & -> & Ha & Hn)]%grants_hosts.
    + destruct (H3 h exp E) as (t & m' & srv & Hin & Et & Hm & Hsrv & Ha & Hn). exists t, m', srv. rewrite (same_allowed (rFilter r)) by done.
      split_and!; try done. apply elem_of_app. by left.
    + exists now, m, srv. rewrite (same_allowed (rFilter r)) by done. split_and!; try done. apply elem_of_app. right. left.
Qed.

Lemma heard_justified hist rs : forallb rule_ok rules = true -> heard hist rs -> Forall (justified hist) rs.
Proof.
  intros Hok Hh. induction Hh as [|hist rs now i m _ IH].
  - apply Forall_forall. intros r Hr. split_and!.
    + apply elem_of_planRelays in Hr as (_ & Hne & _). by apply not_eq_sym.
    + intros c. by apply planned_allows.
    + intros h exp E. apply elem_of_planRelays in Hr as (_ & _ & cs & _ & Ef). rewrite Ef in E.
      destruct (newFilter_spec (cs_services cs)) as (_ & _ & Hh). by rewrite Hh in E.
  - rewrite Forall_forall in *. unfold reflect. destruct (mResponse m) eqn:Er; cbn [fst].
    + intros r' Hr'. rewrite map_map in Hr'. apply list_elem_of_In, in_map_iff in Hr' as (r & <- & Hr%list_elem_of_In). specialize (IH r Hr).
      unfold relay_response. destruct (Z.eqb_spec (rFrom r) i) as [<-|]; [|by apply justified_more].
      unfold Responses. cbn. by apply grants_justified.
    + intros r Hr. by apply justified_more, IH.
Qed.

Lemma allowed_shown hist r n : justified hist r -> allowedName (rFilter r) n = true <-> name_shown (rFrom r) (rTo r) n.
Proof.
  intros (_ & Ha & _). unfold allowedName, name_shown. destruct (classOf n) as [c|]; [|naive_solver]. rewrite Ha. naive_solver.
Qed.

Lemma granted_shown hist r now n : justified hist r -> granted now (rFilter r) n = true -> host_shown hist now (rFrom r) (rTo r) (norm n).
Proof.
  intros Hj. unfold granted. destruct (hosts (rFilter r) !! norm n) as [exp|] eqn:E; [|done]. intros Hlt%Z.ltb_lt.
  pose proof Hj as (_ & _ & H3). destruct (H3 _ _ E) as (t & m & srv & Hin & -> & Hm & Hs & Ha & Hn).
  apply (allowed_shown hist r) in Ha as (c & Hc & Hp); [|done]. by exists t, m, srv, c.
Qed.

Lemma enumerable_shown hist r rr : justified hist r -> enumerable (rFilter r) rr = true <->
  norm (hName rr) = enumerateName /\ exists p, hData rr = MPTR p /\ name_shown (rFrom r) (rTo r) p.
Proof.
  intros Hj. unfold enumerable, Rrtype. destruct (hData rr) as [| |p| | |] eqn:Ed; rewrite ?andb_false_r; cbn;
    try (split; [done|naive_solver]). rewrite andb_true_iff, String.eqb_eq, (allowed_shown hist r) by done. naive_solver.
Qed.

Lemma keep_shown hist r now rr : justified hist r -> keep now (rFilter r) rr = true -> record_shown hist now (rFrom r) (rTo r) rr.
Proof.
  intros Hj. unfold keep, record_shown. destruct (Z.eqb_spec (Rrtype rr) TypePTR) as [E|_].
  - rewrite orb_true_iff, (allowed_shown hist r), (enumerable_shown hist r) by done. naive_solver.
  - destruct ((Rrtype rr =? TypeSRV) || (Rrtype rr =? TypeTXT)) eqn:E1.
    + rewrite (allowed_shown hist r) by done. bool_hyps. apply orb_prop in E1 as [E1%Z.eqb_eq|E1%Z.eqb_eq]; naive_solver.
    + destruct ((Rrtype rr =? TypeA) || (Rrtype rr =? TypeAAAA)) eqn:E2; [|done]. intros Hg%(granted_shown hist r); [|done].
      apply orb_prop in E2 as [E2%Z.eqb_eq|E2%Z.eqb_eq]; naive_solver.
Qed.

Lemma asked_put hist r now q : justified hist r -> asked now (rFilter r) q = true -> question_put hist now (rFrom r) (rTo r) q.
Proof.
  intros Hj. unfold asked, question_put. rewrite !orb_true_iff, (allowed_shown hist r), andb_true_iff, !orb_true_iff, !Z.eqb_eq by done.
  intros [[?|?]|[Ht Hg]]; [by left|auto|]. right. right. split; [tauto|]. by apply (granted_shown hist r).
Qed.

(** C23: The relay leaks nothing.  Whatever has been heard so far, every packet it sends on was
    heard on another interface, and: a record passes from [i] to [j] only if it was in the packet
    and is a pointer, service or text record of a class that a path of rules carries from [i] to
    [j], or an entry of the service enumeration naming such a class, or the address of a host that
    a service of such a class named on [i] within the last two minutes; a question heard on [j] is
    put to [i] only if it asks for such a name or host, or for the enumeration, and the known
    answers that go with it are of such classes. *)
Theorem relay_no_leak hist rs now i m rs' sent j out :
  forallb rule_ok rules = true -> heard hist rs -> reflect now m i rs = (rs', sent) -> (j, out) ∈ sent ->
  j <> i /\ mResponse out = mResponse m
  /\ if mResponse m then
       forall rr, (rr ∈ mAnswer out -> rr ∈ mAnswer m) /\ (rr ∈ mExtra out -> rr ∈ mExtra m)
         /\ (rr ∈ records out -> record_shown (hist ++ [(now, i, m)]) now i j rr)
     else
       (forall q, q ∈ mQuestion out -> q ∈ mQuestion m /\ question_put hist now j i q)
       /\ (forall rr, rr ∈ records out -> rr ∈ mAnswer m
             /\ (name_shown j i (hName rr) \/ (norm (hName rr) = enumerateName /\ exists p, hData rr = MPTR p /\ name_shown j i p))).
Proof.
  intros Hok Hh. pose proof (heard_justified hist rs Hok Hh) as HJ. rewrite Forall_forall in HJ. unfold reflect.
  assert (Hf : forall {A} (p : A -> bool) l x, x ∈ List.filter p l <-> x ∈ l /\ p x = true)
    by (intros; by rewrite list_elem_of_In, filter_In, <-list_elem_of_In).
  destruct (mResponse m) eqn:Er; intros [= <- <-] Hin; apply list_elem_of_In, in_flat_map in Hin as (x & Hx & Hin).
  - apply in_map_iff in Hx as (r & <- & Hr%list_elem_of_In). specialize (HJ r Hr). unfold relay_response in Hin.
    destruct (Z.eqb_spec (rFrom r) i) as [<-|]; [|done]. pose proof (grants_justified hist now m r Er HJ) as Hg. unfold Responses in Hin. cbn in Hin.
    destruct (_ ++ _) as [|x xs] eqn:Ea in Hin; [done|]. destruct Hin as [[= <- <-]|[]]. clear Ea. cbn. split; [apply not_eq_sym, HJ|].
    split; [done|]. intros rr. unfold records. cbn. rewrite elem_of_app, !Hf. split_and!; [by intros [? _]..|].
    intros [[_ Hk]|[_ Hk]]; by apply (keep_shown _ _ _ _ Hg).
  - apply list_elem_of_In in Hx. specialize (HJ x Hx). unfold relay_query in Hin. destruct (Z.eqb_spec (rTo x) i) as [<-|]; [|done].
    unfold Queries in Hin. destruct (List.filter _ (mQuestion m)) as [|q0 qs] eqn:Eq; [done|]. destruct Hin as [[= <- <-]|[]]. cbn.
    split; [apply HJ|]. split; [done|]. split.
    + intros q Hq. rewrite <-Eq, Hf in Hq. destruct Hq as [? Hq]. split; [done|]. by apply (asked_put hist x).
    + intros rr. unfold records. cbn. rewrite app_nil_r, Hf, orb_true_iff, (allowed_shown hist x), (enumerable_shown hist x) by done. done.
Qed.

(** * Nothing permitted is lost *)

Lemma heard_pairs hist rs : heard hist rs -> map (fun r => (rFrom r, rTo r)) rs = map (fun r => (rFrom r, rTo r)) (planRelays rules).
Proof.
  intros Hh. induction Hh as [|hist rs now i m _ IH]; [done|]. rewrite <-IH. unfold reflect. destruct (mResponse m); [|done]. cbn [fst].
  rewrite !map_map. apply map_ext. intros r. unfold relay_response. by destruct (rFrom r =? i).
Qed.

Lemma heard_pair hist rs c i j : forallb rule_ok rules = true -> heard hist rs -> i <> j -> path rules c i j ->
  exists r, r ∈ rs /\ rFrom r = i /\ rTo r = j /\ justified hist r.
Proof.
  intros Hok Hh Hne Hp. pose proof Hp as (cs & Hr & _)%(reach_exact rules Hok).
  assert (Hin : mkRelay i j (newFilter (cs_services cs)) ∈ planRelays rules).
  { apply elem_of_planRelays. cbn. split_and!; [by eapply path_source|done|eauto]. }
  assert (H2 : (i, j) ∈ map (fun r => (rFrom r, rTo r)) rs).
  { rewrite (heard_pairs hist rs Hh). apply list_elem_of_In, in_map_iff. eexists. split; [|by apply list_elem_of_In]. done. }
  apply list_elem_of_In, in_map_iff in H2 as (r & [= <- <-] & Hr2%list_elem_of_In). exists r. split_and!; try done.
  pose proof (heard_justified hist rs Hok Hh) as HJ. rewrite Forall_forall in HJ. by apply HJ.
Qed.

(** A record that has to pass from [i] to [j], given the pair's known hosts. *)
Definition due_record (rs : list relay) (m : mMsg) (i j : Z) (rr : mRR) : Prop :=
  let t := Rrtype rr in
  ((t = TypePTR \/ t = TypeSRV \/ t = TypeTXT) /\ name_shown i j (hName rr))
  \/ (norm (hName rr) = enumerateName /\ exists p, hData rr = MPTR p /\ name_shown i j p)
  \/ ((t = TypeA \/ t = TypeAAAA)
      /\ (exists srv, srv ∈ records m /\ name_shown i j (hName srv) /\ names_host srv (norm (hName rr)))
      /\ forall r, r ∈ rs -> rFrom r = i -> rTo r = j -> (size (hosts (rFilter r)) + length (records m) <= host_limit)%nat).

Lemma due_path rs m i j rr : due_record rs m i j rr -> exists c, path rules c i j.
Proof. unfold due_record, name_shown. naive_solver. Qed.

Lemma due_kept hist rs now m rr r : r ∈ rs -> justified hist r -> mResponse m = true -> due_record rs m (rFrom r) (rTo r) rr ->
  keep now (fold_left (grant_srv now) (records m) (rFilter r)) rr = true.
Proof.
  intros Hr Hj Hm Hd. pose proof (grants_justified hist now m r Hm Hj) as Hg.
  pose proof (fun n => allowed_shown _ _ n Hg) as Ha. pose proof (enumerable_shown _ _ rr Hg) as He. cbn in Ha, He. unfold keep.
  destruct Hd as [[[-> | [-> | -> ]] Hn%Ha]|[(En & p & Ed & Hn)|[Ht [(srv & Hs & Hc & Hnm) Hroom]]]].
  - by rewrite Hn.
  - by rewrite Hn.
  - by rewrite Hn.
  - assert (Rrtype rr = TypePTR) as -> by (unfold Rrtype; by rewrite Ed). cbn. apply orb_true_iff. right. apply He. eauto.
  - assert (granted now (fold_left (grant_srv now) (records m) (rFilter r)) (hName rr) = true) as Hgr.
    { unfold granted. rewrite (grants_named now (records m) (rFilter r) srv); [|done| |done|by apply Hroom].
      - unfold grant_time, second. lia.
      - by apply (allowed_shown hist r). }
    destruct Ht as [->| ->]; by rewrite Hgr.
Qed.

(** The relay delivers.  Every record heard on [i] that a path of rules carries to [j] reaches
    [j], whichever else the packet holds: pointer, service and text records of a permitted class,
    entries of the enumeration that name one, and the addresses of the hosts that such a service
    record of the same packet names, while the pair knows of fewer than 4096 hosts; and every
    question heard on [j] for a permitted class, and the service enumeration, is put to [i]. *)
Theorem relay_delivers hist rs now m i j rs' sent :
  forallb rule_ok rules = true -> heard hist rs -> i <> j -> reflect now m (if mResponse m then i else j) rs = (rs', sent) ->
  if mResponse m then
    forall rr, rr ∈ records m -> due_record rs m i j rr -> exists out, (j, out) ∈ sent /\ rr ∈ records out
  else
    forall q, q ∈ mQuestion m -> name_shown i j (qName q) \/ (enumeration q = true /\ exists c, path rules c i j) ->
      exists out, (i, out) ∈ sent /\ q ∈ mQuestion out.
Proof.
  intros Hok Hh Hne. unfold reflect.
  assert (Hf : forall {A} (p : A -> bool) l x, x ∈ List.filter p l <-> x ∈ l /\ p x = true)
    by (intros; by rewrite list_elem_of_In, filter_In, <-list_elem_of_In).
  destruct (mResponse m) eqn:Em; intros [= <- <-].
  - intros rr Hrr Hd. destruct (due_path _ _ _ _ _ Hd) as [c Hp]. destruct (heard_pair hist rs c i j Hok Hh Hne Hp) as (r & Hr & <- & <- & Hj).
    pose proof (due_kept hist rs now m rr r Hr Hj Em Hd) as Hk. set (f := fold_left _ _ _) in Hk.
    assert (Hk2 : rr ∈ List.filter (keep now f) (mAnswer m) ++ List.filter (keep now f) (mExtra m)).
    { unfold records in Hrr. rewrite elem_of_app, !Hf. apply elem_of_app in Hrr. tauto. }
    exists (mkMMsg 0 true true 0 [] (List.filter (keep now f) (mAnswer m)) (List.filter (keep now f) (mExtra m))). split; [|done].
    apply list_elem_of_In, in_flat_map. exists (relay_response now m (rFrom r) r). split; [by apply in_map, list_elem_of_In|].
    unfold relay_response. rewrite Z.eqb_refl. unfold Responses. cbn [snd fst]. fold f.
    destruct (_ ++ _) in Hk2 |- *; [by apply elem_of_nil in Hk2|by left].
  - intros q Hq Hn. assert (exists c, path rules c i j) as [c Hp] by (destruct Hn as [(c & _ & ?)|[_ ?]]; eauto).
    destruct (heard_pair hist rs c i j Hok Hh Hne Hp) as (r & Hr & <- & <- & Hj).
    assert (Hqs : q ∈ List.filter (asked now (rFilter r)) (mQuestion m)).
    { rewrite Hf. split; [done|]. unfold asked. destruct Hn as [Hn|[-> _]]; [|by rewrite orb_true_r].
      apply (allowed_shown hist r) in Hn; [|done]. by rewrite Hn. }
    unfold relay_query, Queries. destruct (List.filter (asked now (rFilter r)) (mQuestion m)) as [|q0 qs] eqn:Ef; [by apply elem_of_nil in Hqs|].
    eexists (mkMMsg (mId m) false false 0 (q0 :: qs) _ []). split; [|exact Hqs]. apply list_elem_of_In, in_flat_map. exists r.
    split; [by apply list_elem_of_In|]. rewrite Z.eqb_refl, Ef. by left.
Qed.
End Run.
