(* ===== verification/Advertise.v ===== *)
(** What ghostd advertises (internal/mdns/advertise.go): the configuration and its validation,
    the records of an interface, the answer to a query and the conflicts of a probe.

    The text the DNS library prints of a record, by which answers are told apart, is the
    parameter [rr_text]. *)

From S2P Require Import Prelude NetAddr Dns Mdns Reflect.
From S2P Require Import NetExec.
From Stdlib Require Import Ascii.
Local Open Scope Z_scope.

Record mRecord := mkRecord { Service : string; Instance_ : string; Port : Z; TXT : list string; Subtypes : list string; rHost : string }.
Record mConfig := mkMConfig { Interfaces : list string; Host : string; Records : list mRecord; Reflect : list ReflectRule }.

Definition Empty (c : mConfig) : bool := match Records c, Reflect c with [], [] => true | _, _ => false end.

(** * path.Match *)

(** getEsc: one character of a class, and the rest. *)
Definition getEsc (chunk : list ascii) : option (ascii * list ascii) :=
  match chunk with
  | [] => None
  | c :: l =>
    if Ascii.eqb c "-" || Ascii.eqb c "]" then None
    else let '(c', l') := if Ascii.eqb c backslash then match l with [] => (None, []) | d :: l2 => (Some d, l2) end else (Some c, l) in
         match c', l' with Some x, _ :: _ => Some (x, l') | _, _ => None end
  end.

(** The ranges of a class up to its closing bracket: whether [r] is in one, and the rest. *)
Fixpoint ranges (fuel : nat) (r : option ascii) (n : nat) (chunk : list ascii) (hit : bool) : option (bool * list ascii) :=
  match fuel with
  | O => None
  | S fuel' =>
    match chunk, n with
    | "]"%char :: l, S _ => Some (hit, l)
    | _, _ =>
      '(lo, l1) ← getEsc chunk;
      '(hi, l2) ← match l1 with "-"%char :: l => getEsc l | _ => Some (lo, l1) end;
      let inside := match r with Some x => (byte_of lo <=? byte_of x) && (byte_of x <=? byte_of hi) | None => false end in
      ranges fuel' r (S n) l2 (hit || inside)
    end
  end.

(** matchChunk: [None] for a bad pattern; [Some None] when it does not match; else the rest of the
    name.  [s] is [None] once the match has failed. *)
Fixpoint matchChunk (fuel : nat) (chunk : list ascii) (s : option (list ascii)) : option (option (list ascii)) :=
  match fuel with
  | O => None
  | S fuel' =>
    match chunk with
    | [] => Some s
    | c :: l =>
      let s := match s with Some [] => None | _ => s end in
      if Ascii.eqb c "[" then
        let r := match s with Some (x :: _) => Some x | _ => None end in
        let '(negated, l1) := match l with "^"%char :: l' => (true, l') | _ => (false, l) end in
        '(hit, l2) ← ranges (S (length l1)) r 0 l1 false;
        matchChunk fuel' l2 (if Bool.eqb hit negated then None else match s with Some (_ :: t) => Some t | _ => None end)
      else if Ascii.eqb c "?" then
        matchChunk fuel' l (match s with Some (x :: t) => if Ascii.eqb x "/" then None else Some t | _ => None end)
      else
        match (if Ascii.eqb c backslash then match l with [] => None | d :: l' => Some (d, l') end else Some (c, l)) with
        | None => None
        | Some (d, l') => matchChunk fuel' l' (match s with Some (x :: t) => if Ascii.eqb d x then Some t else None | _ => None end)
        end
    end
  end.
Definition match_chunk (chunk s : list ascii) : option (option (list ascii)) := matchChunk (S (length chunk)) chunk (Some s).

(** scanChunk: the chunk up to the next star outside a class, and the rest. *)
Fixpoint scan_chunk (inrange : bool) (pattern : list ascii) : list ascii * list ascii :=
  match pattern with
  | [] => ([], [])
  | c :: l =>
    if Ascii.eqb c backslash then
      match l with
      | [] => ([c], [])
      | d :: l' => let '(a, b) := scan_chunk inrange l' in (c :: d :: a, b)
      end
    else if Ascii.eqb c "*" && negb inrange then ([], pattern)
    else let '(a, b) := scan_chunk (if Ascii.eqb c "[" then true else if Ascii.eqb c "]" then false else inrange) l in (c :: a, b)
  end.
Fixpoint drop_stars (pattern : list ascii) : bool * list ascii :=
  match pattern with
  | c :: l => if Ascii.eqb c "*" then (true, snd (drop_stars l)) else (false, pattern)
  | [] => (false, [])
  end.

(** A star: the chunk at the first place it matches, skipping bytes but no slash. *)
Fixpoint skip_match (chunk name : list ascii) (last : bool) : option (option (list ascii)) :=
  match name with
  | [] => Some None
  | x :: t =>
    if Ascii.eqb x "/" then Some None
    else match match_chunk chunk t with
         | None => None
         | Some (Some rest) => if last && match rest with [] => false | _ => true end then skip_match chunk t last else Some (Some rest)
         | Some None => skip_match chunk t last
         end
  end.

(** The rest of the pattern is well formed. *)
Fixpoint check_rest (fuel : nat) (pattern : list ascii) : bool :=
  match fuel, pattern with
  | S fuel', _ :: _ =>
    let '(chunk, rest) := scan_chunk false (snd (drop_stars pattern)) in
    match match_chunk chunk [] with None => false | Some _ => check_rest fuel' rest end
  | _, _ => true
  end.

Fixpoint match_loop (fuel : nat) (pattern name : list ascii) : option bool :=
  match fuel, pattern with
  | S fuel', _ :: _ =>
    let '(star, p) := drop_stars pattern in
    let '(chunk, rest) := scan_chunk false p in
    let last := match rest with [] => true | _ => false end in
    let no_match := if check_rest (length rest) rest then Some false else None in
    if star && match chunk with [] => true | _ => false end then Some (negb (existsb (Ascii.eqb "/") name))
    else match match_chunk chunk name with
         | None => None
         | Some here =>
           if match here with Some [] => true | Some _ => negb last | None => false end
           then match_loop fuel' rest (default [] here)
           else if star then
             match skip_match chunk name last with
             | None => None
             | Some (Some t) => match_loop fuel' rest t
             | Some None => no_match
             end
           else no_match
         end
  | _, _ => Some (match name with [] => true | _ => false end)
  end.

(** path.Match on bytes: [None] is ErrBadPattern. *)
Definition Match (pattern name : string) : option bool :=
  match_loop (S (String.length pattern)) (string_chars pattern) (string_chars name).

(** * Validation *)

Definition is_pattern (s : string) : bool := contains_char "*" s || contains_char "?" s || contains_char "[" s.
Definition bad_interface (s : string) : bool :=
  is_empty s || (15 <? String.length s)%nat || contains_char " " s || contains_char "/" s.

(** strings.Cut on a dash, and the pool of ports. *)
Definition portRange (ports : string) : option (Z * Z) :=
  if contains_char "-" ports then
    let a := before_char "-" ports in
    let b := String.substring (S (String.length a)) (String.length ports) ports in
    lo ← Atoi a; hi ← Atoi b;
    if (lo <? 1024) || (65535 <? hi) || (hi <? lo) || (4095 <? hi - lo) then None else Some (lo, hi)
  else None.

Definition validate_nat (n : NATConfig) : result string unit :=
  fail_if (match Services n with [] => true | l => (32 <? length l)%nat end) "nat needs 1..32 services";;
  for_each (fun s => check (serviceRE s) "nat: not a service class") (Services n);;
  check (match portRange (Ports n) with Some _ => true | None => false end) "ports".

(** What earlier rules claimed: the directions, and the port range of each target. *)
Record reflect_seen := mkSeen { seen_pairs : gset (string * string); seen_pools : gmap string string }.

Definition validate_endpoint (n : string) : result string unit :=
  fail_if (bad_interface n) "bad reflect interface";;
  fail_if (is_pattern n && match Match n EmptyString with None => true | Some _ => false end) "bad reflect interface pattern".

Definition validate_rule (st : reflect_seen) (r : ReflectRule) : result string reflect_seen :=
  validate_endpoint (From r);;
  validate_endpoint (To r);;
  fail_if (From r =?s To r) "exports a domain to itself";;
  fail_if (bool_decide ((From r, To r) ∈ seen_pairs st)) "two reflect rules";;
  let pairs := {[(From r, To r)]} ∪ seen_pairs st in
  let relays := match AllowServices r with [] => false | _ => true end in
  fail_if (Bool.eqb (negb relays) (match Advertise r with None => true | Some _ => false end)) "needs exactly one of allow_services and advertise";;
  fail_if (32 <? length (AllowServices r))%nat "more than 32 allow_services";;
  for_each (fun s => check ((s =?s "*") || serviceRE s) "not a service class") (AllowServices r);;
  fail_if (mem_str "*" (AllowServices r) && (1 <? length (AllowServices r))%nat) "wildcard beside other classes";;
  match Advertise r with
  | None => Ok (mkSeen pairs (seen_pools st))
  | Some n =>
    validate_nat n;;
    fail_if (match seen_pools st !! To r with Some prev => negb (prev =?s Ports n) | None => false end) "one interface's pool has one range";;
    Ok (mkSeen pairs (<[To r := Ports n]> (seen_pools st)))
  end.
Definition validateReflect (c : mConfig) : result string unit :=
  fail_if (32 <? length (Reflect c))%nat "at most 32 reflect rules";;
  _ ← fold_m validate_rule (mkSeen ∅ ∅) (Reflect c); Ok tt.

Definition validate_interface (i : string) : result string unit :=
  fail_if (bad_interface i) "bad interface";;
  fail_if (is_pattern i) "advertised interface must be named".

Definition portless (service : string) : bool := (service =?s "_adisk._tcp") || (service =?s "_device-info._tcp").

Section Advertise.
Context `{CaseFold}.

Definition validate_record (seen : gset string) (r : mRecord) : result string (gset string) :=
  check (serviceRE (Service r)) "not a service";;
  fail_if (is_empty (Instance_ r) || (63 <? String.length (Instance_ r))%nat
           || contains_char "000" (Instance_ r) || contains_char "013" (Instance_ r) || contains_char "010" (Instance_ r)
           || contains_char "." (Instance_ r)) "instance name";;
  fail_if (negb (is_empty (rHost r)) && negb (hostRE (rHost r))) "host must be one lower-case DNS label";;
  fail_if ((Port r =? 0) && negb (portless (Service r))) "needs a port";;
  let key := ToLower (Instance_ r +++ "." +++ Service r) in
  fail_if (bool_decide (key ∈ seen)) "duplicate";;
  for_each (fun t => fail_if (255 <? String.length t)%nat "TXT string over 255 bytes") (TXT r);;
  fail_if (1300 <? fold_left (fun n t => (n + String.length t + 1)%nat) (TXT r) 0%nat)%nat "TXT record too large";;
  for_each (fun s => check (subtypeRE s) "bad subtype") (Subtypes r);;
  Ok ({[key]} ∪ seen).

Definition Validate (c : mConfig) : result string unit :=
  if Empty c then Ok tt
  else validateReflect c;;
       match Records c with
       | [] => Ok tt
       | _ =>
         fail_if (match Interfaces c with [] => true | l => (16 <? length l)%nat end) "name 1..16 interfaces";;
         for_each validate_interface (Interfaces c);;
         check (hostRE (Host c)) "host must be one lower-case DNS label";;
         fail_if (64 <? length (Records c))%nat "at most 64 records";;
         _ ← fold_m validate_record ∅ (Records c); Ok tt
       end.

(** * The records *)

Definition ttlHost : Z := 120.
Definition ttlService : Z := 4500.
Definition cacheFlush : Z := 32768.

(** An answerer: the configuration and the addresses of each interface ([None] when they cannot
    be read). *)
Record answerer := mkAnswerer { aCfg : mConfig; addrs : string -> option (list Prefix) }.

Definition hostName (a : answerer) : string := fq [Host (aCfg a); "local"].
Definition hostFor (a : answerer) (r : mRecord) : string := if is_empty (rHost r) then hostName a else fq [rHost r; "local"].
Definition hostNames (a : answerer) : list string := sort_strings (remove_dups (map (hostFor a) (Records (aCfg a)))).
Definition hostForName (a : answerer) (name : string) : option string := find (fun host => norm host =?s name) (hostNames a).
Definition instanceName (r : mRecord) : string := fq [Instance_ r; Service r; "local"].

Definition hostRecord (host : string) (p : Prefix) : mRR :=
  mkMRR host (Z.lor ClassINET cacheFlush) ttlHost
    (match PAddr p with Addr4 n => MA n | Addr6 n _ => MAAAA n end).
Definition hostRecords (a : answerer) (iface host : string) : list mRR :=
  match addrs a iface with Some ips => map (hostRecord host) ips | None => [] end.

Definition srv_record (a : answerer) (r : mRecord) : mRR :=
  mkMRR (instanceName r) (Z.lor ClassINET cacheFlush) ttlHost (MSRV (Port r) (hostFor a r)).
Definition txt_record (r : mRecord) : mRR :=
  mkMRR (instanceName r) (Z.lor ClassINET cacheFlush) ttlService (MTXT (match TXT r with [] => [EmptyString] | l => l end)).
Definition ptr_record (owner : string) (r : mRecord) : mRR := mkMRR owner ClassINET ttlService (MPTR (instanceName r)).
Definition owners (r : mRecord) : list string :=
  fq [Service r; "local"] :: map (fun sub => fq [sub; "_sub"; Service r; "local"]) (Subtypes r).
Definition enumeration_record (service : string) : mRR := mkMRR enumerateName ClassINET ttlService (MPTR (fq [service; "local"])).

(** Every record of an interface; the classes are enumerated in the order of a map, here that of
    their first use. *)
Definition all_records (a : answerer) (iface : string) : list mRR :=
  flat_map (fun r => map (fun owner => ptr_record owner r) (owners r) ++ [srv_record a r; txt_record r]) (Records (aCfg a))
  ++ map enumeration_record (remove_dups (map Service (Records (aCfg a))))
  ++ flat_map (hostRecords a iface) (hostNames a).
Definition announcement (a : answerer) (iface : string) (ttl : Z) : list mRR :=
  if ttl =? ttlService then all_records a iface else map (set_ttl ttl) (all_records a iface).

(** * Answers *)

Section Answer.
Context (rr_text : mRR -> string).

(** The reply under construction: what it holds already, its answers and additionals. *)
Record building := mkBuilding { have : gset string; bAnswer : list mRR; bExtra : list mRR }.
Definition add_answer (rr : mRR) (b : building) : building :=
  let key := ToLower (rr_text rr) in
  if bool_decide (key ∈ have b) then b else mkBuilding ({[key]} ∪ have b) (bAnswer b ++ [rr]) (bExtra b).
Definition add_extra (rr : mRR) (b : building) : building :=
  let key := ToLower (rr_text rr) in
  if bool_decide (key ∈ have b) then b else mkBuilding ({[key]} ∪ have b) (bAnswer b) (bExtra b ++ [rr]).
Definition add_each (add : mRR -> building -> building) (rrs : list mRR) (b : building) : building :=
  fold_left (fun b rr => add rr b) rrs b.

(** The known answers of a query, by text and, for pointers, by owner and target. *)
Definition add_known (known : gmap string bool) (k : mRR) : gmap string bool :=
  if ttlService / 2 <=? hTtl k then
    let known := <[ToLower (rr_text k) := false]> known in
    match hData k with MPTR p => <[norm (hName k) +++ "|" +++ norm p := true]> known | _ => known end
  else known.
Definition known_answer (m : mMsg) (owner target : string) : bool :=
  default false (fold_left add_known (mAnswer m) ∅ !! (owner +++ "|" +++ target)).

Definition wants (q : Question) (t : Z) : bool := (qType q =? t) || (qType q =? TypeANY).

(** What one instance adds for a question. *)
Definition answer_owner (a : answerer) (iface : string) (m : mMsg) (q : Question) (r : mRecord) (b : building) (owner : string) : building :=
  if (norm owner =?s norm (qName q)) && wants q TypePTR && negb (known_answer m (norm owner) (norm (instanceName r))) then
    add_each add_extra (hostRecords a iface (hostFor a r))
      (add_extra (txt_record r) (add_extra (srv_record a r) (add_answer (ptr_record owner r) b)))
  else b.
Definition answer_instance (a : answerer) (iface : string) (m : mMsg) (q : Question) (b : building) (r : mRecord) : building :=
  let b1 := fold_left (answer_owner a iface m q r) (owners r) b in
  if norm (instanceName r) =?s norm (qName q) then
    let b2 := if wants q TypeSRV then add_each add_extra (hostRecords a iface (hostFor a r)) (add_answer (srv_record a r) b1) else b1 in
    if wants q TypeTXT then add_answer (txt_record r) b2 else b2
  else b1.

Definition answer_question (a : answerer) (iface : string) (m : mMsg) (b : building) (q : Question) : building :=
  let name := norm (qName q) in
  if (name =?s enumerateName) && wants q TypePTR then
    add_each add_answer (List.filter (fun rr => match hData rr with MPTR _ => norm (hName rr) =?s name | _ => false end) (all_records a iface)) b
  else match (if wants q TypeA || wants q TypeAAAA then hostForName a name else None) with
       | Some host => add_each add_answer (List.filter (fun rr => wants q (Rrtype rr)) (hostRecords a iface host)) b
       | None => fold_left (answer_instance a iface m q) (Records (aCfg a)) b
       end.

Definition Answer (a : answerer) (m : mMsg) (iface : string) : option mMsg :=
  if mResponse m || negb (mOpcode m =? 0) then None
  else let b := fold_left (answer_question a iface m) (mQuestion m) (mkBuilding ∅ [] []) in
       match bAnswer b with
       | [] => None
       | _ => Some (mkMMsg 0 true true 0 [] (bAnswer b) (bExtra b))
       end.
End Answer.

(** The name another host already claims. *)
Definition conflicts (a : answerer) (resp : mMsg) : string :=
  if negb (mResponse resp) then EmptyString
  else let mine := map norm (hostNames a) ++ map (fun r => norm (instanceName r)) (Records (aCfg a)) in
       match find (fun rr => mem_str (norm (hName rr)) mine
                             && existsb (Z.eqb (Rrtype rr)) [TypeSRV; TypeTXT; TypeA; TypeAAAA]) (records resp) with
       | Some rr => hName rr
       | None => EmptyString
       end.
End Advertise.
