(* ===== verification/AdvertiseInv.v ===== *)
(** The answers to a query are exactly the advertised records it asks for. *)

From S2P Require Import Prelude NetAddr AddrText LedgerInv KeyText Dns DnsInv Mdns Reflect ReflectInv Advertise.
From Stdlib Require Import Ascii.
Local Open Scope Z_scope.

(** * Names under a protocol *)

Lemma unescape_plain l : forallb (fun c => negb (Ascii.eqb c backslash)) l = true -> unescape l = l.
Proof.
  induction l as [|c l IH]; [done|]. cbn [forallb]. intros [Hc Hl]%andb_prop. cbn [unescape].
  destruct (Ascii.eqb c backslash); [done|]. by rewrite IH.
Qed.


Lemma unescape_tail_len n x rest : (length x <= n)%nat -> forallb (fun c => negb (Ascii.eqb c backslash)) rest = true ->
  exists y, unescape (x ++ "."%char :: rest) = y ++ "."%char :: rest.
Proof.
  intros Hn Hr. revert x Hn. induction n as [|n IH]; intros x Hn.
  { destruct x; [|cbn in Hn; lia]. exists []. cbn [app]. apply unescape_plain. done. }
  destruct x as [|c x]; [exists []; by apply unescape_plain|]. cbn [length app] in *. cbn [unescape].
  destruct (Ascii.eqb c backslash).
  - destruct x as [|d1 x]; cbn [app].
    { exists []. destruct rest as [|d2 [|d3 rest]]; cbn [app]; f_equal; by apply unescape_plain. }
    assert (Hstep : exists y, d1 :: unescape (x ++ "."%char :: rest) = y ++ "."%char :: rest).
    { destruct (IH x) as [y ->]; [cbn in Hn; lia|]. by exists (d1 :: y). }
    destruct x as [|d2 [|d3 x]]; cbn [app] in *.
    + destruct rest as [|d3 rest]; [done|]. replace (is_digit "."%char) with false by done. rewrite !andb_false_r. cbn [andb]. exact Hstep.
    + replace (is_digit "."%char) with false by done. rewrite andb_false_r. cbn [andb]. exact Hstep.
    + match goal with |- context [if ?b then _ else _] => destruct b end; [|exact Hstep].
      destruct (IH x) as [y ->]; [cbn in Hn; lia|]. by eexists (_ :: y).
  - destruct (IH x) as [y ->]; [lia|]. by exists (c :: y).
Qed.

Lemma class_unescaped s : str_forallb class_char s = true -> forallb (fun c => negb (Ascii.eqb c backslash)) (string_chars s) = true.
Proof.
  unfold str_forallb. intros Hs. apply forallb_forall. intros c Hc. rewrite forallb_forall in Hs. specialize (Hs c Hc).
  by destruct c as [[] [] [] [] [] [] [] []].
Qed.

Section Names.
Context `{CaseFold}.

Lemma norm_settled s : str_forallb class_char s = true -> norm s = s.
Proof.
  intros Hs. unfold norm. rewrite unescape_plain; [rewrite of_chars_string; by apply lower_same|]. by apply class_unescaped.
Qed.

(** Whatever comes before it, what follows a dot is kept. *)
Lemma norm_tail x rest : str_forallb class_char rest = true -> exists y, norm (x +++ "." +++ rest) = y +++ "." +++ rest.
Proof.
  intros Hr. unfold norm. rewrite chars_app. cbn [string_chars String.append].
  destruct (unescape_tail_len (length (string_chars x)) (string_chars x) (string_chars rest)) as [y Ey]; [done|by apply class_unescaped|].
    exists (ToLower (string_of_chars y)). rewrite Ey, of_chars_app. cbn [string_of_chars]. rewrite of_chars_string.
    change (String "." rest) with ("." +++ rest). destruct (class_ascii ("." +++ rest)) as [Ha Hl]; [done|].
    rewrite ToLower_app by done. by rewrite Hl.
Qed.

Definition protocol (p : string) : Prop := p = "_tcp" \/ p = "_udp".

Lemma split_two s a b : split_char "." s = [a; b] -> s = a +++ "." +++ b.
Proof.
  revert a b. induction s as [|c s IH]; intros a b; [done|]. cbn. destruct (Ascii.eqb_spec c ".") as [->|Hc].
  - intros [= <- E]. cbn. f_equal. destruct s as [|c' s]; cbn in *; [congruence|]. clear -E.
    destruct (Ascii.eqb c' "."); [by destruct s; cbn in E; repeat case_match|]. destruct (split_char "." s) as [|x xs] eqn:Es.
    + by destruct s; cbn in Es; repeat case_match.
    + injection E as <- ->. f_equal. revert x Es. induction s as [|d s IHs]; intros x; cbn; [by intros [= <-]|].
      destruct (Ascii.eqb d "."); [by destruct s; cbn; repeat case_match|]. destruct (split_char "." s) as [|y ys] eqn:Ey.
      * by destruct s; cbn in Ey; repeat case_match.
      * intros [= <- ->]. f_equal. by apply IHs.
  - destruct (split_char "." s) as [|x xs] eqn:Es; [by destruct s; cbn in Es; repeat case_match|].
    intros [= <- ->]. cbn. f_equal. by apply IH.
Qed.

Lemma service_shape s : serviceRE s = true -> exists t p, s = t +++ "." +++ p /\ protocol p.
Proof.
  unfold serviceRE. destruct (split_char "." s) as [|t [|p [|]]] eqn:E; try done. intros Hs. bool_hyps.
  exists t, p. split; [by apply split_two|]. unfold protocol.
  match goal with E : (p =?s _) || _ = true |- _ => apply orb_prop in E as [E%String.eqb_eq|E%String.eqb_eq] end; auto.
Qed.

(** A name under a service ends with its protocol, however it is spelled. *)
Lemma norm_service x s : serviceRE s = true -> exists y p, norm (x +++ s +++ ".local.") = y +++ "." +++ p +++ ".local." /\ protocol p.
Proof.
  intros (t & p & -> & Hp)%service_shape. destruct (norm_tail (x +++ t) (p +++ ".local.")) as [y Ey].
  - by destruct Hp as [->| ->].
  - exists y, p. split; [|done]. rewrite <-Ey. f_equal. by rewrite !append_assoc.
Qed.

Lemma host_chars h : hostRE h = true -> str_forallb lower_alnum_dash h = true.
Proof.
  unfold hostRE, str_forallb. destruct (string_chars h) as [|c l]; [done|]. intros Hh. bool_hyps. cbn. unfold lower_alnum_dash at 1.
  match goal with E : lower_alnum c = true |- _ => rewrite E end. done.
Qed.

Lemma host_class h : hostRE h = true -> str_forallb class_char (h +++ ".local.") = true.
Proof.
  intros Hh%host_chars. unfold str_forallb in *. rewrite chars_app, forallb_app. apply andb_true_iff. split; [|done].
  apply forallb_forall. intros c Hc. rewrite forallb_forall in Hh. unfold class_char. by rewrite (Hh c Hc).
Qed.

(** No host is named like a service. *)
Lemma host_not_service h y p : hostRE h = true -> protocol p -> h +++ ".local." <> y +++ "." +++ p +++ ".local.".
Proof.
  intros Hh%host_chars Hp E. assert (Eh : h = y +++ "." +++ p).
  { apply (append_inj_r _ _ ".local."). rewrite E. by rewrite !append_assoc. }
  rewrite Eh in Hh. unfold str_forallb in Hh. rewrite chars_app, forallb_app in Hh. apply andb_prop in Hh as [_ Hh].
  destruct Hp as [->| ->]; cbn in Hh; done.
Qed.
End Names.

(** * Replies *)

Section Reply.
Context `{CaseFold} (rr_text : mRR -> string) (a : answerer) (iface : string) (m : mMsg).

Definition text_key (rr : mRR) : string := ToLower (rr_text rr).
Definition asked_for (rr : mRR) : Prop :=
  exists q, q ∈ mQuestion m /\ norm (hName rr) = norm (qName q) /\ wants q (Rrtype rr) = true.

(** A reply under construction holds advertised records, each once, its answers asked for. *)
Record sound_reply (b : building) : Prop := {
  sr_answer rr : rr ∈ bAnswer b -> rr ∈ all_records a iface /\ asked_for rr;
  sr_extra rr : rr ∈ bExtra b -> rr ∈ all_records a iface;
  sr_have k : k ∈ have b <-> k ∈ map text_key (bAnswer b ++ bExtra b);
  sr_nodup : NoDup (map text_key (bAnswer b ++ bExtra b));
  sr_first : bAnswer b = [] -> bExtra b = [];
}.

Lemma add_answer_sound rr b : rr ∈ all_records a iface -> asked_for rr -> sound_reply b ->
  sound_reply (add_answer rr_text rr b) /\ bAnswer (add_answer rr_text rr b) <> [].
Proof.
  intros Hr Ha [H1 H2 H3 H4 H5]. unfold add_answer. fold (text_key rr). case_bool_decide as Hk.
  - split; [done|]. intros E. rewrite E, (H5 E) in H3. apply H3 in Hk. by apply elem_of_nil in Hk.
  - split; [|by destruct (bAnswer b)]. split; cbn.
    + intros x. rewrite elem_of_app, list_elem_of_singleton. intros [?| ->]; auto.
    + done.
    + intros k. rewrite elem_of_union, elem_of_singleton, H3, <-app_assoc, !map_app, !elem_of_app. cbn. rewrite list_elem_of_singleton. tauto.
    + rewrite <-app_assoc. cbn. rewrite map_app. cbn. rewrite <-Permutation_middle, <-map_app. constructor; [by rewrite <-H3|done].
    + intros E. by destruct (bAnswer b).
Qed.

Lemma add_extra_sound rr b : rr ∈ all_records a iface -> bAnswer b <> [] -> sound_reply b ->
  sound_reply (add_extra rr_text rr b) /\ bAnswer (add_extra rr_text rr b) <> [].
Proof.
  intros Hr Hb [H1 H2 H3 H4 H5]. unfold add_extra. fold (text_key rr). case_bool_decide as Hk; [done|]. split; [|done]. split; cbn.
  - done.
  - intros x. rewrite elem_of_app, list_elem_of_singleton. intros [?| ->]; auto.
  - intros k. rewrite elem_of_union, elem_of_singleton, H3, app_assoc, !map_app, !elem_of_app. cbn. rewrite list_elem_of_singleton. tauto.
  - rewrite app_assoc, map_app. cbn. rewrite Permutation_app_comm. cbn. constructor; [by rewrite <-H3|done].
  - done.
Qed.

Lemma add_extras_sound rrs b : (forall rr, rr ∈ rrs -> rr ∈ all_records a iface) -> bAnswer b <> [] -> sound_reply b ->
  sound_reply (add_each (add_extra rr_text) rrs b) /\ bAnswer (add_each (add_extra rr_text) rrs b) <> [].
Proof.
  revert b. induction rrs as [|rr rrs IH]; intros b Hr Hb Hs; [done|]. unfold add_each in *. cbn [fold_left].
  destruct (add_extra_sound rr b) as [Hs' Hb']; [apply Hr; left|done|done|]. apply IH; [intros; apply Hr; by right|done|done].
Qed.

Lemma add_answers_sound rrs b : (forall rr, rr ∈ rrs -> rr ∈ all_records a iface /\ asked_for rr) -> sound_reply b ->
  sound_reply (add_each (add_answer rr_text) rrs b).
Proof.
  revert b. induction rrs as [|rr rrs IH]; intros b Hr Hs; [done|]. unfold add_each in *. cbn [fold_left].
  destruct (Hr rr) as [H1 H2]; [left|]. apply IH; [intros; apply Hr; by right|]. by apply add_answer_sound.
Qed.

(** * Advertised records *)

Lemma own_ptr r owner : r ∈ Records (aCfg a) -> owner ∈ owners r -> ptr_record owner r ∈ all_records a iface.
Proof.
  intros Hr Ho. unfold all_records. apply elem_of_app. left. apply list_elem_of_In, in_flat_map. exists r. split; [by apply list_elem_of_In|].
  apply in_app_iff. left. apply in_map_iff. exists owner. by rewrite <-list_elem_of_In.
Qed.
Lemma own_srv r : r ∈ Records (aCfg a) -> srv_record a r ∈ all_records a iface /\ txt_record r ∈ all_records a iface.
Proof.
  intros Hr. unfold all_records. split; apply elem_of_app; left; apply list_elem_of_In, in_flat_map; exists r; (split; [by apply list_elem_of_In|]);
    apply in_app_iff; right; cbn; auto.
Qed.
Lemma elem_of_hostNames h : h ∈ hostNames a <-> exists r, r ∈ Records (aCfg a) /\ hostFor a r = h.
Proof.
  unfold hostNames. rewrite elem_of_sort_strings, elem_of_remove_dups, list_elem_of_In, in_map_iff. setoid_rewrite <-list_elem_of_In. naive_solver.
Qed.
Lemma own_host h rr : h ∈ hostNames a -> rr ∈ hostRecords a iface h -> rr ∈ all_records a iface.
Proof.
  intros Hh Hr. unfold all_records. rewrite !elem_of_app. right. right. apply list_elem_of_In, in_flat_map. exists h. by rewrite <-!list_elem_of_In.
Qed.
Lemma host_record_name h rr : rr ∈ hostRecords a iface h -> hName rr = h /\ (Rrtype rr = TypeA \/ Rrtype rr = TypeAAAA).
Proof.
  unfold hostRecords. destruct (addrs a iface) as [ips|]; [|by intros ?%elem_of_nil]. rewrite list_elem_of_In, in_map_iff.
  intros (p & <- & _). unfold hostRecord, Rrtype. cbn. destruct (PAddr p); auto.
Qed.

(** The kinds of advertised records. *)
Lemma all_records_cases rr : rr ∈ all_records a iface ->
  (exists r owner, r ∈ Records (aCfg a) /\ owner ∈ owners r /\ rr = ptr_record owner r)
  \/ (exists r, r ∈ Records (aCfg a) /\ (rr = srv_record a r \/ rr = txt_record r))
  \/ (exists s, rr = enumeration_record s)
  \/ (exists h, h ∈ hostNames a /\ rr ∈ hostRecords a iface h).
Proof.
  unfold all_records. rewrite !elem_of_app. setoid_rewrite list_elem_of_In. rewrite !in_flat_map, in_map_iff. setoid_rewrite in_app_iff.
  setoid_rewrite in_map_iff. cbn. naive_solver.
Qed.

(** * Soundness *)

Lemma answer_owner_sound q r b owner : q ∈ mQuestion m -> r ∈ Records (aCfg a) -> owner ∈ owners r -> sound_reply b ->
  sound_reply (answer_owner rr_text a iface m q r b owner).
Proof.
  intros Hq Hr Ho Hs. unfold answer_owner. destruct (_ && _) eqn:E; [|done]. bool_hyps.
  destruct (add_answer_sound (ptr_record owner r) b) as [S1 B1]; [by apply own_ptr|by exists q|done|].
  destruct (own_srv r Hr) as [Hsrv Htxt].
  destruct (add_extra_sound (srv_record a r) _ Hsrv B1 S1) as [S2 B2]. destruct (add_extra_sound (txt_record r) _ Htxt B2 S2) as [S3 B3].
  apply add_extras_sound; [|done|done]. intros rr. apply own_host, elem_of_hostNames. by exists r.
Qed.

Lemma answer_instance_sound q r b : q ∈ mQuestion m -> r ∈ Records (aCfg a) -> sound_reply b ->
  sound_reply (answer_instance rr_text a iface m q b r).
Proof.
  intros Hq Hr Hs. unfold answer_instance. set (b1 := fold_left _ _ _).
  assert (S1 : sound_reply b1) by (apply fold_left_inv; [intros o x Ho; by apply answer_owner_sound|done]).
  destruct (String.eqb_spec (norm (instanceName r)) (norm (qName q))) as [En|_]; [|done]. destruct (own_srv r Hr) as [Hsrv Htxt].
  set (b2 := if wants q TypeSRV then _ else _). assert (S2 : sound_reply b2).
  { unfold b2. destruct (wants q TypeSRV) eqn:Ew; [|done]. destruct (add_answer_sound (srv_record a r) b1) as [S2 B2]; [done|by exists q|done|].
    apply add_extras_sound; [|done|done]. intros rr. apply own_host, elem_of_hostNames. by exists r. }
  destruct (wants q TypeTXT) eqn:Ew; [|done]. apply add_answer_sound; [done|by exists q|done].
Qed.

Lemma answer_question_sound q b : q ∈ mQuestion m -> sound_reply b -> sound_reply (answer_question rr_text a iface m b q).
Proof.
  intros Hq Hs. unfold answer_question. destruct ((norm (qName q) =?s enumerateName) && wants q TypePTR) eqn:Ee.
  { bool_hyps. apply add_answers_sound; [|done]. intros rr. rewrite list_elem_of_In, filter_In, <-list_elem_of_In. intros [Hr Hp].
    split; [done|]. exists q. split; [done|]. unfold Rrtype. destruct (hData rr); try done. apply String.eqb_eq in Hp. done. }
  destruct (if wants q TypeA || wants q TypeAAAA then hostForName a (norm (qName q)) else None) as [h|] eqn:Eh.
  - destruct (wants q TypeA || wants q TypeAAAA); [|done]. unfold hostForName in Eh. apply find_some in Eh as [Hh%list_elem_of_In En%String.eqb_eq].
    apply add_answers_sound; [|done]. intros rr. rewrite list_elem_of_In, filter_In, <-list_elem_of_In. intros [Hr Hw].
    split; [by apply (own_host h)|]. exists q. split; [done|]. destruct (host_record_name h rr Hr) as [-> _]. done.
  - apply fold_left_inv; [|done]. intros r x Hr. by apply answer_instance_sound.
Qed.

Definition reply : building := fold_left (answer_question rr_text a iface m) (mQuestion m) (mkBuilding ∅ [] []).

Lemma reply_sound : sound_reply reply.
Proof.
  unfold reply. apply fold_left_inv; [intros q b Hq; by apply answer_question_sound|]. split; cbn; try done; try by intros ? ?%elem_of_nil.
  - intros k. rewrite elem_of_nil. set_solver.
  - constructor.
Qed.

(** * Completeness *)

Lemma have_answer rr b k : k ∈ have (add_answer rr_text rr b) <-> k = text_key rr \/ k ∈ have b.
Proof. unfold add_answer. fold (text_key rr). case_bool_decide; cbn; set_solver. Qed.
Lemma have_extra rr b k : k ∈ have (add_extra rr_text rr b) <-> k = text_key rr \/ k ∈ have b.
Proof. unfold add_extra. fold (text_key rr). case_bool_decide; cbn; set_solver. Qed.
Lemma have_each add rrs b k : (forall rr b, k ∈ have (add rr b) <-> k = text_key rr \/ k ∈ have b) ->
  k ∈ have (add_each add rrs b) <-> k ∈ map text_key rrs \/ k ∈ have b.
Proof.
  intros Ha. unfold add_each. revert b. induction rrs as [|rr rrs IH]; intros b; cbn; [set_solver|]. rewrite IH, Ha. set_solver.
Qed.
Lemma have_fold {A} (f : building -> A -> building) l b k : (forall b x, k ∈ have b -> k ∈ have (f b x)) ->
  k ∈ have b -> k ∈ have (fold_left f l b).
Proof. intros Hf Hk. apply (fold_left_inv _ (fun b => k ∈ have b)); [intros x b' _; apply Hf|done]. Qed.

(** A step of a fold that has the key leaves it there. *)
Lemma have_step {A} (f : building -> A -> building) l x b k : (forall b y, k ∈ have b -> k ∈ have (f b y)) ->
  x ∈ l -> (forall b, k ∈ have (f b x)) -> k ∈ have (fold_left f l b).
Proof.
  intros Hf Hx Hk. apply list_elem_of_split in Hx as (l1 & l2 & ->). rewrite fold_left_app. cbn [fold_left]. by apply have_fold.
Qed.

Lemma owner_grows q r b o k : k ∈ have b -> k ∈ have (answer_owner rr_text a iface m q r b o).
Proof.
  intros Hk. unfold answer_owner. destruct (_ && _); [|done]. rewrite (have_each _ _ _ _ (fun rr b => have_extra rr b k)), !have_extra, have_answer. auto.
Qed.
Lemma instance_grows q b r k : k ∈ have b -> k ∈ have (answer_instance rr_text a iface m q b r).
Proof.
  intros Hk. unfold answer_instance. set (b1 := fold_left _ _ _). assert (H1 : k ∈ have b1) by (apply have_fold; [intros; by apply owner_grows|done]).
  destruct (_ =?s _); [|done]. destruct (wants q TypeTXT), (wants q TypeSRV);
    rewrite ?have_answer, ?(have_each _ _ _ _ (fun rr b => have_extra rr b k)), ?have_answer; auto.
Qed.
Lemma question_grows b q k : k ∈ have b -> k ∈ have (answer_question rr_text a iface m b q).
Proof.
  intros Hk. unfold answer_question. destruct (_ && _); [rewrite (have_each _ _ _ _ (fun rr b => have_answer rr b k)); auto|].
  destruct (if _ || _ then _ else _); [rewrite (have_each _ _ _ _ (fun rr b => have_answer rr b k)); auto|].
  apply have_fold; [intros; by apply instance_grows|done].
Qed.

(** The configuration names its services and hosts as Validate demands. *)
Definition well_named : Prop := forall r, r ∈ Records (aCfg a) ->
  serviceRE (Service r) = true /\ exists h, hostRE h = true /\ hostFor a r = h +++ ".local.".

(** The record is due in the answer to [q]. *)
Definition due (q : Question) (rr : mRR) : Prop :=
  rr ∈ all_records a iface /\ norm (hName rr) = norm (qName q) /\ wants q (Rrtype rr) = true
  /\ (norm (qName q) = enumerateName -> Rrtype rr = TypePTR)
  /\ (forall p, hData rr = MPTR p -> norm (qName q) <> enumerateName -> known_answer rr_text m (norm (hName rr)) (norm p) = false).

Lemma enumerate_norm : norm enumerateName = enumerateName.
Proof. by apply norm_settled. Qed.

Lemma hostName_norm h : well_named -> h ∈ hostNames a -> norm h = h.
Proof. intros Hw (r & Hr & <-)%elem_of_hostNames. destruct (Hw r Hr) as (_ & x & Hx & ->). by apply norm_settled, host_class. Qed.

(** Names of instances and their classes are not host names. *)
Lemma service_not_host r n h : well_named -> r ∈ Records (aCfg a) -> (n = instanceName r \/ n ∈ owners r) -> h ∈ hostNames a -> norm n <> norm h.
Proof.
  intros Hw Hr Hn Hh. rewrite (hostName_norm h Hw Hh). apply elem_of_hostNames in Hh as (r' & Hr' & <-). destruct (Hw r' Hr') as (_ & x & Hx & ->).
  destruct (Hw r Hr) as [Hs _]. assert (exists y, n = y +++ Service r +++ ".local.") as [y ->].
  { unfold instanceName, owners, fq in *. destruct Hn as [->|[->|Hn]%elem_of_cons].
    - exists (Instance_ r +++ "."). cbn [join]. by rewrite !append_assoc.
    - exists EmptyString. cbn [join]. by rewrite !append_assoc.
    - apply list_elem_of_In, in_map_iff in Hn as (sub & <- & _). exists (sub +++ "._sub."). cbn [join]. by rewrite !append_assoc. }
  destruct (norm_service y (Service r) Hs) as (z & p & -> & Hp). intros E. by apply (host_not_service x z p).
Qed.

Lemma instance_covers q r rr b : due q rr -> r ∈ Records (aCfg a) -> norm (qName q) <> enumerateName ->
  ((exists owner, owner ∈ owners r /\ rr = ptr_record owner r) \/ rr = srv_record a r \/ rr = txt_record r) ->
  text_key rr ∈ have (answer_instance rr_text a iface m q b r).
Proof.
  intros (_ & En & Hw & _ & Hk) Hr Hne Hrr. unfold answer_instance. set (b1 := fold_left _ _ _).
  destruct Hrr as [(owner & Ho & ->)|Hrr].
  - assert (H1 : text_key (ptr_record owner r) ∈ have b1).
    { apply (have_step _ _ owner); [intros; by apply owner_grows|done|]. intros b'. unfold answer_owner. cbn [hName ptr_record] in En. rewrite En, String.eqb_refl.
      change (Rrtype _) with TypePTR in Hw. rewrite Hw. specialize (Hk (instanceName r) eq_refl Hne). cbn [hName ptr_record] in Hk. rewrite <-En, Hk. cbn [negb andb].
      rewrite (have_each _ _ _ _ (fun rr b => have_extra rr b _)), !have_extra, have_answer. auto. }
    destruct (_ =?s _); [|done]. destruct (wants q TypeTXT), (wants q TypeSRV);
      rewrite ?have_answer, ?(have_each _ _ _ _ (fun rr b => have_extra rr b _)), ?have_answer; auto.
  - assert (norm (instanceName r) = norm (qName q)) as -> by (by destruct Hrr as [->| ->]). rewrite String.eqb_refl. destruct Hrr as [->| ->].
    + change (Rrtype _) with TypeSRV in Hw. rewrite Hw. destruct (wants q TypeTXT);
        rewrite ?have_answer, ?(have_each _ _ _ _ (fun rr b => have_extra rr b _)), ?have_answer; auto.
    + change (Rrtype _) with TypeTXT in Hw. rewrite Hw, have_answer. auto.
Qed.

Lemma question_covers q rr b : well_named -> due q rr -> text_key rr ∈ have (answer_question rr_text a iface m b q).
Proof.
  intros Hwn Hd. pose proof Hd as (Ho & En & Hw & He & Hk). unfold answer_question.
  assert (Hmap : forall rrs, rr ∈ rrs -> text_key rr ∈ have (add_each (add_answer rr_text) rrs b)).
  { intros rrs Hin. apply (have_each _ _ _ _ (fun rr b => have_answer rr b _)). left. apply list_elem_of_In, in_map, list_elem_of_In, Hin. }
  assert (Hf : forall p l, rr ∈ l -> p rr = true -> rr ∈ List.filter p l) by (intros; rewrite list_elem_of_In, filter_In, <-list_elem_of_In; done).
  destruct ((norm (qName q) =?s enumerateName) && wants q TypePTR) eqn:Ee.
  { bool_hyps. apply Hmap, Hf; [done|]. match goal with E : norm (qName q) = _ |- _ => specialize (He E) end.
    apply all_records_cases in Ho as [(r & o & _ & _ & ->)|[(r & _ & [->| ->])|[(s & ->)|(h & _ & Hh)]]]; try done; try (cbn in *; by apply String.eqb_eq).
    destruct (host_record_name h rr Hh) as [_ [Et|Et]]; by rewrite Et in He. }
  assert (Hne : norm (qName q) <> enumerateName).
  { intros E. rewrite (He E) in Hw. rewrite E, String.eqb_refl, Hw in Ee. done. }
  destruct (if wants q TypeA || wants q TypeAAAA then hostForName a (norm (qName q)) else None) as [h|] eqn:Eh.
  - destruct (wants q TypeA || wants q TypeAAAA); [|done]. apply find_some in Eh as [Hh%list_elem_of_In Enh%String.eqb_eq].
    assert (Hcase : exists h', h' ∈ hostNames a /\ rr ∈ hostRecords a iface h').
    { pose proof Ho as Hc. apply all_records_cases in Hc as [(r & o & Hr & How & ->)|[(r & Hr & Hrr)|[(s & ->)|?]]]; [exfalso..|done].
      - apply (service_not_host r o h Hwn Hr); [by right|done|]. cbn in En. congruence.
      - apply (service_not_host r (instanceName r) h Hwn Hr); [by left|done|]. destruct Hrr as [->| ->]; cbn [hName srv_record txt_record] in En; congruence.
      - cbn in En. rewrite enumerate_norm in En. congruence. }
    destruct Hcase as (h' & Hh' & Hrr). destruct (host_record_name h' rr Hrr) as [Enm _]. apply Hmap, Hf; [|done].
    assert (h' = h) as ->; [|done]. rewrite <-(hostName_norm h' Hwn Hh'), <-(hostName_norm h Hwn Hh). congruence.
  - apply all_records_cases in Ho as [(r & o & Hr & How & ->)|[(r & Hr & Hrr)|[(s & ->)|(h & Hh & Hrr)]]].
    + apply (have_step _ _ r); [intros; by apply instance_grows|done|]. intros b'. apply instance_covers; eauto.
    + apply (have_step _ _ r); [intros; by apply instance_grows|done|]. intros b'. apply instance_covers; auto.
    + exfalso. cbn in En. rewrite enumerate_norm in En. congruence.
    + exfalso. destruct (host_record_name h rr Hrr) as [Enm Ht]. assert (wants q TypeA || wants q TypeAAAA = true) as Ew.
      { destruct Ht as [Ht|Ht]; rewrite Ht in Hw; rewrite Hw; [done|apply orb_true_r]. }
      rewrite Ew in Eh. apply list_elem_of_In, (find_none _ _ Eh h), String.eqb_neq in Hh. congruence.
Qed.

(** C26: Queries are answered exactly.  Whatever is asked, each answer is a record ghostd advertises
    on that interface whose name and type one of the questions asks for, the additional records are
    advertised ones too, and no record is sent twice; and every advertised record that a question
    of a query asks for is in the reply, except a pointer the querier says it knows. *)
Theorem answers_exact :
  (forall resp, Answer rr_text a m iface = Some resp ->
     mAnswer resp <> [] /\ (forall rr, rr ∈ mAnswer resp -> rr ∈ all_records a iface /\ asked_for rr)
     /\ (forall rr, rr ∈ mExtra resp -> rr ∈ all_records a iface) /\ NoDup (map text_key (records resp)))
  /\ (well_named -> mResponse m = false -> mOpcode m = 0 -> forall q rr, q ∈ mQuestion m -> due q rr ->
     exists resp rr', Answer rr_text a m iface = Some resp /\ rr' ∈ records resp /\ text_key rr' = text_key rr).
Proof.
  pose proof reply_sound as Hs. unfold Answer. fold reply. split.
  - intros resp. destruct (_ || _); [done|]. destruct (bAnswer reply) as [|x xs] eqn:E; [done|]. rewrite <-E. intros [= <-]. cbn.
    split; [by rewrite E|]. split; [apply Hs|]. split; [apply Hs|]. apply (sr_nodup _ Hs).
  - intros Hw Hr Hop q rr Hq Hd. rewrite Hr, Hop. cbn.
    assert (Hh : text_key rr ∈ have reply).
    { apply (have_step _ _ q); [intros; by apply question_grows|done|]. intros b. by apply question_covers. }
    apply (sr_have _ Hs), list_elem_of_In, in_map_iff in Hh as (rr' & Ek & Hr'%list_elem_of_In).
    destruct (bAnswer reply) as [|x xs] eqn:E.
    + rewrite (sr_first _ Hs E) in Hr'. by apply elem_of_nil in Hr'.
    + eexists _, rr'. split; [done|]. by rewrite <-E in *.
Qed.
End Reply.
