(* ===== verification/MdnsNat.v ===== *)
(** mDNS NAT (internal/mdns/nat.go): the instances learned from a source, the ports they are given
    on the interface they are published on, and the DNAT table.

    A Go map is ranged over in no fixed order; the loops over learned instances take a [shuffle] of
    the keys as an argument.  The ports of an interface are a pool shared by the rules that publish there. *)

From stdpp Require Import pretty.
From S2P Require Import Prelude Json NetAddr Config Dns Mdns Reflect Advertise.
From Stdlib Require Import Ascii.
Local Open Scope Z_scope.

Record NetIf := mkNetIf { ifIndex : Z; ifName : string; ifUp : bool; ifMulticast : bool }.

(** One DNAT: a port of an interface, to a source's address and port. *)
Record natMapping := mkMapping { mTo : string; mProto : string; mPort : Z; mTarget : Addr; mTport : Z }.

Record natInstance := mkInstance {
  service : string; instance : string; txt : list string; subtypes : gset string;
  port : Z; host : string; ip : option Addr; hostPort : Z; expires : option Z;
}.
(** A host's announced addresses, as of one announcement. *)
Record natHost := mkNatHost { ips : list Addr; exp : Z }.

Record natRule := mkNatRule {
  nFilter : filter; lo : Z; hi : Z;
  insts : gmap string natInstance; nHosts : gmap string natHost;
  nFrom : NetIf; nTo : NetIf; label : string; reserved : gset string;
  removed : list natInstance;
}.
(** The owner of each port in use. *)
Abbreviation ports := (gmap Z string).

Definition set_insts (x : gmap string natInstance) (n : natRule) : natRule :=
  mkNatRule (nFilter n) (lo n) (hi n) x (nHosts n) (nFrom n) (nTo n) (label n) (reserved n) (removed n).
Definition set_hosts (x : gmap string natHost) (n : natRule) : natRule :=
  mkNatRule (nFilter n) (lo n) (hi n) (insts n) x (nFrom n) (nTo n) (label n) (reserved n) (removed n).
Definition set_removed (x : list natInstance) (n : natRule) : natRule :=
  mkNatRule (nFilter n) (lo n) (hi n) (insts n) (nHosts n) (nFrom n) (nTo n) (label n) (reserved n) x.

Definition with_target (ip : option Addr) (hp : Z) (i : natInstance) : natInstance :=
  mkInstance (service i) (instance i) (txt i) (subtypes i) (port i) (host i) ip hp (expires i).
Definition with_srv (h : string) (p exp : Z) (i : natInstance) : natInstance :=
  mkInstance (service i) (instance i) (txt i) (subtypes i) p h (ip i) (hostPort i) (Some exp).
Definition with_txt (t : list string) (i : natInstance) : natInstance :=
  mkInstance (service i) (instance i) t (subtypes i) (port i) (host i) (ip i) (hostPort i) (expires i).
Definition with_subtype (s : string) (i : natInstance) : natInstance :=
  mkInstance (service i) (instance i) (txt i) ({[s]} ∪ subtypes i) (port i) (host i) (ip i) (hostPort i) (expires i).

(** hash/fnv, 32 bits, variant 1a. *)
Definition fnv32a (s : string) : Z :=
  fold_left (fun h c => (Z.lxor h (byte_of c) * 16777619) mod 2^32) (string_chars s) 2166136261.

(** The host name a source's services are published under. *)
Definition label_rune (c : ascii) : ascii := if lower_alnum_dash c then c else "-"%char.
Fixpoint drop_dashes (l : list ascii) : list ascii :=
  match l with c :: l' => if Ascii.eqb c "-" then drop_dashes l' else l | [] => [] end.
(** The runes of the name in lower case, one character each; a byte that is not part of a rune counts
    as one.  Two runes beyond ASCII have a lower case in it: U+0130, a dotted I, and U+212A, the
    Kelvin sign. *)
Fixpoint label_runes (l : list ascii) : list ascii :=
  match l with
  | [] => []
  | c :: l1 =>
    if one_byte c then label_rune (lower_char c) :: label_runes l1
    else match l1 with
    | [] => ["-"%char]
    | d :: l2 =>
      if two_bytes c d then (if (byte_of c =? 196) && (byte_of d =? 176) then "i"%char else "-"%char) :: label_runes l2
      else match l2 with
      | [] => "-"%char :: label_runes l1
      | e :: l3 =>
        if three_bytes c d e then
          (if (byte_of c =? 226) && (byte_of d =? 132) && (byte_of e =? 170) then "k"%char else "-"%char) :: label_runes l3
        else match l3 with
        | [] => "-"%char :: label_runes l1
        | f :: l4 => if four_bytes c d e f then "-"%char :: label_runes l4 else "-"%char :: label_runes l1
        end
      end
    end
  end.
Definition natLabel (network : string) : string :=
  let s := rev (drop_dashes (rev (drop_dashes (label_runes (string_chars network))))) in
  match s with [] => "container" | _ => string_of_chars (take 63 s) end.

Definition protoOf (service : string) : string := if has_suffix service "._udp" then "udp" else "tcp".

(** The address a host's service is mapped to: the first one announced that is on the source's own
    network. *)
Definition usable_target (a : Addr) : bool :=
  Is4 a && negb (IsLoopback a) && negb (IsLinkLocalUnicast a) && negb (IsMulticast a) && negb (IsUnspecified a).
Definition mapTarget (subnet : list Prefix) (ips : list Addr) : option Addr :=
  find (fun a => usable_target a && existsb (fun p => Contains p a) subnet) ips.

Section Nat.
Context `{CaseFold}.

Definition natKey (i : natInstance) : string := norm (instance i +++ "." +++ service i +++ ".local.").
Definition owner (n : natRule) (i : natInstance) : string := ifName (nFrom n) +++ "|" +++ natKey i.

Definition newNATRule (cfg : NATConfig) (from to : NetIf) (reserved : gset string) : option natRule :=
  '(lo, hi) ← portRange (Ports cfg);
  Some (mkNatRule (newFilter (Services cfg)) lo hi ∅ ∅ from to (natLabel (ifName from)) reserved []).

(** * Ports *)

Fixpoint probe (left : nat) (p : ports) (own : string) (lo size start k : Z) : option Z :=
  match left with
  | O => None
  | S left' =>
    let x := lo + (start + k) mod size in
    match p !! x with
    | None => Some x
    | Some o => if o =?s own then Some x else probe left' p own lo size start (k + 1)
    end
  end.
(** allocate: the port given, if one is free. *)
Definition allocate (n : natRule) (i : natInstance) (p : ports) : option Z :=
  let size := hi n - lo n + 1 in
  let text := ifName (nFrom n) +++ "|" +++ match ip i with Some a => AddrString a | None => "invalid IP" end +++ "|" +++ pretty (port i) in
  probe (Z.to_nat size) p (owner n i) (lo n) size (fnv32a text mod size) 0.
Definition release (n : natRule) (i : natInstance) (p : ports) : ports :=
  if hostPort i =? 0 then p
  else match p !! hostPort i with
       | Some o => if o =?s owner n i then delete (hostPort i) p else p
       | None => p
       end.

(** * Learning *)

Definition drop_inst (i : natInstance) (st : natRule * ports) : natRule * ports :=
  let '(n, p) := st in
  if hostPort i =? 0 then (set_insts (delete (natKey i) (insts n)) n, p)
  else (set_insts (delete (natKey i) (insts n)) (set_removed (removed n ++ [i]) n), release n i p).

(** The instance a name stands for, created when its class is translated. *)
Definition ensure (name : string) (n : natRule) : option (string * natInstance) :=
  class ← classOf name;
  if bool_decide (class ∈ allow (nFilter n)) then
    Some (norm name, default (mkInstance class (unescapeKeepCase name class) [] ∅ 0 EmptyString None 0 None) (insts n !! norm name))
  else None.
Definition put_inst (k : string) (i : natInstance) (n : natRule) : natRule := set_insts (<[k := i]> (insts n)) n.

Record learning := mkLearning { lRule : natRule; lPorts : ports; announced : gmap string natHost; changed : bool }.

(** strings.SplitN(name, ".", 2)[0] and strings.Contains(name, "._sub."). *)
Definition first_label (name : string) : string := before_char "." name.
Definition names_subtype (name : string) : bool := match Split name "._sub." with _ :: _ :: _ => true | _ => false end.

Definition goodbye (name : string) (st : learning) : learning :=
  match insts (lRule st) !! norm name with
  | Some i => let '(n, p) := drop_inst i (lRule st, lPorts st) in mkLearning n p (announced st) true
  | None => st
  end.

Definition learn_a (now : Z) (rr : mRR) (a : Addr) (st : learning) : learning :=
  let h := norm (hName rr) in
  if hTtl rr =? 0 then mkLearning (set_hosts (delete h (nHosts (lRule st))) (lRule st)) (lPorts st) (announced st) (changed st)
  else
    let lapse := now + hTtl rr * second in
    let old := announced st !! h in
    let entry := match old with Some x => mkNatHost (ips x ++ [a]) (Z.max (exp x) lapse) | None => mkNatHost [a] lapse end in
    mkLearning (lRule st) (lPorts st) (<[h := entry]> (announced st)) (changed st).

Definition learn_ptr (rr : mRR) (ptr : string) (st : learning) : learning :=
  match classOf (hName rr) with
  | Some class =>
    if negb (bool_decide (class ∈ allow (nFilter (lRule st)))) then st
    else if hTtl rr =? 0 then goodbye ptr st
    else match ensure ptr (lRule st) with
         | Some (k, i) =>
           let sub := first_label (norm (hName rr)) in
           if names_subtype (norm (hName rr)) && negb (bool_decide (sub ∈ subtypes i))
           then mkLearning (put_inst k (with_subtype sub i) (lRule st)) (lPorts st) (announced st) true
           else mkLearning (put_inst k i (lRule st)) (lPorts st) (announced st) (changed st)
         | None => st
         end
  | None => st
  end.

Definition learn_srv (now : Z) (rr : mRR) (sport : Z) (target : string) (st : learning) : learning :=
  if hTtl rr =? 0 then goodbye (hName rr) st
  else match ensure (hName rr) (lRule st) with
       | Some (k, i) =>
         let moved := negb (host i =?s norm target) || negb (port i =? sport) in
         mkLearning (put_inst k (with_srv (norm target) sport (now + hTtl rr * second) i) (lRule st)) (lPorts st) (announced st) (changed st || moved)
       | None => st
       end.

Definition nul_join (l : list string) : string := join (String "000" EmptyString) l.
Definition learn_txt (rr : mRR) (t : list string) (st : learning) : learning :=
  match ensure (hName rr) (lRule st) with
  | Some (k, i) =>
    if (0 <? hTtl rr) && negb (nul_join (txt i) =?s nul_join t)
    then mkLearning (put_inst k (with_txt t i) (lRule st)) (lPorts st) (announced st) true
    else mkLearning (put_inst k i (lRule st)) (lPorts st) (announced st) (changed st)
  | None => st
  end.

Definition learn_rr (now : Z) (st : learning) (rr : mRR) : learning :=
  match hData rr with
  | MA a => learn_a now rr (Addr4 a) st
  | MPTR p => learn_ptr rr p st
  | MSRV sport target => learn_srv now rr sport target st
  | MTXT t => learn_txt rr t st
  | _ => st
  end.

(** One instance's turn to be mapped. *)
Definition map_inst (now : Z) (subnet : list Prefix) (st : learning) (k : string) : learning :=
  match insts (lRule st) !! k with
  | None => st
  | Some i =>
    match nHosts (lRule st) !! host i with
    | None => st
    | Some h =>
      if (exp h <=? now) || (port i =? 0) then st
      else match mapTarget subnet (ips h) with
           | None => st
           | Some a =>
             if bool_decide (ip i = Some a) && negb (hostPort i =? 0) then st
             else
               let p := release (lRule st) i (lPorts st) in
               let i0 := with_target (Some a) 0 i in
               match allocate (lRule st) i0 p with
               | Some x => mkLearning (put_inst k (with_target (Some a) x i) (lRule st)) (<[x := owner (lRule st) i]> p) (announced st) true
               | None => mkLearning (put_inst k i0 (lRule st)) p (announced st) (changed st)
               end
           end
    end
  end.

Definition learn_records (now : Z) (m : mMsg) (n : natRule) (p : ports) : learning :=
  fold_left (learn_rr now) (records m) (mkLearning n p ∅ false).
(** The instances in the order a range over their map takes them. *)
Definition ranged (shuffle : list string -> list string) (n : natRule) : list string := shuffle (map fst (map_to_list (insts n))).
Definition learn (shuffle : list string -> list string) (now : Z) (subnet : list Prefix) (m : mMsg) (n : natRule) (p : ports) :
    natRule * ports * bool :=
  let st := learn_records now m n p in
  let n1 := set_hosts (announced st ∪ nHosts (lRule st)) (lRule st) in
  let st' := fold_left (map_inst now subnet) (ranged shuffle n1) (mkLearning n1 (lPorts st) ∅ (changed st)) in
  (lRule st', lPorts st', changed st').

(** expire: instances whose records lapsed, then the hosts. *)
Definition expire_inst (now : Z) (st : natRule * ports * bool) (k : string) : natRule * ports * bool :=
  let '(n, p, c) := st in
  match insts n !! k with
  | Some i => match expires i with
              | Some e => if e <=? now then let '(n', p') := drop_inst i (n, p) in (n', p', true) else st
              | None => st
              end
  | None => st
  end.
Definition expire (shuffle : list string -> list string) (now : Z) (n : natRule) (p : ports) : natRule * ports * bool :=
  let '(n', p', c) := fold_left (expire_inst now) (ranged shuffle n) (n, p, false) in
  (set_hosts (base.filter (fun he : string * natHost => now < exp he.2) (nHosts n')) n', p', c).

Definition takeRemoved (n : natRule) : list natInstance * natRule := (removed n, set_removed [] n).

(** * Publishing *)

Definition key_le (a b : natInstance) : Prop := String.le (natKey a) (natKey b).
#[global] Instance key_le_dec a b : Decision (key_le a b).
Proof. unfold key_le. apply _. Defined.

Definition is_published (i : natInstance) : bool := negb (hostPort i =? 0) && match ip i with Some _ => true | None => false end.
Definition published (n : natRule) : list natInstance :=
  merge_sort key_le (List.filter is_published (map snd (map_to_list (insts n)))).

Definition mapping (n : natRule) (i : natInstance) : list natMapping :=
  match ip i with
  | Some a => [mkMapping (ifName (nTo n)) (protoOf (service i)) (hostPort i) a (port i)]
  | None => []
  end.
Definition mappings (n : natRule) : list natMapping := flat_map (mapping n) (published n).

Definition hostLabel (n : natRule) (i : natInstance) : string :=
  if has_suffix (host i) ".local." then
    let l := trim_suffix (host i) ".local." in
    if negb (hostRE l) || bool_decide (l ∈ reserved n) then label n else l
  else label n.

Definition nat_record (n : natRule) (i : natInstance) : mRecord :=
  mkRecord (service i) (instance i) (hostPort i mod 2^16) (txt i) (sort_strings (elements (subtypes i))) (hostLabel n i).
Definition answererFor (n : natRule) (xs : list natInstance) (addrs : string -> option (list Prefix)) : answerer :=
  mkAnswerer (mkMConfig [] (label n) (map (nat_record n) xs) [])
    (fun iface => List.filter (fun p => Is4 (PAddr p)) <$> addrs iface).
End Nat.

(** * The DNAT table *)

Definition natTable : string := "ghostd_mdns_nat".

Definition mapping_le (a b : natMapping) : Prop :=
  if mTo a =?s mTo b then (if mProto a =?s mProto b then mPort a <= mPort b else String.le (mProto a) (mProto b)) else String.le (mTo a) (mTo b).
#[global] Instance mapping_le_dec a b : Decision (mapping_le a b).
Proof. unfold mapping_le. repeat case_match; apply _. Defined.

Definition rule_line (m : natMapping) : string :=
  "    iifname " +++ quote (mTo m) +++ " fib daddr type local " +++ mProto m +++ " dport " +++ pretty (mPort m)
  +++ " dnat ip to " +++ AddrString (mTarget m) +++ ":" +++ pretty (mTport m) +++ newline.
Definition renderNAT (maps : list natMapping) : string :=
  "add table inet " +++ natTable +++ newline +++ "delete table inet " +++ natTable +++ newline
  +++ match maps with
      | [] => EmptyString
      | _ => "table inet " +++ natTable +++ " {" +++ newline +++ "  chain prerouting {" +++ newline
             +++ "    type nat hook prerouting priority dstnat; policy accept;" +++ newline
             +++ concat_str (map rule_line (merge_sort mapping_le maps)) +++ "  }" +++ newline +++ "}" +++ newline
      end.
