(* ===== verification/NatInv.v ===== *)
(** The ports of an interface: every translated instance has its own, within its range, and none
    is held by an instance that left. *)

From S2P Require Import Prelude NetAddr LedgerInv Dns Mdns Reflect Advertise MdnsNat.
From Stdlib Require Import Ascii.
Local Open Scope Z_scope.

Section NatInv.
Context `{CaseFold}.

Definition own (n : natRule) (k : string) : string := ifName (nFrom n) +++ "|" +++ k.

Lemma own_inj n k k' : own n k = own n k' -> k = k'.
Proof. unfold own. intros E%append_inj_l. by injection E. Qed.

(** A rule and the pool of the interface it publishes on. *)
Record rule_inv (n : natRule) (p : ports) : Prop := {
  ri_range : 0 < lo n;
  ri_key k i : insts n !! k = Some i -> natKey i = k;
  ri_port k i : insts n !! k = Some i -> hostPort i <> 0 ->
    lo n <= hostPort i <= hi n /\ p !! hostPort i = Some (own n k) /\ exists a, ip i = Some a /\ usable_target a = true;
  ri_held x k : p !! x = Some (own n k) -> x <> 0 /\ exists i, insts n !! k = Some i /\ hostPort i = x;
}.

(** What a rule does to the pool does not touch the ports of others. *)
Definition others_kept (n : natRule) (p p' : ports) : Prop := forall x o, (forall k, o <> own n k) -> p !! x = Some o <-> p' !! x = Some o.

Definition same_rule (n n' : natRule) : Prop := nFrom n' = nFrom n /\ nTo n' = nTo n /\ lo n' = lo n /\ hi n' = hi n /\ nFilter n' = nFilter n.

Lemma same_own n n' k : same_rule n n' -> own n' k = own n k.
Proof. intros (E & _). unfold own. by rewrite E. Qed.

(** A state a rule can get to from [n] and [p] by its own doing. *)
Record rule_step (n : natRule) (p : ports) (n' : natRule) (p' : ports) : Prop := {
  rs_rule : same_rule n n';
  rs_inv : rule_inv n' p';
  rs_kept : others_kept n p p';
}.

Lemma step_refl n p : rule_inv n p -> rule_step n p n p.
Proof. intros Hi. split; [by repeat split|done|done]. Qed.
Lemma step_trans n p n1 p1 n2 p2 : rule_step n p n1 p1 -> rule_step n1 p1 n2 p2 -> rule_step n p n2 p2.
Proof.
  intros [(A1 & A2 & A3 & A4 & A5) B C] [(A1' & A2' & A3' & A4' & A5') B' C']. split.
  - unfold same_rule. split_and!; congruence.
  - done.
  - intros x o Ho. rewrite (C x o Ho). apply C'. intros k. unfold own. rewrite A1. apply Ho.
Qed.

(** * Changes to a rule *)

Lemma step_same n p n' : rule_inv n p -> same_rule n n' -> insts n' = insts n -> rule_step n p n' p.
Proof.
  intros Hi Hs E. split; [done| |done]. pose proof Hs as (A1 & A2 & A3 & A4 & A5). split; rewrite ?A3, ?A4, ?E; try setoid_rewrite (same_own n n' _ Hs); apply Hi.
Qed.

Lemma owner_own n p k i : rule_inv n p -> insts n !! k = Some i -> owner n i = own n k.
Proof. intros Hi E. unfold owner, own. by rewrite (ri_key _ _ Hi k i E). Qed.

Lemma release_lookup n i p x o : release n i p !! x = Some o <-> p !! x = Some o /\ ~ (hostPort i <> 0 /\ x = hostPort i /\ o = owner n i).
Proof.
  unfold release. destruct (Z.eqb_spec (hostPort i) 0) as [E|E]; [naive_solver|].
  destruct (p !! hostPort i) as [o'|] eqn:Eo.
  - destruct (String.eqb_spec o' (owner n i)) as [->|Hne].
    + destruct (decide (x = hostPort i)) as [->|Hx]; [rewrite lookup_delete_eq|rewrite lookup_delete_ne by done]; naive_solver.
    + split; [|naive_solver]. intros Hx. split; [done|]. intros (_ & -> & ->). naive_solver.
  - split; [|naive_solver]. intros Hx. split; [done|]. intros (_ & -> & _). congruence.
Qed.

Lemma release_others n k i p : owner n i = own n k -> others_kept n p (release n i p).
Proof. intros E x o Ho. rewrite release_lookup. split; [|naive_solver]. intros Hx. split; [done|]. intros (_ & _ & ->). by apply (Ho k). Qed.

(** An instance leaves, with its port. *)
Lemma drop_step n p k i : rule_inv n p -> insts n !! k = Some i ->
  rule_step n p (fst (drop_inst i (n, p))) (snd (drop_inst i (n, p))) /\ insts (fst (drop_inst i (n, p))) = delete k (insts n).
Proof.
  intros Hi E. pose proof (ri_key _ _ Hi k i E) as Ek. pose proof (owner_own n p k i Hi E) as Eo.
  set (n' := fst (drop_inst i (n, p))). set (p' := snd (drop_inst i (n, p))).
  assert (En : insts n' = delete k (insts n)) by (unfold n', drop_inst; rewrite Ek; by destruct (hostPort i =? 0)).
  assert (Ep : p' = release n i p) by (unfold p', drop_inst, release; by destruct (hostPort i =? 0)).
  assert (Hs : same_rule n n') by (unfold n', drop_inst; by destruct (hostPort i =? 0)).
  split; [|done]. split; [done| |rewrite Ep; by eapply release_others]. pose proof Hs as (A1 & A2 & A3 & A4 & A5). split; rewrite ?A3, ?A4, ?En.
  - apply Hi.
  - intros k' j Ej. apply lookup_delete_Some in Ej as [_ Ej]. by apply Hi.
  - intros k' j Ej Hp. apply lookup_delete_Some in Ej as [Hne Ej]. rewrite (same_own n n') by done.
    destruct (ri_port _ _ Hi k' j Ej Hp) as (Hr & Hx & Ha). split; [done|]. split; [|done].
    rewrite Ep, release_lookup. split; [done|]. rewrite Eo. intros (_ & _ & Hk%own_inj). done.
  - intros x k'. rewrite (same_own n n'), Ep, release_lookup by done. intros [Hx Hn]. destruct (ri_held _ _ Hi x k' Hx) as (H0 & j & Ej & <-).
    split; [done|]. exists j. rewrite lookup_delete_ne; [done|]. intros <-. rewrite E in Ej. injection Ej as ->. apply Hn. by rewrite Eo.
Qed.

(** An instance is written, keeping its port. *)
Lemma put_step n p k i : rule_inv n p -> natKey i = k ->
  match insts n !! k with Some j => hostPort i = hostPort j /\ ip i = ip j | None => hostPort i = 0 end ->
  rule_step n p (put_inst k i n) p.
Proof.
  intros Hi Ek Hc. split; [done| |done]. split; cbn [lo hi insts put_inst set_insts].
  - apply Hi.
  - intros k' j. destruct (decide (k' = k)) as [->|Hne]; [rewrite lookup_insert_eq; by intros [= <-]|rewrite lookup_insert_ne by done; apply Hi].
  - intros k' j. destruct (decide (k' = k)) as [->|Hne]; [rewrite lookup_insert_eq|rewrite lookup_insert_ne by done; apply (ri_port _ _ Hi)].
    intros [= <-] Hp. destruct (insts n !! k) as [j|] eqn:Ej; [|done]. destruct Hc as [Eh Ei]. rewrite Eh, Ei in *. by apply (ri_port _ _ Hi k j Ej).
  - intros x k' Hx. destruct (ri_held _ _ Hi x k' Hx) as (H0 & j & Ej & <-). split; [done|].
    destruct (decide (k' = k)) as [->|Hne]; [|exists j; by rewrite lookup_insert_ne]. rewrite Ej in Hc. exists i. rewrite lookup_insert_eq. split; [done|apply Hc].
Qed.

(** * Allocation *)

Lemma probe_some left p o lo size start k x : probe left p o lo size start k = Some x -> 0 < size ->
  lo <= x < lo + size /\ (p !! x = None \/ p !! x = Some o).
Proof.
  intros E Hs. revert k E. induction left as [|left IH]; intros k; [done|]. cbn.
  pose proof (Z.mod_pos_bound (start + k) size Hs). destruct (p !! (lo + (start + k) mod size)) as [o'|] eqn:Ep.
  - destruct (String.eqb_spec o' o) as [->|]; [intros [= <-]; split; [lia|auto]|apply IH].
  - intros [= <-]. split; [lia|auto].
Qed.

Lemma probe_none left p o lo size start k j : probe left p o lo size start k = None -> k <= j < k + Z.of_nat left ->
  exists o', p !! (lo + (start + j) mod size) = Some o' /\ o' <> o.
Proof.
  revert k. induction left as [|left IH]; intros k E Hj; [lia|]. cbn in E.
  destruct (p !! (lo + (start + k) mod size)) as [o'|] eqn:Ep; [|done]. destruct (String.eqb_spec o' o) as [|Hne]; [done|].
  destruct (decide (j = k)) as [->|]; [eauto|]. apply (IH (k + 1)); [done|lia].
Qed.

(** When none is given, every port of the range is someone else's. *)
Lemma allocate_none n i p x : allocate n i p = None -> lo n <= x <= hi n -> exists o, p !! x = Some o /\ o <> owner n i.
Proof.
  unfold allocate. set (size := hi n - lo n + 1). set (start := fnv32a _ mod size). intros E Hx. assert (Hs : 0 < size) by lia.
  destruct (probe_none _ _ _ _ _ _ _ ((x - lo n - start) mod size) E) as (o & Ho & Hne).
  { pose proof (Z.mod_pos_bound (x - lo n - start) size Hs). lia. }
  exists o. split; [|done]. rewrite <-Ho. f_equal. rewrite Z.add_mod_idemp_r by lia. replace (start + (x - lo n - start)) with (x - lo n) by lia.
  rewrite Z.mod_small; lia.
Qed.

Lemma with_target_key a x i : natKey (with_target a x i) = natKey i.
Proof. done. Qed.

(** Releasing an instance's port leaves the rule in order without it. *)
Lemma release_step n p k i a : rule_inv n p -> insts n !! k = Some i -> rule_step n p (put_inst k (with_target a 0 i) n) (release n i p).
Proof.
  intros Hi E. pose proof (owner_own n p k i Hi E) as Eo. split; [done| |by eapply release_others]. split; cbn.
  - apply Hi.
  - intros k' j. destruct (decide (k' = k)) as [->|Hne]; [rewrite lookup_insert_eq; intros [= <-]; by apply (ri_key _ _ Hi k i)|rewrite lookup_insert_ne by done; apply Hi].
  - intros k' j. destruct (decide (k' = k)) as [->|Hne]; [rewrite lookup_insert_eq; by intros [= <-]|rewrite lookup_insert_ne by done].
    intros Ej Hp. destruct (ri_port _ _ Hi k' j Ej Hp) as (Hr & Hx & Ha). split; [done|]. split; [|done].
    rewrite release_lookup. split; [done|]. rewrite Eo. intros (_ & _ & Hk). apply Hne. by apply (own_inj n).
  - intros x k'. change (own (put_inst k (with_target a 0 i) n) k') with (own n k'). rewrite release_lookup. intros [Hx Hn].
    destruct (ri_held _ _ Hi x k' Hx) as (H0 & j & Ej & <-). split; [done|].
    destruct (decide (k' = k)) as [->|Hne]; [|exists j; by rewrite lookup_insert_ne].
    rewrite E in Ej. injection Ej as <-. exfalso. apply Hn. by rewrite Eo.
Qed.

(** A free port of the range given to an instance that has none. *)
Lemma grant_step n p k i a x : rule_inv n p -> insts n !! k = Some i -> hostPort i = 0 -> usable_target a = true -> lo n <= x <= hi n ->
  p !! x = None \/ p !! x = Some (own n k) -> rule_step n p (put_inst k (with_target (Some a) x i) n) (<[x := own n k]> p).
Proof.
  intros Hi E Hz Hu Hr Hx. assert (Hfree : p !! x = None).
  { destruct Hx as [?|Hx]; [done|]. destruct (ri_held _ _ Hi x k Hx) as (H0 & j & Ej & Ep). rewrite E in Ej. injection Ej as <-. congruence. }
  pose proof (ri_range _ _ Hi) as Hlo. split; [done| |].
  - split; cbn.
    + done.
    + intros k' j. destruct (decide (k' = k)) as [->|Hne]; [rewrite lookup_insert_eq; intros [= <-]; by apply (ri_key _ _ Hi k i)|rewrite lookup_insert_ne by done; apply Hi].
    + intros k' j. destruct (decide (k' = k)) as [->|Hne].
      * rewrite lookup_insert_eq. intros [= <-] _. cbn. split; [done|]. split; [by rewrite lookup_insert_eq|eauto].
      * rewrite lookup_insert_ne by done. intros Ej Hp. destruct (ri_port _ _ Hi k' j Ej Hp) as (H1 & H2 & H3). split; [done|]. split; [|done].
        rewrite lookup_insert_ne; [done|]. intros Exj. rewrite <-Exj in H2. congruence.
    + intros y k'. change (own (put_inst _ _ n) k') with (own n k'). destruct (decide (y = x)) as [->|Hne].
      * rewrite lookup_insert_eq. intros [= Hk%own_inj]. subst k'. split; [lia|]. eexists. by rewrite lookup_insert_eq.
      * rewrite lookup_insert_ne by done. intros Hy. destruct (ri_held _ _ Hi y k' Hy) as (H0 & j & Ej & Ejp). split; [done|].
        destruct (decide (k' = k)) as [->|]; [|exists j; by rewrite lookup_insert_ne]. congruence.
  - intros y o Ho. destruct (decide (y = x)) as [->|Hne]; [|by rewrite lookup_insert_ne]. rewrite lookup_insert_eq, Hfree. split; [done|].
    intros [= <-]. by destruct (Ho k).
Qed.

(** * One instance's turn *)

Definition learning_step (st st' : learning) : Prop := rule_step (lRule st) (lPorts st) (lRule st') (lPorts st').

Lemma mapTarget_usable subnet l a : mapTarget subnet l = Some a -> usable_target a = true.
Proof. unfold mapTarget. intros [_ Hu]%find_some. by bool_hyps. Qed.

Lemma map_inst_step now subnet st k : rule_inv (lRule st) (lPorts st) -> learning_step st (map_inst now subnet st k).
Proof.
  intros Hi. unfold learning_step, map_inst. destruct (insts (lRule st) !! k) as [i|] eqn:E; [|by apply step_refl].
  destruct (nHosts (lRule st) !! host i) as [h|]; [|by apply step_refl]. destruct (_ || _); [by apply step_refl|].
  destruct (mapTarget subnet (ips h)) as [a|] eqn:Ea; [|by apply step_refl]. destruct (_ && _); [by apply step_refl|].
  pose proof (release_step _ _ k i (Some a) Hi E) as H1.
  pose proof (owner_own _ _ k i Hi E) as Eo. destruct (allocate _ _ _) as [x|] eqn:Ex; cbn; [|exact H1].
  eapply step_trans; [exact H1|]. set (n1 := put_inst k (with_target (Some a) 0 i) (lRule st)) in *.
  assert (Hput : put_inst k (with_target (Some a) x i) (lRule st) = put_inst k (with_target (Some a) x (with_target (Some a) 0 i)) n1).
  { unfold n1, put_inst, set_insts. cbn. by rewrite insert_insert_eq. }
  rewrite Hput, Eo. change (own (lRule st) k) with (own n1 k). unfold allocate in Ex. cbn in Ex.
  assert (Hlh : lo (lRule st) <= hi (lRule st)).
  { destruct (Z.to_nat (hi (lRule st) - lo (lRule st) + 1)) eqn:Ez; [done|lia]. }
  apply probe_some in Ex as [Hx Hfree]; [|lia]. apply grant_step; [apply H1|by apply lookup_insert_eq|done|by eapply mapTarget_usable|cbn; lia|].
  unfold owner in Hfree. cbn in Hfree. rewrite with_target_key, (ri_key _ _ Hi k i E) in Hfree. exact Hfree.
Qed.

(** * Learning *)

(** The name an instance is kept under is the one its display name and class give back: true of
    names whose class is in lower case and whose display name holds no backslash. *)
Definition regular (name : string) : Prop :=
  forall class, classOf name = Some class -> norm (unescapeKeepCase name class +++ "." +++ class +++ ".local.") = norm name.
Definition regular_rr (rr : mRR) : Prop :=
  match hData rr with MPTR p => regular p | MSRV _ _ | MTXT _ => regular (hName rr) | _ => True end.
Definition regular_msg (m : mMsg) : Prop := forall rr, rr ∈ records m -> regular_rr rr.

Lemma ensure_spec n p name k i : rule_inv n p -> regular name -> ensure name n = Some (k, i) ->
  natKey i = k /\ match insts n !! k with Some j => i = j | None => hostPort i = 0 end.
Proof.
  intros Hi Hr. unfold ensure. destruct (classOf name) as [class|] eqn:Ec; [|done]. cbn. destruct (bool_decide _); [|done].
  intros [= <- <-]. destruct (insts n !! norm name) as [j|] eqn:Ej; cbn [default]; [by split; [apply Hi|]|].
  split; [|done]. by apply Hr.
Qed.

Lemma put_ensured n p name k i i' : rule_inv n p -> regular name -> ensure name n = Some (k, i) ->
  natKey i' = natKey i -> hostPort i' = hostPort i -> ip i' = ip i -> rule_step n p (put_inst k i' n) p.
Proof.
  intros Hi Hr He Ek Eh Ei. destruct (ensure_spec n p name k i Hi Hr He) as [Hk Hc]. apply put_step; [done|congruence|].
  destruct (insts n !! k) as [j|]; [by subst|congruence].
Qed.

Lemma goodbye_step name st : rule_inv (lRule st) (lPorts st) -> learning_step st (goodbye name st).
Proof.
  intros Hi. unfold learning_step, goodbye. destruct (insts (lRule st) !! norm name) as [i|] eqn:E; [|by apply step_refl].
  destruct (drop_step _ _ _ _ Hi E) as [Hs _]. by destruct (drop_inst i (lRule st, lPorts st)).
Qed.

Lemma learn_rr_step now st rr : rule_inv (lRule st) (lPorts st) -> regular_rr rr -> learning_step st (learn_rr now st rr).
Proof.
  intros Hi. unfold regular_rr, learn_rr. destruct (hData rr) as [a|a|ptr|sport target|t|t] eqn:Ed; intros Hr; try by apply step_refl.
  - unfold learn_a. destruct (hTtl rr =? 0); [|by apply step_refl]. by apply step_same.
  - unfold learn_ptr. destruct (classOf (hName rr)); [|by apply step_refl]. destruct (negb _); [by apply step_refl|].
    destruct (hTtl rr =? 0); [by apply goodbye_step|]. destruct (ensure ptr (lRule st)) as [[k i]|] eqn:Ee; [|by apply step_refl].
    destruct (_ && _); by eapply put_ensured.
  - unfold learn_srv. destruct (hTtl rr =? 0); [by apply goodbye_step|].
    destruct (ensure (hName rr) (lRule st)) as [[k i]|] eqn:Ee; [|by apply step_refl]. by eapply put_ensured.
  - unfold learn_txt. destruct (ensure (hName rr) (lRule st)) as [[k i]|] eqn:Ee; [|by apply step_refl]. destruct (_ && _); by eapply put_ensured.
Qed.

Lemma fold_step {A} (f : learning -> A -> learning) l st : rule_inv (lRule st) (lPorts st) ->
  (forall st x, x ∈ l -> rule_inv (lRule st) (lPorts st) -> learning_step st (f st x)) -> learning_step st (fold_left f l st).
Proof.
  revert st. induction l as [|x l IH]; intros st Hi Hf; [by apply step_refl|]. cbn. pose proof (Hf st x ltac:(left) Hi) as H1.
  eapply step_trans; [exact H1|]. apply IH; [apply H1|]. intros st' y Hy. apply Hf. by right.
Qed.

(** The rule once the records of a packet are read. *)
Definition heard_rule (now : Z) (m : mMsg) (n : natRule) (p : ports) : natRule :=
  let st := learn_records now m n p in set_hosts (announced st ∪ nHosts (lRule st)) (lRule st).

Lemma records_step now m n p : rule_inv n p -> regular_msg m -> rule_step n p (heard_rule now m n p) (lPorts (learn_records now m n p)).
Proof.
  intros Hi Hm. assert (H1 : rule_step n p (lRule (learn_records now m n p)) (lPorts (learn_records now m n p))).
  { apply (fold_step (learn_rr now) (records m) (mkLearning n p ∅ false) Hi). intros st' rr Hrr Hi'. apply learn_rr_step; [done|]. by apply Hm. }
  eapply step_trans; [exact H1|]. apply step_same; [apply H1|done|done].
Qed.

Lemma learn_step shuffle now subnet m n p n' p' c : rule_inv n p -> regular_msg m -> learn shuffle now subnet m n p = (n', p', c) -> rule_step n p n' p'.
Proof.
  intros Hi Hm. unfold learn. pose proof (records_step now m n p Hi Hm) as H1. unfold heard_rule in H1.
  set (st := learn_records now m n p) in *. set (n1 := set_hosts _ (lRule st)) in *.
  set (st1 := mkLearning n1 (lPorts st) ∅ (changed st)). set (st2 := fold_left _ _ _). intros [= <- <- <-].
  eapply step_trans; [exact H1|]. apply (fold_step (map_inst now subnet) (ranged shuffle n1) st1); [apply H1|]. intros st' k _. apply map_inst_step.
Qed.

Lemma expire_step shuffle now n p n' p' c : rule_inv n p -> expire shuffle now n p = (n', p', c) -> rule_step n p n' p'.
Proof.
  intros Hi. unfold expire.
  assert (G : forall l n0 p0 c0, rule_inv n0 p0 -> rule_step n0 p0 (fst (fst (fold_left (expire_inst now) l (n0, p0, c0)))) (snd (fst (fold_left (expire_inst now) l (n0, p0, c0))))).
  { clear. induction l as [|k l IH]; intros n p c Hi; [by apply step_refl|]. cbn [fold_left]. unfold expire_inst at 2 4.
    destruct (insts n !! k) as [i|] eqn:E; [|by apply IH]. destruct (expires i) as [e|]; [|by apply IH]. destruct (e <=? now); [|by apply IH].
    destruct (drop_step n p k i Hi E) as [Hs _]. destruct (drop_inst i (n, p)) as [n1 p1]. cbn in Hs. eapply step_trans; [exact Hs|]. apply IH, Hs. }
  specialize (G (ranged shuffle n) n p false Hi). destruct (fold_left _ _ _) as [[n1 p1] c1]. cbn in G. intros [= <- <- <-].
  eapply step_trans; [exact G|]. apply step_same; [apply G|done|done].
Qed.

(** * What can be mapped is *)

Lemma allocate_full n i p : allocate n i p = None -> hi n - lo n + 1 <= Z.of_nat (size p).
Proof.
  intros E. set (range := list_to_set (seqZ (lo n) (hi n - lo n + 1)) : gset Z).
  assert (Hr : range ⊆ dom p).
  { intros x Hx. unfold range in Hx. apply elem_of_list_to_set, elem_of_seqZ in Hx. destruct (allocate_none n i p x E) as (o & Ho & _); [lia|].
    by apply elem_of_dom_2 in Ho. }
  apply subseteq_size in Hr. rewrite size_dom in Hr. unfold range in Hr. rewrite size_list_to_set in Hr by apply NoDup_seqZ.
  rewrite length_seqZ in Hr. lia.
Qed.

Lemma release_size n i p : (size (release n i p) <= size p)%nat.
Proof.
  unfold release. destruct (hostPort i =? 0); [done|]. destruct (p !! hostPort i) as [o|]; [|done]. destruct (o =?s _); [|done].
  apply map_subseteq_size, delete_subseteq.
Qed.

(** The instance is mapped as its host's addresses say. *)
Definition mapped (now : Z) (subnet : list Prefix) (n : natRule) (i : natInstance) : Prop :=
  forall h a, nHosts n !! host i = Some h -> now < exp h -> port i <> 0 -> mapTarget subnet (ips h) = Some a -> ip i = Some a /\ hostPort i <> 0.

Lemma map_inst_frame now subnet st k : rule_inv (lRule st) (lPorts st) ->
  let st' := map_inst now subnet st k in
  nHosts (lRule st') = nHosts (lRule st) /\ dom (insts (lRule st')) = dom (insts (lRule st))
  /\ (forall k', k' <> k -> insts (lRule st') !! k' = insts (lRule st) !! k') /\ (size (lPorts st') <= size (lPorts st) + 1)%nat
  /\ (Z.of_nat (size (lPorts st)) <= hi (lRule st) - lo (lRule st) -> forall i, insts (lRule st') !! k = Some i -> mapped now subnet (lRule st') i).
Proof.
  intros Hi st'. unfold st', map_inst. destruct (insts (lRule st) !! k) as [i|] eqn:E.
  2:{ split_and!; try done; [lia|]. intros _ i Ei. congruence. }
  assert (Hno : (forall h a, nHosts (lRule st) !! host i = Some h -> now < exp h -> port i <> 0 -> mapTarget subnet (ips h) = Some a -> False) ->
    Z.of_nat (size (lPorts st)) <= hi (lRule st) - lo (lRule st) -> forall j, insts (lRule st) !! k = Some j -> mapped now subnet (lRule st) j).
  { intros Hf _ j Ej. assert (j = i) as -> by congruence. intros h a H1 H2 H3 H4. exfalso. by eapply Hf. }
  destruct (nHosts (lRule st) !! host i) as [h|] eqn:Eh; [|split_and!; try done; [lia|apply Hno; congruence]].
  destruct ((exp h <=? now) || (port i =? 0)) eqn:Eb.
  { split_and!; try done; [lia|]. apply Hno. intros h' a [= <-] H2 H3 _. apply orb_prop in Eb as [Eb%Z.leb_le|Eb%Z.eqb_eq]; lia. }
  destruct (mapTarget subnet (ips h)) as [a|] eqn:Ea; [|split_and!; try done; [lia|apply Hno; congruence]].
  destruct (bool_decide (ip i = Some a) && negb (hostPort i =? 0)) eqn:Ed.
  { apply andb_prop in Ed as [Ed1%bool_decide_eq_true Ed2]. split_and!; try done; [lia|]. intros _ j Ej h' a' H1 _ _ H4. assert (j = i) as -> by congruence.
    rewrite Eh in H1. injection H1 as <-. rewrite Ea in H4. injection H4 as <-. split; [done|]. destruct (Z.eqb_spec (hostPort i) 0); done. }
  pose proof (release_size (lRule st) i (lPorts st)) as Hrel. destruct (allocate _ _ _) as [x|] eqn:Ex; cbn [lRule lPorts nHosts insts put_inst set_insts].
  - split_and!; try done.
    + rewrite dom_insert_L. apply elem_of_dom_2 in E. set_solver.
    + intros k' Hk. by rewrite lookup_insert_ne.
    + rewrite map_size_insert. destruct (_ !! x); cbn; lia.
    + intros _ j. rewrite lookup_insert_eq. intros [= <-] h' a' H1 _ _ H4. cbn in *. rewrite Eh in H1. injection H1 as <-. rewrite Ea in H4.
      injection H4 as <-. split; [done|]. unfold allocate in Ex. cbn in Ex.
      assert (Hlh : lo (lRule st) <= hi (lRule st)) by (destruct (Z.to_nat (hi (lRule st) - lo (lRule st) + 1)) eqn:Ez; [done|lia]).
      apply probe_some in Ex as [Hx _]; [|lia]. pose proof (ri_range _ _ Hi). lia.
  - split_and!; try done.
    + rewrite dom_insert_L. apply elem_of_dom_2 in E. set_solver.
    + intros k' Hk. by rewrite lookup_insert_ne.
    + lia.
    + intros Hroom. apply allocate_full in Ex. cbn in Ex. lia.
Qed.

Lemma map_insts now subnet ks st : rule_inv (lRule st) (lPorts st) -> NoDup ks ->
  Z.of_nat (size (lPorts st) + length ks) <= hi (lRule st) - lo (lRule st) + 1 ->
  let st' := fold_left (map_inst now subnet) ks st in
  nHosts (lRule st') = nHosts (lRule st) /\ dom (insts (lRule st')) = dom (insts (lRule st))
  /\ (forall k, k ∉ ks -> insts (lRule st') !! k = insts (lRule st) !! k)
  /\ (forall k i, k ∈ ks -> insts (lRule st') !! k = Some i -> mapped now subnet (lRule st') i).
Proof.
  revert st. induction ks as [|k ks IH]; intros st Hi Hn Hroom st'.
  { split_and!; try done. by intros k i ?%elem_of_nil. }
  apply NoDup_cons in Hn as [Hk Hn]. cbn [length] in Hroom. destruct (map_inst_frame now subnet st k Hi) as (F1 & F2 & F3 & F4 & F5).
  pose proof (map_inst_step now subnet st k Hi) as Hs. pose proof (rs_rule _ _ _ _ Hs) as (_ & _ & Elo & Ehi & _).
  destruct (IH (map_inst now subnet st k)) as (G1 & G2 & G3 & G4); [apply Hs|done|rewrite Elo, Ehi; lia|]. unfold st'. cbn [fold_left].
  rewrite G1, G2, F1, F2. split_and!; try done.
  - intros k' Hk'. rewrite not_elem_of_cons in Hk'. rewrite G3 by tauto. apply F3. tauto.
  - intros k' i [->|Hk']%elem_of_cons; [|by apply G4]. rewrite G3 by done. intros Ei h a H1. rewrite G1 in H1. by apply (F5 ltac:(lia) i Ei h a).
Qed.

Lemma learn_rr_ports now st rr : (size (lPorts (learn_rr now st rr)) <= size (lPorts st))%nat.
Proof.
  assert (Hg : forall name, (size (lPorts (goodbye name st)) <= size (lPorts st))%nat).
  { intros name. unfold goodbye. destruct (insts (lRule st) !! norm name) as [i|]; [|done]. unfold drop_inst.
    destruct (hostPort i =? 0); cbn; [done|]. apply release_size. }
  unfold learn_rr. destruct (hData rr); try done; unfold learn_a, learn_ptr, learn_srv, learn_txt; repeat case_match; try done; apply Hg.
Qed.

Lemma learn_records_ports now m n p : (size (lPorts (learn_records now m n p)) <= size p)%nat.
Proof.
  unfold learn_records. apply (fold_left_inv _ (fun st => size (lPorts st) <= size p)%nat); [|done].
  intros rr st _ Hs. pose proof (learn_rr_ports now st rr). lia.
Qed.

Lemma elem_of_mappings n i a : (exists k, insts n !! k = Some i) -> hostPort i <> 0 -> ip i = Some a ->
  mkMapping (ifName (nTo n)) (protoOf (service i)) (hostPort i) a (port i) ∈ mappings n.
Proof.
  intros (k & Ek) Hp Ea. unfold mappings. apply list_elem_of_In, in_flat_map. exists i. split.
  - apply list_elem_of_In. unfold published. rewrite merge_sort_Permutation. apply list_elem_of_In, filter_In. split.
    + apply in_map_iff. exists (k, i). split; [done|]. by apply list_elem_of_In, elem_of_map_to_list.
    + unfold is_published. rewrite Ea. apply Z.eqb_neq in Hp. by rewrite Hp.
  - unfold mapping. rewrite Ea. by left.
Qed.

(** What can be reached is published.  After a packet is learned, while the interface has room
    for the rule's instances, every instance whose port is known and whose host has announced an
    address of its own network that has not lapsed is in the DNAT table, from a port of the rule's
    range that the pool records as its own to that address and port, in whatever order the
    instances are visited. *)
Theorem nat_publishes shuffle now subnet m n p n' p' c :
  (forall l, shuffle l ≡ₚ l) -> rule_inv n p -> regular_msg m -> learn shuffle now subnet m n p = (n', p', c) ->
  Z.of_nat (size p + size (insts n')) <= hi n - lo n + 1 ->
  forall k i h a, insts n' !! k = Some i -> nHosts n' !! host i = Some h -> now < exp h -> port i <> 0 -> mapTarget subnet (ips h) = Some a ->
  mkMapping (ifName (nTo n)) (protoOf (service i)) (hostPort i) a (port i) ∈ mappings n'
  /\ lo n <= hostPort i <= hi n /\ p' !! hostPort i = Some (owner n i).
Proof.
  intros Hsh Hi Hm Hl Hroom k i h a Ek Eh Hnow Hport Ha. pose proof (learn_step _ _ _ _ _ _ _ _ _ Hi Hm Hl) as Hstep.
  pose proof (rs_rule _ _ _ _ Hstep) as (Ef & Et & Elo & Ehi & _). unfold learn in Hl.
  set (st := learn_records now m n p) in Hl. set (n1 := set_hosts _ (lRule st)) in Hl. set (st1 := mkLearning n1 (lPorts st) ∅ (changed st)) in Hl.
  pose proof (records_step now m n p Hi Hm) as H1. change (heard_rule now m n p) with n1 in H1. fold st in H1.
  pose proof (rs_rule _ _ _ _ H1) as (_ & _ & Elo1 & Ehi1 & _).
  assert (Hn : NoDup (ranged shuffle n1)) by (unfold ranged; rewrite Hsh; apply NoDup_fst_map_to_list).
  assert (Hlen : length (ranged shuffle n1) = size (dom (insts n1))).
  { unfold ranged. rewrite Hsh, length_map, size_dom. by rewrite length_map_to_list. }
  pose proof (learn_records_ports now m n p) as Hps. fold st in Hps.
  assert (Hfold : let st2 := fold_left (map_inst now subnet) (ranged shuffle n1) st1 in dom (insts (lRule st2)) = dom (insts n1)).
  { cbn. clear -H1. assert (G : forall ks st, rule_inv (lRule st) (lPorts st) -> dom (insts (lRule (fold_left (map_inst now subnet) ks st))) = dom (insts (lRule st))).
    { induction ks as [|x ks IH]; intros st0 Hi0; [done|]. cbn. rewrite IH by (apply (map_inst_step now subnet st0 x Hi0)).
      by destruct (map_inst_frame now subnet st0 x Hi0) as (_ & E & _). }
    apply (G _ st1). apply H1. }
  destruct (map_insts now subnet (ranged shuffle n1) st1) as (G1 & G2 & G3 & G4); [apply H1|done| |].
  { change (lRule st1) with n1. change (lPorts st1) with (lPorts st). cbn zeta in Hfold.
    rewrite Elo1, Ehi1, Hlen, <-Hfold, size_dom. injection Hl as <- _ _. lia. }
  injection Hl as E1 E2 E3. rewrite E1 in G2, G4. assert (Hk : k ∈ ranged shuffle n1).
  { apply elem_of_dom_2 in Ek. rewrite G2 in Ek. unfold ranged. rewrite Hsh, list_elem_of_In, in_map_iff.
    apply elem_of_dom in Ek as [j Ej]. exists (k, j). split; [done|]. by apply list_elem_of_In, elem_of_map_to_list. }
  destruct (G4 k i Hk Ek h a Eh Hnow Hport Ha) as [Hip Hhp]. rewrite <-Et. split; [apply elem_of_mappings; eauto|].
  destruct (ri_port _ _ (rs_inv _ _ _ _ Hstep) k i Ek Hhp) as (Hr & Hp & _). rewrite Elo, Ehi in Hr. split; [done|].
  rewrite Hp. f_equal. unfold own, owner. by rewrite Ef, (ri_key _ _ (rs_inv _ _ _ _ Hstep) k i Ek).
Qed.
End NatInv.
