(* ===== verification/MdnsService.v ===== *)
(** The mDNS service (internal/mdns/service.go, and the parts of nat.go that publish): resolving
    the rules against the interfaces of the host, handling a packet, the sweep of lapsed instances,
    and replacing the configuration.

    A packet is handled in one step at one time.  What is sent is a list of [sent]; the DNAT table
    is handed to nft as text. *)

From S2P Require Import Prelude NetAddr Dns Mdns Reflect Advertise MdnsNat.
Local Open Scope Z_scope.

(** * Endpoints *)

Definition endpointLimit : nat := 32.

Definition endpoints (name : string) (all : list NetIf) : result string (list NetIf) :=
  if is_pattern name then
    match mapM (fun i => Match name (ifName i)) all with
    | None => Err "bad interface pattern"
    | Some hits =>
      let matched := map snd (List.filter fst (zip hits all)) in
      let out := List.filter (fun i => ifMulticast i && ifUp i) matched in
      fail_if (endpointLimit <? length out)%nat "pattern matches too many interfaces";;
      fail_if (match out with [] => true | _ => false end) "pattern matches no usable interface";;
      Ok out
    end
  else match find (fun i => ifName i =?s name) all with
       | Some i => if ifMulticast i then Ok [i] else Err "not multicast capable"
       | None => Err "interface not found"
       end.

Record plan := mkPlan { pIfaces : gmap Z NetIf; pAdvertise : gset Z; pEdges : list relaying; pNats : list natRule }.

Definition add_ifaces (is_ : list NetIf) (m : gmap Z NetIf) : gmap Z NetIf := fold_left (fun m i => <[ifIndex i := i]> m) is_ m.

Section Service.
Context `{CaseFold} (rr_text : mRR -> string).

Definition plan_advertised (all : list NetIf) (pl : plan) (name : string) : result string plan :=
  matched ← endpoints name all;
  match matched with
  | i :: _ => Ok (mkPlan (<[ifIndex i := i]> (pIfaces pl)) ({[ifIndex i]} ∪ pAdvertise pl) (pEdges pl) (pNats pl))
  | [] => Ok pl
  end.

(** One ordered pair of interfaces of a rule. *)
Definition plan_pair (reserved : gset string) (rule : ReflectRule) (pl : plan) (ft : NetIf * NetIf) : result string plan :=
  let '(f, t) := ft in
  if ifIndex f =? ifIndex t then Ok pl
  else match Advertise rule with
       | None => Ok (mkPlan (pIfaces pl) (pAdvertise pl) (pEdges pl ++ [mkRelaying rule (ifIndex f) (ifIndex t)]) (pNats pl))
       | Some cfg => match newNATRule cfg f t reserved with
                     | Some n => Ok (mkPlan (pIfaces pl) (pAdvertise pl) (pEdges pl) (pNats pl ++ [n]))
                     | None => Err "ports"
                     end
       end.
Definition plan_rule (all : list NetIf) (reserved : gset string) (pl : plan) (rule : ReflectRule) : result string plan :=
  froms ← endpoints (From rule) all;
  tos ← endpoints (To rule) all;
  fold_m (plan_pair reserved rule) (mkPlan (add_ifaces (froms ++ tos) (pIfaces pl)) (pAdvertise pl) (pEdges pl) (pNats pl)) (list_prod froms tos).

Definition planRules (cfg : mConfig) (all : list NetIf) (reserved : gset string) : result string plan :=
  pl ← match Records cfg with
       | [] => Ok (mkPlan ∅ ∅ [] [])
       | _ => fold_m (plan_advertised all) (mkPlan ∅ ∅ [] []) (Interfaces cfg)
       end;
  fold_m (plan_rule all reserved) pl (Reflect cfg).

(** * The running service *)

Record running := mkRunning {
  rA : answerer; rIfaces : gmap Z NetIf; rAdvertise : gset Z;
  relays : list relay; nats : list natRule; pools : gmap Z ports;
  probing : bool; clash : string;
}.
Definition set_relays (x : list relay) (r : running) : running :=
  mkRunning (rA r) (rIfaces r) (rAdvertise r) x (nats r) (pools r) (probing r) (clash r).
Definition set_nats (x : list natRule) (p : gmap Z ports) (r : running) : running :=
  mkRunning (rA r) (rIfaces r) (rAdvertise r) (relays r) x p (probing r) (clash r).
Definition set_clash (b : bool) (x : string) (r : running) : running :=
  mkRunning (rA r) (rIfaces r) (rAdvertise r) (relays r) (nats r) (pools r) b x.

Inductive sent :=
| Forward (ifx : Z) (m : mMsg)
| Emit (ifx : Z) (m : mMsg)
| Reply (ifx : Z) (unicast : bool) (m : mMsg)
| Install (script : string).

Definition pool_of (r : running) (n : natRule) : ports := default ∅ (pools r !! ifIndex (nTo n)).

(** * Translated instances *)

Definition applyNAT (r : running) : list sent :=
  match nats r with [] => [] | _ => [Install (renderNAT (flat_map mappings (nats r)))] end.

Definition own_response (rrs : list mRR) : mMsg := mkMMsg 0 true true 0 [] rrs [].

Definition announceNAT (r : running) (n : natRule) (ttl : Z) : natRule * list sent :=
  let name := match rIfaces r !! ifIndex (nTo n) with Some i => ifName i | None => EmptyString end in
  let rrs := announcement (answererFor n (published n) (addrs (rA r))) name ttl in
  let '(gone, n') := takeRemoved n in
  let bye := List.filter (fun rr => existsb (Z.eqb (Rrtype rr)) [TypePTR; TypeSRV; TypeTXT]) (announcement (answererFor n gone (addrs (rA r))) name 0) in
  (n', (match rrs with [] => [] | _ => [Emit (ifIndex (nTo n)) (own_response rrs)] end)
       ++ match gone, ttl =? 0, bye with
          | _ :: _, false, _ :: _ => [Emit (ifIndex (nTo n)) (own_response bye)]
          | _, _, _ => []
          end).

(** A rule changed by [f]; if that changed what it publishes, the table and the announcement. *)
Definition update_rule (f : natRule -> ports -> natRule * ports * bool) (st : running * list sent) (idx : nat) : running * list sent :=
  let '(r, out) := st in
  match nats r !! idx with
  | None => st
  | Some n =>
    let '(n', p', c) := f n (pool_of r n) in
    let r' := set_nats (<[idx := n']> (nats r)) (<[ifIndex (nTo n) := p']> (pools r)) r in
    if c : bool then
      let '(n2, announced) := announceNAT r' n' ttlService in
      (set_nats (<[idx := n2]> (nats r')) (pools r') r', out ++ applyNAT r' ++ announced)
    else (r', out)
  end.

Definition subnet_of (r : running) (n : natRule) : list Prefix := default [] (addrs (rA r) (ifName (nFrom n))).

Definition natLearn (shuffle : list string -> list string) (now : Z) (m : mMsg) (ifx : Z) (r : running) : running * list sent :=
  fold_left (fun st idx =>
    match nats (fst st) !! idx with
    | Some n => if negb (ifx =? ifIndex (nFrom n)) || negb (mResponse m) then st
                else update_rule (learn shuffle now (subnet_of (fst st) n) m) st idx
    | None => st
    end) (seq 0 (length (nats r))) (r, []).

(** runNAT: one tick. *)
Definition sweep (shuffle : list string -> list string) (now : Z) (r : running) : running * list sent :=
  fold_left (update_rule (expire shuffle now)) (seq 0 (length (nats r))) (r, []).

(** * Packets *)

Record packet := mkPacket { pkMsg : option mMsg; pkSrc : Addr; pkPort : Z; pkIf : Z }.

Definition Unmap (a : Addr) : Addr := match a with Addr6 n z => if Z.shiftr n 32 =? 65535 then Addr4 (n mod 2^32) else a | _ => a end.
Definition ownAddress (r : running) (a : Addr) : bool :=
  existsb (fun ii : Z * NetIf =>
    match addrs (rA r) (ifName (snd ii)) with
    | Some ps => existsb (fun p => bool_decide (PAddr p = Unmap a)) ps
    | None => false
    end) (map_to_list (rIfaces r)).

Definition PortMDNS_ : Z := 5353.
Definition legacy (rr : mRR) : mRR := mkMRR (hName rr) ClassINET (Z.min (hTtl rr) 10) (hData rr).
(** reply: multicast, or unicast for a QU question or a legacy resolver. *)
Definition reply_to_query (m resp : mMsg) (sport ifx : Z) : sent :=
  let unicast := negb (sport =? PortMDNS_) || existsb (fun q => Z.testbit (qClass q) 15) (mQuestion m) in
  if unicast then
    let f := if sport =? PortMDNS_ then id else map legacy in
    Reply ifx true (mkMMsg (mId m) (mResponse resp) (mAuthoritative resp) (mOpcode resp) (mQuestion m) (f (mAnswer resp)) (f (mExtra resp)))
  else Reply ifx false resp.

Definition natAnswer (now : Z) (m : mMsg) (sport ifx : Z) (r : running) : list sent :=
  if mResponse m then []
  else flat_map (fun n =>
         if ifx =? ifIndex (nTo n) then
           let name := match rIfaces r !! ifx with Some i => ifName i | None => EmptyString end in
           (match Answer rr_text (answererFor n (published n) (addrs (rA r))) m name with
            | Some resp => [reply_to_query m resp sport ifx] | None => [] end)
           ++ (match Queries now (nFilter n) m with Some q => [Forward (ifIndex (nFrom n)) q] | None => [] end)
         else []) (nats r).

Definition handle (shuffle : list string -> list string) (now : Z) (pk : packet) (r : running) : running * list sent :=
  match rIfaces r !! pkIf pk, pkMsg pk with
  | Some i, Some m =>
    if ownAddress r (pkSrc pk) then (r, [])
    else
      let '(rs, fwd) := reflect now m (pkIf pk) (relays r) in
      let '(r1, learned) := natLearn shuffle now m (pkIf pk) (set_relays rs r) in
      let out := map (fun x => Forward (fst x) (snd x)) fwd ++ learned ++ natAnswer now m (pkPort pk) (pkIf pk) r1 in
      if negb (bool_decide (pkIf pk ∈ rAdvertise r)) then (r1, out)
      else if mResponse m then
        (if probing r1 && is_empty (clash r1) then set_clash true (conflicts (rA r1) m) r1 else r1, out)
      else match Answer rr_text (rA r1) m (ifName i) with
           | Some resp => (r1, out ++ [reply_to_query m resp (pkPort pk) (pkIf pk)])
           | None => (r1, out)
           end
  | _, _ => (r, [])
  end.

(** The announcement of the configured records, and what stopping sends. *)
Definition announce (r : running) (ttl : Z) : list sent :=
  flat_map (fun idx => match rIfaces r !! idx with
                       | Some i => [Emit (ifIndex i) (own_response (announcement (rA r) (ifName i) ttl))]
                       | None => [Emit 0 (own_response (announcement (rA r) EmptyString ttl))]
                       end) (elements (rAdvertise r)).
Definition stop (r : running) : list sent :=
  flat_map (fun n => snd (announceNAT r n 0)) (nats r)
  ++ (match nats r with [] => [] | _ => [Install (renderNAT [])] end) ++ announce r 0.

(** * Replacing the configuration *)

(** What the host answers while a configuration starts: its interfaces, whether the port can be
    bound and the groups joined, and the packets heard while names are probed. *)
Record start_env := mkStartEnv {
  seAddrs : string -> option (list Prefix); seInterfaces : option (list NetIf); seBind : bool; seJoin : NetIf -> bool;
  seHeard : list (Z * packet); seShuffle : list string -> list string;
}.

Definition reserved_names (cfg : mConfig) : gset string := if is_empty (Host cfg) then ∅ else {[Host cfg]}.

Definition launched (cfg : mConfig) (env : start_env) (pl : plan) : running :=
  mkRunning (mkAnswerer cfg (seAddrs env)) (pIfaces pl) (pAdvertise pl) (planRelays (pEdges pl)) (pNats pl) ∅
    (match Records cfg with [] => false | _ => true end) EmptyString.

Definition start (cfg : mConfig) (env : start_env) : result string running * list sent :=
  match seInterfaces env with
  | None => (Err "cannot enumerate interfaces", [])
  | Some all =>
    match planRules cfg all (reserved_names cfg) with
    | Err e => (Err e, [])
    | Ok pl =>
      if negb (seBind env) then (Err "cannot bind", [])
      else if negb (forallb (fun ii : Z * NetIf => seJoin env (snd ii)) (map_to_list (pIfaces pl))) then (Err "join", [])
      else
        let r0 := launched cfg env pl in
        match Records cfg with
        | [] => (Ok r0, applyNAT r0)
        | _ =>
          let '(r1, out) := fold_left (fun st np => let '(r, out) := handle (seShuffle env) (fst np) (snd np) (fst st) in (r, snd st ++ out))
                              (seHeard env) (r0, applyNAT r0) in
          if is_empty (clash r1) then let r2 := set_clash false EmptyString r1 in (Ok r2, out ++ announce r2 ttlService)
          else (Err "name is already advertised by another host", out)
        end
    end
  end.

Record Service_ := mkService { sCfg : mConfig; sRun : option running }.

(** Apply: [env] for the new configuration, [env'] for the restored one. *)
Definition Apply (cfg : mConfig) (env env' : start_env) (s : Service_) : Service_ * result string unit * list sent :=
  match Validate cfg with
  | Err e => (s, Err e, [])
  | Ok _ =>
    let bye := match sRun s with Some r => stop r | None => [] end in
    if Empty cfg then (mkService cfg None, Ok tt, bye)
    else match start cfg env with
         | (Ok r, out) => (mkService cfg (Some r), Ok tt, bye ++ out)
         | (Err e, out) =>
           match sRun s with
           | None => (mkService (sCfg s) None, Err e, bye ++ out)
           | Some _ =>
             match start (sCfg s) env' with
             | (Ok r, out') => (mkService (sCfg s) (Some r), Err e, bye ++ out ++ out')
             | (Err _, out') => (mkService (sCfg s) None, Err e, bye ++ out ++ out')
             end
           end
         end
  end.
Definition Close_ (s : Service_) : Service_ * list sent :=
  (mkService (sCfg s) None, match sRun s with Some r => stop r | None => [] end).
End Service.
