(* ===== verification/MdnsInv.v ===== *)
(** The running mDNS service: what it translates never shares a port, and what it relays is what
    its configuration says. *)

From S2P Require Import Prelude NetAddr LedgerInv Config KeyText ConfigInv Dns DnsInv Mdns Reflect ReflectInv Advertise AdvertiseInv MdnsNat NatInv MdnsService.
From Stdlib Require Import Ascii.
Local Open Scope Z_scope.

(** * Names *)

Section Regular.
Context `{CaseFold}.

Definition no_backslash (l : list ascii) : bool := forallb (fun c => negb (Ascii.eqb c backslash)) l.

Lemma unescape_dot n x rest : (length x <= n)%nat -> no_backslash rest = true -> no_backslash (unescape x) = true ->
  unescape (x ++ "."%char :: rest) = unescape x ++ "."%char :: rest.
Proof.
  unfold no_backslash. intros Hn Hr. revert x Hn. induction n as [|n IH]; intros x Hn Hx.
  { destruct x; [|cbn in Hn; lia]. by apply unescape_plain. }
  destruct x as [|c x]; [by apply unescape_plain|]. cbn [length app] in *. cbn [unescape] in *. destruct (Ascii.eqb c backslash) eqn:Ec.
  - destruct x as [|d1 x]; [cbn [forallb] in Hx; by rewrite Ec in Hx|]. cbn [app].
    assert (Hstep : forallb (fun c => negb (Ascii.eqb c backslash)) (d1 :: unescape x) = true ->
      d1 :: unescape (x ++ "."%char :: rest) = (d1 :: unescape x) ++ "."%char :: rest).
    { cbn [forallb]. intros [_ Hx']%andb_prop. cbn [app]. f_equal. apply IH; [cbn in Hn; lia|done]. }
    destruct x as [|d2 [|d3 x]]; cbn [app] in *.
    + destruct rest as [|d3 rest]; [by apply Hstep|]. replace (is_digit "."%char) with false by done. rewrite !andb_false_r. by apply Hstep.
    + replace (is_digit "."%char) with false by done. rewrite andb_false_r. by apply Hstep.
    + match goal with |- context [if ?b then _ else _] => destruct b end; [|by apply Hstep].
      cbn [app]. f_equal. apply IH; [cbn in Hn; lia|]. cbn [forallb] in Hx. by apply andb_prop in Hx as [_ ?].
  - cbn [app]. f_equal. apply IH; [lia|]. cbn [forallb] in Hx. by apply andb_prop in Hx as [_ ?].
Qed.

(** Ordinary instance names: a display name without a backslash, under a class in lower case. *)
Lemma regular_instance x class name : name = x +++ "." +++ class +++ ".local." -> classOf name = Some class ->
  str_forallb class_char class = true -> no_backslash (unescape (string_chars x)) = true -> regular name.
Proof.
  intros -> Hc Hcl Hx class' Hc'. assert (class' = class) as -> by congruence.
  assert (Hu : unescapeKeepCase (x +++ "." +++ class +++ ".local.") class = string_of_chars (unescape (string_chars x))).
  { unfold unescapeKeepCase. replace (x +++ "." +++ class +++ ".local.") with (((x +++ "." +++ class) +++ ".local") +++ ".") by (by rewrite !append_assoc).
    by rewrite !trim_suffix_app. }
  assert (Hr : no_backslash (string_chars (class +++ ".local.")) = true).
  { apply class_unescaped. unfold str_forallb in *. rewrite chars_app, forallb_app, Hcl. done. }
  rewrite Hu. clear Hu Hc Hc'. set (R := class +++ ".local.") in *. unfold norm. f_equal. f_equal.
  rewrite (chars_app (string_of_chars _)), (chars_app x), chars_of_chars. change (string_chars ("." +++ R)) with ("."%char :: string_chars R).
  rewrite (unescape_dot _ (string_chars x) _ (Nat.le_refl _)) by done. rewrite (unescape_dot _ (unescape (string_chars x)) _ (Nat.le_refl _)); [|done|by rewrite unescape_plain].
  f_equal. by apply unescape_plain.
Qed.
End Regular.

(** * Ports *)

Section Ports.
Context `{CaseFold} (rr_text : mRR -> string).

(** Rules that publish on one interface learn from interfaces of different names. *)
Definition distinct_sources (ns : list natRule) : Prop :=
  forall a b n n', ns !! a = Some n -> ns !! b = Some n' -> a <> b -> ifIndex (nTo n) = ifIndex (nTo n') -> ifName (nFrom n) <> ifName (nFrom n').
Definition plain_sources (ns : list natRule) : Prop := forall n, n ∈ ns -> contains_char "|" (ifName (nFrom n)) = false.

Lemma own_apart n n' k k' : contains_char "|" (ifName (nFrom n)) = false -> contains_char "|" (ifName (nFrom n')) = false ->
  own n k = own n' k' -> ifName (nFrom n) = ifName (nFrom n').
Proof.
  unfold own. intros H1 H2 E%(f_equal (split_char "|")). cbn [String.append] in E. rewrite !split_char_cut in E by done. by injection E.
Qed.

(** Each rule is in order with the pool of its interface, and a pool holds nothing else. *)
Record nats_inv (ns : list natRule) (ps : gmap Z ports) : Prop := {
  ni_rule n : n ∈ ns -> rule_inv n (default ∅ (ps !! ifIndex (nTo n)));
  ni_owner t p x o : ps !! t = Some p -> p !! x = Some o -> exists n k, n ∈ ns /\ ifIndex (nTo n) = t /\ o = own n k;
  ni_distinct : distinct_sources ns;
  ni_plain : plain_sources ns;
}.

Lemma elem_insert (ns : list natRule) idx n n' x : ns !! idx = Some n -> x ∈ <[idx := n']> ns ->
  x = n' \/ exists j, j <> idx /\ ns !! j = Some x.
Proof.
  intros E [j Hj]%list_elem_of_lookup. destruct (decide (j = idx)) as [->|Hne].
  - rewrite list_lookup_insert_eq in Hj by (by eapply lookup_lt_Some). left. congruence.
  - rewrite list_lookup_insert_ne in Hj by done. eauto.
Qed.

Lemma nats_step ns ps idx n n' p' : nats_inv ns ps -> ns !! idx = Some n -> rule_step n (default ∅ (ps !! ifIndex (nTo n))) n' p' ->
  nats_inv (<[idx := n']> ns) (<[ifIndex (nTo n) := p']> ps).
Proof.
  intros [Hr Ho Hd Hp] E [(Ef & Et & Elo & Ehi & Efl) Hinv Hk]. assert (Hin : n ∈ ns) by (by eapply list_elem_of_lookup_2).
  assert (Hback : forall a x, <[idx := n']> ns !! a = Some x -> exists y, ns !! a = Some y /\ nFrom x = nFrom y /\ nTo x = nTo y).
  { intros a x Ha. destruct (decide (a = idx)) as [->|Hne].
    - rewrite list_lookup_insert_eq in Ha by (by eapply lookup_lt_Some). injection Ha as <-. eauto.
    - rewrite list_lookup_insert_ne in Ha by done. eauto. }
  split.
  - intros x [->|(j & Hj & Ex)]%(elem_insert ns idx n); [rewrite Et, lookup_insert_eq; done| |done].
    assert (Hx : x ∈ ns) by (by eapply list_elem_of_lookup_2). specialize (Hr x Hx).
    destruct (decide (ifIndex (nTo x) = ifIndex (nTo n))) as [Ei|Hne]; [|by rewrite lookup_insert_ne].
    rewrite Ei, lookup_insert_eq in *. cbn [default].
    assert (Hap : forall k k', own x k <> own n k').
    { intros k k' Eo%own_apart; [|by apply Hp..]. by apply (Hd j idx x n). }
    split; try apply Hr.
    + intros k i Ek Hh. destruct (ri_port _ _ Hr k i Ek Hh) as (H1 & H2 & H3). split; [done|]. split; [|done]. apply Hk; [intros k'; apply Hap|done].
    + intros y k Hy. apply (ri_held _ _ Hr). apply Hk in Hy; [done|intros k'; apply Hap].
  - intros t p x o Ht Hx. destruct (decide (t = ifIndex (nTo n))) as [->|Hne].
    + rewrite lookup_insert_eq in Ht. injection Ht as <-.
      assert (Hown : (exists k, o = own n k) \/ forall k, o <> own n k).
      { destruct (strip_prefix (ifName (nFrom n) +++ "|") o) as [k|] eqn:Es.
        - left. exists k. apply strip_prefix_Some in Es. unfold own. by rewrite Es, append_assoc.
        - right. intros k ->. unfold own in Es. by rewrite <-append_assoc, strip_prefix_append in Es. }
      destruct Hown as [[k ->]|Hown].
      * exists n', k. split; [|split; [by rewrite Et|unfold own; by rewrite Ef]]. apply list_elem_of_lookup. exists idx.
        apply list_lookup_insert_eq. by eapply lookup_lt_Some.
      * apply Hk in Hx; [|done]. destruct (ps !! ifIndex (nTo n)) as [q|] eqn:Eq; cbn in Hx; [|done].
        destruct (Ho _ q x o Eq Hx) as (y & k & Hy & Ey & ->). exists y, k. split; [|done]. apply list_elem_of_lookup in Hy as [j Hj].
        apply list_elem_of_lookup. exists j. rewrite list_lookup_insert_ne; [done|]. intros <-. assert (y = n) as -> by congruence. by apply (Hown k).
    + rewrite lookup_insert_ne in Ht by done. destruct (Ho t p x o Ht Hx) as (y & k & Hy & Ey & ->). exists y, k. split; [|done].
      apply list_elem_of_lookup in Hy as [j Hj]. apply list_elem_of_lookup. exists j. rewrite list_lookup_insert_ne; [done|].
      intros <-. assert (y = n) as -> by congruence. by apply Hne.
  - intros a b x y Hx Hy Hab Eto. apply Hback in Hx as (x' & Hx & Ex1 & Ex2), Hy as (y' & Hy & Ey1 & Ey2).
    rewrite Ex1, Ey1. apply (Hd a b x' y' Hx Hy Hab). by rewrite <-Ex2, <-Ey2.
  - intros x [a Ha]%list_elem_of_lookup. apply Hback in Ha as (y & Hy & -> & _). apply Hp. by eapply list_elem_of_lookup_2.
Qed.

Definition run_inv (r : running) : Prop := nats_inv (nats r) (pools r).

Lemma taken_step n p : rule_inv n p -> rule_step n p (snd (takeRemoved n)) p.
Proof. intros Hi. by apply step_same. Qed.

Lemma announce_taken r n ttl : fst (announceNAT r n ttl) = snd (takeRemoved n).
Proof. done. Qed.

Lemma update_inv f st idx :
  (forall n p n' p' c, n ∈ nats (fst st) -> rule_inv n p -> f n p = (n', p', c) -> rule_step n p n' p') ->
  run_inv (fst st) -> run_inv (fst (update_rule f st idx)).
Proof.
  destruct st as [r out]. intros Hf Hi. unfold update_rule. destruct (nats r !! idx) as [n|] eqn:E; [|done].
  destruct (f n (pool_of r n)) as [[n' p'] c] eqn:Ef. pose proof (ni_rule _ _ Hi n) as Hn.
  pose proof (list_elem_of_lookup_2 _ _ _ E) as Hin. pose proof (Hf n _ n' p' c Hin (Hn Hin) Ef) as Hs.
  pose proof (nats_step _ _ idx n n' p' Hi E Hs) as H1. destruct c; [|done].
  destruct (announceNAT _ n' ttlService) as [n2 ann] eqn:Ea. cbn. unfold run_inv. cbn.
  assert (n2 = snd (takeRemoved n')) as -> by (by injection Ea as <- _).
  assert (Et : nTo n' = nTo n) by apply (rs_rule _ _ _ _ Hs).
  pose proof (nats_step _ _ idx n' (snd (takeRemoved n')) p' H1) as H2. rewrite Et in H2.
  rewrite insert_insert_eq in H2. apply H2; [|rewrite lookup_insert_eq; by apply taken_step, Hs].
  apply list_lookup_insert_eq. by eapply lookup_lt_Some.
Qed.

Definition regular_packet (pk : packet) : Prop := match pkMsg pk with Some m => regular_msg m | None => True end.

Lemma natLearn_inv shuffle now m ifx r : regular_msg m -> run_inv r -> run_inv (fst (natLearn shuffle now m ifx r)).
Proof.
  intros Hm Hi. unfold natLearn. apply (fold_left_inv _ (fun st => run_inv (fst st))); [|done]. intros idx st _ Hs.
  destruct (nats (fst st) !! idx) as [n|]; [|done]. destruct (_ || _); [done|]. apply update_inv; [|done].
  intros n0 p n' p' c _ Hr. by apply learn_step.
Qed.
Lemma sweep_inv shuffle now r : run_inv r -> run_inv (fst (sweep shuffle now r)).
Proof.
  intros Hi. unfold sweep. apply (fold_left_inv _ (fun st => run_inv (fst st))); [|done]. intros idx st _ Hs. apply update_inv; [|done].
  intros n0 p n' p' c _ Hr. by apply expire_step.
Qed.

Lemma handle_nats shuffle now pk r : (nats (fst (handle rr_text shuffle now pk r)) = nats r /\ pools (fst (handle rr_text shuffle now pk r)) = pools r)
  \/ exists m rs, pkMsg pk = Some m
     /\ nats (fst (handle rr_text shuffle now pk r)) = nats (fst (natLearn shuffle now m (pkIf pk) (set_relays rs r)))
     /\ pools (fst (handle rr_text shuffle now pk r)) = pools (fst (natLearn shuffle now m (pkIf pk) (set_relays rs r))).
Proof.
  unfold handle. destruct (rIfaces r !! pkIf pk) as [i|]; [|by left]. destruct (pkMsg pk) as [m|]; [|by left].
  destruct (ownAddress r (pkSrc pk)); [by left|]. destruct (reflect now m (pkIf pk) (relays r)) as [rs fwd].
  right. exists m, rs. split; [done|]. destruct (natLearn shuffle now m (pkIf pk) (set_relays rs r)) as [r1 out]. cbn zeta.
  destruct (negb (bool_decide (pkIf pk ∈ rAdvertise r))); [done|]. destruct (mResponse m); [by destruct (probing r1 && is_empty (clash r1))|].
  by destruct (Answer rr_text (rA r1) m (ifName i)).
Qed.

Lemma handle_inv shuffle now pk r : regular_packet pk -> run_inv r -> run_inv (fst (handle rr_text shuffle now pk r)).
Proof.
  intros Hp Hi. unfold run_inv. destruct (handle_nats shuffle now pk r) as [[-> ->]|(m & rs & Em & -> & ->)]; [done|].
  unfold regular_packet in Hp. rewrite Em in Hp. by apply (natLearn_inv shuffle now m (pkIf pk) (set_relays rs r)).
Qed.

(** What the service does once it runs: packets and sweeps. *)
Inductive runs : running -> running -> Prop :=
| runs_refl r : runs r r
| runs_packet r r' shuffle now pk : runs r r' -> regular_packet pk -> runs r (fst (handle rr_text shuffle now pk r'))
| runs_sweep r r' shuffle now : runs r r' -> runs r (fst (sweep shuffle now r')).

Lemma runs_inv r r' : runs r r' -> run_inv r -> run_inv r'.
Proof. intros Hr Hi. induction Hr; [done|by apply handle_inv; auto|by apply sweep_inv; auto]. Qed.

(** A rule that has learned nothing. *)
Lemma fresh_inv cfg f t res n : newNATRule cfg f t res = Some n -> rule_inv n ∅.
Proof.
  unfold newNATRule. destruct (portRange (Ports cfg)) as [[lo hi]|] eqn:E; [|done]. cbn. intros [= <-]. unfold portRange in E.
  destruct (contains_char "-" (Ports cfg)); [|done]. apply bind_Some in E as (a & _ & E). apply bind_Some in E as (b & _ & E).
  destruct (_ || _) eqn:Eb; [done|]. injection E as -> ->. bool_hyps. split; cbn; try done. lia.
Qed.

Lemma planned_fresh cfg all res pl n : planRules cfg all res = Ok pl -> n ∈ pNats pl -> rule_inv n ∅.
Proof.
  intros Hp. set (I := fun pl : plan => forall n, n ∈ pNats pl -> rule_inv n ∅).
  assert (Hrule : forall rule pl pl', I pl -> plan_rule all res pl rule = Ok pl' -> I pl').
  { intros rule pl0 pl1 HI H1. unfold plan_rule in H1. next_ok H1. next_ok H1.
    apply (fold_m_inv (plan_pair res rule) I) in H1; [done| |exact HI]. intros [f t] pl2 pl3 _ HI2 H3. unfold plan_pair in H3.
    destruct (_ =? _); [by injection H3 as <-|]. destruct (Advertise rule) as [c|]; [|by injection H3 as <-].
    destruct (newNATRule c f t res) as [n1|] eqn:En; [|done]. injection H3 as <-. intros y. cbn. rewrite elem_of_app, list_elem_of_singleton.
    intros [?| ->]; [by apply HI2|]. by eapply fresh_inv. }
  revert n. change (I pl). unfold planRules in Hp. next_ok Hp. apply (fold_m_inv (plan_rule all res) I) in Hp; [done| |].
  - intros rule pl0 pl1 _. apply Hrule.
  - destruct (Records cfg); [injection Hx as <-; by intros y ?%elem_of_nil|].
    apply (fold_m_inv (plan_advertised all) I) in Hx; [done| |by intros y ?%elem_of_nil].
    intros nm pl0 pl1 _ HI H1. unfold plan_advertised in H1. next_ok H1. destruct x0; injection H1 as <-; exact HI.
Qed.

Lemma published_elem n i : i ∈ published n <-> (exists k, insts n !! k = Some i) /\ is_published i = true.
Proof.
  unfold published. rewrite merge_sort_Permutation, list_elem_of_In, filter_In, in_map_iff. split.
  - intros [((k & j) & <- & Hk%list_elem_of_In%elem_of_map_to_list) Hp]. eauto.
  - intros [[k Hk] Hp]. split; [|done]. exists (k, i). split; [done|]. by apply list_elem_of_In, elem_of_map_to_list.
Qed.

(** C24: Translated services never share a port.  Start the service with rules that publish on an
    interface from sources of different names, none of which has a bar in it, and let it hear any
    packets whose instance names read back as they were written (which one with a backslash does
    not) and sweep at any times: every instance it publishes has a port inside its rule's range and
    a target that is a usable IPv4 address; two instances published on the same interface with the
    same port are the same instance of the same rule; and every port held in an interface's pool is
    the port of an instance published there, so that a service that has left holds none.  Both
    conditions are needed: bar_shares_port and odd_shares_port. *)
Theorem nat_ports_exact cfg env all pl r :
  planRules cfg all (reserved_names cfg) = Ok pl -> distinct_sources (pNats pl) -> plain_sources (pNats pl) ->
  runs (launched cfg env pl) r ->
  (forall n i, n ∈ nats r -> i ∈ published n -> lo n <= hostPort i <= hi n /\ exists a, ip i = Some a /\ usable_target a = true)
  /\ (forall a b n n' i i', nats r !! a = Some n -> nats r !! b = Some n' -> ifIndex (nTo n) = ifIndex (nTo n') ->
       i ∈ published n -> i' ∈ published n' -> hostPort i = hostPort i' -> a = b /\ i = i')
  /\ (forall t p x o, pools r !! t = Some p -> p !! x = Some o ->
       exists n i, n ∈ nats r /\ ifIndex (nTo n) = t /\ i ∈ published n /\ hostPort i = x /\ o = owner n i).
Proof.
  intros Hp Hd Hpl Hr. assert (Hi : run_inv r).
  { apply (runs_inv _ _ Hr). split; cbn; try done. intros n Hn. rewrite lookup_empty. by eapply planned_fresh. }
  assert (Hport : forall n k i, n ∈ nats r -> insts n !! k = Some i -> is_published i = true ->
    lo n <= hostPort i <= hi n /\ default ∅ (pools r !! ifIndex (nTo n)) !! hostPort i = Some (own n k) /\ exists a, ip i = Some a /\ usable_target a = true).
  { intros n k i Hn Hk Hpub. apply (ri_port _ _ (ni_rule _ _ Hi n Hn) k i Hk). unfold is_published in Hpub. bool_hyps. lia. }
  split_and!.
  - intros n i Hn [[k Hk] Hpub]%published_elem. destruct (Hport n k i Hn Hk Hpub) as (H1 & _ & H3). done.
  - intros a b n n' i i' Ha Hb Et [[k Hk] Hpub]%published_elem [[k' Hk'] Hpub']%published_elem Eh.
    assert (Hn : n ∈ nats r) by (by eapply list_elem_of_lookup_2). assert (Hn' : n' ∈ nats r) by (by eapply list_elem_of_lookup_2).
    destruct (Hport n k i Hn Hk Hpub) as (_ & H1 & _). destruct (Hport n' k' i' Hn' Hk' Hpub') as (_ & H2 & _).
    rewrite Et, Eh, H2 in H1. injection H1 as Eo. destruct (decide (a = b)) as [->|Hab].
    + assert (n' = n) as -> by congruence. apply own_inj in Eo as ->. split; [done|congruence].
    + exfalso. apply own_apart in Eo; [|by apply (ni_plain _ _ Hi)..]. by apply (ni_distinct _ _ Hi b a n' n).
  - intros t p x o Ht Hx. destruct (ni_owner _ _ Hi t p x o Ht Hx) as (n & k & Hn & <- & ->).
    pose proof (ni_rule _ _ Hi n Hn) as Hinv. rewrite Ht in Hinv. cbn in Hinv. destruct (ri_held _ _ Hinv x k Hx) as (H0 & i & Hk & <-).
    exists n, i. split; [done|]. split; [done|]. split; [|split; [done|]].
    + apply published_elem. split; [eauto|]. destruct (ri_port _ _ Hinv k i Hk H0) as (_ & _ & a & Ea & _). unfold is_published.
      rewrite Ea. apply Z.eqb_neq in H0. by rewrite H0.
    + unfold own, owner. by rewrite (ri_key _ _ Hinv k i Hk).
Qed.
End Ports.

(** * Relays *)

(** The interface is one the endpoint of a rule stands for. *)
Definition endpoint_of (name : string) (all : list NetIf) (i : NetIf) : Prop :=
  ifMulticast i = true
  /\ if is_pattern name then i ∈ all /\ Match name (ifName i) = Some true /\ ifUp i = true
     else find (fun i => ifName i =?s name) all = Some i.

Lemma zip_matched (f : NetIf -> option bool) all hits i : mapM f all = Some hits ->
  i ∈ map snd (List.filter fst (zip hits all)) <-> i ∈ all /\ f i = Some true.
Proof.
  revert hits. induction all as [|x all IH]; intros hits; [intros [= <-]; cbn; set_solver|].
  intros (b & Eb & (bs & Ebs & [= <-])%bind_Some)%bind_Some. specialize (IH bs Ebs). cbn. destruct b; cbn; rewrite !elem_of_cons, IH; [naive_solver|].
  split; [naive_solver|]. intros [[->|?] ?]; [congruence|done].
Qed.

Lemma endpoints_exact name all out i : endpoints name all = Ok out -> i ∈ out <-> endpoint_of name all i.
Proof.
  unfold endpoints, endpoint_of. destruct (is_pattern name).
  - destruct (mapM _ all) as [hits|] eqn:Eh; [|done]. intros H1. apply seq_ok in H1 as [_ H1]. apply seq_ok in H1 as [_ [= <-]].
    rewrite list_elem_of_In, filter_In, <-list_elem_of_In, (zip_matched _ _ _ _ Eh), andb_true_iff. naive_solver.
  - destruct (find _ all) as [x|] eqn:Ef; [|done]. destruct (ifMulticast x) eqn:Em; [|done]. intros [= <-]. rewrite list_elem_of_singleton. naive_solver.
Qed.

Section Relays.
Context `{CaseFold}.

(** The rule is one of the configuration's relay rules, between two interfaces it names. *)
Definition configured (cfg : mConfig) (all : list NetIf) (e : relaying) : Prop :=
  exists rule f t, rule ∈ Reflect cfg /\ Advertise rule = None /\ endpoint_of (From rule) all f /\ endpoint_of (To rule) all t
  /\ ifIndex f <> ifIndex t /\ e = mkRelaying rule (ifIndex f) (ifIndex t).

Lemma pairs_edges res rule fts pl pl' e : fold_m (plan_pair res rule) pl fts = Ok pl' ->
  e ∈ pEdges pl' <-> e ∈ pEdges pl \/ (Advertise rule = None /\ exists f t, (f, t) ∈ fts /\ ifIndex f <> ifIndex t /\ e = mkRelaying rule (ifIndex f) (ifIndex t)).
Proof.
  revert pl. induction fts as [|[f t] fts IH]; intros pl; cbn [fold_m]; [intros [= <-]; set_solver|].
  destruct (plan_pair res rule pl (f, t)) as [pl1|] eqn:E1; [|done]. intros Hf%IH. rewrite Hf. clear Hf IH. unfold plan_pair in E1.
  destruct (Z.eqb_spec (ifIndex f) (ifIndex t)) as [Eft|Hft].
  - injection E1 as <-. setoid_rewrite elem_of_cons. naive_solver.
  - setoid_rewrite elem_of_cons. destruct (Advertise rule) as [c|].
    + destruct (newNATRule c f t res); [|done]. injection E1 as <-. naive_solver.
    + injection E1 as <-. cbn. rewrite elem_of_app, list_elem_of_singleton. naive_solver.
Qed.

Lemma rules_edges all res rules pl pl' e : fold_m (plan_rule all res) pl rules = Ok pl' ->
  e ∈ pEdges pl' <-> e ∈ pEdges pl \/ exists rule f t, rule ∈ rules /\ Advertise rule = None /\ endpoint_of (From rule) all f
    /\ endpoint_of (To rule) all t /\ ifIndex f <> ifIndex t /\ e = mkRelaying rule (ifIndex f) (ifIndex t).
Proof.
  revert pl. induction rules as [|rule rules IH]; intros pl; cbn [fold_m]; [intros [= <-]; set_solver|].
  destruct (plan_rule all res pl rule) as [pl1|] eqn:E1; [|done]. intros Hf%IH. rewrite Hf. clear Hf IH. unfold plan_rule in E1.
  next_ok E1. next_ok E1. rewrite (pairs_edges _ _ _ _ _ e E1). cbn [pEdges]. setoid_rewrite list_elem_of_In. setoid_rewrite in_prod_iff.
  setoid_rewrite <-list_elem_of_In. setoid_rewrite (fun i => endpoints_exact _ _ _ i Hx). setoid_rewrite (fun i => endpoints_exact _ _ _ i Hx0).
  setoid_rewrite elem_of_cons. split; [intros [[?|(? & f & t & [? ?] & ?)]|?]; [by left|right; exists rule, f, t; naive_solver|naive_solver]|].
  intros [?|(r & f & t & [->|Hr] & Hrest)]; [auto|left; right; naive_solver|right; naive_solver].
Qed.

Lemma planned_edges cfg all res pl e : planRules cfg all res = Ok pl -> e ∈ pEdges pl <-> configured cfg all e.
Proof.
  unfold planRules. intros Hp. next_ok Hp. rewrite (rules_edges _ _ _ _ _ e Hp). unfold configured.
  assert (Hn : pEdges x = []); [|rewrite Hn; set_solver].
  destruct (Records cfg); [by injection Hx as <-|]. apply (fold_m_inv (plan_advertised all) (fun pl => pEdges pl = [])) in Hx; [done| |done].
  intros nm pl0 pl1 _ HI H1. unfold plan_advertised in H1. next_ok H1. destruct x0; injection H1 as <-; exact HI.
Qed.

Lemma accepted_rules cfg rule : Advertise.Validate cfg = Ok tt -> rule ∈ Reflect cfg -> forallb class_ok (AllowServices rule) = true.
Proof.
  unfold Advertise.Validate. intros Hv Hr. destruct (Empty cfg) eqn:Ee.
  { unfold Empty in Ee. destruct (Records cfg); [|done]. destruct (Reflect cfg); [by apply elem_of_nil in Hr|done]. }
  apply seq_ok in Hv as [Hv _]. unfold validateReflect in Hv. apply seq_ok in Hv as [_ Hv]. next_ok Hv. clear Hv.
  revert Hx. generalize (mkSeen ∅ ∅). induction (Reflect cfg) as [|r0 rs IH]; intros st; [by apply elem_of_nil in Hr|]. cbn [fold_m].
  destruct (validate_rule st r0) as [st1|] eqn:E1; [|done]. apply elem_of_cons in Hr as [->|Hr]; [|by apply IH]. intros _.
  unfold validate_rule in E1. do 6 apply seq_ok in E1 as [_ E1]. apply seq_ok in E1 as [E1 _]. apply for_each_ok in E1.
  apply forallb_forall. intros s Hs%list_elem_of_In. rewrite Forall_forall in E1. specialize (E1 s Hs). by apply check_ok in E1.
Qed.

(** C25: The relay is the composition of its rules.  For an accepted configuration whose rules
    resolve, the relay rules are exactly the configured ones, between each two different
    interfaces that their endpoints (a name, or a pattern over the interfaces that are up) stand
    for; there is a relayed pair from one interface to another that carries a class exactly when
    the two differ and a path of rules, each of which permits that class, leads from the first to
    the second, whatever cycles the rules form; and each ordered pair of interfaces has one
    filter. *)
Theorem relay_exact cfg all res pl :
  Advertise.Validate cfg = Ok tt -> planRules cfg all res = Ok pl ->
  (forall e, e ∈ pEdges pl <-> configured cfg all e)
  /\ (forall i j c, (exists r, r ∈ planRelays (pEdges pl) /\ rFrom r = i /\ rTo r = j /\ allows (rFilter r) c = true)
       <-> i <> j /\ path (pEdges pl) c i j)
  /\ (forall r r', r ∈ planRelays (pEdges pl) -> r' ∈ planRelays (pEdges pl) -> rFrom r = rFrom r' -> rTo r = rTo r' -> r = r').
Proof.
  intros Hv Hp. assert (Hok : forallb rule_ok (pEdges pl) = true).
  { apply forallb_forall. intros e He%list_elem_of_In. apply (planned_edges _ _ _ _ e Hp) in He as (rule & f & t & Hr & _ & _ & _ & _ & ->).
    by apply (accepted_rules cfg). }
  destruct (planRelays_exact (pEdges pl) Hok) as (H1 & H2 & _). split; [intros e; by eapply planned_edges|done].
Qed.
End Relays.
