(* ===== verification/MdnsExample.v ===== *)
(** A small mDNS service: two container bridges translated onto a LAN, and a relay from the LAN to
    one bridge and on to the other.  The theorems are applied to it; the lemmas at the end show
    two faults. *)

From S2P Require Import Prelude NetAddr Dns Mdns Reflect ReflectInv Advertise AdvertiseInv MdnsNat NatInv MdnsService MdnsInv.
Local Open Scope Z_scope.

Module MdnsExample.

Definition eth0 : NetIf := mkNetIf 2 "eth0" true true.
Definition podman1 : NetIf := mkNetIf 3 "podman1" true true.
Definition podman2 : NetIf := mkNetIf 4 "podman2" true true.
Definition host_ifaces : list NetIf := [mkNetIf 1 "lo" true false; eth0; podman1; podman2].

Definition addresses (name : string) : option (list Prefix) :=
  if name =?s "eth0" then Some [mkPrefix (Addr4 3232235778) 24]         (* 192.168.1.2/24 *)
  else if name =?s "podman1" then Some [mkPrefix (Addr4 173539329) 24]  (* 10.88.0.1/24 *)
  else if name =?s "podman2" then Some [mkPrefix (Addr4 173604865) 24]  (* 10.89.0.1/24 *)
  else None.

Definition translate : ReflectRule := mkReflectRule "podman*" "eth0" [] (Some (mkNATConfig ["_ipp._tcp"] "20000-20009")).
Definition down : ReflectRule := mkReflectRule "eth0" "podman1" ["_airplay._tcp"] None.
Definition across : ReflectRule := mkReflectRule "podman1" "podman2" ["*"] None.
Definition share : mRecord := mkRecord "_smb._tcp" "Files" 445 [] [] EmptyString.
Definition config : mConfig := mkMConfig ["eth0"] "nas" [share] [translate; down; across].

Lemma config_valid : Validate config = Ok tt.
Proof. vm_compute. reflexivity. Qed.

Definition planned : plan := match planRules config host_ifaces {["nas"]} with Ok pl => pl | Err _ => mkPlan ∅ ∅ [] [] end.
Lemma plan_ok : planRules config host_ifaces (reserved_names config) = Ok planned.
Proof. vm_compute. reflexivity. Qed.

(** The relay reaches the second bridge through the first. *)
Lemma relay_exact_witness :
  Validate config = Ok tt /\ exists r, r ∈ planRelays (pEdges planned) /\ rFrom r = 2 /\ rTo r = 4 /\ allows (rFilter r) "_airplay._tcp" = true.
Proof.
  split; [exact config_valid|].
  destruct (relay_exact config host_ifaces (reserved_names config) planned config_valid plan_ok) as (He & Hp & _).
  apply Hp. split; [discriminate|].
  apply (path_step _ _ _ (mkRelaying across 3 4)).
  - apply (path_rule _ _ _ (mkRelaying down 2 3)); [apply list_elem_of_In; vm_compute; auto|reflexivity|right; left].
  - apply list_elem_of_In. vm_compute. auto.
  - left. left.
Defined.

Definition edges : list relaying := [mkRelaying down 2 3; mkRelaying across 3 4].
Definition speaker : mRR := mkMRR "Kitchen._airplay._tcp.local." 1 120 (MSRV 7000 "kitchen.local.").
Definition speaker_a : mRR := mkMRR "kitchen.local." 1 120 (MA 3232235786).
Definition printer_ptr : mRR := mkMRR "_ipp._tcp.local." 1 120 (MPTR "Laser._ipp._tcp.local.").
Definition lan_packet : mMsg := mkMMsg 0 true true 0 [] [printer_ptr; speaker; speaker_a] [].
Definition relayed : list relay * list (Z * mMsg) := reflect 0 lan_packet 2 (planRelays edges).

Lemma edges_ok : forallb rule_ok edges = true.
Proof. vm_compute. reflexivity. Qed.

Lemma relay_no_leak_witness : length (snd relayed) = 2%nat /\ forall j out rr, (j, out) ∈ snd relayed -> rr ∈ records out -> rr <> printer_ptr.
Proof.
  split; [vm_compute; reflexivity|]. intros j out rr Hin Hrr E.
  destruct (relay_no_leak edges [] (planRelays edges) 0 2 lan_packet (fst relayed) (snd relayed) j out edges_ok (heard_none edges)
    (surjective_pairing _) Hin) as (_ & _ & H). cbn in H. destruct (H rr) as (_ & _ & Hs). specialize (Hs Hrr). subst rr.
  assert (Hno : forall j, ~ path edges "_ipp._tcp" 2 j).
  { intros j' Hp. remember 2 as i. induction Hp as [e He Ef Hpe|e _ IH He Hpe]; [|by apply IH].
    apply list_elem_of_In in He. destruct He as [<-|[<-|[]]]; cbn in *; [|lia].
    destruct Hpe as [Hpe|Hpe]; apply list_elem_of_In in Hpe; vm_compute in Hpe; destruct Hpe as [Hpe|[]]; discriminate Hpe. }
  destruct Hs as [[_ (c & Hc & Hp)]|[[En _]|[[E|E] _]]]; try (vm_compute in E; discriminate E); try (vm_compute in En; discriminate En).
  vm_compute in Hc. injection Hc as <-. exact (Hno _ Hp).
Defined.

Lemma relay_delivers_witness : exists out, (4, out) ∈ snd relayed /\ speaker_a ∈ records out.
Proof.
  assert (Hpath : path edges "_airplay._tcp" 2 4).
  { apply (path_step _ _ _ (mkRelaying across 3 4)).
    - apply (path_rule _ _ _ (mkRelaying down 2 3)); [left|reflexivity|right; left].
    - right. left.
    - left. left. }
  pose proof (relay_delivers edges [] (planRelays edges) 0 lan_packet 2 4 (fst relayed) (snd relayed) edges_ok (heard_none edges)
    ltac:(discriminate) (surjective_pairing _)) as H. cbn in H. apply H.
  - right. right. left.
  - right. right. split; [left; reflexivity|]. split.
    + exists speaker. split; [right; left|]. split; [exists "_airplay._tcp"; split; [vm_compute; reflexivity|exact Hpath]|].
      exists 7000, "kitchen.local.". split; reflexivity.
    + intros r Hr _ _. assert (hosts (rFilter r) = ∅) as -> by (by apply (planRelays_exact edges edges_ok)).
      rewrite map_size_empty. vm_compute. lia.
Defined.

(** * Answers *)

Definition print_rr (rr : mRR) : string :=
  hName rr +++ match hData rr with MPTR p => " PTR " +++ p | MSRV _ t => " SRV " +++ t | MTXT _ => " TXT" | MA _ => " A" | MAAAA _ => " AAAA" | MOther _ => " ?" end.
Definition nas : answerer := mkAnswerer config addresses.
Definition browse : mMsg := mkMMsg 7 false false 0 [mkQuestion "_smb._tcp.local." TypePTR 1] [] [].

Lemma nas_named : well_named nas.
Proof.
  intros r Hr. apply list_elem_of_singleton in Hr as ->. split; [vm_compute; reflexivity|]. exists "nas". split; vm_compute; reflexivity.
Qed.

Lemma answers_exact_witness :
  exists resp rr, Answer print_rr nas browse "eth0" = Some resp /\ rr ∈ records resp
    /\ text_key print_rr rr = text_key print_rr (ptr_record "_smb._tcp.local." share).
Proof.
  destruct (answers_exact print_rr nas "eth0" browse) as [_ H].
  apply (H nas_named eq_refl eq_refl (mkQuestion "_smb._tcp.local." TypePTR 1)); [left|].
  split; [apply own_ptr; left|]. split; [reflexivity|]. split; [reflexivity|]. split; [intros E; vm_compute in E; discriminate E|].
  intros p E _. vm_compute in E. injection E as <-. vm_compute. reflexivity.
Defined.

(** * Translation *)

Definition printer (name : string) : mMsg :=
  mkMMsg 0 true true 0 [] [mkMRR name 1 120 (MSRV 631 "box.local."); mkMRR "box.local." 1 120 (MA 173539333)] [].
Definition printer_packet (name : string) : packet := mkPacket (Some (printer name)) (Addr4 173539333) 5353 3.

Definition calm : start_env := mkStartEnv addresses (Some host_ifaces) true (fun _ => true) [] id.
Definition launched0 : running := launched config calm planned.
Definition ordinary : string := "Laser._ipp._tcp.local.".

Lemma ordinary_regular : regular_packet (printer_packet ordinary).
Proof.
  intros rr Hr. cbn in Hr. apply list_elem_of_In in Hr. destruct Hr as [<-|[<-|[]]]; [|exact I]. unfold regular_rr. cbn [hData hName].
  apply (regular_instance "Laser" "_ipp._tcp"); vm_compute; reflexivity.
Qed.

Definition after_printer : running := fst (handle print_rr id 0 (printer_packet ordinary) launched0).

Lemma two_sources : distinct_sources (pNats planned) /\ plain_sources (pNats planned).
Proof.
  split.
  - intros a b n n' Ha Hb Hab _. vm_compute in Ha, Hb.
    destruct a as [|[|a]], b as [|[|b]]; try discriminate; try (by destruct Hab); injection Ha as <-; injection Hb as <-; discriminate.
  - intros n Hn. apply list_elem_of_In in Hn. vm_compute in Hn. destruct Hn as [<-|[<-|[]]]; reflexivity.
Qed.

Lemma nat_ports_exact_witness :
  length (flat_map published (nats after_printer)) = 1%nat
  /\ forall n i, n ∈ nats after_printer -> i ∈ published n -> lo n <= hostPort i <= hi n.
Proof.
  split; [vm_compute; reflexivity|]. intros n i Hn Hi.
  destruct (nat_ports_exact print_rr config calm host_ifaces planned after_printer plan_ok (proj1 two_sources) (proj2 two_sources)) as [H _].
  - apply runs_packet; [apply runs_refl|apply ordinary_regular].
  - apply (H n i Hn Hi).
Defined.

Definition rule1 : natRule := match nats launched0 with n :: _ => n | [] => mkNatRule (mkFilter ∅ false ∅) 0 0 ∅ ∅ eth0 eth0 EmptyString ∅ [] end.
Definition learned : natRule * ports * bool := learn id 0 (default [] (addresses "podman1")) (printer ordinary) rule1 ∅.

Lemma nat_publishes_witness :
  exists i, insts (fst (fst learned)) !! "laser._ipp._tcp.local." = Some i
  /\ mkMapping "eth0" "tcp" (hostPort i) (Addr4 173539333) 631 ∈ mappings (fst (fst learned)).
Proof.
  assert (Hn : newNATRule (mkNATConfig ["_ipp._tcp"] "20000-20009") podman1 eth0 (reserved_names config) = Some rule1) by (vm_compute; reflexivity).
  destruct (insts (fst (fst learned)) !! "laser._ipp._tcp.local.") as [i|] eqn:Ei; [|vm_compute in Ei; discriminate Ei].
  exists i. split; [reflexivity|]. destruct (nHosts (fst (fst learned)) !! host i) as [h|] eqn:Eh; [|vm_compute in Ei; injection Ei as <-; vm_compute in Eh; discriminate Eh].
  assert (Hf : service i = "_ipp._tcp" /\ port i = 631 /\ host i = "box.local.") by (vm_compute in Ei; injection Ei as <-; vm_compute; auto).
  destruct Hf as (Hs & Hp & Hh). rewrite Hh in Eh. vm_compute in Eh. injection Eh as <-.
  pose proof (nat_publishes id 0 (default [] (addresses "podman1")) (printer ordinary) rule1 ∅ (fst (fst learned)) (snd (fst learned)) (snd learned)
    (fun l => Permutation_refl l) (fresh_inv _ _ _ _ _ Hn) ordinary_regular) as H.
  destruct (H ltac:(unfold learned; destruct (learn _ _ _ _ _ _) as [[]]; reflexivity) ltac:(vm_compute; discriminate) _ i _ (Addr4 173539333) Ei
    ltac:(rewrite Hh; vm_compute; reflexivity) ltac:(vm_compute; reflexivity) ltac:(rewrite Hp; discriminate) ltac:(vm_compute; reflexivity)) as [Hm _].
  rewrite Hs, Hp in Hm. exact Hm.
Defined.

(** * Faults *)

(** A display name with a backslash is unescaped twice, so the name an instance is dropped by is
    not the one it is kept under: after its records lapse it stays published, with its port given
    back, on every sweep. *)
Definition odd : string := "A\\B._ipp._tcp.local.".
Definition odd_later : running :=
  fst (sweep id (300 * second) (fst (handle print_rr id 0 (printer_packet odd) launched0))).

Lemma odd_never_leaves :
  ~ regular odd /\ length (flat_map published (nats odd_later)) = 1%nat /\ pools odd_later !! 2 = Some ∅
  /\ length (flat_map published (nats (fst (sweep id (600 * second) odd_later)))) = 1%nat.
Proof. split; [|vm_compute; auto]. intros H. specialize (H "_ipp._tcp" eq_refl). vm_compute in H. discriminate H. Qed.

(** And it shares its owner, so its port, with the instance named without the backslash. *)
Definition both : running :=
  fst (handle print_rr id 1 (printer_packet "AB._ipp._tcp.local.") (fst (handle print_rr id 0 (printer_packet odd) launched0))).

Lemma odd_shares_port : exists a b, flat_map published (nats both) = [a; b] /\ instance a <> instance b /\ hostPort a = hostPort b.
Proof. vm_compute. eexists _, _. split; [reflexivity|]. split; [discriminate|reflexivity]. Qed.

(** Two sources of which one's name goes on from the other's with a bar: an owner is the source's
    name, a bar and the instance's, so that two instances have one owner, and with it one port. *)
Definition bridge : NetIf := mkNetIf 3 "br" true true.
Definition barred : NetIf := mkNetIf 4 "br|b" true true.
Definition bar_addresses (name : string) : option (list Prefix) :=
  if name =?s "br" then addresses "podman1" else if name =?s "br|b" then addresses "podman2" else addresses name.
Definition bar_config : mConfig := mkMConfig ["eth0"] "nas" [share] [mkReflectRule "br*" "eth0" [] (Some (mkNATConfig ["_ipp._tcp"] "20000-20000"))].
Definition bar_plan : plan := match planRules bar_config [eth0; bridge; barred] {["nas"]} with Ok pl => pl | Err _ => mkPlan ∅ ∅ [] [] end.
Definition bar_printer (name : string) (ip ifx : Z) : packet :=
  mkPacket (Some (mkMMsg 0 true true 0 [] [mkMRR name 1 120 (MSRV 631 "box.local."); mkMRR "box.local." 1 120 (MA ip)] [])) (Addr4 ip) 5353 ifx.
Definition bar_running : running :=
  fst (handle print_rr id 1 (bar_printer "Laser._ipp._tcp.local." 173604869 4)
    (fst (handle print_rr id 0 (bar_printer "b|Laser._ipp._tcp.local." 173539333 3)
      (launched bar_config (mkStartEnv bar_addresses (Some [eth0; bridge; barred]) true (fun _ => true) [] id) bar_plan)))).

Lemma bar_shares_port : Validate bar_config = Ok tt /\ planRules bar_config [eth0; bridge; barred] (reserved_names bar_config) = Ok bar_plan
  /\ exists a b, flat_map published (nats bar_running) = [a; b] /\ ip a <> ip b /\ hostPort a = hostPort b.
Proof. split; [vm_compute; reflexivity|]. split; [vm_compute; reflexivity|]. vm_compute. eexists _, _. split; [reflexivity|]. split; [discriminate|reflexivity]. Qed.

(** A configuration that is refused because another host claims a name leaves the DNAT rules of the
    services it learned while it probed. *)
Definition name_claim : mMsg := mkMMsg 0 true true 0 [] [mkMRR "nas.local." 1 120 (MA 3232235999)] [].
Definition claimed : start_env :=
  mkStartEnv addresses (Some host_ifaces) true (fun _ => true)
    [(0, printer_packet ordinary); (1, mkPacket (Some name_claim) (Addr4 3232235999) 5353 2)] id.
Definition installed (out : list sent) : string :=
  fold_left (fun last x => match x with Install s => s | _ => last end) out EmptyString.
Definition refused : Service_ * result string unit * list sent :=
  Apply print_rr config claimed calm (mkService (mkMConfig [] EmptyString [] []) None).

Lemma refused_leaves_table :
  sRun (fst (fst refused)) = None /\ is_ok (snd (fst refused)) = false
  /\ exists m, installed (snd refused) = renderNAT [m].
Proof. split; [vm_compute; reflexivity|]. split; [vm_compute; reflexivity|]. exists (mkMapping "eth0" "tcp" (match flat_map published (nats after_printer) with i :: _ => hostPort i | [] => 0 end) (Addr4 173539333) 631). vm_compute. reflexivity. Qed.
End MdnsExample.
