(* ===== verification/MdnsFeature.v ===== *)
(** The mdns-v2 domain: the configuration of the mDNS service behind the ordinary lease
    (internal/rpc/mdns.go), its recovery by the timer's process and at boot, and the watcher that
    brings the running service to the file (cmd/ghostd/mdns_feature.go).

    The handlers run in the monad of Server.v over the store, the timers and the service; what the
    host answers while a configuration starts is read from an environment.  A slice is a list, so a
    nil and an empty one are the same. *)

From S2P Require Import Prelude NetAddr Dns Mdns Reflect Advertise MdnsNat MdnsService MdnsExample Json State Auth Server.
Local Open Scope Z_scope.

(** * The document of a configuration *)

Definition dec_strings : json -> option (list string) := dec_list (dec_string EmptyString).
Definition dec_uint16 (cur : Z) (j : json) : option Z :=
  match j with
  | JNum z => if (0 <=? z) && (z <? 65536) then Some z else None
  | JNull => Some cur
  | _ => None
  end.

Definition set_record (k : string) (v : json) (r : mRecord) : option (option mRecord) :=
  let '(mkRecord s i p t u h) := r in
  if equal_fold k "service" then Some (x ← dec_string s v; Some (mkRecord x i p t u h))
  else if equal_fold k "instance" then Some (x ← dec_string i v; Some (mkRecord s x p t u h))
  else if equal_fold k "port" then Some (x ← dec_uint16 p v; Some (mkRecord s i x t u h))
  else if equal_fold k "txt" then Some (x ← dec_strings v; Some (mkRecord s i p x u h))
  else if equal_fold k "subtypes" then Some (x ← dec_strings v; Some (mkRecord s i p t x h))
  else if equal_fold k "host" then Some (x ← dec_string h v; Some (mkRecord s i p t u x))
  else None.

Definition set_nat (k : string) (v : json) (n : NATConfig) : option (option NATConfig) :=
  let '(mkNATConfig s p) := n in
  if equal_fold k "services" then Some (x ← dec_strings v; Some (mkNATConfig x p))
  else if equal_fold k "ports" then Some (x ← dec_string p v; Some (mkNATConfig s x))
  else None.

Definition set_rule (k : string) (v : json) (r : ReflectRule) : option (option ReflectRule) :=
  let '(mkReflectRule f t a n) := r in
  if equal_fold k "from" then Some (x ← dec_string f v; Some (mkReflectRule x t a n))
  else if equal_fold k "to" then Some (x ← dec_string t v; Some (mkReflectRule f x a n))
  else if equal_fold k "allow_services" then Some (x ← dec_strings v; Some (mkReflectRule f t x n))
  else if equal_fold k "advertise" then
    Some (x ← dec_ptr (dec_struct true set_nat (default (mkNATConfig [] EmptyString) n)) v; Some (mkReflectRule f t a x))
  else None.

Definition zero_record : mRecord := mkRecord EmptyString EmptyString 0 [] [] EmptyString.
Definition zero_rule : ReflectRule := mkReflectRule EmptyString EmptyString [] None.
Definition zero_config : mConfig := mkMConfig [] EmptyString [] [].

Definition set_config (k : string) (v : json) (c : mConfig) : option (option mConfig) :=
  let '(mkMConfig i h r f) := c in
  if equal_fold k "interfaces" then Some (x ← dec_strings v; Some (mkMConfig x h r f))
  else if equal_fold k "host" then Some (x ← dec_string h v; Some (mkMConfig i x r f))
  else if equal_fold k "records" then Some (x ← dec_list (dec_struct true set_record zero_record) v; Some (mkMConfig i h x f))
  else if equal_fold k "reflect" then Some (x ← dec_list (dec_struct true set_rule zero_rule) v; Some (mkMConfig i h r x))
  else None.

Definition blank (r : raw) : bool :=
  match r with RawEmpty => true | RawBad s => is_empty (trim_space s) | _ => false end.

Definition ParseConfig `{CaseFold} (r : raw) : result string mConfig :=
  if blank r then Ok zero_config
  else match decode_first r with
       | None => Err "json: invalid document"
       | Some j =>
         match dec_struct true set_config zero_config j with
         | None => Err "json: document does not fit the schema"
         | Some c => check (at_eof r) "trailing mdns config data";; Validate c;; Ok c
         end
       end.

(** json.Marshal of a configuration, following the tags. *)
Definition enc_list {A} (f : A -> json) (l : list A) : json := match l with [] => JNull | _ => JArr (map f l) end.
Definition omit_list {A} (k : string) (f : A -> json) (l : list A) : list (string * json) := match l with [] => [] | _ => [(k, JArr (map f l))] end.

Definition enc_record (r : mRecord) : json :=
  JObj ([("service", JStr (Service r)); ("instance", JStr (Instance_ r)); ("port", JNum (Port r))]
        ++ omit_list "txt" JStr (TXT r) ++ omit_list "subtypes" JStr (Subtypes r)
        ++ (if is_empty (rHost r) then [] else [("host", JStr (rHost r))])).
Definition enc_nat (n : NATConfig) : json := JObj [("services", enc_list JStr (Services n)); ("ports", JStr (Ports n))].
Definition enc_rule (r : ReflectRule) : json :=
  JObj ([("from", JStr (From r)); ("to", JStr (To r))] ++ omit_list "allow_services" JStr (AllowServices r)
        ++ (match Advertise r with Some n => [("advertise", enc_nat n)] | None => [] end)).
Definition marshal_config (c : mConfig) : raw :=
  marshal (JObj ([("interfaces", enc_list JStr (Interfaces c)); ("host", JStr (Host c)); ("records", enc_list enc_record (Records c))]
                 ++ omit_list "reflect" enc_rule (Reflect c))).

(** * The handlers *)

Definition ConfigFile : string := "mdns-config-v2.json".

(** The part of the server: nil until the feature is attached. *)
Definition mdnsState : Type := option Service_.

#[global] Instance mRecord_eq_dec : EqDecision mRecord.
Proof. solve_decision. Defined.
#[global] Instance NATConfig_eq_dec : EqDecision NATConfig.
Proof. solve_decision. Defined.
#[global] Instance ReflectRule_eq_dec : EqDecision ReflectRule.
Proof. solve_decision. Defined.
#[global] Instance mConfig_eq_dec : EqDecision mConfig.
Proof. solve_decision. Defined.

Section Feature.
Context `{CaseFold} (rr_text : mRR -> string) (env : Env) (srv : Server).
(** What the host answers a configuration that starts, and one that is started again. *)
Context (starts restarts : nat -> start_env).

Definition save_file (data : raw) : prog mdnsState string unit := fun s =>
  match Save (e_save env (tick s)) ConfigFile data (fs s) with
  | (fs', o) => (set_fs fs' (advance s), o)
  end.

(** Service.Apply of the attached service. *)
Definition svc_apply (c : mConfig) : prog mdnsState string unit := fun s =>
  match hosts s domainMDNS with
  | None => (s, Stopped)
  | Some svc => let '(svc', r, _) := MdnsService.Apply rr_text c (starts (tick s)) (restarts (tick s)) svc in
                (set_host domainMDNS (Some svc') (advance s), of_result r)
  end.

Definition running_config {E} : prog mdnsState E (option mConfig) := fun s => (s, Done (sCfg <$> hosts s domainMDNS)).

Definition parsed (r : raw) : prog mdnsState string mConfig := fun s => (s, of_result (ParseConfig r)).

(** An empty document is kept as one. *)
Definition kept (r : raw) : raw := if raw_is_empty r then RawDoc (JObj []) else r.

Definition restoreMDNS (r : raw) : prog mdnsState string unit :=
  running ← running_config;
  match running with
  | None => throw "mDNS service unavailable"
  | Some _ => c ← parsed r; svc_apply c;; save_file (kept r)
  end.

Definition applyMDNS (addr : string) (req : ApplyRequest) : prog mdnsState status string :=
  running ← running_config;
  match running with
  | None => fail Unimplemented "mDNS advertisement unavailable"
  | Some _ =>
    desired ← map_err (mkStatus InvalidArgument) (parsed (desired_state_json req));
    recover_expired env srv restoreMDNS domainMDNS;;
    now_running ← running_config;
    id ← begin env srv addr req (marshal_config (default zero_config now_running));
    map_err (fun e => mkStatus FailedPrecondition ("mDNS apply failed; configuration rollback remains armed: " +++ e)) (svc_apply desired);;
    map_err (fun e => mkStatus Internal (e +++ " (rollback stays armed)")) (save_file (desired_state_json req));;
    finishApply env srv domainMDNS id
  end.

(** The whole call. *)
Definition ApplyFeature (peer : option string) (caller : result string (option Caller)) (req : ApplyRequest) : prog mdnsState status string :=
  apply_through env srv (fun addr => applyMDNS addr req) peer caller req.

(** restoreMDNSConfig: the timer's process and the boot write the file only. *)
Definition restoreMDNSConfig (r : raw) : prog mdnsState string unit := _ ← parsed r; save_file (kept r).

Definition revert (leaseID : string) : prog mdnsState string unit :=
  lock env;; recover_domain env srv restoreMDNSConfig restoreMDNSConfig domainMDNS leaseID.

(** A daemon that starts: the service is new, and the domain is recovered. *)
Definition boot_feature : prog mdnsState string unit := fun s => revert EmptyString (set_host domainMDNS (Some (mkService zero_config None)) s).

Definition load_file : prog mdnsState string raw := fun s => (advance s, of_result (Load (e_read env (tick s)) ConfigFile (fs s))).

(** One round of watchMDNS; its errors are logged. *)
Definition watch : prog mdnsState string unit :=
  lock env;;
  data ← load_file;
  want ← parsed data;
  running ← running_config;
  match running with
  | Some c => if decide (want = c) then mret tt else svc_apply want
  | None => mret tt
  end.
End Feature.

(** * The round trip of a configuration *)

Definition ports_fit (c : mConfig) : Prop := Forall (fun r => 0 <= Port r < 65536) (Records c).

Lemma strings_back l : dec_strings (JArr (map JStr l)) = Some l.
Proof. unfold dec_strings. cbn [dec_list]. induction l as [|x l IH]; [done|]. cbn [map traverse dec_string]. by rewrite IH. Qed.

Lemma list_back {A} (f : json -> option A) (g : A -> json) l : Forall (fun x => f (g x) = Some x) l -> dec_list f (JArr (map g l)) = Some l.
Proof. cbn [dec_list]. induction 1 as [|x l Hx _ IH]; [done|]. cbn [map traverse]. by rewrite Hx, IH. Qed.

Lemma struct_field {S} (set : string -> json -> S -> option (option S)) cur k v l s :
  set k v cur = Some (Some s) -> dec_struct true set cur (JObj ((k, v) :: l)) = dec_struct true set s (JObj l).
Proof. unfold dec_struct. cbn [fold_left fst snd]. by intros ->. Qed.

Lemma struct_list {S A} (set : string -> json -> S -> option (option S)) (f : A -> json) cur k (xs : list A) l s :
  (xs = [] -> s = cur) -> (xs <> [] -> set k (JArr (map f xs)) cur = Some (Some s)) ->
  dec_struct true set cur (JObj (omit_list k f xs ++ l)) = dec_struct true set s (JObj l).
Proof. destruct xs as [|x xs]; intros H0 H1; [by rewrite H0|]. unfold omit_list. cbn [app]. apply struct_field. by apply H1. Qed.

Lemma record_back r : 0 <= Port r < 65536 -> dec_struct true set_record zero_record (enc_record r) = Some r.
Proof.
  destruct r as [s i p t u h]. cbn [Port]. intros Hp. assert (Hd : dec_uint16 0 (JNum p) = Some p) by (cbn [dec_uint16]; rewrite (proj2 (andb_true_iff _ _)); [done|split; lia]).
  unfold enc_record. cbn [Service Instance_ Port TXT Subtypes rHost app].
  rewrite (struct_field _ _ _ _ _ (mkRecord s EmptyString 0 [] [] EmptyString)) by reflexivity.
  rewrite (struct_field _ _ _ _ _ (mkRecord s i 0 [] [] EmptyString)) by reflexivity.
  rewrite (struct_field _ _ _ _ _ (mkRecord s i p [] [] EmptyString)) by (unfold set_record; cbn -[dec_uint16]; by rewrite Hd).
  rewrite (struct_list _ _ _ _ _ _ (mkRecord s i p t [] EmptyString)); [|by intros ->|intros _; unfold set_record; cbn -[dec_strings map]; by rewrite strings_back].
  rewrite (struct_list _ _ _ _ _ _ (mkRecord s i p t u EmptyString)); [|by intros ->|intros _; unfold set_record; cbn -[dec_strings map]; by rewrite strings_back].
  by destruct h.
Qed.

Lemma enc_strings l : dec_strings (enc_list JStr l) = Some l.
Proof. destruct l as [|x l]; [done|]. apply strings_back. Qed.

Lemma nat_back n : dec_struct true set_nat (mkNATConfig [] EmptyString) (enc_nat n) = Some n.
Proof.
  destruct n as [s p]. unfold enc_nat. cbn [Services Ports].
  rewrite (struct_field _ _ _ _ _ (mkNATConfig s EmptyString)) by (unfold set_nat; cbn -[dec_strings enc_list]; by rewrite enc_strings).
  by rewrite (struct_field _ _ _ _ _ (mkNATConfig s p)) by reflexivity.
Qed.

Lemma rule_back r : dec_struct true set_rule zero_rule (enc_rule r) = Some r.
Proof.
  destruct r as [f t a n]. unfold enc_rule. cbn [From To AllowServices Advertise app].
  rewrite (struct_field _ _ _ _ _ (mkReflectRule f EmptyString [] None)) by reflexivity.
  rewrite (struct_field _ _ _ _ _ (mkReflectRule f t [] None)) by reflexivity.
  rewrite (struct_list _ _ _ _ _ _ (mkReflectRule f t a None)); [|by intros ->|intros _; unfold set_rule; cbn -[dec_strings map]; by rewrite strings_back].
  destruct n as [n|]; [|done]. rewrite (struct_field _ _ _ _ _ (mkReflectRule f t a (Some n))); [done|].
  unfold set_rule. cbn -[dec_struct enc_nat]. pose proof (nat_back n) as Hn. unfold dec_ptr, enc_nat in *. cbn [default] in *. by rewrite Hn.
Qed.

Section RoundTrip.
Context `{CaseFold}.

Lemma config_back c : ports_fit c -> dec_struct true set_config zero_config (JObj ([("interfaces", enc_list JStr (Interfaces c)); ("host", JStr (Host c));
    ("records", enc_list enc_record (Records c))] ++ omit_list "reflect" enc_rule (Reflect c))) = Some c.
Proof.
  destruct c as [i h r f]. unfold ports_fit. cbn [Interfaces Host Records Reflect app]. intros Hp.
  rewrite (struct_field _ _ _ _ _ (mkMConfig i EmptyString [] [])) by (unfold set_config; cbn -[dec_strings enc_list]; by rewrite enc_strings).
  rewrite (struct_field _ _ _ _ _ (mkMConfig i h [] [])) by reflexivity.
  rewrite (struct_field _ _ _ _ _ (mkMConfig i h r [])).
  2: { unfold set_config. cbn -[dec_list dec_struct enc_list]. assert (Hr : dec_list (dec_struct true set_record zero_record) (enc_list enc_record r) = Some r).
       { destruct r as [|r0 r]; [done|]. apply list_back. eapply Forall_impl; [exact Hp|]. intros x. apply record_back. }
       by rewrite Hr. }
  rewrite <-(app_nil_r (omit_list _ _ _)). rewrite (struct_list _ _ _ _ _ _ (mkMConfig i h r f)); [done|by intros ->|].
  intros _. unfold set_config. cbn -[dec_list dec_struct map]. rewrite list_back; [done|]. apply Forall_true. apply rule_back.
Qed.

(** A configuration that fits its fields is read back from the document made of it. *)
Lemma parse_marshal c : ports_fit c -> Validate c = Ok tt -> ParseConfig (marshal_config c) = Ok c.
Proof.
  intros Hp Hv. unfold ParseConfig, marshal_config, marshal. cbn [blank decode_first at_eof]. rewrite config_back by done.
  unfold check. cbn [mbind result_bind]. rewrite Hv. done.
Qed.
End RoundTrip.

(** A configuration that was read fits its fields and is valid. *)
Section Decoded.

Lemma struct_inv {S} (P : S -> Prop) (set : string -> json -> S -> option (option S)) :
  (forall k v s s', set k v s = Some (Some s') -> P s -> P s') ->
  forall cur j s, dec_struct true set cur j = Some s -> P cur -> P s.
Proof.
  intros Hset cur j s. destruct j as [| | | | | | | |kvs]; try done; [by intros [= <-]|]. cbn [dec_struct].
  assert (Hn : forall l, fold_left (fun acc kv => match acc with None => None | Some s => match set kv.1 kv.2 s with None => None | Some r => r end end) l (None : option S) = None)
    by (intros l; induction l; [done|]; cbn; done).
  revert cur. induction kvs as [|kv kvs IH]; intros cur; cbn [fold_left]; [by intros [= <-]|].
  destruct (set kv.1 kv.2 cur) as [[s1|]|] eqn:E; [|by rewrite Hn..]. intros H Hp. eapply IH; [exact H|]. by eapply Hset.
Qed.

Lemma list_inv {A} (P : A -> Prop) (f : json -> option A) j l : (forall v a, f v = Some a -> P a) -> dec_list f j = Some l -> Forall P l.
Proof.
  intros Hf. destruct j as [| | | | | | |js|]; try done; [by intros [= <-]|]. cbn [dec_list]. revert l.
  induction js as [|v js IH]; intros l; cbn [traverse]; [by intros [= <-]|]. destruct (f v) as [a|] eqn:E; [|done].
  destruct (traverse f js) as [ys|]; [|done]. intros [= <-]. constructor; [by eapply Hf|by apply IH].
Qed.

Ltac fields H := repeat (match type of H with (if ?b then _ else _) = _ => destruct b end); try done;
  match type of H with Some (?m ≫= _) = _ => let E := fresh "E" in destruct m eqn:E; [|done]; apply Some_inj in H; cbn [mbind option_bind] in H; apply Some_inj in H; subst end.

Lemma uint16_fits cur j z : dec_uint16 cur j = Some z -> 0 <= cur < 65536 -> 0 <= z < 65536.
Proof. destruct j; try done; cbn [dec_uint16]; [by intros [= <-]|]. destruct ((0 <=? z0) && (z0 <? 65536)) eqn:E; [|done]. intros [= <-] _. bool_hyps. lia. Qed.

Lemma record_fits j r : dec_struct true set_record zero_record j = Some r -> 0 <= Port r < 65536.
Proof.
  intros H. apply (struct_inv (fun r => 0 <= Port r < 65536) set_record) in H; [done| |cbn; lia].
  intros k v [s i p t u h] r' Hs. cbn [Port]. unfold set_record in Hs. fields Hs; cbn [Port]; try done. intros Hp. by eapply uint16_fits.
Qed.

Lemma config_fits j c : dec_struct true set_config zero_config j = Some c -> ports_fit c.
Proof.
  intros H. apply (struct_inv ports_fit set_config) in H; [done| |by constructor].
  intros k v [i h r f] c' Hs. unfold ports_fit. cbn [Records]. unfold set_config in Hs. fields Hs; cbn [Records]; try done.
  intros _. eapply list_inv; [|exact E]. intros v' a. apply record_fits.
Qed.

Context `{CaseFold}.

Lemma parsed_good r c : ParseConfig r = Ok c -> ports_fit c /\ Validate c = Ok tt.
Proof.
  unfold ParseConfig. destruct (blank r); [intros [= <-]; split; [by constructor|done]|].
  destruct (decode_first r) as [j|]; [|done]. destruct (dec_struct true set_config zero_config j) as [c0|] eqn:E; [|done].
  intros H1. apply seq_ok in H1 as [_ H1]. apply seq_ok in H1 as [Hv Hc]. apply Ok_inj in Hc as ->. split; [by eapply config_fits|done].
Qed.

Lemma parsed_kept r c : ParseConfig r = Ok c -> ParseConfig (kept r) = Ok c.
Proof. unfold kept. destruct r; try done. Qed.
End Decoded.

(** * A change that nobody confirms is undone *)

Section Lease.
Context `{CaseFold} (rr_text : mRR -> string) (env : Env) (srv : Server) (starts restarts : nat -> start_env).
Context (registered : domainMDNS ∈ known_domains srv).

Definition record_file : string := domainMDNS +++ "-transaction.json".
Definition transaction (x : files) : option DomainState :=
  match Domain (known_domains srv) false false domainMDNS ConfigFile x with Ok ds => Some ds | Err _ => None end.
Definition config_file (x : files) : raw := default RawEmpty (x !! ConfigFile).

(** What a record promises of [c], given the file. *)
Definition holds (c : mConfig) (data : raw) (ds : DomainState) : Prop :=
  ParseConfig (Confirmed ds) = Ok c
  /\ match PendingLease ds with None => ParseConfig data = Ok c | Some p => ParseConfig (Snapshot p) = Ok c end.
Definition protects (c : mConfig) (x : files) : Prop := exists ds, transaction x = Some ds /\ holds c (config_file x) ds.

Definition leased (x : files) : Prop := exists ds, transaction x = Some ds /\ PendingLease ds <> None.
Definition unleased (x : files) : Prop := exists ds, transaction x = Some ds /\ PendingLease ds = None.

Lemma transaction_spec x : transaction x = let data := default RawEmpty (x !! record_file) in
  if raw_is_empty data then Some (mkDomainState (config_file x) None) else unmarshal_domain data.
Proof.
  unfold transaction, Domain, domainFile. rewrite decide_True by done. cbn [mbind result_bind Load].
  change (domainMDNS +++ "-transaction.json") with record_file. destruct (raw_is_empty _); [done|]. by destruct (unmarshal_domain _).
Qed.

Lemma saved_record f ds x x' o : SaveDomain (known_domains srv) f domainMDNS ds x = (x', o) ->
  config_file x' = config_file x /\ (transaction x' = Some ds \/ transaction x' = transaction x /\ o <> Done tt).
Proof.
  unfold SaveDomain, domainFile. rewrite decide_True by done. intros HS. apply Save_lookup in HS as [Hn Ho].
  change (domainMDNS +++ "-transaction.json") with record_file in *.
  assert (Hf : config_file x' = config_file x) by (unfold config_file; by rewrite Ho).
  split; [done|]. rewrite !transaction_spec, Hf. destruct Hn as [[-> _]|[-> Hne]]; [left|by right].
  cbn [default id]. cbn zeta. change (raw_is_empty (marshal_domain ds)) with false. exact (unmarshal_marshal_domain ds).
Qed.

Lemma saved_file f data x x' o : Save f ConfigFile data x = (x', o) ->
  x' !! record_file = x !! record_file /\ (config_file x' = data \/ config_file x' = config_file x /\ o <> Done tt).
Proof. intros HS. apply Save_lookup in HS as [Hn Ho]. split; [by apply Ho|]. unfold config_file. destruct Hn as [[-> _]|[-> Hne]]; [by left|by right]. Qed.

Lemma protects_record c f ds x x' o : protects c x -> holds c (config_file x) ds ->
  SaveDomain (known_domains srv) f domainMDNS ds x = (x', o) -> protects c x' /\ (o = Done tt -> transaction x' = Some ds).
Proof.
  intros (ds0 & H0 & Hh) Hds HS. destruct (saved_record _ _ _ _ _ HS) as [Hf [Ht|[Ht Hne]]].
  - split; [|done]. exists ds. by rewrite Hf.
  - split; [|done]. exists ds0. by rewrite Ht, Hf.
Qed.

Lemma protects_file c f data x x' o : protects c x -> (unleased x -> ParseConfig data = Ok c) ->
  Save f ConfigFile data x = (x', o) ->
  protects c x' /\ (leased x -> transaction x' = transaction x) /\ (o = Done tt -> config_file x' = data).
Proof.
  intros (ds & H0 & Hc & Hp) Hd HS. destruct (saved_file _ _ _ _ _ HS) as [Hr Hf].
  assert (Hok : unleased x -> ParseConfig (config_file x') = Ok c).
  { intros Hu. destruct Hf as [->|[-> _]]; [by apply Hd|]. destruct Hu as (ds1 & H1 & E1). rewrite H0 in H1. apply Some_inj in H1 as <-. by rewrite E1 in Hp. }
  split_and!; [| |by destruct Hf as [?|[_ ?]]].
  - pose proof (transaction_spec x) as Hx. pose proof (transaction_spec x') as Hx'. rewrite Hr in Hx'. cbn zeta in *.
    destruct (raw_is_empty _).
    + exists (mkDomainState (config_file x') None). split; [done|]. assert (unleased x) by (eexists; by split). split; [|cbn]; by apply Hok.
    + exists ds. split; [by rewrite Hx', <-Hx|]. split; [done|]. destruct (PendingLease ds) eqn:E; [done|]. apply Hok. by exists ds.
  - intros (ds1 & H1 & E1). rewrite !transaction_spec, Hr in *. cbn zeta in *. destruct (raw_is_empty _); [|done]. apply Some_inj in H1 as <-. done.
Qed.

(** Programs that keep a configuration protected, with what they need and leave of the files and
    of the service. *)
Definition fact : Type := files -> mdnsState -> Prop.
Definition keeps {E A} (c : mConfig) (P : fact) (m : prog mdnsState E A) (Q : A -> fact) : Prop :=
  forall s s' o, protects c (fs s) -> P (fs s) (hosts s domainMDNS) -> m s = (s', o) ->
    protects c (fs s') /\ forall a, o = Done a -> Q a (fs s') (hosts s' domainMDNS).

Section Rules.
Context (c : mConfig).

Lemma k_pre {E A} (P P' : fact) (m : prog mdnsState E A) Q : (forall x h, protects c x -> P x h -> P' x h) -> keeps c P' m Q -> keeps c P m Q.
Proof. intros Hp Hm s s' o Hc HP. apply Hm; [done|by apply Hp]. Qed.

Lemma k_bind {E A B} P (m : prog mdnsState E A) (k : A -> prog mdnsState E B) Q R :
  keeps c P m Q -> (forall a, keeps c (Q a) (k a) R) -> keeps c P (m ≫= k) R.
Proof.
  intros Hm Hk s s' o Hc HP. unfold mbind, prog_bind. destruct (m s) as [s1 o1] eqn:E1. destruct (Hm _ _ _ Hc HP E1) as [Hc1 HQ].
  destruct o1 as [a|e|]; [by apply Hk, HQ|by intros [= <- <-]..].
Qed.

Lemma k_ret {E A} P (a : A) (Q : A -> fact) : (forall x h, P x h -> Q a x h) -> keeps c P (mret a : prog mdnsState E A) Q.
Proof. intros HQ s s' o Hc HP [= <- <-]. split; [done|]. intros a' [= <-]. by apply HQ. Qed.

Lemma k_fails {E A} P (m : prog mdnsState E A) Q : (forall s, exists o, m s = (s, o) /\ forall a, o <> Done a) -> keeps c P m Q.
Proof. intros Hm s s' o Hc HP Hr. destruct (Hm s) as (o' & E1 & Hn). rewrite E1 in Hr. injection Hr as <- <-. split; [done|]. intros a Ha. by destruct (Hn a). Qed.

Lemma k_map_err {E E' A} P (f : E -> E') (m : prog mdnsState E A) Q : keeps c P m Q -> keeps c P (map_err f m) Q.
Proof.
  intros Hm s s' o Hc HP. unfold map_err. destruct (m s) as [s1 o1] eqn:E1. destruct (Hm _ _ _ Hc HP E1) as [Hc1 HQ].
  destruct o1; intros [= <- <-]; split; try done. intros ? [= <-]. by apply HQ.
Qed.

Lemma k_quiet {E A} P (m : prog mdnsState E A) : (forall s, fs (m s).1 = fs s /\ hosts (m s).1 = hosts s) -> keeps c P m (fun _ => P).
Proof. intros Hm s s' o Hc HP Hr. destruct (Hm s) as [H1 H2]. rewrite Hr in H1, H2. cbn in H1, H2. by rewrite H1, H2. Qed.

Lemma k_store P : keeps c P (store_domain env srv domainMDNS) (fun ds x h => transaction x = Some ds /\ P x h).
Proof.
  intros s s' o Hc HP [= <- <-]. split; [done|]. intros ds Hd. split; [|done]. cbn [fs advance]. revert Hd.
  unfold transaction, Domain. change (legacyName domainMDNS) with ConfigFile. destruct (domainFile _ _) as [name|]; [|done]. cbn [mbind result_bind].
  unfold Load. destruct (e_read env (tick s)); [done|]. cbn [mbind result_bind]. destruct (raw_is_empty _).
  - destruct (e_read_legacy env (tick s)); [done|]. by intros [= <-].
  - destruct (unmarshal_domain _); [|done]. by intros [= <-].
Qed.

Lemma k_save_domain P ds : (forall x h, P x h -> holds c (config_file x) ds) ->
  keeps c P (save_domain env srv domainMDNS ds) (fun _ x h => transaction x = Some ds /\ exists x0, P x0 h /\ config_file x = config_file x0).
Proof.
  intros Hd s s' o Hc HP. unfold save_domain. destruct (SaveDomain _ _ _ _ _) as [x o1] eqn:ES. intros [= <- <-]. cbn [fs set_fs hosts advance].
  destruct (protects_record _ _ _ _ _ _ Hc (Hd _ _ HP) ES) as [H1 H2]. split; [done|]. intros [] Ho. split; [by apply H2|].
  exists (fs s). split; [done|]. by apply saved_record in ES as [? _].
Qed.

Lemma k_save_file P data : (forall x h, P x h -> unleased x -> ParseConfig data = Ok c) ->
  keeps c P (save_file env data) (fun _ x h => config_file x = data /\ exists x0, P x0 h /\ (leased x0 -> transaction x = transaction x0)).
Proof.
  intros Hd s s' o Hc HP. unfold save_file. destruct (Save _ _ _ _) as [x o1] eqn:ES. intros [= <- <-]. cbn [fs set_fs hosts advance].
  destruct (protects_file _ _ _ _ _ _ Hc (Hd _ _ HP) ES) as (H1 & H2 & H3). split; [done|]. intros [] Ho. split; [by apply H3|]. by exists (fs s).
Qed.

Lemma applied_config cfg e e' svc svc' out : MdnsService.Apply rr_text cfg e e' svc = (svc', Ok tt, out) -> sCfg svc' = cfg.
Proof.
  unfold MdnsService.Apply. destruct (Validate cfg); [|done]. destruct (Empty cfg); [by intros [= <- _]|].
  destruct (start _ cfg e) as [[r|m] o1]; [by intros [= <- _]|]. destruct (sRun svc); [|done]. by destruct (start _ (sCfg svc) e') as [[?|?] ?].
Qed.

Lemma k_svc_apply P cfg : keeps c P (svc_apply rr_text starts restarts cfg)
  (fun _ x h => (exists h0, P x h0) /\ exists svc, h = Some svc /\ sCfg svc = cfg).
Proof.
  intros s s' o Hc HP. unfold svc_apply. destruct (hosts s domainMDNS) as [svc|] eqn:Eh; [|by intros [= <- <-]].
  destruct (MdnsService.Apply _ _ _ _ _) as [[svc' r] out] eqn:EA. intros [= <- <-]. split; [done|]. intros [] Ho.
  destruct r as [[]|]; [|done]. split; [by exists (Some svc)|]. exists svc'. split; [done|]. by eapply applied_config.
Qed.

Lemma k_parsed P r : keeps c P (parsed r) (fun cfg x h => ParseConfig r = Ok cfg /\ P x h).
Proof. intros s s' o Hc HP [= <- <-]. split; [done|]. intros cfg Hr. split; [|done]. by destruct (ParseConfig r); inversion Hr. Qed.

Lemma k_running {E} P : keeps c P (running_config (E := E)) (fun r x h => r = sCfg <$> h /\ P x h).
Proof. intros s s' o Hc HP [= <- <-]. split; [done|]. by intros a [= <-]. Qed.
End Rules.

Lemma holds_of c x ds : protects c x -> transaction x = Some ds -> holds c (config_file x) ds.
Proof. intros (ds0 & H0 & Hh) H1. rewrite H0 in H1. by apply Some_inj in H1 as <-. Qed.

Definition runs (c : mConfig) (h : mdnsState) : Prop := sCfg <$> h = Some c.

Lemma k_post {E A} c P (m : prog mdnsState E A) (Q Q' : A -> fact) : (forall a x h, Q a x h -> Q' a x h) -> keeps c P m Q -> keeps c P m Q'.
Proof. intros HQ Hm s s' o Hc HP Hr. destruct (Hm _ _ _ Hc HP Hr) as [H1 H2]. split; [done|]. intros a Ha. by apply HQ, H2. Qed.

(** The record of a lease that is given up, once the file is back. *)
Lemma k_clear c ds r (Q : mdnsState -> Prop) : ParseConfig r = Ok c ->
  keeps c (fun x h => transaction x = Some ds /\ config_file x = r /\ Q h) (save_domain env srv domainMDNS (mkDomainState (Confirmed ds) None))
    (fun _ x h => unleased x /\ Q h).
Proof.
  intros Hr. eapply k_pre; [|eapply k_post; [|apply (k_save_domain c (fun x h => ParseConfig (Confirmed ds) = Ok c /\ config_file x = r /\ Q h))]].
  - intros x h Hc (Ht & Hf & HQ). by destruct (holds_of _ _ _ Hc Ht) as [? _].
  - intros _ x h (Ht & x0 & (_ & _ & HQ) & _). split; [by eexists|done].
  - intros x h (Hcf & -> & _). by split.
Qed.

(** What a pending record promises. *)
Lemma k_pending {E A} c ds p (P : fact) (m : prog mdnsState E A) Q : PendingLease ds = Some p ->
  (ParseConfig (Snapshot p) = Ok c -> keeps c (fun x h => transaction x = Some ds /\ P x h) m Q) -> keeps c (fun x h => transaction x = Some ds /\ P x h) m Q.
Proof. intros Hp Hm s s' o Hc [Ht HP]. apply Hm; [|done..]. destruct (holds_of _ _ _ Hc Ht) as [_ Hh]. by rewrite Hp in Hh. Qed.

Lemma k_put_back c ds p r (Q : mdnsState -> Prop) : PendingLease ds = Some p -> ParseConfig r = Ok c ->
  keeps c (fun x h => transaction x = Some ds /\ Q h) (save_file env (kept r))
    (fun _ x h => transaction x = Some ds /\ config_file x = kept r /\ Q h).
Proof.
  intros Hp Hr. eapply k_post; [|apply k_save_file; intros x h _ _; by apply parsed_kept].
  intros _ x h (Hf & x0 & [Ht HQ] & Hs). split_and!; [|done..]. rewrite Hs; [done|]. exists ds. by rewrite Hp.
Qed.

Lemma k_restoreMDNS c ds p : PendingLease ds = Some p -> ParseConfig (Snapshot p) = Ok c ->
  keeps c (fun x _ => transaction x = Some ds) (restoreMDNS rr_text env starts restarts (Snapshot p))
    (fun _ x h => transaction x = Some ds /\ config_file x = kept (Snapshot p) /\ runs c h).
Proof.
  intros Hp Hs. unfold restoreMDNS. eapply k_bind; [apply k_running|]. intros [cfg|]; [|apply k_fails; by eexists].
  eapply k_bind; [apply k_parsed|]. intros c'. eapply k_bind; [apply k_svc_apply|]. intros [].
  eapply k_pre; [|by apply (k_put_back c ds p)]. intros x h _ [(h0 & Hc' & _ & Ht) (svc & -> & Hsv)].
  rewrite Hs in Hc'. apply Ok_inj in Hc' as <-. split; [done|]. unfold runs. cbn. by rewrite Hsv.
Qed.

Lemma k_recover c : keeps c (fun x h => unleased x -> runs c h)
  (recover_expired env srv (restoreMDNS rr_text env starts restarts) domainMDNS) (fun _ x h => unleased x /\ runs c h).
Proof.
  unfold recover_expired. eapply k_bind; [apply k_map_err, k_store|]. intros ds. destruct (PendingLease ds) as [p|] eqn:Hp.
  - eapply k_bind; [apply k_quiet; by intros s|]. intros t. destruct (t <? Deadline p); [apply k_fails; by eexists|].
    destruct (raw_is_empty (Snapshot p)); [apply k_fails; by eexists|]. eapply k_pending; [exact Hp|]. intros Hs.
    eapply k_bind; [eapply k_map_err, k_pre; [|by apply (k_restoreMDNS c ds p)]; by intros x h _ [? _]|].
    intros []. apply k_map_err, k_clear. by apply parsed_kept.
  - apply k_ret. intros x h [Ht HP]. assert (Hu : unleased x) by (by exists ds). split; [done|by apply HP].
Qed.

Lemma k_begin c addr req : domain req = domainMDNS ->
  keeps c (fun x h => unleased x /\ runs c h) (begin env srv addr req (marshal_config c)) (fun _ x _ => leased x).
Proof.
  intros Hd. unfold begin. rewrite Hd. eapply k_bind; [apply k_map_err, k_store|]. intros ds. destruct (PendingLease ds) as [p|] eqn:Hp; [apply k_fails; by eexists|].
  eapply k_bind; [apply k_quiet; by intros s|]. intros id. eapply k_bind; [apply k_quiet; by intros s|]. intros t. cbn zeta.
  set (p := mkPending _ _ _ _ _ _).
  eapply (k_pre c _ (fun x h => ParseConfig (Confirmed ds) = Ok c /\ ParseConfig (config_file x) = Ok c)).
  { intros x h Hc [Ht _]. destruct (holds_of _ _ _ Hc Ht) as [H1 H2]. by rewrite Hp in H2. }
  eapply k_bind; [apply k_map_err, k_save_domain|].
  { intros x h [H1 H2]. split; [done|]. cbn [PendingLease p Snapshot]. destruct (parsed_good _ _ H1). by apply parse_marshal. }
  intros []. eapply (k_bind c _ _ _ (fun _ x _ => leased x)); [|intros []; by apply k_ret].
  intros s s' o Hc (Ht & x0 & [H1 H2] & Hf). unfold on_err. destruct (arm env srv id domainMDNS _ s) as [s1 o1] eqn:Ea.
  assert (Hs1 : fs s1 = fs s /\ hosts s1 = hosts s) by (unfold arm in Ea; destruct (Arm _ _ _ _ _ _ _ _ _) as [[? ?] ?]; by injection Ea as <- <-).
  destruct Hs1 as [Hs1 Hs2]. destruct o1 as [[]|e|].
  - intros [= <- <-]. rewrite Hs1. split; [done|]. intros _ _. exists (mkDomainState (Confirmed ds) (Some p)). by split.
  - intros Hrun. unfold mbind, prog_bind, ignore_err in Hrun. destruct (save_domain _ _ _ _ s1) as [s2 o2] eqn:Es.
    destruct (k_save_domain c (fun x _ => config_file x = config_file x0) (mkDomainState (Confirmed ds) None) ltac:(intros x h ->; by split) s1 s2 o2) as [H3 _];
      [by rewrite Hs1|by rewrite Hs1|done|]. destruct o2; injection Hrun as <- <-; by split.
  - intros [= <- <-]. rewrite Hs1. by split.
Qed.

Lemma k_finish c id : keeps c (fun x _ => leased x) (finishApply env srv domainMDNS id) (fun _ x _ => leased x).
Proof.
  unfold finishApply. eapply k_bind; [apply k_quiet; by intros s|]. intros late. destruct late; [apply k_fails; by eexists|].
  eapply k_bind; [apply k_map_err, k_store|]. intros ds. destruct (PendingLease ds) as [p|] eqn:Hp; [|apply k_fails; by eexists].
  eapply k_bind; [apply k_map_err|].
  - eapply (k_pre c _ (fun x h => holds c (config_file x) ds)); [intros x h Hc [Ht _]; by apply holds_of|].
    apply k_save_domain. intros x h [H1 H2]. rewrite Hp in H2. by split.
  - intros []. apply k_ret. intros x h [Ht _]. by eexists.
Qed.

Lemma k_applyMDNS c addr req : domain req = domainMDNS ->
  keeps c (fun x h => unleased x -> runs c h) (applyMDNS rr_text env srv starts restarts addr req) (fun _ x _ => leased x).
Proof.
  intros Hd. unfold applyMDNS. eapply k_bind; [apply k_running|]. intros [cfg|]; [|apply k_fails; by eexists].
  eapply k_bind; [apply k_map_err, k_parsed|]. intros desired. eapply k_bind; [eapply k_pre; [|apply (k_recover c)]; naive_solver|]. intros [].
  eapply k_bind; [apply k_running|]. intros running.
  destruct (decide (running = Some c)) as [->|Hne]; [|intros s s' o _ [Hr [_ Hrun]]; by destruct Hne; rewrite Hr].
  eapply k_bind; [eapply k_pre; [|by apply (k_begin c addr req)]; by intros x h _ [_ ?]|]. intros id.
  eapply k_bind; [apply k_map_err, k_svc_apply|]. intros []. eapply k_bind; [apply k_map_err, k_save_file|].
  { intros x h [(h0 & ds1 & Ht1 & Hn) _] (ds2 & Ht2 & Hn2). rewrite Ht1 in Ht2. by apply Some_inj in Ht2 as ->. }
  intros []. eapply k_pre; [|apply k_finish]. intros x h _ (_ & x0 & [(h0 & Hl) _] & Hs). destruct (Hl) as (ds & Ht & Hn). exists ds. by rewrite Hs.
Qed.

Lemma k_ApplyFeature c peer caller req : domain req = domainMDNS ->
  keeps c (fun x h => unleased x -> runs c h) (ApplyFeature rr_text env srv starts restarts peer caller req) (fun _ x _ => leased x).
Proof.
  intros Hd. unfold ApplyFeature, apply_through. destruct (ObserveOnly srv); [apply k_fails; by eexists|].
  eapply k_bind; [apply k_quiet; by destruct peer|]. intros addr. eapply k_bind; [apply k_quiet; intros s; unfold authorize; by destruct (AuthorizeDeployer _ _)|]. intros [].
  destruct (_ <=? 0); [apply k_fails; by eexists|]. eapply k_bind; [apply k_map_err, k_quiet; by intros s|]. intros []. by apply k_applyMDNS.
Qed.

Lemma k_revert c id : keeps c (fun _ _ => True) (revert env srv id) (fun _ _ _ => True).
Proof.
  unfold revert, recover_domain. eapply k_bind; [apply k_quiet; by intros s|]. intros []. eapply k_bind; [apply k_store|]. intros ds.
  assert (Hun : PendingLease ds = None \/ is_empty id = false -> keeps c (fun x _ => transaction x = Some ds /\ True)
     (if negb (is_empty id) then mret tt else restoreMDNSConfig env (Confirmed ds)) (fun _ _ _ => True)).
  { intros Hor. destruct (is_empty id); [|by apply k_ret]. destruct Hor as [Hp|]; [|done]. cbn [negb]. unfold restoreMDNSConfig.
    eapply (k_pre c _ (fun x h => ParseConfig (Confirmed ds) = Ok c)); [intros x h Hc [Ht _]; by destruct (holds_of _ _ _ Hc Ht)|].
    eapply k_bind; [apply k_parsed|]. intros c'. eapply k_post; [|apply k_save_file]; [done|]. intros x h [_ Hg] _. by apply parsed_kept. }
  destruct (PendingLease ds) as [p|] eqn:Hp; [|by apply Hun; left].
  destruct (is_empty id) eqn:Ei; cbn [orb]; [|destruct (ID p =?s id); [|by apply Hun; right]].
  all: eapply k_pending; [exact Hp|]; intros Hs; eapply k_bind; [unfold restoreMDNSConfig; eapply k_bind; [apply k_parsed|]; intros c';
    eapply k_pre; [|by apply (k_put_back c ds p _ (fun _ => True))]; by intros x h _ [_ [? _]]|];
    intros []; eapply k_post; [|apply (k_clear c ds (kept (Snapshot p)) (fun _ => True)); by apply parsed_kept]; done.
Qed.

Lemma k_watch c : keeps c (fun _ _ => True) (watch rr_text env starts restarts) (fun _ _ _ => True).
Proof.
  unfold watch. eapply k_bind; [apply k_quiet; by intros s|]. intros []. eapply k_bind; [apply k_quiet; by intros s|]. intros data.
  eapply k_bind; [apply k_parsed|]. intros want. eapply k_bind; [apply k_running|]. intros [cfg|]; [|by apply k_ret].
  destruct (decide _); [by apply k_ret|]. eapply k_post; [|apply k_svc_apply]. done.
Qed.

(** What happens to the domain while nobody confirms: a request, whatever becomes of it, which finds
    the service at [c] unless a lease is open; a round of the watcher; the timer's process; and a
    stop of the daemon at any time with the start that follows. *)
Inductive mdns_step (c : mConfig) : Sys mdnsState -> Sys mdnsState -> Prop :=
| ms_apply peer caller req s s' o : domain req = domainMDNS -> (unleased (fs s) -> runs c (hosts s domainMDNS)) ->
    ApplyFeature rr_text env srv starts restarts peer caller req s = (s', o) -> mdns_step c s s'
| ms_watch s s' o : watch rr_text env starts restarts s = (s', o) -> mdns_step c s s'
| ms_revert id s s' o : revert env srv id s = (s', o) -> mdns_step c s s'
| ms_boot s s' o : boot_feature env srv s = (s', o) -> mdns_step c s s'.

Lemma step_protects c s s' : mdns_step c s s' -> protects c (fs s) -> protects c (fs s').
Proof.
  intros [peer caller req s1 s2 o Hd Hr Hrun|s1 s2 o Hrun|id s1 s2 o Hrun|s1 s2 o Hrun] Hc.
  - by eapply (k_ApplyFeature c peer caller req Hd) in Hrun as [? _].
  - by eapply (k_watch c) in Hrun as [? _].
  - by eapply (k_revert c id) in Hrun as [? _].
  - unfold boot_feature in Hrun. by eapply (k_revert c EmptyString) in Hrun as [? _].
Qed.

(** The service is at [c] and, unless [c] is empty, running; it is at [c] and not running. *)
Definition advertising (c : mConfig) (h : mdnsState) : Prop := exists svc, h = Some svc /\ sCfg svc = c /\ (Empty c = true \/ is_Some (sRun svc)).
Definition silent_at (c : mConfig) (h : mdnsState) : Prop := Empty c = false /\ h = Some (mkService c None).

(** A round of the watcher that reads the file and can start its configuration. *)
Lemma watch_converges c (s : Sys mdnsState) : ParseConfig (config_file (fs s)) = Ok c -> is_Some (hosts s domainMDNS) ->
  e_lock env (tick s) = false -> e_read env (S (tick s)) = false ->
  (Empty c = true \/ exists r out, start rr_text c (starts (S (S (tick s)))) = (Ok r, out)) ->
  let h' := hosts (watch rr_text env starts restarts s).1 domainMDNS in
  advertising c h' \/ silent_at c (hosts s domainMDNS) /\ h' = hosts s domainMDNS.
Proof.
  intros Hf [svc Hsv] Hl Hr Hst. destruct (parsed_good _ _ Hf) as [_ Hv].
  assert (E1 : forall k : prog mdnsState string unit, (lock env ;; k) s = k (advance s)) by (intros k; unfold mbind, prog_bind, lock; cbv beta; rewrite Hl; reflexivity).
  assert (E2 : forall k : raw -> prog mdnsState string unit, (load_file env ≫= k) (advance s) = k (config_file (fs s)) (advance (advance s))).
  { intros k. unfold mbind, prog_bind, load_file, Load. cbn [tick advance fs]. by rewrite Hr. }
  unfold watch. rewrite E1, E2. unfold mbind, prog_bind, parsed, running_config. rewrite Hf. cbn [of_result hosts advance]. rewrite Hsv. cbn [fmap option_fmap option_map].
  case_decide as Hd.
  - cbn [fst mret prog_ret hosts advance]. rewrite Hsv. destruct (Empty c) eqn:Ee; [left; exists svc; rewrite Ee; auto|].
    destruct svc as [c0 [r|]]; cbn in Hd; subst c0; [left; exists (mkService c (Some r)); rewrite Ee; cbn; eauto|by right].
  - left. unfold svc_apply. cbn [hosts tick advance]. rewrite Hsv. unfold MdnsService.Apply. rewrite Hv.
    destruct (Empty c) eqn:Ee; [exists (mkService c None); rewrite Ee; cbn; auto|]. destruct Hst as [|(r & out & ->)]; [done|].
    exists (mkService c (Some r)). rewrite Ee. cbn. eauto.
Qed.

(** C10: a change of the advertised configuration that nobody confirms is undone.  Let [c] be the
    configuration that is confirmed and in force.  Whatever sequence of requests, of rounds of the
    watcher, of runs of the timer's process and of restarts of the daemon follows, with any failure
    or stop at any call of theirs, where a request is taken only while the service is at [c] or a
    lease is open: either a lease is open whose snapshot gives [c] back, or the file says [c] again.
    In the latter case the next round of the watcher that reads the file and can start [c] leaves the
    service at [c] and running; only a service that is already at [c] but not running, because a
    restart failed before, is left as it is. *)
Theorem unconfirmed_reverts c (s s' : Sys mdnsState) : protects c (fs s) -> rtc (mdns_step c) s s' ->
  exists ds, transaction (fs s') = Some ds /\ ParseConfig (Confirmed ds) = Ok c
    /\ match PendingLease ds with
       | Some p => ParseConfig (Snapshot p) = Ok c
       | None => ParseConfig (config_file (fs s')) = Ok c
           /\ (is_Some (hosts s' domainMDNS) -> e_lock env (tick s') = false -> e_read env (S (tick s')) = false ->
               (Empty c = true \/ exists r out, start rr_text c (starts (S (S (tick s')))) = (Ok r, out)) ->
               let h' := hosts (watch rr_text env starts restarts s').1 domainMDNS in
               advertising c h' \/ silent_at c (hosts s' domainMDNS) /\ h' = hosts s' domainMDNS)
       end.
Proof.
  intros Hc Hs. assert (Hc' : protects c (fs s')) by (induction Hs; [done|]; eauto using step_protects).
  destruct Hc' as (ds & Ht & Hcf & Hp). exists ds. split_and!; [done..|]. destruct (PendingLease ds); [done|]. split; [done|]. by apply watch_converges.
Qed.
End Lease.


(** * Out of step

    The watcher compares configurations, not what runs: a service whose restart failed after a
    refused change keeps its old configuration, is found to be at the file's, and stays silent. *)
Lemma silent_service_stays_silent `{CaseFold} rr_text env starts restarts c (s : Sys mdnsState) :
  ParseConfig (config_file (fs s)) = Ok c -> hosts s domainMDNS = Some (mkService c None) ->
  hosts (watch rr_text env starts restarts s).1 domainMDNS = Some (mkService c None).
Proof.
  intros Hf Hs. unfold watch, mbind, prog_bind, lock. destruct (e_lock env (tick s)); [done|]. unfold load_file, Load. cbn [tick advance fs].
  destruct (e_read env (S (tick s))); [done|]. cbn [of_result]. unfold parsed, running_config.
  change (default RawEmpty (fs s !! ConfigFile)) with (config_file (fs s)). rewrite Hf. cbn [of_result hosts advance]. rewrite Hs. cbn [fmap option_fmap option_map sCfg].
  by rewrite decide_True.
Qed.

Module FeatureExample.

Definition world : Env :=
  mkEnv (fun n => Z.of_nat n * second) (fun _ => NoFault) (fun _ => false) (fun _ => false) (fun _ => false) (fun _ => CmdOk) (fun _ => false)
    (fun n => "lease-" +++ pretty (Z.of_nat n)).
Definition server : Server := mkServer false (NewAuthenticator "tag:deployer") "/usr/bin/ghostd" "/var/lib/ghostd" (RegisterDomain domainMDNS core_domains).
Definition ops : result string (option Caller) := Ok (Some (mkCaller "ops" "n1" "ops.example" ["tag:deployer"] [] ∅)).
Definition here (_ : nat) : start_env := MdnsExample.calm.

(** The same share under three host names. *)
Definition named (host : string) : mConfig := mkMConfig ["eth0"] host [MdnsExample.share] [].
Definition at_first : Sys mdnsState :=
  mkSys {[ConfigFile := marshal_config (named "nas")]} ∅ ∅
    (fun _ => Some (MdnsService.Apply MdnsExample.print_rr (named "nas") MdnsExample.calm MdnsExample.calm (mkService zero_config None)).1.1) 0.

Definition ask (host : string) (s : Sys mdnsState) : Sys mdnsState * outcome status string :=
  ApplyFeature MdnsExample.print_rr world server here here (Some "100.64.0.9:5000") ops (mkApplyRequest domainMDNS (marshal_config (named host)) 60) s.
Definition open_lease (s : Sys mdnsState) : string := match transaction server (fs s) with Some (mkDomainState _ (Some p)) => ID p | _ => EmptyString end.
Definition lapse (s : Sys mdnsState) : Sys mdnsState * outcome string unit := revert world server (open_lease s) s.

Definition asked : Sys mdnsState := (ask "media" at_first).1.
Definition lapsed : Sys mdnsState := (lapse asked).1.

Lemma first_protected : protects server (named "nas") (fs at_first).
Proof. exists (mkDomainState (marshal_config (named "nas")) None). split; [|split]; vm_compute; reflexivity. Qed.

Lemma first_steps : rtc (mdns_step MdnsExample.print_rr world server here here (named "nas")) at_first lapsed.
Proof.
  eapply rtc_l; [|apply rtc_once].
  - eapply (ms_apply _ _ _ _ _ (named "nas") (Some "100.64.0.9:5000") ops (mkApplyRequest domainMDNS (marshal_config (named "media")) 60) at_first asked (ask "media" at_first).2).
    + reflexivity.
    + intros _. vm_compute. reflexivity.
    + apply surjective_pairing.
  - apply (ms_revert _ _ _ _ _ _ (open_lease asked) asked lapsed (lapse asked).2). apply surjective_pairing.
Qed.

Lemma lapsed_unleased : PendingLease <$> transaction server (fs lapsed) = Some None.
Proof. vm_compute. reflexivity. Qed.

Lemma starts_again : exists r out, start MdnsExample.print_rr (named "nas") MdnsExample.calm = (Ok r, out).
Proof. eexists _, _. vm_compute. reflexivity. Qed.

Lemma lapsed_attached : is_Some (hosts lapsed domainMDNS).
Proof. vm_compute. eauto. Qed.
Lemma lapsed_running : (match hosts lapsed domainMDNS with Some svc => bool_decide (is_Some (sRun svc)) | None => false end) = true.
Proof. vm_compute. reflexivity. Qed.

Lemma unconfirmed_reverts_witness :
  ParseConfig (config_file (fs lapsed)) = Ok (named "nas") /\ advertising (named "nas") (hosts (watch MdnsExample.print_rr world here here lapsed).1 domainMDNS).
Proof.
  destruct (unconfirmed_reverts MdnsExample.print_rr world server here here (elem_of_union_l _ _ _ (proj2 (elem_of_singleton _ _) eq_refl))
    (named "nas") at_first lapsed first_protected first_steps) as (ds & Ht & _ & Hp).
  pose proof lapsed_unleased as Hn. rewrite Ht in Hn. apply Some_inj in Hn. cbn beta in Hn. rewrite Hn in Hp. destruct Hp as [H1 H2].
  split; [exact H1|]. destruct H2 as [H2|[[_ H2] _]]; [exact lapsed_attached|reflexivity|reflexivity|right; exact starts_again|exact H2|].
  pose proof lapsed_running as Hr. rewrite H2 in Hr. discriminate Hr.
Defined.

(** Between the run of the timer's process and the next round of the watcher the service is still at
    the configuration nobody confirmed.  A request in that window takes it for its snapshot, and its
    own rollback then writes it to the file. *)
Definition asked_again : Sys mdnsState := (ask "music" lapsed).1.
Definition lapsed_again : Sys mdnsState := (lapse asked_again).1.

Lemma unconfirmed_adopted :
  ParseConfig (config_file (fs lapsed_again)) = Ok (named "media")
  /\ match transaction server (fs lapsed_again) with
     | Some ds => ParseConfig (Confirmed ds) = Ok (named "nas") /\ PendingLease ds = None
     | None => False
     end.
Proof. vm_compute. repeat split. Qed.

(** A refused change whose old configuration cannot start again either leaves the service silent
    at its old configuration. *)
Definition no_port : start_env := mkStartEnv MdnsExample.addresses (Some MdnsExample.host_ifaces) false (fun _ => true) [] id.
Lemma refused_silent : match hosts at_first domainMDNS with
  | Some svc => (MdnsService.Apply MdnsExample.print_rr (named "media") no_port no_port svc).1.1 = mkService (named "nas") None
  | None => False
  end.
Proof. vm_compute. reflexivity. Qed.
End FeatureExample.
