(* ===== verification/Resolver.v ===== *)
(** internal/resolver: the access policy of each container's resolver (acl.go), the plugin that
    answers .local names from the LAN (resolver.go), and the chain of plugins a query runs through
    on a listener (plugins.go, registry.go), the configuration given to CoreDNS, and start and stop.

    A request is its questions, times are in nanoseconds.  What the cache, the LAN and the upstream
    resolvers answer is part of each event, so every theorem holds whatever they say.  A question's
    name is the text the DNS library presents, which is ASCII. *)

From stdpp Require Import pretty.
From S2P Require Import Prelude Json NetAddr Ledger Config Dns Mdns.
From Stdlib Require Import Ascii.
Local Open Scope Z_scope.

(** * The policy file *)

Record Identity := mkIdentity { idName : string; Listen : string; AllowNames : list string; AllowServices : list string }.
Record ACL := mkACL { Identities : list Identity }.

Definition set_identity (k : string) (v : json) (d : Identity) : option (option Identity) :=
  let '(mkIdentity n l a s) := d in
  if equal_fold k "name" then Some (x ← dec_string n v; Some (mkIdentity x l a s))
  else if equal_fold k "listen" then Some (x ← dec_string l v; Some (mkIdentity n x a s))
  else if equal_fold k "allow_names" then Some (x ← dec_list (dec_string EmptyString) v; Some (mkIdentity n l x s))
  else if equal_fold k "allow_services" then Some (x ← dec_list (dec_string EmptyString) v; Some (mkIdentity n l a x))
  else None.

Definition set_acl (k : string) (v : json) (a : ACL) : option (option ACL) :=
  if equal_fold k "identities" then
    Some (x ← dec_list (dec_struct true set_identity (mkIdentity EmptyString EmptyString [] [])) v; Some (mkACL x))
  else None.

Inductive acl_error :=
| AclJson
| AclTrailing
| AclName (name : string)
| AclListen (name : string)
| AclTaken (name listen : string)
| AclAllowName (name entry : string)
| AclService (name entry : string).

Definition validName (s : string) : bool :=
  negb (is_empty s) && (String.length s <=? 63)%nat && str_forallb lower_alnum_dash s.

(** net.IP's predicates, on the sixteen-byte form. *)
Definition ip_unspecified (n : Z) : bool := (n =? 0) || (n =? of4 0).
Definition ip_multicast (n : Z) : bool :=
  match To4 (Some n) with Some m => Z.shiftr m 28 =? 14 | None => Z.shiftr n 120 =? 255 end.

Section Policies.
Context `{CaseFold}.

Definition serviceClass (name : string) : option string :=
  let labels := rev (split_char "." (trim_suffix (ToLower name) ".")) in
  if (length labels <? 3)%nat then None
  else match labels with
       | top :: rest => if top =?s "local" then find_class rest else None
       | [] => None
       end.

Definition bad_allow_name (n : string) : bool :=
  negb (n =?s "*") && (contains_char " " n || contains_char "/" n || contains_char "009" n || has_prefix n "." || is_empty n).
Definition is_service (s : string) : bool :=
  match serviceClass (s +++ ".local.") with Some c => c =?s ToLower s | None => false end.

Definition validate_identity (seen : gset string * gset string) (id : Identity) : result acl_error (gset string * gset string) :=
  let '(names, listens) := seen in
  fail_if (negb (validName (idName id)) || bool_decide (idName id ∈ names)) (AclName (idName id));;
  match ParseIP (Listen id) with
  | None => Err (AclListen (idName id))
  | Some ip =>
    fail_if (ip_unspecified ip || ip_multicast ip) (AclListen (idName id));;
    fail_if (bool_decide (IPString ip ∈ listens)) (AclTaken (idName id) (Listen id));;
    for_each (fun n => fail_if (bad_allow_name n) (AclAllowName (idName id) n)) (AllowNames id);;
    for_each (fun s => check (is_service s) (AclService (idName id) s)) (AllowServices id);;
    Ok ({[idName id]} ∪ names, {[IPString ip]} ∪ listens)
  end.

Definition Validate (a : ACL) : result acl_error unit :=
  _ ← fold_m validate_identity (∅, ∅) (Identities a); Ok tt.

Definition blank (r : raw) : bool :=
  match r with RawEmpty => true | RawBad s => is_empty (trim_space s) | _ => false end.

Definition ParseACL (r : raw) : result acl_error ACL :=
  if blank r then Ok (mkACL [])
  else match decode_first r ≫= dec_struct true set_acl (mkACL []) with
       | None => Err AclJson
       | Some a => if at_eof r then Validate a;; Ok a else Err AclTrailing
       end.

(** * Decisions *)

Record Policy := mkPolicy { pId : Identity; granted : gmap string Z }.
Definition newPolicy (id : Identity) : Policy := mkPolicy id ∅.

Definition name_matches (name allowed : string) : bool :=
  let allowed := trim_suffix (ToLower allowed) "." in
  ((allowed =?s "*") && negb (has_suffix name ".local") && negb (name =?s "local"))
  || (name =?s allowed) || has_suffix name ("." +++ allowed).
Definition matchesName (p : Policy) (name : string) : bool :=
  let name := trim_suffix (ToLower name) "." in existsb (name_matches name) (AllowNames (pId p)).

Definition Decide (now : Z) (p : Policy) (q : Question) : bool * string :=
  if negb (qClass q =? ClassINET) then (false, "unsupported class")
  else
    let name := ToLower (qName q) in
    if has_suffix name ".local." then
      match serviceClass name with
      | Some class =>
        if mem_str class (AllowServices (pId p)) then (true, EmptyString)
        else (false, "service class " +++ class +++ " not allowed")
      | None =>
        if matchesName p name then (true, EmptyString)
        else match granted p !! name with
             | Some exp =>
               if now <? exp then (true, EmptyString) else (false, "host not offered by any service this identity may browse")
             | None => (false, "host not offered by any service this identity may browse")
             end
      end
    else if matchesName p name then (true, EmptyString) else (false, "name not allowed").

Definition grant_life : Z := 2 * 60 * second.
Definition grant_limit : nat := 4096.

Definition live_grants (now : Z) (p : Policy) : gmap string Z := filter (fun kv => now < snd kv) (granted p).
Definition GrantHost (now : Z) (host : string) (p : Policy) : Policy :=
  let live := live_grants now p in
  mkPolicy (pId p) (if (size live <? grant_limit)%nat then <[ToLower host := now + grant_life]> live else live).

Definition setPolicies (a : ACL) : gmap string Policy :=
  fold_left (fun m id => <[idName id := newPolicy id]> m) (Identities a) ∅.

(** aclHandler.ServeDNS: [None] runs the next plugin; a code answers without one. *)
Definition acl_serve (now : Z) (ps : option (gmap string Policy)) (name : string) (qs : list Question) : option Z :=
  match ps ≫= lookup name, qs with
  | Some p, [q] => if fst (Decide now p q) then None else Some RcodeRefused
  | _, _ => Some RcodeRefused
  end.
End Policies.

(** * The LAN plugin *)

Definition RcodeServerFailure : Z := 2.
Definition RcodeNotImplemented : Z := 4.
Definition slot_count : nat := 16.

Record reply := mkReply { rpRcode : Z; rpAnswer : list mRR; rpExtra : list mRR }.

Inductive local_act := LCode (rcode : Z) | LNext | LBrowse (q : Question) | LLookup (q : Question).

Section Local.
Context `{CaseFold}.

(** Until the LAN is asked; [busy] counts the slots of the listener's handler in use. *)
Definition local_begin (busy : nat) (qs : list Question) : local_act :=
  match qs with
  | [q] =>
    if negb (has_suffix (ToLower (qName q)) ".local.") then LNext
    else if negb (qClass q =? ClassINET) then LCode RcodeRefused
    else
      let free := (busy <? slot_count)%nat in
      match serviceClass (qName q) with
      | Some _ =>
        if (qType q =? TypePTR) || (qType q =? TypeSRV) || (qType q =? TypeTXT)
        then if free then LBrowse q else LCode RcodeServerFailure
        else if negb (qType q =? TypeA) && negb (qType q =? TypeAAAA) then LCode RcodeNotImplemented
             else if free then LLookup q else LCode RcodeServerFailure
      | None =>
        if negb (qType q =? TypeA) && negb (qType q =? TypeAAAA) then LCode RcodeNotImplemented
        else if free then LLookup q else LCode RcodeServerFailure
      end
  | _ => LCode RcodeFormatError
  end.

(** The reply to an address question, from the addresses the LAN gave. *)
Definition local_record (q : Question) (ip : Z) : list mRR :=
  match To4 (Some ip) with
  | Some n => if qType q =? TypeA then [mkMRR (qName q) ClassINET 30 (MA n)] else []
  | None => if qType q =? TypeAAAA then [mkMRR (qName q) ClassINET 30 (MAAAA ip)] else []
  end.
Definition lookup_reply (q : Question) (ips : option (list Z)) : Z + reply :=
  match ips with
  | None => inl RcodeServerFailure
  | Some ips => inr (mkReply (match ips with [] => RcodeNameError | _ => 0 end) (flat_map (local_record q) ips) [])
  end.

(** The outcome of a browse: no LAN client, an error, or records. *)
Inductive browsed := NoLAN | BrowseFailed | Browsed (answers extra : list mRR).

Definition browse_reply (b : browsed) : Z + reply :=
  match b with
  | NoLAN => inl RcodeNotImplemented
  | BrowseFailed => inl RcodeServerFailure
  | Browsed answers extra => inr (mkReply (match answers with [] => RcodeNameError | _ => 0 end) answers extra)
  end.

Definition srv_target (rr : mRR) : option string := match hData rr with MSRV _ t => Some t | _ => None end.
Definition srv_targets (rrs : list mRR) : list string := omap srv_target rrs.

(** The hosts a browse named are granted one by one, each at its own instant. *)
Definition grant_hosts (times : list Z) (hosts : list string) (p : Policy) : Policy :=
  fold_left (fun p th => GrantHost (fst th) (snd th) p) (zip times hosts) p.
End Local.

(** * The chain of a listener *)

(** dnsserver.Directives, with the lease plugin of a build that has DHCP inserted behind the policy. *)
Definition base_directives : list string := ["bind"; "ghostacl"; "cache"; "ghostlocal"; "forward"].
Definition insert_leases (ds : list string) : list string :=
  flat_map (fun d => if d =?s "ghostacl" then [d; "ghostleases"] else [d]) ds.
Definition Directives (dhcp : bool) : list string := if dhcp then insert_leases base_directives else base_directives.

(** A request that waits for the LAN: its listener ([None] is the base listener), its question, and
    the start of the resolver whose handler it took a slot of. *)
Record pending := mkPending { wListener : option string; wQuestion : Question; wBrowse : bool; wGeneration : nat }.

Record rstate := mkRState {
  policies : option (gmap string Policy);
  registry : option (Config * ledger);
  inflight : list pending;
  generation : nat;
}.

Definition same_handler (listener : option string) (gen : nat) (w : pending) : bool :=
  bool_decide (wListener w = listener) && (wGeneration w =? gen)%nat.
Definition busy (st : rstate) (listener : option string) : nat :=
  length (List.filter (same_handler listener (generation st)) (inflight st)).

(** What a request comes to: a code or a message, the next resolver, or waiting for the LAN. *)
Inductive outcome :=
| Returned (rcode : Z)
| Leased (m : Msg)
| Cached (r : Z + reply)
| Replied (r : reply)
| Forwarded
| Waiting.

Inductive revent :=
| EStart (a : ACL)
| EStop
| ERegistry (r : option (Config * ledger))
| EAsk (now : Z) (listener : option string) (hit : option (Z + reply)) (qs : list Question)
| EDone (k : nat) (ips : option (list Z)) (b : browsed) (times : list Z).

Section Chain.
Context `{CaseFold} (ReverseAddr : string -> string).

Definition wait (st : rstate) (w : pending) : rstate :=
  mkRState (policies st) (registry st) (inflight st ++ [w]) (generation st).

(** ghostlocal, behind the cache; what it does not answer is forwarded. *)
Definition local_serve (st : rstate) (listener : option string) (qs : list Question) : outcome * rstate :=
  match local_begin (busy st listener) qs with
  | LCode c => (Returned c, st)
  | LNext => (Forwarded, st)
  | LBrowse q => (Waiting, wait st (mkPending listener q true (generation st)))
  | LLookup q => (Waiting, wait st (mkPending listener q false (generation st)))
  end.
Definition cache_serve (st : rstate) (listener : option string) (hit : option (Z + reply)) (qs : list Question) : outcome * rstate :=
  match hit with Some r => (Cached r, st) | None => local_serve st listener qs end.
Definition lease_serve (now : Z) (st : rstate) (listener : option string) (hit : option (Z + reply)) (qs : list Question) : outcome * rstate :=
  match registry st with
  | None => cache_serve st listener hit qs
  | Some (c, l) =>
    match ServeDNS ReverseAddr (now / second) c l qs with
    | Answered m => (Leased m, st)
    | Coded rc => (Returned rc, st)
    | Passed => cache_serve st listener hit qs
    end
  end.
Definition ask (now : Z) (st : rstate) (listener : option string) (hit : option (Z + reply)) (qs : list Question) : outcome * rstate :=
  match listener with
  | None => lease_serve now st listener hit qs
  | Some name =>
    match acl_serve now (policies st) name qs with
    | Some rc => (Returned rc, st)
    | None => lease_serve now st listener hit qs
    end
  end.

(** serveBrowse's grants go to the policy the name has when the answer is there. *)
Definition grant_answers (listener : option string) (times : list Z) (rrs : list mRR) (ps : option (gmap string Policy)) : option (gmap string Policy) :=
  match listener, ps with
  | Some name, Some m => if is_empty name then ps else Some (alter (grant_hosts times (srv_targets rrs)) name m)
  | _, _ => ps
  end.

(** The LAN's answer to a waiting request; its slot is free again. *)
Definition done_waiting (st : rstate) (k : nat) (ips : option (list Z)) (b : browsed) (times : list Z) : option outcome * rstate :=
  match inflight st !! k with
  | None => (None, st)
  | Some w =>
    let rest := take k (inflight st) ++ drop (S k) (inflight st) in
    let out := if wBrowse w then browse_reply b else lookup_reply (wQuestion w) ips in
    let ps := match wBrowse w, b with
              | true, Browsed answers extra => grant_answers (wListener w) times (answers ++ extra) (policies st)
              | _, _ => policies st
              end in
    (Some (match out with inl c => Returned c | inr r => Replied r end), mkRState ps (registry st) rest (generation st))
  end.

Definition rstep (st : rstate) (e : revent) : rstate :=
  match e with
  | EStart a => if is_ok (Validate a) then mkRState (Some (setPolicies a)) (registry st) (inflight st) (S (generation st)) else st
  | EStop => mkRState None (registry st) (inflight st) (generation st)
  | ERegistry r => mkRState (policies st) r (inflight st) (generation st)
  | EAsk now listener hit qs => snd (ask now st listener hit qs)
  | EDone k ips b times => snd (done_waiting st k ips b times)
  end.
Definition rrun (evs : list revent) : rstate := fold_left rstep evs (mkRState None None [] 0).
End Chain.

(** internal/resolver/plugins.go and start (resolver.go): the configuration given to CoreDNS, and
    the start and stop of the container resolver with the files it publishes.

    Starting CoreDNS and the calls of the file system can fail: [host] says which do, and in which
    order a Go map is ranged over.  A file is published by writing a temporary one and renaming it,
    so it is there whole or as it was. *)

Definition PortDNS : Z := 53.
Definition Quad100 : string := "100.100.100.100".
Definition publicFallbackResolvers : list string := ["1.1.1.1"; "8.8.8.8"].

(** * The Corefile *)

Definition leaseDirective (dhcp : bool) : string := if dhcp then " ghostleases" +++ newline else EmptyString.

Definition block (dhcp : bool) (port : Z) (targets bind acl : string) : string :=
  ".:" +++ pretty port +++ " {" +++ newline +++ " bind " +++ bind +++ newline +++ acl +++ leaseDirective dhcp
  +++ " cache 30 {" +++ newline +++ " servfail 5s" +++ newline +++ " }" +++ newline +++ " ghostlocal" +++ newline
  +++ " forward . " +++ targets +++ " {" +++ newline +++ " max_concurrent 128" +++ newline +++ " policy sequential" +++ newline
  +++ " failover SERVFAIL REFUSED" +++ newline +++ " }" +++ newline +++ "}" +++ newline.

Definition pluginCorefile (dhcp : bool) (port : Z) (address upstream : string) (identities : list Identity) : string :=
  let targets := join " " (upstream :: publicFallbackResolvers) in
  fold_left (fun out id => out +++ block dhcp port targets (Listen id) (" ghostacl " +++ idName id +++ newline)) identities
    (block dhcp port targets address EmptyString).

(** * Start and stop *)

Record host := mkHost {
  caddy_starts : string -> bool;
  mkdir_works : bool;
  publishes : string -> bool;
  removes : string -> bool;
  files_order : list (string * string) -> list (string * string);
}.

Record rhost := mkRHost {
  live_policies : option (gmap string Policy);
  live_lan : bool;
  serving : option string;
  directory : gmap string string;
}.

Inductive start_error :=
| BadBind (address : string)
| BadACL (e : acl_error)
| OnBase (name : string)
| CaddyFailed
| MkdirFailed
| PublishFailed (name : string).

Definition identity_files (m : gmap string string) (id : Identity) : gmap string string :=
  <["resolv-" +++ idName id +++ ".conf" :=
     "# Managed by ghostd; resolver for identity " +++ idName id +++ " only." +++ newline +++ "nameserver " +++ Listen id +++ newline]>
  (<["dns-" +++ idName id +++ ".env" := "GHOSTD_DNS_ADDRESS=" +++ Listen id +++ newline]> m).
Definition base_files (ip : Z) : gmap string string :=
  <["resolv.conf" := "# Managed by ghostd; for clients without Podman service discovery." +++ newline +++ "nameserver " +++ IPString ip +++ newline]>
  (<["dns.env" := "GHOSTD_DNS_ADDRESS=" +++ IPString ip +++ newline]> ∅).
Definition resolver_files (ip : Z) (ids : list Identity) : gmap string string := fold_left identity_files ids (base_files ip).

Section Start.
Context `{CaseFold} (dhcp : bool) (h : host).

Definition stop (s : rhost) : rhost := mkRHost None false None (directory s).

Fixpoint publish_all (files : list (string * string)) (s : rhost) : result start_error unit * rhost :=
  match files with
  | [] => (Ok tt, s)
  | (name, content) :: rest =>
    if publishes h name then publish_all rest (mkRHost (live_policies s) (live_lan s) (serving s) (<[name := content]> (directory s)))
    else (Err (PublishFailed name), stop s)
  end.

Definition base_clash (ip : Z) (ids : list Identity) : option Identity := List.find (fun id => ip_eqb (ParseIP (Listen id)) (Some ip)) ids.

Definition start (s : rhost) (address : string) (port : Z) (upstream : string) (acl : ACL) (lan : bool) : result start_error unit * rhost :=
  match ParseIP address with
  | None => (Err (BadBind address), s)
  | Some ip =>
    match Validate acl with
    | Err e => (Err (BadACL e), s)
    | Ok _ =>
      match base_clash ip (Identities acl) with
      | Some id => (Err (OnBase (idName id)), s)
      | None =>
        let corefile := pluginCorefile dhcp port (IPString ip) upstream (Identities acl) in
        let lan' := lan || live_lan s in
        if negb (caddy_starts h corefile) then (Err CaddyFailed, mkRHost None lan' (serving s) (directory s))
        else
          let s1 := mkRHost (Some (setPolicies acl)) lan' (Some corefile) (directory s) in
          if negb (mkdir_works h) then (Err MkdirFailed, stop s1)
          else publish_all (files_order h (map_to_list (resolver_files ip (Identities acl)))) s1
      end
    end
  end.
Definition Start (s : rhost) (address : string) (acl : ACL) (lan : bool) : result start_error unit * rhost :=
  start s address PortDNS Quad100 acl lan.

(** The function a successful start returns. *)
Definition stop_started (ip : Z) (acl : ACL) (s : rhost) : rhost :=
  stop (mkRHost (live_policies s) (live_lan s) (serving s)
          (fold_left (fun d name => if removes h name then delete name d else d) (map fst (map_to_list (resolver_files ip (Identities acl)))) (directory s))).
End Start.
