(* ===== verification/ResolverInv.v ===== *)
(** The resolver's access policy: what a decision means in terms of labels, that a host is
    resolvable only for the identity whose allowed browse named it, and how many requests wait for
    the LAN at once. *)

From stdpp Require Import pretty.
From S2P Require Import Prelude Json NetAddr Ledger LedgerInv Config KeyText AddrText LeaseText Dns DnsInv Mdns.
From S2P Require Import Resolver.
From Stdlib Require Import Ascii.
Local Open Scope Z_scope.

(** * Labels *)

Lemma join_app sep k x l : k <> [] -> join sep (k ++ x :: l) = join sep k +++ sep +++ join sep (x :: l).
Proof.
  induction k as [|y k IH]; [done|]. intros _. destruct k as [|z k]; [done|].
  change (join sep ((y :: z :: k) ++ x :: l)) with (y +++ sep +++ join sep ((z :: k) ++ x :: l)).
  rewrite IH by done. change (join sep (y :: z :: k)) with (y +++ sep +++ join sep (z :: k)). by rewrite !append_assoc.
Qed.

(** Being a name or lying beneath it is ending with its labels. *)
Lemma under_labels name a :
  name = a \/ has_suffix name ("." +++ a) = true <-> split_char "." a `suffix_of` split_char "." name.
Proof.
  rewrite has_suffix_spec. split.
  - intros [->|[x ->]]; [done|]. exists (split_char "." x). apply split_char_app.
  - intros [k E]. destruct (split_char_cons "." a) as (x & xs & Ea).
    destruct k as [|y k]; [left|right; exists (join "." (y :: k))]; rewrite <-(join_split_char "." name), E.
    + cbn [app]. apply join_split_char.
    + rewrite Ea, join_app, <-Ea by done. by rewrite (join_split_char "." a).
Qed.

Lemma lower_char_twice c : lower_char (lower_char c) = lower_char c.
Proof. destruct c as [[] [] [] [] [] [] [] []]; reflexivity. Qed.
Lemma lower_char_ascii c : ascii_char c = true -> ascii_char (lower_char c) = true.
Proof. destruct c as [[] [] [] [] [] [] [] []]; cbv; done. Qed.

Lemma lower_ascii s : str_forallb ascii_char s = true ->
  str_forallb ascii_char (to_lower s) = true /\ to_lower (to_lower s) = to_lower s.
Proof.
  unfold str_forallb, to_lower. induction s as [|c s IH]; cbn; [done|]. intros [Hc Hs]%andb_prop. destruct (IH Hs) as [-> ->].
  by rewrite lower_char_ascii, lower_char_twice.
Qed.

Section Decisions.
Context `{CaseFold}.

Definition ascii_name (q : Question) : Prop := str_forallb ascii_char (qName q) = true.

Lemma lowered_twice s : str_forallb ascii_char s = true -> ToLower (ToLower s) = ToLower s.
Proof. intros Hs. destruct (lower_ascii s Hs) as [Ha Hl]. by rewrite (ToLower_ascii s Hs), ToLower_ascii. Qed.

Lemma service_lowered s : str_forallb ascii_char s = true -> serviceClass (ToLower s) = serviceClass s.
Proof. intros Hs. unfold serviceClass. by rewrite lowered_twice. Qed.

(** The labels of a name, in lower case. *)
Definition labels_of (s : string) : list string := split_char "." (trim_suffix (ToLower s) ".").

Definition permits_name (id : Identity) (name : string) : Prop :=
  exists a, a ∈ AllowNames id /\
    ((trim_suffix (ToLower a) "." = "*" /\ List.last (labels_of name) EmptyString <> "local")
     \/ labels_of a `suffix_of` labels_of name).

Lemma last_local name : List.last (split_char "." name) EmptyString = "local" <-> name = "local" \/ has_suffix name ".local" = true.
Proof.
  change ".local" with ("." +++ "local"). rewrite under_labels. change (split_char "." "local") with ["local"]. split.
  - intros E. destruct (split_char_cons "." name) as (x & xs & Es). exists (removelast (split_char "." name)).
    rewrite <-E. apply app_removelast_last. by rewrite Es.
  - intros [k ->]. apply last_last.
Qed.

Lemma name_matches_spec name a : name_matches name a = true <->
  (trim_suffix (ToLower a) "." = "*" /\ List.last (split_char "." name) EmptyString <> "local")
  \/ labels_of a `suffix_of` split_char "." name.
Proof.
  unfold name_matches, labels_of. rewrite <-under_labels, last_local, !orb_true_iff, !andb_true_iff, !negb_true_iff, !String.eqb_eq.
  rewrite <-not_true_iff_false, <-(not_true_iff_false (name =?s "local")), String.eqb_eq. tauto.
Qed.

Lemma matchesName_spec p name : matchesName p name = true <-> permits_name (pId p) name.
Proof.
  unfold matchesName, permits_name. rewrite existsb_exists. setoid_rewrite list_elem_of_In. by setoid_rewrite name_matches_spec.
Qed.

Lemma Decide_spec now p q : ascii_name q ->
  fst (Decide now p q) = true <->
    qClass q = ClassINET /\
    if has_suffix (ToLower (qName q)) ".local." then
      match serviceClass (qName q) with
      | Some class => class ∈ AllowServices (pId p)
      | None => permits_name (pId p) (qName q) \/ exists exp, granted p !! ToLower (qName q) = Some exp /\ now < exp
      end
    else permits_name (pId p) (qName q).
Proof.
  intros Hq. assert (Hm : matchesName p (ToLower (qName q)) = true <-> permits_name (pId p) (qName q)).
  { rewrite matchesName_spec. unfold permits_name, labels_of. by rewrite (lowered_twice (qName q)). }
  unfold Decide. rewrite service_lowered by done. destruct (qClass q =? ClassINET) eqn:Ec; cbn [negb];
    [apply Z.eqb_eq in Ec|apply Z.eqb_neq in Ec; split; [done|intros [? _]; done]].
  assert (Hd : forall P, (qClass q = ClassINET /\ P) <-> P) by tauto. rewrite Hd. clear Hd. destruct (has_suffix _ _).
  - destruct (serviceClass (qName q)) as [class|].
    + rewrite <-mem_str_spec. by destruct (mem_str _ _).
    + rewrite <-Hm. destruct (matchesName _ _); [tauto|]. destruct (granted p !! _) as [exp|]; [destruct (now <? exp) eqn:El|].
      * apply Z.ltb_lt in El. split; [intros _; right; eauto|done].
      * apply Z.ltb_ge in El. split; [done|intros [?|(? & [= <-] & ?)]; [done|lia]].
      * split; [done|intros [?|(? & ? & _)]; done].
  - rewrite <-Hm. by destruct (matchesName _ _).
Qed.

(** * Grants *)

Lemma grant_pid now h p : pId (GrantHost now h p) = pId p.
Proof. done. Qed.

(** What a grant leaves: what was there and is live, or the new host. *)
Lemma grant_lookup now h p k exp : granted (GrantHost now h p) !! k = Some exp ->
  granted p !! k = Some exp \/ (k = ToLower h /\ exp = now + grant_life).
Proof.
  unfold GrantHost. cbn [granted]. case_match; [rewrite lookup_insert_Some|]; unfold live_grants; rewrite map_lookup_filter_Some; intuition; eauto.
Qed.

Lemma grant_kept now h p k exp : granted p !! k = Some exp -> now < exp ->
  exists exp', granted (GrantHost now h p) !! k = Some exp' /\ (exp' = exp \/ exp' = now + grant_life).
Proof.
  intros Hk Hl. unfold GrantHost. cbn [granted]. assert (Hf : live_grants now p !! k = Some exp) by (by apply map_lookup_filter_Some).
  case_match; [|eauto]. destruct (decide (k = ToLower h)) as [->|Hne]; [rewrite lookup_insert_eq|rewrite lookup_insert_ne by done]; eauto.
Qed.

Lemma grant_hosts_pid times hosts p : pId (grant_hosts times hosts p) = pId p.
Proof. unfold grant_hosts. revert p. induction (zip times hosts) as [|th l IH]; intros p; [done|]. cbn. by rewrite IH. Qed.

Lemma grant_hosts_lookup times hosts p k exp : granted (grant_hosts times hosts p) !! k = Some exp ->
  granted p !! k = Some exp \/ exists t h, (t, h) ∈ zip times hosts /\ k = ToLower h /\ exp = t + grant_life.
Proof.
  unfold grant_hosts. revert p. induction (zip times hosts) as [|[t h] l IH]; intros p; cbn [fold_left]; [by left|].
  intros [[?|[-> ->]]%grant_lookup|(t' & h' & Hin & ?)]%IH; [by left|right|right].
  - exists t, h. split; [left|done].
  - exists t', h'. split; [by right|done].
Qed.

(** A grant that outlives [now] stays, whatever else is granted from then up to [now]. *)
Definition outlives (now : Z) (k : string) (p : Policy) : Prop := exists exp, granted p !! k = Some exp /\ now < exp.

Lemma grant_outlives now t h p k : t <= now -> now < t + grant_life -> outlives now k p -> outlives now k (GrantHost t h p).
Proof.
  intros Ht Hn (exp & Hk & He). destruct (grant_kept t h p k exp Hk) as (exp' & Hk' & [->| ->]); [lia|by exists exp..|].
  by exists (t + grant_life).
Qed.

Lemma grant_hosts_outlives now times hosts p k : (forall t, t ∈ times -> t <= now < t + grant_life) ->
  outlives now k p -> outlives now k (grant_hosts times hosts p).
Proof.
  unfold grant_hosts. intros Ht. assert (Hz : forall th, th ∈ zip times hosts -> fst th <= now < fst th + grant_life).
  { intros [t h] Hin. apply Ht. by apply elem_of_zip_l in Hin. }
  clear Ht. revert p Hz. induction (zip times hosts) as [|th l IH]; intros p Hz Hp; [done|]. cbn [fold_left].
  apply IH; [intros; apply Hz; by right|]. destruct (Hz th) as [H1 H2]; [left|]. by apply grant_outlives.
Qed.
End Decisions.

(** * Runs *)

Section Runs.
Context `{CaseFold} (ReverseAddr : string -> string).
Local Abbreviation run := (rrun ReverseAddr).
Local Abbreviation step := (rstep ReverseAddr).

Definition event_ascii (e : revent) : Prop :=
  match e with EAsk _ _ _ qs => Forall ascii_name qs | _ => True end.

Definition policy_of (st : rstate) (i : string) : option Policy := policies st ≫= lookup i.

(** The identity may browse the class of the question. *)
Definition may_browse (st : rstate) (i : string) (q : Question) : Prop :=
  exists p class, policy_of st i = Some p /\ serviceClass (qName q) = Some class /\ class ∈ AllowServices (pId p).

(** A browse asked on the identity's listener, of a class allowed to it, was answered with a service
    on the host, granted at [t]. *)
Definition browse_named (evs : list revent) (i h : string) (t : Z) : Prop :=
  exists pre now hit q mid k ips answers extra times post w host,
    evs = pre ++ EAsk now (Some i) hit [q] :: mid ++ EDone k ips (Browsed answers extra) times :: post
    /\ may_browse (run pre) i q
    /\ inflight (run (pre ++ EAsk now (Some i) hit [q] :: mid)) !! k = Some w
    /\ wListener w = Some i /\ wQuestion w = q /\ wBrowse w = true
    /\ (t, host) ∈ zip times (srv_targets (answers ++ extra)) /\ ToLower host = h.

Definition asked (evs : list revent) (w : pending) : Prop :=
  exists pre now hit mid, evs = pre ++ EAsk now (wListener w) hit [wQuestion w] :: mid
    /\ forall i, wListener w = Some i -> wBrowse w = true -> may_browse (run pre) i (wQuestion w).

Lemma run_snoc evs e : run (evs ++ [e]) = step (run evs) e.
Proof. unfold rrun. by rewrite fold_left_app. Qed.

Lemma asked_snoc evs w e : asked evs w -> asked (evs ++ [e]) w.
Proof. intros (pre & now & hit & mid & -> & Hm). exists pre, now, hit, (mid ++ [e]). split; [by rewrite <-app_assoc|done]. Qed.

Lemma browse_named_snoc evs i h t e : browse_named evs i h t -> browse_named (evs ++ [e]) i h t.
Proof.
  intros (pre & now & hit & q & mid & k & ips & an & ex & times & post & w & host & -> & Hr).
  exists pre, now, hit, q, mid, k, ips, an, ex, times, (post ++ [e]), w, host. split; [|done].
  rewrite <-!app_assoc. cbn. by rewrite <-!app_assoc.
Qed.

Lemma setPolicies_fresh a i p : setPolicies a !! i = Some p -> granted p = ∅.
Proof.
  unfold setPolicies. apply (fold_left_inv (fun m id => <[idName id := newPolicy id]> m) (fun m => m !! i = Some p -> granted p = ∅)); [|done].
  intros m id _ IH. rewrite lookup_insert_Some. intros [[_ <-]|[_ ?]]; auto.
Qed.

(** A request on an identity's listener is refused, or goes on as on the base listener. *)
Lemma ask_cases now st i hit qs :
  ask ReverseAddr now st (Some i) hit qs = (Returned RcodeRefused, st)
  \/ exists p q, qs = [q] /\ policy_of st i = Some p /\ fst (Decide now p q) = true
      /\ ask ReverseAddr now st (Some i) hit qs = lease_serve ReverseAddr now st (Some i) hit qs.
Proof.
  unfold ask, acl_serve, policy_of. destruct (policies st ≫= lookup i) as [p|]; [|by left]. destruct qs as [|q [|]]; [by left| |by left].
  destruct (fst (Decide now p q)) eqn:Ed; [right|by left]. by exists p, q.
Qed.

(** What a request changes: nothing, or it waits in a free slot. *)
Lemma local_serve_cases st listener qs : snd (local_serve st listener qs) = st
  \/ exists q br, qs = [q] /\ (busy st listener < slot_count)%nat
      /\ snd (local_serve st listener qs) = wait st (mkPending listener q br (generation st))
      /\ has_suffix (ToLower (qName q)) ".local." = true /\ (br = true -> is_Some (serviceClass (qName q))).
Proof.
  unfold local_serve, local_begin. destruct qs as [|q [|]]; [by left| |by left].
  destruct (has_suffix _ _) eqn:Es; [|by left]. cbn [negb]. destruct (_ =? ClassINET); [|by left]. cbn [negb].
  destruct (busy st listener <? slot_count)%nat eqn:Eb; [apply Nat.ltb_lt in Eb|];
    destruct (serviceClass (qName q)) eqn:Ec; repeat case_match; simplify_eq; try (by left); right; do 2 eexists; (split; [reflexivity|split; [done|split; [reflexivity|split; [done|by eauto]]]]).
Qed.

Lemma lease_serve_cases now st listener hit qs : snd (lease_serve ReverseAddr now st listener hit qs) = st
  \/ lease_serve ReverseAddr now st listener hit qs = local_serve st listener qs.
Proof. unfold lease_serve, cache_serve. repeat case_match; simplify_eq; (by left) || (by right). Qed.

Lemma ask_step now st listener hit qs : snd (ask ReverseAddr now st listener hit qs) = st
  \/ exists q br, qs = [q] /\ (busy st listener < slot_count)%nat
      /\ snd (ask ReverseAddr now st listener hit qs) = wait st (mkPending listener q br (generation st))
      /\ (Forall ascii_name qs -> forall i, listener = Some i -> br = true -> may_browse st i q).
Proof.
  assert (Hl : forall x, x = lease_serve ReverseAddr now st listener hit qs ->
    (forall i q, qs = [q] -> listener = Some i -> exists p, policy_of st i = Some p /\ fst (Decide now p q) = true) ->
    snd x = st \/ exists q br, qs = [q] /\ (busy st listener < slot_count)%nat
      /\ snd x = wait st (mkPending listener q br (generation st))
      /\ (Forall ascii_name qs -> forall i, listener = Some i -> br = true -> may_browse st i q)).
  { intros x -> Hp. destruct (lease_serve_cases now st listener hit qs) as [?| ->]; [by left|].
    destruct (local_serve_cases st listener qs) as [?|(q & br & -> & Hb & -> & Hs & Hc)]; [by left|right].
    exists q, br. do 3 (split; [done|]). intros Hq%Forall_inv i -> Hbr. destruct (Hp i q eq_refl eq_refl) as (p & Ep & Ed).
    apply (Decide_spec now p q Hq) in Ed as [_ Ed]. rewrite Hs in Ed. destruct (Hc Hbr) as [class Ec]. rewrite Ec in Ed. by exists p, class. }
  destruct listener as [i|]; [|by apply (Hl _ eq_refl)].
  destruct (ask_cases now st i hit qs) as [-> |(p & q & -> & Ep & Ed & ->)]; [by left|].
  apply (Hl _ eq_refl). intros j r [= <-] [= <-]. eauto.
Qed.

(** The history accounts for every waiting request and every granted host. *)
Record accounted (evs : list revent) : Prop := {
  ac_waiting w : w ∈ inflight (run evs) -> asked evs w;
  ac_granted i p h exp : policy_of (run evs) i = Some p -> granted p !! h = Some exp ->
    exists t, browse_named evs i h t /\ exp = t + grant_life;
}.

Lemma policy_alter f name (m : gmap string Policy) i p : alter f name m !! i = Some p -> m !! i = Some p \/ (i = name /\ exists p0, m !! i = Some p0 /\ p = f p0).
Proof. rewrite lookup_alter_Some. intros [(-> & p0 & ? & ->)|[_ ?]]; [right; eauto|by left]. Qed.

Lemma elem_without {A} (x : A) k l : x ∈ take k l ++ drop (S k) l -> x ∈ l.
Proof. revert k. induction l as [|y l IH]; intros [|k]; cbn; rewrite ?drop_0; [done..|by right|]. inv 1; [left|right; eauto]. Qed.

Lemma accounted_done evs k ips b times : accounted evs -> accounted (evs ++ [EDone k ips b times]).
Proof.
  intros [Hw Hg]. pose proof (run_snoc evs (EDone k ips b times)) as Er. cbn [rstep] in Er. unfold done_waiting in Er.
  destruct (inflight (run evs) !! k) as [w|] eqn:Ek.
  2: { split; rewrite Er; cbn [snd]; [by intros; apply asked_snoc, Hw|].
       intros i p h exp Hp Hh. destruct (Hg i p h exp Hp Hh) as (t & ? & ?). exists t. split; [by apply browse_named_snoc|done]. }
  cbn [snd] in Er. split.
  { rewrite Er. cbn [inflight]. intros x Hx%elem_without. by apply asked_snoc, Hw. }
  intros i p h exp Hp Hh. rewrite Er in Hp. unfold policy_of in Hp. cbn [policies] in Hp.
  assert (Hold : forall p', policy_of (run evs) i = Some p' -> granted p' !! h = Some exp ->
    exists t, browse_named (evs ++ [EDone k ips b times]) i h t /\ exp = t + grant_life).
  { intros p' Hp' Hh'. destruct (Hg i p' h exp Hp' Hh') as (t & ? & ?). exists t. split; [by apply browse_named_snoc|done]. }
  destruct (wBrowse w) eqn:Eb; [|by apply (Hold p)]. destruct b as [| |answers extra]; try by apply (Hold p).
  unfold grant_answers in Hp. destruct (wListener w) as [name|] eqn:El; [|by apply (Hold p)].
  unfold policy_of in Hold. destruct (policies (run evs)) as [m|]; [|by apply (Hold p)].
  destruct (is_empty name); [by apply (Hold p)|]. cbn in Hp, Hold.
  apply policy_alter in Hp as [Hp|(-> & p0 & Hp0 & ->)]; [by apply (Hold p)|].
  apply grant_hosts_lookup in Hh as [Hh|(t & host & Hin & -> & ->)]; [by apply (Hold p0)|]. exists t. split; [|done].
  destruct (Hw w) as (pre & now & hit & mid & Hevs & Hm); [by eapply list_elem_of_lookup_2|].
  exists pre, now, hit, (wQuestion w), mid, k, ips, answers, extra, times, [], w, host. rewrite El in *.
  rewrite Hevs at 1. rewrite <-app_assoc. split; [done|]. split; [by apply Hm|]. rewrite <-Hevs. done.
Qed.

Lemma all_accounted evs : Forall event_ascii evs -> accounted evs.
Proof.
  induction evs as [|e evs IH] using rev_ind; [by split; intros; cbn in *; set_solver|]. intros [Hevs He%Forall_inv]%Forall_app.
  specialize (IH Hevs). destruct e as [a| |r|now listener hit qs|k ips b times]; [| | | |by apply accounted_done];
    destruct IH as [Hw Hg]; split; rewrite run_snoc; cbn [rstep].
  all: try (intros w Hx; apply asked_snoc, Hw; by repeat case_match).
  all: try (intros i p h exp Hp Hh; cut (policy_of (run evs) i = Some p \/ granted p = ∅);
    [intros [Hq|Hq]; [destruct (Hg i p h exp Hq Hh) as (t & ? & ->); exists t; split; [by apply browse_named_snoc|done]|by rewrite Hq in Hh]|]).
  - revert Hp. destruct (is_ok _); [|by left]. intros Hp. right. exact (setPolicies_fresh a i p Hp).
  - done.
  - by left.
  - intros w Hx. destruct (ask_step now (run evs) listener hit qs) as [Es|(q & br & -> & _ & Es & Hm)]; rewrite Es in Hx; [by apply asked_snoc, Hw|].
    cbn [wait inflight] in Hx. apply elem_of_app in Hx as [Hx| ->%list_elem_of_singleton]; [by apply asked_snoc, Hw|].
    exists evs, now, hit, []. cbn [wListener wQuestion wBrowse]. split; [done|]. by apply Hm.
  - left. destruct (ask_step now (run evs) listener hit qs) as [Es|(q & br & _ & _ & Es & _)]; by rewrite Es in Hp.
Qed.

Lemma asked_policy evs now i hit q : Forall event_ascii evs -> ascii_name q ->
  fst (ask ReverseAddr now (run evs) (Some i) hit [q]) <> Returned RcodeRefused ->
  exists p, policy_of (run evs) i = Some p /\ fst (Decide now p q) = true.
Proof.
  intros Hevs Hq Ho. destruct (ask_cases now (run evs) i hit [q]) as [E|(p & q' & [= <-] & Ep & Ed & _)]; [by rewrite E in Ho|eauto].
Qed.

(** C21: On an identity's listener, whatever leases, cache, LAN and upstream resolvers would answer, a
    question for a .local host gets anything but REFUSED only if the identity's policy allows the
    name itself, or if less than two minutes ago a browse asked on this very listener, of a service
    class allowed to the identity, was answered with a service on that host; browses of other
    listeners open nothing. *)
Theorem host_isolated evs now i hit q : Forall event_ascii evs -> ascii_name q ->
  fst (ask ReverseAddr now (run evs) (Some i) hit [q]) <> Returned RcodeRefused ->
  has_suffix (ToLower (qName q)) ".local." = true -> serviceClass (qName q) = None ->
  exists p, policy_of (run evs) i = Some p /\
    (permits_name (pId p) (qName q) \/ exists t, browse_named evs i (ToLower (qName q)) t /\ now < t + grant_life).
Proof.
  intros Hevs Hq Ho Hl Hs. destruct (asked_policy evs now i hit q Hevs Hq Ho) as (p & Ep & Ed). exists p. split; [done|].
  apply (Decide_spec now p q Hq) in Ed as [_ Ed]. rewrite Hl, Hs in Ed. destruct Ed as [?|(exp & Hh & Hlt)]; [by left|right].
  destruct (ac_granted evs (all_accounted evs Hevs) i p _ exp Ep Hh) as (t & Hb & ->). eauto.
Qed.

(** * Slots *)

Definition occupied (st : rstate) (listener : option string) (gen : nat) : nat :=
  length (List.filter (same_handler listener gen) (inflight st)).

Record slots_ok (st : rstate) : Prop := {
  sl_gen w : w ∈ inflight st -> (wGeneration w <= generation st)%nat;
  sl_bound listener gen : (occupied st listener gen <= slot_count)%nat;
}.

Lemma filter_without {A} (f : A -> bool) k l : (length (List.filter f (take k l ++ drop (S k) l)) <= length (List.filter f l))%nat.
Proof.
  revert k. induction l as [|x l IH]; intros [|k]; cbn; [done..| |].
  - rewrite drop_0. destruct (f x); cbn; lia.
  - specialize (IH k). destruct (f x); cbn; lia.
Qed.

Lemma step_slots st e : slots_ok st -> slots_ok (step st e).
Proof.
  intros [Hg Hb]. destruct e as [a| |r|now listener hit qs|k ips b times]; cbn [rstep].
  - destruct (is_ok _); [|done]. split; cbn; [intros w Hw%Hg; lia|done].
  - done.
  - done.
  - destruct (ask_step now st listener hit qs) as [-> |(q & br & -> & Hfree & -> & _)]; [done|]. split; cbn [wait inflight generation].
    + intros w [Hw%Hg| ->%list_elem_of_singleton]%elem_of_app; [done|]. done.
    + intros l' g. unfold occupied. cbn [wait inflight]. rewrite List.filter_app, length_app. cbn [List.filter].
      destruct (same_handler l' g _) eqn:Es; [|cbn; specialize (Hb l' g); unfold occupied in Hb; lia].
      apply andb_prop in Es as [El Eg]. apply bool_decide_eq_true in El. apply Nat.eqb_eq in Eg. cbn in El, Eg. subst. unfold busy in Hfree. cbn [length]. lia.
  - unfold done_waiting. destruct (inflight st !! k) as [w|]; [|done]. cbn [snd]. split; cbn [inflight generation].
    + intros x Hx%elem_without. by apply Hg.
    + intros l g. specialize (Hb l g). unfold occupied in *. cbn [inflight]. pose proof (filter_without (same_handler l g) k (inflight st)). lia.
Qed.

(** However requests, answers and restarts interleave, at most sixteen requests of one listener
    wait for the LAN at any time; and a request is turned away with SERVFAIL before the LAN is asked
    only while sixteen wait. *)
Theorem slots_bounded evs listener gen qs :
  (occupied (run evs) listener gen <= slot_count)%nat
  /\ (fst (local_serve (run evs) listener qs) = Returned RcodeServerFailure -> busy (run evs) listener = slot_count).
Proof.
  assert (Hok : slots_ok (run evs)).
  { induction evs as [|e evs IH] using rev_ind; [by split; cbn; [set_solver|lia]|]. rewrite run_snoc. by apply step_slots. }
  split; [apply Hok|]. pose proof (sl_bound _ Hok listener (generation (run evs))) as Hb. unfold local_serve, local_begin, occupied, busy in *.
  repeat case_match; cbn; try done; intros; simplify_eq.
  all: match goal with E : (_ <? _)%nat = false |- _ => apply Nat.ltb_ge in E; lia end.
Qed.
(** * Grants last *)

(** The clock of a stretch of events: no restart, and every grant between [t0] and [now]. *)
Definition grants_within (t0 now : Z) (e : revent) : Prop :=
  match e with
  | EStart _ | EStop => False
  | EDone _ _ _ times => forall t, t ∈ times -> t0 <= t <= now
  | _ => True
  end.

Lemma live_size now p : (size (live_grants now p) <= size (granted p))%nat.
Proof. apply map_subseteq_size, map_filter_subseteq. Qed.

Lemma granted_size now h p : (size (granted (GrantHost now h p)) <= S (size (granted p)))%nat.
Proof.
  unfold GrantHost. cbn [granted]. pose proof (live_size now p). case_match; [|lia].
  rewrite map_size_insert. destruct (live_grants now p !! ToLower h); cbn; lia.
Qed.

Lemma grant_new now t h p : (size (granted p) < grant_limit)%nat -> now < t + grant_life -> outlives now (ToLower h) (GrantHost t h p).
Proof.
  intros Hs Hn. unfold GrantHost, outlives. cbn [granted]. pose proof (live_size t p).
  destruct (Nat.ltb_spec (size (live_grants t p)) grant_limit); [|lia]. exists (t + grant_life). by rewrite lookup_insert_eq.
Qed.

Lemma grant_hosts_new now times hosts p host : (forall t, t ∈ times -> t <= now < t + grant_life) ->
  host ∈ hosts -> (length hosts <= length times)%nat -> (size (granted p) + length hosts <= grant_limit)%nat ->
  outlives now (ToLower host) (grant_hosts times hosts p).
Proof.
  unfold grant_hosts. revert times p. induction hosts as [|h hosts IH]; intros times p Ht Hin Hl Hs; [by apply elem_of_nil in Hin|].
  destruct times as [|t times]; [cbn in Hl; lia|]. cbn [zip zip_with fold_left fst snd length] in *.
  assert (Htl : forall t', t' ∈ times -> t' <= now < t' + grant_life) by (intros; apply Ht; by right).
  apply elem_of_cons in Hin as [->|Hin].
  - apply (grant_hosts_outlives now times hosts (GrantHost t h p) _ Htl). apply grant_new; [lia|]. apply Ht. left.
  - apply IH; [done..|lia|]. pose proof (granted_size t h p). lia.
Qed.

Definition resolvable (now : Z) (i h : string) (st : rstate) : Prop := exists p, policy_of st i = Some p /\ outlives now h p.

Lemma resolvable_step t0 now i h st e : grants_within t0 now e -> now < t0 + grant_life -> resolvable now i h st -> resolvable now i h (step st e).
Proof.
  intros He Hn (p & Hp & Ho). destruct e as [a| |r|t listener hit qs|k ips b times]; cbn [grants_within rstep] in *; [done..|by exists p| |].
  - destruct (ask_step t st listener hit qs) as [-> |(q & br & _ & _ & -> & _)]; by exists p.
  - unfold done_waiting. destruct (inflight st !! k) as [w|]; [|by exists p]. cbn [snd]. unfold resolvable, policy_of in *. cbn [policies].
    destruct (wBrowse w); [|by exists p]. destruct b as [| |an ex]; [by exists p..|]. unfold grant_answers.
    destruct (wListener w) as [name|]; [|by exists p]. destruct (policies st) as [m|]; [|by exists p].
    destruct (is_empty name); [by exists p|]. cbn in *. destruct (decide (i = name)) as [->|Hne].
    + exists (grant_hosts times (srv_targets (an ++ ex)) p). rewrite lookup_alter_eq, Hp. split; [done|].
      apply grant_hosts_outlives; [|done]. intros t Ht%He. lia.
    + exists p. by rewrite lookup_alter_ne.
Qed.

Lemma resolvable_run t0 now i h evs later : Forall (grants_within t0 now) later -> now < t0 + grant_life ->
  resolvable now i h (run evs) -> resolvable now i h (run (evs ++ later)).
Proof.
  intros Hl Hn. revert evs. induction Hl as [|e later He Hl IH]; intros evs Hr; [by rewrite app_nil_r|].
  change (e :: later) with ([e] ++ later). rewrite app_assoc. apply IH. rewrite run_snoc. by eapply resolvable_step.
Qed.

(** A host an allowed browse named stays resolvable for the identity until two minutes after the
    answer came in, whatever is asked or answered on any listener in between, as long as the
    resolver is not restarted and the table of grants had room for the hosts of the answer. *)
Theorem host_granted evs k ips answers extra times later now t0 w i p host hit q :
  inflight (run evs) !! k = Some w -> wListener w = Some i -> wBrowse w = true -> i <> EmptyString ->
  policy_of (run evs) i = Some p ->
  host ∈ srv_targets (answers ++ extra) -> (length (srv_targets (answers ++ extra)) <= length times)%nat ->
  (size (granted p) + length (srv_targets (answers ++ extra)) <= grant_limit)%nat ->
  Forall (grants_within t0 now) (EDone k ips (Browsed answers extra) times :: later) -> now < t0 + grant_life ->
  ascii_name q -> qClass q = ClassINET -> ToLower (qName q) = ToLower host ->
  has_suffix (ToLower (qName q)) ".local." = true -> serviceClass (qName q) = None ->
  let st := run (evs ++ EDone k ips (Browsed answers extra) times :: later) in
  ask ReverseAddr now st (Some i) hit [q] = lease_serve ReverseAddr now st (Some i) hit [q].
Proof.
  intros Hk Hi Hb Hne Hp Hin Hlen Hroom [He Hall]%Forall_cons Hnow Hq Hc Hhost Hl Hs st.
  assert (Hr : resolvable now i (ToLower host) st).
  { unfold st. change (?e :: later) with ([e] ++ later). rewrite app_assoc. apply (resolvable_run t0); [done..|]. rewrite run_snoc.
    cbn [rstep]. unfold done_waiting. rewrite Hk. cbn [snd]. rewrite Hb, Hi. unfold resolvable, policy_of in *. cbn [policies grant_answers].
    destruct (policies (run evs)) as [m|]; [|done]. cbn in Hp. destruct (is_empty i) eqn:Ei; [by apply is_empty_spec in Ei|].
    cbn. rewrite lookup_alter_eq, Hp. eexists. split; [done|]. apply grant_hosts_new; [|done..]. intros t Ht%He. lia. }
  destruct Hr as (p' & Hp' & exp & He' & Hlt). unfold ask, acl_serve. unfold policy_of in Hp'. rewrite Hp'.
  assert (fst (Decide now p' q) = true) as ->; [|done]. apply Decide_spec; [done|]. split; [done|]. rewrite Hl, Hs, Hhost. right. eauto.
Qed.

(** A question is allowed exactly when it is of class IN and either names a DNS-SD service of a
    class the identity may browse, or lies at or beneath a name allowed to it label by label (the
    wildcard covering everything outside .local), or is a .local host granted to it and not yet
    expired; a service name is never reached through an allowed name or a grant. *)
Theorem policy_exact now p q : ascii_name q ->
  fst (Decide now p q) = true <->
    qClass q = ClassINET /\
    if has_suffix (ToLower (qName q)) ".local." then
      match serviceClass (qName q) with
      | Some class => class ∈ AllowServices (pId p)
      | None => permits_name (pId p) (qName q) \/ exists exp, granted p !! ToLower (qName q) = Some exp /\ now < exp
      end
    else permits_name (pId p) (qName q).
Proof. apply Decide_spec. Qed.
End Runs.

(** * The container resolver's start: the Corefile has one server block per listener and nothing a
    policy file could add to it, each identity's files name its own guarded listener, and a start
    that fails leaves nothing open. *)

(** * Addresses as text *)

Lemma ParseIP_range s n : ParseIP s = Some n -> 0 <= n < 2^128.
Proof.
  unfold ParseIP. destruct (ParseAddr s) as [a|] eqn:E0; [|done]. pose proof (ParseAddr_valid s a E0) as E. clear E0. destruct a as [m|m z]; unfold addr_valid in E; cbn [BitLen addr_num Is4] in E.
  - intros [= <-]. unfold of4. rewrite Z.shiftl_mul_pow2 by lia. lia.
  - destruct (is_empty z); [|done]. intros [= <-]. lia.
Qed.

Lemma To4_range n m : To4 (Some n) = Some m -> 0 <= m < 2^32 /\ n = of4 m.
Proof.
  unfold To4. cbn. destruct (Z.shiftr n 32 =? 65535) eqn:E; [|done]. intros [= <-]. apply Z.eqb_eq in E.
  rewrite Z.shiftr_div_pow2 in E by lia. split; [apply Z.mod_pos_bound; lia|]. unfold of4. rewrite Z.shiftl_mul_pow2, <-E by lia.
  pose proof (Z.div_mod n (2^32)). lia.
Qed.

Lemma read_ip n : 0 <= n < 2^128 -> ParseIP (IPString n) = Some n.
Proof.
  intros Hn. unfold IPString. destruct (To4 (Some n)) as [m|] eqn:E.
  - apply To4_range in E as [Hm ->]. unfold ParseIP. by rewrite read_addr4.
  - unfold ParseIP. by rewrite read_addr6.
Qed.

Lemma IPString_inj a b : 0 <= a < 2^128 -> 0 <= b < 2^128 -> IPString a = IPString b -> a = b.
Proof. intros Ha Hb E. apply (f_equal ParseIP) in E. rewrite !read_ip in E by done. congruence. Qed.

Lemma addr_char_space c : addr_char c = true -> go_space c = false.
Proof. destruct c as [[] [] [] [] [] [] [] []]; vm_compute; done. Qed.
Lemma dash_char_space c : lower_alnum_dash c = true -> go_space c = false.
Proof. destruct c as [[] [] [] [] [] [] [] []]; vm_compute; done. Qed.

(** A text that reads as an address is one word. *)
Lemma ip_word s n : ParseIP s = Some n -> word s = true.
Proof.
  intros E. unfold ParseIP in E. destruct (ParseAddr s) as [a|] eqn:Ea; [|done].
  apply (word_text addr_char); [apply addr_char_space|by destruct s|]. apply (ParseAddr_chars s a Ea).
  destruct a as [m|m z]; [done|]. cbn. destruct (is_empty z) eqn:Ez; [by apply is_empty_spec|done].
Qed.
Lemma label_word s : validName s = true -> word s = true.
Proof.
  intros [[He%negb_true_iff _]%andb_prop Hs]%andb_prop. by apply (word_text lower_alnum_dash); [apply dash_char_space|..].
Qed.

(** * What validation establishes *)

Section Validated.
Context `{CaseFold}.

Definition listen_ip (id : Identity) : option Z := ParseIP (Listen id).

Record sound_identity (id : Identity) : Prop := {
  si_name : validName (idName id) = true;
  si_listen : exists ip, listen_ip id = Some ip /\ ip_unspecified ip = false /\ ip_multicast ip = false;
  si_names n : n ∈ AllowNames id -> bad_allow_name n = false;
  si_services s : s ∈ AllowServices id -> is_service s = true;
}.

Lemma validate_identity_ok N L id N' L' : validate_identity (N, L) id = Ok (N', L') ->
  sound_identity id /\ (idName id ∉ N) /\ exists ip, listen_ip id = Some ip /\ (IPString ip ∉ L) /\ N' = {[idName id]} ∪ N /\ L' = {[IPString ip]} ∪ L.
Proof.
  unfold validate_identity. intros [Hn Hr]%seq_ok. apply fail_if_ok in Hn. apply orb_false_iff in Hn as [Hn%negb_false_iff HN].
  apply bool_decide_eq_false in HN. destruct (ParseIP (Listen id)) as [ip|] eqn:Ei; [|done].
  apply seq_ok in Hr as [Hs Hr]. apply fail_if_ok, orb_false_iff in Hs as [Hu Hm].
  apply seq_ok in Hr as [Hl Hr]. apply fail_if_ok, bool_decide_eq_false in Hl.
  apply seq_ok in Hr as [Ha Hr]. apply seq_ok in Hr as [Hv Hr]. injection Hr as <- <-. rewrite for_each_ok in Ha, Hv. split.
  - split; [done|by exists ip|..]; intros x Hx.
    + apply (Forall_forall _ _) with (x := x) in Ha; [|done]. by apply fail_if_ok in Ha.
    + apply (Forall_forall _ _) with (x := x) in Hv; [|done]. by apply check_ok in Hv.
  - split; [done|]. exists ip. by unfold listen_ip.
Qed.

Lemma validate_all_ok ids N L r : fold_m validate_identity (N, L) ids = Ok r ->
  Forall sound_identity ids /\ NoDup (map idName ids) /\ (forall id, id ∈ ids -> idName id ∉ N)
  /\ NoDup (map listen_ip ids) /\ (forall id ip, id ∈ ids -> listen_ip id = Some ip -> IPString ip ∉ L).
Proof.
  revert N L. induction ids as [|id ids IH]; intros N L; cbn [fold_m map].
  { intros _. repeat split; try constructor; intros *; set_solver. }
  destruct (validate_identity (N, L) id) as [[N' L']|] eqn:E; [|done]. intros Hr.
  apply validate_identity_ok in E as (Hs & HN & ip & Eip & HL & -> & ->).
  destruct (IH _ _ Hr) as (Hss & Hn & HN' & Hl & HL'). repeat split.
  - by constructor.
  - constructor; [|done]. intros (id' & E & Hin)%list_elem_of_fmap. apply HN' in Hin. set_solver.
  - intros id' [->|Hin]%elem_of_cons; [done|]. apply HN' in Hin. set_solver.
  - constructor; [|done]. intros (id' & E & Hin)%list_elem_of_fmap. rewrite Eip in E. symmetry in E. apply (HL' id' ip Hin) in E. set_solver.
  - intros id' ip' [->|Hin]%elem_of_cons E; [congruence|]. apply (HL' id' ip' Hin) in E. set_solver.
Qed.

Lemma acl_sound acl : Validate acl = Ok tt ->
  Forall sound_identity (Identities acl) /\ NoDup (map idName (Identities acl)) /\ NoDup (map listen_ip (Identities acl)).
Proof. unfold Validate. intros (r & Hr & _)%result_bind_ok. by apply validate_all_ok in Hr as (? & ? & _ & ? & _). Qed.
End Validated.

(** * The Corefile, word by word *)

Definition targets : list string := Quad100 :: publicFallbackResolvers.

(** The lines of a server block, bound to one address, behind the policy of one identity or of none. *)
Definition block_lines (dhcp : bool) (b : string * option string) : list (list string) :=
  [[".:53"; "{"]; ["bind"; fst b]]
  ++ match snd b with Some name => [["ghostacl"; name]] | None => [] end
  ++ (if dhcp then [["ghostleases"]] else [])
  ++ [["cache"; "30"; "{"]; ["servfail"; "5s"]; ["}"]; ["ghostlocal"]; ["forward"; "."] ++ targets ++ ["{"];
      ["max_concurrent"; "128"]; ["policy"; "sequential"]; ["failover"; "SERVFAIL"; "REFUSED"]; ["}"]; ["}"]].

Definition lines_text (ls : list string) : string := concat_str (map (fun l => l +++ newline) ls).

(** The text of a line: indented, but for the line that opens a block and the last of it. *)
Definition block_text (dhcp : bool) (b : string * option string) : list string :=
  [".:53 {"; " bind " +++ fst b]
  ++ match snd b with Some name => [" ghostacl " +++ name] | None => [] end
  ++ (if dhcp then [" ghostleases"] else [])
  ++ [" cache 30 {"; " servfail 5s"; " }"; " ghostlocal"; " forward . " +++ join " " targets +++ " {";
      " max_concurrent 128"; " policy sequential"; " failover SERVFAIL REFUSED"; " }"; "}"].

Definition block_acl (acl : option string) : string := match acl with Some name => " ghostacl " +++ name +++ newline | None => EmptyString end.

Lemma block_as_lines dhcp b : block dhcp PortDNS (join " " targets) (fst b) (block_acl (snd b)) = lines_text (block_text dhcp b).
Proof.
  destruct b as [bind [name|]], dhcp; unfold block, lines_text, block_text, block_acl, leaseDirective; cbn [fst snd app map concat_str];
    rewrite !append_assoc; reflexivity.
Qed.

Lemma corefile_lines ls : Forall (fun l => contains_char "010" l = false) ls -> split_char "010" (lines_text ls) = ls ++ [EmptyString].
Proof.
  induction 1 as [|l ls Hl Hls IH]; [done|]. unfold lines_text in *. cbn [map concat_str]. rewrite append_assoc.
  change (newline +++ ?r) with (String "010" r). rewrite split_char_cut by done. by rewrite IH.
Qed.

Lemma fields_pair a w : word a = true -> word w = true -> fields (" " +++ a +++ " " +++ w) = [a; w].
Proof. intros Ha Hw. change (fields (" " +++ a +++ " " +++ w)) with (fields (join " " [a; w])). apply fields_join. by repeat constructor. Qed.

Definition sound_block (b : string * option string) : Prop :=
  word (fst b) = true /\ match snd b with Some name => word name = true | None => True end.

Lemma block_fields dhcp b : sound_block b -> map fields (block_text dhcp b) = block_lines dhcp b.
Proof.
  intros [Hb Hn]. unfold block_text, block_lines. rewrite !map_app. f_equal; [|f_equal; [|f_equal]].
  - cbn [map]. f_equal. f_equal. by apply (fields_pair "bind").
  - destruct (snd b) as [name|]; [|done]. cbn [map]. f_equal. by apply (fields_pair "ghostacl").
  - by destruct dhcp.
Qed.

Lemma no_newline_pair a w : contains_char "010" a = false -> word w = true -> contains_char "010" (a +++ w) = false.
Proof. intros Ha Hw%word_no_newline. unfold contains_char in *. by rewrite chars_app, existsb_app, Ha. Qed.

Lemma block_no_newline dhcp b : sound_block b -> Forall (fun l => contains_char "010" l = false) (block_text dhcp b).
Proof.
  intros [Hb Hn]. unfold block_text. rewrite !Forall_app. split; [|split; [|split]].
  - constructor; [done|constructor; [by apply no_newline_pair|constructor]].
  - destruct (snd b); [|constructor]. constructor; [by apply no_newline_pair|constructor].
  - destruct dhcp; by repeat constructor.
  - by repeat constructor.
Qed.

Definition listeners (ip : Z) (ids : list Identity) : list (string * option string) :=
  (IPString ip, None) :: map (fun id => (Listen id, Some (idName id))) ids.

Lemma lines_text_app a b : lines_text (a ++ b) = lines_text a +++ lines_text b.
Proof. unfold lines_text. by rewrite map_app, concat_str_app. Qed.

Lemma corefile_text dhcp ip ids :
  pluginCorefile dhcp PortDNS (IPString ip) Quad100 ids = lines_text (flat_map (block_text dhcp) (listeners ip ids)).
Proof.
  unfold pluginCorefile, listeners. cbn [flat_map]. rewrite lines_text_app, <-block_as_lines. cbn [fst snd block_acl].
  cbv zeta. change (Quad100 :: publicFallbackResolvers) with targets. generalize (block dhcp PortDNS (join " " targets) (IPString ip) EmptyString).
  induction ids as [|id ids IH]; intros out; cbn [fold_left map flat_map].
  - change (lines_text []) with EmptyString. symmetry. apply append_empty_r.
  - rewrite IH, lines_text_app, <-block_as_lines. cbn [fst snd block_acl]. by rewrite append_assoc.
Qed.

Section Started.
Context `{CaseFold}.

Lemma listeners_sound address ip ids : ParseIP address = Some ip -> Forall sound_identity ids -> Forall sound_block (listeners ip ids).
Proof.
  intros Hip Hs. constructor.
  - split; [|done]. apply (ip_word _ ip), read_ip, (ParseIP_range address ip Hip).
  - apply Forall_map. eapply Forall_impl; [exact Hs|]. intros id [Hn (n & El & _) _ _]. split; [by apply (ip_word _ n)|by apply label_word].
Qed.

Lemma corefile_words dhcp address ip acl : ParseIP address = Some ip -> Validate acl = Ok tt ->
  map fields (split_char "010" (pluginCorefile dhcp PortDNS (IPString ip) Quad100 (Identities acl)))
    = flat_map (block_lines dhcp) (listeners ip (Identities acl)) ++ [[]].
Proof.
  intros Hip (Hs & _ & _)%acl_sound. pose proof (listeners_sound address ip _ Hip Hs) as Hl. rewrite corefile_text, corefile_lines.
  - rewrite map_app. f_equal. induction Hl as [|b bs Hb Hbs IH]; [done|]. cbn [flat_map]. by rewrite map_app, IH, block_fields.
  - induction Hl as [|b bs Hb Hbs IH]; cbn [flat_map]; [constructor|]. apply Forall_app. split; [by apply block_no_newline|done].
Qed.

(** * Start and stop *)

Variable dhcp : bool.
Variable h : host.
Hypothesis order_perm : forall fs, files_order h fs ≡ₚ fs.

Lemma publish_all_cases files s r s' : publish_all h files s = (r, s') ->
  (r = Ok tt /\ s' = mkRHost (live_policies s) (live_lan s) (serving s) (fold_left (fun d f => <[fst f := snd f]> d) files (directory s)))
  \/ ((exists name, r = Err (PublishFailed name)) /\ live_policies s' = None /\ serving s' = None /\ live_lan s' = false).
Proof.
  revert s. induction files as [|[name content] files IH]; intros s; cbn [publish_all fold_left].
  - intros [= <- <-]. left. by destruct s.
  - destruct (publishes h name); [apply IH|]. intros [= <- <-]. right. eauto.
Qed.

Lemma fold_insert (m : gmap string string) files : NoDup (map fst files) ->
  fold_left (fun d f => <[fst f := snd f]> d) files m = list_to_map files ∪ m.
Proof.
  revert m. induction files as [|[k v] files IH]; intros m; cbn [map fold_left fst snd]; [intros _; symmetry; apply (left_id_L ∅ (∪))|].
  intros [Hk Hn]%NoDup_cons. rewrite IH by done. cbn. rewrite <-insert_union_r; [by rewrite insert_union_l|]. by apply not_elem_of_list_to_map_1.
Qed.

Lemma published_files ip ids m :
  fold_left (fun d f => <[fst f := snd f]> d) (files_order h (map_to_list (resolver_files ip ids))) m = resolver_files ip ids ∪ m.
Proof.
  rewrite fold_insert by (rewrite (fmap_Permutation fst _ _ (order_perm _)); apply NoDup_fst_map_to_list). f_equal.
  rewrite (list_to_map_proper _ (map_to_list (resolver_files ip ids))); [apply list_to_map_to_list| |apply order_perm].
  rewrite (fmap_Permutation fst _ _ (order_perm _)). apply NoDup_fst_map_to_list.
Qed.

Lemma fold_delete (m : gmap string string) names k : (forall name, removes h name = true) ->
  fold_left (fun d name => if removes h name then delete name d else d) names m !! k = if decide (k ∈ names) then None else m !! k.
Proof.
  intros Hr. revert m. induction names as [|n names IH]; intros m; cbn [fold_left]; [by rewrite decide_False by set_solver|].
  rewrite Hr, IH. destruct (decide (k ∈ names)); [by rewrite decide_True by set_solver|]. destruct (decide (k = n)) as [->|].
  - rewrite lookup_delete_eq, decide_True by set_solver. done.
  - by rewrite lookup_delete_ne, decide_False by set_solver.
Qed.

Lemma removed_files ip ids (m : gmap string string) : (forall name, removes h name = true) -> m ##ₘ resolver_files ip ids ->
  fold_left (fun d name => if removes h name then delete name d else d) (map fst (map_to_list (resolver_files ip ids))) (resolver_files ip ids ∪ m) = m.
Proof.
  intros Hr Hd. apply map_eq. intros k. rewrite fold_delete by done. destruct (decide _) as [Hk|Hk].
  - apply list_elem_of_fmap in Hk as ([k' v] & -> & Hk%elem_of_map_to_list). symmetry. by eapply map_disjoint_Some_r.
  - apply lookup_union_r. destruct (resolver_files ip ids !! k) as [v|] eqn:E; [|done]. destruct Hk.
    apply list_elem_of_fmap. exists (k, v). split; [done|by apply elem_of_map_to_list].
Qed.

(** The files of one identity. *)
Definition env_file (id : Identity) : string * string := ("dns-" +++ idName id +++ ".env", "GHOSTD_DNS_ADDRESS=" +++ Listen id +++ newline).
Definition base_env (ip : Z) : string * string := ("dns.env", "GHOSTD_DNS_ADDRESS=" +++ IPString ip +++ newline).

Lemma env_name_inj a b : "dns-" +++ a +++ ".env" = "dns-" +++ b +++ ".env" -> a = b.
Proof. intros E%append_inj_l. by apply append_inj_r in E. Qed.

Lemma identity_files_kept id ids m : idName id ∉ map idName ids -> m !! fst (env_file id) = Some (snd (env_file id)) ->
  fold_left identity_files ids m !! fst (env_file id) = Some (snd (env_file id)).
Proof.
  intros Hn. revert m. induction ids as [|id' ids IH]; intros m Hm; [done|]. cbn [fold_left map] in *.
  apply not_elem_of_cons in Hn as [Hne Hn]. apply IH; [done|]. unfold identity_files. rewrite lookup_insert_ne by done.
  rewrite lookup_insert_ne; [done|]. intros E%env_name_inj. congruence.
Qed.

Lemma resolver_files_env ip ids id : NoDup (map idName ids) -> id ∈ ids -> resolver_files ip ids !! fst (env_file id) = Some (snd (env_file id)).
Proof.
  unfold resolver_files. generalize (base_files ip). induction ids as [|id' ids IH]; intros m Hn Hin; [by apply elem_of_nil in Hin|]. cbn [fold_left map] in *.
  apply NoDup_cons in Hn as [Hn' Hn]. apply elem_of_cons in Hin as [<-|Hin]; [|by apply IH].
  apply identity_files_kept; [done|]. unfold identity_files. rewrite lookup_insert_ne by done. apply lookup_insert_eq.
Qed.

Lemma resolver_files_base ip ids : resolver_files ip ids !! fst (base_env ip) = Some (snd (base_env ip)).
Proof.
  unfold resolver_files. apply (fold_left_inv identity_files (fun m => m !! fst (base_env ip) = Some (snd (base_env ip)))); [|done].
  intros id m _ Hm. unfold identity_files. by rewrite !lookup_insert_ne.
Qed.

Lemma setPolicies_lookup acl id : NoDup (map idName (Identities acl)) -> id ∈ Identities acl ->
  setPolicies acl !! idName id = Some (newPolicy id).
Proof.
  unfold setPolicies. generalize (∅ : gmap string Policy). induction (Identities acl) as [|id' ids IH]; intros m Hn Hin; [by apply elem_of_nil in Hin|].
  cbn [fold_left map] in *. apply NoDup_cons in Hn as [Hn' Hn]. apply elem_of_cons in Hin as [<-|Hin]; [|by apply IH]. clear IH.
  assert (Hm : <[idName id := newPolicy id]> m !! idName id = Some (newPolicy id)) by apply lookup_insert_eq. revert Hm. generalize (<[idName id := newPolicy id]> m).
  clear m Hn. induction ids as [|id' ids IH]; intros m Hm; [done|]. cbn [fold_left map] in *. apply not_elem_of_cons in Hn' as [Hne Hn'].
  apply IH; [done|]. by rewrite lookup_insert_ne.
Qed.

Lemma no_clash ip ids id : base_clash ip ids = None -> id ∈ ids -> listen_ip id <> Some ip.
Proof.
  intros Hf Hin E. apply list_elem_of_In in Hin. pose proof (List.find_none _ _ Hf id Hin) as Hc. cbn in Hc.
  unfold listen_ip in E. rewrite E in Hc. cbn in Hc. by rewrite Z.eqb_refl in Hc.
Qed.

(** An address is bound by one listener. *)
Lemma bound_once address ip ids id b : ParseIP address = Some ip -> base_clash ip ids = None -> NoDup (map listen_ip ids) -> id ∈ ids ->
  b ∈ listeners ip ids -> ParseIP (fst b) = listen_ip id -> b = (Listen id, Some (idName id)).
Proof.
  intros Hip Hc Hn Hin [->|(id' & -> & Hin')%list_elem_of_fmap]%elem_of_cons E; cbn [fst] in E.
  - rewrite read_ip in E by (by eapply ParseIP_range). by destruct (no_clash ip ids id Hc Hin).
  - change (ParseIP (Listen id')) with (listen_ip id') in E. cut (id' = id); [by intros ->|].
    clear Hc Hip. induction ids as [|x ids IH]; [by apply elem_of_nil in Hin|]. cbn [map] in Hn. apply NoDup_cons in Hn as [Hx Hn].
    apply elem_of_cons in Hin as [->|Hin], Hin' as [->|Hin']; [done| | |by apply IH].
    + destruct Hx. rewrite <-E. by apply list_elem_of_fmap_2.
    + destruct Hx. rewrite E. by apply list_elem_of_fmap_2.
Qed.

Lemma start_cases s address acl lan r s' : Start dhcp h s address acl lan = (r, s') ->
  (r <> Ok tt /\ (s' = s \/ (live_policies s' = None /\ (serving s' = None \/ (serving s' = serving s /\ directory s' = directory s)))))
  \/ (r = Ok tt /\ exists ip, ParseIP address = Some ip /\ Validate acl = Ok tt /\ base_clash ip (Identities acl) = None
      /\ s' = mkRHost (Some (setPolicies acl)) (lan || live_lan s) (Some (pluginCorefile dhcp PortDNS (IPString ip) Quad100 (Identities acl)))
                 (resolver_files ip (Identities acl) ∪ directory s)).
Proof.
  unfold Start, start. destruct (ParseIP address) as [ip|]; [|intros [= <- <-]; left; split; [done|by left]].
  destruct (Validate acl) as [[]|e]; [|intros [= <- <-]; left; split; [done|by left]].
  destruct (base_clash ip (Identities acl)) eqn:Hc; [intros [= <- <-]; left; split; [done|by left]|].
  destruct (caddy_starts h _); cbn [negb]; [|intros [= <- <-]; left; split; [done|right; cbn; auto]].
  destruct (mkdir_works h); cbn [negb]; [|intros [= <- <-]; left; split; [done|right; cbn; auto]].
  intros [[-> ->]|([name ->] & ? & ? & _)]%publish_all_cases; [right|left; split; [done|by auto]].
  split; [done|]. exists ip. cbn [directory live_policies live_lan serving]. rewrite published_files. by repeat split.
Qed.

(** C22: A start that succeeds serves a Corefile which, read line by line and word by word, is one
    server block per listener: the base listener's and, for each identity, one bound to its address
    behind its own policy, with nothing a policy file could add.  No other listener binds that
    address, the identity's policy is the one just loaded, and the published environment of the
    identity names that address. *)
Theorem start_guarded s address acl lan s' : Start dhcp h s address acl lan = (Ok tt, s') ->
  exists ip corefile, ParseIP address = Some ip /\ serving s' = Some corefile
    /\ map fields (split_char "010" corefile) = flat_map (block_lines dhcp) (listeners ip (Identities acl)) ++ [[]]
    /\ directory s' !! fst (base_env ip) = Some (snd (base_env ip))
    /\ forall id, id ∈ Identities acl ->
        live_policies s' ≫= lookup (idName id) = Some (newPolicy id)
        /\ (forall b, b ∈ listeners ip (Identities acl) -> ParseIP (fst b) = listen_ip id -> b = (Listen id, Some (idName id)))
        /\ directory s' !! fst (env_file id) = Some (snd (env_file id)).
Proof.
  intros [[? _]|(_ & ip & Hip & Hv & Hc & ->)]%start_cases; [done|].
  exists ip, (pluginCorefile dhcp PortDNS (IPString ip) Quad100 (Identities acl)).
  split; [done|]. split; [done|]. split; [by apply (corefile_words dhcp address)|].
  apply acl_sound in Hv as (Hs & Hn & Hl). cbn [directory live_policies]. split.
  - apply lookup_union_Some_l, resolver_files_base.
  - intros id Hid. split; [by apply setPolicies_lookup|]. split; [intros b; by apply (bound_once address)|].
    by apply lookup_union_Some_l, resolver_files_env.
Qed.

(** After a failed start: as before, or without policies and, but for a resolver that ran already,
    without a listener. *)
Definition nothing_open (s s' : rhost) : Prop :=
  s' = s \/ (live_policies s' = None /\ (serving s' = None \/ (serving s' = serving s /\ directory s' = directory s))).

(** A start that fails either changed nothing, or leaves no policy in force and no resolver of its
    own running, so that nothing is answered without a policy; and stopping a started resolver
    leaves the directory as it was before the start. *)
Theorem start_stop s address acl lan r s' : Start dhcp h s address acl lan = (r, s') ->
  (r <> Ok tt -> nothing_open s s')
  /\ (r = Ok tt -> forall ip, ParseIP address = Some ip -> directory s ##ₘ resolver_files ip (Identities acl) ->
       (forall name, removes h name = true) -> stop_started h ip acl s' = mkRHost None false None (directory s)).
Proof.
  intros [[Hr Hs]|(-> & ip & Hip & _ & _ & ->)]%start_cases; (split; [intros ?|intros ?]); try done.
  intros ip' Hip' Hd Hrm. assert (ip' = ip) as -> by congruence. unfold stop_started, stop. cbn [directory]. by rewrite removed_files.
Qed.
End Started.
