(* ===== verification/MdnsQuery.v ===== *)
(** The LAN side of the container resolver: the multicast query client (mdns/query.go), its use as
    the resolver's LAN client (mdns/lan.go), and the fallback to the host's name service
    (lookupHost, resolver.go).

    What the network gives is a parameter of each operation: the packets heard in the window, in
    their order, each decoded by the DNS library or not ([None]); the text of a record is [rr_text].
    dns.Fqdn is the parameter [Fqdn]; owner names are ASCII, on which strings.EqualFold is equality
    in lower case. *)

From S2P Require Import Prelude NetAddr Config Dns Mdns Resolver ResolverInv.
From Stdlib Require Import Ascii.
Local Open Scope Z_scope.

(** * The query client *)

Record netif := mkNetif { nifName : string; nifUp : bool; nifMulticast : bool; nifLoopback : bool }.

Definition query_interfaces (wanted : list string) (all : list netif) : list netif :=
  List.filter (fun i => nifUp i && nifMulticast i && negb (nifLoopback i)
                        && match wanted with [] => true | _ => mem_str (nifName i) wanted end) all.

Definition TypeOPT : Z := 41.
Definition TypeNSEC : Z := 47.

Section Query.
Context `{CaseFold} (rr_text : mRR -> string) (Fqdn : string -> string).

(** One record heard: kept unless it is of the protocol's own types or was heard before. *)
Definition hear (st : gset string * list mRR) (rr : mRR) : gset string * list mRR :=
  let '(seen, out) := st in
  if (Rrtype rr =? TypeOPT) || (Rrtype rr =? TypeNSEC) then st
  else if bool_decide (rr_text rr ∈ seen) then st
  else ({[rr_text rr]} ∪ seen, out ++ [rr]).
Definition hear_packet (st : gset string * list mRR) (p : option mMsg) : gset string * list mRR :=
  match p with
  | Some m => if mResponse m then fold_left hear (records m) st else st
  | None => st
  end.
Definition collect (packets : list (option mMsg)) : list mRR := snd (fold_left hear_packet packets (∅, [])).

(** What one query meets: whether packing, sockets and the list of interfaces work, on how many
    interfaces it is sent, what is heard, and whether the caller gives up before the window ends. *)
Record lan_io := mkLanIO { io_ok : bool; io_sent : nat; io_packets : list (option mMsg); io_cancelled : bool }.

(** The records, and whether there is an error. *)
Definition Query (io : lan_io) : list mRR * bool :=
  if negb (io_ok io) then ([], true)
  else if (io_sent io =? 0)%nat then ([], true)
  else (collect (io_packets io), io_cancelled io).

Definition clamp (rr : mRR) : mRR := mkMRR (hName rr) ClassINET (if 30 <? hTtl rr then 30 else hTtl rr) (hData rr).

Definition answers_question (name : string) (qtype : Z) (rr : mRR) : bool :=
  equal_fold (hName rr) (Fqdn name) && ((Rrtype rr =? qtype) || (qtype =? TypeANY)).
Definition Answers (rrs : list mRR) (name : string) (qtype : Z) : list mRR := map clamp (List.filter (answers_question name qtype) rrs).

Definition target_name (rr : mRR) : option string :=
  match hData rr with MPTR p => Some (ToLower p) | MSRV _ t => Some (ToLower t) | _ => None end.
Definition related_type (rr : mRR) : bool :=
  (Rrtype rr =? TypeSRV) || (Rrtype rr =? TypeTXT) || (Rrtype rr =? TypeA) || (Rrtype rr =? TypeAAAA).
Definition Related (rrs answers : list mRR) : list mRR :=
  let names := omap target_name answers in
  map clamp (List.filter (fun rr => mem_str (ToLower (hName rr)) names && related_type rr) rrs).

(** * The LAN client *)

Definition rr_ip (rr : mRR) : option Z := match hData rr with MA n => Some (of4 n) | MAAAA n => Some n | _ => None end.
Definition add_ip (st : gset string * list Z) (ip : Z) : gset string * list Z :=
  let '(seen, ips) := st in if bool_decide (IPString ip ∈ seen) then st else ({[IPString ip]} ∪ seen, ips ++ [ip]).

Definition failed (r : list mRR * bool) : bool := snd r && match fst r with [] => true | _ => false end.

(** LAN.Lookup: the A question, then the AAAA question. *)
Definition lan_lookup (name : string) (io4 io6 : lan_io) : option (list Z) :=
  if failed (Query io4) then None
  else
    let st4 := fold_left add_ip (omap rr_ip (Answers (fst (Query io4)) name TypeA)) (∅, []) in
    let st6 := if failed (Query io6) then st4 else fold_left add_ip (omap rr_ip (Answers (fst (Query io6)) name TypeAAAA)) st4 in
    Some (snd st6).

Definition lan_browse (name : string) (qtype : Z) (io : lan_io) : option (list mRR * list mRR) :=
  if failed (Query io) then None
  else let answers := Answers (fst (Query io)) name qtype in Some (answers, Related (fst (Query io)) answers).
End Query.

(** * The resolver's lookups *)

(** getent ahosts: cancelled, a status, or its output. *)
Inductive getent := TimedOut | Exit (code : Z) | Output (text : string).

Definition getent_line (st : gset string * list Z) (line : string) : gset string * list Z :=
  match fields line with
  | [] => st
  | f :: _ => match ParseIP f with Some ip => add_ip st ip | None => st end
  end.
Definition lookupHost (g : getent) : option (list Z) :=
  match g with
  | TimedOut => None
  | Exit code => if code =? 2 then Some [] else None
  | Output text => Some (snd (fold_left getent_line (split_char "010" text) (∅, [])))
  end.

Section Lookups.
Context `{CaseFold} (rr_text : mRR -> string) (Fqdn : string -> string).

Definition lookupLocal (lan : bool) (name : string) (io4 io6 : lan_io) (g : getent) : option (list Z) :=
  if lan then match lan_lookup rr_text Fqdn name io4 io6 with Some ips => Some ips | None => lookupHost g end
  else lookupHost g.
Definition browseLocal (lan : bool) (name : string) (qtype : Z) (io : lan_io) : browsed :=
  if lan then match lan_browse rr_text Fqdn name qtype io with Some (an, ex) => Browsed an ex | None => BrowseFailed end
  else NoLAN.
End Lookups.

(** * What the container resolver says about .local names is what the LAN said: addresses of the asked
    family, once each, and hosts granted by a browse only if a heard service names them. *)

(** * Addresses *)

Definition ip_range (n : Z) : Prop := 0 <= n < 2^128.

(** The addresses of a loop that skips printed duplicates. *)
Record ips_ok (st : gset string * list Z) : Prop := {
  io_nodup : NoDup (snd st);
  io_range : Forall ip_range (snd st);
  io_seen t : t ∈ fst st <-> exists ip, ip ∈ snd st /\ t = IPString ip;
}.

Lemma add_ip_ok st ip : ip_range ip -> ips_ok st -> ips_ok (add_ip st ip) /\ forall x, x ∈ snd (add_ip st ip) <-> x ∈ snd st \/ x = ip.
Proof.
  intros Hip [Hn Hr Hs]. destruct st as [seen ips]. unfold add_ip. cbn [fst snd] in *. destruct (bool_decide _) eqn:E.
  - apply bool_decide_eq_true in E. apply Hs in E as (ip' & Hin & E). rewrite Forall_forall in Hr. apply IPString_inj in E as <-; [|done|by apply Hr].
    split; [split; [done|by apply Forall_forall|done]|]. cbn. intros x. split; [by left|]. by intros [?| ->].
  - apply bool_decide_eq_false in E. rewrite Hs in E. split.
    + split; cbn.
      * apply NoDup_app. split; [done|]. split; [|apply NoDup_singleton]. intros x Hx ->%list_elem_of_singleton. destruct E. eauto.
      * apply Forall_app. split; [done|by constructor].
      * intros t. rewrite elem_of_union, elem_of_singleton, Hs. setoid_rewrite elem_of_app. setoid_rewrite list_elem_of_singleton. naive_solver.
    + intros x. cbn. by rewrite elem_of_app, list_elem_of_singleton.
Qed.

Lemma add_ips_ok ips st : Forall ip_range ips -> ips_ok st ->
  ips_ok (fold_left add_ip ips st) /\ forall x, x ∈ snd (fold_left add_ip ips st) <-> x ∈ snd st \/ x ∈ ips.
Proof.
  intros Hips. revert st. induction Hips as [|ip ips Hip Hips IH]; intros st Hst; cbn [fold_left].
  - split; [done|]. intros x. rewrite elem_of_nil. tauto.
  - destruct (add_ip_ok st ip Hip Hst) as [Hok Hx]. destruct (IH _ Hok) as [Hok' Hx']. split; [done|].
    intros x. rewrite Hx', Hx, elem_of_cons. tauto.
Qed.

Lemma no_ips_ok : ips_ok (∅, []).
Proof. split; cbn; [constructor|constructor|]. intros t. split; [set_solver|]. by intros (? & ?%elem_of_nil & _). Qed.

(** * Lookups *)

Section Lookups.
Context `{CaseFold} (rr_text : mRR -> string) (Fqdn : string -> string).

(** Address records as the wire carries them. *)
Definition wire_rr (rr : mRR) : Prop :=
  match hData rr with MA n => 0 <= n < 2^32 | MAAAA n => ip_range n | _ => True end.
Definition wire_packets (io : lan_io) : Prop :=
  forall m rr, Some m ∈ io_packets io -> rr ∈ records m -> wire_rr rr.

(** A record heard for the name. *)
Definition heard_for (name : string) (qtype : Z) (io : lan_io) (rr : mRR) : Prop :=
  rr ∈ fst (Query rr_text io) /\ answers_question Fqdn name qtype rr = true.

Lemma hear_from st rr x : x ∈ snd (hear rr_text st rr) -> x ∈ snd st \/ x = rr.
Proof.
  destruct st as [seen out]. unfold hear. repeat case_match; cbn; [by left..|]. rewrite elem_of_app, list_elem_of_singleton. tauto.
Qed.

Lemma hear_all_from rrs st x : x ∈ snd (fold_left (hear rr_text) rrs st) -> x ∈ snd st \/ x ∈ rrs.
Proof.
  revert st. induction rrs as [|rr rrs IH]; intros st; cbn [fold_left]; [by left|].
  intros [[?| ->]%hear_from|?]%IH; [by left|right; left|right; by right].
Qed.

Lemma query_from io x : x ∈ fst (Query rr_text io) -> exists m, Some m ∈ io_packets io /\ mResponse m = true /\ x ∈ records m.
Proof.
  unfold Query. destruct (negb (io_ok io)); [by intros ?%elem_of_nil|]. case_match; [by intros ?%elem_of_nil|]. cbn [fst]. unfold collect.
  cut (forall st, x ∈ snd (fold_left (hear_packet rr_text) (io_packets io) st) -> x ∈ snd st \/ exists m, Some m ∈ io_packets io /\ mResponse m = true /\ x ∈ records m).
  { intros Hc [?%elem_of_nil|?]%Hc; done. }
  induction (io_packets io) as [|p ps IH]; intros st; cbn [fold_left]; [by left|]. intros [Hx|(m & ? & ?)]%IH; [|right; exists m; split; [by right|done]].
  destruct p as [m|]; cbn [hear_packet] in Hx; [|by left]. destruct (mResponse m) eqn:Em; [|by left].
  apply hear_all_from in Hx as [?|?]; [by left|]. right. exists m. split; [left|done].
Qed.

Lemma answers_ips name qtype rrs ip : ip ∈ omap rr_ip (Answers Fqdn rrs name qtype) <->
  exists rr, rr ∈ rrs /\ answers_question Fqdn name qtype rr = true /\ rr_ip rr = Some ip.
Proof.
  rewrite list_elem_of_omap. unfold Answers. split.
  - intros (x & (rr & -> & Hrr)%list_elem_of_fmap & E). apply list_elem_of_In, filter_In in Hrr as [Hrr%list_elem_of_In Ha]. eauto.
  - intros (rr & Hrr & Ha & E). exists (clamp rr). split; [|done]. apply list_elem_of_fmap. exists rr. split; [done|].
    apply list_elem_of_In, filter_In. split; [by apply list_elem_of_In|done].
Qed.

Lemma wire_ip rr ip : wire_rr rr -> rr_ip rr = Some ip -> ip_range ip.
Proof.
  unfold wire_rr, rr_ip, ip_range. destruct (hData rr); try done; intros Hr [= <-]; [|done]. unfold of4. rewrite Z.shiftl_mul_pow2 by lia. lia.
Qed.

Lemma wire_answers io name qtype : wire_packets io -> Forall ip_range (omap rr_ip (Answers Fqdn (fst (Query rr_text io)) name qtype)).
Proof.
  intros Hw. apply Forall_forall. intros ip (rr & Hrr & _ & E)%answers_ips. apply query_from in Hrr as (m & Hm & _ & Hin).
  by apply (wire_ip rr); [eapply Hw|].
Qed.

(** The addresses heard for a host. *)
Definition heard_ip (name : string) (io4 io6 : lan_io) (ip : Z) : Prop :=
  exists rr, (heard_for name TypeA io4 rr \/ heard_for name TypeAAAA io6 rr) /\ rr_ip rr = Some ip.

Lemma failed_empty r : failed r = true -> fst r = [].
Proof. unfold failed. intros [_ ?]%andb_prop. by destruct (fst r). Qed.

Lemma lan_lookup_ips name io4 io6 ips : wire_packets io4 -> wire_packets io6 -> lan_lookup rr_text Fqdn name io4 io6 = Some ips ->
  NoDup ips /\ forall ip, ip ∈ ips <-> heard_ip name io4 io6 ip.
Proof.
  intros H4 H6. unfold lan_lookup. destruct (failed (Query rr_text io4)); [done|]. intros [= <-].
  destruct (add_ips_ok _ _ (wire_answers io4 name TypeA H4) no_ips_ok) as [Hok4 Hx4].
  revert Hok4 Hx4. generalize (fold_left add_ip (omap rr_ip (Answers Fqdn (fst (Query rr_text io4)) name TypeA)) (∅, [])). intros st4 Hok4 Hx4.
  assert (H' : let st6 := if failed (Query rr_text io6) then st4 else fold_left add_ip (omap rr_ip (Answers Fqdn (fst (Query rr_text io6)) name TypeAAAA)) st4 in
    ips_ok st6 /\ forall x, x ∈ snd st6 <-> x ∈ snd st4 \/ x ∈ omap rr_ip (Answers Fqdn (fst (Query rr_text io6)) name TypeAAAA)).
  { destruct (failed (Query rr_text io6)) eqn:Ef.
    - split; [exact Hok4|]. intros x. rewrite (failed_empty _ Ef). cbn. rewrite elem_of_nil. tauto.
    - apply (add_ips_ok _ _ (wire_answers io6 name TypeAAAA H6) Hok4). }
  destruct H' as [Hok Hx]. split; [apply Hok|]. intros ip. rewrite Hx, Hx4, !answers_ips, elem_of_nil. unfold heard_ip, heard_for. naive_solver.
Qed.

(** A record tells its address. *)
Lemma record_ip q a b rr : rr ∈ local_record q a -> rr ∈ local_record q b -> a = b.
Proof.
  unfold local_record. destruct (To4 (Some a)) as [n|] eqn:Ea, (To4 (Some b)) as [m|] eqn:Eb; repeat case_match;
    rewrite ?list_elem_of_singleton, ?elem_of_nil; try done; intros -> [=]; subst; [|done].
  apply To4_range in Ea as [_ ->], Eb as [_ ->]. done.
Qed.

(** The reply to an address question for a .local host holds exactly the addresses of the asked
    family that the LAN gave for that name while it was listened to, each once, with a time to live
    of thirty seconds; it says NXDOMAIN exactly when the LAN gave no address of either family. *)
Theorem lan_reply_exact q io4 io6 ips rcode answer extra : wire_packets io4 -> wire_packets io6 ->
  let name := trim_suffix (qName q) "." in
  lan_lookup rr_text Fqdn name io4 io6 = Some ips -> lookup_reply q (Some ips) = inr (mkReply rcode answer extra) ->
  NoDup answer /\ extra = []
  /\ (rcode = RcodeNameError <-> forall ip, ~ heard_ip name io4 io6 ip)
  /\ forall rr, rr ∈ answer <-> exists ip, heard_ip name io4 io6 ip /\
       (qType q = TypeA /\ (exists n, To4 (Some ip) = Some n /\ rr = mkMRR (qName q) ClassINET 30 (MA n))
        \/ qType q = TypeAAAA /\ To4 (Some ip) = None /\ rr = mkMRR (qName q) ClassINET 30 (MAAAA ip)).
Proof.
  intros H4 H6 name Hl [= <- <- <-]. destruct (lan_lookup_ips name io4 io6 ips H4 H6 Hl) as [Hn Hx]. clear Hl.
  assert (Hrec : forall ip rr, rr ∈ local_record q ip <->
    (qType q = TypeA /\ (exists n, To4 (Some ip) = Some n /\ rr = mkMRR (qName q) ClassINET 30 (MA n))
        \/ qType q = TypeAAAA /\ To4 (Some ip) = None /\ rr = mkMRR (qName q) ClassINET 30 (MAAAA ip))).
  { intros ip rr. unfold local_record. destruct (To4 (Some ip)) as [n|];
      [destruct (Z.eqb_spec (qType q) TypeA) as [E|E]|destruct (Z.eqb_spec (qType q) TypeAAAA) as [E|E]];
      rewrite ?list_elem_of_singleton, ?elem_of_nil; naive_solver. }
  split; [|split; [done|split]].
  - clear Hx. induction Hn as [|ip ips Hip Hn IH]; cbn [flat_map]; [constructor|]. apply NoDup_app. split; [|split; [|done]].
    + unfold local_record. repeat case_match; constructor; try constructor; by intros ?%elem_of_nil.
    + intros rr Hrr Hin. apply list_elem_of_In, in_flat_map in Hin as (ip' & Hip' & Hrr'%list_elem_of_In). destruct Hip.
      replace ip with ip' by (apply (record_ip q ip' ip rr); done). by apply list_elem_of_In.
  - destruct ips as [|ip ips]; split; try done.
    + intros _ ip Hh%Hx. by apply elem_of_nil in Hh.
    + intros Hno. destruct (Hno ip). apply Hx. left.
  - intros rr. rewrite list_elem_of_In, in_flat_map. split.
    + intros (ip & Hip%list_elem_of_In%Hx & Hrr%list_elem_of_In%Hrec). eauto.
    + intros (ip & Hh%Hx & Hrr%Hrec). exists ip. by rewrite <-!list_elem_of_In.
Qed.

Lemma clamped rr : hClass (clamp rr) = ClassINET /\ hTtl (clamp rr) <= 30 /\ hName (clamp rr) = hName rr /\ hData (clamp rr) = hData rr.
Proof. unfold clamp. cbn. split; [done|]. split; [|done]. destruct (Z.ltb_spec 30 (hTtl rr)); lia. Qed.

Lemma clamped_in f rrs x : x ∈ map clamp (List.filter f rrs) -> exists rr, x = clamp rr /\ rr ∈ rrs /\ f rr = true.
Proof. intros (rr & -> & Hrr)%list_elem_of_fmap. apply list_elem_of_In, filter_In in Hrr as [?%list_elem_of_In ?]. eauto. Qed.

(** What a browse gives is what the LAN said: every record was heard, is of class IN and lives at
    most thirty seconds; and a host the browse names as a service target, and so opens to the
    identity that asked, is the target of a service heard under the asked name, or under an instance
    an answer to the question points to. *)
Theorem browse_heard name qtype io answers extra : browseLocal rr_text Fqdn true name qtype io = Browsed answers extra ->
  (forall x, x ∈ answers ++ extra -> hClass x = ClassINET /\ hTtl x <= 30 /\
     exists rr, rr ∈ fst (Query rr_text io) /\ hName x = hName rr /\ hData x = hData rr)
  /\ forall host, host ∈ srv_targets (answers ++ extra) -> exists rr port,
       rr ∈ fst (Query rr_text io) /\ hData rr = MSRV port host
       /\ (heard_for name qtype io rr \/ exists a, heard_for name qtype io a /\ target_name a = Some (ToLower (hName rr))).
Proof.
  unfold browseLocal, lan_browse. destruct (failed _); [done|]. intros [= <- <-].
  assert (Ha : forall x, x ∈ Answers Fqdn (fst (Query rr_text io)) name qtype -> exists rr, x = clamp rr /\ heard_for name qtype io rr) by (apply clamped_in).
  split.
  - intros x [(rr & -> & Hrr & _)%Ha|(rr & -> & Hrr & _)%clamped_in]%elem_of_app; destruct (clamped rr) as (? & ? & ? & ?); eauto 6.
  - intros host (x & Hx & Ht)%list_elem_of_omap. unfold srv_target in Ht. apply elem_of_app in Hx as [(rr & -> & Hh)%Ha|(rr & -> & Hrr & [Hm _]%andb_prop)%clamped_in];
      rewrite (proj2 (proj2 (proj2 (clamped rr)))) in Ht; destruct (hData rr) as [| | |port t| |] eqn:Ed; simplify_eq; exists rr, port.
    + split; [apply Hh|]. split; [done|by left].
    + split; [done|]. split; [done|]. right. apply mem_str_spec, list_elem_of_omap in Hm as (a & (a' & -> & Ha')%Ha & Et). exists a'. split; [done|].
      unfold target_name in *. by rewrite (proj2 (proj2 (proj2 (clamped a')))) in Et.
Qed.
End Lookups.
