(* ===== verification/ResolverExample.v ===== *)
(** A small policy file, the runs on which the theorems about the container resolver apply, and what
    the resolver does not do. *)

From S2P Require Import Prelude Json NetAddr Config Dns Mdns Resolver ResolverInv MdnsQuery.
From Stdlib Require Import Ascii.
Local Open Scope Z_scope.

Definition office : Identity := mkIdentity "office" "100.64.0.2" ["example.com"] ["_ipp._tcp"].
Definition media : Identity := mkIdentity "media" "100.64.0.3" ["*"] [].
Definition two : ACL := mkACL [office; media].

Definition no_reverse (a : string) : string := EmptyString.

Definition browse_q : Question := mkQuestion "_ipp._tcp.local." TypePTR ClassINET.
Definition host_q : Question := mkQuestion "Lp.local." TypeA ClassINET.
Definition printer_ptr : mRR := mkMRR "_ipp._tcp.local." 32769 4500 (MPTR "Office\032Printer._ipp._tcp.local.").
Definition printer_srv : mRR := mkMRR "Office\032Printer._ipp._tcp.local." 32769 120 (MSRV 631 "lp.local.").
Definition printer_a : mRR := mkMRR "lp.local." 32769 120 (MA (192 * 2^24 + 168 * 2^16 + 7)).

Definition asked_browse : list revent := [EStart two; EAsk 1000 (Some "office") None [browse_q]].
Definition answered : revent := EDone 0 None (Browsed [printer_ptr] [printer_srv]) [2000].
Definition browsing : list revent := asked_browse ++ [answered].

Lemma browsing_ascii : Forall event_ascii browsing.
Proof. repeat constructor. Qed.

Lemma policy_exact_witness : fst (Decide 0 (newPolicy office) (mkQuestion "WWW.Example.com." TypeA ClassINET)) = true.
Proof.
  apply (policy_exact 0 (newPolicy office) (mkQuestion "WWW.Example.com." TypeA ClassINET)); [reflexivity|]. split; [reflexivity|].
  cbv beta iota zeta. exists "example.com". split; [left|]. right. exists ["www"]. reflexivity.
Defined.

(** The host is resolvable where the browse was asked ... *)
Lemma host_isolated_witness : exists p, policy_of (rrun no_reverse browsing) "office" = Some p /\
  (permits_name (pId p) "Lp.local." \/ exists t, browse_named no_reverse browsing "office" (ToLower "Lp.local.") t /\ 5000 < t + grant_life).
Proof.
  apply (host_isolated no_reverse browsing 5000 "office" None host_q); [apply browsing_ascii|reflexivity| |reflexivity|reflexivity].
  vm_compute. discriminate.
Defined.

(** ... and refused on another identity's listener. *)
Lemma host_refused_elsewhere : fst (ask no_reverse 5000 (rrun no_reverse browsing) (Some "media") None [host_q]) = Returned RcodeRefused.
Proof. vm_compute. reflexivity. Qed.

Lemma host_granted_witness : let st := rrun no_reverse browsing in
  ask no_reverse 5000 st (Some "office") None [host_q] = lease_serve no_reverse 5000 st (Some "office") None [host_q].
Proof.
  apply (host_granted no_reverse asked_browse 0 None [printer_ptr] [printer_srv] [2000] [] 5000 2000
    (mkPending (Some "office") browse_q true 1) "office" (newPolicy office) "lp.local."); try reflexivity; try discriminate.
  all: match goal with
       | |- _ ∈ _ => left
       | |- Forall _ _ => constructor; [cbn; intros t ->%list_elem_of_singleton; lia|constructor]
       | |- (_ <= _)%nat => apply Nat.leb_le; reflexivity
       end.
Defined.

Definition quiet_host : host := mkHost (fun _ => true) true (fun _ => true) (fun _ => true) (fun fs => fs).
Definition before : rhost := mkRHost None false None {["hosts" := "untouched"]}.
Definition after : rhost := snd (Start true quiet_host before "100.64.0.1" two true).

Lemma start_guarded_witness : exists ip corefile, ParseIP "100.64.0.1" = Some ip /\ serving after = Some corefile
  /\ map fields (split_char "010" corefile) = flat_map (block_lines true) (listeners ip (Identities two)) ++ [[]]
  /\ directory after !! fst (base_env ip) = Some (snd (base_env ip))
  /\ forall id, id ∈ Identities two ->
      live_policies after ≫= lookup (idName id) = Some (newPolicy id)
      /\ (forall b, b ∈ listeners ip (Identities two) -> ParseIP (fst b) = listen_ip id -> b = (Listen id, Some (idName id)))
      /\ directory after !! fst (env_file id) = Some (snd (env_file id)).
Proof. apply (start_guarded true quiet_host (fun fs => Permutation_refl fs) before "100.64.0.1" two true after). vm_compute. reflexivity. Defined.

Lemma start_stop_witness : (Ok tt <> Ok (E := start_error) tt -> nothing_open before after)
  /\ (Ok (E := start_error) tt = Ok tt -> forall ip, ParseIP "100.64.0.1" = Some ip -> directory before ##ₘ resolver_files ip (Identities two) ->
       (forall name, removes quiet_host name = true) -> stop_started quiet_host ip two after = mkRHost None false None (directory before)).
Proof. apply (start_stop true quiet_host (fun fs => Permutation_refl fs) before "100.64.0.1" two true (Ok tt) after). vm_compute. reflexivity. Defined.

(** * The LAN *)

Definition shown (rr : mRR) : string := hName rr +++ match hData rr with MPTR p => p | MSRV _ t => t | MA _ => "a" | _ => "other" end.
Definition dotted_name (s : string) : string := if has_suffix s "." then s else s +++ ".".
Definition said (rrs : list mRR) : lan_io := mkLanIO true 1 [None; Some (mkMMsg 0 true true 0 [] rrs [])] false.

Lemma lan_reply_exact_witness :
  let heard := said [printer_a] in
  NoDup [mkMRR "Lp.local." ClassINET 30 (MA (192 * 2^24 + 168 * 2^16 + 7))] /\ ([] : list mRR) = []
  /\ (0 = RcodeNameError <-> forall ip, ~ heard_ip shown dotted_name "Lp.local" heard heard ip)
  /\ forall rr, rr ∈ [mkMRR "Lp.local." ClassINET 30 (MA (192 * 2^24 + 168 * 2^16 + 7))] <-> exists ip, heard_ip shown dotted_name "Lp.local" heard heard ip /\
       (TypeA = TypeA /\ (exists n, To4 (Some ip) = Some n /\ rr = mkMRR "Lp.local." ClassINET 30 (MA n))
        \/ TypeA = TypeAAAA /\ To4 (Some ip) = None /\ rr = mkMRR "Lp.local." ClassINET 30 (MAAAA ip)).
Proof.
  assert (Hw : wire_packets (said [printer_a])).
  { intros m rr Hm Hrr. apply elem_of_cons in Hm as [Hm|Hm]; [discriminate|]. apply list_elem_of_singleton in Hm. injection Hm as ->.
    apply list_elem_of_singleton in Hrr as ->. cbn. lia. }
  apply (lan_reply_exact shown dotted_name host_q (said [printer_a]) (said [printer_a])
    [of4 (192 * 2^24 + 168 * 2^16 + 7)]); [exact Hw|exact Hw|vm_compute; reflexivity|vm_compute; reflexivity].
Defined.

Lemma browse_heard_witness :
  let io := said [printer_ptr; printer_srv; printer_a] in
  (forall x, x ∈ [clamp printer_ptr] ++ [clamp printer_srv] -> hClass x = ClassINET /\ hTtl x <= 30 /\
     exists rr, rr ∈ fst (Query shown io) /\ hName x = hName rr /\ hData x = hData rr)
  /\ forall host, host ∈ srv_targets ([clamp printer_ptr] ++ [clamp printer_srv]) -> exists rr port,
       rr ∈ fst (Query shown io) /\ hData rr = MSRV port host
       /\ (heard_for shown dotted_name "_ipp._tcp.local" TypePTR io rr
           \/ exists a, heard_for shown dotted_name "_ipp._tcp.local" TypePTR io a /\ target_name a = Some (ToLower (hName rr))).
Proof.
  apply (browse_heard shown dotted_name "_ipp._tcp.local" TypePTR (said [printer_ptr; printer_srv; printer_a])). vm_compute. reflexivity.
Defined.

(** A browse of a service type leaves out the addresses of the hosts its services are on. *)
Lemma browse_leaves_addresses :
  browseLocal shown dotted_name true "_ipp._tcp.local" TypePTR (said [printer_ptr; printer_srv; printer_a]) = Browsed [clamp printer_ptr] [clamp printer_srv].
Proof. vm_compute. reflexivity. Qed.

(** An alias heard for the asked name is not among the answers. *)
Lemma alias_not_answered : Answers dotted_name [mkMRR "lp.local." 1 30 (MOther 5)] "lp.local" TypeA = [].
Proof. vm_compute. reflexivity. Qed.

(** * Flaws *)

(** A service class allowed in capitals is accepted and then never allows anything. *)
Definition shouting : Identity := mkIdentity "office" "100.64.0.2" [] ["_IPP._tcp"].

Lemma capitals_never_allowed : Validate (mkACL [shouting]) = Ok tt
  /\ forall now q, ascii_name q -> serviceClass (qName q) = Some "_ipp._tcp" -> has_suffix (ToLower (qName q)) ".local." = true ->
     fst (Decide now (newPolicy shouting) q) = false.
Proof.
  split; [vm_compute; reflexivity|]. intros now q Hq Hc Hl. apply not_true_iff_false. intros Hd. apply (Decide_spec now (newPolicy shouting) q Hq) in Hd as [_ Hd].
  rewrite Hl, Hc in Hd. apply list_elem_of_singleton in Hd. discriminate.
Qed.

(** A start that fails to publish its second file leaves the first, naming a listener that is gone. *)
Definition full_host : host := mkHost (fun _ => true) true (fun name => negb (name =?s "resolv.conf")) (fun _ => true)
  (fun fs => List.filter (fun f => fst f =?s "dns.env") fs ++ List.filter (fun f => negb (fst f =?s "dns.env")) fs).

Lemma failed_start_leaves_env : let '(r, s) := Start true full_host before "100.64.0.1" (mkACL []) false in
  r = Err (PublishFailed "resolv.conf") /\ serving s = None /\ directory s !! "dns.env" = Some ("GHOSTD_DNS_ADDRESS=100.64.0.1" +++ newline).
Proof. vm_compute. split; [reflexivity|split; reflexivity]. Qed.
