(* ===== verification/Registry.v ===== *)
(** internal/replica/replica.go and the registry's calls of internal/rpc (dhcp.go, dnsmasq.go): a
    node that keeps an address book, alone or as the warm standby of another, and what may be asked
    of it.

    A node is the host of the takeover's model with what a standby adds: the leader's configuration
    kept for promotion, and what the running synchronisation has read and not yet written.  What the
    leader answers, and the documents of a call as they decode ([None]: not at all), are
    parameters. *)

From S2P Require Import Prelude Json State Auth Server NetAddr Ledger Config Allocate LeaseImport Sightings Report Dnsmasq Manager Handover.
From Stdlib Require Import Ascii.
Local Open Scope Z_scope.

(** * Nodes *)

(** What one synchronisation read from the leader; [None] for a leader without a registry. *)
Record batch := mkBatch { bEvents : list Event; bSnapshot : Snapshot; bConfig : option Config }.

Record node := mkReplica {
  nHost : host;
  mirror : option Config;               (* ConfigMirror *)
  fetched : option batch;
  following : bool;                     (* Run has not been cancelled *)
  promoted : bool;
}.
Definition set_nhost (h : host) (n : node) : node := mkReplica h (mirror n) (fetched n) (following n) (promoted n).
Definition set_mirror (c : option Config) (n : node) : node := mkReplica (nHost n) c (fetched n) (following n) (promoted n).
Definition set_fetched (b : option batch) (n : node) : node := mkReplica (nHost n) (mirror n) b (following n) (promoted n).
Definition set_following (on : bool) (n : node) : node := mkReplica (nHost n) (mirror n) (fetched n) on (promoted n).
Definition set_promoted (n : node) : node := mkReplica (nHost n) (mirror n) (fetched n) (following n) true.

Definition nprog (E A : Type) : Type := node -> node * outcome E A.
#[global] Instance nprog_ret {E} : MRet (nprog E) := fun A a n => (n, Done a).
#[global] Instance nprog_bind {E} : MBind (nprog E) := fun A B f m n =>
  match m n with
  | (n', Done a) => f a n'
  | (n', Failed e) => (n', Failed e)
  | (n', Stopped) => (n', Stopped)
  end.

Definition n_raise {E A} (e : E) : nprog E A := fun n => (n, Failed e).
Definition n_gets {E A} (f : node -> A) : nprog E A := fun n => (n, Done (f n)).
Definition n_modify {E} (f : node -> node) : nprog E unit := fun n => (f n, Done tt).
Definition n_attempt {E E' A} (m : nprog E A) : nprog E' (result E A) := fun n =>
  match m n with
  | (n', Done a) => (n', Done (Ok a))
  | (n', Failed e) => (n', Done (Err e))
  | (n', Stopped) => (n', Stopped)
  end.
Definition coded {E A} (f : E -> status) (m : nprog E A) : nprog status A := fun n =>
  match m n with
  | (n', Done a) => (n', Done a)
  | (n', Failed e) => (n', Failed (f e))
  | (n', Stopped) => (n', Stopped)
  end.
Definition on_host {A} (m : act A) : nprog string A := fun n => let '(h, r) := m (nHost n) in (set_nhost h n, r).
Definition n_effect (fate : command_fate) (f : node -> node) : nprog string unit := fun n =>
  (if command_effect fate then f n else n, command_outcome fate).

(** * The leader *)

(** The answers of one synchronisation, by the number of the call. *)
Record leader := mkLeader {
  le_dial : bool;
  le_events : nat -> Z -> option (list Event);
  le_snapshot : option Snapshot;
  le_state : option (option Config);
}.

Definition page_limit : nat := Z.to_nat 1000.

(** The pages of the log after the cursor; [fuel] bounds the calls, which the deadline of the
    synchronisation ends. *)
Fixpoint fetch_events (fuel k : nat) (le : leader) (after : Z) (acc : list Event) : result string (list Event) :=
  match fuel with
  | O => Err "leader events: deadline exceeded"
  | S fuel' =>
    match le_events le k after with
    | None => Err "leader events"
    | Some page =>
      if (length page <? page_limit)%nat then Ok (acc ++ page)
      else fetch_events fuel' (S k) le (match last page with Some e => EventID e | None => after end) (acc ++ page)
    end
  end.

Definition fetch (fuel : nat) (le : leader) (cursor : Z) : result string batch :=
  check (le_dial le) "dial";;
  es ← fetch_events fuel 0 le cursor [];
  match le_snapshot le with
  | None => Err "leader snapshot"
  | Some snap => match le_state le with
                 | None => Err "leader state"
                 | Some c => Ok (mkBatch es snap c)
                 end
  end.

Section Node.
Context (sha256_hex : string -> string) (duid_valid : string -> bool) (fingerprint : Config -> string).
Context (config_eqb : Config -> Config -> bool).
Context (out : outside).

Definition standby (n : node) : bool := mStandby (mgr (nHost n)).
Definition set_standby (on : bool) : nprog string unit :=
  on_host (modify (fun h => set_mgr (SetStandby on (mgr h)) h)).

(** The first half of SyncOnce, up to the last answer of the leader ... *)
Definition sync_fetch (fuel : nat) (le : leader) : nprog string unit :=
  cursor ← on_host (gets (fun h => ReplicaCursor (book (db h))));
  match fetch fuel le cursor with
  | Err e => n_raise e
  | Ok b => n_modify (set_fetched (Some b))
  end.

(** ... and the second: the mirror is written. *)
Definition sync_write : nprog string unit :=
  b ← n_gets fetched;
  match b with
  | None => mret tt
  | Some b =>
    n_modify (set_fetched None);;
    now ← on_host (ask (o_now out));
    _ ← on_host (commit_book out (ApplyReplicated now (bEvents b) (Some (bSnapshot b))));
    match bConfig b with
    | None => mret tt
    | Some c =>
      on_host (lift (Validate c));;
      fate ← on_host (ask (o_save out));
      n_effect fate (set_mirror (Some c))
    end
  end.

Definition SyncOnce (fuel : nat) (le : leader) : nprog string unit := sync_fetch fuel le;; sync_write.

Definition Promote : nprog string unit :=
  failed ← on_host (ask (o_load out));
  m ← n_gets mirror;
  if failed : bool then n_raise "load configuration"
  else match m with
  | None => n_raise "no leader configuration has been mirrored yet; nothing to promote"
  | Some cfg =>
    on_host (lift (Validate cfg));;
    n_modify (set_following false);;
    set_standby false;;
    r ← n_attempt (on_host (apply fingerprint out cfg));
    match r with
    | Ok _ => n_modify set_promoted
    | Err e => set_standby true;; n_modify (set_following true);; n_raise ("promotion failed, still a standby: " +++ e)
    end
  end.

(** * Authorization of a call *)

Context (srv : Server).

(** Who calls: the address of the peer and what the overlay knows of it. *)
Record peer := mkPeer { pr_addr : option string; pr_caller : result string (option Caller) }.

Definition peer_addr (p : peer) : result status string :=
  match pr_addr p with Some a => Ok a | None => Err (mkStatus Unauthenticated "rpc: no peer address on this connection") end.

Definition registryAuthMode (p : peer) (write allowStandby : bool) (n : node) : result status unit :=
  fail_if (write && negb allowStandby && standby n)
    (mkStatus FailedPrecondition "this daemon is a warm standby; its ledger belongs to the leader it mirrors until it is promoted");;
  _ ← peer_addr p;
  fail_if (write && ObserveOnly srv) (mkStatus FailedPrecondition "observation-only");;
  match (if write then AuthorizeDeployer (authenticator srv) (pr_caller p) else Identify (pr_caller p)) with
  | Err e => Err (mkStatus PermissionDenied e)
  | Ok _ => Ok tt
  end.
Definition registryAuth (p : peer) (write : bool) (n : node) : result status unit := registryAuthMode p write false n.

Definition authorized {A} (auth : node -> result status unit) (m : nprog status A) : nprog status A := fun n =>
  match auth n with Ok _ => m n | Err e => (n, Failed e) end.

Definition precondition (e : string) : status := mkStatus FailedPrecondition e.
Definition invalid (e : string) : status := mkStatus InvalidArgument e.
Definition plain_error (e : string) : status := mkStatus Internal e.

Definition decoded {D A} (d : option D) (m : D -> nprog status A) : nprog status A :=
  match d with Some x => m x | None => n_raise (invalid "json") end.
Definition locked {A} (m : nprog status A) : nprog status A := coded plain_error (on_host (lock out));; m.
Definition config_of : nprog status Config := n_gets (fun n => mConfig (mgr (nHost n))).

(** * The calls *)

Definition GetRegistry (p : peer) (scope address : string) (at_ after limit : Z) : nprog status (list Event + Snapshot) :=
  authorized (registryAuth p false)
    (if 0 <? limit
     then l ← coded plain_error (on_host (view out book)); coded invalid (on_host (lift (es ← Events after limit l; Ok (inl es))))
     else now ← coded plain_error (on_host (ask (o_now out))); l ← coded plain_error (on_host (view out book));
          coded invalid (on_host (lift (s ← take_snapshot now scope address at_ l; Ok (inr s))))).

Definition ImportLeases (p : peer) (doc : option ImportDocument_) : nprog status unit :=
  authorized (registryAuth p true) (decoded doc (fun doc => locked (
    c ← config_of; coded precondition (on_host (ImportDocument_h sha256_hex duid_valid out c doc))))).

(** A refused report is audited, so the ledger changes with the error. *)
Definition report_tx_h (c : Config) (n : Node) : act (list Binding) :=
  now ← ask (o_now out);
  r ← commit out (fun s => let '(l', r) := Report sha256_hex now c n (book s) in Ok (mkStore l' (journal s) (history s), r));
  lift r.

Definition reported (id : Auth.Identity) (ifs : list InterfaceReport) : Node := mkNode (IdNodeID id) (IdDNSName id) (IdAddresses id) ifs 0.

Definition report_auth (p : peer) (n : node) : result status Auth.Identity :=
  fail_if (ObserveOnly srv) (precondition "observation-only");;
  fail_if (standby n) (precondition "warm standby: report to the authority");;
  _ ← peer_addr p;
  match AuthorizeReporter (authenticator srv) (pr_caller p) with
  | Err e => Err (mkStatus PermissionDenied e)
  | Ok id => Ok id
  end.

Definition ReportHost (p : peer) (ifs : option (list InterfaceReport)) : nprog status (list Binding) := fun n =>
  match report_auth p n with
  | Err e => (n, Failed e)
  | Ok id => decoded ifs (fun ifs => locked (
      c ← config_of; coded precondition (on_host (report_tx_h c (reported id ifs))))) n
  end.

Definition RepairIdentity (p : peer) (changes : option (list IdentityRepair)) : nprog status unit :=
  authorized (registryAuth p true) (decoded changes (fun changes => locked (
    c ← config_of;
    coded precondition (on_host (now ← ask (o_now out); commit_book out (Repair now c changes)))))).

Definition default_ttl : Z := 300.
Definition ImportObservations (p : peer) (doc : option (Z * list Observation)) : nprog status Z :=
  authorized (registryAuth p true) (decoded doc (fun doc => locked (
    c ← config_of;
    let ttl := if fst doc =? 0 then default_ttl else fst doc in
    coded invalid (on_host (now ← ask (o_now out); commit_book out (ObserveSwitch now c (snd doc) ttl)));;
    mret (Z.of_nat (length (snd doc)))))).

(** * Changes of authority *)

Record handover_request := mkHandoverRequest {
  hAction : string; hTarget : Config; hLegacy : LegacySpec; hSeconds : Z; hEvidence : bool; hProbes : list Probe; hAllowPD : bool;
}.

(** handoverAction; [recover] is the recovery of an expired configuration change before a takeover
    begins.  The replies of status and history are read-only. *)
Definition handoverAction (recover : result status unit) (p : peer) (doc : option handover_request) : nprog status unit :=
  decoded doc (fun r =>
    authorized (registryAuth p (negb (hAction r =?s "status") && negb (hAction r =?s "history"))) (locked (
      (if hAction r =?s "begin" then match recover with Ok _ => mret tt | Err e => n_raise e end else mret tt);;
      _ ← coded plain_error (on_host (HandoverJournal_ out));
      if hAction r =?s "status" then mret tt
      else if hAction r =?s "probe" then _ ← coded precondition (on_host (Probe_ out)); mret tt
      else if hAction r =?s "history" then _ ← coded plain_error (on_host (HandoverHistory out)); mret tt
      else
        (if hAction r =?s "begin" then
           coded precondition (on_host (Begin sha256_hex duid_valid fingerprint out config_eqb (hTarget r) (hLegacy r) (hSeconds r)
             (hEvidence r) (hProbes r) (hAllowPD r)))
         else if hAction r =?s "confirm" then coded precondition (on_host (Confirm out))
         else if hAction r =?s "rollback" then coded precondition (on_host (Rollback sha256_hex duid_valid fingerprint out config_eqb))
         else n_raise (invalid "unknown handover action"));;
        _ ← coded plain_error (on_host (HandoverJournal_ out)); mret tt))).

(** DHCPHandover: [head] is the action and force of the document, [follower] says whether the daemon
    was started as a standby, [alive] whether the leader answers. *)
Definition DHCPHandover (recover : result status unit) (p : peer) (head : option (string * bool)) (doc : option handover_request)
    (follower alive : bool) : nprog status unit :=
  decoded head (fun '(action, force) =>
    if negb (action =?s "promote") && negb (action =?s "standby-status") then handoverAction recover p doc
    else authorized (registryAuthMode p (action =?s "promote") true) (locked (
      if negb follower then n_raise (precondition "this daemon is not a standby")
      else if action =?s "standby-status" then mret tt
      else
        s ← n_gets standby;
        if negb s then n_raise (precondition "already promoted")
        else if negb force && alive then n_raise (precondition "the leader still answers: stop or fence it first, or promote with force")
        else coded precondition Promote))).

End Node.
