(* ===== verification/RegistryInv.v ===== *)
(** What may change a node that keeps an address book: a call changes it only for a caller with the
    right to, a warm standby serves nobody until it is promoted, and mirroring gives it the leader's
    bindings. *)

From S2P Require Import Prelude Json State Auth Server NetAddr Ledger LedgerInv Config ConfigInv Allocate LeaseImport Sightings Report ReportInv Dnsmasq Manager ManagerInv Handover HandoverInv HandoverLive Registry.
From Stdlib Require Import Ascii.
Local Open Scope Z_scope.

(** * Calls *)

Inductive call :=
| CGet (scope address : string) (at_ after limit : Z)
| CImport (doc : option ImportDocument_)
| CReport (ifs : option (list InterfaceReport))
| CRepair (changes : option (list IdentityRepair))
| CObserve (doc : option (Z * list Observation))
| CHandover (recover : result status unit) (head : option (string * bool)) (doc : option handover_request) (follower alive : bool).

Definition forget {E A} (m : nprog E A) : nprog E unit := _ ← m; mret tt.

(** Nothing of a node changed but the clock of its calls to the outside. *)
Definition same_state (n n' : node) : Prop := exists k, n' = set_nhost (later k (nHost n)) n.

Lemma later_own h : later (ticks h) h = h.
Proof. by destruct h. Qed.
Lemma later_tick h : tick_on h = later (S (ticks h)) h.
Proof. done. Qed.

Lemma same_refl n : same_state n n.
Proof. exists (ticks (nHost n)). rewrite later_own. by destruct n. Qed.
Lemma same_trans a b c : same_state a b -> same_state b c -> same_state a c.
Proof. intros [k ->] [k' ->]. by exists k'. Qed.

Section Gate.
Context (sha256_hex : string -> string) (duid_valid : string -> bool) (fingerprint : Config -> string).
Context (config_eqb : Config -> Config -> bool).
Context (out : outside) (srv : Server).

Definition run_call (c : call) (p : peer) : nprog status unit :=
  match c with
  | CGet scope address at_ after limit => forget (GetRegistry out srv p scope address at_ after limit)
  | CImport doc => ImportLeases sha256_hex duid_valid out srv p doc
  | CReport ifs => forget (ReportHost sha256_hex out srv p ifs)
  | CRepair changes => RepairIdentity out srv p changes
  | CObserve doc => forget (ImportObservations out srv p doc)
  | CHandover recover head doc follower alive =>
      DHCPHandover sha256_hex duid_valid fingerprint config_eqb out srv recover p head doc follower alive
  end.

(** The caller has the right the call asks for. *)
Definition may_write (c : call) (p : peer) : Prop :=
  match c with
  | CReport _ => exists id, AuthorizeReporter (authenticator srv) (pr_caller p) = Ok id
  | _ => exists id, AuthorizeDeployer (authenticator srv) (pr_caller p) = Ok id
  end.
Definition promotion (c : call) : Prop :=
  match c with CHandover _ (Some (action, _)) _ _ _ => action = "promote" | _ => False end.

(** A program that reads. *)
Definition reads {E A} (m : nprog E A) : Prop := forall n n' r, m n = (n', r) -> same_state n n'.

Lemma r_ret {E A} (a : A) : reads (mret a : nprog E A).
Proof. intros n n' r [= <- _]. apply same_refl. Qed.
Lemma r_raise {E A} (e : E) : reads (n_raise e : nprog E A).
Proof. intros n n' r [= <- _]. apply same_refl. Qed.
Lemma r_gets {E A} (f : node -> A) : reads (n_gets f : nprog E A).
Proof. intros n n' r [= <- _]. apply same_refl. Qed.
Lemma r_bind {E A B} (m : nprog E A) (k : A -> nprog E B) : reads m -> (forall a, reads (k a)) -> reads (m ≫= k).
Proof.
  intros Hm Hk n n' r. unfold mbind, nprog_bind. destruct (m n) as [n1 [a|e|]] eqn:E1; apply Hm in E1.
  - intros H%Hk. by eapply same_trans.
  - by intros [= <- _].
  - by intros [= <- _].
Qed.
Lemma r_coded {E A} (f : E -> status) (m : nprog E A) : reads m -> reads (coded f m).
Proof. intros Hm n n' r. unfold coded. destruct (m n) as [n1 [a|e|]] eqn:E1; apply Hm in E1; by intros [= <- _]. Qed.
Lemma r_forget {E A} (m : nprog E A) : reads m -> reads (forget m).
Proof. intros Hm. apply r_bind; [done|]. intros a. apply r_ret. Qed.
Lemma r_host {A} (m : act A) : (forall h h' r, m h = (h', r) -> exists k, h' = later k h) -> reads (on_host m).
Proof. intros Hm n n' r. unfold on_host. destruct (m (nHost n)) as [h' r'] eqn:E. intros [= <- _]. apply Hm in E as [k ->]. by exists k. Qed.

Lemma r_ask {A} (f : nat -> A) : reads (on_host (ask f)).
Proof. apply r_host. intros h h' r [= <- _]. eexists. apply later_tick. Qed.
Lemma r_view {A} (f : store -> A) : reads (on_host (view out f)).
Proof.
  apply r_host. intros h h' r. unfold view, ask, mbind, act_bind. destruct (o_view out (ticks h)); intros [= <- _]; eexists; apply later_tick.
Qed.
Lemma r_lift {A} (x : result string A) : reads (on_host (lift x)).
Proof. apply r_host. intros h h' r [= <- _]. exists (ticks h). by rewrite later_own. Qed.
Lemma r_lock : reads (on_host (lock out)).
Proof.
  apply r_host. intros h h' r. unfold lock, ask, mbind, act_bind, refuse_if. destruct (o_lock out (ticks h)); intros [= <- _]; eexists; apply later_tick.
Qed.

Lemma r_locked {A} (m : nprog status A) : reads m -> reads (locked out m).
Proof. intros Hm. apply r_bind; [apply r_coded, r_lock|done]. Qed.
Lemma r_decoded {D A} (d : option D) (m : D -> nprog status A) : (forall x, reads (m x)) -> reads (decoded d m).
Proof. intros Hm. destruct d; [apply Hm|apply r_raise]. Qed.
Lemma r_authorized {A} auth (m : nprog status A) : reads m -> reads (authorized auth m).
Proof. intros Hm n n' r. unfold authorized. destruct (auth n); [apply Hm|]. intros [= <- _]. apply same_refl. Qed.
Lemma r_journal : reads (on_host (HandoverJournal_ out)).
Proof. apply r_view. Qed.

(** What a passed check establishes. *)
Definition entitled (c : call) (p : peer) (n : node) : Prop :=
  ObserveOnly srv = false /\ may_write c p /\ (standby n = true -> promotion c).

Lemma write_auth p allow n : registryAuthMode srv p true allow n = Ok tt ->
  ObserveOnly srv = false /\ (exists id, AuthorizeDeployer (authenticator srv) (pr_caller p) = Ok id) /\ (allow = false -> standby n = false).
Proof.
  unfold registryAuthMode. intros [Hs H]%seq_ok. apply fail_if_ok in Hs. apply result_bind_ok in H as (a & _ & H).
  apply seq_ok in H as [Ho H]. apply fail_if_ok in Ho. cbn [andb] in *. split; [done|].
  destruct (AuthorizeDeployer _ _) as [id|]; [|done]. split; [eauto|]. intros ->. by destruct (standby n).
Qed.

(** A call that runs behind a check, and only then does more than read. *)
Lemma gated_call {A} c p n n' r allow (m : nprog status A) : (allow = true -> promotion c) -> (forall ifs, c <> CReport ifs) ->
  authorized (registryAuthMode srv p true allow) m n = (n', r) -> same_state n n' \/ entitled c p n.
Proof.
  intros Ha Hc. unfold authorized. destruct (registryAuthMode srv p true allow n) as [[]|e] eqn:E; [|intros [= <- _]; left; apply same_refl].
  intros _. right. apply write_auth in E as (Ho & Hid & Hs). split; [done|]. split; [by destruct c; [..|specialize (Hc ifs)| | |]|].
  intros Hn. apply Ha. destruct allow; [done|]. by rewrite Hs in Hn.
Qed.

Lemma handover_gate recover p doc n n' r c : ~ promotion c -> (forall ifs, c <> CReport ifs) ->
  handoverAction sha256_hex duid_valid fingerprint config_eqb out srv recover p doc n = (n', r) -> same_state n n' \/ entitled c p n.
Proof.
  intros Hp Hc. unfold handoverAction, decoded. destruct doc as [q|]; [|intros [= <- _]; left; apply same_refl].
  destruct (hAction q =?s "status") eqn:Es; [|destruct (hAction q =?s "history") eqn:Eh].
  - cbn [negb andb]. intros H. left. revert H. apply r_authorized, r_locked. apply String.eqb_eq in Es. rewrite Es. cbn [String.eqb Ascii.eqb Bool.eqb].
    apply r_bind; [apply r_ret|]. intros []. apply r_bind; [apply r_coded, r_journal|]. intros _. apply r_ret.
  - cbn [negb andb]. intros H. left. revert H. apply r_authorized, r_locked. apply String.eqb_eq in Eh. rewrite Eh. cbn [String.eqb Ascii.eqb Bool.eqb].
    apply r_bind; [apply r_ret|]. intros []. apply r_bind; [apply r_coded, r_journal|]. intros _. apply r_bind; [apply r_coded, r_view|]. intros _. apply r_ret.
  - cbn [negb andb]. apply gated_call; [done|exact Hc].
Qed.

Lemma call_gate c p n n' r : run_call c p n = (n', r) -> same_state n n' \/ entitled c p n.
Proof.
  destruct c as [scope address at_ after limit|doc|ifs|changes|doc|recover [[action force]|] doc follower alive]; cbn [run_call].
  - intros H. left. revert H. apply r_forget, r_authorized. destruct (0 <? limit).
    + apply r_bind; [apply r_coded, r_view|]. intros l. apply r_coded, r_lift.
    + apply r_bind; [apply r_coded, r_ask|]. intros now. apply r_bind; [apply r_coded, r_view|]. intros l. apply r_coded, r_lift.
  - by apply gated_call.
  - unfold forget, ReportHost, mbind, nprog_bind. destruct (report_auth srv p n) as [id|e] eqn:E; [|intros [= <- _]; left; apply same_refl].
    intros _. right. unfold report_auth in E. apply seq_ok in E as [Ho E]. apply fail_if_ok in Ho. apply seq_ok in E as [Hs E]. apply fail_if_ok in Hs.
    apply result_bind_ok in E as (a & _ & E). split; [done|]. split; [|by rewrite Hs]. cbn. by destruct (AuthorizeReporter _ _) as [i|]; [exists i|].
  - by apply gated_call.
  - unfold forget, ImportObservations, mbind at 1, nprog_bind at 1. destruct (authorized _ _ n) as [n1 r1] eqn:E.
    apply (gated_call (CObserve doc)) in E; [|done|done]. destruct E as [E|E]; [|by right].
    intros H. left. destruct r1; injection H as <- _; done.
  - unfold DHCPHandover, decoded. destruct (negb (action =?s "promote") && negb (action =?s "standby-status")) eqn:Ea.
    + apply handover_gate; [|done]. intros ->. by vm_compute in Ea.
    + destruct (action =?s "promote") eqn:Ep; [apply String.eqb_eq in Ep as ->; by apply gated_call|].
      intros H. left. revert H. apply r_authorized, r_locked. destruct (negb follower); [apply r_raise|].
      destruct (action =?s "standby-status"); [apply r_ret|by rewrite andb_true_l in Ea].
  - intros [= <- _]. left. apply same_refl.
Qed.

(** No call changes anything of a node but for a caller with the right to: reading calls change
    nothing, a report needs a reporter and every other change a deployer, an observation-only daemon
    changes nothing, and a warm standby, whose ledger is its leader's, only yields to a promotion. *)
Theorem registry_gate c p n : same_state n (fst (run_call c p n)) \/ entitled c p n.
Proof. destruct (run_call c p n) as [n' r] eqn:E. by apply call_gate in E. Qed.
End Gate.

(** * A standby is silent *)

(** A standby's manager: nothing listens. *)
Definition silent (m : Manager) : Prop :=
  mStandby m = true /\ mDHCP m = ∅ /\ mDNS m = ∅ /\ mRA m = ∅ /\ mTFTP m = ∅.

Section Silent.
Context (sha256_hex : string -> string) (duid_valid : string -> bool) (fingerprint : Config -> string).
Context (config_eqb : Config -> Config -> bool).
Context (out : outside) (srv : Server).

Definition sil (h : host) : Prop := silent (mgr h).

Lemma sil_steady : steady sil.
Proof. by split_and!. Qed.
Lemma sil_tick h : sil h -> sil (tick_on h).
Proof. done. Qed.

Lemma silent_switch c m : silent m -> silent (switch c no_opening m).
Proof. intros (E1 & E2 & E3 & E4 & E5). unfold switch, silent. cbn. rewrite E1, E2, E3, E4, E5. done. Qed.

(** Whatever a standby is told to serve, it serves nothing. *)
Lemma sil_Apply c save : triple sil save (fun _ => sil) sil -> triple sil (Apply fingerprint out c save) (fun _ => sil) sil.
Proof.
  intros Hsave. unfold Apply. eapply t_bind with (R := fun m h => m = mgr h /\ sil h); [apply t_gets|]. intros m.
  eapply t_bind with (R := fun _ h => check_config c m = Ok tt /\ m = mgr h /\ sil h).
  { eapply t_conseq; [apply (t_lift (fun h => m = mgr h /\ sil h) (check_config c m) sil)|done| |done]; [by intros h [_ H]|]. by intros [] h [? ?]. }
  intros []. eapply t_bind with (R := fun _ h => check_config c m = Ok tt /\ m = mgr h /\ sil h); [apply t_ask; by intros h|]. intros now.
  eapply t_bind with (R := fun _ h => check_config c m = Ok tt /\ m = mgr h /\ sil h).
  { intros h (Hc & -> & Hh). unfold view, ask, mbind, act_bind. by destruct (o_view out (ticks h)). }
  intros l. eapply t_bind with (R := fun _ h => check_config c m = Ok tt /\ m = mgr h /\ sil h); [apply t_ask; by intros h|]. intros opens.
  assert (Hprep : check_config c m = Ok tt -> mStandby m = true -> exists r, prepare opens now c l m = (m, r) /\ forall o, r = Ok o -> o = no_opening).
  { intros Hc Hm. apply check_config_ok in Hc as [_ Hs]. specialize (Hs Hm). unfold prepare. destruct (_ ≫= _); [|by eexists].
    rewrite open_disabled; [eexists; split; [done|]; by intros o [= <-]|]. unfold serving in Hs. apply forallb_forall. intros s Hin.
    apply negb_true_iff. destruct (Enabled s) eqn:Ee; [|done]. by rewrite <-Hs; symmetry; apply existsb_exists; exists s. }
  destruct (prepare opens now c l m) as [m' r] eqn:Ep. intros h (Hc & -> & Hh). destruct (Hprep Hc (proj1 Hh)) as (r' & [= -> <-] & Hr).
  unfold mbind at 1, act_bind at 1, modify at 1. replace (set_mgr (mgr h) h) with h by (by destruct h). destruct r as [o|e]; [|exact Hh]. rewrite (Hr o eq_refl).
  revert h Hh Hc Ep Hprep. intros h Hh _ _ _.
  assert (Hgive : forall e, triple sil (give_up_opening no_opening e) (fun _ => sil) sil).
  { intros e. eapply t_bind with (R := fun _ => sil); [by apply t_modify|]. intros []. by apply t_raise. }
  enough (Ht : triple sil (now' ← ask (o_now out); rescue (commit_book out (fun l => (NoteDNSConfig now' (fingerprint c) l, Ok tt))) (give_up_opening no_opening);;
    rescue save (give_up_opening no_opening);; modify (fun h' => set_mgr (switch c no_opening (mgr h)) h')) (fun _ => sil) sil) by exact (Ht h Hh).
  eapply t_bind; [apply (s_ask sil sil_steady)|]. intros now'.
  eapply t_bind; [by apply t_rescue; [apply (s_book out sil sil_steady)|]|]. intros [].
  eapply t_bind; [by apply t_rescue|]. intros []. apply t_modify. intros h' _. by apply silent_switch.
Qed.

Lemma sil_ret {A} (a : A) : triple sil (mret a) (fun _ => sil) sil.
Proof. apply t_ret'. Qed.
Lemma sil_effect fate f : (forall h, mgr (f h) = mgr h) -> triple sil (effect fate f) (fun _ => sil) sil.
Proof. intros Hf. apply t_effect; intros h Hh; unfold sil in *; by rewrite ?Hf. Qed.
Lemma sil_systemctl f : (forall h, mgr (f h) = mgr h) -> triple sil (systemctl out f) (fun _ => sil) sil.
Proof. intros Hf. unfold systemctl. eapply t_bind; [apply (s_ask sil sil_steady)|]. intros fate. by apply sil_effect. Qed.
Lemma sil_save_config c : triple sil (SaveConfig out c) (fun _ => sil) sil.
Proof. unfold SaveConfig. eapply t_bind; [apply (s_ask sil sil_steady)|]. intros fate. by apply sil_effect. Qed.
Lemma sil_apply c : triple sil (apply fingerprint out c) (fun _ => sil) sil.
Proof. apply sil_Apply, sil_save_config. Qed.
Lemma sil_journal j : triple sil (saveHandover out j) (fun _ => sil) sil.
Proof. by apply t_saveHandover. Qed.
Lemma sil_refuse b e : triple sil (refuse_if b e) (fun _ => sil) sil.
Proof. by apply t_refuse'. Qed.
Lemma sil_lift {A} (r : result string A) : triple sil (lift r) (fun _ => sil) sil.
Proof. intros h Hh. by destruct r. Qed.
Lemma sil_gets {A} (f : host -> A) : triple sil (gets f) (fun _ => sil) sil.
Proof. apply t_gets'. Qed.

Lemma sil_start : triple sil (LegacyStart out) (fun _ => sil) sil.
Proof.
  unfold LegacyStart. eapply t_bind; [by apply sil_systemctl|]. intros []. eapply t_bind; [apply sil_gets|]. intros blocked.
  eapply t_bind; [apply (s_ask sil sil_steady)|]. intros to. eapply t_bind; [apply sil_systemctl; intros h; unfold start_unit; by destruct (masked _)|].
  intros []. eapply t_bind; [apply sil_refuse|]. intros []. eapply t_bind; [apply (s_ask sil sil_steady)|]. intros now. by apply s_await.
Qed.

Lemma sil_Rollback : triple sil (Rollback sha256_hex duid_valid fingerprint out config_eqb) (fun _ => sil) sil.
Proof.
  unfold Rollback. eapply t_bind; [apply (s_view out sil sil_steady)|]. intros j. destruct (finished_phase _); [apply sil_ret|].
  eapply t_bind; [apply sil_gets|]. intros m. eapply t_bind; [apply sil_refuse|]. intros []. eapply t_bind; [apply sil_journal|]. intros [].
  eapply t_bind; [apply sil_apply|]. intros []. eapply t_bind with (R := fun _ => sil).
  { destruct (Activated _); [apply (s_hand_back sha256_hex duid_valid out sil sil_steady)|apply sil_ret]. }
  intros []. eapply t_bind with (R := fun _ => sil).
  { destruct (Activated _); [apply (s_abandon out sil sil_steady)|apply sil_ret]. }
  intros n. eapply t_bind; [apply sil_apply|]. intros []. eapply t_bind; [apply sil_start|]. intros []. eapply t_bind; [apply sil_journal|]. intros [].
  apply (s_archive out sil sil_steady).
Qed.

Lemma sil_recover force : triple sil (recoverHandover sha256_hex duid_valid fingerprint out config_eqb force) (fun _ => sil) sil.
Proof.
  unfold recoverHandover. eapply t_bind; [apply (s_view out sil sil_steady)|]. intros j. destruct (is_empty _); [apply sil_ret|].
  eapply t_bind with (R := fun _ => sil).
  { destruct (force && _); [apply sil_Rollback|]. unfold Recover. eapply t_bind; [apply (s_view out sil sil_steady)|]. intros j'.
    eapply t_bind; [apply (s_ask sil sil_steady)|]. intros now. destruct (needs_recovery _ _); [apply sil_Rollback|apply sil_ret]. }
  intros []. apply t_rescue; [|intros e; apply sil_ret]. eapply t_bind; [apply (s_view out sil sil_steady)|]. intros a. apply sil_ret.
Qed.

Lemma sil_dropped (m : act unit) : triple sil m (fun _ => sil) sil -> triple sil (dropped m) (fun _ => sil) sil.
Proof. intros Hm. by eapply t_dropped. Qed.

Lemma sil_lock : triple sil (lock out) (fun _ => sil) sil.
Proof. unfold lock. eapply t_bind; [apply (s_ask sil sil_steady)|]. intros b. apply sil_refuse. Qed.

Lemma sil_drop_recover : triple sil (dropped (recoverHandover sha256_hex duid_valid fingerprint out config_eqb false;; mret tt)) (fun _ => sil) sil.
Proof. apply sil_dropped. eapply t_bind; [apply sil_recover|]. intros b. apply sil_ret. Qed.

Lemma sil_watch : triple sil (watch sha256_hex duid_valid fingerprint out config_eqb) (fun _ => sil) sil.
Proof.
  unfold watch. eapply t_bind; [apply sil_lock|]. intros []. eapply t_bind; [apply sil_drop_recover|]. intros [].
  eapply t_bind; [apply sil_gets|]. intros raw. eapply t_bind; [apply (s_ask sil sil_steady)|]. intros failed. eapply t_bind; [apply sil_gets|]. intros latest.
  destruct (failed || _); [apply sil_ret|]. apply sil_dropped. eapply t_bind; [apply sil_lift|]. intros []. eapply t_bind; [apply sil_Apply, sil_ret|]. intros [].
  apply t_modify. by intros h Hh.
Qed.

Lemma sil_configure c : triple sil (configure fingerprint out c) (fun _ => sil) sil.
Proof.
  unfold configure. eapply t_bind; [apply (s_view out sil sil_steady)|]. intros j. eapply t_bind; [apply sil_refuse|]. intros [].
  apply sil_Apply, sil_save_config.
Qed.

Lemma sil_load : triple sil (load_config out) (fun _ => sil) sil.
Proof.
  unfold load_config. eapply t_bind; [apply (s_ask sil sil_steady)|]. intros [|]; [by apply t_raise|]. eapply t_bind; [apply sil_gets|]. intros c.
  eapply t_bind with (R := fun _ => sil); [apply t_modify; by intros h Hh|]. intros []. eapply t_bind; [apply sil_lift|]. intros []. apply sil_ret.
Qed.

(** A daemon started as a standby comes up silent. *)
Lemma standby_starts : triple (fun _ => True) (startAddressbook sha256_hex duid_valid fingerprint out config_eqb false true) (fun _ => sil) (fun _ => True).
Proof.
  unfold startAddressbook.
  eapply t_bind with (R := fun _ h => mgr h = NewManager); [apply t_modify; by intros h _|]. intros [].
  eapply t_bind with (R := fun _ h => mgr h = NewManager).
  { unfold load_config. eapply t_bind with (R := fun _ h => mgr h = NewManager); [by intros h Hh|].
    intros [|]; [by apply t_raise|]. eapply t_bind with (R := fun _ h => mgr h = NewManager); [by intros h Hh|]. intros c.
    eapply t_bind with (R := fun _ h => mgr h = NewManager); [apply t_modify; by intros h Hh|]. intros [] h Hh. unfold lift, mbind, act_bind. by destruct (Validate c). }
  intros c. eapply t_bind with (R := fun _ => sil); [apply t_modify; intros h Hh; unfold sil; cbn; by rewrite Hh|]. intros [].
  eapply t_conseq with (P' := sil) (Q' := fun _ => sil) (E' := sil); [|done..].
  eapply t_bind; [apply sil_lock|]. intros []. eapply t_bind; [apply sil_drop_recover|]. intros []. eapply t_bind; [apply sil_load|]. intros config.
  apply t_rescue; [apply sil_Apply, sil_ret|]. intros e. eapply t_bind with (R := fun _ => sil).
  { pose proof (t_attempt sil _ _ _ (sil_recover true)) as Ht. eapply t_conseq; [exact Ht|done| |done]. intros [a|e'] h Hh; exact Hh. }
  intros [[|]|e']; [|by apply t_raise|by apply t_raise]. eapply t_bind; [apply sil_load|]. intros config'. apply sil_Apply, sil_ret.
Qed.

(** * Promotion *)

Lemma save_config_mgr c h : mgr (fst (SaveConfig out c h)) = mgr h.
Proof. unfold SaveConfig, ask, effect, mbind, act_bind. by destruct (o_save out (ticks h)). Qed.

Lemma kept_silent c m m' : silent m -> stops c (SetStandby false m) m' -> silent (SetStandby true m').
Proof.
  intros (_ & E2 & E3 & E4 & E5) ((_ & K2 & K3 & K4 & _) & K6 & _). unfold silent. cbn in *. rewrite K2, K3, K4, E2, E3, E4.
  rewrite E5 in K6. split_and!; try done. apply (anti_symm (⊆)); [done|apply map_empty_subseteq].
Qed.

Lemma apply_standby c h h' : apply fingerprint out c h = (h', Done tt) -> mStandby (mgr h') = mStandby (mgr h).
Proof.
  intros Ha. unfold apply, Apply, mbind, act_bind, gets, lift, view, ask in Ha. destruct (check_config c (mgr h)); [|done]. cbn [of_result ticks tick_on] in Ha.
  unfold mbind, act_bind in Ha. destruct (o_view out _); [done|]. cbn [gets] in Ha. destruct (prepare _ _ c _ (mgr h)) as [m' [o|e]] eqn:Ep; [|done].
  destruct (prepare_spec _ _ _ _ _ _ _ Ep) as (((_ & _ & _ & _ & Est) & _ & _) & _).
  cbn [modify of_result] in Ha. unfold rescue, commit_book, commit, mbind, act_bind, gets, ask, effect in Ha.
  destruct (o_commit out _); cbn [command_effect command_outcome] in Ha; try done. cbn [mret act_ret] in Ha.
  unfold SaveConfig, ask, effect, mbind, act_bind in Ha. destruct (o_save out _); cbn in Ha; try done. injection Ha as <-. exact Est.
Qed.

(** What a promotion comes to. *)
Definition taken_over (n n' : node) : Prop :=
  exists cfg, mirror n = Some cfg /\ Validate cfg = Ok tt /\ mConfig (mgr (nHost n')) = cfg /\ in_step (mgr (nHost n')) /\ mStandby (mgr (nHost n')) = false
    /\ promoted n' = true /\ following n' = false.
Definition still_standby (n n' : node) : Prop :=
  silent (mgr (nHost n')) /\ promoted n' = promoted n /\ mirror n' = mirror n /\ (following n = true -> following n' = true).

Lemma promote_cases n n' r : silent (mgr (nHost n)) -> Promote fingerprint out n = (n', r) ->
  (r = Done tt /\ taken_over n n') \/ (exists e, r = Failed e) /\ still_standby n n' \/ r = Stopped.
Proof.
  intros Hs. unfold Promote, mbind, nprog_bind. unfold on_host at 1, ask at 1. cbn [n_gets].
  set (h1 := tick_on (nHost n)). destruct (o_load out (ticks (nHost n))); [intros [= <- <-]; right; left; split; [eauto|by split_and!]|].
  cbn [mirror set_nhost]. destruct (mirror n) as [cfg|] eqn:Em; [|intros [= <- <-]; right; left; split; [eauto|by split_and!]].
  unfold on_host at 1, lift. destruct (Validate cfg) as [[]|e] eqn:Ev; cbn [of_result]; [|intros [= <- <-]; right; left; split; [eauto|by split_and!]].
  cbn [n_modify]. unfold set_standby at 1, on_host at 1, modify at 1, n_attempt, on_host. cbn [nHost set_nhost set_following].
  set (h2 := set_mgr (SetStandby false (mgr h1)) h1). destruct (apply fingerprint out cfg h2) as [h3 r3] eqn:Ea.
  destruct (apply_outcome fingerprint out cfg (SaveConfig out cfg) h2 h3 r3 (save_config_mgr cfg) Ea) as [Hres _].
  destruct r3 as [[]|e|]; [| |intros [= <- <-]; by right; right].
  - destruct Hres as [Ec Hin]. intros [= <- <-]. left. split; [done|]. exists cfg. cbn. split_and!; try done.
    apply apply_standby in Ea. exact Ea.
  - unfold set_standby, on_host, modify. cbn.
    intros [= <- <-]. right. left. split; [eauto|]. split_and!; try done. by apply (kept_silent cfg (mgr h1)).
Qed.

(** C34: Promotion is all or nothing.  When it succeeds the node is the authority: it serves exactly the
    configuration mirrored from the leader, with every listener that asks for, and its mirroring has
    been cancelled (a synchronisation that has read the leader's answers already may still write
    them: late_sync_replaces_lease).  When it fails with an error, at whatever call, the node is
    still a standby that serves nothing, mirrors on if it did, and keeps the mirrored
    configuration. *)
Theorem promotion_atomic n n' r : silent (mgr (nHost n)) -> Promote fingerprint out n = (n', r) ->
  (r = Done tt -> taken_over n n') /\ (forall e, r = Failed e -> still_standby n n').
Proof.
  intros Hs Hp. destruct (promote_cases n n' r Hs Hp) as [[-> Ht]|[[[e ->] Hst]| ->]]; by split.
Qed.
End Silent.

(** * A standby over time *)

Section Life.
Context (sha256_hex : string -> string) (duid_valid : string -> bool) (fingerprint : Config -> string).
Context (config_eqb : Config -> Config -> bool).
Context (srv : Server).
Local Abbreviation calls := (run_call sha256_hex duid_valid fingerprint config_eqb).

(** A promotion that the node was asked for and carried out. *)
Definition force_of (c : call) : bool := match c with CHandover _ (Some (_, force)) _ _ _ => force | _ => false end.
Definition leader_alive (c : call) : bool := match c with CHandover _ _ _ _ alive => alive | _ => false end.

Lemma same_silent n n' : same_state n n' -> silent (mgr (nHost n)) -> silent (mgr (nHost n')).
Proof. by intros [k ->]. Qed.

Lemma coded_cases {E A} (f : E -> status) (m : nprog E A) n n' r : coded f m n = (n', r) ->
  exists r0, m n = (n', r0) /\ match r0 with Done a => r = Done a | Failed e => r = Failed (f e) | Stopped => r = Stopped end.
Proof. unfold coded. destruct (m n) as [n1 [a|e|]]; intros [= <- <-]; by eexists. Qed.

Lemma promote_call out recover p force doc follower alive n n' r : silent (mgr (nHost n)) ->
  DHCPHandover sha256_hex duid_valid fingerprint config_eqb out srv recover p (Some ("promote", force)) doc follower alive n = (n', r) ->
  (r = Done tt /\ (force = true \/ alive = false) /\ exists n1, same_state n n1 /\ taken_over n1 n')
  \/ (r <> Done tt /\ (r = Stopped \/ silent (mgr (nHost n')))).
Proof.
  intros Hs. unfold DHCPHandover, decoded. cbn [String.eqb Ascii.eqb Bool.eqb negb andb]. unfold authorized.
  destruct (registryAuthMode srv p true true n) as [[]|e]; [|intros [= <- <-]; right; split; [done|by right]].
  unfold locked, mbind, nprog_bind. destruct (coded plain_error (on_host (lock out)) n) as [n1 r1] eqn:E1.
  pose proof (r_coded plain_error _ (r_lock out) _ _ _ E1) as Hsame. pose proof (same_silent _ _ Hsame Hs) as Hs1.
  destruct r1 as [[]|e|]; [|intros [= <- <-]; right; split; [done|by right]|intros [= <- <-]; right; split; [done|by left]].
  destruct follower; cbn [negb]; [|intros [= <- <-]; right; split; [done|by right]]. cbn [n_gets].
  replace (standby n1) with true by (symmetry; apply Hs1). cbn [negb].
  destruct (negb force && alive) eqn:Ef; [intros [= <- <-]; right; split; [done|by right]|].
  intros (r0 & Hp & Hr)%coded_cases. destruct (promote_cases fingerprint out n1 n' r0 Hs1 Hp) as [[-> Ht]|[[[e ->] (Hst & _)]| ->]]; subst r.
  - left. split; [done|]. split; [destruct force, alive; auto|eauto].
  - right. split; [done|by right].
  - right. split; [done|by left].
Qed.

(** Every other call leaves a standby as it was. *)
Lemma call_silent out c p n n' r : silent (mgr (nHost n)) -> calls out srv c p n = (n', r) ->
  (promotion c /\ r = Done tt /\ (force_of c = true \/ leader_alive c = false) /\ exists n1, same_state n n1 /\ taken_over n1 n')
  \/ ((promotion c -> r <> Done tt) /\ (r = Stopped \/ silent (mgr (nHost n')))).
Proof.
  intros Hs Hc. destruct (call_gate _ _ _ _ _ _ _ _ _ _ _ Hc) as [Hsame|(Ho & Hm & Hp)].
  { destruct c as [| | | | |recover [[action force]|] doc follower alive]; try (right; split; [done|right; by eapply same_silent]).
    destruct (decide (action = "promote")) as [->|Hne]; [|right; split; [done|right; by eapply same_silent]].
    destruct (promote_call out recover p force doc follower alive n n' r Hs Hc) as [(? & ? & ?)|[? ?]]; [by left|by right]. }
  specialize (Hp (proj1 Hs)). destruct c as [| | | | |recover [[action force]|] doc follower alive]; try done. cbn in Hp. subst action.
  destruct (promote_call out recover p force doc follower alive n n' r Hs Hc) as [(? & ? & ?)|[? ?]]; [by left|by right].
Qed.

(** The process is gone; what it held in memory with it. *)
Definition down (n : node) : node := mkReplica (halt (nHost n)) (mirror n) None true false.

(** The ledger of a node. *)
Definition nbook (n : node) : ledger := book (db (nHost n)).
Definition with_nbook (l : ledger) (n : node) : node := set_nhost (with_book l (nHost n)) n.

(** One event in the life of a standby, as long as no promotion succeeds; the flag says whether the
    daemon runs.  Calls arrive, mirroring reads and writes, the configuration is reloaded or changed,
    each with any errors and any crash; the watcher expires leases and notes neighbours; the daemon is killed, started, or fails to start; clients of
    the leader change its answers as they like. *)
Inductive nmove : bool * node -> bool * node -> Prop :=
| nm_call out c p n n' r : calls out srv c p n = (n', r) -> (promotion c -> r <> Done tt) -> r <> Stopped -> nmove (true, n) (true, n')
| nm_call_crash out c p n n' : calls out srv c p n = (n', Stopped) -> nmove (true, n) (false, down n')
| nm_fetch fuel le n n' r : sync_fetch fuel le n = (n', r) -> nmove (true, n) (true, n')
| nm_write out n n' r : sync_write out n = (n', r) -> r <> Stopped -> nmove (true, n) (true, n')
| nm_write_crash out n n' : sync_write out n = (n', Stopped) -> nmove (true, n) (false, down n')
| nm_act out a n h' r : match a with AWatch | AConfigure _ => True | _ => False end ->
    run_action sha256_hex duid_valid fingerprint config_eqb out a (nHost n) = (h', r) -> r <> Stopped -> nmove (true, n) (true, set_nhost h' n)
| nm_act_crash out a n h' : match a with AWatch | AConfigure _ => True | _ => False end ->
    run_action sha256_hex duid_valid fingerprint config_eqb out a (nHost n) = (h', Stopped) -> nmove (true, n) (false, down (set_nhost h' n))
| nm_expire now n : nmove (true, n) (true, with_nbook (Expire now (nbook n)) n)
| nm_neighbors now rows n : nmove (true, n) (true, with_nbook (fst (CollectNeighbors now (mConfig (mgr (nHost n))) rows (nbook n))) n)
| nm_kill n : nmove (true, n) (false, down n)
| nm_start out n h' : startAddressbook sha256_hex duid_valid fingerprint out config_eqb false true (nHost n) = (h', Done tt) ->
    nmove (false, n) (true, set_nhost h' n)
| nm_start_fails out n h' r : startAddressbook sha256_hex duid_valid fingerprint out config_eqb false true (nHost n) = (h', r) -> r <> Done tt ->
    nmove (false, n) (false, down (set_nhost h' n)).

Lemma fetch_silent fuel le n n' r : sync_fetch fuel le n = (n', r) -> silent (mgr (nHost n)) -> silent (mgr (nHost n')).
Proof.
  unfold sync_fetch, mbind, nprog_bind, on_host, gets. cbn. destruct (fetch fuel le _); intros [= <- _]; by destruct n.
Qed.

Lemma on_host_sil {A} (m : act A) n n' r : triple sil m (fun _ => sil) sil -> on_host m n = (n', r) -> silent (mgr (nHost n)) -> silent (mgr (nHost n')).
Proof.
  intros Hm. unfold on_host. destruct (m (nHost n)) as [h' r'] eqn:E. intros [= <- _] Hs. specialize (Hm _ Hs). rewrite E in Hm. by destruct r'.
Qed.

Lemma write_silent out n n' r : sync_write out n = (n', r) -> silent (mgr (nHost n)) -> silent (mgr (nHost n')).
Proof.
  unfold sync_write, mbind, nprog_bind, n_gets. destruct (fetched n) as [b|]; [|by intros [= <- _]]. cbn [n_modify].
  intros H Hs. assert (Hs0 : silent (mgr (nHost (set_fetched None n)))) by exact Hs. revert H. generalize (set_fetched None n) Hs0. clear Hs Hs0 n. intros n Hs.
  destruct (on_host (ask (o_now out)) n) as [n1 r1] eqn:E1. apply (on_host_sil _ _ _ _ (s_ask sil sil_steady _)) in E1; [|done].
  destruct r1 as [now|e|]; [|by intros [= <- _]|by intros [= <- _]].
  destruct (on_host (commit_book out _) n1) as [n2 r2] eqn:E2. apply (on_host_sil _ _ _ _ (s_book out sil sil_steady _)) in E2; [|done].
  destruct r2 as [cur|e|]; [|by intros [= <- _]|by intros [= <- _]]. destruct (bConfig b) as [c|]; [|by intros [= <- _]].
  destruct (on_host (lift (Validate c)) n2) as [n3 r3] eqn:E3. apply (on_host_sil _ _ _ _ (sil_lift _)) in E3; [|done].
  destruct r3 as [[]|e|]; [|by intros [= <- _]|by intros [= <- _]].
  destruct (on_host (ask (o_save out)) n3) as [n4 r4] eqn:E4. apply (on_host_sil _ _ _ _ (s_ask sil sil_steady _)) in E4; [|done].
  destruct r4 as [fate|e|]; [|by intros [= <- _]|by intros [= <- _]]. unfold n_effect. destruct (command_effect fate); by intros [= <- _].
Qed.

Definition silent_if_up (x : bool * node) : Prop := fst x = true -> silent (mgr (nHost (snd x))).

Lemma nmove_silent x y : nmove x y -> silent_if_up x -> silent_if_up y.
Proof.
  assert (Hact : forall out a h h' r, match a with AWatch | AConfigure _ => True | _ => False end ->
    run_action sha256_hex duid_valid fingerprint config_eqb out a h = (h', r) -> silent (mgr h) -> silent (mgr h')).
  { intros out a h h' r Ha Hr Hs. assert (Ht : triple sil (run_action sha256_hex duid_valid fingerprint config_eqb out a) (fun _ => sil) sil)
      by (destruct a; try done; [apply sil_watch|apply sil_configure]).
    specialize (Ht h Hs). rewrite Hr in Ht. by destruct r. }
  intros Hm. destruct Hm; intros Hx Hup; try done; cbn [fst snd] in *; try specialize (Hx eq_refl).
  - destruct (call_silent _ _ _ _ _ _ Hx H) as [(Hp & -> & _)|[_ [?|?]]]; [by destruct (H0 Hp)|done|done].
  - by eapply fetch_silent.
  - by eapply write_silent.
  - by eapply Hact.
  - exact Hx.
  - exact Hx.
  - pose proof (standby_starts sha256_hex duid_valid fingerprint config_eqb out (nHost n) I) as Ht. by rewrite H in Ht.
Qed.

(** C32: A warm standby serves nobody until it is promoted.  Whatever is asked of it, whatever its
    leader answers and whatever fails or crashes, a daemon started as a standby has no DHCP, DNS,
    advertisement or TFTP listener; the only call that changes this is an authorized promotion,
    which needs the leader to be silent or the operator's force, and takes over all of the mirrored
    configuration. *)
Theorem standby_silent n0 n : rtc nmove (false, n0) (true, n) ->
  silent (mgr (nHost n))
  /\ forall out c p n' r, calls out srv c p n = (n', r) -> r <> Stopped ->
       silent (mgr (nHost n'))
       \/ (promotion c /\ entitled srv c p n /\ (force_of c = true \/ leader_alive c = false) /\ exists n1, same_state n n1 /\ taken_over n1 n').
Proof.
  intros Hm. assert (Hs : silent (mgr (nHost n))).
  { assert (Hinv : forall x y, rtc nmove x y -> silent_if_up x -> silent_if_up y).
    { induction 1 as [|x y z Hxy _ IH]; [done|]. intros Hx. apply IH. by eapply nmove_silent. }
    by apply (Hinv _ _ Hm). }
  split; [done|]. intros out c p n' r Hc Hr. destruct (call_silent out c p n n' r Hs Hc) as [(Hp & -> & Hf & Ht)|[_ [?|?]]]; [|done|by left].
  right. destruct (call_gate _ _ _ _ _ _ _ _ _ _ _ Hc) as [Hsame|He]; [|done]. exfalso.
  destruct Ht as (n1 & [k1 ->] & cfg & _ & _ & _ & _ & Hst & _). destruct Hsame as [k ->]. cbn in Hst. by rewrite (proj1 Hs) in Hst.
Qed.
End Life.

(** * Mirroring *)

Section Mirroring.
Context (L : nat -> ledger).

(** The leader's ledger at successive moments: its log only grows. *)
Record authoritative : Prop := {
  au_grows k : events (L k) `prefix_of` events (L (S k));
  au_wf k : wf (L k);
  au_subject k : Forall one_subject (events (L k));
  au_sequence k : sequence (L k) < 2 ^ 64;
}.
Hypothesis HL : authoritative.

(** From the moment [t] on the leader answers the k-th call from its ledger at [t + k]. *)
Definition answers_from (t : nat) (le : leader) : Prop :=
  forall k after es, le_events le k after = Some es -> Events after 1000 (L (t + k)) = Ok es.

Lemma log_grows k k' : (k <= k')%nat -> events (L k) `prefix_of` events (L k').
Proof. induction 1 as [|k' _ IH]; [done|]. etrans; [exact IH|apply HL]. Qed.

Lemma nth_id l i e : wf l -> events l !! i = Some e -> EventID e = Z.of_nat (S i).
Proof.
  intros Hwf Hi. pose proof (wf_ids _ Hwf) as E. assert (Hl : map EventID (events l) !! i = Some (EventID e)) by (rewrite list_lookup_fmap, Hi; done).
  rewrite E, list_lookup_fmap in Hl. pose proof (lookup_lt_Some _ _ _ Hi). rewrite lookup_seq_lt in Hl by done. cbn in Hl. congruence.
Qed.

(** The pages read are the log from the cursor on, as it was at the last page. *)
Lemma fetch_log t le fuel : answers_from t le -> forall k m acc es, (m <= length (events (L (t + k))))%nat -> fetch_events fuel k le (Z.of_nat m) acc = Ok es ->
  exists k', (k <= k' <= k + fuel)%nat /\ es = acc ++ drop m (events (L (t + k'))).
Proof.
  intros Hle. induction fuel as [|fuel IH]; intros k m acc es Hm; cbn [fetch_events]; [done|].
  destruct (le_events le k (Z.of_nat m)) as [page|] eqn:Ep; [|done]. apply Hle in Ep.
  apply (Events_page (L (t + k)) m 1000 page (au_wf HL _)) in Ep. fold page_limit in Ep.
  destruct (Nat.ltb_spec (length page) page_limit) as [Hlt|Hge].
  - intros [= <-]. exists k. split; [lia|]. f_equal. rewrite Ep in *. rewrite length_take in Hlt. apply take_ge. lia.
  - assert (Hfull : length page = page_limit /\ (m + page_limit <= length (events (L (t + k))))%nat).
    { rewrite Ep, length_take, length_drop in *. lia. }
    destruct Hfull as [Hl Hle']. assert (Hlast : last page = events (L (t + k)) !! (m + page_limit - 1)%nat).
    { rewrite last_lookup, Hl, Ep. rewrite lookup_take_lt by (unfold page_limit; lia). rewrite lookup_drop. f_equal. unfold page_limit. lia. }
    destruct (events (L (t + k)) !! (m + page_limit - 1)%nat) as [e|] eqn:Ee; [|apply lookup_ge_None in Ee; unfold page_limit in *; lia].
    rewrite Hlast, (nth_id (L (t + k)) _ e (au_wf HL _) Ee). replace (S (m + page_limit - 1)) with (m + page_limit)%nat by (unfold page_limit; lia).
    intros (k' & Hk & ->)%IH; [|pose proof (prefix_length _ _ (log_grows (t + k) (t + S k) ltac:(lia))); lia]. exists k'. split; [lia|]. rewrite <-app_assoc. f_equal.
    destruct (log_grows (t + k) (t + k') ltac:(lia)) as [more ->]. rewrite !drop_app_le by lia. rewrite <-drop_drop, app_assoc. f_equal. rewrite Ep. apply take_drop.
Qed.

(** A leader that answers every call is read to the end of its log in one call per full page and one more. *)
Lemma fetch_completes t le fuel : (forall k, L k = L 0) -> answers_from t le -> (forall k after, is_Some (le_events le k after)) ->
  forall k m acc, (m <= length (events (L 0)))%nat -> (length (events (L 0)) - m < fuel * page_limit)%nat ->
  exists es, fetch_events fuel k le (Z.of_nat m) acc = Ok es.
Proof.
  intros Hconst Hle Hsome. induction fuel as [|fuel IH]; intros k m acc Hm Hf; [lia|]. cbn [fetch_events].
  destruct (Hsome k (Z.of_nat m)) as [page Ep]. rewrite Ep. apply Hle in Ep. rewrite Hconst in Ep.
  apply (Events_page (L 0) m 1000 page (au_wf HL 0)) in Ep. fold page_limit in Ep.
  destruct (Nat.ltb_spec (length page) page_limit) as [Hlt|Hge]; [eauto|].
  assert (Hfull : (m + page_limit <= length (events (L 0)))%nat) by (rewrite Ep, length_take, length_drop in Hge; lia).
  assert (Hlast : last page = events (L 0) !! (m + page_limit - 1)%nat).
  { assert (length page = page_limit) as Hl by (rewrite Ep, length_take, length_drop in *; lia).
    rewrite last_lookup, Hl, Ep. rewrite lookup_take_lt by (unfold page_limit; lia). rewrite lookup_drop. f_equal. unfold page_limit. lia. }
  destruct (events (L 0) !! (m + page_limit - 1)%nat) as [e|] eqn:Ee; [|apply lookup_ge_None in Ee; unfold page_limit in *; lia].
  rewrite Hlast, (nth_id (L 0) _ e (au_wf HL 0) Ee). replace (S (m + page_limit - 1)) with (m + page_limit)%nat by (unfold page_limit; lia).
  apply IH; lia.
Qed.

Lemma mirrors_grown until k k' cur l : (k <= k')%nat -> (cur <= length (events (L k)))%nat -> mirrors until (L k) cur l -> mirrors until (L k') cur l.
Proof. intros Hk Hc (E1 & E2 & E3). split_and!; [done|done|]. destruct (log_grows k k' Hk) as [more ->]. by rewrite take_app_le. Qed.

Lemma commit_book_any out {A} (f : ledger -> ledger * result string A) h h' r : commit_book out f h = (h', r) ->
  (book (db h') = book (db h) /\ forall a, r <> Done a) \/ exists a, f (book (db h)) = (book (db h'), Ok a).
Proof.
  unfold commit_book, commit, mbind, act_bind, gets. destruct (f (book (db h))) as [l' [x|e]]; [|intros [= <- <-]; by left]. unfold ask, effect.
  destruct (o_commit out (ticks h)); cbn; intros [= <- <-]; eauto; by left.
Qed.

(** What a synchronisation does to the ledger: nothing, or it applies all that it has read. *)
Lemma sync_book out fuel le n n' r : SyncOnce out fuel le n = (n', r) ->
  (nbook n' = nbook n /\ r <> Done tt)
  \/ exists es snap now cur', fetch_events fuel 0 le (ReplicaCursor (nbook n)) [] = Ok es
     /\ ApplyReplicated now es (Some snap) (nbook n) = (nbook n', Ok cur')
     /\ forall c, r = Done tt -> le_state le = Some (Some c) -> mirror n' = Some c /\ Validate c = Ok tt.
Proof.
  unfold SyncOnce, sync_fetch, mbind at 1, nprog_bind at 1, on_host, gets, mbind, nprog_bind. cbn [nHost set_nhost]. fold (nbook n).
  unfold fetch. destruct (le_dial le); [|intros [= <- <-]; by left]. cbn [check mbind result_bind].
  destruct (fetch_events fuel 0 le _ []) as [es|]; [|intros [= <- <-]; by left]. cbn [mbind result_bind].
  destruct (le_snapshot le) as [snap|]; [|intros [= <- <-]; by left]. destruct (le_state le) as [cfg|]; [|intros [= <- <-]; by left].
  cbn [n_modify]. unfold sync_write, mbind, nprog_bind, n_gets. cbn [fetched set_fetched n_modify bEvents bSnapshot bConfig].
  unfold on_host at 1, ask at 1. cbn [nHost set_nhost set_fetched]. unfold on_host at 1. cbn [nHost set_nhost].
  destruct (commit_book out _ _) as [h2 r2] eqn:Ec. apply commit_book_any in Ec as [[Eb Hn]|[cur' Ea]].
  - destruct r2 as [a|e|]; [by destruct (Hn a)|..]; intros [= <- <-]; left; split; try done; exact Eb.
  - assert (Ha : exists now, ApplyReplicated now es (Some snap) (nbook n) = (book (db h2), Ok cur')) by (eexists; exact Ea). clear Ea. destruct Ha as [now Ha].
    intros H. right. exists es, snap, now, cur'. split; [done|]. revert H. destruct r2 as [a|e|]; [|by intros [= <- <-]..].
    destruct cfg as [c|]; [|by intros [= <- <-]]. unfold on_host, lift, ask. cbn [nHost set_nhost].
    destruct (Validate c) as [[]|] eqn:Ev; cbn [of_result]; [|by intros [= <- <-]]. unfold n_effect.
    destruct (o_save out _); cbn; intros [= <- <-]; (split; [exact Ha|]); try (by intros); by intros c' _ [= <-].
Qed.

(** One round in the life of a standby's ledger.  It synchronises, with any outcome; the watcher
    expires leases, at [until] at the latest; or something happens that neither writes a binding nor
    moves the cursor (a neighbour is sighted, the configuration is applied, the daemon is restarted). *)
Inductive round (until : Z) : nat * node -> nat * node -> Prop :=
| r_sync t t' out fuel le n n' r : (t <= t')%nat -> answers_from t' le -> SyncOnce out fuel le n = (n', r) -> round until (t, n) (t' + fuel, n')%nat
| r_expire t now n : now <= until -> round until (t, n) (t, with_nbook (Expire now (nbook n)) n)
| r_other t n n' : bindings (nbook n') = bindings (nbook n) -> meta (nbook n') !! "replica-cursor" = meta (nbook n) !! "replica-cursor" ->
    round until (t, n) (t, n').

Definition follows (until : Z) (x : nat * node) : Prop :=
  exists cur, (cur <= length (events (L (fst x))))%nat /\ mirrors until (L (fst x)) cur (nbook (snd x)).

Lemma sync_follows until t t' out fuel le n n' r : (t <= t')%nat -> answers_from t' le -> follows until (t, n) -> SyncOnce out fuel le n = (n', r) ->
  exists k cur, (t' <= k <= t' + fuel)%nat /\ (cur <= length (events (L k)))%nat /\ mirrors until (L k) cur (nbook n')
    /\ (r = Done tt -> cur = length (events (L k)) /\ forall c, le_state le = Some (Some c) -> mirror n' = Some c /\ Validate c = Ok tt).
Proof.
  intros Ht Hle (cur & Hc & Hm) Hs. cbn [fst snd] in *. pose proof (prefix_length _ _ (log_grows t t' Ht)) as Hl.
  apply (mirrors_grown until t t' cur (nbook n) Ht Hc) in Hm.
  apply sync_book in Hs as [[Eb Hr]|(es & snap & now & cur' & Hf & Ha & Hmir)].
  - exists t', cur. rewrite Eb. split_and!; [lia|lia|lia|done|done].
  - rewrite (proj1 Hm) in Hf. apply (fetch_log t' le fuel Hle) in Hf as (k & Hk & ->); [|rewrite Nat.add_0_r; lia]. cbn [app] in Ha.
    pose proof (prefix_length _ _ (log_grows t' (t' + k) ltac:(lia))) as Hl'. exists (t' + k)%nat, (length (events (L (t' + k)))).
    split; [lia|]. split; [done|]. split; [|intros Er; split; [done|intros c; by apply Hmir]].
    apply (mirrors_grown until t' (t' + k)) in Hm; [|lia|lia].
    pose proof (mirrors_page until (L (t' + k)) (nbook n) (nbook n') cur (drop cur (events (L (t' + k)))) [] (Some snap) now cur'
      (au_wf HL _) (au_subject HL _) (au_sequence HL _) Hm ltac:(by rewrite app_nil_r, take_drop) ltac:(lia) Ha) as Hp.
    rewrite length_drop in Hp. by replace (cur + (length (events (L (t' + k))) - cur))%nat with (length (events (L (t' + k)))) in Hp by lia.
Qed.

Lemma round_follows until x y : round until x y -> follows until x -> follows until y.
Proof.
  destruct 1 as [t t' out fuel le n n' r Ht Hle Hs|t now n Hn|t n n' E1 E2]; intros Hf.
  - destruct (sync_follows _ _ _ _ _ _ _ _ _ Ht Hle Hf Hs) as (k & cur & Hk & Hc & Hm & _). exists cur. cbn [fst snd].
    pose proof (prefix_length _ _ (log_grows k (t' + fuel) ltac:(lia))). split; [lia|]. apply (mirrors_grown until k); [lia|done|done].
  - destruct Hf as (cur & Hc & Hm). exists cur. split; [done|]. by apply expire_mirrors.
  - destruct Hf as (cur & Hc & Hm). exists cur. split; [done|]. by eapply mirrors_other.
Qed.

(** The other things a standby's daemon writes to its ledger are such rounds. *)
Lemma note_round until t now text n : round until (t, n) (t, with_nbook (NoteDNSConfig now text (nbook n)) n).
Proof. apply r_other; cbn; unfold NoteDNSConfig; destruct (bool_decide _); try done. cbn. by rewrite lookup_insert_ne. Qed.

(** C33: A standby that mirrors an honest leader has the leader's leases.  Let a standby start with no
    bindings and no cursor, and let anything happen that a standby's daemon does: synchronisations
    that succeed or fail, at whatever call, while the leader's log grows; expiry rounds of its own,
    none later than [until] on its clock; sightings, reloads and restarts.  Then a synchronisation
    that returns has taken in the leader's log up to some moment of the reading: the standby's cursor
    is at its end; every binding is the one the leader had then, except that a lease that has run
    out may be marked expired already, before the leader does it, and there are no others; and
    the configuration the leader sent, checked, is kept for a promotion.  (A ledger that was not
    empty, such as a former authority's, is not replaced: old_ledger_stays.) *)
Theorem sync_converges until t0 n0 t n t' out fuel le n' c :
  bindings (nbook n0) = ∅ -> ReplicaCursor (nbook n0) = 0 -> rtc (round until) (t0, n0) (t, n) ->
  (t <= t')%nat -> answers_from t' le -> le_state le = Some (Some c) -> SyncOnce out fuel le n = (n', Done tt) ->
  exists k, (t' <= k <= t' + fuel)%nat /\ ReplicaCursor (nbook n') = Z.of_nat (length (events (L k)))
    /\ (forall key, lapsed until (bindings (L k) !! key) (bindings (nbook n') !! key))
    /\ mirror n' = Some c /\ Validate c = Ok tt.
Proof.
  intros Hb Hcur Hr Ht Hle Hc Hs. assert (Hf : follows until (t, n)).
  { assert (H0 : follows until (t0, n0)).
    { exists 0%nat. split; [cbn; lia|]. split_and!; [done|by intros k b; cbn [snd]; rewrite Hb, lookup_empty|]. intros k. left. cbn [snd]. by rewrite Hb. }
    remember (t, n) as y. remember (t0, n0) as x. clear -HL Hr H0. induction Hr; [done|]. apply IHHr. by eapply round_follows. }
  destruct (sync_follows _ _ _ _ _ _ _ _ _ Ht Hle Hf Hs) as (k & cur & Hk & _ & (H1 & _ & H3) & Hd). destruct (Hd eq_refl) as [-> Hm].
  exists k. rewrite firstn_all, <-(wf_log _ (au_wf HL k)) in H3. split_and!; [lia|lia|done|done|by apply Hm..].
Qed.
End Mirroring.
