(* ===== verification/RegistryExample.v ===== *)
(** A warm standby of the small network of BookExample: it starts, mirrors its leader and is promoted;
    and a promotion during which mirroring has not ended. *)

From S2P Require Import Prelude Json State Auth Server NetAddr Ledger LedgerInv Config ConfigInv AddrText Allocate AllocInv LeaseImport Sightings.
From S2P Require Import Report ReportInv BookExample Dnsmasq Manager ManagerInv Handover HandoverInv HandoverLive HandoverExample Registry RegistryInv.
Local Open Scope Z_scope.

Module RegistryExample.
Import BookExample HandoverExample.

(** dnsmasq is masked, ghostd has nothing configured. *)
Definition spare_host : host :=
  mkHost (mkStore empty_ledger no_journal []) no_config EmptyString (mkUnit true Inactive) NewManager no_config 0.
Definition spare : node := mkReplica spare_host None None true false.

Definition daemon : Server := mkServer false (NewAuthenticator "tag:deploy") "/usr/bin/ghostd" "/var/lib/ghostd" ∅.
Definition ops : peer := mkPeer (Some "100.64.0.9:4321") (Ok (Some (mkCaller "ops@example.com" "node-o" "ops.tail.example" ["tag:deploy"] [] ∅))).

Definition answers_with (l : ledger) : leader :=
  mkLeader true (fun _ after => match Events after 1000 l with Ok es => Some es | Err _ => None end)
    (match take_snapshot 1200 EmptyString EmptyString 0 l with Ok s => Some s | Err _ => None end) (Some (Some lan_only)).

Definition fair : outside := calls 1200 Inactive.
Definition up_host : host := fst (started fair false true spare_host).
Definition standing : node := set_nhost up_host spare.
Definition synced : node := fst (SyncOnce fair 1 (answers_with two_leases) standing).
Definition promote : call := CHandover (Ok tt) (Some ("promote", false)) None true false.
Definition asks (c : call) (p : peer) (n : node) : node * outcome status unit :=
  run_call digest64 accept_duid zero_print never_equal fair daemon c p n.
Definition authority : node := fst (asks promote ops synced).

Lemma stands : rtc (nmove digest64 accept_duid zero_print never_equal daemon) (false, spare) (true, synced).
Proof.
  eapply rtc_l; [apply (nm_start _ _ _ _ _ fair spare up_host); apply (pair_fst (started fair false true spare_host)); vm_compute; reflexivity|].
  eapply rtc_l; [apply (nm_fetch _ _ _ _ _ 1 (answers_with two_leases) standing (fst (sync_fetch 1 (answers_with two_leases) standing)) (Done tt));
    apply pair_fst; vm_compute; reflexivity|].
  apply rtc_once, (nm_write _ _ _ _ _ fair _ synced (Done tt)); [|discriminate]. unfold synced, SyncOnce, mbind, nprog_bind.
  destruct (sync_fetch 1 (answers_with two_leases) standing) as [n1 r1] eqn:E. assert (r1 = Done tt) as ->.
  { change r1 with (snd (n1, r1)). rewrite <-E. vm_compute. reflexivity. }
  cbn [fst]. apply pair_fst. change n1 with (fst (n1, Done tt : outcome string unit)). rewrite <-E. vm_compute. reflexivity.
Qed.

Lemma standby_silent_witness : silent (mgr (nHost synced))
  /\ (silent (mgr (nHost authority))
      \/ (promotion promote /\ entitled daemon promote ops synced /\ (force_of promote = true \/ leader_alive promote = false)
          /\ exists n1, same_state synced n1 /\ taken_over n1 authority)).
Proof.
  destruct (standby_silent digest64 accept_duid zero_print never_equal daemon spare synced stands) as [H1 H2].
  split; [exact H1|]. apply (H2 fair promote ops authority (Done tt)); [|discriminate].
  apply (pair_fst (asks promote ops synced)). vm_compute. reflexivity.
Defined.

Lemma promotion_atomic_witness : silent (mgr (nHost synced)) /\ taken_over synced (fst (Promote zero_print fair synced)).
Proof.
  assert (Hs : silent (mgr (nHost synced))) by (split_and!; vm_compute; reflexivity).
  split; [exact Hs|]. apply (promotion_atomic zero_print fair synced _ (Done tt) Hs); [|reflexivity].
  apply (pair_fst (Promote zero_print fair synced)). vm_compute. reflexivity.
Defined.

(** Anna's lease first, then Bob's too. *)
Definition ledger_at (k : nat) : ledger := match k with O => one_lease | _ => two_leases end.

Lemma leader_authoritative : authoritative ledger_at.
Proof.
  split; intros [|k]; cbn [ledger_at].
  - exists (drop 1 (events two_leases)). vm_compute. reflexivity.
  - reflexivity.
  - apply one_ok.
  - apply two_ok.
  - apply subjects_check. vm_compute. reflexivity.
  - apply subjects_check. vm_compute. reflexivity.
  - vm_compute. reflexivity.
  - vm_compute. reflexivity.
Qed.
Lemma answers_two t : (0 < t)%nat -> answers_from ledger_at t (answers_with two_leases).
Proof.
  intros Ht k after es. unfold answers_with. cbn [le_events]. destruct t; [lia|]. cbn [ledger_at Nat.add].
  destruct (Events after 1000 two_leases) as [es'|]; [|discriminate]. intros E. apply Some_inj in E. rewrite E. reflexivity.
Qed.

(** The standby expires what has run out at 5000, Anna's and Bob's leases among it, and is
    synchronised again. *)
Definition resynced : node := fst (SyncOnce fair 1 (answers_with two_leases) (with_nbook (Expire 5000 (nbook synced)) synced)).
Lemma rounds : rtc (round ledger_at 5000) (0%nat, standing) (2%nat, with_nbook (Expire 5000 (nbook synced)) synced).
Proof.
  eapply rtc_l; [|apply rtc_once, r_expire; lia].
  apply (r_sync ledger_at 5000 0 1 fair 1 (answers_with two_leases) standing synced (Done tt)); [lia|apply answers_two; lia|].
  apply (pair_fst (SyncOnce fair 1 (answers_with two_leases) standing)). vm_compute. reflexivity.
Qed.

Lemma sync_converges_witness : mirror resynced = Some lan_only
  /\ bState (readBinding (nbook resynced) "lan" "10.0.0.11") = "expired"
  /\ lapsed 5000 (bindings two_leases !! key_of bob_lease) (bindings (nbook resynced) !! key_of bob_lease).
Proof.
  destruct (sync_converges ledger_at leader_authoritative 5000 0 standing 2 (with_nbook (Expire 5000 (nbook synced)) synced) 2 fair 1 (answers_with two_leases)
    resynced lan_only) as (k & Hk & _ & Hb & Hm & _).
  - vm_compute. reflexivity.
  - vm_compute. reflexivity.
  - exact rounds.
  - lia.
  - apply answers_two. lia.
  - reflexivity.
  - apply (pair_fst (SyncOnce fair 1 (answers_with two_leases) (with_nbook (Expire 5000 (nbook synced)) synced))). vm_compute. reflexivity.
  - split; [exact Hm|]. split; [vm_compute; reflexivity|]. specialize (Hb (key_of bob_lease)). destruct k as [|k]; [lia|exact Hb].
Defined.

(** A former authority that is started again as a standby of a leader with an empty log keeps the
    leases it has: nothing clears its ledger. *)
Definition former : node := with_nbook two_leases standing.
Lemma old_ledger_stays : snd (SyncOnce fair 1 (answers_with empty_ledger) former) = Done tt
  /\ bindings (nbook (fst (SyncOnce fair 1 (answers_with empty_ledger) former))) = bindings two_leases /\ bindings two_leases <> ∅.
Proof. split_and!; [vm_compute; reflexivity..|]. intros E. assert (H : size (bindings two_leases) = 0%nat) by (by rewrite E). vm_compute in H. discriminate H. Qed.

(** * A promotion while mirroring *)

(** The standby has mirrored Anna's lease and read, but not yet written, Bob's; it is promoted and
    leases Bob's address to a third client. *)
Definition mirrored : node := fst (SyncOnce fair 1 (answers_with one_lease) standing).
Definition reading : node := fst (sync_fetch 1 (answers_with two_leases) mirrored).
Definition promoted_early : node := fst (asks promote ops reading).
Definition dora : string := "mac:02:00:00:00:00:0d".
Definition give (n : node) : node :=
  let h := nHost n in
  set_nhost (set_db (mkStore (fst (Allocate digest64 1300 lan_only "lan" dora "02:00:00:00:00:0d" "host" "10.0.0.11" true (nbook n)))
                       (journal (db h)) (history (db h))) h) n.
Definition given : node := give promoted_early.
Definition overwritten : node := fst (sync_write fair given).

(** Cancelling the loop does not stop the synchronisation under way: it writes after the promotion,
    and the lease the new authority has granted is Bob's again. *)
Lemma late_sync_replaces_lease :
  snd (asks promote ops reading) = Done tt /\ following promoted_early = false
  /\ Client (readBinding (nbook given) "lan" "10.0.0.11") = dora /\ bState (readBinding (nbook given) "lan" "10.0.0.11") = "active"
  /\ snd (sync_write fair given) = Done tt /\ Client (readBinding (nbook overwritten) "lan" "10.0.0.11") = bob.
Proof. split_and!; vm_compute; reflexivity. Qed.
End RegistryExample.
